(* ===== verification/_CoqProject ===== *)
-Q . S2P
Prelude.v
Bitmap.v
PageAllocator.v
Pmm.v
Physmem.v
SafeArith.v
CString.v
Kmalloc.v
KmallocHeap.v
KmallocProps.v
Errno.v
Paging.v
PagingProps.v
Vmm.v
VmmAreas.v
VmmSpace.v
VmmProps.v
VmmClone.v
ObjectHeap.v
RbTree.v
RbTreeHeap.v
RbTreeProps.v
RbSearch.v
LruTree.v
BlockCache.v
BlockCacheProps.v
PolicyCache.v
PolicyCacheProps.v
Sched.v
SchedProps.v
MsgQueue.v
Axiomd.v
Bytes.v
PolicyIpc.v
PolicyIpcProps.v
Support.v
SupportProps.v
Initramfs.v
InitramfsProps.v
Printf.v
PrintfProps.v
Dentry.v
DentryProps.v
Namei.v
NameiProps.v
NameiTree.v
Files.v
FilesProps.v
Paths.v
PathsProps.v
FileData.v
FileDataProps.v
Net.v
NetFrames.v
NetQueue.v
NetProps.v
NetFlow.v
NetDhcp.v
