(* ===== verification/Prelude.v ===== *)
(** * Obelisk OS kernel: a verification development

    Obelisk OS is a hobby operating system for x86-64: a C kernel with helpers in
    Zig, and user programs around it.  This development models parts of the
    kernel, shallowly: every C or Zig function is a Rocq function of the same
    name over explicit state, and the theorems are about these functions.  This
    file holds what all other files share: machine integers, arrays, searches
    over ranges and the development's tactics.

    ** Conventions

    A w-bit integer is a [Z] and wrap-around is written out ([u8], [u32], [u64],
    [s32], [s64]).  Addresses are integers and NULL is 0.  Structures reached
    through pointers are kept in finite maps from their address; an intrusive
    [list_head] is the list of the structures linked on it, in order.  Errors are
    the negative error numbers of Errno.  A result of type [option] is [None]
    where the C would follow a wild pointer, read outside of a buffer or not come
    back: theorems that say what an operation returns therefore also say that
    this does not happen.  Locks, log output and statistics that nothing reads are
    left out, and so is all concurrency that is not named below: the kernel runs on
    one processor and the modelled operations are atomic.  Constants of the
    headers are abbreviations or definitions with the name of the macro.

    ** Parts, from the bottom up (paths are below src/kernel)

    - Memory.  Bitmap (lib/bitmap.c); PageAllocator, the interface of a page-frame
      allocator; Pmm (mm/pmm.c), which implements it; Physmem
      (arch/x86_64/mm/physmem.c), the boot memory map; SafeArith (support/
      safe_arith.zig, mem_helpers.zig); Kmalloc, KmallocHeap, KmallocProps
      (mm/kmalloc.c), the slab allocator over any page allocator; ObjectHeap, the
      interface it offers to the structures below; Paging, PagingProps
      (arch/x86_64/mm/paging.c and the tables of boot.S), four-level page tables;
      Vmm, VmmAreas, VmmSpace, VmmProps, VmmClone (mm/vmm.c), address spaces.
    - Strings.  CString (lib/string.c) over a byte memory; Printf, PrintfProps
      (lib/printf.c and vsnprintf of kernel/printk.c); Bytes, the layout of
      integers in structures; Support, SupportProps (the validators of
      support/, in Zig).
    - Files.  RbTree, RbTreeHeap, RbTreeProps (lib/rbtree.c), RbSearch and
      LruTree, the search trees and LRU lists built on it; BlockCache,
      BlockCacheProps (fs/axiomfs/cache.c); PolicyCache, PolicyCacheProps,
      PolicyIpc, PolicyIpcProps (fs/axiomfs/policy_ipc.c); Initramfs,
      InitramfsProps (support/initramfs_scan.zig and kernel/initramfs.c).
    - Names and open files.  Dentry, DentryProps (fs/dentry.c, fs/inode.c), the
      counted tree of entries and inodes; Namei, NameiProps, NameiTree (fs/vfs.c,
      fs/axiomfs/inode.c, super.c, fs/devfs/devfs.c), path lookup, creation,
      removal and mounting; Files, FilesProps (fs/file.c, the descriptor tables of
      proc/process.c, fork and exec); Paths, PathsProps
      (arch/x86_64/process/syscall.c), the paths of user programs; FileData,
      FileDataProps (fs/axiomfs/file.c), the contents of files.
    - Network.  Net (net/core.c), which is all of ARP, IPv4, ICMP, UDP, TCP and DHCP
      over one device; NetFrames, the frames it sends; NetQueue, the rings of
      received messages; NetProps, the invariant and what processes can call;
      NetFlow, data from one host to another; NetDhcp, the DHCP client.
    - Processes and messages.  Sched, SchedProps (proc/scheduler.c); MsgQueue
      (ipc/msgqueue.c); Axiomd (ipc/axiomd_channel.c).

    Components meet at interfaces.  [PageAllocator] is a class: Kmalloc, Paging and
    Vmm are proved over any instance, and Pmm is one.  [ObjectHeap] is a class: the
    two caches are proved over any instance, and Kmalloc over a page allocator is
    one.  [Vfs] is the interface the importer of the initial RAM file system calls;
    that it ends is proved over any instance, and that it changes nothing it should
    not for any property of the file system that harmless calls keep.

    ** What the theorems show

    - Allocators: allocated frames and objects are disjoint from those in use,
      aligned and in range; freeing gives back exactly what was taken; failure
      changes nothing; the counters and bitmaps stay consistent.
    - Page tables and address spaces: for pages of the user half, mapping,
      unmapping and protecting change exactly the pages asked for
      ([paging_refines], [vmm_munmap_correct], ...) and leave the kernel half of the
      root table, which every process shares with the tables of boot.S, as it is; no
      frame is shared or lost; when memory runs out, what was done is undone or is
      named; a copy from or to user memory touches only what the process may
      access.
    - Trees and caches: insertion and removal keep the red-black invariant, the
      order and the set of nodes, and end; the caches refine a bounded list of
      entries ordered by use.
    - Policy: a query is answered by a cached decision that is still valid, by the
      first response in the queue if it has the identifier of the query, or by the
      fallback, each with its exact cause; and what goes wrong when an answer is
      late.
    - Scheduler: which operations keep its invariant, and for the others exactly
      when; the process that runs next has the highest priority, waits are bounded
      within a priority, sleepers wake up, exited processes do not run.
    - Names and open files: every entry, inode, open file and descriptor table is
      counted by exactly the references to it after any sequence of calls, so that
      nothing is freed while it is in use; a path leads where its names lead in
      the tree; getcwd names the directory of the process; writing replaces
      exactly the bytes asked for, and reading returns them.
    - Network: whatever arrives and whatever processes call, nothing faults and the
      state stays well-formed; frames sent have right lengths and checksums; a
      datagram arrives as it was sent; what a process reads from a connection is a
      prefix of what the peer sent, whatever the network does to the segments, and
      all of it when they arrive; the DHCP client is configured by a server's
      answers, or gives up after a fixed time.
    - Queues: a queue is a FIFO per type with exact byte accounting, and with what
      MSG_EXCEPT really selects.
    - Strings, printing, validators, importer: exact results on every input,
      nothing written outside of the buffers, numbers printed are read back, the
      two formatters agree, the importer never leaves the root directory, even
      where it reads outside of the archive.
    - The theorems named in the findings are about behaviour that is not what the
      code or its comments intend; their statements describe what the code does.

    ** Bounds and fuel

    Loops without a structural measure run on fuel.  It is computed from the data
    so that it cannot run out (the number of written bytes for string loops, the
    size of the tree for tree walks, the length of the format, archive or table),
    and the theorems about results include that it does not.  Where waiting depends
    on the rest of the system (the answer of the policy daemon, a tick), what
    happens is an explicit sequence and the theorem says how long it must be.  In
    the network core three rounds of carrying are enough for a 32-bit sum, and the
    rings have 32 slots.  Receive buffers have at least 594 bytes (the drivers have
    about 2000): the core reads that far behind the start of a frame, since it
    does not check the length in UDP headers.

    ** Not modelled, and why

    - Assembly other than the page tables of boot.S, descriptor tables, device drivers (those of the network included)
      and the console: their effect is on processor and device state.
    - Of the system call layer (arch/x86_64/process/syscall.c): sockets, terminal
      input, signals, time and process information.
    - Of the virtual file system: reading directories, links and renaming, the
      hash table of inodes, and the devices behind the device file system; the
      file read behind a mapping is a parameter of Vmm.
    - Program loading and fork (proc/exec.c, proc/fork.c, proc/process.c) beyond
      the descriptor tables, shared memory (ipc/shm.c) and sysctl.
    - The log buffer and terminal of kernel/printk.c.
    - User programs and the package manager: they are outside of the kernel. *)

From stdpp Require Export base numbers list gmap.
From Stdlib Require Export Lia.
Open Scope Z_scope.

(** ** Scope and automation of the development *)

Declare Scope obelisk_scope.
Delimit Scope obelisk_scope with ob.

Create HintDb obelisk.
Create Rewrite HintDb arr.

(** Case analysis on every boolean comparison of integers in sight, turned
    into the proposition it decides. *)
Ltac zbool :=
  repeat match goal with
  | H : (_ && _)%bool = true |- _ => apply andb_true_iff in H as [? ?]
  | H : (_ || _)%bool = false |- _ => apply orb_false_iff in H as [? ?]
  | H : negb _ = true |- _ => apply negb_true_iff in H
  | H : negb _ = false |- _ => apply negb_false_iff in H
  | H : (_ =? _) = true |- _ => apply Z.eqb_eq in H
  | H : (_ =? _) = false |- _ => apply Z.eqb_neq in H
  | H : (_ <? _) = true |- _ => apply Z.ltb_lt in H
  | H : (_ <? _) = false |- _ => apply Z.ltb_ge in H
  | H : (_ <=? _) = true |- _ => apply Z.leb_le in H
  | H : (_ <=? _) = false |- _ => apply Z.leb_gt in H
  | H : (_ >=? _) = _ |- _ => rewrite Z.geb_leb in H
  | H : (_ >? _) = _ |- _ => rewrite Z.gtb_ltb in H
  end.

(** Split on a conditional of the goal or of a hypothesis. *)
Ltac zif :=
  match goal with
  | |- context [if ?b then _ else _] => destruct b eqn:?; zbool
  | H : context [if ?b then _ else _] |- _ => destruct b eqn:?; zbool
  end.

(** ** Machine integers *)

Definition u8 (x : Z) : Z := x mod 2 ^ 8.
Definition u16 (x : Z) : Z := x mod 2 ^ 16.
Definition u32 (x : Z) : Z := x mod 2 ^ 32.
Definition u64 (x : Z) : Z := x mod 2 ^ 64.
Definition s32 (x : Z) : Z := (x + 2 ^ 31) mod 2 ^ 32 - 2 ^ 31.
Definition s64 (x : Z) : Z := (x + 2 ^ 63) mod 2 ^ 64 - 2 ^ 63.

Definition UINT32_MAX : Z := 4294967295.
Definition UINT64_MAX : Z := 18446744073709551615.

Definition PAGE_SHIFT : Z := 12.
Definition PAGE_SIZE : Z := 4096.

(** The higher-half layout of kernel.h. *)
Definition KERNEL_VIRT_BASE : Z := 0xFFFFFFFF80000000.
Definition KERNEL_PHYS_MAP_BASE : Z := 0xFFFF888000000000.
Definition PHYS_TO_VIRT (addr : Z) : Z := u64 (addr + KERNEL_PHYS_MAP_BASE).
Definition VIRT_TO_PHYS (addr : Z) : Z := u64 (addr - KERNEL_PHYS_MAP_BASE).

(** [ALIGN_UP] and [ALIGN_DOWN] of types.h on 64-bit operands: the mask is an
    [int], sign-extended when it meets the 64-bit operand. *)
Definition ALIGN_UP (x align : Z) : Z :=
  Z.land (u64 (x + (align - 1))) (Z.lnot (align - 1)).
Definition ALIGN_DOWN (x align : Z) : Z :=
  Z.land x (Z.lnot (align - 1)).

(** A flag word tested against a mask, [(x & f) != 0]. *)
Definition flagb (x f : Z) : bool := negb (Z.land x f =? 0).

(** ** Loops

    [for_range lo hi body s] is [for (i = lo; i < hi; i++) s = body(i, s)];
    [find_range p lo hi] is the loop that returns the first [i] of [lo, hi)
    with [p i]. *)

Fixpoint for_up {S : Type} (n : nat) (i : Z) (body : Z -> S -> S) (s : S) : S :=
  match n with
  | O => s
  | Datatypes.S n' => for_up n' (i + 1) body (body i s)
  end.

Definition for_range {S : Type} (lo hi : Z) (body : Z -> S -> S) (s : S) : S :=
  for_up (Z.to_nat (hi - lo)) lo body s.

Fixpoint find_up (n : nat) (i : Z) (p : Z -> bool) : option Z :=
  match n with
  | O => None
  | S n' => if p i then Some i else find_up n' (i + 1) p
  end.

Definition find_range (p : Z -> bool) (lo hi : Z) : option Z :=
  find_up (Z.to_nat (hi - lo)) lo p.

(** Number of [i] in [lo, lo+n) with [p i]. *)
Fixpoint count_up (n : nat) (i : Z) (p : Z -> bool) : Z :=
  match n with
  | O => 0
  | S n' => (if p i then 1 else 0) + count_up n' (i + 1) p
  end.

Definition count_range (p : Z -> bool) (lo hi : Z) : Z :=
  count_up (Z.to_nat (hi - lo)) lo p.

(** ** Arrays of machine words

    [aget l i] reads element [i] of the array [l], [aset l i x] writes it.
    Outside the array a read yields [0] and a write does nothing; the
    developments below prove the indices they use to be inside. *)

Definition aget (l : list Z) (i : Z) : Z := default 0 (l !! Z.to_nat i).
Definition aset (l : list Z) (i x : Z) : list Z := <[Z.to_nat i := x]> l.

(** Bit [i] of an array of [w]-bit words. *)
Definition bget (w : Z) (l : list Z) (i : Z) : bool :=
  Z.testbit (aget l (i / w)) (i mod w).

(** Every element is a [w]-bit word. *)
Definition words (w : Z) (l : list Z) : Prop := Forall (fun x => 0 <= x < 2 ^ w) l.

(** ** Lemmas: integers *)

Lemma u64_small x : 0 <= x < 2 ^ 64 -> u64 x = x.
Proof. apply Z.mod_small. Qed.

Lemma u32_small x : 0 <= x < 2 ^ 32 -> u32 x = x.
Proof. apply Z.mod_small. Qed.

Lemma u64_range x : 0 <= u64 x < 2 ^ 64.
Proof. apply Z.mod_pos_bound. lia. Qed.

Lemma u32_range x : 0 <= u32 x < 2 ^ 32.
Proof. apply Z.mod_pos_bound. lia. Qed.

Lemma u8_range x : 0 <= u8 x < 2 ^ 8.
Proof. apply Z.mod_pos_bound. lia. Qed.

Lemma u64_succ_lt x : 0 <= x -> x < UINT64_MAX -> u64 (x + 1) = x + 1.
Proof. unfold UINT64_MAX. intros. apply u64_small. lia. Qed.

Lemma u64_pred x : 0 < x < 2 ^ 64 -> u64 (x - 1) = x - 1.
Proof. intros. apply u64_small. lia. Qed.

Lemma s32_small x : - 2 ^ 31 <= x < 2 ^ 31 -> s32 x = x.
Proof. intros. unfold s32. rewrite Z.mod_small; lia. Qed.

Lemma ALIGN_DOWN_pow2 x k : 0 <= k -> ALIGN_DOWN x (2 ^ k) = x / 2 ^ k * 2 ^ k.
Proof.
  intros Hk. unfold ALIGN_DOWN.
  rewrite <- Z.ldiff_land. rewrite Z.sub_1_r, <- Z.ones_equiv.
  rewrite Z.ldiff_ones_r, Z.shiftl_mul_pow2, Z.shiftr_div_pow2; lia.
Qed.

Lemma ALIGN_UP_pow2 x k :
  0 <= k -> 0 <= x -> x + 2 ^ k <= 2 ^ 64 ->
  ALIGN_UP x (2 ^ k) = (x + (2 ^ k - 1)) / 2 ^ k * 2 ^ k.
Proof.
  intros Hk Hx Hb. unfold ALIGN_UP. assert (0 < 2 ^ k) by lia.
  rewrite u64_small by lia. by apply ALIGN_DOWN_pow2.
Qed.

Lemma ALIGN_DOWN_page x : ALIGN_DOWN x PAGE_SIZE = x / PAGE_SIZE * PAGE_SIZE.
Proof. apply (ALIGN_DOWN_pow2 x 12). lia. Qed.

Lemma ALIGN_UP_page x :
  0 <= x -> x <= 2 ^ 64 - PAGE_SIZE ->
  ALIGN_UP x PAGE_SIZE = (x + (PAGE_SIZE - 1)) / PAGE_SIZE * PAGE_SIZE.
Proof. unfold PAGE_SIZE. intros. apply (ALIGN_UP_pow2 x 12); lia. Qed.

Lemma flagb_pow2 x n : 0 <= n -> flagb x (2 ^ n) = Z.testbit x n.
Proof.
  intros Hn. unfold flagb.
  destruct (Z.eqb_spec (Z.land x (2 ^ n)) 0) as [He|He]; simpl; symmetry.
  - apply (f_equal (fun y => Z.testbit y n)) in He.
    rewrite Z.land_spec, Z.pow2_bits_true, Z.bits_0 in He by lia.
    by rewrite andb_true_r in He.
  - apply not_false_is_true. intros Ht. apply He. apply Z.bits_inj'. intros i Hi.
    rewrite Z.land_spec, Z.bits_0, Z.pow2_bits_eqb by lia.
    destruct (Z.eqb_spec n i) as [->|]; [by rewrite Ht|apply andb_false_r].
Qed.

Lemma testbit_ge x w i : 0 <= x < 2 ^ w -> w <= i -> 0 <= w -> Z.testbit x i = false.
Proof.
  intros Hx Hi Hw. destruct (decide (x = 0)) as [->|]; [apply Z.bits_0|].
  apply Z.bits_above_log2; [lia|].
  apply Z.log2_lt_pow2; [lia|]. apply Z.lt_le_trans with (2 ^ w); [lia|].
  apply Z.pow_le_mono_r; lia.
Qed.

(** ** Lemmas: loops *)

Section loops.
Context {S : Type}.
Implicit Types (s : S) (body : Z -> S -> S).

Lemma for_range_nil lo hi body s : hi <= lo -> for_range lo hi body s = s.
Proof. intros. unfold for_range. by replace (Z.to_nat (hi - lo)) with O by lia. Qed.

Lemma for_range_step lo hi body s :
  lo < hi -> for_range lo hi body s = for_range (lo + 1) hi body (body lo s).
Proof.
  intros. unfold for_range.
  by replace (Z.to_nat (hi - lo)) with (Datatypes.S (Z.to_nat (hi - (lo + 1)))) by lia.
Qed.

(** The invariant rule of a counting loop. *)
Lemma for_range_inv (P : Z -> S -> Prop) lo hi body s :
  lo <= hi -> P lo s ->
  (forall i s', lo <= i < hi -> P i s' -> P (i + 1) (body i s')) ->
  P hi (for_range lo hi body s).
Proof.
  intros Hle. remember (Z.to_nat (hi - lo)) as n eqn:Hn.
  revert lo s Hle Hn. induction n as [|n IH]; intros lo s Hle Hn Hlo Hstep.
  - assert (lo = hi) as -> by lia. by rewrite for_range_nil by lia.
  - rewrite for_range_step by lia. apply IH; [lia|lia|by apply Hstep; [lia|]|].
    intros i s' Hi. apply Hstep. lia.
Qed.

(** An invariant that does not mention the counter. *)
Lemma for_range_pres (P : S -> Prop) lo hi body s :
  P s -> (forall i s', lo <= i < hi -> P s' -> P (body i s')) ->
  P (for_range lo hi body s).
Proof.
  intros Hs Hstep. destruct (Z.le_gt_cases lo hi) as [Hle|Hgt].
  - by apply (for_range_inv (fun _ => P)).
  - by rewrite for_range_nil by lia.
Qed.

(** A loop over a shifted range. *)
Lemma for_range_shift d body body' lo hi s :
  (forall i s', lo <= i < hi -> body i s' = body' (i + d) s') ->
  for_range lo hi body s = for_range (lo + d) (hi + d) body' s.
Proof.
  unfold for_range. replace (hi + d - (lo + d)) with (hi - lo) by lia.
  remember (Z.to_nat (hi - lo)) as n eqn:Hn. revert lo s Hn.
  induction n as [|n IH]; intros lo s Hn H; simpl; [done|].
  rewrite H by lia. replace (lo + d + 1) with (lo + 1 + d) by lia.
  apply IH; [lia|]. intros. apply H. lia.
Qed.
End loops.

Lemma bind_ret {A B} (f : A -> option B) a : (Some a ≫= f) = f a.
Proof. done. Qed.

Lemma find_range_nil p lo hi : hi <= lo -> find_range p lo hi = None.
Proof. intros. unfold find_range. by replace (Z.to_nat (hi - lo)) with O by lia. Qed.

Lemma find_range_step p lo hi :
  lo < hi -> find_range p lo hi = if p lo then Some lo else find_range p (lo + 1) hi.
Proof.
  intros. unfold find_range.
  by replace (Z.to_nat (hi - lo)) with (S (Z.to_nat (hi - (lo + 1)))) by lia.
Qed.

Lemma range_ind hi (P : Z -> Prop) :
  (forall lo, hi <= lo -> P lo) ->
  (forall lo, lo < hi -> P (lo + 1) -> P lo) -> forall lo, P lo.
Proof.
  intros Hnil Hstep lo. remember (Z.to_nat (hi - lo)) as n eqn:Hn.
  revert lo Hn. induction n as [|n IH]; intros lo Hn.
  - apply Hnil. lia.
  - apply Hstep; [lia|]. apply IH. lia.
Qed.

Lemma find_range_Some p lo hi i :
  find_range p lo hi = Some i <->
  lo <= i < hi /\ p i = true /\ forall j, lo <= j < i -> p j = false.
Proof.
  revert i. induction lo as [lo Hge|lo Hlt IH] using (range_ind hi); intros i.
  - rewrite find_range_nil by lia. split; [done|lia].
  - rewrite find_range_step by lia. destruct (p lo) eqn:Hp.
    + split.
      * intros [= <-]. split; [lia|]. split; [done|lia].
      * intros (Hi & Hpi & Hmin). f_equal. apply Z.le_antisymm; [lia|].
        apply Z.le_ngt. intros Hlo. rewrite Hmin in Hp; [done|lia].
    + rewrite IH. split.
      * intros (Hi & Hpi & Hmin). split; [lia|]. split; [done|]. intros j Hj.
        destruct (decide (j = lo)) as [->|]; [done|]. apply Hmin. lia.
      * intros (Hi & Hpi & Hmin). assert (i <> lo) by congruence.
        split; [lia|]. split; [done|]. intros j Hj. apply Hmin. lia.
Qed.

Lemma find_range_None p lo hi :
  find_range p lo hi = None <-> forall i, lo <= i < hi -> p i = false.
Proof.
  induction lo as [lo Hge|lo Hlt IH] using (range_ind hi).
  - rewrite find_range_nil by lia. split; [lia|done].
  - rewrite find_range_step by lia. destruct (p lo) eqn:Hp.
    + split; [done|]. intros H. rewrite H in Hp; [done|lia].
    + rewrite IH. split; intros H i Hi.
      * destruct (decide (i = lo)) as [->|]; [done|]. apply H. lia.
      * apply H. lia.
Qed.

Lemma find_range_ext p q lo hi :
  (forall i, lo <= i < hi -> p i = q i) -> find_range p lo hi = find_range q lo hi.
Proof.
  induction lo as [lo Hge|lo Hlt IH] using (range_ind hi); intros H.
  - by rewrite !find_range_nil by lia.
  - rewrite (find_range_step p), (find_range_step q) by lia. rewrite <- H by lia.
    destruct (p lo); [done|]. apply IH. intros. apply H. lia.
Qed.

(** ** Lemmas: counting *)

Lemma count_range_nil p lo hi : hi <= lo -> count_range p lo hi = 0.
Proof. intros. unfold count_range. by replace (Z.to_nat (hi - lo)) with O by lia. Qed.

Lemma count_range_step p lo hi :
  lo < hi -> count_range p lo hi = (if p lo then 1 else 0) + count_range p (lo + 1) hi.
Proof.
  intros. unfold count_range.
  by replace (Z.to_nat (hi - lo)) with (S (Z.to_nat (hi - (lo + 1)))) by lia.
Qed.

Lemma count_range_ext p q lo hi :
  (forall i, lo <= i < hi -> p i = q i) -> count_range p lo hi = count_range q lo hi.
Proof.
  induction lo as [lo Hge|lo Hlt IH] using (range_ind hi); intros H.
  - by rewrite !count_range_nil by lia.
  - rewrite (count_range_step p), (count_range_step q) by lia.
    rewrite H by lia. rewrite IH; [done|].
    intros. apply H. lia.
Qed.

Lemma count_range_bound p lo hi : 0 <= count_range p lo hi <= Z.max 0 (hi - lo).
Proof.
  induction lo as [lo Hge|lo Hlt IH] using (range_ind hi).
  - rewrite count_range_nil by lia. lia.
  - rewrite count_range_step by lia. destruct (p lo); lia.
Qed.

(** The count moves by one when the predicate changes at one point. *)
Lemma count_range_flip p q lo hi i :
  lo <= i < hi -> p i = true -> q i = false ->
  (forall j, lo <= j < hi -> j <> i -> p j = q j) ->
  count_range p lo hi = count_range q lo hi + 1.
Proof.
  induction lo as [lo Hge|lo Hlt IH] using (range_ind hi); intros Hi Hp Hq Hext; [lia|].
  rewrite !(count_range_step _ lo) by lia. destruct (decide (i = lo)) as [->|].
  - rewrite Hp, Hq. rewrite (count_range_ext p q); [lia|]. intros j Hj. apply Hext; lia.
  - rewrite (Hext lo) by lia. rewrite IH; [destruct (q lo); lia|lia|done..|].
    intros j Hj. apply Hext. lia.
Qed.

Lemma count_range_split p lo mid hi :
  lo <= mid <= hi -> count_range p lo hi = count_range p lo mid + count_range p mid hi.
Proof.
  induction lo as [lo Hge|lo Hlt IH] using (range_ind mid); intros H.
  - assert (lo = mid) as -> by lia. rewrite (count_range_nil p mid mid); lia.
  - rewrite (count_range_step p lo hi), (count_range_step p lo mid) by lia.
    rewrite IH by lia. lia.
Qed.

Lemma count_range_const b lo hi :
  lo <= hi -> count_range (fun _ => b) lo hi = if b then hi - lo else 0.
Proof.
  induction lo as [lo Hge|lo Hlt IH] using (range_ind hi); intros H.
  - rewrite count_range_nil by lia. destruct b; lia.
  - rewrite count_range_step, IH by lia. destruct b; lia.
Qed.

Lemma count_range_shift p q lo hi d :
  (forall i, lo <= i < hi -> p i = q (i + d)) ->
  count_range p lo hi = count_range q (lo + d) (hi + d).
Proof.
  induction lo as [lo Hge|lo Hlt IH] using (range_ind hi); intros H.
  - by rewrite !count_range_nil by lia.
  - rewrite (count_range_step p), (count_range_step q) by lia. rewrite <- H by lia.
    rewrite IH; [|intros; apply H; lia]. by replace (lo + d + 1) with (lo + 1 + d) by lia.
Qed.

Lemma count_range_pos p lo hi :
  0 < count_range p lo hi <-> exists i, lo <= i < hi /\ p i = true.
Proof.
  induction lo as [lo Hge|lo Hlt IH] using (range_ind hi).
  - rewrite count_range_nil by lia. split; [lia|]. intros (i & Hi & _). lia.
  - rewrite count_range_step by lia. pose proof (count_range_bound p (lo + 1) hi).
    destruct (p lo) eqn:Hp.
    + split; [intros _; exists lo; split; [lia|done]|lia].
    + rewrite Z.add_0_l, IH. split.
      * intros (i & Hi & Hpi). exists i. split; [lia|done].
      * intros (i & Hi & Hpi). exists i. split; [|done].
        assert (i <> lo) by congruence. lia.
Qed.

(** ** Lemmas: arrays and their bits *)

Lemma length_aset l i x : length (aset l i x) = length l.
Proof. apply length_insert. Qed.

Lemma aget_aset_eq l i x : 0 <= i < Z.of_nat (length l) -> aget (aset l i x) i = x.
Proof. intros. unfold aget, aset. rewrite list_lookup_insert_eq by lia. done. Qed.

Lemma aget_aset_ne l i j x : 0 <= i -> 0 <= j -> i <> j -> aget (aset l i x) j = aget l j.
Proof. intros. unfold aget, aset. rewrite list_lookup_insert_ne by lia. done. Qed.

Lemma aget_words w l i : 0 <= w -> words w l -> 0 <= aget l i < 2 ^ w.
Proof.
  intros Hw Hl. unfold aget. destruct (l !! Z.to_nat i) as [x|] eqn:He; simpl; [|lia].
  by apply (Forall_lookup_1 _ _ _ _ Hl He).
Qed.

Lemma aset_words w l i x : words w l -> 0 <= x < 2 ^ w -> words w (aset l i x).
Proof. intros. by apply Forall_insert. Qed.

#[export] Hint Rewrite length_aset : arr.
#[export] Hint Resolve aset_words : obelisk.

(** Two bit numbers in the same word with the same offset are equal. *)
Lemma bit_index_inj w i j : 0 < w -> i / w = j / w -> i mod w = j mod w -> i = j.
Proof. intros Hw Hq Hr. rewrite (Z.div_mod i w), (Z.div_mod j w) by lia. congruence. Qed.

Lemma bit_word_in_range w (l : list Z) i :
  0 < w -> 0 <= i < w * Z.of_nat (length l) -> 0 <= i / w < Z.of_nat (length l).
Proof.
  intros Hw Hi. split; [apply Z.div_pos; lia|]. apply Z.div_lt_upper_bound; lia.
Qed.

(** Setting and clearing one bit through a read-modify-write of its word. *)
Lemma bget_set_bit w l i j :
  0 < w -> 0 <= i < w * Z.of_nat (length l) -> 0 <= j ->
  bget w (aset l (i / w) (Z.lor (aget l (i / w)) (2 ^ (i mod w)))) j
  = (i =? j) || bget w l j.
Proof.
  intros Hw Hi Hj. unfold bget.
  pose proof (bit_word_in_range w l i Hw Hi). pose proof (Z.div_pos j w Hj Hw).
  pose proof (Z.mod_pos_bound i w Hw). pose proof (Z.mod_pos_bound j w Hw).
  destruct (decide (i / w = j / w)) as [He|Hne].
  - rewrite <- He, aget_aset_eq by lia.
    rewrite Z.lor_spec, Z.pow2_bits_eqb by lia. rewrite orb_comm. f_equal.
    destruct (Z.eqb_spec (i mod w) (j mod w)), (Z.eqb_spec i j); subst; try done.
    exfalso. eauto using bit_index_inj.
  - rewrite aget_aset_ne by lia. destruct (Z.eqb_spec i j); subst; done.
Qed.

Lemma bget_clear_bit w l i j :
  0 < w -> 0 <= i < w * Z.of_nat (length l) -> 0 <= j ->
  bget w (aset l (i / w) (Z.ldiff (aget l (i / w)) (2 ^ (i mod w)))) j
  = negb (i =? j) && bget w l j.
Proof.
  intros Hw Hi Hj. unfold bget.
  pose proof (bit_word_in_range w l i Hw Hi). pose proof (Z.div_pos j w Hj Hw).
  pose proof (Z.mod_pos_bound i w Hw). pose proof (Z.mod_pos_bound j w Hw).
  destruct (decide (i / w = j / w)) as [He|Hne].
  - rewrite <- He, aget_aset_eq by lia.
    rewrite Z.ldiff_spec, Z.pow2_bits_eqb by lia. rewrite andb_comm. f_equal.
    destruct (Z.eqb_spec (i mod w) (j mod w)), (Z.eqb_spec i j); subst; try done.
    exfalso. eauto using bit_index_inj.
  - rewrite aget_aset_ne by lia. destruct (Z.eqb_spec i j); subst; done.
Qed.

(** The complement of a mask, at the width of the word it is applied to. *)
Lemma land_lnot_ldiff w x m :
  0 <= w -> 0 <= x < 2 ^ w -> Z.land x (Z.lnot m mod 2 ^ w) = Z.ldiff x m.
Proof.
  intros Hw Hx. apply Z.bits_inj'. intros i Hi.
  rewrite Z.land_spec, Z.ldiff_spec. destruct (Z.lt_ge_cases i w).
  - rewrite Z.mod_pow2_bits_low, Z.lnot_spec by lia. done.
  - by rewrite (testbit_ge x w i).
Qed.

Lemma word_bounds_of_bits w x :
  0 <= w -> 0 <= x -> (forall i, w <= i -> Z.testbit x i = false) -> x < 2 ^ w.
Proof.
  intros Hw Hx Hb. destruct (Z.lt_ge_cases x (2 ^ w)) as [|Hge]; [done|exfalso].
  assert (0 < 2 ^ w) by lia.
  assert (w <= Z.log2 x) by (rewrite <- (Z.log2_pow2 w) by lia; by apply Z.log2_le_mono).
  pose proof (Hb (Z.log2 x) ltac:(done)). rewrite Z.bit_log2 in *; [done|lia].
Qed.

Lemma lor_word w x y :
  0 <= w -> 0 <= x < 2 ^ w -> 0 <= y < 2 ^ w -> 0 <= Z.lor x y < 2 ^ w.
Proof.
  intros Hw Hx Hy. assert (0 <= Z.lor x y) by (apply Z.lor_nonneg; lia). split; [done|].
  apply word_bounds_of_bits; [done..|]. intros i Hi.
  by rewrite Z.lor_spec, (testbit_ge x w), (testbit_ge y w).
Qed.

Lemma ldiff_word w x y : 0 <= w -> 0 <= x < 2 ^ w -> 0 <= Z.ldiff x y < 2 ^ w.
Proof.
  intros Hw Hx. assert (0 <= Z.ldiff x y) by (apply Z.ldiff_nonneg; lia). split; [done|].
  apply word_bounds_of_bits; [done..|]. intros i Hi.
  by rewrite Z.ldiff_spec, (testbit_ge x w).
Qed.

Lemma pow2_word w n : 0 <= n < w -> 0 <= 2 ^ n < 2 ^ w.
Proof. intros. split; [lia|]. apply Z.pow_lt_mono_r; lia. Qed.

#[export] Hint Resolve lor_word ldiff_word pow2_word aget_words : obelisk.

(** ** Lemmas: folds *)

(** An invariant and a transitive relation through a fold. *)
Lemma fold_left_rel {A B} (f : A -> B -> A) (I : A -> Prop) (R : A -> A -> Prop) `{!PreOrder R} :
  (forall a b, I a -> I (f a b) /\ R a (f a b)) ->
  forall l a, I a -> I (fold_left f l a) /\ R a (fold_left f l a).
Proof.
  intros Hf. induction l as [|b l IH]; intros a Ha; simpl; [done|].
  destruct (Hf a b Ha) as [Hb Hr]. destruct (IH _ Hb). split; [done|by etrans].
Qed.

(** ** Lemmas: filters *)

Lemma list_filter_all {A} (P : A -> Prop) `{!forall x, Decision (P x)} (l : list A) :
  (forall x, x ∈ l -> P x) -> filter P l = l.
Proof.
  induction l as [|x l IH]; intros Hl; [done|].
  rewrite filter_cons_True by (apply Hl; by left). rewrite IH; [done|]. intros. apply Hl. by right.
Qed.

Lemma list_filter_none {A} (P : A -> Prop) `{!forall x, Decision (P x)} (l : list A) :
  (forall x, x ∈ l -> ~ P x) -> filter P l = [].
Proof.
  induction l as [|x l IH]; intros Hl; [done|].
  rewrite filter_cons_False by (apply Hl; by left). apply IH. intros. apply Hl. by right.
Qed.
