(* ===== verification/Bitmap.v ===== *)
(** * Kernel bitmap utilities (kernel/lib/bitmap.c)

    A bitmap is an array of 64-bit words; bit [nr] is bit [nr mod 64] of word
    [nr / 64].  The word-at-a-time searches are shown equal to the bit-at-a-time
    search [find_range], and the word-at-a-time range updates to the pointwise
    description of the range. *)

From S2P Require Import Prelude.

Definition BITS_PER_LONG : Z := 64.
Definition BIT_WORD (nr : Z) : Z := nr / BITS_PER_LONG.
Definition BIT_MASK (nr : Z) : Z := Z.shiftl 1 (nr mod BITS_PER_LONG).
Definition BITS_TO_LONGS (nr : Z) : Z := u32 (nr + BITS_PER_LONG - 1) / BITS_PER_LONG.

(** [__builtin_ffsl] and [__builtin_clzl] of the compiler: one plus the index of
    the lowest set bit (0 when there is none), and the number of zeros above the
    highest one. *)
Fixpoint pos_ctz (p : positive) : Z :=
  match p with
  | xO q => 1 + pos_ctz q
  | _ => 0
  end.

Definition builtin_ffsl (x : Z) : Z :=
  match x with
  | Zpos p => 1 + pos_ctz p
  | _ => 0
  end.

Definition builtin_clzl (x : Z) : Z := 63 - Z.log2 x.

(** ** Single bits *)

Definition set_bit (nr : Z) (addr : list Z) : list Z :=
  aset addr (BIT_WORD nr) (Z.lor (aget addr (BIT_WORD nr)) (BIT_MASK nr)).

Definition clear_bit (nr : Z) (addr : list Z) : list Z :=
  aset addr (BIT_WORD nr) (Z.land (aget addr (BIT_WORD nr)) (u64 (Z.lnot (BIT_MASK nr)))).

Definition test_bit (nr : Z) (addr : list Z) : bool :=
  negb (Z.land (aget addr (BIT_WORD nr)) (BIT_MASK nr) =? 0).

Definition test_and_set_bit (nr : Z) (addr : list Z) : bool * list Z :=
  let mask := BIT_MASK nr in
  let old := aget addr (BIT_WORD nr) in
  (negb (Z.land old mask =? 0), aset addr (BIT_WORD nr) (Z.lor old mask)).

Definition test_and_clear_bit (nr : Z) (addr : list Z) : bool * list Z :=
  let mask := BIT_MASK nr in
  let old := aget addr (BIT_WORD nr) in
  (negb (Z.land old mask =? 0), aset addr (BIT_WORD nr) (Z.land old (u64 (Z.lnot mask)))).

Definition change_bit (nr : Z) (addr : list Z) : list Z :=
  aset addr (BIT_WORD nr) (Z.lxor (aget addr (BIT_WORD nr)) (BIT_MASK nr)).

Definition ffs (x : Z) : Z := if x =? 0 then 0 else builtin_ffsl x.
Definition fls (x : Z) : Z := if x =? 0 then 0 else BITS_PER_LONG - builtin_clzl x.
Definition ffz (x : Z) : Z := u64 (ffs (u64 (Z.lnot x)) - 1).

(** ** Searches *)

Fixpoint find_first_loop (fuel : nat) (addr : list Z) (size idx : Z) : Z :=
  match fuel with
  | O => size
  | S fuel' =>
    if u64 (idx * BITS_PER_LONG) <? size then
      if negb (aget addr idx =? 0)
      then Z.min (u64 (idx * BITS_PER_LONG) + builtin_ffsl (aget addr idx) - 1) size
      else find_first_loop fuel' addr size (idx + 1)
    else size
  end.

Definition find_first_bit (addr : list Z) (size : Z) : Z :=
  find_first_loop (Z.to_nat (size / BITS_PER_LONG + 2)) addr size 0.

Fixpoint find_first_zero_loop (fuel : nat) (addr : list Z) (size idx : Z) : Z :=
  match fuel with
  | O => size
  | S fuel' =>
    if u64 (idx * BITS_PER_LONG) <? size then
      if negb (u64 (Z.lnot (aget addr idx)) =? 0)
      then Z.min (u64 (u64 (idx * BITS_PER_LONG) + ffz (aget addr idx))) size
      else find_first_zero_loop fuel' addr size (idx + 1)
    else size
  end.

Definition find_first_zero_bit (addr : list Z) (size : Z) : Z :=
  find_first_zero_loop (Z.to_nat (size / BITS_PER_LONG + 2)) addr size 0.

(** The common body of [find_next_bit] and [find_next_zero_bit]; [rd] reads a
    word of the map, complemented for the second. *)
Fixpoint find_next_loop (fuel : nat) (rd : Z -> Z) (size offset : Z) : Z :=
  match fuel with
  | O => size
  | S fuel' =>
    if offset <? size then
      let tmp := rd (BIT_WORD offset) in
      if negb (tmp =? 0)
      then Z.min (offset + builtin_ffsl tmp - 1) size
      else find_next_loop fuel' rd size (u64 (offset + BITS_PER_LONG))
    else size
  end.

Definition find_next (rd : Z -> Z) (size offset : Z) : Z :=
  if offset >=? size then size else
  let tmp := Z.land (rd (BIT_WORD offset))
                    (u64 (Z.shiftl UINT64_MAX (offset mod BITS_PER_LONG))) in
  if negb (tmp =? 0)
  then Z.min (BIT_WORD offset * BITS_PER_LONG + builtin_ffsl tmp - 1) size
  else find_next_loop (Z.to_nat (size / BITS_PER_LONG + 2)) rd size
                      (u64 ((BIT_WORD offset + 1) * BITS_PER_LONG)).

Definition find_next_bit (addr : list Z) (size offset : Z) : Z :=
  find_next (fun i => aget addr i) size offset.

Definition find_next_zero_bit (addr : list Z) (size offset : Z) : Z :=
  find_next (fun i => u64 (Z.lnot (aget addr i))) size offset.

(** ** Ranges *)

(** The loop shared by [bitmap_set] and [bitmap_clear]; [op w m] is [w | m] or
    [w & ~m].  [p] is the index of the word the pointer designates. *)
Fixpoint bitmap_range_loop (fuel : nat) (op : Z -> Z -> Z) (map : list Z)
    (p nbits bits mask : Z) : list Z * Z * Z * Z :=
  match fuel with
  | O => (map, p, nbits, mask)
  | S fuel' =>
    if nbits >=? bits
    then bitmap_range_loop fuel' op (aset map p (op (aget map p) mask))
           (p + 1) (nbits - bits) BITS_PER_LONG UINT64_MAX
    else (map, p, nbits, mask)
  end.

Definition bitmap_range (op : Z -> Z -> Z) (map : list Z) (start nbits : Z) : list Z :=
  let bits := BITS_PER_LONG - start mod BITS_PER_LONG in
  let mask := u64 (Z.shiftl UINT64_MAX (start mod BITS_PER_LONG)) in
  let '(map, p, nbits, mask) :=
    bitmap_range_loop (S (Z.to_nat nbits)) op map (BIT_WORD start) nbits bits mask in
  if negb (nbits =? 0) then
    let mask := Z.land mask (u64 (Z.lnot (u64 (Z.shiftl UINT64_MAX nbits)))) in
    aset map p (op (aget map p) mask)
  else map.

Definition bitmap_set (map : list Z) (start nbits : Z) : list Z :=
  bitmap_range Z.lor map start nbits.

Definition bitmap_clear (map : list Z) (start nbits : Z) : list Z :=
  bitmap_range (fun w m => Z.land w (u64 (Z.lnot m))) map start nbits.

(** [while (v) { w += v & 1; v >>= 1; }]; 64 iterations empty a word. *)
Fixpoint weight_word (fuel : nat) (v w : Z) : Z :=
  match fuel with
  | O => w
  | S fuel' =>
    if v =? 0 then w
    else weight_word fuel' (Z.shiftr v 1) (u32 (w + Z.land v 1))
  end.

Definition bitmap_weight (bitmap : list Z) (bits : Z) : Z :=
  for_range 0 (BITS_TO_LONGS bits) (fun k w => weight_word 64 (aget bitmap k) w) 0.

Definition bitmap_zero (bitmap : list Z) (bits : Z) : list Z :=
  for_range 0 (BITS_TO_LONGS bits) (fun k m => aset m k 0) bitmap.

Definition bitmap_fill (bitmap : list Z) (bits : Z) : list Z :=
  for_range 0 (BITS_TO_LONGS bits) (fun k m => aset m k UINT64_MAX) bitmap.

(** ** Lowest set bit *)

Lemma pos_ctz_nonneg p : 0 <= pos_ctz p.
Proof. induction p; simpl; lia. Qed.

Lemma pos_ctz_bit p : Z.testbit (Zpos p) (pos_ctz p) = true.
Proof.
  induction p as [p IH|p IH|]; [done| |done]. pose proof (pos_ctz_nonneg p).
  cbn [pos_ctz]. change (Zpos p~0) with (2 * Zpos p).
  replace (1 + pos_ctz p) with (Z.succ (pos_ctz p)) by lia.
  by rewrite Z.testbit_even_succ.
Qed.

Lemma pos_ctz_below p i : 0 <= i < pos_ctz p -> Z.testbit (Zpos p) i = false.
Proof.
  revert i. induction p as [p IH|p IH|]; intros i Hi; cbn [pos_ctz] in Hi; [lia| |lia].
  change (Zpos p~0) with (2 * Zpos p). destruct (decide (i = 0)) as [->|].
  - apply Z.testbit_even_0.
  - replace i with (Z.succ (i - 1)) by lia. rewrite Z.testbit_even_succ by lia.
    apply IH. lia.
Qed.

(** What the compiler builtin promises, at a non-zero word. *)
Lemma builtin_ffsl_spec x :
  0 < x ->
  0 <= builtin_ffsl x - 1 /\ Z.testbit x (builtin_ffsl x - 1) = true /\
  forall i, 0 <= i < builtin_ffsl x - 1 -> Z.testbit x i = false.
Proof.
  intros Hx. destruct x as [|p|p]; [lia| |lia]. cbn [builtin_ffsl].
  replace (1 + pos_ctz p - 1) with (pos_ctz p) by lia.
  split; [apply pos_ctz_nonneg|]. split; [apply pos_ctz_bit|]. apply pos_ctz_below.
Qed.

(** ** Search in terms of [find_range] *)

Lemma find_range_hit p lo i size :
  lo <= i -> lo <= size -> p i = true -> (forall j, lo <= j < i -> p j = false) ->
  default size (find_range p lo size) = Z.min i size.
Proof.
  intros Hlo Hs Hp Hmin. destruct (Z.lt_ge_cases i size) as [Hi|Hi].
  - rewrite (proj2 (find_range_Some p lo size i)); [simpl; lia|].
    split; [lia|]. done.
  - rewrite (proj2 (find_range_None p lo size)); [simpl; lia|].
    intros j Hj. apply Hmin. lia.
Qed.

Lemma find_range_skip p lo mid size :
  lo <= mid -> (forall j, lo <= j < mid -> p j = false) ->
  default size (find_range p lo size) = default size (find_range p mid size).
Proof.
  intros Hle Hmin. f_equal. induction lo as [lo Hge|lo Hlt IH] using (range_ind mid).
  - by assert (lo = mid) as -> by lia.
  - destruct (Z.lt_ge_cases lo size).
    + rewrite find_range_step, Hmin by lia. apply IH; [lia|]. intros. apply Hmin. lia.
    + by rewrite !find_range_nil by lia.
Qed.

(** A predicate read word by word: [p] at bit [b] of word [k] is bit [b] of [rd k]. *)
Definition reads (rd : Z -> Z) (p : Z -> bool) : Prop :=
  forall k, 0 <= k ->
    0 <= rd k < 2 ^ 64 /\ forall b, 0 <= b < 64 -> p (64 * k + b) = Z.testbit (rd k) b.

Lemma reads_set addr : words 64 addr -> reads (fun i => aget addr i) (bget 64 addr).
Proof.
  intros Hw k Hk. split; [apply aget_words; [lia|done]|]. intros b Hb. unfold bget.
  replace ((64 * k + b) / 64) with k by (Z.div_mod_to_equations; lia).
  by replace ((64 * k + b) mod 64) with b by (Z.div_mod_to_equations; lia).
Qed.

Lemma reads_clear addr :
  words 64 addr ->
  reads (fun i => u64 (Z.lnot (aget addr i))) (fun i => negb (bget 64 addr i)).
Proof.
  intros Hw k Hk. split; [apply u64_range|]. intros b Hb.
  destruct (reads_set addr Hw k Hk) as [_ Hr]. rewrite Hr by lia.
  unfold u64. rewrite Z.mod_pow2_bits_low, Z.lnot_spec by lia. done.
Qed.

Lemma reads_word_empty rd p k b :
  reads rd p -> 0 <= k -> 64 * k <= b < 64 * k + 64 -> rd k = 0 -> p b = false.
Proof.
  intros Hr Hk Hb Hz. destruct (Hr k Hk) as [_ Hb'].
  replace b with (64 * k + (b - 64 * k)) by lia. rewrite Hb', Hz by lia. apply Z.bits_0.
Qed.

Lemma reads_word_hit rd p k size :
  reads rd p -> 0 <= k -> 64 * k <= size -> rd k <> 0 ->
  default size (find_range p (64 * k) size)
  = Z.min (64 * k + builtin_ffsl (rd k) - 1) size.
Proof.
  intros Hr Hk Hs Hz. destruct (Hr k Hk) as [Hw Hb].
  destruct (builtin_ffsl_spec (rd k)) as (H0 & Ht & Hl); [lia|].
  assert (builtin_ffsl (rd k) - 1 < 64).
  { apply Z.nle_gt. intros Hge. rewrite (testbit_ge _ 64) in Ht; [done|lia..]. }
  rewrite (find_range_hit p _ (64 * k + (builtin_ffsl (rd k) - 1))).
  - f_equal. lia.
  - lia.
  - lia.
  - by rewrite Hb.
  - intros j Hj. replace j with (64 * k + (j - 64 * k)) by lia.
    rewrite Hb by lia. apply Hl. lia.
Qed.

Lemma find_next_loop_spec fuel rd p size k :
  reads rd p -> 0 <= k -> 0 <= size <= 2 ^ 63 -> 64 * k <= 2 ^ 63 + 64 ->
  Z.max 0 (size - 64 * k) + 64 <= 64 * Z.of_nat fuel ->
  find_next_loop fuel rd size (64 * k) = default size (find_range p (64 * k) size).
Proof.
  intros Hr. revert k. induction fuel as [|fuel IH]; intros k Hk Hs Hb Hf; [lia|].
  cbn [find_next_loop]. destruct (Z.ltb_spec (64 * k) size) as [Hlt|Hge].
  2: { by rewrite find_range_nil by lia. }
  unfold BIT_WORD, BITS_PER_LONG.
  replace (64 * k / 64) with k by (Z.div_mod_to_equations; lia).
  destruct (Z.eqb_spec (rd k) 0) as [Hz|Hz]; cbn [negb].
  - rewrite u64_small by lia. replace (64 * k + 64) with (64 * (k + 1)) by lia.
    rewrite IH by lia. symmetry. apply find_range_skip; [lia|].
    intros j Hj. apply (reads_word_empty rd p k); [done..|lia|done].
  - rewrite (reads_word_hit rd p k) by (done || lia). done.
Qed.

Lemma shiftl_ones_bit n b :
  0 <= n < 64 -> 0 <= b < 64 -> Z.testbit (u64 (Z.shiftl UINT64_MAX n)) b = (n <=? b).
Proof.
  intros Hn Hb. unfold u64. rewrite Z.mod_pow2_bits_low by lia.
  rewrite Z.shiftl_spec by lia. change UINT64_MAX with (Z.ones 64).
  destruct (Z.leb_spec n b); [rewrite Z.ones_spec_low; lia|].
  apply Z.testbit_neg_r. lia.
Qed.

Lemma find_next_spec rd p size offset :
  reads rd p -> 0 <= offset -> 0 <= size <= 2 ^ 63 ->
  find_next rd size offset = default size (find_range p offset size).
Proof.
  intros Hr Ho Hs. unfold find_next. rewrite Z.geb_leb.
  destruct (Z.leb_spec size offset) as [|Hlt]; [by rewrite find_range_nil|].
  set (k := BIT_WORD offset). set (n := offset mod BITS_PER_LONG).
  assert (offset = 64 * k + n /\ 0 <= k /\ 0 <= n < 64) as (Hoff & Hk & Hn).
  { unfold k, n, BIT_WORD, BITS_PER_LONG. Z.div_mod_to_equations. lia. }
  clearbody k n. destruct (Hr k Hk) as [Hw Hbits].
  set (tmp := Z.land _ _).
  assert (forall b, 0 <= b < 64 -> Z.testbit tmp b = (n <=? b) && p (64 * k + b)) as Htmp.
  { intros b Hb. unfold tmp. rewrite Z.land_spec, shiftl_ones_bit, Hbits by lia.
    apply andb_comm. }
  assert (0 <= tmp < 2 ^ 64) as Htw.
  { unfold tmp. assert (0 <= Z.land (rd k) (u64 (Z.shiftl UINT64_MAX n))).
    { apply Z.land_nonneg. lia. }
    split; [done|]. apply word_bounds_of_bits; [lia|done|]. intros i Hi.
    by rewrite Z.land_spec, (testbit_ge (rd k) 64) by lia. }
  clearbody tmp. destruct (Z.eqb_spec tmp 0) as [Hz|Hz]; cbn [negb].
  - unfold BITS_PER_LONG. rewrite u64_small by lia.
    replace ((k + 1) * 64) with (64 * (k + 1)) by lia.
    rewrite (find_next_loop_spec _ rd p).
    + symmetry. apply find_range_skip; [lia|]. intros j Hj.
      pose proof (Htmp (j - 64 * k) ltac:(lia)) as Hb. rewrite Hz, Z.bits_0 in Hb.
      replace (64 * k + (j - 64 * k)) with j in Hb by lia.
      rewrite (proj2 (Z.leb_le _ _)) in Hb by lia. by rewrite Hb.
    + done.
    + lia.
    + lia.
    + lia.
    + rewrite Z2Nat.id by (Z.div_mod_to_equations; lia).
      Z.div_mod_to_equations. lia.
  - destruct (builtin_ffsl_spec tmp) as (H0 & Ht & Hl); [lia|].
    assert (builtin_ffsl tmp - 1 < 64) as Hlt64.
    { apply Z.nle_gt. intros Hge. rewrite (testbit_ge _ 64) in Ht; [done|lia..]. }
    rewrite Htmp in Ht by lia. apply andb_true_iff in Ht as [Hge Hp].
    apply Z.leb_le in Hge. symmetry.
    rewrite (find_range_hit p _ (64 * k + (builtin_ffsl tmp - 1))).
    + f_equal. unfold BITS_PER_LONG. lia.
    + lia.
    + lia.
    + done.
    + intros j Hj. pose proof (Hl (j - 64 * k) ltac:(lia)) as Hb.
      rewrite Htmp in Hb by lia. replace (64 * k + (j - 64 * k)) with j in Hb by lia.
      rewrite (proj2 (Z.leb_le _ _)) in Hb by lia. done.
Qed.

Lemma find_first_loop_spec fuel addr size k :
  words 64 addr -> 0 <= k -> 0 <= size <= 2 ^ 63 -> 64 * k <= 2 ^ 63 + 64 ->
  Z.max 0 (size - 64 * k) + 64 <= 64 * Z.of_nat fuel ->
  find_first_loop fuel addr size k = default size (find_range (bget 64 addr) (64 * k) size).
Proof.
  intros Hw. pose proof (reads_set addr Hw) as Hr. revert k.
  induction fuel as [|fuel IH]; intros k Hk Hs Hb Hf; [lia|]. cbn [find_first_loop].
  unfold BITS_PER_LONG. rewrite u64_small by lia. rewrite (Z.mul_comm k).
  destruct (Z.ltb_spec (64 * k) size) as [Hlt|Hge]; [|by rewrite find_range_nil by lia].
  destruct (Z.eqb_spec (aget addr k) 0) as [Hz|Hz]; cbn [negb].
  - rewrite IH by lia. symmetry. apply find_range_skip; [lia|].
    intros j Hj. apply (reads_word_empty _ _ k _ Hr); [done|lia|done].
  - by rewrite (reads_word_hit _ _ k size Hr) by (done || lia).
Qed.

Lemma ffz_spec x :
  0 <= x < 2 ^ 64 -> u64 (Z.lnot x) <> 0 -> ffz x = builtin_ffsl (u64 (Z.lnot x)) - 1.
Proof.
  intros Hx Hz. unfold ffz, ffs. destruct (Z.eqb_spec (u64 (Z.lnot x)) 0) as [|]; [done|].
  pose proof (u64_range (Z.lnot x)).
  destruct (builtin_ffsl_spec (u64 (Z.lnot x))) as (H0 & Ht & _); [lia|].
  apply u64_small. split; [done|]. apply Z.nle_gt. intros Hge.
  rewrite (testbit_ge _ 64) in Ht; [done|lia..].
Qed.

Lemma find_first_zero_loop_spec fuel addr size k :
  words 64 addr -> 0 <= k -> 0 <= size <= 2 ^ 63 -> 64 * k <= 2 ^ 63 + 64 ->
  Z.max 0 (size - 64 * k) + 64 <= 64 * Z.of_nat fuel ->
  find_first_zero_loop fuel addr size k
  = default size (find_range (fun i => negb (bget 64 addr i)) (64 * k) size).
Proof.
  intros Hw. pose proof (reads_clear addr Hw) as Hr. revert k.
  induction fuel as [|fuel IH]; intros k Hk Hs Hb Hf; [lia|]. cbn [find_first_zero_loop].
  unfold BITS_PER_LONG. rewrite (u64_small (k * 64)) by lia. rewrite (Z.mul_comm k).
  destruct (Z.ltb_spec (64 * k) size) as [Hlt|Hge]; [|by rewrite find_range_nil by lia].
  destruct (Z.eqb_spec (u64 (Z.lnot (aget addr k))) 0) as [Hz|Hz]; cbn [negb].
  - rewrite IH by lia. symmetry. apply find_range_skip; [lia|].
    intros j Hj. apply (reads_word_empty _ _ k _ Hr); [done|lia|done].
  - rewrite (reads_word_hit _ _ k size Hr) by (done || lia).
    pose proof (aget_words 64 addr k ltac:(lia) Hw). rewrite ffz_spec by done.
    pose proof (u64_range (Z.lnot (aget addr k))).
    destruct (builtin_ffsl_spec (u64 (Z.lnot (aget addr k)))) as (Hnn & Ht & _); [lia|].
    rewrite u64_small; [f_equal; lia|]. split; [lia|].
    assert (builtin_ffsl (u64 (Z.lnot (aget addr k))) - 1 < 64); [|lia].
    apply Z.nle_gt. intros Hge. rewrite (testbit_ge _ 64) in Ht; [done|lia..].
Qed.

Lemma find_fuel_enough size :
  0 <= size ->
  Z.max 0 (size - 64 * 0) + 64 <= 64 * Z.of_nat (Z.to_nat (size / BITS_PER_LONG + 2)).
Proof.
  intros. unfold BITS_PER_LONG. rewrite Z2Nat.id by (Z.div_mod_to_equations; lia).
  Z.div_mod_to_equations. lia.
Qed.

(** ** Range updates *)

(** [op w m] gives the bits selected by [m] the value [v] and keeps the others. *)
Definition masks (op : Z -> Z -> Z) (v : bool) : Prop :=
  forall w m, 0 <= w < 2 ^ 64 -> 0 <= m < 2 ^ 64 ->
    0 <= op w m < 2 ^ 64 /\
    forall b, 0 <= b < 64 ->
      Z.testbit (op w m) b = if Z.testbit m b then v else Z.testbit w b.

(** The mask whose set bits are [lo, hi). *)
Definition mask_of (m lo hi : Z) : Prop :=
  0 <= m < 2 ^ 64 /\ forall b, 0 <= b < 64 -> Z.testbit m b = (lo <=? b) && (b <? hi).

Lemma masks_lor : masks Z.lor true.
Proof.
  intros w m Hw Hm. split; [auto with obelisk lia|]. intros b Hb.
  rewrite Z.lor_spec. destruct (Z.testbit m b); [apply orb_true_r|apply orb_false_r].
Qed.

Lemma masks_land_lnot : masks (fun w m => Z.land w (u64 (Z.lnot m))) false.
Proof.
  intros w m Hw Hm. unfold u64. rewrite (land_lnot_ldiff 64) by lia.
  split; [auto with obelisk lia|]. intros b Hb. rewrite Z.ldiff_spec.
  destruct (Z.testbit m b); [apply andb_false_r|apply andb_true_r].
Qed.

Lemma mask_word_update op v map k m lo hi i :
  masks op v -> mask_of m lo hi -> words 64 map -> 0 <= lo -> hi <= 64 ->
  0 <= k < Z.of_nat (length map) -> 0 <= i ->
  bget 64 (aset map k (op (aget map k) m)) i
  = if (64 * k + lo <=? i) && (i <? 64 * k + hi) then v else bget 64 map i.
Proof.
  intros Hop [Hm Hbits] Hw Hlo Hhi Hk Hi. unfold bget.
  pose proof (aget_words 64 map k ltac:(lia) Hw) as Hwk.
  assert (0 <= i / 64 /\ 0 <= i mod 64 < 64 /\ i = 64 * (i / 64) + i mod 64) as (? & ? & ?)
    by (Z.div_mod_to_equations; lia).
  destruct (decide (i / 64 = k)) as [He|Hne].
  - rewrite He, aget_aset_eq by lia. destruct (Hop _ _ Hwk Hm) as [_ Hb].
    rewrite Hb, Hbits by lia.
    replace (64 * k + lo <=? i) with (lo <=? i mod 64) by lia.
    replace (i <? 64 * k + hi) with (i mod 64 <? hi) by lia. done.
  - rewrite aget_aset_ne by lia. destruct ((64 * k + lo <=? i) && (i <? 64 * k + hi)) eqn:E;
      [zbool; lia|done].
Qed.

Lemma ones_mask n : 0 <= n < 64 -> mask_of (u64 (Z.shiftl UINT64_MAX n)) n 64.
Proof.
  intros Hn. split; [apply u64_range|]. intros b Hb. rewrite shiftl_ones_bit by lia.
  rewrite (proj2 (Z.ltb_lt b 64)) by lia. by rewrite andb_true_r.
Qed.

Lemma full_mask : mask_of UINT64_MAX 0 64.
Proof. apply (ones_mask 0). lia. Qed.

Lemma tail_mask m lo n :
  mask_of m lo 64 -> 0 <= n < 64 ->
  mask_of (Z.land m (u64 (Z.lnot (u64 (Z.shiftl UINT64_MAX n))))) lo n.
Proof.
  intros [Hm Hb] Hn. unfold u64 at 1. rewrite (land_lnot_ldiff 64) by lia.
  split; [auto with obelisk lia|]. intros b Hb'.
  rewrite Z.ldiff_spec, Hb, shiftl_ones_bit by lia.
  rewrite (proj2 (Z.ltb_lt b 64)), andb_true_r by lia. f_equal. lia.
Qed.

(** Where the update of [nbits] bits from bit [lo] of word [p] stops.  A range
    that does not reach the end of its first word is cut at bit [nbits] of that
    word, not at bit [lo + nbits]: the final mask is computed from the remaining
    length alone. *)
Definition range_stop (p lo nbits : Z) : Z :=
  if nbits <? 64 - lo then 64 * p + nbits else 64 * p + lo + nbits.

(** The loop and the final partial word, started inside word [p] at bit [lo]. *)
Lemma bitmap_range_loop_spec fuel op v map p nbits lo mask i :
  masks op v -> mask_of mask lo 64 -> words 64 map -> 0 <= lo < 64 -> 0 <= p ->
  0 <= nbits < Z.of_nat fuel -> 64 * p + lo + nbits <= 64 * Z.of_nat (length map) ->
  0 <= i ->
  bget 64
    (let '(map, p, nbits, mask) := bitmap_range_loop fuel op map p nbits (64 - lo) mask in
     if negb (nbits =? 0) then
       let mask := Z.land mask (u64 (Z.lnot (u64 (Z.shiftl UINT64_MAX nbits)))) in
       aset map p (op (aget map p) mask)
     else map) i
  = if (64 * p + lo <=? i) && (i <? range_stop p lo nbits) then v else bget 64 map i.
Proof.
  intros Hop. unfold range_stop. revert map p nbits lo mask.
  induction fuel as [|fuel IH]; intros map p nbits lo mask Hm Hw Hlo Hp Hn Hlen Hi; [lia|].
  cbn [bitmap_range_loop]. rewrite Z.geb_leb.
  destruct (Z.leb_spec (64 - lo) nbits) as [Hge|Hlt].
  - pose proof (aget_words 64 map p ltac:(lia) Hw) as Hwp.
    destruct (Hop _ _ Hwp (proj1 Hm)) as [Hword _].
    change BITS_PER_LONG with (64 - 0).
    rewrite IH; autorewrite with arr; auto using full_mask, aset_words; try lia.
    erewrite mask_word_update; eauto; try lia.
    repeat zif; try done; lia.
  - rewrite (proj2 (Z.ltb_lt nbits (64 - lo))) by lia.
    destruct (Z.eqb_spec nbits 0) as [->|Hnz]; cbn [negb].
    + zif; [lia|done].
    + cbv zeta. erewrite mask_word_update; eauto using tail_mask; try lia.
      apply tail_mask; [done|lia].
Qed.

Lemma bitmap_range_spec op v map start nbits i :
  masks op v -> words 64 map -> 0 <= start -> 0 <= nbits ->
  start + nbits <= 64 * Z.of_nat (length map) -> 0 <= i ->
  bget 64 (bitmap_range op map start nbits) i
  = if (start <=? i) && (i <? range_stop (start / 64) (start mod 64) nbits)
    then v else bget 64 map i.
Proof.
  intros Hop Hw Hs Hn Hlen Hi. unfold bitmap_range, BIT_WORD, BITS_PER_LONG.
  pose proof (Z.mod_pos_bound start 64 ltac:(lia)).
  assert (0 <= start / 64) by (apply Z.div_pos; lia).
  pose proof (Z.div_mod start 64 ltac:(lia)) as Hd.
  rewrite (bitmap_range_loop_spec _ op v); auto using ones_mask; try lia.
  by replace (64 * (start / 64) + start mod 64) with start by lia.
Qed.

(** ** Weight *)

Lemma weight_word_spec n v w :
  0 <= v < 2 ^ Z.of_nat n -> 0 <= w < 2 ^ 32 ->
  weight_word n v w = u32 (w + count_range (Z.testbit v) 0 (Z.of_nat n)).
Proof.
  revert v w. induction n as [|n IH]; intros v w Hv Hw; cbn [weight_word].
  - rewrite count_range_nil by lia. by rewrite Z.add_0_r, u32_small by lia.
  - destruct (Z.eqb_spec v 0) as [->|Hnz].
    + rewrite (count_range_ext _ (fun _ => false)) by (intros; apply Z.bits_0).
      rewrite count_range_const by lia. by rewrite Z.add_0_r, u32_small by lia.
    + rewrite count_range_step by lia.
      replace (Z.of_nat (S n)) with (Z.of_nat n + 1) in * by lia.
      rewrite <- (count_range_shift (Z.testbit (Z.shiftr v 1)) (Z.testbit v) 0 (Z.of_nat n) 1)
        by (intros; by rewrite Z.shiftr_spec by lia).
      rewrite IH.
      * unfold u32. rewrite Zplus_mod_idemp_l. f_equal.
        rewrite Z.bit0_odd. change 1 with (Z.ones 1) at 1. rewrite Z.land_ones by lia.
        rewrite Z.pow_1_r, Zmod_odd. destruct (Z.odd v); lia.
      * rewrite Z.shiftr_div_pow2 by lia. change (2 ^ 1) with 2.
        rewrite Z.pow_add_r in Hv by lia. Z.div_mod_to_equations. lia.
      * apply u32_range.
Qed.

Lemma weight_words_spec bitmap n :
  words 64 bitmap -> 0 <= n -> 64 * n < 2 ^ 32 ->
  for_range 0 n (fun k w => weight_word 64 (aget bitmap k) w) 0
  = count_range (bget 64 bitmap) 0 (64 * n).
Proof.
  intros Hw Hn Hb.
  apply (for_range_inv (fun k w => k <= n -> w = count_range (bget 64 bitmap) 0 (64 * k)));
    [done|intros; by rewrite count_range_nil by lia| |lia].
  intros k w Hk IH Hle. rewrite IH by lia.
  pose proof (count_range_bound (bget 64 bitmap) 0 (64 * k)).
  rewrite weight_word_spec by (try apply aget_words; (done || lia)).
  rewrite (count_range_split _ 0 (64 * k) (64 * (k + 1))) by lia.
  change (Z.of_nat 64) with 64.
  pose proof (count_range_bound (Z.testbit (aget bitmap k)) 0 64).
  rewrite u32_small by lia. f_equal.
  rewrite (count_range_shift (Z.testbit (aget bitmap k)) (bget 64 bitmap) 0 64 (64 * k)).
  - f_equal; lia.
  - intros b Hb'. destruct (reads_set bitmap Hw k) as [_ Hr]; [lia|].
    by rewrite <- Hr, Z.add_comm by lia.
Qed.

(** ** Single bits *)

Lemma BIT_MASK_pow2 nr : BIT_MASK nr = 2 ^ (nr mod 64).
Proof. unfold BIT_MASK, BITS_PER_LONG. apply Z.shiftl_1_l. Qed.

Lemma test_bit_bget nr addr : test_bit nr addr = bget 64 addr nr.
Proof.
  unfold test_bit. rewrite BIT_MASK_pow2. apply (flagb_pow2 _ (nr mod 64)).
  apply Z.mod_pos_bound. lia.
Qed.

(** ** Properties *)

(** Every word-at-a-time search of bitmap.c returns what the bit-at-a-time
    search returns: the first set (or clear) bit of [offset, size), or [size]
    when there is none. *)
Theorem bitmap_search_correct addr size offset
    (Hw : words 64 addr) (Hs : 0 <= size <= 2 ^ 63) (Ho : 0 <= offset) :
  find_first_bit addr size = default size (find_range (bget 64 addr) 0 size) /\
  find_first_zero_bit addr size
  = default size (find_range (fun i => negb (bget 64 addr i)) 0 size) /\
  find_next_bit addr size offset
  = default size (find_range (bget 64 addr) offset size) /\
  find_next_zero_bit addr size offset
  = default size (find_range (fun i => negb (bget 64 addr i)) offset size).
Proof.
  pose proof (find_fuel_enough size (proj1 Hs)). split_and!.
  - by apply (find_first_loop_spec _ addr size 0).
  - by apply (find_first_zero_loop_spec _ addr size 0).
  - apply find_next_spec; auto using reads_set.
  - by apply (find_next_spec _ _ size offset (reads_clear addr Hw)).
Qed.

Lemma bitmap_search_correct_witness :
  find_next_bit [1; 2 ^ 5; 7] 192 3 = 69 /\ find_next_zero_bit [1; 2 ^ 5; 7] 192 128 = 131 /\
  find_next_bit [1; 2 ^ 5; 7] 192 3
  = default 192 (find_range (bget 64 [1; 2 ^ 5; 7]) 3 192).
Proof.
  split; [reflexivity|]. split; [reflexivity|].
  apply (bitmap_search_correct [1; 2 ^ 5; 7] 192 3).
  - repeat constructor; lia.
  - lia.
  - lia.
Defined.

(** [bitmap_set] and [bitmap_clear] give every bit of
    [start, range_stop) the value 1 or 0 and change no other bit; the range
    ends at [start + nbits] exactly when it reaches the end of its first word
    or starts on a word boundary. *)
Theorem bitmap_set_clear_exact map start nbits i
    (Hw : words 64 map) (Hs : 0 <= start) (Hn : 0 <= nbits)
    (Hlen : start + nbits <= 64 * Z.of_nat (length map)) (Hi : 0 <= i) :
  bget 64 (bitmap_set map start nbits) i
  = ((start <=? i) && (i <? range_stop (start / 64) (start mod 64) nbits)) || bget 64 map i /\
  bget 64 (bitmap_clear map start nbits) i
  = negb ((start <=? i) && (i <? range_stop (start / 64) (start mod 64) nbits))
    && bget 64 map i /\
  (range_stop (start / 64) (start mod 64) nbits = start + nbits <->
   start mod 64 = 0 \/ 64 - start mod 64 <= nbits).
Proof.
  split_and!.
  - unfold bitmap_set. rewrite (bitmap_range_spec _ true) by auto using masks_lor.
    by destruct (_ && _).
  - unfold bitmap_clear. rewrite (bitmap_range_spec _ false) by auto using masks_land_lnot.
    by destruct (_ && _).
  - unfold range_stop. pose proof (Z.div_mod start 64). zif; lia.
Qed.

Lemma bitmap_set_clear_exact_witness :
  bitmap_set [0; 0] 60 8 = [2 ^ 64 - 2 ^ 60; 15] /\ bitmap_set [0] 10 3 = [0] /\
  bget 64 (bitmap_set [0; 0] 60 8) 61
  = ((60 <=? 61) && (61 <? range_stop (60 / 64) (60 mod 64) 8)) || bget 64 [0; 0] 61.
Proof.
  split; [reflexivity|]. split; [reflexivity|].
  apply (bitmap_set_clear_exact [0; 0] 60 8 61).
  - repeat constructor; lia.
  - lia.
  - lia.
  - simpl. lia.
  - lia.
Defined.

(** [bitmap_weight] counts the set bits of the whole words that hold the
    first [bits] bits, including the bits past [bits] in the last word. *)
Theorem bitmap_weight_exact bitmap bits
    (Hw : words 64 bitmap) (Hb : 0 <= bits < 2 ^ 32 - 64) :
  bitmap_weight bitmap bits
  = count_range (bget 64 bitmap) 0 (64 * ((bits + 63) / 64)).
Proof.
  unfold bitmap_weight, BITS_TO_LONGS, BITS_PER_LONG.
  rewrite u32_small by lia. replace (bits + 64 - 1) with (bits + 63) by lia.
  apply weight_words_spec; [done|Z.div_mod_to_equations; lia..].
Qed.

Lemma bitmap_weight_exact_witness :
  bitmap_weight [255] 4 = 8 /\
  bitmap_weight [255] 4 = count_range (bget 64 [255]) 0 (64 * ((4 + 63) / 64)).
Proof.
  split; [reflexivity|]. apply (bitmap_weight_exact [255] 4).
  - repeat constructor; lia.
  - lia.
Defined.
