(* ===== verification/PageAllocator.v ===== *)
(** * What the page-frame allocator promises to its clients

    The interface between the physical memory manager and the components that
    obtain frames from it.  A client sees a set of free frames; physical address
    0 is the failure value, so frame 0 is never on offer. *)

From S2P Require Import Prelude.

(** The frames [pfn, pfn + count). *)
Definition frame_range (pfn count : Z) : gset Z := list_to_set (seqZ pfn count).

Lemma elem_of_frame_range pfn a n : pfn ∈ frame_range a n <-> a <= pfn < a + n.
Proof. unfold frame_range. rewrite elem_of_list_to_set, elem_of_seqZ. lia. Qed.

Lemma frame_range_disjoint a n b m :
  a + n <= b \/ b + m <= a -> frame_range a n ## frame_range b m.
Proof. intros H x. rewrite !elem_of_frame_range. lia. Qed.

Class PageAllocator (St : Type) := {
  pa_inv : St -> Prop;
  pa_frames : St -> gset Z;
  pa_managed : St -> Z -> Prop;
  (** [count] contiguous frames: the physical address of the block, or 0. *)
  pa_alloc : Z -> St -> Z * St;
  pa_free : Z -> Z -> St -> St;
  (** A single frame. *)
  pa_alloc_page : St -> Z * St;
  pa_free_page : Z -> St -> St;
  (** The owner and the flags in a frame's metadata. *)
  pa_set_owner : Z -> Z -> St -> St;
  pa_update_flags : Z -> Z -> Z -> St -> St;
  pa_frames_managed s pfn : pa_inv s -> pfn ∈ pa_frames s -> pa_managed s pfn /\ 0 < pfn < 2 ^ 20;
  pa_alloc_spec s n :
    pa_inv s -> 0 < n < 2 ^ 64 ->
    pa_inv (pa_alloc n s).2 /\
    (forall p, pa_managed (pa_alloc n s).2 p <-> pa_managed s p) /\
    ((pa_alloc n s).1 = 0 /\ (pa_alloc n s).2 = s \/
     exists a, (pa_alloc n s).1 = a * PAGE_SIZE /\ frame_range a n ⊆ pa_frames s /\
       pa_frames (pa_alloc n s).2 = pa_frames s ∖ frame_range a n);
  pa_free_spec s a n :
    pa_inv s -> 0 < a -> 0 <= n -> a + n <= 2 ^ 20 ->
    (forall p, a <= p < a + n -> pa_managed s p) ->
    pa_inv (pa_free (a * PAGE_SIZE) n s) /\
    (forall p, pa_managed (pa_free (a * PAGE_SIZE) n s) p <-> pa_managed s p) /\
    pa_frames (pa_free (a * PAGE_SIZE) n s) = pa_frames s ∪ frame_range a n;
  pa_alloc_page_spec s :
    pa_inv s ->
    pa_inv (pa_alloc_page s).2 /\
    (forall p, pa_managed (pa_alloc_page s).2 p <-> pa_managed s p) /\
    ((pa_alloc_page s).1 = 0 /\ (pa_alloc_page s).2 = s \/
     exists a, (pa_alloc_page s).1 = a * PAGE_SIZE /\ a ∈ pa_frames s /\
       pa_frames (pa_alloc_page s).2 = pa_frames s ∖ {[a]});
  pa_free_page_spec s phys :
    pa_inv s -> 0 < phys / PAGE_SIZE ->
    pa_inv (pa_free_page phys s) /\
    (forall p, pa_managed (pa_free_page phys s) p <-> pa_managed s p) /\
    (forall p, p ∈ pa_frames (pa_free_page phys s) <->
       p ∈ pa_frames s \/ p = phys / PAGE_SIZE /\ pa_managed s p);
  pa_tag_spec s phys x y :
    pa_inv s ->
    (pa_inv (pa_set_owner phys x s) /\ pa_frames (pa_set_owner phys x s) = pa_frames s /\
     forall p, pa_managed (pa_set_owner phys x s) p <-> pa_managed s p) /\
    (pa_inv (pa_update_flags phys x y s) /\ pa_frames (pa_update_flags phys x y s) = pa_frames s /\
     forall p, pa_managed (pa_update_flags phys x y s) p <-> pa_managed s p)
}.

(** Two allocations never hand out the same frame unless it was freed between
    them: the second block is free after the first was taken. *)
Lemma pa_alloc_fresh `{PageAllocator St} s n m a b :
  pa_inv s -> 0 < n < 2 ^ 64 -> 0 < m < 2 ^ 64 ->
  (pa_alloc n s).1 = a * PAGE_SIZE -> a <> 0 ->
  (pa_alloc m (pa_alloc n s).2).1 = b * PAGE_SIZE -> b <> 0 ->
  frame_range a n ## frame_range b m.
Proof.
  intros Hi Hn Hm Ha Ha0 Hb Hb0. unfold PAGE_SIZE in *.
  destruct (pa_alloc_spec s n Hi Hn) as (Hi' & _ & [[? _]|(a' & Ea & _ & Hf)]); [lia|].
  destruct (pa_alloc_spec _ m Hi' Hm) as (_ & _ & [[? _]|(b' & Eb & Hsub & _)]); [lia|].
  unfold PAGE_SIZE in *. assert (a' = a) as -> by lia. assert (b' = b) as -> by lia.
  rewrite Hf in Hsub. clear -Hsub. set_solver.
Qed.
