(* ===== verification/Pmm.v ===== *)
(** * Physical memory manager (kernel/mm/pmm.c)

    A bitmap allocator of page frames over three zones that share one bitmap;
    a clear bit is a free frame.  The model keeps the zones, the bitmap words,
    the global counters and the per-frame metadata array, and translates every
    operation that changes them.  The abstraction is the finite set of free
    frames [free_frames]. *)

From S2P Require Import Prelude PageAllocator.

(** ** State *)

Inductive zone_type := ZONE_DMA | ZONE_NORMAL | ZONE_HIGH.

#[global] Instance zone_type_eq_dec : EqDecision zone_type.
Proof. solve_decision. Defined.

Record pmm_zone := Zone {
  start_pfn : Z;
  end_pfn : Z;
  zone_total_pages : Z;
  zone_free_pages : Z
}.

Record page := Page {
  pg_flags : Z;
  pg_refcount : Z;
  pg_zone : Z;
  pg_owner : Z
}.

(** The static variables of pmm.c; [page_array] is [None] while the pointer is
    NULL, and its length is [page_array_count] otherwise. *)
Record pmm := Pmm {
  zone_dma : pmm_zone;
  zone_normal : pmm_zone;
  zone_high : pmm_zone;
  initial_bitmap : list Z;
  total_pages : Z;
  free_pages : Z;
  usable_pages : Z;
  page_array : option (list page);
  page_array_backing_phys : Z
}.

Definition BITMAP_WORDS : nat := Z.to_nat (1024 * 1024 / 32).

Abbreviation PAGE_FLAG_RESERVED := 1%Z (only parsing).
Abbreviation PAGE_FLAG_KERNEL := 2%Z (only parsing).
Abbreviation PAGE_FLAG_USER := 4%Z (only parsing).
Abbreviation PAGE_FLAG_DMA := 8%Z (only parsing).
Abbreviation PAGE_FLAG_SLAB := 128%Z (only parsing).

Abbreviation PAGE_OWNER_FREE := 0%Z (only parsing).
Abbreviation PAGE_OWNER_KERNEL := 1%Z (only parsing).
Abbreviation PAGE_OWNER_SLAB := 3%Z (only parsing).
Abbreviation PAGE_OWNER_DMA := 5%Z (only parsing).

(** [sizeof(struct page)]: two 32-bit and two 16-bit fields, padding, a list
    head and a pointer. *)
Definition sizeof_page : Z := 40.

Definition pfn_to_phys (pfn : Z) : Z := u64 (Z.shiftl pfn PAGE_SHIFT).
Definition phys_to_pfn (phys : Z) : Z := Z.shiftr phys PAGE_SHIFT.

Definition zones (st : pmm) (zt : zone_type) : pmm_zone :=
  match zt with
  | ZONE_DMA => zone_dma st
  | ZONE_NORMAL => zone_normal st
  | ZONE_HIGH => zone_high st
  end.

Definition zone_index (zt : zone_type) : Z :=
  match zt with ZONE_DMA => 0 | ZONE_NORMAL => 1 | ZONE_HIGH => 2 end.

(** ** Field updates *)

Definition with_zone (zt : zone_type) (z : pmm_zone) (st : pmm) : pmm :=
  match zt with
  | ZONE_DMA =>
    Pmm z (zone_normal st) (zone_high st) (initial_bitmap st) (total_pages st)
        (free_pages st) (usable_pages st) (page_array st) (page_array_backing_phys st)
  | ZONE_NORMAL =>
    Pmm (zone_dma st) z (zone_high st) (initial_bitmap st) (total_pages st)
        (free_pages st) (usable_pages st) (page_array st) (page_array_backing_phys st)
  | ZONE_HIGH =>
    Pmm (zone_dma st) (zone_normal st) z (initial_bitmap st) (total_pages st)
        (free_pages st) (usable_pages st) (page_array st) (page_array_backing_phys st)
  end.

Definition with_bitmap (b : list Z) (st : pmm) : pmm :=
  Pmm (zone_dma st) (zone_normal st) (zone_high st) b (total_pages st)
      (free_pages st) (usable_pages st) (page_array st) (page_array_backing_phys st).

Definition with_free_pages (n : Z) (st : pmm) : pmm :=
  Pmm (zone_dma st) (zone_normal st) (zone_high st) (initial_bitmap st) (total_pages st)
      n (usable_pages st) (page_array st) (page_array_backing_phys st).

Definition with_usable_pages (n : Z) (st : pmm) : pmm :=
  Pmm (zone_dma st) (zone_normal st) (zone_high st) (initial_bitmap st) (total_pages st)
      (free_pages st) n (page_array st) (page_array_backing_phys st).

Definition with_page_array (a : option (list page)) (st : pmm) : pmm :=
  Pmm (zone_dma st) (zone_normal st) (zone_high st) (initial_bitmap st) (total_pages st)
      (free_pages st) (usable_pages st) a (page_array_backing_phys st).

Definition zone_with_free (n : Z) (z : pmm_zone) : pmm_zone :=
  Zone (start_pfn z) (end_pfn z) (zone_total_pages z) n.

(** ** Bitmap operations *)

Definition bitmap_set (bitmap : list Z) (bit : Z) : list Z :=
  aset bitmap (bit / 32) (Z.lor (aget bitmap (bit / 32)) (Z.shiftl 1 (bit mod 32))).

Definition bitmap_clear (bitmap : list Z) (bit : Z) : list Z :=
  aset bitmap (bit / 32)
    (Z.land (aget bitmap (bit / 32)) (u32 (Z.lnot (Z.shiftl 1 (bit mod 32))))).

Definition bitmap_test (bitmap : list Z) (bit : Z) : bool :=
  negb (Z.land (aget bitmap (bit / 32)) (Z.shiftl 1 (bit mod 32)) =? 0).

Definition bitmap_find_free (bitmap : list Z) (start end_ : Z) : Z :=
  match find_range (fun i => negb (bitmap_test bitmap i)) start end_ with
  | Some i => i
  | None => -1
  end.

Fixpoint find_free_region_loop (n : nat) (bitmap : list Z) (i count : Z)
    (found_start found_count : Z) : Z :=
  match n with
  | O => -1
  | S n' =>
    if negb (bitmap_test bitmap i) then
      let found_start := if found_count =? 0 then i else found_start in
      let found_count := u64 (found_count + 1) in
      if found_count =? count then found_start
      else find_free_region_loop n' bitmap (i + 1) count found_start found_count
    else find_free_region_loop n' bitmap (i + 1) count found_start 0
  end.

Definition bitmap_find_free_region (bitmap : list Z) (start end_ count : Z) : Z :=
  find_free_region_loop (Z.to_nat (end_ - start)) bitmap start count 0 0.

(** ** Lookups *)

Definition in_zone (z : pmm_zone) (pfn : Z) : bool :=
  (pfn >=? start_pfn z) && (pfn <? end_pfn z).

(** The loop over the three zones, unrolled. *)
Definition pfn_to_zone (st : pmm) (pfn : Z) : option zone_type :=
  if in_zone (zones st ZONE_DMA) pfn then Some ZONE_DMA
  else if in_zone (zones st ZONE_NORMAL) pfn then Some ZONE_NORMAL
  else if in_zone (zones st ZONE_HIGH) pfn then Some ZONE_HIGH
  else None.

Definition pfn_to_page_struct (st : pmm) (pfn : Z) : option page :=
  match page_array st with
  | None => None
  | Some pa => if pfn >=? Z.of_nat (length pa) then None else pa !! Z.to_nat pfn
  end.

(** The pattern: look the frame up with [pfn_to_page_struct] and, when the
    pointer is not NULL, update the entry in place with [f]. *)
Definition update_page (pfn : Z) (f : page -> page) (st : pmm) : pmm :=
  match page_array st with
  | None => st
  | Some pa =>
    if pfn >=? Z.of_nat (length pa) then st
    else with_page_array (Some (alter f (Z.to_nat pfn) pa)) st
  end.

Definition dma_flag (is_dma : bool) (flags : Z) : Z :=
  if is_dma then Z.lor flags PAGE_FLAG_DMA
  else Z.land flags (u32 (Z.lnot PAGE_FLAG_DMA)).

(** The metadata update of a frame that becomes free. *)
Definition page_mark_free (zt : zone_type) (pg : page) : page :=
  let flags := Z.land (pg_flags pg)
    (u32 (Z.lnot (Z.lor (Z.lor (Z.lor PAGE_FLAG_RESERVED PAGE_FLAG_KERNEL)
                               PAGE_FLAG_USER) PAGE_FLAG_SLAB))) in
  Page (dma_flag (bool_decide (zt = ZONE_DMA)) flags) 0 (pg_zone pg) PAGE_OWNER_FREE.

(** The metadata update of a frame that becomes used, with its new owner. *)
Definition page_mark_used (zt : zone_type) (owner : Z) (pg : page) : page :=
  let flags := Z.lor (pg_flags pg) (Z.lor PAGE_FLAG_RESERVED PAGE_FLAG_KERNEL) in
  Page (dma_flag (bool_decide (zt = ZONE_DMA)) flags) 1 (pg_zone pg) owner.

Definition alloc_owner (zt : zone_type) : Z :=
  if bool_decide (zt = ZONE_DMA) then PAGE_OWNER_DMA else PAGE_OWNER_KERNEL.

(** ** Region marking *)

Definition mark_free_body (pfn : Z) (st : pmm) : pmm :=
  match pfn_to_zone st pfn with
  | Some zt =>
    if bitmap_test (initial_bitmap st) pfn then
      let st := with_bitmap (bitmap_clear (initial_bitmap st) pfn) st in
      let z := zones st zt in
      let st := with_zone zt (zone_with_free (u64 (zone_free_pages z + 1)) z) st in
      let st := with_free_pages (u64 (free_pages st + 1)) st in
      let st := with_usable_pages (u64 (usable_pages st + 1)) st in
      update_page pfn (page_mark_free zt) st
    else st
  | None => st
  end.

Definition pmm_mark_region_free (base size : Z) (st : pmm) : pmm :=
  let start := phys_to_pfn (ALIGN_UP base PAGE_SIZE) in
  let end_ := phys_to_pfn (ALIGN_DOWN (u64 (base + size)) PAGE_SIZE) in
  if end_ <=? start then st
  else for_range start end_ mark_free_body st.

Definition mark_used_body (pfn : Z) (st : pmm) : pmm :=
  match pfn_to_zone st pfn with
  | Some zt =>
    if negb (bitmap_test (initial_bitmap st) pfn) then
      let st := with_bitmap (bitmap_set (initial_bitmap st) pfn) st in
      let z := zones st zt in
      let st := if zone_free_pages z >? 0
                then with_zone zt (zone_with_free (zone_free_pages z - 1) z) st else st in
      let st := if free_pages st >? 0 then with_free_pages (free_pages st - 1) st else st in
      update_page pfn (page_mark_used zt PAGE_OWNER_KERNEL) st
    else st
  | None => st
  end.

Definition pmm_mark_region_used (base size : Z) (st : pmm) : pmm :=
  let start := phys_to_pfn (ALIGN_DOWN base PAGE_SIZE) in
  let end_ := phys_to_pfn (ALIGN_UP (u64 (base + size)) PAGE_SIZE) in
  for_range start end_ mark_used_body st.

(** ** Allocation *)

Definition pmm_alloc_page_zone (zt : zone_type) (st : pmm) : Z * pmm :=
  let z := zones st zt in
  if zone_free_pages z =? 0 then (0, st) else
  let pfn := bitmap_find_free (initial_bitmap st) (start_pfn z) (end_pfn z) in
  if pfn <? 0 then (0, st) else
  let st := with_bitmap (bitmap_set (initial_bitmap st) pfn) st in
  let st := with_zone zt (zone_with_free (u64 (zone_free_pages z - 1)) z) st in
  let st := with_free_pages (u64 (free_pages st - 1)) st in
  let st := update_page pfn (page_mark_used zt (alloc_owner zt)) st in
  (pfn_to_phys pfn, st).

Definition pmm_alloc_page (st : pmm) : Z * pmm :=
  let '(page, st) := pmm_alloc_page_zone ZONE_NORMAL st in
  if negb (page =? 0) then (page, st) else
  let '(page, st) := pmm_alloc_page_zone ZONE_HIGH st in
  if negb (page =? 0) then (page, st) else
  pmm_alloc_page_zone ZONE_DMA st.

Definition alloc_pages_body (zt : zone_type) (start : Z) (i : Z) (st : pmm) : pmm :=
  update_page (start + i) (page_mark_used zt (alloc_owner zt))
    (with_bitmap (bitmap_set (initial_bitmap st) (start + i)) st).

Definition pmm_alloc_pages_zone (count : Z) (zt : zone_type) (st : pmm) : Z * pmm :=
  let z := zones st zt in
  if zone_free_pages z <? count then (0, st) else
  let start := bitmap_find_free_region (initial_bitmap st) (start_pfn z) (end_pfn z) count in
  if start <? 0 then (0, st) else
  let st := for_range 0 count (alloc_pages_body zt start) st in
  let st := with_zone zt (zone_with_free (u64 (zone_free_pages z - count)) z) st in
  let st := with_free_pages (u64 (free_pages st - count)) st in
  (pfn_to_phys start, st).

Definition pmm_alloc_pages (count : Z) (st : pmm) : Z * pmm :=
  let '(pages, st) := pmm_alloc_pages_zone count ZONE_NORMAL st in
  if negb (pages =? 0) then (pages, st) else
  let '(pages, st) := pmm_alloc_pages_zone count ZONE_HIGH st in
  if negb (pages =? 0) then (pages, st) else
  pmm_alloc_pages_zone count ZONE_DMA st.

(** ** Deallocation *)

Definition pmm_free_page (phys : Z) (st : pmm) : pmm :=
  let pfn := phys_to_pfn phys in
  match pfn_to_zone st pfn with
  | None => st
  | Some zt =>
    if negb (bitmap_test (initial_bitmap st) pfn) then st else
    let st := with_bitmap (bitmap_clear (initial_bitmap st) pfn) st in
    let z := zones st zt in
    let st := with_zone zt (zone_with_free (u64 (zone_free_pages z + 1)) z) st in
    let st := with_free_pages (u64 (free_pages st + 1)) st in
    update_page pfn (page_mark_free zt) st
  end.

Definition pmm_free_pages (phys count : Z) (st : pmm) : pmm :=
  for_range 0 count (fun i st => pmm_free_page (u64 (phys + i * PAGE_SIZE)) st) st.

Definition pmm_get_used_pages (st : pmm) : Z := u64 (total_pages st - free_pages st).

(** ** Page metadata *)

Definition pmm_page_set_owner (phys owner : Z) (st : pmm) : pmm :=
  update_page (phys_to_pfn phys)
    (fun pg => Page (pg_flags pg) (pg_refcount pg) (pg_zone pg) owner) st.

Definition pmm_page_update_flags (phys set_flags clear_flags : Z) (st : pmm) : pmm :=
  update_page (phys_to_pfn phys)
    (fun pg => Page (Z.land (Z.lor (pg_flags pg) set_flags) (u32 (Z.lnot clear_flags)))
                    (pg_refcount pg) (pg_zone pg) (pg_owner pg)) st.

Definition pmm_page_ref_inc (phys : Z) (st : pmm) : pmm :=
  update_page (phys_to_pfn phys)
    (fun pg => Page (pg_flags pg) (u32 (pg_refcount pg + 1)) (pg_zone pg) (pg_owner pg)) st.

Definition pmm_page_ref_dec (phys : Z) (st : pmm) : bool * pmm :=
  match pfn_to_page_struct st (phys_to_pfn phys) with
  | None => (false, st)
  | Some pg =>
    if pg_refcount pg =? 0 then (false, st) else
    let n := pg_refcount pg - 1 in
    (n =? 0,
     update_page (phys_to_pfn phys)
       (fun pg => Page (pg_flags pg) n (pg_zone pg) (pg_owner pg)) st)
  end.

(** ** Initialisation *)

Definition init_zone (z : pmm_zone) (end_ : Z) : pmm_zone :=
  Zone (start_pfn z) end_ (u64 (end_ - start_pfn z)) 0.

Definition pmm_init_bitmap (num_pages : Z) (st : pmm) : pmm :=
  let max_bitmap_pages := Z.of_nat BITMAP_WORDS * 4 * 8 in
  let total := if num_pages >? max_bitmap_pages then max_bitmap_pages else num_pages in
  let d := zone_dma st in let n := zone_normal st in let h := zone_high st in
  let '(d, n, h) :=
    if total >? 0x100000 then
      (init_zone d (end_pfn d), init_zone n (end_pfn n), init_zone h total)
    else if total >? 0x1000 then
      (init_zone d (end_pfn d), init_zone n total, init_zone h (start_pfn h))
    else
      (init_zone d total, init_zone n (start_pfn n), init_zone h (start_pfn h)) in
  Pmm d n h (replicate BITMAP_WORDS UINT32_MAX) total 0 0
      (page_array st) (page_array_backing_phys st).

(** The static initialisers of pmm.c. *)
Definition pmm_boot : pmm :=
  Pmm (Zone 0 0x1000 0 0) (Zone 0x1000 0x100000 0 0) (Zone 0x100000 0 0 0)
      (replicate BITMAP_WORDS 0) 0 0 0 None 0.

Definition init_page_entry (st : pmm) (pfn : Z) : page :=
  let zone := pfn_to_zone st pfn in
  let flags := if bool_decide (zone = Some ZONE_DMA)
               then Z.lor PAGE_FLAG_RESERVED PAGE_FLAG_DMA else PAGE_FLAG_RESERVED in
  Page flags 1 (match zone with Some zt => zone_index zt | None => 1 end) PAGE_OWNER_KERNEL.

(** [None] is the panic of the code when the metadata cannot be allocated. *)
Definition pmm_init_page_metadata (st : pmm) : option pmm :=
  if total_pages st =? 0 then Some st else
  let meta_bytes := u64 (total_pages st * sizeof_page) in
  let meta_pages := ALIGN_UP meta_bytes PAGE_SIZE / PAGE_SIZE in
  let '(phys, st) := pmm_alloc_pages meta_pages st in
  if phys =? 0 then None else
  let entries := init_page_entry st <$> seqZ 0 (total_pages st) in
  let st := Pmm (zone_dma st) (zone_normal st) (zone_high st) (initial_bitmap st)
                (total_pages st) (free_pages st) (usable_pages st) (Some entries) phys in
  Some (for_range 0 meta_pages
          (fun i st => update_page (phys_to_pfn (u64 (phys + i * PAGE_SIZE)))
             (fun pg => Page (Z.lor (pg_flags pg) PAGE_FLAG_KERNEL) 1 (pg_zone pg)
                             PAGE_OWNER_KERNEL) st) st).

(** ** The abstraction: managed frames and free frames *)

(** A frame is managed when a zone holds it, free when its bit is clear too. *)
Definition frame_free (st : pmm) (pfn : Z) : bool :=
  match pfn_to_zone st pfn with
  | Some _ => negb (bget 32 (initial_bitmap st) pfn)
  | None => false
  end.

Definition capacity (st : pmm) : Z := 32 * Z.of_nat (length (initial_bitmap st)).

Definition free_frames (st : pmm) : gset Z :=
  list_to_set (filter (fun pfn => frame_free st pfn = true) (seqZ 0 (capacity st))).

(** ** Invariant *)

Record zone_ok (st : pmm) (z : pmm_zone) : Prop := {
  zone_order : 0 <= start_pfn z <= end_pfn z;
  zone_cap : start_pfn z < end_pfn z -> end_pfn z <= capacity st;
  zone_count : zone_free_pages z =
    count_range (fun i => negb (bget 32 (initial_bitmap st) i)) (start_pfn z) (end_pfn z)
}.

(** The zones are disjoint ranges of the bitmap, each zone's counter is the
    number of its clear bits, and the global counter is the sum. *)
Record pmm_ok (st : pmm) : Prop := {
  ok_words : words 32 (initial_bitmap st);
  ok_len : capacity st <= 2 ^ 20;
  ok_zones : forall zt, zone_ok st (zones st zt);
  ok_disjoint : forall zt zt' pfn,
    in_zone (zones st zt) pfn = true -> in_zone (zones st zt') pfn = true -> zt = zt';
  ok_free : free_pages st = zone_free_pages (zone_dma st)
            + zone_free_pages (zone_normal st) + zone_free_pages (zone_high st)
}.

(** ** Bits of the 32-bit bitmap *)

Lemma bitmap_test_bget l i : bitmap_test l i = bget 32 l i.
Proof.
  unfold bitmap_test, bget. rewrite Z.shiftl_1_l.
  apply (flagb_pow2 (aget l (i / 32))). apply Z.mod_pos_bound. lia.
Qed.

Lemma bget_bitmap_set l i j :
  0 <= i < 32 * Z.of_nat (length l) -> 0 <= j ->
  bget 32 (bitmap_set l i) j = (i =? j) || bget 32 l j.
Proof. intros. unfold bitmap_set. rewrite Z.shiftl_1_l. by apply bget_set_bit. Qed.

Lemma bget_bitmap_clear l i j :
  words 32 l -> 0 <= i < 32 * Z.of_nat (length l) -> 0 <= j ->
  bget 32 (bitmap_clear l i) j = negb (i =? j) && bget 32 l j.
Proof.
  intros. unfold bitmap_clear, u32.
  rewrite Z.shiftl_1_l, land_lnot_ldiff by (lia || by apply aget_words).
  by apply bget_clear_bit.
Qed.

Lemma bitmap_set_words l i : words 32 l -> words 32 (bitmap_set l i).
Proof.
  intros. apply aset_words; [done|]. rewrite Z.shiftl_1_l.
  apply lor_word; [lia|by apply aget_words|]. apply pow2_word, Z.mod_pos_bound. lia.
Qed.

Lemma bitmap_clear_words l i : words 32 l -> words 32 (bitmap_clear l i).
Proof.
  intros. apply aset_words; [done|]. unfold u32.
  rewrite land_lnot_ldiff by (lia || by apply aget_words).
  apply ldiff_word; [lia|by apply aget_words].
Qed.

Lemma length_bitmap_set l i : length (bitmap_set l i) = length l.
Proof. apply length_aset. Qed.

Lemma length_bitmap_clear l i : length (bitmap_clear l i) = length l.
Proof. apply length_aset. Qed.

#[export] Hint Resolve bitmap_set_words bitmap_clear_words : obelisk.
#[export] Hint Rewrite length_bitmap_set length_bitmap_clear : arr.

(** ** Searches *)

Definition all_clear (bm : list Z) (a n : Z) : Prop :=
  forall i, a <= i < a + n -> bget 32 bm i = false.

Lemma bitmap_find_free_spec bm lo hi :
  0 <= lo ->
  (bitmap_find_free bm lo hi = -1 /\ forall i, lo <= i < hi -> bget 32 bm i = true) \/
  (lo <= bitmap_find_free bm lo hi < hi /\ bget 32 bm (bitmap_find_free bm lo hi) = false /\
   forall i, lo <= i < bitmap_find_free bm lo hi -> bget 32 bm i = true).
Proof.
  intros Hlo. unfold bitmap_find_free. destruct (find_range _ _ _) as [r|] eqn:Hf.
  - right. apply find_range_Some in Hf as (Hr & Hp & Hmin).
    rewrite bitmap_test_bget in Hp. zbool. split_and!; [lia|lia|done|].
    intros i Hi. specialize (Hmin i Hi). rewrite bitmap_test_bget in Hmin. by zbool.
  - left. split; [done|]. intros i Hi. rewrite find_range_None in Hf.
    specialize (Hf i Hi). rewrite bitmap_test_bget in Hf. by zbool.
Qed.

(** The loop has just passed [c] clear bits, and no run of [count] clear bits
    starts before them. *)
Lemma find_free_region_loop_spec n bm lo i count fs c :
  0 < count < 2 ^ 64 -> 0 <= c < count -> lo <= i - c ->
  (c = 0 \/ fs = i - c) -> all_clear bm (i - c) c ->
  (forall a, lo <= a < i - c -> ~ all_clear bm a count) ->
  let r := find_free_region_loop n bm i count fs c in
  (r = -1 /\ forall a, lo <= a -> a + count <= i + Z.of_nat n -> ~ all_clear bm a count) \/
  (lo <= r /\ r + count <= i + Z.of_nat n /\ all_clear bm r count /\
   forall a, lo <= a < r -> ~ all_clear bm a count).
Proof.
  revert i fs c. induction n as [|n IH]; intros i fs c Hcount Hc Hlo Hfs Hrun Hmin; simpl.
  { left. split; [done|]. intros a Ha Hle. apply Hmin. lia. }
  rewrite bitmap_test_bget.
  replace (i + Z.of_nat (S n)) with (i + 1 + Z.of_nat n) by lia.
  destruct (bget 32 bm i) eqn:Hb; simpl.
  - apply IH; try lia; [intros j; lia|].
    intros a Ha Hall. destruct (decide (a < i - c)) as [Hlt|]; [apply (Hmin a); [lia|done]|].
    rewrite (Hall i) in Hb; [done|lia].
  - rewrite u64_small by lia.
    assert (Hfs' : (if c =? 0 then i else fs) = i - c) by (zif; lia).
    assert (Hrun' : all_clear bm (i - c) (c + 1)).
    { intros j Hj. destruct (decide (j = i)) as [->|]; [done|]. apply Hrun. lia. }
    rewrite Hfs'. destruct (Z.eqb_spec (c + 1) count) as [<-|].
    + right. split_and!; [lia|lia|done|done].
    + apply IH; try lia; replace (i + 1 - (c + 1)) with (i - c) by lia; done || lia.
Qed.

Lemma bitmap_find_free_region_spec bm lo hi count :
  0 <= lo <= hi -> 0 < count < 2 ^ 64 ->
  let r := bitmap_find_free_region bm lo hi count in
  (r = -1 /\ forall a, lo <= a -> a + count <= hi -> ~ all_clear bm a count) \/
  (lo <= r /\ r + count <= hi /\ all_clear bm r count /\
   forall a, lo <= a < r -> ~ all_clear bm a count).
Proof.
  intros Hlo Hc. unfold bitmap_find_free_region.
  pose proof (find_free_region_loop_spec (Z.to_nat (hi - lo)) bm lo lo count 0 0) as H.
  replace (lo + Z.of_nat (Z.to_nat (hi - lo))) with hi in H by lia.
  apply H; try lia; intros j; lia.
Qed.

(** ** Moving a run of frames between free and used *)

(** [moved v zt a n st st']: the frames [a, a+n) of zone [zt] get the bit [v],
    the counters follow, and nothing else of the allocator's state changes
    (the page metadata is not constrained). *)
Record moved (v : bool) (zt : zone_type) (a n : Z) (st st' : pmm) : Prop := {
  mv_len : length (initial_bitmap st') = length (initial_bitmap st);
  mv_words : words 32 (initial_bitmap st) -> words 32 (initial_bitmap st');
  mv_bits : forall i, 0 <= i ->
    bget 32 (initial_bitmap st') i
    = if (a <=? i) && (i <? a + n) then v else bget 32 (initial_bitmap st) i;
  mv_start : forall z, start_pfn (zones st' z) = start_pfn (zones st z);
  mv_end : forall z, end_pfn (zones st' z) = end_pfn (zones st z);
  mv_zone : forall z, zone_free_pages (zones st' z)
    = zone_free_pages (zones st z) + (if decide (z = zt) then if v then - n else n else 0);
  mv_free : free_pages st' = free_pages st + (if v then - n else n)
}.

(** The run lies in the zone and has the other value. *)
Definition movable (v : bool) (zt : zone_type) (a n : Z) (st : pmm) : Prop :=
  0 <= n /\ start_pfn (zones st zt) <= a /\ a + n <= end_pfn (zones st zt) /\
  forall i, a <= i < a + n -> bget 32 (initial_bitmap st) i = negb v.

Lemma count_range_run p q lo hi a n :
  0 <= n -> lo <= a -> a + n <= hi ->
  (forall i, a <= i < a + n -> p i = true /\ q i = false) ->
  (forall i, lo <= i < hi -> ~ (a <= i < a + n) -> p i = q i) ->
  count_range p lo hi = count_range q lo hi + n.
Proof.
  intros Hn Hlo Hhi Hin Hout.
  rewrite (count_range_split p lo a hi), (count_range_split q lo a hi) by lia.
  rewrite (count_range_split p a (a + n) hi), (count_range_split q a (a + n) hi) by lia.
  rewrite (count_range_ext p q lo a), (count_range_ext p q (a + n) hi)
    by (intros; apply Hout; lia).
  rewrite (count_range_ext p (fun _ => true) a (a + n)) by (intros; by apply Hin).
  rewrite (count_range_ext q (fun _ => false) a (a + n)) by (intros; by apply Hin).
  rewrite !count_range_const by lia. lia.
Qed.

Lemma in_zone_iff z pfn : in_zone z pfn = true <-> start_pfn z <= pfn < end_pfn z.
Proof. unfold in_zone. rewrite andb_true_iff, Z.geb_le, Z.ltb_lt. done. Qed.

Section moved.
Context (v : bool) (zt : zone_type) (a n : Z) (st st' : pmm).
Hypothesis Hok : pmm_ok st.
Hypothesis Hcan : movable v zt a n st.
Hypothesis Hmv : moved v zt a n st st'.

Lemma moved_in_zone z pfn : in_zone (zones st' z) pfn = in_zone (zones st z) pfn.
Proof. unfold in_zone. by rewrite (mv_start _ _ _ _ _ _ Hmv), (mv_end _ _ _ _ _ _ Hmv). Qed.

Lemma moved_capacity : capacity st' = capacity st.
Proof. unfold capacity. by rewrite (mv_len _ _ _ _ _ _ Hmv). Qed.

Lemma moved_pfn_to_zone pfn : pfn_to_zone st' pfn = pfn_to_zone st pfn.
Proof. unfold pfn_to_zone. by rewrite !moved_in_zone. Qed.

(** A run of [zt] does not meet another zone. *)
Lemma moved_other_zone z i :
  z <> zt -> start_pfn (zones st z) <= i < end_pfn (zones st z) -> ~ (a <= i < a + n).
Proof.
  intros Hne Hi Ha. apply Hne, (ok_disjoint st Hok z zt i).
  - by apply in_zone_iff.
  - apply in_zone_iff. destruct Hcan as (_ & ? & ? & _). lia.
Qed.

Lemma moved_zone_ok z : zone_ok st' (zones st' z).
Proof.
  destruct (ok_zones st Hok z) as [Hord Hcap Hcnt]. destruct Hmv as [_ _ Hb Hs He Hz _].
  split; rewrite ?Hs, ?He, ?moved_capacity; [done|done|]. rewrite Hz, Hcnt.
  destruct (decide (z = zt)) as [->|Hne].
  - destruct Hcan as (Hn & Ha & Han & Hbits). destruct v.
    + rewrite (count_range_run (fun i => negb (bget 32 (initial_bitmap st) i))
        (fun i => negb (bget 32 (initial_bitmap st') i)) _ _ a n); [lia|done..| |].
      * intros i Hi. rewrite Hb by lia. rewrite Hbits by done. simpl.
        by replace ((a <=? i) && (i <? a + n)) with true by lia.
      * intros i Hi Hni. rewrite Hb by lia.
        by replace ((a <=? i) && (i <? a + n)) with false by lia.
    + symmetry. apply count_range_run with (a := a); [done..| |].
      * intros i Hi. rewrite Hb by lia. rewrite Hbits by done. simpl.
        by replace ((a <=? i) && (i <? a + n)) with true by lia.
      * intros i Hi Hni. rewrite Hb by lia.
        by replace ((a <=? i) && (i <? a + n)) with false by lia.
  - rewrite Z.add_0_r. apply count_range_ext. intros i Hi.
    pose proof (moved_other_zone z i Hne Hi). rewrite Hb by lia.
    by replace ((a <=? i) && (i <? a + n)) with false by lia.
Qed.

Lemma moved_ok : pmm_ok st'.
Proof.
  split.
  - apply (mv_words _ _ _ _ _ _ Hmv), Hok.
  - rewrite moved_capacity. apply Hok.
  - apply moved_zone_ok.
  - intros z z' pfn. rewrite !moved_in_zone. apply Hok.
  - rewrite (mv_free _ _ _ _ _ _ Hmv), (ok_free st Hok).
    pose proof (mv_zone _ _ _ _ _ _ Hmv) as Hz.
    pose proof (Hz ZONE_DMA). pose proof (Hz ZONE_NORMAL). pose proof (Hz ZONE_HIGH).
    simpl in *. destruct zt; simpl in *; destruct v; lia.
Qed.
End moved.

(** ** Free frames *)

Lemma pfn_to_zone_Some st pfn zt :
  pmm_ok st -> pfn_to_zone st pfn = Some zt <-> in_zone (zones st zt) pfn = true.
Proof.
  intros Hok. split.
  - unfold pfn_to_zone. intros H. repeat case_match; by simplify_eq.
  - intros Hin. unfold pfn_to_zone.
    destruct (in_zone (zones st ZONE_DMA) pfn) eqn:H1;
      [f_equal; by apply (ok_disjoint st Hok _ _ pfn)|].
    destruct (in_zone (zones st ZONE_NORMAL) pfn) eqn:H2;
      [f_equal; by apply (ok_disjoint st Hok _ _ pfn)|].
    destruct (in_zone (zones st ZONE_HIGH) pfn) eqn:H3;
      [f_equal; by apply (ok_disjoint st Hok _ _ pfn)|].
    destruct zt; congruence.
Qed.

Lemma zone_frame_bounds st zt pfn :
  pmm_ok st -> in_zone (zones st zt) pfn = true -> 0 <= pfn < capacity st.
Proof. intros Hok Hin%in_zone_iff. destruct (ok_zones st Hok zt) as [? Hc _]. lia. Qed.

Lemma elem_of_free_frames st pfn :
  pmm_ok st ->
  pfn ∈ free_frames st <->
  exists zt, in_zone (zones st zt) pfn = true /\ bget 32 (initial_bitmap st) pfn = false.
Proof.
  intros Hok. unfold free_frames, frame_free.
  rewrite elem_of_list_to_set, list_elem_of_filter, elem_of_seqZ. split.
  - intros [Hf _]. destruct (pfn_to_zone st pfn) as [zt|] eqn:Hz; [|done].
    exists zt. apply pfn_to_zone_Some in Hz; [|done]. by zbool.
  - intros (zt & Hin & Hb). pose proof (zone_frame_bounds st zt pfn Hok Hin).
    apply pfn_to_zone_Some in Hin; [|done]. rewrite Hin, Hb. split; [done|lia].
Qed.

Lemma moved_free_frames (v : bool) zt a n st st' :
  pmm_ok st -> movable v zt a n st -> moved v zt a n st st' ->
  free_frames st' = if v then free_frames st ∖ frame_range a n
                    else free_frames st ∪ frame_range a n.
Proof.
  intros Hok Hcan Hmv. pose proof (moved_ok v zt a n st st' Hok Hcan Hmv) as Hok'.
  destruct Hcan as (Hn & Ha & Han & Hbits).
  assert (Hrange : forall pfn, a <= pfn < a + n -> in_zone (zones st zt) pfn = true)
    by (intros; apply in_zone_iff; lia).
  apply set_eq. intros pfn. rewrite elem_of_free_frames by done.
  setoid_rewrite (moved_in_zone v zt a n st st' Hmv).
  destruct v; rewrite ?elem_of_difference, ?elem_of_union, elem_of_free_frames,
    elem_of_frame_range by done.
  - split.
    + intros (z & Hin & Hb). pose proof (zone_frame_bounds st z pfn Hok Hin).
      rewrite (mv_bits _ _ _ _ _ _ Hmv) in Hb by lia. zif; [done|]. split; [by exists z|lia].
    + intros [(z & Hin & Hb) Hni]. exists z. split; [done|].
      pose proof (zone_frame_bounds st z pfn Hok Hin).
      rewrite (mv_bits _ _ _ _ _ _ Hmv) by lia. zif; [lia|done].
  - split.
    + intros (z & Hin & Hb). pose proof (zone_frame_bounds st z pfn Hok Hin).
      rewrite (mv_bits _ _ _ _ _ _ Hmv) in Hb by lia. zif; [right; lia|left; by exists z].
    + intros [(z & Hin & Hb)|Hi].
      * exists z. split; [done|]. pose proof (zone_frame_bounds st z pfn Hok Hin).
        rewrite (mv_bits _ _ _ _ _ _ Hmv) by lia. by zif.
      * exists zt. split; [by apply Hrange|].
        pose proof (zone_frame_bounds st zt pfn Hok (Hrange pfn Hi)).
        rewrite (mv_bits _ _ _ _ _ _ Hmv) by lia. zif; [done|lia].
Qed.

(** ** The free counter is the number of free frames *)

Lemma size_filter_seqZ p lo n :
  0 <= n ->
  Z.of_nat (size (list_to_set (filter (fun i => p i = true) (seqZ lo n)) : gset Z))
  = count_range p lo (lo + n).
Proof.
  intros Hn. rewrite size_list_to_set by (apply NoDup_filter, NoDup_seqZ).
  remember (Z.to_nat n) as k eqn:Hk. revert lo n Hn Hk.
  induction k as [|k IH]; intros lo n Hn Hk.
  - replace n with 0 by lia. by rewrite count_range_nil by lia.
  - rewrite seqZ_cons by lia. rewrite count_range_step by lia.
    replace (lo + n) with (Z.succ lo + Z.pred n) by lia.
    change (lo + 1) with (Z.succ lo). rewrite <- (IH (Z.succ lo) (Z.pred n)) by lia.
    rewrite filter_cons. case_decide as Hd; [rewrite Hd|apply not_true_is_false in Hd; rewrite Hd];
      simpl length; lia.
Qed.

Lemma count_range_add (p q r : Z -> bool) lo hi :
  (forall i, lo <= i < hi ->
     (if p i then 1 else 0) = (if q i then 1 else 0) + (if r i then 1 else 0)) ->
  count_range p lo hi = count_range q lo hi + count_range r lo hi.
Proof.
  induction lo as [lo Hge|lo Hlt IH] using (range_ind hi); intros H.
  - by rewrite !count_range_nil by lia.
  - rewrite (count_range_step p), (count_range_step q), (count_range_step r) by lia.
    rewrite IH by (intros; apply H; lia). specialize (H lo). lia.
Qed.

Lemma count_range_in_zone p z hi :
  0 <= start_pfn z <= end_pfn z -> (start_pfn z < end_pfn z -> end_pfn z <= hi) ->
  count_range (fun i => in_zone z i && p i) 0 hi = count_range p (start_pfn z) (end_pfn z).
Proof.
  intros Ho Hc.
  assert (Hout : forall lo hi' : Z, (forall i : Z, lo <= i < hi' -> in_zone z i = false) ->
    lo <= hi' -> count_range (fun i => in_zone z i && p i) lo hi' = 0).
  { intros lo hi' Hf Hle. rewrite (count_range_ext _ (fun _ => false)).
    - by rewrite count_range_const by lia.
    - intros i Hi. by rewrite Hf. }
  assert (Hno : forall i, ~ (start_pfn z <= i < end_pfn z) -> in_zone z i = false).
  { intros i Hi. apply not_true_is_false. by rewrite in_zone_iff. }
  destruct (decide (start_pfn z < end_pfn z)) as [Hlt|].
  - specialize (Hc Hlt). rewrite (count_range_split _ 0 (start_pfn z) hi) by lia.
    rewrite (count_range_split _ (start_pfn z) (end_pfn z) hi) by lia.
    rewrite (Hout 0), (Hout (end_pfn z)) by (lia || (intros; apply Hno; lia)).
    rewrite (count_range_ext _ p (start_pfn z)); [lia|].
    intros i Hi. by rewrite (proj2 (in_zone_iff z i) Hi).
  - rewrite (count_range_nil p) by lia. destruct (decide (0 <= hi)).
    + apply Hout; [intros; apply Hno; lia|lia].
    + by rewrite count_range_nil by lia.
Qed.

Lemma size_free_frames st :
  pmm_ok st -> Z.of_nat (size (free_frames st)) = free_pages st.
Proof.
  intros Hok. unfold free_frames. rewrite size_filter_seqZ by (unfold capacity; lia).
  set (clear := fun i => negb (bget 32 (initial_bitmap st) i)).
  assert (Hz : forall zt, count_range (fun i => in_zone (zones st zt) i && clear i) 0 (capacity st)
    = zone_free_pages (zones st zt)).
  { intros zt. destruct (ok_zones st Hok zt). by rewrite count_range_in_zone. }
  rewrite (ok_free st Hok), Z.add_0_l.
  rewrite <- (Hz ZONE_DMA), <- (Hz ZONE_NORMAL), <- (Hz ZONE_HIGH) at 1.
  rewrite (count_range_add (frame_free st) (fun i => (in_zone (zones st ZONE_DMA) i && clear i)
    || (in_zone (zones st ZONE_NORMAL) i && clear i))
    (fun i => in_zone (zones st ZONE_HIGH) i && clear i)).
  - f_equal. apply count_range_add. intros i _.
    pose proof (ok_disjoint st Hok ZONE_DMA ZONE_NORMAL i).
    destruct (in_zone (zones st ZONE_DMA) i), (in_zone (zones st ZONE_NORMAL) i), (clear i);
      simpl; try done; exfalso; by discriminate H.
  - intros i _. unfold frame_free, pfn_to_zone. fold (clear i).
    pose proof (ok_disjoint st Hok ZONE_DMA ZONE_HIGH i).
    pose proof (ok_disjoint st Hok ZONE_NORMAL ZONE_HIGH i).
    destruct (in_zone (zones st ZONE_DMA) i), (in_zone (zones st ZONE_NORMAL) i),
      (in_zone (zones st ZONE_HIGH) i), (clear i); simpl; try done;
      exfalso; (by discriminate H) || (by discriminate H0).
Qed.

(** ** The operations move runs of frames *)

Lemma zone_free_bounds st zt :
  pmm_ok st -> 0 <= zone_free_pages (zones st zt) <= 2 ^ 20.
Proof.
  intros Hok. destruct (ok_zones st Hok zt) as [Ho Hc ->]. pose proof (ok_len st Hok).
  match goal with |- context [count_range ?p ?l ?h] => pose proof (count_range_bound p l h) end.
  lia.
Qed.

Lemma free_pages_bounds st zt :
  pmm_ok st -> zone_free_pages (zones st zt) <= free_pages st <= 3 * 2 ^ 20.
Proof.
  intros Hok. rewrite (ok_free st Hok).
  pose proof (zone_free_bounds st ZONE_DMA Hok). pose proof (zone_free_bounds st ZONE_NORMAL Hok).
  pose proof (zone_free_bounds st ZONE_HIGH Hok). destruct zt; simpl in *; lia.
Qed.

Lemma zones_with_zone zt z st zt' :
  zones (with_zone zt z st) zt' = if decide (zt' = zt) then z else zones st zt'.
Proof. by destruct zt, zt'. Qed.

Lemma with_zone_fields zt z st :
  initial_bitmap (with_zone zt z st) = initial_bitmap st /\
  free_pages (with_zone zt z st) = free_pages st.
Proof. by destruct zt. Qed.

Lemma update_page_fields p f st :
  initial_bitmap (update_page p f st) = initial_bitmap st /\
  free_pages (update_page p f st) = free_pages st /\
  (forall zt, zones (update_page p f st) zt = zones st zt).
Proof. unfold update_page. by repeat case_match. Qed.

(** The page metadata and the statistics play no part in [moved]. *)
Lemma moved_ext v zt a n st st1 st2 :
  initial_bitmap st2 = initial_bitmap st1 -> free_pages st2 = free_pages st1 ->
  (forall z, zones st2 z = zones st1 z) ->
  moved v zt a n st st1 -> moved v zt a n st st2.
Proof. intros Hb Hf Hz []. split; intros; rewrite ?Hb, ?Hf, ?Hz; auto. Qed.

Lemma moved_update_page v zt a n st st' p f :
  moved v zt a n st st' -> moved v zt a n st (update_page p f st').
Proof. destruct (update_page_fields p f st') as (? & ? & ?). by apply moved_ext. Qed.

Lemma moved_intro (v : bool) zt a n st st1 zf f :
  (forall z, zones st1 z = zones st z) -> 
  length (initial_bitmap st1) = length (initial_bitmap st) ->
  (words 32 (initial_bitmap st) -> words 32 (initial_bitmap st1)) ->
  (forall i, 0 <= i -> bget 32 (initial_bitmap st1) i
     = if (a <=? i) && (i <? a + n) then v else bget 32 (initial_bitmap st) i) ->
  zf = zone_free_pages (zones st zt) + (if v then - n else n) ->
  f = free_pages st + (if v then - n else n) ->
  moved v zt a n st (with_free_pages f (with_zone zt (zone_with_free zf (zones st zt)) st1)).
Proof.
  intros Hz Hl Hw Hb -> ->.
  destruct (with_zone_fields zt (zone_with_free (zone_free_pages (zones st zt)
    + (if v then - n else n)) (zones st zt)) st1) as [Hbm _].
  assert (Hzz : forall g s z, zones (with_free_pages g s) z = zones s z) by (by intros ?? []).
  split; simpl; rewrite ?Hbm; auto; intros z; rewrite Hzz, zones_with_zone;
    case_decide; subst; simpl; rewrite ?Hz; lia || done.
Qed.

Lemma in_run_1 a i : ((a <=? i) && (i <? a + 1)) = (a =? i).
Proof. lia. Qed.

Lemma moved_set_one zt pfn st :
  pmm_ok st -> in_zone (zones st zt) pfn = true ->
  bget 32 (initial_bitmap st) pfn = false ->
  movable true zt pfn 1 st /\
  moved true zt pfn 1 st
    (with_free_pages (u64 (free_pages st - 1))
      (with_zone zt (zone_with_free (u64 (zone_free_pages (zones st zt) - 1)) (zones st zt))
        (with_bitmap (bitmap_set (initial_bitmap st) pfn) st))).
Proof.
  intros Hok Hin Hb. pose proof (zone_frame_bounds st zt pfn Hok Hin).
  apply in_zone_iff in Hin.
  assert (Hpos : 0 < zone_free_pages (zones st zt)).
  { destruct (ok_zones st Hok zt) as [_ _ ->]. apply count_range_pos.
    exists pfn. by rewrite Hb. }
  pose proof (zone_free_bounds st zt Hok). pose proof (free_pages_bounds st zt Hok).
  split.
  - split_and!; [lia..|]. intros i Hi. by replace i with pfn by lia.
  - apply moved_intro; simpl; autorewrite with arr; [by intros []|done|auto with obelisk| |
      rewrite u64_small by lia; lia..].
    intros i Hi. by rewrite bget_bitmap_set, in_run_1.
Qed.

Lemma moved_clear_one zt pfn st :
  pmm_ok st -> in_zone (zones st zt) pfn = true ->
  bget 32 (initial_bitmap st) pfn = true ->
  movable false zt pfn 1 st /\
  moved false zt pfn 1 st
    (with_free_pages (u64 (free_pages st + 1))
      (with_zone zt (zone_with_free (u64 (zone_free_pages (zones st zt) + 1)) (zones st zt))
        (with_bitmap (bitmap_clear (initial_bitmap st) pfn) st))).
Proof.
  intros Hok Hin Hb. pose proof (zone_frame_bounds st zt pfn Hok Hin).
  apply in_zone_iff in Hin.
  pose proof (zone_free_bounds st zt Hok). pose proof (free_pages_bounds st zt Hok).
  split.
  - split_and!; [lia..|]. intros i Hi. by replace i with pfn by lia.
  - apply moved_intro; simpl; autorewrite with arr; [by intros []|done|auto with obelisk| |
      rewrite u64_small by lia; lia..].
    intros i Hi. rewrite bget_bitmap_clear, in_run_1 by (apply Hok || done).
    by destruct (pfn =? i).
Qed.

(** ** One frame at a time *)

(** Frame [pfn] gets the bit [v] if it is managed and has the other one;
    otherwise the state is unchanged. *)
Definition flipped (v : bool) (pfn : Z) (st st' : pmm) : Prop :=
  (exists zt, movable v zt pfn 1 st /\ moved v zt pfn 1 st st') \/
  (st' = st /\ (pfn_to_zone st pfn = None \/ bget 32 (initial_bitmap st) pfn = v)).

Definition managed (st : pmm) (pfn : Z) : Prop := is_Some (pfn_to_zone st pfn).

Lemma managed_in_zone st pfn :
  pmm_ok st -> managed st pfn <-> exists zt, in_zone (zones st zt) pfn = true.
Proof.
  intros Hok. split; intros [zt H]; exists zt; by apply (pfn_to_zone_Some st pfn zt Hok).
Qed.

Lemma flipped_sound v pfn st st' :
  pmm_ok st -> flipped v pfn st st' ->
  pmm_ok st' /\ (forall p, pfn_to_zone st' p = pfn_to_zone st p) /\
  (forall p, p ∈ free_frames st' <->
     if v then p ∈ free_frames st /\ p <> pfn
     else p ∈ free_frames st \/ p = pfn /\ managed st pfn).
Proof.
  intros Hok [(zt & Hcan & Hmv)|[-> Hno]].
  - split; [by eapply moved_ok|]. split; [by eapply moved_pfn_to_zone|].
    intros p. rewrite (moved_free_frames v zt pfn 1 st st') by done.
    assert (managed st pfn).
    { apply managed_in_zone; [done|]. exists zt. apply in_zone_iff.
      destruct Hcan as (? & ? & ? & ?). lia. }
    destruct v; rewrite ?elem_of_difference, ?elem_of_union, elem_of_frame_range;
      intuition (subst; auto; try lia).
  - split; [done|]. split; [done|]. intros p.
    assert (Hn : (pfn ∈ free_frames st -> bget 32 (initial_bitmap st) pfn = false /\ managed st pfn)).
    { rewrite elem_of_free_frames by done. intros (zt & ? & ?). split; [done|].
      apply managed_in_zone; eauto. }
    destruct v.
    + split; [|by intros []]. intros Hp. split; [done|]. intros ->.
      destruct (Hn Hp) as [Hb Hm]. destruct Hno as [Hz|Hb']; [|congruence].
      unfold managed in Hm. rewrite Hz in Hm. by destruct Hm.
    + split; [auto|]. intros [Hp|[-> Hm]]; [done|].
      destruct Hno as [Hz|Hb]; [unfold managed in Hm; rewrite Hz in Hm; by destruct Hm|].
      apply managed_in_zone in Hm as [zt Hz]; [|done]. apply elem_of_free_frames; eauto.
Qed.

Lemma mark_free_body_flipped pfn st :
  pmm_ok st -> flipped false pfn st (mark_free_body pfn st).
Proof.
  intros Hok. unfold mark_free_body, flipped.
  destruct (pfn_to_zone st pfn) as [zt|] eqn:Hz; [|by auto].
  rewrite bitmap_test_bget. destruct (bget 32 (initial_bitmap st) pfn) eqn:Hb; [|by auto].
  left. exists zt. apply pfn_to_zone_Some in Hz; [|done].
  destruct (moved_clear_one zt pfn st Hok Hz Hb) as [Hcan Hmv]. split; [done|].
  apply moved_update_page. revert Hmv. apply moved_ext; by destruct zt.
Qed.

Lemma pmm_free_page_flipped phys st :
  pmm_ok st -> flipped false (phys_to_pfn phys) st (pmm_free_page phys st).
Proof.
  intros Hok. unfold pmm_free_page, flipped. set (pfn := phys_to_pfn phys).
  destruct (pfn_to_zone st pfn) as [zt|] eqn:Hz; [|by auto].
  rewrite bitmap_test_bget. destruct (bget 32 (initial_bitmap st) pfn) eqn:Hb; [|by auto].
  left. exists zt. apply pfn_to_zone_Some in Hz; [|done].
  destruct (moved_clear_one zt pfn st Hok Hz Hb) as [Hcan Hmv]. split; [done|].
  apply moved_update_page. revert Hmv. apply moved_ext; by destruct zt.
Qed.

Lemma mark_used_body_flipped pfn st :
  pmm_ok st -> flipped true pfn st (mark_used_body pfn st).
Proof.
  intros Hok. unfold mark_used_body, flipped.
  destruct (pfn_to_zone st pfn) as [zt|] eqn:Hz; [|by auto].
  rewrite bitmap_test_bget. destruct (bget 32 (initial_bitmap st) pfn) eqn:Hb; [by auto|].
  left. exists zt. apply pfn_to_zone_Some in Hz; [|done].
  destruct (moved_set_one zt pfn st Hok Hz Hb) as [Hcan Hmv]. split; [done|].
  apply moved_update_page. cbn [negb].
  assert (0 < zone_free_pages (zones st zt)).
  { destruct (ok_zones st Hok zt) as [_ _ ->]. apply count_range_pos.
    exists pfn. rewrite Hb. split; [by apply in_zone_iff|done]. }
  pose proof (zone_free_bounds st zt Hok). pose proof (free_pages_bounds st zt Hok).
  rewrite !u64_small in Hmv by lia. revert Hmv. apply moved_ext; destruct zt; simpl in *;
    repeat (zif; simpl in *); done || lia.
Qed.

(** A loop that flips the frames of a range one by one. *)
Lemma flip_range (v : bool) body lo hi st :
  pmm_ok st -> lo <= hi ->
  (forall i s, lo <= i < hi -> pmm_ok s -> flipped v i s (body i s)) ->
  let st' := for_range lo hi body st in
  pmm_ok st' /\ (forall p, pfn_to_zone st' p = pfn_to_zone st p) /\
  (forall p, p ∈ free_frames st' <->
     if v then p ∈ free_frames st /\ ~ (lo <= p < hi)
     else p ∈ free_frames st \/ lo <= p < hi /\ managed st p).
Proof.
  intros Hok Hle Hbody. simpl.
  apply (for_range_inv (fun i s => pmm_ok s /\
    (forall p, pfn_to_zone s p = pfn_to_zone st p) /\
    (forall p, p ∈ free_frames s <->
       if v then p ∈ free_frames st /\ ~ (lo <= p < i)
       else p ∈ free_frames st \/ lo <= p < i /\ managed st p))); [done| |].
  - split_and!; [done..|]. intros p. destruct v; intuition lia.
  - intros i s Hi (Hoks & Hzs & Hfs).
    destruct (flipped_sound v i s (body i s) Hoks (Hbody i s Hi Hoks)) as (Ho & Hz & Hf).
    split; [done|]. split; [intros; by rewrite Hz, Hzs|]. intros p. rewrite Hf.
    assert (Hm : managed s i <-> managed st i) by (unfold managed; by rewrite Hzs).
    destruct v; rewrite Hfs; [intuition lia|]. rewrite Hm. split.
    + intros [[?|[? ?]]|[-> ?]]; [by left|right; split; [lia|done]..].
    + intros [?|[? ?]]; [by left; left|].
      destruct (decide (p = i)) as [->|]; [by right|]. left. right. split; [lia|done].
Qed.

(** ** Allocation *)

Lemma phys_to_pfn_div phys : phys_to_pfn phys = phys / PAGE_SIZE.
Proof. unfold phys_to_pfn, PAGE_SHIFT. by rewrite Z.shiftr_div_pow2 by lia. Qed.

Lemma pfn_to_phys_mul pfn : 0 <= pfn < 2 ^ 52 -> pfn_to_phys pfn = pfn * PAGE_SIZE.
Proof.
  intros. unfold pfn_to_phys, PAGE_SHIFT, PAGE_SIZE. rewrite Z.shiftl_mul_pow2 by lia.
  apply u64_small. lia.
Qed.

(** No zone has a run of [count] free frames. *)
Definition no_run (st : pmm) (count : Z) (zt : zone_type) : Prop :=
  forall a, start_pfn (zones st zt) <= a -> a + count <= end_pfn (zones st zt) ->
  ~ all_clear (initial_bitmap st) a count.

(** The outcome of an allocation of [count] frames from zone [zt]: the lowest
    run of free frames, or nothing when there is no run. *)
Definition zone_alloc (count : Z) (zt : zone_type) (st : pmm) (r : Z) (st' : pmm) : Prop :=
  (r = 0 /\ st' = st /\ no_run st count zt) \/
  (exists a, r = a * PAGE_SIZE /\ movable true zt a count st /\ moved true zt a count st st' /\
   forall b, start_pfn (zones st zt) <= b < a -> ~ all_clear (initial_bitmap st) b count).

Lemma clear_run_counted st zt a n :
  pmm_ok st -> 0 <= n -> start_pfn (zones st zt) <= a -> a + n <= end_pfn (zones st zt) ->
  all_clear (initial_bitmap st) a n -> n <= zone_free_pages (zones st zt).
Proof.
  intros Hok Hn Ha Han Hall. destruct (ok_zones st Hok zt) as [_ _ ->].
  set (q := fun i => negb ((a <=? i) && (i <? a + n)) && negb (bget 32 (initial_bitmap st) i)).
  rewrite (count_range_run _ q _ _ a n) by
    (done || (intros i ?; unfold q; rewrite ?Hall by done;
              by replace ((a <=? i) && (i <? a + n)) with true by lia) ||
     (intros i ? ?; unfold q; by replace ((a <=? i) && (i <? a + n)) with false by lia)).
  pose proof (count_range_bound q (start_pfn (zones st zt)) (end_pfn (zones st zt))). lia.
Qed.

Lemma zone_alloc_page_spec zt st :
  pmm_ok st ->
  zone_alloc 1 zt st (pmm_alloc_page_zone zt st).1 (pmm_alloc_page_zone zt st).2.
Proof.
  intros Hok. pose proof (ok_len st Hok). destruct (ok_zones st Hok zt) as [Ho Hc _].
  unfold pmm_alloc_page_zone. destruct (Z.eqb_spec (zone_free_pages (zones st zt)) 0) as [Hz|Hz].
  { left. split_and!; [done..|]. intros a Ha Han Hall.
    pose proof (clear_run_counted st zt a 1 Hok ltac:(lia) Ha Han Hall). lia. }
  pose proof (bitmap_find_free_spec (initial_bitmap st) (start_pfn (zones st zt))
    (end_pfn (zones st zt)) ltac:(lia)) as Hf.
  set (pfn := bitmap_find_free _ _ _) in *. destruct Hf as [[-> Hall]|(Hr & Hb & Hmin)]; simpl.
  { left. split_and!; [done..|]. intros a Ha Han Hclear.
    specialize (Hall a ltac:(lia)). rewrite (Hclear a) in Hall by lia. done. }
  destruct (Z.ltb_spec pfn 0); [lia|]. right. exists pfn. simpl.
  assert (Hin : in_zone (zones st zt) pfn = true) by (apply in_zone_iff; lia).
  destruct (moved_set_one zt pfn st Hok Hin Hb) as [Hcan Hmv]. split_and!.
  - apply pfn_to_phys_mul. lia.
  - done.
  - apply moved_update_page. revert Hmv. apply moved_ext; by destruct zt.
  - intros b Hb' Hclear. specialize (Hmin b Hb'). rewrite (Hclear b) in Hmin by lia. done.
Qed.

Lemma alloc_pages_loop zt a count st :
  0 <= count -> 0 <= a -> a + count <= capacity st ->
  let st' := for_range 0 count (alloc_pages_body zt a) st in
  (forall z, zones st' z = zones st z) /\ free_pages st' = free_pages st /\
  length (initial_bitmap st') = length (initial_bitmap st) /\
  (words 32 (initial_bitmap st) -> words 32 (initial_bitmap st')) /\
  (forall j, 0 <= j -> bget 32 (initial_bitmap st') j
     = if (a <=? j) && (j <? a + count) then true else bget 32 (initial_bitmap st) j).
Proof.
  intros Hc Ha Hcap. unfold capacity in Hcap. simpl.
  apply (for_range_inv (fun i st' => (forall z, zones st' z = zones st z) /\
    free_pages st' = free_pages st /\
    length (initial_bitmap st') = length (initial_bitmap st) /\
    (words 32 (initial_bitmap st) -> words 32 (initial_bitmap st')) /\
    (forall j, 0 <= j -> bget 32 (initial_bitmap st') j
      = if (a <=? j) && (j <? a + i) then true else bget 32 (initial_bitmap st) j))); [done| |].
  - split_and!; try done. intros j Hj. by replace ((a <=? j) && (j <? a + 0)) with false by lia.
  - intros i s Hi (Hz & Hf & Hl & Hw & Hb). unfold alloc_pages_body.
    destruct (update_page_fields (a + i) (page_mark_used zt (alloc_owner zt))
      (with_bitmap (bitmap_set (initial_bitmap s) (a + i)) s)) as (-> & -> & Hzu).
    simpl. split_and!; [|done|by rewrite length_bitmap_set|auto with obelisk|].
    + intros z. rewrite Hzu. rewrite <- Hz. by destruct z.
    + intros j Hj. rewrite bget_bitmap_set, Hb by lia.
      destruct (Z.eqb_spec (a + i) j); simpl; repeat zif; done || lia.
Qed.

Lemma zone_alloc_pages_spec count zt st :
  pmm_ok st -> 0 < count < 2 ^ 64 ->
  zone_alloc count zt st (pmm_alloc_pages_zone count zt st).1 (pmm_alloc_pages_zone count zt st).2.
Proof.
  intros Hok Hcount. pose proof (ok_len st Hok). destruct (ok_zones st Hok zt) as [Ho Hc _].
  unfold pmm_alloc_pages_zone.
  destruct (Z.ltb_spec (zone_free_pages (zones st zt)) count) as [Hz|Hz].
  { left. split_and!; [done..|]. intros a Ha Han Hall.
    pose proof (clear_run_counted st zt a count Hok ltac:(lia) Ha Han Hall). lia. }
  pose proof (bitmap_find_free_region_spec (initial_bitmap st) (start_pfn (zones st zt))
    (end_pfn (zones st zt)) count Ho Hcount) as Hf.
  set (a := bitmap_find_free_region _ _ _ _) in *. destruct Hf as [[-> Hno]|(Hr & Hr' & Hall & Hmin)].
  { by left. }
  destruct (Z.ltb_spec a 0); [lia|]. right. exists a.
  destruct (alloc_pages_loop zt a count st ltac:(lia) ltac:(lia) ltac:(lia))
    as (Hzs & Hfs & Hl & Hw & Hb).
  pose proof (zone_free_bounds st zt Hok). pose proof (free_pages_bounds st zt Hok).
  split_and!; [apply pfn_to_phys_mul; lia|split_and!; [lia..|done]| |done].
  cbn [snd]. apply moved_intro; [done..| |]; [|destruct (with_zone_fields zt (zone_with_free (u64
    (zone_free_pages (zones st zt) - count)) (zones st zt)) (for_range 0 count
    (alloc_pages_body zt a) st)) as [_ ->]; rewrite Hfs]; rewrite u64_small by lia; lia.
Qed.

(** The zones are tried in the order Normal, High, DMA. *)
Section any_zone.
Context (count : Z) (g : zone_type -> pmm -> Z * pmm) (st : pmm).
Hypothesis Hcount : 0 < count.
Hypothesis Hok : pmm_ok st.
Hypothesis Hzero : 0 ∉ free_frames st.
Hypothesis Hg : forall zt, zone_alloc count zt st (g zt st).1 (g zt st).2.

(** A block of [count] frames, or a failure with the state unchanged. *)
Definition any_alloc (r : Z) (st' : pmm) : Prop :=
  (r = 0 /\ st' = st /\ forall zt, no_run st count zt) \/
  (exists zt a, r = a * PAGE_SIZE /\ 0 < a /\ movable true zt a count st /\
   moved true zt a count st st').

Lemma zone_alloc_nonzero zt :
  ((g zt st).1 = 0 /\ (g zt st).2 = st /\ no_run st count zt) \/
  ((g zt st).1 <> 0 /\ any_alloc (g zt st).1 (g zt st).2).
Proof.
  destruct (Hg zt) as [?|(a & Hr & Hcan & Hmv & _)]; [by left|]. right.
  assert (0 < a).
  { destruct (ok_zones st Hok zt) as [? _ _]. destruct Hcan as (_ & Ha & Han & Hb).
    destruct (decide (a = 0)) as [->|]; [|lia]. destruct Hzero.
    apply elem_of_free_frames; [done|]. exists zt. split.
    - apply in_zone_iff. lia.
    - apply Hb. lia. }
  split; [unfold PAGE_SIZE in *; lia|]. right. eauto 10.
Qed.

Lemma any_zone_alloc :
  let res :=
    let '(page, s) := g ZONE_NORMAL st in
    if negb (page =? 0) then (page, s) else
    let '(page, s) := g ZONE_HIGH s in
    if negb (page =? 0) then (page, s) else g ZONE_DMA s in
  any_alloc res.1 res.2.
Proof.
  simpl. pose proof (zone_alloc_nonzero ZONE_NORMAL) as Hn.
  pose proof (zone_alloc_nonzero ZONE_HIGH) as Hh.
  pose proof (zone_alloc_nonzero ZONE_DMA) as Hd.
  destruct (g ZONE_NORMAL st) as [r s]; simpl in Hn.
  destruct Hn as [(-> & -> & Hn)|[Hne Hn]]; simpl;
    [|by rewrite (proj2 (Z.eqb_neq r 0) Hne)].
  destruct (g ZONE_HIGH st) as [r s']; simpl in Hh.
  destruct Hh as [(-> & -> & Hh)|[Hne Hh]]; simpl;
    [|by rewrite (proj2 (Z.eqb_neq r 0) Hne)].
  destruct Hd as [(-> & -> & Hd)|[_ Hd]]; [|done].
  left. split_and!; [done..|]. by intros [].
Qed.
End any_zone.

Lemma pmm_alloc_page_any st :
  pmm_ok st -> 0 ∉ free_frames st ->
  any_alloc 1 st (pmm_alloc_page st).1 (pmm_alloc_page st).2.
Proof.
  intros Hok Hz. apply (any_zone_alloc 1 pmm_alloc_page_zone st); [lia|done..|].
  intros. by apply zone_alloc_page_spec.
Qed.

Lemma pmm_alloc_pages_any count st :
  pmm_ok st -> 0 ∉ free_frames st -> 0 < count < 2 ^ 64 ->
  any_alloc count st (pmm_alloc_pages count st).1 (pmm_alloc_pages count st).2.
Proof.
  intros Hok Hz Hc. apply (any_zone_alloc count (pmm_alloc_pages_zone count) st); [lia|done..|].
  intros. by apply zone_alloc_pages_spec.
Qed.

(** The abstract reading of an allocation. *)
Lemma any_alloc_frames count st r st' :
  pmm_ok st -> 0 < count -> any_alloc count st r st' ->
  pmm_ok st' /\ (forall p, pfn_to_zone st' p = pfn_to_zone st p) /\
  (r = 0 /\ st' = st \/
   exists a, r = a * PAGE_SIZE /\ 0 < a /\ frame_range a count ⊆ free_frames st /\
     free_frames st' = free_frames st ∖ frame_range a count).
Proof.
  intros Hok Hc [(-> & -> & _)|(zt & a & -> & Ha & Hcan & Hmv)]; [by eauto|].
  split; [by eapply moved_ok|]. split; [by eapply moved_pfn_to_zone|]. right. exists a.
  split_and!; [done..| |by apply (moved_free_frames true zt a count)].
  intros p. rewrite elem_of_frame_range, elem_of_free_frames by done.
  intros Hp. exists zt. destruct Hcan as (_ & ? & ? & Hb). split; [|by apply Hb].
  apply in_zone_iff. lia.
Qed.

Lemma pmm_free_pages_frames st phys n :
  pmm_ok st -> 0 <= phys -> 0 <= n -> phys + n * PAGE_SIZE <= 2 ^ 64 ->
  let st' := pmm_free_pages phys n st in
  pmm_ok st' /\ (forall p, pfn_to_zone st' p = pfn_to_zone st p) /\
  (forall p, p ∈ free_frames st' <->
     p ∈ free_frames st \/ phys / PAGE_SIZE <= p < phys / PAGE_SIZE + n /\ managed st p).
Proof.
  intros Hok Hp Hn Hmax. unfold pmm_free_pages, PAGE_SIZE in *. simpl.
  rewrite (for_range_shift (phys / 4096) _
    (fun pfn => pmm_free_page (phys + (pfn - phys / 4096) * 4096))).
  - rewrite Z.add_0_l, (Z.add_comm n).
    apply (flip_range false); [done|lia|]. intros i s Hi Hs.
    pose proof (pmm_free_page_flipped (phys + (i - phys / 4096) * 4096) s Hs) as Hf.
    rewrite phys_to_pfn_div in Hf. unfold PAGE_SIZE in Hf.
    rewrite Z.div_add in Hf by lia. by replace (phys / 4096 + (i - phys / 4096)) with i in Hf by lia.
  - intros i s Hi. replace (i + phys / 4096 - phys / 4096) with i by lia.
    by rewrite u64_small by lia.
Qed.

Lemma free_frames_managed st p : pmm_ok st -> p ∈ free_frames st -> managed st p.
Proof.
  intros Hok. rewrite elem_of_free_frames by done. intros (zt & ? & _).
  apply managed_in_zone; eauto.
Qed.

Lemma managed_bounds st p : pmm_ok st -> managed st p -> 0 <= p < 2 ^ 20.
Proof.
  intros Hok [zt Hz]%managed_in_zone; [|done]. pose proof (ok_len st Hok).
  pose proof (zone_frame_bounds st zt p Hok Hz). lia.
Qed.

(** Two states that differ only in the metadata and the statistics. *)
Definition same_core (st st' : pmm) : Prop :=
  initial_bitmap st' = initial_bitmap st /\ free_pages st' = free_pages st /\
  forall zt, zones st' zt = zones st zt.

Lemma same_core_update p f st st' : same_core st st' -> same_core st (update_page p f st').
Proof.
  intros (? & ? & Hz). destruct (update_page_fields p f st') as (? & ? & Hz').
  split_and!; [congruence..|]. intros. by rewrite Hz', Hz.
Qed.

Lemma same_core_ok st st' :
  same_core st st' -> pmm_ok st -> pmm_ok st' /\ free_frames st' = free_frames st.
Proof.
  intros (Hb & Hf & Hz) Hok.
  assert (Hmv : moved true ZONE_DMA (start_pfn (zones st ZONE_DMA)) 0 st st').
  { split; rewrite ?Hb, ?Hf; try done; try lia; intros z; rewrite ?Hz; try done.
    - intros. by replace ((_ <=? z) && (z <? _ + 0)) with false by lia.
    - case_decide; lia. }
  assert (Hcan : movable true ZONE_DMA (start_pfn (zones st ZONE_DMA)) 0 st).
  { destruct (ok_zones st Hok ZONE_DMA). split_and!; [lia..|]. intros. lia. }
  split; [by eapply moved_ok|]. rewrite (moved_free_frames true _ _ _ _ _ Hok Hcan Hmv).
  apply set_eq. intros p. rewrite elem_of_difference, elem_of_frame_range. intuition lia.
Qed.

Lemma update_page_same p f st :
  pmm_ok st -> 0 ∉ free_frames st ->
  (pmm_ok (update_page p f st) /\ 0 ∉ free_frames (update_page p f st)) /\
  free_frames (update_page p f st) = free_frames st /\
  forall q, managed (update_page p f st) q <-> managed st q.
Proof.
  intros Hok H0. assert (Hc : same_core st (update_page p f st)) by (by apply same_core_update).
  destruct (same_core_ok _ _ Hc Hok) as [Hok' Hf]. rewrite Hf. split_and!; try done.
  intros q. rewrite !managed_in_zone by done. destruct Hc as (_ & _ & Hz). by setoid_rewrite Hz.
Qed.

(** ** The manager as a page allocator *)

#[global, program] Instance pmm_page_allocator : PageAllocator pmm := {|
  pa_inv st := pmm_ok st /\ 0 ∉ free_frames st;
  pa_frames := free_frames;
  pa_managed := managed;
  pa_alloc := pmm_alloc_pages;
  pa_free := pmm_free_pages;
  pa_alloc_page := pmm_alloc_page;
  pa_free_page := pmm_free_page;
  pa_set_owner := pmm_page_set_owner;
  pa_update_flags := pmm_page_update_flags
|}.
Next Obligation.
  intros s pfn [Hok Hz] Hp. pose proof (free_frames_managed s pfn Hok Hp) as Hm.
  split; [done|]. pose proof (managed_bounds s pfn Hok Hm).
  destruct (decide (pfn = 0)) as [->|]; [done|lia].
Qed.
Next Obligation.
  intros s n [Hok Hz] Hn. pose proof (pmm_alloc_pages_any n s Hok Hz Hn) as Ha.
  destruct (any_alloc_frames n s _ _ Hok (proj1 Hn) Ha) as (Hok' & Hzn & Hr).
  assert (Hm : forall p, managed (pmm_alloc_pages n s).2 p <-> managed s p)
    by (intros; unfold managed; by rewrite Hzn).
  destruct Hr as [[Hr Hs]|(a & Hr & Ha0 & Hsub & Hf)].
  - rewrite Hs. split; [done|]. split; [done|]. by left.
  - split; [split; [done|]; rewrite Hf; set_solver|]. split; [done|]. eauto.
Qed.
Next Obligation.
  intros s a n [Hok Hz] Ha Hn Hmax Hman.
  destruct (pmm_free_pages_frames s (a * PAGE_SIZE) n Hok) as (Hok' & Hzn & Hf);
    [unfold PAGE_SIZE; lia..|]. rewrite Z.div_mul in Hf by done.
  split_and!; [done|rewrite Hf; intros [?|[? _]]; [done|lia]| |].
  - intros. unfold managed. by rewrite Hzn.
  - apply set_eq. intros p. rewrite Hf, elem_of_union, elem_of_frame_range.
    split; [intuition|]. intros [?|Hp]; [by left|]. right. auto.
Qed.
Next Obligation.
  intros s [Hok Hz]. pose proof (pmm_alloc_page_any s Hok Hz) as Ha.
  destruct (any_alloc_frames 1 s _ _ Hok ltac:(lia) Ha) as (Hok' & Hzn & Hr).
  assert (Hm : forall p, managed (pmm_alloc_page s).2 p <-> managed s p)
    by (intros; unfold managed; by rewrite Hzn).
  destruct Hr as [[Hr Hs]|(a & Hr & Ha0 & Hsub & Hf)].
  - rewrite Hs. split; [done|]. split; [done|]. by left.
  - assert (frame_range a 1 = {[a]}) as He.
    { apply set_eq. intros p. rewrite elem_of_frame_range, elem_of_singleton. lia. }
    rewrite He in *. split; [split; [done|]; rewrite Hf; set_solver|]. split; [done|]. right.
    exists a. split_and!; [done|set_solver|done].
Qed.
Next Obligation.
  intros s phys [Hok Hz] Hp. pose proof (pmm_free_page_flipped phys s Hok) as Hfl.
  rewrite phys_to_pfn_div in Hfl. destruct (flipped_sound false _ _ _ Hok Hfl) as (Hok' & Hzn & Hf).
  cbn in Hf. split; [split; [done|]; rewrite Hf; intros [?|[? _]]; [done|lia]|].
  split; [intros; unfold managed; by rewrite Hzn|].
  intros p. rewrite Hf. split; (intros [?|[-> ?]]; [by left|by right]).
Qed.
Next Obligation. intros s phys x y [Hok Hz]. split; by apply update_page_same. Qed.

(** ** A concrete state

    Thirty-two frames in two zones, with frames 0 and 9 in use and the metadata
    array present. *)

Definition pmm_example : pmm :=
  Pmm (Zone 0 8 8 7) (Zone 8 32 24 23) (Zone 32 32 0 0) [2 ^ 9 + 1] 32 30 30
      (Some (replicate 32 (Page PAGE_FLAG_RESERVED 1 1 PAGE_OWNER_KERNEL))) 0x9000.

Lemma pmm_example_ok : pmm_ok pmm_example.
Proof.
  split.
  - repeat constructor; simpl; lia.
  - unfold capacity. simpl. lia.
  - intros []; split; unfold capacity; simpl; lia || reflexivity.
  - intros zt zt' pfn H%in_zone_iff H'%in_zone_iff. destruct zt, zt'; simpl in *; done || lia.
  - reflexivity.
Qed.

Lemma pmm_example_zero : 0 ∉ free_frames pmm_example.
Proof.
  rewrite elem_of_free_frames by apply pmm_example_ok. intros (zt & _ & Hb). done.
Qed.

(** ** Properties *)

(** C5. An allocation of [count] contiguous frames either returns the address
    of a block of frames that were all free, takes exactly that block out of
    the free frames and subtracts [count] from the free counter, or returns 0
    with the state unchanged, and then no zone has [count] contiguous free
    frames; [pmm_alloc_page] is the case of one frame. *)
Theorem pmm_alloc_correct st count
    (Hok : pmm_ok st) (Hzero : 0 ∉ free_frames st) (Hcount : 0 < count < 2 ^ 64) :
  let outcome n r st' :=
    (r = 0 /\ st' = st /\ forall zt, no_run st n zt) \/
    (exists a, r = a * PAGE_SIZE /\ 0 < a /\ frame_range a n ⊆ free_frames st /\
       free_frames st' = free_frames st ∖ frame_range a n /\
       free_pages st' = free_pages st - n) in
  outcome 1 (pmm_alloc_page st).1 (pmm_alloc_page st).2 /\
  outcome count (pmm_alloc_pages count st).1 (pmm_alloc_pages count st).2.
Proof.
  assert (H : forall n r st', 0 < n -> any_alloc n st r st' ->
    (r = 0 /\ st' = st /\ forall zt, no_run st n zt) \/
    (exists a, r = a * PAGE_SIZE /\ 0 < a /\ frame_range a n ⊆ free_frames st /\
       free_frames st' = free_frames st ∖ frame_range a n /\
       free_pages st' = free_pages st - n)).
  { intros n r st' Hn [?|(zt & a & Hr & Ha & Hcan & Hmv)]; [by left|]. right. exists a.
    assert (Hany : any_alloc n st r st') by (right; eauto 10).
    destruct (any_alloc_frames n st r st' Hok Hn Hany) as (_ & _ & [[? _]|(a' & Hr' & _ & Hsub & Hf)]);
      unfold PAGE_SIZE in *; [lia|]. assert (a' = a) as -> by lia.
    split_and!; [done..|]. rewrite (mv_free _ _ _ _ _ _ Hmv). lia. }
  split; apply H; [lia|by apply pmm_alloc_page_any|lia|by apply pmm_alloc_pages_any].
Qed.

(** Every operation of the manager keeps the invariant: disjoint zones
    inside the bitmap and counters equal to the numbers of clear bits; and the
    invariant makes the global counter the number of free frames. *)
Theorem pmm_ops_preserve_ok st (Hok : pmm_ok st) :
  (forall zt, pmm_ok (pmm_alloc_page_zone zt st).2) /\
  (forall count zt, 0 < count < 2 ^ 64 -> pmm_ok (pmm_alloc_pages_zone count zt st).2) /\
  (forall phys, pmm_ok (pmm_free_page phys st)) /\
  (forall phys count, pmm_ok (pmm_free_pages phys count st)) /\
  (forall base size, pmm_ok (pmm_mark_region_free base size st)) /\
  (forall base size, pmm_ok (pmm_mark_region_used base size st)) /\
  Z.of_nat (size (free_frames st)) = free_pages st.
Proof.
  assert (Hz : forall n zt r st', zone_alloc n zt st r st' -> pmm_ok st')
    by (intros n zt r st' [(_ & -> & _)|(a & _ & ? & ? & _)]; [done|by eapply moved_ok]).
  assert (Hf : forall v pfn s s', pmm_ok s -> flipped v pfn s s' -> pmm_ok s')
    by (intros v pfn s s' Hs Hfl; by apply (flipped_sound v pfn s s')).
  split_and!.
  - intros zt. by eapply Hz, zone_alloc_page_spec.
  - intros. by eapply Hz, zone_alloc_pages_spec.
  - intros. by eapply Hf, pmm_free_page_flipped.
  - intros. unfold pmm_free_pages. apply for_range_pres; [done|].
    intros. by eapply Hf, pmm_free_page_flipped.
  - intros. unfold pmm_mark_region_free. case_match; [done|].
    apply for_range_pres; [done|]. intros. by eapply Hf, mark_free_body_flipped.
  - intros. unfold pmm_mark_region_used. apply for_range_pres; [done|].
    intros. by eapply Hf, mark_used_body_flipped.
  - by apply size_free_frames.
Qed.

(** Freeing a page makes its frame free when the frame is managed and in
    use; a double free and an address outside every zone leave the whole state
    as it was. *)
Theorem pmm_free_page_correct st phys (Hok : pmm_ok st) :
  let pfn := phys / PAGE_SIZE in
  (managed st pfn /\ pfn ∉ free_frames st ->
     free_frames (pmm_free_page phys st) = {[pfn]} ∪ free_frames st /\
     free_pages (pmm_free_page phys st) = free_pages st + 1) /\
  (~ managed st pfn \/ pfn ∈ free_frames st -> pmm_free_page phys st = st).
Proof.
  simpl. rewrite <- phys_to_pfn_div. pose proof (pmm_free_page_flipped phys st Hok) as Hfl.
  destruct (flipped_sound false _ _ _ Hok Hfl) as (_ & _ & Hf). split.
  - intros [Hm Hnf]. split.
    + apply set_eq. intros p. rewrite Hf, elem_of_union, elem_of_singleton.
      split; [intuition|]. intros [->|?]; auto.
    + destruct Hfl as [(zt & _ & Hmv)|[_ Hno]]; [by rewrite (mv_free _ _ _ _ _ _ Hmv)|].
      destruct Hm as [zt Hzt]. destruct Hno as [Hn|Hb]; [congruence|].
      destruct Hnf. apply elem_of_free_frames; [done|]. exists zt.
      by rewrite <- (pfn_to_zone_Some st _ zt Hok).
  - intros Hno. unfold pmm_free_page. destruct (pfn_to_zone st _) as [zt|] eqn:Hzt; [|done].
    destruct Hno as [Hn|Hin]; [destruct Hn; by exists zt|].
    apply elem_of_free_frames in Hin as (_ & _ & Hb); [|done].
    by rewrite bitmap_test_bget, Hb.
Qed.

Lemma pmm_alloc_correct_witness :
  (pmm_alloc_pages 3 pmm_example).1 = 10 * PAGE_SIZE /\
  ((pmm_alloc_page pmm_example).1 = 0 /\ (pmm_alloc_page pmm_example).2 = pmm_example /\
     (forall zt, no_run pmm_example 1 zt) \/
   exists a, (pmm_alloc_page pmm_example).1 = a * PAGE_SIZE /\ 0 < a /\
     frame_range a 1 ⊆ free_frames pmm_example /\
     free_frames (pmm_alloc_page pmm_example).2 = free_frames pmm_example ∖ frame_range a 1 /\
     free_pages (pmm_alloc_page pmm_example).2 = free_pages pmm_example - 1).
Proof.
  split; [vm_compute; reflexivity|].
  apply (pmm_alloc_correct pmm_example 3 pmm_example_ok pmm_example_zero). lia.
Defined.

Lemma pmm_ops_preserve_ok_witness :
  pmm_ok (pmm_free_page (9 * PAGE_SIZE) pmm_example) /\
  Z.of_nat (size (free_frames pmm_example)) = 30.
Proof.
  split; apply (pmm_ops_preserve_ok pmm_example pmm_example_ok).
Defined.

Lemma pmm_free_page_correct_witness :
  pmm_free_page (10 * PAGE_SIZE) pmm_example = pmm_example /\
  pmm_free_page (40 * PAGE_SIZE) pmm_example = pmm_example.
Proof.
  split; apply (pmm_free_page_correct pmm_example _ pmm_example_ok).
  - right. apply elem_of_free_frames; [apply pmm_example_ok|]. exists ZONE_NORMAL. done.
  - left. intros [zt Hz]. vm_compute in Hz. done.
Defined.

(** Freeing a block that an allocation returned gives back exactly the
    frames it took: the free frames and the free counter are as before the
    allocation. *)
Theorem pmm_alloc_free_roundtrip st count
    (Hok : pmm_ok st) (Hzero : 0 ∉ free_frames st) (Hcount : 0 < count < 2 ^ 64)
    (Hsucc : (pmm_alloc_pages count st).1 <> 0) :
  let '(phys, st') := pmm_alloc_pages count st in
  free_frames (pmm_free_pages phys count st') = free_frames st /\
  free_pages (pmm_free_pages phys count st') = free_pages st.
Proof.
  pose proof (pmm_alloc_pages_any count st Hok Hzero Hcount) as Ha.
  destruct (any_alloc_frames count st _ _ Hok (proj1 Hcount) Ha)
    as (Hok' & Hz & [[? _]|(a & Hr & Ha0 & Hsub & Hf)]); [done|].
  destruct (pmm_alloc_pages count st) as [phys st']; simpl in *. subst phys.
  assert (Hin : forall p, a <= p < a + count -> p ∈ free_frames st)
    by (intros; apply Hsub; by apply elem_of_frame_range).
  assert (Hmax : a + count <= 2 ^ 20).
  { pose proof (managed_bounds st (a + count - 1) Hok).
    pose proof (free_frames_managed st (a + count - 1) Hok (Hin (a + count - 1) ltac:(lia))).
    intuition lia. }
  destruct (pmm_free_pages_frames st' (a * PAGE_SIZE) count Hok') as (Hok'' & _ & Hff);
    [unfold PAGE_SIZE; lia..|]. rewrite Z.div_mul in Hff by done.
  assert (Heq : free_frames (pmm_free_pages (a * PAGE_SIZE) count st') = free_frames st).
  { apply set_eq. intros p. rewrite Hff, Hf, elem_of_difference, elem_of_frame_range.
    split; [intros [[? _]|[? _]]; auto|]. intros Hp.
    destruct (decide (a <= p < a + count)); [right; split; [done|]|by left].
    unfold managed. rewrite Hz. by apply free_frames_managed. }
  split; [done|]. by rewrite <- (size_free_frames _ Hok''), <- (size_free_frames _ Hok), Heq.
Qed.

Lemma pmm_alloc_free_roundtrip_witness :
  let '(phys, st') := pmm_alloc_pages 3 pmm_example in
  free_frames (pmm_free_pages phys 3 st') = free_frames pmm_example /\
  free_pages (pmm_free_pages phys 3 st') = free_pages pmm_example.
Proof.
  apply (pmm_alloc_free_roundtrip pmm_example 3 pmm_example_ok pmm_example_zero).
  - lia.
  - vm_compute. done.
Defined.

(** ** Metadata *)

Lemma update_page_total p f st : total_pages (update_page p f st) = total_pages st.
Proof. unfold update_page. by repeat case_match. Qed.

Lemma alloc_pages_zone_total n zt st :
  total_pages (pmm_alloc_pages_zone n zt st).2 = total_pages st.
Proof.
  unfold pmm_alloc_pages_zone. repeat case_match; [done..|]. simpl.
  transitivity (total_pages (for_range 0 n (alloc_pages_body zt
    (bitmap_find_free_region (initial_bitmap st) (start_pfn (zones st zt))
      (end_pfn (zones st zt)) n)) st)); [by destruct zt|].
  apply (for_range_pres (fun s => total_pages s = total_pages st)); [done|].
  intros i s _ Hs. unfold alloc_pages_body. by rewrite update_page_total.
Qed.

Lemma alloc_pages_total n st : total_pages (pmm_alloc_pages n st).2 = total_pages st.
Proof.
  unfold pmm_alloc_pages. pose proof (alloc_pages_zone_total n ZONE_NORMAL st) as H1.
  destruct (pmm_alloc_pages_zone n ZONE_NORMAL st) as [r s]; simpl in H1.
  case_match; [done|]. pose proof (alloc_pages_zone_total n ZONE_HIGH s) as H2.
  destruct (pmm_alloc_pages_zone n ZONE_HIGH s) as [r' s']; simpl in H2.
  case_match; [simpl; congruence|]. rewrite alloc_pages_zone_total. congruence.
Qed.

Lemma flag_lor_keeps x y n :
  negb (Z.land x n =? 0) = true -> negb (Z.land (Z.lor x y) n =? 0) = true.
Proof.
  rewrite !negb_true_iff, !Z.eqb_neq. intros Hx H. apply Hx.
  rewrite Z.land_lor_distr_l in H. by apply Z.lor_eq_0_iff in H as [? _].
Qed.

Definition entry_reserved (pg : page) : Prop :=
  pg_refcount pg = 1 /\ pg_owner pg = PAGE_OWNER_KERNEL /\
  flagb (pg_flags pg) PAGE_FLAG_RESERVED = true.

Definition metadata_reserved (st : pmm) : Prop :=
  exists pa, page_array st = Some pa /\ Z.of_nat (length pa) = total_pages st /\
  Forall entry_reserved pa.

Lemma update_page_reserved p f st :
  (forall pg, entry_reserved pg -> entry_reserved (f pg)) ->
  metadata_reserved st -> metadata_reserved (update_page p f st).
Proof.
  intros Hf (pa & Hpa & Hlen & Hall). unfold update_page. rewrite Hpa.
  case_match; [by exists pa|]. eexists. split; [done|].
  rewrite length_alter. split; [done|]. by apply Forall_alter; [|auto].
Qed.

Lemma init_page_entry_reserved st pfn : entry_reserved (init_page_entry st pfn).
Proof. unfold init_page_entry, entry_reserved. simpl. by case_bool_decide. Qed.

(** The metadata array is allocated from the frames it describes and leaves
    the allocator consistent, but it is initialised as if every frame were
    reserved: right after it, each frame that is still free has reference count
    1, the kernel as owner and the reserved flag. *)
Theorem pmm_metadata_init st st'
    (Hok : pmm_ok st) (Hzero : 0 ∉ free_frames st) (Htotal : 0 < total_pages st <= 2 ^ 20)
    (Hinit : pmm_init_page_metadata st = Some st') :
  pmm_ok st' /\ free_frames st' ⊆ free_frames st /\ (0 ∉ free_frames st') /\
  forall pfn, pfn ∈ free_frames st' -> 0 <= pfn < total_pages st' ->
    exists pg, pfn_to_page_struct st' pfn = Some pg /\ entry_reserved pg.
Proof.
  unfold pmm_init_page_metadata in Hinit.
  destruct (Z.eqb_spec (total_pages st) 0); [lia|].
  set (m := ALIGN_UP _ _ / _) in Hinit.
  assert (Hm : 0 < m < 2 ^ 64).
  { unfold m, sizeof_page. rewrite u64_small, ALIGN_UP_page by (unfold PAGE_SIZE; lia).
    rewrite Z.div_mul by done. unfold PAGE_SIZE. Z.div_mod_to_equations. lia. }
  pose proof (pmm_alloc_pages_any m st Hok Hzero Hm) as Ha.
  destruct (any_alloc_frames m st _ _ Hok (proj1 Hm) Ha) as (Hok1 & _ & Hr).
  assert (Ht : total_pages (pmm_alloc_pages m st).2 = total_pages st)
    by apply alloc_pages_total.
  destruct (pmm_alloc_pages m st) as [phys st1]; simpl in *.
  destruct (Z.eqb_spec phys 0); [done|]. simplify_eq.
  destruct Hr as [[? _]|(a & _ & _ & _ & Hf)]; [done|].
  set (st2 := Pmm _ _ _ _ _ _ _ _ _).
  assert (Hcore : same_core st1 st2) by done.
  set (body := fun i s => update_page _ _ s).
  assert (Hcore' : same_core st1 (for_range 0 m body st2)).
  { apply for_range_pres; [done|]. intros i s _ ?. by apply same_core_update. }
  assert (Hres : metadata_reserved (for_range 0 m body st2)).
  { apply for_range_pres.
    - eexists. split; [done|]. rewrite length_fmap, length_seqZ. split; [simpl; lia|].
      apply Forall_fmap, Forall_true. intros. apply init_page_entry_reserved.
    - intros i s _ ?. apply update_page_reserved; [|done]. intros pg (? & ? & Hfl).
      split_and!; [done..|]. simpl. unfold flagb in *. by apply flag_lor_keeps. }
  destruct (same_core_ok _ _ Hcore' Hok1) as [Hok2 Hff].
  rewrite Hff, Hf. split_and!; [done|set_solver|set_solver|].
  intros pfn _ Hp. destruct Hres as (pa & Hpa & Hlen & Hall).
  unfold pfn_to_page_struct. rewrite Hpa.
  destruct (Z.geb_spec pfn (Z.of_nat (length pa))); [lia|].
  destruct (lookup_lt_is_Some_2 pa (Z.to_nat pfn)) as [pg Hpg]; [lia|].
  exists pg. split; [done|]. by eapply Forall_lookup_1.
Qed.

Lemma pmm_metadata_init_witness :
  exists st', pmm_init_page_metadata pmm_example = Some st' /\ pmm_ok st' /\
    10 ∈ free_frames st'.
Proof.
  eexists. split; [vm_compute; reflexivity|]. split.
  - eapply (pmm_metadata_init pmm_example _ pmm_example_ok pmm_example_zero).
    + simpl. lia.
    + vm_compute. reflexivity.
  - vm_compute. set_solver.
Defined.

(** ** A small machine: frames 1 to 511 free *)

Definition pmm_512 : pmm :=
  Pmm (Zone 0 16 16 15) (Zone 16 512 496 496) (Zone 512 512 0 0) (1 :: replicate 15 0)
      512 511 511 None 0.

Lemma pmm_512_inv : pa_inv pmm_512.
Proof.
  assert (Hok : pmm_ok pmm_512).
  { split.
    - repeat constructor; simpl; lia.
    - unfold capacity. simpl. lia.
    - intros []; split; unfold capacity; simpl; lia || reflexivity.
    - intros zt zt' pfn H%in_zone_iff H'%in_zone_iff. destruct zt, zt'; simpl in *; done || lia.
    - reflexivity. }
  split; [done|]. rewrite elem_of_free_frames by done. intros (zt & _ & Hb). done.
Qed.
