(* ===== verification/Physmem.v ===== *)
(** * Boot memory map (kernel/arch/x86_64/mm/physmem.c)

    How the Multiboot2 memory map becomes the initial set of free frames.  The
    boot information is the sequence of its decoded tags; the pointer walk that
    decodes them is not modelled.  [physmem_init] is the whole function from
    the two passes over the map to the reservations. *)

From S2P Require Import Prelude PageAllocator Pmm.

Definition MULTIBOOT2_MAGIC : Z := 0x36d76289.
Definition MULTIBOOT_MEMORY_AVAILABLE : Z := 1.

Record mmap_entry := Entry {
  entry_addr : Z;
  entry_len : Z;
  entry_type : Z
}.

(** A decoded tag; the tags the code skips carry only their type. *)
Inductive mb_tag :=
  | TagMmap (entries : list mmap_entry)
  | TagModule (mod_start mod_end : Z)
  | TagOther (type : Z).

Record mb_info := MbInfo {
  mbi_addr : Z;
  mbi_size : Z;
  mbi_tags : list mb_tag
}.

Record physmem := Physmem {
  total_memory : Z;
  usable_memory : Z;
  kernel_start_phys : Z;
  kernel_end_phys : Z
}.

(** [multiboot_get_tag(mbi, MULTIBOOT_TAG_TYPE_MMAP)]. *)
Fixpoint multiboot_get_mmap (tags : list mb_tag) : option (list mmap_entry) :=
  match tags with
  | [] => None
  | TagMmap es :: _ => Some es
  | _ :: rest => multiboot_get_mmap rest
  end.

(** The first pass: total memory, usable memory and highest address. *)
Definition first_pass_entry (acc : Z * Z * Z) (e : mmap_entry) : Z * Z * Z :=
  let '(total, usable, highest) := acc in
  let usable := if entry_type e =? MULTIBOOT_MEMORY_AVAILABLE
                then u64 (usable + entry_len e) else usable in
  let total := u64 (total + entry_len e) in
  let highest := if u64 (entry_addr e + entry_len e) >? highest
                 then u64 (entry_addr e + entry_len e) else highest in
  (total, usable, highest).

(** The second pass: the whole pages of an available entry become free. *)
Definition second_pass_entry (st : pmm) (e : mmap_entry) : pmm :=
  if entry_type e =? MULTIBOOT_MEMORY_AVAILABLE then
    let start := ALIGN_UP (entry_addr e) PAGE_SIZE in
    let end_addr := ALIGN_DOWN (u64 (entry_addr e + entry_len e)) PAGE_SIZE in
    if end_addr >? start then pmm_mark_region_free start (u64 (end_addr - start)) st else st
  else st.

Definition mbi_phys (addr : Z) : Z :=
  if addr >=? KERNEL_PHYS_MAP_BASE then addr - KERNEL_PHYS_MAP_BASE
  else if addr >=? KERNEL_VIRT_BASE then addr - KERNEL_VIRT_BASE
  else addr.

Definition reserve_module (st : pmm) (t : mb_tag) : pmm :=
  match t with
  | TagModule s e =>
    if e >? s then pmm_mark_region_used s (ALIGN_UP (u64 (e - s)) PAGE_SIZE) st else st
  | _ => st
  end.

(** [ALIGN_UP] of a 32-bit operand: [PAGE_SIZE] is an [int], so the sum and the
    mask are 32 bits wide. *)
Definition ALIGN_UP_u32 (x align : Z) : Z :=
  Z.land (u32 (x + (align - 1))) (u32 (Z.lnot (align - 1))).

(** [None] is a panic: a wrong magic number or no memory map.  [kstart] and
    [kend] are the addresses of the linker symbols. *)
Definition physmem_init (magic kstart kend : Z) (mbi : mb_info) (pm : physmem) (st : pmm)
    : option (physmem * pmm) :=
  if negb (magic =? MULTIBOOT2_MAGIC) then None else
  let kernel_start := u64 (kstart - KERNEL_VIRT_BASE) in
  let kernel_end := u64 (kend - KERNEL_VIRT_BASE) in
  match multiboot_get_mmap (mbi_tags mbi) with
  | None => None
  | Some entries =>
    let '(total, usable, highest) :=
      fold_left first_pass_entry entries (total_memory pm, usable_memory pm, 0) in
    let st := pmm_init_bitmap (highest / PAGE_SIZE) st in
    let st := fold_left second_pass_entry entries st in
    let st := pmm_mark_region_used 0 0x100000 st in
    let st := pmm_mark_region_used kernel_start (u64 (kernel_end - kernel_start)) st in
    let st := pmm_mark_region_used (mbi_phys (mbi_addr mbi))
                (ALIGN_UP_u32 (mbi_size mbi) PAGE_SIZE) st in
    let st := fold_left reserve_module (mbi_tags mbi) st in
    Some (Physmem total usable kernel_start kernel_end, st)
  end.

(** ** Lemmas: regions *)

(** The frames wholly inside a region, and the frames a region touches. *)
Definition inside (base size p : Z) : Prop :=
  (base + (PAGE_SIZE - 1)) / PAGE_SIZE <= p < (base + size) / PAGE_SIZE.

Definition touched (base size p : Z) : Prop :=
  base / PAGE_SIZE <= p < (base + size + (PAGE_SIZE - 1)) / PAGE_SIZE.

(** A region that does not wrap around the address space. *)
Definition region_ok (base size : Z) : Prop :=
  0 <= base /\ 0 <= size /\ base + size <= 2 ^ 64 - PAGE_SIZE.

(** A step that keeps the invariant and the zones and relates the free frames
    before and after as [F] says. *)
Definition refines (F : Z -> Prop -> Prop) (st st' : pmm) : Prop :=
  pmm_ok st' /\ (forall p, pfn_to_zone st' p = pfn_to_zone st p) /\
  (forall p, p ∈ free_frames st' <-> F p (p ∈ free_frames st)).

Lemma phys_to_pfn_page k : phys_to_pfn (k * PAGE_SIZE) = k.
Proof. rewrite phys_to_pfn_div. by apply Z.div_mul. Qed.

Lemma mark_region_free_frames base size st :
  pmm_ok st -> region_ok base size ->
  refines (fun p free => free \/ inside base size p /\ managed st p) st
    (pmm_mark_region_free base size st).
Proof.
  intros Hok (Hb & Hs & Hmax). unfold pmm_mark_region_free, inside, refines.
  rewrite ALIGN_UP_page, u64_small, ALIGN_DOWN_page, !phys_to_pfn_page
    by (unfold PAGE_SIZE in *; lia).
  destruct (Z.leb_spec ((base + size) / PAGE_SIZE) ((base + (PAGE_SIZE - 1)) / PAGE_SIZE)).
  - split_and!; [done..|]. intros p. intuition lia.
  - apply (flip_range false); [done|lia|]. intros. by apply mark_free_body_flipped.
Qed.

Lemma mark_region_used_frames base size st :
  pmm_ok st -> region_ok base size ->
  refines (fun p free => free /\ ~ touched base size p) st
    (pmm_mark_region_used base size st).
Proof.
  intros Hok (Hb & Hs & Hmax). unfold pmm_mark_region_used, touched, refines.
  rewrite u64_small, ALIGN_UP_page, ALIGN_DOWN_page, !phys_to_pfn_page
    by (unfold PAGE_SIZE in *; lia).
  apply (flip_range true); [done| |intros; by apply mark_used_body_flipped].
  apply Z.div_le_mono; unfold PAGE_SIZE; lia.
Qed.

(** ** Lemmas: the empty allocator *)

Lemma BITMAP_WORDS_Z : Z.of_nat BITMAP_WORDS = 32768.
Proof. unfold BITMAP_WORDS. by rewrite Z2Nat.id. Qed.

#[local] Opaque BITMAP_WORDS.

Lemma bget_full n i :
  0 <= i < 32 * Z.of_nat n -> bget 32 (replicate n UINT32_MAX) i = true.
Proof.
  intros Hi. unfold bget, aget.
  assert (0 <= i / 32 < Z.of_nat n)
    by (split; [apply Z.div_pos; lia|apply Z.div_lt_upper_bound; lia]).
  rewrite lookup_replicate_2 by lia. simpl.
  pose proof (Z.mod_pos_bound i 32 ltac:(lia)).
  change UINT32_MAX with (Z.ones 32). by apply Z.ones_spec_low.
Qed.

Lemma pmm_init_geometry n :
  0 <= n ->
  let st := pmm_init_bitmap n pmm_boot in
  let t := Z.min n 0x100000 in
  start_pfn (zone_dma st) = 0 /\ end_pfn (zone_dma st) = Z.min t 0x1000 /\
  start_pfn (zone_normal st) = 0x1000 /\ end_pfn (zone_normal st) = Z.max t 0x1000 /\
  start_pfn (zone_high st) = 0x100000 /\ end_pfn (zone_high st) = 0x100000 /\
  zone_free_pages (zone_dma st) = 0 /\ zone_free_pages (zone_normal st) = 0 /\
  zone_free_pages (zone_high st) = 0 /\ free_pages st = 0 /\
  initial_bitmap st = replicate BITMAP_WORDS UINT32_MAX /\ total_pages st = t.
Proof.
  intros Hn. unfold pmm_init_bitmap.
  rewrite BITMAP_WORDS_Z. change (32768 * 4 * 8) with 0x100000. cbn -[Z.min Z.max replicate].
  destruct (Z.gtb_spec n 0x100000); cbn -[Z.min Z.max replicate];
    [|destruct (Z.gtb_spec n 0x100000); [lia|]; destruct (Z.gtb_spec n 0x1000);
      cbn -[Z.min Z.max replicate]];
    split_and!; lia || done.
Qed.

Lemma pmm_init_bitmap_ok n :
  0 <= n ->
  pmm_ok (pmm_init_bitmap n pmm_boot) /\
  (forall p, managed (pmm_init_bitmap n pmm_boot) p <-> 0 <= p < Z.min n 0x100000) /\
  (forall p, p ∉ free_frames (pmm_init_bitmap n pmm_boot)).
Proof.
  intros Hn. destruct (pmm_init_geometry n Hn)
    as (Hds & Hde & Hns & Hne & Hhs & Hhe & Hdf & Hnf & Hhf & Hf & Hbm & _).
  remember (pmm_init_bitmap n pmm_boot) as st eqn:Hst. clear Hst.
  assert (Hcap : capacity st = 0x100000)
    by (unfold capacity; rewrite Hbm, length_replicate, BITMAP_WORDS_Z; reflexivity).
  assert (Hfull : forall i, 0 <= i < 0x100000 -> bget 32 (initial_bitmap st) i = true)
    by (intros; rewrite Hbm; apply bget_full; rewrite BITMAP_WORDS_Z; lia).
  assert (Hcnt : forall lo hi, 0 <= lo -> lo <= hi -> hi <= 0x100000 ->
    0 = count_range (fun i => negb (bget 32 (initial_bitmap st) i)) lo hi).
  { intros lo hi ???. rewrite (count_range_ext _ (fun _ => false)).
    - by rewrite count_range_const by lia.
    - intros. by rewrite Hfull by lia. }
  assert (Hok : pmm_ok st).
  { split.
    - rewrite Hbm. apply Forall_replicate. unfold UINT32_MAX. lia.
    - rewrite Hcap. lia.
    - intros []; split; simpl; rewrite ?Hcap, ?Hds, ?Hde, ?Hns, ?Hne, ?Hhs, ?Hhe, ?Hdf, ?Hnf, ?Hhf;
        lia || (apply Hcnt; lia).
    - intros zt zt' pfn H%in_zone_iff H'%in_zone_iff.
      destruct zt, zt'; simpl in *; rewrite ?Hds, ?Hde, ?Hns, ?Hne, ?Hhs, ?Hhe in *; done || lia.
    - lia. }
  assert (Hman : forall p, managed st p <-> 0 <= p < Z.min n 0x100000).
  { intros p. rewrite managed_in_zone by done. setoid_rewrite in_zone_iff. split.
    - intros [[] H]; simpl in H; lia.
    - intros H. exists (if p <? 0x1000 then ZONE_DMA else ZONE_NORMAL).
      destruct (Z.ltb_spec p 0x1000); simpl; lia. }
  split_and!; [done..|]. intros p Hp.
  pose proof (free_frames_managed st p Hok Hp) as Hm%Hman.
  apply elem_of_free_frames in Hp as (_ & _ & Hb); [|done]. rewrite Hfull in Hb by lia. done.
Qed.

(** ** Lemmas: the passes *)

Definition entry_frames (e : mmap_entry) (p : Z) : Prop :=
  entry_type e = MULTIBOOT_MEMORY_AVAILABLE /\ inside (entry_addr e) (entry_len e) p.

Definition entry_ok (e : mmap_entry) : Prop := region_ok (entry_addr e) (entry_len e).

Lemma refines_refl (F : Z -> Prop -> Prop) st :
  pmm_ok st -> (forall p, p ∈ free_frames st <-> F p (p ∈ free_frames st)) -> refines F st st.
Proof. done. Qed.

(** A fold of steps, each adding or removing its own frames. *)
Lemma fold_add {A} (f : pmm -> A -> pmm) (R : A -> Z -> Prop) l st :
  pmm_ok st ->
  (forall x s, x ∈ l -> pmm_ok s ->
     refines (fun p free => free \/ R x p /\ managed s p) s (f s x)) ->
  refines (fun p free => free \/ (exists x, x ∈ l /\ R x p) /\ managed st p) st (fold_left f l st).
Proof.
  revert st. induction l as [|x l IH]; intros st Hok Hf; simpl.
  - apply refines_refl; [done|]. intros p. set_solver.
  - destruct (Hf x st ltac:(set_solver) Hok) as (Ho & Hz & Hx).
    destruct (IH (f st x) Ho) as (Ho' & Hz' & Hl); [intros; apply Hf; set_solver|].
    split; [done|]. split; [intros; by rewrite Hz', Hz|]. intros p. rewrite Hl, Hx.
    assert (managed (f st x) p <-> managed st p) as -> by (unfold managed; by rewrite Hz).
    set_solver.
Qed.

Lemma fold_remove {A} (f : pmm -> A -> pmm) (R : A -> Z -> Prop) l st :
  pmm_ok st ->
  (forall x s, x ∈ l -> pmm_ok s -> refines (fun p free => free /\ ~ R x p) s (f s x)) ->
  refines (fun p free => free /\ ~ exists x, x ∈ l /\ R x p) st (fold_left f l st).
Proof.
  revert st. induction l as [|x l IH]; intros st Hok Hf; simpl.
  - apply refines_refl; [done|]. intros p. set_solver.
  - destruct (Hf x st ltac:(set_solver) Hok) as (Ho & Hz & Hx).
    destruct (IH (f st x) Ho) as (Ho' & Hz' & Hl); [intros; apply Hf; set_solver|].
    split; [done|]. split; [intros; by rewrite Hz', Hz|]. intros p. rewrite Hl, Hx.
    set_solver.
Qed.

Lemma second_pass_frames e st :
  pmm_ok st -> entry_ok e ->
  refines (fun p free => free \/ entry_frames e p /\ managed st p) st (second_pass_entry st e).
Proof.
  intros Hok He. unfold second_pass_entry, entry_frames.
  destruct (Z.eqb_spec (entry_type e) MULTIBOOT_MEMORY_AVAILABLE);
    [|apply refines_refl; [done|]; intuition].
  destruct He as (Ha & Hl & Hmax). rewrite u64_small by (unfold PAGE_SIZE in *; lia).
  rewrite ALIGN_UP_page, ALIGN_DOWN_page by (unfold PAGE_SIZE in *; lia).
  set (c := (entry_addr e + (PAGE_SIZE - 1)) / PAGE_SIZE).
  set (d := (entry_addr e + entry_len e) / PAGE_SIZE).
  assert (0 <= c /\ d * PAGE_SIZE <= entry_addr e + entry_len e)
    by (unfold c, d, PAGE_SIZE; Z.div_mod_to_equations; lia).
  destruct (Z.gtb_spec (d * PAGE_SIZE) (c * PAGE_SIZE)).
  - rewrite u64_small by (unfold PAGE_SIZE in *; lia).
    destruct (mark_region_free_frames (c * PAGE_SIZE) (d * PAGE_SIZE - c * PAGE_SIZE) st)
      as (? & ? & Hf); [done|unfold region_ok, PAGE_SIZE in *; lia|].
    split_and!; [done..|]. intros p. rewrite Hf.
    assert (Hin : inside (c * PAGE_SIZE) (d * PAGE_SIZE - c * PAGE_SIZE) p <->
      inside (entry_addr e) (entry_len e) p); [|by intuition].
    unfold inside. fold c d. unfold PAGE_SIZE. Z.div_mod_to_equations. lia.
  - apply refines_refl; [done|]. intros p. unfold inside. fold c d.
    unfold PAGE_SIZE in *. intuition lia.
Qed.

Lemma first_pass_highest es acc :
  Forall entry_ok es -> 0 <= acc.2 ->
  let h := (fold_left first_pass_entry es acc).2 in
  acc.2 <= h /\ forall e, e ∈ es -> entry_addr e + entry_len e <= h.
Proof.
  revert acc. induction es as [|e es IH]; intros acc Hall Hacc; simpl.
  { split; [lia|]. intros e He. by apply elem_of_nil in He. }
  apply Forall_cons in Hall as [He Hall].
  destruct acc as [[total usable] highest]; simpl in *.
  destruct He as (? & ? & ?).
  rewrite (u64_small (entry_addr e + entry_len e)) by (unfold PAGE_SIZE in *; lia).
  set (acc' := (_, _, _)).
  assert (Hh : acc'.2 = Z.max highest (entry_addr e + entry_len e))
    by (unfold acc'; simpl; zif; lia).
  destruct (IH acc' Hall ltac:(lia)) as [Hle Hin]. split; [lia|].
  intros e' [->|He']%elem_of_cons; [lia|by apply Hin].
Qed.

Lemma ALIGN_UP_u32_page x :
  0 <= x < 2 ^ 32 - PAGE_SIZE ->
  ALIGN_UP_u32 x PAGE_SIZE = (x + (PAGE_SIZE - 1)) / PAGE_SIZE * PAGE_SIZE.
Proof.
  unfold PAGE_SIZE. intros Hx. unfold ALIGN_UP_u32, u32 at 2.
  rewrite land_lnot_ldiff by (lia || apply u32_range). rewrite u32_small by lia.
  change (4096 - 1) with (Z.ones 12). rewrite Z.ldiff_ones_r by lia.
  by rewrite Z.shiftr_div_pow2, Z.shiftl_mul_pow2 by lia.
Qed.

Lemma page_round_bound x : 0 <= x -> x <= (x + (PAGE_SIZE - 1)) / PAGE_SIZE * PAGE_SIZE < x + PAGE_SIZE.
Proof. intros. unfold PAGE_SIZE. Z.div_mod_to_equations. lia. Qed.

(** ** Boot *)

(** What the boot loader and the linker promise about the inputs: entries and
    modules that do not wrap, a kernel image in the last two gigabytes, and a
    boot information block addressed physically. *)
Record boot_ok (kstart kend : Z) (mbi : mb_info) (entries : list mmap_entry) : Prop := {
  boot_map : multiboot_get_mmap (mbi_tags mbi) = Some entries;
  boot_entries : Forall entry_ok entries;
  boot_kernel : KERNEL_VIRT_BASE <= kstart <= kend /\ kend < 2 ^ 64;
  boot_mbi : 0 <= mbi_addr mbi < KERNEL_PHYS_MAP_BASE /\ 0 <= mbi_size mbi < 2 ^ 32 - PAGE_SIZE;
  boot_modules : forall s e, TagModule s e ∈ mbi_tags mbi -> 0 <= s < 2 ^ 32 /\ 0 <= e < 2 ^ 32
}.

(** The frames the kernel reserves at boot. *)
Definition module_frames (t : mb_tag) (p : Z) : Prop :=
  match t with
  | TagModule s e =>
    s < e /\ touched s ((e - s + (PAGE_SIZE - 1)) / PAGE_SIZE * PAGE_SIZE) p
  | _ => False
  end.

Definition boot_reserved (kstart kend : Z) (mbi : mb_info) (p : Z) : Prop :=
  touched 0 0x100000 p \/
  touched (kstart - KERNEL_VIRT_BASE) (kend - kstart) p \/
  touched (mbi_addr mbi) ((mbi_size mbi + (PAGE_SIZE - 1)) / PAGE_SIZE * PAGE_SIZE) p \/
  exists t, t ∈ mbi_tags mbi /\ module_frames t p.

Lemma reserve_module_frames t st kstart kend mbi entries :
  pmm_ok st -> boot_ok kstart kend mbi entries -> t ∈ mbi_tags mbi ->
  refines (fun p free => free /\ ~ module_frames t p) st (reserve_module st t).
Proof.
  intros Hok Hboot Ht.
  destruct t as [es|s e|ty]; simpl; try (apply refines_refl; [done|intuition]).
  destruct (boot_modules _ _ _ _ Hboot s e Ht).
  destruct (Z.gtb_spec e s); [|apply refines_refl; [done|]; intuition lia].
  pose proof (page_round_bound (e - s) ltac:(lia)).
  rewrite u64_small, ALIGN_UP_page by (unfold PAGE_SIZE in *; lia).
  destruct (mark_region_used_frames s ((e - s + (PAGE_SIZE - 1)) / PAGE_SIZE * PAGE_SIZE) st)
    as (? & ? & Hf); [done|unfold region_ok, PAGE_SIZE in *; lia|].
  split_and!; [done..|]. intros p. rewrite Hf. intuition.
Qed.

(** Two reservations in sequence. *)
Lemma refines_remove (R Q : Z -> Prop) st st1 st2 :
  refines (fun p free => free /\ ~ R p) st st1 ->
  refines (fun p free => free /\ ~ Q p) st1 st2 ->
  refines (fun p free => free /\ ~ (R p \/ Q p)) st st2.
Proof.
  intros (? & Hz & Hf) (? & Hz' & Hf'). split; [done|].
  split; [intros; by rewrite Hz', Hz|]. intros p. rewrite Hf', Hf. intuition.
Qed.

Lemma boot_reserves kstart kend mbi entries st :
  pmm_ok st -> boot_ok kstart kend mbi entries ->
  let kernel_start := u64 (kstart - KERNEL_VIRT_BASE) in
  let kernel_end := u64 (kend - KERNEL_VIRT_BASE) in
  refines (fun p free => free /\ ~ boot_reserved kstart kend mbi p) st
    (fold_left reserve_module (mbi_tags mbi)
      (pmm_mark_region_used (mbi_phys (mbi_addr mbi)) (ALIGN_UP_u32 (mbi_size mbi) PAGE_SIZE)
        (pmm_mark_region_used kernel_start (u64 (kernel_end - kernel_start))
          (pmm_mark_region_used 0 0x100000 st)))).
Proof.
  intros Hok Hboot. destruct (boot_kernel _ _ _ _ Hboot), (boot_mbi _ _ _ _ Hboot).
  unfold KERNEL_VIRT_BASE, KERNEL_PHYS_MAP_BASE in *. simpl.
  rewrite (u64_small (kstart - 0xFFFFFFFF80000000)), (u64_small (kend - 0xFFFFFFFF80000000)) by lia.
  rewrite (u64_small (_ - _ - _)) by lia. rewrite ALIGN_UP_u32_page by done.
  assert (mbi_phys (mbi_addr mbi) = mbi_addr mbi) as ->
    by (unfold mbi_phys, KERNEL_VIRT_BASE, KERNEL_PHYS_MAP_BASE; repeat zif; lia).
  replace (kend - 0xFFFFFFFF80000000 - (kstart - 0xFFFFFFFF80000000)) with (kend - kstart) by lia.
  pose proof (page_round_bound (mbi_size mbi) ltac:(lia)).
  pose proof (mark_region_used_frames 0 0x100000 st Hok) as Hs1.
  specialize (Hs1 ltac:(unfold region_ok, PAGE_SIZE; lia)).
  pose proof (mark_region_used_frames (kstart - 0xFFFFFFFF80000000) (kend - kstart) _ (proj1 Hs1)) as Hs2.
  specialize (Hs2 ltac:(unfold region_ok, PAGE_SIZE; lia)).
  pose proof (mark_region_used_frames (mbi_addr mbi)
    ((mbi_size mbi + (PAGE_SIZE - 1)) / PAGE_SIZE * PAGE_SIZE) _ (proj1 Hs2)) as Hs3.
  specialize (Hs3 ltac:(unfold region_ok, PAGE_SIZE in *; lia)).
  pose proof (fold_remove reserve_module module_frames (mbi_tags mbi) _ (proj1 Hs3)
    (fun t s Ht Hs => reserve_module_frames t s kstart kend mbi entries Hs Hboot Ht)) as Hs4.
  exact (refines_remove _ _ _ _ _ Hs1 (refines_remove _ _ _ _ _ Hs2 (refines_remove _ _ _ _ _ Hs3 Hs4))).
Qed.

(** ** Properties *)

(** After boot the allocator is consistent, and its free frames are exactly
    the frames below 4 GiB that lie wholly inside an available entry of the
    memory map and are touched by none of the first megabyte, the kernel image,
    the boot information and the modules; frame 0 is never among them. *)
Theorem physmem_init_correct kstart kend mbi entries pm
    (Hboot : boot_ok kstart kend mbi entries) :
  exists pm' st,
    physmem_init MULTIBOOT2_MAGIC kstart kend mbi pm pmm_boot = Some (pm', st) /\
    pmm_ok st /\ (0 ∉ free_frames st) /\
    forall p, p ∈ free_frames st <->
      (exists e, e ∈ entries /\ entry_frames e p) /\ p < 2 ^ 20 /\
      ~ boot_reserved kstart kend mbi p.
Proof.
  unfold physmem_init. rewrite Z.eqb_refl, (boot_map _ _ _ _ Hboot). cbn [negb].
  pose proof (first_pass_highest entries (total_memory pm, usable_memory pm, 0)
    (boot_entries _ _ _ _ Hboot) ltac:(simpl; lia)) as [Hh0 Hh].
  destruct (fold_left first_pass_entry _ _) as [[total usable] highest]; simpl in Hh0, Hh.
  destruct (pmm_init_bitmap_ok (highest / PAGE_SIZE)) as (Hok0 & Hman & Hnone);
    [by apply Z.div_pos|].
  pose proof (fold_add second_pass_entry entry_frames entries _ Hok0) as Hadd.
  destruct Hadd as (Hok1 & _ & Hadd).
  { intros e s He Hs. apply second_pass_frames; [done|].
    by eapply Forall_forall in He; [|apply (boot_entries _ _ _ _ Hboot)]. }
  destruct (boot_reserves kstart kend mbi entries _ Hok1 Hboot) as (Hok2 & _ & Hres).
  eexists _, _. split; [reflexivity|]. split; [done|].
  assert (Hfree : forall p, (exists e, e ∈ entries /\ entry_frames e p) ->
    managed (pmm_init_bitmap (highest / PAGE_SIZE) pmm_boot) p <-> p < 2 ^ 20).
  { intros p (e & He & _ & Hin). rewrite Hman. unfold inside, PAGE_SIZE in *.
    specialize (Hh e He). pose proof (boot_entries _ _ _ _ Hboot) as Hall.
    rewrite Forall_forall in Hall. destruct (Hall e He) as (? & ? & _).
    Z.div_mod_to_equations. lia. }
  split.
  - rewrite Hres. intros [_ Hno]. apply Hno. left. unfold touched, PAGE_SIZE. done.
  - intros p. rewrite Hres, Hadd. specialize (Hnone p). specialize (Hfree p). intuition.
Qed.

(** [ZONE_HIGH] never holds a frame: the bitmap caps the managed range at
    the frame where that zone starts, so for every memory size an allocation
    from it fails and changes nothing. *)
Theorem pmm_zone_high_empty n (Hn : 0 <= n) :
  let st := pmm_init_bitmap n pmm_boot in
  total_pages st <= start_pfn (zone_high st) /\
  (forall pfn, in_zone (zone_high st) pfn = false) /\
  pmm_alloc_page_zone ZONE_HIGH st = (0, st).
Proof.
  simpl. destruct (pmm_init_geometry n Hn)
    as (_ & _ & _ & _ & Hs & He & _ & _ & Hf & _ & _ & Ht).
  rewrite Hs, Ht. split_and!; [lia| |].
  - intros pfn. apply not_true_is_false. rewrite in_zone_iff, Hs, He. lia.
  - unfold pmm_alloc_page_zone, zones. by rewrite Hf.
Qed.

Lemma pmm_zone_high_empty_witness :
  let st := pmm_init_bitmap 0x200000 pmm_boot in
  pmm_alloc_page_zone ZONE_HIGH st = (0, st).
Proof. apply (pmm_zone_high_empty 0x200000). lia. Defined.

(** A machine with 64 MiB: conventional memory, a hole, and extended memory
    with the kernel, the boot information and one module in it. *)
Definition boot_example : mb_info :=
  MbInfo 0x800000 0x600
    [TagOther 1;
     TagMmap [Entry 0 0x9fc00 1; Entry 0x9fc00 0x60400 2; Entry 0x100000 0x3f00000 1];
     TagModule 0x900000 0x900801].

Lemma boot_example_ok :
  boot_ok 0xFFFFFFFF80100000 0xFFFFFFFF80400000 boot_example
    [Entry 0 0x9fc00 1; Entry 0x9fc00 0x60400 2; Entry 0x100000 0x3f00000 1].
Proof.
  split; unfold KERNEL_VIRT_BASE, KERNEL_PHYS_MAP_BASE, PAGE_SIZE.
  - reflexivity.
  - repeat constructor; unfold PAGE_SIZE; simpl; lia.
  - lia.
  - simpl. lia.
  - intros s e H. unfold boot_example in H. simpl in H. set_unfold. intuition (simplify_eq; lia).
Qed.

Lemma physmem_init_correct_witness :
  exists pm' st,
    physmem_init MULTIBOOT2_MAGIC 0xFFFFFFFF80100000 0xFFFFFFFF80400000 boot_example
      (Physmem 0 0 0 0) pmm_boot = Some (pm', st) /\
    pmm_ok st /\ (0 ∉ free_frames st) /\
    forall p, p ∈ free_frames st <->
      (exists e, e ∈ [Entry 0 0x9fc00 1; Entry 0x9fc00 0x60400 2; Entry 0x100000 0x3f00000 1] /\
         entry_frames e p) /\ p < 2 ^ 20 /\
      ~ boot_reserved 0xFFFFFFFF80100000 0xFFFFFFFF80400000 boot_example p.
Proof. apply physmem_init_correct. exact boot_example_ok. Defined.
