(* ===== verification/SafeArith.v ===== *)
(** * Overflow-checked arithmetic (kernel/support/safe_arith.zig, mem_helpers.zig)

    The Zig helpers that the C allocators call before they compute a size.  A
    helper returns 0 when its result is exact and 1 otherwise; the value stored
    through the out pointer is the second component, [None] where the helper
    returns before storing.  The out pointers of the callers are addresses of
    locals, so the NULL tests never fire and are left out. *)

From S2P Require Import Prelude.

Definition zig_u64_mul_ok (a b : Z) : Z * Z :=
  (if a * b >=? 2 ^ 64 then 1 else 0, u64 (a * b)).

Definition zig_u64_add_ok (a b : Z) : Z * Z :=
  (if a + b >=? 2 ^ 64 then 1 else 0, u64 (a + b)).

Definition zig_u64_sub_ok (a b : Z) : Z * Z :=
  (if a - b <? 0 then 1 else 0, u64 (a - b)).

Definition zig_user_copy_len_ok (len : Z) : Z :=
  let max := 0x7ffff000 in if len >? max then 1 else 0.

Definition zig_u64_add_le_cap (a b cap : Z) : Z :=
  if a + b >=? 2 ^ 64 then 1 else
  if u64 (a + b) >? cap then 1 else 0.

Definition zig_u64_align_up_pow2_ok (value alignment : Z) : Z * option Z :=
  if alignment =? 0 then (1, None) else
  if negb (Z.land alignment (alignment - 1) =? 0) then (1, None) else
  let mask := alignment - 1 in
  if value + mask >=? 2 ^ 64 then (1, None) else
  (0, Some (Z.land (u64 (value + mask)) (u64 (Z.lnot mask)))).

(** The aligned size and the number of pages. *)
Definition zig_pages_for_bytes_ok (bytes page_size : Z) : Z * option (Z * Z) :=
  if page_size =? 0 then (1, None) else
  if negb (Z.land page_size (page_size - 1) =? 0) then (1, None) else
  if bytes =? 0 then (0, Some (0, 0)) else
  let mask := page_size - 1 in
  if bytes + mask >=? 2 ^ 64 then (1, None) else
  let aligned := Z.land (u64 (bytes + mask)) (u64 (Z.lnot mask)) in
  if aligned <? bytes then (1, None) else
  if negb (aligned mod page_size =? 0) then (1, None) else
  (0, Some (aligned, aligned / page_size)).

Definition zig_range_end_le_cap_ok (start length cap : Z) : Z * option Z :=
  if start + length >=? 2 ^ 64 then (1, None) else
  let end_ := u64 (start + length) in
  if end_ >? cap then (1, None) else (0, Some end_).

(** ** Alignment by a mask *)

Lemma mask_pow2_bits k : 0 <= k -> Z.land (2 ^ k) (2 ^ k - 1) = 0.
Proof.
  intros Hk. rewrite Z.sub_1_r, <- Z.ones_equiv, Z.land_ones by lia.
  apply Z_mod_same_full.
Qed.

Lemma mask_align x k :
  0 <= k -> 0 <= x < 2 ^ 64 -> Z.land x (u64 (Z.lnot (2 ^ k - 1))) = x / 2 ^ k * 2 ^ k.
Proof.
  intros Hk Hx. unfold u64. rewrite land_lnot_ldiff by lia.
  rewrite Z.ldiff_land. by apply ALIGN_DOWN_pow2.
Qed.

(** A power of two is what the mask test recognises. *)
Lemma land_pred_pow2 a : 0 < a -> Z.land a (a - 1) = 0 -> a = 2 ^ Z.log2 a.
Proof.
  intros Ha He. pose proof (Z.log2_spec a Ha) as [Hlo Hhi].
  destruct (decide (a = 2 ^ Z.log2 a)) as [|Hne]; [done|exfalso].
  pose proof (Z.log2_nonneg a).
  assert (Hb : Z.testbit (Z.land a (a - 1)) (Z.log2 a) = true).
  { rewrite Z.land_spec, Z.bit_log2 by lia. cbn [andb].
    replace (Z.log2 a) with (Z.log2 (a - 1)); [apply Z.bit_log2; lia|].
    apply Z.log2_unique; lia. }
  rewrite He, Z.bits_0 in Hb. done.
Qed.

(** ** The page count of a byte count *)

Lemma zig_pages_for_bytes_spec bytes page_size :
  0 <= bytes < 2 ^ 64 -> 0 <= page_size < 2 ^ 64 ->
  match zig_pages_for_bytes_ok bytes page_size with
  | (ret, Some (aligned, pages)) =>
      ret = 0 /\ page_size = 2 ^ Z.log2 page_size /\
      aligned = pages * page_size /\ 0 <= aligned < 2 ^ 64 /\
      bytes <= pages * page_size /\
      (forall n, 0 <= n -> bytes <= n * page_size -> pages <= n)
  | (ret, None) =>
      ret = 1 /\
      (page_size <> 2 ^ Z.log2 page_size \/ 0 < bytes /\ 2 ^ 64 <= bytes + page_size - 1)
  end.
Proof.
  intros Hb Hp. unfold zig_pages_for_bytes_ok.
  destruct (Z.eqb_spec page_size 0) as [->|Hp0]; [split; [done|left; done]|].
  destruct (Z.eqb_spec (Z.land page_size (page_size - 1)) 0) as [Hl|Hl]; cbn [negb].
  2:{ split; [done|left]. intros He. apply Hl. rewrite He. apply mask_pow2_bits, Z.log2_nonneg. }
  pose proof (land_pred_pow2 page_size ltac:(lia) Hl) as Hk.
  pose proof (Z.log2_nonneg page_size). generalize dependent (Z.log2 page_size).
  intros k Hk Hk0. subst page_size. assert (0 < 2 ^ k) by lia.
  destruct (Z.eqb_spec bytes 0) as [->|Hb0]; [split_and!; try done; lia|].
  destruct (Z.geb_spec (bytes + (2 ^ k - 1)) (2 ^ 64)); [split; [done|right; lia]|].
  rewrite u64_small by lia. rewrite mask_align by lia.
  pose proof (Z.div_mod (bytes + (2 ^ k - 1)) (2 ^ k) ltac:(lia)).
  pose proof (Z.mod_pos_bound (bytes + (2 ^ k - 1)) (2 ^ k) ltac:(lia)).
  set (q := (bytes + (2 ^ k - 1)) / 2 ^ k) in *.
  destruct (Z.ltb_spec (q * 2 ^ k) bytes); [lia|].
  rewrite Z.mod_mul, Z.div_mul by lia. cbn.
  split_and!; try done; try lia. intros n Hn Hle. nia.
Qed.

(** For every byte count and page size of 64 bits, [zig_pages_for_bytes_ok]
    succeeds exactly when the page size is a power of two and the byte count
    rounded up to it fits 64 bits (tested before masking, so the bytes plus the
    page size minus one must fit), and it then returns the least number of pages
    that holds the bytes together with their size. *)
Theorem zig_pages_for_bytes_exact bytes page_size :
  0 <= bytes < 2 ^ 64 -> 0 <= page_size < 2 ^ 64 ->
  match zig_pages_for_bytes_ok bytes page_size with
  | (ret, Some (aligned, pages)) =>
      ret = 0 /\ page_size = 2 ^ Z.log2 page_size /\
      aligned = pages * page_size /\ 0 <= aligned < 2 ^ 64 /\
      bytes <= pages * page_size /\
      (forall n, 0 <= n -> bytes <= n * page_size -> pages <= n)
  | (ret, None) =>
      ret = 1 /\
      (page_size <> 2 ^ Z.log2 page_size \/ 0 < bytes /\ 2 ^ 64 <= bytes + page_size - 1)
  end.
Proof. apply zig_pages_for_bytes_spec. Qed.

Lemma zig_pages_for_bytes_exact_witness :
  zig_pages_for_bytes_ok 8201 4096 = (0, Some (12288, 3)) /\
  forall n, 0 <= n -> 8201 <= n * 4096 -> 3 <= n.
Proof.
  assert (E : zig_pages_for_bytes_ok 8201 4096 = (0, Some (12288, 3))) by reflexivity.
  pose proof (zig_pages_for_bytes_exact 8201 4096 ltac:(lia) ltac:(lia)) as H.
  rewrite E in H. destruct H as (_ & _ & _ & _ & _ & H). by split.
Defined.
