(* ===== verification/CString.v ===== *)
(** * Memory and strings (kernel/lib/string.c)

    The string library over a byte memory.  A pointer is an address, an address
    that was never written reads as 0, and pointer arithmetic does not wrap.  A
    loop that runs to the NUL of a string it does not write is bounded by the
    number of written bytes plus one, which every such loop respects; the loops
    that copy one string over memory they may also be reading return [None] when
    they overwrite the NUL they were looking for.  [char] is signed. *)

From S2P Require Import Prelude.

(** ** Byte memory *)

Abbreviation memory := (gmap Z Z).

Definition load8 (p : Z) (m : memory) : Z := u8 (default 0 (m !! p)).
Definition store8 (p x : Z) (m : memory) : memory := <[p := u8 x]> m.

(** Little-endian words of [n] bytes. *)
Fixpoint load_le (n : nat) (p : Z) (m : memory) : Z :=
  match n with
  | O => 0
  | S n => load8 p m + 256 * load_le n (p + 1) m
  end.

Fixpoint store_le (n : nat) (p v : Z) (m : memory) : memory :=
  match n with
  | O => m
  | S n => store_le n (p + 1) (v / 256) (store8 p v m)
  end.

Definition load64 : Z -> memory -> Z := load_le 8.
Definition store64 : Z -> Z -> memory -> memory := store_le 8.

(** The value of a [char], signed. *)
Definition schar (x : Z) : Z := if x >=? 128 then x - 256 else x.

(** ** Blocks of memory *)

Definition memcpy (dest src n : Z) (m : memory) : memory :=
  if (n >=? 8) && (Z.land dest 7 =? 0) && (Z.land src 7 =? 0) then
    let m := for_range 0 (n / 8) (fun i m => store64 (dest + 8 * i) (load64 (src + 8 * i) m) m) m in
    for_range (8 * (n / 8)) n (fun i m => store8 (dest + i) (load8 (src + i) m) m) m
  else for_range 0 n (fun i m => store8 (dest + i) (load8 (src + i) m) m) m.

Definition memmove (dest src n : Z) (m : memory) : memory :=
  if (dest <? src) || (dest >=? src + n) then memcpy dest src n m
  else for_range 0 n (fun i m => store8 (dest + n - 1 - i) (load8 (src + n - 1 - i) m) m) m.

Definition fill_word (byte : Z) : Z :=
  let fill := byte in
  let fill := Z.lor fill (u64 (Z.shiftl fill 8)) in
  let fill := Z.lor fill (u64 (Z.shiftl fill 16)) in
  Z.lor fill (u64 (Z.shiftl fill 32)).

Definition memset (s c n : Z) (m : memory) : memory :=
  let byte := u8 c in
  if (n >=? 8) && (Z.land s 7 =? 0) then
    let m := for_range 0 (n / 8) (fun i m => store64 (s + 8 * i) (fill_word byte) m) m in
    for_range (8 * (n / 8)) n (fun i m => store8 (s + i) byte m) m
  else for_range 0 n (fun i m => store8 (s + i) byte m) m.

Definition bzero (s n : Z) (m : memory) : memory := memset s 0 n m.

Definition memcmp (s1 s2 n : Z) (m : memory) : Z :=
  match find_range (fun i => negb (load8 (s1 + i) m =? load8 (s2 + i) m)) 0 n with
  | Some i => load8 (s1 + i) m - load8 (s2 + i) m
  | None => 0
  end.

(** 0 is NULL. *)
Definition memchr (s c n : Z) (m : memory) : Z :=
  match find_range (fun i => load8 (s + i) m =? u8 c) 0 n with
  | Some i => s + i
  | None => 0
  end.

(** ** Strings *)

(** The bound on a walk to a NUL. *)
Definition span (m : memory) : Z := Z.of_nat (size m) + 1.

Definition strlen (s : Z) (m : memory) : Z :=
  match find_range (fun i => load8 (s + i) m =? 0) 0 (span m) with
  | Some n => n
  | None => span m
  end.

Definition strnlen (s maxlen : Z) (m : memory) : Z :=
  match find_range (fun i => load8 (s + i) m =? 0) 0 maxlen with
  | Some n => n
  | None => maxlen
  end.

(** [while (( *dest++ = *src++));]. *)
Fixpoint copy_loop (fuel : nat) (dest src : Z) (m : memory) : option memory :=
  match fuel with
  | O => None
  | S fuel =>
    let c := load8 src m in
    let m := store8 dest c m in
    if c =? 0 then Some m else copy_loop fuel (dest + 1) (src + 1) m
  end.

Definition strcpy (dest src : Z) (m : memory) : option memory :=
  copy_loop (Z.to_nat (strlen src m + 1)) dest src m.

(** [while (n && ( *dest++ = *src++)) n--;]: the pointer and the count left. *)
Fixpoint strncpy_loop (n : nat) (dest src : Z) (m : memory) : Z * nat * memory :=
  match n with
  | O => (dest, O, m)
  | S n' =>
    let c := load8 src m in
    let m := store8 dest c m in
    if c =? 0 then (dest + 1, n, m) else strncpy_loop n' (dest + 1) (src + 1) m
  end.

Definition strncpy (dest src n : Z) (m : memory) : memory :=
  let '(d, rest, m) := strncpy_loop (Z.to_nat n) dest src m in
  for_range 0 (Z.of_nat rest) (fun i m => store8 (d + i) 0 m) m.

Definition strcat (dest src : Z) (m : memory) : option memory :=
  copy_loop (Z.to_nat (strlen src m + 1)) (dest + strlen dest m) src m.

(** [while (n-- && ( *dest = *src++)) dest++;]. *)
Fixpoint strncat_loop (n : nat) (dest src : Z) (m : memory) : Z * memory :=
  match n with
  | O => (dest, m)
  | S n =>
    let c := load8 src m in
    let m := store8 dest c m in
    if c =? 0 then (dest, m) else strncat_loop n (dest + 1) (src + 1) m
  end.

Definition strncat (dest src n : Z) (m : memory) : memory :=
  let '(d, m) := strncat_loop (Z.to_nat n) (dest + strlen dest m) src m in
  store8 d 0 m.

(** The index where the comparison loop stops: the first NUL of [s1] or
    difference, at most [n]. *)
Definition cmp_stop (s1 s2 n : Z) (m : memory) : Z :=
  match find_range (fun i => (load8 (s1 + i) m =? 0) || negb (load8 (s1 + i) m =? load8 (s2 + i) m)) 0 n with
  | Some i => i
  | None => n
  end.

Definition strcmp (s1 s2 : Z) (m : memory) : Z :=
  let i := cmp_stop s1 s2 (span m) m in load8 (s1 + i) m - load8 (s2 + i) m.

Definition strncmp (s1 s2 n : Z) (m : memory) : Z :=
  if n =? 0 then 0 else
  let i := cmp_stop s1 s2 (n - 1) m in load8 (s1 + i) m - load8 (s2 + i) m.

Definition tolower (c : Z) : Z := if (c >=? 65) && (c <=? 90) then c + 32 else c.

Definition strcasecmp (s1 s2 : Z) (m : memory) : Z :=
  let c1 i := tolower (load8 (s1 + i) m) in
  let c2 i := tolower (load8 (s2 + i) m) in
  match find_range (fun i => (c1 i =? 0) || negb (c1 i =? c2 i)) 0 (span m) with
  | Some i => c1 i - c2 i
  | None => 0
  end.

Definition strchr (s c : Z) (m : memory) : Z :=
  let n := strlen s m in
  match find_range (fun i => load8 (s + i) m =? u8 c) 0 n with
  | Some i => s + i
  | None => if c =? 0 then s + n else 0
  end.

Definition strrchr (s c : Z) (m : memory) : Z :=
  let n := strlen s m in
  let last := for_range 0 n (fun i last => if load8 (s + i) m =? u8 c then s + i else last) 0 in
  if c =? 0 then s + n else last.

Definition strstr (haystack needle : Z) (m : memory) : Z :=
  let needle_len := strlen needle m in
  if needle_len =? 0 then haystack else
  match find_range (fun i => strncmp (haystack + i) needle needle_len m =? 0) 0 (strlen haystack m) with
  | Some i => haystack + i
  | None => 0
  end.

(** [str] is NULL (0) to continue from [saveptr]; the token, the new save
    pointer and the memory. *)
Definition strtok_r (str delim saveptr : Z) (m : memory) : Z * Z * memory :=
  let str := if str =? 0 then saveptr else str in
  let is_delim i := negb (strchr delim (load8 (str + i) m) m =? 0) in
  let n := strlen str m in
  match find_range (fun i => negb (is_delim i)) 0 n with
  | None => (0, str + n, m)
  | Some a =>
    match find_range is_delim a n with
    | Some b => (str + a, str + b + 1, store8 (str + b) 0 m)
    | None => (str + a, str + n, m)
    end
  end.

(** ** Numbers *)

Definition is_blank (c : Z) : bool := (c =? 32) || (c =? 9).
Definition is_digit (c : Z) : bool := (c >=? 48) && (c <=? 57).

(** [while ( *s == ' ' || *s == '\t') s++;]. *)
Definition skip_blanks (s : Z) (m : memory) : Z :=
  match find_range (fun i => negb (is_blank (load8 (s + i) m))) 0 (span m) with
  | Some i => s + i
  | None => s
  end.

Fixpoint digits_loop (fuel : nat) (wrap : Z -> Z) (s result : Z) (m : memory) : Z :=
  match fuel with
  | O => result
  | S fuel =>
    let c := load8 s m in
    if is_digit c then digits_loop fuel wrap (s + 1) (wrap (wrap (result * 10) + (c - 48))) m
    else result
  end.

(** [atoi] and [atol] differ in the width of the result. *)
Definition ato (wrap : Z -> Z) (s : Z) (m : memory) : Z :=
  let s := skip_blanks s m in
  let c := load8 s m in
  let '(sign, s) := if c =? 45 then (-1, s + 1) else if c =? 43 then (1, s + 1) else (1, s) in
  wrap (digits_loop (Z.to_nat (span m)) wrap s 0 m * sign).

Definition atoi : Z -> memory -> Z := ato s32.
Definition atol : Z -> memory -> Z := ato s64.

Definition digit_of (c : Z) : option Z :=
  if (c >=? 48) && (c <=? 57) then Some (c - 48)
  else if (c >=? 97) && (c <=? 102) then Some (c - 97 + 10)
  else if (c >=? 65) && (c <=? 70) then Some (c - 65 + 10)
  else None.

(** The value and the end pointer. *)
Fixpoint strtoul_loop (fuel : nat) (base s result : Z) (m : memory) : Z * Z :=
  match fuel with
  | O => (result, s)
  | S fuel =>
    match digit_of (load8 s m) with
    | Some digit =>
      if digit >=? base then (result, s)
      else strtoul_loop fuel base (s + 1) (u64 (result * base + digit)) m
    | None => (result, s)
    end
  end.

Definition strtoul (s base : Z) (m : memory) : Z * Z :=
  let s := skip_blanks s m in
  let s := if load8 s m =? 43 then s + 1 else s in
  let is_x c := (c =? 120) || (c =? 88) in
  let '(base, s) :=
    if base =? 0 then
      if load8 s m =? 48 then
        if is_x (load8 (s + 1) m) then (16, s + 2) else (8, s + 1)
      else (10, s)
    else if (base =? 16) && (load8 s m =? 48) && is_x (load8 (s + 1) m) then (base, s + 2)
    else (base, s) in
  strtoul_loop (Z.to_nat (span m)) base s 0 m.

(** A range test of the goal that holds, or that fails. *)
Lemma range_test_true a b c : a <= b < c -> (a <=? b) && (b <? c) = true.
Proof. intros. apply andb_true_iff. split; [apply Z.leb_le|apply Z.ltb_lt]; lia. Qed.

Lemma range_test_false a b c : b < a \/ c <= b -> (a <=? b) && (b <? c) = false.
Proof. intros. apply andb_false_iff. rewrite Z.leb_gt, Z.ltb_ge. lia. Qed.

Ltac range_true := rewrite range_test_true by lia.
Ltac range_false := rewrite range_test_false by lia.

(** ** Lemmas: bytes and words *)

Lemma load8_range p m : 0 <= load8 p m < 256.
Proof. apply (Z.mod_pos_bound _ 256). lia. Qed.

Lemma u8_small x : 0 <= x < 256 -> u8 x = x.
Proof. apply Z.mod_small. Qed.

Lemma load8_store8 p x b m : load8 b (store8 p x m) = if b =? p then u8 x else load8 b m.
Proof.
  unfold load8, store8. destruct (Z.eqb_spec b p) as [->|Hne].
  - rewrite lookup_insert_eq. cbn. apply Z.mod_mod. done.
  - by rewrite lookup_insert_ne.
Qed.

Lemma load8_store_le n p v b m :
  load8 b (store_le n p v m)
  = if (p <=? b) && (b <? p + Z.of_nat n) then u8 (v / 256 ^ (b - p)) else load8 b m.
Proof.
  revert p v m. induction n as [|n IH]; intros p v m; cbn [store_le].
  - change (Z.of_nat 0) with 0. by range_false.
  - rewrite IH, load8_store8, Nat2Z.inj_succ, <- Z.add_1_r. destruct (Z.eqb_spec b p) as [->|Hne].
    + range_false.
      range_true.
      by rewrite Z.sub_diag, Z.pow_0_r, Z.div_1_r.
    + destruct ((p + 1 <=? b) && (b <? p + 1 + Z.of_nat n)) eqn:E; zbool.
      * range_true. f_equal.
        rewrite Z.div_div by lia. f_equal. rewrite <- Z.pow_succ_r by lia. f_equal. lia.
      * by range_false.
Qed.

Lemma load_le_digit n p i m :
  0 <= i < Z.of_nat n -> u8 (load_le n p m / 256 ^ i) = load8 (p + i) m.
Proof.
  revert p i. induction n as [|n IH]; intros p i Hi; [lia|]. cbn [load_le].
  pose proof (load8_range p m) as Hr. destruct (decide (i = 0)) as [->|].
  - rewrite Z.pow_0_r, Z.div_1_r, Z.add_0_r. unfold u8. change (2 ^ 8) with 256.
    rewrite Z.mul_comm, Z.mod_add by lia. apply Z.mod_small. lia.
  - replace (256 ^ i) with (256 * 256 ^ (i - 1)) by (rewrite <- Z.pow_succ_r by lia; f_equal; lia).
    rewrite <- Z.div_div by lia. rewrite (Z.mul_comm 256 (load_le n (p + 1) m)), Z.div_add, (Z.div_small (load8 p m)) by lia.
    rewrite Z.add_0_l, IH by lia. f_equal. lia.
Qed.

(** ** Copying *)

(** [m'] is [m] with the first [n] bytes of [src] at [dst]. *)
Definition copied (dst src n : Z) (m m' : memory) : Prop :=
  forall b, load8 b m' = if (dst <=? b) && (b <? dst + n) then load8 (b - dst + src) m else load8 b m.

(** One more chunk of [w] bytes, read from where nothing was written yet. *)
Lemma copied_chunk w dst src k m0 m :
  0 <= k -> (dst <= src \/ src + k + Z.of_nat w <= dst) -> copied dst src k m0 m ->
  copied dst src (k + Z.of_nat w) m0 (store_le w (dst + k) (load_le w (src + k) m) m).
Proof.
  intros Hk Hd Hc b. rewrite load8_store_le.
  destruct ((dst + k <=? b) && (b <? dst + k + Z.of_nat w)) eqn:E; zbool.
  - rewrite load_le_digit by lia. range_true.
    rewrite Hc. range_false. f_equal. lia.
  - rewrite Hc. destruct ((dst <=? b) && (b <? dst + k)) eqn:E2; zbool;
      destruct ((dst <=? b) && (b <? dst + (k + Z.of_nat w))) eqn:E3; zbool; try done; lia.
Qed.

Lemma store8_load8_chunk dst src m : store8 dst (load8 src m) m = store_le 1 dst (load_le 1 src m) m.
Proof. cbn. f_equal. lia. Qed.

(** Copying upwards in chunks is right when the destination is not above the
    source inside it. *)
Lemma copy_chunks w dst src lo hi n m0 m :
  (dst <= src \/ src + n <= dst) -> 0 <= lo <= hi -> Z.of_nat w * hi <= n ->
  copied dst src (Z.of_nat w * lo) m0 m ->
  copied dst src (Z.of_nat w * hi) m0
    (for_range lo hi (fun i m => store_le w (dst + Z.of_nat w * i) (load_le w (src + Z.of_nat w * i) m) m) m).
Proof.
  intros Hd Hlo Hn H0. apply (for_range_inv (fun i m => copied dst src (Z.of_nat w * i) m0 m)); [lia|done|].
  intros i m' Hi Hc. replace (Z.of_nat w * (i + 1)) with (Z.of_nat w * i + Z.of_nat w) by lia.
  apply copied_chunk; [nia| |done]. destruct Hd; [by left|]. right. nia.
Qed.

Lemma for_range_ext {S} lo hi (f g : Z -> S -> S) s :
  (forall i s, f i s = g i s) -> for_range lo hi f s = for_range lo hi g s.
Proof.
  intros Hfg. unfold for_range. generalize (Z.to_nat (hi - lo)). intros n. revert lo s.
  induction n as [|n IH]; intros lo s; cbn; [done|]. by rewrite Hfg, IH.
Qed.

Lemma copy_bytes dst src lo n m0 m :
  (dst <= src \/ src + n <= dst) -> 0 <= lo <= n -> copied dst src lo m0 m ->
  copied dst src n m0 (for_range lo n (fun i m => store8 (dst + i) (load8 (src + i) m) m) m).
Proof.
  intros Hd Hlo Hc. pose proof (copy_chunks 1 dst src lo n n m0 m Hd Hlo) as H.
  change (Z.of_nat 1) with 1 in H. rewrite !Z.mul_1_l in H. specialize (H ltac:(lia) Hc).
  erewrite for_range_ext; [exact H|]. intros i s. cbn beta. rewrite !Z.mul_1_l. apply store8_load8_chunk.
Qed.

Lemma copied_refl dst src m : copied dst src 0 m m.
Proof. intros b. by range_false. Qed.

Lemma memcpy_spec dest src n m :
  0 <= n -> (dest <= src \/ src + n <= dest) -> copied dest src n m (memcpy dest src n m).
Proof.
  intros Hn Hd. unfold memcpy. destruct (_ && _ && _).
  - pose proof (Z.div_mod n 8 ltac:(lia)). pose proof (Z.mod_pos_bound n 8 ltac:(lia)).
    apply copy_bytes; [done|lia|]. apply (copy_chunks 8 dest src 0 (n / 8) n); [done|lia|lia|].
    rewrite Z.mul_0_r. apply copied_refl.
  - apply copy_bytes; [done|lia|apply copied_refl].
Qed.

(** Copying downwards, for a destination above the source inside it. *)
Lemma copy_down dest src n m :
  0 <= n -> src <= dest ->
  copied dest src n m
    (for_range 0 n (fun i m => store8 (dest + n - 1 - i) (load8 (src + n - 1 - i) m) m) m).
Proof.
  intros Hn Hd.
  enough (forall b, load8 b (for_range 0 n (fun i m => store8 (dest + n - 1 - i) (load8 (src + n - 1 - i) m) m) m)
    = if (dest + n - n <=? b) && (b <? dest + n) then load8 (b - dest + src) m else load8 b m) as H.
  { intros b. rewrite H. by replace (dest + n - n) with dest by lia. }
  apply (for_range_inv (fun i m' => forall b, load8 b m' =
    if (dest + n - i <=? b) && (b <? dest + n) then load8 (b - dest + src) m else load8 b m)); [lia| |].
  - intros b. by range_false.
  - intros i m' Hi IH b. rewrite load8_store8, (IH (src + n - 1 - i)), (IH b).
    range_false.
    rewrite (u8_small (load8 _ _)) by apply load8_range.
    destruct (Z.eqb_spec b (dest + n - 1 - i)) as [->|].
    + range_true. f_equal. lia.
    + destruct ((dest + n - i <=? b) && (b <? dest + n)) eqn:E1; zbool;
        destruct ((dest + n - (i + 1) <=? b) && (b <? dest + n)) eqn:E2; zbool; try done; lia.
Qed.

Lemma memmove_spec dest src n m : 0 <= n -> copied dest src n m (memmove dest src n m).
Proof.
  intros Hn. unfold memmove. destruct ((dest <? src) || (dest >=? src + n)) eqn:E.
  - apply memcpy_spec; [done|]. apply orb_true_iff in E as [E|E]; zbool; [left; lia|right; lia].
  - zbool. apply copy_down; lia.
Qed.

(** ** Filling *)

Definition filled (s c n : Z) (m m' : memory) : Prop :=
  forall b, load8 b m' = if (s <=? b) && (b <? s + n) then u8 c else load8 b m.

Lemma fill_word_bytes byte i :
  0 <= byte < 256 -> 0 <= i < 8 -> u8 (fill_word byte / 256 ^ i) = byte.
Proof.
  intros Hb Hi.
  assert (Hall : forallb (fun b => forallb (fun i => u8 (fill_word b / 256 ^ i) =? b) (seqZ 0 8)) (seqZ 0 256) = true)
    by (vm_compute; reflexivity).
  rewrite forallb_forall in Hall. specialize (Hall byte). rewrite forallb_forall in Hall.
  apply Z.eqb_eq, Hall; apply list_elem_of_In, elem_of_seqZ; lia.
Qed.

Lemma fill_bytes s c lo n m0 m :
  0 <= lo <= n -> filled s c lo m0 m ->
  filled s c n m0 (for_range lo n (fun i m => store8 (s + i) (u8 c) m) m).
Proof.
  intros Hlo H0. apply (for_range_inv (fun i m => filled s c i m0 m)); [lia|done|].
  intros i m' Hi Hf b. rewrite load8_store8, Hf, (u8_small (u8 c)) by apply u8_range.
  destruct (Z.eqb_spec b (s + i)) as [->|]; [by range_true|].
  destruct ((s <=? b) && (b <? s + i)) eqn:E1; zbool;
    destruct ((s <=? b) && (b <? s + (i + 1))) eqn:E2; zbool; try done; lia.
Qed.

Lemma fill_words s c n m :
  0 <= n -> filled s c (8 * n) m (for_range 0 n (fun i m => store64 (s + 8 * i) (fill_word (u8 c)) m) m).
Proof.
  intros Hn. apply (for_range_inv (fun i m' => filled s c (8 * i) m m')); [lia| |].
  - intros b. by range_false.
  - intros i m' Hi Hf b. unfold store64. rewrite load8_store_le, Hf. change (Z.of_nat 8) with 8.
    destruct ((s + 8 * i <=? b) && (b <? s + 8 * i + 8)) eqn:E; zbool.
    + rewrite fill_word_bytes by (apply u8_range || lia). by range_true.
    + destruct ((s <=? b) && (b <? s + 8 * i)) eqn:E1; zbool;
        destruct ((s <=? b) && (b <? s + 8 * (i + 1))) eqn:E2; zbool; try done; lia.
Qed.

Lemma memset_spec s c n m : 0 <= n -> filled s c n m (memset s c n m).
Proof.
  intros Hn. unfold memset. destruct (_ && _).
  - pose proof (Z.div_mod n 8 ltac:(lia)). pose proof (Z.mod_pos_bound n 8 ltac:(lia)).
    apply fill_bytes; [lia|]. apply fill_words. apply Z.div_pos; lia.
  - apply fill_bytes; [lia|]. intros b. by range_false.
Qed.

(** ** Strings *)

(** The string at [s]: its bytes up to the NUL. *)
Definition str (s : Z) (m : memory) : list Z :=
  (fun i => load8 (s + i) m) <$> seqZ 0 (strlen s m).

(** A walk over non-zero bytes cannot pass the bound [span]. *)
Lemma span_enough s m : exists i, 0 <= i < span m /\ load8 (s + i) m = 0.
Proof.
  destruct (find_range (fun i => load8 (s + i) m =? 0) 0 (span m)) as [i|] eqn:E.
  { apply find_range_Some in E as (? & ? & _). zbool. by exists i. }
  exfalso. rewrite find_range_None in E.
  assert (Hsub : (list_to_set (seqZ s (span m)) : gset Z) ⊆ dom m).
  { intros p. rewrite elem_of_list_to_set, elem_of_seqZ, elem_of_dom. intros Hp.
    specialize (E (p - s) ltac:(lia)). zbool. replace (s + (p - s)) with p in E by lia.
    unfold load8 in E. destruct (m !! p); [done|]. by destruct E. }
  apply subseteq_size in Hsub. rewrite size_list_to_set, length_seqZ, size_dom in Hsub by apply NoDup_seqZ.
  unfold span in Hsub. lia.
Qed.

Lemma strlen_spec s m :
  0 <= strlen s m /\ load8 (s + strlen s m) m = 0 /\ forall i, 0 <= i < strlen s m -> load8 (s + i) m <> 0.
Proof.
  unfold strlen. destruct (find_range _ _ _) as [n|] eqn:E.
  - apply find_range_Some in E as (? & ? & Hi). zbool. split_and!; [lia|done|]. intros i Hr.
    specialize (Hi i Hr). by zbool.
  - destruct (span_enough s m) as (i & Hi & Hz). rewrite find_range_None in E. specialize (E i Hi). by zbool.
Qed.

Lemma strlen_unique s m n :
  0 <= n -> load8 (s + n) m = 0 -> (forall i, 0 <= i < n -> load8 (s + i) m <> 0) -> strlen s m = n.
Proof.
  intros Hn Hz Hi. destruct (strlen_spec s m) as (H0 & Hz' & Hi').
  destruct (Z.lt_trichotomy (strlen s m) n) as [Hl|[->|Hl]]; [|done|].
  - exfalso. apply (Hi (strlen s m)); [lia|done].
  - exfalso. apply (Hi' n); [lia|done].
Qed.

(** The same bytes up to the NUL make the same string. *)
Lemma str_same s s' m m' :
  (forall i, 0 <= i <= strlen s m -> load8 (s' + i) m' = load8 (s + i) m) ->
  strlen s' m' = strlen s m /\ str s' m' = str s m.
Proof.
  intros Hb. destruct (strlen_spec s m) as (H0 & Hz & Hi).
  assert (Hl : strlen s' m' = strlen s m).
  { apply strlen_unique; [done|by rewrite Hb by lia|]. intros i Hr. rewrite Hb by lia. by apply Hi. }
  split; [done|]. unfold str. rewrite Hl. apply list_fmap_ext. intros i x Hx.
  apply lookup_seqZ in Hx. apply Hb. lia.
Qed.

Lemma str_length s m : Z.of_nat (length (str s m)) = strlen s m.
Proof. unfold str. rewrite length_fmap, length_seqZ. pose proof (strlen_spec s m). lia. Qed.

(** *** Copies of strings *)

(** The source is read before it is overwritten. *)
Lemma copied_source dst src k n m0 m i :
  (dst <= src \/ src + n <= dst) -> 0 <= k <= i -> i < n ->
  copied dst src k m0 m -> load8 (src + i) m = load8 (src + i) m0.
Proof. intros Hd Hk Hi Hc. rewrite Hc. destruct Hd; by range_false. Qed.

Lemma copied_step dst src k m0 m :
  0 <= k -> (dst <= src \/ src + k + 1 <= dst) -> copied dst src k m0 m ->
  copied dst src (k + 1) m0 (store8 (dst + k) (load8 (src + k) m) m).
Proof. intros. rewrite store8_load8_chunk. by apply (copied_chunk 1). Qed.

Lemma copy_loop_spec dst src m0 : forall fuel k m,
  (dst <= src \/ src + (strlen src m0 + 1) <= dst) -> 0 <= k ->
  Z.of_nat fuel = strlen src m0 + 1 - k -> (0 < fuel)%nat -> copied dst src k m0 m ->
  exists m', copy_loop fuel (dst + k) (src + k) m = Some m' /\ copied dst src (strlen src m0 + 1) m0 m'.
Proof.
  intros fuel. destruct (strlen_spec src m0) as (H0 & Hz & Hi).
  induction fuel as [|fuel IH]; intros k m Hd Hk Hf Hp Hc; [lia|]. cbn [copy_loop].
  rewrite (copied_source dst src k (strlen src m0 + 1) m0 m k Hd) by (done || lia).
  destruct (Z.eqb_spec (load8 (src + k) m0) 0) as [E|E].
  - assert (k = strlen src m0) as -> by (destruct (decide (k = strlen src m0)); [done|];
      exfalso; apply (Hi k); [lia|done]).
    eexists. split; [done|]. pose proof (copied_step dst src (strlen src m0) m0 m) as H.
    rewrite (copied_source dst src (strlen src m0) (strlen src m0 + 1) m0 m) in H by (done || lia).
    apply H; [done|lia|done].
  - assert (k <> strlen src m0) by (intros ->; done).
    replace (dst + k + 1) with (dst + (k + 1)) by lia. replace (src + k + 1) with (src + (k + 1)) by lia.
    apply IH; [done|lia|lia|lia|].
    rewrite <- (copied_source dst src k (strlen src m0 + 1) m0 m k) by (done || lia).
    apply copied_step; [lia| |done]. destruct Hd; [by left|]. right. lia.
Qed.

Lemma strcpy_spec dest src m :
  (dest <= src \/ src + strlen src m < dest) ->
  exists m', strcpy dest src m = Some m' /\ copied dest src (strlen src m + 1) m m'.
Proof.
  intros Hd. destruct (strlen_spec src m) as (H0 & _ & _).
  destruct (copy_loop_spec dest src m (Z.to_nat (strlen src m + 1)) 0 m) as (m' & E & Hc); try lia.
  - apply copied_refl.
  - rewrite !Z.add_0_r in E. by exists m'.
Qed.

(** [strncpy]: the loop stops with the NUL copied and the count not decreased
    for it, or with the count exhausted. *)
Lemma strncpy_loop_spec dst src m0 : forall n k m,
  (dst <= src \/ src + (k + Z.of_nat n) <= dst) -> 0 <= k -> k <= strlen src m0 -> copied dst src k m0 m ->
  let '(d, rest, m') := strncpy_loop n (dst + k) (src + k) m in
  if strlen src m0 <? k + Z.of_nat n
  then d = dst + strlen src m0 + 1 /\ Z.of_nat rest = k + Z.of_nat n - strlen src m0 /\
       copied dst src (strlen src m0 + 1) m0 m'
  else d = dst + k + Z.of_nat n /\ rest = O /\ copied dst src (k + Z.of_nat n) m0 m'.
Proof.
  intros n. destruct (strlen_spec src m0) as (H0 & Hz & Hi).
  induction n as [|n IH]; intros k m Hd Hk Hle Hc; cbn [strncpy_loop].
  { rewrite Z.add_0_r. destruct (Z.ltb_spec (strlen src m0) k); [lia|]. by rewrite Z.add_0_r. }
  rewrite Nat2Z.inj_succ in *.
  rewrite (copied_source dst src k (k + Z.succ (Z.of_nat n)) m0 m k) by (done || lia).
  assert (Hst : copied dst src (k + 1) m0 (store8 (dst + k) (load8 (src + k) m0) m)).
  { rewrite <- (copied_source dst src k (k + Z.succ (Z.of_nat n)) m0 m k) by (done || lia).
    apply copied_step; [lia| |done]. destruct Hd; [by left|]. right. lia. }
  destruct (Z.eqb_spec (load8 (src + k) m0) 0) as [E|E].
  - assert (k = strlen src m0) as -> by (destruct (decide (k = strlen src m0)); [done|];
      exfalso; apply (Hi k); [lia|done]).
    destruct (Z.ltb_spec (strlen src m0) (strlen src m0 + Z.succ (Z.of_nat n))); [|lia].
    split_and!; [done|lia|done].
  - assert (k <> strlen src m0) by (intros ->; done).
    replace (dst + k + 1) with (dst + (k + 1)) by lia. replace (src + k + 1) with (src + (k + 1)) by lia.
    specialize (IH (k + 1) (store8 (dst + k) (load8 (src + k) m0) m)).
    replace (k + Z.succ (Z.of_nat n)) with (k + 1 + Z.of_nat n) in * by lia.
    destruct (strncpy_loop n (dst + (k + 1)) (src + (k + 1)) _) as [[d rest] m'].
    specialize (IH Hd ltac:(lia) ltac:(lia) Hst). destruct (_ <? _); [done|].
    replace (dst + (k + 1) + Z.of_nat n) with (dst + k + Z.succ (Z.of_nat n)) in IH by lia. done.
Qed.

(** What [strncpy] leaves in memory: for a source shorter than [n], its bytes
    and then zeros up to and including offset [n]. *)
Lemma strncpy_spec dest src n m :
  0 <= n -> (dest <= src \/ src + n <= dest) ->
  forall b, load8 b (strncpy dest src n m) =
    if strlen src m <? n then
      if (dest <=? b) && (b <? dest + strlen src m) then load8 (b - dest + src) m
      else if (dest + strlen src m <=? b) && (b <? dest + (n + 1)) then 0 else load8 b m
    else if (dest <=? b) && (b <? dest + n) then load8 (b - dest + src) m else load8 b m.
Proof.
  intros Hn Hd b. destruct (strlen_spec src m) as (H0 & Hz & Hi). unfold strncpy.
  pose proof (strncpy_loop_spec dest src m (Z.to_nat n) 0 m) as H. rewrite Z2Nat.id, Z.add_0_l, !Z.add_0_r in H by lia.
  destruct (strncpy_loop (Z.to_nat n) dest src m) as [[d rest] m'].
  specialize (H Hd ltac:(lia) ltac:(lia) (copied_refl dest src m)).
  destruct (Z.ltb_spec (strlen src m) n).
  - destruct H as (-> & Hr & Hc). 
    pose proof (fill_bytes (dest + strlen src m + 1) 0 0 (Z.of_nat rest) m' m' ltac:(lia)) as Hf.
    unfold filled in Hf. change (u8 0) with 0 in Hf. rewrite Hf; [|intros b'; by range_false].
    rewrite Hr, Hc. destruct ((dest <=? b) && (b <? dest + strlen src m)) eqn:E1; zbool.
    + rewrite (range_test_false (dest + strlen src m + 1)) by lia. by range_true.
    + destruct ((dest + strlen src m <=? b) && (b <? dest + (n + 1))) eqn:E2; zbool.
      * destruct (decide (b = dest + strlen src m)) as [->|].
        -- rewrite range_test_false by lia. range_true. rewrite <- Hz. f_equal. lia.
        -- by range_true.
      * apply andb_false_iff in E1, E2. rewrite Z.leb_gt, Z.ltb_ge in E1, E2.
        rewrite range_test_false by lia. by range_false.
  - destruct H as (-> & -> & Hc). cbn. rewrite for_range_nil by lia. apply Hc.
Qed.

(** *** Strings as lists *)

Lemma str_app s m n :
  0 <= n -> (forall i, 0 <= i < n -> load8 (s + i) m <> 0) ->
  str s m = ((fun i => load8 (s + i) m) <$> seqZ 0 n) ++ str (s + n) m.
Proof.
  intros Hn Hi. destruct (strlen_spec (s + n) m) as (H0 & Hz & Hi').
  assert (Hl : strlen s m = n + strlen (s + n) m).
  { apply strlen_unique; [lia|by rewrite Z.add_assoc|]. intros i Hr.
    destruct (Z.lt_ge_cases i n); [apply Hi; lia|].
    replace (s + i) with (s + n + (i - n)) by lia. apply Hi'. lia. }
  unfold str. rewrite Hl, seqZ_app, fmap_app by lia. f_equal. rewrite Z.add_0_l.
  rewrite <- (Z.add_0_r n) at 1. rewrite <- fmap_add_seqZ, <- list_fmap_compose.
  apply list_fmap_ext. intros i x _. cbn. f_equal. lia.
Qed.

Lemma str_nil s m : load8 s m = 0 -> str s m = [].
Proof.
  intros Hz. unfold str. rewrite (strlen_unique s m 0); [done|lia|by rewrite Z.add_0_r|lia].
Qed.

Lemma str_cons s m : load8 s m <> 0 -> str s m = load8 s m :: str (s + 1) m.
Proof.
  intros Hz. rewrite (str_app s m 1); [|lia|].
  - change (seqZ 0 1) with [0]. cbn [fmap list_fmap app]. by rewrite Z.add_0_r.
  - intros i Hi. by replace (s + i) with s by lia.
Qed.

(** Lexicographic comparison of byte strings. *)
Fixpoint lex (a b : list Z) : comparison :=
  match a, b with
  | [], [] => Eq
  | [], _ => Lt
  | _, [] => Gt
  | x :: a, y :: b => match x ?= y with Eq => lex a b | o => o end
  end.

Lemma lex_eq a b : lex a b = Eq <-> a = b.
Proof.
  revert b. induction a as [|x a IH]; intros [|y b]; cbn; try done.
  destruct (Z.compare_spec x y) as [->|?|?]; rewrite ?IH; split; try done; try congruence; intros [= -> _]; lia.
Qed.

Lemma cmp_stop_step s1 s2 n m :
  0 < n -> cmp_stop s1 s2 n m =
    if (load8 s1 m =? 0) || negb (load8 s1 m =? load8 s2 m) then 0
    else cmp_stop (s1 + 1) (s2 + 1) (n - 1) m + 1.
Proof.
  intros Hn. unfold cmp_stop. rewrite find_range_step by lia. rewrite !Z.add_0_r.
  destruct (_ || _); [done|]. change (0 + 1) with 1.
  set (p := fun i => (load8 (s1 + i) m =? 0) || negb (load8 (s1 + i) m =? load8 (s2 + i) m)).
  set (q := fun i => (load8 (s1 + 1 + i) m =? 0) || negb (load8 (s1 + 1 + i) m =? load8 (s2 + 1 + i) m)).
  assert (Hpq : forall i, q i = p (i + 1)).
  { intros i. unfold p, q. replace (s1 + 1 + i) with (s1 + (i + 1)) by lia.
    by replace (s2 + 1 + i) with (s2 + (i + 1)) by lia. }
  destruct (find_range q 0 (n - 1)) as [i|] eqn:E.
  - apply find_range_Some in E as (Hi & Hq & Hj).
    assert (find_range p 1 n = Some (i + 1)) as ->; [|done].
    apply find_range_Some. split; [lia|]. split; [by rewrite <- Hpq|]. intros j Hr.
    specialize (Hj (j - 1) ltac:(lia)). rewrite Hpq in Hj. by replace (j - 1 + 1) with j in Hj by lia.
  - assert (find_range p 1 n = None) as ->; [|lia].
    apply find_range_None. intros j Hr. rewrite find_range_None in E.
    specialize (E (j - 1) ltac:(lia)). rewrite Hpq in E. by replace (j - 1 + 1) with j in E by lia.
Qed.

(** The comparison loop on at most [n + 1] bytes. *)
Lemma cmp_lex n : forall s1 s2 m,
  let i := cmp_stop s1 s2 (Z.of_nat n) m in
  (load8 (s1 + i) m - load8 (s2 + i) m ?= 0) = lex (take (S n) (str s1 m)) (take (S n) (str s2 m)).
Proof.
  induction n as [|n IH]; intros s1 s2 m; cbn zeta;
    pose proof (load8_range s1 m); pose proof (load8_range s2 m);
    [|rewrite cmp_stop_step by lia; destruct ((load8 s1 m =? 0) || negb (load8 s1 m =? load8 s2 m)) eqn:E];
    [rewrite !Z.add_0_r| rewrite !Z.add_0_r|].
  1,2: destruct (Z.eqb_spec (load8 s1 m) 0) as [Z1|Z1], (Z.eqb_spec (load8 s2 m) 0) as [Z2|Z2];
    [rewrite (str_nil s1), (str_nil s2), Z1, Z2 by done; done
    |rewrite (str_nil s1), (str_cons s2) by done; cbn; rewrite Z.compare_lt_iff; lia
    |rewrite (str_nil s2), (str_cons s1) by done; cbn; rewrite Z.compare_gt_iff; lia|].
  - rewrite (str_cons s1), (str_cons s2) by done. rewrite !firstn_cons, !take_0. cbn [lex].
    rewrite <- (Z.compare_sub (load8 s1 m) (load8 s2 m)). by destruct (load8 s1 m ?= load8 s2 m).
  - cbn in E. apply negb_true_iff, Z.eqb_neq in E.
    rewrite (str_cons s1), (str_cons s2) by done. rewrite !firstn_cons. cbn [lex]. rewrite <- (Z.compare_sub (load8 s1 m) (load8 s2 m)).
    destruct (Z.compare_spec (load8 s1 m) (load8 s2 m)); done.
  - zbool. replace (Z.of_nat (S n) - 1) with (Z.of_nat n) by lia.
    specialize (IH (s1 + 1) (s2 + 1) m). cbn zeta in IH.
    replace (s1 + (cmp_stop (s1 + 1) (s2 + 1) (Z.of_nat n) m + 1))
      with (s1 + 1 + cmp_stop (s1 + 1) (s2 + 1) (Z.of_nat n) m) by lia.
    replace (s2 + (cmp_stop (s1 + 1) (s2 + 1) (Z.of_nat n) m + 1))
      with (s2 + 1 + cmp_stop (s1 + 1) (s2 + 1) (Z.of_nat n) m) by lia.
    rewrite IH, (str_cons s1), (str_cons s2) by congruence. rewrite !firstn_cons. cbn [lex].
    assert (load8 s1 m = load8 s2 m) as -> by congruence. by rewrite Z.compare_refl.
Qed.

Lemma strlen_span s m : strlen s m < span m.
Proof.
  destruct (span_enough s m) as (i & Hi & Hz). destruct (strlen_spec s m) as (_ & _ & Hn).
  destruct (Z.lt_ge_cases (strlen s m) (span m)); [done|]. exfalso. apply (Hn i); [lia|done].
Qed.

Lemma strcmp_spec s1 s2 m : (strcmp s1 s2 m ?= 0) = lex (str s1 m) (str s2 m).
Proof.
  unfold strcmp. pose proof (cmp_lex (Z.to_nat (span m)) s1 s2 m) as H. cbv zeta in H.
  assert (0 <= span m) by (unfold span; lia). rewrite Z2Nat.id in H by lia. cbv zeta. rewrite H.
  pose proof (str_length s1 m). pose proof (str_length s2 m). pose proof (strlen_span s1 m). pose proof (strlen_span s2 m).
  rewrite !take_ge by lia. done.
Qed.

Lemma strncmp_spec s1 s2 n m :
  0 <= n -> (strncmp s1 s2 n m ?= 0) = lex (take (Z.to_nat n) (str s1 m)) (take (Z.to_nat n) (str s2 m)).
Proof.
  intros Hn. unfold strncmp. destruct (Z.eqb_spec n 0) as [->|]; [done|].
  pose proof (cmp_lex (Z.to_nat (n - 1)) s1 s2 m) as H. cbv zeta in *. rewrite Z2Nat.id in H by lia.
  rewrite H. by replace (S (Z.to_nat (n - 1))) with (Z.to_nat n) by lia.
Qed.

(** *** What a copy can touch *)

Lemma memcpy_frame dest src n m b :
  b < dest \/ dest + n <= b -> load8 b (memcpy dest src n m) = load8 b m.
Proof.
  intros Hb. assert (Hw : forall lo hi w m, 0 <= lo -> Z.of_nat w * hi <= n ->
    load8 b (for_range lo hi (fun i m => store_le w (dest + Z.of_nat w * i) (load_le w (src + Z.of_nat w * i) m) m) m)
    = load8 b m).
  { intros lo hi w m0 Hlo Hhi. apply (for_range_pres (fun m' => load8 b m' = load8 b m0)); [done|].
    intros i m' Hi Hm. rewrite load8_store_le, <- Hm. rewrite range_test_false; [done|]. nia. }
  assert (Hby : forall lo m, 0 <= lo ->
    load8 b (for_range lo n (fun i m => store8 (dest + i) (load8 (src + i) m) m) m) = load8 b m).
  { intros lo m0 Hlo. apply (for_range_pres (fun m' => load8 b m' = load8 b m0)); [done|].
    intros i m' Hi Hm. rewrite load8_store8, <- Hm. destruct (Z.eqb_spec b (dest + i)); [lia|done]. }
  unfold memcpy. destruct (n >=? 8) eqn:E; cbn [andb]; [|by apply Hby]. zbool.
  destruct (_ && _); [|by apply Hby].
  pose proof (Z.div_mod n 8 ltac:(lia)). pose proof (Z.mod_pos_bound n 8 ltac:(lia)).
  assert (0 <= n / 8) by (apply Z.div_pos; lia). rewrite Hby by lia. apply (Hw 0 (n / 8) 8%nat); lia.
Qed.

(** ** Properties *)

(** The word-at-a-time block routines agree with their byte-by-byte
    definition for every length and alignment: [memmove] moves the block whatever
    the overlap, [memcpy] does when the destination does not lie inside the
    source above its start, [memset] stores the byte everywhere in the block, and
    none of them touches a byte outside it. *)
Theorem block_ops_exact dest src c n m (Hn : 0 <= n) :
  copied dest src n m (memmove dest src n m) /\
  (dest <= src \/ src + n <= dest -> copied dest src n m (memcpy dest src n m)) /\
  filled dest c n m (memset dest c n m) /\
  (forall b, b < dest \/ dest + n <= b -> load8 b (memcpy dest src n m) = load8 b m).
Proof.
  split_and!; [by apply memmove_spec|by apply memcpy_spec|by apply memset_spec|].
  intros b. apply memcpy_frame.
Qed.

(** Comparison and copying of NUL-terminated strings, for every memory:
    [strlen] is the number of bytes before the first NUL; the sign of [strcmp] is
    the lexicographic order of the two strings, so it is 0 exactly for equal
    ones, and [strncmp] compares their first [n] bytes; [strcpy] terminates and
    leaves the source string at the destination when that does not start inside
    the source. *)
Theorem string_ops_correct s1 s2 n m (Hn : 0 <= n) :
  (load8 (s1 + strlen s1 m) m = 0 /\ forall i, 0 <= i < strlen s1 m -> load8 (s1 + i) m <> 0) /\
  (strcmp s1 s2 m ?= 0) = lex (str s1 m) (str s2 m) /\
  (strcmp s1 s2 m = 0 <-> str s1 m = str s2 m) /\
  (strncmp s1 s2 n m ?= 0) = lex (take (Z.to_nat n) (str s1 m)) (take (Z.to_nat n) (str s2 m)) /\
  (s1 <= s2 \/ s2 + strlen s2 m < s1 ->
   exists m', strcpy s1 s2 m = Some m' /\ str s1 m' = str s2 m /\
     forall b, b < s1 \/ s1 + strlen s2 m < b -> load8 b m' = load8 b m).
Proof.
  split; [by destruct (strlen_spec s1 m) as (_ & ? & ?)|]. split_and!.
  - apply strcmp_spec.
  - rewrite <- Z.compare_eq_iff, strcmp_spec. apply lex_eq.
  - by apply strncmp_spec.
  - intros Hd. destruct (strcpy_spec s1 s2 m Hd) as (m' & E & Hc). exists m'. split; [done|].
    pose proof (strlen_spec s2 m) as (H0 & _). split.
    + apply str_same. intros i Hi. rewrite Hc. range_true. f_equal. lia.
    + intros b Hb. rewrite Hc. by range_false.
Qed.

(** [strncpy] of a string shorter than [n] stores [n + 1] bytes: the string,
    then zeros up to and including offset [n], one past the buffer of [n] bytes it
    was given.  A string of at least [n] bytes is cut without a NUL, and then
    exactly [n] bytes are stored. *)
Theorem strncpy_overruns dest src n m
    (Hn : 0 <= n) (Hover : dest <= src \/ src + n <= dest) :
  forall b, load8 b (strncpy dest src n m) =
    if strlen src m <? n then
      if (dest <=? b) && (b <? dest + strlen src m) then load8 (b - dest + src) m
      else if (dest + strlen src m <=? b) && (b <? dest + (n + 1)) then 0 else load8 b m
    else if (dest <=? b) && (b <? dest + n) then load8 (b - dest + src) m else load8 b m.
Proof. by apply strncpy_spec. Qed.

(** ** Witnesses *)

(** The strings "ab" at 16 and "ac" at 24, and a byte 7 at 36. *)
Definition mem_example : memory := {[16 := 97; 17 := 98; 24 := 97; 25 := 99; 36 := 7]}.

Lemma block_ops_exact_witness :
  load8 17 (memmove 17 16 9 mem_example) = 97 /\ copied 17 16 9 mem_example (memmove 17 16 9 mem_example).
Proof.
  split; [vm_compute; reflexivity|]. apply (block_ops_exact 17 16 0 9 mem_example). lia.
Defined.

Lemma string_ops_correct_witness :
  strcmp 16 24 mem_example = -1 /\ lex (str 16 mem_example) (str 24 mem_example) = Lt /\
  (strncmp 16 24 1 mem_example ?= 0) = Eq.
Proof.
  destruct (string_ops_correct 16 24 1 mem_example ltac:(lia)) as (_ & Hc & _ & Hn & _).
  split; [vm_compute; reflexivity|]. split; [rewrite <- Hc; vm_compute; reflexivity|].
  rewrite Hn. vm_compute. reflexivity.
Defined.

Lemma strncpy_overruns_witness :
  load8 36 mem_example = 7 /\ load8 36 (strncpy 32 16 4 mem_example) = 0.
Proof.
  split; [vm_compute; reflexivity|].
  rewrite (strncpy_overruns 32 16 4 mem_example ltac:(lia) ltac:(lia) 36). vm_compute. reflexivity.
Defined.
