(* ===== verification/Kmalloc.v ===== *)
(** * Kernel memory allocator (kernel/mm/kmalloc.c)

    The slab allocator and the general-purpose interface on top of it, over any
    page allocator ([PageAllocator]).  Structures are kept in maps from their
    address: [caches] and [slabs] hold the [struct kmem_cache] and [struct slab]
    objects, a [struct list_head] is the list of the addresses linked on it in
    order, and [bytes] is the contents of the allocated blocks.  NULL is 0.
    The locks of the caches are never taken by the code and are left out, as is
    the logging. *)

From S2P Require Import Prelude PageAllocator Pmm SafeArith CString.

(** ** Data *)

Definition SLAB_HWCACHE_ALIGN : Z := 0x0001.

Definition sizeof_slab : Z := 48.
Definition sizeof_kmem_cache : Z := 160.
Definition sizeof_size_t : Z := 8.

Definition size_classes : list Z := [8; 16; 32; 64; 128; 256; 512; 1024; 2048; 4096; 8192].
Definition NUM_SIZE_CLASSES : Z := Z.of_nat (length size_classes).

(** [freelist] is the array of 32-bit links at the end of the slab. *)
Record slab := Slab {
  base : Z;
  inuse : Z;
  free_idx : Z;
  freelist : list Z;
  slab_cache : Z
}.

Record kmem_cache := Cache {
  cache_name : Z;
  object_size : Z;
  aligned_size : Z;
  cache_align : Z;
  cache_flags : Z;
  objects_per_slab : Z;
  slab_size : Z;
  ctor : option (Z -> memory -> memory);
  dtor : option (Z -> memory -> memory);
  slabs_full : list Z;
  slabs_partial : list Z;
  slabs_free : list Z;
  total_objects : Z;
  active_objects : Z;
  total_slabs : Z
}.

(** The static variables of kmalloc.c, the page allocator and the objects. *)
Record heap (St : Type) := Heap {
  frames : St;
  caches : gmap Z kmem_cache;
  slabs : gmap Z slab;
  bytes : memory;
  cache_list : list Z;
  size_caches : list Z;
  total_allocated : Z;
  total_freed : Z;
  early_heap_start : Z;
  early_heap_end : Z;
  early_heap_current : Z;
  slab_initialized : bool
}.
Arguments Heap {St}.
Arguments frames {St}.
Arguments caches {St}.
Arguments slabs {St}.
Arguments bytes {St}.
Arguments cache_list {St}.
Arguments size_caches {St}.
Arguments total_allocated {St}.
Arguments total_freed {St}.
Arguments early_heap_start {St}.
Arguments early_heap_end {St}.
Arguments early_heap_current {St}.
Arguments slab_initialized {St}.

(** ** Field updates *)

Definition with_lists (full partial free : list Z) (k : kmem_cache) : kmem_cache :=
  Cache (cache_name k) (object_size k) (aligned_size k) (cache_align k) (cache_flags k)
        (objects_per_slab k) (slab_size k) (ctor k) (dtor k) full partial free
        (total_objects k) (active_objects k) (total_slabs k).

Definition with_totals (objects active nslabs : Z) (k : kmem_cache) : kmem_cache :=
  Cache (cache_name k) (object_size k) (aligned_size k) (cache_align k) (cache_flags k)
        (objects_per_slab k) (slab_size k) (ctor k) (dtor k)
        (slabs_full k) (slabs_partial k) (slabs_free k) objects active nslabs.

(** [list_del(&slab->list)]: the slab leaves the list of its cache it is on. *)
Definition unlink (s : Z) (k : kmem_cache) : kmem_cache :=
  let del := filter (fun x : Z => x <> s) in
  with_lists (del (slabs_full k)) (del (slabs_partial k)) (del (slabs_free k)) k.

(** [list_add(&slab->list, &cache->slabs_...)]. *)
Definition link_full (s : Z) (k : kmem_cache) : kmem_cache :=
  with_lists (s :: slabs_full k) (slabs_partial k) (slabs_free k) k.
Definition link_partial (s : Z) (k : kmem_cache) : kmem_cache :=
  with_lists (slabs_full k) (s :: slabs_partial k) (slabs_free k) k.
Definition link_free (s : Z) (k : kmem_cache) : kmem_cache :=
  with_lists (slabs_full k) (slabs_partial k) (s :: slabs_free k) k.

Section updates.
Context {St : Type}.

Definition with_frames (st : St) (h : heap St) : heap St :=
  Heap st (caches h) (slabs h) (bytes h) (cache_list h) (size_caches h) (total_allocated h)
       (total_freed h) (early_heap_start h) (early_heap_end h) (early_heap_current h)
       (slab_initialized h).

Definition with_caches (m : gmap Z kmem_cache) (h : heap St) : heap St :=
  Heap (frames h) m (slabs h) (bytes h) (cache_list h) (size_caches h) (total_allocated h)
       (total_freed h) (early_heap_start h) (early_heap_end h) (early_heap_current h)
       (slab_initialized h).

Definition with_slabs (m : gmap Z slab) (h : heap St) : heap St :=
  Heap (frames h) (caches h) m (bytes h) (cache_list h) (size_caches h) (total_allocated h)
       (total_freed h) (early_heap_start h) (early_heap_end h) (early_heap_current h)
       (slab_initialized h).

Definition with_bytes (m : memory) (h : heap St) : heap St :=
  Heap (frames h) (caches h) (slabs h) m (cache_list h) (size_caches h) (total_allocated h)
       (total_freed h) (early_heap_start h) (early_heap_end h) (early_heap_current h)
       (slab_initialized h).

Definition with_cache_list (l : list Z) (h : heap St) : heap St :=
  Heap (frames h) (caches h) (slabs h) (bytes h) l (size_caches h) (total_allocated h)
       (total_freed h) (early_heap_start h) (early_heap_end h) (early_heap_current h)
       (slab_initialized h).

Definition with_size_caches (l : list Z) (h : heap St) : heap St :=
  Heap (frames h) (caches h) (slabs h) (bytes h) (cache_list h) l (total_allocated h)
       (total_freed h) (early_heap_start h) (early_heap_end h) (early_heap_current h)
       (slab_initialized h).

Definition with_stats (allocated freed : Z) (h : heap St) : heap St :=
  Heap (frames h) (caches h) (slabs h) (bytes h) (cache_list h) (size_caches h) allocated
       freed (early_heap_start h) (early_heap_end h) (early_heap_current h)
       (slab_initialized h).

Definition with_early (start end_ current : Z) (h : heap St) : heap St :=
  Heap (frames h) (caches h) (slabs h) (bytes h) (cache_list h) (size_caches h)
       (total_allocated h) (total_freed h) start end_ current (slab_initialized h).

Definition with_initialized (b : bool) (h : heap St) : heap St :=
  Heap (frames h) (caches h) (slabs h) (bytes h) (cache_list h) (size_caches h)
       (total_allocated h) (total_freed h) (early_heap_start h) (early_heap_end h)
       (early_heap_current h) b.

Definition upd_cache (c : Z) (f : kmem_cache -> kmem_cache) (h : heap St) : heap St :=
  with_caches (alter f c (caches h)) h.
End updates.

(** ** Slabs *)

Definition calc_objects_per_slab (obj_size slab_size : Z) : Z :=
  let usable := u64 (slab_size - sizeof_slab) in
  u32 (usable / u64 (obj_size + 4)).

(** The links of a new slab: each object's successor, and the end marker. *)
Definition init_freelist (n : Z) : list Z :=
  let fl := for_range 0 n (fun i fl => aset fl i (u32 (i + 1)))
              (replicate (Z.to_nat n) 0) in
  aset fl (n - 1) UINT32_MAX.

(** The address of object [i]. *)
Definition obj_addr (k : kmem_cache) (sl : slab) (i : Z) : Z :=
  u64 (base sl + i * aligned_size k).

(** A constructor or destructor applied to the objects of a slab in order. *)
Definition for_objects (f : option (Z -> memory -> memory)) (k : kmem_cache) (sl : slab)
    (m : memory) : memory :=
  match f with
  | None => m
  | Some g => for_range 0 (objects_per_slab k) (fun i m => g (obj_addr k sl i) m) m
  end.

Definition slab_alloc_obj (k : kmem_cache) (sl : slab) : Z * slab :=
  if free_idx sl =? UINT32_MAX then (0, sl) else
  let idx := free_idx sl in
  let sl := Slab (base sl) (u32 (inuse sl + 1)) (aget (freelist sl) idx)
                 (freelist sl) (slab_cache sl) in
  (obj_addr k sl idx, sl).

Definition slab_free_obj (k : kmem_cache) (obj : Z) (sl : slab) : slab :=
  let offset := u64 (obj - base sl) in
  let idx := u32 (offset / aligned_size k) in
  Slab (base sl) (u32 (inuse sl - 1)) idx
       (aset (freelist sl) idx (free_idx sl)) (slab_cache sl).

Definition slab_contains_obj (k : kmem_cache) (sl : slab) (obj : Z) : bool :=
  if obj =? 0 then false else
  let start := base sl in
  let end_ := u64 (start + objects_per_slab k * aligned_size k) in
  if (obj <? start) || (obj >=? end_) then false
  else (obj - start) mod aligned_size k =? 0.

Section operations.
Context {St : Type} `{PageAllocator St}.
Implicit Types (h : heap St).

Definition slab_create (c : Z) (k : kmem_cache) h : Z * heap St :=
  let pages := slab_size k / PAGE_SIZE in
  let '(phys, st) := pa_alloc pages (frames h) in
  if phys =? 0 then (0, with_frames st h) else
  let slab := PHYS_TO_VIRT phys in
  let st := for_range 0 pages (fun i st =>
      let page_phys := u64 (phys + i * PAGE_SIZE) in
      pa_update_flags page_phys (Z.lor PAGE_FLAG_SLAB PAGE_FLAG_KERNEL) 0
        (pa_set_owner page_phys PAGE_OWNER_SLAB st)) st in
  let sl := Slab (u64 (slab + sizeof_slab)) 0 0 (init_freelist (objects_per_slab k)) c in
  let h := with_frames st h in
  let h := with_slabs (<[slab := sl]> (slabs h)) h in
  let h := with_bytes (for_objects (ctor k) k sl (bytes h)) h in
  let h := upd_cache c (fun k =>
      with_totals (u64 (total_objects k + objects_per_slab k)) (active_objects k)
                  (u64 (total_slabs k + 1)) k) h in
  (slab, h).

Definition slab_destroy (c : Z) (k : kmem_cache) (slab : Z) h : heap St :=
  let h := match slabs h !! slab with
           | Some sl => with_bytes (for_objects (dtor k) k sl (bytes h)) h
           | None => h
           end in
  let phys := VIRT_TO_PHYS slab in
  let pages := slab_size k / PAGE_SIZE in
  let st := for_range 0 pages (fun i st =>
      pa_update_flags (u64 (phys + i * PAGE_SIZE)) 0 PAGE_FLAG_SLAB st) (frames h) in
  let h := with_frames (pa_free phys pages st) h in
  let h := with_slabs (delete slab (slabs h)) h in
  upd_cache c (fun k =>
      with_totals (u64 (total_objects k - objects_per_slab k)) (active_objects k)
                  (u64 (total_slabs k - 1)) k) h.

Fixpoint find_slab_in_list (k : kmem_cache) h (l : list Z) (obj : Z) : option Z :=
  match l with
  | [] => None
  | s :: l =>
    match slabs h !! s with
    | Some sl => if slab_contains_obj k sl obj then Some s else find_slab_in_list k h l obj
    | None => find_slab_in_list k h l obj
    end
  end.

Definition find_slab_in_cache (k : kmem_cache) h (obj : Z) : option Z :=
  match find_slab_in_list k h (slabs_partial k) obj with
  | Some s => Some s
  | None =>
    match find_slab_in_list k h (slabs_full k) obj with
    | Some s => Some s
    | None => find_slab_in_list k h (slabs_free k) obj
    end
  end.

Fixpoint find_owner_cache_for_obj h (l : list Z) (obj : Z) : option (Z * Z) :=
  match l with
  | [] => None
  | c :: l =>
    match caches h !! c with
    | Some k =>
      match find_slab_in_cache k h obj with
      | Some s => Some (c, s)
      | None => find_owner_cache_for_obj h l obj
      end
    | None => find_owner_cache_for_obj h l obj
    end
  end.

(** ** Caches *)

(** The slab to allocate from: the first partial one, else a free one moved to
    the partial list, else a new one.  0 when no slab can be created. *)
Definition pick_slab (c : Z) (k : kmem_cache) h : Z * heap St :=
  match slabs_partial k with
  | s :: _ => (s, h)
  | [] =>
    match slabs_free k with
    | s :: _ => (s, upd_cache c (fun k => link_partial s (unlink s k)) h)
    | [] =>
      let '(s, h) := slab_create c k h in
      if s =? 0 then (0, h) else (s, upd_cache c (link_partial s) h)
    end
  end.

(** Taking an object of the slab, with the accounting and the move of a slab
    that became full. *)
Definition take_obj (c : Z) (k : kmem_cache) (s : Z) (sl : slab) h : Z * heap St :=
  let '(obj, sl) := slab_alloc_obj k sl in
  let h := with_slabs (<[s := sl]> (slabs h)) h in
  let h := upd_cache c (fun k =>
      with_totals (total_objects k) (u64 (active_objects k + 1)) (total_slabs k) k) h in
  let h := with_stats (u64 (total_allocated h + object_size k)) (total_freed h) h in
  let h := if inuse sl =? objects_per_slab k
           then upd_cache c (fun k => link_full s (unlink s k)) h else h in
  (obj, h).

Definition kmem_cache_alloc (c : Z) h : Z * heap St :=
  match caches h !! c with
  | None => (0, h)
  | Some k =>
    let '(s, h) := pick_slab c k h in
    if s =? 0 then (0, h) else
    match slabs h !! s with
    | None => (0, h)
    | Some sl => take_obj c k s sl h
    end
  end.

Definition kmem_cache_zalloc (c : Z) h : Z * heap St :=
  let '(obj, h) := kmem_cache_alloc c h in
  if obj =? 0 then (obj, h) else
  match caches h !! c with
  | Some k => (obj, with_bytes (memset obj 0 (object_size k) (bytes h)) h)
  | None => (obj, h)
  end.

(** Returning an object to the slab [s] of its cache [c]. *)
Definition put_obj (c : Z) (k : kmem_cache) (s : Z) (sl : slab) (obj : Z) h : heap St :=
  if inuse sl =? 0 then h else
  let was_full := inuse sl =? objects_per_slab k in
  let sl := slab_free_obj k obj sl in
  let h := with_slabs (<[s := sl]> (slabs h)) h in
  let h := upd_cache c (fun k =>
      if active_objects k >? 0
      then with_totals (total_objects k) (active_objects k - 1) (total_slabs k) k else k) h in
  let h := with_stats (total_allocated h) (u64 (total_freed h + object_size k)) h in
  if was_full then upd_cache c (fun k => link_partial s (unlink s k)) h
  else if inuse sl =? 0 then upd_cache c (fun k => link_free s (unlink s k)) h
  else h.

Definition kmem_cache_free (c obj : Z) h : heap St :=
  if (c =? 0) || (obj =? 0) then h else
  match caches h !! c with
  | None => h
  | Some k =>
    if (aligned_size k =? 0) || (objects_per_slab k =? 0) then h else
    let target := match find_slab_in_cache k h obj with
                  | Some s => Some (c, s)
                  | None => find_owner_cache_for_obj h (cache_list h) obj
                  end in
    match target with
    | None => h
    | Some (t, s) =>
      match caches h !! t, slabs h !! s with
      | Some kt, Some sl => put_obj t kt s sl obj h
      | _, _ => h
      end
    end
  end.

(** The loop of [kmem_cache_destroy] and [kmem_cache_shrink] over one list:
    each slab is unlinked and destroyed. *)
Definition destroy_list (c : Z) (l : list Z) h : heap St :=
  fold_left (fun h s =>
    match caches h !! c with
    | Some k => slab_destroy c k s (upd_cache c (unlink s) h)
    | None => h
    end) l h.

Definition kmem_cache_shrink (c : Z) h : Z * heap St :=
  match caches h !! c with
  | None => (0, h)
  | Some k => (Z.of_nat (length (slabs_free k)), destroy_list c (slabs_free k) h)
  end.

(** ** General-purpose allocation *)

Definition find_size_class (size : Z) : Z :=
  match find_range (fun i => size <=? aget size_classes i) 0 NUM_SIZE_CLASSES with
  | Some i => i
  | None => -1
  end.

Definition early_alloc (size : Z) h : Z * heap St :=
  let size := ALIGN_UP size 16 in
  if u64 (early_heap_current h + size) >? early_heap_end h then (0, h) else
  let ptr := early_heap_current h in
  let h := with_early (early_heap_start h) (early_heap_end h)
                      (u64 (early_heap_current h + size)) h in
  (ptr, with_bytes (memset ptr 0 size (bytes h)) h).

(** An allocation from the page allocator, its size stored in front. *)
Definition kmalloc_large (size : Z) h : Z * heap St :=
  let '(ret, need) := zig_u64_add_ok size sizeof_size_t in
  if negb (ret =? 0) || (need >? UINT64_MAX) then (0, h) else
  match zig_pages_for_bytes_ok need PAGE_SIZE with
  | (ret, Some (aligned, pages)) =>
    if negb (ret =? 0) || (aligned >? UINT64_MAX) || (pages >? UINT64_MAX) then (0, h) else
    let '(phys, st) := pa_alloc pages (frames h) in
    let h := with_frames st h in
    if phys =? 0 then (0, h) else
    let ptr := PHYS_TO_VIRT phys in
    (u64 (ptr + sizeof_size_t), with_bytes (store64 ptr size (bytes h)) h)
  | (_, None) => (0, h)
  end.

Definition kmalloc (size : Z) h : Z * heap St :=
  if negb (slab_initialized h) then early_alloc size h else
  if size =? 0 then (0, h) else
  let class := find_size_class size in
  if class >=? 0 then kmem_cache_alloc (aget (size_caches h) class) h
  else kmalloc_large size h.

Definition kzalloc (size : Z) h : Z * heap St :=
  let '(ptr, h) := kmalloc size h in
  if ptr =? 0 then (ptr, h) else (ptr, with_bytes (memset ptr 0 size (bytes h)) h).

Definition kcalloc (n size : Z) h : Z * heap St :=
  let '(ret, total) := zig_u64_mul_ok n size in
  if negb (ret =? 0) then (0, h) else
  if total >? UINT64_MAX then (0, h) else
  kzalloc total h.

(** The loop over the size classes returns in its first iteration, so only
    [size_caches[0]] is passed on and the code for large blocks is not reached. *)
Definition kfree (ptr : Z) h : heap St :=
  if ptr =? 0 then h else
  if negb (slab_initialized h) then h else
  kmem_cache_free (aget (size_caches h) 0) ptr h.

(** Likewise the first size class is the answer for every pointer. *)
Definition kmalloc_usable_size (ptr : Z) : Z :=
  if ptr =? 0 then 0 else aget size_classes 0.

Definition krealloc (ptr size : Z) h : Z * heap St :=
  if ptr =? 0 then kmalloc size h else
  if size =? 0 then (0, kfree ptr h) else
  let '(new_ptr, h) := kmalloc size h in
  if new_ptr =? 0 then (0, h) else
  let old_size := kmalloc_usable_size ptr in
  let h := with_bytes (memcpy new_ptr ptr (Z.min old_size size) (bytes h)) h in
  (new_ptr, kfree ptr h).

(** [strdup] and [strndup] of string.c. *)
Definition strdup (s : Z) h : Z * heap St :=
  let len := u64 (strlen s (bytes h) + 1) in
  let '(new, h) := kmalloc len h in
  if new =? 0 then (new, h) else (new, with_bytes (memcpy new s len (bytes h)) h).

Definition strndup (s n : Z) h : Z * heap St :=
  let len := strnlen s n (bytes h) in
  let '(new, h) := kmalloc (u64 (len + 1)) h in
  if new =? 0 then (new, h) else
  (new, with_bytes (store8 (new + len) 0 (memcpy new s len (bytes h))) h).

(** ** Creation and destruction of caches *)

(** The fields [kmem_cache_create] computes; [None] when no object fits. *)
Definition cache_layout (name size align flags : Z)
    (ctor : option (Z -> memory -> memory)) : option kmem_cache :=
  let align := if align <? 8 then 8 else align in
  let align := if flagb flags SLAB_HWCACHE_ALIGN then Z.max align 64 else align in
  let aligned_size := ALIGN_UP size align in
  let slab_size :=
    if aligned_size <=? PAGE_SIZE / 8 then PAGE_SIZE
    else if aligned_size <=? PAGE_SIZE then PAGE_SIZE * 2
    else ALIGN_UP (u64 (aligned_size + sizeof_slab)) PAGE_SIZE in
  let n := calc_objects_per_slab aligned_size slab_size in
  if n =? 0 then None else
  Some (Cache name size aligned_size align flags n slab_size ctor None [] [] [] 0 0 0).

Definition kmem_cache_create (name size align flags : Z)
    (ctor : option (Z -> memory -> memory)) h : Z * heap St :=
  let '(cache, h) := if slab_initialized h then kmalloc sizeof_kmem_cache h
                     else early_alloc sizeof_kmem_cache h in
  if cache =? 0 then (0, h) else
  match cache_layout name size align flags ctor with
  | None => (0, h)
  | Some k =>
    (cache, with_cache_list (cache :: cache_list h)
              (with_caches (<[cache := k]> (caches h)) h))
  end.

Definition kmem_cache_destroy (c : Z) h : heap St :=
  let lists l h := match caches h !! c with Some k => destroy_list c (l k) h | None => h end in
  let h := lists slabs_full h in
  let h := lists slabs_partial h in
  let h := lists slabs_free h in
  let h := with_cache_list (filter (fun x : Z => x <> c) (cache_list h)) h in
  with_caches (delete c (caches h)) (kfree c h).

(** ** Initialisation *)

(** [None] is a panic. *)
Definition early_heap_init h : option (heap St) :=
  let '(phys, st) := pa_alloc 256 (frames h) in
  let h := with_frames st h in
  let start := PHYS_TO_VIRT phys in
  if start =? 0 then None else
  Some (with_early start (u64 (start + 256 * PAGE_SIZE)) start h).

(** [name] is the stack buffer that every iteration formats a name into. *)
Definition kmalloc_init (name : Z) h : option (heap St) :=
  match early_heap_init h with
  | None => None
  | Some h =>
    let init i o :=
      match o with
      | None => None
      | Some h =>
        let '(c, h) := kmem_cache_create name (aget size_classes i) 8 0 None h in
        let h := with_size_caches (aset (size_caches h) i c) h in
        if c =? 0 then None else Some h
      end in
    match for_range 0 NUM_SIZE_CLASSES init (Some h) with
    | None => None
    | Some h => Some (with_initialized true h)
    end
  end.

(** The statics before [kmalloc_init]. *)
Definition heap_boot (st : St) : heap St :=
  Heap st ∅ ∅ ∅ [] (replicate (Z.to_nat NUM_SIZE_CLASSES) 0) 0 0 0 0 0 false.
End operations.
