(* ===== verification/KmallocHeap.v ===== *)
(** * The invariant of the kernel heap

    The free list of a slab as a list of indices, the invariant of the heap, and
    the specifications of taking, returning, creating and destroying slabs and
    objects against the relation [live] between caches and allocated objects. *)

From S2P Require Import Prelude PageAllocator Pmm SafeArith CString Kmalloc.

(** ** The free list of one slab *)

(** The indices reached from [i] along the links, at most [n] of them. *)
Fixpoint walk (n : nat) (fl : list Z) (i : Z) : list Z :=
  match n with
  | O => []
  | S n => if i =? UINT32_MAX then [] else i :: walk n fl (aget fl i)
  end.

Definition free_objs (sl : slab) : list Z := walk (length (freelist sl)) (freelist sl) (free_idx sl).

(** [l] is the chain that starts at [i]: inside the array, and terminated. *)
Fixpoint linked (fl : list Z) (i : Z) (l : list Z) : Prop :=
  match l with
  | [] => i = UINT32_MAX
  | x :: l => i = x /\ 0 <= x < Z.of_nat (length fl) /\ linked fl (aget fl x) l
  end.

Record slab_ok (k : kmem_cache) (sl : slab) : Prop := {
  so_len : Z.of_nat (length (freelist sl)) = objects_per_slab k;
  so_linked : linked (freelist sl) (free_idx sl) (free_objs sl);
  so_nodup : NoDup (free_objs sl);
  so_inuse : inuse sl = objects_per_slab k - Z.of_nat (length (free_objs sl))
}.

Lemma linked_range fl i l x : linked fl i l -> x ∈ l -> 0 <= x < Z.of_nat (length fl).
Proof.
  revert i. induction l as [|y l IH]; simpl; intros i Hl Hx; [by apply elem_of_nil in Hx|].
  destruct Hl as (_ & ? & Hl). apply elem_of_cons in Hx as [->|]; eauto.
Qed.

Lemma linked_walk fl i l n :
  Z.of_nat (length fl) < 2 ^ 32 -> linked fl i l -> (length l <= n)%nat -> walk n fl i = l.
Proof.
  intros Hlen. revert i n. induction l as [|y l IH]; simpl; intros i n Hl Hn.
  - subst i. by destruct n.
  - destruct Hl as (-> & Hy & Hl). destruct n as [|n]; [lia|]. cbn [walk].
    destruct (Z.eqb_spec y UINT32_MAX); [unfold UINT32_MAX in *; lia|].
    rewrite (IH _ n) by (done || lia). done.
Qed.

Lemma nodup_range_length (l : list Z) n :
  NoDup l -> (forall x, x ∈ l -> 0 <= x < n) -> Z.of_nat (length l) <= Z.max 0 n.
Proof.
  intros Hnd Hr. assert (l ⊆+ seqZ 0 n) as Hs%submseteq_length.
  { apply NoDup_submseteq; [done|]. intros x Hx%Hr. apply elem_of_seqZ. lia. }
  rewrite length_seqZ in Hs. lia.
Qed.

Lemma linked_aset fl i l j x : j ∉ l -> 0 <= j -> linked fl i l -> linked (aset fl j x) i l.
Proof.
  revert i. induction l as [|y l IH]; simpl; intros i Hj Hj0 Hl; [done|].
  destruct Hl as (-> & Hy & Hl). apply not_elem_of_cons in Hj as [Hne Hj].
  rewrite length_aset. split_and!; [done|lia|lia|].
  rewrite aget_aset_ne by (done || lia). auto.
Qed.

(** Building [slab_ok] from a chain. *)
Lemma slab_ok_intro k sl l :
  Z.of_nat (length (freelist sl)) = objects_per_slab k -> objects_per_slab k < 2 ^ 32 ->
  linked (freelist sl) (free_idx sl) l -> NoDup l ->
  inuse sl = objects_per_slab k - Z.of_nat (length l) ->
  slab_ok k sl /\ free_objs sl = l.
Proof.
  intros Hlen Hk Hl Hnd Hin. assert (free_objs sl = l) as He.
  { apply linked_walk; [lia|done|].
    pose proof (nodup_range_length l _ Hnd (fun x => linked_range _ _ _ x Hl)). lia. }
  split; [|done]. split; rewrite ?He; done.
Qed.

(** *** A new slab *)

Lemma init_links n (fl : list Z) :
  Z.of_nat (length fl) = n -> n < 2 ^ 32 ->
  let fl' := for_range 0 n (fun i fl => aset fl i (u32 (i + 1))) fl in
  Z.of_nat (length fl') = n /\ forall i, 0 <= i < n -> aget fl' i = i + 1.
Proof.
  intros Hlen Hn.
  enough (Z.of_nat (length (for_range 0 n (fun i fl => aset fl i (u32 (i + 1))) fl)) = n /\
    forall i, 0 <= i < n -> aget (for_range 0 n (fun i fl => aset fl i (u32 (i + 1))) fl) i = i + 1)
    by done.
  apply (for_range_inv (fun j l => Z.of_nat (length l) = n /\
    forall i, 0 <= i < j -> aget l i = i + 1)); [lia|split; [done|lia]|].
  intros j l Hj [Hl Hi]. rewrite length_aset. split; [done|]. intros i Hr.
  destruct (decide (i = j)) as [->|].
  - rewrite aget_aset_eq by lia. by rewrite u32_small by lia.
  - rewrite aget_aset_ne by lia. apply Hi. lia.
Qed.

Lemma linked_seq fl n m i :
  Z.of_nat (length fl) = n -> i = n - Z.of_nat m -> (0 < m)%nat -> 0 <= i ->
  (forall j, 0 <= j < n - 1 -> aget fl j = j + 1) -> aget fl (n - 1) = UINT32_MAX ->
  linked fl i (seqZ i (Z.of_nat m)).
Proof.
  intros Hlen. revert i. induction m as [|m IH]; intros i Hi Hm Hi0 Hn He; [lia|].
  rewrite seqZ_cons by lia. cbn [linked]. split_and!; [done|lia|lia|].
  replace (Z.pred (Z.of_nat (S m))) with (Z.of_nat m) by lia.
  destruct m as [|m].
  - replace i with (n - 1) by lia. done.
  - rewrite Hn by lia. apply IH; [lia..|done|done].
Qed.

Lemma init_freelist_ok n :
  0 < n < 2 ^ 32 -> Z.of_nat (length (init_freelist n)) = n /\ linked (init_freelist n) 0 (seqZ 0 n).
Proof.
  intros Hn. unfold init_freelist.
  destruct (init_links n (replicate (Z.to_nat n) 0)) as [Hl Hi];
    [rewrite length_replicate; lia|lia|].
  cbv zeta in Hl, Hi. revert Hl Hi. generalize (for_range 0 n (fun i fl => aset fl i (u32 (i + 1)))
    (replicate (Z.to_nat n) 0)). intros fl Hl Hi. split; [by rewrite length_aset|].
  rewrite <- (Z2Nat.id n) at 2 by lia.
  apply (linked_seq _ n); rewrite ?length_aset; try lia.
  - intros j Hj. rewrite aget_aset_ne by lia. apply Hi. lia.
  - apply aget_aset_eq. lia.
Qed.

Lemma slab_new_ok k b c :
  0 < objects_per_slab k < 2 ^ 32 ->
  let sl := Slab b 0 0 (init_freelist (objects_per_slab k)) c in
  slab_ok k sl /\ free_objs sl = seqZ 0 (objects_per_slab k).
Proof.
  intros Hk. destruct (init_freelist_ok _ Hk) as [Hlen Hl].
  apply slab_ok_intro; cbn; [done|lia|done|apply NoDup_seqZ|rewrite length_seqZ; lia].
Qed.

(** *** Geometry of a cache *)

Record cache_ok (k : kmem_cache) : Prop := {
  co_size : 0 < aligned_size k;
  co_objs : 0 < objects_per_slab k < 2 ^ 32;
  co_fits : sizeof_slab + objects_per_slab k * (aligned_size k + 4) <= slab_size k;
  co_pages : slab_size k = slab_size k / PAGE_SIZE * PAGE_SIZE;
  co_small : slab_size k < 2 ^ 63
}.

Lemma cache_ok_pages k : cache_ok k -> 0 < slab_size k / PAGE_SIZE < 2 ^ 64.
Proof. intros []. unfold PAGE_SIZE, sizeof_slab in *. nia. Qed.

(** A slab whose object array does not wrap around. *)
Definition placed (k : kmem_cache) (sl : slab) : Prop :=
  0 < base sl /\ base sl + objects_per_slab k * aligned_size k < 2 ^ 64.

Lemma obj_addr_exact k sl i :
  cache_ok k -> placed k sl -> 0 <= i < objects_per_slab k ->
  obj_addr k sl i = base sl + i * aligned_size k /\
  base sl + (i + 1) * aligned_size k <= base sl + objects_per_slab k * aligned_size k.
Proof.
  intros [Hs _ _ _ _] [Hb He] Hi. assert ((i + 1) * aligned_size k <= objects_per_slab k * aligned_size k)
    by (apply Z.mul_le_mono_nonneg_r; lia).
  split; [|lia]. apply u64_small. split; [nia|]. lia.
Qed.

Lemma slab_alloc_spec k sl :
  cache_ok k -> slab_ok k sl -> inuse sl < objects_per_slab k ->
  exists i sl', slab_alloc_obj k sl = (obj_addr k sl i, sl') /\ 0 <= i < objects_per_slab k /\
    free_objs sl = i :: free_objs sl' /\ slab_ok k sl' /\ inuse sl' = inuse sl + 1 /\
    base sl' = base sl /\ slab_cache sl' = slab_cache sl.
Proof.
  intros Hk [Hlen Hl Hnd Hin] Hlt. pose proof (co_objs k Hk).
  destruct (free_objs sl) as [|i l] eqn:Hf; [simpl in Hin; lia|].
  cbn [linked] in Hl. destruct Hl as (Hi & Hr & Hl). apply NoDup_cons in Hnd as [Hni Hnd].
  unfold slab_alloc_obj. rewrite Hi.
  destruct (Z.eqb_spec i UINT32_MAX); [unfold UINT32_MAX in *; lia|].
  set (sl' := Slab (base sl) (u32 (inuse sl + 1)) (aget (freelist sl) i) (freelist sl) (slab_cache sl)).
  cbn [length] in Hin.
  assert (inuse sl' = inuse sl + 1) as Hin' by (cbn; apply u32_small; pose proof (nodup_range_length l _ Hnd
    (fun x => linked_range _ _ _ x Hl)); lia).
  destruct (slab_ok_intro k sl' l) as [Hok He]; [done|lia|done|done|lia|].
  exists i, sl'. split_and!; try done; try lia. by rewrite He.
Qed.

Lemma slab_free_spec k sl i :
  cache_ok k -> slab_ok k sl -> placed k sl -> 0 <= i < objects_per_slab k -> i ∉ free_objs sl ->
  let sl' := slab_free_obj k (obj_addr k sl i) sl in
  free_objs sl' = i :: free_objs sl /\ slab_ok k sl' /\ inuse sl' = inuse sl - 1 /\ 0 < inuse sl /\
  base sl' = base sl /\ slab_cache sl' = slab_cache sl.
Proof.
  intros Hk Hok Hp Hi Hni sl'. destruct (obj_addr_exact k sl i Hk Hp Hi) as [Ha Hb].
  pose proof (co_size k Hk). pose proof (co_objs k Hk). destruct Hok as [Hlen Hl Hnd Hin], Hp.
  assert (Hidx : sl' = Slab (base sl) (u32 (inuse sl - 1)) i (aset (freelist sl) i (free_idx sl))
    (slab_cache sl)).
  { unfold sl', slab_free_obj. rewrite Ha.
    replace (base sl + i * aligned_size k - base sl) with (i * aligned_size k) by lia.
    rewrite u64_small by nia. rewrite Z.div_mul by lia. by rewrite (u32_small i) by lia. }
  clearbody sl'. subst sl'.
  assert (Hnd' : NoDup (i :: free_objs sl)) by (by apply NoDup_cons).
  assert (Hpos : Z.of_nat (length (i :: free_objs sl)) <= objects_per_slab k).
  { rewrite <- (Z.max_r 0 (objects_per_slab k)) by lia. apply nodup_range_length; [done|].
    intros x [->|Hx]%elem_of_cons; [done|]. rewrite <- Hlen. by eapply linked_range. }
  cbn [length] in Hpos.
  match goal with |- free_objs ?s = _ /\ _ => destruct (slab_ok_intro k s (i :: free_objs sl)) as [Hok' He] end.
  - cbn [freelist]. by rewrite length_aset.
  - lia.
  - cbn [freelist free_idx linked]. rewrite length_aset. split_and!; [done|lia|lia|].
    rewrite aget_aset_eq by lia. apply linked_aset; [done|lia|done].
  - done.
  - cbn [inuse length]. rewrite u32_small by lia. lia.
  - split_and!; try done; [|lia]. cbn. apply u32_small. lia.
Qed.

(** ** The invariant of the heap *)

Definition on_lists (k : kmem_cache) : list Z := slabs_full k ++ slabs_partial k ++ slabs_free k.

(** The first frame of the slab at virtual address [s], and its frames. *)
Definition slab_pfn (s : Z) : Z := (s - KERNEL_PHYS_MAP_BASE) / PAGE_SIZE.
Definition slab_frames (k : kmem_cache) (s : Z) : gset Z :=
  frame_range (slab_pfn s) (slab_size k / PAGE_SIZE).

(** Where a slab lies: on whole frames of the direct map, its header first. *)
Record located (k : kmem_cache) (s : Z) (sl : slab) : Prop := {
  lo_addr : s = KERNEL_PHYS_MAP_BASE + slab_pfn s * PAGE_SIZE;
  lo_pos : 0 < slab_pfn s;
  lo_max : slab_pfn s + slab_size k / PAGE_SIZE <= 2 ^ 20;
  lo_base : base sl = s + sizeof_slab
}.

Lemma located_placed k s sl : cache_ok k -> located k s sl -> placed k sl.
Proof.
  intros [] []. unfold placed, PAGE_SIZE, sizeof_slab, KERNEL_PHYS_MAP_BASE in *. split; [lia|].
  assert (objects_per_slab k * aligned_size k <= objects_per_slab k * (aligned_size k + 4)) by nia.
  lia.
Qed.

(** The fields that fix the layout of the slabs of a cache. *)
Definition same_geom (k k' : kmem_cache) : Prop :=
  aligned_size k' = aligned_size k /\ objects_per_slab k' = objects_per_slab k /\
  slab_size k' = slab_size k.

Section geometry.
Context (k k' : kmem_cache) (Hg : same_geom k k').

Lemma cache_ok_geom : cache_ok k -> cache_ok k'.
Proof. destruct Hg as (Ha & Ho & Hs). intros []. split; rewrite ?Ha, ?Ho, ?Hs; done. Qed.

Lemma slab_ok_geom sl : slab_ok k sl -> slab_ok k' sl.
Proof. destruct Hg as (Ha & Ho & Hs). intros []. split; rewrite ?Ho; done. Qed.

Lemma located_geom s sl : located k s sl -> located k' s sl.
Proof. destruct Hg as (Ha & Ho & Hs). intros []. split; rewrite ?Hs; done. Qed.

Lemma slab_frames_geom s : slab_frames k' s = slab_frames k s.
Proof. destruct Hg as (Ha & Ho & Hs). unfold slab_frames. by rewrite Hs. Qed.

Lemma obj_addr_geom sl sl' i : base sl' = base sl -> obj_addr k' sl' i = obj_addr k sl i.
Proof. destruct Hg as (Ha & Ho & Hs). unfold obj_addr. by intros ->; rewrite Ha. Qed.
End geometry.

Lemma located_slab k s sl sl' : base sl' = base sl -> located k s sl -> located k s sl'.
Proof. intros Hb []. split; congruence. Qed.

(** Membership of the three lists follows the number of objects in use. *)
Definition listed (k : kmem_cache) (s : Z) (sl : slab) : Prop :=
  s ∈ slabs_full k /\ inuse sl = objects_per_slab k \/
  s ∈ slabs_partial k /\ inuse sl < objects_per_slab k \/
  s ∈ slabs_free k /\ inuse sl = 0.

Lemma on_lists_unlink s k : on_lists (unlink s k) = filter (fun x : Z => x <> s) (on_lists k).
Proof. unfold on_lists. by rewrite !filter_app. Qed.

(** The three ways to link a slab. *)
Inductive link_op : (Z -> kmem_cache -> kmem_cache) -> Prop :=
  | op_full : link_op link_full
  | op_partial : link_op link_partial
  | op_free : link_op link_free.

Lemma on_lists_link f s k : link_op f -> on_lists (f s k) ≡ₚ s :: on_lists k.
Proof. intros []; unfold on_lists; cbn; [done|solve_Permutation..]. Qed.

Lemma on_lists_move f s k :
  link_op f -> NoDup (on_lists k) -> s ∈ on_lists k ->
  NoDup (on_lists (f s (unlink s k))) /\ (forall x, x ∈ on_lists (f s (unlink s k)) <-> x ∈ on_lists k).
Proof.
  intros Hf Hnd Hs. rewrite on_lists_link by done. rewrite on_lists_unlink. split.
  - apply NoDup_cons. split; [rewrite list_elem_of_filter; tauto|]. by apply NoDup_filter.
  - intros x. rewrite (on_lists_link f) by done. rewrite on_lists_unlink, elem_of_cons, list_elem_of_filter.
    destruct (decide (x = s)); naive_solver.
Qed.

Lemma listed_on k s sl : listed k s sl -> s ∈ on_lists k.
Proof. unfold listed, on_lists. rewrite !elem_of_app. tauto. Qed.

Lemma listed_move f s k x sl : link_op f -> x <> s -> listed k x sl -> listed (f s (unlink s k)) x sl.
Proof.
  intros [] Hx; unfold listed; cbn; rewrite ?elem_of_cons, ?list_elem_of_filter; tauto.
Qed.

Lemma listed_partial k s sl :
  NoDup (on_lists k) -> listed k s sl -> s ∈ slabs_partial k -> inuse sl < objects_per_slab k.
Proof.
  unfold on_lists. rewrite !NoDup_app. intros (_ & Hd & _ & Hd' & _) [[Hx _]|[[_ ?]|[Hx _]]] Hs; [exfalso|done|exfalso].
  - apply (Hd s Hx). rewrite elem_of_app. by left.
  - by apply (Hd' s).
Qed.

Lemma listed_free k s sl :
  NoDup (on_lists k) -> listed k s sl -> s ∈ slabs_free k -> inuse sl = 0.
Proof.
  unfold on_lists. rewrite !NoDup_app. intros (_ & Hd & _ & Hd' & _) [[Hx _]|[[Hx _]|[_ ?]]] Hs; [exfalso|exfalso|done].
  - apply (Hd s Hx). rewrite elem_of_app. by right.
  - by apply (Hd' s).
Qed.

Section heap.
Context {St : Type} `{PageAllocator St}.
Implicit Types (h : heap St) (X : gset Z).

(** What holds of one slab [s] of the heap. *)
Record slab_in X h (s : Z) (sl : slab) (k : kmem_cache) : Prop := {
  si_cache : caches h !! slab_cache sl = Some k;
  si_ok : slab_ok k sl;
  si_located : located k s sl;
  si_listed : listed k s sl;
  si_frames : forall p, p ∈ slab_frames k s ->
    pa_managed (frames h) p /\ (p ∉ pa_frames (frames h)) /\ p ∉ X
}.

(** What holds of one cache [c]. *)
Record cache_in h (c : Z) (k : kmem_cache) : Prop := {
  ci_ok : cache_ok k;
  ci_null : c <> 0;
  ci_list : c ∈ cache_list h;
  ci_nodup : NoDup (on_lists k);
  ci_slabs : forall s, s ∈ on_lists k -> exists sl, slabs h !! s = Some sl /\ slab_cache sl = c
}.

(** [X] is the set of frames held by other owners: disjoint from the free
    frames and from the slabs. *)
Record heap_ok X h : Prop := {
  ho_pa : pa_inv (frames h);
  ho_others : X ## pa_frames (frames h);
  ho_cache : forall c k, caches h !! c = Some k -> cache_in h c k;
  ho_slab : forall s sl, slabs h !! s = Some sl -> exists k, slab_in X h s sl k;
  ho_disjoint : forall s s' sl sl' k k', s <> s' ->
    slabs h !! s = Some sl -> slabs h !! s' = Some sl' ->
    caches h !! slab_cache sl = Some k -> caches h !! slab_cache sl' = Some k' ->
    slab_frames k s ## slab_frames k' s'
}.

(** [p] is an allocated object of cache [c], in the slab [s]. *)
Definition live_at h (s c p : Z) : Prop :=
  exists sl k i, slabs h !! s = Some sl /\ slab_cache sl = c /\ caches h !! c = Some k /\
    0 <= i < objects_per_slab k /\ (i ∉ free_objs sl) /\ p = obj_addr k sl i.

Definition live h (c p : Z) : Prop := exists s, live_at h s c p.

Lemma slab_in_of X h s sl k :
  heap_ok X h -> slabs h !! s = Some sl -> caches h !! slab_cache sl = Some k ->
  slab_in X h s sl k /\ cache_ok k.
Proof.
  intros Hh Hs Hc. destruct (ho_slab _ _ Hh s sl Hs) as [k' Hin].
  assert (k' = k) as -> by (destruct Hin; congruence).
  split; [done|]. by apply (ho_cache _ _ Hh _ _ Hc).
Qed.

(** *** Addresses identify objects *)

Lemma obj_in_slab X h s sl k i :
  slab_in X h s sl k -> cache_ok k -> 0 <= i < objects_per_slab k ->
  obj_addr k sl i = s + sizeof_slab + i * aligned_size k /\
  obj_addr k sl i + aligned_size k <= s + sizeof_slab + objects_per_slab k * aligned_size k /\
  obj_addr k sl i + aligned_size k <= s + slab_size k.
Proof.
  intros [] Hk Hi. destruct (obj_addr_exact k sl i Hk (located_placed _ _ _ Hk si_located0) Hi) as [Ha Hb].
  destruct si_located0 as [_ _ _ Hbase], Hk. rewrite Hbase in Ha, Hb. rewrite Ha.
  assert (objects_per_slab k * aligned_size k <= objects_per_slab k * (aligned_size k + 4)) by nia.
  lia.
Qed.

Lemma obj_addr_pos X h s sl k i :
  slab_in X h s sl k -> cache_ok k -> 0 <= i < objects_per_slab k -> 0 < obj_addr k sl i.
Proof.
  intros Hin Hk Hi. destruct (obj_in_slab X h s sl k i Hin Hk Hi) as (-> & _ & _).
  destruct (si_located _ _ _ _ _ Hin) as [Hs ? _ _]. pose proof (co_size k Hk).
  assert (0 <= i * aligned_size k) by nia. unfold KERNEL_PHYS_MAP_BASE, PAGE_SIZE, sizeof_slab in *. lia.
Qed.

Lemma slab_ranges_disjoint X h s s' sl sl' k k' :
  heap_ok X h -> slab_in X h s sl k -> slab_in X h s' sl' k' ->
  slabs h !! s = Some sl -> slabs h !! s' = Some sl' -> s <> s' ->
  s + slab_size k <= s' \/ s' + slab_size k' <= s.
Proof.
  intros Hh Hs Hs' Hl Hl' Hne.
  pose proof (ho_disjoint _ _ Hh s s' sl sl' k k' Hne Hl Hl' (si_cache _ _ _ _ _ Hs) (si_cache _ _ _ _ _ Hs')) as Hd.
  destruct (slab_in_of _ _ _ _ _ Hh Hl (si_cache _ _ _ _ _ Hs)) as [_ Hk].
  destruct (slab_in_of _ _ _ _ _ Hh Hl' (si_cache _ _ _ _ _ Hs')) as [_ Hk'].
  destruct (si_located _ _ _ _ _ Hs) as [Ha _ _ _], (si_located _ _ _ _ _ Hs') as [Ha' _ _ _].
  pose proof (cache_ok_pages k Hk). pose proof (cache_ok_pages k' Hk').
  pose proof (co_pages k Hk). pose proof (co_pages k' Hk').
  destruct (Z.le_gt_cases (slab_pfn s + slab_size k / PAGE_SIZE) (slab_pfn s')); [left; unfold PAGE_SIZE in *; lia|].
  destruct (Z.le_gt_cases (slab_pfn s' + slab_size k' / PAGE_SIZE) (slab_pfn s)); [right; unfold PAGE_SIZE in *; lia|].
  exfalso. apply (Hd (Z.max (slab_pfn s) (slab_pfn s'))); apply elem_of_frame_range; lia.
Qed.

(** Two objects that share a byte are the same slot of the same slab. *)
Lemma obj_unique X h s s' sl sl' k k' i i' :
  heap_ok X h -> slabs h !! s = Some sl -> slabs h !! s' = Some sl' ->
  slab_in X h s sl k -> slab_in X h s' sl' k' -> 0 <= i < objects_per_slab k -> 0 <= i' < objects_per_slab k' ->
  obj_addr k sl i < obj_addr k' sl' i' + aligned_size k' ->
  obj_addr k' sl' i' < obj_addr k sl i + aligned_size k -> s = s' /\ i = i'.
Proof.
  intros Hh Hl Hl' Hs Hs' Hi Hi' H1 H2.
  destruct (slab_in_of _ _ _ _ _ Hh Hl (si_cache _ _ _ _ _ Hs)) as [_ Hk].
  destruct (slab_in_of _ _ _ _ _ Hh Hl' (si_cache _ _ _ _ _ Hs')) as [_ Hk'].
  destruct (obj_in_slab _ _ _ _ _ _ Hs Hk Hi) as (Ha & _ & Hb).
  destruct (obj_in_slab _ _ _ _ _ _ Hs' Hk' Hi') as (Ha' & _ & Hb').
  pose proof (co_size _ Hk). pose proof (co_size _ Hk'). unfold sizeof_slab in *.
  destruct (decide (s = s')) as [<-|Hne].
  - assert (sl' = sl) as -> by congruence.
    assert (k' = k) as -> by (destruct Hs, Hs'; congruence). split; [done|]. nia.
  - destruct (slab_ranges_disjoint _ _ _ _ _ _ _ _ Hh Hs Hs' Hl Hl' Hne); nia.
Qed.

(** *** Updating one slab and its cache *)

(** The slab [s] becomes [sl'] and its cache [k'], nothing else changes. *)
Record step_at h h' (c s : Z) (k k' : kmem_cache) (sl sl' : slab) : Prop := {
  st_frames : frames h' = frames h;
  st_list : cache_list h' = cache_list h;
  st_caches : caches h' = <[c := k']> (caches h);
  st_slabs : slabs h' = <[s := sl']> (slabs h);
  st_cache : caches h !! c = Some k;
  st_slab : slabs h !! s = Some sl;
  st_owner : slab_cache sl = c;
  st_geom : same_geom k k';
  st_base : base sl' = base sl;
  st_owner' : slab_cache sl' = c;
  st_nodup : NoDup (on_lists k');
  st_perm : forall x, x ∈ on_lists k' -> x ∈ on_lists k;
  st_listed : listed k' s sl';
  st_others : forall x slx, x <> s -> listed k x slx -> listed k' x slx
}.

(** The other slabs keep what [slab_in] says of them. *)
Lemma step_slab_in X h h' c s k k' sl sl' x slx kx :
  step_at h h' c s k k' sl sl' -> x <> s -> slab_in X h x slx kx ->
  exists kx', slab_in X h' x slx kx' /\ same_geom kx kx'.
Proof.
  intros [] Hx [Hc Ho Hl Hli Hf]. destruct (decide (slab_cache slx = c)) as [He|Hne].
  - assert (kx = k) as -> by congruence. exists k'. split; [|done].
    split; rewrite ?st_caches0, ?st_frames0.
    + by rewrite He, lookup_insert_eq.
    + by eapply slab_ok_geom.
    + by eapply located_geom.
    + by apply st_others0.
    + by rewrite (slab_frames_geom k k').
  - exists kx. split; [|done]. split; rewrite ?st_caches0, ?st_frames0; try done.
    by rewrite lookup_insert_ne by congruence.
Qed.

Lemma step_heap_ok X h h' c s k k' sl sl' :
  heap_ok X h -> step_at h h' c s k k' sl sl' -> slab_ok k' sl' -> heap_ok X h'.
Proof.
  intros Hh Hst Hok. pose proof Hst as [].
  destruct (slab_in_of X h s sl k Hh) as [Hin Hk]; [done|congruence|].
  assert (Hsin : slab_in X h' s sl' k').
  { destruct Hin as [Hc Ho Hl Hli Hf]. split; rewrite ?st_caches0, ?st_frames0; try done.
    - by rewrite st_owner'0, lookup_insert_eq.
    - eapply located_geom; [done|]. by eapply located_slab.
    - by rewrite (slab_frames_geom k k'). }
  assert (Hgeom : forall x slx kx', slabs h' !! x = Some slx -> caches h' !! slab_cache slx = Some kx' ->
    exists sl0 kx, slabs h !! x = Some sl0 /\ caches h !! slab_cache sl0 = Some kx /\ same_geom kx kx').
  { intros x slx kx'. rewrite st_slabs0, st_caches0. intros [[<- <-]|[Hne Hx]]%lookup_insert_Some.
    - rewrite st_owner'0, lookup_insert_eq. intros [= <-]. exists sl, k. by rewrite st_owner0.
    - intros [[He <-]|[Hne' Hc]]%lookup_insert_Some; [exists slx, k; by rewrite <- He|by exists slx, kx']. }
  split.
  - rewrite st_frames0. apply Hh.
  - rewrite st_frames0. apply Hh.
  - intros c' k0. rewrite st_caches0. intros Hc'.
    assert (Hsl : forall x slx, slabs h !! x = Some slx ->
      exists slx', slabs h' !! x = Some slx' /\ slab_cache slx' = slab_cache slx).
    { intros x slx Hx. rewrite st_slabs0. destruct (decide (x = s)) as [->|].
      - exists sl'. rewrite lookup_insert_eq. split; [done|]. congruence.
      - exists slx. by rewrite lookup_insert_ne. }
    apply lookup_insert_Some in Hc' as [[<- <-]|[Hne Hc']].
    + destruct (ho_cache _ _ Hh c k st_cache0) as [? ? ? ? Hs]. split; rewrite ?st_list0; try done.
      * by eapply cache_ok_geom.
      * intros x (slx & Hx & Hcx)%st_perm0%Hs. destruct (Hsl _ _ Hx) as (slx' & ? & ?). exists slx'. split; congruence.
    + destruct (ho_cache _ _ Hh c' k0 Hc') as [? ? ? ? Hs]. split; rewrite ?st_list0; try done.
      intros x (slx & Hx & Hcx)%Hs. destruct (Hsl _ _ Hx) as (slx' & ? & ?). exists slx'. split; congruence.
  - intros x slx. rewrite st_slabs0. intros [[<- <-]|[Hne Hx]]%lookup_insert_Some; [by exists k'|].
    destruct (ho_slab _ _ Hh x slx Hx) as [kx Hkx].
    destruct (step_slab_in X h h' c s k k' sl sl' x slx kx Hst (not_eq_sym Hne) Hkx) as (kx' & ? & _). eauto.
  - intros x y slx sly kx ky Hne Hx Hy Hkx Hky.
    destruct (Hgeom _ _ _ Hx Hkx) as (sx & k1 & ? & ? & G1). destruct (Hgeom _ _ _ Hy Hky) as (sy & k2 & ? & ? & G2).
    rewrite (slab_frames_geom k1 kx), (slab_frames_geom k2 ky) by done. by apply (ho_disjoint _ _ Hh x y sx sy).
Qed.

(** How the live objects change, from how the free indices of the slab do. *)
Lemma step_live h h' c s k k' sl sl' c' p :
  step_at h h' c s k k' sl sl' ->
  live h' c' p <->
  (exists x, x <> s /\ live_at h x c' p) \/
  (c' = c /\ exists i, 0 <= i < objects_per_slab k /\ (i ∉ free_objs sl') /\ p = obj_addr k sl i).
Proof.
  intros []. pose proof st_geom0 as (Ga & Go & Gs). unfold live, live_at.
  rewrite st_slabs0, st_caches0. split.
  - intros (x & slx & kx & i & Hx & Hc & Hk & Hi & Hf & ->).
    apply lookup_insert_Some in Hx as [[<- <-]|[Hne Hx]].
    + right. rewrite st_owner'0 in Hc. subst c'. split; [done|]. rewrite lookup_insert_eq in Hk. injection Hk as <-.
      exists i. rewrite Go in Hi. split_and!; [lia|lia|done|]. by apply obj_addr_geom.
    + left. exists x. split; [done|]. exists slx. apply lookup_insert_Some in Hk as [[<- <-]|[Hne' Hk]].
      * exists k, i. rewrite Go in Hi. split_and!; try done; try lia. by apply obj_addr_geom.
      * by exists kx, i.
  - intros [(x & Hne & slx & kx & i & Hx & Hc & Hk & Hi & Hf & ->)|(-> & i & Hi & Hf & ->)].
    + exists x, slx. destruct (decide (c' = c)) as [->|Hcne].
      * exists k', i. assert (kx = k) as -> by congruence.
        rewrite lookup_insert_ne, lookup_insert_eq by done. rewrite Go. split_and!; try done; try lia.
        symmetry. by apply obj_addr_geom.
      * exists kx, i. rewrite !lookup_insert_ne by done. done.
    + exists s, sl', k', i. rewrite !lookup_insert_eq, Go. split_and!; try done; try lia.
      symmetry. by apply obj_addr_geom.
Qed.

Lemma live_split h c s sl k c' p :
  slabs h !! s = Some sl -> slab_cache sl = c -> caches h !! c = Some k ->
  live h c' p <->
  (exists x, x <> s /\ live_at h x c' p) \/
  (c' = c /\ exists i, 0 <= i < objects_per_slab k /\ (i ∉ free_objs sl) /\ p = obj_addr k sl i).
Proof.
  intros Hs Hc Hk. unfold live. split.
  - intros (x & slx & kx & i & Hx & Hcx & Hkx & Hi & Hf & ->). destruct (decide (x = s)) as [->|].
    + right. assert (slx = sl) as -> by congruence. assert (kx = k) as -> by congruence.
      split; [congruence|]. by exists i.
    + left. exists x. split; [done|]. by exists slx, kx, i.
  - intros [(x & _ & Hx)|(-> & i & Hi)]; [by exists x|by exists s, sl, k, i].
Qed.

Lemma alter_is_insert (m : gmap Z kmem_cache) c f k :
  m !! c = Some k -> alter f c m = <[c := f k]> m.
Proof.
  intros Hk. apply map_eq. intros j.
  destruct (decide (j = c)) as [->|]; [rewrite lookup_alter_eq, lookup_insert_eq, Hk; done|].
  by rewrite lookup_alter_ne, lookup_insert_ne.
Qed.

Lemma alter_twice (m : gmap Z kmem_cache) c f g k :
  m !! c = Some k -> alter g c (alter f c m) = <[c := g (f k)]> m.
Proof. intros Hk. rewrite (alter_is_insert m c f k Hk). apply alter_insert_eq. Qed.

Lemma upd_cache_lookup c f h k :
  caches h !! c = Some k -> caches (upd_cache c f h) !! c = Some (f k).
Proof. intros Hk. cbn. by rewrite lookup_alter_eq, Hk. Qed.

(** *** Taking and returning an object *)

Lemma take_obj_step X h c s k k0 sl :
  heap_ok X h -> caches h !! c = Some k0 -> same_geom k0 k -> slabs h !! s = Some sl ->
  slab_cache sl = c -> s ∈ slabs_partial k0 -> inuse sl < objects_per_slab k0 ->
  exists i k' sl', step_at h (take_obj c k s sl h).2 c s k0 k' sl sl' /\ slab_ok k' sl' /\
    (take_obj c k s sl h).1 = obj_addr k0 sl i /\ 0 <= i < objects_per_slab k0 /\
    free_objs sl = i :: free_objs sl'.
Proof.
  intros Hh Hc (Ga & Go & Gs) Hs Ho Hp Hin. destruct (ho_cache _ _ Hh _ _ Hc) as [Hk _ _ Hnd _].
  destruct (slab_in_of X h s sl k0 Hh Hs) as [Hsl _]; [congruence|].
  destruct (slab_alloc_spec k0 sl Hk (si_ok _ _ _ _ _ Hsl) Hin) as (i & sl' & He & Hi & Hf & Hok & Hu & Hb & Hco).
  assert (Hal : slab_alloc_obj k sl = (obj_addr k0 sl i, sl')).
  { rewrite <- He. unfold slab_alloc_obj, obj_addr. by rewrite Ga. }
  set (k1 := with_totals (total_objects k0) (u64 (active_objects k0 + 1)) (total_slabs k0) k0).
  assert (s ∈ on_lists k0) by (unfold on_lists; rewrite !elem_of_app; tauto).
  exists i, (if inuse sl' =? objects_per_slab k then link_full s (unlink s k1) else k1), sl'.
  unfold take_obj. rewrite Hal. cbn [fst snd]. split_and!; [|destruct (_ =? _); apply (slab_ok_geom k0); by try split_and!|done|lia|lia|done].
  destruct (Z.eqb_spec (inuse sl') (objects_per_slab k)) as [Hfull|Hnf].
  - destruct (on_lists_move link_full s k1 op_full Hnd) as [Hnd' Hel]; [done|].
    split; try done; cbn; try congruence.
    + by rewrite (alter_twice _ _ _ _ k0).
    + intros x Hx. by apply Hel.
    + left. cbn. rewrite elem_of_cons. split; [by left|congruence].
    + intros x slx Hx Hl. by apply (listed_move link_full); [constructor|..].
  - split; try done; cbn; try congruence.
    + by rewrite (alter_is_insert _ c _ k0).
    + right; left. split; [done|]. cbn. lia.
Qed.

Lemma put_obj_step X h c s k sl i :
  heap_ok X h -> caches h !! c = Some k -> slabs h !! s = Some sl -> slab_cache sl = c ->
  0 <= i < objects_per_slab k -> i ∉ free_objs sl ->
  exists k' sl', step_at h (put_obj c k s sl (obj_addr k sl i) h) c s k k' sl sl' /\ slab_ok k' sl' /\
    free_objs sl' = i :: free_objs sl.
Proof.
  intros Hh Hc Hs Ho Hi Hni. destruct (ho_cache _ _ Hh _ _ Hc) as [Hk _ _ Hnd _].
  destruct (slab_in_of X h s sl k Hh Hs) as [[_ Hok Hloc Hli _] _]; [congruence|].
  destruct (slab_free_spec k sl i Hk Hok (located_placed _ _ _ Hk Hloc) Hi Hni) as (Hf & Hok' & Hu & Hpos & Hb & Hco).
  unfold put_obj. destruct (Z.eqb_spec (inuse sl) 0); [lia|].
  set (sl' := slab_free_obj k (obj_addr k sl i) sl) in *. clearbody sl'.
  set (k1 := if active_objects k >? 0
    then with_totals (total_objects k) (active_objects k - 1) (total_slabs k) k else k).
  assert (Hl1 : on_lists k1 = on_lists k /\ same_geom k k1 /\ slabs_partial k1 = slabs_partial k /\
    forall x slx, listed k1 x slx <-> listed k x slx) by (unfold k1; by destruct (_ >? _)).
  destruct Hl1 as (El & Hg & Ep & Hli1). pose proof (listed_on _ _ _ Hli) as Hson.
  assert (Hmv : forall f, link_op f -> inuse sl' = inuse sl - 1 -> listed (f s (unlink s k1)) s sl' ->
    exists k' : kmem_cache, slab_ok k' sl' /\
    step_at h (upd_cache c (fun k => f s (unlink s k)) (with_stats (total_allocated h)
       (u64 (total_freed h + object_size k)) (upd_cache c (fun k => if active_objects k >? 0
          then with_totals (total_objects k) (active_objects k - 1) (total_slabs k) k else k)
       (with_slabs (<[s := sl']> (slabs h)) h)))) c s k k' sl sl').
  { intros f Hlf _ Hlst. rewrite <- El in Hnd, Hson. destruct (on_lists_move f s k1 Hlf Hnd Hson) as [Hnd' Hel].
    assert (same_geom k (f s (unlink s k1))) by (destruct Hg as (? & ? & ?); destruct Hlf; split_and!; cbn; done).
    exists (f s (unlink s k1)). split; [by eapply slab_ok_geom|]. split; try done; cbn; try congruence.
    - by rewrite (alter_twice _ _ _ _ k).
    - intros x. rewrite Hel, El. done.
    - intros x slx Hx Hl. apply (listed_move f); [done..|]. by apply Hli1. }
  destruct (Z.eqb_spec (inuse sl) (objects_per_slab k)) as [Hfull|Hnf];
    [|destruct (Z.eqb_spec (inuse sl') 0) as [Hz|Hnz]].
  - destruct (Hmv link_partial op_partial Hu) as (k' & ? & ?); [|by exists k', sl'].
    right; left. cbn. rewrite elem_of_cons. split; [by left|]. destruct Hg as (_ & -> & _). lia.
  - destruct (Hmv link_free op_free Hu) as (k' & ? & ?); [|by exists k', sl'].
    right; right. cbn. rewrite elem_of_cons. split; [by left|done].
  - exists k1, sl'. split_and!; [|by eapply slab_ok_geom|done]. split; try done; cbn; try congruence.
    + by rewrite (alter_is_insert _ c _ k).
    + right; left. rewrite Ep. destruct Hg as (_ & -> & _). destruct Hli as [[_ ?]|[[? ?]|[_ ?]]]; [lia|split; [done|lia]|lia].
    + intros x slx Hx. apply Hli1.
Qed.

(** *** Finding the slab of an object *)

Lemma slab_contains_spec X h s sl k p :
  slab_in X h s sl k -> cache_ok k ->
  slab_contains_obj k sl p = true <-> exists i, 0 <= i < objects_per_slab k /\ p = obj_addr k sl i.
Proof.
  intros Hin Hk. pose proof (located_placed k s sl Hk (si_located _ _ _ _ _ Hin)) as Hp.
  pose proof (co_size k Hk). pose proof (co_objs k Hk). pose proof Hp as [Hb Hw].
  unfold slab_contains_obj. rewrite u64_small by nia. split.
  - destruct (Z.eqb_spec p 0); [done|].
    destruct ((p <? base sl) || (p >=? base sl + objects_per_slab k * aligned_size k)) eqn:Hr; [done|].
    zbool. intros Hm%Z.eqb_eq. pose proof (Z.div_mod (p - base sl) (aligned_size k) ltac:(lia)) as Hd.
    rewrite Hm in Hd. set (i := (p - base sl) / aligned_size k) in *.
    exists i. assert (0 <= i < objects_per_slab k) as Hi by nia. split; [done|].
    destruct (obj_addr_exact k sl i Hk Hp Hi) as [-> _]. lia.
  - intros (i & Hi & ->). destruct (obj_addr_exact k sl i Hk Hp Hi) as [-> Hle].
    destruct (Z.eqb_spec (base sl + i * aligned_size k) 0); [nia|].
    replace (base sl + i * aligned_size k - base sl) with (i * aligned_size k) by lia.
    rewrite Z.mod_mul by lia.
    destruct (Z.ltb_spec (base sl + i * aligned_size k) (base sl)); [nia|].
    destruct (Z.geb_spec (base sl + i * aligned_size k) (base sl + objects_per_slab k * aligned_size k)); [nia|done].
Qed.

Section find.
Context (X : gset Z) (h : heap St) (Hh : heap_ok X h).
Context (s : Z) (sl : slab) (k : kmem_cache) (i : Z).
Context (Hs : slabs h !! s = Some sl) (Hk : caches h !! slab_cache sl = Some k).
Context (Hi : 0 <= i < objects_per_slab k).

(** Only the slab [s] contains the object. *)
Lemma contains_unique s' sl' k' :
  slabs h !! s' = Some sl' -> caches h !! slab_cache sl' = Some k' ->
  slab_contains_obj k' sl' (obj_addr k sl i) = true <-> s' = s.
Proof.
  intros Hs' Hk'. destruct (slab_in_of _ _ _ _ _ Hh Hs Hk) as [Hin Hok].
  destruct (slab_in_of _ _ _ _ _ Hh Hs' Hk') as [Hin' Hok'].
  rewrite (slab_contains_spec X h s' sl' k') by done. split.
  - intros (i' & Hi' & He). pose proof (co_size k Hok). pose proof (co_size k' Hok').
    destruct (obj_unique X h s s' sl sl' k k' i i'); [done..|lia|lia|done].
  - intros ->. assert (sl' = sl) as -> by congruence. assert (k' = k) as -> by congruence. by exists i.
Qed.

Lemma find_in_list c k' l :
  caches h !! c = Some k' -> (forall x, x ∈ l -> exists slx, slabs h !! x = Some slx /\ slab_cache slx = c) ->
  find_slab_in_list k' h l (obj_addr k sl i) = if decide (s ∈ l) then Some s else None.
Proof.
  intros Hc. induction l as [|x l IH]; intros Hl; [done|]. cbn [find_slab_in_list].
  destruct (Hl x) as (slx & Hx & Hcx); [by left|]. rewrite Hx.
  assert (Hu := contains_unique x slx k' Hx ltac:(congruence)).
  destruct (slab_contains_obj k' slx (obj_addr k sl i)) eqn:Hb.
  - assert (x = s) as -> by tauto. rewrite decide_True by (by left). done.
  - assert (x <> s) by (intros ->; by destruct Hu as [_ Hu]; specialize (Hu eq_refl)).
    rewrite IH by (intros; apply Hl; by right).
    destruct (decide (s ∈ l)), (decide (s ∈ x :: l)) as [Hin|Hin]; try done.
    + exfalso. apply Hin. by right.
    + apply elem_of_cons in Hin as [->|]; done.
Qed.

Lemma find_in_cache c k' :
  caches h !! c = Some k' ->
  find_slab_in_cache k' h (obj_addr k sl i) = if decide (c = slab_cache sl) then Some s else None.
Proof.
  intros Hc. destruct (ho_cache _ _ Hh _ _ Hc) as [_ _ _ _ Hsl]. unfold on_lists in Hsl.
  unfold find_slab_in_cache. rewrite !(find_in_list c k') by (done || (intros; apply Hsl; rewrite !elem_of_app; tauto)).
  destruct (slab_in_of _ _ _ _ _ Hh Hs Hk) as [[_ _ _ Hli _] _]. apply listed_on in Hli. unfold on_lists in Hli.
  rewrite !elem_of_app in Hli.
  destruct (decide (c = slab_cache sl)) as [->|Hne].
  - assert (k' = k) as -> by congruence. repeat case_decide; try done. tauto.
  - assert (forall l : list Z, (forall x, x ∈ l -> x ∈ slabs_full k' ++ slabs_partial k' ++ slabs_free k') -> s ∉ l) as Hno.
    { intros l Hl Hin. destruct (Hsl s (Hl s Hin)) as (slx & ? & ?). congruence. }
    rewrite !decide_False; [done|apply Hno; intros; rewrite !elem_of_app; tauto..].
Qed.

Lemma find_owner l :
  slab_cache sl ∈ l -> find_owner_cache_for_obj h l (obj_addr k sl i) = Some (slab_cache sl, s).
Proof.
  induction l as [|c l IH]; intros Hl; [by apply elem_of_nil in Hl|]. cbn [find_owner_cache_for_obj].
  destruct (caches h !! c) as [k'|] eqn:Hc.
  - rewrite (find_in_cache c k') by done. destruct (decide (c = slab_cache sl)) as [->|]; [done|].
    apply IH. apply elem_of_cons in Hl as [?|]; [congruence|done].
  - apply IH. apply elem_of_cons in Hl as [?|]; [congruence|done].
Qed.
End find.

(** *** A new slab *)

(** Two states of the page allocator that differ in the metadata only. *)
Definition same_frames (st st' : St) : Prop :=
  pa_inv st' /\ pa_frames st' = pa_frames st /\ forall p, pa_managed st' p <-> pa_managed st p.

Lemma same_frames_trans st1 st2 st3 : same_frames st1 st2 -> same_frames st2 st3 -> same_frames st1 st3.
Proof.
  intros (_ & F1 & M1) (I2 & F2 & M2). split_and!; [done|congruence|]. intros. by rewrite M2.
Qed.

Lemma tag_new_same n phys st :
  pa_inv st -> same_frames st (for_range 0 n (fun i st =>
      pa_update_flags (u64 (phys + i * PAGE_SIZE)) (Z.lor PAGE_FLAG_SLAB PAGE_FLAG_KERNEL) 0
        (pa_set_owner (u64 (phys + i * PAGE_SIZE)) PAGE_OWNER_SLAB st)) st).
Proof.
  intros Hi. apply for_range_pres; [by split_and!|]. intros i st' _ Hs.
  eapply same_frames_trans; [done|]. destruct Hs as (Hi' & _).
  destruct (pa_tag_spec st' (u64 (phys + i * PAGE_SIZE)) PAGE_OWNER_SLAB 0 Hi') as [H1 _].
  eapply same_frames_trans; [exact H1|]. by apply pa_tag_spec, H1.
Qed.

Lemma tag_old_same n phys st :
  pa_inv st -> same_frames st (for_range 0 n (fun i st =>
      pa_update_flags (u64 (phys + i * PAGE_SIZE)) 0 PAGE_FLAG_SLAB st) st).
Proof.
  intros Hi. apply for_range_pres; [by split_and!|]. intros i st' _ Hs.
  eapply same_frames_trans; [done|]. destruct Hs as (Hi' & _). by apply pa_tag_spec.
Qed.

(** A block of frames handed out by the page allocator, seen in the direct map. *)
Lemma block_located st n a :
  pa_inv st -> 0 < n -> frame_range a n ⊆ pa_frames st ->
  PHYS_TO_VIRT (a * PAGE_SIZE) = KERNEL_PHYS_MAP_BASE + a * PAGE_SIZE /\
  slab_pfn (PHYS_TO_VIRT (a * PAGE_SIZE)) = a /\ 0 < a /\ a + n <= 2 ^ 20.
Proof.
  intros Hi Hn Hsub.
  destruct (pa_frames_managed st a Hi) as [_ Ha]; [apply Hsub, elem_of_frame_range; lia|].
  destruct (pa_frames_managed st (a + n - 1) Hi) as [_ Hb]; [apply Hsub, elem_of_frame_range; lia|].
  assert (He : PHYS_TO_VIRT (a * PAGE_SIZE) = KERNEL_PHYS_MAP_BASE + a * PAGE_SIZE).
  { unfold PHYS_TO_VIRT. rewrite u64_small; unfold PAGE_SIZE, KERNEL_PHYS_MAP_BASE; lia. }
  split_and!; [done| |lia|lia]. unfold slab_pfn. rewrite He.
  replace (KERNEL_PHYS_MAP_BASE + a * PAGE_SIZE - KERNEL_PHYS_MAP_BASE) with (a * PAGE_SIZE) by lia.
  by apply Z.div_mul.
Qed.

(** The slab [s], with every object free, joins the partial list of [c]. *)
Record grow_at h h' (c s : Z) (k k' : kmem_cache) (sl : slab) : Prop := {
  gr_list : cache_list h' = cache_list h;
  gr_caches : caches h' = <[c := k']> (caches h);
  gr_slabs : slabs h' = <[s := sl]> (slabs h);
  gr_cache : caches h !! c = Some k;
  gr_owner : slab_cache sl = c;
  gr_geom : same_geom k k';
  gr_full : slabs_full k' = slabs_full k;
  gr_partial : slabs_partial k' = s :: slabs_partial k;
  gr_free : slabs_free k' = slabs_free k;
  gr_ok : slab_ok k sl;
  gr_objs : free_objs sl = seqZ 0 (objects_per_slab k);
  gr_located : located k s sl;
  gr_inv : pa_inv (frames h');
  gr_taken : slab_frames k s ⊆ pa_frames (frames h);
  gr_frames : pa_frames (frames h') = pa_frames (frames h) ∖ slab_frames k s;
  gr_managed : forall p, pa_managed (frames h') p <-> pa_managed (frames h) p
}.

Lemma grow_fresh X h h' c s k k' sl : heap_ok X h -> grow_at h h' c s k k' sl -> slabs h !! s = None.
Proof.
  intros Hh []. destruct (slabs h !! s) as [sl0|] eqn:Hs; [|done]. exfalso.
  destruct (ho_slab _ _ Hh _ _ Hs) as [k0 [Hc0 _ _ _ Hf]].
  pose proof (cache_ok_pages _ (ci_ok _ _ _ (ho_cache _ _ Hh _ _ gr_cache0))).
  pose proof (cache_ok_pages _ (ci_ok _ _ _ (ho_cache _ _ Hh _ _ Hc0))).
  destruct (Hf (slab_pfn s)) as (_ & Hno & _); [apply elem_of_frame_range; lia|].
  apply Hno, gr_taken0, elem_of_frame_range. lia.
Qed.

Lemma grow_slab_in X h h' c s k k' sl x slx kx :
  heap_ok X h -> grow_at h h' c s k k' sl -> slabs h !! x = Some slx -> slab_in X h x slx kx ->
  exists kx', slab_in X h' x slx kx' /\ same_geom kx kx'.
Proof.
  intros Hh Hg Hx [Hc Ho Hl Hli Hf]. pose proof (grow_fresh _ _ _ _ _ _ _ _ Hh Hg) as Hfr.
  destruct Hg. assert (x <> s) by congruence.
  assert (Hf' : forall p, p ∈ slab_frames kx x ->
    pa_managed (frames h') p /\ (p ∉ pa_frames (frames h')) /\ p ∉ X).
  { intros p (? & ? & ?)%Hf. rewrite gr_managed0, gr_frames0. split_and!; set_solver. }
  destruct (decide (slab_cache slx = c)) as [He|Hne].
  - assert (kx = k) as -> by congruence. exists k'. split; [|done].
    split; [by rewrite gr_caches0, He, lookup_insert_eq|by eapply slab_ok_geom|by eapply located_geom| |
            by rewrite (slab_frames_geom k k')].
    destruct gr_geom0 as (_ & Go & _). unfold listed. rewrite gr_full0, gr_partial0, gr_free0, Go, elem_of_cons.
    unfold listed in Hli. tauto.
  - exists kx. split; [|done]. split; try done. by rewrite gr_caches0, lookup_insert_ne by congruence.
Qed.

Lemma grow_new_in X h h' c s k k' sl :
  heap_ok X h -> grow_at h h' c s k k' sl -> slab_in X h' s sl k'.
Proof.
  intros Hh []. pose proof (ho_others _ _ Hh) as Hx.
  pose proof (co_objs k (ci_ok _ _ _ (ho_cache _ _ Hh _ _ gr_cache0))).
  split; [by rewrite gr_caches0, gr_owner0, lookup_insert_eq|by eapply slab_ok_geom|by eapply located_geom| |].
  - right; left. destruct gr_geom0 as (_ & -> & _). rewrite gr_partial0. split; [by left|].
    rewrite (so_inuse _ _ gr_ok0), gr_objs0, length_seqZ. lia.
  - intros p. rewrite (slab_frames_geom k k') by done. intros Hp. pose proof (gr_taken0 p Hp) as Hfree.
    rewrite gr_managed0, gr_frames0. split_and!; [|set_solver..].
    by apply pa_frames_managed; [apply Hh|].
Qed.

Lemma grow_heap_ok X h h' c s k k' sl : heap_ok X h -> grow_at h h' c s k k' sl -> heap_ok X h'.
Proof.
  intros Hh Hg. pose proof (grow_fresh _ _ _ _ _ _ _ _ Hh Hg) as Hfr.
  pose proof (grow_new_in _ _ _ _ _ _ _ _ Hh Hg) as Hnew. pose proof Hg as [].
  assert (Hgeom : forall x slx kx', slabs h !! x = Some slx -> caches h' !! slab_cache slx = Some kx' ->
    exists kx, caches h !! slab_cache slx = Some kx /\ same_geom kx kx').
  { intros x slx kx' _. rewrite gr_caches0. intros [[He <-]|[_ Hc]]%lookup_insert_Some;
      [exists k; by rewrite <- He|by exists kx']. }
  assert (Hnd : forall x slx kx', slabs h !! x = Some slx -> caches h' !! slab_cache slx = Some kx' ->
    slab_frames k' s ## slab_frames kx' x).
  { intros x slx kx' Hx Hc. destruct (Hgeom x slx kx' Hx Hc) as (kx & Hkx & G).
    destruct (slab_in_of X h x slx kx Hh Hx Hkx) as [[_ _ _ _ Hf] _].
    rewrite (slab_frames_geom k k'), (slab_frames_geom kx kx') by done.
    intros p Hp Hq. destruct (Hf p Hq) as (_ & Hno & _). by apply Hno, gr_taken0. }
  split.
  - done.
  - rewrite gr_frames0. pose proof (ho_others _ _ Hh). set_solver.
  - intros c' k0. rewrite gr_caches0. intros [[<- <-]|[Hne Hc']]%lookup_insert_Some.
    + destruct (ho_cache _ _ Hh _ _ gr_cache0) as [? ? ? Hn Hsl].
      assert (Hp : on_lists k' ≡ₚ s :: on_lists k)
        by (unfold on_lists; rewrite gr_full0, gr_partial0, gr_free0; solve_Permutation).
      split; rewrite ?gr_list0; try done; [by eapply cache_ok_geom| |].
      * rewrite Hp. apply NoDup_cons. split; [|done]. intros (? & ? & _)%Hsl. congruence.
      * intros x. rewrite Hp, gr_slabs0, elem_of_cons. intros [->|Hx].
        -- exists sl. by rewrite lookup_insert_eq.
        -- destruct (Hsl x Hx) as (slx & ? & ?). exists slx. rewrite lookup_insert_ne by congruence. done.
    + destruct (ho_cache _ _ Hh _ _ Hc') as [? ? ? ? Hsl]. split; rewrite ?gr_list0; try done.
      intros x (slx & ? & ?)%Hsl. exists slx. rewrite gr_slabs0, lookup_insert_ne by congruence. done.
  - intros x slx. rewrite gr_slabs0. intros [[<- <-]|[Hne Hx]]%lookup_insert_Some; [by exists k'|].
    destruct (ho_slab _ _ Hh _ _ Hx) as [kx Hin].
    destruct (grow_slab_in _ _ _ _ _ _ _ _ _ _ _ Hh Hg Hx Hin) as (kx' & ? & _). by exists kx'.
  - intros x y slx sly kx ky Hne. rewrite gr_slabs0.
    intros [[<- <-]|[? Hx]]%lookup_insert_Some [[<- <-]|[? Hy]]%lookup_insert_Some Hkx Hky; [done|..].
    + rewrite gr_owner0, gr_caches0, lookup_insert_eq in Hkx. injection Hkx as <-. by apply (Hnd y sly).
    + rewrite gr_owner0, gr_caches0, lookup_insert_eq in Hky. injection Hky as <-. symmetry. by apply (Hnd x slx).
    + destruct (Hgeom _ _ _ Hx Hkx) as (k1 & ? & G1), (Hgeom _ _ _ Hy Hky) as (k2 & ? & G2).
      rewrite (slab_frames_geom k1 kx), (slab_frames_geom k2 ky) by done. by apply (ho_disjoint _ _ Hh x y slx sly).
Qed.

Lemma grow_live X h h' c s k k' sl c' p :
  heap_ok X h -> grow_at h h' c s k k' sl -> live h' c' p <-> live h c' p.
Proof.
  intros Hh Hg. pose proof (grow_fresh _ _ _ _ _ _ _ _ Hh Hg) as Hfr. destruct Hg.
  pose proof gr_geom0 as (Ga & Go & Gs). unfold live, live_at. rewrite gr_slabs0, gr_caches0. split.
  - intros (x & slx & kx & i & Hx & Hc & Hk & Hi & Hf & ->).
    apply lookup_insert_Some in Hx as [[<- <-]|[Hne Hx]].
    + exfalso. apply Hf. rewrite gr_objs0, elem_of_seqZ. subst c'. rewrite gr_owner0, lookup_insert_eq in Hk.
      injection Hk as <-. lia.
    + exists x, slx. apply lookup_insert_Some in Hk as [[<- <-]|[_ Hk]]; [|by exists kx, i].
      exists k, i. rewrite Go in Hi. split_and!; try done; try lia. by apply obj_addr_geom.
  - intros (x & slx & kx & i & Hx & Hc & Hk & Hi & Hf & ->). exists x, slx.
    rewrite lookup_insert_ne by congruence. destruct (decide (c' = c)) as [->|].
    + assert (kx = k) as -> by congruence. exists k', i. rewrite lookup_insert_eq, Go.
      split_and!; try done; try lia. symmetry. by apply obj_addr_geom.
    + exists kx, i. by rewrite lookup_insert_ne.
Qed.

Lemma with_frames_id h : with_frames (frames h) h = h.
Proof. by destruct h. Qed.

Lemma slab_create_grow X h c k :
  heap_ok X h -> caches h !! c = Some k ->
  let '(s, h1) := slab_create c k h in
  s = 0 /\ h1 = h /\ (pa_alloc (slab_size k / PAGE_SIZE) (frames h)).1 = 0 \/
  s <> 0 /\ exists k' sl, grow_at h (upd_cache c (link_partial s) h1) c s k k' sl /\
    object_size k' = object_size k.
Proof.
  intros Hh Hc. pose proof (ci_ok _ _ _ (ho_cache _ _ Hh _ _ Hc)) as Hk.
  pose proof (cache_ok_pages k Hk) as Hn. pose proof (ho_pa _ _ Hh) as Hi.
  pose proof (pa_alloc_spec (frames h) _ Hi Hn) as Ha. unfold slab_create.
  destruct (pa_alloc (slab_size k / PAGE_SIZE) (frames h)) as [phys st]. cbn [fst snd] in Ha.
  destruct Ha as (Hi' & Hm & [[-> ->]|(a & -> & Hsub & Hf)]).
  { cbn. left. split; [done|]. split; [apply with_frames_id|done]. }
  destruct (block_located _ _ _ Hi (proj1 Hn) Hsub) as (Hv & Hp & Ha0 & Hmax).
  destruct (Z.eqb_spec (a * PAGE_SIZE) 0); [unfold PAGE_SIZE in *; lia|]. right.
  set (s := PHYS_TO_VIRT (a * PAGE_SIZE)) in *.
  assert (Hs : u64 (s + sizeof_slab) = s + sizeof_slab).
  { apply u64_small. rewrite Hv. unfold KERNEL_PHYS_MAP_BASE, PAGE_SIZE, sizeof_slab. lia. }
  split; [rewrite Hv; unfold KERNEL_PHYS_MAP_BASE, PAGE_SIZE; lia|]. rewrite Hs.
  destruct (slab_new_ok k (s + sizeof_slab) c (co_objs k Hk)) as [Hok Ho].
  destruct (tag_new_same (slab_size k / PAGE_SIZE) (a * PAGE_SIZE) st Hi') as (Hi2 & Hf2 & Hm2).
  eexists (link_partial s (with_totals _ _ _ k)), _. split.
  - split; cbn; [done| |reflexivity|done|done| | | | |exact Hok|exact Ho|..]; try done.
    + by rewrite (alter_twice _ _ _ _ k).
    + split; cbn; [by rewrite Hp|lia|rewrite Hp; lia|done].
    + unfold slab_frames. by rewrite Hp.
    + unfold slab_frames. rewrite Hp. by rewrite <- Hf.
    + intros p. by rewrite Hm2.
  - done.
Qed.

(** *** Choosing the slab *)

Lemma pick_slab_spec X h c k :
  heap_ok X h -> caches h !! c = Some k ->
  let '(s, h1) := pick_slab c k h in
  s = 0 /\ h1 = h /\ slabs_partial k = [] /\ slabs_free k = [] /\
    (pa_alloc (slab_size k / PAGE_SIZE) (frames h)).1 = 0 \/
  s <> 0 /\ heap_ok X h1 /\ (forall c' p, live h1 c' p <-> live h c' p) /\
    exists k1 sl, caches h1 !! c = Some k1 /\ same_geom k1 k /\ slabs h1 !! s = Some sl /\
      slab_cache sl = c /\ s ∈ slabs_partial k1 /\ inuse sl < objects_per_slab k1.
Proof.
  intros Hh Hc. pose proof (ho_cache _ _ Hh _ _ Hc) as [Hk _ _ Hnd Hsl].
  assert (Hof : forall s, s ∈ on_lists k -> s <> 0 /\ exists sl, slabs h !! s = Some sl /\ slab_cache sl = c /\
    slab_in X h s sl k).
  { intros s (sl & Hs & Ho)%Hsl. destruct (slab_in_of X h s sl k Hh Hs) as [Hin _]; [congruence|].
    split; [|by exists sl]. destruct Hin as [_ _ [Ha Hp _ _] _ _]. rewrite Ha. 
    unfold KERNEL_PHYS_MAP_BASE, PAGE_SIZE. lia. }
  unfold pick_slab. destruct (slabs_partial k) as [|s l] eqn:Hpl.
  - destruct (slabs_free k) as [|s l] eqn:Hfl.
    + pose proof (slab_create_grow X h c k Hh Hc) as Hg. destruct (slab_create c k h) as [s h1].
      destruct Hg as [(-> & -> & ?)|(Hs0 & k' & sl & Hg & _)]; [by left|].
      destruct (Z.eqb_spec s 0); [done|]. right. split; [done|]. split; [by eapply grow_heap_ok|].
      split; [intros; by eapply grow_live|]. pose proof (grow_new_in _ _ _ _ _ _ _ _ Hh Hg) as Hin. destruct Hg.
      exists k', sl. rewrite gr_caches0, gr_slabs0, !lookup_insert_eq, gr_partial0.
      split_and!; try done; [by destruct gr_geom0 as (? & ? & ?)|by left|].
      pose proof (co_objs k Hk). destruct gr_geom0 as (_ & -> & _).
      rewrite (so_inuse _ _ gr_ok0), gr_objs0, length_seqZ. lia.
    + assert (Hin : s ∈ on_lists k) by (unfold on_lists; rewrite Hfl, !elem_of_app; right; right; by left).
      destruct (Hof s Hin) as (Hs0 & sl & Hs & Ho & Hsi). right.
      destruct (on_lists_move link_partial s k op_partial Hnd Hin) as [Hnd' Hel].
      assert (Hu : inuse sl = 0)
        by (apply (listed_free k s sl Hnd (si_listed _ _ _ _ _ Hsi)); rewrite Hfl; by left).
      pose proof (co_objs k Hk).
      assert (Hst : step_at h (upd_cache c (fun k => link_partial s (unlink s k)) h) c s k
        (link_partial s (unlink s k)) sl sl).
      { split; try done; cbn.
        - by rewrite (alter_is_insert _ _ _ k).
        - by rewrite insert_id.
        - intros x Hx. by apply Hel.
        - right; left. cbn. split; [by left|lia].
        - intros x slx Hx Hl. by apply (listed_move link_partial); [constructor|..]. }
      split; [done|]. split; [eapply step_heap_ok; [done..|]; eapply slab_ok_geom; [|apply Hsi]; done|].
      split. { intros c' p. rewrite (step_live _ _ _ _ _ _ _ _ _ _ Hst). symmetry. by apply live_split. }
      exists (link_partial s (unlink s k)), sl. cbn. rewrite lookup_alter_eq, Hc.
      split_and!; try done; [by left|lia].
  - assert (Hin : s ∈ on_lists k) by (unfold on_lists; rewrite Hpl, !elem_of_app; right; left; by left).
    destruct (Hof s Hin) as (Hs0 & sl & Hs & Ho & Hsi). right. split; [done|]. split; [done|]. split; [done|].
    exists k, sl. rewrite Hpl. split_and!; try done; [by left|].
    apply (listed_partial k s sl Hnd (si_listed _ _ _ _ _ Hsi)). rewrite Hpl. by left.
Qed.

(** *** Allocation and release *)

(** The caches of [h] are those of [h'], with the same layout. *)
Definition same_caches h h' : Prop :=
  forall c, match caches h !! c, caches h' !! c with
            | Some k, Some k' => same_geom k k' /\ object_size k' = object_size k
            | None, None => True
            | _, _ => False
            end.

#[global] Instance same_caches_preorder : PreOrder same_caches.
Proof.
  split.
  - intros h c. by destruct (caches h !! c).
  - intros h1 h2 h3 H1 H2 c. specialize (H1 c). specialize (H2 c).
    destruct (caches h1 !! c), (caches h2 !! c), (caches h3 !! c); try done.
    destruct H1 as [(? & ? & ?) ?], H2 as [(? & ? & ?) ?]. unfold same_geom. split_and!; congruence.
Qed.

Lemma same_caches_insert h h' c k k' :
  caches h !! c = Some k -> caches h' = <[c := k']> (caches h) -> same_geom k k' ->
  object_size k' = object_size k -> same_caches h h'.
Proof.
  intros Hc Hc' Hg Ho d. rewrite Hc'. destruct (decide (d = c)) as [->|].
  - by rewrite lookup_insert_eq, Hc.
  - rewrite lookup_insert_ne by done. by destruct (caches h !! d).
Qed.

Lemma same_caches_lookup h h' c k :
  same_caches h h' -> caches h !! c = Some k ->
  exists k', caches h' !! c = Some k' /\ same_geom k k' /\ object_size k' = object_size k.
Proof. intros Hs Hc. specialize (Hs c). rewrite Hc in Hs. destruct (caches h' !! c); naive_solver. Qed.

Lemma live_disjoint X h c c' k k' p q :
  heap_ok X h -> live h c p -> live h c' q -> caches h !! c = Some k -> caches h !! c' = Some k' ->
  p <> q -> p + aligned_size k <= q \/ q + aligned_size k' <= p.
Proof.
  intros Hh (s & sl & k0 & i & Hs & Ho & Hk0 & Hi & _ & ->) (s' & sl' & k0' & i' & Hs' & Ho' & Hk0' & Hi' & _ & ->).
  intros Hc Hc' Hne. assert (k0 = k) as -> by congruence. assert (k0' = k') as -> by congruence.
  destruct (Z.le_gt_cases (obj_addr k sl i + aligned_size k) (obj_addr k' sl' i')); [by left|].
  destruct (Z.le_gt_cases (obj_addr k' sl' i' + aligned_size k') (obj_addr k sl i)); [by right|].
  exfalso. subst c c'.
  destruct (slab_in_of _ _ _ _ _ Hh Hs Hc) as [Hin _], (slab_in_of _ _ _ _ _ Hh Hs' Hc') as [Hin' _].
  destruct (obj_unique X h s s' sl sl' k k' i i') as [<- <-]; try done. congruence.
Qed.

(** A live object occupies frames of its slab only. *)
Lemma live_frames X h c k p b :
  heap_ok X h -> live h c p -> caches h !! c = Some k -> p <= b < p + aligned_size k ->
  (slab_pfn b ∉ pa_frames (frames h)) /\ slab_pfn b ∉ X.
Proof.
  intros Hh (s & sl & k0 & i & Hs & Ho & Hk0 & Hi & _ & ->) Hc Hb.
  assert (k0 = k) as -> by congruence. subst c.
  destruct (slab_in_of _ _ _ _ _ Hh Hs Hc) as [Hin Hk].
  destruct (obj_in_slab _ _ _ _ _ _ Hin Hk Hi) as (Ha & _ & He). destruct Hin as [_ _ [Hs1 _ _ _] _ Hf].
  apply Hf, elem_of_frame_range. pose proof (co_pages k Hk). pose proof (co_size k Hk).
  set (a := slab_pfn s) in *. clearbody a. unfold slab_pfn, sizeof_slab, PAGE_SIZE in *.
  split; [apply Z.div_le_lower_bound; nia|apply Z.div_lt_upper_bound; nia].
Qed.

Lemma take_obj_caches c k s sl h :
  same_caches h (take_obj c k s sl h).2.
Proof.
  intros d. unfold take_obj. destruct (slab_alloc_obj k sl) as [o sl']. cbn [snd].
  destruct (_ =? _); cbn; (destruct (decide (d = c)) as [->|];
    [rewrite !lookup_alter_eq; by destruct (caches h !! c)|rewrite !lookup_alter_ne by done; by destruct (caches h !! d)]).
Qed.

Lemma pick_slab_caches X h c k :
  heap_ok X h -> caches h !! c = Some k -> same_caches h (pick_slab c k h).2.
Proof.
  intros Hh Hc. unfold pick_slab. destruct (slabs_partial k); [|done]. destruct (slabs_free k).
  - pose proof (slab_create_grow X h c k Hh Hc) as Hg. destruct (slab_create c k h) as [s h1].
    destruct Hg as [(-> & -> & _)|(Hs0 & k' & sl & [] & Ho)]; [done|]. destruct (Z.eqb_spec s 0); [done|].
    by apply (same_caches_insert _ _ c k k').
  - cbn [snd]. eapply same_caches_insert; [done|cbn; by apply alter_is_insert|done|done].
Qed.

Lemma alloc_spec X h c k :
  heap_ok X h -> caches h !! c = Some k ->
  let '(p, h') := kmem_cache_alloc c h in
  heap_ok X h' /\ same_caches h h' /\
  (p = 0 /\ h' = h /\ slabs_partial k = [] /\ slabs_free k = [] /\
     (pa_alloc (slab_size k / PAGE_SIZE) (frames h)).1 = 0 \/
   p <> 0 /\ (forall c', ~ live h c' p) /\
   forall c' q, live h' c' q <-> live h c' q \/ c' = c /\ q = p).
Proof.
  intros Hh Hc. pose proof (pick_slab_spec X h c k Hh Hc) as Hp. pose proof (pick_slab_caches X h c k Hh Hc) as Hsc.
  unfold kmem_cache_alloc. rewrite Hc. destruct (pick_slab c k h) as [s h1].
  destruct Hp as [(-> & -> & ? & ? & ?)|(Hs0 & Hh1 & Hl & k1 & sl & Hc1 & Hg & Hs & Ho & Hpart & Hin)].
  { cbn. split; [done|]. split; [done|]. by left. }
  destruct (Z.eqb_spec s 0); [done|]. rewrite Hs.
  destruct (take_obj_step X h1 c s k k1 sl Hh1 Hc1 Hg Hs Ho Hpart Hin) as (i & k' & sl' & Hst & Hok & Hr & Hi & Hf).
  pose proof (take_obj_caches c k s sl h1) as Htc.
  destruct (take_obj c k s sl h1) as [p h']. cbn [fst snd] in *. subst p.
  split; [by eapply step_heap_ok|]. split; [by etrans|]. right.
  destruct (slab_in_of X h1 s sl k1 Hh1 Hs) as [Hsin Hk1]; [congruence|].
  pose proof (so_nodup _ _ (si_ok _ _ _ _ _ Hsin)) as Hnd. rewrite Hf in Hnd. apply NoDup_cons in Hnd as [Hni _].
  assert (Huniq : forall c' q, live h1 c' q -> q <> obj_addr k1 sl i).
  { intros c' q (x & slx & kx & j & Hx & Hox & Hkx & Hj & Hfj & ->) He. subst c'.
    destruct (slab_in_of X h1 x slx kx Hh1 Hx Hkx) as [Hxin Hkx'].
    pose proof (co_size _ Hk1). pose proof (co_size _ Hkx').
    destruct (obj_unique X h1 x s slx sl kx k1 j i) as [-> ->]; try done; [lia|lia|].
    assert (slx = sl) as -> by congruence. apply Hfj. rewrite Hf. by left. }
  split_and!.
  - pose proof (obj_addr_pos _ _ _ _ _ _ Hsin Hk1 Hi). lia.
  - intros c' Hlv. by apply (Huniq c' _ (proj2 (Hl c' _) Hlv)).
  - intros c' q. rewrite <- Hl. rewrite (step_live _ _ _ _ _ _ _ _ _ _ Hst), (live_split h1 c s sl k1) by done.
    rewrite Hf. setoid_rewrite elem_of_cons. split.
    + intros [?|(-> & j & Hj & Hfj & ->)]; [tauto|]. destruct (decide (j = i)) as [->|]; [by right|].
      left; right. split; [done|]. exists j. split_and!; try done; try lia. tauto.
    + intros [[?|(-> & j & Hj & Hfj & ->)]|[-> ->]]; [tauto| |]; right; (split; [done|]).
      * exists j. split_and!; try done; try lia. tauto.
      * by exists i.
Qed.

Lemma free_spec X h c c0 k0 p :
  heap_ok X h -> live h c p -> caches h !! c0 = Some k0 ->
  heap_ok X (kmem_cache_free c0 p h) /\
  (forall c' q, live (kmem_cache_free c0 p h) c' q <-> live h c' q /\ q <> p).
Proof.
  intros Hh (s & sl & k & i & Hs & Ho & Hk & Hi & Hni & ->) Hc0. subst c.
  destruct (slab_in_of X h s sl k Hh Hs Hk) as [Hsin Hkok].
  destruct (ho_cache _ _ Hh _ _ Hc0) as [Hk0 Hn0 _ _ _]. pose proof (co_size _ Hk0). pose proof (co_objs _ Hk0).
  pose proof (obj_addr_pos _ _ _ _ _ _ Hsin Hkok Hi) as Hp0.
  assert (He : kmem_cache_free c0 (obj_addr k sl i) h = put_obj (slab_cache sl) k s sl (obj_addr k sl i) h).
  { unfold kmem_cache_free. destruct (Z.eqb_spec c0 0); [done|]. destruct (Z.eqb_spec (obj_addr k sl i) 0); [lia|].
    cbn [orb]. rewrite Hc0. destruct (Z.eqb_spec (aligned_size k0) 0); [lia|].
    destruct (Z.eqb_spec (objects_per_slab k0) 0); [lia|]. cbn [orb].
    rewrite (find_in_cache X h Hh s sl k i Hs Hk Hi c0 k0 Hc0).
    destruct (decide (c0 = slab_cache sl)) as [->|]; [by rewrite Hk, Hs|].
    rewrite (find_owner X h Hh s sl k i Hs Hk Hi) by apply (ho_cache _ _ Hh _ _ Hk). by rewrite Hk, Hs. }
  rewrite He. destruct (put_obj_step X h _ s k sl i Hh Hk Hs eq_refl Hi Hni) as (k' & sl' & Hst & Hok & Hf).
  split; [by eapply step_heap_ok|]. intros c' q.
  rewrite (step_live _ _ _ _ _ _ _ _ _ _ Hst), (live_split h (slab_cache sl) s sl k) by done.
  rewrite Hf. setoid_rewrite elem_of_cons. split.
  - intros [(x & Hx & Hlv)|(-> & j & Hj & Hfj & ->)]; (split; [|intros E]).
    + left. by exists x.
    + destruct Hlv as (slx & kx & j & Hxs & <- & Hkx & Hj & _ & ->).
      destruct (slab_in_of X h x slx kx Hh Hxs Hkx) as [Hxin Hkx']. pose proof (co_size _ Hkok). pose proof (co_size _ Hkx').
      destruct (obj_unique X h x s slx sl kx k j i); try done; lia.
    + right. split; [done|]. exists j. tauto.
    + pose proof (co_size _ Hkok). destruct (obj_unique X h s s sl sl k k j i) as [_ ->]; try done; [lia|lia|tauto].
  - intros [[?|(-> & j & Hj & Hfj & ->)] Hne]; [by left|]. right. split; [done|]. exists j.
    split_and!; try done; try lia. intros [->|]; done.
Qed.

(** *** Destroying a slab *)

(** The slab [s] leaves its cache and its frames become free. *)
Record drop_at h h' (c s : Z) (k k' : kmem_cache) (sl : slab) : Prop := {
  dr_list : cache_list h' = cache_list h;
  dr_caches : caches h' = <[c := k']> (caches h);
  dr_slabs : slabs h' = delete s (slabs h);
  dr_cache : caches h !! c = Some k;
  dr_slab : slabs h !! s = Some sl;
  dr_owner : slab_cache sl = c;
  dr_geom : same_geom k k';
  dr_osize : object_size k' = object_size k;
  dr_full : slabs_full k' = filter (fun x : Z => x <> s) (slabs_full k);
  dr_partial : slabs_partial k' = filter (fun x : Z => x <> s) (slabs_partial k);
  dr_free : slabs_free k' = filter (fun x : Z => x <> s) (slabs_free k);
  dr_inv : pa_inv (frames h');
  dr_frames : pa_frames (frames h') = pa_frames (frames h) ∪ slab_frames k s;
  dr_managed : forall p, pa_managed (frames h') p <-> pa_managed (frames h) p
}.

Lemma slab_destroy_drop X h c k s sl :
  heap_ok X h -> caches h !! c = Some k -> slabs h !! s = Some sl -> slab_cache sl = c ->
  exists k', drop_at h (slab_destroy c k s (upd_cache c (unlink s) h)) c s k k' sl.
Proof.
  intros Hh Hc Hs Ho. destruct (slab_in_of X h s sl k Hh Hs) as [[_ _ [Ha Hp Hmax _] _ Hf] Hk]; [congruence|].
  assert (Hv : VIRT_TO_PHYS s = slab_pfn s * PAGE_SIZE).
  { unfold VIRT_TO_PHYS. rewrite u64_small; unfold PAGE_SIZE, KERNEL_PHYS_MAP_BASE in *;
      pose proof (cache_ok_pages k Hk); unfold PAGE_SIZE in *; lia. }
  pose proof (ho_pa _ _ Hh) as Hi. unfold slab_destroy. cbn. rewrite Hs. cbn. rewrite Hv.
  destruct (tag_old_same (slab_size k / PAGE_SIZE) (slab_pfn s * PAGE_SIZE) (frames h) Hi) as (Hi1 & Hf1 & Hm1).
  pose proof (cache_ok_pages k Hk).
  destruct (pa_free_spec _ (slab_pfn s) (slab_size k / PAGE_SIZE) Hi1) as (Hi2 & Hm2 & Hf2); [lia..| |].
  { intros p Hpr. rewrite Hm1. apply Hf, elem_of_frame_range. done. }
  exists (with_totals (u64 (total_objects k - objects_per_slab k)) (active_objects k)
           (u64 (total_slabs k - 1)) (unlink s k)).
  split; cbn; try done.
  - by rewrite (alter_twice _ _ _ _ k).
  - by rewrite Hf2, Hf1.
  - intros p. by rewrite Hm2, Hm1.
Qed.

Lemma drop_slab_in X h h' c s k k' sl x slx kx :
  heap_ok X h -> drop_at h h' c s k k' sl -> x <> s -> slabs h !! x = Some slx -> slab_in X h x slx kx ->
  exists kx', slab_in X h' x slx kx' /\ same_geom kx kx'.
Proof.
  intros Hh [] Hne Hx Hxin. pose proof Hxin as [Hc Ho Hl Hli Hf].
  assert (Hd : slab_frames k s ## slab_frames kx x)
    by (apply (ho_disjoint _ _ Hh s x sl slx); congruence || done).
  assert (Hf' : forall p, p ∈ slab_frames kx x ->
    pa_managed (frames h') p /\ (p ∉ pa_frames (frames h')) /\ p ∉ X).
  { intros p Hp. destruct (Hf p Hp) as (? & ? & ?). rewrite dr_managed0, dr_frames0.
    split_and!; [done| |done]. set_solver. }
  destruct (decide (slab_cache slx = c)) as [He|Hcne].
  - assert (kx = k) as -> by congruence. exists k'. split; [|done].
    split; [by rewrite dr_caches0, He, lookup_insert_eq|by eapply slab_ok_geom|by eapply located_geom| |
            by rewrite (slab_frames_geom k k')].
    destruct dr_geom0 as (_ & Go & _). unfold listed in *.
    rewrite dr_full0, dr_partial0, dr_free0, Go, !list_elem_of_filter. tauto.
  - exists kx. split; [|done]. split; try done. by rewrite dr_caches0, lookup_insert_ne by congruence.
Qed.

Lemma drop_heap_ok X h h' c s k k' sl : heap_ok X h -> drop_at h h' c s k k' sl -> heap_ok X h'.
Proof.
  intros Hh Hd. pose proof Hd as [].
  destruct (slab_in_of X h s sl k Hh) as [[_ _ _ _ Hfs] _]; [done|congruence|].
  split.
  - done.
  - rewrite dr_frames0. pose proof (ho_others _ _ Hh). apply disjoint_union_r. split; [done|].
    intros p Hp Hq. by apply (Hfs p Hq).
  - intros c' k0. rewrite dr_caches0. intros [[<- <-]|[Hne Hc']]%lookup_insert_Some.
    + destruct (ho_cache _ _ Hh _ _ dr_cache0) as [? ? ? Hn Hsl].
      assert (Hp : on_lists k' = filter (fun x : Z => x <> s) (on_lists k))
        by (unfold on_lists; rewrite dr_full0, dr_partial0, dr_free0, !filter_app; done).
      split; rewrite ?dr_list0; try done; [by eapply cache_ok_geom|rewrite Hp; by apply NoDup_filter|].
      intros x. rewrite Hp, dr_slabs0, list_elem_of_filter. intros [Hx (slx & ? & ?)%Hsl].
      exists slx. by rewrite lookup_delete_ne.
    + destruct (ho_cache _ _ Hh _ _ Hc') as [? ? ? ? Hsl]. split; rewrite ?dr_list0; try done.
      intros x (slx & ? & ?)%Hsl. exists slx. rewrite dr_slabs0, lookup_delete_ne by congruence. done.
  - intros x slx. rewrite dr_slabs0. intros [Hne Hx]%lookup_delete_Some.
    destruct (ho_slab _ _ Hh _ _ Hx) as [kx Hin].
    destruct (drop_slab_in _ _ _ _ _ _ _ _ _ _ _ Hh Hd (not_eq_sym Hne) Hx Hin) as (kx' & ? & _). by exists kx'.
  - intros x y slx sly kx ky Hne. rewrite dr_slabs0.
    intros [Hxs Hx]%lookup_delete_Some [Hys Hy]%lookup_delete_Some Hkx Hky.
    assert (Hgeom : forall slz kz, caches h' !! slab_cache slz = Some kz ->
      exists k0, caches h !! slab_cache slz = Some k0 /\ same_geom k0 kz).
    { intros slz kz. rewrite dr_caches0. intros [[He <-]|[_ Hz]]%lookup_insert_Some;
        [exists k; by rewrite <- He|by exists kz]. }
    destruct (Hgeom _ _ Hkx) as (k1 & ? & G1), (Hgeom _ _ Hky) as (k2 & ? & G2).
    rewrite (slab_frames_geom k1 kx), (slab_frames_geom k2 ky) by done. by apply (ho_disjoint _ _ Hh x y slx sly).
Qed.

Lemma drop_live_at h h' c s k k' sl x c' p :
  drop_at h h' c s k k' sl -> live_at h' x c' p <-> x <> s /\ live_at h x c' p.
Proof.
  intros []. pose proof dr_geom0 as (Ga & Go & Gs). unfold live_at. rewrite dr_slabs0, dr_caches0. split.
  - intros (slx & kx & i & Hx & Hc & Hk & Hi & Hf & ->). apply lookup_delete_Some in Hx as [Hne Hx].
    split; [done|]. exists slx. apply lookup_insert_Some in Hk as [[<- <-]|[_ Hk]]; [|by exists kx, i].
    exists k, i. rewrite Go in Hi. split_and!; try done; try lia. by apply obj_addr_geom.
  - intros (Hne & slx & kx & i & Hx & Hc & Hk & Hi & Hf & ->). exists slx.
    rewrite lookup_delete_ne by done. destruct (decide (c' = c)) as [->|].
    + assert (kx = k) as -> by congruence. exists k', i. rewrite lookup_insert_eq, Go.
      split_and!; try done; try lia. symmetry. by apply obj_addr_geom.
    + exists kx, i. by rewrite lookup_insert_ne.
Qed.

Lemma destroy_list_spec X c l : forall h k,
  heap_ok X h -> caches h !! c = Some k -> NoDup l -> (forall s, s ∈ l -> s ∈ on_lists k) ->
  let h' := destroy_list c l h in
  heap_ok X h' /\ same_caches h h' /\
  (exists k', caches h' !! c = Some k' /\
     slabs_full k' = filter (fun x : Z => x ∉ l) (slabs_full k) /\
     slabs_partial k' = filter (fun x : Z => x ∉ l) (slabs_partial k) /\
     slabs_free k' = filter (fun x : Z => x ∉ l) (slabs_free k)) /\
  (forall p, p ∈ pa_frames (frames h') <->
     p ∈ pa_frames (frames h) \/ exists s, s ∈ l /\ p ∈ slab_frames k s) /\
  (forall x c' q, live_at h' x c' q <-> (x ∉ l) /\ live_at h x c' q).
Proof.
  induction l as [|s l IH]; intros h k Hh Hc Hnd Hl; cbn zeta.
  { cbn [destroy_list fold_left]. split_and!; [done|done| | |].
    - exists k. split; [done|]. rewrite !list_filter_all by (intros; apply not_elem_of_nil). done.
    - intros p. split; [by left|]. intros [?|(s & Hs & _)]; [done|by apply elem_of_nil in Hs].
    - intros. split; [|tauto]. split; [apply not_elem_of_nil|done]. }
  apply NoDup_cons in Hnd as [Hsl Hnd].
  destruct (ci_slabs _ _ _ (ho_cache _ _ Hh _ _ Hc) s) as (sl & Hs & Ho); [apply Hl; by left|].
  unfold destroy_list. cbn [fold_left]. rewrite Hc.
  destruct (slab_destroy_drop X h c k s sl Hh Hc Hs Ho) as (k1 & Hd).
  set (h1 := slab_destroy c k s (upd_cache c (unlink s) h)) in *. clearbody h1.
  pose proof (drop_heap_ok _ _ _ _ _ _ _ _ Hh Hd) as Hh1. pose proof Hd as [].
  destruct (IH h1 k1) as (Hok & Hsc & (k' & Hk' & Hfu & Hpa & Hfr) & Hfs & Hlv); [done| |done| |].
  { by rewrite dr_caches0, lookup_insert_eq. }
  { intros x Hx. unfold on_lists. rewrite dr_full0, dr_partial0, dr_free0.
    assert (x ∈ on_lists k) as Hx' by (apply Hl; by right). unfold on_lists in Hx'. rewrite !elem_of_app in *.
    rewrite !list_elem_of_filter. assert (x <> s) by (intros ->; done). tauto. }
  fold (destroy_list c l h1). split_and!; [done| | | |].
  - etrans; [|done]. by apply (same_caches_insert _ _ c k k1).
  - exists k'. split; [done|]. rewrite Hfu, Hpa, Hfr, dr_full0, dr_partial0, dr_free0.
    rewrite !list_filter_filter. split_and!; apply list_filter_iff; intros x; rewrite not_elem_of_cons; tauto.
  - intros p. rewrite Hfs, dr_frames0, elem_of_union. setoid_rewrite elem_of_cons.
    setoid_rewrite (slab_frames_geom k k1 dr_geom0). split.
    + intros [[?|?]|(x & ? & ?)]; [by left|right; exists s; tauto|right; exists x; tauto].
    + intros [?|(x & [->|?] & ?)]; [tauto..|]. right. by exists x.
  - intros x c' q. rewrite Hlv, (drop_live_at _ _ _ _ _ _ _ _ _ _ Hd), not_elem_of_cons. tauto.
Qed.

(** A slab without objects in use has every index free. *)
Lemma slab_empty k sl i : slab_ok k sl -> inuse sl = 0 -> 0 <= i < objects_per_slab k -> i ∈ free_objs sl.
Proof.
  intros [Hlen Hl Hnd Hin] Hz Hi.
  assert (Hs : free_objs sl ⊆+ seqZ 0 (objects_per_slab k)).
  { apply NoDup_submseteq; [done|]. intros x Hx%(linked_range _ _ _ _ Hl). apply elem_of_seqZ. lia. }
  apply submseteq_length_Permutation in Hs; [|rewrite length_seqZ; lia].
  rewrite Hs, elem_of_seqZ. lia.
Qed.

Lemma shrink_spec X h c k :
  heap_ok X h -> caches h !! c = Some k ->
  let '(n, h') := kmem_cache_shrink c h in
  n = Z.of_nat (length (slabs_free k)) /\ heap_ok X h' /\ same_caches h h' /\
  (exists k', caches h' !! c = Some k' /\ slabs_free k' = []) /\
  (forall p, p ∈ pa_frames (frames h') <->
     p ∈ pa_frames (frames h) \/ exists s, s ∈ slabs_free k /\ p ∈ slab_frames k s) /\
  (forall c' q, live h' c' q <-> live h c' q).
Proof.
  intros Hh Hc. pose proof (ho_cache _ _ Hh _ _ Hc) as [_ _ _ Hnd Hsl].
  assert (Hsub : forall s, s ∈ slabs_free k -> s ∈ on_lists k)
    by (intros; unfold on_lists; rewrite !elem_of_app; tauto).
  assert (Hndf : NoDup (slabs_free k)) by (unfold on_lists in Hnd; rewrite !NoDup_app in Hnd; tauto).
  unfold kmem_cache_shrink. rewrite Hc.
  destruct (destroy_list_spec X c (slabs_free k) h k Hh Hc Hndf Hsub)
    as (Hok & Hsc & (k' & Hk' & _ & _ & Hfr) & Hfs & Hlv).
  split_and!; try done.
  - exists k'. split; [done|]. rewrite Hfr. apply list_filter_none. intros x Hx. tauto.
  - intros c' q. unfold live. setoid_rewrite Hlv. split; [intros (x & _ & ?); by exists x|].
    intros (x & Hx). exists x. split; [|done]. intros Hfx.
    destruct Hx as (sl & k0 & i & Hs & Ho & Hk0 & Hi & Hni & _).
    destruct (Hsl x (Hsub x Hfx)) as (sl0 & ? & ?). assert (sl0 = sl) as -> by congruence.
    assert (k0 = k) as -> by congruence.
    destruct (slab_in_of X h x sl k Hh Hs) as [Hxin _]; [congruence|].
    apply Hni, (slab_empty k); [apply Hxin| |done]. by apply (listed_free k x sl Hnd (si_listed _ _ _ _ _ Hxin)).
Qed.
End heap.
