(* ===== verification/KmallocProps.v ===== *)
(** * Correctness of the kernel memory allocator

    What [kmem_cache_create], boot, [kmem_cache_alloc], [kmem_cache_free],
    [kmalloc], [kfree] and [krealloc] guarantee, from the heap invariant. *)

From S2P Require Import Prelude PageAllocator Pmm SafeArith CString Kmalloc KmallocHeap.

(** ** The layout of a cache *)

Lemma ALIGN_UP_bounds x j :
  0 <= j -> 0 <= x -> x + 2 ^ j <= 2 ^ 64 ->
  x <= ALIGN_UP x (2 ^ j) < x + 2 ^ j /\ ALIGN_UP x (2 ^ j) = ALIGN_UP x (2 ^ j) / 2 ^ j * 2 ^ j.
Proof.
  intros Hj Hx Hb. rewrite ALIGN_UP_pow2 by done. assert (0 < 2 ^ j) by lia.
  pose proof (Z.div_mod (x + (2 ^ j - 1)) (2 ^ j) ltac:(lia)).
  pose proof (Z.mod_pos_bound (x + (2 ^ j - 1)) (2 ^ j) ltac:(lia)).
  rewrite Z.div_mul by lia. split; [|done]. lia.
Qed.

Lemma layout_align align flags j :
  align = 2 ^ j -> 0 <= j <= 12 ->
  let align := if align <? 8 then 8 else align in
  exists i, 3 <= i <= 12 /\
    (if flagb flags SLAB_HWCACHE_ALIGN then Z.max align 64 else align) = 2 ^ i.
Proof.
  intros -> Hj. cbv zeta.
  assert (exists i, 3 <= i <= 12 /\ (if 2 ^ j <? 8 then 8 else 2 ^ j) = 2 ^ i) as (i & Hi & ->).
  { destruct (Z.ltb_spec (2 ^ j) 8); [by exists 3|]. exists j. split; [|done]. split; [|lia].
    apply Z.nlt_ge. intros Hlt. assert (2 ^ j < 2 ^ 3) by (apply Z.pow_lt_mono_r; lia). lia. }
  destruct (flagb _ _); [|by exists i]. destruct (Z.le_gt_cases 6 i).
  - exists i. split; [done|]. assert (2 ^ 6 <= 2 ^ i) by (apply Z.pow_le_mono_r; lia). lia.
  - exists 6. split; [lia|]. assert (2 ^ i <= 2 ^ 6) by (apply Z.pow_le_mono_r; lia). lia.
Qed.

Lemma objects_per_slab_bounds asz sz :
  0 < asz < 2 ^ 33 -> sizeof_slab <= sz < 2 ^ 34 ->
  let n := calc_objects_per_slab asz sz in
  0 <= n < 2 ^ 32 /\ sizeof_slab + n * (asz + 4) <= sz /\
  (n = 0 <-> sz < sizeof_slab + asz + 4).
Proof.
  intros Ha Hs. unfold calc_objects_per_slab, sizeof_slab in *. rewrite !u64_small by lia.
  assert (0 <= (sz - 48) / (asz + 4) <= (sz - 48) / 5).
  { split; [apply Z.div_pos; lia|]. apply Z.div_le_compat_l; lia. }
  assert ((sz - 48) / 5 < 2 ^ 32) by (apply Z.div_lt_upper_bound; lia).
  rewrite u32_small by lia.
  pose proof (Z.div_mod (sz - 48) (asz + 4) ltac:(lia)). pose proof (Z.mod_pos_bound (sz - 48) (asz + 4) ltac:(lia)).
  split_and!; [lia|lia|nia|]. split; [intros E; rewrite E in *; lia|]. intros. apply Z.div_small. lia.
Qed.

(** For a power-of-two alignment up to a page and any size of 32 bits, the
    layout is sound whenever it is produced, it always is for objects of at most
    a page, and the objects hold the requested size. *)
Lemma cache_layout_spec name size align flags ct j :
  0 < size < 2 ^ 32 -> align = 2 ^ j -> 0 <= j <= 12 ->
  match cache_layout name size align flags ct with
  | Some k => cache_ok k /\ on_lists k = [] /\ size <= aligned_size k
  | None => PAGE_SIZE < size
  end.
Proof.
  intros Hs Ha Hj. unfold cache_layout.
  destruct (layout_align align flags j Ha Hj) as (i & Hi & Hal). cbv zeta in Hal. rewrite Hal. clear Hal.
  assert (Hp : 0 < 2 ^ i <= 2 ^ 12) by (split; [lia|]; apply Z.pow_le_mono_r; lia).
  destruct (ALIGN_UP_bounds size i) as [Hb Hm]; [lia..|].
  set (asz := ALIGN_UP size (2 ^ i)) in *.
  set (sz := if asz <=? PAGE_SIZE / 8 then PAGE_SIZE else _).
  assert (Hsz : sizeof_slab <= sz < 2 ^ 34 /\ sz = sz / PAGE_SIZE * PAGE_SIZE /\
    (asz <= PAGE_SIZE -> sizeof_slab + asz + 4 <= sz)).
  { unfold sz, sizeof_slab, PAGE_SIZE. destruct (Z.leb_spec asz (4096 / 8)) as [H8|H8].
    - change (4096 / 8) with 512 in H8. split_and!; [lia..|done|lia].
    - destruct (Z.leb_spec asz 4096); [split_and!; [lia..|done|lia]|].
      rewrite u64_small by lia. destruct (ALIGN_UP_bounds (asz + 48) 12) as [? He]; [lia..|].
      change (2 ^ 12) with 4096 in *. split_and!; [lia..|done|lia]. }
  destruct Hsz as (Hsz & Hpg & Hfit). clearbody sz.
  destruct (objects_per_slab_bounds asz sz) as (Hn & Hf & Hz); [lia|lia|].
  set (n := calc_objects_per_slab asz sz) in *. clearbody n.
  destruct (Z.eqb_spec n 0) as [E|E].
  - apply Hz in E. apply Z.nle_gt. intros Hle.
    assert (asz <= PAGE_SIZE); [|lia]. unfold asz. rewrite ALIGN_UP_pow2 by lia.
    assert (PAGE_SIZE = 2 ^ (12 - i) * 2 ^ i) as Hpe by (rewrite <- Z.pow_add_r by lia; by replace (12 - i + i) with 12 by lia).
    rewrite Hpe. apply Z.mul_le_mono_nonneg_r; [lia|].
    apply Z.lt_succ_r. apply Z.div_lt_upper_bound; [lia|]. lia.
  - split; [split; cbn; lia || done|]. split; [done|cbn; lia].
Qed.

Lemma class_layout i name :
  0 <= i < NUM_SIZE_CLASSES ->
  exists k, cache_layout name (aget size_classes i) 8 0 None = Some k /\ cache_ok k /\ on_lists k = [] /\
    aligned_size k = aget size_classes i /\ ctor k = None.
Proof.
  intros Hi. assert (Hs : 0 < aget size_classes i < 2 ^ 32 /\ exists k, cache_layout name (aget size_classes i) 8 0 None = Some k
    /\ aligned_size k = aget size_classes i /\ ctor k = None).
  { change NUM_SIZE_CLASSES with 11 in Hi.
    assert (i = 0 \/ i = 1 \/ i = 2 \/ i = 3 \/ i = 4 \/ i = 5 \/ i = 6 \/ i = 7 \/ i = 8 \/ i = 9 \/ i = 10) as Hc by lia.
    destruct_or! Hc; subst i; (split; [split; reflexivity|]); eexists; split_and!; reflexivity. }
  destruct Hs as (Hs & k & Hk & Ha & Hc).
  pose proof (cache_layout_spec name _ 8 0 None 3 Hs eq_refl ltac:(lia)) as H. rewrite Hk in H.
  exists k. tauto.
Qed.

Lemma size_classes_pow2 i : 0 <= i < NUM_SIZE_CLASSES -> aget size_classes i = 2 ^ (i + 3).
Proof.
  intros Hi. change NUM_SIZE_CLASSES with 11 in Hi.
  assert (i = 0 \/ i = 1 \/ i = 2 \/ i = 3 \/ i = 4 \/ i = 5 \/ i = 6 \/ i = 7 \/ i = 8 \/ i = 9 \/ i = 10) as Hc by lia.
  destruct_or! Hc; by subst i.
Qed.

Lemma size_classes_mono i j :
  0 <= i <= j -> j < NUM_SIZE_CLASSES -> aget size_classes i <= aget size_classes j.
Proof. intros. rewrite !size_classes_pow2 by lia. apply Z.pow_le_mono_r; lia. Qed.

(** ** The initialised heap *)

Section props.
Context {St : Type} `{PageAllocator St}.
Implicit Types (h : heap St) (X : gset Z).

(** The heap after boot: each size class has its cache. *)
Record kmalloc_ok X h : Prop := {
  ko_heap : heap_ok X h;
  ko_init : slab_initialized h = true;
  ko_class : forall i, 0 <= i < NUM_SIZE_CLASSES ->
    exists k, caches h !! aget (size_caches h) i = Some k /\ aligned_size k = aget size_classes i
}.

(** The statics that allocation and release leave alone. *)
Definition same_statics h h' : Prop :=
  slab_initialized h' = slab_initialized h /\ size_caches h' = size_caches h.

Lemma alloc_statics c h : same_statics h (kmem_cache_alloc c h).2.
Proof.
  unfold kmem_cache_alloc, pick_slab, slab_create, take_obj, same_statics.
  repeat (case_match; simplify_eq; try done).
Qed.

Lemma kmalloc_ok_step X X' h h' :
  kmalloc_ok X h -> heap_ok X' h' -> same_caches h h' -> same_statics h h' -> kmalloc_ok X' h'.
Proof.
  intros [_ Hi Hc] Hh Hs [Hin Hsz]. split; [done|congruence|]. intros i Hr.
  destruct (Hc i Hr) as (k & Hk & Ha). destruct (same_caches_lookup _ _ _ _ Hs Hk) as (k' & ? & (Ga & _) & _).
  exists k'. rewrite Hsz. split; congruence.
Qed.

(** *** Large blocks *)

Lemma heap_ok_take X h st F m :
  heap_ok X h -> F ⊆ pa_frames (frames h) -> pa_inv st -> pa_frames st = pa_frames (frames h) ∖ F ->
  (forall p, pa_managed st p <-> pa_managed (frames h) p) ->
  heap_ok (X ∪ F) (with_bytes m (with_frames st h)).
Proof.
  intros [Hi Hx Hc Hs Hd] HF Hi' Hf Hm. split; cbn; [done|rewrite Hf; set_solver| | |done].
  - intros c k Hk. destruct (Hc c k Hk). by split.
  - intros s sl Hsl. destruct (Hs s sl Hsl) as [k []]. exists k. split; try done.
    intros p Hp. destruct (si_frames p Hp) as (? & ? & ?). cbn. rewrite Hm, Hf. set_solver.
Qed.

Lemma kmalloc_large_spec X h size :
  heap_ok X h -> 0 < size < 2 ^ 64 ->
  let '(p, h') := kmalloc_large size h in
  same_statics h h' /\ caches h' = caches h /\ slabs h' = slabs h /\
  (p = 0 /\ h' = h \/
   exists a n, p = KERNEL_PHYS_MAP_BASE + a * PAGE_SIZE + sizeof_size_t /\ size + sizeof_size_t <= n * PAGE_SIZE /\
     0 < n /\ frame_range a n ⊆ pa_frames (frames h) /\ heap_ok (X ∪ frame_range a n) h').
Proof.
  intros Hh Hs. unfold kmalloc_large, zig_u64_add_ok, sizeof_size_t.
  destruct (Z.geb_spec (size + 8) (2 ^ 64)); cbn [negb Z.eqb orb]; [by split_and!; try left|].
  rewrite (u64_small (size + 8)) by lia.
  destruct (Z.gtb_spec (size + 8) UINT64_MAX); [by split_and!; try left|].
  pose proof (zig_pages_for_bytes_spec (size + 8) PAGE_SIZE ltac:(lia) ltac:(unfold PAGE_SIZE; lia)) as Hz.
  destruct (zig_pages_for_bytes_ok (size + 8) PAGE_SIZE) as [ret [[aligned n]|]]; [|by split_and!; try left].
  destruct Hz as (-> & _ & -> & Hal & Hle & _). cbn [negb Z.eqb orb].
  unfold UINT64_MAX, PAGE_SIZE in *.
  destruct (Z.gtb_spec (n * 4096) 18446744073709551615); [lia|].
  destruct (Z.gtb_spec n 18446744073709551615); [lia|]. cbn [orb].
  pose proof (pa_alloc_spec (frames h) n (ho_pa _ _ Hh) ltac:(lia)) as Ha.
  destruct (pa_alloc n (frames h)) as [phys st]. cbn [fst snd] in Ha.
  destruct Ha as (Hi & Hm & [[-> ->]|(a & -> & Hsub & Hf)]).
  { cbn. split_and!; try done. left. split; [done|]. apply with_frames_id. }
  destruct (block_located (frames h) n a (ho_pa _ _ Hh) ltac:(lia) Hsub) as (Hv & _ & Ha0 & Hmax).
  unfold PAGE_SIZE in *. destruct (Z.eqb_spec (a * 4096) 0); [lia|]. split_and!; try done. right.
  exists a, n. rewrite Hv, u64_small by (unfold KERNEL_PHYS_MAP_BASE; lia). split_and!; try done; try lia.
  by apply heap_ok_take.
Qed.

(** *** Pointers that are not objects of a slab *)

Lemma find_foreign X h c k l p :
  heap_ok X h -> slab_pfn p ∈ X -> caches h !! c = Some k -> (forall s, s ∈ l -> s ∈ on_lists k) ->
  find_slab_in_list k h l p = None.
Proof.
  intros Hh Hp Hc. induction l as [|s l IH]; intros Hl; [done|]. cbn [find_slab_in_list].
  destruct (ci_slabs _ _ _ (ho_cache _ _ Hh _ _ Hc) s) as (sl & Hs & Ho); [apply Hl; by left|]. rewrite Hs.
  destruct (slab_contains_obj k sl p) eqn:Hb; [exfalso|apply IH; intros; apply Hl; by right].
  destruct (slab_in_of X h s sl k Hh Hs) as [Hin Hk]; [congruence|].
  apply (slab_contains_spec X h s sl k p Hin Hk) in Hb as (i & Hi & ->).
  destruct (obj_in_slab _ _ _ _ _ _ Hin Hk Hi) as (Ha & _ & He). destruct Hin as [_ _ [Hs1 _ _ _] _ Hf].
  destruct (Hf (slab_pfn (obj_addr k sl i))) as (_ & _ & Hx); [|done].
  apply elem_of_frame_range. pose proof (co_pages k Hk). pose proof (co_size k Hk).
  set (a := slab_pfn s) in *. clearbody a. unfold slab_pfn, sizeof_slab, PAGE_SIZE in *.
  split; [apply Z.div_le_lower_bound; nia|apply Z.div_lt_upper_bound; nia].
Qed.

Lemma find_cache_foreign X h c k p :
  heap_ok X h -> slab_pfn p ∈ X -> caches h !! c = Some k -> find_slab_in_cache k h p = None.
Proof.
  intros Hh Hp Hc. unfold find_slab_in_cache.
  rewrite !(find_foreign X h c k) by (done || (intros; unfold on_lists; rewrite !elem_of_app; tauto)). done.
Qed.

Lemma find_owner_foreign X h l p :
  heap_ok X h -> slab_pfn p ∈ X -> find_owner_cache_for_obj h l p = None.
Proof.
  intros Hh Hp. induction l as [|c l IH]; [done|]. cbn. destruct (caches h !! c) as [k|] eqn:Hc; [|done].
  by rewrite (find_cache_foreign X h c k).
Qed.

Lemma free_foreign X h c p : heap_ok X h -> slab_pfn p ∈ X -> kmem_cache_free c p h = h.
Proof.
  intros Hh Hp. unfold kmem_cache_free. destruct (_ || _); [done|].
  destruct (caches h !! c) as [k|] eqn:Hc; [|done]. destruct (_ || _); [done|].
  by rewrite (find_cache_foreign X h c k), (find_owner_foreign X).
Qed.

(** *** Size classes *)

Lemma find_size_class_spec size :
  0 < size ->
  match find_range (fun i => size <=? aget size_classes i) 0 NUM_SIZE_CLASSES with
  | Some i => find_size_class size = i /\ 0 <= i < NUM_SIZE_CLASSES /\ size <= aget size_classes i <= 8192 /\
      forall j, 0 <= j < i -> aget size_classes j < size
  | None => find_size_class size = -1 /\ 8192 < size
  end.
Proof.
  intros Hs. unfold find_size_class. destruct (find_range _ _ _) as [i|] eqn:Hf.
  - apply find_range_Some in Hf as (Hi & Hb & Hj). zbool. split_and!; [done|lia|lia|lia| |].
    + apply (size_classes_mono i 10); [change NUM_SIZE_CLASSES with 11 in Hi; lia|done].
    + intros j Hr. specialize (Hj j Hr). zbool. done.
  - split; [done|]. apply find_range_None with (i := 10) in Hf; [by zbool|]. by split.
Qed.

(** The outcome of [kmalloc] on an initialised heap. *)
Lemma kmalloc_spec X h size :
  kmalloc_ok X h -> 0 < size < 2 ^ 64 ->
  let '(p, h') := kmalloc size h in
  (p = 0 /\ h' = h) \/
  (size <= 8192 /\ kmalloc_ok X h' /\ p <> 0 /\ exists c k, caches h !! c = Some k /\ size <= aligned_size k /\
     (forall i, 0 <= i < NUM_SIZE_CLASSES -> size <= aget size_classes i -> aligned_size k <= aget size_classes i) /\
     (forall c', ~ live h c' p) /\ (forall c' q, live h' c' q <-> live h c' q \/ c' = c /\ q = p)) \/
  (8192 < size /\ exists a n, p = KERNEL_PHYS_MAP_BASE + a * PAGE_SIZE + sizeof_size_t /\
     size + sizeof_size_t <= n * PAGE_SIZE /\ 0 < n /\ frame_range a n ⊆ pa_frames (frames h) /\
     kmalloc_ok (X ∪ frame_range a n) h' /\ (forall c' q, live h' c' q <-> live h c' q)).
Proof.
  intros Hok Hs. pose proof Hok as [Hh Hi Hc]. unfold kmalloc. rewrite Hi. cbn [negb].
  destruct (Z.eqb_spec size 0); [lia|]. pose proof (find_size_class_spec size ltac:(lia)) as Hf.
  destruct (find_range _ _ _) as [i|].
  - destruct Hf as (-> & Hr & Hle & Hmin). destruct (Z.geb_spec i 0); [|lia].
    destruct (Hc i Hr) as (k & Hk & Ha). pose proof (alloc_spec X h _ k Hh Hk) as Hal.
    pose proof (alloc_statics (aget (size_caches h) i) h) as Hst.
    destruct (kmem_cache_alloc _ h) as [p h']. cbn [snd] in Hst.
    destruct Hal as (Hh' & Hsc & [(-> & -> & _)|(Hp & Hfr & Hlv)]); [by left|]. right; left.
    split; [lia|]. split; [by eapply kmalloc_ok_step|]. split; [done|].
    exists (aget (size_caches h) i), k. rewrite Ha. split_and!; try done; [lia|]. intros j Hj Hsj.
    destruct (Z.lt_ge_cases j i) as [Hlt|Hge]; [specialize (Hmin j); lia|].
    apply size_classes_mono; lia.
  - destruct Hf as [-> Hbig]. cbn [Z.geb Z.compare]. pose proof (kmalloc_large_spec X h size Hh Hs) as Hl.
    destruct (kmalloc_large size h) as [p h']. destruct Hl as (Hst & Ec & Es & [[-> ->]|(a & n' & -> & ? & ? & ? & Hh')]); [by left|].
    right; right. split; [done|]. exists a, n'. split_and!; try done.
    + eapply kmalloc_ok_step; [done..| |done]. intros c. rewrite Ec. by destruct (caches h !! c).
    + intros c' q. unfold live, live_at. by rewrite Ec, Es.
Qed.

(** *** Boot *)

(** The state inside [kmalloc_init] once [i] caches exist, in an early heap
    that starts at [start]. *)
Record booting (st : St) (start i : Z) h : Prop := {
  bo_frames : frames h = st;
  bo_slabs : slabs h = ∅;
  bo_init : slab_initialized h = false;
  bo_early : early_heap_current h = start + i * sizeof_kmem_cache /\ early_heap_end h = start + 256 * PAGE_SIZE;
  bo_len : Z.of_nat (length (size_caches h)) = NUM_SIZE_CLASSES;
  bo_caches : forall c k, caches h !! c = Some k ->
    cache_ok k /\ on_lists k = [] /\ c ∈ cache_list h /\ start <= c < start + i * sizeof_kmem_cache;
  bo_class : forall j, 0 <= j < i ->
    exists k, caches h !! aget (size_caches h) j = Some k /\ aligned_size k = aget size_classes j
}.

Lemma boot_create st start i h name :
  booting st start i h -> 0 < start -> start + 256 * PAGE_SIZE < 2 ^ 64 -> 0 <= i < NUM_SIZE_CLASSES ->
  let '(c, h') := kmem_cache_create name (aget size_classes i) 8 0 None h in
  c <> 0 /\ booting st start (i + 1) (with_size_caches (aset (size_caches h') i c) h').
Proof.
  intros [Hf Hsl Hin [Hcur Hend] Hlen Hca Hcl] Hs Hmax Hi. change NUM_SIZE_CLASSES with 11 in *.
  unfold kmem_cache_create. rewrite Hin. unfold early_alloc.
  change (ALIGN_UP sizeof_kmem_cache 16) with 160. unfold sizeof_kmem_cache, PAGE_SIZE in *.
  rewrite Hcur, Hend, u64_small by lia.
  destruct (Z.gtb_spec (start + i * 160 + 160) (start + 256 * 4096)); [lia|].
  destruct (Z.eqb_spec (start + i * 160) 0); [lia|].
  destruct (class_layout i name) as (k & -> & Hk & Hl & Ha & _); [done|]. split; [done|].
  assert (Hfr : caches h !! (start + i * 160) = None).
  { destruct (caches h !! (start + i * 160)) as [k'|] eqn:E; [|done]. destruct (Hca _ _ E) as (_ & _ & _ & ?). lia. }
  split; cbn; unfold PAGE_SIZE, sizeof_kmem_cache; [done..|lia|by rewrite length_aset| |].
  - intros c k0 [[<- <-]|[Hne Hc]]%lookup_insert_Some.
    + split_and!; try done; [by left|lia|lia].
    + destruct (Hca c k0 Hc) as (? & ? & ? & ?). split_and!; try done; [by right|lia|lia].
  - intros j Hj. destruct (decide (j = i)) as [->|].
    + exists k. rewrite aget_aset_eq, lookup_insert_eq by lia. done.
    + rewrite aget_aset_ne by lia. destruct (Hcl j) as (k' & Hk' & ?); [lia|]. exists k'.
      rewrite lookup_insert_ne by congruence. done.
Qed.

Lemma create_start name size align flags ct h :
  slab_initialized h = false ->
  early_heap_start (kmem_cache_create name size align flags ct h).2 = early_heap_start h.
Proof.
  intros Hi. unfold kmem_cache_create, early_alloc. rewrite Hi. by repeat (case_match; simplify_eq).
Qed.

Lemma init_spec st name :
  pa_inv st ->
  let '(phys, st') := pa_alloc 256 st in
  exists h, kmalloc_init name (heap_boot st) = Some h /\
    early_heap_start h = KERNEL_PHYS_MAP_BASE + phys /\
    (phys = 0 \/ exists a, phys = a * PAGE_SIZE /\ frame_range a 256 ⊆ pa_frames st /\
       pa_frames (frames h) = pa_frames st ∖ frame_range a 256 /\
       kmalloc_ok (frame_range a 256) h /\ forall c p, ~ live h c p).
Proof.
  intros Hi. pose proof (pa_alloc_spec st 256 Hi ltac:(lia)) as Ha.
  unfold kmalloc_init, early_heap_init. cbn [frames heap_boot].
  destruct (pa_alloc 256 st) as [phys st']. cbn [fst snd] in Ha. destruct Ha as (Hi' & _ & Ha).
  assert (Hphys : 0 <= phys /\ phys + 256 * PAGE_SIZE <= 2 ^ 20 * PAGE_SIZE).
  { destruct Ha as [[-> _]|(a & -> & Hsub & _)]; [done|].
    destruct (block_located st 256 a Hi ltac:(lia) Hsub) as (_ & _ & ? & ?). unfold PAGE_SIZE. lia. }
  assert (Hv : PHYS_TO_VIRT phys = KERNEL_PHYS_MAP_BASE + phys)
    by (unfold PHYS_TO_VIRT; rewrite u64_small; unfold KERNEL_PHYS_MAP_BASE, PAGE_SIZE in *; lia).
  rewrite Hv. set (start := KERNEL_PHYS_MAP_BASE + phys).
  assert (Hst : 0 < start /\ start + 256 * PAGE_SIZE < 2 ^ 64)
    by (unfold start, KERNEL_PHYS_MAP_BASE, PAGE_SIZE in *; lia).
  destruct (Z.eqb_spec start 0); [lia|].
  match goal with |- context [for_range 0 NUM_SIZE_CLASSES ?f (Some ?h0)] =>
    assert (Hloop : exists h, for_range 0 NUM_SIZE_CLASSES f (Some h0) = Some h /\
      booting st' start NUM_SIZE_CLASSES h /\ early_heap_start h = start);
    [apply (for_range_inv (fun i o => exists h, o = Some h /\ booting st' start i h /\ early_heap_start h = start))|] end.
  - done.
  - eexists. split; [done|]. split; [|done]. split; cbn; try done.
    + rewrite u64_small by lia. lia.
    + intros j Hj. lia.
  - intros i o Hr (h & -> & Hb & Hes). pose proof (boot_create st' start i h name Hb (proj1 Hst) (proj2 Hst) Hr) as Hc.
    pose proof (create_start name (aget size_classes i) 8 0 None h (bo_init _ _ _ _ Hb)) as Hes'.
    destruct (kmem_cache_create _ _ _ _ _ h) as [c h']. destruct Hc as [Hc0 Hb']. destruct (Z.eqb_spec c 0); [done|].
    eexists. split; [done|]. split; [done|]. cbn in *. congruence.
  - destruct Hloop as (h & -> & Hb & Hes). destruct Hb as [Hf Hsl Hin _ Hlen Hca Hcl].
    eexists. split; [done|]. split; [done|].
    destruct Ha as [[-> _]|(a & -> & Hsub & Hfr)]; [by left|]. right. exists a. cbn. rewrite Hf.
    split_and!; try done.
    + split; [|done|done]. split; cbn; rewrite ?Hf, ?Hsl; try done; [rewrite Hfr; set_solver|].
      intros c k Hk. destruct (Hca c k Hk) as (Hok & Hl & Hcc & Hrg). split; cbn; rewrite ?Hl; try done; [lia|constructor|].
      intros s Hs. by apply elem_of_nil in Hs.
    + intros c p (s & sl & k & i & Hs & _). cbn in Hs. by rewrite Hsl in Hs.
Qed.

(** *** Contents *)

Lemma heap_ok_bytes X h m : heap_ok X h -> heap_ok X (with_bytes m h).
Proof.
  intros [Hi Hx Hc Hs Hd]. split; try done.
  - intros c k Hk. destruct (Hc c k Hk). by split.
  - intros s sl Hsl. destruct (Hs s sl Hsl) as [k []]. exists k. by split.
Qed.

Lemma kmalloc_ok_bytes X h m : kmalloc_ok X h -> kmalloc_ok X (with_bytes m h).
Proof. intros []. split; [by apply heap_ok_bytes|done|done]. Qed.

Lemma live_bytes h m c p : live h c p -> live (with_bytes m h) c p.
Proof. done. Qed.

Lemma free_bytes c p h : bytes (kmem_cache_free c p h) = bytes h.
Proof. unfold kmem_cache_free, put_obj. by repeat case_match. Qed.

(** ** Properties *)

(** C3. Allocating from a cache of a well-formed heap keeps the heap well formed
    and every cache's layout.  Either it returns NULL with the heap unchanged,
    and then the cache has no slab with room and the page allocator has no block
    of the slab's size; or it returns an address that was not allocated and
    becomes the only new live object, in frames that are neither free nor of
    another owner, and without overlap with any live object of any cache. *)
Theorem kmem_cache_alloc_correct X h c k
    (Hheap : heap_ok X h) (Hcache : caches h !! c = Some k) :
  let '(p, h') := kmem_cache_alloc c h in
  heap_ok X h' /\ same_caches h h' /\
  (p = 0 /\ h' = h /\ slabs_partial k = [] /\ slabs_free k = [] /\
     (pa_alloc (slab_size k / PAGE_SIZE) (frames h)).1 = 0 \/
   p <> 0 /\ (forall c', ~ live h c' p) /\
   (forall c' q, live h' c' q <-> live h c' q \/ c' = c /\ q = p) /\
   (forall b, p <= b < p + aligned_size k -> (slab_pfn b ∉ pa_frames (frames h')) /\ slab_pfn b ∉ X) /\
   (forall c' k' q, live h c' q -> caches h !! c' = Some k' ->
      p + aligned_size k <= q \/ q + aligned_size k' <= p)).
Proof.
  pose proof (alloc_spec X h c k Hheap Hcache) as Ha. destruct (kmem_cache_alloc c h) as [p h'].
  destruct Ha as (Hh' & Hsc & [Ha|(Hp & Hfr & Hlv)]); (split; [done|]; split; [done|]); [by left|].
  destruct (same_caches_lookup _ _ _ _ Hsc Hcache) as (k1 & Hk1 & (Ga & _) & _). rewrite <- Ga.
  assert (live h' c p) as Hl by (apply Hlv; by right).
  right. split_and!; [done..| |].
  - intros b Hb. by apply (live_frames X h' c k1 p).
  - intros c' k' q Hq Hk'. destruct (same_caches_lookup _ _ _ _ Hsc Hk') as (k2 & Hk2 & (Ga2 & _) & _).
    rewrite <- Ga2. apply (live_disjoint X h' c c'); try done; [apply Hlv; by left|]. intros ->. by apply (Hfr c').
Qed.

(** C40. Releasing a live object through any cache pointer, the right one or a
    wrong one, keeps the heap well formed and removes exactly that object from
    the live ones; a pointer into frames of another owner is ignored; and
    shrinking a cache gives back exactly the frames of its free slabs, leaves no
    slab on its free list and disturbs no live object. *)
Theorem kmem_cache_free_correct X h c k
    (Hheap : heap_ok X h) (Hcache : caches h !! c = Some k) :
  (forall c' p, live h c' p ->
     heap_ok X (kmem_cache_free c p h) /\
     forall c'' q, live (kmem_cache_free c p h) c'' q <-> live h c'' q /\ q <> p) /\
  (forall p, slab_pfn p ∈ X -> kmem_cache_free c p h = h) /\
  (let '(n, h') := kmem_cache_shrink c h in
   n = Z.of_nat (length (slabs_free k)) /\ heap_ok X h' /\
   (exists k', caches h' !! c = Some k' /\ slabs_free k' = []) /\
   (forall p, p ∈ pa_frames (frames h') <->
      p ∈ pa_frames (frames h) \/ exists s, s ∈ slabs_free k /\ p ∈ slab_frames k s) /\
   (forall c' q, live h' c' q <-> live h c' q)).
Proof.
  split_and!; [intros c' p Hl; by apply (free_spec X h c' c k)|intros p Hp; by apply (free_foreign X)|].
  pose proof (shrink_spec X h c k Hheap Hcache) as Hs. destruct (kmem_cache_shrink c h) as [n h']. tauto.
Qed.

(** C39. On an initialised heap [kmalloc] returns NULL and changes nothing, or a
    block of at least the requested size: up to 8192 bytes an object of the
    smallest size class that holds it, not allocated before and the only new
    live object; above, whole frames that were free, with room for the size
    word in front.  The heap stays well formed. *)
Theorem kmalloc_correct X h size (Hok : kmalloc_ok X h) (Hsize : 0 < size < 2 ^ 64) :
  let '(p, h') := kmalloc size h in
  (p = 0 /\ h' = h) \/
  (size <= 8192 /\ kmalloc_ok X h' /\ p <> 0 /\ exists c k, caches h !! c = Some k /\ size <= aligned_size k /\
     (forall i, 0 <= i < NUM_SIZE_CLASSES -> size <= aget size_classes i -> aligned_size k <= aget size_classes i) /\
     (forall c', ~ live h c' p) /\ (forall c' q, live h' c' q <-> live h c' q \/ c' = c /\ q = p)) \/
  (8192 < size /\ exists a n, p = KERNEL_PHYS_MAP_BASE + a * PAGE_SIZE + sizeof_size_t /\
     size + sizeof_size_t <= n * PAGE_SIZE /\ 0 < n /\ frame_range a n ⊆ pa_frames (frames h) /\
     kmalloc_ok (X ∪ frame_range a n) h' /\ (forall c' q, live h' c' q <-> live h c' q)).
Proof. by apply kmalloc_spec. Qed.

(** From a well-formed page allocator [kmalloc_init] always succeeds.  When
    256 contiguous frames are free it yields an initialised heap with a sound
    cache for each size class, no live object, and the early heap in frames it
    took from the free ones; when they are not, the NULL test of
    [early_heap_init] does not see it and the early heap starts at physical
    address 0. *)
Theorem kmalloc_init_correct (st : St) name (Hinv : pa_inv st) :
  let '(phys, st') := pa_alloc 256 st in
  exists h, kmalloc_init name (heap_boot st) = Some h /\
    early_heap_start h = KERNEL_PHYS_MAP_BASE + phys /\
    (phys = 0 \/ exists a, phys = a * PAGE_SIZE /\ frame_range a 256 ⊆ pa_frames st /\
       pa_frames (frames h) = pa_frames st ∖ frame_range a 256 /\
       kmalloc_ok (frame_range a 256) h /\ forall c p, ~ live h c p).
Proof. by apply init_spec. Qed.

(** A block above 8192 bytes is never given back: right after [kmalloc]
    returned it, [kfree] of its address leaves the whole heap, free frames
    included, as it was. *)
Theorem kfree_large_leaks X h size
    (Hok : kmalloc_ok X h) (Hsize : 8192 < size < 2 ^ 64) (Hgot : (kmalloc size h).1 <> 0) :
  kfree (kmalloc size h).1 (kmalloc size h).2 = (kmalloc size h).2.
Proof.
  pose proof (kmalloc_spec X h size Hok ltac:(lia)) as Hk. destruct (kmalloc size h) as [p h'].
  cbn [fst snd] in *. destruct Hk as [[? _]|[[? _]|(_ & a & n & -> & Hn & Hn0 & Hsub & Hok' & _)]]; [done|lia|].
  unfold kfree. destruct (_ =? 0); [done|]. destruct (negb _); [done|].
  apply (free_foreign (X ∪ frame_range a n)); [apply Hok'|]. apply elem_of_union_r, elem_of_frame_range.
  assert (slab_pfn (KERNEL_PHYS_MAP_BASE + a * PAGE_SIZE + sizeof_size_t) = a); [|lia].
  unfold slab_pfn, sizeof_size_t.
  replace (KERNEL_PHYS_MAP_BASE + a * PAGE_SIZE + 8 - KERNEL_PHYS_MAP_BASE) with (8 + a * PAGE_SIZE) by lia.
  by rewrite Z.div_add.
Qed.

(** Growing or shrinking a block with [krealloc] moves it and copies at most
    its first eight bytes: outside them the new block holds what [kmalloc] left
    there, whatever the old block contained.  The old object is no longer live. *)
Theorem krealloc_copies_eight X h c ptr size
    (Hok : kmalloc_ok X h) (Hlive : live h c ptr) (Hptr : ptr <> 0) (Hsize : 0 < size < 2 ^ 64) :
  let '(p, h') := krealloc ptr size h in
  (p = 0 /\ h' = h) \/
  p = (kmalloc size h).1 /\ p <> 0 /\ (forall c', ~ live h' c' ptr) /\
  forall b, b < p \/ p + 8 <= b -> load8 b (bytes h') = load8 b (bytes (kmalloc size h).2).
Proof.
  unfold krealloc. destruct (Z.eqb_spec ptr 0); [done|]. destruct (Z.eqb_spec size 0); [lia|].
  pose proof (kmalloc_spec X h size Hok Hsize) as Hk. destruct (kmalloc size h) as [p h1]. cbn [fst snd].
  destruct (Z.eqb_spec p 0) as [->|Hp].
  { destruct Hk as [Hk|[(_ & _ & ? & _)|(_ & a & n' & E & _ & Hn0 & Hsub & _)]]; [by left|done|].
    destruct (pa_frames_managed (frames h) a (ho_pa _ _ (ko_heap _ _ Hok))) as [_ ?].
    - apply Hsub, elem_of_frame_range. lia.
    - unfold KERNEL_PHYS_MAP_BASE, PAGE_SIZE, sizeof_size_t in E. lia. }
  assert (Hk1 : exists X', kmalloc_ok X' h1 /\ live h1 c ptr).
  { destruct Hk as [[? _]|[(_ & ? & _ & c' & k' & _ & _ & _ & _ & Hlv)|(_ & a & n' & _ & _ & _ & _ & ? & Hlv)]]; [done|..].
    - exists X. split; [done|]. apply Hlv. by left.
    - eexists. split; [done|]. by apply Hlv. }
  destruct Hk1 as (X' & Hok1 & Hl1). right. split; [done|]. split; [done|].
  set (m := memcpy _ _ _ _). unfold kfree. destruct (Z.eqb_spec ptr 0); [done|]. cbn [slab_initialized with_bytes].
  rewrite (ko_init _ _ Hok1). cbn [negb size_caches with_bytes].
  destruct (ko_class _ _ Hok1 0 ltac:(done)) as (k0 & Hk0 & _).
  split.
  - intros c'. destruct (free_spec X' (with_bytes m h1) c (aget (size_caches h1) 0) k0 ptr) as [_ Hf]; [|done..|].
    + by apply heap_ok_bytes, Hok1.
    + rewrite Hf. intros [_ ?]. done.
  - intros b Hb. rewrite free_bytes. cbn. apply memcpy_frame.
    unfold kmalloc_usable_size. destruct (Z.eqb_spec ptr 0); [done|]. change (aget size_classes 0) with 8. lia.
Qed.
End props.

(** ** A concrete heap

    On [pmm_512], after [kmalloc_init]: the early heap takes frames 16 to
    271.  [heap_one] holds one block of 100 bytes on top of it. *)

Definition heap_512 : heap pmm :=
  match kmalloc_init 0 (heap_boot pmm_512) with Some h => h | None => heap_boot pmm_512 end.

Definition heap_one : heap pmm := (kmalloc 100 heap_512).2.
Definition block_one : Z := (kmalloc 100 heap_512).1.

Lemma heap_512_ok : kmalloc_ok (frame_range 16 256) heap_512.
Proof.
  pose proof (init_spec pmm_512 0 pmm_512_inv) as Hi. unfold heap_512.
  assert (E : (pa_alloc 256 pmm_512).1 = 65536) by (vm_compute; reflexivity).
  destruct (pa_alloc 256 pmm_512) as [phys st]. cbn [fst] in E. subst phys.
  destruct Hi as (h & -> & _ & [Hz|(a & Ha & _ & _ & Hok & _)]); [done|].
  assert (a = 16) as -> by (unfold PAGE_SIZE in Ha; lia). done.
Qed.

Lemma block_one_addr : block_one = 0xFFFF888000110030.
Proof. vm_compute. reflexivity. Qed.

Lemma heap_one_ok :
  kmalloc_ok (frame_range 16 256) heap_one /\ exists c, live heap_one c block_one.
Proof.
  pose proof (kmalloc_spec _ heap_512 100 heap_512_ok ltac:(lia)) as Hk. pose proof block_one_addr as Hb.
  unfold heap_one, block_one in *. destruct (kmalloc 100 heap_512) as [p h]. cbn [fst snd] in *.
  destruct Hk as [[-> _]|[(_ & ? & _ & c & k & _ & _ & _ & _ & Hl)|[? _]]]; [done| |lia].
  split; [done|]. exists c. apply Hl. by right.
Qed.

Lemma kmem_cache_alloc_correct_witness :
  let c := aget (size_caches heap_512) 3 in
  (kmem_cache_alloc c heap_512).1 = 0xFFFF888000110030 /\
  heap_ok (frame_range 16 256) (kmem_cache_alloc c heap_512).2.
Proof.
  intros c. split; [vm_compute; reflexivity|].
  destruct (ko_class _ _ heap_512_ok 3 ltac:(done)) as (k & Hk & _).
  pose proof (kmem_cache_alloc_correct _ heap_512 c k (ko_heap _ _ heap_512_ok) Hk) as H.
  destruct (kmem_cache_alloc c heap_512) as [p h]. destruct H as [H _]. exact H.
Defined.

Lemma kmem_cache_free_correct_witness :
  let c := aget (size_caches heap_one) 0 in
  heap_ok (frame_range 16 256) (kmem_cache_free c block_one heap_one) /\
  (forall c', ~ live (kmem_cache_free c block_one heap_one) c' block_one) /\
  kmem_cache_free c (PHYS_TO_VIRT (20 * PAGE_SIZE)) heap_one = heap_one.
Proof.
  intros c. destruct heap_one_ok as [Hok [c1 Hl]].
  destruct (ko_class _ _ Hok 0 ltac:(done)) as (k & Hk & _).
  destruct (kmem_cache_free_correct _ heap_one c k (ko_heap _ _ Hok) Hk) as (Hf & Hx & _).
  destruct (Hf c1 block_one Hl) as [Hh Hlv]. split; [exact Hh|]. split.
  - intros c' Hq. apply Hlv in Hq. tauto.
  - apply Hx. apply elem_of_frame_range. change (slab_pfn (PHYS_TO_VIRT (20 * PAGE_SIZE))) with 20. lia.
Defined.

Lemma kmalloc_correct_witness :
  (kmalloc 100 heap_512).1 <> 0 /\ kmalloc_ok (frame_range 16 256) (kmalloc 100 heap_512).2.
Proof.
  pose proof (kmalloc_correct _ heap_512 100 heap_512_ok ltac:(lia)) as H.
  assert (E : (kmalloc 100 heap_512).1 = 0xFFFF888000110030) by apply block_one_addr.
  destruct (kmalloc 100 heap_512) as [p h]. cbn [fst snd] in *. split; [by rewrite E|].
  destruct H as [[-> _]|[(_ & H & _)|[H _]]]; [done|exact H|lia].
Defined.

Lemma kmalloc_init_correct_witness :
  exists h, kmalloc_init 0 (heap_boot pmm_512) = Some h /\ kmalloc_ok (frame_range 16 256) h.
Proof.
  pose proof (kmalloc_init_correct pmm_512 0 pmm_512_inv) as H.
  assert (E : (pa_alloc 256 pmm_512).1 = 65536) by (vm_compute; reflexivity).
  destruct (pa_alloc 256 pmm_512) as [phys st]. cbn [fst] in E. subst phys.
  destruct H as (h & Hh & _ & [Hz|(a & Ha & _ & _ & Hok & _)]); [done|].
  exists h. split; [exact Hh|]. assert (a = 16) as -> by (unfold PAGE_SIZE in Ha; lia). exact Hok.
Defined.

Lemma kfree_large_leaks_witness :
  kfree (kmalloc 10000 heap_512).1 (kmalloc 10000 heap_512).2 = (kmalloc 10000 heap_512).2.
Proof.
  apply (kfree_large_leaks _ heap_512 10000 heap_512_ok); [lia|]. vm_compute. discriminate.
Defined.

Lemma krealloc_copies_eight_witness :
  let h := with_bytes (store8 (block_one + 8) 42 (bytes heap_one)) heap_one in
  load8 (block_one + 8) (bytes h) = 42 /\
  load8 ((krealloc block_one 200 h).1 + 8) (bytes (krealloc block_one 200 h).2) = 0.
Proof.
  intros h. split; [vm_compute; reflexivity|].
  destruct heap_one_ok as [Hok [c Hl]].
  apply (kmalloc_ok_bytes _ _ (store8 (block_one + 8) 42 (bytes heap_one))) in Hok.
  apply (live_bytes _ (store8 (block_one + 8) 42 (bytes heap_one))) in Hl.
  assert (E1 : (kmalloc 200 h).1 = 0xFFFF888000111030) by (vm_compute; reflexivity).
  assert (E2 : load8 0xFFFF888000111038 (bytes (kmalloc 200 h).2) = 0) by (vm_compute; reflexivity).
  assert (E3 : (krealloc block_one 200 h).1 <> 0) by (vm_compute; discriminate).
  pose proof (krealloc_copies_eight _ h c block_one 200 Hok Hl ltac:(by rewrite block_one_addr) ltac:(lia)) as H.
  destruct (krealloc block_one 200 h) as [p h']. cbn [fst snd] in *.
  destruct H as [[Hz _]|(Hp & _ & _ & Hb)]; [exfalso; exact (E3 Hz)|].
  rewrite E1 in Hp. subst p. change (0xFFFF888000111030 + 8) with 0xFFFF888000111038.
  rewrite Hb; [exact E2|]. right. reflexivity || lia.
Defined.
