(* ===== verification/Errno.v ===== *)
(** * Error numbers (kernel/include/obelisk/errno.h)

    The error numbers the modelled components return, negated, to their
    callers. *)

From S2P Require Import Prelude.

Abbreviation ENOENT := 2%Z (only parsing).
Abbreviation ESRCH := 3%Z (only parsing).
Abbreviation E2BIG := 7%Z (only parsing).
Abbreviation EBADF := 9%Z (only parsing).
Abbreviation EAGAIN := 11%Z (only parsing).
Abbreviation ENOMEM := 12%Z (only parsing).
Abbreviation EFAULT := 14%Z (only parsing).
Abbreviation EACCES := 13%Z (only parsing).
Abbreviation EBUSY := 16%Z (only parsing).
Abbreviation EEXIST := 17%Z (only parsing).
Abbreviation EINVAL := 22%Z (only parsing).
Abbreviation ENOSPC := 28%Z (only parsing).
Abbreviation EMSGSIZE := 90%Z (only parsing).
Abbreviation ETIMEDOUT := 110%Z (only parsing).
Abbreviation EAXIOMD := 201%Z (only parsing).
