(* ===== verification/Paging.v ===== *)
(** * Page tables (kernel/arch/x86_64/mm/paging.c, arch/mmu.h)

    Four-level paging over the page allocator.  The tables live in physical
    memory: [tabs] gives the 512 entries of the table at each physical address,
    and a pointer to an entry is its table and index.  TLB maintenance and the
    control registers are not modelled.  Read as a whole, a page table is a map
    from virtual page numbers to leaf entries, [pt_entry]; an absent one is 0. *)

From S2P Require Import Prelude PageAllocator Errno.

Definition PTE_PRESENT : Z := 1.
Definition PTE_WRITABLE : Z := 2.
Definition PTE_USER : Z := 4.
Definition PTE_HUGE : Z := 128.
Definition PTE_COW : Z := 512.

Definition PAGE_FRAME_MASK : Z := 0x000FFFFFFFFFF000.
Definition PAGE_OFFSET_MASK : Z := 0xFFF.

Definition PML4_INDEX (addr : Z) : Z := Z.land (Z.shiftr addr 39) 0x1FF.
Definition PDPT_INDEX (addr : Z) : Z := Z.land (Z.shiftr addr 30) 0x1FF.
Definition PD_INDEX (addr : Z) : Z := Z.land (Z.shiftr addr 21) 0x1FF.
Definition PT_INDEX (addr : Z) : Z := Z.land (Z.shiftr addr 12) 0x1FF.

Definition pte_get_frame (pte : Z) : Z := Z.land pte PAGE_FRAME_MASK.
Definition pte_make (frame flags : Z) : Z := Z.lor (Z.land frame PAGE_FRAME_MASK) flags.

(** ** State *)

Record mmu (St : Type) := Mmu {
  pmem : St;
  tabs : gmap Z (list Z)
}.
Arguments Mmu {St}.
Arguments pmem {St}.
Arguments tabs {St}.

Definition slot : Type := Z * Z.

(** A page of PT_ENTRIES zeroed entries. *)
Definition zero_table : list Z := replicate 512 0.

(** The tables of the kernel, as boot.S builds them at the addresses of its four
    pages: the first gigabyte in pages of 2 MB, at the bottom, in the direct map and
    in the kernel's own range, by way of the same tables. *)
Definition setup_page_tables (boot_pml4 boot_pdpt_low boot_pdpt_high boot_pd : Z) : gmap Z (list Z) :=
  <[boot_pml4 := aset (aset (aset zero_table 0 (Z.lor boot_pdpt_low 3)) 273 (Z.lor boot_pdpt_low 3)) 511 (Z.lor boot_pdpt_high 3)]>
  (<[boot_pdpt_low := aset zero_table 0 (Z.lor boot_pd 3)]>
  (<[boot_pdpt_high := aset zero_table 510 (Z.lor boot_pd 3)]>
  (<[boot_pd := (fun i => u32 (0x83 + i * 0x200000)) <$> seqZ 0 512]> ∅))).

Section operations.
Context {St : Type} `{PageAllocator St}.
Implicit Types (m : mmu St) (s : slot).

Definition with_pmem (st : St) m : mmu St := Mmu st (tabs m).

Definition get_entry m s : Z := aget (default [] (tabs m !! s.1)) s.2.

Definition set_entry s (v : Z) m : mmu St :=
  Mmu (pmem m) (alter (fun es => aset es s.2 v) s.1 (tabs m)).

Definition alloc_page m : Z * mmu St :=
  let '(phys, st) := pa_alloc_page (pmem m) in (phys, with_pmem st m).

Definition free_page (phys : Z) m : mmu St := with_pmem (pa_free_page phys (pmem m)) m.

(** ** Walking *)

Definition paging_get_entry (table virt : Z) (level : nat) : slot :=
  (table,
   match level with
   | 4%nat => PML4_INDEX virt
   | 3%nat => PDPT_INDEX virt
   | 2%nat => PD_INDEX virt
   | _ => PT_INDEX virt
   end).

(** The table an entry points to, allocated and zeroed if need be; [None] when
    no page is left. *)
Definition paging_get_or_create (e : slot) (flags : Z) m : option Z * mmu St :=
  if flagb (get_entry m e) PTE_PRESENT then (Some (pte_get_frame (get_entry m e)), m) else
  let '(new_table, m) := alloc_page m in
  if new_table =? 0 then (None, m) else
  let m := Mmu (pmem m) (<[new_table := zero_table]> (tabs m)) in
  (Some new_table, set_entry e (pte_make new_table (Z.lor flags PTE_PRESENT)) m).

(** One level of the walk, below the test for a huge page. *)
Definition next_table (e : slot) (create : bool) (flags : Z) m : option Z * mmu St :=
  if negb (flagb (get_entry m e) PTE_PRESENT) then
    if negb create then (None, m) else paging_get_or_create e flags m
  else (Some (pte_get_frame (get_entry m e)), m).

Definition paging_walk (pml4 virt : Z) (create : bool) m : option slot * mmu St :=
  let flags := Z.lor PTE_PRESENT PTE_WRITABLE in
  let flags := if virt <? KERNEL_VIRT_BASE then Z.lor flags PTE_USER else flags in
  let pml4e := paging_get_entry pml4 virt 4 in
  match next_table pml4e create flags m with
  | (None, m) => (None, m)
  | (Some pdpt, m) =>
    let pdpte := paging_get_entry pdpt virt 3 in
    if flagb (get_entry m pdpte) PTE_HUGE then (Some pdpte, m) else
    match next_table pdpte create flags m with
    | (None, m) => (None, m)
    | (Some pd, m) =>
      let pde := paging_get_entry pd virt 2 in
      if flagb (get_entry m pde) PTE_HUGE then (Some pde, m) else
      match next_table pde create flags m with
      | (None, m) => (None, m)
      | (Some page_table, m) => (Some (paging_get_entry page_table virt 1), m)
      end
    end
  end.

(** ** Operations *)

Definition mmu_map (pt virt phys flags : Z) m : Z * mmu St :=
  let virt := ALIGN_DOWN virt PAGE_SIZE in
  let phys := ALIGN_DOWN phys PAGE_SIZE in
  match paging_walk pt virt true m with
  | (None, m) => (- ENOMEM, m)
  | (Some pte, m) =>
    if flagb (get_entry m pte) PTE_PRESENT then (- EEXIST, m)
    else (0, set_entry pte (pte_make phys (Z.lor flags PTE_PRESENT)) m)
  end.

Definition mmu_unmap (pt virt : Z) m : Z * mmu St :=
  let virt := ALIGN_DOWN virt PAGE_SIZE in
  match paging_walk pt virt false m with
  | (Some pte, m) =>
    if negb (flagb (get_entry m pte) PTE_PRESENT) then (- ENOENT, m) else (0, set_entry pte 0 m)
  | (None, m) => (- ENOENT, m)
  end.

Definition mmu_unmap_range (pt virt size : Z) m : mmu St :=
  let size := ALIGN_UP size PAGE_SIZE in
  for_range 0 (size / PAGE_SIZE) (fun i m => (mmu_unmap pt (u64 (virt + i * PAGE_SIZE)) m).2) m.

Fixpoint map_range_loop (n : nat) (pt virt phys flags offset : Z) m : Z * mmu St :=
  match n with
  | O => (0, m)
  | S n =>
    let '(ret, m) := mmu_map pt (u64 (virt + offset)) (u64 (phys + offset)) flags m in
    if negb (ret =? 0) && negb (ret =? - EEXIST)
    then (ret, mmu_unmap_range pt virt offset m)
    else map_range_loop n pt virt phys flags (offset + PAGE_SIZE) m
  end.

Definition mmu_map_range (pt virt phys size flags : Z) m : Z * mmu St :=
  let size := ALIGN_UP size PAGE_SIZE in
  map_range_loop (Z.to_nat (size / PAGE_SIZE)) pt virt phys flags 0 m.

Definition mmu_resolve (pt virt : Z) m : Z :=
  match (paging_walk pt virt false m).1 with
  | Some pte =>
    if negb (flagb (get_entry m pte) PTE_PRESENT) then 0
    else Z.lor (pte_get_frame (get_entry m pte)) (Z.land virt PAGE_OFFSET_MASK)
  | None => 0
  end.

Definition mmu_get_flags (pt virt : Z) m : Z :=
  match (paging_walk pt virt false m).1 with
  | Some pte => Z.land (get_entry m pte) (u64 (Z.lnot PAGE_FRAME_MASK))
  | None => 0
  end.

Definition mmu_set_flags (pt virt flags : Z) m : Z * mmu St :=
  match paging_walk pt virt false m with
  | (Some pte, m) =>
    if negb (flagb (get_entry m pte) PTE_PRESENT) then (- ENOENT, m)
    else (0, set_entry pte (pte_make (pte_get_frame (get_entry m pte)) (Z.lor flags PTE_PRESENT)) m)
  | (None, m) => (- ENOENT, m)
  end.

(** The new PML4, with the upper half copied from the kernel's; the outcome of
    [kmalloc] for the [struct page_table] is an argument.  0 is NULL. *)
Definition mmu_create_page_table (kernel_pml4 : Z) (struct_ok : bool) m : Z * mmu St :=
  if negb struct_ok then (0, m) else
  let '(pml4_phys, m) := alloc_page m in
  if pml4_phys =? 0 then (0, m) else
  let m := Mmu (pmem m) (<[pml4_phys := zero_table]> (tabs m)) in
  (pml4_phys,
   for_range 256 512 (fun i m => set_entry (pml4_phys, i) (get_entry m (kernel_pml4, i)) m) m).

(** Only the PML4 is freed. *)
Definition mmu_destroy_page_table (kernel_pml4 pml4_phys : Z) m : mmu St :=
  if (pml4_phys =? 0) || (pml4_phys =? kernel_pml4) then m else free_page pml4_phys m.
End operations.
