(* ===== verification/PagingProps.v ===== *)
(** * Correctness of the page tables

    The lower half of a root, which belongs to its process, as a tree in which
    every table knows its level and the virtual pages it serves, and the proof
    that mapping, unmapping and changing flags of a user page act on its leaf
    entry and on nothing else.  The upper half is the kernel's: its tables are
    shared by all roots, with one another, and map large pages, as boot.S sets
    them up, so that nothing is assumed of them. *)

From S2P Require Import Prelude PageAllocator Pmm Errno Paging.

(** ** Virtual page numbers *)

(** The 36-bit page number of an address, and its index at level [l] (3 for the
    PML4, 0 for the last level). *)
Definition vpn (virt : Z) : Z := virt / PAGE_SIZE mod 512 ^ 4.
Definition idx (l : nat) (w : Z) : Z := w / 512 ^ Z.of_nat l mod 512.

(** The pages of the lower half. *)
Definition user_page (w : Z) : Prop := 0 <= w < 2 ^ 35.

(** Entry [i] of a table of level [l] is not one of the kernel's. *)
Definition lower_half (l : nat) (i : Z) : Prop := l = 3%nat -> i < 256.

Lemma vpn_range virt : 0 <= vpn virt < 512 ^ 4.
Proof. apply Z.mod_pos_bound. lia. Qed.

Lemma idx_range l w : 0 <= idx l w < 512.
Proof. apply Z.mod_pos_bound. lia. Qed.

Lemma user_page_range w : user_page w -> 0 <= w < 512 ^ 4.
Proof. unfold user_page. lia. Qed.

Lemma user_vpn addr : 0 <= addr < 2 ^ 47 -> vpn addr = addr / PAGE_SIZE /\ user_page (vpn addr).
Proof.
  intros Ha. unfold user_page, vpn, PAGE_SIZE.
  assert (0 <= addr / 4096 < 2 ^ 35) by (split; [apply Z.div_pos; lia|apply Z.div_lt_upper_bound; lia]).
  rewrite Z.mod_small by lia. done.
Qed.

Lemma user_lower l w : user_page w -> lower_half l (idx l w).
Proof.
  intros Hw ->. unfold idx, user_page in *. change (512 ^ Z.of_nat 3) with (2 ^ 27).
  rewrite Z.mod_small; [apply Z.div_lt_upper_bound; lia|]. split; [apply Z.div_pos; lia|]. apply Z.div_lt_upper_bound; lia.
Qed.

Lemma index_idx virt sh l :
  sh = 12 + 9 * Z.of_nat l -> (l <= 3)%nat -> Z.land (Z.shiftr virt sh) 0x1FF = idx l (vpn virt).
Proof.
  intros -> Hl. change 0x1FF with (Z.ones 9). rewrite Z.land_ones, Z.shiftr_div_pow2 by lia.
  unfold idx, vpn, PAGE_SIZE. change (2 ^ 9) with 512.
  rewrite Z.pow_add_r by lia. rewrite <- Z.div_div by lia. change (2 ^ 12) with 4096.
  rewrite Z.pow_mul_r by lia. change (2 ^ 9) with 512.
  set (x := virt / 4096). set (q := 512 ^ Z.of_nat l). assert (0 < q) by (unfold q; lia).
  assert (exists r, 512 ^ 4 = q * (512 * r) /\ 0 < r) as (r & -> & Hr).
  { exists (512 ^ (3 - Z.of_nat l)). split; [|lia]. unfold q.
    rewrite <- (Z.pow_succ_r 512) by lia. rewrite <- Z.pow_add_r by lia. f_equal. lia. }
  rewrite Z.rem_mul_r by lia. rewrite (Z.mul_comm q), Z.div_add by lia.
  rewrite (Z.div_small (x mod q)) by (apply Z.mod_pos_bound; lia). rewrite Z.add_0_l.
  rewrite Z.rem_mul_r by lia. rewrite (Z.mul_comm 512), Z.mod_add by lia. by rewrite Z.mod_mod.
Qed.

Lemma entry_index table virt l :
  (l <= 3)%nat -> paging_get_entry table virt (S l) = (table, idx l (vpn virt)).
Proof.
  intros Hl. unfold paging_get_entry, PML4_INDEX, PDPT_INDEX, PD_INDEX, PT_INDEX.
  destruct l as [|[|[|[|l]]]]; [..|lia]; f_equal; by apply index_idx.
Qed.

(** The pages under entry [i] of a table for prefix [p]. *)
Lemma prefix_next l w : 0 <= w -> w / 512 ^ Z.of_nat (S l) * 512 + idx l w = w / 512 ^ Z.of_nat l.
Proof.
  intros Hw. unfold idx. pose proof (Z.div_mod (w / 512 ^ Z.of_nat l) 512 ltac:(lia)) as Hd.
  replace (512 ^ Z.of_nat (S l)) with (512 ^ Z.of_nat l * 512)
    by (rewrite Nat2Z.inj_succ, Z.pow_succ_r by lia; lia).
  rewrite <- Z.div_div by lia. lia.
Qed.

(** ** Entries *)

Lemma testbit_mask i : 0 <= i -> Z.testbit PAGE_FRAME_MASK i = (12 <=? i) && (i <? 52).
Proof.
  intros Hi. change PAGE_FRAME_MASK with (Z.shiftl (Z.ones 40) 12).
  rewrite Z.shiftl_spec by lia. destruct (Z.leb_spec 12 i); cbn [andb].
  - rewrite Z.testbit_ones_nonneg by lia. destruct (Z.ltb_spec i 52), (Z.ltb_spec (i - 12) 40); lia || done.
  - by rewrite Z.testbit_neg_r by lia.
Qed.

(** A frame address: whole pages below 2^52. *)
Definition frame_addr (t : Z) : Prop := t = t / PAGE_SIZE * PAGE_SIZE /\ 0 <= t < 2 ^ 52.

Lemma frame_addr_mask t : frame_addr t -> Z.land t PAGE_FRAME_MASK = t.
Proof.
  intros [Ht Hr]. apply Z.bits_inj'. intros i Hi. rewrite Z.land_spec, testbit_mask by lia.
  destruct (Z.leb_spec 12 i), (Z.ltb_spec i 52); cbn [andb]; rewrite ?andb_true_r, ?andb_false_r; try done.
  - symmetry. apply (testbit_ge t 52); lia.
  - rewrite Ht. unfold PAGE_SIZE. change 4096 with (2 ^ 12). rewrite <- Z.shiftl_mul_pow2 by lia.
    by rewrite Z.shiftl_spec_low by lia.
  - lia.
Qed.

Definition table_flags (flags : Z) : Prop := 0 <= flags < 2 ^ 12.

Lemma pte_make_frame_mask t flags :
  frame_addr t -> Z.land flags PAGE_FRAME_MASK = 0 -> pte_get_frame (pte_make t flags) = t.
Proof.
  intros Ht Hf. unfold pte_get_frame, pte_make. rewrite (frame_addr_mask t Ht).
  by rewrite Z.land_lor_distr_l, frame_addr_mask, Hf, Z.lor_0_r.
Qed.

Lemma pte_make_frame t flags : frame_addr t -> table_flags flags -> pte_get_frame (pte_make t flags) = t.
Proof.
  intros Ht Hf. unfold pte_get_frame, pte_make. rewrite (frame_addr_mask t Ht).
  rewrite Z.land_lor_distr_l, frame_addr_mask by done.
  replace (Z.land flags PAGE_FRAME_MASK) with 0; [apply Z.lor_0_r|].
  symmetry. apply Z.bits_inj'. intros i Hi. rewrite Z.land_spec, testbit_mask, Z.bits_0 by lia.
  destruct (Z.leb_spec 12 i); [|apply andb_false_r]. by rewrite (testbit_ge flags 12) by (unfold table_flags in *; lia).
Qed.

Lemma pte_make_low t flags i :
  0 <= i < 12 -> Z.testbit (pte_make t flags) i = Z.testbit flags i.
Proof.
  intros Hi. unfold pte_make. rewrite Z.lor_spec, Z.land_spec, testbit_mask by lia.
  destruct (Z.leb_spec 12 i); [lia|]. by rewrite andb_false_r.
Qed.

Lemma flag_present x : flagb x PTE_PRESENT = Z.testbit x 0.
Proof. apply (flagb_pow2 x 0). lia. Qed.

Lemma flag_huge x : flagb x PTE_HUGE = Z.testbit x 7.
Proof. apply (flagb_pow2 x 7). lia. Qed.

Lemma pte_make_present t flags : flagb (pte_make t (Z.lor flags PTE_PRESENT)) PTE_PRESENT = true.
Proof.
  rewrite flag_present, pte_make_low, Z.lor_spec by lia. apply orb_true_r.
Qed.

Lemma pte_make_word t flags : 0 <= flags < 2 ^ 64 -> 0 <= t -> 0 <= pte_make t flags < 2 ^ 64.
Proof.
  intros Hf Ht. apply lor_word; [lia| |done]. split; [apply Z.land_nonneg; by left|].
  apply word_bounds_of_bits; [lia|apply Z.land_nonneg; by left|]. intros i Hi.
  rewrite Z.land_spec, testbit_mask by lia. destruct (Z.ltb_spec i 52); [lia|]. rewrite andb_false_r. apply andb_false_r.
Qed.

Lemma zero_table_get i : aget zero_table i = 0.
Proof.
  unfold aget. destruct (zero_table !! Z.to_nat i) as [x|] eqn:E; [|done].
  apply lookup_replicate in E as [-> _]. done.
Qed.

Lemma zero_table_ok : length zero_table = 512%nat /\ words 64 zero_table.
Proof. split; [apply length_replicate|]. apply Forall_replicate. lia. Qed.

#[local] Opaque zero_table.

(** ** The tree of tables *)

Section tree.
Context {St : Type} `{PageAllocator St}.
Implicit Types (m : mmu St) (shape : gmap Z (nat * Z)).

(** What holds of a table at [t]. *)
Record table_ok m (t : Z) (l : nat) : Prop := {
  ta_level : (l <= 3)%nat;
  ta_addr : frame_addr t;
  ta_used : t / PAGE_SIZE ∉ pa_frames (pmem m);
  ta_entries : exists es, tabs m !! t = Some es /\ length es = 512%nat /\ words 64 es;
  ta_huge : forall i, 0 <= i < 512 -> (0 < l < 3)%nat -> flagb (get_entry m (t, i)) PTE_HUGE = false
}.

(** [shape] records the level of each table of the lower half and the prefix of
    the page numbers it serves: the root has level 3 and prefix 0, a present entry
    [i] of a table of level [l + 1] and prefix [p] points to the table of level
    [l] and prefix [512 p + i], and every table but the root is reached so.  The
    entries of the root from 256 on are not looked at. *)
Record pt_ok (root : Z) shape m : Prop := {
  po_inv : pa_inv (pmem m);
  po_root : shape !! root = Some (3%nat, 0);
  po_table : forall t l p, shape !! t = Some (l, p) -> table_ok m t l;
  po_next : forall t l p i, shape !! t = Some (S l, p) -> 0 <= i < 512 -> lower_half (S l) i ->
    flagb (get_entry m (t, i)) PTE_PRESENT = true ->
    shape !! pte_get_frame (get_entry m (t, i)) = Some (l, p * 512 + i);
  po_parent : forall t l p, shape !! t = Some (l, p) -> (l < 3)%nat ->
    exists t' i, shape !! t' = Some (S l, p / 512) /\ i = p mod 512 /\ lower_half (S l) i /\
      flagb (get_entry m (t', i)) PTE_PRESENT = true /\ pte_get_frame (get_entry m (t', i)) = t;
  po_inj : forall t t' lp, shape !! t = Some lp -> shape !! t' = Some lp -> t = t'
}.

(** The leaf entry under the table [t] of level [l] for page [w]; 0 when a table
    is missing on the way. *)
Fixpoint entry_at m (l : nat) (t w : Z) : Z :=
  let e := get_entry m (t, idx l w) in
  match l with
  | O => e
  | S l => if flagb e PTE_PRESENT then entry_at m l (pte_get_frame e) w else 0
  end.

(** The page table as a map. *)
Definition pt_entry m (root w : Z) : Z := entry_at m 3 root w.

Lemma get_set_entry m t i j t' v :
  0 <= i < 512 -> 0 <= j < 512 -> (exists es, tabs m !! t = Some es /\ length es = 512%nat) ->
  get_entry (set_entry (t, i) v m) (t', j) = if decide ((t', j) = (t, i)) then v else get_entry m (t', j).
Proof.
  intros Hi Hj (es & Hes & Hlen). unfold get_entry, set_entry. cbn [fst snd tabs].
  destruct (decide (t' = t)) as [->|Hne].
  - rewrite lookup_alter_eq, Hes. cbn. case_decide as E.
    + injection E as ->. apply aget_aset_eq. lia.
    + apply aget_aset_ne; [lia..|]. congruence.
  - rewrite lookup_alter_ne by done. rewrite decide_False by congruence. done.
Qed.

Lemma table_exists m t l : table_ok m t l -> exists es, tabs m !! t = Some es /\ length es = 512%nat.
Proof. intros [_ _ _ (es & ? & ? & _) _]. by exists es. Qed.

(** *** Changing a leaf *)

Lemma set_leaf_table m t p v t' l' shape root :
  pt_ok root shape m -> shape !! t = Some (O, p) -> 0 <= v < 2 ^ 64 -> shape !! t' = Some l' ->
  forall i, 0 <= i < 512 -> table_ok (set_entry (t, i) v m) t' l'.1.
Proof.
  intros Hok Ht Hv Ht' i Hi. destruct l' as [l' p']. pose proof (po_table _ _ _ Hok _ _ _ Ht') as Htab.
  pose proof (po_table _ _ _ Hok _ _ _ Ht) as Htt.
  pose proof (table_exists _ _ _ Htt) as Hex. destruct Htab as [Hl Ha Hu (es & Hes & Hlen & Hw) Hh]. split; try done.
  - cbn [tabs set_entry fst snd]. destruct (decide (t' = t)) as [->|].
    + rewrite lookup_alter_eq, Hes. eexists. split; [done|]. rewrite length_aset. split; [done|]. by apply aset_words.
    + rewrite lookup_alter_ne by done. by exists es.
  - intros j Hj Hlt. rewrite get_set_entry by done. rewrite decide_False; [by apply Hh|].
    intros [= -> ->]. rewrite Ht in Ht'. injection Ht' as <- <-. cbn in Hlt. lia.
Qed.

Lemma set_leaf_ok root shape m t p i v :
  pt_ok root shape m -> shape !! t = Some (O, p) -> 0 <= i < 512 -> 0 <= v < 2 ^ 64 ->
  pt_ok root shape (set_entry (t, i) v m).
Proof.
  intros Hok Ht Hi Hv. pose proof (table_exists _ _ _ (po_table _ _ _ Hok _ _ _ Ht)) as Hex.
  assert (Hsame : forall t' l' p' j, shape !! t' = Some (S l', p') -> 0 <= j < 512 ->
    get_entry (set_entry (t, i) v m) (t', j) = get_entry m (t', j)).
  { intros t' l' p' j Ht' Hj. rewrite get_set_entry by done. rewrite decide_False; [done|]. congruence. }
  split.
  - apply Hok.
  - apply Hok.
  - intros t' l' p' Ht'. by apply (set_leaf_table m t p v t' (l', p') shape root).
  - intros t' l' p' j Ht' Hj Hlo. rewrite (Hsame _ _ _ _ Ht' Hj). by apply Hok.
  - intros t' l' p' Ht' Hl'. destruct (po_parent _ _ _ Hok _ _ _ Ht' Hl') as (u & j & Hu & -> & Hlo & Hp & Hf).
    exists u, (p' mod 512). split_and!; try done; (rewrite (Hsame u _ _ _ Hu); [done|apply Z.mod_pos_bound; lia]).
  - apply Hok.
Qed.

(** Page [w] of the subtree of [t] has the prefix of [t]. *)
Definition under (l : nat) (p w : Z) : Prop := 0 <= w /\ w / 512 ^ Z.of_nat (S l) = p.

Lemma under_next l p w : under (S l) p w -> under l (p * 512 + idx (S l) w) w.
Proof. intros [Hw <-]. split; [done|]. symmetry. by apply prefix_next. Qed.

Lemma under_root w : user_page w -> under 3 0 w.
Proof. intros Hw%user_page_range. split; [lia|]. by apply Z.div_small. Qed.

Lemma under_leaf p w : under 0 p w -> w = p * 512 + idx 0 w.
Proof. intros [Hw <-]. rewrite prefix_next by done. cbn. by rewrite Z.div_1_r. Qed.

(** Above a table for page [w] there is one at every level up to the root. *)
Lemma ancestor root shape m w :
  pt_ok root shape m -> forall l d k u q, d = (l - k)%nat -> (k <= l <= 3)%nat ->
  shape !! u = Some (k, q) -> under k q w ->
  exists u', shape !! u' = Some (l, w / 512 ^ Z.of_nat (S l)).
Proof.
  intros Hok l. induction d as [|d IHd]; intros k u q Hd Hk Hsu Huq.
  - assert (k = l) as -> by lia. exists u. destruct Huq as [_ <-]. done.
  - destruct (po_parent _ _ _ Hok _ _ _ Hsu) as (u' & j & Hu' & _); [lia|].
    apply (IHd (S k) u' (q / 512)); [lia|lia|done|]. destruct Huq as [Hw <-]. split; [done|].
    rewrite Z.div_div by lia. f_equal. rewrite (Nat2Z.inj_succ (S k)), Z.pow_succ_r by lia. lia.
Qed.

Lemma set_leaf_entry_at root shape m t p i v :
  pt_ok root shape m -> shape !! t = Some (O, p) -> 0 <= i < 512 ->
  forall l t' p' w, shape !! t' = Some (l, p') -> under l p' w -> user_page w ->
  entry_at (set_entry (t, i) v m) l t' w = if decide (w = p * 512 + i) then v else entry_at m l t' w.
Proof.
  intros Hok Ht Hi. pose proof (table_exists _ _ _ (po_table _ _ _ Hok _ _ _ Ht)) as Hex.
  induction l as [|l IH]; intros t' p' w Ht' Hu Hup; cbn [entry_at];
    rewrite get_set_entry by (done || apply idx_range).
  - pose proof (idx_range 0 w). pose proof (under_leaf _ _ Hu) as Hw.
    destruct (decide ((t', idx 0 w) = (t, i))) as [E|E].
    + injection E as -> Ei. rewrite Ht in Ht'. injection Ht' as <-. rewrite decide_True by lia. done.
    + rewrite decide_False; [done|]. intros E'. apply E.
      assert (p' = p) as -> by lia. assert (t' = t) as -> by (by eapply (po_inj _ _ _ Hok)).
      f_equal. lia.
  - rewrite decide_False by congruence. destruct (flagb _ _) eqn:E.
    + apply IH with (p' := p' * 512 + idx (S l) w); [|by apply under_next|done].
      apply (po_next _ _ _ Hok _ _ _ _ Ht'); [apply idx_range|by apply user_lower|done].
    + case_decide as Ew; [|done]. exfalso.
      pose proof (ta_level _ _ _ (po_table _ _ _ Hok _ _ _ Ht')).
      destruct (ancestor root shape m w Hok l (l - 0) O t p) as (u & Hsu); [lia|lia|done| |].
      { split; [apply Hu|]. change (512 ^ Z.of_nat 1) with 512. rewrite Ew, Z.mul_comm, Z.add_comm.
        rewrite (Z.mul_comm 512), Z.div_add, Z.div_small by lia. lia. }
      destruct (po_parent _ _ _ Hok _ _ _ Hsu) as (u' & j & Hu' & -> & _ & Hp & _); [lia|].
      assert (u' = t') as ->.
      { apply (po_inj _ _ _ Hok _ _ (S l, p')); [|done]. rewrite Hu'. f_equal. f_equal.
        destruct Hu as [_ <-]. rewrite Z.div_div by lia. f_equal. rewrite (Nat2Z.inj_succ (S l)), (Z.pow_succ_r 512) by lia. lia. }
      unfold idx in E. congruence.
Qed.

(** *** Adding a table *)

Section grow.
Context (root : Z) (shape : gmap Z (nat * Z)) (m : mmu St) (Hok : pt_ok root shape m).
Context (t p i : Z) (l : nat) (Ht : shape !! t = Some (S l, p)) (Hi : 0 <= i < 512) (Hlow : lower_half (S l) i).
Context (Habs : flagb (get_entry m (t, i)) PTE_PRESENT = false).
Context (st : St) (a flags : Z) (Ha : a ∈ pa_frames (pmem m)) (Hst : pa_inv st).
Context (Hfr : pa_frames st = pa_frames (pmem m) ∖ {[a]}).
Context (Hfl : table_flags flags) (Hhuge : Z.testbit flags 7 = false).

Let n := a * PAGE_SIZE.
Let m' := set_entry (t, i) (pte_make n (Z.lor flags PTE_PRESENT)) (Mmu st (<[n := zero_table]> (tabs m))).
Let shape' := <[n := (l, p * 512 + i)]> shape.

Lemma grow_addr : frame_addr n /\ n / PAGE_SIZE = a /\ n <> 0.
Proof.
  destruct (pa_frames_managed (pmem m) a (po_inv _ _ _ Hok) Ha) as [_ Hr].
  unfold n, frame_addr. rewrite Z.div_mul by done. unfold PAGE_SIZE. lia.
Qed.

Lemma grow_fresh_table : shape !! n = None.
Proof.
  destruct (shape !! n) as [[l' p']|] eqn:E; [|done]. exfalso.
  destruct (po_table _ _ _ Hok _ _ _ E) as [_ _ Hu _ _]. destruct grow_addr as (_ & Hn & _). by rewrite Hn in Hu.
Qed.

Lemma grow_get u j :
  0 <= j < 512 -> get_entry m' (u, j) =
    if decide ((u, j) = (t, i)) then pte_make n (Z.lor flags PTE_PRESENT)
    else if decide (u = n) then 0 else get_entry m (u, j).
Proof.
  intros Hj. assert (t <> n) by (intros E; pose proof grow_fresh_table; congruence).
  unfold m'. rewrite get_set_entry; [|done|done|].
  - case_decide; [done|]. unfold get_entry. cbn [tabs fst snd]. case_decide as En.
    + subst u. rewrite lookup_insert_eq. apply zero_table_get.
    + by rewrite lookup_insert_ne.
  - destruct (table_exists _ _ _ (po_table _ _ _ Hok _ _ _ Ht)) as (es & ? & ?).
    exists es. cbn. by rewrite lookup_insert_ne.
Qed.

Lemma grow_get_old u lu j :
  shape !! u = Some lu -> 0 <= j < 512 -> (u, j) <> (t, i) -> get_entry m' (u, j) = get_entry m (u, j).
Proof.
  intros Hu Hj Hne. rewrite grow_get by done. rewrite !decide_False; [done| |done].
  intros ->. pose proof grow_fresh_table. congruence.
Qed.

Lemma grow_new_flags : table_flags (Z.lor flags PTE_PRESENT).
Proof. apply (lor_word 12); [lia|done|done]. Qed.

Lemma grow_table u lu : shape' !! u = Some lu -> table_ok m' u lu.1.
Proof.
  destruct lu as [lu pu]. cbn. unfold shape'. destruct grow_addr as (Hna & Hnd & Hn0).
  pose proof (ta_level _ _ _ (po_table _ _ _ Hok _ _ _ Ht)).
  assert (Hhf : flagb (pte_make n (Z.lor flags PTE_PRESENT)) PTE_HUGE = false).
  { rewrite flag_huge, pte_make_low, Z.lor_spec, Hhuge by lia. done. }
  intros [[<- [= <- <-]]|[Hne Hu]]%lookup_insert_Some.
  - assert (t <> n) by (intros E; pose proof grow_fresh_table; congruence).
    split; [lia|done| | |].
    + unfold m'. cbn [pmem set_entry]. rewrite Hnd, Hfr. set_solver.
    + exists zero_table. unfold m'. cbn. rewrite lookup_alter_ne, lookup_insert_eq by done.
      split; [done|apply zero_table_ok].
    + intros j Hj _. rewrite grow_get by done. rewrite decide_False by congruence. by rewrite decide_True.
  - destruct (po_table _ _ _ Hok _ _ _ Hu) as [Hl Hau Hus (es & Hes & Hlen & Hw) Hhg]. split; try done.
    + unfold m'. cbn [pmem set_entry]. rewrite Hfr. set_solver.
    + unfold m'. cbn. destruct (decide (u = t)) as [->|].
      * rewrite lookup_alter_eq, lookup_insert_ne, Hes by done. eexists. split; [done|].
        rewrite length_aset. split; [done|]. apply aset_words; [done|].
        apply pte_make_word; [|destruct Hna; lia]. pose proof grow_new_flags. unfold table_flags in *. lia.
      * rewrite lookup_alter_ne, lookup_insert_ne by done. by exists es.
    + intros j Hj Hlt. destruct (decide ((u, j) = (t, i))) as [E|E].
      * injection E as -> ->. rewrite grow_get, decide_True by done. done.
      * rewrite (grow_get_old u (lu, pu)) by done. by apply Hhg.
Qed.

Lemma grow_position u : shape !! u = Some (l, p * 512 + i) -> False.
Proof.
  intros Hu. pose proof (ta_level _ _ _ (po_table _ _ _ Hok _ _ _ Ht)).
  destruct (po_parent _ _ _ Hok _ _ _ Hu) as (v & j & Hv & -> & _ & Hp & _); [lia|].
  assert ((p * 512 + i) / 512 = p /\ (p * 512 + i) mod 512 = i) as [E1 E2].
  { rewrite Z.add_comm, Z.div_add, Z.mod_add, Z.div_small, Z.mod_small by lia. lia. }
  rewrite E1 in Hv. rewrite E2 in Hp. assert (v = t) as -> by (by apply (po_inj _ _ _ Hok _ _ (S l, p))).
  congruence.
Qed.

Lemma grow_ok : pt_ok root shape' m'.
Proof.
  pose proof grow_fresh_table as Hfresh. destruct grow_addr as (Hna & Hnd & Hn0).
  assert (Hframe : pte_get_frame (pte_make n (Z.lor flags PTE_PRESENT)) = n)
    by (apply pte_make_frame; [done|apply grow_new_flags]).
  assert (Hdm : (p * 512 + i) / 512 = p /\ (p * 512 + i) mod 512 = i).
  { rewrite Z.add_comm, Z.div_add, Z.mod_add, Z.div_small, Z.mod_small by lia. lia. }
  split.
  - done.
  - unfold shape'. rewrite lookup_insert_ne; [apply Hok|]. intros E. rewrite E, (po_root _ _ _ Hok) in Hfresh. done.
  - intros u lu pu Hu. by apply (grow_table u (lu, pu)).
  - intros u lu pu j Hu Hj Hlo. unfold shape' in Hu. apply lookup_insert_Some in Hu as [[<- [= El <-]]|[Hne Hu]].
    + rewrite grow_get by done. rewrite decide_False by congruence. rewrite decide_True by done. done.
    + destruct (decide ((u, j) = (t, i))) as [E|E].
      * injection E as -> ->. rewrite grow_get, decide_True by done. intros _. rewrite Hframe.
        unfold shape'. rewrite lookup_insert_eq. congruence.
      * rewrite (grow_get_old u (S lu, pu)) by done. intros Hp.
        pose proof (po_next _ _ _ Hok _ _ _ _ Hu Hj Hlo Hp) as Hn. unfold shape'.
        rewrite lookup_insert_ne; [done|]. intros E'. by rewrite <- E', Hfresh in Hn.
  - intros u lu pu Hu Hlu. unfold shape' in Hu. apply lookup_insert_Some in Hu as [[<- [= <- <-]]|[Hne Hu]].
    + exists t, i. destruct Hdm as [-> ->]. unfold shape'. rewrite lookup_insert_ne by congruence.
      split_and!; try done; rewrite grow_get, decide_True by done; [apply pte_make_present|done].
    + destruct (po_parent _ _ _ Hok _ _ _ Hu Hlu) as (v & j & Hv & -> & Hlo & Hp & Hf).
      exists v, (pu mod 512). unfold shape'. rewrite lookup_insert_ne by congruence.
      rewrite (grow_get_old v (S lu, pu / 512)); [done|done|apply Z.mod_pos_bound; lia|]. congruence.
  - intros u v lp. unfold shape'. intros [[<- <-]|[Hu1 Hu]]%lookup_insert_Some [[<- Ev]|[Hv1 Hv]]%lookup_insert_Some; try done.
    + exfalso. by apply (grow_position v).
    + subst lp. exfalso. by apply (grow_position u).
    + by apply (po_inj _ _ _ Hok _ _ lp).
Qed.

(** No leaf entry changes. *)
Lemma grow_entry_at k : forall u q w, shape !! u = Some (k, q) -> user_page w -> entry_at m' k u w = entry_at m k u w.
Proof.
  induction k as [|k IH]; intros u q w Hu Hup; cbn [entry_at].
  - apply (grow_get_old u (O, q)); [done|apply idx_range|congruence].
  - destruct (decide ((u, idx (S k) w) = (t, i))) as [E|E].
    + injection E as -> Ei. rewrite Ei, (grow_get t i Hi), decide_True by done. rewrite Habs, pte_make_present.
      rewrite pte_make_frame by (apply grow_addr || apply grow_new_flags).
      assert (t <> n) by (intros E; pose proof grow_fresh_table; congruence).
      destruct k as [|k]; cbn [entry_at]; rewrite grow_get by apply idx_range;
        rewrite decide_False by congruence; by rewrite decide_True.
    + rewrite (grow_get_old u (S k, q)) by (done || apply idx_range). destruct (flagb (get_entry m (u, idx (S k) w)) PTE_PRESENT) eqn:Ef; [|done].
      eapply IH; [|done]. apply (po_next _ _ _ Hok _ _ _ _ Hu); [apply idx_range|by apply user_lower|done].
Qed.

(** The kernel's half of the root stays. *)
Lemma grow_kernel j : 256 <= j < 512 -> get_entry m' (root, j) = get_entry m (root, j).
Proof.
  intros Hj. apply (grow_get_old root (3%nat, 0)); [apply Hok|lia|]. intros [= -> ->]. pose proof (po_root _ _ _ Hok) as Hr.
  rewrite Ht in Hr. injection Hr as E _. pose proof (Hlow (eq_sym (eq_sym (f_equal S E)))). lia.
Qed.
End grow.

(** *** From the root to a table *)

Lemma entry_at_parent root shape m l t w :
  pt_ok root shape m -> 0 <= w -> (l < 3)%nat -> shape !! t = Some (l, w / 512 ^ Z.of_nat (S l)) ->
  exists u, shape !! u = Some (S l, w / 512 ^ Z.of_nat (S (S l))) /\
    entry_at m (S l) u w = entry_at m l t w.
Proof.
  intros Hok Hw Hl Ht. destruct (po_parent _ _ _ Hok _ _ _ Ht Hl) as (u & j & Hu & -> & Hlo & Hp & Hf).
  exists u. cbn [entry_at]. unfold idx. rewrite Hp, Hf. split; [|done]. rewrite Hu. do 2 f_equal.
  rewrite Z.div_div by lia. f_equal. rewrite (Nat2Z.inj_succ (S l)), (Z.pow_succ_r 512) by lia. lia.
Qed.

(** The leaf entry of [w] is found under any table that serves [w]. *)
Lemma pt_entry_under root shape m d : forall l t w,
  d = (3 - l)%nat -> (l <= 3)%nat -> pt_ok root shape m -> user_page w ->
  shape !! t = Some (l, w / 512 ^ Z.of_nat (S l)) -> pt_entry m root w = entry_at m l t w.
Proof.
  induction d as [|d IH]; intros l t w Hd Hl Hok Hw Ht.
  - assert (l = 3%nat) as -> by lia. unfold pt_entry. f_equal.
    apply (po_inj _ _ _ Hok _ _ (3%nat, 0)); [apply Hok|]. rewrite Ht. do 2 f_equal. by apply Z.div_small, user_page_range.
  - pose proof (user_page_range w Hw). destruct (entry_at_parent root shape m l t w) as (u & Hu & <-); [done|lia|lia|done|].
    apply IH; [lia|lia|done|done|done].
Qed.

(** *** The walk *)

(** The tables of other roots and the frames outside the allocator are left
    alone: only tables of the tree and frames that were free change. *)
Definition tables_kept shape m m' : Prop :=
  forall u es, shape !! u = None -> tabs m !! u = Some es -> u / PAGE_SIZE ∉ pa_frames (pmem m) ->
    tabs m' !! u = Some es.

(** The outcome of a walk down to level [l]: a tree with the same leaf entries
    in which [t] is the table for page [w]. *)
Record walked root shape0 m0 (create : bool) (w : Z) (l : nat) (t : Z) shape m : Prop := {
  wa_ok : pt_ok root shape m;
  wa_sub : shape0 ⊆ shape;
  wa_table : shape !! t = Some (l, w / 512 ^ Z.of_nat (S l));
  wa_same : forall v, user_page v -> pt_entry m root v = pt_entry m0 root v;
  wa_read : create = false -> m = m0 /\ shape = shape0;
  wa_frames : pa_frames (pmem m) ⊆ pa_frames (pmem m0);
  wa_managed : forall p, pa_managed (pmem m) p <-> pa_managed (pmem m0) p;
  wa_new : forall u lp, shape !! u = Some lp -> shape0 !! u = None -> u / PAGE_SIZE ∈ pa_frames (pmem m0);
  wa_kept : tables_kept shape0 m0 m;
  wa_kernel : forall i, 256 <= i < 512 -> get_entry m (root, i) = get_entry m0 (root, i)
}.

(** The outcome of a walk that stopped: no entry for [w]. *)
Record stopped root shape0 m0 (create : bool) (w : Z) shape m : Prop := {
  sp_ok : pt_ok root shape m;
  sp_sub : shape0 ⊆ shape;
  sp_absent : pt_entry m0 root w = 0;
  sp_same : forall v, user_page v -> pt_entry m root v = pt_entry m0 root v;
  sp_read : create = false -> m = m0 /\ shape = shape0;
  sp_full : create = true -> (pa_alloc_page (pmem m)).1 = 0;
  sp_frames : pa_frames (pmem m) ⊆ pa_frames (pmem m0);
  sp_managed : forall p, pa_managed (pmem m) p <-> pa_managed (pmem m0) p;
  sp_new : forall u lp, shape !! u = Some lp -> shape0 !! u = None -> u / PAGE_SIZE ∈ pa_frames (pmem m0);
  sp_kept : tables_kept shape0 m0 m;
  sp_kernel : forall i, 256 <= i < 512 -> get_entry m (root, i) = get_entry m0 (root, i)
}.

Lemma next_table_spec root shape0 m0 create w l t shape m flags :
  walked root shape0 m0 create w (S l) t shape m -> user_page w ->
  table_flags flags -> Z.testbit flags 7 = false ->
  match next_table (t, idx (S l) w) create flags m with
  | (Some t', m') => exists shape', walked root shape0 m0 create w l t' shape' m'
  | (None, m') => stopped root shape0 m0 create w shape m'
  end.
Proof.
  intros [Hok Hsub Ht Hsame Hread Hfr Hman Hnew Hkept Hker] Hw Hfl Hh. pose proof (user_page_range w Hw) as Hwr. pose proof (idx_range (S l) w) as Hi.
  pose proof (ta_level _ _ _ (po_table _ _ _ Hok _ _ _ Ht)) as Hl.
  assert (Hpre : w / 512 ^ Z.of_nat (S (S l)) * 512 + idx (S l) w = w / 512 ^ Z.of_nat (S l)) by (apply prefix_next; lia).
  pose proof (pt_entry_under root shape m (3 - S l) (S l) t w eq_refl ltac:(lia) Hok Hw Ht) as Hentry.
  unfold next_table. destruct (flagb (get_entry m (t, idx (S l) w)) PTE_PRESENT) eqn:Hp; cbn [negb].
  { exists shape. split; try done. rewrite <- Hpre. apply (po_next _ _ _ Hok _ _ _ _ Ht); [done|by apply user_lower|done]. }
  assert (Habs : pt_entry m0 root w = 0) by (rewrite <- Hsame, Hentry by done; cbn [entry_at]; by rewrite Hp).
  destruct create; cbn [negb]; [|by split].
  unfold paging_get_or_create, alloc_page. rewrite Hp.
  pose proof (pa_alloc_page_spec (pmem m) (po_inv _ _ _ Hok)) as Ha.
  destruct (pa_alloc_page (pmem m)) as [phys st] eqn:Epa. cbn [fst snd] in Ha.
  destruct Ha as (Hst & Hm & [[-> ->]|(a & -> & Ha & Hfa)]).
  { cbn. replace (with_pmem (pmem m) m) with m by (by destruct m). split; try done. intros _. by rewrite Epa. }
  destruct (grow_addr root shape m Hok a Ha) as (Hna & Hnd & Hn0).
  destruct (Z.eqb_spec (a * PAGE_SIZE) 0); [done|]. cbn [with_pmem pmem tabs].
  pose proof (grow_fresh_table root shape m Hok a Ha) as Hfresh.
  exists (<[a * PAGE_SIZE := (l, w / 512 ^ Z.of_nat (S (S l)) * 512 + idx (S l) w)]> shape). split.
  - apply grow_ok; try done. by apply user_lower.
  - etrans; [done|]. by apply insert_subseteq.
  - by rewrite lookup_insert_eq, Hpre.
  - intros v Hv. rewrite <- Hsame by done.
    eapply (grow_entry_at root shape m Hok t _ (idx (S l) w) l Ht Hi Hp st a flags Ha Hfl 3 root 0); [apply Hok|done].
  - done.
  - cbn. rewrite Hfa. set_solver.
  - cbn. intros p. by rewrite Hm.
  - intros u lp [[<- _]|[_ Hu]]%lookup_insert_Some Hu0; [rewrite Hnd; by apply Hfr|by apply (Hnew u lp)].
  - intros u es Hu Hes Hnf. pose proof (Hkept u es Hu Hes Hnf) as Hk. cbn.
    assert (u <> a * PAGE_SIZE) by (intros ->; apply Hnf; rewrite Hnd; by apply Hfr).
    destruct (decide (u = t)) as [->|]; [|by rewrite lookup_alter_ne, lookup_insert_ne].
    exfalso. by apply Hnf, (Hnew t (S l, w / 512 ^ Z.of_nat (S (S l)))).
  - intros j Hj. rewrite <- Hker by done. eapply (grow_kernel root shape m Hok t _ (idx (S l) w) l Ht Hi); try done. by apply user_lower.
Qed.

Lemma walked_not_huge root shape0 m0 create w l t shape m :
  walked root shape0 m0 create w (S l) t shape m -> (l < 2)%nat -> flagb (get_entry m (t, idx (S l) w)) PTE_HUGE = false.
Proof.
  intros Hwa Hl. apply (ta_huge _ _ _ (po_table _ _ _ (wa_ok _ _ _ _ _ _ _ _ _ Hwa) _ _ _ (wa_table _ _ _ _ _ _ _ _ _ Hwa)));
    [apply idx_range|lia].
Qed.

Lemma walk_flags virt (flags := Z.lor PTE_PRESENT PTE_WRITABLE)
    (flags' := if virt <? KERNEL_VIRT_BASE then Z.lor flags PTE_USER else flags) :
  table_flags flags' /\ Z.testbit flags' 7 = false.
Proof. unfold flags'. by destruct (virt <? KERNEL_VIRT_BASE). Qed.

Lemma walk_spec root shape m virt create :
  pt_ok root shape m -> user_page (vpn virt) ->
  match paging_walk root virt create m with
  | (Some e, m') => exists shape' t, walked root shape m create (vpn virt) 0 t shape' m' /\ e = (t, idx 0 (vpn virt))
  | (None, m') => exists shape', stopped root shape m create (vpn virt) shape' m'
  end.
Proof.
  intros Hok Hw. set (w := vpn virt) in *.
  assert (H0 : walked root shape m create w 3 root shape m).
  { split; try done; [|naive_solver|congruence]. rewrite (Z.div_small w) by (by apply user_page_range). apply Hok. }
  destruct (walk_flags virt) as [Hfl Hh]. unfold paging_walk. cbv zeta in *.
  set (flags := if virt <? KERNEL_VIRT_BASE then _ else _) in *.
  pose proof (next_table_spec _ _ _ _ _ _ _ _ _ flags H0 Hw Hfl Hh) as H1.
  rewrite (entry_index root virt 3) by lia. fold w.
  destruct (next_table (root, idx 3 w) create flags m) as [[pdpt|] m1]; [|by exists shape].
  destruct H1 as [sh1 H1]. rewrite (entry_index pdpt virt 2) by lia. fold w. rewrite (walked_not_huge _ _ _ _ _ _ _ _ _ H1) by lia.
  pose proof (next_table_spec _ _ _ _ _ _ _ _ _ flags H1 Hw Hfl Hh) as H2.
  destruct (next_table (pdpt, idx 2 w) create flags m1) as [[pd|] m2]; [|by exists sh1].
  destruct H2 as [sh2 H2]. rewrite (entry_index pd virt 1) by lia. fold w. rewrite (walked_not_huge _ _ _ _ _ _ _ _ _ H2) by lia.
  pose proof (next_table_spec _ _ _ _ _ _ _ _ _ flags H2 Hw Hfl Hh) as H3.
  destruct (next_table (pd, idx 1 w) create flags m2) as [[t|] m3]; [|by exists sh2].
  destruct H3 as [sh3 H3]. exists sh3, t. split; [done|]. by rewrite (entry_index t virt 0) by lia.
Qed.

(** *** Reading and writing the leaf *)

Lemma walked_entry root shape0 m0 create w t shape m :
  walked root shape0 m0 create w 0 t shape m -> user_page w ->
  get_entry m (t, idx 0 w) = pt_entry m0 root w.
Proof.
  intros [Hok _ Ht Hsame _ _ _ _ _ _] Hw. rewrite <- Hsame by done.
  by rewrite (pt_entry_under root shape m 3 0 t w eq_refl ltac:(lia) Hok Hw Ht).
Qed.

(** The leaf entry of [w] becomes [v]; all others stay. *)
Record leaf_set root shape m (w v : Z) m' : Prop := {
  ls_ok : exists shape', shape ⊆ shape' /\ pt_ok root shape' m' /\
    forall u lp, shape' !! u = Some lp -> shape !! u = None -> u / PAGE_SIZE ∈ pa_frames (pmem m);
  ls_entry : forall u, user_page u -> pt_entry m' root u = if decide (u = w) then v else pt_entry m root u;
  ls_frames : pa_frames (pmem m') ⊆ pa_frames (pmem m);
  ls_managed : forall p, pa_managed (pmem m') p <-> pa_managed (pmem m) p;
  ls_kept : tables_kept shape m m';
  ls_kernel : forall i, 256 <= i < 512 -> get_entry m' (root, i) = get_entry m (root, i)
}.

Lemma walked_set root shape0 m0 create w t shape m v :
  walked root shape0 m0 create w 0 t shape m -> user_page w -> 0 <= v < 2 ^ 64 ->
  leaf_set root shape0 m0 w v (set_entry (t, idx 0 w) v m).
Proof.
  intros [Hok Hsub Ht Hsame _ Hfr Hman Hnew Hkept Hker] Hw Hv. pose proof (idx_range 0 w). pose proof (user_page_range w Hw). split; [|..|done|done| |].
  - exists shape. split_and!; [done|by eapply set_leaf_ok|done].
  - intros u Hu. unfold pt_entry.
    rewrite (set_leaf_entry_at root shape m t _ (idx 0 w) v Hok Ht ltac:(done) 3 root 0 u); [|apply Hok|by apply under_root|done].
    pose proof (prefix_next 0 w ltac:(lia)) as E. change (512 ^ Z.of_nat 0) with 1 in E. rewrite Z.div_1_r in E.
    rewrite E. case_decide; [done|]. by apply Hsame.
  - intros u es Hu Hes Hnf. cbn. rewrite lookup_alter_ne; [by apply Hkept|]. intros <-. by apply Hnf, (Hnew t _ Ht).
  - intros j Hj. rewrite <- Hker by done. rewrite get_set_entry; [|done|lia|by apply (table_exists m t 0), (po_table _ _ _ Hok _ _ _ Ht)].
    rewrite decide_False; [done|]. intros [= <- _]. by rewrite (po_root _ _ _ Hok) in Ht.
Qed.

Lemma walked_same root shape0 m0 create w t shape m :
  walked root shape0 m0 create w 0 t shape m -> user_page w ->
  leaf_set root shape0 m0 w (pt_entry m0 root w) m.
Proof.
  intros [Hok Hsub Ht Hsame _ Hfr Hman Hnew Hkept Hker] Hw. split; try done; [by exists shape; split_and!|].
  intros u Hu. rewrite Hsame by done. by case_decide; subst.
Qed.

Lemma stopped_same root shape0 m0 create w shape m :
  stopped root shape0 m0 create w shape m -> leaf_set root shape0 m0 w 0 m.
Proof.
  intros [Hok Hsub Habs Hsame _ _ Hfr Hman Hnew Hkept Hker]. split; try done; [by exists shape; split_and!|].
  intros u Hu. rewrite Hsame by done. case_decide; [subst|]; done.
Qed.

Lemma vpn_align virt : vpn (ALIGN_DOWN virt PAGE_SIZE) = vpn virt.
Proof. unfold vpn. by rewrite ALIGN_DOWN_page, Z.div_mul. Qed.

(** *** The operations on the map from pages to leaf entries *)

Section operations.
Context (root : Z) (shape : gmap Z (nat * Z)) (m : mmu St) (Hok : pt_ok root shape m).
Context (virt : Z) (Hw : user_page (vpn virt)).

Let e := pt_entry m root (vpn virt).

Lemma mmu_map_spec phys flags :
  0 <= phys < 2 ^ 64 -> 0 <= flags < 2 ^ 64 ->
  let '(ret, m') := mmu_map root virt phys flags m in
  ret = 0 /\ flagb e PTE_PRESENT = false /\
    leaf_set root shape m (vpn virt) (pte_make (ALIGN_DOWN phys PAGE_SIZE) (Z.lor flags PTE_PRESENT)) m' \/
  ret = - EEXIST /\ flagb e PTE_PRESENT = true /\ leaf_set root shape m (vpn virt) e m' \/
  ret = - ENOMEM /\ e = 0 /\ leaf_set root shape m (vpn virt) e m' /\ (pa_alloc_page (pmem m')).1 = 0.
Proof.
  intros Hp Hf. pose proof (walk_spec root shape m (ALIGN_DOWN virt PAGE_SIZE) true Hok) as Hws.
  rewrite vpn_align in Hws. specialize (Hws Hw). unfold mmu_map.
  destruct (paging_walk root (ALIGN_DOWN virt PAGE_SIZE) true m) as [[s|] m'].
  - destruct Hws as (sh & t & Hwa & ->). rewrite (walked_entry _ _ _ _ _ _ _ _ Hwa Hw). fold e.
    destruct (flagb e PTE_PRESENT) eqn:E; [right; left|left]; split_and!; try done.
    + by apply (walked_same _ _ _ _ _ _ _ _ Hwa).
    + apply (walked_set _ _ _ _ _ _ _ _ _ Hwa Hw), pte_make_word.
      * apply lor_word; [lia|done|unfold PTE_PRESENT; lia].
      * rewrite ALIGN_DOWN_page. apply Z.mul_nonneg_nonneg; [apply Z.div_pos|]; unfold PAGE_SIZE; lia.
  - destruct Hws as (sh & Hsp). do 2 right. unfold e. rewrite (sp_absent _ _ _ _ _ _ _ Hsp).
    split_and!; [done|done|by apply (stopped_same _ _ _ _ _ _ _ Hsp)|by apply Hsp].
Qed.

(** A walk that creates nothing only reads. *)
Lemma walk_read virt' :
  vpn virt' = vpn virt ->
  match paging_walk root virt' false m with
  | (Some s, m') => m' = m /\ get_entry m s = e /\
      forall v, 0 <= v < 2 ^ 64 -> leaf_set root shape m (vpn virt) v (set_entry s v m)
  | (None, m') => m' = m /\ e = 0
  end.
Proof.
  intros Ev. pose proof (walk_spec root shape m virt' false Hok) as Hws. rewrite Ev in Hws. specialize (Hws Hw).
  destruct (paging_walk root virt' false m) as [[s|] m'].
  - destruct Hws as (sh & t & Hwa & ->). destruct (wa_read _ _ _ _ _ _ _ _ _ Hwa eq_refl) as [-> ->].
    split_and!; [done|apply (walked_entry _ _ _ _ _ _ _ _ Hwa Hw)|]. intros v Hvv. by apply (walked_set _ _ _ _ _ _ _ _ _ Hwa).
  - destruct Hws as (sh & Hsp). by destruct (sp_read _ _ _ _ _ _ _ Hsp eq_refl) as [-> ->]; destruct Hsp.
Qed.

Lemma mmu_unmap_spec :
  if flagb e PTE_PRESENT then
    (mmu_unmap root virt m).1 = 0 /\ leaf_set root shape m (vpn virt) 0 (mmu_unmap root virt m).2
  else mmu_unmap root virt m = (- ENOENT, m).
Proof.
  pose proof (walk_read (ALIGN_DOWN virt PAGE_SIZE) (vpn_align virt)) as Hws. unfold mmu_unmap.
  destruct (paging_walk root (ALIGN_DOWN virt PAGE_SIZE) false m) as [[s|] m'].
  - destruct Hws as (-> & Hg & Hs). rewrite Hg. destruct (flagb e PTE_PRESENT); cbn; [|done]. split; [done|]. apply Hs. lia.
  - by destruct Hws as [-> ->].
Qed.

Lemma mmu_set_flags_spec flags :
  0 <= flags < 2 ^ 64 ->
  if flagb e PTE_PRESENT then
    (mmu_set_flags root virt flags m).1 = 0 /\
    leaf_set root shape m (vpn virt) (pte_make (pte_get_frame e) (Z.lor flags PTE_PRESENT)) (mmu_set_flags root virt flags m).2
  else mmu_set_flags root virt flags m = (- ENOENT, m).
Proof.
  intros Hf. pose proof (walk_read virt eq_refl) as Hws. unfold mmu_set_flags.
  destruct (paging_walk root virt false m) as [[s|] m'].
  - destruct Hws as (-> & Hg & Hs). rewrite Hg. destruct (flagb e PTE_PRESENT); cbn; [|done]. split; [done|]. apply Hs.
    apply pte_make_word; [apply lor_word; [lia|done|unfold PTE_PRESENT; lia]|]. apply Z.land_nonneg. right. done.
  - by destruct Hws as [-> ->].
Qed.

(** When the last-level table exists the walk finds it and creates nothing. *)
Lemma walk_found t create :
  shape !! t = Some (O, vpn virt / 512) -> paging_walk root virt create m = (Some (t, idx 0 (vpn virt)), m).
Proof.
  intros Ht. pose proof (vpn_range virt) as Hwr. set (w := vpn virt) in *.
  destruct (po_parent _ _ _ Hok _ _ _ Ht) as (u1 & i1 & Hu1 & -> & _ & Hp1 & Hf1); [lia|].
  destruct (po_parent _ _ _ Hok _ _ _ Hu1) as (u2 & i2 & Hu2 & -> & _ & Hp2 & Hf2); [lia|].
  destruct (po_parent _ _ _ Hok _ _ _ Hu2) as (u3 & i3 & Hu3 & -> & _ & Hp3 & Hf3); [lia|].
  rewrite !Z.div_div in * by lia.
  assert (u3 = root) as ->.
  { apply (po_inj _ _ _ Hok _ _ (3%nat, 0)); [|apply Hok]. rewrite Hu3. do 2 f_equal. by apply Z.div_small. }
  pose proof (idx_range 2 w). pose proof (idx_range 1 w).
  pose proof (ta_huge _ _ _ (po_table _ _ _ Hok _ _ _ Hu1) (idx 1 w) ltac:(done) ltac:(lia)) as Hh1.
  pose proof (ta_huge _ _ _ (po_table _ _ _ Hok _ _ _ Hu2) (idx 2 w) ltac:(done) ltac:(lia)) as Hh2.
  unfold paging_walk, next_table. rewrite (entry_index root virt 3) by lia. fold w.
  change (w / (512 * (512 * 512)) mod 512) with (idx 3 w) in *. change (w / (512 * 512) mod 512) with (idx 2 w) in *.
  change (w / 512 mod 512) with (idx 1 w) in *.
  rewrite Hp3, Hf3. cbn [negb]. rewrite (entry_index u2 virt 2) by lia. fold w. rewrite Hh2, Hp2, Hf2. cbn [negb].
  rewrite (entry_index u1 virt 1) by lia. fold w. rewrite Hh1, Hp1, Hf1. cbn [negb].
  by rewrite (entry_index t virt 0) by lia.
Qed.

(** Neither takes or gives back a frame. *)
Lemma mmu_change_pmem flags :
  pmem (mmu_unmap root virt m).2 = pmem m /\ pmem (mmu_set_flags root virt flags m).2 = pmem m.
Proof.
  pose proof (walk_read (ALIGN_DOWN virt PAGE_SIZE) (vpn_align virt)) as Hws. pose proof (walk_read virt eq_refl) as Hws'.
  unfold mmu_unmap, mmu_set_flags. split.
  - destruct (paging_walk root (ALIGN_DOWN virt PAGE_SIZE) false m) as [[s|] m']; destruct Hws as [-> _]; [by destruct (negb _)|done].
  - destruct (paging_walk root virt false m) as [[s|] m']; destruct Hws' as [-> _]; [by destruct (negb _)|done].
Qed.

Lemma mmu_read_spec :
  mmu_resolve root virt m =
    (if flagb e PTE_PRESENT then Z.lor (pte_get_frame e) (Z.land virt PAGE_OFFSET_MASK) else 0) /\
  mmu_get_flags root virt m = Z.land e (u64 (Z.lnot PAGE_FRAME_MASK)).
Proof.
  pose proof (walk_read virt eq_refl) as Hws. unfold mmu_resolve, mmu_get_flags.
  destruct (paging_walk root virt false m) as [[s|] m']; cbn [fst].
  - destruct Hws as (-> & -> & _). by destruct (flagb e PTE_PRESENT).
  - by destruct Hws as [-> ->].
Qed.
End operations.

(** *** A new address space *)

(** A tree whose tables are not written stays as it is. *)
Lemma same_tables_ok root shape m m' :
  pt_ok root shape m -> pa_inv (pmem m') ->
  (forall u lp, shape !! u = Some lp -> (u / PAGE_SIZE ∉ pa_frames (pmem m')) /\ tabs m' !! u = tabs m !! u) ->
  pt_ok root shape m' /\ forall l u q w, shape !! u = Some (l, q) -> user_page w -> entry_at m' l u w = entry_at m l u w.
Proof.
  intros Hok Hi Ht.
  assert (Hg : forall u lp j, shape !! u = Some lp -> get_entry m' (u, j) = get_entry m (u, j)).
  { intros u lp j Hu. unfold get_entry. cbn. by rewrite (proj2 (Ht u lp Hu)). }
  split.
  - destruct Hok as [H1 H2 H3 H4 H5 H6]. split; try done.
    + intros t l p Hs. destruct (H3 _ _ _ Hs) as [? ? ? (es & Hes & ?) Hh]. split; [done|done|by apply (Ht t (l, p))| |].
      * exists es. by rewrite (proj2 (Ht t (l, p) Hs)).
      * intros i. rewrite (Hg t (l, p)) by done. apply Hh.
    + intros t l p i Hs. rewrite (Hg t (S l, p)) by done. by apply H4.
    + intros t l p Hs Hl. destruct (H5 _ _ _ Hs Hl) as (t' & i & Hs' & ? & ?).
      exists t', i. by rewrite (Hg t' (S l, p / 512)).
  - induction l as [|l IH]; intros u q w Hu Hup; cbn [entry_at]; rewrite (Hg _ _ _ Hu); [done|].
    destruct (flagb (get_entry m (u, idx (S l) w)) PTE_PRESENT) eqn:E; [|done]. eapply IH; [|done].
    apply (po_next _ _ _ Hok _ _ _ _ Hu); [apply idx_range|by apply user_lower|done].
Qed.

#[local] Opaque for_range.

(** What is known of the kernel's root. *)
Record kernel_root (k : Z) m : Prop := {
  kr_inv : pa_inv (pmem m);
  kr_used : k / PAGE_SIZE ∉ pa_frames (pmem m);
  kr_entries : exists es, tabs m !! k = Some es /\ length es = 512%nat /\ words 64 es
}.

(** A free frame as the root of an address space. *)
Lemma free_addr m a : pa_inv (pmem m) -> a ∈ pa_frames (pmem m) ->
  frame_addr (a * PAGE_SIZE) /\ a * PAGE_SIZE / PAGE_SIZE = a /\ a * PAGE_SIZE <> 0.
Proof.
  intros Hi Ha. destruct (pa_frames_managed (pmem m) a Hi Ha) as [_ Hr].
  unfold frame_addr. rewrite Z.div_mul by done. unfold PAGE_SIZE. lia.
Qed.

Section create.
Context (k : Z) (m : mmu St) (Hk : kernel_root k m).
Context (st : St) (a : Z) (Ha : a ∈ pa_frames (pmem m)) (Hst : pa_inv st).
Context (Hfr : pa_frames st = pa_frames (pmem m) ∖ {[a]}).

Let n := a * PAGE_SIZE.
Let m1 := Mmu st (<[n := zero_table]> (tabs m)).
Let m' := for_range 256 512 (fun i m => set_entry (n, i) (get_entry m (k, i)) m) m1.

Lemma create_root : k <> n.
Proof. intros E. apply (kr_used _ _ Hk). destruct (free_addr m a (kr_inv _ _ Hk) Ha) as (_ & Hd & _). rewrite E. unfold n. by rewrite Hd. Qed.

Lemma create_tabs :
  pmem m' = st /\ (forall u, u <> n -> tabs m' !! u = tabs m !! u) /\
  exists es, tabs m' !! n = Some es /\ length es = 512%nat /\ words 64 es /\
    forall j, 0 <= j < 512 -> aget es j = if 256 <=? j then get_entry m (k, j) else 0.
Proof.
  pose proof create_root as Hkn. destruct zero_table_ok as [Hl Hz].
  destruct (kr_entries _ _ Hk) as (ks & Hks & _ & Hkw).
  assert (Hkm : forall j, 0 <= get_entry m (k, j) < 2 ^ 64).
  { intros j. unfold get_entry. cbn. rewrite Hks. by apply aget_words. }
  cut (pmem m' = st /\ (forall u, u <> n -> tabs m' !! u = tabs m !! u) /\
    exists es, tabs m' !! n = Some es /\ length es = 512%nat /\ words 64 es /\
    forall j, 0 <= j < 512 -> aget es j = if (256 <=? j) && (j <? 512) then get_entry m (k, j) else 0).
  { intros (? & ? & es & ? & ? & ? & Hes). split_and!; [done|done|]. exists es. split_and!; [done..|].
    intros j Hj. rewrite Hes by done. by rewrite (proj2 (Z.ltb_lt j 512)), andb_true_r by lia. }
  unfold m'. apply for_range_inv with (P := fun hi s => pmem s = st /\ (forall u, u <> n -> tabs s !! u = tabs m !! u) /\
    exists es, tabs s !! n = Some es /\ length es = 512%nat /\ words 64 es /\
    forall j, 0 <= j < 512 -> aget es j = if (256 <=? j) && (j <? hi) then get_entry m (k, j) else 0); [lia| |].
  - split_and!; [done| |]; cbn.
    + intros u Hu. by rewrite lookup_insert_ne.
    + exists zero_table. rewrite lookup_insert_eq. split_and!; [done..|]. intros j Hj. rewrite zero_table_get.
      destruct (Z.leb_spec 256 j), (Z.ltb_spec j 256); done || lia.
  - intros i s Hi (Hp & Ho & es & Hes & Hlen & Hw & Hget). cbn.
    assert (E : get_entry s (k, i) = get_entry m (k, i)) by (unfold get_entry; cbn; by rewrite Ho).
    rewrite E. split_and!; [done| |].
    + intros u Hu. rewrite lookup_alter_ne by done. by apply Ho.
    + exists (aset es i (get_entry m (k, i))). rewrite lookup_alter_eq, Hes, length_aset. split_and!; [done..|by apply aset_words|].
      intros j Hj. destruct (decide (i = j)) as [->|Hne].
      * rewrite aget_aset_eq by lia. destruct (Z.leb_spec 256 j), (Z.ltb_spec j (j + 1)); done || lia.
      * rewrite aget_aset_ne, Hget by lia. destruct (Z.leb_spec 256 j), (Z.ltb_spec j i), (Z.ltb_spec j (i + 1)); done || lia.
Qed.

Lemma create_get j : 0 <= j < 512 -> get_entry m' (n, j) = if 256 <=? j then get_entry m (k, j) else 0.
Proof.
  intros Hj. destruct create_tabs as (_ & _ & es & Hes & _ & _ & Hget). unfold get_entry at 1. cbn [fst snd].
  rewrite Hes. cbn. by apply Hget.
Qed.

Lemma new_root_ok : pt_ok n {[n := (3%nat, 0)]} m'.
Proof.
  destruct create_tabs as (Hp & Ho & es & Hes & Hlen & Hw & _).
  destruct (free_addr m a (kr_inv _ _ Hk) Ha) as (Hna & Hnd & _). fold n in Hna, Hnd. split.
  - by rewrite Hp.
  - apply lookup_singleton_eq.
  - intros t l p [<- [= <- <-]]%lookup_singleton_Some.
    split; [done|done|rewrite Hp, Hfr, Hnd; set_solver|by exists es|intros; lia].
  - intros t l p i [<- [= <- <-]]%lookup_singleton_Some Hi Hlo. rewrite create_get by done.
    rewrite (proj2 (Z.leb_gt 256 i)) by (by apply Hlo). done.
  - intros t l p [<- [= <- <-]]%lookup_singleton_Some. lia.
  - intros t t' lp [<- _]%lookup_singleton_Some [<- _]%lookup_singleton_Some. done.
Qed.

Lemma create_entry w : user_page w -> pt_entry m' n w = 0.
Proof.
  intros Hw. unfold pt_entry. cbn [entry_at]. rewrite create_get by apply idx_range.
  by rewrite (proj2 (Z.leb_gt 256 (idx 3 w))) by (by apply (user_lower 3)).
Qed.
End create.

(** A page that was just unmapped can be mapped again. *)
Lemma remap_ok root shape m virt phys flags :
  pt_ok root shape m -> user_page (vpn virt) -> flagb (pt_entry m root (vpn virt)) PTE_PRESENT = true ->
  (mmu_map root virt phys flags (mmu_unmap root virt m).2).1 = 0.
Proof.
  intros Hok Hw Hpr. pose proof (idx_range 0 (vpn virt)) as Hi.
  pose proof (walk_spec root shape m (ALIGN_DOWN virt PAGE_SIZE) false Hok) as Hws. rewrite vpn_align in Hws. specialize (Hws Hw).
  unfold mmu_unmap. destruct (paging_walk root (ALIGN_DOWN virt PAGE_SIZE) false m) as [[e|] m'].
  - destruct Hws as (sh & t & Hwa & ->). destruct (wa_read _ _ _ _ _ _ _ _ _ Hwa eq_refl) as [-> ->].
    rewrite (walked_entry _ _ _ _ _ _ _ _ Hwa Hw), Hpr. cbn [negb snd].
    pose proof (wa_table _ _ _ _ _ _ _ _ _ Hwa) as Ht. change (512 ^ Z.of_nat 1) with 512 in Ht.
    pose proof (set_leaf_ok root shape m t _ (idx 0 (vpn virt)) 0 Hok Ht Hi ltac:(lia)) as Hok'.
    pose proof (walk_found root shape _ Hok' (ALIGN_DOWN virt PAGE_SIZE) t true) as Hf. rewrite vpn_align in Hf.
    unfold mmu_map. rewrite (Hf Ht). rewrite get_set_entry; [|done|done|by apply (table_exists m t 0), (po_table _ _ _ Hok _ _ _ Ht)].
    by rewrite decide_True.
  - destruct Hws as (sh & Hsp). by rewrite (sp_absent _ _ _ _ _ _ _ Hsp) in Hpr.
Qed.

(** *** Ranges *)

Section ranges.
Context (root : Z) (shape : gmap Z (nat * Z)) (m0 : mmu St) (Hok0 : pt_ok root shape m0).
Context (virt phys flags n : Z) (Hf : 0 <= flags < 2 ^ 64).
Context (Hv : 0 <= virt /\ virt + n * PAGE_SIZE <= 2 ^ 64).
Context (Hvn : vpn virt + n <= 2 ^ 35).
Context (Hpa : phys mod PAGE_SIZE = 0) (Hp : 0 <= phys /\ phys + n * PAGE_SIZE <= 2 ^ 64).

Let V := vpn virt.
Let old (w : Z) : Z := pt_entry m0 root w.

(** The entry the range gives to page [w]. *)
Definition range_pte (w : Z) : Z := pte_make (phys + (w - vpn virt) * PAGE_SIZE) (Z.lor flags PTE_PRESENT).

(** The table's entries are [f]. *)
Definition entries_are m (f : Z -> Z) : Prop :=
  (exists sh, shape ⊆ sh /\ pt_ok root sh m) /\ forall w, user_page w -> pt_entry m root w = f w.

Definition filled_to (i w : Z) : Z :=
  if (V <=? w) && (w <? V + i) && negb (flagb (old w) PTE_PRESENT) then range_pte w else old w.

Lemma range_vpn i : 0 <= i < n -> u64 (virt + i * PAGE_SIZE) = virt + i * PAGE_SIZE /\ vpn (virt + i * PAGE_SIZE) = V + i.
Proof.
  intros Hi. unfold PAGE_SIZE in *. split; [apply u64_small; lia|]. unfold V, vpn in *. unfold PAGE_SIZE in *.
  rewrite Z.div_add by lia. pose proof (Z.mod_pos_bound (virt / 4096) (512 ^ 4) ltac:(lia)).
  rewrite Z.add_mod by lia. assert (n <= 2 ^ 35) by lia. rewrite (Z.mod_small i) by lia. apply Z.mod_small. lia.
Qed.

Lemma leaf_set_entries m m' f w v sh :
  shape ⊆ sh -> entries_are m f -> leaf_set root sh m w v m' ->
  entries_are m' (fun u => if decide (u = w) then v else f u).
Proof.
  intros Hsub [_ Hm] [(sh' & Hsub' & Hok & _) He _ _ _]. split; [exists sh'; split; [by etrans|done]|].
  intros u Hu. rewrite He by done. case_decide; [done|]. by apply Hm.
Qed.

Lemma entries_ext m f g : (forall w, user_page w -> f w = g w) -> entries_are m f -> entries_are m g.
Proof. intros E [H1 H2]. split; [done|]. intros w Hw. by rewrite H2, E. Qed.

Lemma filled_present i w : V <= w < V + i -> flagb (filled_to i w) PTE_PRESENT = true.
Proof.
  intros Hw. unfold filled_to. rewrite (proj2 (Z.leb_le _ _)), (proj2 (Z.ltb_lt _ _)) by lia. cbn [andb].
  destruct (flagb (old w) PTE_PRESENT) eqn:E; cbn; [done|]. apply pte_make_present.
Qed.

Lemma filled_step i w : 0 <= i -> filled_to (i + 1) w =
  if decide (w = V + i) then (if flagb (old w) PTE_PRESENT then old w else range_pte w) else filled_to i w.
Proof.
  intros Hi. unfold filled_to. case_decide as E.
  - subst w. destruct (Z.leb_spec V (V + i)), (Z.ltb_spec (V + i) (V + (i + 1))); try lia. cbn [andb].
    by destruct (flagb (old (V + i)) PTE_PRESENT).
  - destruct (Z.leb_spec V w), (Z.ltb_spec w (V + i)), (Z.ltb_spec w (V + (i + 1))); done || lia.
Qed.

Lemma unmap_range_spec k m :
  0 <= k <= n -> entries_are m (filled_to k) ->
  entries_are (mmu_unmap_range root virt (k * PAGE_SIZE) m)
    (fun w => if (V <=? w) && (w <? V + k) then 0 else old w).
Proof.
  intros Hk Hm. unfold mmu_unmap_range. pose proof (vpn_range virt).
  replace (ALIGN_UP (k * PAGE_SIZE) PAGE_SIZE / PAGE_SIZE) with k.
  2:{ destruct (decide (k = 0)) as [->|]; [done|].
      rewrite (ALIGN_UP_page (k * PAGE_SIZE)) by (unfold PAGE_SIZE in *; lia).
      rewrite Z.div_mul, Z.div_add_l, Z.div_small by done. lia. }
  assert (HV : 0 <= V) by apply vpn_range.
  eapply entries_ext; [|apply for_range_inv with (P := fun i s => entries_are s
    (fun w => if (V <=? w) && (w <? V + i) then 0 else filled_to k w)); [lia| |]].
  - intros w Hw. cbn. unfold filled_to. destruct (Z.leb_spec V w), (Z.ltb_spec w (V + k)); done.
  - eapply entries_ext; [|done]. intros w Hw. cbn. destruct (Z.leb_spec V w), (Z.ltb_spec w (V + 0)); done || lia.
  - intros i s Hi Hs. destruct (range_vpn i ltac:(lia)) as [-> Ei]. assert (Hwi : user_page (V + i)) by (unfold user_page, V in *; lia).
    destruct (Hs) as [(sh & Hsub & Hok) Hes]. pose proof (mmu_unmap_spec root sh s Hok (virt + i * PAGE_SIZE)) as Hu.
    rewrite Ei in Hu. specialize (Hu Hwi). rewrite Hes in Hu by done.
    rewrite (proj2 (Z.leb_le V (V + i))), Z.ltb_irrefl in Hu by lia. cbn [andb] in Hu. rewrite filled_present in Hu by lia.
    destruct Hu as [_ Hu]. eapply entries_ext; [|by eapply leaf_set_entries].
    intros w Hw. cbn. case_decide as E; [subst w|];
      destruct (Z.leb_spec V (V + i)), (Z.ltb_spec (V + i) (V + (i + 1))); try lia; [done|].
    destruct (Z.leb_spec V w), (Z.ltb_spec w (V + i)), (Z.ltb_spec w (V + (i + 1))); done || lia.
Qed.

Lemma map_range_loop_spec k : forall i m,
  0 <= i -> i + Z.of_nat k = n -> entries_are m (filled_to i) ->
  let '(ret, m') := map_range_loop k root virt phys flags (i * PAGE_SIZE) m in
  ret = 0 /\ entries_are m' (filled_to n) \/
  ret = - ENOMEM /\ exists j, 0 <= j < n /\ old (V + j) = 0 /\
    entries_are m' (fun w => if (V <=? w) && (w <? V + j) then 0 else old w).
Proof.
  induction k as [|k IH]; intros i m Hi Hk Hm; cbn [map_range_loop].
  { left. split; [done|]. by replace n with i by lia. }
  destruct (range_vpn i ltac:(lia)) as [-> Ei]. rewrite (u64_small (phys + i * PAGE_SIZE)) by (unfold PAGE_SIZE in *; lia).
  assert (HV : 0 <= V) by apply vpn_range. assert (Hw : user_page (V + i)) by (unfold user_page, V; lia).
  destruct (Hm) as [(sh & Hsub & Hok) Hes].
  assert (Eold : pt_entry m root (V + i) = old (V + i)).
  { rewrite Hes by done. unfold filled_to. by rewrite Z.ltb_irrefl, andb_false_r. }
  pose proof (mmu_map_spec root sh m Hok (virt + i * PAGE_SIZE)) as Hmap. rewrite Ei in Hmap.
  specialize (Hmap Hw (phys + i * PAGE_SIZE) flags ltac:(unfold PAGE_SIZE in *; lia) Hf). rewrite Eold in Hmap.
  replace (ALIGN_DOWN (phys + i * PAGE_SIZE) PAGE_SIZE) with (phys + i * PAGE_SIZE) in Hmap.
  2:{ rewrite ALIGN_DOWN_page. pose proof (Z.div_mod (phys + i * PAGE_SIZE) PAGE_SIZE ltac:(done)) as E.
      rewrite Z.mod_add, Hpa in E by done. lia. }
  destruct (mmu_map root (virt + i * PAGE_SIZE) (phys + i * PAGE_SIZE) flags m) as [ret m'].
  destruct Hmap as [(-> & Hpr & Hls)|[(-> & Hpr & Hls)|(-> & Hz & Hls & _)]].
  3:{ right. split; [done|]. exists i. split_and!; [lia|lia|done|]. apply unmap_range_spec; [lia|].
      eapply entries_ext; [|by eapply leaf_set_entries]. intros w _. cbn. case_decide; [subst w|done].
      unfold filled_to. by rewrite Z.ltb_irrefl, andb_false_r. }
  all: cbn -[map_range_loop Z.mul Z.add]; replace (i * PAGE_SIZE + PAGE_SIZE) with ((i + 1) * PAGE_SIZE) by lia;
    apply IH; [lia|lia|]; eapply entries_ext; [|by eapply leaf_set_entries]; intros w _; cbn;
    rewrite (filled_step i w) by done; case_decide; [subst w|done]; rewrite Hpr; try done.
  unfold range_pte. do 2 f_equal. unfold V. lia.
Qed.
End ranges.

(** *** Properties *)

(** C1. The page-table operations on a user address act on the map from user pages
    to leaf entries.  [mmu_map] fills the entry of an unmapped page, refuses a
    mapped one with [EEXIST], and fails with [ENOMEM] only when the page
    allocator is exhausted; [mmu_unmap] and [mmu_set_flags] clear and rewrite
    the entry of a mapped page and fail with [ENOENT] otherwise; [mmu_resolve]
    and [mmu_get_flags] read it.  Whatever the outcome, the tree of the lower half
    stays well formed, the entries of all other user pages stay, and so do the
    kernel's half of the root and all tables in use that do not belong to the
    tree, those of the kernel included. *)
Theorem paging_refines root shape m virt phys flags :
  pt_ok root shape m -> 0 <= virt < 2 ^ 47 -> 0 <= phys < 2 ^ 64 -> 0 <= flags < 2 ^ 64 ->
  let w := vpn virt in
  let e := pt_entry m root w in
  (let '(ret, m') := mmu_map root virt phys flags m in
   ret = 0 /\ flagb e PTE_PRESENT = false /\
     leaf_set root shape m w (pte_make (ALIGN_DOWN phys PAGE_SIZE) (Z.lor flags PTE_PRESENT)) m' \/
   ret = - EEXIST /\ flagb e PTE_PRESENT = true /\ leaf_set root shape m w e m' \/
   ret = - ENOMEM /\ e = 0 /\ leaf_set root shape m w e m' /\ (pa_alloc_page (pmem m')).1 = 0) /\
  (if flagb e PTE_PRESENT then
     ((mmu_unmap root virt m).1 = 0 /\ leaf_set root shape m w 0 (mmu_unmap root virt m).2) /\
     (mmu_set_flags root virt flags m).1 = 0 /\
     leaf_set root shape m w (pte_make (pte_get_frame e) (Z.lor flags PTE_PRESENT)) (mmu_set_flags root virt flags m).2 /\
     mmu_resolve root virt m = Z.lor (pte_get_frame e) (Z.land virt PAGE_OFFSET_MASK)
   else
     mmu_unmap root virt m = (- ENOENT, m) /\ mmu_set_flags root virt flags m = (- ENOENT, m) /\
     mmu_resolve root virt m = 0) /\
  mmu_get_flags root virt m = Z.land e (u64 (Z.lnot PAGE_FRAME_MASK)).
Proof.
  intros Hok Hv Hp Hf w e. destruct (user_vpn virt Hv) as [_ Hu]. pose proof (mmu_map_spec root shape m Hok virt Hu phys flags Hp Hf) as Hmap.
  pose proof (mmu_unmap_spec root shape m Hok virt Hu) as Hun. fold w e in Hun.
  pose proof (mmu_set_flags_spec root shape m Hok virt Hu flags Hf) as Hsf. fold w e in Hsf.
  destruct (mmu_read_spec root shape m Hok virt Hu) as [Hr Hg]. fold w e in Hr, Hg.
  split_and!; [done| |done]. rewrite Hr.
  destruct (flagb e PTE_PRESENT); split_and!; first [done|apply Hun|apply Hsf].
Qed.

Lemma shiftl_land_mod q v k : 0 <= k -> Z.land (Z.shiftl q k) (v mod 2 ^ k) = 0.
Proof.
  intros Hk. apply Z.bits_inj'. intros i Hi. rewrite Z.land_spec, Z.shiftl_spec, Z.bits_0 by lia.
  destruct (Z.lt_ge_cases i k); [by rewrite Z.testbit_neg_r by lia|].
  rewrite Z.mod_pow2_bits_high by lia. apply andb_false_r.
Qed.

Lemma resolve_mapped phys flags virt :
  frame_addr phys -> Z.land flags PAGE_FRAME_MASK = 0 ->
  Z.lor (pte_get_frame (pte_make phys (Z.lor flags PTE_PRESENT))) (Z.land virt PAGE_OFFSET_MASK) =
  phys + virt mod PAGE_SIZE.
Proof.
  intros Hp Hf. rewrite pte_make_frame_mask; [|done|by rewrite Z.land_lor_distr_l, Hf].
  change PAGE_OFFSET_MASK with (Z.ones 12). rewrite Z.land_ones by lia.
  destruct Hp as [Hp _]. rewrite Hp. change PAGE_SIZE with (2 ^ 12).
  rewrite <- Z.shiftl_mul_pow2, Z.add_nocarry_lxor, Z.lxor_lor by (lia || by apply shiftl_land_mod). done.
Qed.

Lemma resolve_set root shape m w v m' virt :
  pt_ok root shape m -> leaf_set root shape m w v m' -> user_page (vpn virt) ->
  mmu_resolve root virt m' =
    if decide (vpn virt = w) then
      (if flagb v PTE_PRESENT then Z.lor (pte_get_frame v) (Z.land virt PAGE_OFFSET_MASK) else 0)
    else mmu_resolve root virt m.
Proof.
  intros Hok [(sh & _ & Hok' & _) He _ _ _ _] Hu.
  rewrite (proj1 (mmu_read_spec root sh m' Hok' virt Hu)), (proj1 (mmu_read_spec root shape m Hok virt Hu)).
  rewrite He by done. by case_decide.
Qed.

(** Mapping and resolving round-trip: after [mmu_map] of a page-aligned
    physical address to a user page succeeds, every address of the page resolves to
    that frame at its own offset and all other user addresses resolve as before;
    [mmu_unmap] then succeeds and restores every resolution. *)
Theorem map_resolve_roundtrip root shape m virt phys flags m' :
  pt_ok root shape m -> 0 <= virt < 2 ^ 47 -> frame_addr phys -> 0 <= flags < 2 ^ 64 -> Z.land flags PAGE_FRAME_MASK = 0 ->
  mmu_map root virt phys flags m = (0, m') ->
  (forall v, 0 <= v < 2 ^ 47 -> mmu_resolve root v m' =
     if decide (vpn v = vpn virt) then phys + v mod PAGE_SIZE else mmu_resolve root v m) /\
  (mmu_unmap root virt m').1 = 0 /\
  forall v, 0 <= v < 2 ^ 47 -> mmu_resolve root v (mmu_unmap root virt m').2 = mmu_resolve root v m.
Proof.
  intros Hok Hv Hp Hf Hmask E. destruct (user_vpn virt Hv) as [_ Hu].
  pose proof (mmu_map_spec root shape m Hok virt Hu phys flags ltac:(destruct Hp; lia) Hf) as Hmap. rewrite E in Hmap.
  destruct Hmap as [(_ & Habs & Hls)|[(? & _)|(? & _)]]; [|done..].
  replace (ALIGN_DOWN phys PAGE_SIZE) with phys in Hls by (rewrite ALIGN_DOWN_page; apply Hp).
  destruct (ls_ok _ _ _ _ _ _ Hls) as (sh & _ & Hok' & _).
  pose proof (mmu_unmap_spec root sh m' Hok' virt Hu) as Hun.
  rewrite (ls_entry _ _ _ _ _ _ Hls), decide_True, pte_make_present in Hun by done.
  destruct Hun as [Hr Hun]. split_and!; [|done|]; intros v [_ Hvu]%user_vpn.
  - rewrite (resolve_set _ _ _ _ _ _ v Hok Hls Hvu), pte_make_present. case_decide; [by apply resolve_mapped|done].
  - rewrite (resolve_set _ _ _ _ _ _ v Hok' Hun Hvu), (resolve_set _ _ _ _ _ _ v Hok Hls Hvu). case_decide as Ev; [|done].
    cbn. by rewrite (proj1 (mmu_read_spec root shape m Hok v Hvu)), Ev, Habs.
Qed.

(** A new address space has an empty lower half and the kernel's upper half:
    [mmu_create_page_table] either returns NULL and changes nothing, or returns a
    page taken from the allocator that is the root of a well-formed tree in which
    no user page is mapped, with the entries of the kernel's root from 256 on; all
    tables in use, the kernel's included, stay as they were. *)
Theorem mmu_create_correct k m struct_ok :
  kernel_root k m ->
  let '(root, m') := mmu_create_page_table k struct_ok m in
  root = 0 /\ m' = m \/
  root / PAGE_SIZE ∈ pa_frames (pmem m) /\ pa_frames (pmem m') = pa_frames (pmem m) ∖ {[root / PAGE_SIZE]} /\
  pt_ok root {[root := (3%nat, 0)]} m' /\ (forall w, user_page w -> pt_entry m' root w = 0) /\
  (forall i, 256 <= i < 512 -> get_entry m' (root, i) = get_entry m (k, i)) /\
  forall u, u / PAGE_SIZE ∉ pa_frames (pmem m) -> tabs m' !! u = tabs m !! u.
Proof.
  intros Hk. pose proof (kr_inv _ _ Hk) as Hi. unfold mmu_create_page_table. destruct struct_ok; cbn [negb]; [|by left].
  unfold alloc_page. destruct (pa_alloc_page_spec (pmem m) Hi) as (Hst & _ & Ha).
  destruct (pa_alloc_page (pmem m)) as [phys st]. cbn [fst snd] in *. destruct Ha as [[-> ->]|(a & -> & Ha & Hfr)].
  { cbn. left. by destruct m. }
  destruct (free_addr m a Hi Ha) as (_ & Hnd & Hn0).
  destruct (Z.eqb_spec (a * PAGE_SIZE) 0); [done|]. right. cbn [with_pmem pmem tabs].
  destruct (create_tabs k m Hk st a Ha) as (Hp & Ho & _).
  split_and!; [by rewrite Hnd|by rewrite Hp, Hnd|by apply (new_root_ok k m)|by apply (create_entry k m)| |].
  - intros j Hj. rewrite (create_get k m Hk st a Ha) by lia. by rewrite (proj2 (Z.leb_le 256 j)) by lia.
  - intros u Hu. apply Ho. intros ->. by rewrite Hnd in Hu.
Qed.

(** [mmu_map_range] maps every page of the range that was not mapped and
    leaves the others alone when it succeeds.  When a page table cannot be
    allocated it clears the leading part of the range it had walked over: the
    pages it had mapped, and with them those that were mapped before the call. *)
Theorem mmu_map_range_correct root shape m virt phys size flags :
  pt_ok root shape m -> 0 <= flags < 2 ^ 64 -> phys mod PAGE_SIZE = 0 ->
  let n := ALIGN_UP size PAGE_SIZE / PAGE_SIZE in
  0 <= virt /\ virt + n * PAGE_SIZE <= 2 ^ 64 -> vpn virt + n <= 2 ^ 35 ->
  0 <= phys /\ phys + n * PAGE_SIZE <= 2 ^ 64 ->
  let inside w k := (vpn virt <=? w) && (w <? vpn virt + k) in
  let '(ret, m') := mmu_map_range root virt phys size flags m in
  ret = 0 /\ entries_are root shape m' (fun w =>
    if inside w n && negb (flagb (pt_entry m root w) PTE_PRESENT)
    then pte_make (phys + (w - vpn virt) * PAGE_SIZE) (Z.lor flags PTE_PRESENT) else pt_entry m root w) \/
  ret = - ENOMEM /\ exists k, 0 <= k < n /\ pt_entry m root (vpn virt + k) = 0 /\
    entries_are root shape m' (fun w => if inside w k then 0 else pt_entry m root w).
Proof.
  intros Hok Hf Hpa n Hv Hvn Hp inside. unfold mmu_map_range. fold n.
  assert (Hn : 0 <= n) by (apply Z.div_pos; [apply Z.land_nonneg; left; by apply Z.mod_pos_bound|done]).
  apply (map_range_loop_spec root shape m virt phys flags n Hf Hv Hvn Hpa Hp (Z.to_nat n) 0 m); [lia|lia|].
  split; [by exists shape|]. intros w Hw. unfold filled_to. rewrite Z.add_0_r.
  destruct (Z.leb_spec (vpn virt) w), (Z.ltb_spec w (vpn virt)); done || lia.
Qed.

End tree.

(** ** A concrete address space

    The root of a process, created over the tables of boot.S, which lie outside the
    allocator's frames. *)

Definition kernel_pml4 : Z := 0x258000.
Definition kernel_mmu : mmu pmm := Mmu pmm_512 (setup_page_tables kernel_pml4 0x259000 0x25A000 0x25B000).
Definition user_root : Z := (mmu_create_page_table kernel_pml4 true kernel_mmu).1.
Definition user_mmu : mmu pmm := (mmu_create_page_table kernel_pml4 true kernel_mmu).2.

(** The allocator of the example has no frame from 512 on. *)
Definition zone_ends (st : pmm) : Z * Z * Z := (end_pfn (zone_dma st), end_pfn (zone_normal st), end_pfn (zone_high st)).

Lemma outside_512 (st : pmm) p : pa_inv st -> zone_ends st = zone_ends pmm_512 -> 512 <= p -> p ∉ pa_frames st.
Proof.
  intros Hi [= E1 E2 E3] Hp Hin. apply elem_of_free_frames in Hin as (zt & Hz & _); [|apply Hi].
  apply in_zone_iff in Hz. destruct zt; simpl in *; lia.
Qed.

Lemma kernel_mmu_ok : kernel_root kernel_pml4 kernel_mmu.
Proof.
  split; [apply pmm_512_inv|by apply outside_512; [apply pmm_512_inv|..]|]. eexists. split; [apply lookup_insert_eq|]. split; [by rewrite !length_aset; apply zero_table_ok|].
  repeat (apply aset_words; [|vm_compute; intuition discriminate]). apply zero_table_ok.
Qed.

(** The tables of the kernel's half are shared and map large pages. *)
Lemma kernel_shared :
  get_entry user_mmu (user_root, 273) = 0x259003 /\ get_entry user_mmu (user_root, 511) = 0x25A003 /\
  get_entry user_mmu (0x259000, 0) = 0x25B003 /\ get_entry user_mmu (0x25A000, 510) = 0x25B003 /\
  flagb (get_entry user_mmu (0x25B000, 3)) PTE_HUGE = true.
Proof. vm_compute. done. Qed.

Lemma user_root_pos : user_root <> 0.
Proof. vm_compute. discriminate. Qed.

Lemma user_mmu_ok : pt_ok user_root {[user_root := (3%nat, 0)]} user_mmu /\ forall w, user_page w -> pt_entry user_mmu user_root w = 0.
Proof.
  pose proof (mmu_create_correct kernel_pml4 kernel_mmu true kernel_mmu_ok) as H. pose proof user_root_pos as H0. unfold user_root, user_mmu in *.
  destruct (mmu_create_page_table kernel_pml4 true kernel_mmu) as [root m']. cbn [fst snd] in *. destruct H as [[? _]|(_ & _ & ? & ? & _)]; done.
Qed.

(** Page 0x400000 mapped to frame 400, writable for the user. *)
Definition one_page : mmu pmm := (mmu_map user_root 0x400000 0x190000 6 user_mmu).2.

Lemma one_page_ret : (mmu_map user_root 0x400000 0x190000 6 user_mmu).1 = 0.
Proof. vm_compute. reflexivity. Qed.

Lemma one_page_map : mmu_map user_root 0x400000 0x190000 6 user_mmu = (0, one_page).
Proof. rewrite <- one_page_ret. unfold one_page. apply surjective_pairing. Qed.

Lemma paging_refines_witness :
  (mmu_map user_root 0x400000 0x190000 6 user_mmu).1 = 0 /\
  pt_entry user_mmu user_root (vpn 0x400000) = 0 /\
  mmu_unmap user_root 0x400000 user_mmu = (- ENOENT, user_mmu).
Proof.
  assert (E : flagb (pt_entry user_mmu user_root (vpn 0x400000)) PTE_PRESENT = false) by (vm_compute; reflexivity).
  pose proof (paging_refines user_root _ user_mmu 0x400000 0x190000 6 (proj1 user_mmu_ok) ltac:(lia) ltac:(lia) ltac:(lia)) as H.
  cbv zeta in H. rewrite E in H. destruct H as (_ & (H & _ & _) & _).
  split; [exact one_page_ret|]. split; [vm_compute; reflexivity|exact H].
Defined.

Lemma map_resolve_roundtrip_witness :
  mmu_resolve user_root 0x400123 one_page = 0x190123 /\
  mmu_resolve user_root 0x400123 (mmu_unmap user_root 0x400000 one_page).2 = mmu_resolve user_root 0x400123 user_mmu.
Proof.
  assert (Ha : frame_addr 0x190000) by (split; [reflexivity|lia]).
  destruct (map_resolve_roundtrip user_root _ user_mmu 0x400000 0x190000 6 one_page (proj1 user_mmu_ok) ltac:(lia) Ha ltac:(lia) eq_refl one_page_map)
    as (H1 & _ & H2).
  split; [|apply H2; lia]. rewrite H1 by lia. vm_compute. reflexivity.
Defined.

Lemma mmu_create_correct_witness :
  get_entry (mmu_create_page_table kernel_pml4 true kernel_mmu).2 ((mmu_create_page_table kernel_pml4 true kernel_mmu).1, 273) = 0x259003.
Proof.
  pose proof (mmu_create_correct kernel_pml4 kernel_mmu true kernel_mmu_ok) as H. pose proof user_root_pos as H0. unfold user_root in H0.
  destruct (mmu_create_page_table kernel_pml4 true kernel_mmu) as [root m']. cbn [fst snd] in *.
  destruct H as [[H _]|(_ & _ & _ & _ & H & _)]; [destruct (H0 H)|]. rewrite H by lia. vm_compute. reflexivity.
Defined.

(** Two pages, the first of them mapped already, the second under another
    last-level table, and no memory left. *)
Definition pmm_full : pmm :=
  Pmm (Zone 0 16 16 0) (Zone 16 512 496 0) (Zone 512 512 0 0) (replicate 16 (2 ^ 32 - 1)) 512 0 0 None 0.
Definition full_mmu : mmu pmm := Mmu pmm_full (tabs (mmu_map user_root 0x3FF000 0x190000 6 user_mmu).2).

Lemma mmu_map_range_correct_witness :
  (mmu_map_range user_root 0x400000 0x190000 8192 6 user_mmu).1 = 0 /\
  pt_entry (mmu_map_range user_root 0x400000 0x190000 8192 6 user_mmu).2 user_root (vpn 0x401000) = 0x191007 /\
  mmu_resolve user_root 0x3FF000 full_mmu = 0x190000 /\
  (mmu_map_range user_root 0x3FF000 0x1A0000 8192 6 full_mmu).1 = - ENOMEM /\
  mmu_resolve user_root 0x3FF000 (mmu_map_range user_root 0x3FF000 0x1A0000 8192 6 full_mmu).2 = 0.
Proof.
  pose proof (mmu_map_range_correct user_root _ user_mmu 0x400000 0x190000 8192 6 (proj1 user_mmu_ok)
    ltac:(lia) eq_refl ltac:(vm_compute; intuition discriminate) ltac:(vm_compute; discriminate)
    ltac:(vm_compute; intuition discriminate)) as H. cbv zeta in H.
  assert (E : (mmu_map_range user_root 0x400000 0x190000 8192 6 user_mmu).1 = 0) by (vm_compute; reflexivity).
  destruct (mmu_map_range user_root 0x400000 0x190000 8192 6 user_mmu) as [ret m']. cbn [fst snd] in *.
  split; [exact E|]. split.
  - destruct H as [[_ [_ H]]|[H _]]; [|rewrite E in H; discriminate].
    rewrite (H (vpn 0x401000) (proj2 (user_vpn 0x401000 ltac:(lia)))). vm_compute. reflexivity.
  - split; [|split]; vm_compute; reflexivity.
Defined.
