(* ===== verification/Vmm.v ===== *)
(** * Virtual memory manager (kernel/mm/vmm.c)

    An address space is a page table and a list of memory areas, in address
    order.  The machine is the page tables and the page allocator below them
    ([mm]), the bytes of the direct map ([ram]), which hold the contents of the
    data pages, and the outcomes of the coming [kmalloc] calls ([allocs], no
    more memory when it runs out).  The file read behind a file mapping is a
    parameter.  Locks, reference counts and the statistics that no code reads
    are not modelled; [vma_cache] is NULL from [vmm_init] on. *)

From S2P Require Import Prelude PageAllocator SafeArith CString Errno Paging.

Definition USER_HEAP_BASE : Z := 0x10000000.
Definition USER_SPACE_END : Z := 0x0000800000000000.

Abbreviation PROT_READ := 1%Z (only parsing).
Abbreviation PROT_WRITE := 2%Z (only parsing).
Abbreviation PROT_EXEC := 4%Z (only parsing).

Abbreviation MAP_SHARED := 1%Z (only parsing).
Abbreviation MAP_PRIVATE := 2%Z (only parsing).
Abbreviation MAP_FIXED := 0x10%Z (only parsing).
Abbreviation MAP_ANONYMOUS := 0x20%Z (only parsing).
Definition MAP_FAILED : Z := 2 ^ 64 - 1.

Abbreviation VMA_READ := 1%Z (only parsing).
Abbreviation VMA_WRITE := 2%Z (only parsing).
Abbreviation VMA_EXEC := 4%Z (only parsing).
Abbreviation VMA_SHARED := 8%Z (only parsing).
Abbreviation VMA_PRIVATE := 16%Z (only parsing).
Abbreviation VMA_ANONYMOUS := 128%Z (only parsing).

(** ** State *)

Record vm_area := VmArea {
  vm_start : Z;
  vm_end : Z;
  vm_flags : Z;
  vm_prot : Z;
  vm_file : Z;
  vm_offset : Z
}.

#[global] Instance vm_area_eq_dec : EqDecision vm_area.
Proof. solve_decision. Defined.

Record address_space := AddressSpace {
  pt : Z;
  vma_list : list vm_area;
  vma_count : Z;
  total_vm : Z;
  brk_start : Z;
  brk_end : Z;
  start_code : Z;
  end_code : Z;
  start_data : Z;
  end_data : Z;
  start_stack : Z
}.

Definition with_vmas (l : list vm_area) (asp : address_space) : address_space :=
  AddressSpace (pt asp) l (vma_count asp) (total_vm asp) (brk_start asp) (brk_end asp)
    (start_code asp) (end_code asp) (start_data asp) (end_data asp) (start_stack asp).

(** The two counters after [n] areas and [size] bytes more. *)
Definition account (n size : Z) (asp : address_space) : address_space :=
  AddressSpace (pt asp) (vma_list asp) (u64 (vma_count asp + n)) (u64 (total_vm asp + size))
    (brk_start asp) (brk_end asp) (start_code asp) (end_code asp) (start_data asp) (end_data asp) (start_stack asp).

Definition with_brk (b : Z) (asp : address_space) : address_space :=
  AddressSpace (pt asp) (vma_list asp) (vma_count asp) (total_vm asp) (brk_start asp) b
    (start_code asp) (end_code asp) (start_data asp) (end_data asp) (start_stack asp).

(** The boundaries copied by a clone. *)
Definition with_bounds (from asp : address_space) : address_space :=
  AddressSpace (pt asp) (vma_list asp) (vma_count asp) (total_vm asp) (brk_start from) (brk_end from)
    (start_code from) (end_code from) (start_data from) (end_data from) (start_stack from).

Definition set_vma (prot file offset : Z) (v : vm_area) : vm_area :=
  VmArea (vm_start v) (vm_end v) (vm_flags v) prot file offset.
Definition with_end (e : Z) (v : vm_area) : vm_area :=
  VmArea (vm_start v) e (vm_flags v) (vm_prot v) (vm_file v) (vm_offset v).
(** The front of [v] cut off up to [e]. *)
Definition trim_start (e : Z) (v : vm_area) : vm_area :=
  VmArea e (vm_end v) (vm_flags v) (vm_prot v) (vm_file v) (u64 (vm_offset v + (e - vm_start v))).

Record machine (St : Type) := Machine {
  mm : mmu St;
  ram : memory;
  allocs : list bool
}.
Arguments Machine {St}.
Arguments mm {St}.
Arguments ram {St}.
Arguments allocs {St}.

(** ** Areas *)

Fixpoint find_vma (addr : Z) (l : list vm_area) : option vm_area :=
  match l with
  | [] => None
  | vma :: next =>
    if (addr >=? vm_start vma) && (addr <? vm_end vma) then Some vma
    else if addr <? vm_start vma then None
    else find_vma addr next
  end.

Definition vmm_find_vma (asp : address_space) (addr : Z) : option vm_area := find_vma addr (vma_list asp).

Fixpoint find_intersection (start end_ : Z) (l : list vm_area) : option vm_area :=
  match l with
  | [] => None
  | vma :: next =>
    if (vm_start vma <? end_) && (vm_end vma >? start) then Some vma
    else if vm_start vma >=? end_ then None
    else find_intersection start end_ next
  end.

Definition vmm_find_vma_intersection (asp : address_space) (start end_ : Z) : option vm_area :=
  find_intersection start end_ (vma_list asp).

(** The list behind [prev] with [vma] linked in, or [None] when it overlaps a
    neighbour. *)
Fixpoint link_vma (prev : option vm_area) (curr : list vm_area) (vma : vm_area) : option (list vm_area) :=
  let here :=
    if match curr with c :: _ => vm_start c <? vm_end vma | [] => false end then None
    else if match prev with Some p => vm_end p >? vm_start vma | None => false end then None
    else Some (vma :: curr) in
  match curr with
  | c :: rest => if vm_start c <? vm_start vma then option_map (cons c) (link_vma (Some c) rest vma) else here
  | [] => here
  end.

Definition vmm_insert_vma (asp : address_space) (vma : vm_area) : Z * address_space :=
  match link_vma None (vma_list asp) vma with
  | None => (- EEXIST, asp)
  | Some l => (0, account 1 (vm_end vma - vm_start vma) (with_vmas l asp))
  end.

(** Unlinks the area at position [i]. *)
Definition vmm_remove_vma (i : nat) (asp : address_space) : address_space :=
  match vma_list asp !! i with
  | Some vma => account (-1) (- (vm_end vma - vm_start vma)) (with_vmas (delete i (vma_list asp)) asp)
  | None => asp
  end.

Definition vmm_prot_to_pte_flags (prot : Z) : Z :=
  let flags := Z.lor PTE_PRESENT PTE_USER in
  if flagb prot PROT_WRITE then Z.lor flags PTE_WRITABLE else flags.

(** The iterations of [for (addr = lo; addr < hi; addr += PAGE_SIZE)]. *)
Definition pages (lo hi : Z) : Z := (hi - lo + (PAGE_SIZE - 1)) / PAGE_SIZE.

Section operations.
Context {St : Type} `{PageAllocator St}.
Implicit Types (s : machine St) (m : mmu St).

Definition with_mm m s : machine St := Machine m (ram s) (allocs s).
Definition with_ram (r : memory) s : machine St := Machine (mm s) r (allocs s).

(** The outcome of the next [kmalloc] or [kzalloc]. *)
Definition kmalloc_next s : bool * machine St :=
  match allocs s with
  | [] => (false, s)
  | b :: rest => (b, Machine (mm s) (ram s) rest)
  end.

Definition pmm_page s : Z * machine St := let '(phys, m) := alloc_page (mm s) in (phys, with_mm m s).
Definition pmm_release (phys : Z) s : machine St := with_mm (free_page phys (mm s)) s.

Definition vmm_create_vma (start end_ flags : Z) s : option vm_area * machine St :=
  let '(ok, s) := kmalloc_next s in
  if negb ok then (None, s) else (Some (VmArea start end_ flags 0 0 0), s).

(** ** Unmapping *)

Definition drop_page (root addr : Z) s : machine St :=
  let phys := mmu_resolve root addr (mm s) in
  if phys =? 0 then s else
  pmm_release phys (with_mm (mmu_unmap root addr (mm s)).2 s).

Definition drop_pages (root lo hi : Z) s : machine St :=
  for_range 0 (pages lo hi) (fun i => drop_page root (lo + i * PAGE_SIZE)) s.

(** The areas in [before] are done with; [rest] is the list from the current
    area on. *)
Fixpoint munmap_loop (start end_ : Z) (before rest : list vm_area) (asp : address_space) s : address_space * machine St :=
  match rest with
  | [] => (asp, s)
  | vma :: next =>
    if vm_start vma >=? end_ then (asp, s) else
    if vm_end vma >? start then
      let unmap_start := Z.max (vm_start vma) start in
      let unmap_end := Z.min (vm_end vma) end_ in
      let s := drop_pages (pt asp) unmap_start unmap_end s in
      if (vm_start vma >=? start) && (vm_end vma <=? end_) then
        munmap_loop start end_ before next (vmm_remove_vma (length before) asp) s
      else if (vm_start vma <? start) && (vm_end vma >? end_) then
        match vmm_create_vma end_ (vm_end vma) (vm_flags vma) s with
        | (Some new_vma, s) =>
          let new_vma := set_vma (vm_prot vma) (vm_file vma) (u64 (vm_offset vma + (end_ - vm_start vma))) new_vma in
          let asp := (vmm_insert_vma (with_vmas (before ++ with_end start vma :: next) asp) new_vma).2 in
          let passed := (length (vma_list asp) - length next)%nat in
          munmap_loop start end_ (take passed (vma_list asp)) next asp s
        | (None, s) => munmap_loop start end_ (before ++ [vma]) next asp s
        end
      else
        let vma := if vm_start vma <? start then with_end start vma else trim_start end_ vma in
        munmap_loop start end_ (before ++ [vma]) next (with_vmas (before ++ vma :: next) asp) s
    else munmap_loop start end_ (before ++ [vma]) next asp s
  end.

Definition vmm_munmap (addr length : Z) (asp : address_space) s : Z * address_space * machine St :=
  let start := ALIGN_DOWN addr PAGE_SIZE in
  match zig_range_end_le_cap_ok addr length UINT64_MAX with
  | (0, Some span_end) =>
    let end_ := ALIGN_UP span_end PAGE_SIZE in
    let '(asp, s) := munmap_loop start end_ [] (vma_list asp) asp s in (0, asp, s)
  | _ => (- EINVAL, asp, s)
  end.

(** ** Mapping *)

(** The search for a gap of [length] bytes: [None] out of fuel, [Some None]
    when the end of user space is reached. *)
Fixpoint find_gap (fuel : nat) (length start : Z) (asp : address_space) : option (option Z) :=
  match fuel with
  | O => None
  | S fuel =>
    match zig_range_end_le_cap_ok start length USER_SPACE_END with
    | (0, Some end_) =>
      match vmm_find_vma_intersection asp start end_ with
      | None => Some (Some start)
      | Some vma => find_gap fuel length (ALIGN_UP (vm_end vma) PAGE_SIZE) asp
      end
    | _ => Some None
    end
  end.

Definition mmap_vma_flags (prot flags : Z) : Z :=
  let set (b : bool) (f x : Z) := if b then Z.lor x f else x in
  let vma_flags := 0 in
  let vma_flags := set (flagb prot PROT_READ) VMA_READ vma_flags in
  let vma_flags := set (flagb prot PROT_WRITE) VMA_WRITE vma_flags in
  let vma_flags := set (flagb prot PROT_EXEC) VMA_EXEC vma_flags in
  let vma_flags := set (flagb flags MAP_SHARED) VMA_SHARED vma_flags in
  let vma_flags := set (flagb flags MAP_PRIVATE) VMA_PRIVATE vma_flags in
  set (flagb flags MAP_ANONYMOUS) VMA_ANONYMOUS vma_flags.

Section files.
(** [vfs_read file buf count pos]: the result and the memory after it. *)
Context (vfs_read : Z -> Z -> Z -> Z -> memory -> Z * memory).

(** The pages of a file mapping; [false] when it has to be undone. *)
Fixpoint populate (n : nat) (root vaddr pte_flags file read_off : Z) s : bool * machine St :=
  match n with
  | O => (true, s)
  | S n =>
    let '(phys, s) := pmm_page s in
    if phys =? 0 then (false, s) else
    let s := with_ram (memset (PHYS_TO_VIRT phys) 0 PAGE_SIZE (ram s)) s in
    let '(ret, m) := mmu_map root vaddr phys pte_flags (mm s) in
    let s := with_mm m s in
    if negb (ret =? 0) then (false, pmm_release phys s) else
    let '(ret, r) := vfs_read file (PHYS_TO_VIRT phys) PAGE_SIZE read_off (ram s) in
    let s := with_ram r s in
    if s32 ret <? 0 then (false, s) else
    populate n root (vaddr + PAGE_SIZE) pte_flags file (read_off + PAGE_SIZE) s
  end.

(** The new area and its pages. *)
Definition mmap_place (start end_ length prot flags file offset : Z) (asp : address_space) s : Z * address_space * machine St :=
  match vmm_create_vma start end_ (mmap_vma_flags prot flags) s with
  | (None, s) => (MAP_FAILED, asp, s)
  | (Some vma, s) =>
    let '(ret, asp) := vmm_insert_vma asp (set_vma prot file (u64 offset) vma) in
    if negb (ret =? 0) then (MAP_FAILED, asp, s) else
    let pte_flags := vmm_prot_to_pte_flags prot in
    if negb (flagb flags MAP_ANONYMOUS) && negb (file =? 0) then
      let '(ok, s) := populate (Z.to_nat (pages start end_)) (pt asp) start pte_flags file offset s in
      if ok then (start, asp, s) else
      let '(_, asp, s) := vmm_munmap start length asp s in (MAP_FAILED, asp, s)
    else (start, asp, s)
  end.

(** From the choice of [start] on. *)
Definition mmap_at (start length prot flags file offset : Z) (asp : address_space) s : Z * address_space * machine St :=
  match zig_range_end_le_cap_ok start length USER_SPACE_END with
  | (0, Some end_) =>
    let '(ret, asp, s) :=
      if flagb flags MAP_FIXED then vmm_munmap start length asp s
      else (match vmm_find_vma_intersection asp start end_ with Some _ => -1 | None => 0 end, asp, s) in
    if negb (ret =? 0) then (MAP_FAILED, asp, s) else mmap_place start end_ length prot flags file offset asp s
  | _ => (MAP_FAILED, asp, s)
  end.

(** [None] when the gap search runs out of fuel. *)
Definition vmm_mmap (addr length prot flags file offset : Z) (asp : address_space) s : option (Z * address_space * machine St) :=
  if (pt asp =? 0) || (length =? 0) then Some (MAP_FAILED, asp, s) else
  if negb (flagb flags MAP_ANONYMOUS) &&
     ((file =? 0) || (offset <? 0) || negb (Z.land (u64 offset) (PAGE_SIZE - 1) =? 0))
  then Some (MAP_FAILED, asp, s) else
  let length := ALIGN_UP length PAGE_SIZE in
  if flagb flags MAP_FIXED then
    if negb (Z.land addr (PAGE_SIZE - 1) =? 0) then Some (MAP_FAILED, asp, s) else
    Some (mmap_at (ALIGN_DOWN addr PAGE_SIZE) length prot flags file offset asp s)
  else
    match find_gap (S (List.length (vma_list asp))) length USER_HEAP_BASE asp with
    | None => None
    | Some None => Some (MAP_FAILED, asp, s)
    | Some (Some start) => Some (mmap_at start length prot flags file offset asp s)
    end.
End files.

Definition protect_page (root flags a : Z) s : machine St :=
  if mmu_resolve root a (mm s) =? 0 then s else with_mm (mmu_set_flags root a flags (mm s)).2 s.

Definition vmm_mprotect (addr length prot : Z) (asp : address_space) s : Z * machine St :=
  let start := ALIGN_DOWN addr PAGE_SIZE in
  let end_ := ALIGN_UP (u64 (addr + length)) PAGE_SIZE in
  let flags := vmm_prot_to_pte_flags prot in
  (0, for_range 0 (pages start end_) (fun i => protect_page (pt asp) flags (start + i * PAGE_SIZE)) s).

(** ** The heap *)

(** [true] when all [n] pages from [addr] on are mapped. *)
Fixpoint brk_grow (n : nat) (root addr : Z) s : bool * machine St :=
  match n with
  | O => (true, s)
  | S n =>
    let existing_phys := mmu_resolve root addr (mm s) in
    if negb (existing_phys =? 0) then (false, s) else
    let '(phys, s) := pmm_page s in
    if phys =? 0 then (false, s) else
    let '(ret, m) := mmu_map root addr phys (Z.lor (Z.lor PTE_PRESENT PTE_WRITABLE) PTE_USER) (mm s) in
    let s := with_mm m s in
    if negb (ret =? 0) then (false, pmm_release phys s) else
    brk_grow n root (addr + PAGE_SIZE) (with_ram (memset (PHYS_TO_VIRT phys) 0 PAGE_SIZE (ram s)) s)
  end.

Definition vmm_brk (addr : Z) (asp : address_space) s : Z * address_space * machine St :=
  let new_brk := addr in
  if new_brk =? 0 then (brk_end asp, asp, s) else
  let new_brk := ALIGN_UP new_brk PAGE_SIZE in
  if new_brk <? brk_start asp then (u64 (-1), asp, s) else
  if new_brk >? brk_end asp then
    let '(ok, s) := brk_grow (Z.to_nat (pages (brk_end asp) new_brk)) (pt asp) (brk_end asp) s in
    if ok then (new_brk, with_brk new_brk asp, s) else (u64 (-1), asp, s)
  else if new_brk <? brk_end asp then
    (new_brk, with_brk new_brk asp, drop_pages (pt asp) new_brk (brk_end asp) s)
  else (new_brk, with_brk new_brk asp, s).

(** ** Page faults *)

Definition vmm_handle_page_fault (addr error_code : Z) (asp : address_space) s : Z * machine St :=
  match vmm_find_vma asp addr with
  | None => (- EFAULT, s)
  | Some vma =>
    if flagb error_code 2 && negb (flagb (vm_flags vma) VMA_WRITE) then (- EACCES, s) else
    let page_addr := ALIGN_DOWN addr PAGE_SIZE in
    let old_phys := mmu_resolve (pt asp) page_addr (mm s) in
    let flags := vmm_prot_to_pte_flags (vm_prot vma) in
    if negb (old_phys =? 0) && flagb (mmu_get_flags (pt asp) page_addr (mm s)) PTE_COW then
      let '(new_phys, s) := pmm_page s in
      if new_phys =? 0 then (- ENOMEM, s) else
      let s := with_ram (memcpy (PHYS_TO_VIRT new_phys) (PHYS_TO_VIRT old_phys) PAGE_SIZE (ram s)) s in
      let s := with_mm (mmu_unmap (pt asp) page_addr (mm s)).2 s in
      (0, with_mm (mmu_map (pt asp) page_addr new_phys flags (mm s)).2 s)
    else
      let '(phys, s) := pmm_page s in
      if phys =? 0 then (- ENOMEM, s) else
      let s := with_ram (memset (PHYS_TO_VIRT phys) 0 PAGE_SIZE (ram s)) s in
      let '(ret, m) := mmu_map (pt asp) page_addr phys flags (mm s) in
      let s := with_mm m s in
      if negb (ret =? 0) then (ret, pmm_release phys s) else (0, s)
  end.

(** ** Address spaces *)

Definition vmm_create_address_space (kernel_pml4 : Z) s : option address_space * machine St :=
  let '(ok, s) := kmalloc_next s in
  if negb ok then (None, s) else
  let '(struct_ok, s) := kmalloc_next s in
  let '(root, m) := mmu_create_page_table kernel_pml4 struct_ok (mm s) in
  let s := with_mm m s in
  if root =? 0 then (None, s) else
  (Some (AddressSpace root [] 0 0 USER_HEAP_BASE USER_HEAP_BASE 0 0 0 0 0), s).

Definition vmm_destroy_address_space (kernel_pml4 : Z) (asp : address_space) s : machine St :=
  if pt asp =? kernel_pml4 then s else with_mm (mmu_destroy_page_table kernel_pml4 (pt asp) (mm s)) s.

(** The mapped pages of one area, copied; [false] when memory runs out. *)
Fixpoint clone_pages (n : nat) (from to addr : Z) s : bool * machine St :=
  match n with
  | O => (true, s)
  | S n =>
    let phys := mmu_resolve from addr (mm s) in
    if phys =? 0 then clone_pages n from to (addr + PAGE_SIZE) s else
    let flags := mmu_get_flags from addr (mm s) in
    let '(new_phys, st) := pa_alloc 1 (pmem (mm s)) in
    let s := with_mm (with_pmem st (mm s)) s in
    if new_phys =? 0 then (false, s) else
    let s := with_ram (memcpy (PHYS_TO_VIRT new_phys) (PHYS_TO_VIRT phys) PAGE_SIZE (ram s)) s in
    let flags := Z.land flags (u64 (Z.lnot PTE_COW)) in
    clone_pages n from to (addr + PAGE_SIZE) (with_mm (mmu_map to addr new_phys flags (mm s)).2 s)
  end.

Fixpoint clone_vmas (l : list vm_area) (from : Z) (new_as : address_space) s : bool * address_space * machine St :=
  match l with
  | [] => (true, new_as, s)
  | vma :: next =>
    match vmm_create_vma (vm_start vma) (vm_end vma) (vm_flags vma) s with
    | (None, s) => (false, new_as, s)
    | (Some new_vma, s) =>
      let new_vma := set_vma (vm_prot vma) (vm_file vma) (vm_offset vma) new_vma in
      let new_as := (vmm_insert_vma new_as new_vma).2 in
      let '(ok, s) := clone_pages (Z.to_nat (pages (vm_start vma) (vm_end vma))) from (pt new_as) (vm_start vma) s in
      if ok then clone_vmas next from new_as s else (false, new_as, s)
    end
  end.

Definition vmm_clone_address_space (kernel_pml4 : Z) (asp : address_space) s : option address_space * machine St :=
  match vmm_create_address_space kernel_pml4 s with
  | (None, s) => (None, s)
  | (Some new_as, s) =>
    let '(ok, new_as, s) := clone_vmas (vma_list asp) (pt asp) new_as s in
    if ok then (Some (with_bounds asp new_as), s)
    else (None, vmm_destroy_address_space kernel_pml4 new_as s)
  end.

(** ** Kernel pages *)

Definition vmm_alloc_kernel_pages (count : Z) s : Z * machine St :=
  let '(phys, st) := pa_alloc count (pmem (mm s)) in
  let s := with_mm (with_pmem st (mm s)) s in
  if phys =? 0 then (0, s) else (PHYS_TO_VIRT phys, s).

Definition vmm_free_kernel_pages (addr count : Z) s : machine St :=
  with_mm (with_pmem (pa_free (VIRT_TO_PHYS addr) count (pmem (mm s))) (mm s)) s.

(** ** User memory *)

Fixpoint verify_pages (n : nat) (root page : Z) (write : bool) s : Z :=
  match n with
  | O => 0
  | S n =>
    if mmu_resolve root page (mm s) =? 0 then - EFAULT else
    let flags := mmu_get_flags root page (mm s) in
    if negb (flagb flags PTE_PRESENT) || negb (flagb flags PTE_USER) then - EFAULT else
    if write && negb (flagb flags PTE_WRITABLE) then - EFAULT else
    verify_pages n root (page + PAGE_SIZE) write s
  end.

(** [current] is the address space of the running process, if any. *)
Definition vmm_verify_user_range (current : option address_space) (addr size : Z) (write : bool) s : Z :=
  if addr =? 0 then - EFAULT else
  if size =? 0 then 0 else
  if negb (zig_user_copy_len_ok size =? 0) then - EINVAL else
  let start := addr in
  if start >=? USER_SPACE_END then - EFAULT else
  match current with
  | None => - EFAULT
  | Some asp =>
    if pt asp =? 0 then - EFAULT else
    let '(err, end_) := zig_u64_add_ok start size in
    if negb (err =? 0) || (end_ >? USER_SPACE_END) then - EFAULT else
    let page := ALIGN_DOWN start PAGE_SIZE in
    verify_pages (Z.to_nat (pages page end_)) (pt asp) page write s
  end.

(** The byte of the direct map behind a user address. *)
Definition user_byte (root addr : Z) s : Z := PHYS_TO_VIRT (mmu_resolve root addr (mm s)).

(** [memcpy] from and to user addresses, which the processor translates. *)
Definition copy_in (root dst src size : Z) s : machine St :=
  with_ram (for_range 0 size (fun i r => store8 (dst + i) (load8 (user_byte root (src + i) s) r) r) (ram s)) s.
Definition copy_out (root dst src size : Z) s : machine St :=
  with_ram (for_range 0 size (fun i r => store8 (user_byte root (dst + i) s) (load8 (src + i) r) r) (ram s)) s.

Definition vmm_copy_from_user (current : option address_space) (dst src size : Z) s : Z * machine St :=
  if dst =? 0 then (- EFAULT, s) else
  let ret := vmm_verify_user_range current src size false s in
  if ret <? 0 then (ret, s) else
  (0, match current with Some asp => copy_in (pt asp) dst src size s | None => s end).

Definition vmm_copy_to_user (current : option address_space) (dst src size : Z) s : Z * machine St :=
  if src =? 0 then (- EFAULT, s) else
  let ret := vmm_verify_user_range current dst size true s in
  if ret <? 0 then (ret, s) else
  (0, match current with Some asp => copy_out (pt asp) dst src size s | None => s end).

Definition vmm_verify_user_read (current : option address_space) (addr size : Z) s : Z :=
  vmm_verify_user_range current addr size false s.
Definition vmm_verify_user_write (current : option address_space) (addr size : Z) s : Z :=
  vmm_verify_user_range current addr size true s.
End operations.
