(* ===== verification/VmmAreas.v ===== *)
(** * The memory areas of an address space

    The list of areas as a map from addresses to their attributes, [view], and
    the proof that lookup, insertion, removal of a range and the search for a
    gap act on that map. *)

From S2P Require Import Prelude PageAllocator SafeArith CString Errno Paging Vmm.

(** ** Well-formed lists *)

Definition aligned (x : Z) : Prop := x mod PAGE_SIZE = 0.

Lemma ALIGN_UP_aligned x : 0 <= x <= 2 ^ 64 - PAGE_SIZE -> aligned x -> ALIGN_UP x PAGE_SIZE = x.
Proof.
  intros Hx Ha. rewrite ALIGN_UP_page by lia. unfold aligned, PAGE_SIZE in *.
  assert (E : x = x / 4096 * 4096) by (pose proof (Z.div_mod x 4096); lia).
  rewrite E at 1. rewrite Z.div_add_l by lia. change ((4096 - 1) / 4096) with 0. lia.
Qed.

Record vma_ok (v : vm_area) : Prop := {
  vo_range : 0 <= vm_start v < vm_end v;
  vo_end : vm_end v <= USER_SPACE_END;
  vo_aligned : aligned (vm_start v) /\ aligned (vm_end v)
}.

(** Areas in address order from [lo] on, none overlapping the next. *)
Fixpoint areas_ok (lo : Z) (l : list vm_area) : Prop :=
  match l with
  | [] => True
  | v :: r => lo <= vm_start v /\ vma_ok v /\ areas_ok (vm_end v) r
  end.

Definition covers (v : vm_area) (a : Z) : bool := (vm_start v <=? a) && (a <? vm_end v).

(** Flags, protection, file and file offset at an address. *)
Definition attr (v : vm_area) (a : Z) : Z * Z * Z * Z :=
  (vm_flags v, vm_prot v, vm_file v, u64 (vm_offset v + (a - vm_start v))).

Fixpoint view (l : list vm_area) (a : Z) : option (Z * Z * Z * Z) :=
  match l with
  | [] => None
  | v :: r => if covers v a then Some (attr v a) else view r a
  end.

Lemma covers_true v a : covers v a = true <-> vm_start v <= a < vm_end v.
Proof. unfold covers. rewrite andb_true_iff, Z.leb_le, Z.ltb_lt. done. Qed.

Lemma covers_false v a : covers v a = false <-> a < vm_start v \/ vm_end v <= a.
Proof. unfold covers. rewrite andb_false_iff, Z.leb_gt, Z.ltb_ge. done. Qed.

Lemma areas_weaken lo lo' l : lo' <= lo -> areas_ok lo l -> areas_ok lo' l.
Proof. destruct l as [|v r]; [done|]. cbn. intros ? (? & ? & ?). split_and!; [lia|done|done]. Qed.

Lemma areas_elem lo l v : areas_ok lo l -> v ∈ l -> vma_ok v /\ lo <= vm_start v.
Proof.
  revert lo. induction l as [|u r IH]; intros lo Hl Hin; [by apply not_elem_of_nil in Hin|].
  destruct Hl as (Hlo & Hu & Hr). apply elem_of_cons in Hin as [->|Hin]; [done|].
  destruct (IH _ Hr Hin). split; [done|]. pose proof (vo_range _ Hu). lia.
Qed.

(** Nothing below the first area. *)
Lemma view_below lo l a : areas_ok lo l -> a < lo -> view l a = None.
Proof.
  revert lo. induction l as [|v r IH]; intros lo Hl Ha; [done|]. destruct Hl as (Hlo & Hv & Hr).
  cbn. rewrite (proj2 (covers_false v a)) by lia. apply (IH (vm_end v)); [done|]. pose proof (vo_range _ Hv). lia.
Qed.

Lemma view_app l1 l2 a : view (l1 ++ l2) a = match view l1 a with Some x => Some x | None => view l2 a end.
Proof. induction l1 as [|v r IH]; [done|]. cbn. by destruct (covers v a). Qed.

Lemma view_elem l a x : view l a = Some x -> exists v, v ∈ l /\ covers v a = true /\ x = attr v a.
Proof.
  induction l as [|v r IH]; [done|]. cbn. destruct (covers v a) eqn:E.
  - intros [= <-]. exists v. split_and!; [left|done|done].
  - intros Hx. destruct (IH Hx) as (u & ? & ? & ?). exists u. split_and!; [by right|done|done].
Qed.

Lemma view_covered lo l v a :
  areas_ok lo l -> v ∈ l -> covers v a = true -> view l a = Some (attr v a).
Proof.
  revert lo. induction l as [|u r IH]; intros lo Hl Hin Hc; [by apply not_elem_of_nil in Hin|].
  destruct Hl as (Hlo & Hu & Hr). cbn. apply elem_of_cons in Hin as [->|Hin]; [by rewrite Hc|].
  pose proof (areas_elem _ _ _ Hr Hin) as [_ Hs]. apply covers_true in Hc as Hc'.
  rewrite (proj2 (covers_false u a)) by lia. by apply (IH (vm_end u)).
Qed.

Lemma covered_unique lo l u v a :
  areas_ok lo l -> u ∈ l -> v ∈ l -> covers u a = true -> covers v a = true -> u = v.
Proof.
  revert lo. induction l as [|w r IH]; intros lo Hl Hu Hv Hcu Hcv; [by apply not_elem_of_nil in Hu|].
  destruct Hl as (_ & Hw & Hr). apply covers_true in Hcu as Hu', Hcv as Hv'.
  apply elem_of_cons in Hu as [->|Hu], Hv as [->|Hv]; [done| | |by apply (IH (vm_end w))].
  - destruct (areas_elem _ _ _ Hr Hv). lia.
  - destruct (areas_elem _ _ _ Hr Hu). lia.
Qed.

(** ** Lookup *)

Lemma find_vma_spec lo l a :
  areas_ok lo l ->
  match find_vma a l with
  | Some v => v ∈ l /\ covers v a = true
  | None => forall v, v ∈ l -> covers v a = false
  end.
Proof.
  revert lo. induction l as [|u r IH]; intros lo Hl; cbn; [intros v Hin; by apply not_elem_of_nil in Hin|].
  destruct Hl as (Hlo & Hu & Hr). replace ((a >=? vm_start u) && (a <? vm_end u)) with (covers u a)
    by (unfold covers; by rewrite Z.geb_leb).
  destruct (covers u a) eqn:E; [by split; [left|]|]. destruct (Z.ltb_spec a (vm_start u)).
  - intros v Hin. apply elem_of_cons in Hin as [->|Hin]; [done|].
    destruct (areas_elem _ _ _ Hr Hin). apply covers_false. pose proof (vo_range _ Hu). lia.
  - specialize (IH _ Hr). destruct (find_vma a r) as [v|]; [destruct IH; split; [by right|done]|].
    intros v Hin. apply elem_of_cons in Hin as [->|Hin]; [done|]. by apply IH.
Qed.

Definition overlaps (start end_ : Z) (v : vm_area) : Prop := vm_start v < end_ /\ start < vm_end v.

(** The first area that overlaps the range. *)
Lemma find_intersection_spec lo l start end_ :
  areas_ok lo l ->
  match find_intersection start end_ l with
  | Some v => exists l1 l2, l = l1 ++ v :: l2 /\ overlaps start end_ v /\ forall u, u ∈ l1 -> vm_end u <= start
  | None => forall v, v ∈ l -> ~ overlaps start end_ v
  end.
Proof.
  revert lo. induction l as [|u r IH]; intros lo Hl; cbn; [intros v Hin; by apply not_elem_of_nil in Hin|].
  destruct Hl as (Hlo & Hu & Hr). rewrite !Z.geb_leb, Z.gtb_ltb. pose proof (vo_range _ Hu) as Hrange.
  destruct (Z.ltb_spec (vm_start u) end_), (Z.ltb_spec start (vm_end u)); cbn [andb].
  - exists [], r. split_and!; [done|done|]. intros v Hin. by apply not_elem_of_nil in Hin.
  - rewrite (proj2 (Z.leb_gt _ _)) by done. specialize (IH _ Hr). destruct (find_intersection start end_ r) as [v|].
    + destruct IH as (l1 & l2 & -> & Ho & Hl1). exists (u :: l1), l2. split_and!; [done|done|].
      intros x [->|Hx]%elem_of_cons; [done|by apply Hl1].
    + intros v [->|Hv]%elem_of_cons; [unfold overlaps; lia|by apply IH].
  - rewrite (proj2 (Z.leb_le _ _)) by done. intros v [->|Hv]%elem_of_cons; [unfold overlaps; lia|].
    destruct (areas_elem _ _ _ Hr Hv). unfold overlaps. lia.
  - rewrite (proj2 (Z.leb_le _ _)) by done. intros v [->|Hv]%elem_of_cons; [unfold overlaps; lia|].
    destruct (areas_elem _ _ _ Hr Hv). unfold overlaps. lia.
Qed.

(** An address range that meets no area. *)
Definition vacant (l : list vm_area) (start end_ : Z) : Prop := forall a, start <= a < end_ -> view l a = None.

Lemma vacant_overlaps lo l start end_ :
  areas_ok lo l -> start < end_ -> vacant l start end_ <-> forall v, v ∈ l -> ~ overlaps start end_ v.
Proof.
  intros Hl Hse. split.
  - intros Hv v Hin [H1 H2]. destruct (areas_elem _ _ _ Hl Hin) as [Hok _]. pose proof (vo_range _ Hok).
    assert (Hc : covers v (Z.max start (vm_start v)) = true) by (apply covers_true; lia).
    pose proof (view_covered _ _ _ _ Hl Hin Hc) as E. rewrite Hv in E by lia. done.
  - intros Hno a Ha. destruct (view l a) as [x|] eqn:E; [|done]. apply view_elem in E as (v & Hin & Hc & _).
    apply covers_true in Hc. exfalso. apply (Hno v Hin). unfold overlaps. lia.
Qed.

Lemma vacant_dec lo l start end_ :
  areas_ok lo l -> start < end_ ->
  match find_intersection start end_ l with Some _ => ~ vacant l start end_ | None => vacant l start end_ end.
Proof.
  intros Hl Hse. pose proof (find_intersection_spec lo l start end_ Hl) as H. pose proof (vacant_overlaps lo l start end_ Hl Hse) as Hv.
  destruct (find_intersection start end_ l) as [v|]; rewrite Hv; [|done]. destruct H as (l1 & l2 & -> & Ho & _).
  intros Hno. apply (Hno v); [|done]. apply elem_of_app. right. left.
Qed.

(** ** Insertion *)

Lemma link_vma_spec vma : vma_ok vma -> forall l lo prev,
  areas_ok lo l -> lo = match prev with Some p => vm_end p | None => 0 end ->
  match prev with Some p => vm_start p < vm_start vma | None => True end ->
  match link_vma prev l vma with
  | Some l' => areas_ok lo l' /\ length l' = S (length l) /\ vacant l (vm_start vma) (vm_end vma) /\
      (exists l1 l2, l = l1 ++ l2 /\ l' = l1 ++ vma :: l2) /\
      forall a, view l' a = if covers vma a then Some (attr vma a) else view l a
  | None => lo > vm_start vma \/ ~ vacant l (vm_start vma) (vm_end vma)
  end.
Proof.
  intros Hv. pose proof (vo_range _ Hv) as Hr0. induction l as [|c rest IH]; intros lo prev Hl -> Hp; cbn [link_vma].
  - destruct prev as [p|]; [rewrite Z.gtb_ltb; destruct (Z.ltb_spec (vm_start vma) (vm_end p)); [left; lia|]|].
    all: split_and!; [cbn; split_and!; [lia|done|done]|done|done|by exists [], []|done].
  - pose proof Hl as (Hlo & Hc & Hrest). pose proof (vo_range _ Hc) as Hrc. destruct (Z.ltb_spec (vm_start c) (vm_start vma)).
    + specialize (IH (vm_end c) (Some c) Hrest eq_refl). cbn in IH. specialize (IH ltac:(lia)).
      destruct (link_vma (Some c) rest vma) as [l'|]; cbn.
      * destruct IH as (Hl' & Hlen & Hvac & (l1 & l2 & -> & ->) & Hview). split_and!; [done..|lia| | |].
        -- intros a Ha. cbn. assert (Hca : vm_end c <= vm_start vma).
           { pose proof (areas_elem _ _ vma Hl') as [_ ?]; [apply elem_of_app; right; left|done]. }
           rewrite (proj2 (covers_false c a)) by lia. by apply Hvac.
        -- by exists (c :: l1), l2.
        -- intros a. rewrite Hview. destruct (covers c a) eqn:E, (covers vma a) eqn:E'; try done.
           apply covers_true in E, E'. pose proof (areas_elem _ _ vma Hl') as [_ ?]; [apply elem_of_app; right; left|lia].
      * right. destruct IH as [Hgt|Hnv].
        -- intros Hvac. assert (E : covers c (vm_start vma) = true) by (apply covers_true; lia).
           specialize (Hvac (vm_start vma) ltac:(lia)). cbn in Hvac. by rewrite E in Hvac.
        -- intros Hvac. apply Hnv. intros a Ha. specialize (Hvac a Ha). cbn in Hvac. by destruct (covers c a).
    + destruct (Z.ltb_spec (vm_start c) (vm_end vma)).
      { right. intros Hvac. specialize (Hvac (vm_start c) ltac:(lia)). cbn in Hvac.
        by rewrite (proj2 (covers_true c (vm_start c))) in Hvac by lia. }
      assert (Hvac : vacant (c :: rest) (vm_start vma) (vm_end vma)).
      { intros a Ha. apply (view_below (vm_start c)); [|lia]. cbn. split_and!; [lia|done|done]. }
      destruct prev as [p|]; [rewrite Z.gtb_ltb; destruct (Z.ltb_spec (vm_start vma) (vm_end p)); [left; lia|]|].
      all: split_and!; [cbn; split_and!; (lia || done)|done|done|by exists [], (c :: rest)|done].
Qed.

Lemma link_spec l vma :
  vma_ok vma -> areas_ok 0 l ->
  match link_vma None l vma with
  | Some l' => areas_ok 0 l' /\ length l' = S (length l) /\ vacant l (vm_start vma) (vm_end vma) /\
      (exists l1 l2, l = l1 ++ l2 /\ l' = l1 ++ vma :: l2) /\
      forall a, view l' a = if covers vma a then Some (attr vma a) else view l a
  | None => ~ vacant l (vm_start vma) (vm_end vma)
  end.
Proof.
  intros Hv Hl. pose proof (link_vma_spec vma Hv l 0 None Hl eq_refl I) as H.
  destruct (link_vma None l vma); [done|]. destruct H as [H|H]; [|done]. pose proof (vo_range _ Hv). lia.
Qed.

(** ** Removing a range *)

(** What is left of an area outside [start, end_). *)
Definition left_part (start : Z) (v : vm_area) : list vm_area :=
  if vm_start v <? start then [with_end (Z.min (vm_end v) start) v] else [].
Definition right_part (end_ : Z) (v : vm_area) : list vm_area :=
  if end_ <? vm_end v then [if vm_start v <? end_ then trim_start end_ v else v] else [].
Definition cut (start end_ : Z) (v : vm_area) : list vm_area := left_part start v ++ right_part end_ v.

(** An area that the range cuts in two. *)
Definition splits (start end_ : Z) (v : vm_area) : bool := (vm_start v <? start) && (vm_end v >? end_).

Definition cut_all (ok : bool) (start end_ : Z) (l : list vm_area) : list vm_area :=
  l ≫= fun v => if splits start end_ v && negb ok then [v] else cut start end_ v.

Lemma attr_trim e v a : attr (trim_start e v) a = attr v a.
Proof. unfold attr, trim_start. cbn. f_equal. unfold u64. rewrite Zplus_mod_idemp_l. f_equal. lia. Qed.

Lemma attr_with_end e v a : attr (with_end e v) a = attr v a.
Proof. done. Qed.

Lemma view_cut start end_ v a :
  vma_ok v -> start < end_ ->
  view (cut start end_ v) a = if (start <=? a) && (a <? end_) then None else view [v] a.
Proof.
  intros Hv Hse. pose proof (vo_range _ Hv). unfold cut, left_part, right_part. rewrite view_app. cbn [view].
  destruct (Z.ltb_spec (vm_start v) start), (Z.ltb_spec end_ (vm_end v)), (Z.ltb_spec (vm_start v) end_);
    cbn [view]; rewrite ?attr_trim, ?attr_with_end; unfold covers; cbn [with_end trim_start vm_start vm_end];
    repeat match goal with |- context [?x <=? ?y] => destruct (Z.leb_spec x y)
           | |- context [?x <? ?y] => destruct (Z.ltb_spec x y) end; cbn [andb]; try done; lia.
Qed.

Lemma with_end_id v : with_end (vm_end v) v = v.
Proof. by destruct v. Qed.

Lemma cut_apart start end_ v : vma_ok v -> start < end_ -> ~ overlaps start end_ v -> cut start end_ v = [v].
Proof.
  intros Hv Hse Hno. pose proof (vo_range _ Hv). unfold cut, left_part, right_part, overlaps in *.
  destruct (Z.ltb_spec (vm_start v) start), (Z.ltb_spec end_ (vm_end v)); try lia; cbn.
  - rewrite Z.min_l, with_end_id by lia. done.
  - by rewrite (proj2 (Z.ltb_ge _ _)) by lia.
Qed.

Lemma splits_overlaps start end_ v : start < end_ -> splits start end_ v = true -> overlaps start end_ v.
Proof. unfold splits, overlaps. intros Hse [H1%Z.ltb_lt H2]%andb_true_iff. rewrite Z.gtb_lt in H2. lia. Qed.

Lemma cut_all_apart ok start end_ l :
  start < end_ -> (forall v, v ∈ l -> vma_ok v /\ ~ overlaps start end_ v) -> cut_all ok start end_ l = l.
Proof.
  intros Hse. induction l as [|v r IH]; intros Hl; [done|]. cbn. destruct (Hl v) as [Hv Hno]; [left|].
  destruct (splits start end_ v) eqn:E; [by apply splits_overlaps in E|]. cbn.
  rewrite cut_apart by done. cbn. f_equal. apply IH. intros u Hu. apply Hl. by right.
Qed.

Lemma cut_all_cons ok start end_ v l :
  cut_all ok start end_ (v :: l) = (if splits start end_ v && negb ok then [v] else cut start end_ v) ++ cut_all ok start end_ l.
Proof. done. Qed.

(** The parts of an area stay inside it. *)
Lemma cut_ok start end_ v lo rest :
  vma_ok v -> start < end_ -> aligned start -> aligned end_ -> lo <= vm_start v -> areas_ok (vm_end v) rest ->
  areas_ok lo (cut start end_ v ++ rest).
Proof.
  intros [Hr He [Ha1 Ha2]] Hse Hs Hen Hlo Hrest. unfold cut, left_part, right_part.
  destruct (Z.ltb_spec (vm_start v) start), (Z.ltb_spec end_ (vm_end v)), (Z.ltb_spec (vm_start v) end_); try lia;
    cbn [app areas_ok with_end trim_start vm_start vm_end];
    repeat split; cbn [with_end trim_start vm_start vm_end]; try done; try lia;
    try (eapply areas_weaken; [|done]; lia); by destruct (Z.min_spec (vm_end v) start) as [[_ ->]|[_ ->]].
Qed.

Lemma cut_all_ok ok start end_ l : start < end_ -> aligned start -> aligned end_ ->
  forall lo, areas_ok lo l -> areas_ok lo (cut_all ok start end_ l).
Proof.
  intros Hse Hs He. induction l as [|v r IH]; intros lo Hl; [done|]. destruct Hl as (Hlo & Hv & Hr).
  rewrite cut_all_cons. destruct (splits start end_ v && negb ok); [cbn; auto|]. apply cut_ok; auto.
Qed.

Lemma view_cut_all start end_ l a :
  start < end_ -> forall lo, areas_ok lo l ->
  view (cut_all true start end_ l) a = if (start <=? a) && (a <? end_) then None else view l a.
Proof.
  intros Hse. induction l as [|v r IH]; intros lo Hl; [by destruct (_ && _)|]. destruct Hl as (Hlo & Hv & Hr).
  rewrite cut_all_cons, andb_false_r, view_app, view_cut, (IH _ Hr) by done.
  destruct ((start <=? a) && (a <? end_)); [done|]. cbn. by destruct (covers v a).
Qed.

(** At most one area is cut in two, and the others then lie outside. *)
Lemma cut_all_refused start end_ l v : start < end_ -> forall lo, areas_ok lo l ->
  v ∈ l -> splits start end_ v = true -> cut_all false start end_ l = l.
Proof.
  intros Hse. induction l as [|u r IH]; intros lo Hl Hin Hsp; [done|]. destruct Hl as (Hlo & Hu & Hr).
  rewrite cut_all_cons. apply elem_of_cons in Hin as [->|Hin].
  - rewrite Hsp. cbn. f_equal. apply cut_all_apart; [done|]. intros w Hw. destruct (areas_elem _ _ _ Hr Hw).
    split; [done|]. apply andb_true_iff in Hsp as [_ Hsp]. rewrite Z.gtb_lt in Hsp. unfold overlaps. lia.
  - destruct (areas_elem _ _ _ Hr Hin). apply andb_true_iff in Hsp as [H1%Z.ltb_lt H2].
    assert (Hno : ~ overlaps start end_ u) by (unfold overlaps; lia).
    destruct (splits start end_ u) eqn:E; [by apply splits_overlaps in E|]. cbn.
    rewrite cut_apart by done. cbn. f_equal. apply (IH _ Hr); [done|]. apply andb_true_iff. by rewrite Z.ltb_lt.
Qed.

Lemma cut_all_no_split ok start end_ l :
  (forall v, v ∈ l -> splits start end_ v = false) -> cut_all ok start end_ l = cut_all true start end_ l.
Proof.
  induction l as [|v r IH]; intros Hl; [done|]. rewrite !cut_all_cons, (Hl v) by left. cbn. f_equal.
  apply IH. intros u Hu. apply Hl. by right.
Qed.

Lemma link_at vma pre : forall prev suf,
  vm_start vma < vm_end vma ->
  (forall u, u ∈ pre -> vm_start u < vm_start vma /\ vm_end u <= vm_start vma) ->
  (forall u, u ∈ suf -> vm_end vma <= vm_start u) ->
  match prev with Some p => vm_end p <= vm_start vma | None => True end ->
  link_vma prev (pre ++ suf) vma = Some (pre ++ vma :: suf).
Proof.
  induction pre as [|u pre IH]; intros prev suf Hv Hpre Hsuf Hprev; cbn [app].
  - assert (Hp : match prev with Some p => vm_end p >? vm_start vma | None => false end = false).
    { destruct prev; [|done]. rewrite Z.gtb_ltb. by apply Z.ltb_ge. }
    destruct suf as [|c rest]; cbn [link_vma]; [by rewrite Hp|].
    assert (vm_end vma <= vm_start c) by (apply Hsuf; left).
    by rewrite !(proj2 (Z.ltb_ge _ _)), Hp by lia.
  - cbn [link_vma]. destruct (Hpre u) as [H1 H2]; [left|]. rewrite (proj2 (Z.ltb_lt _ _)) by done.
    rewrite IH; [done|done| |done|done]. intros w Hw. apply Hpre. by right.
Qed.

(** ** The loop of [vmm_munmap] *)

Section munmap.
Context {St : Type} `{PageAllocator St}.
Implicit Types (s : machine St).

(** The pages given up by the areas of [l]. *)
Definition drop_all (root start end_ : Z) (l : list vm_area) s : machine St :=
  fold_left (fun s v =>
    if (vm_start v <? end_) && (start <? vm_end v)
    then drop_pages root (Z.max (vm_start v) start) (Z.min (vm_end v) end_) s else s) l s.

Definition next_alloc s : bool := default false (head (allocs s)).

Lemma kmalloc_next_eq s : kmalloc_next s = (next_alloc s, Machine (mm s) (ram s) (tail (allocs s))).
Proof. destruct s as [m r [|b a]]; done. Qed.

Lemma allocs_drop_pages root lo hi s : allocs (drop_pages root lo hi s) = allocs s.
Proof.
  unfold drop_pages. apply (for_range_pres (fun s' => allocs s' = allocs s)); [done|].
  intros i s' _ <-. unfold drop_page. by destruct (_ =? 0).
Qed.

(** Everything but the areas and the counters. *)
Record same_bounds (asp asp' : address_space) : Prop := {
  sb_pt : pt asp' = pt asp;
  sb_bounds : with_bounds asp asp' = asp'
}.

(** The areas are [l] and their count is right. *)
Record areas (asp : address_space) (l : list vm_area) : Prop := {
  ar_list : vma_list asp = l;
  ar_count : vma_count asp = u64 (Z.of_nat (length l))
}.

#[global] Instance same_bounds_preorder : PreOrder same_bounds.
Proof.
  split.
  - intros []. done.
  - intros x y z [E1 E2] [E3 E4]. split; [congruence|]. rewrite <- E4, <- E2. done.
Qed.

Lemma same_with_vmas l asp : same_bounds asp (with_vmas l asp).
Proof. by destruct asp. Qed.
Lemma same_account n z asp : same_bounds asp (account n z asp).
Proof. by destruct asp. Qed.

Lemma munmap_past start end_ before rest asp s :
  (forall v, v ∈ rest -> end_ <= vm_start v) -> munmap_loop start end_ before rest asp s = (asp, s).
Proof.
  intros Hr. destruct rest as [|v rest]; [done|]. cbn. rewrite Z.geb_leb, (proj2 (Z.leb_le _ _)); [done|]. apply Hr. left.
Qed.

Lemma past_apart start end_ lo rest :
  areas_ok lo rest -> end_ <= lo -> forall v, v ∈ rest -> vma_ok v /\ ~ overlaps start end_ v.
Proof. intros Hr Hlo v Hv. destruct (areas_elem _ _ _ Hr Hv). split; [done|]. unfold overlaps. lia. Qed.

Lemma drop_all_cons root start end_ v l s :
  drop_all root start end_ (v :: l) s = drop_all root start end_ l
    (if (vm_start v <? end_) && (start <? vm_end v)
     then drop_pages root (Z.max (vm_start v) start) (Z.min (vm_end v) end_) s else s).
Proof. done. Qed.

Lemma drop_all_apart root start end_ l s :
  (forall v, v ∈ l -> ~ overlaps start end_ v) -> drop_all root start end_ l s = s.
Proof.
  revert s. induction l as [|v r IH]; intros s Hl; [done|]. cbn. rewrite (proj2 (andb_false_iff _ _)).
  - apply IH. intros u Hu. apply Hl. by right.
  - assert (Hv : ~ overlaps start end_ v) by (apply Hl; left). unfold overlaps in Hv. rewrite !Z.ltb_ge. lia.
Qed.

Lemma splits_apart start end_ l :
  start < end_ -> (forall v, v ∈ l -> ~ overlaps start end_ v) -> existsb (splits start end_) l = false.
Proof.
  intros Hse Hl. apply not_true_is_false. intros (v & Hv & Hs)%existsb_exists.
  apply (Hl v); [by apply list_elem_of_In|by apply splits_overlaps].
Qed.

Lemma areas_app_inv lo l1 v l2 : areas_ok lo (l1 ++ v :: l2) ->
  vma_ok v /\ areas_ok (vm_end v) l2 /\ forall u, u ∈ l1 -> vma_ok u /\ vm_end u <= vm_start v.
Proof.
  revert lo. induction l1 as [|u l1 IH]; intros lo; cbn.
  - intros (? & ? & ?). split_and!; [done|done|]. intros w Hw. by apply not_elem_of_nil in Hw.
  - intros (? & Hu & Hr). destruct (IH _ Hr) as (Hv & Hl2 & Hl1). split_and!; [done|done|].
    intros w [->|Hw]%elem_of_cons; [|by apply Hl1]. split; [done|]. apply (areas_elem _ _ v Hr). apply elem_of_app. right. left.
Qed.

Lemma areas_replace l1 l2 v v' lo : areas_ok lo (l1 ++ v :: l2) -> areas_ok (vm_start v) (v' :: l2) -> areas_ok lo (l1 ++ v' :: l2).
Proof.
  revert lo. induction l1 as [|u l1 IH]; intros lo; cbn.
  - intros (? & ? & ?) (? & ? & ?). split_and!; [lia|done|done].
  - intros (? & ? & ?) ?. split_and!; [done|done|]. by apply IH.
Qed.

Lemma areas_remove l1 l2 v lo : areas_ok lo (l1 ++ v :: l2) -> areas_ok lo (l1 ++ l2).
Proof.
  revert lo. induction l1 as [|u l1 IH]; intros lo; cbn.
  - intros (? & Hv & ?). apply (areas_weaken (vm_end v)); [|done]. pose proof (vo_range _ Hv). lia.
  - intros (? & ? & ?). split_and!; [done|done|]. by apply IH.
Qed.

Lemma u64_add_l x y : u64 (u64 x + y) = u64 (x + y).
Proof. unfold u64. by rewrite Zplus_mod_idemp_l. Qed.

Lemma remove_areas before v next asp :
  areas asp (before ++ v :: next) ->
  areas (vmm_remove_vma (length before) asp) (before ++ next) /\ same_bounds asp (vmm_remove_vma (length before) asp).
Proof.
  intros [Hl Hc]. unfold vmm_remove_vma. rewrite Hl, list_lookup_middle by done. split.
  - split; cbn.
    + by rewrite delete_middle.
    + rewrite Hc, u64_add_l, !length_app. cbn [length]. f_equal. lia.
  - etrans; [apply same_with_vmas|apply same_account].
Qed.

Lemma insert_areas pre new suf asp :
  vma_list asp = pre ++ suf -> vma_count asp = u64 (Z.of_nat (length (pre ++ suf))) ->
  link_vma None (pre ++ suf) new = Some (pre ++ new :: suf) ->
  areas (vmm_insert_vma asp new).2 (pre ++ new :: suf) /\ same_bounds asp (vmm_insert_vma asp new).2.
Proof.
  intros Hl Hc Hlink. unfold vmm_insert_vma. rewrite Hl, Hlink. split.
  - split; cbn; [done|]. rewrite Hc, u64_add_l, !length_app. cbn [length]. f_equal. lia.
  - etrans; [apply same_with_vmas|apply same_account].
Qed.

Lemma replace_areas before v v' next asp :
  areas asp (before ++ v :: next) -> areas (with_vmas (before ++ v' :: next) asp) (before ++ v' :: next).
Proof. intros [_ Hc]. split; [done|]. cbn. by rewrite Hc, !length_app. Qed.

Lemma cut_inside start end_ v : start <= vm_start v -> vm_end v <= end_ -> cut start end_ v = [].
Proof. intros. unfold cut, left_part, right_part. by rewrite !(proj2 (Z.ltb_ge _ _)) by lia. Qed.

Lemma cut_split start end_ v :
  start < end_ -> splits start end_ v = true -> cut start end_ v = [with_end start v; trim_start end_ v].
Proof.
  unfold splits. intros Hse [H1%Z.ltb_lt H2]%andb_true_iff. rewrite Z.gtb_lt in H2. unfold cut, left_part, right_part.
  rewrite !(proj2 (Z.ltb_lt _ _)) by lia. by rewrite Z.min_r by lia.
Qed.

Lemma cut_trim start end_ v :
  vma_ok v -> start < end_ -> overlaps start end_ v -> splits start end_ v = false ->
  (start <=? vm_start v) && (vm_end v <=? end_) = false ->
  cut start end_ v = [if vm_start v <? start then with_end start v else trim_start end_ v].
Proof.
  intros Hv Hse [H1 H2] Hsp Hin. pose proof (vo_range _ Hv). unfold splits in Hsp. rewrite Z.gtb_ltb in Hsp.
  unfold cut, left_part, right_part. rewrite (proj2 (Z.ltb_lt (vm_start v) end_)) by lia.
  destruct (Z.ltb_spec (vm_start v) start), (Z.ltb_spec end_ (vm_end v)), (Z.leb_spec start (vm_start v)), (Z.leb_spec (vm_end v) end_);
    try done; try lia. cbn. by rewrite Z.min_r by lia.
Qed.

(** The area behind the hole, linked in after what is left of the one before. *)
Lemma split_areas start end_ before v next asp new_vma :
  start < end_ -> areas asp (before ++ v :: next) -> areas_ok 0 (before ++ v :: next) -> splits start end_ v = true ->
  new_vma = trim_start end_ v ->
  let asp' := (vmm_insert_vma (with_vmas (before ++ with_end start v :: next) asp) new_vma).2 in
  areas asp' (before ++ with_end start v :: new_vma :: next) /\ same_bounds asp asp'.
Proof.
  intros Hse Har Hok Hsp ->. destruct (areas_app_inv _ _ _ _ Hok) as (Hv & Hnext & Hbef). pose proof (vo_range _ Hv).
  pose proof Hsp as Hsp'. unfold splits in Hsp'. apply andb_true_iff in Hsp' as [H1%Z.ltb_lt H2]. rewrite Z.gtb_lt in H2.
  pose proof (replace_areas _ _ (with_end start v) _ _ Har) as [Hl Hc].
  destruct (insert_areas (before ++ [with_end start v]) (trim_start end_ v) next (with_vmas (before ++ with_end start v :: next) asp))
    as [Ha Hb]; rewrite <- ?app_assoc; try done.
  - change (before ++ [with_end start v] ++ next) with (before ++ ([with_end start v] ++ next)).
    change (before ++ [with_end start v] ++ trim_start end_ v :: next) with (before ++ ([with_end start v] ++ trim_start end_ v :: next)).
    rewrite !(app_assoc before). apply link_at; cbn [trim_start vm_start vm_end]; [lia| | |done].
    + intros u [Hu|Hu%list_elem_of_singleton]%elem_of_app; [|subst u; cbn; lia].
      destruct (Hbef u Hu) as [Hu' ?]. pose proof (vo_range _ Hu'). lia.
    + intros u Hu. by destruct (areas_elem _ _ _ Hnext Hu).
  - rewrite <- app_assoc in Ha. split; [done|]. etrans; [apply same_with_vmas|done].
Qed.

Lemma munmap_loop_spec start end_ : start < end_ -> aligned start -> aligned end_ ->
  forall rest before asp s, areas asp (before ++ rest) -> areas_ok 0 (before ++ rest) ->
  let '(asp', s') := munmap_loop start end_ before rest asp s in
  let s1 := drop_all (pt asp) start end_ rest s in
  areas asp' (before ++ cut_all (next_alloc s) start end_ rest) /\ same_bounds asp asp' /\
  s' = if existsb (splits start end_) rest then Machine (mm s1) (ram s1) (tail (allocs s)) else s1.
Proof.
  intros Hse Hs He. induction rest as [|v next IH]; intros before asp s Har Hok; [done|].
  destruct (areas_app_inv _ _ _ _ Hok) as (Hv & Hnext & Hbef). pose proof (vo_range _ Hv) as Hr.
  cbn [munmap_loop]. rewrite Z.geb_leb, Z.gtb_ltb. destruct (Z.leb_spec end_ (vm_start v)).
  { assert (Hap : forall u, u ∈ v :: next -> vma_ok u /\ ~ overlaps start end_ u)
      by (apply (past_apart start end_ end_); [cbn; auto|lia]).
    rewrite cut_all_apart, drop_all_apart, splits_apart; try done; intros u Hu; by apply Hap. }
  rewrite cut_all_cons, drop_all_cons. cbn [existsb].
  rewrite (proj2 (Z.ltb_lt (vm_start v) end_)) by lia. cbn [andb].
  destruct (Z.ltb_spec start (vm_end v)) as [Hov|Hno].
  2:{ assert (Hap : ~ overlaps start end_ v) by (unfold overlaps; lia).
      destruct (splits start end_ v) eqn:Esp; [by apply splits_overlaps in Esp|]. cbn.
      rewrite cut_apart by done. cbn. specialize (IH (before ++ [v]) asp s). rewrite <- !app_assoc in IH. by apply IH. }
  set (s1 := drop_pages _ _ _ s). assert (Hal : allocs s1 = allocs s) by apply allocs_drop_pages.
  assert (Hna : next_alloc s1 = next_alloc s) by (unfold next_alloc; by rewrite Hal).
  assert (Hnov : overlaps start end_ v) by done.
  replace ((vm_start v <? start) && (vm_end v >? end_)) with (splits start end_ v) by done.
  rewrite (Z.geb_leb (vm_start v) start). destruct ((start <=? vm_start v) && (vm_end v <=? end_)) eqn:Ein.
  - apply andb_true_iff in Ein as [H1%Z.leb_le H2%Z.leb_le].
    assert (Esp : splits start end_ v = false) by (apply andb_false_iff; left; apply Z.ltb_ge; lia).
    rewrite Esp, cut_inside by done. cbn [andb orb app]. destruct (remove_areas _ _ _ _ Har) as [Har' Hsb].
    specialize (IH before (vmm_remove_vma (length before) asp) s1 Har' (areas_remove _ _ _ _ Hok)).
    rewrite (sb_pt _ _ Hsb), Hna, Hal in IH. destruct (munmap_loop _ _ _ _ _ _) as [asp' s'].
    destruct IH as (IH1 & IH2 & IH3). cbv zeta. split_and!; [done|by etrans|done].
  - destruct (splits start end_ v) eqn:Esp; cbn [andb orb].
    + assert (Hpast : forall u, u ∈ next -> end_ <= vm_start u).
      { intros u Hu. destruct (areas_elem _ _ _ Hnext Hu). apply andb_true_iff in Esp as [_ E]. rewrite Z.gtb_lt in E. lia. }
      assert (Hap : forall u, u ∈ next -> vma_ok u /\ ~ overlaps start end_ u).
      { intros u Hu. destruct (areas_elem _ _ _ Hnext Hu). pose proof (Hpast u Hu). split; [done|]. unfold overlaps. lia. }
      rewrite cut_all_apart, drop_all_apart by (done || intros u Hu; by apply Hap).
      unfold vmm_create_vma. rewrite kmalloc_next_eq, Hna, Hal. destruct (next_alloc s); cbn [negb];
        rewrite munmap_past by done; [|cbv zeta; split_and!; done].
      rewrite cut_split by done. cbn [app].
      cbv zeta. split_and!; [by apply (split_areas start end_ before v next asp)|by apply (split_areas start end_ before v next asp)|done].
    + rewrite cut_trim by done. set (v' := if vm_start v <? start then _ else _).
      specialize (IH (before ++ [v']) (with_vmas (before ++ v' :: next) asp) s1). rewrite <- !app_assoc in IH. cbn [app] in IH.
      specialize (IH (replace_areas _ _ _ _ _ Har)). rewrite Hna, Hal in IH.
      change (pt (with_vmas (before ++ v' :: next) asp)) with (pt asp) in IH.
      assert (Hok' : areas_ok 0 (before ++ v' :: next)).
      { apply (areas_replace _ _ v _ _ Hok). pose proof (cut_ok start end_ v (vm_start v) next Hv Hse Hs He ltac:(lia) Hnext) as Hc.
        by rewrite cut_trim in Hc by done. }
      specialize (IH Hok'). destruct (munmap_loop _ _ _ _ _ _) as [asp' s']. destruct IH as (IH1 & IH2 & IH3).
      cbv zeta. split_and!; [done|etrans; [apply same_with_vmas|done]|done].
Qed.
End munmap.

(** ** The search for a gap *)

Section gap.
Context (asp : address_space) (len : Z) (Hlen : 0 < len) (Hok : areas_ok 0 (vma_list asp)).
Let l := vma_list asp.

(** Areas that end behind [start]: the ones the search has not passed. *)
Definition ahead (start : Z) : nat := length (filter (fun v => start < vm_end v) l).

Lemma ahead_less start v : v ∈ l -> start < vm_end v -> (ahead (vm_end v) < ahead start)%nat.
Proof.
  intros Hin Hv. unfold ahead. revert Hin. induction l as [|u r IH]; intros Hin; [by apply not_elem_of_nil in Hin|].
  assert (Hle : forall r : list vm_area, (length (filter (fun u => (vm_end v < vm_end u)%Z) r) <= length (filter (fun u => (start < vm_end u)%Z) r))%nat).
  { clear -Hv. induction r as [|w r IH]; [done|]. rewrite !filter_cons. repeat case_decide; cbn; lia. }
  specialize (Hle r). rewrite !filter_cons. apply elem_of_cons in Hin as [->|Hin].
  - rewrite decide_False, decide_True by lia. cbn. lia.
  - specialize (IH Hin). repeat case_decide; cbn; lia.
Qed.

Definition lowest_gap (base : Z) (r : option Z) : Prop :=
  match r with
  | Some g => base <= g /\ g + len <= USER_SPACE_END /\ vacant l g (g + len) /\
      (g = base \/ aligned g) /\
      forall g', base <= g' < g -> ~ vacant l g' (g' + len)
  | None => forall g', base <= g' -> g' + len <= USER_SPACE_END -> ~ vacant l g' (g' + len)
  end.

Lemma find_gap_spec base : 0 <= base -> forall fuel start,
  base <= start -> (start = base \/ aligned start) ->
  (forall g', base <= g' < start -> ~ vacant l g' (g' + len)) -> (ahead start < fuel)%nat ->
  exists r, find_gap fuel len start asp = Some r /\ lowest_gap base r.
Proof.
  intros Hb. induction fuel as [|fuel IH]; intros start Hs Hal Hno Hf; [lia|]. cbn [find_gap].
  unfold zig_range_end_le_cap_ok. rewrite Z.geb_leb, Z.gtb_ltb. unfold USER_SPACE_END at 1.
  destruct (Z.leb_spec (2 ^ 64) (start + len)) as [Hbig|Hsmall].
  { exists None. split; [done|]. intros g' Hg' He. unfold USER_SPACE_END in He. apply Hno. lia. }
  rewrite u64_small by lia. destruct (Z.ltb_spec 0x0000800000000000 (start + len)) as [Hover|Hin].
  { exists None. split; [done|]. intros g' Hg' He. unfold USER_SPACE_END in He. apply Hno. lia. }
  unfold vmm_find_vma_intersection. fold l. pose proof (find_intersection_spec 0 l start (start + len) Hok) as Hint.
  pose proof (vacant_dec 0 l start (start + len) Hok ltac:(lia)) as Hvac.
  destruct (find_intersection start (start + len) l) as [v|].
  - destruct Hint as (l1 & l2 & El & [H1 H2] & _). assert (Hv : v ∈ l) by (rewrite El; apply elem_of_app; right; left).
    destruct (areas_elem _ _ _ Hok Hv) as [[Hr He [_ Ha]] _]. unfold USER_SPACE_END in He.
    replace (ALIGN_UP (vm_end v) PAGE_SIZE) with (vm_end v).
    2:{ symmetry. apply ALIGN_UP_aligned; [|done]. unfold PAGE_SIZE. lia. }
    apply IH; [lia|by right| |pose proof (ahead_less start v Hv H2); lia].
    intros g' Hg' Hva. destruct (Z.lt_ge_cases g' start); [by apply (Hno g'); [lia|]|].
    rewrite (vacant_overlaps 0) in Hva by (done || lia). apply (Hva v Hv). unfold overlaps. lia.
  - exists (Some start). split; [done|]. unfold lowest_gap, USER_SPACE_END. split_and!; try done; lia.
Qed.

Lemma find_gap_enough base : 0 <= base ->
  exists r, find_gap (S (length (vma_list asp))) len base asp = Some r /\ lowest_gap base r.
Proof.
  intros Hb. apply find_gap_spec; [done|lia|by left|lia|]. unfold ahead. fold l. pose proof (length_filter (fun v => base < vm_end v) l). lia.
Qed.
End gap.

(** The search ends, whatever the length. *)
Lemma find_gap_total asp len : areas_ok 0 (vma_list asp) -> forall fuel start,
  (ahead asp start < fuel)%nat -> exists r, find_gap fuel len start asp = Some r.
Proof.
  intros Hok. induction fuel as [|fuel IH]; intros start Hf; [lia|]. cbn [find_gap].
  unfold zig_range_end_le_cap_ok. destruct (start + len >=? 2 ^ 64); [by exists None|].
  destruct (u64 (start + len) >? USER_SPACE_END); [by exists None|]. unfold vmm_find_vma_intersection.
  pose proof (find_intersection_spec 0 _ start (u64 (start + len)) Hok) as Hint.
  destruct (find_intersection start (u64 (start + len)) (vma_list asp)) as [v|]; [|by exists (Some start)].
  destruct Hint as (l1 & l2 & El & [_ H2] & _). assert (Hv : v ∈ vma_list asp) by (rewrite El; apply elem_of_app; right; left).
  destruct (areas_elem _ _ _ Hok Hv) as [[Hr He [_ Ha]] _]. unfold USER_SPACE_END in He.
  rewrite ALIGN_UP_aligned by (done || unfold PAGE_SIZE; lia). apply IH.
  pose proof (ahead_less asp start v Hv H2). lia.
Qed.
