(* ===== verification/VmmSpace.v ===== *)
(** * The pages of an address space

    Ownership of page frames: no user page is mapped to a free frame, to a page
    table or to a frame that belongs to someone else, and no two user pages
    share a frame.  Allocating and mapping, unmapping and freeing, and changing
    flags are proved to keep this, with their exact effect on the page table and
    on the free frames. *)

From S2P Require Import Prelude PageAllocator SafeArith CString Errno Paging PagingProps Vmm.

Definition present (e : Z) : bool := flagb e PTE_PRESENT.
Definition frame_no (e : Z) : Z := pte_get_frame e / PAGE_SIZE.

(** The map [f] with the present entries that satisfy [P] cleared, and with one
    entry replaced. *)
Definition cleared (P : Z -> bool) (f : Z -> Z) (w : Z) : Z := if P w && present (f w) then 0 else f w.
Definition upd (w v : Z) (f : Z -> Z) (u : Z) : Z := if decide (u = w) then v else f u.

Lemma lor_offset_div e virt : Z.lor (pte_get_frame e) (Z.land virt PAGE_OFFSET_MASK) / PAGE_SIZE = frame_no e.
Proof.
  unfold frame_no. change PAGE_SIZE with (2 ^ 12). rewrite <- !Z.shiftr_div_pow2, Z.shiftr_lor by lia.
  replace (Z.shiftr (Z.land virt PAGE_OFFSET_MASK) 12) with 0; [apply Z.lor_0_r|].
  change PAGE_OFFSET_MASK with (Z.ones 12). rewrite Z.land_ones, Z.shiftr_div_pow2 by lia.
  symmetry. apply Z.div_small. apply Z.mod_pos_bound. lia.
Qed.

Lemma frame_no_mapped a flags :
  0 <= a < 2 ^ 40 -> Z.land flags PAGE_FRAME_MASK = 0 -> frame_no (pte_make (a * PAGE_SIZE) (Z.lor flags PTE_PRESENT)) = a.
Proof.
  intros Ha Hf. unfold frame_no. rewrite pte_make_frame_mask; [by apply Z.div_mul| |by rewrite Z.land_lor_distr_l, Hf].
  split; [by rewrite Z.div_mul|]. unfold PAGE_SIZE. lia.
Qed.

Lemma frame_no_flags e flags :
  Z.land flags PAGE_FRAME_MASK = 0 -> frame_no (pte_make (pte_get_frame e) (Z.lor flags PTE_PRESENT)) = frame_no e.
Proof.
  intros Hf. unfold frame_no, pte_make, pte_get_frame. rewrite !Z.land_lor_distr_l, Hf. cbn. rewrite Z.lor_0_r.
  by rewrite <- !Z.land_assoc, Z.land_diag.
Qed.

Section space.
Context {St : Type} `{PageAllocator St}.
Implicit Types (m : mmu St) (s : machine St) (others : gset Z) (f : Z -> Z).

(** [f] is the page table of [root]; [others] are frames in use elsewhere. *)
Record space (root : Z) others f m : Prop := {
  se_tree : exists shape, pt_ok root shape m /\
    (forall u lp, shape !! u = Some lp -> u / PAGE_SIZE ∉ others) /\
    (forall u lp w, shape !! u = Some lp -> user_page w -> present (f w) = true -> frame_no (f w) <> u / PAGE_SIZE);
  se_entry : forall w, user_page w -> pt_entry m root w = f w;
  se_page : forall w, user_page w -> present (f w) = true ->
    0 < frame_no (f w) < 2 ^ 20 /\ (frame_no (f w) ∉ pa_frames (pmem m)) /\ pa_managed (pmem m) (frame_no (f w)) /\ (frame_no (f w) ∉ others);
  se_inj : forall w w', user_page w -> user_page w' -> present (f w) = true -> present (f w') = true ->
    frame_no (f w) = frame_no (f w') -> w = w';
  se_others : others ## pa_frames (pmem m)
}.

Lemma space_ext root others f g m :
  (forall w, user_page w -> f w = g w) -> space root others f m -> space root others g m.
Proof.
  intros Eu [(sh & Hok & Ht & Hd) He Hp Hi Ho].
  split; [|intros w Hw; rewrite <- Eu by done; by apply He| | |done].
  - exists sh. split_and!; [done|done|]. intros u lp w Hu Hw. rewrite <- Eu by done. by apply (Hd u lp).
  - intros w Hw. rewrite <- Eu by done. by apply Hp.
  - intros w w' Hw Hw'. rewrite <- !Eu by done. by apply Hi.
Qed.

Lemma space_read root others f m virt :
  space root others f m -> user_page (vpn virt) ->
  mmu_resolve root virt m =
    (if present (f (vpn virt)) then Z.lor (pte_get_frame (f (vpn virt))) (Z.land virt PAGE_OFFSET_MASK) else 0) /\
  mmu_get_flags root virt m = Z.land (f (vpn virt)) (u64 (Z.lnot PAGE_FRAME_MASK)).
Proof.
  intros [(sh & Hok & _) He _ _ _] Hu. rewrite <- (He (vpn virt)) by done. by apply mmu_read_spec with sh.
Qed.

(** A user page resolves to an address in its frame exactly when it is mapped. *)
Lemma space_resolve root others f m virt :
  space root others f m -> user_page (vpn virt) ->
  (mmu_resolve root virt m =? 0) = negb (present (f (vpn virt))) /\
  (present (f (vpn virt)) = true -> mmu_resolve root virt m / PAGE_SIZE = frame_no (f (vpn virt))).
Proof.
  intros Hs Hu. rewrite (proj1 (space_read _ _ _ _ virt Hs Hu)). destruct (present (f (vpn virt))) eqn:E; [|done].
  split; [|intros _; apply lor_offset_div]. apply Z.eqb_neq. intros E0.
  pose proof (lor_offset_div (f (vpn virt)) virt) as Hd. rewrite E0 in Hd.
  destruct (se_page _ _ _ _ Hs _ Hu E) as [Hpos _]. rewrite <- Hd in Hpos. by destruct Hpos.
Qed.

(** Rewriting one leaf entry.  The frame of the old entry may pass to [others']. *)
Lemma space_set root others others' f m m' w v shape :
  space root others f m -> pt_ok root shape m ->
  (forall u lp, shape !! u = Some lp -> u / PAGE_SIZE ∉ others) ->
  (forall u lp x, shape !! u = Some lp -> user_page x -> present (f x) = true -> frame_no (f x) <> u / PAGE_SIZE) ->
  leaf_set root shape m w v m' -> user_page w ->
  (forall p, p ∈ others' -> p ∈ others \/ present (f w) = true /\ p = frame_no (f w)) ->
  (present v = true -> 0 < frame_no v < 2 ^ 20 /\ (frame_no v ∉ pa_frames (pmem m)) /\ pa_managed (pmem m) (frame_no v) /\
     (frame_no v ∉ others') /\ (forall u lp, shape !! u = Some lp -> frame_no v <> u / PAGE_SIZE) /\
     forall x, user_page x -> x <> w -> present (f x) = true -> frame_no (f x) <> frame_no v) ->
  space root others' (upd w v f) m'.
Proof.
  intros [_ He Hp Hi Ho] Hok Ht Hd [(sh & Hsub & Hok' & Hnew) Hls Hfr Hman _ _] Hw Hoth Hv.
  assert (Hof : forall p, p ∈ others' -> p ∉ pa_frames (pmem m)).
  { intros p [Hin|[Hpr ->]]%Hoth; [set_solver|]. by destruct (Hp w Hw Hpr) as (_ & ? & _). }
  unfold upd. split.
  - exists sh. split; [done|]. split.
    + intros u lp Hu Hin. destruct (shape !! u) as [lp'|] eqn:E; [|by apply (Hof _ Hin), (Hnew u lp)].
      destruct (Hoth _ Hin) as [Hin'|[Hpr Heq]]; [by apply (Ht u lp' E)|by apply (Hd u lp' w E Hw Hpr)].
    + intros u lp x Hu Hx. destruct (shape !! u) as [lp'|] eqn:E.
      * case_decide; [|by apply (Hd u lp')]. intros Hpv. destruct (Hv Hpv) as (_ & _ & _ & _ & Hn & _). by apply (Hn u lp').
      * pose proof (Hnew u lp Hu E) as Hfree. intros Hpx Heq. rewrite <- Heq in Hfree. case_decide.
        -- by destruct (Hv Hpx) as (_ & ? & _).
        -- by destruct (Hp x Hx Hpx) as (_ & ? & _).
  - intros u Hu. rewrite Hls by done. case_decide; [done|]. by apply He.
  - intros x Hx Hpx. rewrite Hman. case_decide.
    + destruct (Hv Hpx) as (? & ? & ? & ? & _). split_and!; [lia|lia|set_solver|done|done].
    + destruct (Hp x Hx Hpx) as (? & ? & ? & ?). split_and!; [lia|lia|set_solver|done|].
      intros [?|[Hpr Heq]]%Hoth; [done|]. by apply Hi in Heq.
  - intros x y Hx Hy. case_decide; case_decide; subst; try done.
    + intros Hpx Hpy E. destruct (Hv Hpx) as (_ & _ & _ & _ & _ & Hn). by destruct (Hn y).
    + intros Hpx Hpy E. destruct (Hv Hpy) as (_ & _ & _ & _ & _ & Hn). by destruct (Hn x).
    + by apply Hi.
  - intros p Hin1 Hin2. apply (Hof p Hin1). by apply Hfr.
Qed.

(** ** The page allocator *)

Lemma pt_pmem root shape m st :
  pt_ok root shape m -> pa_inv st -> (forall u lp, shape !! u = Some lp -> u / PAGE_SIZE ∉ pa_frames st) ->
  pt_ok root shape (with_pmem st m).
Proof.
  intros Hok Hi Hu. apply (same_tables_ok root shape m (with_pmem st m) Hok Hi).
  intros u lp Hs. split; [by apply (Hu u lp)|done].
Qed.

(** A page taken from the allocator is held outside the address space. *)
Lemma space_alloc root others f m :
  space root others f m ->
  let '(phys, m1) := alloc_page m in
  phys = 0 /\ m1 = m \/
  exists a, phys = a * PAGE_SIZE /\ 0 < a < 2 ^ 20 /\ a ∈ pa_frames (pmem m) /\
    pa_frames (pmem m1) = pa_frames (pmem m) ∖ {[a]} /\ pa_managed (pmem m1) a /\ (a ∉ others) /\
    space root ({[a]} ∪ others) f m1.
Proof.
  intros [(sh & Hok & Ht & Hd) He Hp Hi Ho]. unfold alloc_page.
  destruct (pa_alloc_page_spec (pmem m) (po_inv _ _ _ Hok)) as (Hst & Hm & Ha).
  destruct (pa_alloc_page (pmem m)) as [phys st]. cbn [fst snd] in *.
  destruct Ha as [[-> ->]|(a & -> & Ha & Hfr)]; [left; by destruct m|].
  destruct (pa_frames_managed _ _ (po_inv _ _ _ Hok) Ha) as [Hman Hrange].
  right. exists a. cbn [with_pmem pmem]. split_and!; [done|lia|lia|done|done|by rewrite Hm|set_solver|].
  assert (Hu : forall u lp, sh !! u = Some lp -> u / PAGE_SIZE ∉ pa_frames (pmem m)).
  { intros u [l p] Hu. apply (po_table _ _ _ Hok _ _ _ Hu). }
  split; cbn [with_pmem pmem].
  - exists sh. split_and!; [apply pt_pmem; [done|done|]|..|done]; intros u lp Hs; pose proof (Hu u lp Hs); [|pose proof (Ht u lp Hs)]; set_solver.
  - done.
  - intros w Hw Hpw. destruct (Hp w Hw Hpw) as (? & ? & ? & ?). rewrite Hm, Hfr. split_and!; [lia|lia|set_solver|done|set_solver].
  - done.
  - rewrite Hfr. set_solver.
Qed.

(** A page held outside is given back. *)
Lemma space_free root others f m a phys :
  space root ({[a]} ∪ others) f m -> phys / PAGE_SIZE = a -> 0 < a -> (a ∉ others) -> pa_managed (pmem m) a ->
  space root others f (free_page phys m) /\
  (forall p, p ∈ pa_frames (pmem (free_page phys m)) <-> p ∈ pa_frames (pmem m) \/ p = a) /\
  forall p, pa_managed (pmem (free_page phys m)) p <-> pa_managed (pmem m) p.
Proof.
  intros [(sh & Hok & Ht & Hd) He Hp Hi Ho] Hphys Hpos Hao Hman.
  destruct (pa_free_page_spec (pmem m) phys (po_inv _ _ _ Hok)) as (Hst & Hm & Hf); [by rewrite Hphys|].
  unfold free_page. set (st := pa_free_page phys (pmem m)) in *. rewrite Hphys in Hf.
  assert (Hf' : forall p, p ∈ pa_frames st <-> p ∈ pa_frames (pmem m) \/ p = a) by (intros p; rewrite Hf; naive_solver).
  split; [|by split]. split; cbn [with_pmem pmem].
  - exists sh. split_and!; [apply pt_pmem; [done|done|]| |done].
    + intros u [l p] Hs. rewrite Hf'. pose proof (Ht _ _ Hs). pose proof (ta_used _ _ _ (po_table _ _ _ Hok _ _ _ Hs)). set_solver.
    + intros u lp Hs. pose proof (Ht _ _ Hs). set_solver.
  - done.
  - intros w Hw Hpw. destruct (Hp w Hw Hpw) as (? & ? & ? & ?). rewrite Hm, Hf'. split_and!; [lia|lia|set_solver|done|set_solver].
  - done.
  - intros p Hin. rewrite Hf'. set_solver.
Qed.

(** ** Mapping and unmapping *)

Lemma space_map root others f m a virt flags :
  space root ({[a]} ∪ others) f m -> user_page (vpn virt) -> 0 < a < 2 ^ 20 -> (a ∉ others) -> pa_managed (pmem m) a ->
  0 <= flags < 2 ^ 64 -> Z.land flags PAGE_FRAME_MASK = 0 ->
  let '(ret, m') := mmu_map root virt (a * PAGE_SIZE) flags m in
  pa_frames (pmem m') ⊆ pa_frames (pmem m) /\ (forall p, pa_managed (pmem m') p <-> pa_managed (pmem m) p) /\
  if present (f (vpn virt)) then ret = - EEXIST /\ space root ({[a]} ∪ others) f m'
  else ret = 0 /\ space root others (upd (vpn virt) (pte_make (a * PAGE_SIZE) (Z.lor flags PTE_PRESENT)) f) m' \/
       ret = - ENOMEM /\ space root ({[a]} ∪ others) f m' /\ (pa_alloc_page (pmem m')).1 = 0.
Proof.
  intros Hs Hu Ha Hao Hman Hf Hmask. pose proof Hs as [(sh & Hok & Ht & Hd) He Hp Hi Ho].
  pose proof (mmu_map_spec root sh m Hok virt Hu (a * PAGE_SIZE) flags ltac:(unfold PAGE_SIZE; lia) Hf) as Hmap.
  destruct (mmu_map root virt (a * PAGE_SIZE) flags m) as [ret m'].
  replace (ALIGN_DOWN (a * PAGE_SIZE) PAGE_SIZE) with (a * PAGE_SIZE) in Hmap by (by rewrite ALIGN_DOWN_page, Z.div_mul).
  rewrite He in Hmap by done. fold (present (f (vpn virt))) in Hmap.
  assert (Hsame : leaf_set root sh m (vpn virt) (f (vpn virt)) m' -> space root ({[a]} ∪ others) f m').
  { intros Hls. eapply space_ext; [|apply (space_set root _ ({[a]} ∪ others) f m m' (vpn virt) (f (vpn virt)) sh Hs Hok Ht Hd Hls Hu); [by left|]].
    - intros w _. unfold upd. by case_decide; subst.
    - intros Hpr. destruct (Hp _ Hu Hpr) as (? & ? & ? & ?). split_and!; [(done || lia)..|by intros u lp Hs'; apply (Hd u lp)|].
      intros x Hx Hne Hpx Heq. by apply Hi in Heq. }
  destruct Hmap as [(-> & Hpr & Hls)|[(-> & Hpr & Hls)|(-> & Hz & Hls & Hal)]].
  - split_and!; [apply Hls..|]. rewrite Hpr. left. split; [done|].
    apply (space_set root ({[a]} ∪ others) others f m m' (vpn virt) _ sh Hs Hok Ht Hd Hls Hu); [set_solver|].
    intros _. rewrite frame_no_mapped by (done || lia). split_and!; [lia|lia|set_solver|done|done| |].
    + intros u lp Hs' ->. by apply (Ht u lp Hs'), elem_of_union_l, elem_of_singleton.
    + intros x Hx Hne Hpx Heq. destruct (Hp x Hx Hpx) as (_ & _ & _ & Hn). rewrite Heq in Hn. set_solver.
  - split_and!; [apply Hls..|]. rewrite Hpr. split; [done|by apply Hsame].
  - split_and!; [apply Hls..|]. replace (present (f (vpn virt))) with false by (by rewrite Hz).
    right. split_and!; [done|by apply Hsame|done].
Qed.

Lemma space_unmap root others f m virt :
  space root others f m -> user_page (vpn virt) -> present (f (vpn virt)) = true ->
  space root ({[frame_no (f (vpn virt))]} ∪ others) (upd (vpn virt) 0 f) (mmu_unmap root virt m).2 /\
  pmem (mmu_unmap root virt m).2 = pmem m.
Proof.
  intros Hs Hu Hpr. pose proof Hs as [(sh & Hok & Ht & Hd) He Hp Hi Ho].
  pose proof (mmu_unmap_spec root sh m Hok virt Hu) as Hun. rewrite He in Hun by done.
  fold (present (f (vpn virt))) in Hun. rewrite Hpr in Hun. destruct Hun as [_ Hls].
  split; [|apply (mmu_change_pmem root sh m Hok virt Hu 0)].
  apply (space_set root others _ f m _ (vpn virt) 0 sh Hs Hok Ht Hd Hls Hu); [set_solver|done].
Qed.

Lemma space_set_flags root others f m virt flags :
  space root others f m -> user_page (vpn virt) -> present (f (vpn virt)) = true ->
  0 <= flags < 2 ^ 64 -> Z.land flags PAGE_FRAME_MASK = 0 ->
  space root others (upd (vpn virt) (pte_make (pte_get_frame (f (vpn virt))) (Z.lor flags PTE_PRESENT)) f)
    (mmu_set_flags root virt flags m).2 /\ pmem (mmu_set_flags root virt flags m).2 = pmem m.
Proof.
  intros Hs Hu Hpr Hf Hmask. pose proof Hs as [(sh & Hok & Ht & Hd) He Hp Hi Ho].
  pose proof (mmu_set_flags_spec root sh m Hok virt Hu flags Hf) as Hun. rewrite He in Hun by done.
  fold (present (f (vpn virt))) in Hun. rewrite Hpr in Hun. destruct Hun as [_ Hls].
  split; [|apply (mmu_change_pmem root sh m Hok virt Hu flags)].
  apply (space_set root others _ f m _ (vpn virt) _ sh Hs Hok Ht Hd Hls Hu); [by left|].
  intros _. rewrite frame_no_flags by done. destruct (Hp _ Hu Hpr) as (? & ? & ? & ?).
  split_and!; [(done || lia)..|by intros u lp Hs'; apply (Hd u lp)|].
  intros x Hx Hne Hpx Heq. by apply Hi in Heq.
Qed.

(** ** Giving pages up *)

(** From [m] to [m'] the frames of the user pages in [P] became free. *)
Definition released (P : Z -> bool) f m m' : Prop :=
  (forall p, p ∈ pa_frames (pmem m') <->
     p ∈ pa_frames (pmem m) \/ exists w, user_page w /\ P w = true /\ present (f w) = true /\ p = frame_no (f w)) /\
  forall p, pa_managed (pmem m') p <-> pa_managed (pmem m) p.

Lemma drop_page_spec root others f s addr :
  space root others f (mm s) -> user_page (vpn addr) ->
  let s' := drop_page root addr s in
  space root others (cleared (Z.eqb (vpn addr)) f) (mm s') /\
  released (Z.eqb (vpn addr)) f (mm s) (mm s') /\ ram s' = ram s /\ allocs s' = allocs s.
Proof.
  intros Hs Hu. unfold drop_page. destruct (space_resolve _ _ _ _ addr Hs Hu) as [-> Hres].
  destruct (present (f (vpn addr))) eqn:Hpr; cbn [negb].
  - destruct (space_unmap _ _ _ _ addr Hs Hu Hpr) as [Hun Hpm]. specialize (Hres eq_refl).
    destruct (se_page _ _ _ _ Hs _ Hu Hpr) as (Hpos & Hnf & Hman & Hno).
    destruct (space_free root others _ _ _ _ Hun Hres (proj1 Hpos) Hno) as (Hf & Hfr & Hm); [by rewrite Hpm|].
    split_and!; [|split|done|done].
    + eapply space_ext; [|exact Hf]. intros w _. unfold upd, cleared.
      destruct (Z.eqb_spec (vpn addr) w) as [<-|]; [rewrite decide_True, Hpr by done; done|by rewrite decide_False].
    + intros p. cbn. rewrite Hfr, Hpm. split; (intros [?|Hx]; [by left|right]).
      * exists (vpn addr). subst p. by rewrite Z.eqb_refl.
      * destruct Hx as (w & _ & <-%Z.eqb_eq & _ & ->). done.
    + intros p. cbn. by rewrite Hm, Hpm.
  - split_and!; [|split|done|done].
    + eapply space_ext; [|exact Hs]. intros w _. unfold cleared. by destruct (Z.eqb_spec (vpn addr) w) as [<-|]; [rewrite Hpr|].
    + intros p. split; [by left|]. intros [?|(w & _ & <-%Z.eqb_eq & Hw & _)]; [done|congruence].
    + done.
Qed.

Lemma released_trans P Q f m1 m2 m3 :
  released P f m1 m2 -> released Q (cleared P f) m2 m3 -> released (fun w => P w || Q w) f m1 m3.
Proof.
  intros [H1 H1'] [H2 H2']. split; [|intros p; by rewrite H2', H1']. intros p. rewrite H2, H1. unfold cleared. split.
  - intros [[?|(w & ? & HP & ? & ?)]|(w & Hw & HQ & Hpr & Heq)]; [by left|right; exists w; by rewrite HP|].
    right. exists w. destruct (P w && present (f w)) eqn:E; [done|]. rewrite HQ, orb_true_r. done.
  - intros [?|(w & Hw & HPQ & Hpr & Heq)]; [by left; left|]. destruct (P w) eqn:HP; [left; right; by exists w|].
    right. exists w. by rewrite HP.
Qed.

Lemma cleared_trans P Q f w : cleared Q (cleared P f) w = cleared (fun w => P w || Q w) f w.
Proof. unfold cleared. destruct (P w), (Q w), (present (f w)) eqn:E; cbn; rewrite ?E; done. Qed.

Lemma released_ext P Q f m m' : (forall w, user_page w -> P w = Q w) -> released P f m m' -> released Q f m m'.
Proof.
  intros E [H1 H2]. split; [|done]. intros p. rewrite H1. split; (intros [?|(w & Hw & HP & ?)]; [by left|right; exists w]).
  - by rewrite <- E.
  - by rewrite E.
Qed.

(** The pages of [lo, hi). *)
Definition in_pages (lo hi w : Z) : bool := (lo <=? w * PAGE_SIZE) && (w * PAGE_SIZE <? hi).

(** The effect of giving up the user pages in [P]. *)
Record dropped root others (P : Z -> bool) f s s' : Prop := {
  dr_space : space root others (cleared P f) (mm s');
  dr_frames : released P f (mm s) (mm s');
  dr_ram : ram s' = ram s;
  dr_allocs : allocs s' = allocs s
}.

Lemma dropped_trans root others P Q f s1 s2 s3 :
  dropped root others P f s1 s2 -> dropped root others Q (cleared P f) s2 s3 ->
  dropped root others (fun w => P w || Q w) f s1 s3.
Proof.
  intros [H1 H2 H3 H4] [H5 H6 H7 H8]. split; [|by eapply released_trans|congruence|congruence].
  eapply space_ext; [|exact H5]. intros w _. apply cleared_trans.
Qed.

Lemma dropped_ext root others P Q f s s' :
  (forall w, user_page w -> P w = Q w) -> dropped root others P f s s' -> dropped root others Q f s s'.
Proof.
  intros E [H1 H2 H3 H4]. split; [| |done|done].
  - eapply space_ext; [|exact H1]. intros w Hw. unfold cleared. by rewrite E.
  - eapply released_ext; [|exact H2]. intros w Hw. by apply E.
Qed.

Lemma dropped_none root others f s : space root others f (mm s) -> dropped root others (fun _ => false) f s s.
Proof. intros Hs. split; [done| |done|done]. split; [|done]. intros p. naive_solver. Qed.

Lemma drop_pages_spec root others f s lo hi :
  space root others f (mm s) -> lo mod PAGE_SIZE = 0 -> hi mod PAGE_SIZE = 0 -> 0 <= lo <= hi -> hi <= 2 ^ 47 ->
  dropped root others (in_pages lo hi) f s (drop_pages root lo hi s).
Proof.
  intros Hs Hlo Hhi Hr Hmax. unfold drop_pages.
  assert (El : lo = lo / PAGE_SIZE * PAGE_SIZE) by (pose proof (Z.div_mod lo PAGE_SIZE ltac:(done)); lia).
  assert (Eh : hi = hi / PAGE_SIZE * PAGE_SIZE) by (pose proof (Z.div_mod hi PAGE_SIZE ltac:(done)); lia).
  set (L := lo / PAGE_SIZE) in *. set (U := hi / PAGE_SIZE) in *. clearbody L U. subst lo hi. unfold PAGE_SIZE in Hr, Hmax.
  replace (pages (L * PAGE_SIZE) (U * PAGE_SIZE)) with (U - L).
  2:{ unfold pages. rewrite <- Z.mul_sub_distr_r, Z.div_add_l by done. change ((PAGE_SIZE - 1) / PAGE_SIZE) with 0. lia. }
  eapply dropped_ext; [|apply (for_range_inv (fun i s' => dropped root others (in_pages (L * PAGE_SIZE) ((L + i) * PAGE_SIZE)) f s s')); [lia| |]].
  - intros w _. by replace (L + (U - L)) with U by lia.
  - eapply dropped_ext; [|by apply dropped_none]. intros w _. unfold in_pages, PAGE_SIZE.
    destruct (Z.leb_spec (L * 4096) (w * 4096)), (Z.ltb_spec (w * 4096) ((L + 0) * 4096)); done || lia.
  - intros i s' Hi Hd. destruct (user_vpn (L * PAGE_SIZE + i * PAGE_SIZE)) as [Ev Hu]; [unfold PAGE_SIZE; lia|].
    rewrite <- Z.mul_add_distr_r, Z.div_mul in Ev by done. rewrite <- Z.mul_add_distr_r in Hu.
    destruct (drop_page_spec _ _ _ _ _ (dr_space _ _ _ _ _ _ Hd) Hu) as (H1 & H2 & H3 & H4). rewrite <- Z.mul_add_distr_r.
    eapply dropped_ext; [|eapply (dropped_trans _ _ _ (Z.eqb (vpn ((L + i) * PAGE_SIZE)))); [exact Hd|split; [exact H1|exact H2|done|done]]].
    intros w _. rewrite Ev. unfold in_pages, PAGE_SIZE.
    destruct (Z.leb_spec (L * 4096) (w * 4096)), (Z.ltb_spec (w * 4096) ((L + i) * 4096)), (Z.ltb_spec (w * 4096) ((L + (i + 1)) * 4096)),
      (Z.eqb_spec (L + i) w); done || lia.
Qed.
End space.
