(* ===== verification/VmmProps.v ===== *)
(** * Correctness of the virtual memory manager

    The operations on a whole address space, areas and pages together: mapping,
    unmapping, the heap, page faults, access checks and copies. *)

From S2P Require Import Prelude PageAllocator Pmm SafeArith CString Errno Paging PagingProps Vmm VmmAreas VmmSpace.

Section props.
Context {St : Type} `{PageAllocator St}.
Implicit Types (s : machine St) (others : gset Z) (f : Z -> Z).

(** Areas and pages; [f] is the page table. *)
Record vm_ok others (asp : address_space) f s : Prop := {
  vk_areas : areas_ok 0 (vma_list asp);
  vk_count : areas asp (vma_list asp);
  vk_space : space (pt asp) others f (mm s)
}.

Definition is_some {A} (o : option A) : bool := match o with Some _ => true | None => false end.

(** ** Unmapping *)

(** The pages in the range that belong to an area. *)
Definition mapped_pages (l : list vm_area) (start end_ w : Z) : bool :=
  in_pages start end_ w && is_some (view l (w * PAGE_SIZE)).

Lemma in_pages_max v start end_ w :
  in_pages (Z.max (vm_start v) start) (Z.min (vm_end v) end_) w = in_pages start end_ w && covers v (w * PAGE_SIZE).
Proof.
  unfold in_pages, covers. set (x := w * PAGE_SIZE).
  destruct (Z.leb_spec (Z.max (vm_start v) start) x), (Z.ltb_spec x (Z.min (vm_end v) end_)), (Z.leb_spec start x),
    (Z.ltb_spec x end_), (Z.leb_spec (vm_start v) x), (Z.ltb_spec x (vm_end v)); done || lia.
Qed.

Lemma drop_all_spec root others start end_ :
  start < end_ -> aligned start -> aligned end_ -> 0 <= start -> forall l lo f s, areas_ok lo l -> space root others f (mm s) ->
  dropped root others (mapped_pages l start end_) f s (drop_all root start end_ l s).
Proof.
  intros Hse Hs He H0. induction l as [|v r IH]; intros lo f s Hl Hsp.
  - eapply dropped_ext; [|by apply dropped_none]. intros w _. unfold mapped_pages. by rewrite andb_false_r.
  - destruct Hl as (Hlo & Hv & Hr). destruct (Hv) as [Hrange Hend [Ha1 Ha2]]. rewrite drop_all_cons.
    set (P := fun w => in_pages start end_ w && covers v (w * PAGE_SIZE)).
    assert (Hd : dropped root others P f s
      (if (vm_start v <? end_) && (start <? vm_end v)
       then drop_pages root (Z.max (vm_start v) start) (Z.min (vm_end v) end_) s else s)).
    { destruct (Z.ltb_spec (vm_start v) end_), (Z.ltb_spec start (vm_end v)); cbn [andb].
      1:{ eapply dropped_ext; [intros w _; apply in_pages_max|]. unfold USER_SPACE_END in Hend. apply drop_pages_spec; [done| | |lia|lia].
          - by destruct (Z.max_spec (vm_start v) start) as [[_ ->]|[_ ->]].
          - by destruct (Z.min_spec (vm_end v) end_) as [[_ ->]|[_ ->]]. }
      all: eapply dropped_ext; [|by apply dropped_none]; intros w _; unfold P; rewrite <- in_pages_max; unfold in_pages;
        symmetry; destruct (Z.leb_spec (Z.max (vm_start v) start) (w * PAGE_SIZE)), (Z.ltb_spec (w * PAGE_SIZE) (Z.min (vm_end v) end_)); done || lia. }
    eapply dropped_ext; [|eapply dropped_trans; [exact Hd|by apply (IH (vm_end v)); [|apply Hd]]].
    intros w _. unfold P, mapped_pages. cbn [view]. destruct (in_pages start end_ w), (covers v (w * PAGE_SIZE)); done.
Qed.

(** The end of a range that does not wrap. *)
Lemma range_bounds addr length :
  0 <= addr -> 0 < length -> addr + length <= 2 ^ 64 - PAGE_SIZE ->
  let start := ALIGN_DOWN addr PAGE_SIZE in
  let end_ := ALIGN_UP (addr + length) PAGE_SIZE in
  aligned start /\ aligned end_ /\ 0 <= start <= addr /\ addr + length <= end_ /\ addr < start + PAGE_SIZE /\ end_ < addr + length + PAGE_SIZE.
Proof.
  intros Ha Hl Hb start end_. unfold start, end_. rewrite ALIGN_DOWN_page, ALIGN_UP_page by lia. unfold aligned.
  rewrite !Z.mod_mul by done. unfold PAGE_SIZE in *.
  pose proof (Z.div_mod addr 4096 ltac:(lia)). pose proof (Z.mod_pos_bound addr 4096 ltac:(lia)).
  pose proof (Z.div_mod (addr + length + (4096 - 1)) 4096 ltac:(lia)).
  pose proof (Z.mod_pos_bound (addr + length + (4096 - 1)) 4096 ltac:(lia)). lia.
Qed.

(** What [vmm_munmap] does to the areas: [true] when no area had to be cut in
    two or there was memory for the second part. *)
Definition can_cut (l : list vm_area) (start end_ : Z) s : bool :=
  negb (existsb (splits start end_) l) || next_alloc s.

Lemma cut_all_view (l : list vm_area) start end_ ok :
  start < end_ -> areas_ok 0 l ->
  if negb (existsb (splits start end_) l) || ok
  then forall a, view (cut_all ok start end_ l) a = if (start <=? a) && (a <? end_) then None else view l a
  else cut_all ok start end_ l = l.
Proof.
  intros Hse Hl. destruct (existsb (splits start end_) l) eqn:Ex; cbn [negb orb].
  - destruct ok; [intros a; by apply (view_cut_all start end_ l a Hse 0)|].
    apply existsb_exists in Ex as (v & Hv & Hsp). by apply (cut_all_refused start end_ l v Hse 0); [|apply list_elem_of_In|].
  - intros a. rewrite cut_all_no_split; [by apply (view_cut_all start end_ l a Hse 0)|].
    intros v Hv. apply not_true_is_false. intros Hsp. rewrite <- not_true_iff_false in Ex. apply Ex.
    apply existsb_exists. exists v. split; [by apply list_elem_of_In|done].
Qed.

Lemma munmap_spec others asp f s addr length :
  vm_ok others asp f s -> 0 <= addr -> 0 < length -> addr + length <= 2 ^ 64 - PAGE_SIZE ->
  let start := ALIGN_DOWN addr PAGE_SIZE in
  let end_ := ALIGN_UP (addr + length) PAGE_SIZE in
  let P := mapped_pages (vma_list asp) start end_ in
  let '(ret, asp', s') := vmm_munmap addr length asp s in
  ret = 0 /\ vm_ok others asp' (cleared P f) s' /\ same_bounds asp asp' /\
  released P f (mm s) (mm s') /\ ram s' = ram s /\ vma_list asp' = cut_all (next_alloc s) start end_ (vma_list asp).
Proof.
  intros [Har Hco Hsp] Ha Hl Hb start end_ P. destruct (range_bounds addr length Ha Hl Hb) as (Hs & He & Hs0 & He0 & _).
  fold start end_ in Hs, He, Hs0, He0. unfold vmm_munmap, zig_range_end_le_cap_ok, UINT64_MAX, PAGE_SIZE in *.
  rewrite Z.geb_leb, Z.gtb_ltb, (proj2 (Z.leb_gt _ _)), u64_small, (proj2 (Z.ltb_ge _ _)) by lia.
  fold start end_. assert (Hse : start < end_) by lia.
  pose proof (munmap_loop_spec start end_ Hse Hs He (vma_list asp) [] asp s Hco Har) as Hloop.
  pose proof (drop_all_spec (pt asp) others start end_ Hse Hs He (proj1 Hs0) (vma_list asp) 0 f s Har Hsp) as Hd. fold P in Hd.
  destruct (munmap_loop start end_ [] (vma_list asp) asp s) as [asp' s']. cbv zeta in Hloop. cbn [app] in Hloop.
  destruct Hloop as (Hco' & Hsb & ->). destruct Hd as [Hd1 Hd2 Hd3 _].
  pose proof (ar_list _ _ Hco') as El. pose proof (sb_pt _ _ Hsb) as Ept.
  split_and!; [done| |done|by destruct (existsb _ _)|by destruct (existsb _ _)|done]. split.
  - rewrite El. by apply cut_all_ok.
  - by rewrite El.
  - rewrite Ept. by destruct (existsb _ _).
Qed.

(** C2. [vmm_munmap] on a user address space, for a range that ends at least a page
    below 2^64.  Of the page-aligned range around [addr, addr + length), exactly
    the pages that belong to an area are removed from the page table, and their
    frames become free; a page of the range without an area stays mapped.  The
    range, and nothing else, is removed from the map of areas, unless it lies
    strictly inside one area and there is no memory for the second part: then the
    list of areas stays as it was although the pages are gone.  The call returns 0
    in both cases; the break and the contents of memory stay, and the address space
    stays well formed. *)
Theorem vmm_munmap_correct others asp f s addr length :
  vm_ok others asp f s -> 0 <= addr -> 0 < length -> addr + length <= 2 ^ 64 - PAGE_SIZE ->
  let start := ALIGN_DOWN addr PAGE_SIZE in
  let end_ := ALIGN_UP (addr + length) PAGE_SIZE in
  let P := mapped_pages (vma_list asp) start end_ in
  let '(ret, asp', s') := vmm_munmap addr length asp s in
  ret = 0 /\ vm_ok others asp' (cleared P f) s' /\ same_bounds asp asp' /\
  released P f (mm s) (mm s') /\ ram s' = ram s /\
  if can_cut (vma_list asp) start end_ s
  then forall a, view (vma_list asp') a = if (start <=? a) && (a <? end_) then None else view (vma_list asp) a
  else vma_list asp' = vma_list asp.
Proof.
  intros Hok Ha Hl Hb start end_ P. pose proof (munmap_spec others asp f s addr length Hok Ha Hl Hb) as Hm.
  destruct (range_bounds addr length Ha Hl Hb) as (_ & _ & Hs & He & _). fold start end_ P in Hm, Hs, He.
  destruct (vmm_munmap addr length asp s) as [[ret asp'] s']. destruct Hm as (H1 & H2 & H3 & H4 & H5 & ->).
  split_and!; [done..|]. apply cut_all_view; [lia|apply Hok].
Qed.

(** The bounds of [vmm_munmap]: a range that passes 2^64 is refused with
    [EINVAL]; one whose end rounds up to 2^64 is reported as unmapped although
    nothing is, whatever areas it contains. *)
Theorem vmm_munmap_wraps asp s addr length :
  areas_ok 0 (vma_list asp) -> 0 <= addr -> 0 <= length ->
  (2 ^ 64 <= addr + length -> vmm_munmap addr length asp s = (- EINVAL, asp, s)) /\
  (2 ^ 64 - PAGE_SIZE < addr + length < 2 ^ 64 -> vmm_munmap addr length asp s = (0, asp, s)).
Proof.
  intros Har Ha Hl. unfold vmm_munmap, zig_range_end_le_cap_ok, UINT64_MAX. rewrite Z.geb_leb, Z.gtb_ltb.
  split; intros Hb.
  - by rewrite (proj2 (Z.leb_le _ _)).
  - rewrite (proj2 (Z.leb_gt _ _)), u64_small, (proj2 (Z.ltb_ge _ _)) by lia. unfold ALIGN_UP, PAGE_SIZE in *.
    replace (u64 (addr + length + (4096 - 1))) with ((addr + length + 4095) - 2 ^ 64) by (apply Z.mod_unique_pos with 1; lia).
    change (Z.land (addr + length + 4095 - 2 ^ 64) (Z.lnot (4096 - 1))) with (ALIGN_DOWN (addr + length + 4095 - 2 ^ 64) PAGE_SIZE).
    rewrite (ALIGN_DOWN_page (addr + length + 4095 - 2 ^ 64)). unfold PAGE_SIZE. rewrite (Z.div_small (addr + length + 4095 - 2 ^ 64)) by lia.
    rewrite munmap_past; [done|]. intros v Hv. by destruct (areas_elem _ _ _ Har Hv).
Qed.

(** ** Mapping *)

(** The allocator has no page to give. *)
Definition exhausted (m : mmu St) : Prop := (alloc_page m).1 = 0.

Lemma fresh_map root others f m virt flags :
  space root others f m -> user_page (vpn virt) -> 0 <= flags < 2 ^ 64 -> Z.land flags PAGE_FRAME_MASK = 0 ->
  let w := vpn virt in
  let '(phys, m1) := alloc_page m in
  phys = 0 /\ m1 = m \/
  exists a, phys = a * PAGE_SIZE /\ 0 < a < 2 ^ 20 /\ a ∈ pa_frames (pmem m) /\
    let '(ret, m2) := mmu_map root virt phys flags m1 in
    ret = 0 /\ present (f w) = false /\
      space root others (upd w (pte_make (a * PAGE_SIZE) (Z.lor flags PTE_PRESENT)) f) m2 /\
      pa_frames (pmem m2) ⊆ pa_frames (pmem m) ∖ {[a]} \/
    ret = (if present (f w) then - EEXIST else - ENOMEM) /\ (present (f w) = false -> exhausted m2) /\ space root others f (free_page phys m2) /\
      pa_frames (pmem (free_page phys m2)) ⊆ pa_frames (pmem m).
Proof.
  intros Hs Hu Hf Hmask w. pose proof (space_alloc root others f m Hs) as Ha.
  destruct (alloc_page m) as [phys m1]. destruct Ha as [?|(a & -> & Hr & Hin & Hfr & Hman & Hno & Hs1)]; [by left|right].
  exists a. split_and!; [done|lia|lia|done|].
  pose proof (space_map root others f m1 a virt flags Hs1 Hu Hr Hno Hman Hf Hmask) as Hm. fold w in Hm.
  destruct (mmu_map root virt (a * PAGE_SIZE) flags m1) as [ret m2]. destruct Hm as (Hsub & Hmm & Hm).
  assert (Hback : space root ({[a]} ∪ others) f m2 -> space root others f (free_page (a * PAGE_SIZE) m2) /\
    pa_frames (pmem (free_page (a * PAGE_SIZE) m2)) ⊆ pa_frames (pmem m)).
  { intros Hs2. destruct (space_free root others f m2 a (a * PAGE_SIZE) Hs2) as (? & Hfp & _);
      [by apply Z.div_mul|lia|done|by rewrite Hmm|]. split; [done|]. intros p Hp. apply Hfp in Hp as [Hp| ->]; [set_solver|done]. }
  destruct (present (f w)).
  - destruct Hm as [-> Hs2]. right. destruct (Hback Hs2). done.
  - destruct Hm as [[-> Hs2]|(-> & Hs2 & Hex)]; [left; split_and!; [done..|set_solver]|right]. destruct (Hback Hs2).
    split_and!; [done| |done|done]. intros _. unfold exhausted, alloc_page. by destruct (pa_alloc_page (pmem m2)).
Qed.

(** ** Contents of pages *)

(** Byte [i] of frame [p], in the direct map. *)
Definition page_byte (p i : Z) : Z := PHYS_TO_VIRT (p * PAGE_SIZE) + i.

Definition zero_page (p : Z) (r : memory) : Prop := forall i, 0 <= i < PAGE_SIZE -> load8 (page_byte p i) r = 0.

(** The frames in use keep their contents. *)
Definition ram_kept (m : mmu St) (r r' : memory) : Prop :=
  forall p i, 0 <= p < 2 ^ 20 -> (p ∉ pa_frames (pmem m)) -> 0 <= i < PAGE_SIZE ->
    load8 (page_byte p i) r' = load8 (page_byte p i) r.

Lemma page_byte_eq p i : 0 <= p < 2 ^ 20 -> page_byte p i = p * PAGE_SIZE + KERNEL_PHYS_MAP_BASE + i.
Proof.
  intros Hp. unfold page_byte, PHYS_TO_VIRT. rewrite u64_small; [done|]. unfold KERNEL_PHYS_MAP_BASE, PAGE_SIZE. lia.
Qed.

Lemma page_start p : PHYS_TO_VIRT (p * PAGE_SIZE) = page_byte p 0.
Proof. unfold page_byte. lia. Qed.

(** Writing one page leaves the others alone. *)
Lemma other_page p a i :
  0 <= p < 2 ^ 20 -> 0 <= a < 2 ^ 20 -> 0 <= i < PAGE_SIZE ->
  (page_byte a 0 <=? page_byte p i) && (page_byte p i <? page_byte a 0 + PAGE_SIZE) = (p =? a).
Proof.
  intros Hp Ha Hi. rewrite !page_byte_eq by done. unfold PAGE_SIZE in *.
  destruct (Z.leb_spec (a * 4096 + KERNEL_PHYS_MAP_BASE + 0) (p * 4096 + KERNEL_PHYS_MAP_BASE + i)),
    (Z.ltb_spec (p * 4096 + KERNEL_PHYS_MAP_BASE + i) (a * 4096 + KERNEL_PHYS_MAP_BASE + 0 + 4096)), (Z.eqb_spec p a); done || lia.
Qed.

Lemma memset_page a r :
  0 <= a < 2 ^ 20 ->
  let r' := memset (PHYS_TO_VIRT (a * PAGE_SIZE)) 0 PAGE_SIZE r in
  zero_page a r' /\ forall p i, 0 <= p < 2 ^ 20 -> p <> a -> 0 <= i < PAGE_SIZE -> load8 (page_byte p i) r' = load8 (page_byte p i) r.
Proof.
  intros Ha r'. pose proof (memset_spec (page_byte a 0) 0 PAGE_SIZE r ltac:(done)) as Hf.
  rewrite <- page_start in Hf. fold r' in Hf. split.
  - intros i Hi. rewrite Hf, page_start, other_page by done. by rewrite Z.eqb_refl.
  - intros p i Hp Hne Hi. rewrite Hf, page_start, other_page by done. by rewrite (proj2 (Z.eqb_neq p a)).
Qed.

(** The pages in [P], absent from [f], are mapped with [flags] in [f']. *)
Definition grown (P : Z -> bool) (flags : Z) f f' : Prop :=
  forall w, user_page w ->
    if P w then present (f w) = false /\ exists a, 0 < a < 2 ^ 20 /\ f' w = pte_make (a * PAGE_SIZE) (Z.lor flags PTE_PRESENT)
    else f' w = f w.

Definition zeroed (P : Z -> bool) f' (r : memory) : Prop :=
  forall w, user_page w -> P w = true -> zero_page (frame_no (f' w)) r.

Lemma in_pages_one addr w :
  aligned addr -> 0 <= addr < 2 ^ 47 -> in_pages addr (addr + PAGE_SIZE) w = (w =? vpn addr).
Proof.
  intros Ha Hr. destruct (user_vpn addr Hr) as [-> _]. unfold aligned in Ha. pose proof (Z.div_mod addr PAGE_SIZE ltac:(done)).
  unfold in_pages, PAGE_SIZE in *. destruct (Z.leb_spec addr (w * 4096)), (Z.ltb_spec (w * 4096) (addr + 4096)),
    (Z.eqb_spec w (addr / 4096)); done || lia.
Qed.

Lemma in_pages_first addr k w :
  aligned addr -> 0 <= addr < 2 ^ 47 -> 0 <= k ->
  in_pages addr (addr + (k + 1) * PAGE_SIZE) w = (w =? vpn addr) || in_pages (addr + PAGE_SIZE) (addr + PAGE_SIZE + k * PAGE_SIZE) w.
Proof.
  intros Ha Hr Hk. rewrite <- in_pages_one by done. unfold in_pages, PAGE_SIZE.
  destruct (Z.leb_spec addr (w * 4096)), (Z.ltb_spec (w * 4096) (addr + (k + 1) * 4096)), (Z.ltb_spec (w * 4096) (addr + 4096)),
    (Z.leb_spec (addr + 4096) (w * 4096)), (Z.ltb_spec (w * 4096) (addr + 4096 + k * 4096)); done || lia.
Qed.

Lemma in_pages_none addr w : in_pages addr (addr + 0 * PAGE_SIZE) w = false.
Proof.
  unfold in_pages. destruct (Z.leb_spec addr (w * PAGE_SIZE)), (Z.ltb_spec (w * PAGE_SIZE) (addr + 0 * PAGE_SIZE)); done || lia.
Qed.

(** One page more in front. *)
Lemma grown_first addr k flags f f' v :
  aligned addr -> 0 <= addr < 2 ^ 47 -> 0 <= k -> present (f (vpn addr)) = false ->
  (exists a, 0 < a < 2 ^ 20 /\ v = pte_make (a * PAGE_SIZE) (Z.lor flags PTE_PRESENT)) ->
  grown (in_pages (addr + PAGE_SIZE) (addr + PAGE_SIZE + k * PAGE_SIZE)) flags (upd (vpn addr) v f) f' ->
  grown (in_pages addr (addr + (k + 1) * PAGE_SIZE)) flags f f' /\ f' (vpn addr) = v.
Proof.
  intros Ha Hr Hk Hpr Hv Hg.
  assert (Hout : in_pages (addr + PAGE_SIZE) (addr + PAGE_SIZE + k * PAGE_SIZE) (vpn addr) = false).
  { destruct (user_vpn addr Hr) as [-> _]. unfold aligned in Ha. pose proof (Z.div_mod addr PAGE_SIZE ltac:(done)).
    unfold in_pages, PAGE_SIZE in *. destruct (Z.leb_spec (addr + 4096) (addr / 4096 * 4096)); done || lia. }
  assert (E : f' (vpn addr) = v).
  { specialize (Hg (vpn addr) (proj2 (user_vpn addr Hr))). rewrite Hout in Hg. rewrite Hg. unfold upd. by rewrite decide_True. }
  split; [|done]. intros w Hw. rewrite in_pages_first by done. destruct (Z.eqb_spec w (vpn addr)) as [->|Hne]; cbn [orb].
  - split; [done|]. rewrite E. done.
  - specialize (Hg w Hw). unfold upd in Hg. rewrite decide_False in Hg by done. done.
Qed.

Lemma zeroed_first addr k f' r :
  aligned addr -> 0 <= addr < 2 ^ 47 -> 0 <= k -> zero_page (frame_no (f' (vpn addr))) r ->
  zeroed (in_pages (addr + PAGE_SIZE) (addr + PAGE_SIZE + k * PAGE_SIZE)) f' r ->
  zeroed (in_pages addr (addr + (k + 1) * PAGE_SIZE)) f' r.
Proof.
  intros Ha Hr Hk Hz Hzs w Hw. rewrite in_pages_first by done. destruct (Z.eqb_spec w (vpn addr)) as [->|]; [done|]. by apply Hzs.
Qed.

Definition BRK_FLAGS : Z := Z.lor (Z.lor PTE_PRESENT PTE_WRITABLE) PTE_USER.

(** What a run of [brk_grow] over [k] pages leaves behind. *)
Record brk_grown root others f s (addr k : Z) f' s' : Prop := {
  bg_grown : grown (in_pages addr (addr + k * PAGE_SIZE)) BRK_FLAGS f f';
  bg_space : space root others f' (mm s');
  bg_zero : zeroed (in_pages addr (addr + k * PAGE_SIZE)) f' (ram s');
  bg_kept : ram_kept (mm s) (ram s) (ram s');
  bg_frames : pa_frames (pmem (mm s')) ⊆ pa_frames (pmem (mm s))
}.

Lemma brk_grow_stop root others f s addr s' :
  space root others f (mm s') -> ram s' = ram s -> pa_frames (pmem (mm s')) ⊆ pa_frames (pmem (mm s)) ->
  brk_grown root others f s addr 0 f s'.
Proof.
  intros Hs Hr Hfr. split; [|done| | |done].
  - intros w _. by rewrite in_pages_none.
  - intros w _. by rewrite in_pages_none.
  - intros p i _ _ _. by rewrite Hr.
Qed.

Lemma brk_grow_spec root others n : forall addr f s,
  space root others f (mm s) -> aligned addr -> 0 <= addr -> addr + Z.of_nat n * PAGE_SIZE <= 2 ^ 47 ->
  let '(ok, s') := brk_grow n root addr s in
  exists k f', 0 <= k <= Z.of_nat n /\ ok = (k =? Z.of_nat n) /\ brk_grown root others f s addr k f' s'.
Proof.
  induction n as [|n IH]; intros addr f s Hs Ha H0 Hb; cbn [brk_grow].
  { exists 0, f. split_and!; [lia|lia|done|]. by apply brk_grow_stop. }
  unfold PAGE_SIZE in Hb. assert (Hr : 0 <= addr < 2 ^ 47) by lia. destruct (user_vpn addr Hr) as [_ Hu].
  assert (Hn0 : (0 =? Z.of_nat (S n)) = false) by (by apply Z.eqb_neq).
  destruct (space_resolve _ _ _ _ addr Hs Hu) as [-> _]. destruct (present (f (vpn addr))) eqn:Hpr; cbn [negb].
  { exists 0, f. split_and!; [lia|lia|done|]. by apply brk_grow_stop. }
  unfold pmm_page. pose proof (fresh_map root others f (mm s) addr BRK_FLAGS Hs Hu ltac:(done) ltac:(done)) as Hm.
  destruct (alloc_page (mm s)) as [phys m1]. destruct Hm as [[-> ->]|(a & -> & Har & Hin & Hm)].
  { cbn. exists 0, f. split_and!; [lia|lia|done|]. by apply brk_grow_stop. }
  destruct (Z.eqb_spec (a * PAGE_SIZE) 0); [unfold PAGE_SIZE in *; lia|]. cbn [with_mm mm ram].
  fold BRK_FLAGS. destruct (mmu_map root addr (a * PAGE_SIZE) BRK_FLAGS m1) as [ret m2].
  destruct Hm as [(-> & _ & Hs2 & Hfr)|(-> & _ & Hs2 & Hfr)].
  2:{ rewrite Hpr. cbn. exists 0, f. split_and!; [lia|lia|done|]. by apply brk_grow_stop. }
  cbn [Z.eqb negb]. destruct (memset_page a (ram s) ltac:(lia)) as [Hz Hother].
  set (s2 := with_ram _ _). set (v := pte_make (a * PAGE_SIZE) (Z.lor BRK_FLAGS PTE_PRESENT)) in *.
  specialize (IH (addr + PAGE_SIZE) (upd (vpn addr) v f) s2 Hs2). unfold PAGE_SIZE in IH at 2 3 4.
  assert (Ha' : aligned (addr + PAGE_SIZE)) by (unfold aligned in *; by rewrite Z.add_mod, Ha).
  specialize (IH Ha' ltac:(lia) ltac:(lia)). destruct (brk_grow n root (addr + PAGE_SIZE) s2) as [ok s'].
  destruct IH as (k & f' & Hk & Hok & [Hg Hsp Hzs Hkept Hfr']).
  destruct (grown_first addr k BRK_FLAGS f f' v Ha Hr ltac:(lia) Hpr ltac:(by exists a) Hg) as [Hg' Ev].
  exists (k + 1), f'. split_and!; [lia|lia| |split].
  - rewrite Hok. destruct (Z.eqb_spec k (Z.of_nat n)), (Z.eqb_spec (k + 1) (Z.of_nat (S n))); done || lia.
  - done.
  - done.
  - apply zeroed_first; [done|done|lia| |done]. rewrite Ev. unfold v. rewrite frame_no_mapped by (done || lia).
    intros i Hi. rewrite Hkept; [by apply Hz|lia| |done]. set_solver.
  - intros p i Hp Hnf Hi. rewrite Hkept; [|done|set_solver|done]. apply Hother; [done| |done]. intros ->. done.
  - set_solver.
Qed.

Lemma vm_ok_brk others asp f s s' b f' :
  vm_ok others asp f s -> space (pt asp) others f' (mm s') -> vm_ok others (with_brk b asp) f' s'.
Proof. intros [H1 [H2 H3] _] Hs. by split. Qed.

Lemma vm_ok_machine others others' asp f s s' f' :
  vm_ok others asp f s -> space (pt asp) others' f' (mm s') -> vm_ok others' asp f' s'.
Proof. intros [H1 H2 _] Hs. by split. Qed.

Lemma align_up_bounds addr :
  0 <= addr <= 2 ^ 47 -> aligned (ALIGN_UP addr PAGE_SIZE) /\ addr <= ALIGN_UP addr PAGE_SIZE <= 2 ^ 47.
Proof.
  intros Ha. rewrite ALIGN_UP_page by (unfold PAGE_SIZE; lia). unfold aligned. rewrite Z.mod_mul by done. split; [done|].
  unfold PAGE_SIZE. pose proof (Z.div_mod (addr + (4096 - 1)) 4096 ltac:(lia)).
  pose proof (Z.mod_pos_bound (addr + (4096 - 1)) 4096 ltac:(lia)). split; [lia|].
  enough ((addr + (4096 - 1)) / 4096 < 2 ^ 35 + 1) by lia. apply Z.div_lt_upper_bound; lia.
Qed.

Lemma pages_aligned lo hi : aligned lo -> aligned hi -> pages lo hi = (hi - lo) / PAGE_SIZE /\ (hi - lo) / PAGE_SIZE * PAGE_SIZE = hi - lo.
Proof.
  unfold aligned, pages, PAGE_SIZE. intros Hlo Hhi.
  pose proof (Z.div_mod lo 4096 ltac:(lia)). pose proof (Z.div_mod hi 4096 ltac:(lia)).
  replace (hi - lo) with ((hi / 4096 - lo / 4096) * 4096) by lia. rewrite Z.div_mul, Z.div_add_l by lia.
  change ((4096 - 1) / 4096) with 0. lia.
Qed.

(** A mapped page at the break blocks every growth. *)
Lemma brk_blocked others asp f s addr :
  vm_ok others asp f s -> user_page (vpn (brk_end asp)) -> present (f (vpn (brk_end asp))) = true ->
  brk_start asp <= brk_end asp -> 0 <= brk_end asp -> brk_end asp < ALIGN_UP addr PAGE_SIZE ->
  vmm_brk addr asp s = (u64 (-1), asp, s).
Proof.
  intros Hok Hu Hpr Hbs Hb0 Hgt. unfold vmm_brk. destruct (Z.eqb_spec addr 0) as [->|]; [by apply Z.lt_nge in Hgt|].
  rewrite (proj2 (Z.ltb_ge (ALIGN_UP addr PAGE_SIZE) (brk_start asp))) by lia. rewrite Z.gtb_ltb, (proj2 (Z.ltb_lt _ _)) by done.
  assert (0 < pages (brk_end asp) (ALIGN_UP addr PAGE_SIZE)).
  { unfold pages, PAGE_SIZE. apply Z.div_str_pos. unfold PAGE_SIZE in Hgt. lia. }
  replace (Z.to_nat (pages _ _)) with (S (pred (Z.to_nat (pages (brk_end asp) (ALIGN_UP addr PAGE_SIZE))))) by lia.
  cbn [brk_grow]. destruct (space_resolve _ _ _ _ (brk_end asp) (vk_space _ _ _ _ Hok) Hu) as [-> _]. by rewrite Hpr.
Qed.

(** [vmm_brk] moves the break.  Growing maps every page between the old and
    the new break, all of them unmapped before, to a zeroed frame of its own,
    writable by the user; shrinking gives the pages back; the memory of frames in
    use does not change.  A request below the heap is refused.  A growth that
    fails leaves the break but also the pages mapped so far, and from then on
    every growth is refused. *)
Theorem vmm_brk_correct others asp f s addr :
  vm_ok others asp f s -> aligned (brk_start asp) -> aligned (brk_end asp) ->
  0 <= brk_start asp <= brk_end asp -> brk_end asp <= 2 ^ 47 -> 0 <= addr <= 2 ^ 47 ->
  let new_brk := ALIGN_UP addr PAGE_SIZE in
  let n := (new_brk - brk_end asp) / PAGE_SIZE in
  let '(ret, asp', s') := vmm_brk addr asp s in
  if addr =? 0 then (ret, asp', s') = (brk_end asp, asp, s)
  else if new_brk <? brk_start asp then (ret, asp', s') = (u64 (-1), asp, s)
  else if new_brk <=? brk_end asp then
    ret = new_brk /\ asp' = with_brk new_brk asp /\
    vm_ok others asp' (cleared (in_pages new_brk (brk_end asp)) f) s' /\
    released (in_pages new_brk (brk_end asp)) f (mm s) (mm s') /\ ram s' = ram s
  else exists k f', 0 <= k <= n /\ brk_grown (pt asp) others f s (brk_end asp) k f' s' /\ vm_ok others asp' f' s' /\
    if k =? n then ret = new_brk /\ asp' = with_brk new_brk asp
    else ret = u64 (-1) /\ asp' = asp /\
      (0 < k -> forall addr', brk_end asp < ALIGN_UP addr' PAGE_SIZE -> vmm_brk addr' asp' s' = (u64 (-1), asp', s')).
Proof.
  intros Hok Has Hae Hse He Ha new_brk n. destruct (align_up_bounds addr Ha) as [Hal Hle]. fold new_brk in Hal, Hle.
  unfold vmm_brk. fold new_brk. destruct (Z.eqb_spec addr 0); [done|]. rewrite Z.gtb_ltb.
  destruct (Z.ltb_spec new_brk (brk_start asp)); [done|]. destruct (Z.ltb_spec (brk_end asp) new_brk) as [Hgt|Hngt].
  - rewrite (proj2 (Z.leb_gt _ _)) by lia. destruct (pages_aligned (brk_end asp) new_brk Hae Hal) as [Hpg Hn].
    fold n in Hpg, Hn. rewrite Hpg. assert (Hn0 : 0 < n) by (unfold PAGE_SIZE in Hn; lia).
    pose proof (brk_grow_spec (pt asp) others (Z.to_nat n) (brk_end asp) f s (vk_space _ _ _ _ Hok) Hae ltac:(lia) ltac:(lia)) as Hg.
    destruct (brk_grow (Z.to_nat n) (pt asp) (brk_end asp) s) as [ok s']. destruct Hg as (k & f' & Hk & -> & Hg).
    rewrite Z2Nat.id in * by lia. destruct (Z.eqb_spec k n) as [->|Hne].
    + exists n, f'. rewrite Z.eqb_refl. split_and!; try done; try lia. apply (vm_ok_brk _ _ f s); [done|apply Hg].
    + assert (Hok' : vm_ok others asp f' s') by (apply (vm_ok_machine others _ _ f s); [done|apply Hg]).
      exists k, f'. rewrite (proj2 (Z.eqb_neq k n)) by done. split_and!; try done; try lia. intros Hk0 addr' Hgt'.
      assert (Hb47 : 0 <= brk_end asp < 2 ^ 47) by lia. destruct (user_vpn (brk_end asp) Hb47) as [_ Hu].
      apply (brk_blocked others asp f'); try done; try lia.
      pose proof (bg_grown _ _ _ _ _ _ _ _ Hg (vpn (brk_end asp)) Hu) as Hp.
      replace k with (k - 1 + 1) in Hp by lia. rewrite in_pages_first, Z.eqb_refl in Hp by (done || lia).
      destruct Hp as (_ & a & _ & ->). unfold present. apply pte_make_present.
  - rewrite (proj2 (Z.leb_le _ _)) by lia. destruct (Z.ltb_spec new_brk (brk_end asp)).
    + destruct (drop_pages_spec (pt asp) others f s new_brk (brk_end asp) (vk_space _ _ _ _ Hok) Hal Hae ltac:(lia) He) as [Hd1 Hd2 Hd3 _].
      split_and!; try done. by apply (vm_ok_brk _ _ f s).
    + assert (E : new_brk = brk_end asp) by lia. rewrite E.
      assert (Hd : dropped (pt asp) others (in_pages (brk_end asp) (brk_end asp)) f s s).
      { eapply dropped_ext; [|apply dropped_none; apply Hok]. intros w _. symmetry. rewrite <- (in_pages_none (brk_end asp) w) at 1. f_equal. lia. }
      destruct Hd as [Hd1 Hd2 _ _]. split_and!; try done. by apply (vm_ok_brk _ _ f s).
Qed.

(** ** Page faults *)

Lemma prot_flags prot : 0 <= vmm_prot_to_pte_flags prot < 2 ^ 64 /\ Z.land (vmm_prot_to_pte_flags prot) PAGE_FRAME_MASK = 0.
Proof. unfold vmm_prot_to_pte_flags. by destruct (flagb prot PROT_WRITE). Qed.

Lemma with_mm_id s : with_mm (mm s) s = s.
Proof. by destruct s. Qed.

Lemma copy_page a b r :
  0 <= a < 2 ^ 20 -> 0 <= b < 2 ^ 20 -> a <> b ->
  let r' := memcpy (PHYS_TO_VIRT (a * PAGE_SIZE)) (PHYS_TO_VIRT (b * PAGE_SIZE)) PAGE_SIZE r in
  (forall i, 0 <= i < PAGE_SIZE -> load8 (page_byte a i) r' = load8 (page_byte b i) r) /\
  forall p i, 0 <= p < 2 ^ 20 -> p <> a -> 0 <= i < PAGE_SIZE -> load8 (page_byte p i) r' = load8 (page_byte p i) r.
Proof.
  intros Ha Hb Hne r'. pose proof (memcpy_spec (page_byte a 0) (page_byte b 0) PAGE_SIZE r ltac:(done)) as Hc.
  assert (Hd : page_byte a 0 <= page_byte b 0 \/ page_byte b 0 + PAGE_SIZE <= page_byte a 0)
    by (rewrite !page_byte_eq by done; unfold PAGE_SIZE; lia).
  specialize (Hc Hd). rewrite <- !page_start in Hc. fold r' in Hc. split.
  - intros i Hi. rewrite Hc, page_start, other_page, Z.eqb_refl by done. f_equal. unfold page_byte. lia.
  - intros p i Hp Hnp Hi. rewrite Hc, page_start, other_page by done. by rewrite (proj2 (Z.eqb_neq p a)).
Qed.

Lemma frame_no_mul e : pte_get_frame e = frame_no e * PAGE_SIZE.
Proof.
  unfold frame_no, pte_get_frame. change PAGE_SIZE with (2 ^ 12).
  rewrite <- Z.shiftl_mul_pow2, <- Z.shiftr_div_pow2 by lia. apply Z.bits_inj'. intros i Hi.
  rewrite Z.shiftl_spec, Z.land_spec, testbit_mask by lia. destruct (Z.lt_ge_cases i 12).
  - rewrite (Z.testbit_neg_r _ (i - 12)) by lia. rewrite (proj2 (Z.leb_gt 12 i)) by lia. apply andb_false_r.
  - rewrite Z.shiftr_spec, Z.land_spec, testbit_mask by lia. by replace (i - 12 + 12) with i by lia.
Qed.

Lemma resolve_aligned root others f m addr :
  space root others f m -> user_page (vpn addr) -> present (f (vpn addr)) = true ->
  mmu_resolve root (ALIGN_DOWN addr PAGE_SIZE) m = frame_no (f (vpn addr)) * PAGE_SIZE.
Proof.
  intros Hs Hu Hpr. rewrite <- vpn_align in Hu. rewrite (proj1 (space_read _ _ _ _ _ Hs Hu)), vpn_align, Hpr.
  replace (Z.land (ALIGN_DOWN addr PAGE_SIZE) PAGE_OFFSET_MASK) with 0.
  2:{ change PAGE_OFFSET_MASK with (Z.ones 12). rewrite Z.land_ones, ALIGN_DOWN_page by lia.
      change PAGE_SIZE with (2 ^ 12). by rewrite Z.mod_mul by lia. }
  rewrite Z.lor_0_r. apply frame_no_mul.
Qed.

(** A fresh frame mapped in place of the page's old one, if any. *)
Record fault_done others asp f s (w flags : Z) (s' : machine St) : Prop := {
  fd_frame : exists a, 0 < a < 2 ^ 20 /\ a ∈ pa_frames (pmem (mm s)) /\
    vm_ok (if present (f w) then {[frame_no (f w)]} ∪ others else others) asp
      (upd w (pte_make (a * PAGE_SIZE) (Z.lor flags PTE_PRESENT)) f) s' /\
    if present (f w)
    then forall i, 0 <= i < PAGE_SIZE -> load8 (page_byte a i) (ram s') = load8 (page_byte (frame_no (f w)) i) (ram s)
    else zero_page a (ram s');
  fd_kept : ram_kept (mm s) (ram s) (ram s')
}.

Lemma union_swap (a b : Z) (X : gset Z) : {[a]} ∪ ({[b]} ∪ X) = {[b]} ∪ ({[a]} ∪ X).
Proof. set_solver. Qed.

(** The copy-on-write branch. *)
Lemma fault_cow others asp f s addr flags :
  vm_ok others asp f s -> user_page (vpn addr) -> present (f (vpn addr)) = true ->
  0 <= flags < 2 ^ 64 -> Z.land flags PAGE_FRAME_MASK = 0 ->
  let page_addr := ALIGN_DOWN addr PAGE_SIZE in
  let '(new_phys, m1) := alloc_page (mm s) in
  new_phys = 0 /\ m1 = mm s \/ new_phys <> 0 /\
  fault_done others asp f s (vpn addr) flags
    (Machine (mmu_map (pt asp) page_addr new_phys flags (mmu_unmap (pt asp) page_addr m1).2).2
       (memcpy (PHYS_TO_VIRT new_phys) (PHYS_TO_VIRT (mmu_resolve (pt asp) page_addr (mm s))) PAGE_SIZE (ram s)) (allocs s)).
Proof.
  intros Hok Hu Hpr Hf Hmask page_addr. pose proof (vk_space _ _ _ _ Hok) as Hs.
  unfold page_addr. rewrite (resolve_aligned _ _ _ _ addr Hs Hu Hpr). fold page_addr.
  assert (Ev : vpn page_addr = vpn addr) by apply vpn_align. pose proof (space_alloc _ _ _ _ Hs) as Ha.
  destruct (alloc_page (mm s)) as [new_phys m1]. destruct Ha as [?|(a & -> & Hr & Hin & Hfr & Hman & Hno & Hs1)]; [by left|right].
  split; [unfold PAGE_SIZE; lia|]. destruct (se_page _ _ _ _ Hs _ Hu Hpr) as (Hfn & Hnf & _ & _).
  assert (Hne : a <> frame_no (f (vpn addr))) by congruence.
  rewrite <- Ev in Hu, Hpr. destruct (space_unmap _ _ _ _ page_addr Hs1 Hu Hpr) as [Hs2 Hpm]. rewrite union_swap in Hs2.
  pose proof (space_map _ _ _ _ a page_addr flags Hs2 Hu Hr) as Hm. rewrite Hpm, Ev in Hm.
  specialize (Hm ltac:(rewrite not_elem_of_union, elem_of_singleton; done) Hman Hf Hmask).
  destruct (se_tree _ _ _ _ Hs1) as (sh & Hpt & _).
  pose proof (remap_ok (pt asp) sh m1 page_addr (a * PAGE_SIZE) flags Hpt Hu) as Hret.
  rewrite (se_entry _ _ _ _ Hs1) in Hret by done. specialize (Hret Hpr).
  destruct (mmu_map (pt asp) page_addr (a * PAGE_SIZE) flags (mmu_unmap (pt asp) page_addr m1).2) as [ret m3]. cbn [fst snd] in *. subst ret.
  destruct Hm as (_ & _ & Hm). unfold upd in Hm at 1. rewrite decide_True in Hm by done. cbn in Hm.
  destruct Hm as [[_ Hs3]|[? _]]; [|done]. rewrite Ev in Hpr. destruct (copy_page a (frame_no (f (vpn addr))) (ram s)) as [Hc1 Hc2]; [lia|lia|done|].
  split.
  - exists a. split_and!; [lia|lia|done| |]; rewrite Hpr; [|done]. apply (vm_ok_machine others _ asp f s); [done|].
    eapply space_ext; [|exact Hs3]. intros w _. unfold upd. by case_decide.
  - intros p i Hp Hnp Hi. apply Hc2; [done| |done]. intros ->. done.
Qed.

(** No page for the fault: none for the frame, or none for a table on the way to
    a page that is not mapped. *)
Definition fault_exhausted asp f s (addr flags : Z) : Prop :=
  exhausted (mm s) \/
  present (f (vpn addr)) = false /\
    let '(phys, m) := alloc_page (mm s) in exhausted (mmu_map (pt asp) (ALIGN_DOWN addr PAGE_SIZE) phys flags m).2.

(** C38. [vmm_handle_page_fault]: an address in no area is refused with [EFAULT]
    and a write to an area without write permission with [EACCES].  Otherwise an
    unmapped page gets a zeroed frame of its own and a copy-on-write page a
    private copy of its frame, with the protection of the area; a page that is
    mapped and not copy-on-write is reported as [EEXIST].  It fails with [ENOMEM]
    only when the page allocator has no page left for the frame or for a table.
    Frames in use keep their contents, and a failure leaves the page table as it
    was. *)
Theorem vmm_page_fault_correct others asp f s addr error_code :
  vm_ok others asp f s -> 0 <= addr ->
  let w := vpn addr in
  let '(ret, s') := vmm_handle_page_fault addr error_code asp s in
  match vmm_find_vma asp addr with
  | None => view (vma_list asp) addr = None /\ (ret, s') = (- EFAULT, s)
  | Some v => view (vma_list asp) addr = Some (attr v addr) /\
    if flagb error_code 2 && negb (flagb (vm_flags v) VMA_WRITE) then (ret, s') = (- EACCES, s)
    else
      ret = 0 /\ (present (f w) = true -> flagb (f w) PTE_COW = true) /\
        fault_done others asp f s w (vmm_prot_to_pte_flags (vm_prot v)) s' \/
      (ret = - ENOMEM /\ fault_exhausted asp f s addr (vmm_prot_to_pte_flags (vm_prot v)) \/
       ret = - EEXIST /\ present (f w) = true /\ flagb (f w) PTE_COW = false) /\
        vm_ok others asp f s' /\ ram_kept (mm s) (ram s) (ram s')
  end.
Proof.
  intros Hok Ha w. pose proof (vk_areas _ _ _ _ Hok) as Har. pose proof (vk_space _ _ _ _ Hok) as Hs.
  pose proof (find_vma_spec 0 (vma_list asp) addr Har) as Hfind. unfold vmm_handle_page_fault, vmm_find_vma.
  destruct (find_vma addr (vma_list asp)) as [v|].
  2:{ split; [|done]. destruct (view (vma_list asp) addr) eqn:E; [|done]. apply view_elem in E as (u & Hu & Hc & _). by rewrite Hfind in Hc. }
  destruct Hfind as [Hin Hcov]. destruct (areas_elem _ _ _ Har Hin) as [[Hvr Hve _] _]. unfold USER_SPACE_END in Hve.
  apply covers_true in Hcov as Hcov'. assert (Hr : 0 <= addr < 2 ^ 47) by lia. destruct (user_vpn addr Hr) as [_ Hu]. fold w in Hu.
  assert (Hview : view (vma_list asp) addr = Some (attr v addr)) by (by apply (view_covered 0)).
  destruct (flagb error_code 2 && negb (flagb (vm_flags v) VMA_WRITE)); [done|].
  destruct (prot_flags (vm_prot v)) as [Hf Hmask]. set (flags := vmm_prot_to_pte_flags (vm_prot v)) in *.
  set (page_addr := ALIGN_DOWN addr PAGE_SIZE). assert (Ev : vpn page_addr = w) by apply vpn_align.
  rewrite <- Ev in Hu. destruct (space_resolve _ _ _ _ page_addr Hs Hu) as [Hres _]. rewrite Hres, negb_involutive, Ev.
  replace (flagb (mmu_get_flags (pt asp) page_addr (mm s)) PTE_COW) with (flagb (f w) PTE_COW).
  2:{ rewrite (proj2 (space_read _ _ _ _ page_addr Hs Hu)), Ev. unfold flagb. rewrite <- Z.land_assoc. done. }
  rewrite Ev in Hu.
  destruct (present (f w) && flagb (f w) PTE_COW) eqn:Ecow.
  - apply andb_true_iff in Ecow as [Hpr Hcow].
    pose proof (fault_cow others asp f s addr flags Hok Hu Hpr Hf Hmask) as Hc. fold page_addr w in Hc. unfold pmm_page.
    unfold fault_exhausted, exhausted. destruct (alloc_page (mm s)) as [new_phys m1]. destruct Hc as [[-> ->]|[Hnz Hc]].
    + rewrite with_mm_id. cbn. split; [done|]. right. split_and!; [by left; split; [|left]|done|done].
    + rewrite (proj2 (Z.eqb_neq _ _)) by done. split; [done|]. left. split_and!; [done|done|exact Hc].
  - unfold pmm_page. pose proof (fresh_map (pt asp) others f (mm s) page_addr flags Hs) as Hm. rewrite Ev in Hm.
    specialize (Hm Hu Hf Hmask). cbv zeta in Hm. unfold fault_exhausted, exhausted. destruct (alloc_page (mm s)) as [phys m1].
    destruct Hm as [[-> ->]|(a & -> & Har' & Hina & Hm)].
    { rewrite with_mm_id. cbn. split; [done|]. right. split_and!; [by left; split; [|left]|done|done]. }
    destruct (Z.eqb_spec (a * PAGE_SIZE) 0); [unfold PAGE_SIZE in *; lia|]. cbn [with_mm with_ram mm ram].
    destruct (memset_page a (ram s) ltac:(lia)) as [Hz Hother].
    assert (Hk : ram_kept (mm s) (ram s) (memset (PHYS_TO_VIRT (a * PAGE_SIZE)) 0 PAGE_SIZE (ram s))).
    { intros p i Hp Hnp Hi. apply Hother; [done| |done]. intros ->. done. }
    fold page_addr w. destruct (mmu_map (pt asp) page_addr (a * PAGE_SIZE) flags m1) as [ret m2].
    destruct Hm as [(-> & Hpr & Hs2 & _)|(-> & Hex & Hs2 & _)].
    + cbn. split; [done|]. left. split_and!; [done|congruence|]. split; [|done]. exists a. rewrite Hpr.
      split_and!; [lia|lia|done|by apply (vm_ok_machine others _ asp f s)|done].
    + destruct (present (f w)) eqn:Hpr; cbn in Ecow; cbn; (split; [done|right]);
        (split_and!; [|by apply (vm_ok_machine others _ asp f s)|done]); [by right|left].
      split; [done|]. right. split; [done|]. by apply Hex.
Qed.

(** ** Access checks *)

(** A page the user may read, or write. *)
Definition accessible (write : bool) (e : Z) : bool :=
  present e && flagb e PTE_USER && (negb write || flagb e PTE_WRITABLE).

Lemma verify_pages_spec root others f s write : space root others f (mm s) -> forall n page,
  aligned page -> 0 <= page -> page + Z.of_nat n * PAGE_SIZE <= 2 ^ 47 ->
  let ret := verify_pages n root page write s in
  (ret = 0 \/ ret = - EFAULT) /\
  (ret = 0 <-> forall w, in_pages page (page + Z.of_nat n * PAGE_SIZE) w = true -> accessible write (f w) = true).
Proof.
  intros Hs. induction n as [|n IH]; intros page Ha H0 Hb; cbn [verify_pages].
  { split; [by left|]. split; [|done]. intros _ w Hw. by rewrite in_pages_none in Hw. }
  unfold PAGE_SIZE in Hb. assert (Hr : 0 <= page < 2 ^ 47) by lia. destruct (user_vpn page Hr) as [_ Hu].
  destruct (space_resolve _ _ _ _ page Hs Hu) as [-> _]. rewrite (proj2 (space_read _ _ _ _ page Hs Hu)).
  assert (Hfl : forall x, Z.land (u64 (Z.lnot PAGE_FRAME_MASK)) x = x ->
    flagb (Z.land (f (vpn page)) (u64 (Z.lnot PAGE_FRAME_MASK))) x = flagb (f (vpn page)) x).
  { intros x Hx. unfold flagb. by rewrite <- Z.land_assoc, Hx. }
  rewrite !Hfl by done. fold (present (f (vpn page))).
  assert (Hhead : in_pages page (page + Z.of_nat (S n) * PAGE_SIZE) (vpn page) = true).
  { replace (Z.of_nat (S n)) with (Z.of_nat n + 1) by lia. by rewrite in_pages_first, Z.eqb_refl by (done || lia). }
  assert (Hbad : accessible write (f (vpn page)) = false ->
    (- EFAULT = 0 \/ - EFAULT = - EFAULT) /\ (- EFAULT = 0 <->
      forall w, in_pages page (page + Z.of_nat (S n) * PAGE_SIZE) w = true -> accessible write (f w) = true)).
  { intros E. split; [by right|]. split; [done|]. intros Hall. by rewrite (Hall _ Hhead) in E. }
  unfold accessible in Hbad at 1. destruct (present (f (vpn page))) eqn:Hpr; cbn [negb orb andb] in *; [|by apply Hbad].
  destruct (flagb (f (vpn page)) PTE_USER) eqn:Hus; cbn [negb orb andb] in *; [|by apply Hbad].
  destruct (write && negb (flagb (f (vpn page)) PTE_WRITABLE)) eqn:Hwr.
  { apply Hbad. apply andb_true_iff in Hwr as [-> ->%negb_true_iff]. done. }
  assert (Ha' : aligned (page + PAGE_SIZE)) by (unfold aligned in *; by rewrite Z.add_mod, Ha).
  destruct (IH (page + PAGE_SIZE) Ha') as [H1 H2]; [unfold PAGE_SIZE; lia|unfold PAGE_SIZE; lia|]. split; [done|]. rewrite H2.
  replace (Z.of_nat (S n)) with (Z.of_nat n + 1) by lia. split; intros Hall w Hw.
  - rewrite in_pages_first in Hw by (done || lia). apply orb_true_iff in Hw as [->%Z.eqb_eq|Hw]; [|by apply Hall].
    unfold accessible. rewrite Hpr, Hus. by destruct write, (flagb (f (vpn page)) PTE_WRITABLE).
  - apply Hall. rewrite in_pages_first, Hw, orb_true_r by (done || lia). done.
Qed.

(** The pages of a byte range. *)
Lemma range_pages addr size :
  0 <= addr -> 0 < size -> addr + size <= 2 ^ 47 ->
  let page := ALIGN_DOWN addr PAGE_SIZE in
  let n := pages page (addr + size) in
  aligned page /\ 0 <= page /\ 0 <= n /\ page + n * PAGE_SIZE <= 2 ^ 47 /\
  forall w, in_pages page (page + n * PAGE_SIZE) w = true <-> exists a, addr <= a < addr + size /\ vpn a = w.
Proof.
  intros Ha Hsz Hb page n. unfold n, pages, page. rewrite ALIGN_DOWN_page. unfold aligned. rewrite Z.mod_mul by done.
  unfold in_pages, PAGE_SIZE in *. set (q := addr / 4096).
  pose proof (Z.div_mod addr 4096 ltac:(lia)) as Hd. pose proof (Z.mod_pos_bound addr 4096 ltac:(lia)) as Hm. fold q in Hd.
  set (k := (addr + size - q * 4096 + (4096 - 1)) / 4096).
  pose proof (Z.div_mod (addr + size - q * 4096 + (4096 - 1)) 4096 ltac:(lia)) as Hd2.
  pose proof (Z.mod_pos_bound (addr + size - q * 4096 + (4096 - 1)) 4096 ltac:(lia)) as Hm2. fold k in Hd2.
  split_and!; [done|lia|lia|lia|]. intros w. rewrite andb_true_iff, Z.leb_le, Z.ltb_lt. split.
  - intros Hw. exists (Z.max addr (w * 4096)). split; [lia|].
    destruct (user_vpn (Z.max addr (w * 4096)) ltac:(lia)) as [-> _]. unfold PAGE_SIZE.
    symmetry. apply Z.div_unique with (Z.max addr (w * 4096) - w * 4096); lia.
  - intros (a & Har & <-). destruct (user_vpn a ltac:(lia)) as [-> _]. unfold PAGE_SIZE.
    pose proof (Z.div_mod a 4096 ltac:(lia)). pose proof (Z.mod_pos_bound a 4096 ltac:(lia)). lia.
Qed.

Lemma verify_spec others asp f s addr size write :
  vm_ok others asp f s -> pt asp <> 0 -> 0 <= addr -> 0 <= size ->
  let ret := vmm_verify_user_range (Some asp) addr size write s in
  (ret = 0 \/ ret = - EFAULT \/ ret = - EINVAL) /\
  (ret = 0 <-> addr <> 0 /\ (size = 0 \/ size <= 0x7ffff000 /\ addr + size <= USER_SPACE_END /\
     forall a, addr <= a < addr + size -> accessible write (f (vpn a)) = true)).
Proof.
  intros Hok Hpt Ha Hsz. unfold vmm_verify_user_range, zig_user_copy_len_ok, zig_u64_add_ok, USER_SPACE_END.
  destruct (Z.eqb_spec addr 0); [split; [by right; left|]; split; [done|lia]|].
  destruct (Z.eqb_spec size 0); [split; [by left|]; split; [auto|done]|]. rewrite !Z.gtb_ltb, !Z.geb_leb.
  destruct (Z.ltb_spec 0x7ffff000 size); cbn [Z.eqb negb]; [split; [by right; right|]; split; [done|lia]|].
  destruct (Z.leb_spec 0x800000000000 addr); [split; [by right; left|]; split; [done|lia]|].
  rewrite (proj2 (Z.eqb_neq (pt asp) 0)) by done. rewrite (proj2 (Z.leb_gt (2 ^ 64) (addr + size))) by lia. cbn [Z.eqb negb orb].
  rewrite u64_small by lia. destruct (Z.ltb_spec 0x800000000000 (addr + size)); [split; [by right; left|]; split; [done|lia]|].
  destruct (range_pages addr size Ha ltac:(lia) ltac:(lia)) as (Hal & Hp0 & Hn0 & Hmax & Hpg).
  set (page := ALIGN_DOWN addr PAGE_SIZE) in *. set (k := pages page (addr + size)) in *.
  destruct (verify_pages_spec (pt asp) others f s write (vk_space _ _ _ _ Hok) (Z.to_nat k) page Hal Hp0) as [Hv1 Hv2]; [by rewrite Z2Nat.id|].
  rewrite Z2Nat.id in Hv2 by done. split; [destruct Hv1 as [-> | ->]; auto|]. rewrite Hv2. split.
  - intros Hall. split; [done|]. right. split_and!; [lia|lia|]. intros a Har. apply Hall, Hpg. by exists a.
  - intros [_ [?|(_ & _ & Hall)]]; [done|]. intros w (a & Har & <-)%Hpg. by apply Hall.
Qed.

(** ** Copies *)

(** A copy between two families of addresses that do not meet. *)
Lemma scatter_spec (d g : Z -> Z) n r :
  0 <= n -> (forall i j, 0 <= i < n -> 0 <= j < n -> d i = d j -> i = j) ->
  (forall i j, 0 <= i < n -> 0 <= j < n -> d i <> g j) ->
  let r' := for_range 0 n (fun i r => store8 (d i) (load8 (g i) r) r) r in
  (forall i, 0 <= i < n -> load8 (d i) r' = load8 (g i) r) /\
  forall b, (forall i, 0 <= i < n -> d i <> b) -> load8 b r' = load8 b r.
Proof.
  intros Hn Hinj Hdis r'.
  assert (Hk : (forall i, 0 <= i < n -> i < n -> load8 (d i) r' = load8 (g i) r) /\
    forall b, (forall i, 0 <= i < n -> i < n -> d i <> b) -> load8 b r' = load8 b r).
  { unfold r'. apply (for_range_inv (fun k r' => (forall i, 0 <= i < n -> i < k -> load8 (d i) r' = load8 (g i) r) /\
      forall b, (forall i, 0 <= i < n -> i < k -> d i <> b) -> load8 b r' = load8 b r)); [done|split; [lia|done]|].
    intros k r1 Hk [H1 H2]. split.
    - intros i Hi Hik. rewrite load8_store8. destruct (Z.eqb_spec (d i) (d k)) as [E|E].
      + apply Hinj in E; [|done|lia]. subst i. rewrite (H2 (g k)) by (intros j Hj _; apply Hdis; lia). apply u8_small, u8_range.
      + apply H1; [done|]. destruct (decide (i = k)) as [->|]; [done|lia].
    - intros b Hb. rewrite load8_store8. destruct (Z.eqb_spec b (d k)) as [->|]; [exfalso; by apply (Hb k ltac:(lia) ltac:(lia))|].
      apply H2. intros i Hi Hik. apply Hb; [done|lia]. }
  destruct Hk as [H1 H2]. split; [intros i Hi; apply H1; lia|]. intros b Hb. apply H2. intros i Hi _. by apply Hb.
Qed.

Lemma user_byte_eq others asp f s a :
  vm_ok others asp f s -> 0 <= a < 2 ^ 47 -> present (f (vpn a)) = true ->
  user_byte (pt asp) a s = page_byte (frame_no (f (vpn a))) (a mod PAGE_SIZE) /\ 0 < frame_no (f (vpn a)) < 2 ^ 20.
Proof.
  intros Hok Ha Hpr. pose proof (vk_space _ _ _ _ Hok) as Hs. destruct (user_vpn a Ha) as [_ Hu].
  destruct (se_page _ _ _ _ Hs _ Hu Hpr) as (Hfn & _). split; [|done].
  unfold user_byte. rewrite (proj1 (space_read _ _ _ _ a Hs Hu)), Hpr, frame_no_mul.
  change PAGE_OFFSET_MASK with (Z.ones 12). rewrite Z.land_ones by lia. change PAGE_SIZE with (2 ^ 12) at 1.
  rewrite <- Z.shiftl_mul_pow2, <- Z.lxor_lor, <- Z.add_nocarry_lxor by (lia || by apply shiftl_land_mod).
  rewrite Z.shiftl_mul_pow2 by lia. change (2 ^ 12) with PAGE_SIZE.
  unfold page_byte, PHYS_TO_VIRT. pose proof (Z.mod_pos_bound a PAGE_SIZE ltac:(done)).
  unfold KERNEL_PHYS_MAP_BASE, PAGE_SIZE in *. rewrite !u64_small by lia. lia.
Qed.

Lemma user_byte_inj others asp f s a a' :
  vm_ok others asp f s -> 0 <= a < 2 ^ 47 -> 0 <= a' < 2 ^ 47 -> present (f (vpn a)) = true -> present (f (vpn a')) = true ->
  user_byte (pt asp) a s = user_byte (pt asp) a' s -> a = a'.
Proof.
  intros Hok Ha Ha' Hp Hp'. destruct (user_byte_eq _ _ _ _ _ Hok Ha Hp) as [-> Hf]. destruct (user_byte_eq _ _ _ _ _ Hok Ha' Hp') as [-> Hf'].
  rewrite !page_byte_eq by lia. intros E. destruct (user_vpn a Ha) as [Ev Hu]. destruct (user_vpn a' Ha') as [Ev' Hu'].
  pose proof (Z.div_mod a PAGE_SIZE ltac:(done)). pose proof (Z.mod_pos_bound a PAGE_SIZE ltac:(done)).
  pose proof (Z.div_mod a' PAGE_SIZE ltac:(done)). pose proof (Z.mod_pos_bound a' PAGE_SIZE ltac:(done)). unfold PAGE_SIZE in *.
  assert (Ef : frame_no (f (vpn a)) = frame_no (f (vpn a'))) by lia.
  pose proof (se_inj _ _ _ _ (vk_space _ _ _ _ Hok) _ _ Hu Hu' Hp Hp' Ef). lia.
Qed.

(** The user may read, or write, the [size] bytes at [addr]. *)
Definition may_access (write : bool) f (addr size : Z) : Prop :=
  addr <> 0 /\ (size = 0 \/ size <= 0x7ffff000 /\ addr + size <= USER_SPACE_END /\
    forall a, addr <= a < addr + size -> accessible write (f (vpn a)) = true).

Lemma may_access_bytes write f addr size a :
  may_access write f addr size -> 0 <= addr -> addr <= a < addr + size -> 0 <= a < 2 ^ 47 /\ present (f (vpn a)) = true.
Proof.
  intros [_ [->|(_ & He & Hacc)]] H0 Ha; [lia|]. unfold USER_SPACE_END in He. split; [lia|].
  specialize (Hacc a Ha). unfold accessible in Hacc. by destruct (present (f (vpn a))).
Qed.

(** C22. The check of user ranges is exact: [vmm_verify_user_range] returns 0
    precisely when the address is not NULL and either the size is zero or the
    range is at most 0x7ffff000 bytes long, ends inside user space, and every
    byte of it is on a page the user may access (and may write, for a write);
    otherwise it returns [EFAULT] or [EINVAL]. *)
Theorem verify_user_range_exact others asp f s addr size write :
  vm_ok others asp f s -> pt asp <> 0 -> 0 <= addr -> 0 <= size ->
  let ret := vmm_verify_user_range (Some asp) addr size write s in
  (ret = 0 \/ ret = - EFAULT \/ ret = - EINVAL) /\ (ret = 0 <-> may_access write f addr size).
Proof. apply verify_spec. Qed.

(** The bytes of user memory at [a]. *)
Definition user_data f (a : Z) (r : memory) : Z := load8 (page_byte (frame_no (f (vpn a))) (a mod PAGE_SIZE)) r.

(** C24. Copies between kernel and user memory: a copy the user may not make is
    refused and changes nothing; otherwise exactly the bytes of the user range
    are read (or written), through the page table, and nothing else in memory
    changes.  The kernel buffer must not lie in the user's own frames. *)
Theorem user_copy_correct others asp f s kbuf ubuf size :
  vm_ok others asp f s -> pt asp <> 0 -> 0 < kbuf -> 0 <= ubuf -> 0 <= size ->
  (forall a i, ubuf <= a < ubuf + size -> 0 <= i < size -> user_byte (pt asp) a s <> kbuf + i) ->
  (let '(ret, s') := vmm_copy_from_user (Some asp) kbuf ubuf size s in
   ret < 0 /\ ~ may_access false f ubuf size /\ s' = s \/
   ret = 0 /\ may_access false f ubuf size /\ mm s' = mm s /\
   (forall i, 0 <= i < size -> load8 (kbuf + i) (ram s') = user_data f (ubuf + i) (ram s)) /\
   (forall b, b < kbuf \/ kbuf + size <= b -> load8 b (ram s') = load8 b (ram s))) /\
  (let '(ret, s') := vmm_copy_to_user (Some asp) ubuf kbuf size s in
   ret < 0 /\ ~ may_access true f ubuf size /\ s' = s \/
   ret = 0 /\ may_access true f ubuf size /\ mm s' = mm s /\
   (forall i, 0 <= i < size -> user_data f (ubuf + i) (ram s') = load8 (kbuf + i) (ram s)) /\
   (forall b, (forall a, ubuf <= a < ubuf + size -> b <> page_byte (frame_no (f (vpn a))) (a mod PAGE_SIZE)) ->
      load8 b (ram s') = load8 b (ram s))).
Proof.
  intros Hok Hpt Hk Hu Hsz Hdis. unfold vmm_copy_from_user, vmm_copy_to_user.
  rewrite !(proj2 (Z.eqb_neq kbuf 0)) by lia. split.
  - destruct (verify_spec others asp f s ubuf size false Hok Hpt Hu Hsz) as [Hret Hiff]. fold (may_access false f ubuf size) in Hiff.
    set (ret := vmm_verify_user_range _ _ _ _ _) in *. destruct (Z.ltb_spec ret 0) as [Hneg|Hpos].
    { left. split_and!; [done| |done]. intros Hacc%Hiff. lia. }
    right. assert (Hacc : may_access false f ubuf size) by (apply Hiff; lia).
    destruct (scatter_spec (fun i => kbuf + i) (fun i => user_byte (pt asp) (ubuf + i) s) size (ram s) Hsz) as [H1 H2];
      [lia|intros i j Hi Hj E; by apply (Hdis (ubuf + j) i ltac:(lia) Hi)|].
    split_and!; [done|done|done| |].
    + intros i Hi. cbn. rewrite H1 by done. unfold user_data.
      destruct (may_access_bytes _ _ _ _ (ubuf + i) Hacc Hu ltac:(lia)) as [Hr Hpr].
      by rewrite (proj1 (user_byte_eq _ _ _ _ _ Hok Hr Hpr)).
    + intros b Hb. cbn. apply H2. lia.
  - destruct (verify_spec others asp f s ubuf size true Hok Hpt Hu Hsz) as [Hret Hiff]. fold (may_access true f ubuf size) in Hiff.
    set (ret := vmm_verify_user_range _ _ _ _ _) in *. destruct (Z.ltb_spec ret 0) as [Hneg|Hpos].
    { left. split_and!; [done| |done]. intros Hacc%Hiff. lia. }
    right. assert (Hacc : may_access true f ubuf size) by (apply Hiff; lia).
    destruct (scatter_spec (fun i => user_byte (pt asp) (ubuf + i) s) (fun i => kbuf + i) size (ram s) Hsz) as [H1 H2].
    + intros i j Hi Hj E. destruct (may_access_bytes _ _ _ _ (ubuf + i) Hacc Hu ltac:(lia)).
      destruct (may_access_bytes _ _ _ _ (ubuf + j) Hacc Hu ltac:(lia)). enough (ubuf + i = ubuf + j) by lia. by eapply user_byte_inj.
    + intros i j Hi Hj. apply Hdis; [lia|done].
    + assert (Eu : forall i, 0 <= i < size -> user_byte (pt asp) (ubuf + i) s = page_byte (frame_no (f (vpn (ubuf + i)))) ((ubuf + i) mod PAGE_SIZE)).
      { intros i Hi. destruct (may_access_bytes _ _ _ _ (ubuf + i) Hacc Hu ltac:(lia)). by eapply user_byte_eq. }
      split_and!; [done|done|done| |].
      * intros i Hi. unfold user_data. rewrite <- Eu by done. by apply H1.
      * intros b Hb. apply H2. intros i Hi. rewrite Eu by done. intros <-. by apply (Hb (ubuf + i) ltac:(lia)).
Qed.

(** ** Mapping *)

Section mmap.
Context (vfs_read : Z -> Z -> Z -> Z -> memory -> Z * memory).
(** A read writes nothing outside its buffer. *)
Context (Hread : forall file buf pos r b, b < buf \/ buf + PAGE_SIZE <= b ->
  load8 b (vfs_read file buf PAGE_SIZE pos r).2 = load8 b r).

Lemma read_page a file pos r p i :
  0 <= a < 2 ^ 20 -> 0 <= p < 2 ^ 20 -> p <> a -> 0 <= i < PAGE_SIZE ->
  load8 (page_byte p i) (vfs_read file (PHYS_TO_VIRT (a * PAGE_SIZE)) PAGE_SIZE pos r).2 = load8 (page_byte p i) r.
Proof.
  intros Ha Hp Hne Hi. apply Hread. rewrite page_start. pose proof (other_page p a i Hp Ha Hi) as E.
  rewrite (proj2 (Z.eqb_neq p a)) in E by done. apply andb_false_iff in E as [E%Z.leb_gt|E%Z.ltb_ge]; lia.
Qed.

(** What a run of [populate] over [k] pages leaves behind. *)
Record populated root others flags f s (vaddr k : Z) f' s' : Prop := {
  pd_grown : grown (in_pages vaddr (vaddr + k * PAGE_SIZE)) flags f f';
  pd_space : space root others f' (mm s');
  pd_kept : ram_kept (mm s) (ram s) (ram s');
  pd_frames : pa_frames (pmem (mm s')) ⊆ pa_frames (pmem (mm s))
}.

(** Frame [p] holds what a read at [pos] put into it after it was zeroed. *)
Definition file_page (file pos p : Z) (r : memory) : Prop :=
  exists r0, let '(ret, r1) := vfs_read file (PHYS_TO_VIRT (p * PAGE_SIZE)) PAGE_SIZE pos (memset (PHYS_TO_VIRT (p * PAGE_SIZE)) 0 PAGE_SIZE r0) in
    0 <= s32 ret /\ forall i, 0 <= i < PAGE_SIZE -> load8 (page_byte p i) r = load8 (page_byte p i) r1.

(** The pages of [lo, hi) hold the file from [off] on. *)
Definition filled (file off lo hi : Z) f' (r : memory) : Prop :=
  forall w, user_page w -> in_pages lo hi w = true -> file_page file (off + (w * PAGE_SIZE - lo)) (frame_no (f' w)) r.

(** Why the page at [vaddr] of a file mapping cannot be had: no frame, a page
    that is mapped already, no page for a table, or a failed read. *)
Definition page_refused (root flags file off vaddr : Z) s : Prop :=
  exhausted (mm s) \/ present (pt_entry (mm s) root (vpn vaddr)) = true \/
  let '(phys, m1) := alloc_page (mm s) in
  let '(ret, m2) := mmu_map root vaddr phys flags m1 in
  ret = - ENOMEM /\ exhausted m2 \/
  ret = 0 /\ s32 (vfs_read file (PHYS_TO_VIRT phys) PAGE_SIZE off (memset (PHYS_TO_VIRT phys) 0 PAGE_SIZE (ram s))).1 < 0.

(** The first [j] pages of the mapping are made and the next one is refused. *)
Definition stuck (root flags file off vaddr j : Z) s : Prop :=
  exists sj, populate vfs_read (Z.to_nat j) root vaddr flags file off s = (true, sj) /\
    page_refused root flags file (off + j * PAGE_SIZE) (vaddr + j * PAGE_SIZE) sj.

Lemma populate_stop root others flags f s vaddr s' :
  space root others f (mm s') -> ram_kept (mm s) (ram s) (ram s') -> pa_frames (pmem (mm s')) ⊆ pa_frames (pmem (mm s)) ->
  populated root others flags f s vaddr 0 f s'.
Proof. intros Hs Hr Hfr. split; [|done|done|done]. intros w _. by rewrite in_pages_none. Qed.

Lemma populate_S n root vaddr flags file off s :
  populate vfs_read (S n) root vaddr flags file off s =
  let '(ok, s1) := populate vfs_read 1 root vaddr flags file off s in
  if ok then populate vfs_read n root (vaddr + PAGE_SIZE) flags file (off + PAGE_SIZE) s1 else (false, s1).
Proof.
  cbn [populate]. destruct (pmm_page s) as [phys s1]. destruct (phys =? 0); [done|].
  destruct (mmu_map _ _ _ _ _) as [ret m]. destruct (negb _); [done|]. destruct (vfs_read _ _ _ _ _) as [rd r]. by destruct (s32 rd <? 0).
Qed.

Lemma stuck_0 root flags file off vaddr s : page_refused root flags file off vaddr s -> stuck root flags file off vaddr 0 s.
Proof. intros Hr. exists s. split; [done|]. by rewrite !Z.add_0_r. Qed.

Lemma stuck_S root flags file off vaddr j s s1 :
  0 <= j -> populate vfs_read 1 root vaddr flags file off s = (true, s1) ->
  stuck root flags file (off + PAGE_SIZE) (vaddr + PAGE_SIZE) j s1 -> stuck root flags file off vaddr (j + 1) s.
Proof.
  intros Hj E (sj & Ej & Hr). exists sj. replace (Z.to_nat (j + 1)) with (S (Z.to_nat j)) by lia.
  rewrite populate_S, E. split; [done|]. replace ((j + 1) * PAGE_SIZE) with (PAGE_SIZE + j * PAGE_SIZE) by lia. by rewrite !Z.add_assoc.
Qed.

(** One page: mapped and filled, or refused. *)
Lemma populate_one root others flags file vaddr off f s :
  0 <= flags < 2 ^ 64 -> Z.land flags PAGE_FRAME_MASK = 0 -> space root others f (mm s) -> aligned vaddr -> 0 <= vaddr < 2 ^ 47 ->
  let '(ok, s') := populate vfs_read 1 root vaddr flags file off s in
  (exists a, 0 < a < 2 ^ 20 /\ present (f (vpn vaddr)) = false /\ (a ∉ pa_frames (pmem (mm s'))) /\
    populated root others flags f s vaddr 1 (upd (vpn vaddr) (pte_make (a * PAGE_SIZE) (Z.lor flags PTE_PRESENT)) f) s' /\
    if ok then file_page file off a (ram s') else page_refused root flags file off vaddr s) \/
  ok = false /\ page_refused root flags file off vaddr s /\ populated root others flags f s vaddr 0 f s'.
Proof.
  intros Hf Hmask Hs Ha Hr. destruct (user_vpn vaddr Hr) as [_ Hu]. cbn [populate]. unfold pmm_page, page_refused, exhausted.
  rewrite (se_entry _ _ _ _ Hs _ Hu). pose proof (fresh_map root others f (mm s) vaddr flags Hs Hu Hf Hmask) as Hm.
  destruct (alloc_page (mm s)) as [phys m1]. destruct Hm as [[-> ->]|(a & -> & Har & Hin & Hm)].
  { cbn. right. split_and!; [done|by left|]. by apply populate_stop. }
  destruct (Z.eqb_spec (a * PAGE_SIZE) 0); [unfold PAGE_SIZE in *; lia|]. cbn [with_mm with_ram mm ram].
  destruct (memset_page a (ram s) ltac:(lia)) as [_ Hother].
  set (r1 := memset (PHYS_TO_VIRT (a * PAGE_SIZE)) 0 PAGE_SIZE (ram s)) in *.
  assert (Hk1 : ram_kept (mm s) (ram s) r1). { intros p i Hp Hnp Hi. apply Hother; [done| |done]. intros ->. done. }
  destruct (mmu_map root vaddr (a * PAGE_SIZE) flags m1) as [ret m2].
  destruct Hm as [(-> & Hpr & Hs2 & Hfr)|(-> & Hex & Hs2 & Hfr)].
  2:{ destruct (present (f (vpn vaddr))); cbn; right; (split_and!; [done| |by apply populate_stop]).
      - right. by left.
      - right; right; left. split; [done|]. by apply Hex. }
  cbn [Z.eqb negb]. pose proof (fun p i => read_page a file off r1 p i ltac:(lia)) as Hk2.
  destruct (vfs_read file (PHYS_TO_VIRT (a * PAGE_SIZE)) PAGE_SIZE off r1) as [rd r2] eqn:Erd. cbn [fst snd] in *.
  assert (Hk : ram_kept (mm s) (ram s) r2).
  { intros p i Hp Hnp Hi. rewrite Hk2; [by apply Hk1|done| |done]. intros ->. done. }
  set (v := pte_make (a * PAGE_SIZE) (Z.lor flags PTE_PRESENT)) in *. change 1 with (0 + 1).
  assert (Hv : exists a, 0 < a < 2 ^ 20 /\ v = pte_make (a * PAGE_SIZE) (Z.lor flags PTE_PRESENT)) by (by exists a).
  assert (Hg : grown (in_pages vaddr (vaddr + (0 + 1) * PAGE_SIZE)) flags f (upd (vpn vaddr) v f)).
  { apply (grown_first vaddr 0 flags f (upd (vpn vaddr) v f) v Ha Hr); [done|done|done|]. intros w _. by rewrite in_pages_none. }
  destruct (Z.ltb_spec (s32 rd) 0); left; (exists a; split_and!; [lia|lia|done|cbn; set_solver|split; [done|done|done|cbn; set_solver]|]).
  - by right; right; right.
  - exists (ram s). fold r1. rewrite Erd. done.
Qed.

Lemma populate_spec root others flags file n :
  0 <= flags < 2 ^ 64 -> Z.land flags PAGE_FRAME_MASK = 0 -> forall vaddr off f s,
  space root others f (mm s) -> aligned vaddr -> 0 <= vaddr -> vaddr + Z.of_nat n * PAGE_SIZE <= 2 ^ 47 ->
  let '(ok, s') := populate vfs_read n root vaddr flags file off s in
  exists k f', 0 <= k <= Z.of_nat n /\ populated root others flags f s vaddr k f' s' /\
    if ok then k = Z.of_nat n /\ filled file off vaddr (vaddr + k * PAGE_SIZE) f' (ram s')
    else exists j, 0 <= j < Z.of_nat n /\ stuck root flags file off vaddr j s.
Proof.
  intros Hf Hmask. induction n as [|n IH]; intros vaddr off f s Hs Ha H0 Hb.
  { exists 0, f. split_and!; [lia|lia|by apply populate_stop|done|]. intros w _. by rewrite in_pages_none. }
  unfold PAGE_SIZE in Hb. assert (Hr : 0 <= vaddr < 2 ^ 47) by lia. rewrite populate_S.
  pose proof (populate_one root others flags file vaddr off f s Hf Hmask Hs Ha Hr) as Hone.
  destruct (populate vfs_read 1 root vaddr flags file off s) as [ok s2] eqn:E1.
  destruct Hone as [(a & Har & Hpr & Hna & Hp & Hdata)|(-> & Href & Hp)].
  2:{ exists 0, f. split_and!; [lia|lia|done|]. exists 0. split; [lia|by apply stuck_0]. }
  set (v := pte_make (a * PAGE_SIZE) (Z.lor flags PTE_PRESENT)) in *.
  destruct ok; [|exists 1, (upd (vpn vaddr) v f); split_and!; [lia|lia|done|]; exists 0; split; [lia|by apply stuck_0]].
  assert (Hv : exists a, 0 < a < 2 ^ 20 /\ v = pte_make (a * PAGE_SIZE) (Z.lor flags PTE_PRESENT)) by (by exists a).
  destruct Hp as [_ Hss Hk Hfr]. assert (Ha' : aligned (vaddr + PAGE_SIZE)) by (unfold aligned in *; by rewrite Z.add_mod, Ha).
  specialize (IH (vaddr + PAGE_SIZE) (off + PAGE_SIZE) (upd (vpn vaddr) v f) s2 Hss Ha' ltac:(unfold PAGE_SIZE; lia) ltac:(unfold PAGE_SIZE; lia)).
  destruct (populate vfs_read n root (vaddr + PAGE_SIZE) flags file (off + PAGE_SIZE) s2) as [ok s'].
  destruct IH as (k & f' & Hkn & [Hg Hsp Hkept Hfr'] & Hok).
  destruct (grown_first vaddr k flags f f' v Ha Hr ltac:(lia) Hpr Hv Hg) as [Hg' Ev].
  exists (k + 1), f'. split_and!; [lia|lia| |].
  { split; [done|done| |set_solver]. intros p i Hp Hnp Hi. rewrite Hkept; [by apply Hk|done|set_solver|done]. }
  destruct ok; [|destruct Hok as (j & Hj & Hst); exists (j + 1); split; [lia|by apply (stuck_S _ _ _ _ _ _ s s2); [lia|..]]].
  destruct Hok as [-> Hfill]. split; [lia|]. intros w Hw. rewrite in_pages_first by (done || lia).
  destruct (Z.eqb_spec w (vpn vaddr)) as [->|Hne]; cbn [orb]; intros Hin.
  - rewrite Ev. unfold v. rewrite frame_no_mapped, (proj1 (user_vpn vaddr Hr)) by (done || lia). unfold aligned in Ha.
    replace (vaddr / PAGE_SIZE * PAGE_SIZE - vaddr) with 0 by (pose proof (Z.div_mod vaddr PAGE_SIZE ltac:(done)); lia).
    destruct Hdata as (r0 & Hd). exists r0. rewrite Z.add_0_r. destruct (vfs_read _ _ _ _ _) as [rd r1]. destruct Hd as [? Hd].
    split; [done|]. intros i Hi. rewrite Hkept; [by apply Hd|lia|done|done].
  - specialize (Hfill w Hw Hin). by replace (off + PAGE_SIZE + (w * PAGE_SIZE - (vaddr + PAGE_SIZE))) with (off + (w * PAGE_SIZE - vaddr)) in Hfill by lia.
Qed.

(** The pages outside the range are as before. *)
Definition kept_outside (lo hi : Z) f f' : Prop := forall w, user_page w -> in_pages lo hi w = false -> f' w = f w.

(** The area of a mapping, as it appears in the view. *)
Definition mmap_attr (prot flags file offset start a : Z) : Z * Z * Z * Z :=
  (mmap_vma_flags prot flags, prot, file, u64 (u64 offset + (a - start))).

Lemma insert_spec asp vma :
  areas_ok 0 (vma_list asp) -> areas asp (vma_list asp) -> vma_ok vma -> vacant (vma_list asp) (vm_start vma) (vm_end vma) ->
  let asp' := (vmm_insert_vma asp vma).2 in
  (vmm_insert_vma asp vma).1 = 0 /\ areas_ok 0 (vma_list asp') /\ areas asp' (vma_list asp') /\ same_bounds asp asp' /\
  vma ∈ vma_list asp' /\
  forall a, view (vma_list asp') a = if covers vma a then Some (attr vma a) else view (vma_list asp) a.
Proof.
  intros Hok [_ Hc] Hv Hvac. pose proof (link_spec (vma_list asp) vma Hv Hok) as Hl. unfold vmm_insert_vma.
  destruct (link_vma None (vma_list asp) vma) as [l'|] eqn:El; [|done].
  destruct Hl as (Hok' & _ & _ & (l1 & l2 & E1 & ->) & Hview). rewrite E1 in El, Hc.
  destruct (insert_areas l1 vma l2 asp E1 Hc El) as [Ha Hs]. unfold vmm_insert_vma in Ha, Hs. rewrite E1, El in Ha, Hs.
  cbn [fst snd] in *. split_and!; [done|done|by split; [|apply Ha]|done| |done].
  apply elem_of_app. right. left.
Qed.

Lemma insert_refused asp vma :
  areas_ok 0 (vma_list asp) -> vma_ok vma -> ~ vacant (vma_list asp) (vm_start vma) (vm_end vma) ->
  vmm_insert_vma asp vma = (- EEXIST, asp).
Proof.
  intros Hok Hv Hvac. pose proof (link_spec (vma_list asp) vma Hv Hok) as Hl. unfold vmm_insert_vma.
  destruct (link_vma None (vma_list asp) vma) as [l'|]; [|done]. by destruct Hl as (_ & _ & ? & _).
Qed.

(** Removing a whole area cuts nothing in two. *)
Lemma no_split_exact l vma :
  areas_ok 0 l -> vma ∈ l -> vma_ok vma -> existsb (splits (vm_start vma) (vm_end vma)) l = false.
Proof.
  intros Hok Hin Hv. apply not_true_is_false. intros (u & Hu%list_elem_of_In & Hs)%existsb_exists.
  apply andb_true_iff in Hs as [H1%Z.ltb_lt H2]. rewrite Z.gtb_lt in H2. pose proof (vo_range _ Hv).
  assert (u = vma) as -> by (apply (covered_unique 0 l u vma (vm_start vma)); try done; apply covers_true; lia). lia.
Qed.

Lemma mmap_undo others asp f s vma :
  vm_ok others asp f s -> vma ∈ vma_list asp -> vma_ok vma ->
  let '(_, asp', s') := vmm_munmap (vm_start vma) (vm_end vma - vm_start vma) asp s in
  same_bounds asp asp' /\ ram s' = ram s /\
  (forall a, view (vma_list asp') a = if covers vma a then None else view (vma_list asp) a) /\
  exists f', vm_ok others asp' f' s' /\ kept_outside (vm_start vma) (vm_end vma) f f' /\
    forall w, in_pages (vm_start vma) (vm_end vma) w = true -> present (f' w) = false.
Proof.
  intros Hok Hin Hv. pose proof Hv as [Hr He [Ha1 Ha2]]. unfold USER_SPACE_END in He.
  pose proof (munmap_spec others asp f s (vm_start vma) (vm_end vma - vm_start vma) Hok ltac:(lia) ltac:(lia)) as Hm.
  replace (vm_start vma + (vm_end vma - vm_start vma)) with (vm_end vma) in Hm by lia.
  specialize (Hm ltac:(unfold PAGE_SIZE; lia)). cbv zeta in Hm. rewrite (ALIGN_UP_aligned (vm_end vma)) in Hm by (done || unfold PAGE_SIZE; lia).
  replace (ALIGN_DOWN (vm_start vma) PAGE_SIZE) with (vm_start vma) in Hm.
  2:{ rewrite ALIGN_DOWN_page. unfold aligned in Ha1. pose proof (Z.div_mod (vm_start vma) PAGE_SIZE ltac:(done)). lia. }
  destruct (vmm_munmap _ _ _ _) as [[ret asp'] s']. destruct Hm as (_ & Hok' & Hsb & _ & Hram & El). split_and!; [done|done| |].
  - pose proof (cut_all_view (vma_list asp) (vm_start vma) (vm_end vma) (next_alloc s) ltac:(lia) (vk_areas _ _ _ _ Hok)) as Hcv.
    rewrite (no_split_exact (vma_list asp) vma (vk_areas _ _ _ _ Hok) Hin Hv) in Hcv. cbn [negb orb] in Hcv.
    intros a. rewrite El. apply Hcv.
  - eexists. split_and!; [exact Hok'| |].
    + intros w Hw Hout. unfold cleared, mapped_pages. by rewrite Hout.
    + intros w Hw. unfold cleared, mapped_pages. rewrite Hw.
      rewrite (view_covered 0 (vma_list asp) vma _ (vk_areas _ _ _ _ Hok) Hin Hw). cbn [is_some andb].
      by destruct (present (f w)) eqn:E.
Qed.

Definition file_mapping (flags file : Z) : bool := negb (flagb flags MAP_ANONYMOUS) && negb (file =? 0).

(** The pages after a mapping of [start, end_): those of a file are mapped, none
    of which was, and hold the file; an anonymous mapping has none of its own. *)
Definition pages_placed (start end_ prot flags file offset : Z) f f' s' : Prop :=
  if file_mapping flags file
  then grown (in_pages start end_) (vmm_prot_to_pte_flags prot) f f' /\ filled file offset start end_ f' (ram s')
  else f' = f.

(** The outcome of placing a mapping of [start, end_). *)
Record placed others asp f s (start end_ prot flags file offset : Z) asp' s' : Prop := {
  pl_view : forall a, view (vma_list asp') a =
    if (start <=? a) && (a <? end_) then Some (mmap_attr prot flags file offset start a) else view (vma_list asp) a;
  pl_pages : exists f', vm_ok others asp' f' s' /\ pages_placed start end_ prot flags file offset f f' s'
}.

(** A failed file mapping: the areas are as before, no page of the range is mapped
    any more and the pages outside are as before. *)
Record undone others asp f (start end_ : Z) asp' s' : Prop := {
  un_view : forall a, view (vma_list asp') a = view (vma_list asp) a;
  un_pages : exists f', vm_ok others asp' f' s' /\ kept_outside start end_ f f' /\
    forall w, in_pages start end_ w = true -> present (f' w) = false
}.

(** The ways to fail: the area cannot be allocated or overlaps another, and then
    nothing changes, or a page of a file mapping is refused. *)
Definition place_failed others asp f s (start end_ prot flags file offset : Z) asp' s' : Prop :=
  (next_alloc s = false \/ ~ vacant (vma_list asp) start end_) /\ asp' = asp /\ mm s' = mm s \/
  file_mapping flags file = true /\ undone others asp f start end_ asp' s' /\
    exists j, 0 <= j < (end_ - start) / PAGE_SIZE /\
      stuck (pt asp) (vmm_prot_to_pte_flags prot) file offset start j (kmalloc_next s).2.

Lemma failed_view others asp f s start end_ prot flags file offset asp' s' :
  vm_ok others asp f s -> place_failed others asp f s start end_ prot flags file offset asp' s' ->
  (forall a, view (vma_list asp') a = view (vma_list asp) a) /\ exists f', vm_ok others asp' f' s' /\ kept_outside start end_ f f'.
Proof.
  intros Hok [(_ & -> & E)|(_ & [Hv (f' & Hok' & Hout & _)] & _)]; [|by eauto]. split; [done|]. exists f. split; [|done].
  apply (vm_ok_machine others _ asp f s); [done|]. rewrite E. apply Hok.
Qed.

Lemma mmap_place_spec others asp f s start end_ prot flags file offset :
  vm_ok others asp f s -> aligned start -> aligned end_ -> 0 <= start < end_ -> end_ <= USER_SPACE_END ->
  let '(ret, asp', s') := mmap_place vfs_read start end_ (end_ - start) prot flags file offset asp s in
  same_bounds asp asp' /\ ram_kept (mm s) (ram s) (ram s') /\
  (ret = start /\ placed others asp f s start end_ prot flags file offset asp' s' \/
   ret = MAP_FAILED /\ place_failed others asp f s start end_ prot flags file offset asp' s').
Proof.
  intros Hok Ha1 Ha2 Hr He. unfold mmap_place, vmm_create_vma, place_failed, pages_placed. rewrite kmalloc_next_eq. set (s0 := Machine (mm s) (ram s) _).
  assert (Hok0 : vm_ok others asp f s0) by (apply (vm_ok_machine others _ _ f s); [done|apply Hok]).
  destruct (next_alloc s); cbn [negb fst snd].
  2:{ split_and!; [done|done|]. right. split; [done|]. left. split_and!; [by left|done|done]. }
  set (vma := set_vma prot file (u64 offset) (VmArea start end_ (mmap_vma_flags prot flags) 0 0 0)).
  assert (Hv : vma_ok vma) by (split; [cbn; lia|done|done]).
  pose proof (vacant_dec 0 (vma_list asp) start end_ (vk_areas _ _ _ _ Hok) ltac:(lia)) as Hdec.
  destruct (find_intersection start end_ (vma_list asp)).
  { rewrite insert_refused by (apply Hok || done). cbn. split_and!; [done|done|]. right. split; [done|]. left. split_and!; [by right|done|done]. }
  destruct (insert_spec asp vma (vk_areas _ _ _ _ Hok) (vk_count _ _ _ _ Hok) Hv Hdec) as (Hret & Har & Hco & Hsb & Hin & Hview).
  destruct (vmm_insert_vma asp vma) as [ret asp1]. cbn [fst snd] in *. subst ret. cbn [Z.eqb negb].
  assert (Hok1 : vm_ok others asp1 f s0) by (split; [done|done|]; rewrite (sb_pt _ _ Hsb); apply Hok).
  assert (Hview' : forall a, view (vma_list asp1) a =
    if (start <=? a) && (a <? end_) then Some (mmap_attr prot flags file offset start a) else view (vma_list asp) a) by done.
  fold (file_mapping flags file). destruct (file_mapping flags file) eqn:Ef.
  2:{ split_and!; [done|done|]. left. split; [done|]. split; [done|]. exists f. unfold pages_placed. by rewrite Ef. }
  destruct (prot_flags prot) as [Hpf Hmask]. destruct (pages_aligned start end_ Ha1 Ha2) as [Hpg Hn]. rewrite Hpg.
  set (n := (end_ - start) / PAGE_SIZE) in *. assert (Hn0 : 0 <= n) by (unfold PAGE_SIZE in Hn; lia).
  unfold USER_SPACE_END in He. pose proof (populate_spec (pt asp1) others (vmm_prot_to_pte_flags prot) file (Z.to_nat n) Hpf Hmask start offset f s0
    (vk_space _ _ _ _ Hok1) Ha1 ltac:(lia) ltac:(rewrite Z2Nat.id by done; lia)) as Hp.
  destruct (populate _ _ _ _ _ _ _ _) as [ok s1]. destruct Hp as (k & f1 & Hk & [Hg Hsp Hkept _] & Hdone). rewrite Z2Nat.id in * by done.
  assert (Hok2 : vm_ok others asp1 f1 s1) by (by apply (vm_ok_machine others _ asp1 f s0)).
  destruct ok.
  - destruct Hdone as [-> Hfill]. rewrite Hn in Hg, Hfill. replace (start + (end_ - start)) with end_ in Hg, Hfill by lia.
    split_and!; [done|done|]. left. split; [done|]. split; [done|]. exists f1. unfold pages_placed. by rewrite Ef.
  - destruct Hdone as (j & Hj & Hst). rewrite (sb_pt _ _ Hsb) in Hst.
    pose proof (mmap_undo others asp1 f1 s1 vma Hok2 Hin Hv) as Hun. change (vm_start vma) with start in Hun. change (vm_end vma) with end_ in Hun.
    destruct (vmm_munmap start (end_ - start) asp1 s1) as [[ret asp2] s2]. destruct Hun as (Hsb2 & Hram & Hview2 & f2 & Hok3 & Hout & Hgone).
    split_and!; [by etrans|by rewrite Hram|]. right. split; [done|]. right. split_and!; [done| |by exists j]. split.
    + intros a. rewrite Hview2, Hview'. change (covers vma a) with ((start <=? a) && (a <? end_)).
      destruct ((start <=? a) && (a <? end_)) eqn:E; [|done]. symmetry. apply Hdec. apply andb_true_iff in E as [?%Z.leb_le ?%Z.ltb_lt]. lia.
    + exists f2. split_and!; [done| |done]. intros w Hw Hw'. rewrite Hout by done. specialize (Hg w Hw).
      replace (in_pages start (start + k * PAGE_SIZE) w) with false in Hg; [done|]. unfold in_pages in *. symmetry.
      apply andb_false_iff in Hw' as [?|?%Z.ltb_ge]; apply andb_false_iff; [by left|right; apply Z.ltb_ge; unfold PAGE_SIZE in *; lia].
Qed.

Lemma range_end_ok start len :
  0 <= start -> 0 <= len -> zig_range_end_le_cap_ok start len USER_SPACE_END =
    if start + len <=? USER_SPACE_END then (0, Some (start + len)) else (1, None).
Proof.
  intros Hs Hl. unfold zig_range_end_le_cap_ok, USER_SPACE_END. rewrite Z.geb_leb, Z.gtb_ltb.
  destruct (Z.leb_spec (2 ^ 64) (start + len)); [by rewrite (proj2 (Z.leb_gt _ _)) by lia|]. rewrite u64_small by lia.
  destruct (Z.ltb_spec 0x800000000000 (start + len)), (Z.leb_spec (start + len) 0x800000000000); done || lia.
Qed.

(** [MAP_FIXED]: what is in the way goes first. *)
Record replaced others asp f s (start end_ prot flags file offset : Z) asp' s' : Prop := {
  rp_view : forall a, view (vma_list asp') a =
    if (start <=? a) && (a <? end_) then Some (mmap_attr prot flags file offset start a) else view (vma_list asp) a;
  rp_pages : exists f', vm_ok others asp' f' s' /\
    pages_placed start end_ prot flags file offset (cleared (mapped_pages (vma_list asp) start end_) f) f' s'
}.

(** A failure leaves everything outside the range alone. *)
Record abandoned others asp f (start end_ : Z) asp' s' : Prop := {
  ab_view : forall a, (start <=? a) && (a <? end_) = false -> view (vma_list asp') a = view (vma_list asp) a;
  ab_pages : exists f', vm_ok others asp' f' s' /\ kept_outside start end_ f f'
}.

(** The frames in use keep their contents, but for those of the pages in [P]. *)
Definition ram_kept_but (P : Z -> bool) f (m : mmu St) (r r' : memory) : Prop :=
  forall p i, 0 <= p < 2 ^ 20 -> (p ∉ pa_frames (pmem m)) ->
    (forall w, user_page w -> P w = true -> present (f w) = true -> p <> frame_no (f w)) -> 0 <= i < PAGE_SIZE ->
    load8 (page_byte p i) r' = load8 (page_byte p i) r.

Lemma cleared_outside l start end_ f : kept_outside start end_ f (cleared (mapped_pages l start end_) f).
Proof. intros w _ Hw. unfold cleared, mapped_pages. by rewrite Hw. Qed.

Lemma mmap_fixed_spec others asp f s start len prot flags file offset :
  vm_ok others asp f s -> aligned start -> aligned len -> 0 <= start -> 0 < len -> flagb flags MAP_FIXED = true ->
  let end_ := start + len in
  let '(ret, asp', s') := mmap_at vfs_read start len prot flags file offset asp s in
  same_bounds asp asp' /\ ram_kept_but (mapped_pages (vma_list asp) start end_) f (mm s) (ram s) (ram s') /\
  (ret = start /\ end_ <= USER_SPACE_END /\ replaced others asp f s start end_ prot flags file offset asp' s' \/
   ret = MAP_FAILED /\ abandoned others asp f start end_ asp' s').
Proof.
  intros Hok Ha1 Hal H0 Hl Hfix end_. unfold mmap_at. rewrite range_end_ok by lia. fold end_. rewrite Hfix.
  destruct (Z.leb_spec end_ USER_SPACE_END) as [He|He].
  2:{ split_and!; [done|done|]. right. split; [done|]. split; [done|]. by exists f. }
  assert (Ha2 : aligned end_) by (unfold aligned, end_ in *; by rewrite Z.add_mod, Ha1, Hal).
  pose proof (munmap_spec others asp f s start len Hok H0 Hl) as Hm. fold end_ in Hm. unfold USER_SPACE_END in He.
  specialize (Hm ltac:(unfold PAGE_SIZE; lia)). cbv zeta in Hm. rewrite (ALIGN_UP_aligned end_) in Hm by (done || unfold PAGE_SIZE; lia).
  replace (ALIGN_DOWN start PAGE_SIZE) with start in Hm.
  2:{ rewrite ALIGN_DOWN_page. unfold aligned in Ha1. pose proof (Z.div_mod start PAGE_SIZE ltac:(done)). lia. }
  pose proof (cut_all_view (vma_list asp) start end_ (next_alloc s) ltac:(lia) (vk_areas _ _ _ _ Hok)) as Hcv.
  destruct (vmm_munmap start len asp s) as [[ret asp1] s1]. destruct Hm as (-> & Hok1 & Hsb1 & Hrel & Hram & El). cbn [Z.eqb negb].
  rewrite <- El in Hcv. replace len with (end_ - start) by (unfold end_; lia).
  pose proof (mmap_place_spec others asp1 _ s1 start end_ prot flags file offset Hok1 Ha1 Ha2 ltac:(lia) He) as Hp.
  destruct (mmap_place vfs_read start end_ (end_ - start) prot flags file offset asp1 s1) as [[ret asp'] s'].
  destruct Hp as (Hsb & Hkept & Hp). split_and!; [by etrans| |].
  { intros p i Hp1 Hp2 Hp3 Hi. rewrite <- Hram. apply Hkept; [done| |done]. rewrite (proj1 Hrel). intros [?|(w & Hw & HP & Hpr & ->)]; [done|].
    by apply (Hp3 w Hw HP Hpr). }
  assert (Hv1 : forall a, (start <=? a) && (a <? end_) = false -> view (vma_list asp1) a = view (vma_list asp) a).
  { intros a Ha. destruct (negb _ || _); [by rewrite Hcv, Ha|by rewrite Hcv]. }
  destruct Hp as [(-> & [Hview (f' & Hok' & Hpg)])|(-> & Hf)].
  - left. split_and!; [done|done|]. split.
    + intros a. rewrite Hview. destruct ((start <=? a) && (a <? end_)) eqn:E; [done|by apply Hv1].
    + by exists f'.
  - destruct (failed_view _ _ _ _ _ _ _ _ _ _ _ _ Hok1 Hf) as [Hview (f' & Hok' & Hout)]. right. split; [done|]. split.
    + intros a Ha. rewrite Hview. by apply Hv1.
    + exists f'. split; [done|]. intros w Hw Hw'. rewrite Hout by done. by apply cleared_outside.
Qed.

(** The arguments [vmm_mmap] accepts. *)
Definition mmap_args (flags file offset : Z) : Prop :=
  flagb flags MAP_ANONYMOUS = true \/ file <> 0 /\ 0 <= offset < 2 ^ 63 /\ aligned offset.

Lemma mmap_checks flags file offset : mmap_args flags file offset ->
  negb (flagb flags MAP_ANONYMOUS) && ((file =? 0) || (offset <? 0) || negb (Z.land (u64 offset) (PAGE_SIZE - 1) =? 0)) = false.
Proof.
  intros [->|(Hf0 & Ho & Hoa)]; [done|]. rewrite (proj2 (Z.eqb_neq file 0)), (proj2 (Z.ltb_ge offset 0)) by lia.
  rewrite u64_small by lia. change (PAGE_SIZE - 1) with (Z.ones 12). rewrite Z.land_ones by lia.
  unfold aligned, PAGE_SIZE in Hoa. change (2 ^ 12) with 4096. rewrite Hoa. apply andb_false_r.
Qed.

Lemma length_aligned length :
  0 < length <= 2 ^ 64 - PAGE_SIZE -> aligned (ALIGN_UP length PAGE_SIZE) /\ 0 < ALIGN_UP length PAGE_SIZE.
Proof.
  intros Hl. rewrite ALIGN_UP_page by lia. unfold aligned. rewrite Z.mod_mul by done. split; [done|]. unfold PAGE_SIZE in *.
  apply Z.mul_pos_pos; [apply Z.div_str_pos|]; lia.
Qed.

(** [vmm_mmap] always returns: the search for a gap ends on every list of
    areas, because each step passes the area it ran into. *)
Theorem vmm_mmap_terminates asp s addr length prot flags file offset :
  areas_ok 0 (vma_list asp) -> is_Some (vmm_mmap vfs_read addr length prot flags file offset asp s).
Proof.
  intros Hok. unfold vmm_mmap. destruct (_ || _); [done|]. destruct (_ && _); [done|].
  destruct (flagb flags MAP_FIXED); [by destruct (negb _)|].
  destruct (find_gap_total asp (ALIGN_UP length PAGE_SIZE) Hok (S (List.length (vma_list asp))) USER_HEAP_BASE) as [r ->].
  - unfold ahead. pose proof (length_filter (fun v => USER_HEAP_BASE < vm_end v) (vma_list asp)). lia.
  - by destruct r.
Qed.

(** C37. [vmm_mmap] without [MAP_FIXED] places the mapping at the lowest gap between
    the areas, from the heap base on, that is large enough: the areas change there
    and nowhere else.  An anonymous mapping leaves the page table alone; a file
    mapping maps every page of the range, none of which was mapped, to a frame of
    its own that holds what the file's read put into it.  It fails only when there
    is no such gap or no memory for the area, and then nothing has changed, or when
    a page of a file mapping is refused: because no frame is left, because the page
    is mapped already (a page without an area, such as one of the heap), because no
    page is left for a table, or because the read failed.  In that case the areas
    and the pages outside the range are as before, and no page of the range is
    mapped any more. *)
Theorem vmm_mmap_correct others asp f s addr length prot flags file offset :
  vm_ok others asp f s -> pt asp <> 0 -> 0 < length <= 2 ^ 64 - PAGE_SIZE -> flagb flags MAP_FIXED = false ->
  mmap_args flags file offset ->
  let len := ALIGN_UP length PAGE_SIZE in
  exists ret asp' s', vmm_mmap vfs_read addr length prot flags file offset asp s = Some (ret, asp', s') /\
    same_bounds asp asp' /\ ram_kept (mm s) (ram s) (ram s') /\
    (lowest_gap asp len USER_HEAP_BASE (Some ret) /\ placed others asp f s ret (ret + len) prot flags file offset asp' s' \/
     ret = MAP_FAILED /\
       (lowest_gap asp len USER_HEAP_BASE None /\ asp' = asp /\ s' = s \/
        exists start, lowest_gap asp len USER_HEAP_BASE (Some start) /\
          (next_alloc s = false /\ asp' = asp /\ mm s' = mm s \/
           file_mapping flags file = true /\ undone others asp f start (start + len) asp' s' /\
             exists j, 0 <= j < len / PAGE_SIZE /\
               stuck (pt asp) (vmm_prot_to_pte_flags prot) file offset start j (kmalloc_next s).2))).
Proof.
  intros Hok Hpt Hl Hfix Hfile len. unfold vmm_mmap. rewrite (proj2 (Z.eqb_neq (pt asp) 0)), (proj2 (Z.eqb_neq length 0)) by lia.
  rewrite mmap_checks, Hfix by done. cbn [orb]. fold len. destruct (length_aligned length Hl) as [Hal Hlen]. fold len in Hal, Hlen. pose proof (vk_areas _ _ _ _ Hok) as Har.
  destruct (find_gap_enough asp len Hlen Har USER_HEAP_BASE ltac:(done)) as (r & -> & Hr). destruct r as [start|].
  2:{ eexists _, _, _. split_and!; [done|done|done|]. right. split; [done|]. by left. }
  pose proof Hr as (Hb & He & Hvac & Hsa & Hlow). assert (H0 : 0 <= start) by (unfold USER_HEAP_BASE in Hb; lia).
  assert (Ha1 : aligned start) by (destruct Hsa as [->|?]; done).
  assert (Ha2 : aligned (start + len)) by (unfold aligned in *; by rewrite Z.add_mod, Ha1, Hal).
  unfold mmap_at. rewrite range_end_ok, (proj2 (Z.leb_le _ _)), Hfix by lia. unfold vmm_find_vma_intersection.
  pose proof (vacant_dec 0 (vma_list asp) start (start + len) Har ltac:(lia)) as Hdec.
  destruct (find_intersection start (start + len) (vma_list asp)); [done|]. cbn [Z.eqb negb].
  pose proof (mmap_place_spec others asp f s start (start + len) prot flags file offset Hok Ha1 Ha2 ltac:(lia) He) as Hp.
  unfold place_failed in Hp. replace (start + len - start) with len in Hp by lia.
  destruct (mmap_place vfs_read start (start + len) len prot flags file offset asp s) as [[ret asp'] s'].
  destruct Hp as (Hsb & Hkept & Hp). exists ret, asp', s'. split_and!; [done|done|done|].
  destruct Hp as [(-> & Hp)|(-> & Hf)]; [left; by split_and!|right]. split; [done|]. right. exists start. split; [done|].
  destruct Hf as [([?|?] & ? & ?)|?]; [by left|done|by right].
Qed.

(** [vmm_mmap] with [MAP_FIXED] at a page-aligned address replaces whatever
    is mapped in the range: on success the areas are as before outside the range
    and the new mapping inside, and the old pages are gone; on failure nothing
    outside the range has changed.  Other frames in use keep their contents. *)
Theorem vmm_mmap_fixed_correct others asp f s addr length prot flags file offset :
  vm_ok others asp f s -> pt asp <> 0 -> 0 < length <= 2 ^ 64 - PAGE_SIZE -> flagb flags MAP_FIXED = true ->
  mmap_args flags file offset -> 0 <= addr -> aligned addr ->
  let end_ := addr + ALIGN_UP length PAGE_SIZE in
  exists ret asp' s', vmm_mmap vfs_read addr length prot flags file offset asp s = Some (ret, asp', s') /\
    same_bounds asp asp' /\ ram_kept_but (mapped_pages (vma_list asp) addr end_) f (mm s) (ram s) (ram s') /\
    (ret = addr /\ end_ <= USER_SPACE_END /\ replaced others asp f s addr end_ prot flags file offset asp' s' \/
     ret = MAP_FAILED /\ abandoned others asp f addr end_ asp' s').
Proof.
  intros Hok Hpt Hl Hfix Hfile H0 Haa end_. unfold vmm_mmap. rewrite (proj2 (Z.eqb_neq (pt asp) 0)), (proj2 (Z.eqb_neq length 0)) by lia.
  rewrite mmap_checks, Hfix by done. cbn [orb]. destruct (length_aligned length Hl) as [Hal Hlen].
  replace (Z.land addr (PAGE_SIZE - 1)) with 0.
  2:{ change (PAGE_SIZE - 1) with (Z.ones 12). by rewrite Z.land_ones by lia. }
  replace (ALIGN_DOWN addr PAGE_SIZE) with addr.
  2:{ rewrite ALIGN_DOWN_page. unfold aligned in Haa. pose proof (Z.div_mod addr PAGE_SIZE ltac:(done)). lia. }
  cbn [Z.eqb negb].
  pose proof (mmap_fixed_spec others asp f s addr (ALIGN_UP length PAGE_SIZE) prot flags file offset Hok Haa Hal H0 Hlen Hfix) as Hm.
  destruct (mmap_at vfs_read addr (ALIGN_UP length PAGE_SIZE) prot flags file offset asp s) as [[ret asp'] s'].
  by exists ret, asp', s'.
Qed.
End mmap.

(** ** Protection *)

(** The pages of the range, with their flags rewritten. *)
Definition protected (lo hi flags : Z) f (w : Z) : Z :=
  if in_pages lo hi w && present (f w) then pte_make (pte_get_frame (f w)) (Z.lor flags PTE_PRESENT) else f w.

Lemma protect_page_spec root others f s flags addr :
  space root others f (mm s) -> 0 <= addr < 2 ^ 47 -> aligned addr -> 0 <= flags < 2 ^ 64 -> Z.land flags PAGE_FRAME_MASK = 0 ->
  space root others (protected addr (addr + PAGE_SIZE) flags f) (mm (protect_page root flags addr s)) /\
  ram (protect_page root flags addr s) = ram s.
Proof.
  intros Hs Ha Hal Hf Hmask. destruct (user_vpn addr Ha) as [_ Hu]. unfold protect_page.
  destruct (space_resolve _ _ _ _ addr Hs Hu) as [-> _]. destruct (present (f (vpn addr))) eqn:Hpr; cbn [negb]; (split; [|done]).
  - destruct (space_set_flags _ _ _ _ addr flags Hs Hu Hpr Hf Hmask) as [Hs' _]. eapply space_ext; [|exact Hs'].
    intros w _. unfold upd, protected. rewrite in_pages_one by done. case_decide as E; [subst w|].
    + by rewrite Z.eqb_refl, Hpr.
    + by rewrite (proj2 (Z.eqb_neq _ _)).
  - eapply space_ext; [|exact Hs]. intros w _. unfold protected. rewrite in_pages_one by done.
    destruct (Z.eqb_spec w (vpn addr)) as [->|]; [by rewrite Hpr|done].
Qed.

(** [vmm_mprotect] on a user range gives every mapped page of it the flags of
    the new protection and keeps its frame; unmapped pages, pages outside and the
    contents of memory stay.  The areas are not an argument of the change: a page
    mapped later still gets the protection its area was created with. *)
Theorem vmm_mprotect_correct others asp f s addr length prot :
  vm_ok others asp f s -> 0 <= addr -> 0 < length -> addr + length <= USER_SPACE_END ->
  let '(ret, s') := vmm_mprotect addr length prot asp s in
  ret = 0 /\ ram s' = ram s /\
  vm_ok others asp (protected (ALIGN_DOWN addr PAGE_SIZE) (ALIGN_UP (addr + length) PAGE_SIZE) (vmm_prot_to_pte_flags prot) f) s'.
Proof.
  intros Hok H0 Hl Hb. unfold vmm_mprotect, USER_SPACE_END in *. rewrite u64_small by lia.
  destruct (range_bounds addr length H0 Hl ltac:(unfold PAGE_SIZE; lia)) as (Ha1 & Ha2 & Hs0 & He0 & _).
  destruct (align_up_bounds (addr + length) ltac:(lia)) as [_ He].
  set (start := ALIGN_DOWN addr PAGE_SIZE) in *. set (end_ := ALIGN_UP (addr + length) PAGE_SIZE) in *.
  destruct (pages_aligned start end_ Ha1 Ha2) as [-> Hn]. set (n := (end_ - start) / PAGE_SIZE) in *.
  destruct (prot_flags prot) as [Hf Hmask]. set (flags := vmm_prot_to_pte_flags prot) in *. unfold PAGE_SIZE in Hn.
  split; [done|]. cut (space (pt asp) others (protected start (start + n * PAGE_SIZE) flags f)
    (mm (for_range 0 n (fun i => protect_page (pt asp) flags (start + i * PAGE_SIZE)) s)) /\
    ram (for_range 0 n (fun i => protect_page (pt asp) flags (start + i * PAGE_SIZE)) s) = ram s).
  { intros [Hsp Hr]. split; [done|]. unfold PAGE_SIZE in Hsp at 1. replace (start + n * 4096) with end_ in Hsp by lia.
    by apply (vm_ok_machine others _ asp f s). }
  apply (for_range_inv (fun k s' => space (pt asp) others (protected start (start + k * PAGE_SIZE) flags f) (mm s') /\ ram s' = ram s)); [lia| |].
  - split; [|done]. eapply space_ext; [|apply Hok]. intros w _. unfold protected. by rewrite in_pages_none.
  - intros k s' Hk [Hs' Hr']. assert (Hal : aligned (start + k * PAGE_SIZE)).
    { unfold aligned in *. by rewrite Z.add_mod, Ha1, Z.mod_mul by done. }
    destruct (protect_page_spec (pt asp) others _ s' flags (start + k * PAGE_SIZE) Hs' ltac:(unfold PAGE_SIZE; lia) Hal Hf Hmask) as [Hs2 Hr2].
    split; [|congruence]. eapply space_ext; [|exact Hs2]. intros w _. unfold protected, present.
    assert (E : in_pages start (start + (k + 1) * PAGE_SIZE) w =
      in_pages start (start + k * PAGE_SIZE) w || in_pages (start + k * PAGE_SIZE) (start + k * PAGE_SIZE + PAGE_SIZE) w).
    { unfold in_pages, PAGE_SIZE. destruct (Z.leb_spec start (w * 4096)), (Z.ltb_spec (w * 4096) (start + k * 4096)),
        (Z.ltb_spec (w * 4096) (start + (k + 1) * 4096)), (Z.leb_spec (start + k * 4096) (w * 4096)),
        (Z.ltb_spec (w * 4096) (start + k * 4096 + 4096)); done || lia. }
    assert (Hdis : in_pages start (start + k * PAGE_SIZE) w && in_pages (start + k * PAGE_SIZE) (start + k * PAGE_SIZE + PAGE_SIZE) w = false).
    { unfold in_pages. destruct (Z.ltb_spec (w * PAGE_SIZE) (start + k * PAGE_SIZE)), (Z.leb_spec (start + k * PAGE_SIZE) (w * PAGE_SIZE));
        rewrite ?andb_false_r; done || lia. }
    rewrite E. destruct (in_pages start (start + k * PAGE_SIZE) w), (in_pages (start + k * PAGE_SIZE) _ w), (flagb (f w) PTE_PRESENT) eqn:Ef;
      cbn in *; rewrite ?Ef; done.
Qed.

End props.

(** ** A concrete address space

    A process over the page tables of boot.S, with an area of four pages and one
    page of it mapped. *)

Section concrete.
Context {St : Type} `{PageAllocator St}.

Lemma empty_space root (m : mmu St) :
  pt_ok root {[root := (3%nat, 0)]} m -> (forall w, user_page w -> pt_entry m root w = 0) -> space root ∅ (fun _ => 0) m.
Proof.
  intros Hok He. split; [|done|done|done|set_solver].
  exists {[root := (3%nat, 0)]}. split_and!; [done|set_solver|done].
Qed.

(** A page allocated and mapped. *)
Lemma vm_ok_fresh others asp f (s : machine St) virt flags a :
  vm_ok others asp f s -> user_page (vpn virt) -> 0 <= flags < 2 ^ 64 -> Z.land flags PAGE_FRAME_MASK = 0 -> a <> 0 ->
  (alloc_page (mm s)).1 = a * PAGE_SIZE -> (mmu_map (pt asp) virt (a * PAGE_SIZE) flags (alloc_page (mm s)).2).1 = 0 ->
  vm_ok others asp (upd (vpn virt) (pte_make (a * PAGE_SIZE) (Z.lor flags PTE_PRESENT)) f)
    (with_mm (mmu_map (pt asp) virt (a * PAGE_SIZE) flags (alloc_page (mm s)).2).2 s).
Proof.
  intros Hok Hu Hf Hm Ha E1 E2. pose proof (fresh_map (pt asp) others f (mm s) virt flags (vk_space _ _ _ _ Hok) Hu Hf Hm) as Hfm.
  destruct (alloc_page (mm s)) as [phys m1]. cbn [fst snd] in *. subst phys.
  destruct Hfm as [[E _]|(b & E & _ & _ & Hfm)]; [unfold PAGE_SIZE in E; lia|]. assert (b = a) as -> by (unfold PAGE_SIZE in E; lia).
  destruct (mmu_map (pt asp) virt (a * PAGE_SIZE) flags m1) as [ret m2]. cbn [fst snd] in *. subst ret.
  destruct Hfm as [(_ & _ & Hs & _)|(E' & _)]; [by apply (vm_ok_machine others _ asp f s)|]. by destruct (present (f (vpn virt))).
Qed.
End concrete.

Definition area_4 : vm_area := VmArea 0x10000000 0x10004000 (3 + VMA_PRIVATE + VMA_ANONYMOUS) 3 0 0.
Definition asp_4 : address_space := AddressSpace user_root [area_4] 1 0x4000 0x20000000 0x20000000 0 0 0 0 0.
Definition vm_boot : machine pmm := Machine user_mmu ∅ [true; true; true; true].
Definition frame_4 : Z := (alloc_page (mm vm_boot)).1 / PAGE_SIZE.
Definition pte_4 : Z := pte_make (frame_4 * PAGE_SIZE) (Z.lor 7 PTE_PRESENT).
Definition f_4 : Z -> Z := upd (vpn 0x10001000) pte_4 (fun _ => 0).
Definition vm_4 : machine pmm :=
  with_mm (mmu_map (pt asp_4) 0x10001000 (frame_4 * PAGE_SIZE) 7 (alloc_page (mm vm_boot)).2).2 vm_boot.

Lemma asp_4_areas : areas_ok 0 (vma_list asp_4) /\ areas asp_4 (vma_list asp_4).
Proof. split; [|done]. cbn. split_and!; [lia|split; [cbn; lia|done|done]|done]. Qed.

Lemma vm_boot_ok : vm_ok ∅ asp_4 (fun _ => 0) vm_boot.
Proof.
  split; [apply asp_4_areas|apply asp_4_areas|]. apply empty_space; apply user_mmu_ok.
Qed.

Lemma vm_4_ok : vm_ok ∅ asp_4 f_4 vm_4.
Proof.
  apply (vm_ok_fresh ∅ asp_4 _ vm_boot 0x10001000 7 frame_4 vm_boot_ok).
  - apply user_vpn. lia.
  - lia.
  - reflexivity.
  - vm_compute. discriminate.
  - vm_compute. reflexivity.
  - vm_compute. reflexivity.
Qed.

Lemma vmm_munmap_correct_witness :
  view (vma_list (vmm_munmap 0x10001000 0x2000 asp_4 vm_4).1.2) 0x10001000 = None /\
  view (vma_list (vmm_munmap 0x10001000 0x2000 asp_4 vm_4).1.2) 0x10003000 <> None /\
  frame_4 ∈ pa_frames (pmem (mm (vmm_munmap 0x10001000 0x2000 asp_4 vm_4).2)).
Proof.
  pose proof (vmm_munmap_correct ∅ asp_4 f_4 vm_4 0x10001000 0x2000 vm_4_ok ltac:(lia) ltac:(lia) ltac:(unfold PAGE_SIZE; lia)) as H.
  cbv zeta in H. destruct (vmm_munmap 0x10001000 0x2000 asp_4 vm_4) as [[ret asp'] s']. cbn [fst snd].
  destruct H as (_ & _ & _ & [H1 _] & _ & H2). change (can_cut (vma_list asp_4) (ALIGN_DOWN 0x10001000 PAGE_SIZE)
    (ALIGN_UP (0x10001000 + 0x2000) PAGE_SIZE) vm_4) with true in H2. cbv iota in H2.
  split; [rewrite H2; vm_compute; reflexivity|]. split; [rewrite H2; vm_compute; discriminate|].
  apply H1. right. exists (vpn 0x10001000). split; [apply user_vpn; lia|]. split; [vm_compute; reflexivity|].
  split; vm_compute; reflexivity.
Defined.

Lemma vmm_munmap_wraps_witness :
  vmm_munmap 0x10000000 (2 ^ 64 - 0x10000001) asp_4 vm_4 = (0, asp_4, vm_4).
Proof.
  apply (vmm_munmap_wraps asp_4 vm_4 0x10000000 (2 ^ 64 - 0x10000001) (proj1 asp_4_areas) ltac:(lia) ltac:(lia)).
  unfold PAGE_SIZE. lia.
Defined.

Lemma vmm_brk_correct_witness :
  exists k f', 0 <= k <= 2 /\ brk_grown user_root ∅ f_4 vm_4 0x20000000 k f' (vmm_brk 0x20001800 asp_4 vm_4).2.
Proof.
  pose proof (vmm_brk_correct ∅ asp_4 f_4 vm_4 0x20001800 vm_4_ok eq_refl eq_refl ltac:(cbn; lia) ltac:(cbn; lia) ltac:(lia)) as H.
  cbv zeta in H. destruct (vmm_brk 0x20001800 asp_4 vm_4) as [[ret asp'] s']. cbn [fst snd].
  change (0x20001800 =? 0) with false in H. change (ALIGN_UP 0x20001800 PAGE_SIZE) with 0x20002000 in H.
  change (0x20002000 <? brk_start asp_4) with false in H. change (0x20002000 <=? brk_end asp_4) with false in H. cbv iota in H.
  destruct H as (k & f' & H1 & H2 & _). exists k, f'. split; [exact H1|exact H2].
Defined.

Lemma vmm_page_fault_correct_witness :
  (vmm_handle_page_fault 0x10002345 2 asp_4 vm_4).1 = 0 /\ (vmm_handle_page_fault 0x10004000 2 asp_4 vm_4).1 = - EFAULT.
Proof.
  split; [vm_compute; reflexivity|].
  pose proof (vmm_page_fault_correct ∅ asp_4 f_4 vm_4 0x10004000 2 vm_4_ok ltac:(lia)) as H. cbv zeta in H.
  destruct (vmm_handle_page_fault 0x10004000 2 asp_4 vm_4) as [ret s'].
  change (vmm_find_vma asp_4 0x10004000) with (@None vm_area) in H. destruct H as [_ H]. injection H as -> _. reflexivity.
Defined.

Lemma verify_user_range_exact_witness :
  may_access true f_4 0x10001000 0x1000 /\ ~ may_access true f_4 0x10001000 0x1001.
Proof.
  split.
  - apply (verify_user_range_exact ∅ asp_4 f_4 vm_4 0x10001000 0x1000 true vm_4_ok user_root_pos ltac:(lia) ltac:(lia)).
    vm_compute. reflexivity.
  - intros Hacc. apply (verify_user_range_exact ∅ asp_4 f_4 vm_4 0x10001000 0x1001 true vm_4_ok user_root_pos ltac:(lia) ltac:(lia)) in Hacc.
    vm_compute in Hacc. discriminate Hacc.
Defined.

Lemma page_4 a : 0x10001000 <= a < 0x10002000 -> vpn a = vpn 0x10001000 /\ present (f_4 (vpn a)) = true.
Proof.
  intros Ha. assert (E : vpn a = vpn 0x10001000).
  { rewrite (proj1 (user_vpn a ltac:(lia))), (proj1 (user_vpn 0x10001000 ltac:(lia))). unfold PAGE_SIZE.
    change (0x10001000 / 4096) with 0x10001. symmetry. apply Z.div_unique with (a - 0x10001000); lia. }
  split; [done|]. rewrite E. vm_compute. reflexivity.
Qed.

Lemma user_copy_correct_witness :
  (vmm_copy_to_user (Some asp_4) 0x10001ff0 0x5000 8 vm_4).1 = 0 /\
  forall i, 0 <= i < 8 ->
    user_data f_4 (0x10001ff0 + i) (ram (vmm_copy_to_user (Some asp_4) 0x10001ff0 0x5000 8 vm_4).2) = load8 (0x5000 + i) (ram vm_4).
Proof.
  assert (Hd : forall a i, 0x10001ff0 <= a < 0x10001ff0 + 8 -> 0 <= i < 8 -> user_byte (pt asp_4) a vm_4 <> 0x5000 + i).
  { intros a i Ha Hi. destruct (page_4 a ltac:(lia)) as [_ Hp]. destruct (user_byte_eq ∅ asp_4 f_4 vm_4 a vm_4_ok ltac:(lia) Hp) as [-> Hf].
    rewrite page_byte_eq by lia. pose proof (Z.mod_pos_bound a PAGE_SIZE ltac:(reflexivity)). unfold KERNEL_PHYS_MAP_BASE, PAGE_SIZE in *. lia. }
  destruct (user_copy_correct ∅ asp_4 f_4 vm_4 0x5000 0x10001ff0 8 vm_4_ok user_root_pos ltac:(lia) ltac:(lia) ltac:(lia) Hd) as [_ H].
  assert (E : (vmm_copy_to_user (Some asp_4) 0x10001ff0 0x5000 8 vm_4).1 = 0) by (vm_compute; reflexivity).
  destruct (vmm_copy_to_user (Some asp_4) 0x10001ff0 0x5000 8 vm_4) as [ret s']. cbn [fst snd] in *.
  destruct H as [[H _]|(_ & _ & _ & H & _)]; [rewrite E in H; lia|exact (conj E H)].
Defined.

(** A file whose pages start with the byte 7. *)
Definition read_7 (file buf count pos : Z) (r : memory) : Z * memory := (1, store8 buf 7 r).

Lemma read_7_frame file buf pos r b : b < buf \/ buf + PAGE_SIZE <= b -> load8 b (read_7 file buf PAGE_SIZE pos r).2 = load8 b r.
Proof. intros Hb. cbn. rewrite load8_store8. unfold PAGE_SIZE in Hb. by rewrite (proj2 (Z.eqb_neq b buf)) by lia. Qed.

Lemma vmm_mmap_terminates_witness : is_Some (vmm_mmap read_7 0 0x1800 3 MAP_PRIVATE 9 0 asp_4 vm_4).
Proof. apply (vmm_mmap_terminates read_7 asp_4 vm_4 0 0x1800 3 MAP_PRIVATE 9 0 (proj1 asp_4_areas)). Defined.

Lemma vmm_mmap_correct_witness :
  exists asp' s', vmm_mmap read_7 0 0x1800 3 MAP_PRIVATE 9 0 asp_4 vm_4 = Some (0x10004000, asp', s') /\
    placed read_7 ∅ asp_4 f_4 vm_4 0x10004000 0x10006000 3 MAP_PRIVATE 9 0 asp' s'.
Proof.
  assert (Hargs : mmap_args MAP_PRIVATE 9 0) by (right; split; [lia|split; [lia|reflexivity]]).
  destruct (vmm_mmap_correct read_7 read_7_frame ∅ asp_4 f_4 vm_4 0 0x1800 3 MAP_PRIVATE 9 0 vm_4_ok user_root_pos
    ltac:(unfold PAGE_SIZE; lia) eq_refl Hargs) as (ret & asp' & s' & H1 & _ & _ & H2).
  assert (E : option_map (fun x => x.1.1) (vmm_mmap read_7 0 0x1800 3 MAP_PRIVATE 9 0 asp_4 vm_4) = Some 0x10004000) by (vm_compute; reflexivity).
  rewrite H1 in E. cbn in E. injection E as ->. exists asp', s'. split; [exact H1|]. destruct H2 as [[_ H2]|[H2 _]]; [exact H2|discriminate H2].
Defined.

Lemma vmm_mmap_fixed_correct_witness :
  exists asp' s', vmm_mmap read_7 0x10001000 0x1000 1 (MAP_FIXED + MAP_ANONYMOUS) 0 0 asp_4 vm_4 = Some (0x10001000, asp', s') /\
    replaced read_7 ∅ asp_4 f_4 vm_4 0x10001000 0x10002000 1 (MAP_FIXED + MAP_ANONYMOUS) 0 0 asp' s'.
Proof.
  destruct (vmm_mmap_fixed_correct read_7 read_7_frame ∅ asp_4 f_4 vm_4 0x10001000 0x1000 1 (MAP_FIXED + MAP_ANONYMOUS) 0 0 vm_4_ok user_root_pos
    ltac:(unfold PAGE_SIZE; lia) eq_refl ltac:(left; reflexivity) ltac:(lia) eq_refl) as (ret & asp' & s' & H1 & _ & _ & H2).
  assert (E : option_map (fun x => x.1.1) (vmm_mmap read_7 0x10001000 0x1000 1 (MAP_FIXED + MAP_ANONYMOUS) 0 0 asp_4 vm_4) = Some 0x10001000)
    by (vm_compute; reflexivity).
  rewrite H1 in E. cbn in E. injection E as ->. exists asp', s'. split; [exact H1|]. destruct H2 as [(_ & _ & H2)|[H2 _]]; [exact H2|discriminate H2].
Defined.

Lemma vmm_mprotect_correct_witness :
  vm_ok ∅ asp_4 (protected 0x10001000 0x10002000 (vmm_prot_to_pte_flags 1) f_4) (vmm_mprotect 0x10001000 0x1000 1 asp_4 vm_4).2.
Proof.
  pose proof (vmm_mprotect_correct ∅ asp_4 f_4 vm_4 0x10001000 0x1000 1 vm_4_ok ltac:(lia) ltac:(lia) ltac:(unfold USER_SPACE_END; lia)) as H.
  destruct (vmm_mprotect 0x10001000 0x1000 1 asp_4 vm_4) as [ret s']. destruct H as (_ & _ & H). exact H.
Defined.

(** [vmm_mprotect] has no notion of user space: called with an address of the
    kernel's direct map it rewrites the entry of a 2 MB page in the table that all
    address spaces share, and the entry is not a 2 MB page any more. *)
Theorem mprotect_breaks_kernel_map :
  let kernel_addr := 0xFFFF888000600000 in
  let s' := (vmm_mprotect kernel_addr PAGE_SIZE 3 asp_4 vm_boot).2 in
  paging_walk kernel_pml4 kernel_addr false (mm vm_boot) = (Some (0x25B000, 3), mm vm_boot) /\
  get_entry (mm vm_boot) (0x25B000, 3) = 0x600083 /\
  (vmm_mprotect kernel_addr PAGE_SIZE 3 asp_4 vm_boot).1 = 0 /\ get_entry (mm s') (0x25B000, 3) = 0x600007.
Proof. split_and!; vm_compute; reflexivity. Qed.
