(* ===== verification/VmmClone.v ===== *)
(** * Cloning an address space

    What [vmm_clone_address_space] gives the child of a fork. *)

From S2P Require Import Prelude PageAllocator Pmm SafeArith CString Errno Paging PagingProps Vmm VmmAreas VmmSpace VmmProps.

Section clone.
Context {St : Type} `{PageAllocator St}.
Implicit Types (s : machine St).

Lemma land_word x c : 0 <= c < 2 ^ 64 -> 0 <= Z.land x c < 2 ^ 64.
Proof.
  intros Hc. split; [apply Z.land_nonneg; right; lia|].
  apply word_bounds_of_bits; [lia|apply Z.land_nonneg; right; lia|].
  intros i Hi. rewrite Z.land_spec, (testbit_ge c 64) by lia. apply andb_false_r.
Qed.

(** The tree of [root] with [m]'s entries on the pages outside [P]. *)
Definition entries_kept (P : Z -> bool) (root : Z) (m m' : mmu St) : Prop :=
  (exists shape, pt_ok root shape m') /\
  forall w, user_page w -> P w = false -> pt_entry m' root w = pt_entry m root w.

Lemma entries_kept_refl P root shape m : pt_ok root shape m -> entries_kept P root m m.
Proof. intros Hok. split; [by exists shape|done]. Qed.

Lemma entries_kept_trans P root m1 m2 m3 : entries_kept P root m1 m2 -> entries_kept P root m2 m3 -> entries_kept P root m1 m3.
Proof. intros [_ H1] [H2 H3]. split; [done|]. intros w Hw HP. by rewrite H3, H1. Qed.

Lemma entries_kept_weaken (P Q : Z -> bool) root m m' :
  (forall w, P w = true -> Q w = true) -> entries_kept P root m m' -> entries_kept Q root m m'.
Proof. intros HPQ [H1 H2]. split; [done|]. intros w Hw HQ. apply H2; [done|]. destruct (P w) eqn:E; [|done]. by rewrite (HPQ w E) in HQ. Qed.

(** Taking a frame from the allocator changes no tree. *)
Lemma alloc_one_kept root shape m P :
  pt_ok root shape m ->
  let '(phys, st) := pa_alloc 1 (pmem m) in
  entries_kept P root m (with_pmem st m) /\ (phys = 0 \/ exists a, phys = a * PAGE_SIZE /\ 0 < a < 2 ^ 20).
Proof.
  intros Hok. destruct (pa_alloc_spec (pmem m) 1 (po_inv _ _ _ Hok) ltac:(lia)) as (Hst & _ & Ha).
  destruct (pa_alloc 1 (pmem m)) as [phys st]. cbn [fst snd] in *. destruct Ha as [[-> ->]|(a & -> & Hsub & Hfr)].
  - split; [|by left]. replace (with_pmem (pmem m) m) with m by (by destruct m). by eapply entries_kept_refl.
  - assert (Hin : a ∈ pa_frames (pmem m)) by (apply Hsub, elem_of_frame_range; lia).
    split; [|right; exists a; split; [done|]; by apply (pa_frames_managed _ _ (po_inv _ _ _ Hok))].
    split; [|done]. exists shape. apply pt_pmem; [done|done|]. intros u [l p] Hu.
    pose proof (ta_used _ _ _ (po_table _ _ _ Hok _ _ _ Hu)). rewrite Hfr. set_solver.
Qed.

Lemma mmu_map_kept root shape m virt phys flags (P : Z -> bool) :
  pt_ok root shape m -> user_page (vpn virt) -> 0 <= phys < 2 ^ 64 -> 0 <= flags < 2 ^ 64 -> P (vpn virt) = true ->
  entries_kept P root m (mmu_map root virt phys flags m).2.
Proof.
  intros Hok Hu Hp Hf HP. pose proof (mmu_map_spec root shape m Hok virt Hu phys flags Hp Hf) as Hm.
  destruct (mmu_map root virt phys flags m) as [ret m']. cbn [snd].
  assert (Hls : exists v, leaf_set root shape m (vpn virt) v m') by (destruct Hm as [(_ & _ & ?)|[(_ & _ & ?)|(_ & _ & ? & _)]]; eauto).
  destruct Hls as (v & [(sh & _ & Hok' & _) He _ _ _ _]). split; [by exists sh|]. intros w Hw Hw'. rewrite He by done.
  case_decide; [congruence|done].
Qed.

Lemma clone_pages_kept from to n : forall addr s shape,
  pt_ok to shape (mm s) -> aligned addr -> 0 <= addr -> addr + Z.of_nat n * PAGE_SIZE <= 2 ^ 47 ->
  entries_kept (in_pages addr (addr + Z.of_nat n * PAGE_SIZE)) to (mm s) (mm (clone_pages n from to addr s).2).
Proof.
  induction n as [|n IH]; intros addr s shape Hok Ha H0 Hb; cbn [clone_pages]; [by eapply entries_kept_refl|].
  assert (Ha' : aligned (addr + PAGE_SIZE)) by (unfold aligned in *; by rewrite Z.add_mod, Ha).
  unfold PAGE_SIZE in Hb. assert (Hr : 0 <= addr < 2 ^ 47) by lia.
  set (P := in_pages addr (addr + Z.of_nat (S n) * PAGE_SIZE)).
  assert (HP : forall w, P w = (w =? vpn addr) || in_pages (addr + PAGE_SIZE) (addr + PAGE_SIZE + Z.of_nat n * PAGE_SIZE) w).
  { intros w. unfold P. replace (Z.of_nat (S n)) with (Z.of_nat n + 1) by lia. apply in_pages_first; [done|done|lia]. }
  assert (Hrest : forall s' sh, pt_ok to sh (mm s') -> entries_kept P to (mm s') (mm (clone_pages n from to (addr + PAGE_SIZE) s').2)).
  { intros s' sh Hok'. eapply entries_kept_weaken; [|apply (IH (addr + PAGE_SIZE) s' sh Hok' Ha'); unfold PAGE_SIZE; lia].
    intros w Hw. rewrite HP, Hw. apply orb_true_r. }
  destruct (mmu_resolve from addr (mm s) =? 0); [by eapply Hrest|].
  pose proof (alloc_one_kept to shape (mm s) P Hok) as Hal. destruct (pa_alloc 1 (pmem (mm s))) as [phys st].
  destruct Hal as [Hk1 Hphys]. destruct (Z.eqb_spec phys 0); [done|].
  destruct Hphys as [?|(a & -> & Har)]; [done|]. cbn [with_mm with_ram mm ram].
  destruct (proj1 Hk1) as [sh1 Hok1]. set (flags := Z.land (mmu_get_flags from addr (mm s)) (u64 (Z.lnot PTE_COW))).
  assert (HPv : P (vpn addr) = true) by (by rewrite HP, Z.eqb_refl).
  pose proof (mmu_map_kept to sh1 _ addr (a * PAGE_SIZE) flags P Hok1 (proj2 (user_vpn addr Hr)) ltac:(unfold PAGE_SIZE; lia) (land_word _ _ (u64_range _)) HPv) as Hk2.
  destruct (proj1 Hk2) as [sh2 Hok2]. eapply entries_kept_trans; [exact Hk1|]. eapply entries_kept_trans; [exact Hk2|].
  match goal with |- context [clone_pages n from to _ ?x] => exact (Hrest x sh2 Hok2) end.
Qed.

(** The pages that lie in an area. *)
Definition in_areas (l : list vm_area) (w : Z) : bool := is_some (view l (w * PAGE_SIZE)).

Lemma insert_last asp v :
  areas_ok 0 (vma_list asp ++ [v]) -> areas asp (vma_list asp) ->
  let asp' := (vmm_insert_vma asp v).2 in areas asp' (vma_list asp ++ [v]) /\ same_bounds asp asp'.
Proof.
  intros Hok [_ Hc]. destruct (areas_app_inv _ _ _ _ Hok) as (Hv & _ & Hbef). pose proof (vo_range _ Hv).
  apply (insert_areas (vma_list asp) v []); rewrite ?app_nil_r; try done.
  rewrite <- (app_nil_r (vma_list asp)) at 1. apply link_at; [lia| | |done].
  - intros u Hu. destruct (Hbef u Hu) as [Hu' ?]. pose proof (vo_range _ Hu'). lia.
  - intros u Hu. by apply not_elem_of_nil in Hu.
Qed.

Lemma clone_vmas_spec from l : forall pre new_as s shape,
  areas_ok 0 (pre ++ l) -> areas new_as pre -> pt_ok (pt new_as) shape (mm s) ->
  let '(ok, asp', s') := clone_vmas l from new_as s in
  same_bounds new_as asp' /\ entries_kept (in_areas l) (pt new_as) (mm s) (mm s') /\ (ok = true -> areas asp' (pre ++ l)).
Proof.
  induction l as [|v next IH]; intros pre new_as s shape Hok Har Hpt; cbn [clone_vmas].
  { rewrite app_nil_r. split_and!; [done|by eapply entries_kept_refl|done]. }
  unfold vmm_create_vma. rewrite kmalloc_next_eq. destruct (next_alloc s); cbn [negb]; [|split_and!; [done|by eapply entries_kept_refl|done]].
  replace (set_vma _ _ _ _) with v by (by destruct v). pose proof (ar_list _ _ Har) as El.
  destruct (areas_app_inv _ _ _ _ Hok) as ([Hr He [Ha1 Ha2]] & Hnext & _). unfold USER_SPACE_END in He.
  destruct (insert_last new_as v) as [Har1 Hsb1]; [|by rewrite El|].
  { rewrite El. clear -Hok. change (v :: next) with ([v] ++ next) in Hok. rewrite app_assoc in Hok. revert Hok. generalize 0 (pre ++ [v]).
    intros lo l. revert lo. induction l as [|u r IH]; intros lo; [done|]. cbn. intros (? & ? & ?). split_and!; [done|done|by apply IH]. }
  rewrite El in Har1. destruct (vmm_insert_vma new_as v) as [ret as1]. cbn [snd] in *. pose proof (sb_pt _ _ Hsb1) as Ept.
  destruct (pages_aligned (vm_start v) (vm_end v) Ha1 Ha2) as [-> Hn]. set (n := (vm_end v - vm_start v) / PAGE_SIZE) in *.
  assert (Hn0 : 0 <= n) by (unfold PAGE_SIZE in Hn; lia). set (s1 := Machine (mm s) (ram s) _).
  pose proof (clone_pages_kept from (pt as1) (Z.to_nat n) (vm_start v) s1 shape) as Hk. rewrite Z2Nat.id, Hn, Ept in Hk by done.
  specialize (Hk Hpt Ha1 ltac:(lia) ltac:(lia)). rewrite Ept. destruct (clone_pages (Z.to_nat n) from (pt new_as) (vm_start v) s1) as [ok s2].
  assert (Hk' : entries_kept (in_areas (v :: next)) (pt new_as) (mm s) (mm s2)).
  { eapply entries_kept_weaken; [|exact Hk]. intros w Hw. unfold in_areas. cbn [view]. unfold in_pages in Hw.
    unfold covers. replace (vm_start v + (vm_end v - vm_start v)) with (vm_end v) in Hw by lia. by rewrite Hw. }
  destruct ok; [|split_and!; [done|done|done]]. destruct (proj1 Hk) as [sh2 Hok2]. rewrite <- Ept in Hok2.
  specialize (IH (pre ++ [v]) as1 s2 sh2). rewrite <- app_assoc in IH. specialize (IH Hok Har1 Hok2).
  destruct (clone_vmas next from as1 s2) as [[ok' asp'] s']. destruct IH as (Hsb2 & Hk2 & Hdone).
  split_and!; [by etrans| |done]. eapply entries_kept_trans; [exact Hk'|]. rewrite Ept in Hk2.
  eapply entries_kept_weaken; [|exact Hk2]. intros w. unfold in_areas. cbn [view]. by destruct (covers v (w * PAGE_SIZE)).
Qed.

(** The child of a fork has the areas and the boundaries of its parent, the
    break included, but of its pages only those that lie in an area: every page
    outside the areas, such as the heap pages that [vmm_brk] maps without an area,
    is absent in the child. *)
Theorem clone_only_areas k asp s new_as s' :
  kernel_root k (mm s) -> areas_ok 0 (vma_list asp) ->
  vmm_clone_address_space k asp s = (Some new_as, s') ->
  vma_list new_as = vma_list asp /\ with_bounds asp new_as = new_as /\ (exists shape, pt_ok (pt new_as) shape (mm s')) /\
  forall w, user_page w -> view (vma_list asp) (w * PAGE_SIZE) = None -> pt_entry (mm s') (pt new_as) w = 0.
Proof.
  intros Hk Har. unfold vmm_clone_address_space, vmm_create_address_space. rewrite !kmalloc_next_eq.
  destruct (next_alloc s); cbn [negb]; [|done]. cbn [mm ram allocs]. set (s1 := Machine (mm s) (ram s) (tail (allocs s))).
  pose proof (mmu_create_correct k (mm s) (next_alloc s1) Hk) as Hcr.
  destruct (mmu_create_page_table k (next_alloc s1) (mm s)) as [root m1].
  destruct (Z.eqb_spec root 0); [done|]. destruct Hcr as [[? _]|(_ & _ & Hok & Hent & _)]; [done|].
  set (as0 := AddressSpace root [] 0 0 USER_HEAP_BASE USER_HEAP_BASE 0 0 0 0 0). set (s2 := with_mm m1 _).
  assert (Ha0 : areas as0 []) by done.
  pose proof (clone_vmas_spec (pt asp) (vma_list asp) [] as0 s2 _ Har Ha0 Hok) as Hc.
  destruct (clone_vmas (vma_list asp) (pt asp) as0 s2) as [[ok as1] s3]. destruct Hc as (Hsb & [Hok3 Hkept] & Hdone).
  destruct ok; [|done]. intros [= <- <-]. destruct (Hdone eq_refl) as [El _]. pose proof (sb_pt _ _ Hsb) as Ept. cbn [pt as0] in *.
  change (pt (with_bounds asp as1)) with (pt as1). rewrite Ept. split_and!; [exact El|done|done|].
  intros w Hw Hv. rewrite Hkept; [by apply Hent|done|unfold in_areas; by rewrite Hv].
Qed.
End clone.

(** ** A heap page that the child does not get *)

Definition vm_heap : machine pmm := (vmm_brk 0x20001000 asp_4 vm_4).2.

Lemma vm_heap_inv : pa_inv (pmem (mm vm_heap)).
Proof.
  pose proof (brk_grow_spec user_root ∅ 1 0x20000000 f_4 vm_4 (vk_space _ _ _ _ vm_4_ok) eq_refl ltac:(lia) ltac:(unfold PAGE_SIZE; lia)) as Hg.
  unfold vm_heap, vmm_brk. change (0x20001000 =? 0) with false. change (ALIGN_UP 0x20001000 PAGE_SIZE) with 0x20001000.
  change (0x20001000 <? brk_start asp_4) with false. change (0x20001000 >? brk_end asp_4) with true.
  change (Z.to_nat (pages (brk_end asp_4) 0x20001000)) with 1%nat. change (brk_end asp_4) with 0x20000000. change (pt asp_4) with user_root.
  cbv iota. destruct (brk_grow 1 user_root 0x20000000 vm_4) as [ok s']. destruct Hg as (k & f' & _ & _ & Hg).
  destruct (se_tree _ _ _ _ (bg_space _ _ _ _ _ _ _ _ Hg)) as (sh & Hok & _). pose proof (po_inv _ _ _ Hok). by destruct ok.
Qed.

Lemma vm_heap_ok : kernel_root kernel_pml4 (mm vm_heap).
Proof.
  assert (E : tabs (mm vm_heap) !! kernel_pml4 = tabs kernel_mmu !! kernel_pml4) by (vm_compute; reflexivity).
  split; [apply vm_heap_inv| |].
  - apply outside_512; [apply vm_heap_inv|vm_compute; reflexivity|vm_compute; discriminate].
  - rewrite E. apply kernel_mmu_ok.
Qed.

Lemma cloned_pair {A B} (d : A) (r : option A * B) : is_some r.1 = true -> r = (Some (default d r.1), r.2).
Proof. destruct r as [[a|] b]; done. Qed.

Lemma clone_only_areas_witness :
  let fork := vmm_clone_address_space kernel_pml4 asp_4 vm_heap in
  mmu_resolve user_root 0x20000000 (mm vm_heap) <> 0 /\ pt_entry (mm fork.2) (pt (default asp_4 fork.1)) (vpn 0x20000000) = 0.
Proof.
  intros fork. split; [vm_compute; discriminate|]. unfold fork.
  assert (Hs : is_some (vmm_clone_address_space kernel_pml4 asp_4 vm_heap).1 = true) by (vm_compute; reflexivity).
  destruct (clone_only_areas kernel_pml4 asp_4 vm_heap _ _ vm_heap_ok (proj1 asp_4_areas) (cloned_pair asp_4 _ Hs)) as (_ & _ & _ & H).
  exact (H (vpn 0x20000000) (proj2 (user_vpn 0x20000000 ltac:(lia))) eq_refl).
Defined.
