(* ===== verification/ObjectHeap.v ===== *)
(** * What the kernel heap promises to its clients

    The interface between kmalloc.c and the components that keep their records
    in memory it hands out.  A client knows the set of blocks it holds: a block
    is never handed out twice while it is held, and it can be released at any
    time.  The heap of Kmalloc implements the interface for blocks up to 8192
    bytes (above, [kfree] does not release anything). *)

From S2P Require Import Prelude PageAllocator Kmalloc KmallocHeap KmallocProps.

Class ObjectHeap (H : Type) := {
  oh_ok : H -> gset Z -> Prop;
  oh_alloc : Z -> H -> Z * H;
  oh_zalloc : Z -> H -> Z * H;
  oh_free : Z -> H -> H;
  oh_alloc_spec h L n : oh_ok h L -> 0 < n <= 8192 ->
    let '(p, h') := oh_alloc n h in
    p = 0 /\ oh_ok h' L \/ 0 < p /\ p mod 8 = 0 /\ (p ∉ L) /\ oh_ok h' ({[p]} ∪ L);
  oh_zalloc_spec h L n : oh_ok h L -> 0 < n <= 8192 ->
    let '(p, h') := oh_zalloc n h in
    p = 0 /\ oh_ok h' L \/ 0 < p /\ p mod 8 = 0 /\ (p ∉ L) /\ oh_ok h' ({[p]} ∪ L);
  oh_free_spec h L p : oh_ok h L -> p ∈ L -> oh_ok (oh_free p h) (L ∖ {[p]})
}.

(** ** What a client holds, as a list *)

Section Held.
Context {H : Type} `{ObjectHeap H}.

Lemma held_free (h : H) (L : gset Z) a l :
  oh_ok h (L ∪ list_to_set (a :: l)) -> (a ∉ L) -> (a ∉ l) -> oh_ok (oh_free a h) (L ∪ list_to_set l).
Proof.
  intros Hh HL Hl. replace (L ∪ list_to_set l) with ((L ∪ list_to_set (a :: l)) ∖ {[a]}).
  - apply oh_free_spec; [done|set_solver].
  - apply set_eq. intros x. rewrite elem_of_difference, !elem_of_union, !elem_of_list_to_set, elem_of_singleton, elem_of_cons.
    destruct (decide (x = a)) as [->|]; tauto.
Qed.

Lemma held_perm (h : H) (L : gset Z) l l' : l ≡ₚ l' -> oh_ok h (L ∪ list_to_set l) -> oh_ok h (L ∪ list_to_set l').
Proof. intros Hp. by rewrite (list_to_set_perm_L _ _ Hp). Qed.

Lemma held_cons (h : H) (L : gset Z) p l : oh_ok h ({[p]} ∪ (L ∪ list_to_set l)) -> oh_ok h (L ∪ list_to_set (p :: l)).
Proof. cbn. by rewrite (assoc_L (∪)), (comm_L (∪) {[p]}), <- (assoc_L (∪)). Qed.
End Held.

(** ** The heap of kmalloc.c implements it *)

Section Kmalloc.
Context {St : Type} `{PageAllocator St}.
Implicit Types (h : heap St).

Definition holds h (L : gset Z) : Prop :=
  exists X, kmalloc_ok X h /\ forall p, p ∈ L -> exists c, live h c p.

Lemma free_statics c p h : same_statics h (kmem_cache_free c p h).
Proof.
  unfold kmem_cache_free, put_obj, same_statics. repeat (case_match; simplify_eq; try done).
Qed.

Lemma upd_caches c f h : (forall k, same_geom k (f k) /\ object_size (f k) = object_size k) -> same_caches h (upd_cache c f h).
Proof.
  intros Hf d. cbn. destruct (decide (d = c)) as [->|].
  - rewrite lookup_alter_eq. destruct (caches h !! c) as [k|]; [apply (Hf k)|done].
  - rewrite lookup_alter_ne by done. by destruct (caches h !! d).
Qed.

Lemma put_caches c k s sl p h : same_caches h (put_obj c k s sl p h).
Proof.
  unfold put_obj. destruct (inuse sl =? 0); [done|].
  set (h1 := with_stats _ _ _). assert (H1 : same_caches h h1).
  { apply (upd_caches c _ (with_slabs (<[s := slab_free_obj k p sl]> (slabs h)) h)). intros k1. by case_match. }
  repeat case_match; [| |done]; etrans; try exact H1; apply upd_caches; done.
Qed.

Lemma free_caches c p h : same_caches h (kmem_cache_free c p h).
Proof. unfold kmem_cache_free. repeat (case_match; simplify_eq; try done); apply put_caches. Qed.

Lemma live_nz X h c p : heap_ok X h -> live h c p -> 0 < p.
Proof.
  intros Hh (s & sl & k & i & Hs & Ho & Hk & Hi & _ & ->). subst c.
  destruct (slab_in_of X h s sl k Hh Hs Hk) as [Hin Hk']. by apply (obj_addr_pos X h s sl k i).
Qed.

Lemma live_aligned X h c k p : heap_ok X h -> live h c p -> caches h !! c = Some k -> aligned_size k mod 8 = 0 -> p mod 8 = 0.
Proof.
  intros Hh (s & sl & k' & i & Hs & Ho & Hk & Hi & _ & ->) Hc Hm. assert (k' = k) as -> by congruence. subst c.
  destruct (slab_in_of X h s sl k Hh Hs Hc) as [Hin Hk'].
  destruct (obj_in_slab X h s sl k i Hin Hk' Hi) as (-> & _ & _).
  destruct (si_located _ _ _ _ _ Hin) as [Ha _ _ _]. apply Z.mod_divide in Hm as [q Hq]; [|done]. apply Z.mod_divide; [done|].
  rewrite Ha, Hq. unfold KERNEL_PHYS_MAP_BASE, PAGE_SIZE, sizeof_slab.
  exists (0x1FFFF11000000000 + slab_pfn s * 512 + 6 + i * q). lia.
Qed.

Lemma kmalloc_holds h (L : gset Z) n : holds h L -> 0 < n <= 8192 ->
  let '(p, h') := kmalloc n h in
  p = 0 /\ holds h' L \/ 0 < p /\ p mod 8 = 0 /\ (p ∉ L) /\ holds h' ({[p]} ∪ L).
Proof.
  intros (X & Hok & HL) Hn. pose proof Hok as [Hh Hi Hc]. unfold kmalloc. rewrite Hi. cbn [negb].
  destruct (Z.eqb_spec n 0); [lia|]. pose proof (find_size_class_spec n ltac:(lia)) as Hf.
  destruct (find_range _ _ _) as [i|]; [|lia]. destruct Hf as (-> & Hr & _ & _).
  destruct (Z.geb_spec i 0); [|lia]. destruct (Hc i Hr) as (k & Hk & Ha).
  pose proof (alloc_spec X h _ k Hh Hk) as Hal. pose proof (alloc_statics (aget (size_caches h) i) h) as Hst.
  destruct (kmem_cache_alloc _ h) as [p h']. cbn [snd] in Hst.
  destruct Hal as (Hh' & Hsc & [(-> & -> & _)|(Hp & Hfr & Hlv)]); [left; split; [done|by exists X]|].
  destruct (same_caches_lookup _ _ _ _ Hsc Hk) as (k' & Hk' & (Ga & _) & _).
  assert (Hl : live h' (aget (size_caches h) i) p) by (apply Hlv; by right).
  right. split_and!.
  - apply (live_nz X h' _ p Hh' Hl).
  - apply (live_aligned X h' _ k' p Hh' Hl Hk'). rewrite Ga, Ha, size_classes_pow2 by done.
    apply Z.mod_divide; [done|]. exists (2 ^ i). rewrite Z.pow_add_r by lia. done.
  - intros Hin. destruct (HL p Hin) as [c Hc']. by apply (Hfr c).
  - exists X. split; [by eapply kmalloc_ok_step|]. intros q [->%elem_of_singleton|Hq]%elem_of_union; [by eexists|].
    destruct (HL q Hq) as [c Hc']. exists c. apply Hlv. by left.
Qed.

Lemma holds_bytes h L m : holds h L -> holds (with_bytes m h) L.
Proof.
  intros (X & Hok & HL). exists X. split; [by apply kmalloc_ok_bytes|]. intros p Hp. destruct (HL p Hp) as [c Hc].
  exists c. by apply live_bytes.
Qed.

Lemma kzalloc_holds h (L : gset Z) n : holds h L -> 0 < n <= 8192 ->
  let '(p, h') := kzalloc n h in
  p = 0 /\ holds h' L \/ 0 < p /\ p mod 8 = 0 /\ (p ∉ L) /\ holds h' ({[p]} ∪ L).
Proof.
  intros HL Hn. unfold kzalloc. pose proof (kmalloc_holds h L n HL Hn) as Hk. destruct (kmalloc n h) as [p h'].
  destruct Hk as [[-> Hk]|(? & ? & ? & Hk)]; [by left|]. rewrite (proj2 (Z.eqb_neq p 0)) by lia.
  right. split_and!; try done. by apply holds_bytes.
Qed.

Lemma kfree_holds h (L : gset Z) p : holds h L -> p ∈ L -> holds (kfree p h) (L ∖ {[p]}).
Proof.
  intros (X & Hok & HL) Hp. destruct (HL p Hp) as [c Hc]. pose proof Hok as [Hh Hi Hcl].
  pose proof (live_nz X h c p Hh Hc) as Hp0. destruct (Hcl 0 ltac:(done)) as (k & Hk & _).
  unfold kfree. rewrite (proj2 (Z.eqb_neq p 0)) by lia. rewrite Hi. cbn [negb].
  destruct (free_spec X h c _ k p Hh Hc Hk) as [Hh' Hlv]. exists X. split.
  - apply (kmalloc_ok_step X X h); [done|done|apply free_caches|apply free_statics].
  - intros q [Hq Hqp]%elem_of_difference. destruct (HL q Hq) as [c' Hc']. exists c'. apply Hlv. set_solver.
Qed.

#[export] Instance kmalloc_object_heap : ObjectHeap (heap St) := {
  oh_ok := holds;
  oh_alloc := kmalloc;
  oh_zalloc := kzalloc;
  oh_free := kfree;
  oh_alloc_spec := kmalloc_holds;
  oh_zalloc_spec := kzalloc_holds;
  oh_free_spec := kfree_holds
}.
End Kmalloc.

(** ** The heap of 512 frames of KmallocProps *)

From S2P Require Import Pmm.

Lemma heap_512_holds : oh_ok heap_512 ∅.
Proof. exists (PageAllocator.frame_range 16 256). split; [apply heap_512_ok|]. by intros p ?%elem_of_empty. Qed.
