(* ===== verification/RbTree.v ===== *)
(** * Red-black trees: kernel/lib/rbtree.c

    The tree lives in a store of [struct rb_node]s: [nodes] maps the address of
    a node to its three words, and [rb_root] is the word of the [struct
    rb_root] the operations are given.  The first word of a node packs the
    address of its parent with its colour, as in the C.  Every operation is a
    computation that reads and writes this store; following a pointer to
    something that is not a node (NULL included) is a fault, the [None] of the
    monad.  A [while] loop runs with one iteration more than there are nodes in
    the store; the theorems of RbTreeProps show that this always suffices and
    that no operation faults on a well-formed tree. *)

From S2P Require Import Prelude.

(** ** The store and its computations *)

Record rb_node := mkNode { rb_parent_color : Z; rb_right : Z; rb_left : Z }.

Record rb_mem := mkMem { nodes : gmap Z rb_node; rb_root : Z }.

Definition M (A : Type) : Type := rb_mem -> option (A * rb_mem).

#[export] Instance M_ret : MRet M := fun A x s => Some (x, s).
#[export] Instance M_bind : MBind M := fun A B f m s =>
  match m s with Some (x, s') => f x s' | None => None end.

(** [*p]: a fault when [p] is not the address of a node. *)
Definition rd (p : Z) : M rb_node := fun s =>
  match nodes s !! p with Some n => Some (n, s) | None => None end.

Definition modify (p : Z) (f : rb_node -> rb_node) (s : rb_mem) : rb_mem :=
  mkMem (alter f p (nodes s)) (rb_root s).

Definition wr (p : Z) (f : rb_node -> rb_node) : M unit := fun s =>
  match nodes s !! p with Some _ => Some (tt, modify p f s) | None => None end.

Definition get_left (p : Z) : M Z := n ← rd p; mret (rb_left n).
Definition get_right (p : Z) : M Z := n ← rd p; mret (rb_right n).

Definition with_left (x : Z) (n : rb_node) : rb_node := mkNode (rb_parent_color n) (rb_right n) x.
Definition with_right (x : Z) (n : rb_node) : rb_node := mkNode (rb_parent_color n) x (rb_left n).
Definition with_pc (x : Z) (n : rb_node) : rb_node := mkNode x (rb_right n) (rb_left n).

Definition set_left (p x : Z) : M unit := wr p (with_left x).
Definition set_right (p x : Z) : M unit := wr p (with_right x).

Definition get_root : M Z := fun s => Some (rb_root s, s).
Definition with_root (x : Z) (s : rb_mem) : rb_mem := mkMem (nodes s) x.
Definition set_root (x : Z) : M unit := fun s => Some (tt, with_root x s).

(** A [while] loop: the body gives the next value of the loop variables, or
    the result the loop leaves with. *)
Fixpoint iter {A B : Type} (fuel : nat) (body : A -> M (A + B)) (a : A) : M B :=
  match fuel with
  | O => fun _ => None
  | S fuel => r ← body a; match r with inl a => iter fuel body a | inr b => mret b end
  end.

Definition loop {A B : Type} (body : A -> M (A + B)) (a : A) : M B := fun s =>
  iter (S (size (nodes s))) body a s.

(** ** Colours and parents *)

Definition RB_RED : Z := 0.
Definition RB_BLACK : Z := 1.

Definition rb_parent (r : Z) : M Z := n ← rd r; mret (Z.land (rb_parent_color n) (-4)).
Definition rb_color (r : Z) : M Z := n ← rd r; mret (Z.land (rb_parent_color n) 1).
Definition rb_is_red (r : Z) : M bool := c ← rb_color r; mret (c =? 0).
Definition rb_is_black (r : Z) : M bool := c ← rb_color r; mret (negb (c =? 0)).

Definition rb_set_parent (rb p : Z) : M unit :=
  wr rb (fun n => with_pc (Z.lor (Z.land (rb_parent_color n) 3) p) n).

Definition rb_set_color (rb color : Z) : M unit :=
  wr rb (fun n => with_pc (Z.lor (Z.land (rb_parent_color n) (-2)) color) n).

(** [!p || rb_is_black(p)] and [p && rb_is_red(p)]. *)
Definition null_or_black (p : Z) : M bool := if p =? 0 then mret true else rb_is_black p.
Definition red_node (p : Z) : M bool := if p =? 0 then mret false else rb_is_red p.

(** ** Linking and rotating *)

(** The words a [struct rb_node **] can point to. *)
Inductive rb_slot := RootSlot | LeftOf (p : Z) | RightOf (p : Z).

Definition get_slot (l : rb_slot) : M Z :=
  match l with RootSlot => get_root | LeftOf p => get_left p | RightOf p => get_right p end.

Definition set_slot (l : rb_slot) (x : Z) : M unit :=
  match l with RootSlot => set_root x | LeftOf p => set_left p x | RightOf p => set_right p x end.

(** The node may be memory that was no node before: it is written whole. *)
Definition rb_link_node (node parent : Z) (rb_link : rb_slot) : M unit :=
  (fun s => Some (tt, mkMem (<[node := mkNode parent 0 0]> (nodes s)) (rb_root s))) ;;
  set_slot rb_link node.

Definition rb_rotate_left (node : Z) : M unit :=
  right ← get_right node;
  parent ← rb_parent node;
  rl ← get_left right;
  set_right node rl ;;
  (if rl =? 0 then mret tt else rb_set_parent rl node) ;;
  set_left right node ;;
  rb_set_parent right parent ;;
  (if parent =? 0 then set_root right
   else pl ← get_left parent;
        if node =? pl then set_left parent right else set_right parent right) ;;
  rb_set_parent node right.

Definition rb_rotate_right (node : Z) : M unit :=
  left ← get_left node;
  parent ← rb_parent node;
  lr ← get_right left;
  set_left node lr ;;
  (if lr =? 0 then mret tt else rb_set_parent lr node) ;;
  set_right left node ;;
  rb_set_parent left parent ;;
  (if parent =? 0 then set_root left
   else pr ← get_right parent;
        if node =? pr then set_right parent left else set_left parent left) ;;
  rb_set_parent node left.

(** ** Insertion *)

Definition insert_body (node : Z) : M (Z + unit) :=
  parent ← rb_parent node;
  if parent =? 0 then mret (inr tt) else
  red ← rb_is_red parent;
  if negb red then mret (inr tt) else
  gparent ← rb_parent parent;
  gl ← get_left gparent;
  if parent =? gl then
    uncle ← get_right gparent;
    ured ← red_node uncle;
    if (ured : bool) then
      rb_set_color uncle RB_BLACK ;;
      rb_set_color parent RB_BLACK ;;
      rb_set_color gparent RB_RED ;;
      mret (inl gparent)
    else
      pr ← get_right parent;
      np ← (if node =? pr then rb_rotate_left parent ;; mret (parent, node) else mret (node, parent));
      rb_set_color np.2 RB_BLACK ;;
      rb_set_color gparent RB_RED ;;
      rb_rotate_right gparent ;;
      mret (inl np.1)
  else
    uncle ← get_left gparent;
    ured ← red_node uncle;
    if (ured : bool) then
      rb_set_color uncle RB_BLACK ;;
      rb_set_color parent RB_BLACK ;;
      rb_set_color gparent RB_RED ;;
      mret (inl gparent)
    else
      pl ← get_left parent;
      np ← (if node =? pl then rb_rotate_right parent ;; mret (parent, node) else mret (node, parent));
      rb_set_color np.2 RB_BLACK ;;
      rb_set_color gparent RB_RED ;;
      rb_rotate_left gparent ;;
      mret (inl np.1).

Definition rb_insert_color (node : Z) : M unit :=
  loop insert_body node ;;
  root ← get_root;
  rb_set_color root RB_BLACK.

(** ** Removal *)

(** The loop of [rb_erase_color] when the node is a left child, from the test
    of the sibling's children on: the sibling is black there. *)
Definition erase_left_black (parent sibling : Z) : M (Z * Z + Z) :=
  sl ← get_left sibling;
  lb ← null_or_black sl;
  both ← (if (lb : bool) then sr ← get_right sibling; null_or_black sr else mret false);
  if (both : bool) then
    rb_set_color sibling RB_RED ;;
    up ← rb_parent parent;
    mret (inl (parent, up))
  else
    sr ← get_right sibling;
    far ← null_or_black sr;
    sibling ← (if (far : bool) then
                 sl ← get_left sibling;
                 rb_set_color sl RB_BLACK ;;
                 rb_set_color sibling RB_RED ;;
                 rb_rotate_right sibling ;;
                 get_right parent
               else mret sibling);
    pc ← rb_color parent;
    rb_set_color sibling pc ;;
    rb_set_color parent RB_BLACK ;;
    sr ← get_right sibling;
    rb_set_color sr RB_BLACK ;;
    rb_rotate_left parent ;;
    root ← get_root;
    mret (inr root).

Definition erase_left (parent : Z) : M (Z * Z + Z) :=
  sibling ← get_right parent;
  sred ← rb_is_red sibling;
  sibling ← (if (sred : bool) then
               rb_set_color sibling RB_BLACK ;;
               rb_set_color parent RB_RED ;;
               rb_rotate_left parent ;;
               get_right parent
             else mret sibling);
  erase_left_black parent sibling.

(** The same when the node is a right child. *)
Definition erase_right_black (parent sibling : Z) : M (Z * Z + Z) :=
  sl ← get_left sibling;
  lb ← null_or_black sl;
  both ← (if (lb : bool) then sr ← get_right sibling; null_or_black sr else mret false);
  if (both : bool) then
    rb_set_color sibling RB_RED ;;
    up ← rb_parent parent;
    mret (inl (parent, up))
  else
    sl ← get_left sibling;
    far ← null_or_black sl;
    sibling ← (if (far : bool) then
                 sr ← get_right sibling;
                 rb_set_color sr RB_BLACK ;;
                 rb_set_color sibling RB_RED ;;
                 rb_rotate_left sibling ;;
                 get_left parent
               else mret sibling);
    pc ← rb_color parent;
    rb_set_color sibling pc ;;
    rb_set_color parent RB_BLACK ;;
    sl ← get_left sibling;
    rb_set_color sl RB_BLACK ;;
    rb_rotate_right parent ;;
    root ← get_root;
    mret (inr root).

Definition erase_right (parent : Z) : M (Z * Z + Z) :=
  sibling ← get_left parent;
  sred ← rb_is_red sibling;
  sibling ← (if (sred : bool) then
               rb_set_color sibling RB_BLACK ;;
               rb_set_color parent RB_RED ;;
               rb_rotate_right parent ;;
               get_left parent
             else mret sibling);
  erase_right_black parent sibling.

Definition erase_body (np : Z * Z) : M (Z * Z + Z) :=
  let '(node, parent) := np in
  black ← null_or_black node;
  root ← get_root;
  if (negb black || (node =? root))%bool then mret (inr node) else
  pl ← get_left parent;
  if pl =? node then erase_left parent else erase_right parent.

Definition rb_erase_color (node parent : Z) : M unit :=
  node ← loop erase_body (node, parent);
  if node =? 0 then mret tt else rb_set_color node RB_BLACK.

(** [while ((left = node->rb_left)) node = left;] and its mirror image. *)
Definition leftmost_body (node : Z) : M (Z + Z) :=
  left ← get_left node; mret (if left =? 0 then inr node else inl left).
Definition rightmost_body (node : Z) : M (Z + Z) :=
  right ← get_right node; mret (if right =? 0 then inr node else inl right).

(** The tail of [rb_erase] behind the label [color]. *)
Definition erase_finish (color child parent : Z) : M unit :=
  if color =? RB_BLACK then rb_erase_color child parent else mret tt.

(** A node with at most one child: the child takes its place. *)
Definition erase_splice (node child : Z) : M unit :=
  parent ← rb_parent node;
  color ← rb_color node;
  (if child =? 0 then mret tt else rb_set_parent child parent) ;;
  (if parent =? 0 then set_root child
   else pl ← get_left parent;
        if pl =? node then set_left parent child else set_right parent child) ;;
  erase_finish color child parent.

(** A node with two children: its successor takes its place. *)
Definition erase_two (old : Z) : M unit :=
  r ← get_right old;
  node ← loop leftmost_body r;
  oparent ← rb_parent old;
  (if oparent =? 0 then set_root node
   else pl ← get_left oparent;
        if pl =? old then set_left oparent node else set_right oparent node) ;;
  child ← get_right node;
  parent ← rb_parent node;
  color ← rb_color node;
  parent ← (if parent =? old then mret node
            else (if child =? 0 then mret tt else rb_set_parent child parent) ;;
                 set_left parent child ;;
                 r ← get_right old;
                 set_right node r ;;
                 rb_set_parent r node ;;
                 mret parent);
  o ← rd old;
  wr node (with_pc (rb_parent_color o)) ;;
  set_left node (rb_left o) ;;
  rb_set_parent (rb_left o) node ;;
  erase_finish color child parent.

Definition rb_erase (node : Z) : M unit :=
  left ← get_left node;
  right ← get_right node;
  if left =? 0 then erase_splice node right
  else if right =? 0 then erase_splice node left
  else erase_two node.

(** ** Walking *)

Definition rb_first : M Z :=
  n ← get_root; if n =? 0 then mret 0 else loop leftmost_body n.

Definition rb_last : M Z :=
  n ← get_root; if n =? 0 then mret 0 else loop rightmost_body n.

Definition next_body (node : Z) : M (Z + Z) :=
  parent ← rb_parent node;
  if parent =? 0 then mret (inr parent) else
  pr ← get_right parent;
  mret (if node =? pr then inl parent else inr parent).

Definition prev_body (node : Z) : M (Z + Z) :=
  parent ← rb_parent node;
  if parent =? 0 then mret (inr parent) else
  pl ← get_left parent;
  mret (if node =? pl then inl parent else inr parent).

Definition rb_next (node : Z) : M Z :=
  if node =? 0 then mret 0 else
  right ← get_right node;
  if right =? 0 then loop next_body node else loop leftmost_body right.

Definition rb_prev (node : Z) : M Z :=
  if node =? 0 then mret 0 else
  left ← get_left node;
  if left =? 0 then loop prev_body node else loop rightmost_body left.

