(* ===== verification/RbTreeHeap.v ===== *)
(** * Red-black trees in the store

    What it means that the nodes of a store form a given tree ([tree_at]), and
    the effect of every elementary step and of the rotations of RbTree on the
    node a path (a zipper, [ctx]) leads to.  The computations are reasoned about
    with [wp]: the computation does not fault and its result and final store
    satisfy a postcondition. *)

From S2P Require Import Prelude RbTree.

(** ** Weakest preconditions *)

Definition wp {A : Type} (m : M A) (Q : A -> rb_mem -> Prop) (s : rb_mem) : Prop :=
  exists x s', m s = Some (x, s') /\ Q x s'.

Lemma wp_ret {A : Type} (x : A) (Q : A -> rb_mem -> Prop) s : Q x s -> wp (mret x) Q s.
Proof. intros H. by exists x, s. Qed.

Lemma wp_bind {A B : Type} (m : M A) (f : A -> M B) (Q : B -> rb_mem -> Prop) s :
  wp m (fun x s' => wp (f x) Q s') s -> wp (m ≫= f) Q s.
Proof.
  intros (x & s1 & E & y & s2 & E2 & H). exists y, s2. split; [|done].
  unfold mbind, M_bind. by rewrite E.
Qed.

Lemma wp_mono {A : Type} (m : M A) (P Q : A -> rb_mem -> Prop) s :
  wp m P s -> (forall x s', P x s' -> Q x s') -> wp m Q s.
Proof. intros (x & s1 & E & H) HPQ. exists x, s1. auto. Qed.

Lemma wp_rd p n (Q : rb_node -> rb_mem -> Prop) s : nodes s !! p = Some n -> Q n s -> wp (rd p) Q s.
Proof. intros E H. exists n, s. split; [|done]. unfold rd. by rewrite E. Qed.

Lemma wp_wr p n f (Q : unit -> rb_mem -> Prop) s :
  nodes s !! p = Some n -> Q tt (modify p f s) -> wp (wr p f) Q s.
Proof. intros E H. exists tt, (modify p f s). split; [|done]. unfold wr. by rewrite E. Qed.

Lemma wp_if {A : Type} (b : bool) (m1 m2 : M A) (Q : A -> rb_mem -> Prop) s :
  (b = true -> wp m1 Q s) -> (b = false -> wp m2 Q s) -> wp (if b then m1 else m2) Q s.
Proof. destruct b; auto. Qed.

Lemma wp_iter {A B : Type} fuel (body : A -> M (A + B)) a (Q : B -> rb_mem -> Prop) s :
  wp (body a) (fun r s' => match r with inl a' => wp (iter fuel body a') Q s' | inr b => Q b s' end) s ->
  wp (iter (S fuel) body a) Q s.
Proof.
  intros H. cbn [iter]. apply wp_bind, (wp_mono _ _ _ _ H). intros [a'|b] s' H'; [done|]. by apply wp_ret.
Qed.

(** ** The packed word *)

Inductive color := Red | Black.

#[export] Instance color_eq_dec : EqDecision color.
Proof. solve_decision. Defined.

Definition cz (c : color) : Z := match c with Red => RB_RED | Black => RB_BLACK end.

Definition node_addr (a : Z) : Prop := 0 < a /\ Z.land a 3 = 0.

Definition pack (p : Z) (c : color) : Z := Z.lor p (cz c).

Lemma land_m4 p : Z.land p 3 = 0 -> Z.land p (-4) = p.
Proof.
  intros H. change (-4) with (Z.lnot 3). rewrite <- Z.ldiff_land.
  rewrite <- (Z.lor_ldiff_and p 3) at 2. by rewrite H, Z.lor_0_r.
Qed.

Section Packed.
Context (p : Z) (Hp : Z.land p 3 = 0).

Lemma pack_parent c : Z.land (pack p c) (-4) = p.
Proof. unfold pack. rewrite Z.land_lor_distr_l, (land_m4 p Hp). destruct c; apply Z.lor_0_r. Qed.

Lemma pack_color c : Z.land (pack p c) 1 = cz c.
Proof.
  unfold pack. rewrite Z.land_lor_distr_l. change (Z.land p 1) with (Z.land p (Z.land 3 1)).
  rewrite Z.land_assoc, Hp. by destruct c.
Qed.

Lemma pack_set_parent c q : Z.lor (Z.land (pack p c) 3) q = pack q c.
Proof. unfold pack. rewrite Z.land_lor_distr_l, Hp, (Z.lor_comm q). by destruct c. Qed.

Lemma pack_set_color c d : Z.lor (Z.land (pack p c) (-2)) (cz d) = pack p d.
Proof.
  unfold pack. rewrite Z.land_lor_distr_l.
  assert (E : Z.land p (-2) = p) by (rewrite <- (land_m4 p Hp) at 1; rewrite <- Z.land_assoc; apply (land_m4 p Hp)).
  rewrite E. f_equal. destruct c; cbn; apply Z.lor_0_r.
Qed.
End Packed.

Lemma pack_red p : pack p Red = p.
Proof. apply Z.lor_0_r. Qed.

(** ** Trees and paths *)

Inductive tree := Leaf | Node (c : color) (l : tree) (a : Z) (r : tree).

Definition root_of (t : tree) : Z := match t with Leaf => 0 | Node _ _ a _ => a end.

Fixpoint inorder (t : tree) : list Z :=
  match t with Leaf => [] | Node _ l a r => inorder l ++ a :: inorder r end.

(** One step of a path from a node to the root: the node is the left or the
    right child of [a]. *)
Inductive frame := Lf (c : color) (a : Z) (r : tree) | Rt (c : color) (l : tree) (a : Z).

Definition ctx : Type := list frame.

Definition frame_addr (f : frame) : Z := match f with Lf _ a _ | Rt _ _ a => a end.

Definition top (k : ctx) : Z := match k with [] => 0 | f :: _ => frame_addr f end.

Fixpoint zip (k : ctx) (t : tree) : tree :=
  match k with
  | [] => t
  | Lf c a r :: k => zip k (Node c t a r)
  | Rt c l a :: k => zip k (Node c l a t)
  end.

(** The nodes in order before and after the hole. *)
Fixpoint before (k : ctx) : list Z :=
  match k with [] => [] | Lf _ _ _ :: k => before k | Rt _ l a :: k => before k ++ inorder l ++ [a] end.
Fixpoint after (k : ctx) : list Z :=
  match k with [] => [] | Lf _ a r :: k => a :: inorder r ++ after k | Rt _ _ _ :: k => after k end.

Lemma inorder_zip k t : inorder (zip k t) = before k ++ inorder t ++ after k.
Proof.
  revert t. induction k as [|[c a r|c l a] k IH]; intros t; cbn [zip before after].
  - cbn. by rewrite app_nil_r.
  - rewrite IH. cbn [inorder]. by rewrite <- !app_assoc.
  - rewrite IH. cbn [inorder]. by rewrite <- !app_assoc.
Qed.

Lemma zip_app k1 k2 t : zip (k1 ++ k2) t = zip k2 (zip k1 t).
Proof. revert t. induction k1 as [|[c a r|c l a] k1 IH]; intros t; cbn; auto. Qed.

(** Every node of a tree is where some path leads. *)
Lemma find_node a t : a ∈ inorder t -> exists k c l r, t = zip k (Node c l a r).
Proof.
  induction t as [|c l IHl b r IHr]; cbn; [by intros ?%elem_of_nil|].
  intros [H|[->|H]%elem_of_cons]%elem_of_app.
  - destruct (IHl H) as (k & c' & l' & r' & ->). exists (k ++ [Lf c b r]), c', l', r'. by rewrite zip_app.
  - by exists [], c, l, r.
  - destruct (IHr H) as (k & c' & l' & r' & ->). exists (k ++ [Rt c l b]), c', l', r'. by rewrite zip_app.
Qed.

(** ** Trees in the store *)

Definition node_of (par : Z) (c : color) (l r : Z) : rb_node := mkNode (pack par c) r l.

(** The nodes of [t] are in the store, below the parent [par]. *)
Fixpoint sub (m : gmap Z rb_node) (t : tree) (par : Z) : Prop :=
  match t with
  | Leaf => True
  | Node c l a r => m !! a = Some (node_of par c (root_of l) (root_of r)) /\ sub m l a /\ sub m r a
  end.

(** The nodes around a hole that holds the address [p] are in the store. *)
Fixpoint around (s : rb_mem) (k : ctx) (p : Z) : Prop :=
  match k with
  | [] => rb_root s = p
  | Lf c a r :: k => nodes s !! a = Some (node_of (top k) c p (root_of r)) /\ sub (nodes s) r a /\ around s k a
  | Rt c l a :: k => nodes s !! a = Some (node_of (top k) c (root_of l) p) /\ sub (nodes s) l a /\ around s k a
  end.

(** The store holds the tree [t], and outside of its nodes agrees with [F]. *)
Record tree_at (F : gmap Z rb_node) (s : rb_mem) (t : tree) : Prop := {
  ta_sub : sub (nodes s) t 0;
  ta_root : rb_root s = root_of t;
  ta_nodup : NoDup (inorder t);
  ta_addr : Forall node_addr (inorder t);
  ta_rest : forall x, x ∉ inorder t -> nodes s !! x = F !! x
}.

Lemma sub_ext m m' t par : (forall x, x ∈ inorder t -> m' !! x = m !! x) -> sub m t par -> sub m' t par.
Proof.
  revert par. induction t as [|c l IHl a r IHr]; intros par Hx; cbn; [done|]. cbn in Hx.
  intros (Ha & Hl & Hr). rewrite Hx by set_solver. split; [done|]. split.
  - apply IHl; [|done]. intros x Hin. apply Hx. set_solver.
  - apply IHr; [|done]. intros x Hin. apply Hx. set_solver.
Qed.

(** The addresses of the nodes around the hole. *)
Fixpoint outer (k : ctx) : list Z :=
  match k with [] => [] | Lf _ a t :: k | Rt _ t a :: k => a :: inorder t ++ outer k end.

Lemma zip_perm k t : inorder (zip k t) ≡ₚ inorder t ++ outer k.
Proof.
  revert t. induction k as [|[c a r|c l a] k IH]; intros t; cbn [zip outer].
  - by rewrite app_nil_r.
  - rewrite IH. cbn [inorder]. by rewrite <- app_assoc.
  - rewrite IH. cbn [inorder]. rewrite <- !Permutation_middle. cbn. f_equiv.
    by rewrite (Permutation_app_comm (inorder l)), <- app_assoc.
Qed.

(** The same at the end of a path: the node there has its parent above it. *)
Record focus (F : gmap Z rb_node) (s : rb_mem) (k : ctx) (t : tree) : Prop := {
  fo_sub : sub (nodes s) t (top k);
  fo_around : around s k (root_of t);
  fo_nodup : NoDup (inorder t ++ outer k);
  fo_addr : Forall node_addr (inorder t ++ outer k);
  fo_rest : forall x, x ∉ inorder t ++ outer k -> nodes s !! x = F !! x
}.

Lemma sub_zip s k t :
  sub (nodes s) (zip k t) 0 /\ rb_root s = root_of (zip k t) <-> sub (nodes s) t (top k) /\ around s k (root_of t).
Proof.
  revert t. induction k as [|[c a r|c l a] k IH]; intros t; cbn [zip around top frame_addr]; [done| |];
    rewrite IH; cbn; tauto.
Qed.

Lemma tree_at_zip F s k t : tree_at F s (zip k t) <-> focus F s k t.
Proof.
  split; intros [H1 H2 H3 H4 H5].
  - destruct (proj1 (sub_zip s k t) (conj H1 H2)) as [Hs Ha]. rewrite zip_perm in H3, H4. split; try done.
    intros x Hx. apply H5. by rewrite zip_perm.
  - destruct (proj2 (sub_zip s k t) (conj H1 H2)) as [Hs Ha]. split; try done; try by rewrite zip_perm.
    intros x Hx. apply H5. by rewrite <- zip_perm.
Qed.

Lemma around_ext s s' k p :
  rb_root s' = rb_root s -> (forall x, x ∈ outer k -> nodes s' !! x = nodes s !! x) -> around s k p -> around s' k p.
Proof.
  intros Hr. revert p. induction k as [|[c a t|c t a] k IH]; intros p Hx; cbn; [congruence| |]; cbn in Hx;
    intros (Ha & Ht & Hk); rewrite Hx by set_solver; (split; [done|split]).
  1, 3: apply (sub_ext (nodes s)); [|done]; intros x Hin; apply Hx; set_solver.
  all: apply IH; [|done]; intros x Hin; apply Hx; set_solver.
Qed.

Lemma top_outer k : k <> [] -> top k ∈ outer k.
Proof. destruct k as [|[]]; cbn; [done|set_solver..]. Qed.

Lemma nodes_modify s p f x : nodes (modify p f s) !! x = if decide (x = p) then f <$> nodes s !! x else nodes s !! x.
Proof. cbn. case_decide as E; [subst; apply lookup_alter_eq|by apply lookup_alter_ne]. Qed.

Lemma NoDup_sep (l1 l2 : list Z) x : NoDup (l1 ++ l2) -> x ∈ l1 -> x ∉ l2.
Proof. intros (_ & H & _)%NoDup_app. apply H. Qed.

Lemma outer_nz F s k t : tree_at F s (zip k t) -> k <> [] -> top k <> 0.
Proof.
  intros [_ _ _ H4 _]%tree_at_zip Hk. rewrite Forall_forall in H4.
  destruct (H4 (top k)) as [? _]; [apply elem_of_app; right; by apply top_outer|lia].
Qed.

Lemma top_aligned F s k t : tree_at F s (zip k t) -> Z.land (top k) 3 = 0.
Proof.
  intros [_ _ _ H4 _]%tree_at_zip. rewrite Forall_forall in H4.
  destruct k as [|f k]; [done|]. apply H4, elem_of_app. right. by apply (top_outer (f :: k)).
Qed.

(** ** Elementary steps at the node a path leads to *)

Section Steps.
Context {F : gmap Z rb_node} {s : rb_mem}.
Context (k : ctx) (c : color) (l : tree) (a : Z) (r : tree).
Context (Ht : tree_at F s (zip k (Node c l a r))).

Lemma at_node : nodes s !! a = Some (node_of (top k) c (root_of l) (root_of r)).
Proof using Ht. by destruct (proj1 (tree_at_zip _ _ _ _) Ht) as [[? _] _ _ _ _]. Qed.

Lemma at_addr : node_addr a.
Proof using Ht.
  destruct (proj1 (tree_at_zip _ _ _ _) Ht) as [_ _ _ H _]. rewrite Forall_forall in H. apply H. cbn. set_solver.
Qed.

Lemma at_nz : a <> 0.
Proof using Ht. destruct at_addr. lia. Qed.

Lemma wp_get_left (Q : Z -> rb_mem -> Prop) : Q (root_of l) s -> wp (get_left a) Q s.
Proof using Ht. intros H. apply wp_bind, (wp_rd _ _ _ _ at_node), wp_ret, H. Qed.

Lemma wp_get_right (Q : Z -> rb_mem -> Prop) : Q (root_of r) s -> wp (get_right a) Q s.
Proof using Ht. intros H. apply wp_bind, (wp_rd _ _ _ _ at_node), wp_ret, H. Qed.

Lemma wp_parent (Q : Z -> rb_mem -> Prop) : Q (top k) s -> wp (rb_parent a) Q s.
Proof using Ht.
  intros H. apply wp_bind, (wp_rd _ _ _ _ at_node), wp_ret. cbn. by rewrite (pack_parent _ (top_aligned _ _ _ _ Ht)).
Qed.

Lemma wp_color (Q : Z -> rb_mem -> Prop) : Q (cz c) s -> wp (rb_color a) Q s.
Proof using Ht.
  intros H. apply wp_bind, (wp_rd _ _ _ _ at_node), wp_ret. cbn. by rewrite (pack_color _ (top_aligned _ _ _ _ Ht)).
Qed.

Lemma wp_is_red (Q : bool -> rb_mem -> Prop) : Q (match c with Red => true | Black => false end) s -> wp (rb_is_red a) Q s.
Proof using Ht. intros H. apply wp_bind, wp_color, wp_ret. by destruct c. Qed.

Lemma wp_is_black (Q : bool -> rb_mem -> Prop) : Q (match c with Red => false | Black => true end) s -> wp (rb_is_black a) Q s.
Proof using Ht. intros H. apply wp_bind, wp_color, wp_ret. by destruct c. Qed.

Lemma wp_set_color d (Q : unit -> rb_mem -> Prop) :
  (forall s', tree_at F s' (zip k (Node d l a r)) -> Q tt s') -> wp (rb_set_color a (cz d)) Q s.
Proof using Ht.
  intros H. apply (wp_wr _ _ _ _ _ at_node), H, tree_at_zip.
  pose proof (top_aligned _ _ _ _ Ht) as Htop. apply tree_at_zip in Ht as [(Ha & Hl & Hr) H2 H3 H4 H5].
  assert (Hx : forall x f, x <> a -> nodes (modify a f s) !! x = nodes s !! x)
    by (intros x f Hx; rewrite nodes_modify; by case_decide).
  pose proof H3 as (H6 & H7 & _)%NoDup_app. cbn in H6. apply NoDup_app in H6 as (_ & H8 & [H9 _]%NoDup_cons).
  split; try done.
  - cbn. rewrite lookup_alter_eq, Ha. cbn. rewrite (pack_set_color _ Htop). split; [done|].
    split; (apply (sub_ext (nodes s)); [|done]); intros x Hin; apply Hx; set_solver.
  - apply (around_ext s); [done| |done]. intros x Hin. apply Hx. intros ->. apply (H7 a); [cbn; set_solver|done].
  - intros x Hin. rewrite Hx; [by apply H5|]. cbn in Hin. set_solver.
Qed.
End Steps.

Definition is_black (t : tree) : bool := match t with Node Red _ _ _ => false | _ => true end.

Lemma wp_null_or_black {F s} k t (Ht : tree_at F s (zip k t)) (Q : bool -> rb_mem -> Prop) :
  Q (is_black t) s -> wp (null_or_black (root_of t)) Q s.
Proof.
  intros H. unfold null_or_black. destruct t as [|c l a r]; cbn [root_of]; [by apply wp_ret|].
  rewrite (proj2 (Z.eqb_neq a 0) (at_nz _ _ _ _ _ Ht)). apply (wp_is_black _ _ _ _ _ Ht). by destruct c.
Qed.

Lemma wp_red_node {F s} k t (Ht : tree_at F s (zip k t)) (Q : bool -> rb_mem -> Prop) :
  Q (negb (is_black t)) s -> wp (red_node (root_of t)) Q s.
Proof.
  intros H. unfold red_node. destruct t as [|c l a r]; cbn [root_of]; [by apply wp_ret|].
  rewrite (proj2 (Z.eqb_neq a 0) (at_nz _ _ _ _ _ Ht)). apply (wp_is_red _ _ _ _ _ Ht). by destruct c.
Qed.

(** ** Changing what a hole holds *)

Definition relink (k : ctx) (x : Z) (s : rb_mem) : rb_mem :=
  match k with
  | [] => with_root x s
  | Lf _ a _ :: _ => modify a (with_left x) s
  | Rt _ _ a :: _ => modify a (with_right x) s
  end.

Lemma nodes_relink k x s y : y ∉ outer k -> nodes (relink k x s) !! y = nodes s !! y.
Proof.
  destruct k as [|[c a t|c t a] k]; cbn [relink outer]; [done| |]; intros Hy; rewrite nodes_modify;
    case_decide; set_solver.
Qed.

Lemma around_relink k x s p : NoDup (outer k) -> around s k p -> around (relink k x s) k x.
Proof.
  destruct k as [|[c a t|c t a] k]; cbn [relink outer]; [done| |]; intros [Hn _]%NoDup_cons (Ha & Ht & Hk); cbn;
    rewrite lookup_alter_eq, Ha; (split; [done|split]).
  1, 3: apply (sub_ext (nodes s)); [|done]; intros y Hy; apply lookup_alter_ne; set_solver.
  all: apply (around_ext s); [done| |done]; intros y Hy; apply lookup_alter_ne; set_solver.
Qed.

Lemma root_in t : root_of t = 0 \/ root_of t ∈ inorder t.
Proof. destruct t; cbn; [by left|right; set_solver]. Qed.

Section Relink.
Context (k : ctx) (p x : Z) (s : rb_mem).
Context (Ha : around s k p) (Hp : p <> 0) (Hout : p ∉ outer k) (Hk : k <> [] -> top k <> 0).

Lemma wp_relink_left (test : Z -> bool) (Q : unit -> rb_mem -> Prop) :
  (forall y, test y = (p =? y)) ->
  Q tt (relink k x s) ->
  wp (if top k =? 0 then set_root x
      else pl ← get_left (top k); if test pl then set_left (top k) x else set_right (top k) x) Q s.
Proof using All.
  intros Htest H. destruct k as [|f k']; [by exists tt, (with_root x s)|].
  rewrite (proj2 (Z.eqb_neq (top (f :: k')) 0)) by (by apply Hk).
  destruct f as [c a t|c t a]; cbn [top frame_addr around relink outer] in *; destruct Ha as (Hn & Ht & _);
    apply wp_bind, wp_bind, (wp_rd _ _ _ _ Hn), wp_ret; cbn [rb_left node_of]; rewrite Htest.
  - rewrite Z.eqb_refl. by apply (wp_wr _ _ _ _ _ Hn).
  - rewrite (proj2 (Z.eqb_neq p (root_of t))); [by apply (wp_wr _ _ _ _ _ Hn)|].
    intros ->. destruct (root_in t); [done|set_solver].
Qed.

Lemma wp_relink_right (Q : unit -> rb_mem -> Prop) :
  Q tt (relink k x s) ->
  wp (if top k =? 0 then set_root x
      else pr ← get_right (top k); if p =? pr then set_right (top k) x else set_left (top k) x) Q s.
Proof using All.
  intros H. destruct k as [|f k']; [by exists tt, (with_root x s)|].
  rewrite (proj2 (Z.eqb_neq (top (f :: k')) 0)) by (by apply Hk).
  destruct f as [c a t|c t a]; cbn [top frame_addr around relink outer] in *; destruct Ha as (Hn & Ht & _);
    apply wp_bind, wp_bind, (wp_rd _ _ _ _ Hn), wp_ret; cbn [rb_right node_of].
  - rewrite (proj2 (Z.eqb_neq p (root_of t))); [by apply (wp_wr _ _ _ _ _ Hn)|].
    intros ->. destruct (root_in t); [done|set_solver].
  - rewrite Z.eqb_refl. by apply (wp_wr _ _ _ _ _ Hn).
Qed.
End Relink.

(** The parent word of the root of a tree, when it has a root. *)
Definition reparent_node (q : Z) (n : rb_node) : rb_node :=
  with_pc (Z.lor (Z.land (rb_parent_color n) 3) q) n.

Definition reparent (p q : Z) (s : rb_mem) : rb_mem := if p =? 0 then s else modify p (reparent_node q) s.

Lemma reparent_node_of par c l r q : Z.land par 3 = 0 -> reparent_node q (node_of par c l r) = node_of q c l r.
Proof. intros H. unfold reparent_node, with_pc, node_of. cbn. by rewrite (pack_set_parent _ H). Qed.

Lemma nodes_reparent t q s x : x ∉ inorder t -> nodes (reparent (root_of t) q s) !! x = nodes s !! x.
Proof.
  unfold reparent. intros Hx. case_match eqn:E; [done|]. zbool. rewrite nodes_modify. case_decide; [|done].
  destruct (root_in t); [lia|]. by subst.
Qed.

Lemma sub_reparent s t par q :
  Z.land par 3 = 0 -> NoDup (inorder t) -> Forall node_addr (inorder t) ->
  sub (nodes s) t par -> sub (nodes (reparent (root_of t) q s)) t q.
Proof.
  intros Hpar Hn Hf. destruct t as [|c l a r]; cbn [root_of sub inorder] in *; [done|]. intros (Ha & Hl & Hr).
  assert (Ha0 : a <> 0). { rewrite Forall_forall in Hf. destruct (Hf a); [set_solver|lia]. }
  unfold reparent. rewrite (proj2 (Z.eqb_neq a 0) Ha0). apply NoDup_app in Hn as (_ & Hn & [Hn' _]%NoDup_cons).
  split; [|split].
  - rewrite nodes_modify, decide_True, Ha by done. cbn [fmap option_fmap option_map]. by rewrite reparent_node_of.
  - apply (sub_ext (nodes s)); [|done]. intros x Hx. rewrite nodes_modify, decide_False; [done|set_solver].
  - apply (sub_ext (nodes s)); [|done]. intros x Hx. rewrite nodes_modify, decide_False; [done|set_solver].
Qed.

Lemma wp_reparent s t par q (Q : unit -> rb_mem -> Prop) :
  Forall node_addr (inorder t) -> sub (nodes s) t par -> Q tt (reparent (root_of t) q s) ->
  wp (if root_of t =? 0 then mret tt else rb_set_parent (root_of t) q) Q s.
Proof.
  intros Hf Hs H. unfold reparent in H. case_match; [by apply wp_ret|].
  destruct t as [|c l a r]; [done|]. destruct Hs as [Hs _]. by apply (wp_wr _ _ _ _ _ Hs).
Qed.

(** ** Separate addresses *)

Definition sep (l1 l2 : list Z) : Prop := forall x, x ∈ l1 -> x ∉ l2.

Lemma nodup_sep l1 l2 : NoDup (l1 ++ l2) <-> NoDup l1 /\ sep l1 l2 /\ NoDup l2.
Proof. apply NoDup_app. Qed.

Lemma sep_app_l l1 l2 l3 : sep (l1 ++ l2) l3 <-> sep l1 l3 /\ sep l2 l3.
Proof. unfold sep. setoid_rewrite elem_of_app. naive_solver. Qed.

Lemma sep_cons_l a l1 l2 : sep (a :: l1) l2 <-> (a ∉ l2) /\ sep l1 l2.
Proof. unfold sep. setoid_rewrite elem_of_cons. naive_solver. Qed.

Lemma sep_app_r l1 l2 l3 : sep l1 (l2 ++ l3) <-> sep l1 l2 /\ sep l1 l3.
Proof. unfold sep. setoid_rewrite elem_of_app. naive_solver. Qed.

Lemma sep_cons_r a l1 l2 : sep l1 (a :: l2) <-> (a ∉ l1) /\ sep l1 l2.
Proof. unfold sep. setoid_rewrite elem_of_cons. naive_solver. Qed.

Lemma sep_nil l : sep l [].
Proof. intros x _. apply not_elem_of_nil. Qed.

(** Splits the duplicate-freeness of a list of addresses into what it says of
    its parts. *)
Ltac apart :=
  repeat match goal with
  | H : NoDup (_ ++ _) |- _ => apply nodup_sep in H as (? & ? & ?)
  | H : NoDup (_ :: _) |- _ => apply NoDup_cons in H as [? ?]
  | H : sep (_ ++ _) _ |- _ => apply sep_app_l in H as [? ?]
  | H : sep (_ :: _) _ |- _ => apply sep_cons_l in H as [? ?]
  | H : sep _ (_ ++ _) |- _ => apply sep_app_r in H as [? ?]
  | H : sep _ (_ :: _) |- _ => apply sep_cons_r in H as [? ?]
  | H : _ ∉ (_ ++ _) |- _ => apply not_elem_of_app in H as [? ?]
  | H : _ ∉ (_ :: _) |- _ => apply not_elem_of_cons in H as [? ?]
  | H : Forall node_addr (_ ++ _) |- _ => apply Forall_app in H as [? ?]
  | H : Forall node_addr (_ :: _) |- _ => apply Forall_cons in H as [? ?]
  end.

(** Proves [x <> y] and [x ∉ l] from such facts. *)
Ltac separate :=
  first
  [ assumption | apply not_eq_sym; assumption
  | let E := fresh in intros E; subst; contradiction
  | match goal with
    | H : sep ?l1 ?l2, Hx : ?x ∈ ?l1 |- ?x ∉ ?l2 => exact (H x Hx)
    | H : sep ?l1 ?l2, Hx : ?x ∈ ?l2 |- ?x ∉ ?l1 => exact (fun Hx' => H x Hx' Hx)
    end ].

(** Looks an address up in a store that was written to elsewhere. *)
Ltac lookups :=
  repeat first
    [ rewrite nodes_modify
    | rewrite decide_True by reflexivity
    | rewrite decide_False by separate
    | rewrite nodes_relink by separate
    | rewrite nodes_reparent by separate ].

Lemma root_modify p f s : rb_root (modify p f s) = rb_root s.
Proof. done. Qed.

Lemma root_reparent p q s : rb_root (reparent p q s) = rb_root s.
Proof. unfold reparent. by case_match. Qed.

Lemma root_relink_ext k p s s' : rb_root s' = rb_root s -> rb_root (relink k p s') = rb_root (relink k p s).
Proof. by destruct k as [|[] ?]. Qed.

Lemma reparent_ext p q s s' x : nodes s' !! x = nodes s !! x -> nodes (reparent p q s') !! x = nodes (reparent p q s) !! x.
Proof. intros H. unfold reparent. case_match; [done|]. rewrite !nodes_modify. by rewrite H. Qed.

Lemma relink_ext k p s s' x : nodes s' !! x = nodes s !! x -> nodes (relink k p s') !! x = nodes (relink k p s) !! x.
Proof. intros H. destruct k as [|[] ?]; cbn [relink]; [done|rewrite !nodes_modify; by rewrite H..]. Qed.

Lemma with_left_of par c l r x : with_left x (node_of par c l r) = node_of par c x r.
Proof. done. Qed.

Lemma with_right_of par c l r x : with_right x (node_of par c l r) = node_of par c l x.
Proof. done. Qed.

(** ** Rotations *)

Lemma wp_rotate_left {F s} k c l a c' rl b rr (Ht : tree_at F s (zip k (Node c l a (Node c' rl b rr))))
    (Q : unit -> rb_mem -> Prop) :
  (forall s', tree_at F s' (zip k (Node c' (Node c l a rl) b rr)) -> Q tt s') -> wp (rb_rotate_left a) Q s.
Proof.
  intros HQ. apply wp_bind, (wp_get_right _ _ _ _ _ Ht), wp_bind, (wp_parent _ _ _ _ _ Ht).
  apply wp_bind, (wp_get_left (Rt c l a :: k) c' rl b rr Ht). cbn [root_of].
  pose proof (at_node _ _ _ _ _ Ht) as Ha. pose proof (at_node (Rt c l a :: k) c' rl b rr Ht) as Hb.
  pose proof (at_nz _ _ _ _ _ Ht) as Ha0. pose proof (outer_nz _ _ _ _ Ht) as Hk.
  pose proof (top_aligned _ _ _ _ Ht) as Htop. pose proof (at_addr (Rt c l a :: k) c' rl b rr Ht) as Hba.
  pose proof (at_addr _ _ _ _ _ Ht) as Haa.
  pose proof (proj1 (tree_at_zip _ _ _ _) Ht) as Ht0. pose proof Ht0 as [(_ & Hl & _ & Hrl & Hrr) Har Hnd Haddr Hrest].
  cbn [inorder] in Hnd, Haddr, Hrest. apart.
  apply wp_bind, (wp_wr _ _ _ _ _ Ha).
  apply wp_bind, (wp_reparent _ rl b a); [done| |].
  { apply (sub_ext (nodes s)); [|done]. intros x Hx. by lookups. }
  apply wp_bind, (wp_wr _ (node_of a c' (root_of rl) (root_of rr))); [by lookups|].
  apply wp_bind, (wp_wr _ (node_of a c' a (root_of rr))); [lookups; by rewrite Hb|].
  apply wp_bind, (wp_relink_left k a b); [|done|separate|done|done|].
  { apply (around_ext s); [by rewrite !root_modify, root_reparent|intros x Hx; by lookups|done]. }
  apply (wp_wr _ (node_of (top k) c (root_of l) (root_of rl))); [lookups; by rewrite Ha|].
  apply HQ, tree_at_zip. fold (reparent_node (top k)) (reparent_node a) (reparent_node b).
  assert (E : (inorder l ++ a :: inorder rl) ++ b :: inorder rr = inorder l ++ a :: inorder rl ++ b :: inorder rr)
    by (by rewrite <- app_assoc).
  split; cbn [root_of inorder].
  - split; [|split; [split; [|split]|]].
    + lookups. rewrite Hb. cbn [fmap option_fmap option_map]. by rewrite with_left_of, reparent_node_of by apply Haa.
    + lookups. rewrite Ha. cbn [fmap option_fmap option_map]. by rewrite with_right_of, reparent_node_of.
    + apply (sub_ext (nodes s)); [|done]. intros x Hx. by lookups.
    + apply (sub_ext (nodes (reparent (root_of rl) a s))).
      * intros x Hx. lookups. apply reparent_ext. by lookups.
      * apply (sub_reparent s rl b a); try done. apply Hba.
    + apply (sub_ext (nodes s)); [|done]. intros x Hx. by lookups.
  - apply (around_ext (relink k b s)); [|intros x Hx|apply (around_relink _ _ _ a); done].
    + rewrite root_modify. apply root_relink_ext. by rewrite !root_modify, root_reparent.
    + lookups. apply relink_ext. by lookups.
  - rewrite E. apply (fo_nodup _ _ _ _ Ht0).
  - rewrite E. apply (fo_addr _ _ _ _ Ht0).
  - intros x Hx. rewrite E in Hx. rewrite <- (Hrest x Hx). apart. by lookups.
Qed.

Lemma wp_rotate_right {F s} k c a c' ll b lr r (Ht : tree_at F s (zip k (Node c (Node c' ll b lr) a r)))
    (Q : unit -> rb_mem -> Prop) :
  (forall s', tree_at F s' (zip k (Node c' ll b (Node c lr a r))) -> Q tt s') -> wp (rb_rotate_right a) Q s.
Proof.
  intros HQ. apply wp_bind, (wp_get_left _ _ _ _ _ Ht), wp_bind, (wp_parent _ _ _ _ _ Ht).
  apply wp_bind, (wp_get_right (Lf c a r :: k) c' ll b lr Ht). cbn [root_of].
  pose proof (at_node _ _ _ _ _ Ht) as Ha. pose proof (at_node (Lf c a r :: k) c' ll b lr Ht) as Hb.
  pose proof (at_nz _ _ _ _ _ Ht) as Ha0. pose proof (outer_nz _ _ _ _ Ht) as Hk.
  pose proof (top_aligned _ _ _ _ Ht) as Htop. pose proof (at_addr (Lf c a r :: k) c' ll b lr Ht) as Hba.
  pose proof (at_addr _ _ _ _ _ Ht) as Haa.
  pose proof (proj1 (tree_at_zip _ _ _ _) Ht) as Ht0.
  pose proof Ht0 as [(_ & (_ & Hll & Hlr) & Hr) Har Hnd Haddr Hrest].
  cbn [inorder] in Hnd, Haddr, Hrest. apart.
  apply wp_bind, (wp_wr _ _ _ _ _ Ha).
  apply wp_bind, (wp_reparent _ lr b a); [done| |].
  { apply (sub_ext (nodes s)); [|done]. intros x Hx. by lookups. }
  apply wp_bind, (wp_wr _ (node_of a c' (root_of ll) (root_of lr))); [by lookups|].
  apply wp_bind, (wp_wr _ (node_of a c' (root_of ll) a)); [lookups; by rewrite Hb|].
  apply wp_bind, (wp_relink_right k a b); [|done|separate|done|].
  { apply (around_ext s); [by rewrite !root_modify, root_reparent|intros x Hx; by lookups|done]. }
  apply (wp_wr _ (node_of (top k) c (root_of lr) (root_of r))); [lookups; by rewrite Ha|].
  apply HQ, tree_at_zip. fold (reparent_node (top k)) (reparent_node a) (reparent_node b).
  assert (E : (inorder ll ++ b :: inorder lr) ++ a :: inorder r = inorder ll ++ b :: inorder lr ++ a :: inorder r)
    by (by rewrite <- app_assoc).
  split; cbn [root_of inorder].
  - split; [|split; [|split; [|split]]].
    + lookups. rewrite Hb. cbn [fmap option_fmap option_map]. by rewrite with_right_of, reparent_node_of by apply Haa.
    + apply (sub_ext (nodes s)); [|done]. intros x Hx. by lookups.
    + lookups. rewrite Ha. cbn [fmap option_fmap option_map]. by rewrite with_left_of, reparent_node_of.
    + apply (sub_ext (nodes (reparent (root_of lr) a s))).
      * intros x Hx. lookups. apply reparent_ext. by lookups.
      * apply (sub_reparent s lr b a); try done. apply Hba.
    + apply (sub_ext (nodes s)); [|done]. intros x Hx. by lookups.
  - apply (around_ext (relink k b s)); [|intros x Hx|apply (around_relink _ _ _ a); done].
    + rewrite root_modify. apply root_relink_ext. by rewrite !root_modify, root_reparent.
    + lookups. apply relink_ext. by lookups.
  - rewrite <- E. apply (fo_nodup _ _ _ _ Ht0).
  - rewrite <- E. apply (fo_addr _ _ _ _ Ht0).
  - intros x Hx. rewrite <- E in Hx. rewrite <- (Hrest x Hx). apart. by lookups.
Qed.
