(* ===== verification/RbTreeProps.v ===== *)
(** * Red-black trees: balance and order

    The red-black invariant, and the theorems about insertion, removal and
    walking: on a well-formed tree no operation of rbtree.c faults, every loop
    ends, the tree stays balanced and keeps its nodes in order, and no node of
    another structure is touched. *)

From S2P Require Import Prelude RbTree RbTreeHeap.

(** ** The invariant *)

(** [rb c n t]: the root of [t] has colour [c] (a leaf is black), every path
    crosses [n] black nodes, and no red node has a red child. *)
Inductive rb : color -> nat -> tree -> Prop :=
| rb_leaf : rb Black 0 Leaf
| rb_red n l a r : rb Black n l -> rb Black n r -> rb Red n (Node Red l a r)
| rb_black cl cr n l a r : rb cl n l -> rb cr n r -> rb Black (S n) (Node Black l a r).

Definition rb_tree (t : tree) : Prop := exists n, rb Black n t.

(** The path expects a tree of colour [c] and black height [n] at its end. *)
Inductive fits : ctx -> color -> nat -> Prop :=
| fits_top n : fits [] Black n
| fits_left_black c n a cr r k : rb cr n r -> fits k Black (S n) -> fits (Lf Black a r :: k) c n
| fits_right_black c n a cl l k : rb cl n l -> fits k Black (S n) -> fits (Rt Black l a :: k) c n
| fits_left_red n a r k : rb Black n r -> fits k Red n -> fits (Lf Red a r :: k) Black n
| fits_right_red n a l k : rb Black n l -> fits k Red n -> fits (Rt Red l a :: k) Black n.

#[export] Hint Constructors rb fits : obelisk.

Lemma fits_zip k c n t : fits k c n -> rb c n t -> rb_tree (zip k t).
Proof.
  intros Hk. revert t. induction Hk as [| | | |]; intros t Ht; cbn [zip]; [by exists n| | | |];
    apply IHHk; eauto with obelisk.
Qed.

Lemma zip_fits k t : rb_tree (zip k t) -> exists c n, rb c n t /\ fits k c n.
Proof.
  revert t. induction k as [|[c a r|c l a] k IH]; intros t; cbn [zip].
  - intros [n Hn]. exists Black, n. eauto with obelisk.
  - intros (c' & n & Ht & Hk)%IH. inversion Ht; subst; eauto with obelisk.
  - intros (c' & n & Ht & Hk)%IH. inversion Ht; subst; eauto with obelisk.
Qed.

Lemma fits_black k c n : fits k c n -> fits k Black n.
Proof. destruct 1; eauto with obelisk. Qed.

Lemma rb_is_black_tree c n t : rb c n t -> is_black t = match c with Red => false | Black => true end.
Proof. by destruct 1. Qed.

(** Two trees with the same nodes in the same order. *)
Ltac same_order :=
  rewrite ?inorder_zip; cbn [inorder before after zip];
  repeat (rewrite <- app_assoc || rewrite <- app_comm_cons || cbn [app]); reflexivity.

(** ** Insertion *)

(** The tree [t'] with its root painted black is balanced, and it has the nodes
    of [t] in order. *)
Definition almost (t t' : tree) : Prop := t' <> Leaf /\ (exists c n, rb c n t') /\ inorder t' = inorder t.

Lemma zip_nonempty k c l a r : zip k (Node c l a r) <> Leaf.
Proof. revert c l a r. induction k as [|[] k IH]; intros; cbn; [done|apply IH..]. Qed.

Lemma almost_order t0 t t' : inorder t = inorder t0 -> almost t t' -> almost t0 t'.
Proof. intros E (? & ? & H). split; [done|]. split; [done|]. by rewrite H. Qed.

(** The two children of a node have different addresses. *)
Lemma children_ne {F s} k c t1 p t2 : tree_at F s (zip k (Node c t1 p t2)) -> t1 <> Leaf -> (root_of t1 =? root_of t2) = false.
Proof.
  intros Ht H1. apply Z.eqb_neq. intros E.
  destruct t1 as [|c1 l1 a1 r1]; [done|]. pose proof (at_nz (Lf c p t2 :: k) c1 l1 a1 r1 Ht) as Hnz.
  apply tree_at_zip in Ht as [_ _ Hnd _ _]. cbn in *. apart. destruct (root_in t2); [congruence|]. by subst.
Qed.

Lemma children_ne' {F s} k c t1 p t2 : tree_at F s (zip k (Node c t1 p t2)) -> t2 <> Leaf -> (root_of t1 =? root_of t2) = false.
Proof.
  intros Ht H2. destruct t1 as [|c1 l1 a1 r1]; [|by apply (children_ne k c _ p _ Ht)].
  destruct t2 as [|c2 l2 a2 r2]; [done|]. apply Z.eqb_neq, not_eq_sym, (at_nz (Rt c Leaf p :: k) c2 l2 a2 r2 Ht).
Qed.

Ltac nz H := rewrite (proj2 (Z.eqb_neq _ 0) H).

Section Insert.
Context (F : gmap Z rb_node) (fuel : nat).

Definition insert_post (t : tree) (_ : unit) (s' : rb_mem) : Prop := exists t', tree_at F s' t' /\ almost t t'.

Context (IH : forall k l a r s n,
  (length k < fuel)%nat -> tree_at F s (zip k (Node Red l a r)) -> rb Red n (Node Red l a r) -> fits k Black n ->
  wp (iter fuel insert_body a) (insert_post (zip k (Node Red l a r))) s).

Definition next (t : tree) (r : Z + unit) (s' : rb_mem) : Prop :=
  match r with inl a' => wp (iter fuel insert_body a') (insert_post t) s' | inr b => insert_post t b s' end.

Lemma insert_next k l a r s n t0 :
  (length k < fuel)%nat -> tree_at F s (zip k (Node Red l a r)) -> rb Red n (Node Red l a r) -> fits k Black n ->
  inorder (zip k (Node Red l a r)) = inorder t0 -> wp (mret (inl a)) (next t0) s.
Proof using IH.
  intros H1 H2 H3 H4 E. apply wp_ret, (wp_mono _ _ _ _ (IH _ _ _ _ _ _ H1 H2 H3 H4)).
  intros ? s' (t' & Ht' & Hal). exists t'. split; [done|]. by apply (almost_order _ _ _ E).
Qed.

Lemma insert_left_left g v k p u l a r s n :
  (S (length k) < fuel)%nat -> tree_at F s (zip (Lf Red p u :: Lf Black g v :: k) (Node Red l a r)) ->
  rb Red n (Node Red l a r) -> rb Black n u -> fits (Lf Black g v :: k) Red n ->
  wp (insert_body a) (next (zip (Lf Red p u :: Lf Black g v :: k) (Node Red l a r))) s.
Proof using IH.
  intros Hf Ht Hrb Hu Hk. set (N := Node Red l a r) in *. set (t0 := zip _ N).
  apply wp_bind, (wp_parent _ _ _ _ _ Ht). cbn [top frame_addr].
  nz (at_nz (Lf Black g v :: k) Red N p u Ht).
  apply wp_bind, (wp_is_red (Lf Black g v :: k) Red N p u Ht). cbn [negb].
  apply wp_bind, (wp_parent (Lf Black g v :: k) Red N p u Ht). cbn [top frame_addr].
  apply wp_bind, (wp_get_left k Black (Node Red N p u) g v Ht). cbn [root_of].
  rewrite Z.eqb_refl.
  apply wp_bind, (wp_get_right k Black (Node Red N p u) g v Ht).
  apply wp_bind, (wp_red_node (Rt Black (Node Red N p u) g :: k) v Ht).
  inversion Hk as [|? ? ? cv ? ? Hv Hk'| | |]; subst. rewrite (rb_is_black_tree _ _ _ Hv). destruct cv; cbn [negb].
  - inversion Hv as [|? vl b vr Hvl Hvr|]; subst. cbn [root_of].
    apply wp_bind, (wp_set_color (Rt Black (Node Red N p u) g :: k) Red vl b vr Ht Black).
    intros s1 Ht1. apply wp_bind, (wp_set_color (Lf Black g (Node Black vl b vr) :: k) Red N p u Ht1 Black).
    intros s2 Ht2. apply wp_bind, (wp_set_color k Black (Node Black N p u) g (Node Black vl b vr) Ht2 Red).
    intros s3 Ht3. apply (insert_next k _ _ _ _ (S n) t0 ltac:(lia) Ht3); subst t0 N; eauto with obelisk. same_order.
  - apply wp_bind, (wp_get_right (Lf Black g v :: k) Red N p u Ht). cbn [root_of].
    rewrite (children_ne (Lf Black g v :: k) Red N p u Ht ltac:(done) : (a =? root_of u) = false).
    apply wp_bind, wp_ret. cbn [fst snd].
    apply wp_bind, (wp_set_color (Lf Black g v :: k) Red N p u Ht Black). intros s1 Ht1.
    apply wp_bind, (wp_set_color k Black (Node Black N p u) g v Ht1 Red). intros s2 Ht2.
    apply wp_bind, (wp_rotate_right k Red g Black N p u v Ht2). intros s3 Ht3.
    apply (insert_next (Lf Black p (Node Red u g v) :: k) l a r s3 n t0 Hf Ht3); subst t0 N; eauto with obelisk.
    same_order.
Qed.

Lemma insert_left_right g v k p u l a r s n :
  (S (length k) < fuel)%nat -> tree_at F s (zip (Rt Red u p :: Lf Black g v :: k) (Node Red l a r)) ->
  rb Red n (Node Red l a r) -> rb Black n u -> fits (Lf Black g v :: k) Red n ->
  wp (insert_body a) (next (zip (Rt Red u p :: Lf Black g v :: k) (Node Red l a r))) s.
Proof using IH.
  intros Hf Ht Hrb Hu Hk. set (N := Node Red l a r) in *. set (t0 := zip _ N).
  apply wp_bind, (wp_parent _ _ _ _ _ Ht). cbn [top frame_addr].
  nz (at_nz (Lf Black g v :: k) Red u p N Ht).
  apply wp_bind, (wp_is_red (Lf Black g v :: k) Red u p N Ht). cbn [negb].
  apply wp_bind, (wp_parent (Lf Black g v :: k) Red u p N Ht). cbn [top frame_addr].
  apply wp_bind, (wp_get_left k Black (Node Red u p N) g v Ht). cbn [root_of].
  rewrite Z.eqb_refl.
  apply wp_bind, (wp_get_right k Black (Node Red u p N) g v Ht).
  apply wp_bind, (wp_red_node (Rt Black (Node Red u p N) g :: k) v Ht).
  inversion Hk as [|? ? ? cv ? ? Hv Hk'| | |]; subst. rewrite (rb_is_black_tree _ _ _ Hv). destruct cv; cbn [negb].
  - inversion Hv as [|? vl b vr Hvl Hvr|]; subst. cbn [root_of].
    apply wp_bind, (wp_set_color (Rt Black (Node Red u p N) g :: k) Red vl b vr Ht Black).
    intros s1 Ht1. apply wp_bind, (wp_set_color (Lf Black g (Node Black vl b vr) :: k) Red u p N Ht1 Black).
    intros s2 Ht2. apply wp_bind, (wp_set_color k Black (Node Black u p N) g (Node Black vl b vr) Ht2 Red).
    intros s3 Ht3. apply (insert_next k _ _ _ _ (S n) t0 ltac:(lia) Ht3); subst t0 N; eauto with obelisk. same_order.
  - apply wp_bind, (wp_get_right (Lf Black g v :: k) Red u p N Ht). cbn [root_of].
    rewrite Z.eqb_refl. inversion Hrb; subst.
    apply wp_bind, wp_bind, (wp_rotate_left (Lf Black g v :: k) Red u p Red l a r Ht). intros s1 Ht1. apply wp_ret. cbn [fst snd].
    apply wp_bind, (wp_set_color (Lf Black g v :: k) Red (Node Red u p l) a r Ht1 Black). intros s2 Ht2.
    apply wp_bind, (wp_set_color k Black (Node Black (Node Red u p l) a r) g v Ht2 Red). intros s3 Ht3.
    apply wp_bind, (wp_rotate_right k Red g Black (Node Red u p l) a r v Ht3). intros s4 Ht4.
    apply (insert_next (Lf Black a (Node Red r g v) :: k) u p l s4 n t0 Hf Ht4); subst t0 N; eauto with obelisk.
    same_order.
Qed.

Lemma insert_right_left g v k p u l a r s n :
  (S (length k) < fuel)%nat -> tree_at F s (zip (Lf Red p u :: Rt Black v g :: k) (Node Red l a r)) ->
  rb Red n (Node Red l a r) -> rb Black n u -> fits (Rt Black v g :: k) Red n ->
  wp (insert_body a) (next (zip (Lf Red p u :: Rt Black v g :: k) (Node Red l a r))) s.
Proof using IH.
  intros Hf Ht Hrb Hu Hk. set (N := Node Red l a r) in *. set (t0 := zip _ N).
  apply wp_bind, (wp_parent _ _ _ _ _ Ht). cbn [top frame_addr].
  nz (at_nz (Rt Black v g :: k) Red N p u Ht).
  apply wp_bind, (wp_is_red (Rt Black v g :: k) Red N p u Ht). cbn [negb].
  apply wp_bind, (wp_parent (Rt Black v g :: k) Red N p u Ht). cbn [top frame_addr].
  apply wp_bind, (wp_get_left k Black v g (Node Red N p u) Ht). cbn [root_of].
  rewrite (Z.eqb_sym p), (children_ne' k Black v g (Node Red N p u) Ht ltac:(done) : (root_of v =? p) = false).
  apply wp_bind, (wp_get_left k Black v g (Node Red N p u) Ht).
  apply wp_bind, (wp_red_node (Lf Black g (Node Red N p u) :: k) v Ht).
  inversion Hk as [| |? ? ? cv ? ? Hv Hk'| |]; subst. rewrite (rb_is_black_tree _ _ _ Hv). destruct cv; cbn [negb].
  - inversion Hv as [|? vl b vr Hvl Hvr|]; subst. cbn [root_of].
    apply wp_bind, (wp_set_color (Lf Black g (Node Red N p u) :: k) Red vl b vr Ht Black).
    intros s1 Ht1. apply wp_bind, (wp_set_color (Rt Black (Node Black vl b vr) g :: k) Red N p u Ht1 Black).
    intros s2 Ht2. apply wp_bind, (wp_set_color k Black (Node Black vl b vr) g (Node Black N p u) Ht2 Red).
    intros s3 Ht3. apply (insert_next k _ _ _ _ (S n) t0 ltac:(lia) Ht3); subst t0 N; eauto with obelisk. same_order.
  - apply wp_bind, (wp_get_left (Rt Black v g :: k) Red N p u Ht). cbn [root_of].
    rewrite Z.eqb_refl. inversion Hrb; subst.
    apply wp_bind, wp_bind, (wp_rotate_right (Rt Black v g :: k) Red p Red l a r u Ht). intros s1 Ht1. apply wp_ret. cbn [fst snd].
    apply wp_bind, (wp_set_color (Rt Black v g :: k) Red l a (Node Red r p u) Ht1 Black). intros s2 Ht2.
    apply wp_bind, (wp_set_color k Black v g (Node Black l a (Node Red r p u)) Ht2 Red). intros s3 Ht3.
    apply wp_bind, (wp_rotate_left k Red v g Black l a (Node Red r p u) Ht3). intros s4 Ht4.
    apply (insert_next (Rt Black (Node Red v g l) a :: k) r p u s4 n t0 Hf Ht4); subst t0 N; eauto with obelisk.
    same_order.
Qed.

Lemma insert_right_right g v k p u l a r s n :
  (S (length k) < fuel)%nat -> tree_at F s (zip (Rt Red u p :: Rt Black v g :: k) (Node Red l a r)) ->
  rb Red n (Node Red l a r) -> rb Black n u -> fits (Rt Black v g :: k) Red n ->
  wp (insert_body a) (next (zip (Rt Red u p :: Rt Black v g :: k) (Node Red l a r))) s.
Proof using IH.
  intros Hf Ht Hrb Hu Hk. set (N := Node Red l a r) in *. set (t0 := zip _ N).
  apply wp_bind, (wp_parent _ _ _ _ _ Ht). cbn [top frame_addr].
  nz (at_nz (Rt Black v g :: k) Red u p N Ht).
  apply wp_bind, (wp_is_red (Rt Black v g :: k) Red u p N Ht). cbn [negb].
  apply wp_bind, (wp_parent (Rt Black v g :: k) Red u p N Ht). cbn [top frame_addr].
  apply wp_bind, (wp_get_left k Black v g (Node Red u p N) Ht). cbn [root_of].
  rewrite (Z.eqb_sym p), (children_ne' k Black v g (Node Red u p N) Ht ltac:(done) : (root_of v =? p) = false).
  apply wp_bind, (wp_get_left k Black v g (Node Red u p N) Ht).
  apply wp_bind, (wp_red_node (Lf Black g (Node Red u p N) :: k) v Ht).
  inversion Hk as [| |? ? ? cv ? ? Hv Hk'| |]; subst. rewrite (rb_is_black_tree _ _ _ Hv). destruct cv; cbn [negb].
  - inversion Hv as [|? vl b vr Hvl Hvr|]; subst. cbn [root_of].
    apply wp_bind, (wp_set_color (Lf Black g (Node Red u p N) :: k) Red vl b vr Ht Black).
    intros s1 Ht1. apply wp_bind, (wp_set_color (Rt Black (Node Black vl b vr) g :: k) Red u p N Ht1 Black).
    intros s2 Ht2. apply wp_bind, (wp_set_color k Black (Node Black vl b vr) g (Node Black u p N) Ht2 Red).
    intros s3 Ht3. apply (insert_next k _ _ _ _ (S n) t0 ltac:(lia) Ht3); subst t0 N; eauto with obelisk. same_order.
  - apply wp_bind, (wp_get_left (Rt Black v g :: k) Red u p N Ht). cbn [root_of].
    rewrite (Z.eqb_sym a), (children_ne' (Rt Black v g :: k) Red u p N Ht ltac:(done) : (root_of u =? a) = false).
    apply wp_bind, wp_ret. cbn [fst snd].
    apply wp_bind, (wp_set_color (Rt Black v g :: k) Red u p N Ht Black). intros s1 Ht1.
    apply wp_bind, (wp_set_color k Black v g (Node Black u p N) Ht1 Red). intros s2 Ht2.
    apply wp_bind, (wp_rotate_left k Red v g Black u p N Ht2). intros s3 Ht3.
    apply (insert_next (Rt Black (Node Red v g u) p :: k) l a r s3 n t0 Hf Ht3); subst t0 N; eauto with obelisk.
    same_order.
Qed.

End Insert.

Lemma insert_loop F fuel k l a r s n :
  (length k < fuel)%nat -> tree_at F s (zip k (Node Red l a r)) -> rb Red n (Node Red l a r) -> fits k Black n ->
  wp (iter fuel insert_body a) (insert_post F (zip k (Node Red l a r))) s.
Proof.
  revert k l a r s n. induction fuel as [|fuel IH]; intros k l a r s n Hfuel Ht Hrb Hk; [lia|].
  assert (Hdone : fits k Red n \/ k = [] -> insert_post F (zip k (Node Red l a r)) tt s).
  { intros Hc. exists (zip k (Node Red l a r)). split; [done|]. split; [apply zip_nonempty|]. split; [|done].
    destruct Hc as [Hc| ->]; [|by exists Red, n]. destruct (fits_zip _ _ _ _ Hc Hrb) as [m Hm]. by exists Black, m. }
  apply wp_iter. inversion Hk as [|? ? p cr u k' Hu Hk'|? ? p cl u k' Hu Hk'|? p u k' Hu Hk'|? p u k' Hu Hk']; subst.
  - apply wp_bind, (wp_parent _ _ _ _ _ Ht), wp_ret. auto.
  - apply wp_bind, (wp_parent _ _ _ _ _ Ht). cbn [top frame_addr]. nz (at_nz k' Black (Node Red l a r) p u Ht).
    apply wp_bind, (wp_is_red k' Black (Node Red l a r) p u Ht), wp_ret. eauto with obelisk.
  - apply wp_bind, (wp_parent _ _ _ _ _ Ht). cbn [top frame_addr]. nz (at_nz k' Black u p (Node Red l a r) Ht).
    apply wp_bind, (wp_is_red k' Black u p (Node Red l a r) Ht), wp_ret. eauto with obelisk.
  - cbn in Hfuel. inversion Hk'; subst; cbn in Hfuel.
    + apply (insert_left_left F fuel IH _ _ _ _ _ _ _ _ _ n); auto. lia.
    + apply (insert_right_left F fuel IH _ _ _ _ _ _ _ _ _ n); auto. lia.
  - cbn in Hfuel. inversion Hk'; subst; cbn in Hfuel.
    + apply (insert_left_right F fuel IH _ _ _ _ _ _ _ _ _ n); auto. lia.
    + apply (insert_right_right F fuel IH _ _ _ _ _ _ _ _ _ n); auto. lia.
Qed.

(** *** Paths are short enough for the loops *)

Lemma sub_dom m t par x : sub m t par -> x ∈ inorder t -> is_Some (m !! x).
Proof.
  revert par. induction t as [|c l IHl a r IHr]; intros par; cbn; [by intros _ ?%elem_of_nil|].
  intros (Ha & Hl & Hr) [H|[->|H]%elem_of_cons]%elem_of_app; eauto.
Qed.

Lemma nodup_size {A : Type} (m : gmap Z A) (l : list Z) :
  NoDup l -> (forall x, x ∈ l -> is_Some (m !! x)) -> (length l <= size m)%nat.
Proof.
  intros Hn Hl. rewrite <- (size_list_to_set (C := gset Z) l Hn), <- (size_dom (D := gset Z) m).
  apply subseteq_size. intros x Hx. apply elem_of_dom, Hl. by apply elem_of_list_to_set in Hx.
Qed.

Lemma outer_length k : (length k <= length (outer k))%nat.
Proof. induction k as [|[] k IH]; cbn; [done|rewrite length_app; lia..]. Qed.

Lemma path_size F s k t : tree_at F s (zip k t) -> (length (inorder t) + length k <= size (nodes s))%nat.
Proof.
  intros [H1 H2 H3 H4 H5]. etransitivity; [|apply (nodup_size (nodes s) _ H3)].
  - rewrite zip_perm, length_app. pose proof (outer_length k). lia.
  - intros x. by apply (sub_dom _ _ 0).
Qed.

(** Painting the root black. *)
Lemma wp_blacken F s t0 t (Ht : tree_at F s t) (Q : unit -> rb_mem -> Prop) : almost t0 t ->
  (forall s' t', tree_at F s' t' -> rb_tree t' -> inorder t' = inorder t0 -> Q tt s') ->
  wp (root ← get_root; rb_set_color root RB_BLACK) Q s.
Proof.
  intros (Hne & (c & n & Hrb) & Hin) HQ. apply wp_bind. exists (rb_root s), s. split; [done|].
  rewrite (ta_root _ _ _ Ht). destruct t as [|c' l a r]; [done|]. cbn [root_of].
  apply (wp_set_color [] c' l a r Ht Black). intros s' Ht'. apply (HQ s' _ Ht'); [|done].
  inversion Hrb; subst; eexists; eauto with obelisk.
Qed.

(** Where a path ends, as the address of the word that holds the node. *)
Definition slot_of (k : ctx) : rb_slot :=
  match k with [] => RootSlot | Lf _ a _ :: _ => LeftOf a | Rt _ _ a :: _ => RightOf a end.

Lemma wp_link_node F s k a (Q : unit -> rb_mem -> Prop) :
  tree_at F s (zip k Leaf) -> node_addr a -> a ∉ inorder (zip k Leaf) ->
  (forall s', tree_at F s' (zip k (Node Red Leaf a Leaf)) -> Q tt s') ->
  wp (rb_link_node a (top k) (slot_of k)) Q s.
Proof.
  intros Ht Ha Hout HQ. rewrite zip_perm in Hout. cbn in Hout.
  pose proof (proj1 (tree_at_zip _ _ _ _) Ht) as [_ Har Hnd Haddr Hrest]. cbn in Har, Hnd, Haddr, Hrest.
  set (s1 := mkMem (<[a := mkNode (top k) 0 0]> (nodes s)) (rb_root s)).
  assert (Hs1 : forall x, x <> a -> nodes s1 !! x = nodes s !! x) by (intros x Hx; by apply lookup_insert_ne).
  assert (Har1 : around s1 k 0).
  { apply (around_ext s); [done| |done]. intros x Hx. apply Hs1. by intros ->. }
  apply wp_bind. exists tt, s1. split; [done|].
  assert (Hw : wp (set_slot (slot_of k) a) (fun _ s' => s' = relink k a s1) s1).
  { destruct k as [|[c p t|c t p] k']; [by exists tt, (with_root a s1)| |]; destruct Har1 as [Hp _];
      by apply (wp_wr _ _ _ _ _ Hp). }
  apply (wp_mono _ _ _ _ Hw). intros [] ? ->. apply HQ, tree_at_zip. split; cbn.
  - rewrite nodes_relink by done. subst s1. cbn. rewrite lookup_insert_eq. unfold node_of. by rewrite pack_red.
  - by apply (around_relink _ _ _ 0).
  - by apply NoDup_cons.
  - by apply Forall_cons.
  - intros x [Hx Hx']%not_elem_of_cons. rewrite nodes_relink, Hs1 by done. by apply Hrest.
Qed.

Lemma rb_insert_spec F s k a :
  rb_tree (zip k Leaf) -> tree_at F s (zip k Leaf) -> node_addr a -> a ∉ inorder (zip k Leaf) ->
  wp (rb_link_node a (top k) (slot_of k) ;; rb_insert_color a)
    (fun _ s' => exists t', tree_at F s' t' /\ rb_tree t' /\ inorder t' = before k ++ a :: after k) s.
Proof.
  intros Hrb Ht Ha Hout. apply wp_bind, (wp_link_node F s k a _ Ht Ha Hout). intros s1 Ht1.
  destruct (zip_fits _ _ Hrb) as (c & n & Hl & Hk). inversion Hl; subst.
  apply wp_bind. unfold loop. pose proof (path_size _ _ _ _ Ht1) as Hsize. cbn in Hsize.
  apply (wp_mono _ _ _ _ (insert_loop F (S (size (nodes s1))) k Leaf a Leaf s1 0 ltac:(lia) Ht1 ltac:(eauto with obelisk) Hk)).
  intros ? s2 (t2 & Ht2 & Hal). apply (wp_blacken F s2 _ t2 Ht2 _ Hal). intros s3 t3 Ht3 Hrb3 Hin.
  exists t3. split; [done|]. split; [done|]. by rewrite Hin, inorder_zip.
Qed.

(** ** Rebalancing after a removal *)

Definition blacken (t : tree) : tree := match t with Leaf => Leaf | Node _ l a r => Node Black l a r end.

(** [t] is one black node short of the height [S n]; a red root counts as the
    black one it is about to become. *)
Definition short (n : nat) (t : tree) : Prop := rb Black n t \/ is_black t = false /\ rb Black (S n) (blacken t).

Lemma blacken_black n t : rb Black n t -> blacken t = t.
Proof. by inversion 1. Qed.

Lemma root_outer k t : k <> [] -> root_of (zip k t) ∈ outer k.
Proof.
  revert t. induction k as [|f k IH]; intros t Hk; [done|].
  destruct f as [c a r|c l a]; cbn [zip outer]; (destruct k as [|g k']; [cbn; set_solver|]);
    apply elem_of_cons; right; apply elem_of_app; right; by apply IH.
Qed.

Lemma below_root {F s} k t : tree_at F s (zip k t) -> k <> [] -> (root_of t =? rb_root s) = false.
Proof.
  intros Ht Hk. apply Z.eqb_neq. rewrite (ta_root _ _ _ Ht). pose proof (root_outer k t Hk) as Hin.
  apply tree_at_zip in Ht as [_ _ Hnd Haddr _]. rewrite Forall_forall in Haddr.
  destruct (Haddr (root_of (zip k t))) as [Hpos _]; [set_solver|]. apart.
  destruct (root_in t) as [E|E]; [lia|]. intros E'. rewrite E' in E. by apply (H0 _ E).
Qed.

Lemma order_zip k t t' : inorder t = inorder t' -> inorder (zip k t) = inorder (zip k t').
Proof. intros E. by rewrite !inorder_zip, E. Qed.

Section Erase.
Context (F : gmap Z rb_node) (fuel : nat).

Definition erase_post (t : tree) (node : Z) (s' : rb_mem) : Prop :=
  exists k' t', tree_at F s' (zip k' t') /\ node = root_of t' /\
    inorder (zip k' t') = inorder t /\ rb_tree (zip k' (blacken t')).

Context (IH : forall k t s n,
  (is_black t = true -> (length k < fuel)%nat) -> (0 < fuel)%nat ->
  tree_at F s (zip k t) -> short n t -> fits k Black (S n) ->
  wp (iter fuel erase_body (root_of t, top k)) (erase_post (zip k t)) s).

Definition erase_continues (t : tree) (r : Z * Z + Z) (s' : rb_mem) : Prop :=
  match r with inl np => wp (iter fuel erase_body np) (erase_post t) s' | inr b => erase_post t b s' end.

Lemma erase_up k t s n t0 :
  (is_black t = true -> (length k < fuel)%nat) -> (0 < fuel)%nat ->
  tree_at F s (zip k t) -> short n t -> fits k Black (S n) -> inorder (zip k t) = inorder t0 ->
  wp (mret (inl (root_of t, top k))) (erase_continues t0) s.
Proof using IH.
  intros H1 H2 H3 H4 H5 E. apply wp_ret, (wp_mono _ _ _ _ (IH _ _ _ _ H1 H2 H3 H4 H5)).
  intros node s' (k' & t' & ? & ? & Hin & ?). exists k', t'. by rewrite <- E.
Qed.

(** The height the place of the parent of colour [c] is to have. *)
Definition parent_height (c : color) (n : nat) : nat := match c with Red => S n | Black => S (S n) end.

Lemma erase_stop k t s n c t0 :
  tree_at F s (zip k t) -> rb c n t -> fits k c n -> inorder (zip k t) = inorder t0 ->
  wp (root ← get_root; mret (inr root)) (erase_continues t0) s.
Proof.
  intros Ht Hrb Hk E. apply wp_bind. exists (rb_root s), s. split; [done|]. apply wp_ret.
  exists [], (zip k t). split; [done|]. split; [apply (ta_root _ _ _ Ht)|]. split; [done|].
  destruct (fits_zip _ _ _ _ Hk Hrb) as [m Hm]. exists m. by rewrite (blacken_black _ _ Hm).
Qed.

(** *** The node is a left child *)

Lemma erase_left_last k c t p sn b fl y fr n cs t0 s :
  tree_at F s (zip k (Node c t p (Node Black sn b (Node Red fl y fr)))) ->
  rb Black n t -> rb cs n sn -> rb Black n fl -> rb Black n fr -> fits k c (parent_height c n) ->
  inorder (zip k (Node c t p (Node Black sn b (Node Red fl y fr)))) = inorder t0 ->
  wp (pc ← rb_color p; rb_set_color b pc ;; rb_set_color p RB_BLACK ;;
      far ← get_right b; rb_set_color far RB_BLACK ;; rb_rotate_left p ;; root ← get_root; mret (inr root))
    (erase_continues t0) s.
Proof using Type.
  intros Ht Hb Hsn Hfl Hfr Hk E.
  apply wp_bind, (wp_color k c t p (Node Black sn b (Node Red fl y fr)) Ht).
  apply wp_bind, (wp_set_color (Rt c t p :: k) Black sn b (Node Red fl y fr) Ht c). intros s1 Ht1.
  apply wp_bind, (wp_set_color k c t p (Node c sn b (Node Red fl y fr)) Ht1 Black). intros s2 Ht2.
  apply wp_bind, (wp_get_right (Rt Black t p :: k) c sn b (Node Red fl y fr) Ht2). cbn [root_of].
  apply wp_bind, (wp_set_color (Rt c sn b :: Rt Black t p :: k) Red fl y fr Ht2 Black). intros s3 Ht3.
  apply wp_bind, (wp_rotate_left k Black t p c sn b (Node Black fl y fr) Ht3). intros s4 Ht4.
  apply (erase_stop _ _ _ (parent_height c n) c t0 Ht4); [destruct c; eauto with obelisk|done|].
  rewrite <- E. same_order.
Qed.

Lemma erase_left_black_spec k c t p sn b sf n s t0 :
  (0 < fuel)%nat -> (c = Black -> (length k < fuel)%nat) ->
  tree_at F s (zip k (Node c t p (Node Black sn b sf))) -> rb Black n t -> rb Black (S n) (Node Black sn b sf) ->
  fits k c (parent_height c n) -> inorder (zip k (Node c t p (Node Black sn b sf))) = inorder t0 ->
  wp (erase_left_black p b) (erase_continues t0) s.
Proof using IH.
  intros Hf Hc Ht Hb Hs Hk E. inversion Hs as [| |cn cf ? ? ? ? Hsn Hsf]; subst.
  apply wp_bind, (wp_get_left (Rt c t p :: k) Black sn b sf Ht), wp_bind, (wp_null_or_black (Lf Black b sf :: Rt c t p :: k) sn Ht).
  assert (Hboth : wp (if is_black sn then sr ← get_right b; null_or_black sr else mret false)
                    (fun x s' => x = (is_black sn && is_black sf)%bool /\ s' = s) s).
  { destruct (is_black sn); [|by apply wp_ret].
    by apply wp_bind, (wp_get_right (Rt c t p :: k) Black sn b sf Ht), (wp_null_or_black (Rt Black sn b :: Rt c t p :: k) sf Ht). }
  apply wp_bind, (wp_mono _ _ _ _ Hboth). intros both ? [-> ->]. rewrite (rb_is_black_tree _ _ _ Hsn), (rb_is_black_tree _ _ _ Hsf).
  destruct cf.
  - replace (_ && _)%bool with false by (by destruct cn).
    inversion Hsf as [|? fl y fr Hfl Hfr|]; subst.
    apply wp_bind, (wp_get_right (Rt c t p :: k) Black sn b _ Ht), wp_bind, (wp_null_or_black (Rt Black sn b :: Rt c t p :: k) _ Ht).
    cbn [is_black]. apply wp_bind, wp_ret.
    by apply (erase_left_last k c t p sn b fl y fr n cn).
  - destruct cn; cbn [andb].
    + inversion Hsn as [|? nl x nr Hnl Hnr|]; subst.
      apply wp_bind, (wp_get_right (Rt c t p :: k) Black _ b sf Ht), wp_bind, (wp_null_or_black (Rt Black _ b :: Rt c t p :: k) _ Ht).
      rewrite (rb_is_black_tree _ _ _ Hsf).
      apply wp_bind, wp_bind, (wp_get_left (Rt c t p :: k) Black _ b sf Ht).
      apply wp_bind, (wp_set_color (Lf Black b sf :: Rt c t p :: k) Red nl x nr Ht Black). intros s1 Ht1.
      apply wp_bind, (wp_set_color (Rt c t p :: k) Black (Node Black nl x nr) b sf Ht1 Red). intros s2 Ht2.
      apply wp_bind, (wp_rotate_right (Rt c t p :: k) Red b Black nl x nr sf Ht2). intros s3 Ht3.
      apply (wp_get_right k c t p (Node Black nl x (Node Red nr b sf)) Ht3). cbn [root_of].
      apply (erase_left_last k c t p nl x nr b sf n Black); try done. rewrite <- E. same_order.
    + apply wp_bind, (wp_set_color (Rt c t p :: k) Black sn b sf Ht Red). intros s1 Ht1.
      apply wp_bind, (wp_parent k c t p (Node Red sn b sf) Ht1).
      apply (erase_up k (Node c t p (Node Red sn b sf)) s1 (match c with Red => n | Black => S n end) t0); [|done|done| | |].
      * destruct c; [done|auto].
      * destruct c; [right|left]; eauto with obelisk.
      * destruct c; [apply (fits_black _ _ _ Hk)|done].
      * rewrite <- E. same_order.
Qed.

Lemma erase_left_spec k c t p sib n s :
  (S (length k) < S fuel)%nat -> tree_at F s (zip (Lf c p sib :: k) t) -> rb Black n t ->
  fits (Lf c p sib :: k) Black (S n) ->
  wp (erase_left p) (erase_continues (zip (Lf c p sib :: k) t)) s.
Proof using IH.
  intros Hf Ht Hb Hk. set (t0 := zip _ t).
  assert (Hs : exists cs, rb cs (S n) sib /\ fits k c (parent_height c n) /\ (cs = Red -> c = Black)).
  { inversion Hk; subst; eexists; eauto. }
  destruct Hs as (cs & Hs & Hk' & Hcs). apply wp_bind, (wp_get_right k c t p sib Ht).
  inversion Hs as [|? sn b sf H1 H2|? ? ? sn b sf H1 H2]; subst; cbn [root_of].
  - rewrite (Hcs eq_refl) in *. apply wp_bind, (wp_is_red (Rt Black t p :: k) Red sn b sf Ht).
    apply wp_bind, wp_bind, (wp_set_color (Rt Black t p :: k) Red sn b sf Ht Black). intros s1 Ht1.
    apply wp_bind, (wp_set_color k Black t p (Node Black sn b sf) Ht1 Red). intros s2 Ht2.
    apply wp_bind, (wp_rotate_left k Red t p Black sn b sf Ht2). intros s3 Ht3.
    apply (wp_get_right (Lf Black b sf :: k) Red t p sn Ht3).
    inversion H1 as [| |? ? ? x1 b' x2 H3 H4]; subst. cbn [root_of].
    apply (erase_left_black_spec (Lf Black b sf :: k) Red t p x1 b' x2 n s3 t0 ltac:(lia) ltac:(done) Ht3); cbn [parent_height]; eauto with obelisk.
    subst t0. same_order.
  - apply wp_bind, (wp_is_red (Rt c t p :: k) Black sn b sf Ht). apply wp_bind, wp_ret.
    apply (erase_left_black_spec k c t p sn b sf n s t0); eauto with obelisk; lia.
Qed.

(** *** The node is a right child *)

Lemma erase_right_last k c t p sn b fl y fr n cs t0 s :
  tree_at F s (zip k (Node c (Node Black (Node Red fl y fr) b sn) p t)) ->
  rb Black n t -> rb cs n sn -> rb Black n fl -> rb Black n fr -> fits k c (parent_height c n) ->
  inorder (zip k (Node c (Node Black (Node Red fl y fr) b sn) p t)) = inorder t0 ->
  wp (pc ← rb_color p; rb_set_color b pc ;; rb_set_color p RB_BLACK ;;
      far ← get_left b; rb_set_color far RB_BLACK ;; rb_rotate_right p ;; root ← get_root; mret (inr root))
    (erase_continues t0) s.
Proof using Type.
  intros Ht Hb Hsn Hfl Hfr Hk E.
  apply wp_bind, (wp_color k c (Node Black (Node Red fl y fr) b sn) p t Ht).
  apply wp_bind, (wp_set_color (Lf c p t :: k) Black (Node Red fl y fr) b sn Ht c). intros s1 Ht1.
  apply wp_bind, (wp_set_color k c (Node c (Node Red fl y fr) b sn) p t Ht1 Black). intros s2 Ht2.
  apply wp_bind, (wp_get_left (Lf Black p t :: k) c (Node Red fl y fr) b sn Ht2). cbn [root_of].
  apply wp_bind, (wp_set_color (Lf c b sn :: Lf Black p t :: k) Red fl y fr Ht2 Black). intros s3 Ht3.
  apply wp_bind, (wp_rotate_right k Black p c (Node Black fl y fr) b sn t Ht3). intros s4 Ht4.
  apply (erase_stop _ _ _ (parent_height c n) c t0 Ht4); [destruct c; eauto with obelisk|done|].
  rewrite <- E. same_order.
Qed.

Lemma erase_right_black_spec k c t p sn b sf n s t0 :
  (0 < fuel)%nat -> (c = Black -> (length k < fuel)%nat) ->
  tree_at F s (zip k (Node c (Node Black sf b sn) p t)) -> rb Black n t -> rb Black (S n) (Node Black sf b sn) ->
  fits k c (parent_height c n) -> inorder (zip k (Node c (Node Black sf b sn) p t)) = inorder t0 ->
  wp (erase_right_black p b) (erase_continues t0) s.
Proof using IH.
  intros Hf Hc Ht Hb Hs Hk E. inversion Hs as [| |cf cn ? ? ? ? Hsf Hsn]; subst.
  apply wp_bind, (wp_get_left (Lf c p t :: k) Black sf b sn Ht), wp_bind, (wp_null_or_black (Lf Black b sn :: Lf c p t :: k) sf Ht).
  assert (Hboth : wp (if is_black sf then sr ← get_right b; null_or_black sr else mret false)
                    (fun x s' => x = (is_black sf && is_black sn)%bool /\ s' = s) s).
  { destruct (is_black sf); [|by apply wp_ret].
    by apply wp_bind, (wp_get_right (Lf c p t :: k) Black sf b sn Ht), (wp_null_or_black (Rt Black sf b :: Lf c p t :: k) sn Ht). }
  apply wp_bind, (wp_mono _ _ _ _ Hboth). intros both ? [-> ->]. rewrite (rb_is_black_tree _ _ _ Hsf), (rb_is_black_tree _ _ _ Hsn).
  destruct cf.
  - replace (_ && _)%bool with false by (by destruct cn).
    inversion Hsf as [|? fl y fr Hfl Hfr|]; subst.
    apply wp_bind, (wp_get_left (Lf c p t :: k) Black _ b sn Ht), wp_bind, (wp_null_or_black (Lf Black b sn :: Lf c p t :: k) _ Ht).
    cbn [is_black]. apply wp_bind, wp_ret.
    by apply (erase_right_last k c t p sn b fl y fr n cn).
  - destruct cn; cbn [andb].
    + inversion Hsn as [|? nl x nr Hnl Hnr|]; subst.
      apply wp_bind, (wp_get_left (Lf c p t :: k) Black sf b _ Ht), wp_bind, (wp_null_or_black (Lf Black b _ :: Lf c p t :: k) _ Ht).
      rewrite (rb_is_black_tree _ _ _ Hsf).
      apply wp_bind, wp_bind, (wp_get_right (Lf c p t :: k) Black sf b _ Ht).
      apply wp_bind, (wp_set_color (Rt Black sf b :: Lf c p t :: k) Red nl x nr Ht Black). intros s1 Ht1.
      apply wp_bind, (wp_set_color (Lf c p t :: k) Black sf b (Node Black nl x nr) Ht1 Red). intros s2 Ht2.
      apply wp_bind, (wp_rotate_left (Lf c p t :: k) Red sf b Black nl x nr Ht2). intros s3 Ht3.
      apply (wp_get_left k c (Node Black (Node Red sf b nl) x nr) p t Ht3). cbn [root_of].
      apply (erase_right_last k c t p nr x sf b nl n Black); try done. rewrite <- E. same_order.
    + apply wp_bind, (wp_set_color (Lf c p t :: k) Black sf b sn Ht Red). intros s1 Ht1.
      apply wp_bind, (wp_parent k c (Node Red sf b sn) p t Ht1).
      apply (erase_up k (Node c (Node Red sf b sn) p t) s1 (match c with Red => n | Black => S n end) t0); [|done|done| | |].
      * destruct c; [done|auto].
      * destruct c; [right|left]; eauto with obelisk.
      * destruct c; [apply (fits_black _ _ _ Hk)|done].
      * rewrite <- E. same_order.
Qed.

Lemma erase_right_spec k c t p sib n s :
  (S (length k) < S fuel)%nat -> tree_at F s (zip (Rt c sib p :: k) t) -> rb Black n t ->
  fits (Rt c sib p :: k) Black (S n) ->
  wp (erase_right p) (erase_continues (zip (Rt c sib p :: k) t)) s.
Proof using IH.
  intros Hf Ht Hb Hk. set (t0 := zip _ t).
  assert (Hs : exists cs, rb cs (S n) sib /\ fits k c (parent_height c n) /\ (cs = Red -> c = Black)).
  { inversion Hk; subst; eexists; eauto. }
  destruct Hs as (cs & Hs & Hk' & Hcs). apply wp_bind, (wp_get_left k c sib p t Ht).
  inversion Hs as [|? sf b sn H1 H2|? ? ? sf b sn H1 H2]; subst; cbn [root_of].
  - rewrite (Hcs eq_refl) in *. apply wp_bind, (wp_is_red (Lf Black p t :: k) Red sf b sn Ht).
    apply wp_bind, wp_bind, (wp_set_color (Lf Black p t :: k) Red sf b sn Ht Black). intros s1 Ht1.
    apply wp_bind, (wp_set_color k Black (Node Black sf b sn) p t Ht1 Red). intros s2 Ht2.
    apply wp_bind, (wp_rotate_right k Red p Black sf b sn t Ht2). intros s3 Ht3.
    apply (wp_get_left (Rt Black sf b :: k) Red sn p t Ht3).
    inversion H2 as [| |? ? ? x1 b' x2 H3 H4]; subst. cbn [root_of].
    apply (erase_right_black_spec (Rt Black sf b :: k) Red t p x2 b' x1 n s3 t0 ltac:(lia) ltac:(done) Ht3); cbn [parent_height]; eauto with obelisk.
    subst t0. same_order.
  - apply wp_bind, (wp_is_red (Lf c p t :: k) Black sf b sn Ht). apply wp_bind, wp_ret.
    apply (erase_right_black_spec k c t p sn b sf n s t0); eauto with obelisk; lia.
Qed.
End Erase.

Definition balanced_as (F : gmap Z rb_node) (L : list Z) (s' : rb_mem) : Prop :=
  exists t', tree_at F s' t' /\ rb_tree t' /\ inorder t' = L.

Lemma short_black n t : is_black t = true -> short n t -> rb Black n t.
Proof. intros Hb [H|[Hr _]]; [done|congruence]. Qed.

Lemma short_red n t : is_black t = false -> short n t -> rb Black (S n) (blacken t).
Proof. intros Hb [H|[_ H]]; [|done]. pose proof (rb_is_black_tree _ _ _ H). congruence. Qed.

Lemma rb_short c n t : rb c n t -> short n t.
Proof. inversion 1; subst; [by left|right; cbn; eauto with obelisk|by left]. Qed.

Lemma erase_loop F fuel k t s n :
  (is_black t = true -> (length k < fuel)%nat) -> (0 < fuel)%nat ->
  tree_at F s (zip k t) -> short n t -> fits k Black (S n) ->
  wp (iter fuel erase_body (root_of t, top k)) (erase_post F (zip k t)) s.
Proof.
  revert k t s n. induction fuel as [|fuel IH]; intros k t s n Hf H0 Ht Hs Hk; [lia|].
  apply wp_iter. unfold erase_body. apply wp_bind, (wp_null_or_black k t Ht), wp_bind.
  exists (rb_root s), s. split; [done|]. destruct (is_black t) eqn:Hb; cbn [negb orb].
  2: { apply wp_ret. exists k, t. do 3 (split; [done|]).
       apply (fits_zip _ _ _ _ Hk), short_red; done. }
  apply short_black in Hs; [|done]. specialize (Hf eq_refl). destruct k as [|f k].
  { rewrite (ta_root _ _ _ Ht), Z.eqb_refl. apply wp_ret. exists [], t. do 3 (split; [done|]).
    exists n. cbn. by rewrite (blacken_black _ _ Hs). }
  rewrite (below_root _ _ Ht) by done. cbn in Hf. destruct f as [c p r|c l p]; cbn [top frame_addr].
  - apply wp_bind, (wp_get_left k c t p r Ht). rewrite Z.eqb_refl. by apply (erase_left_spec F fuel IH k c t p r n s).
  - apply wp_bind, (wp_get_left k c l p t Ht). rewrite (children_ne k c l p t Ht).
    + by apply (erase_right_spec F fuel IH k c t p l n s).
    + intros ->. inversion Hk as [| |? ? ? ? ? ? H| |? ? ? ? H]; inversion H.
Qed.

Lemma erase_color_spec F k t s n :
  tree_at F s (zip k t) -> short n t -> fits k Black (S n) ->
  wp (rb_erase_color (root_of t) (top k)) (fun _ => balanced_as F (inorder (zip k t))) s.
Proof.
  intros Ht Hs Hk. unfold rb_erase_color. apply wp_bind. pose proof (path_size _ _ _ _ Ht).
  apply (wp_mono _ _ _ _ (erase_loop F (S (size (nodes s))) k t s n ltac:(lia) ltac:(lia) Ht Hs Hk)).
  intros node s1 (k' & t' & Ht' & -> & Hin & Hrb). destruct t' as [|c l a r]; cbn [root_of].
  - apply wp_ret. by exists (zip k' Leaf).
  - nz (at_nz _ _ _ _ _ Ht'). apply (wp_set_color _ _ _ _ _ Ht' Black). intros s2 Ht2.
    exists (zip k' (Node Black l a r)). split; [done|]. split; [done|]. rewrite <- Hin. same_order.
Qed.

(** ** Taking a node out *)

Lemma tree_at_self F s t : tree_at F s t -> tree_at (nodes s) s t.
Proof. intros [? ? ? ? ?]. by split. Qed.

(** The child [ch] takes the place of its parent [a]. *)
Lemma splice_at F s k c l a r ch :
  tree_at F s (zip k (Node c l a r)) -> l = Leaf /\ ch = r \/ r = Leaf /\ ch = l ->
  let s' := relink k (root_of ch) (reparent (root_of ch) (top k) s) in
  tree_at (nodes s') s' (zip k ch) /\
  forall x, x ∉ inorder (zip k (Node c l a r)) -> nodes s' !! x = nodes s !! x.
Proof.
  intros Ht Hch s'. pose proof (at_addr _ _ _ _ _ Ht) as Haa.
  pose proof (proj1 (tree_at_zip _ _ _ _) Ht) as [(Ha & Hl & Hr) Har Hnd Haddr Hrest].
  assert (Hsub : sub (nodes s) ch a /\ NoDup (inorder ch ++ outer k) /\ Forall node_addr (inorder ch ++ outer k) /\
                 forall x, x ∉ inorder (zip k (Node c l a r)) -> x ∉ inorder ch).
  { split; [destruct Hch as [[-> ->]|[-> ->]]; done|].
    assert (Hp : inorder (Node c l a r) ++ outer k ≡ₚ a :: inorder ch ++ outer k).
    { destruct Hch as [[-> ->]|[-> ->]]; cbn; [done|]. by rewrite <- Permutation_middle, app_nil_r. }
    rewrite Hp in Hnd, Haddr. apply NoDup_cons in Hnd as [_ Hnd]. apply Forall_cons in Haddr as [_ Haddr].
    split; [done|]. split; [done|]. intros x. rewrite zip_perm, Hp. set_solver. }
  destruct Hsub as (Hsub & Hnd' & Haddr' & Hx). clear Hrest. split.
  - apply tree_at_zip. split; [| |exact Hnd'|exact Haddr'|done]; apart; subst s'.
    + apply (sub_ext (nodes (reparent (root_of ch) (top k) s))); [intros x Hin; by lookups|].
      apply (sub_reparent s ch a); try done. apply Haa.
    + apply (around_relink _ _ _ a); [done|]. apply (around_ext s); [apply root_reparent| |done].
      intros x Hin. by lookups.
  - intros x Hin. pose proof (Hx x Hin). rewrite zip_perm in Hin. apart. subst s'. by lookups.
Qed.

(** The node [a] has left the tree [t], the others are in order and balanced,
    and nothing else changed. *)
Definition removed (s : rb_mem) (t : tree) (a : Z) (s' : rb_mem) : Prop :=
  exists t' l1 l2, tree_at (nodes s') s' t' /\ rb_tree t' /\ inorder t = l1 ++ a :: l2 /\ inorder t' = l1 ++ l2 /\
    forall x, x ∉ inorder t -> nodes s' !! x = nodes s !! x.

Lemma erase_finish_spec s s1 t0 a k t c n l1 l2 :
  tree_at (nodes s1) s1 (zip k t) -> (forall x, x ∉ inorder t0 -> nodes s1 !! x = nodes s !! x) ->
  (c = Black -> short n t /\ fits k Black (S n)) -> (c = Red -> rb_tree (zip k t)) ->
  inorder t0 = l1 ++ a :: l2 -> inorder (zip k t) = l1 ++ l2 ->
  wp (erase_finish (cz c) (root_of t) (top k)) (fun _ => removed s t0 a) s1.
Proof.
  intros Ht Hx Hb Hr E1 E2. unfold erase_finish. destruct c; cbn [cz].
  - apply wp_ret. exists (zip k t), l1, l2. auto.
  - destruct (Hb eq_refl) as [Hs Hk]. apply (wp_mono _ _ _ _ (erase_color_spec _ _ _ _ _ Ht Hs Hk)).
    intros [] s2 (t' & Ht' & Hrb & Hin). exists t', l1, l2. split; [by apply (tree_at_self _ _ _ Ht')|].
    split; [done|]. split; [done|]. split; [congruence|]. intros x Hx'. rewrite <- Hx by done.
    apply (ta_rest _ _ _ Ht'). rewrite Hin, E2. rewrite E1 in Hx'. set_solver.
Qed.

Lemma erase_splice_spec F s k c l a r ch :
  tree_at F s (zip k (Node c l a r)) -> l = Leaf /\ ch = r \/ r = Leaf /\ ch = l ->
  rb_tree (zip k (Node c l a r)) ->
  wp (erase_splice a (root_of ch)) (fun _ => removed s (zip k (Node c l a r)) a) s.
Proof.
  intros Ht Hch Hrb. destruct (splice_at _ _ _ _ _ _ _ _ Ht Hch) as [Ht1 Hrest].
  pose proof (at_nz _ _ _ _ _ Ht) as Ha0. pose proof (outer_nz _ _ _ _ Ht) as Hk0.
  pose proof (proj1 (tree_at_zip _ _ _ _) Ht) as [(_ & Hl & Hr) Har Hnd Haddr _].
  apply wp_bind, (wp_parent _ _ _ _ _ Ht), wp_bind, (wp_color _ _ _ _ _ Ht).
  cbn [inorder] in Hnd, Haddr. apart.
  apply wp_bind, (wp_reparent s ch a); [by destruct Hch as [[_ ->]|[_ ->]]..|].
  apply wp_bind, (wp_relink_left k a (root_of ch)); [|done|separate|done|intros y; apply Z.eqb_sym|].
  { apply (around_ext s); [apply root_reparent| |done]. intros x Hx.
    apply nodes_reparent. destruct Hch as [[_ ->]|[_ ->]]; separate. }
  destruct (zip_fits _ _ Hrb) as (c' & n & Hrb' & Hk).
  apply (erase_finish_spec s _ _ a k ch c (pred n) (before k ++ inorder l) (inorder r ++ after k) Ht1 Hrest).
  - intros ->. inversion Hrb' as [| |cl cr n' ? ? ? Hrl Hrr]; subst. split; [|done].
    destruct Hch as [[_ ->]|[_ ->]]; by eapply rb_short.
  - intros ->. inversion Hrb' as [|? ? ? ? Hrl Hrr|]; subst. apply fits_black in Hk. apply (fits_zip _ _ _ _ Hk).
    by destruct Hch as [[_ ->]|[_ ->]].
  - same_order.
  - destruct Hch as [[-> ->]|[-> ->]]; rewrite inorder_zip; cbn; by rewrite ?app_nil_r, <- ?app_assoc.
Qed.

(** *** The leftmost and the rightmost node *)

Definition is_left (f : frame) : Prop := match f with Lf _ _ _ => True | Rt _ _ _ => False end.
Definition is_right (f : frame) : Prop := match f with Lf _ _ _ => False | Rt _ _ _ => True end.

Lemma leftmost_spec F s t fuel k :
  tree_at F s (zip k t) -> t <> Leaf -> (length (inorder t) <= fuel)%nat ->
  wp (iter fuel leftmost_body (root_of t))
    (fun b s' => s' = s /\ exists kk c r, t = zip kk (Node c Leaf b r) /\ Forall is_left kk) s.
Proof.
  revert fuel k. induction t as [|c l IHl a r _]; intros fuel k Ht Hne Hf; [done|]. cbn in Hf. rewrite length_app in Hf. cbn in Hf.
  destruct fuel as [|fuel]; [lia|]. apply wp_iter, wp_bind, (wp_get_left _ _ _ _ _ Ht), wp_ret.
  destruct l as [|c' l' a' r']; cbn [root_of].
  - split; [done|]. exists [], c, r. by split.
  - nz (at_nz (Lf c a r :: k) _ _ _ _ Ht).
    apply (wp_mono _ _ _ _ (IHl fuel (Lf c a r :: k) Ht ltac:(done) ltac:(lia))).
    intros b s' (-> & kk & cb & rb' & E & Hkk). split; [done|]. exists (kk ++ [Lf c a r]), cb, rb'.
    rewrite zip_app, <- E. split; [done|]. apply Forall_app. by repeat constructor.
Qed.

Lemma rightmost_spec F s t fuel k :
  tree_at F s (zip k t) -> t <> Leaf -> (length (inorder t) <= fuel)%nat ->
  wp (iter fuel rightmost_body (root_of t))
    (fun b s' => s' = s /\ exists kk c l, t = zip kk (Node c l b Leaf) /\ Forall is_right kk) s.
Proof.
  revert fuel k. induction t as [|c l _ a r IHr]; intros fuel k Ht Hne Hf; [done|]. cbn in Hf. rewrite length_app in Hf. cbn in Hf.
  destruct fuel as [|fuel]; [lia|]. apply wp_iter, wp_bind, (wp_get_right _ _ _ _ _ Ht), wp_ret.
  destruct r as [|c' l' a' r']; cbn [root_of].
  - split; [done|]. exists [], c, l. by split.
  - nz (at_nz (Rt c l a :: k) _ _ _ _ Ht).
    apply (wp_mono _ _ _ _ (IHr fuel (Rt c l a :: k) Ht ltac:(done) ltac:(lia))).
    intros b s' (-> & kk & cb & rb' & E & Hkk). split; [done|]. exists (kk ++ [Rt c l a]), cb, rb'.
    rewrite zip_app, <- E. split; [done|]. apply Forall_app. by repeat constructor.
Qed.

(** *** A node with two children *)

Lemma wp_set_parent s t par q (Q : unit -> rb_mem -> Prop) :
  t <> Leaf -> Forall node_addr (inorder t) -> sub (nodes s) t par -> Q tt (reparent (root_of t) q s) ->
  wp (rb_set_parent (root_of t) q) Q s.
Proof.
  intros Hne Hf Hs H. destruct t as [|c l a r]; [done|]. destruct Hs as [Hs _]. cbn [root_of] in *.
  rewrite Forall_forall in Hf. destruct (Hf a) as [Ha _]; [cbn; set_solver|].
  unfold reparent in H. rewrite (proj2 (Z.eqb_neq a 0)) in H by lia. by apply (wp_wr _ _ _ _ _ Hs).
Qed.

Lemma alter_swap {A : Type} (f g : A -> A) (i j : Z) (m : gmap Z A) :
  i <> j -> alter f i (alter g j m) = alter g j (alter f i m).
Proof.
  intros Hij. apply map_eq. intros x. destruct (decide (x = i)) as [->|Hi]; [|destruct (decide (x = j)) as [->|Hj]].
  - by rewrite lookup_alter_eq, !(lookup_alter_ne _ _ j), lookup_alter_eq by done.
  - by rewrite !(lookup_alter_ne _ _ i), !lookup_alter_eq, (lookup_alter_ne _ _ i) by done.
  - by rewrite !lookup_alter_ne by done.
Qed.

Lemma relink_modify k x p f s : p ∉ outer k -> relink k x (modify p f s) = modify p f (relink k x s).
Proof.
  destruct k as [|[c a t|c t a] k]; cbn [relink outer]; intros Hp; [done| |];
    unfold modify; cbn; f_equal; apply alter_swap; set_solver.
Qed.

Lemma relink_reparent k x t q s : sep (inorder t) (outer k) ->
  relink k x (reparent (root_of t) q s) = reparent (root_of t) q (relink k x s).
Proof.
  intros Hs. unfold reparent. case_match eqn:E; [done|]. zbool. apply relink_modify.
  destruct (root_in t) as [H|H]; [lia|by apply Hs].
Qed.

Section Replace.
Context (k : ctx) (c : color) (l : tree) (a b : Z) (s : rb_mem).

(** The successor [b] takes over the words of [a]: the parent and the colour,
    and the left child. *)
Definition take_over (s1 : rb_mem) : rb_mem :=
  reparent (root_of l) b (modify b (with_left (root_of l)) (modify b (with_pc (pack (top k) c)) s1)).

Lemma wp_take_over s1 color child parent r nb (Q : unit -> rb_mem -> Prop) :
  nodes s1 !! a = Some (node_of (top k) c (root_of l) r) -> nodes s1 !! b = Some nb ->
  l <> Leaf -> (b ∉ inorder l) -> Forall node_addr (inorder l) -> sub (nodes s1) l a ->
  wp (erase_finish color child parent) Q (take_over s1) ->
  wp (o ← rd a; wr b (with_pc (rb_parent_color o)) ;; set_left b (rb_left o) ;;
      rb_set_parent (rb_left o) b ;; erase_finish color child parent) Q s1.
Proof.
  intros Ha Hb Hl Hbl Hla Hs HQ. apply wp_bind, (wp_rd _ _ _ _ Ha). cbn [rb_left rb_parent_color node_of].
  apply wp_bind, (wp_wr _ _ _ _ _ Hb).
  apply wp_bind, (wp_wr _ (with_pc (pack (top k) c) nb)); [rewrite nodes_modify, decide_True, Hb by done; done|].
  apply wp_bind, (wp_set_parent _ l a); [done|done| |done].
  apply (sub_ext (nodes s1)); [|done]. intros x Hx. by lookups.
Qed.

(** The successor is the right child. *)
Lemma take_over_child F cs rr :
  tree_at F s (zip k (Node c l a (Node cs Leaf b rr))) ->
  let s' := take_over (relink k b s) in
  tree_at (nodes s') s' (zip k (Node c l b rr)) /\
  forall x, x ∉ inorder (zip k (Node c l a (Node cs Leaf b rr))) -> nodes s' !! x = nodes s !! x.
Proof.
  intros Ht s'. pose proof (at_addr _ _ _ _ _ Ht) as Haa.
  pose proof (at_node (Rt c l a :: k) cs Leaf b rr Ht) as Hb.
  pose proof (proj1 (tree_at_zip _ _ _ _) Ht) as [(_ & Hl & _ & _ & Hr) Har Hnd Haddr _]. cbn [inorder app] in *.
  assert (Hnd' : NoDup ((inorder l ++ b :: inorder rr) ++ outer k)).
  { revert Hnd. rewrite <- !app_assoc. cbn. rewrite <- (Permutation_middle (inorder l) _ a).
    by intros [_ ?]%NoDup_cons. }
  assert (Haddr' : Forall node_addr ((inorder l ++ b :: inorder rr) ++ outer k)).
  { revert Haddr. rewrite <- !app_assoc. cbn. rewrite <- (Permutation_middle (inorder l) _ a).
    by intros [_ ?]%Forall_cons. }
  split.
  - apply tree_at_zip. split; [| |exact Hnd'|exact Haddr'|done]; apart; subst s'; unfold take_over.
    + split; [|split].
      * lookups. rewrite Hb. done.
      * apply (sub_ext (nodes (reparent (root_of l) b s))).
        -- intros x Hx. apply reparent_ext. by lookups.
        -- apply (sub_reparent s l a); try done. apply Haa.
      * apply (sub_ext (nodes s)); [|done]. intros x Hx. by lookups.
    + apply (around_ext (relink k b s)); [by rewrite root_reparent|intros x Hx; by lookups|].
      by apply (around_relink _ _ _ a).
  - intros x Hx. rewrite zip_perm in Hx. cbn [inorder] in Hx. apart. subst s'. unfold take_over. by lookups.
Qed.

(** The successor was further down and has been taken out. *)
Lemma take_over_far F r nb :
  tree_at F s (zip k (Node c l a r)) -> node_addr b -> b ∉ inorder (zip k (Node c l a r)) -> nodes s !! b = Some nb ->
  let s' := take_over (reparent (root_of r) b (modify b (with_right (root_of r)) (relink k b s))) in
  tree_at (nodes s') s' (zip k (Node c l b r)) /\
  forall x, x <> b -> x ∉ inorder (zip k (Node c l a r)) -> nodes s' !! x = nodes s !! x.
Proof.
  intros Ht Hba Hout Hb s'. pose proof (at_addr _ _ _ _ _ Ht) as Haa.
  pose proof (proj1 (tree_at_zip _ _ _ _) Ht) as [(_ & Hl & Hr) Har Hnd Haddr _].
  rewrite zip_perm in Hout. cbn [inorder app] in *.
  assert (Hnd' : NoDup ((inorder l ++ b :: inorder r) ++ outer k)).
  { revert Hnd Hout. rewrite <- !app_assoc. cbn. rewrite <- !Permutation_middle.
    intros [_ ?]%NoDup_cons [_ ?]%not_elem_of_cons. by apply NoDup_cons. }
  assert (Haddr' : Forall node_addr ((inorder l ++ b :: inorder r) ++ outer k)).
  { revert Haddr. rewrite <- !app_assoc. cbn. rewrite <- !Permutation_middle.
    intros [_ ?]%Forall_cons. by apply Forall_cons. }
  split.
  - apply tree_at_zip. split; [| |exact Hnd'|exact Haddr'|done]; apart; subst s'; unfold take_over.
    + split; [|split].
      * lookups. rewrite Hb. done.
      * apply (sub_ext (nodes (reparent (root_of l) b s))).
        -- intros x Hx. apply reparent_ext. by lookups.
        -- apply (sub_reparent s l a); try done. apply Haa.
      * apply (sub_ext (nodes (reparent (root_of r) b s))).
        -- intros x Hx. lookups. apply reparent_ext. by lookups.
        -- apply (sub_reparent s r a); try done. apply Haa.
    + apply (around_ext (relink k b s)); [by rewrite root_reparent, !root_modify, root_reparent|intros x Hx; by lookups|].
      by apply (around_relink _ _ _ a).
  - intros x Hxb Hx. rewrite zip_perm in Hx. cbn [inorder] in Hx. apart. subst s'. unfold take_over. by lookups.
Qed.
End Replace.

Lemma fits_addr kk c l a b k c' n : fits (kk ++ Rt c l a :: k) c' n -> fits (kk ++ Rt c l b :: k) c' n.
Proof.
  revert c' n. induction kk as [|f kk IH]; cbn; intros c' n H.
  - inversion H; subst; eauto with obelisk.
  - inversion H; subst; eauto with obelisk.
Qed.

Lemma leftmost_order kk t : Forall is_left kk -> before kk = [] /\ inorder (zip kk t) = inorder t ++ after kk.
Proof.
  intros H. assert (E : before kk = []) by (induction H as [|[] ? ? ? IH]; [done|exact IH|done]).
  split; [done|]. by rewrite inorder_zip, E.
Qed.

Lemma top_app kk f k : top (kk ++ f :: k) = match kk with [] => frame_addr f | g :: _ => frame_addr g end.
Proof. by destruct kk. Qed.

(** Both ways to replace [a] by its successor end in the same tree. *)
Lemma erase_two_finish F s s' k c l a kk cs b rr :
  tree_at F s (zip k (Node c l a (zip kk (Node cs Leaf b rr)))) ->
  rb_tree (zip k (Node c l a (zip kk (Node cs Leaf b rr)))) -> Forall is_left kk ->
  tree_at (nodes s') s' (zip k (Node c l b (zip kk rr))) ->
  (forall x, x ∉ inorder (zip k (Node c l a (zip kk (Node cs Leaf b rr)))) -> nodes s' !! x = nodes s !! x) ->
  wp (erase_finish (cz cs) (root_of rr) (match kk with [] => b | f :: _ => frame_addr f end))
    (fun _ => removed s (zip k (Node c l a (zip kk (Node cs Leaf b rr)))) a) s'.
Proof.
  intros Ht Hrb Hkk Ht' Hx. set (t0 := zip k _) in *.
  assert (E : zip (kk ++ Rt c l a :: k) (Node cs Leaf b rr) = t0) by (by rewrite zip_app).
  rewrite <- E in Hrb. destruct (zip_fits _ _ Hrb) as (c' & n & Hn & Hk). apply (fits_addr kk c l a b k) in Hk.
  replace (match kk with [] => b | _ => _ end) with (top (kk ++ Rt c l b :: k)) by (by rewrite top_app).
  apply (erase_finish_spec s s' t0 a _ _ _ (pred n) (before k ++ inorder l)
           (inorder (zip kk (Node cs Leaf b rr)) ++ after k)); [by rewrite zip_app|done| | | |].
  - intros ->. inversion Hn as [| |cl cr n' ? ? ? Hrl Hrr]; subst. split; [by eapply rb_short|done].
  - intros ->. inversion Hn as [|? ? ? ? Hrl Hrr|]; subst. apply fits_black in Hk. by apply (fits_zip _ _ _ _ Hk).
  - subst t0. rewrite (inorder_zip k). cbn [inorder]. by rewrite <- !app_assoc.
  - rewrite zip_app. cbn [zip]. rewrite inorder_zip. cbn [inorder].
    rewrite !(proj2 (leftmost_order kk _ Hkk)). cbn. rewrite <- !app_assoc. cbn. by rewrite <- app_assoc.
Qed.

Lemma outer_app k1 k2 : outer (k1 ++ k2) = outer k1 ++ outer k2.
Proof. induction k1 as [|[] k1 IH]; cbn; [done|by rewrite IH, app_assoc..]. Qed.

(** The pointer surgery when the successor is not the right child. *)
Lemma erase_two_far F s k c l a cf pf tf kk cs b rr :
  let r := zip (Lf cf pf tf :: kk) (Node cs Leaf b rr) in
  tree_at F s (zip k (Node c l a r)) -> l <> Leaf -> rb_tree (zip k (Node c l a r)) -> Forall is_left (Lf cf pf tf :: kk) ->
  wp (parent ← ((if root_of rr =? 0 then mret tt else rb_set_parent (root_of rr) pf) ;;
                set_left pf (root_of rr) ;;
                r ← get_right a; set_right b r ;; rb_set_parent r b ;; mret pf);
      o ← rd a; wr b (with_pc (rb_parent_color o)) ;; set_left b (rb_left o) ;;
      rb_set_parent (rb_left o) b ;; erase_finish (cz cs) (root_of rr) parent)
    (fun _ => removed s (zip k (Node c l a r)) a) (relink k b s).
Proof.
  intros r Ht Hl Hrb Hkk. set (K := Lf cf pf tf :: kk ++ Rt c l a :: k).
  assert (HtK : tree_at F s (zip K (Node cs Leaf b rr))) by (subst K; rewrite app_comm_cons, zip_app; exact Ht).
  pose proof (at_node _ _ _ _ _ HtK) as Hb. pose proof (at_addr _ _ _ _ _ HtK) as Hba.
  pose proof (at_node (kk ++ Rt c l a :: k) cf (Node cs Leaf b rr) pf tf HtK) as Hpf.
  destruct (splice_at F s K cs Leaf b rr rr HtK (or_introl (conj eq_refl eq_refl))) as [Ht2 Hx2].
  set (s2 := relink K (root_of rr) (reparent (root_of rr) (top K) s)) in *.
  set (R := zip (Lf cf pf tf :: kk) rr).
  assert (Ht2' : tree_at (nodes s2) s2 (zip k (Node c l a R))) by (subst K; rewrite app_comm_cons, zip_app in Ht2; exact Ht2).
  assert (Hout : b ∉ inorder (zip k (Node c l a R))).
  { pose proof (ta_nodup _ _ _ HtK) as Hnd. rewrite inorder_zip in Hnd. cbn [inorder app] in Hnd.
    rewrite <- Permutation_middle in Hnd. apply NoDup_cons in Hnd as [Hnd _].
    replace (zip k (Node c l a R)) with (zip K rr) by (subst K; by rewrite app_comm_cons, zip_app).
    by rewrite inorder_zip. }
  pose proof (proj1 (tree_at_zip _ _ _ _) HtK) as [(_ & _ & Hrr) _ Hnd Haddr _]. cbn [inorder outer app] in Hnd, Haddr.
  pose proof (proj1 (tree_at_zip _ _ _ _) Ht) as [(Ha & Hsl & _) _ Hnd0 Haddr0 _]. cbn [inorder app] in Hnd0, Haddr0.
  subst K. cbn [outer] in Hnd, Haddr. rewrite outer_app in Hnd, Haddr. cbn [outer] in Hnd, Haddr. apart.
  apply wp_bind, wp_bind, (wp_reparent _ rr b pf); [done|apply (sub_ext (nodes s)); [intros x Hx; by lookups|done]|].
  assert (Hpf1 : nodes (reparent (root_of rr) pf (relink k b s)) !! pf = nodes s !! pf) by (by lookups).
  rewrite Hpf in Hpf1. apply wp_bind, (wp_wr _ _ _ _ _ Hpf1).
  replace (modify pf _ _) with (relink k b s2)
    by (subst s2; cbn [relink top frame_addr]; by rewrite relink_modify, relink_reparent by separate).
  assert (Hs2 : forall x, x ∉ outer k -> nodes (relink k b s2) !! x = nodes s2 !! x) by (intros x Hx; by apply nodes_relink).
  assert (Hb2 : nodes s2 !! b = nodes s !! b) by (subst s2; cbn [relink]; by lookups). rewrite Hb in Hb2.
  clear - Ht Hl Hrb Hkk Ht2' Hx2 Hout Hb2 Hba HtK.
  destruct (take_over_far k c l a b s2 (nodes s2) R _ Ht2' Hba Hout Hb2) as [Ht' Hx'].
  pose proof (at_node k c l a R Ht2') as Ha2. pose proof (proj1 (tree_at_zip _ _ _ _) Ht2') as [(_ & Hsl & HsR) _ Hnd Haddr _].
  rewrite zip_perm in Hout. cbn [inorder app] in Hnd, Haddr, Hout. apart.
  assert (Ha3 : nodes (relink k b s2) !! a = nodes s2 !! a) by (by lookups). rewrite Ha2 in Ha3.
  assert (Hb3 : nodes (relink k b s2) !! b = nodes s2 !! b) by (by lookups). rewrite Hb2 in Hb3.
  apply wp_bind, wp_bind, (wp_rd _ _ _ _ Ha3), wp_ret. cbn [rb_right node_of].
  apply wp_bind, (wp_wr _ _ _ _ _ Hb3).
  apply wp_bind, (wp_set_parent _ R a); [apply zip_nonempty|done| |apply wp_ret].
  { apply (sub_ext (nodes s2)); [intros x Hx; by lookups|done]. }
  apply (wp_take_over k c l a b _ _ _ _ (root_of R)
    (with_right (root_of R) (node_of (top (Lf cf pf tf :: kk ++ Rt c l a :: k)) cs 0 (root_of rr)))); try done.
  - by lookups.
  - lookups. by rewrite Hb2.
  - apply (sub_ext (nodes s2)); [intros x Hx; by lookups|done].
  - apply (erase_two_finish F s _ k c l a (Lf cf pf tf :: kk) cs b rr); try done.
    intros x Hx. rewrite <- Hx2 by (by rewrite app_comm_cons, zip_app). apply Hx'.
    + intros ->. apply Hx. subst r. rewrite zip_perm. cbn [inorder]. rewrite inorder_zip. cbn. set_solver.
    + revert Hx. subst r R. rewrite !zip_perm. cbn [inorder]. rewrite !inorder_zip. cbn. set_solver.
Qed.

Lemma erase_two_spec F s k c l a r :
  tree_at F s (zip k (Node c l a r)) -> l <> Leaf -> r <> Leaf -> rb_tree (zip k (Node c l a r)) ->
  wp (erase_two a) (fun _ => removed s (zip k (Node c l a r)) a) s.
Proof.
  intros Ht Hl Hr Hrb. apply wp_bind, (wp_get_right _ _ _ _ _ Ht), wp_bind.
  pose proof (path_size F s (Rt c l a :: k) r Ht) as Hsize. cbn in Hsize.
  apply (wp_mono _ _ _ _ (leftmost_spec F s r (S (size (nodes s))) (Rt c l a :: k) Ht Hr ltac:(lia))).
  intros b ? (-> & kk & cs & rr & -> & Hkk).
  apply wp_bind, (wp_parent _ _ _ _ _ Ht).
  pose proof (at_nz _ _ _ _ _ Ht) as Ha0. pose proof (outer_nz _ _ _ _ Ht) as Hk0.
  pose proof (proj1 (tree_at_zip _ _ _ _) Ht) as [(Ha & Hsl & _) Har Hnd Haddr _]. cbn [inorder] in Hnd, Haddr.
  assert (HtK : tree_at F s (zip (kk ++ Rt c l a :: k) (Node cs Leaf b rr))) by (by rewrite zip_app).
  pose proof (at_node _ _ _ _ _ HtK) as Hb. pose proof (at_addr _ _ _ _ _ HtK) as Hba.
  pose proof (top_aligned _ _ _ _ HtK) as HtopK.
  assert (Hin : b ∈ inorder (zip kk (Node cs Leaf b rr))) by (rewrite inorder_zip; cbn; set_solver).
  apart. assert (Hbk : b ∉ outer k) by separate. assert (Hbl : b ∉ inorder l) by separate.
  assert (Hab : a <> b) by separate.
  apply wp_bind, (wp_relink_left k a b); [done|done|separate|done|intros y; apply Z.eqb_sym|].
  assert (Hb1 : nodes (relink k b s) !! b = Some (node_of (top (kk ++ Rt c l a :: k)) cs (root_of Leaf) (root_of rr))) by (by lookups).
  assert (Ha1 : nodes (relink k b s) !! a = Some (node_of (top k) c (root_of l) (root_of (zip kk (Node cs Leaf b rr))))) by (by lookups).
  apply wp_bind, wp_bind, (wp_rd _ _ _ _ Hb1), wp_ret, wp_bind, wp_bind, (wp_rd _ _ _ _ Hb1), wp_ret.
  apply wp_bind, wp_bind, (wp_rd _ _ _ _ Hb1), wp_ret. cbn [rb_right rb_parent_color node_of].
  rewrite (pack_parent _ HtopK), (pack_color _ HtopK), top_app.
  assert (Hsl1 : sub (nodes (relink k b s)) l a).
  { apply (sub_ext (nodes s)); [|done]. intros x Hx. by lookups. }
  destruct kk as [|f kk]; cbn [frame_addr].
  - rewrite Z.eqb_refl. apply wp_bind, wp_ret.
    apply (wp_take_over k c l a b _ _ _ _ _ _ _ Ha1 Hb1); try done.
    destruct (take_over_child k c l a b s F cs rr Ht) as [Ht' Hx'].
    by apply (erase_two_finish F s _ k c l a [] cs b rr).
  - inversion Hkk as [|? ? Hf Hkk']; subst. destruct f as [cf pf tf|]; [|done]. cbn [frame_addr].
    rewrite (proj2 (Z.eqb_neq pf a)).
    + by apply (erase_two_far F s k c l a cf pf tf kk cs b rr).
    + assert (Hpf : pf ∈ inorder (zip (Lf cf pf tf :: kk) (Node cs Leaf b rr))) by (rewrite inorder_zip; cbn; set_solver).
      intros ->. contradiction.
Qed.

Lemma erase_spec F s t a : tree_at F s t -> rb_tree t -> a ∈ inorder t -> wp (rb_erase a) (fun _ => removed s t a) s.
Proof.
  intros Ht Hrb (k & c & l & r & ->)%find_node.
  apply wp_bind, (wp_get_left _ _ _ _ _ Ht), wp_bind, (wp_get_right _ _ _ _ _ Ht).
  destruct l as [|cl ll al rl]; [apply (erase_splice_spec F _ _ _ _ _ _ r Ht); auto|]. cbn [root_of].
  nz (at_nz (Lf c a r :: k) _ _ _ _ Ht).
  destruct r as [|cr lr ar rr]; [apply (erase_splice_spec F _ _ _ _ _ _ (Node cl ll al rl) Ht); auto|]. cbn [root_of].
  nz (at_nz (Rt c (Node cl ll al rl) a :: k) _ _ _ _ Ht). by apply (erase_two_spec F).
Qed.

(** ** Walking *)

Lemma next_loop F s k t fuel : tree_at F s (zip k t) -> t <> Leaf -> (length k < fuel)%nat ->
  wp (iter fuel next_body (root_of t)) (fun x s' => s' = s /\ x = default 0 (head (after k))) s.
Proof.
  revert k t. induction fuel as [|fuel IH]; intros k t Ht Hne Hf; [lia|].
  destruct t as [|c l a r]; [done|]. cbn [root_of]. apply wp_iter, wp_bind, (wp_parent _ _ _ _ _ Ht).
  destruct k as [|[c' p u|c' u p] k]; cbn [top frame_addr]; [by apply wp_ret| |]; cbn in Hf.
  - nz (at_nz k c' (Node c l a r) p u Ht). apply wp_bind, (wp_get_right k c' (Node c l a r) p u Ht), wp_ret.
    by rewrite (children_ne k c' (Node c l a r) p u Ht ltac:(done) : (a =? root_of u) = false).
  - nz (at_nz k c' u p (Node c l a r) Ht). apply wp_bind, (wp_get_right k c' u p (Node c l a r) Ht), wp_ret.
    cbn [root_of]. rewrite Z.eqb_refl. apply (IH k (Node c' u p (Node c l a r)) Ht); [done|lia].
Qed.

Lemma prev_loop F s k t fuel : tree_at F s (zip k t) -> t <> Leaf -> (length k < fuel)%nat ->
  wp (iter fuel prev_body (root_of t)) (fun x s' => s' = s /\ x = default 0 (last (before k))) s.
Proof.
  revert k t. induction fuel as [|fuel IH]; intros k t Ht Hne Hf; [lia|].
  destruct t as [|c l a r]; [done|]. cbn [root_of]. apply wp_iter, wp_bind, (wp_parent _ _ _ _ _ Ht).
  destruct k as [|[c' p u|c' u p] k]; cbn [top frame_addr]; [by apply wp_ret| |]; cbn in Hf.
  - nz (at_nz k c' (Node c l a r) p u Ht). apply wp_bind, (wp_get_left k c' (Node c l a r) p u Ht), wp_ret.
    cbn [root_of]. rewrite Z.eqb_refl. apply (IH k (Node c' (Node c l a r) p u) Ht); [done|lia].
  - nz (at_nz k c' u p (Node c l a r) Ht). apply wp_bind, (wp_get_left k c' u p (Node c l a r) Ht), wp_ret.
    rewrite Z.eqb_sym, (children_ne' k c' u p (Node c l a r) Ht ltac:(done) : (root_of u =? a) = false).
    split; [done|]. cbn [before]. by rewrite app_assoc, last_snoc.
Qed.

Lemma leftmost_head F s k t : tree_at F s (zip k t) -> t <> Leaf ->
  wp (loop leftmost_body (root_of t)) (fun x s' => s' = s /\ head (inorder t) = Some x) s.
Proof.
  intros Ht Hne. pose proof (path_size _ _ _ _ Ht).
  apply (wp_mono _ _ _ _ (leftmost_spec F s t (S (size (nodes s))) k Ht Hne ltac:(lia))).
  intros x s' (-> & kk & c & r & -> & Hkk). split; [done|]. by rewrite (proj2 (leftmost_order kk _ Hkk)).
Qed.

Lemma rightmost_after kk : Forall is_right kk -> after kk = [].
Proof. induction 1 as [|[] ? ? ? IH]; [done|done|exact IH]. Qed.

Lemma rightmost_last F s k t : tree_at F s (zip k t) -> t <> Leaf ->
  wp (loop rightmost_body (root_of t)) (fun x s' => s' = s /\ last (inorder t) = Some x) s.
Proof.
  intros Ht Hne. pose proof (path_size _ _ _ _ Ht).
  apply (wp_mono _ _ _ _ (rightmost_spec F s t (S (size (nodes s))) k Ht Hne ltac:(lia))).
  intros x s' (-> & kk & c & l & -> & Hkk). split; [done|].
  rewrite inorder_zip, (rightmost_after _ Hkk). cbn. by rewrite app_nil_r, app_assoc, last_snoc.
Qed.

Lemma wp_exact {A : Type} (m : M A) x s : wp m (fun y s' => s' = s /\ y = x) s -> m s = Some (x, s).
Proof. by intros (y & s' & E & -> & ->). Qed.

Lemma next_spec F s k c l a r : tree_at F s (zip k (Node c l a r)) ->
  rb_next a s = Some (default 0 (head (inorder r ++ after k)), s).
Proof.
  intros Ht. apply wp_exact. unfold rb_next. nz (at_nz _ _ _ _ _ Ht).
  apply wp_bind, (wp_get_right _ _ _ _ _ Ht). destruct r as [|cr lr ar rr]; cbn [root_of].
  - pose proof (path_size _ _ _ _ Ht). apply (next_loop F s k (Node c l a Leaf) (S (size (nodes s))) Ht); [done|lia].
  - nz (at_nz (Rt c l a :: k) _ _ _ _ Ht).
    apply (wp_mono _ _ _ _ (leftmost_head F s (Rt c l a :: k) (Node cr lr ar rr) Ht ltac:(done))).
    intros x s' [-> Hx]. split; [done|]. destruct (inorder (Node cr lr ar rr)); [done|]. injection Hx as ->. done.
Qed.

Lemma prev_spec F s k c l a r : tree_at F s (zip k (Node c l a r)) ->
  rb_prev a s = Some (default 0 (last (before k ++ inorder l)), s).
Proof.
  intros Ht. apply wp_exact. unfold rb_prev. nz (at_nz _ _ _ _ _ Ht).
  apply wp_bind, (wp_get_left _ _ _ _ _ Ht). destruct l as [|cl ll al rl]; cbn [root_of].
  - rewrite app_nil_r. pose proof (path_size _ _ _ _ Ht).
    apply (prev_loop F s k (Node c Leaf a r) (S (size (nodes s))) Ht); [done|lia].
  - nz (at_nz (Lf c a r :: k) _ _ _ _ Ht).
    apply (wp_mono _ _ _ _ (rightmost_last F s (Lf c a r :: k) (Node cl ll al rl) Ht ltac:(done))).
    intros x s' [-> Hx]. split; [done|]. by rewrite last_app, Hx.
Qed.

Lemma split_unique (l1 l2 m1 m2 : list Z) a :
  NoDup (l1 ++ a :: l2) -> l1 ++ a :: l2 = m1 ++ a :: m2 -> l1 = m1 /\ l2 = m2.
Proof.
  intros Hn E. assert (Hlen : length l1 = length m1).
  { apply (NoDup_lookup _ _ _ a Hn); [by apply list_lookup_middle|rewrite E; by apply list_lookup_middle]. }
  destruct (app_inj_1 _ _ _ _ Hlen E) as [-> [=]]. done.
Qed.

(** The place of a node in the order determines where it is in the tree. *)
Lemma find_index t i a : NoDup (inorder t) -> inorder t !! i = Some a ->
  exists k c l r, t = zip k (Node c l a r) /\ i = length (before k ++ inorder l).
Proof.
  intros Hn Hi. destruct (find_node a t) as (k & c & l & r & ->); [by eapply list_elem_of_lookup_2|].
  exists k, c, l, r. split; [done|]. apply (NoDup_lookup _ _ _ a Hn Hi).
  rewrite inorder_zip. cbn [inorder]. rewrite <- app_assoc, app_assoc. cbn. by apply list_lookup_middle.
Qed.

(** ** Theorems *)

(** C7. Linking a new node at any place of a well-formed tree where a child is
    missing and rebalancing with [rb_insert_color] does not fault and ends; the
    tree is a red-black tree again, the new node stands in order exactly at the
    place it was linked to, and no node outside of the tree has changed. *)
Theorem rb_insert_correct F s k a
    (Hrb : rb_tree (zip k Leaf)) (Ht : tree_at F s (zip k Leaf)) (Ha : node_addr a) (Hnew : a ∉ inorder (zip k Leaf)) :
  exists s' t', (rb_link_node a (top k) (slot_of k) ;; rb_insert_color a) s = Some (tt, s') /\
    tree_at F s' t' /\ rb_tree t' /\ inorder t' = before k ++ a :: after k.
Proof.
  destruct (rb_insert_spec F s k a Hrb Ht Ha Hnew) as ([] & s' & E & t' & H). by exists s', t'.
Qed.

(** C4. [rb_erase] of any node of a well-formed tree does not fault and ends; the
    tree is a red-black tree again with all the other nodes in their order, and
    no node outside of the tree has changed. *)
Theorem rb_erase_correct F s t l1 a l2
    (Hrb : rb_tree t) (Ht : tree_at F s t) (Ha : inorder t = l1 ++ a :: l2) :
  exists s' t', rb_erase a s = Some (tt, s') /\
    tree_at (nodes s') s' t' /\ rb_tree t' /\ inorder t' = l1 ++ l2 /\
    forall x, x ∉ inorder t -> nodes s' !! x = nodes s !! x.
Proof.
  destruct (erase_spec F s t a Ht Hrb ltac:(rewrite Ha; set_solver)) as ([] & s' & E & t' & m1 & m2 & Ht' & Hrb' & Hin & Hin' & Hx).
  exists s', t'. split_and!; try done. rewrite Hin'. pose proof (ta_nodup _ _ _ Ht) as Hn.
  rewrite Ha in Hin. rewrite Ha in Hn. by destruct (split_unique _ _ _ _ _ Hn Hin) as [-> ->].
Qed.

(** The walk over a well-formed tree visits its nodes in order: [rb_first] and
    [rb_last] are the ends of the order (NULL in an empty tree), [rb_next] and
    [rb_prev] go to the neighbours of a node and give NULL at the ends.  None of
    them changes the tree. *)
Theorem rb_walk_correct F s t (Ht : tree_at F s t) :
  rb_first s = Some (default 0 (head (inorder t)), s) /\
  rb_last s = Some (default 0 (last (inorder t)), s) /\
  forall i a, inorder t !! i = Some a ->
    rb_next a s = Some (default 0 (inorder t !! S i), s) /\
    rb_prev a s = Some (match i with O => 0 | S j => default 0 (inorder t !! j) end, s).
Proof.
  split; [|split].
  - apply wp_exact. apply wp_bind. exists (rb_root s), s. split; [done|]. rewrite (ta_root _ _ _ Ht).
    destruct t as [|c l a r]; [by apply wp_ret|]. cbn [root_of]. nz (at_nz [] c l a r Ht).
    apply (wp_mono _ _ _ _ (leftmost_head F s [] (Node c l a r) Ht ltac:(done))). intros x s' [-> ->]. done.
  - apply wp_exact. apply wp_bind. exists (rb_root s), s. split; [done|]. rewrite (ta_root _ _ _ Ht).
    destruct t as [|c l a r]; [by apply wp_ret|]. cbn [root_of]. nz (at_nz [] c l a r Ht).
    apply (wp_mono _ _ _ _ (rightmost_last F s [] (Node c l a r) Ht ltac:(done))). intros x s' [-> ->]. done.
  - intros i a Hi. destruct (find_index t i a (ta_nodup _ _ _ Ht) Hi) as (k & c & l & r & -> & ->).
    rewrite (next_spec F s k c l a r Ht), (prev_spec F s k c l a r Ht), inorder_zip. cbn [inorder].
    rewrite <- app_assoc, (app_assoc (before k)). cbn. split.
    + do 2 f_equal. f_equal. by rewrite lookup_app_r, Nat.sub_succ_l, Nat.sub_diag, head_lookup by lia.
    + do 2 f_equal. rewrite last_lookup. destruct (length (before k ++ inorder l)) as [|j] eqn:E; cbn.
      * by rewrite (nil_length_inv _ E).
      * f_equal. by rewrite (lookup_app_l (before k ++ inorder l)) by lia.
Qed.

(** *** A tree of three nodes *)

Definition tree_3 : tree := Node Black (Node Red Leaf 16 Leaf) 32 (Node Red Leaf 48 Leaf).

Definition mem_3 : rb_mem :=
  mkMem {[16 := node_of 32 Red 0 0; 32 := node_of 0 Black 16 48; 48 := node_of 32 Red 0 0;
          80 := node_of 0 Black 0 0]} 32.

Lemma tree_3_rb : rb_tree tree_3.
Proof. exists 1%nat. unfold tree_3. eauto with obelisk. Qed.

Lemma mem_3_tree : tree_at (nodes mem_3) mem_3 tree_3.
Proof.
  split; [repeat split|done| | |done]; cbn.
  - by apply (bool_decide_unpack _).
  - repeat constructor.
Qed.

(** A fourth node below the third repaints the tree. *)
Lemma rb_insert_correct_witness :
  exists s' t', (rb_link_node 64 48 (RightOf 48) ;; rb_insert_color 64) mem_3 = Some (tt, s') /\
    tree_at (nodes mem_3) s' t' /\ rb_tree t' /\ inorder t' = [16; 32; 48; 64].
Proof.
  apply (rb_insert_correct (nodes mem_3) mem_3 [Rt Red Leaf 48; Rt Black (Node Red Leaf 16 Leaf) 32] 64
           tree_3_rb mem_3_tree).
  - by split.
  - by apply (bool_decide_unpack _).
Defined.

Lemma rb_erase_correct_witness :
  exists s' t', rb_erase 32 mem_3 = Some (tt, s') /\
    tree_at (nodes s') s' t' /\ rb_tree t' /\ inorder t' = [16; 48] /\
    forall x, x ∉ inorder tree_3 -> nodes s' !! x = nodes mem_3 !! x.
Proof. apply (rb_erase_correct _ mem_3 tree_3 [16] 32 [48] tree_3_rb mem_3_tree eq_refl). Defined.

Lemma rb_walk_correct_witness :
  rb_first mem_3 = Some (16, mem_3) /\ rb_next 32 mem_3 = Some (48, mem_3) /\ rb_next 48 mem_3 = Some (0, mem_3).
Proof.
  destruct (rb_walk_correct _ mem_3 tree_3 mem_3_tree) as (H1 & _ & H2). split; [exact H1|].
  split; [apply (H2 1%nat 32 eq_refl)|apply (H2 2%nat 48 eq_refl)].
Defined.
