(* ===== verification/RbSearch.v ===== *)
(** * Search trees on top of the red-black trees

    The caches of AxiomFS (fs/axiomfs/cache.c and fs/axiomfs/policy_ipc.c) order
    their entries by a key with the same two loops: one finds a node with a
    given key, the other finds the place a new node is linked to.  [key] reads
    the key of the entry a node is embedded in; reading it from memory that is
    no entry is a fault. *)

From stdpp Require Import sorting.
From S2P Require Import Prelude RbTree RbTreeHeap RbTreeProps.

Definition lift {A : Type} (o : option A) : M A := fun s => match o with Some x => Some (x, s) | None => None end.

Section Search.
Context (key : Z -> option Z).

(** [block_cache_get] and [block_cache_invalidate]: NULL when the key is absent. *)
Definition find_body (k node : Z) : M (Z + Z) :=
  if node =? 0 then mret (inr 0) else
  kn ← lift (key node);
  if k <? kn then l ← get_left node; mret (inl l)
  else if k >? kn then r ← get_right node; mret (inl r)
  else mret (inr node).

Definition rb_find (k : Z) : M Z := root ← get_root; loop (find_body k) root.

(** [while ( *new )] of [block_cache_put] and [policy_cache_insert]: the word to
    link to and the parent. *)
Definition descend_body (k : Z) (np : rb_slot * Z) : M (rb_slot * Z + rb_slot * Z) :=
  cur ← get_slot np.1;
  if cur =? 0 then mret (inr np) else
  kn ← lift (key cur);
  mret (inl (if k <? kn then LeftOf cur else RightOf cur, cur)).

Definition rb_descend (k : Z) : M (rb_slot * Z) := loop (descend_body k) (RootSlot, 0).

(** The loop, [rb_link_node] and [rb_insert_color]. *)
Definition rb_insert (k node : Z) : M unit :=
  np ← rb_descend k;
  rb_link_node node np.2 np.1 ;;
  rb_insert_color node.

(** ** Order *)

Definition key_le (a b : Z) : Prop := forall ka kb, key a = Some ka -> key b = Some kb -> ka <= kb.

Definition keyed (l : list Z) : Prop := Forall (fun a => is_Some (key a)) l.

Definition ordered (l : list Z) : Prop := keyed l /\ StronglySorted key_le l.

Lemma keyed_app l1 l2 : keyed (l1 ++ l2) <-> keyed l1 /\ keyed l2.
Proof. apply Forall_app. Qed.

Lemma keyed_in l a : keyed l -> a ∈ l -> is_Some (key a).
Proof. unfold keyed. rewrite Forall_forall. auto. Qed.

Lemma ordered_node l a r : ordered (l ++ a :: r) <->
  ordered l /\ ordered r /\ exists k, key a = Some k /\
    (forall x kx, x ∈ l -> key x = Some kx -> kx <= k) /\ (forall x kx, x ∈ r -> key x = Some kx -> k <= kx) /\
    (forall x y, x ∈ l -> y ∈ r -> key_le x y).
Proof.
  unfold ordered. rewrite keyed_app. unfold keyed at 2. rewrite Forall_cons, StronglySorted_app.
  split.
  - intros [(Hl & [k Hk] & Hr) (Hlr & Hsl & Hsr)]. inversion Hsr as [|? ? Hs' Ha]; subst.
    rewrite Forall_forall in Ha. split; [done|]. split; [done|]. exists k. split_and!; [done| | |].
    + intros x kx Hx Hkx. apply (Hlr x a); [done|set_solver|done|done].
    + intros x kx Hx Hkx. by apply (Ha x Hx).
    + intros x y Hx Hy. apply Hlr; set_solver.
  - intros ((Hl & Hsl) & (Hr & Hsr) & k & Hk & H1 & H2 & H3). split_and!; [done|by eexists|done| |done|].
    + intros x y Hx [->|Hy]%elem_of_cons; [|by apply H3]. intros kx ky Hkx Hky. rewrite Hk in Hky. injection Hky as <-. eauto.
    + constructor; [done|]. apply Forall_forall. intros y Hy kx ky Hkx Hky. rewrite Hk in Hkx. injection Hkx as <-. eauto.
Qed.

Lemma wp_lift {A : Type} (o : option A) x (Q : A -> rb_mem -> Prop) s : o = Some x -> Q x s -> wp (lift o) Q s.
Proof. intros -> H. by exists x, s. Qed.

Lemma find_loop F s k c t fuel : tree_at F s (zip c t) -> ordered (inorder t) -> (length (inorder t) < fuel)%nat ->
  wp (iter fuel (find_body k) (root_of t))
    (fun x s' => s' = s /\ (x = 0 /\ (forall a, a ∈ inorder t -> key a <> Some k) \/
                            x ∈ inorder t /\ key x = Some k)) s.
Proof.
  revert c fuel. induction t as [|col l IHl a r IHr]; intros c fuel Ht Ho Hf; (destruct fuel as [|fuel]; [lia|]); apply wp_iter.
  { apply wp_ret. split; [done|]. left. split; [done|]. intros a Ha%elem_of_nil. done. }
  cbn [root_of inorder] in *. rewrite length_app in Hf. cbn in Hf. unfold find_body. nz (at_nz _ _ _ _ _ Ht).
  apply ordered_node in Ho as (Hol & Hor & ka & Hka & Hl & Hr & _).
  apply wp_bind, (wp_lift _ _ _ _ Hka). destruct (k <? ka) eqn:E1; [|destruct (k >? ka) eqn:E2]; zbool.
  - apply wp_bind, (wp_get_left _ _ _ _ _ Ht), wp_ret.
    apply (wp_mono _ _ _ _ (IHl (Lf col a r :: c) fuel Ht Hol ltac:(lia))).
    intros x s' [-> [[-> Hx]|[Hx Hk]]]; (split; [done|]); [left; split; [done|]|right; set_solver].
    intros y [Hy|[->|Hy]%elem_of_cons]%elem_of_app Hky; [by apply (Hx y Hy)| |].
    + rewrite Hka in Hky. injection Hky as ->. lia.
    + specialize (Hr y k Hy Hky). lia.
  - apply wp_bind, (wp_get_right _ _ _ _ _ Ht), wp_ret.
    apply (wp_mono _ _ _ _ (IHr (Rt col l a :: c) fuel Ht Hor ltac:(lia))).
    intros x s' [-> [[-> Hx]|[Hx Hk]]]; (split; [done|]); [left; split; [done|]|right; set_solver].
    intros y [Hy|[->|Hy]%elem_of_cons]%elem_of_app Hky; [|rewrite Hka in Hky; injection Hky as ->; lia|by apply (Hx y Hy)].
    specialize (Hl y k Hy Hky). lia.
  - apply wp_ret. split; [done|]. right. split; [set_solver|]. rewrite Hka. f_equal. lia.
Qed.

(** The search finds a node with the key whenever there is one. *)
Lemma find_spec F s k t : tree_at F s t -> ordered (inorder t) ->
  exists x, rb_find k s = Some (x, s) /\
    (x = 0 /\ (forall a, a ∈ inorder t -> key a <> Some k) \/ x ∈ inorder t /\ key x = Some k).
Proof.
  intros Ht Ho. assert (H : wp (rb_find k) (fun x s' => s' = s /\ (x = 0 /\ (forall a, a ∈ inorder t -> key a <> Some k) \/
                            x ∈ inorder t /\ key x = Some k)) s).
  { apply wp_bind. exists (rb_root s), s. split; [done|]. rewrite (ta_root _ _ _ Ht).
    pose proof (path_size F s [] t Ht). cbn in H. apply (find_loop F s k [] t (S (size (nodes s))) Ht Ho). lia. }
  destruct H as (x & s' & E & -> & H). by exists x.
Qed.

(** The place for the key [k]: everything before it is at most [k], everything
    behind it above. *)
Definition place (k : Z) (c : ctx) : Prop :=
  (forall a ka, a ∈ before c -> key a = Some ka -> ka <= k) /\ (forall a ka, a ∈ after c -> key a = Some ka -> k < ka).

Lemma wp_get_slot F s c t (Q : Z -> rb_mem -> Prop) :
  tree_at F s (zip c t) -> Q (root_of t) s -> wp (get_slot (slot_of c)) Q s.
Proof.
  intros Ht HQ. destruct c as [|[col a r|col l a] c]; cbn [slot_of get_slot].
  - exists (rb_root s), s. split; [done|]. by rewrite (ta_root _ _ _ Ht).
  - by apply (wp_get_left c col t a r Ht).
  - by apply (wp_get_right c col l a t Ht).
Qed.

Lemma descend_loop F s k c t fuel : tree_at F s (zip c t) -> ordered (inorder t) -> place k c ->
  (length (inorder t) < fuel)%nat ->
  wp (iter fuel (descend_body k) (slot_of c, top c))
    (fun r s' => s' = s /\ exists c', zip c t = zip c' Leaf /\ r = (slot_of c', top c') /\ place k c') s.
Proof.
  revert c fuel. induction t as [|col l IHl a r IHr]; intros c fuel Ht Ho [Hp1 Hp2] Hf; (destruct fuel as [|fuel]; [lia|]); apply wp_iter.
  { apply wp_bind, (wp_get_slot F s c Leaf _ Ht), wp_ret. split; [done|]. by exists c. }
  cbn [inorder] in *. rewrite length_app in Hf. cbn in Hf.
  apply ordered_node in Ho as (Hol & Hor & ka & Hka & Hl & Hr & _).
  apply wp_bind, (wp_get_slot F s c _ _ Ht). cbn [root_of]. nz (at_nz _ _ _ _ _ Ht).
  apply wp_bind, (wp_lift _ _ _ _ Hka), wp_ret. destruct (k <? ka) eqn:E; zbool.
  - apply (IHl (Lf col a r :: c) fuel Ht Hol); [|lia]. split; cbn; [done|].
    intros y ky [->|[Hy|Hy]%elem_of_app]%elem_of_cons Hky; [congruence| |by apply (Hp2 y)].
    specialize (Hr y ky Hy Hky). lia.
  - apply (IHr (Rt col l a :: c) fuel Ht Hor); [|lia]. split; cbn; [|done].
    intros y ky [Hy|[Hy| ->%list_elem_of_singleton]%elem_of_app]%elem_of_app Hky; [by apply (Hp1 y)| |congruence].
    specialize (Hl y ky Hy Hky). lia.
Qed.

(** A new node goes behind all nodes with keys up to its own and the tree stays
    ordered and balanced. *)
Lemma keyed_insert_spec F s k a t : tree_at F s t -> rb_tree t -> ordered (inorder t) ->
  node_addr a -> a ∉ inorder t -> key a = Some k ->
  exists s' t' l1 l2, rb_insert k a s = Some (tt, s') /\ tree_at F s' t' /\ rb_tree t' /\
    inorder t = l1 ++ l2 /\ inorder t' = l1 ++ a :: l2 /\ ordered (inorder t').
Proof.
  intros Ht Hrb Ho Ha Hnew Hk.
  pose proof (path_size F s [] t Ht) as Hsize. cbn in Hsize.
  assert (Hd := descend_loop F s k [] t (S (size (nodes s))) Ht Ho).
  destruct Hd as (np & ? & E & -> & c & Ec & -> & Hp1 & Hp2); [by split; intros ? ? ?%elem_of_nil|lia|].
  cbn in Ec. subst t. destruct (rb_insert_spec F s c a Hrb Ht Ha Hnew) as ([] & s' & E' & t' & Ht' & Hrb' & Hin).
  exists s', t', (before c), (after c). split; [|split_and!; try done].
  - unfold rb_insert, rb_descend, loop. cbn [mbind M_bind]. unfold mbind, M_bind at 1. cbn [slot_of top] in E. by rewrite E.
  - by rewrite inorder_zip.
  - rewrite Hin. rewrite inorder_zip in Ho. cbn in Ho. destruct Ho as [Hkd Hs].
    apply keyed_app in Hkd as [Hkd1 Hkd2]. apply StronglySorted_app in Hs as (Hs12 & Hs1 & Hs2).
    apply ordered_node. split; [done|]. split; [done|]. exists k. split; [done|]. split_and!; [exact Hp1| |exact Hs12].
    intros x kx Hx Hkx. specialize (Hp2 x kx Hx Hkx). lia.
Qed.
End Search.
