(* ===== verification/LruTree.v ===== *)
(** * Entries in a red-black tree and on an LRU list

    The two caches of AxiomFS keep their entries the same way: every entry
    embeds a [struct rb_node], by which it hangs in a tree ordered by a key, and
    a [struct list_head], by which it is on a list with the most recently used
    entry first.  An entry is known by its address, its node lies [off] bytes
    further; [container_of] goes back.  The list is the list of the addresses of
    the entries on it. *)

From stdpp Require Import sorting.
From S2P Require Import Prelude RbTree RbTreeHeap RbTreeProps RbSearch.

Section LruTree.
Context {E : Type} (off : Z) (key : E -> Z).

Record index := mkIndex { tree_mem : rb_mem; lru : list Z; entries : gmap Z E }.

(** The key of the entry around a node: [container_of(node, ...)->key]. *)
Definition node_key (es : gmap Z E) (node : Z) : option Z := key <$> es !! (node - off).

(** [list_del], and [list_del] with [list_add] to the front. *)
Definition list_del (e : Z) (l : list Z) : list Z := filter (fun x : Z => x <> e) l.
Definition move_front (e : Z) (ix : index) : index :=
  mkIndex (tree_mem ix) (e :: list_del e (lru ix)) (entries ix).

Definition with_entries (es : gmap Z E) (ix : index) : index := mkIndex (tree_mem ix) (lru ix) es.

(** [rb_erase(&e->node); list_del(&e->lru); kfree(e)]: the memory of the entry,
    its node included, is gone. *)
Definition drop_entry (e : Z) (ix : index) : option index :=
  match rb_erase (e + off) (tree_mem ix) with
  | None => None
  | Some (_, tr) =>
    Some (mkIndex (mkMem (delete (e + off) (nodes tr)) (rb_root tr)) (list_del e (lru ix)) (delete e (entries ix)))
  end.

(** The entry [en] at [e] is linked into the tree and put in front of the list. *)
Definition add_entry (e : Z) (en : E) (ix : index) : option index :=
  let es := <[e := en]> (entries ix) in
  match rb_insert (node_key es) (key en) (e + off) (tree_mem ix) with
  | None => None
  | Some (_, tr) => Some (mkIndex tr (e :: lru ix) es)
  end.

(** ** The invariant *)

Record index_ok (ix : index) (t : tree) : Prop := {
  ix_tree : tree_at (nodes (tree_mem ix)) (tree_mem ix) t;
  ix_rb : rb_tree t;
  ix_order : ordered (node_key (entries ix)) (inorder t);
  ix_lru : inorder t ≡ₚ ((fun e => e + off) <$> lru ix);
  ix_entries : forall e, e ∈ lru ix <-> is_Some (entries ix !! e)
}.

Lemma ordered_ext (k1 k2 : Z -> option Z) l :
  (forall x, x ∈ l -> k1 x = k2 x) -> ordered k1 l -> ordered k2 l.
Proof.
  intros Hx [Hk Hs]. split.
  - unfold keyed in *. rewrite Forall_forall in *. intros x Hin. rewrite <- Hx by done. by apply Hk.
  - induction Hs as [|a l Hs IH Ha]; constructor.
    + apply IH; [intros x Hin; apply Hx; set_solver|]. unfold keyed in *. by apply Forall_cons in Hk as [_ ?].
    + rewrite Forall_forall in *. intros y Hy ka ky Hka Hky. apply (Ha y Hy); by rewrite Hx by set_solver.
Qed.

Lemma ordered_remove k l1 a l2 : ordered k (l1 ++ a :: l2) -> ordered k (l1 ++ l2).
Proof.
  unfold ordered. rewrite !keyed_app, !StronglySorted_app. unfold keyed at 2. rewrite Forall_cons.
  intros [(H1 & _ & H2) (H12 & Hs1 & Hs2)]. inversion Hs2; subst. split_and!; try done.
  intros x y Hx Hy. apply H12; set_solver.
Qed.

Lemma list_del_perm e l1 l2 l : NoDup l -> l ≡ₚ l1 ++ e :: l2 -> list_del e l ≡ₚ l1 ++ l2.
Proof.
  intros Hn Hp. unfold list_del. rewrite Hp in Hn |- *. rewrite filter_app, filter_cons_False by (intros H; by apply H).
  rewrite <- Permutation_middle in Hn. apply NoDup_cons in Hn as [Hne _]. apply not_elem_of_app in Hne as [H1 H2].
  rewrite !list_filter_all; [done|..]; intros x Hx ->; done.
Qed.

Lemma list_del_mid (e : Z) l1 l2 : NoDup (l1 ++ e :: l2) -> list_del e (l1 ++ e :: l2) = l1 ++ l2.
Proof.
  intros Hn. unfold list_del. rewrite filter_app, filter_cons_False by (intros H; by apply H).
  rewrite <- Permutation_middle in Hn. apply NoDup_cons in Hn as [Hne _]. apply not_elem_of_app in Hne as [H1 H2].
  rewrite !list_filter_all; [done|..]; intros x Hx ->; done.
Qed.

Section Ops.
Context (ix : index) (t : tree) (Hok : index_ok ix t).

Lemma ix_in a : a ∈ inorder t <-> (a - off) ∈ lru ix.
Proof using Hok.
  rewrite (ix_lru _ _ Hok), list_elem_of_fmap. split.
  - intros (e & -> & He). by replace (e + off - off) with e by lia.
  - intros He. exists (a - off). split; [lia|done].
Qed.

Lemma ix_nodup : NoDup (lru ix).
Proof using Hok.
  apply (NoDup_fmap_1 (fun e => e + off)). rewrite <- (ix_lru _ _ Hok). apply (ta_nodup _ _ _ (ix_tree _ _ Hok)).
Qed.

Lemma ix_addr e : e ∈ lru ix -> node_addr (e + off).
Proof using Hok.
  intros He. pose proof (ta_addr _ _ _ (ix_tree _ _ Hok)) as Ha. rewrite Forall_forall in Ha. apply Ha, ix_in.
  by replace (e + off - off) with e by lia.
Qed.

Lemma move_front_ok e : e ∈ lru ix -> index_ok (move_front e ix) t.
Proof using Hok.
  intros He. destruct Hok as [H1 H2 H3 H4 H5]. split; try done; cbn.
  - rewrite H4. apply elem_of_Permutation in He as [l' Hl].
    rewrite (list_del_perm e [] l' _ ix_nodup Hl). by rewrite Hl.
  - intros x. rewrite <- H5, elem_of_cons. unfold list_del. rewrite list_elem_of_filter.
    destruct (decide (x = e)) as [->|]; tauto.
Qed.

(** An entry may change in place as long as its key does not. *)
Lemma update_ok e en en' :
  entries ix !! e = Some en -> key en' = key en -> index_ok (with_entries (<[e := en']> (entries ix)) ix) t.
Proof using Hok.
  intros He Hk. destruct Hok as [H1 H2 H3 H4 H5]. split; try done; cbn.
  - apply (ordered_ext (node_key (entries ix))); [|done]. intros x _. unfold node_key.
    destruct (decide (x - off = e)) as [->|Hne]; [by rewrite lookup_insert_eq, He; cbn; rewrite Hk|by rewrite lookup_insert_ne].
  - intros x. rewrite H5. destruct (decide (x = e)) as [->|Hne]; [|by rewrite lookup_insert_ne].
    rewrite lookup_insert_eq, He. by split.
Qed.

Lemma drop_ok e : e ∈ lru ix ->
  exists ix' t', drop_entry e ix = Some ix' /\ index_ok ix' t' /\
    lru ix' = list_del e (lru ix) /\ entries ix' = delete e (entries ix).
Proof using Hok.
  intros He. assert (Hin : e + off ∈ inorder t) by (apply ix_in; by replace (e + off - off) with e by lia).
  destruct (erase_spec _ _ _ _ (ix_tree _ _ Hok) (ix_rb _ _ Hok) Hin) as ([] & tr & E' & t' & l1 & l2 & Ht & Hrb & E1 & E2 & Hx).
  unfold drop_entry. rewrite E'. eexists _, t'. split; [done|]. split; [|done].
  pose proof (ta_nodup _ _ _ (ix_tree _ _ Hok)) as Hn. rewrite E1, <- Permutation_middle in Hn.
  apply NoDup_cons in Hn as [Hout _]. split; cbn.
  - destruct Ht as [T1 T2 T3 T4 T5]. rewrite E2 in *. split; cbn; try done; try (by rewrite E2).
    apply (sub_ext (nodes tr)); [|done]. intros x Hxin. apply lookup_delete_ne. rewrite E2 in Hxin. by intros <-.
  - done.
  - rewrite E2. apply (ordered_ext (node_key (entries ix))).
    + intros x Hxin. unfold node_key. rewrite lookup_delete_ne; [done|]. intros ->.
      replace (x - off + off) with x in Hout by lia. done.
    + apply (ordered_remove _ _ (e + off)). rewrite <- E1. apply (ix_order _ _ Hok).
  - rewrite E2. pose proof (ix_lru _ _ Hok) as Hp. rewrite E1 in Hp.
    apply elem_of_Permutation in He as [l' Hl]. rewrite (list_del_perm e [] l' _ ix_nodup Hl). cbn.
    rewrite Hl in Hp. cbn in Hp. rewrite <- Permutation_middle in Hp. by apply Permutation.Permutation_cons_inv in Hp.
  - intros x. unfold list_del. rewrite list_elem_of_filter, (ix_entries _ _ Hok), lookup_delete_is_Some. naive_solver.
Qed.

Lemma add_ok e en : e ∉ lru ix -> node_addr (e + off) ->
  exists ix' t', add_entry e en ix = Some ix' /\ index_ok ix' t' /\
    lru ix' = e :: lru ix /\ entries ix' = <[e := en]> (entries ix).
Proof using Hok.
  intros He Ha. assert (Hout : e + off ∉ inorder t) by (rewrite ix_in; by replace (e + off - off) with e by lia).
  set (es := <[e := en]> (entries ix)).
  assert (Hkey : node_key es (e + off) = Some (key en)).
  { unfold node_key, es. replace (e + off - off) with e by lia. by rewrite lookup_insert_eq. }
  assert (Hord : ordered (node_key es) (inorder t)).
  { apply (ordered_ext (node_key (entries ix))); [|apply (ix_order _ _ Hok)]. intros x Hx. unfold node_key, es.
    rewrite lookup_insert_ne; [done|]. intros ->. apply Hout. by replace (x - off + off) with x by lia. }
  destruct (keyed_insert_spec _ _ _ _ _ _ (ix_tree _ _ Hok) (ix_rb _ _ Hok) Hord Ha Hout Hkey)
    as (tr & t' & l1 & l2 & E' & Ht & Hrb & E1 & E2 & Ho).
  unfold add_entry. fold es. rewrite E'. eexists _, t'. split; [done|]. split; [|done]. split; cbn; try done.
  - by apply (tree_at_self _ _ _ Ht).
  - rewrite E2, <- Permutation_middle. f_equiv. rewrite <- E1. apply (ix_lru _ _ Hok).
  - intros x. unfold es. rewrite elem_of_cons, (ix_entries _ _ Hok), lookup_insert_is_Some'. naive_solver.
Qed.

(** Looking up a key finds an entry with it if there is one. *)
Lemma find_ok k : exists n, rb_find (node_key (entries ix)) k (tree_mem ix) = Some (n, tree_mem ix) /\
  (n = 0 /\ (forall e en, e ∈ lru ix -> entries ix !! e = Some en -> key en <> k) \/
   n <> 0 /\ (n - off) ∈ lru ix /\ exists en, entries ix !! (n - off) = Some en /\ key en = k).
Proof using Hok.
  destruct (find_spec _ _ _ k t (ix_tree _ _ Hok) (ix_order _ _ Hok)) as (n & E' & Hn). exists n. split; [done|].
  destruct Hn as [[-> Hn]|[Hin Hk]]; [left|right].
  - split; [done|]. intros e en He Hen Hk. apply (Hn (e + off)).
    + apply ix_in. by replace (e + off - off) with e by lia.
    + unfold node_key. replace (e + off - off) with e by lia. by rewrite Hen, <- Hk.
  - apply ix_in in Hin. split; [|split; [done|]].
    + destruct (ix_addr _ Hin). lia.
    + unfold node_key in Hk. apply fmap_Some in Hk as (en & -> & ->). by exists en.
Qed.
End Ops.

(** The empty index. *)
Definition index_empty : index := mkIndex (mkMem ∅ 0) [] ∅.

Lemma index_empty_ok : index_ok index_empty Leaf.
Proof.
  split; cbn; try done.
  - split; cbn; try done; constructor.
  - exists 0%nat. constructor.
  - split; constructor.
  - intros e. rewrite lookup_empty. split; [by intros ?%elem_of_nil|by intros [? ?]].
Qed.
End LruTree.

#[global] Arguments index E : clear implicits.
