(* ===== verification/BlockCache.v ===== *)
(** * The block cache of AxiomFS: fs/axiomfs/cache.c

    A cache of disk blocks with a bounded number of entries, ordered by block
    number in a red-black tree and by use on a list.  The memory of the entries
    and of the blocks comes from the kernel heap, through the interface of
    ObjectHeap.  The time is an argument; [None] is a fault of the C (a pointer
    that leads nowhere). *)

From S2P Require Import Prelude Errno RbTree RbTreeHeap RbTreeProps RbSearch LruTree ObjectHeap.

Record block_cache_entry := mkEntry { block_num : Z; data : Z; dirty : bool; last_access : Z }.

(** Where [node] lies in the structure, its size, and that of [struct block_cache]. *)
Definition entry_node : Z := 48.
Definition sizeof_entry : Z := 72.
Definition sizeof_cache : Z := 72.

Section BlockCache.
Context {H : Type} `{ObjectHeap H}.

(** [struct block_cache] at [self], the blocks of its entries, and the heap. *)
Record block_cache := mkCache {
  self : Z;
  ix : index block_cache_entry;
  count : Z;
  max_entries : Z;
  block_size : Z;
  hits : Z;
  misses : Z;
  blocks : gmap Z (list Z);
  kheap : H
}.

Definition with_ix (x : index block_cache_entry) (c : block_cache) : block_cache :=
  mkCache (self c) x (count c) (max_entries c) (block_size c) (hits c) (misses c) (blocks c) (kheap c).
Definition with_hits (h m : Z) (c : block_cache) : block_cache :=
  mkCache (self c) (ix c) (count c) (max_entries c) (block_size c) h m (blocks c) (kheap c).
Definition with_heap (h : H) (c : block_cache) : block_cache :=
  mkCache (self c) (ix c) (count c) (max_entries c) (block_size c) (hits c) (misses c) (blocks c) h.

(** ** Operations *)

(** NULL, or the new cache. *)
Definition block_cache_create (max block : Z) (h : H) : option block_cache * H :=
  let '(p, h) := oh_zalloc sizeof_cache h in
  if p =? 0 then (None, h) else (Some (mkCache p index_empty 0 max block 0 0 ∅ h), h).

Definition free_entry (es : gmap Z block_cache_entry) (o : option H) (e : Z) : option H :=
  match o, es !! e with
  | Some h, Some en => Some (oh_free e (oh_free (data en) h))
  | _, _ => None
  end.

(** The loop frees the entries in the order of the list. *)
Definition block_cache_destroy (c : block_cache) : option H :=
  match fold_left (free_entry (entries (ix c))) (lru (ix c)) (Some (kheap c)) with
  | Some h => Some (oh_free (self c) h)
  | None => None
  end.

Definition set_access (now : Z) (en : block_cache_entry) : block_cache_entry :=
  mkEntry (block_num en) (data en) (dirty en) now.

(** The address of the block, or 0. *)
Definition block_cache_get (now b : Z) (c : block_cache) : option (Z * block_cache) :=
  match rb_find (node_key entry_node block_num (entries (ix c))) b (tree_mem (ix c)) with
  | None => None
  | Some (node, _) =>
    if node =? 0 then Some (0, with_hits (hits c) (u64 (misses c + 1)) c) else
    let e := node - entry_node in
    match entries (ix c) !! e with
    | None => None
    | Some en =>
      let x := with_entries (<[e := set_access now en]> (entries (ix c))) (ix c) in
      Some (data en, with_hits (u64 (hits c + 1)) (misses c) (with_ix (move_front e x) c))
    end
  end.

(** [rb_erase(&e->node, ...); list_del(&e->list); kfree(e->data); kfree(e);
    cache->count--]. *)
Definition cache_drop (e : Z) (c : block_cache) : option block_cache :=
  match entries (ix c) !! e with
  | None => None
  | Some en =>
    match drop_entry entry_node e (ix c) with
    | None => None
    | Some x =>
      Some (mkCache (self c) x (u64 (count c - 1)) (max_entries c) (block_size c) (hits c) (misses c)
              (delete (data en) (blocks c)) (oh_free e (oh_free (data en) (kheap c))))
    end
  end.

(** [while (cache->count >= cache->max_entries)]: the last entry of an empty
    list is a fault. *)
Fixpoint evict (fuel : nat) (c : block_cache) : option block_cache :=
  match fuel with
  | O => None
  | S fuel =>
    if count c >=? max_entries c then
      match last (lru (ix c)) with
      | None => None
      | Some oldest => match cache_drop oldest c with Some c => evict fuel c | None => None end
      end
    else Some c
  end.

(** [src] are the bytes behind the pointer that [memcpy] reads. *)
Definition block_cache_put (now b : Z) (src : list Z) (d : bool) (c : block_cache) : option (Z * block_cache) :=
  match evict (S (length (lru (ix c)))) c with
  | None => None
  | Some c =>
    let '(e, h) := oh_zalloc sizeof_entry (kheap c) in
    if e =? 0 then Some (- ENOMEM, with_heap h c) else
    let '(p, h) := oh_alloc (block_size c) h in
    if p =? 0 then Some (- ENOMEM, with_heap (oh_free e h) c) else
    let en := mkEntry b p d now in
    match add_entry entry_node block_num e en (ix c) with
    | None => None
    | Some x =>
      Some (0, mkCache (self c) x (u64 (count c + 1)) (max_entries c) (block_size c) (hits c) (misses c)
                 (<[p := take (Z.to_nat (block_size c)) src]> (blocks c)) h)
    end
  end.

Definition block_cache_invalidate (b : Z) (c : block_cache) : option block_cache :=
  match rb_find (node_key entry_node block_num (entries (ix c))) b (tree_mem (ix c)) with
  | None => None
  | Some (node, _) => if node =? 0 then Some c else cache_drop (node - entry_node) c
  end.

Definition clean (en : block_cache_entry) : block_cache_entry :=
  mkEntry (block_num en) (data en) false (last_access en).

Definition sync_entry (x : index block_cache_entry) (e : Z) : index block_cache_entry :=
  match entries x !! e with
  | Some en => if dirty en then with_entries (<[e := clean en]> (entries x)) x else x
  | None => x
  end.

(** Dirty entries are marked clean; nothing is written. *)
Definition block_cache_sync (c : block_cache) : block_cache :=
  with_ix (fold_left sync_entry (lru (ix c)) (ix c)) c.

(** ** What the cache holds *)

(** An entry as the number, the bytes and the dirty mark of its block, most
    recently used first. *)
Definition entry_view (c : block_cache) (e : Z) : Z * list Z * bool :=
  match entries (ix c) !! e with
  | Some en => (block_num en, default [] (blocks c !! data en), dirty en)
  | None => (0, [], false)
  end.

Definition cached (c : block_cache) : list (Z * list Z * bool) := entry_view c <$> lru (ix c).

Definition data_of (c : block_cache) (e : Z) : Z := match entries (ix c) !! e with Some en => data en | None => 0 end.

(** All memory the cache owns. *)
Definition owned (c : block_cache) : list Z := self c :: lru (ix c) ++ (data_of c <$> lru (ix c)).

(** [L] is what others hold of the heap. *)
Record bcache_ok (L : gset Z) (c : block_cache) : Prop := {
  bc_index : exists t, index_ok entry_node block_num (ix c) t;
  bc_data : forall e en, entries (ix c) !! e = Some en ->
    0 < data en /\ exists bs, blocks c !! data en = Some bs /\ Z.of_nat (length bs) = block_size c;
  bc_heap : oh_ok (kheap c) (L ∪ list_to_set (owned c));
  bc_owned : NoDup (owned c);
  bc_others : forall p, p ∈ owned c -> p ∉ L;
  bc_count : count c = Z.of_nat (length (lru (ix c)));
  bc_max : 0 < max_entries c < 2 ^ 64 /\ count c <= max_entries c;
  bc_block : 0 < block_size c <= 8192
}.
End BlockCache.

#[global] Arguments block_cache H : clear implicits.

(** ** Block numbers

    [s_free_blocks] of the superblock and the counter [next_free_block]. *)

Record block_numbers := mkNumbers { s_free_blocks : Z; next_free_block : Z }.

Definition axiomfs_alloc_block (n : block_numbers) : Z * block_numbers :=
  if s_free_blocks n =? 0 then (0, n)
  else (next_free_block n, mkNumbers (u64 (s_free_blocks n - 1)) (u64 (next_free_block n + 1))).

(** The number of the freed block is not recorded. *)
Definition axiomfs_free_block (block : Z) (n : block_numbers) : block_numbers :=
  mkNumbers (u64 (s_free_blocks n + 1)) (next_free_block n).

Definition axiomfs_read_block (block : Z) : Z := 0.
Definition axiomfs_write_block (block : Z) : Z := 0.

(** The blocks that a sequence of allocations ([None]) and releases hands out. *)
Fixpoint blocks_given (ops : list (option Z)) (n : block_numbers) : list Z :=
  match ops with
  | [] => []
  | None :: ops => let '(b, n) := axiomfs_alloc_block n in if b =? 0 then blocks_given ops n else b :: blocks_given ops n
  | Some b :: ops => blocks_given ops (axiomfs_free_block b n)
  end.

(** A block is never given out twice, even after it was released. *)
Lemma blocks_given_fresh ops n : 0 < next_free_block n -> next_free_block n + Z.of_nat (length ops) < 2 ^ 64 ->
  NoDup (blocks_given ops n) /\ Forall (fun b => next_free_block n <= b) (blocks_given ops n).
Proof.
  revert n. induction ops as [|[b|] ops IH]; intros n Hn Hw; cbn [blocks_given length] in *.
  - split; constructor.
  - apply (IH (axiomfs_free_block b n)); cbn; lia.
  - unfold axiomfs_alloc_block. destruct (s_free_blocks n =? 0); [apply (IH n); lia|].
    rewrite (proj2 (Z.eqb_neq _ 0)) by lia.
    assert (E : u64 (next_free_block n + 1) = next_free_block n + 1) by (unfold u64; apply Z.mod_small; lia).
    rewrite E. destruct (IH (mkNumbers (u64 (s_free_blocks n - 1)) (next_free_block n + 1)) ltac:(cbn; lia) ltac:(cbn; lia)) as [Hd Hf].
    split.
    + apply NoDup_cons. split; [|done]. intros Hin. rewrite Forall_forall in Hf. specialize (Hf _ Hin). cbn in Hf. lia.
    + constructor; [lia|]. eapply Forall_impl; [exact Hf|]. cbn. intros x Hx. lia.
Qed.
