(* ===== verification/BlockCacheProps.v ===== *)
(** * The block cache is a bounded LRU store

    Every operation of BlockCache against the list of cached blocks: what it
    returns, how the list changes, and that the tree, the list, the counters and
    the memory of the cache stay consistent. *)

From S2P Require Import Prelude Errno RbTree RbTreeHeap RbTreeProps RbSearch LruTree ObjectHeap BlockCache.

Section Lists.
Context {A : Type}.

Lemma fmap_ext_in {B : Type} (f g : A -> B) (l : list A) : (forall x, x ∈ l -> f x = g x) -> f <$> l = g <$> l.
Proof. intros Hx. apply list_fmap_ext. intros i x Hi. apply Hx. by eapply list_elem_of_lookup_2. Qed.

Lemma last_split (l : list A) x : last l = Some x -> exists l', l = l' ++ [x].
Proof. intros Hl. by apply last_Some in Hl. Qed.
End Lists.

Section Props.
Context {H : Type} `{ObjectHeap H}.
Implicit Types (c : block_cache H) (L : gset Z).

Lemma lru_nodup L c : bcache_ok L c -> NoDup (lru (ix c)).
Proof. intros Hok. destruct (bc_index _ _ Hok) as [t Ht]. by apply (ix_nodup _ _ _ _ Ht). Qed.

Lemma entry_some L c e : bcache_ok L c -> e ∈ lru (ix c) -> is_Some (entries (ix c) !! e).
Proof. intros Hok He. destruct (bc_index _ _ Hok) as [t Ht]. by apply (ix_entries _ _ _ _ Ht). Qed.

(** What does not concern the entries of the cache. *)
Definition same_frame c c' : Prop :=
  self c' = self c /\ max_entries c' = max_entries c /\ block_size c' = block_size c.

Lemma drop_spec L c e l1 l2 : bcache_ok L c -> lru (ix c) = l1 ++ e :: l2 ->
  exists c', cache_drop e c = Some c' /\ bcache_ok L c' /\ lru (ix c') = l1 ++ l2 /\
    cached c' = entry_view c <$> l1 ++ l2 /\ same_frame c c' /\ hits c' = hits c /\ misses c' = misses c.
Proof.
  intros Hok El. pose proof (lru_nodup _ _ Hok) as Hnd. rewrite El in Hnd.
  assert (He : e ∈ lru (ix c)) by (rewrite El; set_solver).
  destruct (entry_some _ _ _ Hok He) as [en Hen].
  destruct Hok as [[t Ht] Hdata Hheap Hown Hoth Hcnt Hmax Hblk].
  destruct (drop_ok _ _ _ _ Ht e He) as (x & t' & Ed & Hx & Elru & Eent).
  unfold cache_drop. rewrite Hen, Ed. rewrite El, (list_del_mid _ _ _ Hnd) in Elru.
  assert (Hsame : forall y, y ∈ l1 ++ l2 -> entries x !! y = entries (ix c) !! y).
  { intros y Hy. rewrite Eent. apply lookup_delete_ne. intros <-. rewrite <- Permutation_middle in Hnd.
    by apply NoDup_cons in Hnd as [? _]. }
  set (c' := mkCache _ _ _ _ _ _ _ _ _).
  assert (Hdo : forall y, y ∈ l1 ++ l2 -> data_of c' y = data_of c y).
  { intros y Hy. unfold data_of. cbn. by rewrite Hsame. }
  assert (Hperm : owned c ≡ₚ e :: data en :: owned c').
  { unfold owned. cbn. rewrite Elru, El. rewrite (fmap_ext_in (data_of c') (data_of c) _ Hdo).
    assert (Ede : data_of c e = data en) by (unfold data_of; by rewrite Hen).
    rewrite !fmap_app. cbn. rewrite Ede. solve_Permutation. }
  rewrite Hperm in Hown. pose proof (held_perm _ L _ _ Hperm Hheap) as Hh.
  apply NoDup_cons in Hown as [He1 [Hd1 Hown']%NoDup_cons]. 
  assert (HeL : e ∉ L) by (apply Hoth; rewrite Hperm; set_solver).
  assert (HdL : data en ∉ L) by (apply Hoth; rewrite Hperm; set_solver).
  exists c'. split; [done|]. split; [|split; [done|]; split; [|done]].
  - assert (Hlen : length (lru (ix c)) = S (length (lru x))) by (rewrite El, Elru, !length_app; cbn; lia).
    split; [..|done].
    + by exists t'.
    + cbn. intros y eny Hy. rewrite Eent in Hy. apply lookup_delete_Some in Hy as [Hye Hy].
      destruct (Hdata y eny Hy) as (Hpos & bs & Hbs & Hbl). split; [done|]. exists bs. split; [|done]. rewrite lookup_delete_ne; [done|].
      intros Ed'. apply Hd1. unfold owned. cbn. rewrite Elru. 
      assert (Hyin : y ∈ lru (ix c)) by (apply (ix_entries _ _ _ _ Ht); by eexists).
      assert (Hyin' : y ∈ l1 ++ l2) by (rewrite El in Hyin; set_solver).
      rewrite elem_of_cons, elem_of_app. right. right. apply list_elem_of_fmap. exists y. split; [|done].
      rewrite (Hdo y Hyin'). unfold data_of. by rewrite Hy.
    + change (kheap c') with (oh_free e (oh_free (data en) (kheap c))).
      apply held_free; [|done|set_solver]. apply held_free; [|done|set_solver].
      by apply (held_perm _ _ (e :: data en :: owned c')); [apply perm_swap|].
    + done.
    + intros p Hp. apply Hoth. rewrite Hperm. set_solver.
    + cbn. rewrite Hcnt, Hlen. unfold u64. rewrite Z.mod_small; lia.
    + cbn. rewrite Hcnt, Hlen. unfold u64. rewrite Z.mod_small; lia.
  - unfold cached. cbn. rewrite Elru. apply fmap_ext_in. intros y Hy. unfold entry_view. cbn. rewrite Hsame by done.
    destruct (entries (ix c) !! y) as [eny|] eqn:Hye; [|done]. rewrite lookup_delete_ne; [done|].
    intros Ed'. apply Hd1. unfold owned. cbn. rewrite Elru, elem_of_cons, elem_of_app. right. right.
    apply list_elem_of_fmap. exists y. split; [|done]. rewrite (Hdo y Hy). unfold data_of. by rewrite Hye.
Qed.

(** Reordering the list and changing what does not place an entry. *)
Lemma reindex_ok L c x t h m : bcache_ok L c -> index_ok entry_node block_num x t -> lru x ≡ₚ lru (ix c) ->
  (forall y, data <$> entries x !! y = data <$> entries (ix c) !! y) ->
  bcache_ok L (with_hits h m (with_ix x c)).
Proof.
  intros [Hix Hdata Hheap Hown Hoth Hcnt Hmax Hblk] Ht Hp Hd. set (c' := with_hits h m (with_ix x c)).
  assert (Hdo : forall y, data_of c' y = data_of c y).
  { intros y. unfold data_of. cbn. specialize (Hd y). destruct (entries x !! y), (entries (ix c) !! y); naive_solver. }
  assert (Hperm : owned c' ≡ₚ owned c).
  { unfold owned. cbn. f_equiv. rewrite Hp. f_equiv. apply reflexive_eq, fmap_ext_in. intros y _. apply Hdo. }
  split; [by exists t|..].
  - cbn. intros y en Hy. specialize (Hd y). rewrite Hy in Hd. cbn in Hd.
    destruct (entries (ix c) !! y) as [en'|] eqn:Hy'; [|done]. cbn in Hd. injection Hd as ->. by apply (Hdata y).
  - apply (held_perm _ _ (owned c)); [by symmetry|done].
  - by rewrite Hperm.
  - intros p. rewrite Hperm. apply Hoth.
  - cbn. by rewrite Hp.
  - done.
  - done.
Qed.

Lemma get_spec L c now b : bcache_ok L c ->
  exists a c', block_cache_get now b c = Some (a, c') /\ bcache_ok L c' /\ same_frame c c' /\
    (a = 0 /\ (forall v, v ∈ cached c -> v.1.1 <> b) /\ cached c' = cached c /\
       hits c' = hits c /\ misses c' = u64 (misses c + 1) \/
     a <> 0 /\ (exists l1 v l2, cached c = l1 ++ v :: l2 /\ v.1.1 = b /\ cached c' = v :: l1 ++ l2 /\
       blocks c' !! a = Some v.1.2) /\ hits c' = u64 (hits c + 1) /\ misses c' = misses c).
Proof.
  intros Hok. pose proof Hok as [[t Ht] Hdata _ _ _ _ _ _]. unfold block_cache_get.
  destruct (find_ok _ _ _ _ Ht b) as (n & -> & [[-> Hn]|(Hn0 & Hin & en & Hen & Hb)]).
  - exists 0, (with_hits (hits c) (u64 (misses c + 1)) c). split; [done|].
    split; [by destruct Hok; split|]. split; [done|]. left. split; [done|]. split; [|done].
    intros v (e & -> & He)%list_elem_of_fmap. unfold entry_view. destruct (entry_some _ _ _ Hok He) as [en Hen].
    rewrite Hen. cbn. by apply (Hn e en).
  - rewrite (proj2 (Z.eqb_neq n 0) Hn0). set (e := n - entry_node) in *. rewrite Hen.
    destruct (Hdata e en Hen) as (Hpos & bs & Hbs & Hlen).
    destruct (list_elem_of_split _ _ Hin) as (l1 & l2 & El). pose proof (lru_nodup _ _ Hok) as Hnd. rewrite El in Hnd.
    set (x := with_entries _ _). pose proof (update_ok _ _ _ _ Ht e en (set_access now en) Hen eq_refl) as Hx.
    pose proof (move_front_ok _ _ _ _ Hx e Hin) as Hx'. eexists _, _. split; [done|].
    assert (Hview : forall y, entry_view (with_hits (u64 (hits c + 1)) (misses c) (with_ix (move_front e x) c)) y = entry_view c y).
    { intros y. unfold entry_view. cbn. destruct (decide (y = e)) as [->|]; [by rewrite lookup_insert_eq, Hen|by rewrite lookup_insert_ne]. }
    split; [|split; [done|right; split; [lia|]; split; [|done]]].
    + apply (reindex_ok L c _ t); [done|done| |].
      * change (e :: list_del e (lru (ix c)) ≡ₚ lru (ix c)). rewrite El, (list_del_mid _ _ _ Hnd). by rewrite <- Permutation_middle.
      * intros y. cbn. destruct (decide (y = e)) as [->|]; [by rewrite lookup_insert_eq, Hen|by rewrite lookup_insert_ne].
    + exists (entry_view c <$> l1), (entry_view c e), (entry_view c <$> l2).
      split; [unfold cached; rewrite El, fmap_app; done|]. split; [unfold entry_view; by rewrite Hen|].
      split; [|unfold entry_view; rewrite Hen; cbn; by rewrite Hbs].
      unfold cached at 1. change (lru (ix _)) with (e :: list_del e (lru (ix c))) at 1. rewrite El, (list_del_mid _ _ _ Hnd).
      rewrite <- fmap_app, (fmap_ext_in _ (entry_view c)); [done|]. intros y _. apply Hview.
Qed.

Lemma invalidate_spec L c b : bcache_ok L c ->
  exists c', block_cache_invalidate b c = Some c' /\ bcache_ok L c' /\ same_frame c c' /\
    ((forall v, v ∈ cached c -> v.1.1 <> b) /\ c' = c \/
     exists l1 v l2, cached c = l1 ++ v :: l2 /\ v.1.1 = b /\ cached c' = l1 ++ l2).
Proof.
  intros Hok. pose proof Hok as [[t Ht] _ _ _ _ _ _ _]. unfold block_cache_invalidate.
  destruct (find_ok _ _ _ _ Ht b) as (n & -> & [[-> Hn]|(Hn0 & Hin & en & Hen & Hb)]).
  - exists c. split; [done|]. split; [done|]. split; [done|]. left. split; [|done].
    intros v (e & -> & He)%list_elem_of_fmap. unfold entry_view. destruct (entry_some _ _ _ Hok He) as [en Hen].
    rewrite Hen. cbn. by apply (Hn e en).
  - rewrite (proj2 (Z.eqb_neq n 0) Hn0). destruct (list_elem_of_split _ _ Hin) as (l1 & l2 & El).
    destruct (drop_spec _ _ _ _ _ Hok El) as (c' & -> & Hok' & _ & Ec & Hfr & _). exists c'.
    split; [done|]. split; [done|]. split; [done|]. right.
    exists (entry_view c <$> l1), (entry_view c (n - entry_node)), (entry_view c <$> l2).
    split; [unfold cached; by rewrite El, fmap_app|]. split; [unfold entry_view; by rewrite Hen|]. by rewrite Ec, fmap_app.
Qed.

Lemma evict_spec L c fuel : bcache_ok L c -> (length (lru (ix c)) < fuel)%nat ->
  exists c', evict fuel c = Some c' /\ bcache_ok L c' /\ same_frame c c' /\ count c' < max_entries c' /\
    cached c' = take (Z.to_nat (max_entries c - 1)) (cached c) /\ hits c' = hits c /\ misses c' = misses c.
Proof.
  intros Hok Hf. pose proof Hok as [_ _ _ _ _ Hcnt Hmax _]. destruct fuel as [|fuel]; [lia|]. cbn [evict].
  assert (Hlen : length (cached c) = length (lru (ix c))) by apply length_fmap.
  rewrite Z.geb_leb. destruct (Z.leb_spec (max_entries c) (count c)) as [Hfull|Hfree].
  2: { exists c. split; [done|]. split; [done|]. split; [done|]. split; [lia|]. split; [|done].
       symmetry. apply take_ge. lia. }
  destruct (last (lru (ix c))) as [e|] eqn:El.
  2: { apply last_None in El. rewrite El in Hcnt. cbn in Hcnt. lia. }
  apply last_split in El as [l' El]. destruct (drop_spec L c e l' [] Hok El) as (c' & -> & Hok' & El' & Ec & (Hs & Hm & Hb) & Hh).
  rewrite app_nil_r in *. pose proof (bc_count _ _ Hok') as Hcnt'. rewrite El' in Hcnt'.
  rewrite El, length_app in Hcnt, Hf. cbn in Hcnt, Hf. destruct fuel as [|fuel]; [lia|]. cbn [evict]. rewrite Hm, Z.geb_leb.
  destruct (Z.leb_spec (max_entries c) (count c')) as [?|?]; [lia|].
  exists c'. split; [done|]. split; [done|]. split; [done|]. split; [lia|]. split; [|done].
  rewrite Ec. unfold cached. rewrite El, fmap_app, take_app_le by (rewrite length_fmap; lia).
  symmetry. apply take_ge. rewrite length_fmap. lia.
Qed.

Lemma set_heap_ok L c h : bcache_ok L c -> oh_ok h (L ∪ list_to_set (owned c)) -> bcache_ok L (with_heap h c).
Proof. intros [? ? ? ? ? ? ? ?] Hh. by split. Qed.

Lemma node_aligned e : 0 < e -> e mod 8 = 0 -> node_addr (e + entry_node).
Proof.
  intros He Hm. unfold entry_node. split; [lia|]. change 3 with (Z.ones 2). rewrite Z.land_ones by done. change (2 ^ 2) with 4.
  apply Z.mod_divide in Hm as [q ->]; [|done]. apply Z.mod_divide; [done|]. exists (2 * q + 12). lia.
Qed.

(** A new entry at [e] with its block at [p], both fresh. *)
Lemma install_spec L c e p h b src d now :
  bcache_ok L c -> count c < max_entries c -> block_size c <= Z.of_nat (length src) ->
  0 < e -> e mod 8 = 0 -> 0 < p -> (e ∉ L) -> (e ∉ owned c) -> (p ∉ L) -> p <> e -> (p ∉ owned c) ->
  oh_ok h (L ∪ list_to_set (p :: e :: owned c)) ->
  exists x, add_entry entry_node block_num e (mkEntry b p d now) (ix c) = Some x /\
    let c' := mkCache (self c) x (u64 (count c + 1)) (max_entries c) (block_size c) (hits c) (misses c)
                (<[p := take (Z.to_nat (block_size c)) src]> (blocks c)) h in
    bcache_ok L c' /\ cached c' = (b, take (Z.to_nat (block_size c)) src, d) :: cached c.
Proof.
  intros Hok Hlt Hsrc He0 Hem Hp0 HeL Heo HpL Hpe Hpo Hh. pose proof Hok as [[t Ht] Hdata _ Hown Hoth Hcnt Hmax Hblk].
  assert (Heo' : e ∉ lru (ix c)) by (intros Hin; apply Heo; unfold owned; set_solver).
  destruct (add_ok _ _ _ _ Ht e (mkEntry b p d now) Heo' (node_aligned e He0 Hem)) as (x & t' & -> & Hx & Elru & Eent).
  exists x. split; [done|]. intros c'.
  assert (Hsame : forall y, y ∈ lru (ix c) -> entries x !! y = entries (ix c) !! y).
  { intros y Hy. rewrite Eent. apply lookup_insert_ne. by intros ->. }
  assert (Hperm : owned c' ≡ₚ p :: e :: owned c).
  { unfold owned. cbn. rewrite Elru. cbn. rewrite (fmap_ext_in (data_of c') (data_of c)).
    - assert (Ede : data_of c' e = p) by (unfold data_of; cbn; by rewrite Eent, lookup_insert_eq). rewrite Ede. solve_Permutation.
    - intros y Hy. unfold data_of. cbn. by rewrite Hsame. }
  assert (Hdp : forall y en, y ∈ lru (ix c) -> entries (ix c) !! y = Some en -> data en <> p).
  { intros y en Hy Hyen Edp. apply Hpo. unfold owned. rewrite elem_of_cons, elem_of_app. right. right.
    apply list_elem_of_fmap. exists y. split; [|done]. unfold data_of. by rewrite Hyen. }
  split.
  - split; [by exists t'|..].
    + cbn. intros y en. rewrite Eent. intros [[<- <-]|[Hne Hy]]%lookup_insert_Some.
      * split; [done|]. eexists. cbn. rewrite lookup_insert_eq. split; [done|]. rewrite length_take. lia.
      * assert (Hyin : y ∈ lru (ix c)) by (apply (ix_entries _ _ _ _ Ht); by eexists).
        rewrite lookup_insert_ne by (by apply not_eq_sym, (Hdp y)). by apply (Hdata y).
    + apply (held_perm _ _ (p :: e :: owned c)); [by symmetry|done].
    + rewrite Hperm. apply NoDup_cons. split; [set_solver|]. by apply NoDup_cons.
    + intros q. rewrite Hperm. rewrite !elem_of_cons. intros [->|[->|Hq]]; [done|done|by apply Hoth].
    + cbn. rewrite Elru, Hcnt. cbn. unfold u64. rewrite Z.mod_small; lia.
    + cbn. unfold u64. rewrite Z.mod_small; lia.
    + done.
  - unfold cached. cbn. rewrite Elru. cbn. f_equal.
    + unfold entry_view. cbn. rewrite Eent, lookup_insert_eq. cbn. by rewrite lookup_insert_eq.
    + apply fmap_ext_in. intros y Hy. unfold entry_view. cbn. rewrite Hsame by done.
      destruct (entries (ix c) !! y) as [en|] eqn:Hyen; [|done]. by rewrite lookup_insert_ne by (by apply not_eq_sym, (Hdp y)).
Qed.

Lemma put_spec L c now b src d : bcache_ok L c -> block_size c <= Z.of_nat (length src) ->
  let kept := take (Z.to_nat (max_entries c - 1)) (cached c) in
  exists r c', block_cache_put now b src d c = Some (r, c') /\ bcache_ok L c' /\ same_frame c c' /\
    hits c' = hits c /\ misses c' = misses c /\
    (r = - ENOMEM /\ cached c' = kept \/
     r = 0 /\ cached c' = (b, take (Z.to_nat (block_size c)) src, d) :: kept).
Proof.
  intros Hok Hsrc kept. unfold block_cache_put.
  destruct (evict_spec L c (S (length (lru (ix c)))) Hok ltac:(lia)) as (c1 & -> & Hok1 & (Hs1 & Hm1 & Hb1) & Hlt & Ec1 & Hh1 & Hms1).
  fold kept in Ec1. pose proof (bc_heap _ _ Hok1) as Hheap. pose proof (bc_block _ _ Hok1) as Hblk.
  pose proof (oh_zalloc_spec _ _ sizeof_entry Hheap ltac:(done)) as Hz. destruct (oh_zalloc sizeof_entry (kheap c1)) as [e h1].
  destruct Hz as [[-> Hz]|(He0 & Hem & Hen & Hz)].
  { eexists _, _. split; [done|]. split; [by apply set_heap_ok|]. split_and!; try done. by left. }
  rewrite (proj2 (Z.eqb_neq e 0)) by lia. apply held_cons in Hz.
  pose proof (oh_alloc_spec _ _ (block_size c1) Hz ltac:(lia)) as Ha. destruct (oh_alloc (block_size c1) h1) as [p h2].
  rewrite not_elem_of_union, not_elem_of_list_to_set in Hen. destruct Hen as [HeL Heo].
  destruct Ha as [[-> Ha]|(Hp0 & Hpm & Hpn & Ha)].
  { eexists _, _. split; [done|]. split; [apply set_heap_ok; [done|by apply held_free]|]. split_and!; try done. by left. }
  rewrite (proj2 (Z.eqb_neq p 0)) by lia. apply held_cons in Ha.
  rewrite not_elem_of_union, not_elem_of_list_to_set, not_elem_of_cons in Hpn. destruct Hpn as (HpL & Hpe & Hpo).
  destruct (install_spec L c1 e p h2 b src d now Hok1 Hlt ltac:(lia)) as (x & -> & Hok' & Ec'); try done.
  eexists _, _. split; [done|]. split; [done|]. split_and!; try done. right. split; [done|]. by rewrite Ec', Hb1, Ec1.
Qed.

(** ** Synchronising, creating and destroying *)

Lemma sync_loop l (x : index block_cache_entry) t : index_ok entry_node block_num x t ->
  let x' := fold_left sync_entry l x in
  index_ok entry_node block_num x' t /\ lru x' = lru x /\
  forall y, entries x' !! y = (if decide (y ∈ l) then clean <$> entries x !! y else entries x !! y).
Proof.
  revert x. induction l as [|e l IH]; intros x Hx; cbn [fold_left].
  - split; [done|]. split; [done|]. intros y. by rewrite decide_False by apply not_elem_of_nil.
  - assert (Hs : index_ok entry_node block_num (sync_entry x e) t /\ lru (sync_entry x e) = lru x /\
      forall y, entries (sync_entry x e) !! y = if decide (y = e) then clean <$> entries x !! y else entries x !! y).
    { unfold sync_entry. destruct (entries x !! e) as [en|] eqn:He.
      - destruct (dirty en) eqn:Hd.
        + split; [by apply (update_ok _ _ _ _ Hx e en)|]. split; [done|]. intros y. cbn.
          case_decide; [subst; by rewrite lookup_insert_eq, He|by rewrite lookup_insert_ne].
        + split; [done|]. split; [done|]. intros y. case_decide; [subst; rewrite He|done]. destruct en. cbn in *. by subst.
      - split; [done|]. split; [done|]. intros y. case_decide; [subst; by rewrite He|done]. }
    destruct Hs as (Hx1 & Hl1 & He1). destruct (IH _ Hx1) as (Hx2 & Hl2 & He2). split; [done|]. split; [congruence|].
    intros y. rewrite He2, He1. repeat case_decide; set_unfold; try done; try naive_solver.
    by destruct (entries x !! y).
Qed.

Lemma sync_spec L c : bcache_ok L c ->
  bcache_ok L (block_cache_sync c) /\ cached (block_cache_sync c) = (fun v => (v.1, false)) <$> cached c.
Proof.
  intros Hok. pose proof Hok as [[t Ht] _ _ _ _ _ _ _]. destruct (sync_loop (lru (ix c)) (ix c) t Ht) as (Hx & Hl & He).
  unfold block_cache_sync. set (x := fold_left _ _ _) in *. split.
  - apply (reindex_ok L c x t (hits c) (misses c)); [done|done|by rewrite Hl|]. intros y. rewrite He. case_decide; [|done].
    by destruct (entries (ix c) !! y).
  - unfold cached. cbn. rewrite Hl, <- list_fmap_compose. apply fmap_ext_in. intros y Hy. unfold entry_view. cbn.
    rewrite He, decide_True by done. destruct (entry_some _ _ _ Hok Hy) as [en Hen]. by rewrite Hen.
Qed.

Lemma create_spec L (h : H) max block : oh_ok h L -> 0 < max < 2 ^ 64 -> 0 < block <= 8192 ->
  let '(r, h') := block_cache_create max block h in
  r = None /\ oh_ok h' L \/
  exists c, r = Some c /\ kheap c = h' /\ bcache_ok L c /\ cached c = [] /\ max_entries c = max /\ block_size c = block.
Proof.
  intros Hh Hmax Hblk. unfold block_cache_create. pose proof (oh_zalloc_spec _ _ sizeof_cache Hh ltac:(done)) as Hz.
  destruct (oh_zalloc sizeof_cache h) as [p h']. destruct Hz as [[-> Hz]|(Hp & _ & HpL & Hz)]; [by left|].
  rewrite (proj2 (Z.eqb_neq p 0)) by lia. right. eexists. split; [done|]. split; [done|]. split; [|done].
  split; try done.
  - exists Leaf. apply index_empty_ok.
  - apply (held_cons h' L p []). by rewrite list_to_set_nil, union_empty_r_L.
  - apply NoDup_singleton.
  - by intros q ->%list_elem_of_singleton.
  - cbn. lia.
Qed.

Lemma destroy_loop L (a : Z) (es : gmap Z block_cache_entry) (d : Z -> Z) l (h : H) :
  (forall e, e ∈ l -> exists en, es !! e = Some en /\ data en = d e) ->
  NoDup (a :: l ++ (d <$> l)) -> (forall p, p ∈ l ++ (d <$> l) -> p ∉ L) ->
  oh_ok h (L ∪ list_to_set (a :: l ++ (d <$> l))) ->
  exists h', fold_left (free_entry es) l (Some h) = Some h' /\ oh_ok h' (L ∪ list_to_set [a]).
Proof.
  revert h. induction l as [|e l IH]; intros h Hes Hnd HL Hh; cbn [fold_left]; [by exists h|].
  destruct (Hes e ltac:(set_solver)) as (en & Hen & Hd). unfold free_entry at 2. rewrite Hen, Hd.
  assert (Hp : a :: (e :: l) ++ (d <$> e :: l) ≡ₚ e :: d e :: a :: l ++ (d <$> l)) by (cbn; solve_Permutation).
  rewrite Hp in Hnd. apply (held_perm _ _ _ _ Hp) in Hh. apply NoDup_cons in Hnd as [H1 [H2 H3]%NoDup_cons].
  apply IH; [intros y Hy; apply Hes; set_solver|done|intros p Hpin; apply HL; cbn; set_solver|].
  apply held_free; [|apply HL; set_solver|set_solver]. apply held_free; [|apply HL; cbn; set_solver|set_solver].
  apply (held_perm _ _ _ _ (perm_swap _ _ _) Hh).
Qed.

Lemma destroy_spec L c : bcache_ok L c -> exists h', block_cache_destroy c = Some h' /\ oh_ok h' L.
Proof.
  intros Hok. pose proof Hok as [_ _ Hheap Hown Hoth _ _ _]. unfold block_cache_destroy.
  destruct (destroy_loop L (self c) (entries (ix c)) (data_of c) (lru (ix c)) (kheap c)) as (h' & -> & Hh'); try done.
  - intros e He. destruct (entry_some _ _ _ Hok He) as [en Hen]. exists en. split; [done|]. unfold data_of. by rewrite Hen.
  - intros p Hp. apply Hoth. unfold owned. set_solver.
  - eexists. split; [done|]. replace L with (L ∪ list_to_set []) by (cbn; by rewrite union_empty_r_L).
    apply held_free; [done|apply Hoth; unfold owned; set_solver|apply not_elem_of_nil].
Qed.

(** ** Theorems *)

(** C23. The block cache is a bounded store of blocks in the order of their use.
    [block_cache_get] finds a block exactly when it is cached, returns the
    memory that holds its bytes and makes it the most recent; [block_cache_put]
    drops the least recent block when the cache is full and puts the new one in
    front, or reports ENOMEM; [block_cache_invalidate] removes one entry for the
    block; [block_cache_sync] marks all blocks clean.  No operation faults, and
    tree, list, counters and memory of the cache stay consistent. *)
Theorem block_cache_refines_lru L c now b src d (Hok : bcache_ok L c) (Hsrc : block_size c <= Z.of_nat (length src)) :
  (exists a c', block_cache_get now b c = Some (a, c') /\ bcache_ok L c' /\
    (a = 0 /\ (forall v, v ∈ cached c -> v.1.1 <> b) /\ cached c' = cached c /\ misses c' = u64 (misses c + 1) \/
     a <> 0 /\ exists l1 v l2, cached c = l1 ++ v :: l2 /\ v.1.1 = b /\ cached c' = v :: l1 ++ l2 /\
       blocks c' !! a = Some v.1.2)) /\
  (exists r c', block_cache_put now b src d c = Some (r, c') /\ bcache_ok L c' /\
    let kept := take (Z.to_nat (max_entries c - 1)) (cached c) in
    (r = - ENOMEM /\ cached c' = kept \/
     r = 0 /\ cached c' = (b, take (Z.to_nat (block_size c)) src, d) :: kept)) /\
  (exists c', block_cache_invalidate b c = Some c' /\ bcache_ok L c' /\
    ((forall v, v ∈ cached c -> v.1.1 <> b) /\ c' = c \/
     exists l1 v l2, cached c = l1 ++ v :: l2 /\ v.1.1 = b /\ cached c' = l1 ++ l2)) /\
  bcache_ok L (block_cache_sync c) /\ cached (block_cache_sync c) = (fun v => (v.1, false)) <$> cached c.
Proof.
  split_and!.
  - destruct (get_spec L c now b Hok) as (a & c' & E & Hok' & _ & Hr). exists a, c'. naive_solver.
  - destruct (put_spec L c now b src d Hok Hsrc) as (r & c' & E & Hok' & _ & _ & _ & Hr). by exists r, c'.
  - destruct (invalidate_spec L c b Hok) as (c' & E & Hok' & _ & Hr). by exists c'.
  - by apply sync_spec.
  - by apply (sync_spec L).
Qed.

(** From its creation to its destruction the cache owns exactly its own
    memory: a new cache is empty, and destroying a cache gives all its memory
    back to the heap, so that only what others hold remains allocated. *)
Theorem block_cache_lifecycle L (h : H) max block
    (Hh : oh_ok h L) (Hmax : 0 < max < 2 ^ 64) (Hblk : 0 < block <= 8192) :
  (let '(r, h') := block_cache_create max block h in
   r = None /\ oh_ok h' L \/ exists c, r = Some c /\ kheap c = h' /\ bcache_ok L c /\ cached c = []) /\
  forall c, bcache_ok L c -> exists h', block_cache_destroy c = Some h' /\ oh_ok h' L.
Proof.
  split; [|by apply destroy_spec]. pose proof (create_spec L h max block Hh Hmax Hblk) as Hc.
  destruct (block_cache_create max block h) as [r h']. naive_solver.
Qed.
End Props.

(** ** A cache on the heap of the kernel *)

From S2P Require Import Pmm Kmalloc KmallocHeap KmallocProps.

(** A new cache for four blocks of two bytes. *)
Definition cache_0 : block_cache (heap pmm) :=
  match block_cache_create 4 2 heap_512 with
  | (Some c, _) => c
  | (None, h) => mkCache 0 index_empty 0 4 2 0 0 ∅ h
  end.

Definition after_put (b : Z) (src : list Z) (c : block_cache (heap pmm)) : block_cache (heap pmm) :=
  match block_cache_put 0 b src false c with Some (_, c) => c | None => c end.

Lemma cache_0_ok : bcache_ok ∅ cache_0 /\ block_size cache_0 = 2.
Proof.
  pose proof (create_spec ∅ heap_512 4 2 heap_512_holds ltac:(lia) ltac:(lia)) as Hc. unfold cache_0.
  assert (E : match (block_cache_create 4 2 heap_512).1 with Some _ => true | None => false end = true)
    by (vm_compute; reflexivity).
  destruct (block_cache_create 4 2 heap_512) as [r h']. destruct Hc as [[-> _]|(c & -> & _ & Hok & _ & _ & Hb)]; done.
Qed.

(** A block that is put a second time is cached twice, and [block_cache_get]
    finds the old bytes. *)
Lemma block_cache_stale :
  let c := after_put 7 [2; 2] (after_put 7 [1; 1] cache_0) in
  cached c = [(7, [2; 2], false); (7, [1; 1], false)] /\
  match block_cache_get 0 7 c with Some (a, c') => blocks c' !! a | None => None end = Some [1; 1].
Proof. vm_compute. done. Qed.

Lemma block_cache_refines_lru_witness :
  exists a c', block_cache_get 0 9 cache_0 = Some (a, c') /\ a = 0 /\ cached c' = [].
Proof.
  destruct cache_0_ok as [Hok Hb].
  destruct (block_cache_refines_lru ∅ cache_0 0 9 [1; 1] false Hok ltac:(rewrite Hb; reflexivity || (cbn; lia)))
    as ((a & c' & E & _ & Hr) & _).
  exists a, c'. split; [exact E|].
  assert (E0 : cached cache_0 = []) by (vm_compute; reflexivity). rewrite E0 in Hr.
  destruct Hr as [(-> & _ & -> & _)|(_ & l1 & v & l2 & E1 & _)]; [split; reflexivity|].
  exfalso. destruct l1; discriminate E1.
Defined.

Lemma block_cache_lifecycle_witness : exists h', block_cache_destroy cache_0 = Some h' /\ oh_ok h' ∅.
Proof.
  destruct (block_cache_lifecycle ∅ heap_512 4 2 heap_512_holds ltac:(lia) ltac:(lia)) as [_ Hd].
  apply Hd. apply cache_0_ok.
Defined.
