(* ===== verification/PolicyCache.v ===== *)
(** * The policy cache of AxiomFS: fs/axiomfs/policy_ipc.c

    Decisions of the policy daemon, each for one user, group, inode and
    operation, are kept for a while in a cache ordered by a hash of the request.
    The entries hang in a red-black tree and on an LRU list, as in the block
    cache.  The time is an argument; [None] is a fault of the C. *)

From S2P Require Import Prelude Errno RbTree RbTreeHeap RbTreeProps RbSearch LruTree ObjectHeap.

Record policy_cache_entry := mkPolicy {
  pe_hash : Z;
  pe_inode : Z;
  pe_uid : Z;
  pe_gid : Z;
  pe_operation : Z;
  pe_result : Z;
  pe_expiry : Z
}.

(** Where [node] lies in the structure, its size, and that of [struct policy_cache]. *)
Definition policy_node : Z := 40.
Definition sizeof_policy_entry : Z := 80.
Definition sizeof_policy_cache : Z := 72.

Definition policy_cache_hash (uid gid inode op : Z) : Z :=
  let hash := uid in
  let hash := u64 (hash * 31 + gid) in
  let hash := u64 (hash * 31 + inode) in
  u64 (hash * 31 + op).

Section PolicyCache.
Context {H : Type} `{ObjectHeap H}.

Record policy_cache := mkPolicyCache {
  pc_self : Z;
  pc_ix : index policy_cache_entry;
  pc_count : Z;
  pc_max : Z;
  default_ttl : Z;
  pc_hits : Z;
  pc_misses : Z;
  pc_heap : H
}.

Definition pc_with_ix (x : index policy_cache_entry) (n : Z) (c : policy_cache) : policy_cache :=
  mkPolicyCache (pc_self c) x n (pc_max c) (default_ttl c) (pc_hits c) (pc_misses c) (pc_heap c).
Definition pc_with_hits (h m : Z) (c : policy_cache) : policy_cache :=
  mkPolicyCache (pc_self c) (pc_ix c) (pc_count c) (pc_max c) (default_ttl c) h m (pc_heap c).
Definition pc_with_heap (h : H) (c : policy_cache) : policy_cache :=
  mkPolicyCache (pc_self c) (pc_ix c) (pc_count c) (pc_max c) (default_ttl c) (pc_hits c) (pc_misses c) h.

(** ** Operations *)

Definition policy_cache_create (max ttl : Z) (h : H) : option policy_cache * H :=
  let '(p, h) := oh_zalloc sizeof_policy_cache h in
  if p =? 0 then (None, h) else (Some (mkPolicyCache p index_empty 0 max ttl 0 0 h), h).

Definition policy_cache_destroy (c : policy_cache) : H :=
  oh_free (pc_self c) (fold_left (fun h e => oh_free e h) (lru (pc_ix c)) (pc_heap c)).

Definition entry_is (uid gid inode op : Z) (en : policy_cache_entry) : bool :=
  (pe_uid en =? uid) && (pe_gid en =? gid) && (pe_inode en =? inode) && (pe_operation en =? op).

(** The search loop: the entry it returns from, or none when it runs out of
    nodes or breaks off at an expired entry. *)
Definition lookup_body (now uid gid inode op hash : Z) (es : gmap Z policy_cache_entry) (node : Z) : M (Z + option Z) :=
  if node =? 0 then mret (inr None) else
  en ← lift (es !! (node - policy_node));
  if hash <? pe_hash en then l ← get_left node; mret (inl l)
  else if hash >? pe_hash en then r ← get_right node; mret (inl r)
  else if entry_is uid gid inode op en then
    mret (inr (if now <? pe_expiry en then Some (node - policy_node) else None))
  else r ← get_right node; mret (inl r).

Definition policy_cache_lookup (now uid gid inode op : Z) (c : policy_cache) : option (Z * policy_cache) :=
  let hash := policy_cache_hash uid gid inode op in
  let search := root ← get_root; loop (lookup_body now uid gid inode op hash (entries (pc_ix c))) root in
  match search (tree_mem (pc_ix c)) with
  | None => None
  | Some (None, _) => Some (-1, pc_with_hits (pc_hits c) (u64 (pc_misses c + 1)) c)
  | Some (Some e, _) =>
    match entries (pc_ix c) !! e with
    | None => None
    | Some en =>
      Some (pe_result en, pc_with_hits (u64 (pc_hits c + 1)) (pc_misses c) (pc_with_ix (move_front e (pc_ix c)) (pc_count c) c))
    end
  end.

(** [rb_erase(&e->node, ...); list_del(&e->lru); kfree(e); cache->count--]. *)
Definition policy_drop (e : Z) (c : policy_cache) : option policy_cache :=
  match drop_entry policy_node e (pc_ix c) with
  | None => None
  | Some x => Some (pc_with_heap (oh_free e (pc_heap c)) (pc_with_ix x (u64 (pc_count c - 1)) c))
  end.

Fixpoint policy_evict (fuel : nat) (c : policy_cache) : option policy_cache :=
  match fuel with
  | O => None
  | S fuel =>
    if pc_count c >=? pc_max c then
      match last (lru (pc_ix c)) with
      | None => None
      | Some oldest => match policy_drop oldest c with Some c => policy_evict fuel c | None => None end
      end
    else Some c
  end.

Definition policy_cache_insert (now uid gid inode op result : Z) (c : policy_cache) : option policy_cache :=
  match policy_evict (S (length (lru (pc_ix c)))) c with
  | None => None
  | Some c =>
    let '(e, h) := oh_zalloc sizeof_policy_entry (pc_heap c) in
    if e =? 0 then Some (pc_with_heap h c) else
    let en := mkPolicy (policy_cache_hash uid gid inode op) inode uid gid op result (u64 (now + default_ttl c)) in
    match add_entry policy_node pe_hash e en (pc_ix c) with
    | None => None
    | Some x => Some (pc_with_heap h (pc_with_ix x (u64 (pc_count c + 1)) c))
    end
  end.

(** [list_for_each_safe] goes over the list as it was. *)
Definition invalidate_entry (inode : Z) (o : option policy_cache) (e : Z) : option policy_cache :=
  match o with
  | None => None
  | Some c =>
    match entries (pc_ix c) !! e with
    | None => None
    | Some en => if pe_inode en =? inode then policy_drop e c else Some c
    end
  end.

Definition policy_cache_invalidate (inode : Z) (c : policy_cache) : option policy_cache :=
  fold_left (invalidate_entry inode) (lru (pc_ix c)) (Some c).

Definition flush_entry (o : option policy_cache) (e : Z) : option policy_cache :=
  match o with
  | None => None
  | Some c =>
    match drop_entry policy_node e (pc_ix c) with
    | None => None
    | Some x => Some (pc_with_heap (oh_free e (pc_heap c)) (pc_with_ix x (pc_count c) c))
    end
  end.

Definition policy_cache_flush (c : policy_cache) : option policy_cache :=
  match fold_left flush_entry (lru (pc_ix c)) (Some c) with
  | None => None
  | Some c => Some (pc_with_ix (mkIndex (with_root 0 (tree_mem (pc_ix c))) (lru (pc_ix c)) (entries (pc_ix c))) 0 c)
  end.

(** ** What the cache holds *)

(** The decisions, most recently used first. *)
Definition decisions (c : policy_cache) : list policy_cache_entry :=
  omap (fun e => entries (pc_ix c) !! e) (lru (pc_ix c)).

(** [L] is what others hold of the heap. *)
Record pcache_ok (L : gset Z) (c : policy_cache) : Prop := {
  pco_index : exists t, index_ok policy_node pe_hash (pc_ix c) t;
  pco_hash : forall e en, entries (pc_ix c) !! e = Some en ->
    pe_hash en = policy_cache_hash (pe_uid en) (pe_gid en) (pe_inode en) (pe_operation en);
  pco_heap : oh_ok (pc_heap c) (L ∪ list_to_set (pc_self c :: lru (pc_ix c)));
  pco_owned : NoDup (pc_self c :: lru (pc_ix c));
  pco_others : forall p, p ∈ pc_self c :: lru (pc_ix c) -> p ∉ L;
  pco_count : pc_count c = Z.of_nat (length (lru (pc_ix c)));
  pco_max : 0 < pc_max c < 2 ^ 64 /\ pc_count c <= pc_max c
}.
End PolicyCache.

#[global] Arguments policy_cache H : clear implicits.
