(* ===== verification/PolicyCacheProps.v ===== *)
(** * The policy cache returns only valid decisions

    Every operation of PolicyCache against the list of cached decisions. *)

From S2P Require Import Prelude Errno RbTree RbTreeHeap RbTreeProps RbSearch LruTree ObjectHeap PolicyCache.

Section Props.
Context {H : Type} `{ObjectHeap H}.
Implicit Types (c : policy_cache H) (L : gset Z).

Lemma plru_nodup L c : pcache_ok L c -> NoDup (lru (pc_ix c)).
Proof. intros Hok. destruct (pco_index _ _ Hok) as [t Ht]. by apply (ix_nodup _ _ _ _ Ht). Qed.

Lemma pentry_some L c e : pcache_ok L c -> e ∈ lru (pc_ix c) -> exists en, entries (pc_ix c) !! e = Some en.
Proof. intros Hok He. destruct (pco_index _ _ Hok) as [t Ht]. by apply (ix_entries _ _ _ _ Ht) in He as [en Hen]; exists en. Qed.

Lemma omap_ext_in {A B : Type} (f g : A -> option B) (l : list A) : (forall x, x ∈ l -> f x = g x) -> omap f l = omap g l.
Proof.
  induction l as [|x l IH]; intros Hx; [done|]. cbn. rewrite (Hx x) by set_solver. rewrite IH; [done|].
  intros y Hy. apply Hx. set_solver.
Qed.

Definition same_policy c c' : Prop :=
  pc_self c' = pc_self c /\ pc_max c' = pc_max c /\ default_ttl c' = default_ttl c /\
  pc_hits c' = pc_hits c /\ pc_misses c' = pc_misses c.

(** *** Dropping entries *)

(** The part of the invariant that does not speak of the counters. *)
Definition owns L c : Prop :=
  let held := pc_self c :: lru (pc_ix c) in
  (exists t, index_ok policy_node pe_hash (pc_ix c) t) /\ oh_ok (pc_heap c) (L ∪ list_to_set held) /\ NoDup held /\
  (forall p, p ∈ held -> p ∉ L).

Lemma pcache_owns L c : pcache_ok L c -> owns L c.
Proof. by intros []. Qed.

(** The index without the entry [e], and the memory of [e] given back. *)
Lemma drop_index L c e l1 l2 : owns L c -> lru (pc_ix c) = l1 ++ e :: l2 ->
  exists x t', drop_entry policy_node e (pc_ix c) = Some x /\ index_ok policy_node pe_hash x t' /\
    lru x = l1 ++ l2 /\ entries x = delete e (entries (pc_ix c)) /\
    omap (fun y => entries x !! y) (l1 ++ l2) = omap (fun y => entries (pc_ix c) !! y) (l1 ++ l2) /\
    oh_ok (oh_free e (pc_heap c)) (L ∪ list_to_set (pc_self c :: l1 ++ l2)) /\
    NoDup (pc_self c :: l1 ++ l2) /\ (forall p, p ∈ pc_self c :: l1 ++ l2 -> p ∉ L).
Proof.
  intros ([t Ht] & Hheap & Hown & Hoth) El. pose proof (ix_nodup _ _ _ _ Ht) as Hnd. rewrite El in Hnd.
  assert (He : e ∈ lru (pc_ix c)) by (rewrite El; set_solver).
  destruct (drop_ok _ _ _ _ Ht e He) as (x & t' & Ed & Hx & Elru & Eent). rewrite El, (list_del_mid _ _ _ Hnd) in Elru.
  assert (Hperm : pc_self c :: lru (pc_ix c) ≡ₚ e :: pc_self c :: l1 ++ l2) by (rewrite El; solve_Permutation).
  rewrite Hperm in Hown. apply NoDup_cons in Hown as [He1 Hown]. apply (held_perm _ _ _ _ Hperm) in Hheap.
  exists x, t'. split_and!; try done.
  - apply omap_ext_in. intros y Hy. rewrite Eent. apply lookup_delete_ne. intros <-. apply He1. set_solver.
  - apply held_free; [done| |done]. apply Hoth. rewrite Hperm. set_solver.
  - intros p Hp. apply Hoth. rewrite Hperm. set_solver.
Qed.

Lemma policy_drop_spec L c e l1 l2 : pcache_ok L c -> lru (pc_ix c) = l1 ++ e :: l2 ->
  exists c', policy_drop e c = Some c' /\ pcache_ok L c' /\ lru (pc_ix c') = l1 ++ l2 /\
    entries (pc_ix c') = delete e (entries (pc_ix c)) /\
    decisions c' = omap (fun y => entries (pc_ix c) !! y) (l1 ++ l2) /\ same_policy c c'.
Proof.
  intros Hok El. destruct (drop_index _ _ _ _ _ (pcache_owns _ _ Hok) El) as (x & t' & Ed & Hx & Elru & Eent & Em & Hh & Hnd & Hoth).
  unfold policy_drop. rewrite Ed. eexists. split; [done|].
  destruct Hok as [_ Hhash _ _ _ Hcnt Hmax]. rewrite El, length_app in Hcnt. cbn in Hcnt.
  split; [|split; [done|split; [done|split; [|done]]]].
  - split.
    + by exists t'.
    + cbn. intros y en. rewrite Eent. intros [_ Hy]%lookup_delete_Some. by apply (Hhash y).
    + change (oh_ok (oh_free e (pc_heap c)) (L ∪ list_to_set (pc_self c :: lru x))). by rewrite Elru.
    + cbn. by rewrite Elru.
    + cbn [pc_self pc_ix pc_with_heap pc_with_ix]. by rewrite Elru.
    + cbn. rewrite Elru, length_app, Hcnt. unfold u64. rewrite Z.mod_small; lia.
    + cbn. rewrite Hcnt. unfold u64. rewrite Z.mod_small; lia.
  - unfold decisions. cbn. by rewrite Elru.
Qed.

Lemma policy_evict_spec L c fuel : pcache_ok L c -> (length (lru (pc_ix c)) < fuel)%nat ->
  exists c', policy_evict fuel c = Some c' /\ pcache_ok L c' /\ same_policy c c' /\ pc_count c' < pc_max c' /\
    decisions c' = take (Z.to_nat (pc_max c - 1)) (decisions c).
Proof.
  intros Hok Hf. pose proof Hok as [_ _ _ _ _ Hcnt Hmax]. destruct fuel as [|fuel]; [lia|]. cbn [policy_evict].
  assert (Hd : decisions c = omap (fun y => entries (pc_ix c) !! y) (lru (pc_ix c))) by done.
  assert (Hlen : forall l, l ⊆ lru (pc_ix c) -> length (omap (fun y => entries (pc_ix c) !! y) l) = length l).
  { induction l as [|y l IH]; intros Hl; [done|]. destruct (pentry_some _ _ y Hok) as [en Hen]; [set_solver|].
    cbn. rewrite Hen. cbn. rewrite IH; [done|set_solver]. }
  rewrite Z.geb_leb. destruct (Z.leb_spec (pc_max c) (pc_count c)) as [Hfull|Hfree].
  2: { exists c. split; [done|]. split; [done|]. split; [done|]. split; [lia|].
       symmetry. apply take_ge. rewrite Hd, Hlen by done. lia. }
  destruct (last (lru (pc_ix c))) as [e|] eqn:El.
  2: { apply last_None in El. rewrite El in Hcnt. cbn in Hcnt. lia. }
  apply last_Some in El as [l' El].
  destruct (policy_drop_spec L c e l' [] Hok El) as (c' & -> & Hok' & El' & _ & Ec & Hs). pose proof Hs as (_ & Hm & _).
  rewrite app_nil_r in *. pose proof (pco_count _ _ Hok') as Hcnt'. rewrite El' in Hcnt'.
  rewrite El, length_app in Hcnt, Hf. cbn in Hcnt, Hf. destruct fuel as [|fuel]; [lia|]. cbn [policy_evict].
  rewrite Hm, Z.geb_leb. destruct (Z.leb_spec (pc_max c) (pc_count c')) as [?|?]; [lia|].
  exists c'. split; [done|]. split; [done|]. split; [done|]. split; [lia|].
  assert (Hl' : length (omap (fun y => entries (pc_ix c) !! y) l') = length l') by (apply Hlen; rewrite El; set_solver).
  rewrite Ec, Hd, El, omap_app, take_app_le by lia. symmetry. apply take_ge. lia.
Qed.

(** *** Lookup *)

(** The entry answers the request. *)
Definition valid (now uid gid inode op : Z) (en : policy_cache_entry) : Prop :=
  entry_is uid gid inode op en = true /\ now < pe_expiry en.

Lemma lookup_loop F s (es : gmap Z policy_cache_entry) now uid gid inode op hash k t fuel :
  tree_at F s (zip k t) -> ordered (node_key policy_node pe_hash es) (inorder t) -> (length (inorder t) < fuel)%nat ->
  wp (iter fuel (lookup_body now uid gid inode op hash es) (root_of t))
    (fun r s' => s' = s /\
      match r with
      | Some e => e + policy_node ∈ inorder t /\ exists en, es !! e = Some en /\ valid now uid gid inode op en
      | None => forall n en, n ∈ inorder t -> es !! (n - policy_node) = Some en -> pe_hash en = hash ->
          exists n' en', n' ∈ inorder t /\ es !! (n' - policy_node) = Some en' /\ pe_hash en' = hash /\ ~ valid now uid gid inode op en'
      end) s.
Proof.
  revert k fuel. induction t as [|col l IHl a r IHr]; intros k fuel Ht Ho Hf; (destruct fuel as [|fuel]; [lia|]); apply wp_iter.
  { apply wp_ret. split; [done|]. intros n en ?%elem_of_nil. done. }
  cbn [root_of inorder] in *. rewrite length_app in Hf. cbn in Hf. unfold lookup_body. nz (at_nz _ _ _ _ _ Ht).
  apply ordered_node in Ho as (Hol & Hor & ka & Hka & Hl & Hr & _).
  unfold node_key in Hka. apply fmap_Some in Hka as (en & Hen & ->).
  apply wp_bind, (wp_lift _ _ _ _ Hen).
  destruct (hash <? pe_hash en) eqn:E1; [|destruct (hash >? pe_hash en) eqn:E2]; zbool.
  - apply wp_bind, (wp_get_left _ _ _ _ _ Ht), wp_ret.
    apply (wp_mono _ _ _ _ (IHl (Lf col a r :: k) fuel Ht Hol ltac:(lia))). intros [e|] s' [-> Hx]; (split; [done|]).
    + destruct Hx as [Hin Hx]. split; [set_solver|done].
    + intros n en' Hin Hn Hh. assert (n ∈ inorder l) as Hnl.
      { apply elem_of_app in Hin as [?|[->|Hin]%elem_of_cons]; [done|assert (en' = en) as -> by congruence; lia|].
        specialize (Hr n (pe_hash en') Hin). unfold node_key in Hr. rewrite Hn in Hr. specialize (Hr eq_refl). lia. }
      destruct (Hx n en' Hnl Hn Hh) as (n' & e' & ? & ?). exists n', e'. split; [set_solver|done].
  - apply wp_bind, (wp_get_right _ _ _ _ _ Ht), wp_ret.
    apply (wp_mono _ _ _ _ (IHr (Rt col l a :: k) fuel Ht Hor ltac:(lia))). intros [e|] s' [-> Hx]; (split; [done|]).
    + destruct Hx as [Hin Hx]. split; [set_solver|done].
    + intros n en' Hin Hn Hh. assert (n ∈ inorder r) as Hnr.
      { apply elem_of_app in Hin as [Hin|[->|?]%elem_of_cons]; [|assert (en' = en) as -> by congruence; lia|done].
        specialize (Hl n (pe_hash en') Hin). unfold node_key in Hl. rewrite Hn in Hl. specialize (Hl eq_refl). lia. }
      destruct (Hx n en' Hnr Hn Hh) as (n' & e' & ? & ?). exists n', e'. split; [set_solver|done].
  - assert (Hh : pe_hash en = hash) by lia.
    destruct (entry_is uid gid inode op en) eqn:Hm.
    + apply wp_ret. split; [done|]. destruct (Z.ltb_spec now (pe_expiry en)) as [Hlt|Hge].
      * split; [replace (a - policy_node + policy_node) with a by lia; set_solver|]. exists en. done.
      * intros _ _ _ _ _. exists a, en. split; [set_solver|]. split; [done|]. split; [done|]. intros [_ ?]. lia.
    + apply wp_bind, (wp_get_right _ _ _ _ _ Ht), wp_ret.
      apply (wp_mono _ _ _ _ (IHr (Rt col l a :: k) fuel Ht Hor ltac:(lia))). intros [e|] s' [-> Hx]; (split; [done|]).
      * destruct Hx as [Hin Hx]. split; [set_solver|done].
      * intros _ _ _ _ _. exists a, en. split; [set_solver|]. split; [done|]. split; [done|]. intros [? _]. congruence.
Qed.

(** The decisions as the entries on the list. *)
Lemma decisions_in L c en : pcache_ok L c ->
  en ∈ decisions c <-> exists e, e ∈ lru (pc_ix c) /\ entries (pc_ix c) !! e = Some en.
Proof. intros Hok. unfold decisions. by rewrite list_elem_of_omap. Qed.

Lemma lookup_spec L c now uid gid inode op : pcache_ok L c ->
  exists r c', policy_cache_lookup now uid gid inode op c = Some (r, c') /\ pcache_ok L c' /\
    pc_max c' = pc_max c /\ default_ttl c' = default_ttl c /\
    (r = -1 /\ decisions c' = decisions c /\ pc_misses c' = u64 (pc_misses c + 1) /\
       (forall en, en ∈ decisions c -> pe_hash en = policy_cache_hash uid gid inode op ->
          exists en', en' ∈ decisions c /\ pe_hash en' = policy_cache_hash uid gid inode op /\ ~ valid now uid gid inode op en') \/
     exists l1 en l2, decisions c = l1 ++ en :: l2 /\ valid now uid gid inode op en /\ r = pe_result en /\
       decisions c' = en :: l1 ++ l2 /\ pc_hits c' = u64 (pc_hits c + 1)).
Proof.
  intros Hok. pose proof Hok as [[t Ht] Hhash Hheap Hown Hoth Hcnt Hmax]. unfold policy_cache_lookup.
  set (hash := policy_cache_hash uid gid inode op).
  pose proof (path_size _ _ [] t (ix_tree _ _ _ _ Ht)) as Hsize. cbn in Hsize.
  destruct (lookup_loop _ _ (entries (pc_ix c)) now uid gid inode op hash [] t (S (size (nodes (tree_mem (pc_ix c)))))
    (ix_tree _ _ _ _ Ht) (ix_order _ _ _ _ Ht) ltac:(lia)) as (r & s' & E & -> & Hr).
  assert (Es : (root ← get_root; loop (lookup_body now uid gid inode op hash (entries (pc_ix c))) root) (tree_mem (pc_ix c))
    = Some (r, tree_mem (pc_ix c))).
  { unfold mbind, M_bind, get_root, loop. by rewrite (ta_root _ _ _ (ix_tree _ _ _ _ Ht)), E. }
  rewrite Es. destruct r as [e|].
  - destruct Hr as (Hin & en & Hen & Hv). rewrite Hen. eexists _, _. split; [done|].
    assert (He : e ∈ lru (pc_ix c)) by (apply (ix_entries _ _ _ _ Ht); by eexists).
    destruct (list_elem_of_split _ _ He) as (l1 & l2 & El). pose proof (plru_nodup _ _ Hok) as Hnd. rewrite El in Hnd.
    assert (Hperm : e :: list_del e (lru (pc_ix c)) ≡ₚ lru (pc_ix c)).
    { rewrite El, (list_del_mid _ _ _ Hnd). by rewrite <- Permutation_middle. }
    split; [|split; [done|split; [done|right]]].
    + split; try done.
      * exists t. by apply (move_front_ok _ _ _ _ Ht).
      * apply (held_perm _ _ (pc_self c :: lru (pc_ix c))); [|done]. by rewrite <- Hperm.
      * change (NoDup (pc_self c :: e :: list_del e (lru (pc_ix c)))). by rewrite Hperm.
      * change (forall p, p ∈ pc_self c :: e :: list_del e (lru (pc_ix c)) -> p ∉ L). intros p. rewrite Hperm. apply Hoth.
      * change (pc_count c = Z.of_nat (length (e :: list_del e (lru (pc_ix c))))). by rewrite Hperm.
    + exists (omap (fun y => entries (pc_ix c) !! y) l1), en, (omap (fun y => entries (pc_ix c) !! y) l2).
      split_and!; try done.
      * unfold decisions. rewrite El, omap_app. cbn. by rewrite Hen.
      * unfold decisions at 1. change (lru (pc_ix _)) with (e :: list_del e (lru (pc_ix c))) at 1.
        rewrite El, (list_del_mid _ _ _ Hnd). cbn. by rewrite Hen, omap_app.
  - eexists _, _. split; [done|]. split; [by destruct Hok; split|]. split; [done|]. split; [done|]. left. split; [done|]. split; [done|]. split; [done|].
    intros en (e & He & Hen)%(decisions_in L) Hh; [|done].
    assert (Hin : e + policy_node ∈ inorder t) by (apply (ix_in _ _ _ _ Ht); by replace (e + policy_node - policy_node) with e by lia).
    destruct (Hr (e + policy_node) en Hin) as (n' & en' & Hin' & Hen' & Hh' & Hv'); [by replace (e + policy_node - policy_node) with e by lia|done|].
    exists en'. split; [|done]. apply (decisions_in L); [done|]. exists (n' - policy_node). split; [|done]. by apply (ix_in _ _ _ _ Ht).
Qed.

(** *** Insertion *)

Lemma policy_node_aligned e : 0 < e -> e mod 8 = 0 -> node_addr (e + policy_node).
Proof.
  intros He Hm. unfold policy_node. split; [lia|]. change 3 with (Z.ones 2). rewrite Z.land_ones by done. change (2 ^ 2) with 4.
  apply Z.mod_divide in Hm as [q ->]; [|done]. apply Z.mod_divide; [done|]. exists (2 * q + 10). lia.
Qed.

Lemma policy_insert_spec L c now uid gid inode op result : pcache_ok L c ->
  let kept := take (Z.to_nat (pc_max c - 1)) (decisions c) in
  exists c', policy_cache_insert now uid gid inode op result c = Some c' /\ pcache_ok L c' /\ same_policy c c' /\
    (decisions c' = kept \/
     decisions c' = mkPolicy (policy_cache_hash uid gid inode op) inode uid gid op result (u64 (now + default_ttl c)) :: kept).
Proof.
  intros Hok kept. unfold policy_cache_insert.
  destruct (policy_evict_spec L c (S (length (lru (pc_ix c)))) Hok ltac:(lia)) as (c1 & -> & Hok1 & Hs1 & Hlt & Ec1).
  fold kept in Ec1. pose proof Hok1 as [[t Ht] Hhash Hheap Hown Hoth Hcnt Hmax].
  pose proof (oh_zalloc_spec _ _ sizeof_policy_entry Hheap ltac:(done)) as Hz.
  destruct (oh_zalloc sizeof_policy_entry (pc_heap c1)) as [e h1]. destruct Hz as [[-> Hz]|(He0 & Hem & Hen & Hz)].
  { eexists. split; [done|]. split; [by destruct Hok1; split|]. split; [done|by left]. }
  rewrite (proj2 (Z.eqb_neq e 0)) by lia. apply held_cons in Hz.
  rewrite not_elem_of_union, not_elem_of_list_to_set, not_elem_of_cons in Hen. destruct Hen as (HeL & Hes & Hel).
  set (en := mkPolicy _ _ _ _ _ _ _).
  destruct (add_ok _ _ _ _ Ht e en Hel (policy_node_aligned e He0 Hem)) as (x & t' & -> & Hx & Elru & Eent).
  eexists. split; [done|]. destruct Hs1 as (S1 & S2 & S3 & S4 & S5). split; [|split; [done|right]].
  - assert (Hp : pc_self c1 :: e :: lru (pc_ix c1) ≡ₚ e :: pc_self c1 :: lru (pc_ix c1)) by apply perm_swap.
    split.
    + by exists t'.
    + cbn. intros y eny. rewrite Eent. intros [[<- <-]|[_ Hy]]%lookup_insert_Some; [done|by apply (Hhash y)].
    + change (oh_ok h1 (L ∪ list_to_set (pc_self c1 :: lru x))). rewrite Elru. by apply (held_perm _ _ _ _ (symmetry Hp)).
    + cbn. rewrite Elru, Hp. apply NoDup_cons. split; [set_solver|done].
    + cbn [pc_self pc_ix pc_with_heap pc_with_ix]. rewrite Elru. intros p. rewrite Hp. intros [->|Hq]%elem_of_cons; [done|by apply Hoth].
    + cbn. rewrite Elru, Hcnt. cbn. unfold u64. rewrite Z.mod_small; lia.
    + cbn. unfold u64. rewrite Z.mod_small; lia.
  - unfold decisions. cbn. rewrite Elru. cbn. rewrite Eent, lookup_insert_eq. cbn. f_equal; [by subst en; rewrite S3|].
    rewrite <- Ec1. apply omap_ext_in. intros y Hy. apply lookup_insert_ne. by intros ->.
Qed.

(** *** Invalidation and flushing *)

Lemma invalidate_loop L inode l c l0 : pcache_ok L c -> lru (pc_ix c) = l0 ++ l ->
  Forall (fun e => forall en, entries (pc_ix c) !! e = Some en -> pe_inode en <> inode) l0 ->
  exists c', fold_left (invalidate_entry inode) l (Some c) = Some c' /\ pcache_ok L c' /\ same_policy c c' /\
    decisions c' = filter (fun en => pe_inode en <> inode) (decisions c).
Proof.
  revert c l0. induction l as [|e l IH]; intros c l0 Hok El Hl0; cbn [fold_left].
  - exists c. split; [done|]. split; [done|]. split; [done|]. symmetry. rewrite app_nil_r in El.
    apply list_filter_all. intros en (e & He & Hen)%(decisions_in L); [|done]. rewrite El in He.
    rewrite Forall_forall in Hl0. by apply (Hl0 e He).
  - destruct (pentry_some _ _ e Hok) as [en Hen]; [rewrite El; set_solver|]. unfold invalidate_entry at 2. rewrite Hen.
    destruct (Z.eqb_spec (pe_inode en) inode) as [Hi|Hi].
    + destruct (policy_drop_spec L c e l0 l Hok El) as (c1 & -> & Hok1 & El1 & Een1 & Ec1 & Hs1).
      destruct (IH c1 l0 Hok1 El1) as (c' & E' & Hok' & Hs' & Ec').
      { eapply Forall_impl; [exact Hl0|]. intros y Hy eny. rewrite Een1. intros [_ ?]%lookup_delete_Some. by apply Hy. }
      exists c'. split; [done|]. split; [done|]. split; [unfold same_policy in *; naive_solver congruence|].
      rewrite Ec', Ec1. unfold decisions. rewrite El, !omap_app, !filter_app. cbn. rewrite Hen.
      by rewrite filter_cons_False by (intros Hn; by apply Hn).
    + apply (IH c (l0 ++ [e]) Hok); [by rewrite <- app_assoc|]. apply Forall_app. split; [done|].
      constructor; [|constructor]. intros en' Hen'. congruence.
Qed.

Lemma flush_loop L l c : owns L c -> lru (pc_ix c) = l ->
  exists c', fold_left flush_entry l (Some c) = Some c' /\ owns L c' /\ lru (pc_ix c') = [] /\ entries (pc_ix c') = ∅ /\ same_policy c c'.
Proof.
  revert c. induction l as [|e l IH]; intros c Hok El; cbn [fold_left].
  - exists c. split; [done|]. split; [done|]. split; [done|]. split; [|done]. destruct Hok as ([t Ht] & _).
    apply map_empty. intros e. apply eq_None_not_Some. intros He. apply (ix_entries _ _ _ _ Ht) in He. rewrite El in He. by apply elem_of_nil in He.
  - unfold flush_entry at 2. destruct (drop_index L c e [] l Hok El) as (x & t' & -> & Hx & Elru & Eent & _ & Hh & Hnd & Hoth).
    edestruct (IH (pc_with_heap (oh_free e (pc_heap c)) (pc_with_ix x (pc_count c) c))) as (c' & E' & Hok' & El' & Ee' & Hs'); [|done|].
    + split; [by exists t'|]. cbn [pc_heap pc_with_heap pc_self pc_with_ix pc_ix] in *. by rewrite Elru.
    + exists c'. split; [exact E'|]. by split_and!.
Qed.

Lemma index_root_0 (x : index policy_cache_entry) t : index_ok policy_node pe_hash x t -> lru x = [] ->
  mkIndex (with_root 0 (tree_mem x)) (lru x) (entries x) = x.
Proof.
  intros Ht El. pose proof (ix_lru _ _ _ _ Ht) as Hp. rewrite El in Hp. apply Permutation_nil_r in Hp.
  pose proof (ta_root _ _ _ (ix_tree _ _ _ _ Ht)) as Hr. destruct t as [|? ? ? ?]; [|by destruct (app_cons_not_nil _ _ _ (eq_sym Hp))].
  destruct x as [[n r] l es]. cbn in *. by rewrite Hr.
Qed.

Lemma policy_flush_spec L c : pcache_ok L c ->
  exists c', policy_cache_flush c = Some c' /\ pcache_ok L c' /\ same_policy c c' /\ decisions c' = [].
Proof.
  intros Hok. unfold policy_cache_flush.
  destruct (flush_loop L _ c (pcache_owns _ _ Hok) eq_refl) as (c' & -> & ([t Ht] & Hh & Hnd & Hoth) & El & Ee & Hs).
  eexists. split; [done|]. destruct Hs as (S1 & S2 & S3 & S4 & S5). destruct (pco_max _ _ Hok).
  split; [|split; [done|unfold decisions; cbn; by rewrite El]].
  split; try done.
  - exists t. cbn. by rewrite (index_root_0 _ t).
  - cbn. intros e en. rewrite Ee. done.
  - cbn. by rewrite El.
  - cbn. lia.
Qed.

(** *** Creation and destruction *)

Lemma policy_create_spec L (h : H) max ttl : oh_ok h L -> 0 < max < 2 ^ 64 ->
  let '(r, h') := policy_cache_create max ttl h in
  r = None /\ oh_ok h' L \/
  exists c, r = Some c /\ pc_heap c = h' /\ pcache_ok L c /\ decisions c = [] /\ pc_max c = max /\ default_ttl c = ttl.
Proof.
  intros Hh Hmax. unfold policy_cache_create. pose proof (oh_zalloc_spec _ _ sizeof_policy_cache Hh ltac:(done)) as Hz.
  destruct (oh_zalloc sizeof_policy_cache h) as [p h']. destruct Hz as [[-> Hz]|(Hp & _ & HpL & Hz)]; [by left|].
  rewrite (proj2 (Z.eqb_neq p 0)) by lia. right. eexists. split; [done|]. split; [done|]. split; [|done].
  split; try done.
  - exists Leaf. apply index_empty_ok.
  - apply (held_cons h' L p []). by rewrite list_to_set_nil, union_empty_r_L.
  - apply NoDup_singleton.
  - by intros q ->%list_elem_of_singleton.
  - cbn. lia.
Qed.

Lemma policy_destroy_spec L c : pcache_ok L c -> oh_ok (policy_cache_destroy c) L.
Proof.
  intros (_ & Hheap & Hown & Hoth)%pcache_owns. unfold policy_cache_destroy. revert Hheap Hown Hoth.
  generalize (lru (pc_ix c)) (pc_heap c) (pc_self c). intros l.
  induction l as [|e l IH]; intros h a Hh Hnd HL; cbn [fold_left].
  - replace L with (L ∪ list_to_set []) by (cbn; by rewrite union_empty_r_L).
    apply held_free; [done|apply HL; set_solver|apply not_elem_of_nil].
  - rewrite (perm_swap e a l) in Hnd. apply NoDup_cons in Hnd as [H1 H2].
    apply IH; [|done|intros p Hp; apply HL; set_solver].
    apply held_free; [apply (held_perm _ _ _ _ (perm_swap _ _ _) Hh)|apply HL; set_solver|done].
Qed.

(** ** Theorems *)

(** C27. The policy cache is a bounded store of decisions in the order of their
    use, and answers a request only with a decision that was stored for it.
    [policy_cache_lookup] returns the result of an unexpired decision for this
    user, group, inode and operation and makes it the most recent, or -1; it can
    miss only when no decision for the request is cached or when the hash of the
    request is shared with a decision that does not answer it.
    [policy_cache_insert] drops the least recent decision of a full cache and
    puts the new one in front; [policy_cache_invalidate] removes exactly the
    decisions about an inode, and [policy_cache_flush] all.  No operation
    faults, and the cache stays consistent. *)
Theorem policy_cache_refines_lru L c now uid gid inode op result (Hok : pcache_ok L c) :
  (exists r c', policy_cache_lookup now uid gid inode op c = Some (r, c') /\ pcache_ok L c' /\
    (r = -1 /\ decisions c' = decisions c /\
      (forall en, en ∈ decisions c -> valid now uid gid inode op en ->
        exists en', en' ∈ decisions c /\ pe_hash en' = pe_hash en /\ ~ valid now uid gid inode op en') \/
     exists l1 en l2, decisions c = l1 ++ en :: l2 /\ valid now uid gid inode op en /\ r = pe_result en /\
       decisions c' = en :: l1 ++ l2)) /\
  (exists c', policy_cache_insert now uid gid inode op result c = Some c' /\ pcache_ok L c' /\
    let kept := take (Z.to_nat (pc_max c - 1)) (decisions c) in
    (decisions c' = kept \/
     decisions c' = mkPolicy (policy_cache_hash uid gid inode op) inode uid gid op result (u64 (now + default_ttl c)) :: kept)) /\
  (exists c', policy_cache_invalidate inode c = Some c' /\ pcache_ok L c' /\
    decisions c' = filter (fun en => pe_inode en <> inode) (decisions c)) /\
  (exists c', policy_cache_flush c = Some c' /\ pcache_ok L c' /\ decisions c' = []).
Proof.
  split_and!.
  - destruct (lookup_spec L c now uid gid inode op Hok) as (r & c' & E & Hok' & _ & _ & Hr). exists r, c'.
    split; [done|]. split; [done|]. destruct Hr as [(-> & Ed & _ & Hm)|Hr]; [left|right; naive_solver].
    split; [done|]. split; [done|]. intros en Hen [Hv _]. pose proof Hen as (e & He & Hee)%(decisions_in L); [|done].
    pose proof (pco_hash _ _ Hok _ _ Hee) as Hh. unfold entry_is in Hv.
    assert (Hq : pe_hash en = policy_cache_hash uid gid inode op) by (rewrite Hh; f_equal; lia).
    rewrite Hq. by apply (Hm en).
  - destruct (policy_insert_spec L c now uid gid inode op result Hok) as (c' & E & Hok' & _ & Hr). by exists c'.
  - destruct (invalidate_loop L inode (lru (pc_ix c)) c [] Hok eq_refl ltac:(constructor)) as (c' & E & Hok' & _ & Hr). by exists c'.
  - destruct (policy_flush_spec L c Hok) as (c' & E & Hok' & _ & Hr). by exists c'.
Qed.

(** A decision that was just stored is found until it expires, when nothing else
    in the cache shares its hash. *)
Theorem policy_cache_insert_lookup L c now uid gid inode op result (Hok : pcache_ok L c)
    (Hfresh : forall en, en ∈ decisions c -> pe_hash en <> policy_cache_hash uid gid inode op) :
  exists c', policy_cache_insert now uid gid inode op result c = Some c' /\
    (decisions c' = take (Z.to_nat (pc_max c - 1)) (decisions c) \/
     forall later, later < u64 (now + default_ttl c) ->
       exists c'', policy_cache_lookup later uid gid inode op c' = Some (result, c'')).
Proof.
  destruct (policy_insert_spec L c now uid gid inode op result Hok) as (c' & E & Hok' & _ & Hr). exists c'. split; [done|].
  destruct Hr as [Hr|Hr]; [by left|right]. intros later Hl.
  set (en0 := mkPolicy _ _ _ _ _ _ _) in Hr.
  assert (Hv0 : valid later uid gid inode op en0) by (split; [unfold entry_is; cbn; by rewrite !Z.eqb_refl|done]).
  assert (Hone : forall en, en ∈ decisions c' -> pe_hash en = policy_cache_hash uid gid inode op -> en = en0).
  { intros en. rewrite Hr. intros [->|Hin]%elem_of_cons Hh; [done|]. apply elem_of_take in Hin as (i & Hin & _).
    destruct (Hfresh en); [by eapply list_elem_of_lookup_2|done]. }
  destruct (lookup_spec L c' later uid gid inode op Hok') as (r & c'' & E' & _ & _ & _ & [(-> & _ & _ & Hm)|Hx]).
  - destruct (Hm en0) as (en' & Hin & Hh & Hn); [rewrite Hr; by left|done|].
    rewrite (Hone en' Hin Hh) in Hn. done.
  - destruct Hx as (l1 & en & l2 & Ed & [Hv Hlt] & -> & _). exists c''. rewrite E'. do 2 f_equal.
    assert (Hin : en ∈ decisions c') by (rewrite Ed; set_solver).
    pose proof Hin as (e & He & Hee)%(decisions_in L); [|done]. pose proof (pco_hash _ _ Hok' _ _ Hee) as Hh.
    unfold entry_is in Hv. rewrite (Hone en Hin); [done|]. rewrite Hh. f_equal; lia.
Qed.
End Props.

(** ** A cache on the heap of the kernel *)

From S2P Require Import Pmm Kmalloc KmallocHeap KmallocProps.

(** A new cache for four decisions, each valid for 50 ticks. *)
Definition policy_0 : policy_cache (heap pmm) :=
  match policy_cache_create 4 50 heap_512 with
  | (Some c, _) => c
  | (None, h) => mkPolicyCache 0 index_empty 0 4 50 0 0 h
  end.

Definition after_insert (now uid gid inode op result : Z) (c : policy_cache (heap pmm)) : policy_cache (heap pmm) :=
  match policy_cache_insert now uid gid inode op result c with Some c => c | None => c end.

Definition answer (now uid gid inode op : Z) (c : policy_cache (heap pmm)) : option Z :=
  fst <$> policy_cache_lookup now uid gid inode op c.

Lemma policy_0_ok : pcache_ok ∅ policy_0 /\ decisions policy_0 = [] /\ default_ttl policy_0 = 50.
Proof.
  pose proof (policy_create_spec ∅ heap_512 4 50 heap_512_holds ltac:(lia)) as Hc. unfold policy_0.
  assert (E : match (policy_cache_create 4 50 heap_512).1 with Some _ => true | None => false end = true)
    by (vm_compute; reflexivity).
  destruct (policy_cache_create 4 50 heap_512) as [r h']. destruct Hc as [[-> _]|(c & -> & _ & Hok & ? & _ & ?)]; done.
Qed.

(** A decision that expired stays in the tree and hides the one that replaces
    it: the answer of the daemon is stored again at time 60, valid until 110, and
    the lookup at time 61 misses. *)
Lemma policy_cache_expired_shadows :
  let c := after_insert 60 1000 100 42 1 0 (after_insert 0 1000 100 42 1 0 policy_0) in
  map pe_expiry (decisions c) = [110; 50] /\ answer 40 1000 100 42 1 (after_insert 0 1000 100 42 1 0 policy_0) = Some 0 /\
  answer 61 1000 100 42 1 c = Some (-1).
Proof. vm_compute. done. Qed.

(** Three requests with the hash of (1, 0, 0, 0).  The tree is balanced when the
    third arrives, the first one moves to the left of its equal, and the search,
    which goes right on a collision, no longer finds it. *)
Lemma policy_cache_collision_misses :
  let c := after_insert 0 1 0 0 0 0 policy_0 in
  let c := after_insert 0 0 31 0 0 0 c in
  let c' := after_insert 0 0 0 961 0 0 c in
  policy_cache_hash 1 0 0 0 = policy_cache_hash 0 31 0 0 /\ policy_cache_hash 1 0 0 0 = policy_cache_hash 0 0 961 0 /\
  answer 1 1 0 0 0 c = Some 0 /\ answer 1 1 0 0 0 c' = Some (-1) /\ length (decisions c') = 3%nat.
Proof. vm_compute. done. Qed.

Lemma policy_cache_refines_lru_witness :
  exists c', policy_cache_flush policy_0 = Some c' /\ pcache_ok ∅ c' /\ decisions c' = [].
Proof. apply (policy_cache_refines_lru ∅ policy_0 0 0 0 0 0 0 (proj1 policy_0_ok)). Defined.

Lemma policy_cache_insert_lookup_witness :
  exists c'', policy_cache_lookup 7 1000 100 42 1 (after_insert 0 1000 100 42 1 0 policy_0) = Some (0, c'').
Proof.
  destruct (policy_cache_insert_lookup ∅ policy_0 0 1000 100 42 1 0 (proj1 policy_0_ok)) as (c' & E & [Hd|Hl]).
  - intros en. destruct policy_0_ok as (_ & -> & _). by intros ?%elem_of_nil.
  - exfalso. assert (Hn : length (decisions (after_insert 0 1000 100 42 1 0 policy_0)) = 1%nat) by (vm_compute; reflexivity).
    unfold after_insert in Hn. destruct policy_0_ok as (_ & E0 & _). rewrite E, Hd, E0, take_nil in Hn. discriminate Hn.
  - unfold after_insert. rewrite E. apply Hl. destruct policy_0_ok as (_ & _ & E0). rewrite E0. reflexivity.
Defined.
