(* ===== verification/Sched.v ===== *)
(** * Process scheduler (kernel/proc/scheduler.c)

    The run queue has one FIFO per priority, a bitmap of the non-empty ones and
    a counter; the round-robin policy works on it and the core functions call
    the policy through its table of operations.  Processes are objects of a
    store indexed by their address.  A process has one [run_list] and one
    [sleep_list] node, so the intrusive lists are lists of addresses and being
    linked is being on one of them.  The register and address-space switch at
    the end of [schedule] is hardware state and is not modelled. *)

From S2P Require Import Prelude Bitmap.

(** ** State *)

Inductive process_state_t :=
  | PROC_STATE_CREATED | PROC_STATE_READY | PROC_STATE_RUNNING | PROC_STATE_BLOCKED
  | PROC_STATE_SLEEPING | PROC_STATE_ZOMBIE | PROC_STATE_DEAD.

#[global] Instance process_state_eq_dec : EqDecision process_state_t.
Proof. solve_decision. Defined.

Abbreviation PROC_FLAG_KERNEL := 1%Z (only parsing).
Abbreviation PROC_FLAG_EXITING := 8%Z (only parsing).
Abbreviation TIF_NEED_RESCHED := 1%Z (only parsing).

Abbreviation MAX_NICE := 19%Z (only parsing).
Abbreviation MIN_NICE := (-20)%Z (only parsing).
Abbreviation NICE_WIDTH := 40%Z (only parsing).
Abbreviation MAX_RT_PRIO := 100%Z (only parsing).
Abbreviation MAX_PRIO := (MAX_RT_PRIO + NICE_WIDTH)%Z (only parsing).
Abbreviation DEFAULT_PRIO := (MAX_RT_PRIO + NICE_WIDTH / 2)%Z (only parsing).
Abbreviation MIN_TIMESLICE := 1%Z (only parsing).
Abbreviation DEF_TIMESLICE := 10%Z (only parsing).
Abbreviation MAX_TIMESLICE := 100%Z (only parsing).
Abbreviation MAX_SCHED_POLICIES := 8%Z (only parsing).
Abbreviation HZ := 250%Z (only parsing).
Abbreviation TICK_MS := (1000 / HZ)%Z (only parsing).

(** The fields of [struct process] the scheduler reads or writes. *)
Record proc := Proc {
  state : process_state_t;
  flags : Z;
  priority : Z;
  nice : Z;
  time_slice : Z;
  policy : Z;
  runtime : Z;
  last_run : Z;
  utime : Z;
  stime : Z;
  wakeup_tick : Z
}.

(** [runqueue], [sleep_queue], [scheduler_ti] and the switch counter; pointers
    to processes are [option Z]. *)
Record sched := Sched {
  procs : gmap Z proc;
  queues : list (list Z);
  prio_bitmap : list Z;
  nr_running : Z;
  nr_switches : Z;
  curr : option Z;
  idle : option Z;
  clock : Z;
  sleep_queue : list Z;
  ti_flags : Z;
  ti_process : option Z;
  total_switches : Z
}.

Definition proc_null : proc := Proc PROC_STATE_CREATED 0 0 0 0 0 0 0 0 0 0.

Definition pget (s : sched) (p : Z) : proc := default proc_null (procs s !! p).

(** ** Field updates *)

Definition with_procs (ps : gmap Z proc) (s : sched) : sched :=
  Sched ps (queues s) (prio_bitmap s) (nr_running s) (nr_switches s) (curr s) (idle s)
        (clock s) (sleep_queue s) (ti_flags s) (ti_process s) (total_switches s).

Definition with_queues (qs : list (list Z)) (s : sched) : sched :=
  Sched (procs s) qs (prio_bitmap s) (nr_running s) (nr_switches s) (curr s) (idle s)
        (clock s) (sleep_queue s) (ti_flags s) (ti_process s) (total_switches s).

Definition with_bitmap (b : list Z) (s : sched) : sched :=
  Sched (procs s) (queues s) b (nr_running s) (nr_switches s) (curr s) (idle s)
        (clock s) (sleep_queue s) (ti_flags s) (ti_process s) (total_switches s).

Definition with_nr_running (n : Z) (s : sched) : sched :=
  Sched (procs s) (queues s) (prio_bitmap s) n (nr_switches s) (curr s) (idle s)
        (clock s) (sleep_queue s) (ti_flags s) (ti_process s) (total_switches s).

Definition with_switches (n t : Z) (s : sched) : sched :=
  Sched (procs s) (queues s) (prio_bitmap s) (nr_running s) n (curr s) (idle s)
        (clock s) (sleep_queue s) (ti_flags s) (ti_process s) t.

Definition with_curr (c : option Z) (s : sched) : sched :=
  Sched (procs s) (queues s) (prio_bitmap s) (nr_running s) (nr_switches s) c (idle s)
        (clock s) (sleep_queue s) (ti_flags s) c (total_switches s).

Definition with_clock (n : Z) (s : sched) : sched :=
  Sched (procs s) (queues s) (prio_bitmap s) (nr_running s) (nr_switches s) (curr s) (idle s)
        n (sleep_queue s) (ti_flags s) (ti_process s) (total_switches s).

Definition with_sleep_queue (q : list Z) (s : sched) : sched :=
  Sched (procs s) (queues s) (prio_bitmap s) (nr_running s) (nr_switches s) (curr s) (idle s)
        (clock s) q (ti_flags s) (ti_process s) (total_switches s).

Definition with_ti_flags (f : Z) (s : sched) : sched :=
  Sched (procs s) (queues s) (prio_bitmap s) (nr_running s) (nr_switches s) (curr s) (idle s)
        (clock s) (sleep_queue s) f (ti_process s) (total_switches s).

Definition set_state (x : process_state_t) (p : proc) : proc :=
  Proc x (flags p) (priority p) (nice p) (time_slice p) (policy p) (runtime p) (last_run p)
       (utime p) (stime p) (wakeup_tick p).

Definition set_flags (x : Z) (p : proc) : proc :=
  Proc (state p) x (priority p) (nice p) (time_slice p) (policy p) (runtime p) (last_run p)
       (utime p) (stime p) (wakeup_tick p).

Definition set_prio (x : Z) (p : proc) : proc :=
  Proc (state p) (flags p) x (nice p) (time_slice p) (policy p) (runtime p) (last_run p)
       (utime p) (stime p) (wakeup_tick p).

Definition set_nice (x : Z) (p : proc) : proc :=
  Proc (state p) (flags p) (priority p) x (time_slice p) (policy p) (runtime p) (last_run p)
       (utime p) (stime p) (wakeup_tick p).

Definition set_slice (x : Z) (p : proc) : proc :=
  Proc (state p) (flags p) (priority p) (nice p) x (policy p) (runtime p) (last_run p)
       (utime p) (stime p) (wakeup_tick p).

Definition set_policy (x : Z) (p : proc) : proc :=
  Proc (state p) (flags p) (priority p) (nice p) (time_slice p) x (runtime p) (last_run p)
       (utime p) (stime p) (wakeup_tick p).

Definition set_last_run (x : Z) (p : proc) : proc :=
  Proc (state p) (flags p) (priority p) (nice p) (time_slice p) (policy p) (runtime p) x
       (utime p) (stime p) (wakeup_tick p).

Definition set_times (rt ut st : Z) (p : proc) : proc :=
  Proc (state p) (flags p) (priority p) (nice p) (time_slice p) (policy p) rt (last_run p)
       ut st (wakeup_tick p).

Definition set_wakeup (x : Z) (p : proc) : proc :=
  Proc (state p) (flags p) (priority p) (nice p) (time_slice p) (policy p) (runtime p)
       (last_run p) (utime p) (stime p) x.

Definition upd (p : Z) (f : proc -> proc) (s : sched) : sched :=
  with_procs (alter f p (procs s)) s.

(** ** Lists *)

Definition queue (s : sched) (prio : Z) : list Z := default [] (queues s !! Z.to_nat prio).

Definition run_list_linked (s : sched) (p : Z) : bool := bool_decide (p ∈ concat (queues s)).

Definition sleep_list_linked (s : sched) (p : Z) : bool := bool_decide (p ∈ sleep_queue s).

(** [list_del(&p->run_list); INIT_LIST_HEAD(&p->run_list)]. *)
Definition run_list_del (p : Z) (s : sched) : sched :=
  with_queues (filter (fun x => x <> p) <$> queues s) s.

Definition sleep_list_del (p : Z) (s : sched) : sched :=
  with_sleep_queue (filter (fun x => x <> p) (sleep_queue s)) s.

Definition process_schedulable (pr : proc) : bool :=
  if bool_decide (state pr = PROC_STATE_ZOMBIE) || bool_decide (state pr = PROC_STATE_DEAD)
  then false
  else if flagb (flags pr) PROC_FLAG_EXITING then false else true.

(** ** Round-robin policy *)

Definition clamp_prio (prio : Z) : Z :=
  let prio := if prio <? 0 then 0 else prio in
  if prio >=? MAX_PRIO then MAX_PRIO - 1 else prio.

Definition rr_enqueue (s : sched) (p : Z) : sched :=
  let prio := clamp_prio (priority (pget s p)) in
  if run_list_linked s p then s else
  let s := with_queues (alter (fun q => q ++ [p]) (Z.to_nat prio) (queues s)) s in
  let s := with_bitmap (aset (prio_bitmap s) (prio / 64)
             (Z.lor (aget (prio_bitmap s) (prio / 64)) (Z.shiftl 1 (prio mod 64)))) s in
  with_nr_running (u64 (nr_running s + 1)) s.

Definition rr_dequeue (s : sched) (p : Z) : sched :=
  let prio := priority (pget s p) in
  if negb (run_list_linked s p) then s else
  let s := run_list_del p s in
  let s := match queue s prio with
           | [] => with_bitmap (aset (prio_bitmap s) (prio / 64)
                     (Z.land (aget (prio_bitmap s) (prio / 64))
                             (u64 (Z.lnot (Z.shiftl 1 (prio mod 64)))))) s
           | _ => s
           end in
  if nr_running s >? 0 then with_nr_running (nr_running s - 1) s else s.

(** [__builtin_ctzll] of the compiler, on a non-zero word. *)
Definition builtin_ctzll (x : Z) : Z := match x with Zpos p => pos_ctz p | _ => 0 end.

(** The inner loop over the bits of word [w]: [Some] is the return of the
    function.  Every iteration clears a bit, so 64 are enough. *)
Fixpoint rr_pick_bits (fuel : nat) (w bits : Z) (s : sched) : option Z * sched :=
  match fuel with
  | O => (None, s)
  | S fuel' =>
    if bits =? 0 then (None, s) else
    let b := builtin_ctzll bits in
    let prio := w * 64 + b in
    if prio >=? MAX_PRIO then (None, s) else
    match queue s prio with
    | p :: _ => (Some p, s)
    | [] =>
      let mask := u64 (Z.lnot (Z.shiftl 1 b)) in
      rr_pick_bits fuel' w (Z.land bits mask)
        (with_bitmap (aset (prio_bitmap s) w (Z.land (aget (prio_bitmap s) w) mask)) s)
    end
  end.

Fixpoint rr_pick_words (n : nat) (w : Z) (s : sched) : option Z * sched :=
  match n with
  | O => (idle s, s)
  | S n' =>
    match rr_pick_bits 64 w (aget (prio_bitmap s) w) s with
    | (Some p, s) => (Some p, s)
    | (None, s) => rr_pick_words n' (w + 1) s
    end
  end.

Definition rr_pick_next (s : sched) : option Z * sched :=
  rr_pick_words (Z.to_nat (MAX_PRIO / 64 + 1)) 0 s.

Definition rr_time_slice (pr : proc) : Z :=
  let slice :=
    if nice pr <? 0 then DEF_TIMESLICE + (- nice pr * 2)
    else if nice pr >? 0 then DEF_TIMESLICE - Z.quot (nice pr) 2
    else DEF_TIMESLICE in
  let slice := if slice <? MIN_TIMESLICE then MIN_TIMESLICE else slice in
  if slice >? MAX_TIMESLICE then MAX_TIMESLICE else slice.

Definition rr_yield (s : sched) (p : Z) : sched :=
  if bool_decide (Some p = idle s) then s
  else rr_enqueue (upd p (set_slice DEF_TIMESLICE) (rr_dequeue s p)) p.

Definition rr_tick (s : sched) (p : Z) : sched :=
  if bool_decide (Some p = idle s) then s else
  let s := upd p (fun pr => set_slice (s32 (time_slice pr - 1)) pr) s in
  if time_slice (pget s p) <=? 0 then
    if nr_running s >? 0 then with_ti_flags (Z.lor (ti_flags s) TIF_NEED_RESCHED) s
    else upd p (fun pr => set_slice (rr_time_slice pr) pr) s
  else s.

Definition rr_set_priority (s : sched) (p prio : Z) : sched :=
  let prio := clamp_prio prio in
  if bool_decide (state (pget s p) = PROC_STATE_READY) ||
     bool_decide (state (pget s p) = PROC_STATE_RUNNING)
  then rr_enqueue (upd p (set_prio prio) (rr_dequeue s p)) p
  else upd p (set_prio prio) s.

(** [struct sched_policy_ops]; the operations without effect ([init]) and the
    name are left out. *)
Record sched_policy_ops := PolicyOps {
  op_enqueue : sched -> Z -> sched;
  op_dequeue : sched -> Z -> sched;
  op_pick_next : sched -> option Z * sched;
  op_yield : sched -> Z -> sched;
  op_tick : sched -> Z -> sched;
  op_time_slice : proc -> Z;
  op_set_priority : sched -> Z -> Z -> sched
}.

Definition rr_policy : sched_policy_ops :=
  PolicyOps rr_enqueue rr_dequeue rr_pick_next rr_yield rr_tick rr_time_slice rr_set_priority.

(** ** Core

    [ops] is [current_policy]; it is set by [scheduler_init] to a table with
    every operation, so the [policy_ready] guards hold.  [now] is the value of
    [get_ticks()]. *)

Section core.
Context (ops : sched_policy_ops).

Definition scheduler_enqueue (s : sched) (p : Z) : sched :=
  if bool_decide (Some p = idle s) then s else
  if negb (process_schedulable (pget s p)) then s else
  let s := if sleep_list_linked s p then upd p (set_wakeup 0) (sleep_list_del p s) else s in
  let s := upd p (set_state PROC_STATE_READY) s in
  let s := upd p (set_slice (op_time_slice ops (pget s p))) s in
  op_enqueue ops s p.

Definition scheduler_dequeue (s : sched) (p : Z) : sched :=
  if bool_decide (Some p = idle s) then s else op_dequeue ops s p.

(** Parking the running process back in the run queue. *)
Definition park_prev (s : sched) : sched :=
  match curr s with
  | Some prev =>
    if negb (bool_decide (Some prev = idle s)) &&
       bool_decide (state (pget s prev) = PROC_STATE_RUNNING) &&
       process_schedulable (pget s prev)
    then op_enqueue ops (upd prev (set_state PROC_STATE_READY) s) prev
    else s
  | None => s
  end.

(** The choice of the next process, from the one the policy picked. *)
Definition choose (s : sched) (picked : option Z) : option Z :=
  match picked with
  | None => idle s
  | Some n =>
    if negb (bool_decide (Some n = idle s)) && negb (process_schedulable (pget s n))
    then idle s else Some n
  end.

(** Taking the chosen process from the run queue and marking it running. *)
Definition dispatch (now : Z) (s : sched) (next : option Z) : sched :=
  match next with
  | None => s
  | Some n =>
    let s := if negb (bool_decide (Some n = idle s)) &&
                bool_decide (state (pget s n) = PROC_STATE_READY)
             then op_dequeue ops s n else s in
    let s := if time_slice (pget s n) <=? 0
             then upd n (set_slice (op_time_slice ops (pget s n))) s else s in
    upd n (fun pr => set_last_run now (set_state PROC_STATE_RUNNING pr)) s
  end.

Definition schedule (now : Z) (s : sched) : sched :=
  let prev := curr s in
  let s := park_prev s in
  let '(picked, s) := op_pick_next ops s in
  let next := choose s picked in
  let s := dispatch now s next in
  let s := with_curr next s in
  let s := with_ti_flags (Z.land (ti_flags s) (u32 (Z.lnot TIF_NEED_RESCHED))) s in
  if bool_decide (next = prev) then s
  else with_switches (u64 (nr_switches s + 1)) (u64 (total_switches s + 1)) s.

Definition scheduler_yield (now : Z) (s : sched) : sched := schedule now s.

(** One step of the walk over the sleep queue. *)
Definition wake_sleeper (s : sched) (sp : Z) : sched :=
  if bool_decide (state (pget s sp) = PROC_STATE_SLEEPING) &&
     (wakeup_tick (pget s sp) <=? clock s)
  then scheduler_enqueue (upd sp (set_wakeup 0) (sleep_list_del sp s)) sp
  else s.

Definition scheduler_tick (s : sched) : sched :=
  let s :=
    match curr s with
    | None => s
    | Some p =>
      let s := upd p (fun pr =>
        let kernel := flagb (flags pr) PROC_FLAG_KERNEL in
        set_times (u64 (runtime pr + TICK_MS))
          (if kernel then utime pr else u64 (utime pr + 1))
          (if kernel then u64 (stime pr + 1) else stime pr) pr) s in
      op_tick ops s p
    end in
  let s := with_clock (u64 (clock s + TICK_MS)) s in
  fold_left wake_sleeper (sleep_queue s) s.

(** [None] is the panic of the code: no current process, or [schedule]
    returning to the process that exits. *)
Definition scheduler_exit (now : Z) (s : sched) : option sched :=
  match curr s with
  | None => None
  | Some p =>
    let s := schedule now (upd p (fun pr =>
      set_state PROC_STATE_ZOMBIE (set_flags (Z.lor (flags pr) PROC_FLAG_EXITING) pr)) s) in
    if bool_decide (curr s = Some p) then None else Some s
  end.

Definition scheduler_sleep (now : Z) (s : sched) (p : Z) : sched :=
  let s := upd p (set_state PROC_STATE_BLOCKED) s in
  let s := if run_list_linked s p then scheduler_dequeue s p else s in
  let s := if sleep_list_linked s p then sleep_list_del p s else s in
  let s := upd p (set_wakeup 0) s in
  schedule now s.

Definition scheduler_wake (s : sched) (p : Z) : sched :=
  if bool_decide (state (pget s p) = PROC_STATE_BLOCKED) ||
     bool_decide (state (pget s p) = PROC_STATE_SLEEPING)
  then
    let s := if sleep_list_linked s p then upd p (set_wakeup 0) (sleep_list_del p s) else s in
    let s := scheduler_enqueue s p in
    if bool_decide (curr s = idle s) ||
       match curr s with
       | Some c => priority (pget s p) <? priority (pget s c)
       | None => false
       end
    then with_ti_flags (Z.lor (ti_flags s) TIF_NEED_RESCHED) s else s
  else s.

Definition scheduler_sleep_timeout (now : Z) (s : sched) (p timeout_ms : Z) : sched :=
  let s := upd p (set_state PROC_STATE_SLEEPING) s in
  let s := if run_list_linked s p then scheduler_dequeue s p else s in
  let s := if sleep_list_linked s p then sleep_list_del p s else s in
  let s := upd p (set_wakeup (u64 (clock s + timeout_ms))) s in
  let s := with_sleep_queue (sleep_queue s ++ [p]) s in
  schedule now s.

Definition scheduler_set_priority (s : sched) (p prio : Z) : sched :=
  op_set_priority ops s p prio.

Definition scheduler_set_nice (s : sched) (p n : Z) : sched :=
  let n := if n <? MIN_NICE then MIN_NICE else n in
  let n := if n >? MAX_NICE then MAX_NICE else n in
  let s := upd p (set_nice n) s in
  scheduler_set_priority s p (DEFAULT_PRIO + n).

(** The timer interrupt: a tick, then a reschedule when one was requested. *)
Definition timer_handler (now : Z) (s : sched) : sched :=
  let s := scheduler_tick s in
  if flagb (ti_flags s) TIF_NEED_RESCHED then schedule now s else s.
End core.

(** [scheduler_init]: the run queue before the first process. *)
Definition scheduler_init (ps : gmap Z proc) (idle_process : option Z) : sched :=
  Sched ps (replicate (Z.to_nat MAX_PRIO) []) (replicate (Z.to_nat (MAX_PRIO / 64 + 1)) 0)
        0 0 None idle_process 0 [] 0 None 0.

Definition scheduler_start (now : Z) (init_process : option Z) (s : sched) : sched :=
  let s := match init_process with
           | Some p => scheduler_enqueue rr_policy s p
           | None => s
           end in
  schedule rr_policy now s.

(** ** Lemmas: arrays of queues *)

Definition qat (qs : list (list Z)) (i : Z) : list Z := default [] (qs !! Z.to_nat i).

Lemma qat_alter f qs i j :
  0 <= i < Z.of_nat (length qs) -> 0 <= j ->
  qat (alter f (Z.to_nat i) qs) j = if i =? j then f (qat qs j) else qat qs j.
Proof.
  intros Hi Hj. unfold qat. destruct (Z.eqb_spec i j) as [<-|].
  - rewrite list_lookup_alter_eq. by destruct (lookup_lt_is_Some_2 qs (Z.to_nat i)) as [q ->]; [lia|].
  - by rewrite list_lookup_alter_ne by lia.
Qed.

Lemma qat_filter p qs i :
  qat (filter (fun x => x <> p) <$> qs) i = filter (fun x => x <> p) (qat qs i).
Proof. unfold qat. rewrite list_lookup_fmap. by destruct (qs !! _). Qed.

Lemma qat_overflow qs i : Z.of_nat (length qs) <= i -> qat qs i = [].
Proof. intros. unfold qat. by rewrite lookup_ge_None_2 by lia. Qed.

Lemma elem_of_concat_qat qs p :
  p ∈ concat qs <-> exists i, 0 <= i < Z.of_nat (length qs) /\ p ∈ qat qs i.
Proof.
  rewrite list_elem_of_In, in_concat. split.
  - intros (q & Hq & Hp). apply list_elem_of_In, list_elem_of_lookup in Hq as [k Hk].
    pose proof (lookup_lt_Some _ _ _ Hk). exists (Z.of_nat k). split; [lia|].
    unfold qat. rewrite Nat2Z.id, Hk. by apply list_elem_of_In.
  - intros (i & Hi & Hp). destruct (lookup_lt_is_Some_2 qs (Z.to_nat i)) as [q Hq]; [lia|].
    exists q. unfold qat in Hp. rewrite Hq in Hp. split; apply list_elem_of_In; [|done].
    by eapply list_elem_of_lookup_2.
Qed.

Lemma concat_filter (p : Z) qs :
  concat (filter (fun x => x <> p) <$> qs) = filter (fun x => x <> p) (concat qs).
Proof.
  induction qs as [|q qs IH]; [done|]. rewrite fmap_cons. cbn [concat].
  by rewrite filter_app, IH.
Qed.

Lemma concat_snoc (p : Z) i qs :
  (i < length qs)%nat -> concat (alter (fun q => q ++ [p]) i qs) ≡ₚ p :: concat qs.
Proof.
  revert i. induction qs as [|q qs IH]; intros [|i] Hi; simpl in Hi; try lia.
  - simpl. rewrite <- app_assoc. simpl. by rewrite <- Permutation_middle.
  - change (q ++ concat (alter (fun q => q ++ [p]) i qs) ≡ₚ p :: q ++ concat qs).
    rewrite IH by lia. by rewrite <- Permutation_middle.
Qed.

Lemma filter_ne_notin (p : Z) (l : list Z) : p ∉ l -> filter (fun x => x <> p) l = l.
Proof.
  induction l as [|x l IH]; intros Hp; [done|]. rewrite filter_cons.
  rewrite not_elem_of_cons in Hp. rewrite decide_True by naive_solver. by rewrite IH by naive_solver.
Qed.

Lemma length_filter_ne (p : Z) (l : list Z) :
  NoDup l -> p ∈ l -> length l = S (length (filter (fun x => x <> p) l)).
Proof.
  induction l as [|x l IH]; intros Hn Hp; [by apply elem_of_nil in Hp|].
  apply NoDup_cons in Hn as [Hx Hn]. rewrite filter_cons. case_decide as Hd.
  - simpl. rewrite <- IH; [done..|]. by apply elem_of_cons in Hp as [->|].
  - assert (x = p) as -> by (by destruct (decide (x = p))). simpl. by rewrite filter_ne_notin.
Qed.

Lemma NoDup_length_dom (l : list Z) (m : gmap Z proc) :
  NoDup l -> (forall p, p ∈ l -> is_Some (m !! p)) -> (length l <= size m)%nat.
Proof.
  intros Hn Hd. rewrite <- (size_list_to_set (C := gset Z) l Hn), <- (size_dom (D := gset Z)).
  apply subseteq_size. intros p. rewrite elem_of_list_to_set, elem_of_dom. auto.
Qed.

(** ** Run queue invariant *)

(** Every queued process is queued once, at its own priority; the bitmap marks
    exactly the non-empty queues and the counter counts the queued processes. *)
Record rq_ok (s : sched) : Prop := {
  rq_len : Z.of_nat (length (queues s)) = MAX_PRIO;
  rq_bm_len : length (prio_bitmap s) = 3%nat;
  rq_words : words 64 (prio_bitmap s);
  rq_nodup : NoDup (concat (queues s));
  rq_count : nr_running s = Z.of_nat (length (concat (queues s)));
  rq_prio_of : forall i p, 0 <= i -> p ∈ queue s i -> priority (pget s p) = i;
  rq_bits : forall i, 0 <= i < 192 ->
    bget 64 (prio_bitmap s) i = negb (bool_decide (queue s i = []));
  rq_dom : forall p, p ∈ concat (queues s) -> is_Some (procs s !! p);
  rq_size : Z.of_nat (size (procs s)) < 2 ^ 64;
  rq_range : forall p, 0 <= priority (pget s p) < MAX_PRIO
}.

(** Everything but the queues, their bitmap and their counter. *)
Record same_frame (s s' : sched) : Prop := {
  sf_procs : procs s' = procs s;
  sf_curr : curr s' = curr s;
  sf_idle : idle s' = idle s;
  sf_clock : clock s' = clock s;
  sf_sleep : sleep_queue s' = sleep_queue s;
  sf_flags : ti_flags s' = ti_flags s
}.

Lemma clamp_prio_id x : 0 <= x < MAX_PRIO -> clamp_prio x = x.
Proof. intros. unfold clamp_prio. destruct (Z.ltb_spec x 0); [lia|]. by zif; [lia|]. Qed.

Lemma clamp_prio_range x : 0 <= clamp_prio x < MAX_PRIO.
Proof. unfold clamp_prio. repeat zif; lia. Qed.

Lemma linked_iff s p :
  rq_ok s -> run_list_linked s p = true <-> p ∈ queue s (priority (pget s p)).
Proof.
  intros Hok. unfold run_list_linked. rewrite bool_decide_eq_true, elem_of_concat_qat.
  split.
  - intros (i & Hi & Hp). by rewrite (rq_prio_of s Hok i p) by (lia || done).
  - intros Hp. exists (priority (pget s p)). rewrite (rq_len s Hok).
    split; [apply (rq_range s Hok)|done].
Qed.

Section rq.
Context (s : sched) (p : Z).
Hypothesis Hok : rq_ok s.

Let prio := priority (pget s p).

Lemma prio_range : 0 <= prio < 140.
Proof using Hok. apply (rq_range s Hok). Qed.

Lemma rr_enqueue_frame : same_frame s (rr_enqueue s p).
Proof using. unfold rr_enqueue. by case_match. Qed.

Lemma rr_enqueue_queue i :
  0 <= i ->
  queue (rr_enqueue s p) i
  = if run_list_linked s p then queue s i
    else if prio =? i then queue s i ++ [p] else queue s i.
Proof using Hok.
  intros Hi. unfold rr_enqueue. destruct (run_list_linked s p); [done|].
  rewrite clamp_prio_id by apply (rq_range s Hok). pose proof prio_range.
  pose proof (rq_len s Hok) as Hl.
  apply (qat_alter (fun q => q ++ [p])); fold prio; lia.
Qed.

Lemma rr_enqueue_fields :
  run_list_linked s p = false ->
  queues (rr_enqueue s p) = alter (fun q => q ++ [p]) (Z.to_nat prio) (queues s) /\
  prio_bitmap (rr_enqueue s p) = aset (prio_bitmap s) (prio / 64)
    (Z.lor (aget (prio_bitmap s) (prio / 64)) (2 ^ (prio mod 64))) /\
  nr_running (rr_enqueue s p) = u64 (nr_running s + 1).
Proof using Hok.
  intros Hlink. unfold rr_enqueue.
  rewrite Hlink, clamp_prio_id by apply (rq_range s Hok). simpl. by rewrite Z.shiftl_1_l.
Qed.

Lemma rr_enqueue_ok : is_Some (procs s !! p) -> rq_ok (rr_enqueue s p).
Proof using Hok.
  intros Hp. destruct (run_list_linked s p) eqn:Hlink; [unfold rr_enqueue; by rewrite Hlink|].
  destruct (rr_enqueue_fields Hlink) as (Hqs & Hbm & Hnr).
  pose proof rr_enqueue_queue as Hq. rewrite Hlink in Hq.
  pose proof rr_enqueue_frame as [Hfp _ _ _ _ _].
  assert (Hg : forall x, pget (rr_enqueue s p) x = pget s x) by (intros; unfold pget; by rewrite Hfp).
  pose proof prio_range as Hpr. destruct Hok as [Hl Hbl Hw Hn Hc Hpo Hb Hd Hs Hr].
  unfold run_list_linked in Hlink. apply bool_decide_eq_false in Hlink.
  assert (Hperm : concat (queues (rr_enqueue s p)) ≡ₚ p :: concat (queues s))
    by (rewrite Hqs; apply concat_snoc; lia).
  assert (Hnd : NoDup (p :: concat (queues s))) by (by apply NoDup_cons).
  assert (Hdom : forall x, x ∈ p :: concat (queues s) -> is_Some (procs s !! x))
    by (intros x [->|]%elem_of_cons; auto).
  pose proof (NoDup_length_dom _ _ Hnd Hdom) as Hlen. cbn [length] in Hlen.
  split; rewrite ?Hfp, ?Hbm, ?Hnr, ?Hperm; try done.
  - by rewrite Hqs, length_alter.
  - by rewrite length_aset.
  - apply aset_words; [done|]. apply lor_word; [lia|by apply aget_words|].
    apply pow2_word, Z.mod_pos_bound. lia.
  - cbn [length]. rewrite Hc, u64_small by lia. lia.
  - intros i x Hi Hx. rewrite Hg. rewrite Hq in Hx by done. destruct (Z.eqb_spec prio i) as [<-|].
    + apply elem_of_app in Hx as [Hx| ->%list_elem_of_singleton]; [|done]. by apply Hpo.
    + by apply Hpo.
  - intros i Hi. rewrite bget_set_bit, Hb, Hq by (rewrite ?Hbl; lia).
    destruct (Z.eqb_spec prio i) as [<-|]; [|done]. by destruct (queue s prio).
  - intros x. rewrite Hperm. auto.
  - intros x. rewrite Hg. apply Hr.
Qed.

Lemma rr_dequeue_frame : same_frame s (rr_dequeue s p).
Proof using. unfold rr_dequeue. by repeat case_match. Qed.

Lemma rr_dequeue_queues :
  queues (rr_dequeue s p) = filter (fun x => x <> p) <$> queues s.
Proof using.
  unfold rr_dequeue. destruct (run_list_linked s p) eqn:Hlink; simpl.
  - by repeat case_match.
  - unfold run_list_linked in Hlink. apply bool_decide_eq_false in Hlink.
    clear Hok. induction (queues s) as [|q qs IH]; [done|]. rewrite fmap_cons.
    cbn [concat] in Hlink. rewrite not_elem_of_app in Hlink.
    rewrite filter_ne_notin, <- IH by naive_solver. done.
Qed.

Lemma rr_dequeue_queue i : queue (rr_dequeue s p) i = filter (fun x => x <> p) (queue s i).
Proof using. unfold queue. rewrite rr_dequeue_queues. apply qat_filter. Qed.

Lemma rr_dequeue_ok : rq_ok (rr_dequeue s p).
Proof using Hok.
  destruct (run_list_linked s p) eqn:Hlink; [|unfold rr_dequeue; by rewrite Hlink].
  pose proof rr_dequeue_queues as Hqs. pose proof rr_dequeue_queue as Hq.
  pose proof rr_dequeue_frame as [Hfp _ _ _ _ _]. pose proof prio_range as Hpr.
  pose proof (proj1 (linked_iff s p Hok) Hlink) as Hin. fold prio in Hin.
  destruct Hok as [Hl Hbl Hw Hn Hc Hpo Hb Hd Hs Hr].
  pose proof Hlink as Hmem. unfold run_list_linked in Hmem. apply bool_decide_eq_true in Hmem.
  pose proof (length_filter_ne p _ Hn Hmem) as Hlen.
  assert (Hg : forall x, pget (rr_dequeue s p) x = pget s x) by (intros; unfold pget; by rewrite Hfp).
  assert (Hcn : nr_running (rr_dequeue s p) = nr_running s - 1).
  { unfold rr_dequeue. rewrite Hlink. simpl. repeat case_match; simpl in *; zbool; lia. }
  assert (Hbm : prio_bitmap (rr_dequeue s p) = match filter (fun x => x <> p) (queue s prio) with
    | [] => aset (prio_bitmap s) (prio / 64) (Z.ldiff (aget (prio_bitmap s) (prio / 64)) (2 ^ (prio mod 64)))
    | _ => prio_bitmap s end).
  { change (queue s prio) with (qat (queues s) prio). rewrite <- qat_filter.
    unfold rr_dequeue. rewrite Hlink. fold prio.
    change (queue (run_list_del p s) prio) with (qat (filter (fun x => x <> p) <$> queues s) prio).
    cbn [negb]. destruct (qat _ prio); case_match; simpl; try done;
      unfold u64; by rewrite land_lnot_ldiff, Z.shiftl_1_l by (lia || by apply aget_words). }
  split; rewrite ?Hqs, ?Hfp, ?Hbm, ?concat_filter; try done.
  - by rewrite length_fmap.
  - case_match; by rewrite ?length_aset.
  - case_match; [|done]. apply aset_words; [done|]. apply ldiff_word; [lia|by apply aget_words].
  - by apply NoDup_filter.
  - rewrite Hcn, Hc, Hlen. lia.
  - intros i x Hi. rewrite Hq, Hg, list_elem_of_filter. intros [_ Hx]. by apply Hpo.
  - intros i Hi. rewrite Hq. destruct (decide (prio = i)) as [<-|Hne].
    + destruct (filter _ (queue s prio)) eqn:Hf.
      * rewrite bget_clear_bit by (rewrite ?Hbl; lia). by rewrite Z.eqb_refl.
      * rewrite Hb by done. by destruct (queue s prio).
    + rewrite (filter_ne_notin p (queue s i)).
      * case_match; [|by apply Hb]. rewrite bget_clear_bit by (rewrite ?Hbl; lia).
        destruct (Z.eqb_spec prio i); [done|]. by apply Hb.
      * intros Hx. apply Hne. apply Hpo; [lia|done].
  - intros x [_ Hx]%list_elem_of_filter. by apply Hd.
  - intros x. rewrite Hg. apply Hr.
Qed.
End rq.

(** ** Picking the next process *)

(** The reference: scan the queues from the highest priority (0) down. *)
Definition nonempty (s : sched) (i : Z) : bool := negb (bool_decide (queue s i = [])).

Definition first_ready (s : sched) : option Z :=
  match find_range (nonempty s) 0 MAX_PRIO with
  | Some i => head (queue s i)
  | None => None
  end.

Lemma builtin_ctzll_spec x :
  0 < x ->
  0 <= builtin_ctzll x /\ Z.testbit x (builtin_ctzll x) = true /\
  forall i, 0 <= i < builtin_ctzll x -> Z.testbit x i = false.
Proof.
  intros Hx. pose proof (builtin_ffsl_spec x Hx) as H.
  replace (builtin_ffsl x - 1) with (builtin_ctzll x) in H; [done|].
  destruct x; simpl; lia.
Qed.

Lemma word_bit s w b :
  rq_ok s -> 0 <= w < 3 -> 0 <= b < 64 ->
  Z.testbit (aget (prio_bitmap s) w) b = nonempty s (w * 64 + b).
Proof.
  intros Hok Hw Hb. unfold nonempty. rewrite <- (rq_bits s Hok) by lia. unfold bget.
  replace ((w * 64 + b) / 64) with w by (Z.div_mod_to_equations; lia).
  by replace ((w * 64 + b) mod 64) with b by (Z.div_mod_to_equations; lia).
Qed.

(** A word of the bitmap either has no non-empty queue or leads to the first. *)
Lemma rr_pick_bits_spec s w fuel :
  rq_ok s -> 0 <= w < 3 ->
  (rr_pick_bits (S fuel) w (aget (prio_bitmap s) w) s = (None, s) /\
   forall i, w * 64 <= i < w * 64 + 64 -> nonempty s i = false) \/
  (exists i p, w * 64 <= i < MAX_PRIO /\ head (queue s i) = Some p /\ nonempty s i = true /\
   (forall j, w * 64 <= j < i -> nonempty s j = false) /\
   rr_pick_bits (S fuel) w (aget (prio_bitmap s) w) s = (Some p, s)).
Proof.
  intros Hok Hw. pose proof (aget_words 64 _ w ltac:(lia) (rq_words s Hok)) as Hword.
  assert (Hbit : forall i, w * 64 <= i < w * 64 + 64 ->
    nonempty s i = Z.testbit (aget (prio_bitmap s) w) (i - w * 64)).
  { intros i Hi. rewrite word_bit by (done || lia). f_equal. lia. }
  set (x := aget (prio_bitmap s) w) in *. cbn [rr_pick_bits]. destruct (Z.eqb_spec x 0) as [Hx|Hx].
  { left. split; [done|]. intros i Hi. rewrite Hbit, Hx by done. apply Z.bits_0. }
  right. destruct (builtin_ctzll_spec x) as (Hb0 & Hb1 & Hbmin); [lia|].
  assert (Hb64 : builtin_ctzll x < 64).
  { apply Z.nle_gt. intros ?. by rewrite (testbit_ge x 64) in Hb1 by lia. }
  assert (Hne : nonempty s (w * 64 + builtin_ctzll x) = true)
    by (rewrite Hbit by lia; by replace (w * 64 + builtin_ctzll x - w * 64) with (builtin_ctzll x) by lia).
  assert (Hq : queue s (w * 64 + builtin_ctzll x) <> [])
    by (unfold nonempty in Hne; zbool; by apply bool_decide_eq_false in Hne).
  assert (Hmax : w * 64 + builtin_ctzll x < MAX_PRIO).
  { apply Z.nle_gt. intros ?. apply Hq, qat_overflow. by rewrite (rq_len s Hok). }
  destruct (queue s (w * 64 + builtin_ctzll x)) as [|p q] eqn:Hqe; [done|].
  exists (w * 64 + builtin_ctzll x), p. rewrite Hqe.
  rewrite Z.geb_leb, (proj2 (Z.leb_gt _ _) Hmax). split_and!; try done; [lia|].
  intros j Hj. rewrite Hbit by lia. apply Hbmin. lia.
Qed.

Lemma rr_pick_words_spec n w s :
  rq_ok s -> 0 <= w -> w + Z.of_nat n = 3 ->
  (forall j, 0 <= j < w * 64 -> nonempty s j = false) ->
  rr_pick_words n w s = (match first_ready s with Some p => Some p | None => idle s end, s).
Proof.
  revert w. induction n as [|n IH]; intros w Hok Hw Hn Hbefore; cbn [rr_pick_words].
  - unfold first_ready. rewrite (proj2 (find_range_None _ _ _)); [done|].
    intros i Hi. apply Hbefore. lia.
  - destruct (rr_pick_bits_spec s w 63 Hok) as [[-> Hnone]|(i & p & Hi & Hhd & Hne & Hmin & ->)]; [lia| |].
    + apply IH; [done|lia..|]. intros j Hj. destruct (decide (j < w * 64)); [apply Hbefore; lia|].
      apply Hnone. lia.
    + unfold first_ready. rewrite (proj2 (find_range_Some _ _ _ i)).
      * by rewrite Hhd.
      * split; [lia|]. split; [done|]. intros j Hj.
        destruct (decide (j < w * 64)); [apply Hbefore; lia|]. apply Hmin. lia.
Qed.

Lemma rr_pick_next_spec s :
  rq_ok s ->
  rr_pick_next s = (match first_ready s with Some p => Some p | None => idle s end, s).
Proof. intros Hok. apply rr_pick_words_spec; [done|lia|done|intros; lia]. Qed.

Lemma first_ready_Some s p :
  rq_ok s -> first_ready s = Some p ->
  p ∈ concat (queues s) /\ head (queue s (priority (pget s p))) = Some p /\
  (forall j, 0 <= j < priority (pget s p) -> queue s j = []).
Proof.
  intros Hok Hf. unfold first_ready in Hf. destruct (find_range _ _ _) as [i|] eqn:Hr; [|done].
  apply find_range_Some in Hr as (Hi & Hne & Hmin).
  assert (Hin : p ∈ queue s i) by (destruct (queue s i); simplify_eq/=; by left).
  rewrite (rq_prio_of s Hok i p) by (lia || done). split_and!.
  - apply elem_of_concat_qat. exists i. by rewrite (rq_len s Hok).
  - done.
  - intros j Hj. specialize (Hmin j Hj). unfold nonempty in Hmin. zbool.
    by apply bool_decide_eq_true in Hmin.
Qed.

Lemma first_ready_None s : rq_ok s -> first_ready s = None <-> concat (queues s) = [].
Proof.
  intros Hok. unfold first_ready. destruct (find_range _ _ _) as [i|] eqn:Hr.
  - apply find_range_Some in Hr as (Hi & Hne & _). unfold nonempty in Hne. zbool.
    apply bool_decide_eq_false in Hne. destruct (queue s i) as [|x q] eqn:Hq; [done|].
    split; [done|]. intros Hc. assert (Hx : x ∈ concat (queues s)).
    { apply elem_of_concat_qat. exists i. rewrite (rq_len s Hok). split; [done|].
      change (x ∈ queue s i). rewrite Hq. by left. }
    rewrite Hc in Hx. by apply elem_of_nil in Hx.
  - split; [|done]. intros _. rewrite find_range_None in Hr.
    destruct (concat (queues s)) as [|x l] eqn:Hc; [done|].
    assert (Hx : x ∈ concat (queues s)) by (rewrite Hc; by left).
    apply elem_of_concat_qat in Hx as (i & Hi & Hx). rewrite (rq_len s Hok) in Hi.
    specialize (Hr i Hi). unfold nonempty in Hr. zbool. apply bool_decide_eq_true in Hr.
    unfold queue in Hr. unfold qat in Hx. rewrite Hr in Hx. by apply elem_of_nil in Hx.
Qed.

(** ** Scheduler invariant *)

(** What holds also inside an operation, when the current process may already
    have left the running state: queued processes are ready and schedulable,
    sleepers are asleep, and neither the current nor the idle process is
    queued. *)
Record sched_pre (s : sched) : Prop := {
  pre_rq : rq_ok s;
  pre_ready : forall p, p ∈ concat (queues s) ->
    state (pget s p) = PROC_STATE_READY /\ process_schedulable (pget s p) = true;
  pre_idle : forall i, idle s = Some i -> (i ∉ concat (queues s)) /\ is_Some (procs s !! i);
  pre_curr : forall c, curr s = Some c ->
    is_Some (procs s !! c) /\ (c ∉ concat (queues s));
  pre_nodup : NoDup (sleep_queue s);
  pre_sleep : forall p, p ∈ sleep_queue s ->
    is_Some (procs s !! p) /\ Some p <> idle s /\ state (pget s p) = PROC_STATE_SLEEPING
}.

Definition sched_ok (s : sched) : Prop :=
  sched_pre s /\ forall c, curr s = Some c -> state (pget s c) = PROC_STATE_RUNNING.

(** ** Lemmas: the process store *)

Lemma pget_upd s p f x :
  is_Some (procs s !! p) -> pget (upd p f s) x = if decide (x = p) then f (pget s x) else pget s x.
Proof.
  intros [pr Hp]. unfold pget, upd. simpl. case_decide as Hd.
  - subst x. by rewrite lookup_alter_eq, Hp.
  - by rewrite lookup_alter_ne.
Qed.

Lemma procs_upd_is_Some s p f x : is_Some (procs (upd p f s) !! x) <-> is_Some (procs s !! x).
Proof. unfold upd. simpl. apply lookup_alter_is_Some. Qed.

(** An update that keeps the priority keeps the run queue invariant. *)
Lemma rq_ok_upd s p f :
  is_Some (procs s !! p) -> (forall pr, priority (f pr) = priority pr) ->
  rq_ok s -> rq_ok (upd p f s).
Proof.
  intros Hp Hf [].
  assert (Hg : forall x, priority (pget (upd p f s) x) = priority (pget s x))
    by (intros; rewrite pget_upd by done; by case_decide).
  split; try done.
  - intros i x Hi Hx. rewrite Hg. by apply rq_prio_of0.
  - intros x Hx. apply procs_upd_is_Some. by apply rq_dom0.
  - unfold upd. simpl. by rewrite <- (size_dom (D := gset Z)), dom_alter_L, size_dom.
  - intros x. by rewrite Hg.
Qed.

Lemma rq_ok_ext s s' :
  procs s' = procs s -> queues s' = queues s -> prio_bitmap s' = prio_bitmap s ->
  nr_running s' = nr_running s -> rq_ok s -> rq_ok s'.
Proof.
  intros Hp Hq Hb Hn []. split; unfold queue, pget in *; rewrite ?Hp, ?Hq, ?Hb, ?Hn; auto.
Qed.

Lemma elem_of_concat_queue s p :
  rq_ok s -> p ∈ concat (queues s) <-> exists i, 0 <= i < MAX_PRIO /\ p ∈ queue s i.
Proof. intros Hok. rewrite elem_of_concat_qat. by rewrite (rq_len s Hok). Qed.

Lemma rr_enqueue_elem s p x :
  rq_ok s -> x ∈ concat (queues (rr_enqueue s p)) <-> x ∈ concat (queues s) \/ x = p.
Proof.
  intros Hok. destruct (run_list_linked s p) eqn:Hl.
  - unfold rr_enqueue. rewrite Hl. unfold run_list_linked in Hl.
    apply bool_decide_eq_true in Hl. naive_solver.
  - destruct (rr_enqueue_fields s p Hok Hl) as (-> & _ & _).
    rewrite concat_snoc, elem_of_cons; [naive_solver|]. pose proof (rq_len s Hok).
    pose proof (prio_range s p Hok). lia.
Qed.

Lemma rr_dequeue_elem s p x :
  x ∈ concat (queues (rr_dequeue s p)) <-> x ∈ concat (queues s) /\ x <> p.
Proof. rewrite rr_dequeue_queues, concat_filter, list_elem_of_filter. naive_solver. Qed.

(** Rewriting with the parts an operation of the policy leaves alone. *)
Lemma same_frame_pget s s' x : same_frame s s' -> pget s' x = pget s x.
Proof. intros []. unfold pget. congruence. Qed.

(** ** Lemmas: [sched_pre] through the primitive steps *)

(** Queueing a ready process. *)
Lemma pre_enqueue s p :
  sched_pre s -> is_Some (procs s !! p) -> Some p <> idle s -> Some p <> curr s ->
  state (pget s p) = PROC_STATE_READY -> process_schedulable (pget s p) = true ->
  sched_pre (rr_enqueue s p).
Proof.
  intros [Hrq Hr Hi Hc Hn Hs] Hp Hni Hnc Hst Hsch.
  pose proof (rr_enqueue_frame s p) as Hfr. destruct Hfr as [Fp Fc Fi Fk Fs Ff] eqn:HF. clear HF.
  assert (Hg : forall x, pget (rr_enqueue s p) x = pget s x) by (intros; unfold pget; by rewrite Fp).
  split; rewrite ?Fp, ?Fc, ?Fi, ?Fs; try done.
  - by apply rr_enqueue_ok.
  - intros x Hx. apply rr_enqueue_elem in Hx as [Hx| ->]; [|by rewrite Hg..|done].
    rewrite Hg. by apply Hr.
  - intros i Hid. destruct (Hi i Hid). split; [|done].
    rewrite rr_enqueue_elem by done. intros [?| ->]; [done|congruence].
  - intros c Hcc. destruct (Hc c Hcc). split; [done|].
    rewrite rr_enqueue_elem by done. intros [?| ->]; [done|congruence].
  - intros x Hx. rewrite Hg. by apply Hs.
Qed.

Lemma pre_dequeue s p : sched_pre s -> sched_pre (rr_dequeue s p).
Proof.
  intros [Hrq Hr Hi Hc Hn Hs]. destruct (rr_dequeue_frame s p) as [Fp Fc Fi Fk Fs Ff].
  assert (Hg : forall x, pget (rr_dequeue s p) x = pget s x) by (intros; unfold pget; by rewrite Fp).
  split; rewrite ?Fp, ?Fc, ?Fi, ?Fs; try done.
  - by apply rr_dequeue_ok.
  - intros x [Hx _]%rr_dequeue_elem. rewrite Hg. by apply Hr.
  - intros i Hid. destruct (Hi i Hid). split; [|done]. rewrite rr_dequeue_elem. naive_solver.
  - intros c Hcc. destruct (Hc c Hcc). split; [done|]. rewrite rr_dequeue_elem. naive_solver.
  - intros x Hx. rewrite Hg. by apply Hs.
Qed.

(** Updating a process that is neither queued nor asleep. *)
Lemma pre_upd s p f :
  sched_pre s -> is_Some (procs s !! p) -> (forall pr, priority (f pr) = priority pr) ->
  (p ∉ concat (queues s)) -> (p ∉ sleep_queue s) -> sched_pre (upd p f s).
Proof.
  intros [Hrq Hr Hi Hc Hn Hs] Hp Hf Hq Hsl.
  assert (Hg : forall x, x <> p -> pget (upd p f s) x = pget s x)
    by (intros; rewrite pget_upd by done; by case_decide).
  split; try done.
  - by apply rq_ok_upd.
  - intros x Hx. rewrite Hg by (intros ->; done). by apply Hr.
  - intros i Hid. rewrite procs_upd_is_Some. by apply Hi.
  - intros c Hcc. rewrite procs_upd_is_Some. by apply Hc.
  - intros x Hx. rewrite procs_upd_is_Some, Hg by (intros ->; done). by apply Hs.
Qed.

(** ** Lemmas: time slices *)

Lemma rr_time_slice_bounds pr :
  MIN_NICE <= nice pr <= MAX_NICE -> MIN_TIMESLICE <= rr_time_slice pr <= 50.
Proof.
  unfold rr_time_slice.
  intros Hn. pose proof (Z.quot_div_nonneg (nice pr) 2).
  repeat zif; Z.div_mod_to_equations; lia.
Qed.

Lemma rr_time_slice_pos pr : 0 < rr_time_slice pr.
Proof. unfold rr_time_slice. repeat zif; lia. Qed.

(** ** Lemmas: [schedule] *)

(** The current process goes back to the run queue exactly when it is still
    running, schedulable and not the idle process. *)
Definition parks (s : sched) (c : Z) : bool :=
  negb (bool_decide (Some c = idle s)) &&
  bool_decide (state (pget s c) = PROC_STATE_RUNNING) && process_schedulable (pget s c).

(** Like [sched_pre], after the current process was parked: it may be queued. *)
Record parked_ok (s : sched) : Prop := {
  pk_rq : rq_ok s;
  pk_ready : forall p, p ∈ concat (queues s) ->
    state (pget s p) = PROC_STATE_READY /\ process_schedulable (pget s p) = true;
  pk_idle : forall i, idle s = Some i -> (i ∉ concat (queues s)) /\ is_Some (procs s !! i);
  pk_nodup : NoDup (sleep_queue s);
  pk_sleep : forall p, p ∈ sleep_queue s ->
    is_Some (procs s !! p) /\ Some p <> idle s /\ state (pget s p) = PROC_STATE_SLEEPING
}.

Lemma set_state_schedulable x pr :
  x <> PROC_STATE_ZOMBIE -> x <> PROC_STATE_DEAD -> process_schedulable pr = true ->
  process_schedulable (set_state x pr) = true.
Proof.
  unfold process_schedulable. simpl. intros Hz Hd.
  rewrite (bool_decide_eq_false_2 (x = PROC_STATE_ZOMBIE)) by done.
  rewrite (bool_decide_eq_false_2 (x = PROC_STATE_DEAD)) by done. simpl.
  by repeat case_match.
Qed.

Lemma park_prev_spec s :
  sched_pre s ->
  parked_ok (park_prev rr_policy s) /\ idle (park_prev rr_policy s) = idle s /\
  sleep_queue (park_prev rr_policy s) = sleep_queue s /\
  clock (park_prev rr_policy s) = clock s /\
  (forall x, is_Some (procs (park_prev rr_policy s) !! x) <-> is_Some (procs s !! x)) /\
  (forall x, curr s <> Some x -> pget (park_prev rr_policy s) x = pget s x) /\
  (forall x, x ∈ concat (queues (park_prev rr_policy s)) <->
     x ∈ concat (queues s) \/ exists c, curr s = Some c /\ parks s c = true /\ x = c) /\
  (forall i, 0 <= i -> queue (park_prev rr_policy s) i
     = queue s i ++ match curr s with
                    | Some c => if parks s c && (priority (pget s c) =? i) then [c] else []
                    | None => [] end).
Proof.
  intros Hpre. unfold park_prev. destruct (curr s) as [c|] eqn:Hcurr.
  2: { destruct Hpre. split_and!; try done; [naive_solver|]. intros. by rewrite app_nil_r. }
  fold (parks s c). destruct (parks s c) eqn:Hpk; cycle 1.
  { destruct Hpre. split_and!; try done; [|intros; by rewrite app_nil_r].
    intros x. split; [by left|]. intros [?|(c' & [= <-] & ? & _)]; congruence. }
  pose proof Hpre as [Hrq Hr Hi Hc Hn Hs]. destruct (Hc c Hcurr) as [Hdom Hnq].
  pose proof Hpk as Hpk'. unfold parks in Hpk'. zbool. apply bool_decide_eq_false in H. apply bool_decide_eq_true in H1.
  set (s1 := upd c (set_state PROC_STATE_READY) s).
  assert (Hg1 : forall x, x <> c -> pget s1 x = pget s x)
    by (intros; unfold s1; rewrite pget_upd by done; by case_decide).
  assert (Hgc : pget s1 c = set_state PROC_STATE_READY (pget s c))
    by (unfold s1; rewrite pget_upd by done; by case_decide).
  assert (Hrq1 : rq_ok s1) by (by apply rq_ok_upd).
  destruct (rr_enqueue_frame s1 c) as [Fp Fc Fi Fk Fs Ff]. cbn [op_enqueue rr_policy].
  assert (Hg : forall x, pget (rr_enqueue s1 c) x = pget s1 x) by (intros; unfold pget; by rewrite Fp).
  assert (Hmem : forall x, x ∈ concat (queues (rr_enqueue s1 c)) <-> x ∈ concat (queues s) \/ x = c)
    by (intros; apply (rr_enqueue_elem s1 c _ Hrq1)).
  assert (Hsc : c ∉ sleep_queue s).
  { intros Hx. destruct (Hs c Hx) as (_ & _ & Hst). congruence. }
  split_and!; rewrite ?Fi, ?Fs, ?Fk; try done.
  - split; rewrite ?Fi, ?Fs; try done.
    + apply rr_enqueue_ok; [done|]. by apply procs_upd_is_Some.
    + intros x [Hx| ->]%Hmem; rewrite Hg.
      * rewrite Hg1 by (intros ->; done). by apply Hr.
      * rewrite Hgc. split; [done|]. by apply set_state_schedulable.
    + intros i Hid. destruct (Hi i Hid). rewrite Hmem, Fp. unfold s1. rewrite procs_upd_is_Some.
      split; [|done]. intros [?| ->]; [done|]. by destruct H.
    + intros x Hx. rewrite Fp, Hg, Hg1 by (intros ->; done). unfold s1. rewrite procs_upd_is_Some.
      by apply Hs.
  - intros x. rewrite Fp. apply procs_upd_is_Some.
  - intros x Hx. rewrite Hg. apply Hg1. congruence.
  - intros x. rewrite Hmem. split; [intros [?| ->]|intros [?|(c' & [= <-] & _ & ->)]]; eauto 6.
  - intros i Hi0. rewrite rr_enqueue_queue by done.
    assert (run_list_linked s1 c = false) as -> by (by apply bool_decide_eq_false).
    rewrite Hgc. simpl. change (queue s1 i) with (queue s i). case_match; [done|by rewrite app_nil_r].
Qed.

(** The process [schedule] runs next. *)
Definition next_process (s : sched) : option Z :=
  match first_ready (park_prev rr_policy s) with Some p => Some p | None => idle s end.

Lemma schedule_unfold now s :
  sched_pre s ->
  let s1 := park_prev rr_policy s in
  let s2 := dispatch rr_policy now s1 (next_process s) in
  procs (schedule rr_policy now s) = procs s2 /\
  queues (schedule rr_policy now s) = queues s2 /\
  prio_bitmap (schedule rr_policy now s) = prio_bitmap s2 /\
  nr_running (schedule rr_policy now s) = nr_running s2 /\
  curr (schedule rr_policy now s) = next_process s /\
  idle (schedule rr_policy now s) = idle s2 /\
  sleep_queue (schedule rr_policy now s) = sleep_queue s2 /\
  clock (schedule rr_policy now s) = clock s2.
Proof.
  intros Hpre. destruct (park_prev_spec s Hpre) as (Hpk & Hid & _).
  assert (Hch : choose (park_prev rr_policy s)
    match first_ready (park_prev rr_policy s) with
    | Some p => Some p | None => idle (park_prev rr_policy s) end = next_process s).
  { unfold next_process, choose. rewrite Hid.
    destruct (first_ready (park_prev rr_policy s)) as [p|] eqn:Hf.
    - apply first_ready_Some in Hf as [Hin _]; [|apply Hpk].
      destruct (pk_ready _ Hpk p Hin) as [_ ->]. by rewrite andb_false_r.
    - destruct (idle s) as [i|]; [|done]. by rewrite bool_decide_eq_true_2. }
  unfold schedule. cbn [op_pick_next rr_policy]. rewrite rr_pick_next_spec by apply Hpk.
  rewrite Hch. by case_bool_decide.
Qed.

(** Filtering out a process that is not queued changes nothing. *)
Lemma filter_queues_notin (p : Z) (qs : list (list Z)) :
  p ∉ concat qs -> (filter (fun x => x <> p) <$> qs) = qs.
Proof.
  induction qs as [|q qs IH]; intros Hp; [done|]. rewrite fmap_cons.
  cbn [concat] in Hp. rewrite not_elem_of_app in Hp.
  by rewrite filter_ne_notin, IH by naive_solver.
Qed.

(** The fields of a process that scheduling never changes. *)
Definition same_identity (a b : proc) : Prop :=
  flags a = flags b /\ priority a = priority b /\ nice a = nice b.

Lemma dispatch_spec now s n :
  parked_ok s -> is_Some (procs s !! n) ->
  (n ∈ concat (queues s) \/ idle s = Some n) ->
  let s2 := dispatch rr_policy now s (Some n) in
  rq_ok s2 /\ queues s2 = (filter (fun x => x <> n) <$> queues s) /\
  idle s2 = idle s /\ clock s2 = clock s /\ sleep_queue s2 = sleep_queue s /\
  (forall x, is_Some (procs s2 !! x) <-> is_Some (procs s !! x)) /\
  (forall x, x <> n -> pget s2 x = pget s x) /\
  state (pget s2 n) = PROC_STATE_RUNNING /\ same_identity (pget s2 n) (pget s n) /\
  0 < time_slice (pget s2 n).
Proof.
  intros [Hrq Hr Hi Hn Hs] Hdom Hcase. cbn [dispatch].
  set (sd := if negb (bool_decide (Some n = idle s)) &&
               bool_decide (state (pget s n) = PROC_STATE_READY) then _ else s).
  assert (Hd : rq_ok sd /\ queues sd = (filter (fun x => x <> n) <$> queues s) /\ same_frame s sd).
  { unfold sd. destruct Hcase as [Hin|Hid].
    - destruct (Hr n Hin) as [-> _].
      assert (Some n <> idle s) by (intros Hx; symmetry in Hx; destruct (Hi n Hx); done).
      rewrite bool_decide_eq_false_2, bool_decide_eq_true_2 by done. cbn [negb andb op_dequeue rr_policy].
      split; [by apply rr_dequeue_ok|]. split; [apply rr_dequeue_queues|apply rr_dequeue_frame].
    - rewrite bool_decide_eq_true_2 by done. cbn [negb andb]. destruct (Hi n Hid).
      by rewrite filter_queues_notin. }
  destruct Hd as (Hrd & Hqd & [Fp Fc Fi Fk Fs Ff]). clearbody sd.
  assert (Hgd : forall x, pget sd x = pget s x) by (intros; unfold pget; by rewrite Fp).
  assert (Hdd : is_Some (procs sd !! n)) by (by rewrite Fp).
  set (se := if time_slice (pget sd n) <=? 0 then _ else sd).
  assert (He : rq_ok se /\ queues se = queues sd /\ idle se = idle sd /\ clock se = clock sd /\
    sleep_queue se = sleep_queue sd /\ (forall x, is_Some (procs se !! x) <-> is_Some (procs sd !! x)) /\
    (forall x, x <> n -> pget se x = pget sd x) /\ same_identity (pget se n) (pget sd n) /\
    0 < time_slice (pget se n)).
  { unfold se. destruct (Z.leb_spec (time_slice (pget sd n)) 0); [|split_and!; done || lia].
    split_and!; try done.
    - by apply rq_ok_upd.
    - intros. apply procs_upd_is_Some.
    - intros x Hx. rewrite pget_upd by done. by case_decide.
    - rewrite pget_upd by done. by case_decide.
    - rewrite pget_upd by done. case_decide; [|done]. apply rr_time_slice_pos. }
  clearbody se. destruct He as (Hre & Hqe & Hie & Hke & Hse & Hpe & Hge & Hme & Hte).
  assert (Hdn : is_Some (procs se !! n)) by (by apply Hpe).
  split_and!.
  - by apply rq_ok_upd.
  - simpl. by rewrite Hqe.
  - simpl. by rewrite Hie.
  - simpl. by rewrite Hke.
  - simpl. by rewrite Hse.
  - intros x. by rewrite procs_upd_is_Some, Hpe, Fp.
  - intros x Hx. rewrite pget_upd by done. case_decide; [done|]. by rewrite Hge, Hgd.
  - rewrite pget_upd by done. by case_decide.
  - rewrite pget_upd by done. case_decide; [|done]. rewrite <- (Hgd n). exact Hme.
  - rewrite pget_upd by done. by case_decide.
Qed.

Lemma park_identity s x :
  sched_pre s ->
  flags (pget (park_prev rr_policy s) x) = flags (pget s x) /\
  priority (pget (park_prev rr_policy s) x) = priority (pget s x) /\
  nice (pget (park_prev rr_policy s) x) = nice (pget s x).
Proof.
  intros Hpre. unfold park_prev. destruct (curr s) as [c|] eqn:Hc; [|done].
  fold (parks s c). destruct (parks s c); [|done]. cbn [op_enqueue rr_policy].
  rewrite (same_frame_pget _ _ x (rr_enqueue_frame _ c)).
  destruct (pre_curr s Hpre c Hc) as [Hd _]. rewrite pget_upd by done. by case_decide.
Qed.

Lemma next_process_dom s n :
  sched_pre s -> next_process s = Some n ->
  is_Some (procs (park_prev rr_policy s) !! n) /\
  (n ∈ concat (queues (park_prev rr_policy s)) \/ idle (park_prev rr_policy s) = Some n).
Proof.
  intros Hpre Hn. destruct (park_prev_spec s Hpre) as (Hpk & Hid & _ & _ & Hdom & _).
  unfold next_process in Hn. destruct (first_ready _) as [p|] eqn:Hf.
  - simplify_eq. apply first_ready_Some in Hf as [Hin _]; [|apply Hpk].
    split; [by apply (rq_dom _ (pk_rq _ Hpk))|by left].
  - rewrite <- Hid in Hn. split; [by apply (pk_idle _ Hpk)|by right].
Qed.

Lemma schedule_spec now s :
  sched_pre s ->
  let s' := schedule rr_policy now s in
  sched_ok s' /\ curr s' = next_process s /\ idle s' = idle s /\
  sleep_queue s' = sleep_queue s /\ clock s' = clock s /\
  (forall x, is_Some (procs s' !! x) <-> is_Some (procs s !! x)) /\
  (forall i, queue s' i = match next_process s with
     | Some n => filter (fun x => x <> n) (queue (park_prev rr_policy s) i)
     | None => queue (park_prev rr_policy s) i end) /\
  (forall x, next_process s <> Some x -> pget s' x = pget (park_prev rr_policy s) x) /\
  (forall x, same_identity (pget s' x) (pget s x)) /\
  (forall n, next_process s = Some n -> 0 < time_slice (pget s' n)).
Proof.
  intros Hpre. destruct (schedule_unfold now s Hpre) as (Sp & Sq & Sb & Sn & Sc & Si & Ss & Sk).
  destruct (park_prev_spec s Hpre) as (Hpk & Hid & Hsl & Hclk & Hdom & Hoth & Hmem & _).
  pose proof (park_identity s) as Hident.
  set (s1 := park_prev rr_policy s) in *. set (s' := schedule rr_policy now s) in *.
  simpl in *. destruct (next_process s) as [n|] eqn:Hnext; cycle 1.
  { (* no process at all *)
    cbn [dispatch] in Sp, Sq, Sb, Sn, Si, Ss, Sk.
    assert (Hg : forall x, pget s' x = pget s1 x) by (intros; unfold pget; by rewrite Sp).
    split_and!; try congruence.
    - split; [|by rewrite Sc]. split; rewrite ?Sq, ?Sp, ?Sc, ?Si, ?Ss; try done; try apply Hpk.
      + apply (rq_ok_ext s1); [done..|apply Hpk].
      + intros p Hp. rewrite Hg. by apply Hpk.
      + intros p Hp. rewrite Hg. by apply Hpk.
    - intros. by rewrite Sp, Hdom.
    - intros. unfold queue. by rewrite Sq.
    - intros x. rewrite Hg. by apply Hident. }
  destruct (next_process_dom s n Hpre Hnext) as [Hdn Hcase].
  fold s1 in Hdn, Hcase.
  destruct (dispatch_spec now s1 n Hpk Hdn Hcase)
    as (Drq & Dq & Di & Dk & Ds & Dd & Dg & Dst & Did & Dts).
  set (s2 := dispatch rr_policy now s1 (Some n)) in *.
  assert (Hg : forall x, pget s' x = pget s2 x) by (intros; unfold pget; by rewrite Sp).
  assert (Hnsl : n ∉ sleep_queue s1).
  { intros Hx. destruct (pk_sleep _ Hpk n Hx) as (_ & Hni & Hst).
    destruct Hcase as [Hin|Hii]; [|congruence]. destruct (pk_ready _ Hpk n Hin). congruence. }
  assert (Hqm : forall x, x ∈ concat (queues s') <-> x ∈ concat (queues s1) /\ x <> n).
  { intros x. rewrite Sq, Dq, concat_filter, list_elem_of_filter. tauto. }
  split_and!; try congruence.
  - split.
    + split; rewrite ?Sc, ?Ss, ?Ds.
      * by apply (rq_ok_ext s2).
      * intros p [Hp Hne]%Hqm. rewrite Hg, Dg by done. by apply Hpk.
      * intros i Hi. rewrite Sp, Dd, Hqm. rewrite Si, Di in Hi. destruct (pk_idle _ Hpk i Hi).
        split; [by intros [? _]|done].
      * intros c [= <-]. rewrite Sp, Dd, Hqm. split; [done|by intros [_ ?]].
      * apply Hpk.
      * intros p Hp. rewrite Sp, Dd, Si, Di, Hg, Dg by (intros ->; done). by apply Hpk.
    + intros c. rewrite Sc. intros [= <-]. by rewrite Hg.
  - intros x. by rewrite Sp, Dd, Hdom.
  - intros i. unfold queue. rewrite Sq, Dq. apply qat_filter.
  - intros x Hx. rewrite Hg. apply Dg. congruence.
  - intros x. rewrite Hg. destruct (decide (x = n)) as [->|Hne].
    + destruct Did as (Hf & Hp & Hni). unfold same_identity. rewrite Hf, Hp, Hni. by apply Hident.
    + rewrite Dg by done. by apply Hident.
Qed.

(** ** Lemmas: the other operations *)

(** The general form of [pre_upd]. *)
Lemma pre_upd_keep s p f :
  sched_pre s -> is_Some (procs s !! p) -> (forall pr, priority (f pr) = priority pr) ->
  (p ∈ concat (queues s) -> state (f (pget s p)) = PROC_STATE_READY /\
     process_schedulable (f (pget s p)) = true) ->
  (p ∈ sleep_queue s -> state (f (pget s p)) = PROC_STATE_SLEEPING) ->
  sched_pre (upd p f s).
Proof.
  intros [Hrq Hr Hi Hc Hn Hs] Hp Hf Hq Hsl.
  assert (Hg : forall x, pget (upd p f s) x = if decide (x = p) then f (pget s x) else pget s x)
    by (intros; by rewrite pget_upd).
  split; try done.
  - by apply rq_ok_upd.
  - intros x Hx. rewrite Hg. case_decide as Hd; [subst; auto|by apply Hr].
  - intros i Hid. rewrite procs_upd_is_Some. by apply Hi.
  - intros c Hcc. rewrite procs_upd_is_Some. by apply Hc.
  - intros x Hx. rewrite procs_upd_is_Some, Hg. destruct (Hs x Hx) as (? & ? & ?).
    case_decide as Hd; [subst; auto|done].
Qed.

Lemma pre_sleep_del s p : sched_pre s -> sched_pre (sleep_list_del p s).
Proof.
  intros [Hrq Hr Hi Hc Hn Hs]. split; try done.
  - by apply (rq_ok_ext s).
  - by apply NoDup_filter.
  - intros x [_ Hx]%list_elem_of_filter. by apply Hs.
Qed.

Lemma sleep_del_id s p : p ∉ sleep_queue s -> sleep_list_del p s = s.
Proof.
  intros Hp. unfold sleep_list_del. rewrite filter_ne_notin by done. by destruct s.
Qed.

Lemma sleep_del_if s p :
  (if sleep_list_linked s p then sleep_list_del p s else s) = sleep_list_del p s.
Proof.
  unfold sleep_list_linked. case_bool_decide; [done|]. by rewrite sleep_del_id.
Qed.

Lemma rr_dequeue_id s p : p ∉ concat (queues s) -> rr_dequeue s p = s.
Proof.
  intros Hp. unfold rr_dequeue, run_list_linked. by rewrite bool_decide_eq_false_2.
Qed.

Lemma run_del_if s p :
  (forall i, idle s = Some i -> i ∉ concat (queues s)) ->
  (if run_list_linked s p then scheduler_dequeue rr_policy s p else s) = rr_dequeue s p.
Proof.
  intros Hi. unfold run_list_linked, scheduler_dequeue. case_bool_decide as Hq.
  - rewrite bool_decide_eq_false_2; [done|]. intros Hx. by apply (Hi p).
  - by rewrite rr_dequeue_id.
Qed.

Lemma rr_dequeue_upd s p f :
  is_Some (procs s !! p) -> (forall pr, priority (f pr) = priority pr) ->
  rr_dequeue (upd p f s) p = upd p f (rr_dequeue s p).
Proof.
  intros Hp Hf. unfold rr_dequeue. rewrite pget_upd by done. case_decide; [|done]. rewrite Hf.
  change (run_list_linked (upd p f s) p) with (run_list_linked s p).
  destruct (run_list_linked s p); [|done]. cbn [negb].
  change (run_list_del p (upd p f s)) with (upd p f (run_list_del p s)).
  change (queue (upd p f (run_list_del p s)) (priority (pget s p)))
    with (queue (run_list_del p s) (priority (pget s p))).
  destruct (queue (run_list_del p s) _); simpl; by case_match.
Qed.

(** A process taken off both lists. *)
Definition unlink (p : Z) (s : sched) : sched := sleep_list_del p (rr_dequeue s p).

Lemma unlink_spec s p :
  sched_pre s ->
  sched_pre (unlink p s) /\ (p ∉ concat (queues (unlink p s))) /\ (p ∉ sleep_queue (unlink p s)) /\
  procs (unlink p s) = procs s /\ curr (unlink p s) = curr s /\ idle (unlink p s) = idle s /\
  clock (unlink p s) = clock s.
Proof.
  intros Hpre. destruct (rr_dequeue_frame s p) as [Fp Fc Fi Fk Fs Ff]. split_and!; try done.
  - by apply pre_sleep_del, pre_dequeue.
  - unfold unlink. simpl. rewrite rr_dequeue_elem. naive_solver.
  - unfold unlink. simpl. rewrite list_elem_of_filter. naive_solver.
Qed.

Lemma scheduler_sleep_unlink now s p :
  sched_pre s -> is_Some (procs s !! p) ->
  scheduler_sleep rr_policy now s p
  = schedule rr_policy now (upd p (set_wakeup 0) (upd p (set_state PROC_STATE_BLOCKED) (unlink p s))).
Proof.
  intros Hpre Hp. unfold scheduler_sleep. cbv zeta.
  rewrite run_del_if by (intros i Hi; by destruct (pre_idle s Hpre i Hi)).
  by rewrite sleep_del_if, rr_dequeue_upd.
Qed.

Lemma scheduler_sleep_timeout_unlink now s p t :
  sched_pre s -> is_Some (procs s !! p) ->
  scheduler_sleep_timeout rr_policy now s p t
  = schedule rr_policy now
      (let s1 := unlink p s in
       let s2 := upd p (set_wakeup (u64 (clock s + t))) (upd p (set_state PROC_STATE_SLEEPING) s1) in
       with_sleep_queue (sleep_queue s1 ++ [p]) s2).
Proof.
  intros Hpre Hp. unfold scheduler_sleep_timeout. cbv zeta.
  rewrite run_del_if by (intros i Hi; by destruct (pre_idle s Hpre i Hi)).
  rewrite sleep_del_if, rr_dequeue_upd by done.
  destruct (rr_dequeue_frame s p) as [_ _ _ Fk _ _].
  by replace (clock (sleep_list_del p (upd p (set_state PROC_STATE_SLEEPING) (rr_dequeue s p))))
    with (clock s).
Qed.

Lemma pre_unlinked_upd s p f g :
  sched_pre s -> is_Some (procs s !! p) ->
  (forall pr, priority (f pr) = priority pr) -> (forall pr, priority (g pr) = priority pr) ->
  sched_pre (upd p g (upd p f (unlink p s))).
Proof.
  intros Hpre Hp Hf Hg. destruct (unlink_spec s p Hpre) as (Hu & Hq & Hs & Ep & _).
  apply pre_upd; [apply pre_upd|..]; try done; rewrite ?procs_upd_is_Some, ?Ep; done.
Qed.

Lemma scheduler_sleep_ok now s p :
  sched_pre s -> is_Some (procs s !! p) -> sched_ok (scheduler_sleep rr_policy now s p).
Proof.
  intros Hpre Hp. rewrite scheduler_sleep_unlink by done.
  apply schedule_spec. by apply pre_unlinked_upd.
Qed.

Lemma scheduler_sleep_timeout_pre s p t :
  sched_pre s -> is_Some (procs s !! p) -> Some p <> idle s ->
  sched_pre (let s1 := unlink p s in
       let s2 := upd p (set_wakeup (u64 (clock s + t))) (upd p (set_state PROC_STATE_SLEEPING) s1) in
       with_sleep_queue (sleep_queue s1 ++ [p]) s2).
Proof.
  intros Hpre Hp Hni. cbv zeta.
  pose proof (pre_unlinked_upd s p (set_state PROC_STATE_SLEEPING) (set_wakeup (u64 (clock s + t)))
    Hpre Hp (fun _ => eq_refl) (fun _ => eq_refl)) as Hu.
  destruct (unlink_spec s p Hpre) as (_ & _ & Hs & Ep & _ & Ei & _).
  set (s2 := upd p _ _) in *. destruct Hu as [Hrq Hr Hi Hc Hn Hsl]. split; try done.
  - by apply (rq_ok_ext s2).
  - apply NoDup_app. split_and!; [done| |apply NoDup_singleton].
    intros x Hx ->%list_elem_of_singleton. done.
  - intros x Hx. simpl in Hx. apply elem_of_app in Hx as [Hx| ->%list_elem_of_singleton];
      [by apply Hsl|]. change (is_Some (procs s2 !! p) /\ Some p <> idle (unlink p s) /\
      state (pget s2 p) = PROC_STATE_SLEEPING). rewrite Ei.
    assert (is_Some (procs (unlink p s) !! p)) by (by rewrite Ep).
    unfold s2. rewrite !procs_upd_is_Some. split_and!; [done..|].
    rewrite !pget_upd by (by rewrite ?procs_upd_is_Some). by repeat case_decide.
Qed.

(** Taking a process off the sleep queue and clearing its deadline, as
    [scheduler_enqueue] and [scheduler_wake] do. *)
Definition unsleep (p : Z) (s : sched) : sched :=
  if sleep_list_linked s p then upd p (set_wakeup 0) (sleep_list_del p s) else s.

Lemma unsleep_spec s p :
  sched_pre s -> is_Some (procs s !! p) ->
  sched_pre (unsleep p s) /\ sleep_queue (unsleep p s) = filter (fun x => x <> p) (sleep_queue s) /\
  queues (unsleep p s) = queues s /\ curr (unsleep p s) = curr s /\ idle (unsleep p s) = idle s /\
  clock (unsleep p s) = clock s /\
  (forall x, is_Some (procs (unsleep p s) !! x) <-> is_Some (procs s !! x)) /\
  (forall x, x <> p -> pget (unsleep p s) x = pget s x) /\
  state (pget (unsleep p s) p) = state (pget s p) /\
  same_identity (pget (unsleep p s) p) (pget s p).
Proof.
  intros Hpre Hp. unfold unsleep, sleep_list_linked. case_bool_decide as Hs.
  - split_and!; try done.
    + apply pre_upd_keep; [by apply pre_sleep_del|done..| |].
      * intros Hq. by apply (pre_ready s Hpre).
      * intros [? _]%list_elem_of_filter. done.
    + intros. apply (procs_upd_is_Some (sleep_list_del p s)).
    + intros x Hx. rewrite pget_upd by done. by case_decide.
    + rewrite pget_upd by done. by case_decide.
    + rewrite pget_upd by done. by case_decide.
  - rewrite filter_ne_notin by done. by split_and!.
Qed.

Lemma scheduler_enqueue_unfold s p :
  Some p <> idle s -> process_schedulable (pget s p) = true ->
  scheduler_enqueue rr_policy s p
  = let s1 := upd p (set_state PROC_STATE_READY) (unsleep p s) in
    rr_enqueue (upd p (set_slice (rr_time_slice (pget s1 p))) s1) p.
Proof.
  intros Hi Hs. unfold scheduler_enqueue. rewrite bool_decide_eq_false_2, Hs by done. done.
Qed.

Lemma schedulable_same a b :
  state a = state b -> flags a = flags b -> process_schedulable a = process_schedulable b.
Proof. intros Hs Hf. unfold process_schedulable. by rewrite Hs, Hf. Qed.

Lemma scheduler_enqueue_spec s p :
  sched_pre s -> is_Some (procs s !! p) -> Some p <> curr s ->
  Some p <> idle s -> process_schedulable (pget s p) = true ->
  let s' := scheduler_enqueue rr_policy s p in
  sched_pre s' /\ sleep_queue s' = filter (fun x => x <> p) (sleep_queue s) /\
  curr s' = curr s /\ idle s' = idle s /\ clock s' = clock s /\
  (forall x, is_Some (procs s' !! x) <-> is_Some (procs s !! x)) /\
  (forall x, x <> p -> pget s' x = pget s x) /\
  (forall x, x ∈ concat (queues s') <-> x ∈ concat (queues s) \/ x = p) /\
  same_identity (pget s' p) (pget s p).
Proof.
  intros Hpre Hp Hnc Hni Hsch. cbv zeta. rewrite scheduler_enqueue_unfold by done. cbv zeta.
  destruct (unsleep_spec s p Hpre Hp) as (Upre & Usl & Uq & Uc & Ui & Uk & Ud & Ug & Ust & Uid).
  set (s0 := unsleep p s) in *. clearbody s0.
  assert (Hp0 : is_Some (procs s0 !! p)) by (by apply Ud).
  assert (Hsch0 : process_schedulable (pget s0 p) = true)
    by (rewrite <- Hsch; apply schedulable_same; [done|apply Uid]).
  assert (Hns : p ∉ sleep_queue s0) by (rewrite Usl, list_elem_of_filter; naive_solver).
  set (s1 := upd p (set_state PROC_STATE_READY) s0).
  assert (Hg1 : forall x, pget s1 x = if decide (x = p) then set_state PROC_STATE_READY (pget s0 x)
    else pget s0 x) by (intros; by apply pget_upd).
  assert (Hp1 : is_Some (procs s1 !! p)) by (by apply procs_upd_is_Some).
  assert (Hready : process_schedulable (set_state PROC_STATE_READY (pget s0 p)) = true)
    by (by apply set_state_schedulable).
  assert (Hpre1 : sched_pre s1) by (by apply pre_upd_keep).
  set (s2 := upd p (set_slice (rr_time_slice (pget s1 p))) s1).
  assert (Hg2 : pget s2 p = set_slice (rr_time_slice (pget s1 p)) (set_state PROC_STATE_READY (pget s0 p)))
    by (unfold s2; rewrite pget_upd, Hg1 by done; by case_decide).
  assert (Hp2 : is_Some (procs s2 !! p)) by (by apply procs_upd_is_Some).
  assert (Hpre2 : sched_pre s2).
  { apply pre_upd_keep; try done. intros _. rewrite Hg1. case_decide; done. }
  assert (Hpre3 : sched_pre (rr_enqueue s2 p)).
  { apply pre_enqueue; try done.
    - change (Some p <> idle s0). by rewrite Ui.
    - change (Some p <> curr s0). by rewrite Uc.
    - by rewrite Hg2.
    - by rewrite Hg2. }
  destruct (rr_enqueue_frame s2 p) as [Fp Fc Fi Fk Fs Ff].
  assert (Hg : forall x, pget (rr_enqueue s2 p) x = pget s2 x) by (intros; unfold pget; by rewrite Fp).
  split_and!; try done.
  - by rewrite Fs.
  - by rewrite Fc.
  - by rewrite Fi.
  - by rewrite Fk.
  - intros x. rewrite Fp. unfold s2, s1. rewrite !procs_upd_is_Some. apply Ud.
  - intros x Hx. rewrite Hg. unfold s2. rewrite pget_upd by done. case_decide; [done|].
    rewrite (Hg1 x). case_decide; [done|]. by apply Ug.
  - intros x. rewrite (rr_enqueue_elem s2 p x) by apply Hpre2.
    change (queues s2) with (queues s0). by rewrite Uq.
  - rewrite Hg, Hg2. exact Uid.
Qed.

Lemma scheduler_enqueue_ok s p :
  sched_ok s -> is_Some (procs s !! p) -> Some p <> curr s ->
  sched_ok (scheduler_enqueue rr_policy s p).
Proof.
  intros [Hpre Hrun] Hp Hnc.
  destruct (decide (Some p = idle s)) as [Hi|Hni];
    [unfold scheduler_enqueue; by rewrite bool_decide_eq_true_2|].
  destruct (process_schedulable (pget s p)) eqn:Hsch;
    [|unfold scheduler_enqueue; by rewrite bool_decide_eq_false_2, Hsch].
  destruct (scheduler_enqueue_spec s p Hpre Hp Hnc Hni Hsch) as (Ho & _ & Hc & _ & _ & _ & Hg & _).
  split; [done|]. intros c Hcc. rewrite Hc in Hcc. rewrite Hg by congruence. by apply Hrun.
Qed.
