(* ===== verification/SchedProps.v ===== *)
(** * Properties of the scheduler

    Preservation of the scheduler invariant by the remaining operations, and
    the theorems about [Sched]: which process runs next, bounded waiting within
    a priority, wake-up of sleepers, and that an exited process never runs
    again. *)

From S2P Require Import Prelude Bitmap Sched.

(** ** Invariant lemmas *)

(** The invariant does not depend on the flags, the counters and the clock. *)
Lemma sched_pre_ext s s' :
  procs s' = procs s -> queues s' = queues s -> prio_bitmap s' = prio_bitmap s ->
  nr_running s' = nr_running s -> curr s' = curr s -> idle s' = idle s ->
  sleep_queue s' = sleep_queue s -> sched_pre s -> sched_pre s'.
Proof.
  intros Hp Hq Hb Hn Hc Hi Hs [H1 H2 H3 H4 H5 H6].
  split; unfold pget in *; rewrite ?Hp, ?Hq, ?Hc, ?Hi, ?Hs; try done.
  by apply (rq_ok_ext s).
Qed.

Lemma sched_ok_flags s f : sched_ok s -> sched_ok (with_ti_flags f s).
Proof. intros [Hpre Hrun]. split; [by apply (sched_pre_ext s)|done]. Qed.

Lemma sched_ok_clock s n : sched_ok s -> sched_ok (with_clock n s).
Proof. intros [Hpre Hrun]. split; [by apply (sched_pre_ext s)|done]. Qed.

(** A running process is not asleep. *)
Lemma curr_not_asleep s c : sched_ok s -> curr s = Some c -> c ∉ sleep_queue s.
Proof.
  intros [Hpre Hrun] Hc Hs. destruct (pre_sleep s Hpre c Hs) as (_ & _ & Hst).
  specialize (Hrun c Hc). congruence.
Qed.

(** Updating the current process without touching its state or priority. *)
Lemma sched_ok_upd_curr s c f :
  sched_ok s -> curr s = Some c -> (forall pr, priority (f pr) = priority pr) ->
  (forall pr, state (f pr) = state pr) -> sched_ok (upd c f s).
Proof.
  intros Hok Hc Hp Hst. pose proof (curr_not_asleep s c Hok Hc). destruct Hok as [Hpre Hrun].
  destruct (pre_curr s Hpre c Hc). split; [by apply pre_upd|].
  intros c' Hc'. rewrite pget_upd by done. case_decide; [rewrite Hst|]; by apply Hrun.
Qed.

Lemma rr_tick_ok s c : sched_ok s -> curr s = Some c -> sched_ok (rr_tick s c).
Proof.
  intros Hok Hc. unfold rr_tick. case_bool_decide; [done|].
  set (s1 := upd c _ s). assert (Hok1 : sched_ok s1) by (by apply sched_ok_upd_curr).
  destruct (_ <=? 0); [|done]. destruct (_ >? 0); [by apply sched_ok_flags|].
  by apply sched_ok_upd_curr.
Qed.

Lemma wake_sleeper_ok s p :
  sched_ok s -> is_Some (procs s !! p) -> sched_ok (wake_sleeper rr_policy s p).
Proof.
  intros Hok Hp. unfold wake_sleeper. destruct (_ && _) eqn:Hb; [|done].
  zbool. apply bool_decide_eq_true in H. pose proof Hok as [Hpre Hrun].
  assert (Hnc : Some p <> curr s) by (intros Hx; symmetry in Hx; specialize (Hrun p Hx); congruence).
  assert (Hnq : p ∉ concat (queues s)).
  { intros Hq. destruct (pre_ready s Hpre p Hq). congruence. }
  apply scheduler_enqueue_ok; [|by apply (procs_upd_is_Some (sleep_list_del p s))|done].
  split.
  - apply pre_upd; [by apply pre_sleep_del|done..|]. simpl. rewrite list_elem_of_filter. tauto.
  - intros c Hc. change (curr s = Some c) in Hc. rewrite pget_upd by done.
    case_decide; [congruence|]. by apply Hrun.
Qed.

Lemma scheduler_enqueue_dom s p x :
  is_Some (procs (scheduler_enqueue rr_policy s p) !! x) <-> is_Some (procs s !! x).
Proof.
  unfold scheduler_enqueue. case_bool_decide; [done|].
  destruct (process_schedulable (pget s p)); [|done]. cbn [negb op_enqueue rr_policy].
  set (s0 := if sleep_list_linked s p then _ else s).
  assert (H0 : is_Some (procs s0 !! x) <-> is_Some (procs s !! x))
    by (unfold s0; case_match; [apply (procs_upd_is_Some (sleep_list_del p s))|done]).
  match goal with |- context [rr_enqueue ?t p] => destruct (rr_enqueue_frame t p) as [-> _ _ _ _ _] end.
  by rewrite !procs_upd_is_Some.
Qed.

Lemma wake_sleeper_dom s p x :
  is_Some (procs (wake_sleeper rr_policy s p) !! x) <-> is_Some (procs s !! x).
Proof.
  unfold wake_sleeper. case_match; [|done]. rewrite scheduler_enqueue_dom.
  apply (procs_upd_is_Some (sleep_list_del p s)).
Qed.

Lemma wake_sleepers_ok l s :
  sched_ok s -> (forall p, p ∈ l -> is_Some (procs s !! p)) ->
  sched_ok (fold_left (wake_sleeper rr_policy) l s).
Proof.
  revert s. induction l as [|p l IH]; intros s Hok Hl; [done|]. cbn [fold_left]. apply IH.
  - apply wake_sleeper_ok; [done|]. apply Hl. by left.
  - intros x Hx. apply wake_sleeper_dom, Hl. by right.
Qed.

(** The accounting part of a tick. *)
Definition tick_curr (s : sched) : sched :=
  match curr s with
  | None => s
  | Some p =>
    rr_tick (upd p (fun pr =>
      let kernel := flagb (flags pr) PROC_FLAG_KERNEL in
      set_times (u64 (runtime pr + TICK_MS))
        (if kernel then utime pr else u64 (utime pr + 1))
        (if kernel then u64 (stime pr + 1) else stime pr) pr) s) p
  end.

Lemma scheduler_tick_unfold s :
  let s1 := with_clock (u64 (clock (tick_curr s) + TICK_MS)) (tick_curr s) in
  scheduler_tick rr_policy s = fold_left (wake_sleeper rr_policy) (sleep_queue s1) s1.
Proof. unfold scheduler_tick, tick_curr. by destruct (curr s). Qed.

Lemma tick_curr_ok s : sched_ok s -> sched_ok (tick_curr s).
Proof.
  intros Hok. unfold tick_curr. destruct (curr s) as [c|] eqn:Hc; [|done].
  apply rr_tick_ok; [|done]. by apply sched_ok_upd_curr.
Qed.

Lemma scheduler_tick_ok s : sched_ok s -> sched_ok (scheduler_tick rr_policy s).
Proof.
  intros Hok. rewrite scheduler_tick_unfold. pose proof (tick_curr_ok s Hok) as H1.
  apply wake_sleepers_ok; [by apply sched_ok_clock|].
  intros p Hp. by apply (pre_sleep _ (proj1 H1)).
Qed.

Lemma scheduler_wake_ok s p :
  sched_ok s -> is_Some (procs s !! p) -> sched_ok (scheduler_wake rr_policy s p).
Proof.
  intros Hok Hp. unfold scheduler_wake. destruct (_ || _) eqn:Hb; [|done].
  fold (unsleep p s). pose proof Hok as [Hpre Hrun].
  assert (Hnr : state (pget s p) <> PROC_STATE_RUNNING).
  { intros Hx. rewrite Hx in Hb. done. }
  assert (Hnc : Some p <> curr s) by (intros Hx; symmetry in Hx; by apply Hnr, Hrun).
  destruct (unsleep_spec s p Hpre Hp) as (Upre & _ & _ & Uc & _ & _ & Ud & Ug & _).
  assert (Hok' : sched_ok (scheduler_enqueue rr_policy (unsleep p s) p)).
  { apply scheduler_enqueue_ok; [|by apply Ud|congruence]. split; [done|].
    intros c Hc. rewrite Uc in Hc. rewrite Ug by congruence. by apply Hrun. }
  case_match; [by apply sched_ok_flags|done].
Qed.

Lemma exiting_flag f : flagb (Z.lor f PROC_FLAG_EXITING) PROC_FLAG_EXITING = true.
Proof.
  change PROC_FLAG_EXITING with (2 ^ 3). rewrite flagb_pow2 by lia.
  by rewrite Z.lor_spec, Z.pow2_bits_true, orb_true_r by lia.
Qed.

(** The state in which an exiting process calls [schedule]. *)
Definition exiting (p : Z) (s : sched) : sched :=
  upd p (fun pr => set_state PROC_STATE_ZOMBIE
                     (set_flags (Z.lor (flags pr) PROC_FLAG_EXITING) pr)) s.

Lemma exiting_pre s p : sched_ok s -> curr s = Some p -> sched_pre (exiting p s).
Proof.
  intros Hok Hc. pose proof (curr_not_asleep s p Hok Hc). destruct Hok as [Hpre _].
  destruct (pre_curr s Hpre p Hc). by apply pre_upd.
Qed.

Lemma scheduler_exit_ok now s s' :
  sched_ok s -> scheduler_exit rr_policy now s = Some s' -> sched_ok s'.
Proof.
  intros Hok He. unfold scheduler_exit in He. destruct (curr s) as [p|] eqn:Hc; [|done].
  case_bool_decide; simplify_eq. apply schedule_spec. by apply exiting_pre.
Qed.

Lemma scheduler_dequeue_ok s p : sched_ok s -> sched_ok (scheduler_dequeue rr_policy s p).
Proof.
  intros [Hpre Hrun]. unfold scheduler_dequeue. case_bool_decide; [done|].
  cbn [op_dequeue rr_policy]. split; [by apply pre_dequeue|].
  destruct (rr_dequeue_frame s p) as [Fp Fc _ _ _ _]. intros c. rewrite Fc. intros Hc.
  unfold pget. rewrite Fp. by apply Hrun.
Qed.

(** Changing the priority of a process that is not queued. *)
Lemma rq_set_prio s p x :
  rq_ok s -> is_Some (procs s !! p) -> (p ∉ concat (queues s)) -> 0 <= x < MAX_PRIO ->
  rq_ok (upd p (set_prio x) s).
Proof.
  intros [H1 H2 H3 H4 H5 H6 H7 H8 H9 H10] Hp Hq Hx.
  assert (Hg : forall y, pget (upd p (set_prio x) s) y
    = if decide (y = p) then set_prio x (pget s y) else pget s y) by (intros; by rewrite pget_upd).
  split; try done.
  - intros i y Hi0 Hy. rewrite Hg. case_decide as Hd; [subst y|by apply H6]. destruct Hq.
    apply elem_of_concat_qat. exists i. split; [|done]. split; [done|].
    apply Z.nle_gt. intros Hle. change (p ∈ qat (queues s) i) in Hy.
    rewrite qat_overflow in Hy by done. by apply elem_of_nil in Hy.
  - intros y Hy. apply procs_upd_is_Some. by apply H8.
  - unfold upd. simpl. by rewrite <- (size_dom (D := gset Z)), dom_alter_L, size_dom.
  - intros y. rewrite Hg. case_decide; [done|]. apply H10.
Qed.

Lemma pre_set_prio s p x :
  sched_pre s -> is_Some (procs s !! p) -> (p ∉ concat (queues s)) -> 0 <= x < MAX_PRIO ->
  sched_pre (upd p (set_prio x) s).
Proof.
  intros [Hrq Hr Hi Hc Hn Hs] Hp Hq Hx.
  assert (Hg : forall y, pget (upd p (set_prio x) s) y
    = if decide (y = p) then set_prio x (pget s y) else pget s y) by (intros; by rewrite pget_upd).
  assert (Hst : forall y, state (pget (upd p (set_prio x) s) y) = state (pget s y))
    by (intros; rewrite Hg; by case_decide).
  split; try done.
  - by apply rq_set_prio.
  - intros y Hy. rewrite Hg. case_decide; [subst; done|]. by apply Hr.
  - intros i Hid. rewrite procs_upd_is_Some. by apply Hi.
  - intros c Hcc. rewrite procs_upd_is_Some. by apply Hc.
  - intros y Hy. rewrite procs_upd_is_Some, Hst. by apply Hs.
Qed.

(** When a priority may change: not of a running process, which would be queued
    while it runs, and of a ready one when it is one to be queued. *)
Definition renice_safe (s : sched) (p : Z) : Prop :=
  state (pget s p) <> PROC_STATE_RUNNING /\
  (state (pget s p) = PROC_STATE_READY -> Some p <> idle s /\ process_schedulable (pget s p) = true).

Lemma queued_renice_safe s p : sched_pre s -> p ∈ concat (queues s) -> renice_safe s p.
Proof.
  intros Hpre Hq. destruct (pre_ready s Hpre p Hq) as [Hst Hsch]. split; [by rewrite Hst|]. intros _. split; [|done].
  intros Hi. symmetry in Hi. by destruct (pre_idle s Hpre p Hi).
Qed.

(** A ready process goes to the queue of the new priority; a process that is
    neither ready nor running only gets the priority. *)
Lemma rr_set_priority_ok s p x :
  sched_ok s -> is_Some (procs s !! p) -> renice_safe s p -> sched_ok (rr_set_priority s p x).
Proof.
  intros [Hpre Hrun] Hp [Hnrun Hcase]. pose proof (clamp_prio_range x) as Hx.
  unfold rr_set_priority. destruct (decide (state (pget s p) = PROC_STATE_READY)) as [Hst|Hnr].
  - destruct (Hcase Hst) as [Hni Hsch]. rewrite Hst. cbn [orb].
    rewrite bool_decide_eq_true_2 by done. cbn [orb].
    assert (Hnc : Some p <> curr s) by (intros Hc; by apply Hnrun, Hrun).
    destruct (rr_dequeue_frame s p) as [Fp Fc Fi _ _ _].
    assert (Hp' : is_Some (procs (rr_dequeue s p) !! p)) by (by rewrite Fp).
    set (s1 := upd p (set_prio (clamp_prio x)) (rr_dequeue s p)).
    assert (Hg : forall y, pget s1 y
      = if decide (y = p) then set_prio (clamp_prio x) (pget s y) else pget s y).
    { intros. unfold s1. rewrite pget_upd by done. unfold pget. by rewrite Fp. }
    assert (Hpre1 : sched_pre s1).
    { apply pre_set_prio; [by apply pre_dequeue|done| |done]. rewrite rr_dequeue_elem. tauto. }
    split.
    + apply pre_enqueue; [done|by apply procs_upd_is_Some| | | |].
      * change (Some p <> idle (rr_dequeue s p)). by rewrite Fi.
      * change (Some p <> curr (rr_dequeue s p)). by rewrite Fc.
      * rewrite Hg. by case_decide.
      * rewrite Hg. by case_decide.
    + intros c. destruct (rr_enqueue_frame s1 p) as [Ep Ec _ _ _ _]. rewrite Ec.
      change (curr (rr_dequeue s p) = Some c -> state (pget (rr_enqueue s1 p) c) = PROC_STATE_RUNNING).
      rewrite Fc. intros Hc. unfold pget at 1. rewrite Ep. fold (pget s1 c). rewrite Hg.
      case_decide; [congruence|]. by apply Hrun.
  - rewrite !bool_decide_eq_false_2 by done. cbn [orb]. split.
    + apply pre_set_prio; try done. intros Hq. by destruct (pre_ready s Hpre p Hq).
    + intros c Hc. rewrite pget_upd by done. case_decide; by apply Hrun.
Qed.

(** Otherwise the process ends on a queue where it must not be. *)
Lemma rr_set_priority_unsafe s p x :
  sched_ok s -> is_Some (procs s !! p) -> sched_ok (rr_set_priority s p x) -> renice_safe s p.
Proof.
  intros [Hpre _] Hp [Hpre' _]. unfold rr_set_priority in Hpre'. unfold renice_safe.
  destruct (decide (state (pget s p) = PROC_STATE_READY \/ state (pget s p) = PROC_STATE_RUNNING)) as [Hst|Hst]; [|tauto].
  replace (_ || _) with true in Hpre' by (destruct Hst as [-> | ->]; done).
  destruct (rr_dequeue_frame s p) as [Fp _ Fi _ _ _]. set (s1 := upd p (set_prio (clamp_prio x)) (rr_dequeue s p)) in Hpre'.
  assert (Hg : pget s1 p = set_prio (clamp_prio x) (pget s p)).
  { unfold s1. rewrite pget_upd by (by rewrite Fp). rewrite decide_True by done. unfold pget. by rewrite Fp. }
  assert (Hrq1 : rq_ok s1).
  { apply rq_set_prio; [apply rr_dequeue_ok, Hpre|by rewrite Fp| |apply clamp_prio_range]. rewrite rr_dequeue_elem. tauto. }
  assert (Hin : p ∈ concat (queues (rr_enqueue s1 p))) by (apply rr_enqueue_elem; [done|by right]).
  pose proof (pre_ready _ Hpre' p Hin) as [Hr Hsch]. rewrite (same_frame_pget s1) in Hr, Hsch by apply rr_enqueue_frame.
  rewrite Hg in Hr, Hsch. cbn in Hr. split; [by rewrite Hr|]. intros _. split; [|exact Hsch].
  intros Hi. destruct (pre_idle _ Hpre' p) as [Hno _]; [|done].
  destruct (rr_enqueue_frame s1 p) as [_ _ -> _ _ _]. change (idle (rr_dequeue s p) = Some p). by rewrite Fi.
Qed.

(** The nice value is of no concern. *)
Lemma set_nice_ok s p n : sched_ok s -> is_Some (procs s !! p) ->
  sched_ok (upd p (set_nice n) s) /\ (renice_safe (upd p (set_nice n) s) p <-> renice_safe s p).
Proof.
  intros [Hpre Hrun] Hp.
  assert (Hg : forall y, pget (upd p (set_nice n) s) y = if decide (y = p) then set_nice n (pget s y) else pget s y) by (intros; by rewrite pget_upd).
  split.
  - split; [|intros c Hc; rewrite Hg; case_decide; by apply Hrun]. destruct Hpre as [Hrq Hr Hi Hc Hn Hs]. split; try done.
    + by apply rq_ok_upd.
    + intros y Hy. rewrite Hg. case_decide; by apply Hr.
    + intros i Hid. rewrite procs_upd_is_Some. by apply Hi.
    + intros c Hcc. rewrite procs_upd_is_Some. by apply Hc.
    + intros y Hy. rewrite procs_upd_is_Some, Hg. case_decide; by apply Hs.
  - unfold renice_safe. rewrite Hg, decide_True by done. done.
Qed.

(** Enqueueing the running process leaves it marked as ready. *)
Lemma enqueue_current_breaks s p : sched_ok s -> curr s = Some p -> Some p <> idle s -> process_schedulable (pget s p) = true ->
  ~ sched_ok (scheduler_enqueue rr_policy s p).
Proof.
  intros Hok Hc Hni Hsch [_ Hrun]. pose proof (curr_not_asleep s p Hok Hc) as Hns. pose proof Hok as [Hpre _].
  destruct (pre_curr s Hpre p Hc) as [Hp _]. unfold scheduler_enqueue in Hrun.
  rewrite bool_decide_eq_false_2, Hsch in Hrun by done. cbn [negb] in Hrun.
  unfold sleep_list_linked in Hrun. rewrite bool_decide_eq_false_2 in Hrun by done. cbn [op_enqueue op_time_slice rr_policy] in Hrun.
  set (s1 := upd p (set_state PROC_STATE_READY) s) in Hrun. set (s2 := upd p _ s1) in Hrun.
  specialize (Hrun p). rewrite (same_frame_pget s2) in Hrun by apply rr_enqueue_frame.
  destruct (rr_enqueue_frame s2 p) as [_ Ec _ _ _ _]. rewrite Ec in Hrun. specialize (Hrun Hc). unfold s2 in Hrun.
  rewrite pget_upd, decide_True in Hrun by (done || by apply procs_upd_is_Some). unfold s1 in Hrun.
  by rewrite pget_upd, decide_True in Hrun by done.
Qed.

(** [schedule] never touches the sleep queue and the idle process. *)
Lemma pick_bits_frame fuel w bits s : let s' := (rr_pick_bits fuel w bits s).2 in sleep_queue s' = sleep_queue s /\ idle s' = idle s.
Proof.
  revert bits s. induction fuel as [|fuel IH]; intros bits s; cbn [rr_pick_bits]; [done|].
  repeat case_match; try done. cbv zeta. edestruct IH as [-> ->]. done.
Qed.

Lemma pick_words_frame n w s : let s' := (rr_pick_words n w s).2 in sleep_queue s' = sleep_queue s /\ idle s' = idle s.
Proof.
  revert w s. induction n as [|n IH]; intros w s; cbn [rr_pick_words]; [done|].
  pose proof (pick_bits_frame 64 w (aget (prio_bitmap s) w) s) as Hb. destruct (rr_pick_bits _ _ _ _) as [[p|] s1]; [done|].
  cbv zeta in *. destruct (IH (w + 1) s1) as [-> ->]. done.
Qed.

Lemma pick_next_frame s : let s' := (rr_pick_next s).2 in sleep_queue s' = sleep_queue s /\ idle s' = idle s.
Proof. unfold rr_pick_next. apply pick_words_frame. Qed.

Lemma schedule_sleep_frame now s :
  sleep_queue (schedule rr_policy now s) = sleep_queue s /\ idle (schedule rr_policy now s) = idle s.
Proof.
  assert (Hpark : sleep_queue (park_prev rr_policy s) = sleep_queue s /\ idle (park_prev rr_policy s) = idle s).
  { unfold park_prev. repeat case_match; try done. cbn [op_enqueue rr_policy].
    match goal with |- context [rr_enqueue ?a ?b] => destruct (rr_enqueue_frame a b) as [_ _ -> _ -> _] end. done. }
  unfold schedule. cbv zeta. cbn [op_pick_next rr_policy].
  pose proof (pick_next_frame (park_prev rr_policy s)) as Hpick.
  destruct (rr_pick_next _) as [picked s1]. cbv zeta in Hpick. cbn [snd] in Hpick. destruct Hpark as [E1 E2]. rewrite E1, E2 in Hpick.
  assert (Hd : forall next, sleep_queue (dispatch rr_policy now s1 next) = sleep_queue s /\ idle (dispatch rr_policy now s1 next) = idle s).
  { intros [n|]; [|done]. unfold dispatch. cbv zeta. cbn [op_dequeue rr_policy]. destruct (rr_dequeue_frame s1 n) as [_ _ Ei _ Es _].
    repeat case_match; cbn; rewrite ?Ei, ?Es; done. }
  case_bool_decide; apply Hd.
Qed.

Lemma sleep_timeout_idle now s p t : sched_pre s -> is_Some (procs s !! p) ->
  sched_ok (scheduler_sleep_timeout rr_policy now s p t) -> Some p <> idle s.
Proof.
  intros Hpre Hp. rewrite scheduler_sleep_timeout_unlink by done. cbv zeta. set (s1 := with_sleep_queue _ _). intros [Hpre' _] Hi.
  destruct (schedule_sleep_frame now s1) as [Es Ei].
  assert (Hin : p ∈ sleep_queue s1) by (apply elem_of_app; right; by left). rewrite <- Es in Hin.
  destruct (pre_sleep _ Hpre' p Hin) as (_ & Hni & _). apply Hni. rewrite Ei, Hi. unfold s1, unlink. cbn.
  destruct (rr_dequeue_frame s p) as [_ _ -> _ _ _]. done.
Qed.

Lemma scheduler_init_ok ps i :
  Z.of_nat (size ps) < 2 ^ 64 -> is_Some (ps !! i) ->
  (forall p, 0 <= priority (default proc_null (ps !! p)) < MAX_PRIO) ->
  sched_ok (scheduler_init ps (Some i)).
Proof.
  intros Hs Hi Hp.
  assert (Hc : forall n, concat (replicate n ([] : list Z)) = []) by (induction n; done).
  assert (Hq : forall j, queue (scheduler_init ps (Some i)) j = []).
  { intros j. unfold queue, scheduler_init. cbn [queues].
    destruct (replicate _ _ !! _) as [q|] eqn:Hl; [|done]. by apply lookup_replicate in Hl as [-> _]. }
  split; [|done]. split; cbn [scheduler_init curr idle sleep_queue procs queues]; rewrite ?Hc; try done.
  - split; cbn [scheduler_init curr idle sleep_queue procs queues prio_bitmap nr_running]; rewrite ?Hc; try done.
    + by repeat constructor.
    + apply NoDup_nil_2.
    + intros j p _. rewrite Hq. by intros ?%elem_of_nil.
    + intros j Hj. rewrite Hq. unfold bget, aget.
      destruct (replicate _ _ !! _) as [w|] eqn:Hl; [|apply Z.bits_0].
      apply lookup_replicate in Hl as [-> _]. apply Z.bits_0.
    + intros p. by intros ?%elem_of_nil.
  - intros p. by intros ?%elem_of_nil.
  - intros j [= <-]. split; [apply not_elem_of_nil|done].
  - apply NoDup_nil_2.
  - intros p. by intros ?%elem_of_nil.
Qed.

(** ** A concrete scheduler

    The idle process 0 and four processes; 3 has the higher priority. *)

Definition proc_example (prio : Z) : proc :=
  Proc PROC_STATE_CREATED 0 prio 0 DEF_TIMESLICE 0 0 0 0 0 0.

Definition procs_example : gmap Z proc :=
  {[ 0 := proc_example 139; 1 := proc_example 120; 2 := proc_example 120;
     3 := proc_example 110; 4 := proc_example 120 ]}.

(** Process 1 runs; 2, 4 and 3 were enqueued in this order. *)
Definition sched_example : sched :=
  let s := scheduler_start 0 (Some 1) (scheduler_init procs_example (Some 0)) in
  scheduler_enqueue rr_policy
    (scheduler_enqueue rr_policy (scheduler_enqueue rr_policy s 2) 4) 3.

Lemma sched_example_ok : sched_ok sched_example.
Proof.
  assert (Hinit : sched_ok (scheduler_init procs_example (Some 0))).
  { apply scheduler_init_ok; [by vm_compute|by vm_compute; eexists|].
    intros p. destruct (procs_example !! p) as [pr|] eqn:Hp; [|by vm_compute].
    unfold procs_example in Hp. repeat (apply lookup_insert_Some in Hp as [[_ <-]|[_ Hp]]; [by vm_compute|]).
    by apply lookup_singleton_Some in Hp as [_ <-]. }
  unfold sched_example, scheduler_start.
  repeat (apply scheduler_enqueue_ok; [|by vm_compute; eexists|by vm_compute]).
  apply schedule_spec. by apply scheduler_enqueue_ok; [|vm_compute; eexists|vm_compute].
Qed.

(** ** Properties *)

(** The bitmap search of [rr_pick_next] returns the head of the
    highest-priority non-empty queue, as a scan of the queues would, or the idle
    process when every queue is empty, and leaves the run queue unchanged. *)
Theorem rr_pick_next_equiv s (Hok : rq_ok s) :
  rr_pick_next s
  = (match find_range (nonempty s) 0 MAX_PRIO with
     | Some i => head (queue s i)
     | None => idle s
     end, s).
Proof.
  rewrite rr_pick_next_spec by done. unfold first_ready.
  destruct (find_range _ _ _) as [i|] eqn:Hr; [|done].
  apply find_range_Some in Hr as (_ & Hne & _). unfold nonempty in Hne. zbool.
  apply bool_decide_eq_false in Hne. by destruct (queue s i).
Qed.

Lemma rr_pick_next_equiv_witness :
  (rr_pick_next sched_example).1 = Some 3 /\
  rr_pick_next sched_example
  = (match find_range (nonempty sched_example) 0 MAX_PRIO with
     | Some i => head (queue sched_example i)
     | None => idle sched_example
     end, sched_example).
Proof.
  split; [vm_compute; reflexivity|].
  apply (rr_pick_next_equiv sched_example), sched_example_ok.
Defined.

(** C36. The operations of the scheduler and its invariant: each queued process is
    queued once, at its own priority, ready and schedulable, and is not the idle
    process; the bitmap and the counter agree with the queues; sleepers are asleep
    and not idle; the current process is marked running and is not queued.
    Scheduling, the timer, dequeueing, sleeping without a timeout, waking and an
    exit that does not panic always keep it.  The others keep it in these cases and
    in no other: enqueueing, for a process that is not the current one (or when the
    call does nothing, for the idle process and one that exits); sleeping with a
    timeout, for a process other than the idle one; a change of the priority or the
    nice value, for a process that is not running and, when it is ready, is neither
    the idle process nor exiting. *)
Theorem sched_ops_preserve_ok now s p t (Hok : sched_ok s) (Hp : is_Some (procs s !! p)) :
  sched_ok (schedule rr_policy now s) /\
  sched_ok (scheduler_tick rr_policy s) /\
  sched_ok (timer_handler rr_policy now s) /\
  sched_ok (scheduler_dequeue rr_policy s p) /\
  sched_ok (scheduler_sleep rr_policy now s p) /\
  sched_ok (scheduler_wake rr_policy s p) /\
  (forall s', scheduler_exit rr_policy now s = Some s' -> sched_ok s') /\
  (sched_ok (scheduler_enqueue rr_policy s p) <->
     Some p <> curr s \/ Some p = idle s \/ process_schedulable (pget s p) = false) /\
  (sched_ok (scheduler_sleep_timeout rr_policy now s p t) <-> Some p <> idle s) /\
  (sched_ok (scheduler_set_priority rr_policy s p t) <-> renice_safe s p) /\
  (sched_ok (scheduler_set_nice rr_policy s p t) <-> renice_safe s p).
Proof.
  pose proof Hok as [Hpre _]. split_and!.
  - by apply schedule_spec.
  - by apply scheduler_tick_ok.
  - unfold timer_handler. pose proof (scheduler_tick_ok s Hok) as Ht.
    case_match; [by apply schedule_spec, Ht|done].
  - by apply scheduler_dequeue_ok.
  - by apply scheduler_sleep_ok.
  - by apply scheduler_wake_ok.
  - intros s'. by apply scheduler_exit_ok.
  - split.
    + intros He. destruct (decide (Some p = curr s)) as [Hc|]; [|by left]. right.
      destruct (decide (Some p = idle s)) as [|Hni]; [by left|right]. apply not_true_is_false. intros Hsch.
      by apply (enqueue_current_breaks s p).
    + intros [Hnc|[Hi|Hsch]]; [by apply scheduler_enqueue_ok|unfold scheduler_enqueue; by rewrite bool_decide_eq_true_2|].
      unfold scheduler_enqueue. case_bool_decide; [done|]. by rewrite Hsch.
  - split; [by apply sleep_timeout_idle|]. intros. rewrite scheduler_sleep_timeout_unlink by done.
    apply schedule_spec. by apply scheduler_sleep_timeout_pre.
  - split; [by apply rr_set_priority_unsafe|by apply rr_set_priority_ok].
  - unfold scheduler_set_nice. cbv zeta. set (n := if _ >? MAX_NICE then _ else _).
    destruct (set_nice_ok s p n Hok Hp) as [Hok' Hiff]. rewrite <- Hiff. assert (Hp' : is_Some (procs (upd p (set_nice n) s) !! p)) by (by apply procs_upd_is_Some).
    split; [by apply rr_set_priority_unsafe|by apply rr_set_priority_ok].
Qed.

(** Process 1 of the example may sleep, and the nice value of the waiting process 2
    may change, but not the one of process 1, which runs. *)
Lemma sched_ops_preserve_ok_witness :
  sched_ok (scheduler_sleep_timeout rr_policy 7 sched_example 1 20) /\
  sched_ok (scheduler_set_priority rr_policy sched_example 2 20) /\
  ~ sched_ok (scheduler_set_nice rr_policy sched_example 1 20).
Proof.
  assert (H1 : is_Some (procs sched_example !! 1)) by (vm_compute; eexists; reflexivity).
  assert (H2 : is_Some (procs sched_example !! 2)) by (vm_compute; eexists; reflexivity).
  destruct (sched_ops_preserve_ok 7 sched_example 1 20 sched_example_ok H1) as (_ & _ & _ & _ & _ & _ & _ & _ & Hs & _ & Hn).
  destruct (sched_ops_preserve_ok 7 sched_example 2 20 sched_example_ok H2) as (_ & _ & _ & _ & _ & _ & _ & _ & _ & Hx & _).
  split; [|split].
  - apply Hs. vm_compute. intros Hi. discriminate Hi.
  - apply Hx. split; [vm_compute; discriminate|]. intros _. split; [vm_compute; discriminate|vm_compute; reflexivity].
  - intros Hbad. destruct (proj1 Hn Hbad) as [Hr _]. apply Hr. vm_compute. reflexivity.
Defined.

(** A process the scheduler may run: a queued one, or the current one when it
    is still running. *)
Definition runnable (s : sched) (p : Z) : Prop :=
  p ∈ concat (queues s) \/ (curr s = Some p /\ parks s p = true).

Lemma parked_elem s p :
  sched_pre s -> p ∈ concat (queues (park_prev rr_policy s)) <-> runnable s p.
Proof.
  intros Hpre. destruct (park_prev_spec s Hpre) as (_ & _ & _ & _ & _ & _ & Hm & _).
  rewrite Hm. unfold runnable. split; [intros [?|(c & ? & ? & ->)]|intros [?|[? ?]]]; eauto.
Qed.

Lemma next_process_runnable s n :
  sched_pre s -> first_ready (park_prev rr_policy s) = Some n ->
  runnable s n /\ head (queue s (priority (pget s n)) ++ [n]) = Some n /\
  forall p, runnable s p -> priority (pget s n) <= priority (pget s p).
Proof.
  intros Hpre Hf. pose proof (park_prev_spec s Hpre) as (Hpk & _ & _ & _ & _ & _ & _ & Hq).
  pose proof (pk_rq _ Hpk) as Hrq. apply first_ready_Some in Hf as (Hin & Hhd & Hlow); [|done].
  destruct (park_identity s n Hpre) as (_ & Hpn & _). rewrite Hpn in Hhd, Hlow.
  pose proof (rq_range s (pre_rq s Hpre) n) as Hrange. split_and!.
  - by apply parked_elem.
  - rewrite Hq in Hhd by lia. destruct (queue s (priority (pget s n))); [done|]. exact Hhd.
  - intros p Hp. apply parked_elem in Hp; [|done]. destruct (park_identity s p Hpre) as (_ & Hpp & _).
    rewrite <- Hpp. apply Z.nlt_ge. intros Hlt.
    pose proof (rq_range _ Hrq p).
    assert (Hqp : p ∈ queue (park_prev rr_policy s) (priority (pget (park_prev rr_policy s) p)))
      by (apply linked_iff; [done|]; by apply bool_decide_eq_true).
    rewrite Hlow in Hqp by lia. by apply elem_of_nil in Hqp.
Qed.

(** C6. [schedule] runs the runnable process of the best priority, and within
    that priority the one at the head of its queue; it marks it running with a
    positive time slice, takes it off the queues and keeps every other runnable
    process queued.  The idle process runs only when nothing is runnable. *)
Theorem schedule_runs_highest now s (Hok : sched_ok s) :
  let s' := schedule rr_policy now s in
  (curr s' = idle s /\ forall p, ~ runnable s p) \/
  exists n, curr s' = Some n /\ runnable s n /\
    (forall p, runnable s p -> priority (pget s n) <= priority (pget s p)) /\
    head (queue s (priority (pget s n)) ++ [n]) = Some n /\
    state (pget s' n) = PROC_STATE_RUNNING /\ 0 < time_slice (pget s' n) /\
    forall p, p ∈ concat (queues s') <-> runnable s p /\ p <> n.
Proof.
  destruct Hok as [Hpre _].
  destruct (schedule_spec now s Hpre) as (Hok' & Hc & _ & _ & _ & _ & Hq & _ & _ & Hts).
  pose proof (park_prev_spec s Hpre) as (Hpk & _). pose proof (pk_rq _ Hpk) as Hrq.
  unfold next_process in *. destruct (first_ready (park_prev rr_policy s)) as [n|] eqn:Hf.
  - right. exists n. destruct (next_process_runnable s n Hpre Hf) as (Hr & Hhd & Hbest).
    split_and!; try done; [by apply Hok'|by apply Hts|]. intros p.
    rewrite elem_of_concat_queue by apply Hok'. setoid_rewrite Hq.
    setoid_rewrite list_elem_of_filter. rewrite <- parked_elem, elem_of_concat_queue by done.
    naive_solver.
  - left. split; [done|]. intros p. rewrite <- parked_elem by done.
    apply first_ready_None in Hf; [|done]. rewrite Hf. apply not_elem_of_nil.
Qed.

Lemma schedule_runs_highest_witness :
  curr (schedule rr_policy 5 sched_example) = Some 3 /\
  ((curr (schedule rr_policy 5 sched_example) = idle sched_example /\
    forall p, ~ runnable sched_example p) \/
   exists n, curr (schedule rr_policy 5 sched_example) = Some n /\ runnable sched_example n /\
    (forall p, runnable sched_example p ->
       priority (pget sched_example n) <= priority (pget sched_example p)) /\
    head (queue sched_example (priority (pget sched_example n)) ++ [n]) = Some n /\
    state (pget (schedule rr_policy 5 sched_example) n) = PROC_STATE_RUNNING /\
    0 < time_slice (pget (schedule rr_policy 5 sched_example) n) /\
    forall p, p ∈ concat (queues (schedule rr_policy 5 sched_example)) <->
      runnable sched_example p /\ p <> n).
Proof.
  split; [vm_compute; reflexivity|].
  exact (schedule_runs_highest 5 sched_example sched_example_ok).
Defined.

(** ** Bounded waiting *)

Lemma NoDup_queue s i : rq_ok s -> NoDup (queue s i).
Proof.
  intros Hok. pose proof (rq_nodup s Hok) as Hn. unfold queue.
  destruct (queues s !! Z.to_nat i) as [q|] eqn:Hq; [|apply NoDup_nil_2]. simpl.
  revert Hn Hq. generalize (Z.to_nat i). generalize (queues s).
  induction l as [|q' l IH]; intros k Hn Hq; [done|]. cbn [concat] in Hn.
  apply NoDup_app in Hn as (Hq' & _ & Hl). destruct k as [|k]; simplify_eq/=; [done|]. by eapply IH.
Qed.

Lemma empty_below s i :
  find_range (nonempty s) 0 i = None -> forall j, 0 <= j < i -> queue s j = [].
Proof.
  rewrite find_range_None. intros H j Hj. specialize (H j Hj). unfold nonempty in H. zbool.
  by apply bool_decide_eq_true in H.
Qed.

(** [i] is the best priority with a runnable process. *)
Definition best_priority (s : sched) (i : Z) : Prop :=
  0 <= i /\ (forall j, 0 <= j < i -> queue s j = []) /\
  (forall c, curr s = Some c -> parks s c = true -> i <= priority (pget s c)).

(** One call of [schedule] runs the head of the best queue and moves the others
    up by one place. *)
Lemma schedule_rotates now s i x q :
  sched_ok s -> best_priority s i -> queue s i = x :: q ->
  let s' := schedule rr_policy now s in
  sched_ok s' /\ curr s' = Some x /\ best_priority s' i /\ exists t, queue s' i = q ++ t.
Proof.
  intros [Hpre Hrun] (Hi & Hlow & Hcur) Hqi. pose proof (pre_rq s Hpre) as Hrq.
  destruct (schedule_spec now s Hpre) as (Hok' & Hc & _ & _ & _ & _ & Hq & _ & Hid & _).
  destruct (park_prev_spec s Hpre) as (Hpk & _ & _ & _ & _ & _ & _ & Hpq).
  assert (Himax : i < MAX_PRIO).
  { apply Z.nle_gt. intros ?. unfold queue in Hqi. fold (qat (queues s) i) in Hqi.
    by rewrite qat_overflow in Hqi by (by rewrite (rq_len s Hrq)). }
  set (t := match curr s with
            | Some c => if parks s c && (priority (pget s c) =? i) then [c] else [] | None => [] end).
  assert (Hplow : forall j, 0 <= j < i -> queue (park_prev rr_policy s) j = []).
  { intros j Hj. rewrite Hpq, Hlow by lia. simpl. destruct (curr s) as [c|] eqn:Hcc; [|done].
    destruct (parks s c) eqn:Hpkc; [|done]. specialize (Hcur c eq_refl Hpkc). simpl.
    destruct (Z.eqb_spec (priority (pget s c)) j); [lia|done]. }
  assert (Hpi : queue (park_prev rr_policy s) i = x :: q ++ t) by (rewrite Hpq, Hqi by lia; done).
  assert (Hnext : next_process s = Some x).
  { unfold next_process, first_ready. rewrite (proj2 (find_range_Some _ _ _ i)); [by rewrite Hpi|].
    unfold nonempty. split; [lia|]. split; [by rewrite Hpi|]. intros j Hj. by rewrite Hplow. }
  rewrite Hnext in Hc, Hq.
  assert (Hxp : priority (pget s x) = i) by (apply (rq_prio_of s Hrq); [done|rewrite Hqi; by left]).
  split_and!; try done.
  - split_and!; [done| |].
    + intros j Hj. by rewrite Hq, Hplow.
    + intros c Hc' _. rewrite Hc in Hc'. simplify_eq. destruct (Hid c) as (_ & -> & _). done.
  - exists t. rewrite Hq, Hpi. pose proof (NoDup_queue _ i (pk_rq _ Hpk)) as Hnd.
    rewrite Hpi in Hnd. apply NoDup_cons in Hnd as [Hnx _].
    rewrite filter_cons, decide_False by tauto. by apply filter_ne_notin.
Qed.

(** A step that takes the head of a queue reaches the element at place [k]
    after [k + 1] steps. *)
Lemma rotation_reaches {A} (step : A -> Z -> A) (I : A -> Prop) (Q : A -> list Z)
    (cur : A -> option Z) :
  (forall s now x q, I s -> Q s = x :: q ->
     I (step s now) /\ cur (step s now) = Some x /\ exists t, Q (step s now) = q ++ t) ->
  forall q1 p q2 times s, I s -> Q s = q1 ++ p :: q2 -> length times = S (length q1) ->
  cur (fold_left step times s) = Some p.
Proof.
  intros Hstep. induction q1 as [|x q1 IH]; intros p q2 [|now times] s HI HQ Ht; try done.
  - destruct times; [|done]. by apply (Hstep s now p q2).
  - destruct (Hstep s now x (q1 ++ p :: q2) HI HQ) as (HI' & _ & t & HQ').
    apply (IH p (q2 ++ t) times); [done|by rewrite HQ', <- app_assoc|by injection Ht].
Qed.

(** C33. Bounded waiting: a process at place [k] (from 0) of the best non-empty
    queue runs after [k + 1] calls of [schedule], whatever their times, when the
    running process does not have a better priority. *)
Theorem rr_bounded_waiting s i q1 p q2 times
    (Hok : sched_ok s) (Hbest : best_priority s i) (Hq : queue s i = q1 ++ p :: q2)
    (Htimes : length times = S (length q1)) :
  curr (fold_left (fun s now => schedule rr_policy now s) times s) = Some p.
Proof.
  apply (rotation_reaches _ (fun s => sched_ok s /\ best_priority s i) (fun s => queue s i) curr)
    with (q1 := q1) (q2 := q2); [|done..].
  intros s' now x q [Hok' Hbest'] Hq'.
  destruct (schedule_rotates now s' i x q Hok' Hbest' Hq') as (Ha & Hb & Hc & Hd). auto.
Qed.

Lemma rr_bounded_waiting_witness :
  curr (fold_left (fun s now => schedule rr_policy now s) [10; 20]
          (scheduler_dequeue rr_policy sched_example 3)) = Some 4.
Proof.
  assert (Hc : curr (scheduler_dequeue rr_policy sched_example 3) = Some 1)
    by (vm_compute; reflexivity).
  assert (Hp : priority (pget (scheduler_dequeue rr_policy sched_example 3) 1) = 120)
    by (vm_compute; reflexivity).
  assert (Hq : queue (scheduler_dequeue rr_policy sched_example 3) 120 = [2; 4])
    by (vm_compute; reflexivity).
  assert (Hnone : find_range (nonempty (scheduler_dequeue rr_policy sched_example 3)) 0 120 = None)
    by (vm_compute; reflexivity).
  apply (rr_bounded_waiting (scheduler_dequeue rr_policy sched_example 3) 120 [2] 4 [] [10; 20]).
  - apply scheduler_dequeue_ok, sched_example_ok.
  - split; [lia|]. split.
    + exact (empty_below _ _ Hnone).
    + intros c Hc' _. rewrite Hc in Hc'. injection Hc' as <-. rewrite Hp. lia.
  - exact Hq.
  - reflexivity.
Defined.

(** Time slices stay between 1 and 50 ticks for every nice value, and a
    nicer process never gets a longer slice. *)
Theorem rr_time_slice_correct a b
    (Ha : MIN_NICE <= nice a <= MAX_NICE) (Hb : MIN_NICE <= nice b <= MAX_NICE) :
  MIN_TIMESLICE <= rr_time_slice a <= 50 /\
  (nice a <= nice b -> rr_time_slice b <= rr_time_slice a).
Proof.
  split; [by apply rr_time_slice_bounds|]. intros Hle.
  unfold rr_time_slice in *.
  pose proof (Z.quot_div_nonneg (nice a) 2). pose proof (Z.quot_div_nonneg (nice b) 2).
  repeat zif; Z.div_mod_to_equations; lia.
Qed.

Lemma rr_time_slice_correct_witness :
  let p n := set_nice n (proc_example 120) in
  MIN_TIMESLICE <= rr_time_slice (p (-20)) <= 50 /\
  (nice (p (-20)) <= nice (p 19) -> rr_time_slice (p 19) <= rr_time_slice (p (-20))).
Proof.
  apply (rr_time_slice_correct (set_nice (-20) (proc_example 120)) (set_nice 19 (proc_example 120)));
    simpl; lia.
Defined.

(** ** Wake-up of sleepers *)

Lemma wake_sleeper_due s p :
  sched_ok s -> p ∈ sleep_queue s -> wakeup_tick (pget s p) <= clock s ->
  let s' := wake_sleeper rr_policy s p in
  sched_ok s' /\ clock s' = clock s /\
  sleep_queue s' = filter (fun x => x <> p) (sleep_queue s) /\
  (forall x, x <> p -> pget s' x = pget s x) /\
  (forall x, x ∈ concat (queues s) -> x ∈ concat (queues s')) /\
  (process_schedulable (pget s p) = true -> p ∈ concat (queues s')).
Proof.
  intros Hok Hs Hdue. pose proof Hok as [Hpre Hrun]. destruct (pre_sleep s Hpre p Hs) as (Hp & Hni & Hst).
  pose proof (wake_sleeper_ok s p Hok Hp) as Hok'.
  unfold wake_sleeper in *. rewrite bool_decide_eq_true_2, (proj2 (Z.leb_le _ _) Hdue) in * by done.
  cbn [andb] in *. set (s0 := upd p (set_wakeup 0) (sleep_list_del p s)) in *.
  assert (Hg0 : forall x, pget s0 x = if decide (x = p) then set_wakeup 0 (pget s x) else pget s x)
    by (intros; unfold s0; by rewrite pget_upd).
  assert (Hsch : process_schedulable (pget s0 p) = process_schedulable (pget s p))
    by (rewrite Hg0; by case_decide).
  assert (Hgne : forall x, x <> p -> pget s0 x = pget s x) by (intros; rewrite Hg0; by case_decide).
  assert (Hnq : p ∉ concat (queues s)).
  { intros Hq. destruct (pre_ready s Hpre p Hq). congruence. }
  destruct (process_schedulable (pget s p)) eqn:Hsp; cycle 1.
  { assert (Heq : scheduler_enqueue rr_policy s0 p = s0).
    { unfold scheduler_enqueue. rewrite bool_decide_eq_false_2 by done. by rewrite Hsch. }
    rewrite Heq in *. by split_and!. }
  assert (Hpre0 : sched_pre s0).
  { apply pre_upd; [by apply pre_sleep_del|done..|]. simpl. rewrite list_elem_of_filter. tauto. }
  assert (Hnc : Some p <> curr s0).
  { intros Hc. symmetry in Hc. specialize (Hrun p Hc). congruence. }
  destruct (scheduler_enqueue_spec s0 p Hpre0) as (_ & Hsl & _ & _ & Hk & _ & Hg & Hq & _);
    [by apply (procs_upd_is_Some (sleep_list_del p s))|done..|].
  split_and!; try done.
  - rewrite Hsl. apply filter_ne_notin. simpl. rewrite list_elem_of_filter. tauto.
  - intros x Hx. rewrite Hg by done. by apply Hgne.
  - intros x Hx. apply Hq. by left.
  - intros _. apply Hq. by right.
Qed.

Lemma wake_sleeper_not_due s p :
  clock s < wakeup_tick (pget s p) -> wake_sleeper rr_policy s p = s.
Proof.
  intros H. unfold wake_sleeper. by rewrite (proj2 (Z.leb_gt _ _) H), andb_false_r.
Qed.

Lemma wake_sleepers_spec l s :
  sched_ok s -> NoDup l -> (forall p, p ∈ l -> p ∈ sleep_queue s) ->
  let s' := fold_left (wake_sleeper rr_policy) l s in
  clock s' = clock s /\
  (forall x, x ∈ sleep_queue s' <->
     x ∈ sleep_queue s /\ ~ (x ∈ l /\ wakeup_tick (pget s x) <= clock s)) /\
  (forall x, x ∈ sleep_queue s' -> pget s' x = pget s x) /\
  (forall x, x ∈ concat (queues s) -> x ∈ concat (queues s')) /\
  (forall x, x ∈ l -> wakeup_tick (pget s x) <= clock s ->
     process_schedulable (pget s x) = true -> x ∈ concat (queues s')).
Proof.
  revert s. induction l as [|p l IH]; intros s Hok Hn Hl; cbn [fold_left].
  { split_and!; try done; set_solver. }
  apply NoDup_cons in Hn as [Hpl Hn]. assert (Hps : p ∈ sleep_queue s) by (apply Hl; by left).
  destruct (Z.le_gt_cases (wakeup_tick (pget s p)) (clock s)) as [Hdue|Hnot].
  - destruct (wake_sleeper_due s p Hok Hps Hdue) as (Hok1 & Hk1 & Hs1 & Hg1 & Hq1 & Hw1).
    set (s1 := wake_sleeper rr_policy s p) in *.
    assert (Hl1 : forall x, x ∈ l -> x ∈ sleep_queue s1).
    { intros x Hx. rewrite Hs1, list_elem_of_filter. split; [by intros ->|]. apply Hl. by right. }
    destruct (IH s1 Hok1 Hn Hl1) as (Hk & Hs & Hg & Hq & Hw). rewrite Hk1 in *.
    split_and!; try done.
    + intros x. rewrite Hs, Hs1, list_elem_of_filter, elem_of_cons.
      destruct (decide (x = p)) as [->|Hne]; [tauto|]. rewrite Hg1 by done. tauto.
    + intros x Hx. rewrite Hg by done. apply Hg1. intros ->.
      apply Hs in Hx as [Hx _]. rewrite Hs1, list_elem_of_filter in Hx. tauto.
    + auto.
    + intros x [->|Hx]%elem_of_cons Hd Hsch; [auto|].
      assert (x <> p) by (by intros ->). apply Hw; [done|by rewrite Hg1..].
  - rewrite wake_sleeper_not_due by done.
    destruct (IH s Hok Hn) as (Hk & Hs & Hg & Hq & Hw); [intros; apply Hl; by right|].
    split_and!; try done.
    + intros x. rewrite Hs, elem_of_cons.
      destruct (decide (x = p)) as [->|Hne]; [|tauto]. intuition lia.
    + intros x [->|Hx]%elem_of_cons Hd Hsch; [lia|auto].
Qed.

(** What a tick of the policy and its accounting part leave alone. *)
Lemma pget_upd_ne s p f x : x <> p -> pget (upd p f s) x = pget s x.
Proof. intros. unfold pget, upd. simpl. by rewrite lookup_alter_ne. Qed.

Lemma rr_tick_frame s c :
  sleep_queue (rr_tick s c) = sleep_queue s /\ clock (rr_tick s c) = clock s /\
  queues (rr_tick s c) = queues s /\ curr (rr_tick s c) = curr s /\ idle (rr_tick s c) = idle s /\
  (forall x, x <> c -> pget (rr_tick s c) x = pget s x).
Proof.
  unfold rr_tick. destruct (bool_decide _); [done|].
  destruct (_ <=? 0); [destruct (_ >? 0)|]; split_and!; try done; intros x Hx;
    rewrite ?pget_upd_ne by done; try done; by apply pget_upd_ne.
Qed.

Lemma tick_curr_frame s :
  sleep_queue (tick_curr s) = sleep_queue s /\ clock (tick_curr s) = clock s /\
  queues (tick_curr s) = queues s /\
  (forall x, curr s <> Some x -> pget (tick_curr s) x = pget s x).
Proof.
  unfold tick_curr. destruct (curr s) as [c|] eqn:Hc; [|done].
  match goal with |- context [rr_tick ?t c] =>
    destruct (rr_tick_frame t c) as (Hs & Hk & Hq & _ & _ & Hg) end.
  split_and!; [done..|]. intros x Hx. rewrite Hg by congruence. apply pget_upd_ne. congruence.
Qed.

(** A timer tick advances the clock by 4 ms and wakes exactly the sleepers
    whose deadline has passed: afterwards every process still asleep has a later
    deadline, the others are queued and ready, and no sleeper is lost. *)
Theorem tick_wakes_sleepers s (Hok : sched_ok s) :
  let s' := scheduler_tick rr_policy s in
  clock s' = u64 (clock s + 4) /\
  forall p, p ∈ sleep_queue s ->
    (clock s' < wakeup_tick (pget s p) -> p ∈ sleep_queue s' /\ pget s' p = pget s p) /\
    (wakeup_tick (pget s p) <= clock s' -> (p ∉ sleep_queue s') /\
       (process_schedulable (pget s p) = true ->
        p ∈ concat (queues s') /\ state (pget s' p) = PROC_STATE_READY)).
Proof.
  cbv zeta. pose proof (scheduler_tick_ok s Hok) as [Hpre' _]. revert Hpre'.
  rewrite scheduler_tick_unfold. cbv zeta.
  destruct (tick_curr_frame s) as (Ts & Tk & Tq & Tg). pose proof (tick_curr_ok s Hok) as Hok1.
  set (s1 := with_clock _ (tick_curr s)).
  assert (Hok2 : sched_ok s1) by (by apply sched_ok_clock).
  assert (Hk1 : clock s1 = u64 (clock s + 4)) by (unfold s1; simpl; by rewrite Tk).
  assert (Hs1 : sleep_queue s1 = sleep_queue s) by done.
  assert (Hg1 : forall p, p ∈ sleep_queue s -> pget s1 p = pget s p).
  { intros p Hp. apply Tg. intros Hc. by apply (curr_not_asleep s p Hok Hc). }
  clearbody s1. intros Hpre'.
  destruct (wake_sleepers_spec (sleep_queue s1) s1 Hok2) as (Hk & Hs & Hg & _ & Hw);
    [apply Hok2|done|]. rewrite Hk, Hk1 in *. split; [done|].
  intros p Hp. rewrite Hs1 in *. split.
  - intros Hlt. rewrite <- (Hg1 p Hp) in Hlt.
    assert (Hin : p ∈ sleep_queue (fold_left (wake_sleeper rr_policy) (sleep_queue s) s1))
      by (apply Hs; split; [done|lia]).
    split; [done|]. rewrite Hg by done. by apply Hg1.
  - intros Hle. rewrite <- (Hg1 p Hp) in Hle |- *. split; [rewrite Hs; tauto|].
    intros Hsch. specialize (Hw p Hp Hle Hsch). split; [done|].
    by apply (pre_ready _ Hpre').
Qed.

Lemma tick_wakes_sleepers_witness :
  let s := scheduler_sleep_timeout rr_policy 0 sched_example 1 4 in
  1 ∈ sleep_queue s /\ clock (scheduler_tick rr_policy s) = u64 (clock s + 4).
Proof.
  assert (H1 : is_Some (procs sched_example !! 1)) by (vm_compute; eexists; reflexivity).
  assert (Hi : Some 1 <> idle sched_example) by (vm_compute; intros Hx; discriminate Hx).
  cbv zeta. split; [apply (bool_decide_unpack _); vm_compute; exact I|].
  apply (tick_wakes_sleepers (scheduler_sleep_timeout rr_policy 0 sched_example 1 4)).
  rewrite scheduler_sleep_timeout_unlink by (exact (proj1 sched_example_ok) || exact H1).
  apply schedule_spec.
  apply scheduler_sleep_timeout_pre; [exact (proj1 sched_example_ok)|exact H1|exact Hi].
Defined.

(** ** Exited processes *)

(** The operations the kernel performs on the scheduler, as steps. *)
Inductive sched_step : sched -> sched -> Prop :=
  | step_schedule now s : sched_step s (schedule rr_policy now s)
  | step_timer now s : sched_step s (timer_handler rr_policy now s)
  | step_enqueue s p : is_Some (procs s !! p) -> Some p <> curr s ->
      sched_step s (scheduler_enqueue rr_policy s p)
  | step_dequeue s p : sched_step s (scheduler_dequeue rr_policy s p)
  | step_sleep now s p : is_Some (procs s !! p) ->
      sched_step s (scheduler_sleep rr_policy now s p)
  | step_sleep_timeout now s p t : is_Some (procs s !! p) -> Some p <> idle s ->
      sched_step s (scheduler_sleep_timeout rr_policy now s p t)
  | step_wake s p : is_Some (procs s !! p) -> sched_step s (scheduler_wake rr_policy s p)
  | step_exit now s s' : scheduler_exit rr_policy now s = Some s' -> sched_step s s'
  | step_set_priority s p x : p ∈ concat (queues s) ->
      sched_step s (scheduler_set_priority rr_policy s p x).

(** A step that changes neither the current process nor any exit flag. *)
Record quiet (s s' : sched) : Prop := {
  q_flags : forall x, flags (pget s' x) = flags (pget s x);
  q_curr : curr s' = curr s;
  q_idle : idle s' = idle s
}.

#[global] Instance quiet_preorder : PreOrder quiet.
Proof.
  split; [done|]. intros a b c [Hf Hc Hi] [Hf' Hc' Hi']. split; congruence.
Qed.

Lemma quiet_upd s p f : (forall pr, flags (f pr) = flags pr) -> quiet s (upd p f s).
Proof.
  intros Hf. split; try done. intros x. unfold pget, upd. simpl.
  destruct (decide (x = p)) as [->|].
  - rewrite lookup_alter_eq. destruct (procs s !! p); simpl; [apply Hf|done].
  - by rewrite lookup_alter_ne.
Qed.

Lemma quiet_frame s s' : same_frame s s' -> quiet s s'.
Proof. intros [Hp Hc Hi _ _ _]. split; try done. intros. unfold pget. by rewrite Hp. Qed.

Lemma quiet_enqueue s p : quiet s (scheduler_enqueue rr_policy s p).
Proof.
  unfold scheduler_enqueue. case_bool_decide; [done|].
  destruct (process_schedulable (pget s p)); [|done]. cbn [negb op_enqueue rr_policy].
  etrans; [|apply quiet_frame, rr_enqueue_frame]. etrans; [|by apply quiet_upd].
  etrans; [|by apply quiet_upd]. case_match; [|done].
  etrans; [|by apply quiet_upd]. done.
Qed.

Lemma quiet_set_priority s p x : quiet s (scheduler_set_priority rr_policy s p x).
Proof.
  unfold scheduler_set_priority. cbn [op_set_priority rr_policy]. unfold rr_set_priority.
  case_match; [|by apply quiet_upd].
  etrans; [|apply quiet_frame, rr_enqueue_frame]. etrans; [|by apply quiet_upd].
  apply quiet_frame, rr_dequeue_frame.
Qed.

Lemma quiet_wake_sleeper s p : quiet s (wake_sleeper rr_policy s p).
Proof.
  unfold wake_sleeper. case_match; [|done]. etrans; [|apply quiet_enqueue].
  etrans; [|by apply quiet_upd]. done.
Qed.

Lemma quiet_rr_tick s c : quiet s (rr_tick s c).
Proof.
  unfold rr_tick. case_bool_decide; [done|]. set (s1 := upd c _ s).
  assert (H1 : quiet s s1) by (by apply quiet_upd). transitivity s1; [done|]. clearbody s1.
  case_match; [|done]. case_match; [by split|by apply quiet_upd].
Qed.

Lemma quiet_tick s : quiet s (scheduler_tick rr_policy s).
Proof.
  rewrite scheduler_tick_unfold. cbv zeta.
  assert (H1 : quiet s (tick_curr s)).
  { unfold tick_curr. destruct (curr s) as [c|]; [|done].
    etrans; [|apply quiet_rr_tick]. by apply quiet_upd. }
  etrans; [exact H1|]. set (s1 := with_clock _ _).
  assert (H2 : quiet (tick_curr s) s1) by (by split). etrans; [exact H2|]. clearbody s1. clear H1 H2.
  generalize (sleep_queue s1). intros l. revert s1.
  induction l as [|p l IH]; intros s1; [done|]. cbn [fold_left].
  etrans; [apply quiet_wake_sleeper|apply IH].
Qed.

Lemma quiet_wake s p : quiet s (scheduler_wake rr_policy s p).
Proof.
  unfold scheduler_wake. case_match; [|done]. fold (unsleep p s).
  assert (H1 : quiet s (unsleep p s))
    by (unfold unsleep; case_match; [etrans; [|by apply quiet_upd]|]; done).
  etrans; [exact H1|]. etrans; [apply quiet_enqueue|]. by case_match.
Qed.

(** An exited process: flagged, not running, not the idle process. *)
Definition exited (p : Z) (s : sched) : Prop :=
  sched_ok s /\ flagb (flags (pget s p)) PROC_FLAG_EXITING = true /\
  curr s <> Some p /\ Some p <> idle s.

Lemma exiting_unschedulable pr :
  flagb (flags pr) PROC_FLAG_EXITING = true -> process_schedulable pr = false.
Proof. intros Hf. unfold process_schedulable. rewrite Hf. by case_match. Qed.

Lemma exited_quiet p s s' : exited p s -> quiet s s' -> sched_ok s' -> exited p s'.
Proof.
  intros (_ & Hf & Hc & Hi) [Qf Qc Qi] Hok. split_and!; [done|by rewrite Qf|congruence..].
Qed.

(** [schedule] never selects a flagged process. *)
Lemma schedule_exited now p s :
  sched_pre s -> flagb (flags (pget s p)) PROC_FLAG_EXITING = true -> Some p <> idle s ->
  exited p (schedule rr_policy now s).
Proof.
  intros Hpre Hf Hi.
  destruct (schedule_spec now s Hpre) as (Hok & Hc & Hid & _ & _ & _ & _ & _ & Hsame & _).
  destruct (park_prev_spec s Hpre) as (Hpk & _). split_and!; [done| | |congruence].
  - destruct (Hsame p) as (-> & _). done.
  - rewrite Hc. unfold next_process. destruct (first_ready _) as [n|] eqn:Hr; [|congruence].
    intros [= ->]. apply first_ready_Some in Hr as [Hin _]; [|apply Hpk].
    destruct (pk_ready _ Hpk p Hin) as [_ Hsch].
    rewrite exiting_unschedulable in Hsch; [done|].
    destruct (park_identity s p Hpre) as (-> & _). done.
Qed.

Lemma exited_step p s s' : exited p s -> sched_step s s' -> exited p s'.
Proof.
  intros Hex Hstep. pose proof Hex as (Hok & Hf & Hc & Hi). pose proof Hok as [Hpre _].
  assert (Hkeep : forall t, sched_pre t -> quiet s t -> forall now, exited p (schedule rr_policy now t)).
  { intros t Ht [Qf _ Qi] now. apply schedule_exited; [done|by rewrite Qf|congruence]. }
  destruct Hstep as [now s|now s|s q Hq Hnc|s q|now s q Hq|now s q t Hq Hni|s q Hq|now s s' He|s q x Hq].
  - by apply Hkeep.
  - unfold timer_handler. pose proof (quiet_tick s). pose proof (scheduler_tick_ok s Hok) as Ht.
    case_match; [by apply Hkeep; [apply Ht|]|by apply (exited_quiet p s)].
  - apply (exited_quiet p s); [done|apply quiet_enqueue|by apply scheduler_enqueue_ok].
  - apply (exited_quiet p s); [done| |by apply scheduler_dequeue_ok].
    unfold scheduler_dequeue. case_match; [done|]. apply quiet_frame, rr_dequeue_frame.
  - rewrite scheduler_sleep_unlink by done. apply Hkeep; [by apply pre_unlinked_upd|].
    etrans; [|by apply quiet_upd]. etrans; [|by apply quiet_upd].
    etrans; [apply quiet_frame, (rr_dequeue_frame s q)|done].
  - rewrite scheduler_sleep_timeout_unlink by done.
    apply Hkeep; [by apply scheduler_sleep_timeout_pre|]. cbv zeta.
    transitivity (upd q (set_wakeup (u64 (clock s + t)))
      (upd q (set_state PROC_STATE_SLEEPING) (unlink q s))); [|done].
    etrans; [|by apply quiet_upd]. etrans; [|by apply quiet_upd].
    etrans; [apply quiet_frame, (rr_dequeue_frame s q)|done].
  - apply (exited_quiet p s); [done|apply quiet_wake|by apply scheduler_wake_ok].
  - unfold scheduler_exit in He. destruct (curr s) as [c|] eqn:Hcc; [|done].
    case_bool_decide; simplify_eq. apply schedule_exited; [by apply exiting_pre| |done].
    rewrite pget_upd_ne by congruence. done.
  - apply (exited_quiet p s); [done|apply quiet_set_priority|].
    apply rr_set_priority_ok; [done| |by apply queued_renice_safe]. by apply (rq_dom s (pre_rq s Hpre)).
Qed.

(** After a process exits it never runs and is never queued again, through
    any sequence of scheduler operations. *)
Theorem exited_never_runs now s p s' s''
    (Hok : sched_ok s) (Hcurr : curr s = Some p) (Hidle : Some p <> idle s)
    (Hexit : scheduler_exit rr_policy now s = Some s') (Hsteps : rtc sched_step s' s'') :
  curr s'' <> Some p /\ (p ∉ concat (queues s'')).
Proof.
  assert (H0 : exited p s').
  { unfold scheduler_exit in Hexit. rewrite Hcurr in Hexit. case_bool_decide; simplify_eq.
    apply schedule_exited; [by apply exiting_pre| |done].
    destruct Hok as [Hpre _]. destruct (pre_curr s Hpre p Hcurr).
    rewrite pget_upd by done. case_decide; [|done]. apply exiting_flag. }
  assert (H1 : exited p s'') by (clear -H0 Hsteps; induction Hsteps; eauto using exited_step).
  destruct H1 as ([Hpre _] & Hf & Hc & _). split; [done|]. intros Hq.
  destruct (pre_ready s'' Hpre p Hq) as [_ Hsch]. by rewrite exiting_unschedulable in Hsch.
Qed.

Lemma scheduler_exit_eq now s p :
  curr s = Some p -> curr (schedule rr_policy now (exiting p s)) <> Some p ->
  scheduler_exit rr_policy now s = Some (schedule rr_policy now (exiting p s)).
Proof. intros Hc Hne. unfold scheduler_exit. rewrite Hc. by case_bool_decide. Qed.

Lemma exited_never_runs_witness :
  let s' := schedule rr_policy 1 (exiting 1 sched_example) in
  curr (schedule rr_policy 2 s') <> Some 1 /\ (1 ∉ concat (queues (schedule rr_policy 2 s'))).
Proof.
  assert (Hc : curr sched_example = Some 1) by (vm_compute; reflexivity).
  assert (Hi : Some 1 <> idle sched_example) by (vm_compute; intros Hx; discriminate Hx).
  assert (Hn : curr (schedule rr_policy 1 (exiting 1 sched_example)) <> Some 1)
    by (vm_compute; intros Hx; discriminate Hx).
  cbv zeta. apply (exited_never_runs 1 sched_example 1
    (schedule rr_policy 1 (exiting 1 sched_example))).
  - exact sched_example_ok.
  - exact Hc.
  - exact Hi.
  - exact (scheduler_exit_eq 1 sched_example 1 Hc Hn).
  - apply rtc_once, step_schedule.
Defined.

(** ** A stalled run queue *)

(** The first process of the best queue cannot run, and the current process is
    not going back to the queues. *)
Record blocked (z i : Z) (s : sched) : Prop := {
  bl_rq : rq_ok s;
  bl_idle : idle s = Some i;
  bl_dom : is_Some (procs s !! i);
  bl_curr : forall c, curr s = Some c -> parks s c = false;
  bl_first : first_ready s = Some z;
  bl_zombie : process_schedulable (pget s z) = false;
  bl_ne : z <> i
}.

Lemma schedule_blocked now z i s :
  blocked z i s ->
  let s' := schedule rr_policy now s in
  blocked z i s' /\ curr s' = Some i /\ queues s' = queues s /\
  (forall x, x <> i -> pget s' x = pget s x).
Proof.
  intros [Hrq Hid Hdom Hcur Hfirst Hz Hne]. cbv zeta.
  assert (Hpark : park_prev rr_policy s = s).
  { unfold park_prev. destruct (curr s) as [c|] eqn:Hc; [|done]. fold (parks s c).
    by rewrite (Hcur c eq_refl). }
  assert (Hchoose : choose s (Some z) = Some i).
  { unfold choose. rewrite Hid, Hz. by rewrite bool_decide_eq_false_2 by congruence. }
  set (sd := dispatch rr_policy now s (Some i)).
  assert (Hd : rq_ok sd /\ queues sd = queues s /\ idle sd = idle s /\ is_Some (procs sd !! i) /\
    (forall x, x <> i -> pget sd x = pget s x)).
  { unfold sd. cbn [dispatch]. rewrite bool_decide_eq_true_2 by congruence. cbn [negb andb].
    case_match; split_and!; rewrite ?procs_upd_is_Some; try done;
      repeat (apply rq_ok_upd; rewrite ?procs_upd_is_Some; try done);
      intros; by rewrite !pget_upd_ne. }
  destruct Hd as (Drq & Dq & Di & Dd & Dg).
  assert (Hs' : exists n t, schedule rr_policy now s
    = with_switches n t (with_ti_flags (Z.land (ti_flags (with_curr (Some i) sd))
        (u32 (Z.lnot TIF_NEED_RESCHED))) (with_curr (Some i) sd))).
  { unfold schedule. rewrite Hpark. cbn [op_pick_next rr_policy].
    rewrite rr_pick_next_spec, Hfirst, Hchoose by done. fold sd. case_bool_decide; by eauto. }
  destruct Hs' as (n & t & ->). clearbody sd. split_and!; try done. split; try done.
  - by apply (rq_ok_ext sd).
  - simpl. congruence.
  - intros c [= <-]. unfold parks. simpl. by rewrite bool_decide_eq_true_2 by congruence.
  - rewrite <- Hfirst. unfold first_ready, nonempty, queue. simpl. by rewrite Dq.
  - rewrite <- Hz. f_equal. by apply Dg.
Qed.

(** The queues and every process but [i] are as before. *)
Definition only_touches (i : Z) (s s' : sched) : Prop :=
  queues s' = queues s /\ forall x, x <> i -> pget s' x = pget s x.

#[global] Instance only_touches_preorder i : PreOrder (only_touches i).
Proof.
  split; [done|]. intros a b c [Hq Hg] [Hq' Hg']. split; [congruence|].
  intros. by rewrite Hg', Hg.
Qed.

Lemma blocked_forever z i times s :
  blocked z i s /\ curr s = Some i ->
  let s' := fold_left (fun s now => schedule rr_policy now s) times s in
  (blocked z i s' /\ curr s' = Some i) /\ only_touches i s s'.
Proof.
  intros Hs. apply (fold_left_rel (fun s now => schedule rr_policy now s)
    (fun s => blocked z i s /\ curr s = Some i) (only_touches i)); [|exact Hs].
  intros t now [Hb _]. destruct (schedule_blocked now z i t Hb) as (Hb' & Hc & Hq & Hg).
  split; [exact (conj Hb' Hc)|exact (conj Hq Hg)].
Qed.

(** Changing the priority of a running process queues it while it runs. *)
Lemma set_nice_running s p n :
  rq_ok s -> is_Some (procs s !! p) -> state (pget s p) = PROC_STATE_RUNNING ->
  rq_ok (scheduler_set_nice rr_policy s p n) /\
  forall x, is_Some (procs (scheduler_set_nice rr_policy s p n) !! x) <-> is_Some (procs s !! x).
Proof.
  intros Hrq Hp Hst. unfold scheduler_set_nice, scheduler_set_priority.
  cbn [op_set_priority rr_policy]. cbv zeta.
  set (n' := if _ >? MAX_NICE then _ else _). set (s1 := upd p (set_nice n') s).
  assert (Hrq1 : rq_ok s1) by (by apply rq_ok_upd).
  assert (Hp1 : is_Some (procs s1 !! p)) by (by apply procs_upd_is_Some).
  assert (Hst1 : state (pget s1 p) = PROC_STATE_RUNNING)
    by (unfold s1; rewrite pget_upd by done; by case_decide).
  assert (Hd1 : forall x, is_Some (procs s1 !! x) <-> is_Some (procs s !! x))
    by (intros; apply procs_upd_is_Some).
  clearbody s1. pose proof (clamp_prio_range (DEFAULT_PRIO + n')) as Hx. unfold rr_set_priority.
  rewrite Hst1, (bool_decide_eq_true_2 (PROC_STATE_RUNNING = PROC_STATE_RUNNING)), orb_true_r by done.
  destruct (rr_dequeue_frame s1 p) as [Fp _ _ _ _ _].
  set (s2 := upd p _ (rr_dequeue s1 p)).
  assert (Hd2 : forall x, is_Some (procs s2 !! x) <-> is_Some (procs s !! x))
    by (intros; unfold s2; by rewrite procs_upd_is_Some, Fp).
  assert (Hrq2 : rq_ok s2).
  { apply rq_set_prio; [by apply rr_dequeue_ok|by rewrite Fp| |done]. rewrite rr_dequeue_elem. tauto. }
  clearbody s2. destruct (rr_enqueue_frame s2 p) as [Ep _ _ _ _ _]. split.
  - apply rr_enqueue_ok; [done|by apply Hd2].
  - intros x. by rewrite Ep.
Qed.

(** The running process 1 of the example, with only 2 and 4 waiting, is given a
    better priority. *)
Definition reniced_example : sched :=
  scheduler_set_nice rr_policy (scheduler_dequeue rr_policy sched_example 3) 1 (-5).

Lemma reniced_blocked : blocked 1 0 (exiting 1 reniced_example).
Proof.
  assert (Hok : sched_ok (scheduler_dequeue rr_policy sched_example 3))
    by (apply scheduler_dequeue_ok, sched_example_ok).
  assert (Hp : is_Some (procs (scheduler_dequeue rr_policy sched_example 3) !! 1))
    by (vm_compute; eexists; reflexivity).
  assert (Hst : state (pget (scheduler_dequeue rr_policy sched_example 3) 1) = PROC_STATE_RUNNING)
    by (vm_compute; reflexivity).
  destruct (set_nice_running _ 1 (-5) (pre_rq _ (proj1 Hok)) Hp Hst) as [Hrq Hdom].
  split.
  - unfold reniced_example. apply rq_ok_upd; [by apply Hdom|done|exact Hrq].
  - vm_compute. reflexivity.
  - vm_compute. eexists. reflexivity.
  - assert (Hc : curr (exiting 1 reniced_example) = Some 1) by (vm_compute; reflexivity).
    assert (Hpk : parks (exiting 1 reniced_example) 1 = false) by (vm_compute; reflexivity).
    intros c Hc'. rewrite Hc in Hc'. injection Hc' as <-. exact Hpk.
  - vm_compute. reflexivity.
  - vm_compute. reflexivity.
  - lia.
Qed.

(** A stalled run queue: when the running process gets a better priority it
    is queued while it runs, and when it then exits it stays queued as a zombie;
    from then on every call of [schedule] runs the idle process although the
    ready and schedulable processes 2 and 4 wait in the queue behind it. *)
Theorem exit_after_renice_stalls :
  exists s, scheduler_exit rr_policy 0 reniced_example = Some s /\
  forall times, let s' := fold_left (fun s now => schedule rr_policy now s) times s in
    curr s' = idle s' /\ queue s' 120 = [2; 4] /\
    process_schedulable (pget s' 2) = true /\ state (pget s' 2) = PROC_STATE_READY.
Proof.
  pose proof (schedule_blocked 0 1 0 _ reniced_blocked) as (Hb & Hc & Hq & Hg). cbv zeta in *.
  exists (schedule rr_policy 0 (exiting 1 reniced_example)). split.
  - apply scheduler_exit_eq; [vm_compute; reflexivity|]. rewrite Hc. congruence.
  - assert (Hq120 : queue (exiting 1 reniced_example) 120 = [2; 4]) by (vm_compute; reflexivity).
    assert (Hs2 : process_schedulable (pget (exiting 1 reniced_example) 2) = true)
      by (vm_compute; reflexivity).
    assert (Hr2 : state (pget (exiting 1 reniced_example) 2) = PROC_STATE_READY)
      by (vm_compute; reflexivity).
    intros times.
    destruct (blocked_forever 1 0 times _ (conj Hb Hc)) as ([Hb' Hc'] & Hq' & Hg').
    cbv zeta. rewrite Hc', (bl_idle _ _ _ Hb'), Hg', Hg by lia.
    split_and!; [done| |exact Hs2|exact Hr2].
    rewrite <- Hq120. unfold queue. by rewrite Hq', Hq.
Qed.
