(* ===== verification/MsgQueue.v ===== *)
(** * Message queues (kernel/ipc/msgqueue.c)

    A table of queues, each a FIFO of typed messages with a count and a byte
    total.  The outcome of an allocation, the calling process and the tick
    counter are arguments: [mem] says whether [kmalloc] succeeded, [cur] is
    [current] with its credentials, [now] is [get_ticks()].  Waiting is not
    implemented by the code, which returns [-EAGAIN] instead. *)

From S2P Require Import Prelude Errno.

Definition MAX_QUEUES : Z := 256.

Abbreviation MSG_NOERROR := 0x1000%Z (only parsing).
Abbreviation MSG_NOWAIT := 0x2000%Z (only parsing).
Abbreviation MSG_EXCEPT := 0x4000%Z (only parsing).

Record ipc_message := Msg {
  msg_type : Z;
  msg_size : Z;
  msg_sender : Z;
  msg_flags : Z;
  msg_timestamp : Z;
  msg_payload : list Z
}.

Record ipc_queue := Queue {
  q_id : Z;
  q_key : Z;
  q_uid : Z;
  q_gid : Z;
  q_mode : Z;
  max_messages : Z;
  max_message_size : Z;
  current_messages : Z;
  current_bytes : Z;
  messages : list ipc_message;
  send_time : Z;
  recv_time : Z
}.

(** [queue_table] and [next_queue_id]. *)
Record mq := Mq {
  queue_table : list (option ipc_queue);
  next_queue_id : Z
}.

(** The credentials of [current]. *)
Record caller := Caller { cur_pid : Z; cur_uid : Z; cur_gid : Z }.

Definition slot (st : mq) (i : Z) : option ipc_queue :=
  default None (queue_table st !! Z.to_nat i).

Definition set_slot (i : Z) (q : option ipc_queue) (st : mq) : mq :=
  Mq (<[Z.to_nat i := q]> (queue_table st)) (next_queue_id st).

Definition has_key (st : mq) (key i : Z) : bool :=
  match slot st i with Some q => q_key q =? key | None => false end.

Definition is_free (st : mq) (i : Z) : bool :=
  match slot st i with Some _ => false | None => true end.

(** ** Queue management *)

Definition msgqueue_create (cur : option caller) (mem : bool) (key mode : Z) (st : mq) : Z * mq :=
  if negb (key =? 0) && bool_decide (is_Some (find_range (has_key st key) 0 MAX_QUEUES))
  then (- EEXIST, st) else
  match find_range (is_free st) 0 MAX_QUEUES with
  | None => (- ENOSPC, st)
  | Some qid =>
    if negb mem then (- ENOMEM, st) else
    let queue := Queue (next_queue_id st) key
      (match cur with Some c => cur_uid c | None => 0 end)
      (match cur with Some c => cur_gid c | None => 0 end)
      mode 256 8192 0 0 [] 0 0 in
    (qid, set_slot qid (Some queue) (Mq (queue_table st) (u32 (next_queue_id st + 1))))
  end.

Definition msgqueue_get (key : Z) (st : mq) : Z :=
  match find_range (has_key st key) 0 MAX_QUEUES with
  | Some i => i
  | None => - ENOENT
  end.

Definition msgqueue_destroy (qid : Z) (st : mq) : Z * mq :=
  if (qid <? 0) || (qid >=? MAX_QUEUES) then (- EINVAL, st) else
  match slot st qid with
  | None => (- EINVAL, st)
  | Some _ => (0, set_slot qid None st)
  end.

(** ** Message operations *)

Definition push (q : ipc_queue) (m : ipc_message) (size : Z) : ipc_queue :=
  Queue (q_id q) (q_key q) (q_uid q) (q_gid q) (q_mode q) (max_messages q) (max_message_size q)
        (u64 (current_messages q + 1)) (u64 (current_bytes q + size))
        (messages q ++ [m]) (msg_timestamp m) (recv_time q).

(** [data] is the memory at the sender's pointer, at least [size] bytes. *)
Definition msgqueue_send (cur : option caller) (mem : bool) (now : Z)
    (qid : Z) (data : list Z) (size type flags : Z) (st : mq) : Z * mq :=
  if (qid <? 0) || (qid >=? MAX_QUEUES) then (- EINVAL, st) else
  match slot st qid with
  | None => (- EINVAL, st)
  | Some queue =>
    if size >? max_message_size queue then (- EMSGSIZE, st) else
    if current_messages queue >=? max_messages queue then (- EAGAIN, st) else
    if negb mem then (- ENOMEM, st) else
    let msg := Msg type (u32 size) (match cur with Some c => cur_pid c | None => 0 end) 0 now
                   (take (Z.to_nat size) data) in
    (0, set_slot qid (Some (push queue msg size)) st)
  end.

(** The test of the loop over the messages. *)
Definition msg_matches (type flags : Z) (m : ipc_message) : bool :=
  if (type =? 0) || (msg_type m =? type) then true
  else flagb flags MSG_EXCEPT && negb (msg_type m =? type).

(** The first matching message and the list without it. *)
Fixpoint take_first {A} (p : A -> bool) (l : list A) : option (A * list A) :=
  match l with
  | [] => None
  | m :: l' =>
    if p m then Some (m, l')
    else match take_first p l' with
         | Some (x, r) => Some (x, m :: r)
         | None => None
         end
  end.

Definition pop (q : ipc_queue) (m : ipc_message) (rest : list ipc_message) (now : Z) : ipc_queue :=
  Queue (q_id q) (q_key q) (q_uid q) (q_gid q) (q_mode q) (max_messages q) (max_message_size q)
        (u64 (current_messages q - 1)) (u64 (current_bytes q - msg_size m))
        rest (send_time q) now.

(** The result, the bytes written to the receiver's buffer, and the state. *)
Definition msgqueue_recv (now : Z) (qid size type flags : Z) (st : mq) : Z * list Z * mq :=
  if (qid <? 0) || (qid >=? MAX_QUEUES) then (- EINVAL, [], st) else
  match slot st qid with
  | None => (- EINVAL, [], st)
  | Some queue =>
    match take_first (msg_matches type flags) (messages queue) with
    | None => (- EAGAIN, [], st)
    | Some (msg, rest) =>
      let copy_size := Z.min size (msg_size msg) in
      if (copy_size <? msg_size msg) && negb (flagb flags MSG_NOERROR) then (- E2BIG, [], st) else
      (copy_size, take (Z.to_nat copy_size) (msg_payload msg),
       set_slot qid (Some (pop queue msg rest now)) st)
    end
  end.

Definition msgqueue_init (st : mq) : mq :=
  Mq (replicate (Z.to_nat MAX_QUEUES) None) (next_queue_id st).

(** The state at load time. *)
Definition mq_boot : mq := Mq (replicate (Z.to_nat MAX_QUEUES) None) 1.

(** ** Invariant *)

Definition total_size (l : list ipc_message) : Z := foldr (fun m n => msg_size m + n) 0 l.

(** A queue never holds more than 256 messages of at most 8192 bytes, and its
    count and byte total describe its messages. *)
Record queue_ok (q : ipc_queue) : Prop := {
  qo_max : max_messages q = 256;
  qo_max_size : max_message_size q = 8192;
  qo_count : current_messages q = Z.of_nat (length (messages q));
  qo_bound : current_messages q <= 256;
  qo_bytes : current_bytes q = total_size (messages q);
  qo_msgs : Forall (fun m => msg_size m = Z.of_nat (length (msg_payload m)) /\
                             msg_size m <= 8192) (messages q)
}.

Record mq_ok (st : mq) : Prop := {
  mo_len : Z.of_nat (length (queue_table st)) = MAX_QUEUES;
  mo_queues : forall i q, 0 <= i -> slot st i = Some q -> queue_ok q;
  mo_keys : forall i j q q', 0 <= i -> 0 <= j -> slot st i = Some q -> slot st j = Some q' ->
    q_key q = q_key q' -> q_key q <> 0 -> i = j
}.

(** ** Lemmas *)

Lemma slot_set st i j q :
  0 <= i < Z.of_nat (length (queue_table st)) -> 0 <= j ->
  slot (set_slot i q st) j = if i =? j then q else slot st j.
Proof.
  intros Hi Hj. unfold slot, set_slot. simpl. destruct (Z.eqb_spec i j) as [<-|].
  - by rewrite list_lookup_insert_eq by lia.
  - by rewrite list_lookup_insert_ne by lia.
Qed.

Lemma slot_range st i q : mq_ok st -> 0 <= i -> slot st i = Some q -> 0 <= i < MAX_QUEUES.
Proof.
  intros Hok Hi Hs. split; [done|]. rewrite <- (mo_len st Hok). apply Z.nle_gt. intros Hge.
  unfold slot in Hs. by rewrite lookup_ge_None_2 in Hs by lia.
Qed.

Lemma qid_guard qid : (qid <? 0) || (qid >=? MAX_QUEUES) = false <-> 0 <= qid < MAX_QUEUES.
Proof. rewrite Z.geb_leb. unfold MAX_QUEUES. split; intros H; [zbool; lia|lia]. Qed.

Lemma total_size_app l k : total_size (l ++ k) = total_size l + total_size k.
Proof. induction l as [|m l IH]; simpl; [done|]. rewrite IH. lia. Qed.

Lemma take_first_Some {A} (p : A -> bool) l m r :
  take_first p l = Some (m, r) <->
  exists l1 l2, l = l1 ++ m :: l2 /\ r = l1 ++ l2 /\ p m = true /\ Forall (fun x => p x = false) l1.
Proof.
  revert m r. induction l as [|x l IH]; intros m r; simpl.
  - split; [done|]. by intros ([] & ? & ? & _).
  - destruct (p x) eqn:Hp.
    + split.
      * intros [= <- <-]. exists [], l. by split_and!; try constructor.
      * intros ([|y l1] & l2 & Hl & -> & Hm & Hf); simplify_eq/=; [done|].
        apply Forall_cons in Hf as [? _]. congruence.
    + destruct (take_first p l) as [[y r']|] eqn:Ht.
      * split.
        -- intros [= <- <-]. destruct (proj1 (IH y r') eq_refl) as (l1 & l2 & -> & -> & Hy & Hf).
           exists (x :: l1), l2. split_and!; try done. by constructor.
        -- intros ([|y' l1] & l2 & Hl & -> & Hm & Hf); simplify_eq/=; [congruence|].
           apply Forall_cons in Hf as [_ Hf].
           assert (E : Some (y, r') = Some (m, l1 ++ l2)) by (apply IH; eauto 10). by simplify_eq.
      * split; [done|]. intros ([|y' l1] & l2 & Hl & -> & Hm & Hf); simplify_eq/=; [congruence|].
        apply Forall_cons in Hf as [_ Hf].
        assert (E : None = Some (m, l1 ++ l2)) by (apply IH; eauto 10). done.
Qed.

Lemma take_first_None {A} (p : A -> bool) l : take_first p l = None <-> Forall (fun x => p x = false) l.
Proof.
  induction l as [|x l IH]; simpl; [done|]. rewrite Forall_cons. destruct (p x) eqn:Hp.
  - split; [done|]. by intros [? _].
  - destruct (take_first p l) as [[]|]; rewrite <- IH; naive_solver.
Qed.

(** Replacing a queue by one with the same key keeps the table consistent. *)
Lemma mq_ok_update st qid q q' :
  mq_ok st -> 0 <= qid < MAX_QUEUES -> slot st qid = Some q -> q_key q' = q_key q ->
  queue_ok q' -> mq_ok (set_slot qid (Some q') st).
Proof.
  intros Hok Hq Hs Hk Hq'. pose proof (mo_len st Hok) as Hl.
  assert (Hslot : forall i, 0 <= i -> slot (set_slot qid (Some q') st) i
    = if qid =? i then Some q' else slot st i) by (intros; apply slot_set; lia).
  assert (Hkey : forall i x, 0 <= i -> slot (set_slot qid (Some q') st) i = Some x ->
    exists y, slot st i = Some y /\ q_key y = q_key x).
  { intros i x Hi Hx. rewrite Hslot in Hx by done.
    destruct (Z.eqb_spec qid i) as [<-|]; simplify_eq; eauto. }
  split.
  - unfold set_slot. simpl. by rewrite length_insert.
  - intros i x Hi Hx. rewrite Hslot in Hx by done.
    destruct (Z.eqb_spec qid i); simplify_eq; [done|]. by apply (mo_queues st Hok i).
  - intros i j x y Hi Hj Hx Hy Heq Hne.
    destruct (Hkey i x Hi Hx) as (x' & Hx' & Ex). destruct (Hkey j y Hj Hy) as (y' & Hy' & Ey).
    apply (mo_keys st Hok i j x' y'); congruence.
Qed.

Lemma push_ok q m size :
  queue_ok q -> current_messages q < 256 -> 0 <= size <= 8192 -> msg_size m = size ->
  size = Z.of_nat (length (msg_payload m)) -> queue_ok (push q m size).
Proof.
  intros [Hm Hs Hc Hb Hby Hf] Hlt Hsz Hms Hpl.
  assert (Htot : 0 <= total_size (messages q) <= 8192 * Z.of_nat (length (messages q))).
  { clear -Hf. induction Hf as [|x l [Hx Hx'] _ IH]; simpl; lia. }
  split; simpl; try done.
  - rewrite u64_small, length_app by lia. simpl. lia.
  - rewrite u64_small by lia. lia.
  - rewrite total_size_app, u64_small by lia. simpl. lia.
  - apply Forall_app. split; [done|]. by repeat constructor; lia.
Qed.

Lemma pop_ok q m l1 l2 now :
  queue_ok q -> messages q = l1 ++ m :: l2 -> queue_ok (pop q m (l1 ++ l2) now).
Proof.
  intros [Hm Hs Hc Hb Hby Hf] Hl. rewrite Hl in Hc, Hby, Hf.
  rewrite length_app in Hc. rewrite total_size_app in Hby. simpl in Hc, Hby.
  apply Forall_app in Hf as [Hf1 Hf2]. apply Forall_cons in Hf2 as [[Hmp Hm8] Hf2].
  assert (Htot : forall l, Forall (fun m => msg_size m = Z.of_nat (length (msg_payload m)) /\
    msg_size m <= 8192) l -> 0 <= total_size l <= 8192 * Z.of_nat (length l)).
  { intros l Hfl. induction Hfl as [|x l' [Hx Hx'] _ IH]; simpl; lia. }
  pose proof (Htot l1 Hf1). pose proof (Htot l2 Hf2).
  split; simpl; try done.
  - rewrite u64_small, length_app by lia. lia.
  - rewrite u64_small by lia. lia.
  - rewrite total_size_app, u64_small by lia. lia.
  - by apply Forall_app.
Qed.

(** ** The abstract queue *)

(** What a user of a queue sees: its messages as types and payloads. *)
Definition fifo : Type := list (Z * list Z).

Definition view (st : mq) (qid : Z) : option fifo :=
  (fun q => (fun m => (msg_type m, msg_payload m)) <$> messages q) <$> slot st qid.

(** [mem] is whether there is memory for one more message. *)
Definition fifo_send (v : option fifo) (mem : bool) (type : Z) (data : list Z) : Z * option fifo :=
  match v with
  | None => (- EINVAL, None)
  | Some l =>
    if 8192 <? Z.of_nat (length data) then (- EMSGSIZE, Some l)
    else if 256 <=? Z.of_nat (length l) then (- EAGAIN, Some l)
    else if negb mem then (- ENOMEM, Some l)
    else (0, Some (l ++ [(type, data)]))
  end.

(** Type 0 stands for every type; [MSG_EXCEPT] asks for any type but the given one. *)
Definition fifo_wants (type flags : Z) (x : Z * list Z) : bool :=
  (type =? 0) || (if flagb flags MSG_EXCEPT then negb (x.1 =? type) else x.1 =? type).

Definition fifo_recv (v : option fifo) (size type flags : Z) : Z * list Z * option fifo :=
  match v with
  | None => (- EINVAL, [], None)
  | Some l =>
    match take_first (fifo_wants type flags) l with
    | None => (- EAGAIN, [], Some l)
    | Some (x, r) =>
      if (size <? Z.of_nat (length x.2)) && negb (flagb flags MSG_NOERROR)
      then (- E2BIG, [], Some l)
      else (Z.min size (Z.of_nat (length x.2)), take (Z.to_nat size) x.2, Some r)
    end
  end.

Lemma take_first_fmap {A B} (f : A -> B) (p : A -> bool) (q : B -> bool) (l : list A) :
  (forall x, p x = q (f x)) ->
  take_first q (f <$> l)
  = match take_first p l with Some (x, r) => Some (f x, f <$> r) | None => None end.
Proof.
  intros Hpq. induction l as [|x l IH]; [done|]. rewrite fmap_cons. simpl. rewrite <- Hpq.
  destruct (p x); [done|]. rewrite IH. by destruct (take_first p l) as [[]|].
Qed.

(** [MSG_EXCEPT] is asked for and the oldest message has the excepted type. *)
Definition excepted (type flags : Z) (l : fifo) : bool :=
  flagb flags MSG_EXCEPT && negb (type =? 0) && match l with (t, _) :: _ => t =? type | [] => false end.

Lemma take_first_head {A} (p q : A -> bool) l :
  match l with x :: _ => p x = true /\ q x = true | [] => True end -> take_first p l = take_first q l.
Proof. destruct l as [|x l]; [done|]. simpl. by intros [-> ->]. Qed.

(** The message taken is the one asked for, but the oldest in the excepted case. *)
Lemma matches_wants type flags l :
  let v := (fun m => (msg_type m, msg_payload m)) <$> l in
  take_first (fifo_wants (if excepted type flags v then 0 else type) flags) v =
  match take_first (msg_matches type flags) l with Some (m, r) => Some ((msg_type m, msg_payload m), (fun m => (msg_type m, msg_payload m)) <$> r) | None => None end.
Proof.
  intros v. unfold excepted, fifo_wants. destruct (flagb flags MSG_EXCEPT) eqn:Ef.
  - rewrite <- (take_first_fmap (fun m => (msg_type m, msg_payload m)) (msg_matches type flags) (fun _ => true)).
    2:{ intros m. unfold msg_matches. rewrite Ef. destruct (type =? 0), (msg_type m =? type); done. }
    apply take_first_head. fold v. destruct v as [|[t d] v']; [done|]. cbn. split; [|done].
    destruct (Z.eqb_spec type 0) as [->|]; [done|]. cbn. destruct (Z.eqb_spec t type); [done|]. by destruct (Z.eqb_spec type 0), (Z.eqb_spec t type).
  - apply take_first_fmap. intros m. unfold msg_matches. rewrite Ef. cbn. destruct (type =? 0), (msg_type m =? type); done.
Qed.

Lemma view_set st qid q j :
  0 <= qid < Z.of_nat (length (queue_table st)) -> 0 <= j ->
  view (set_slot qid (Some q) st) j
  = if qid =? j then Some ((fun m => (msg_type m, msg_payload m)) <$> messages q) else view st j.
Proof. intros. unfold view. rewrite slot_set by lia. by case_match. Qed.

Lemma send_refines cur mem now st qid data type flags :
  mq_ok st -> 0 <= qid < MAX_QUEUES ->
  let '(r, st') := msgqueue_send cur mem now qid data (Z.of_nat (length data)) type flags st in
  (r, view st' qid) = fifo_send (view st qid) mem type data /\ mq_ok st' /\
  forall j, 0 <= j -> j <> qid -> view st' j = view st j.
Proof.
  intros Hok Hq. unfold msgqueue_send. rewrite (proj2 (qid_guard qid) Hq).
  pose proof (mo_len st Hok) as Hl. unfold fifo_send. unfold view at 1 2.
  destruct (slot st qid) as [q|] eqn:Hs; simpl; [|by rewrite Hs].
  destruct (mo_queues st Hok qid q (proj1 Hq) Hs) as [Hm Hms Hc Hb Hby Hf] eqn:Hqo. clear Hqo.
  rewrite Hms, Hm, Hc, length_fmap, Z.gtb_ltb, Z.geb_leb.
  destruct (Z.ltb_spec 8192 (Z.of_nat (length data))); [by rewrite Hs|].
  destruct (Z.leb_spec 256 (Z.of_nat (length (messages q)))); [by rewrite Hs|].
  destruct mem; cbn [negb]; [|by rewrite Hs].
  split_and!.
  - rewrite slot_set, Z.eqb_refl by lia. simpl. rewrite fmap_app. simpl.
    by rewrite take_ge by lia.
  - apply (mq_ok_update st qid q); try done. apply push_ok; simpl; try lia; [by split|..].
    + apply u32_small. lia.
    + rewrite take_ge by lia. done.
  - intros j Hj Hne. rewrite view_set by lia. by destruct (Z.eqb_spec qid j).
Qed.

Lemma recv_refines now st qid size type flags :
  mq_ok st -> 0 <= qid < MAX_QUEUES -> 0 <= size ->
  let '(r, out, st') := msgqueue_recv now qid size type flags st in
  (r, out, view st' qid) = fifo_recv (view st qid) size (if excepted type flags (default [] (view st qid)) then 0 else type) flags /\ mq_ok st' /\
  forall j, 0 <= j -> j <> qid -> view st' j = view st j.
Proof.
  intros Hok Hq Hsz. unfold msgqueue_recv. rewrite (proj2 (qid_guard qid) Hq).
  pose proof (mo_len st Hok) as Hl. unfold fifo_recv. unfold view at 2 3.
  destruct (slot st qid) as [q|] eqn:Hs; cbn [fmap option_fmap option_map default from_option id]; [|unfold view; by rewrite Hs].
  pose proof (mo_queues st Hok qid q (proj1 Hq) Hs) as Hqo.
  rewrite matches_wants. destruct (take_first (msg_matches type flags) (messages q)) as [[m rest]|] eqn:Ht; simpl;
    [|unfold view; by rewrite Hs].
  apply take_first_Some in Ht as (l1 & l2 & Hmsg & -> & _ & _).
  assert (Hm : msg_size m = Z.of_nat (length (msg_payload m))).
  { pose proof (qo_msgs q Hqo) as Hf. rewrite Hmsg in Hf.
    apply Forall_app in Hf as [_ Hf]. apply Forall_cons in Hf as [[? _] _]. done. }
  rewrite Hm. replace (Z.min size (Z.of_nat (length (msg_payload m))) <? Z.of_nat (length (msg_payload m)))
    with (size <? Z.of_nat (length (msg_payload m))) by lia.
  destruct (_ && negb _); [unfold view; by rewrite Hs|]. split_and!.
  - rewrite view_set, Z.eqb_refl by lia. simpl. f_equal. f_equal.
    destruct (Z.le_gt_cases size (Z.of_nat (length (msg_payload m)))).
    + by rewrite Z.min_l by lia.
    + rewrite Z.min_r, !take_ge by lia. done.
  - apply (mq_ok_update st qid q); try done. by apply pop_ok.
  - intros j Hj Hne. rewrite view_set by lia. by destruct (Z.eqb_spec qid j).
Qed.

Lemma mq_boot_ok : mq_ok mq_boot.
Proof.
  assert (Hs : forall i, slot mq_boot i = None).
  { intros i. unfold slot, mq_boot. cbn [queue_table].
    destruct (replicate _ _ !! _) as [q|] eqn:Hl; [|done]. by apply lookup_replicate in Hl as [-> _]. }
  split; [done|intros i q Hi Hx|intros i j q q' Hi Hj Hx]; by rewrite Hs in Hx.
Qed.

Lemma create_ok cur mem key mode st :
  mq_ok st -> mq_ok (msgqueue_create cur mem key mode st).2.
Proof.
  intros Hok. unfold msgqueue_create. destruct (_ && _) eqn:Hdup; [done|].
  destruct (find_range (is_free st) 0 MAX_QUEUES) as [qid|] eqn:Hf; [|done].
  destruct mem; [|done]. cbn [negb snd]. apply find_range_Some in Hf as (Hq & Hfree & _).
  set (q := Queue _ _ _ _ _ _ _ _ _ _ _ _). set (st1 := Mq _ _).
  pose proof (mo_len st Hok) as Hl.
  assert (Hslot : forall i, 0 <= i -> slot (set_slot qid (Some q) st1) i
    = if qid =? i then Some q else slot st i) by (intros; by apply (slot_set st1); simpl; lia).
  assert (Hnew : forall i x, 0 <= i -> slot st i = Some x -> q_key x = key -> key = 0).
  { intros i x Hi Hx Hk. destruct (Z.eqb_spec key 0) as [|Hne]; [done|]. simpl in Hdup.
    apply bool_decide_eq_false in Hdup. exfalso. apply Hdup.
    destruct (find_range (has_key st key) 0 MAX_QUEUES) eqn:Hr; [by eexists|].
    rewrite find_range_None in Hr. specialize (Hr i (slot_range st i x Hok Hi Hx)).
    unfold has_key in Hr. rewrite Hx in Hr. zbool. done. }
  split.
  - simpl. by rewrite length_insert.
  - intros i x Hi Hx. rewrite Hslot in Hx by done.
    destruct (Z.eqb_spec qid i); simplify_eq; [|by apply (mo_queues st Hok i)].
    split; simpl; try done.
  - intros i j x y Hi Hj Hx Hy Hk Hne. rewrite Hslot in Hx, Hy by done.
    destruct (Z.eqb_spec qid i), (Z.eqb_spec qid j); simplify_eq; try done.
    + destruct Hne. simpl. by apply (Hnew j y).
    + destruct Hne. rewrite Hk. simpl. by apply (Hnew i x).
    + by apply (mo_keys st Hok i j x y).
Qed.

Lemma destroy_ok qid st : mq_ok st -> mq_ok (msgqueue_destroy qid st).2.
Proof.
  intros Hok. unfold msgqueue_destroy. destruct (_ || _) eqn:Hg; [done|]. apply qid_guard in Hg.
  destruct (slot st qid) as [q|] eqn:Hs; [|done]. cbn [snd]. pose proof (mo_len st Hok) as Hl.
  assert (Hslot : forall i x, 0 <= i -> slot (set_slot qid None st) i = Some x -> slot st i = Some x).
  { intros i x Hi. rewrite slot_set by lia. by case_match. }
  split.
  - simpl. by rewrite length_insert.
  - intros i x Hi Hx. apply (mo_queues st Hok i); auto.
  - intros i j x y Hi Hj Hx Hy. apply (mo_keys st Hok); auto.
Qed.

(** ** Properties *)

(** Creating, destroying, sending and receiving keep the table consistent:
    at most 256 messages of at most 8192 bytes per queue, exact message and byte
    counts, and no two queues with the same non-zero key. *)
Theorem mq_ops_preserve_ok cur mem now st (Hok : mq_ok st) :
  (forall key mode, mq_ok (msgqueue_create cur mem key mode st).2) /\
  (forall qid, mq_ok (msgqueue_destroy qid st).2) /\
  (forall qid data type flags,
     mq_ok (msgqueue_send cur mem now qid data (Z.of_nat (length data)) type flags st).2) /\
  (forall qid size type flags, 0 <= size -> mq_ok (msgqueue_recv now qid size type flags st).2).
Proof.
  split_and!.
  - intros. by apply create_ok.
  - intros. by apply destroy_ok.
  - intros qid data type flags. destruct ((qid <? 0) || (qid >=? MAX_QUEUES)) eqn:Hg.
    { unfold msgqueue_send. by rewrite Hg. }
    apply qid_guard in Hg. pose proof (send_refines cur mem now st qid data type flags Hok Hg) as H.
    destruct (msgqueue_send _ _ _ _ _ _ _ _ _). by destruct H as (_ & ? & _).
  - intros qid size type flags Hsz. destruct ((qid <? 0) || (qid >=? MAX_QUEUES)) eqn:Hg.
    { unfold msgqueue_recv. by rewrite Hg. }
    apply qid_guard in Hg. pose proof (recv_refines now st qid size type flags Hok Hg Hsz) as H.
    destruct (msgqueue_recv _ _ _ _ _ _) as [[? ?] ?]. by destruct H as (_ & ? & _).
Qed.

Lemma mq_ops_preserve_ok_witness :
  mq_ok (msgqueue_create None true 7 384 mq_boot).2.
Proof. apply (mq_ops_preserve_ok None true 0 mq_boot mq_boot_ok). Defined.

(** C25. Refinement: on a valid queue number, sending and receiving do to the
    queue what an abstract FIFO of typed messages does, with the same results on
    every branch (no queue, message too long, queue full, no memory, no match,
    buffer too small), and leave every other queue alone; receiving takes the first
    message that is asked for, of the given type or, with [MSG_EXCEPT], of any
    other, and keeps the order of the rest.  The one exception is [MSG_EXCEPT] when
    the oldest message has the excepted type: that message is then taken, as if any
    type were asked for. *)
Theorem msgqueue_refines_fifo cur mem now st qid
    (Hok : mq_ok st) (Hqid : 0 <= qid < MAX_QUEUES) :
  (forall data type flags,
     let '(r, st') := msgqueue_send cur mem now qid data (Z.of_nat (length data)) type flags st in
     (r, view st' qid) = fifo_send (view st qid) mem type data /\
     forall j, 0 <= j -> j <> qid -> view st' j = view st j) /\
  (forall size type flags, 0 <= size ->
     let '(r, out, st') := msgqueue_recv now qid size type flags st in
     (if excepted type flags (default [] (view st qid))
      then (r, out, view st' qid) = fifo_recv (view st qid) size 0 flags
      else (r, out, view st' qid) = fifo_recv (view st qid) size type flags) /\
     forall j, 0 <= j -> j <> qid -> view st' j = view st j).
Proof.
  split.
  - intros data type flags. pose proof (send_refines cur mem now st qid data type flags Hok Hqid) as H.
    destruct (msgqueue_send _ _ _ _ _ _ _ _ _). by destruct H as (? & _ & ?).
  - intros size type flags Hsz.
    pose proof (recv_refines now st qid size type flags Hok Hqid Hsz) as H.
    destruct (msgqueue_recv _ _ _ _ _ _) as [[? ?] ?]. destruct H as (? & _ & ?). by destruct (excepted _ _ _).
Qed.

(** A message of the excepted type is received although another one waits. *)
Lemma except_takes_excepted :
  let st := (msgqueue_send None true 0 0 [2] 1 8 0 (msgqueue_send None true 0 0 [1] 1 9 0 (msgqueue_create None true 7 384 mq_boot).2).2).2 in
  (msgqueue_recv 0 0 16 9 MSG_EXCEPT st).1 = (1, [1]) /\ (fifo_recv (view st 0) 16 9 MSG_EXCEPT).1 = (1, [2]).
Proof. vm_compute. done. Qed.

Lemma msgqueue_refines_fifo_witness :
  let st := (msgqueue_create None true 7 384 mq_boot).2 in
  let '(r, st') := msgqueue_send None true 5 0 [1; 2; 3] 3 9 0 st in
  (r, view st' 0) = fifo_send (view st 0) true 9 [1; 2; 3] /\
  forall j, 0 <= j -> j <> 0 -> view st' j = view st j.
Proof.
  cbv zeta.
  destruct (msgqueue_refines_fifo None true 5 (msgqueue_create None true 7 384 mq_boot).2 0) as [H _].
  - apply create_ok, mq_boot_ok.
  - unfold MAX_QUEUES. lia.
  - exact (H [1; 2; 3] 9 0).
Defined.
