(* ===== verification/Axiomd.v ===== *)
(** * Axiom daemon channel (kernel/ipc/axiomd_channel.c)

    The kernel's side of the channel to the policy daemon: two message queues
    and a connection state.  Polling is modelled with the sequence of what
    happens at each test of the loop: the tick counter read there, and what the
    rest of the system has done to the message queues by then. *)

From S2P Require Import Prelude Errno MsgQueue.

Abbreviation AXIOMD_MSG_QUERY := 1%Z (only parsing).
Abbreviation AXIOMD_MSG_RESPONSE := 2%Z (only parsing).
Abbreviation AXIOMD_MSG_PING := 6%Z (only parsing).
Abbreviation AXIOMD_MSG_PONG := 7%Z (only parsing).

Inductive axiomd_state_t :=
  | AXIOMD_STATE_DISCONNECTED
  | AXIOMD_STATE_CONNECTING
  | AXIOMD_STATE_CONNECTED
  | AXIOMD_STATE_ERROR.

#[global] Instance axiomd_state_eq_dec : EqDecision axiomd_state_t.
Proof. solve_decision. Defined.

(** [channel], the queue numbers, the daemon's pid, and the message queues. *)
Record axiomd := Axiomd {
  ch_state : axiomd_state_t;
  pending_queries : list Z;
  next_query_id : Z;
  daemon_alive : bool;
  last_ping : Z;
  last_pong : Z;
  kernel_to_daemon_qid : Z;
  daemon_to_kernel_qid : Z;
  daemon_pid : Z;
  queues : mq
}.

Definition with_conn (s : axiomd_state_t) (alive : bool) (st : axiomd) : axiomd :=
  Axiomd s (pending_queries st) (next_query_id st) alive (last_ping st) (last_pong st)
         (kernel_to_daemon_qid st) (daemon_to_kernel_qid st) (daemon_pid st) (queues st).

Definition with_pid (pid : Z) (st : axiomd) : axiomd :=
  Axiomd (ch_state st) (pending_queries st) (next_query_id st) (daemon_alive st) (last_ping st)
         (last_pong st) (kernel_to_daemon_qid st) (daemon_to_kernel_qid st) pid (queues st).

Definition with_times (ping pong : Z) (st : axiomd) : axiomd :=
  Axiomd (ch_state st) (pending_queries st) (next_query_id st) (daemon_alive st) ping pong
         (kernel_to_daemon_qid st) (daemon_to_kernel_qid st) (daemon_pid st) (queues st).

Definition with_mq (m : mq) (st : axiomd) : axiomd :=
  Axiomd (ch_state st) (pending_queries st) (next_query_id st) (daemon_alive st) (last_ping st)
         (last_pong st) (kernel_to_daemon_qid st) (daemon_to_kernel_qid st) (daemon_pid st) m.

Definition with_pending (l : list Z) (st : axiomd) : axiomd :=
  Axiomd (ch_state st) l (next_query_id st) (daemon_alive st) (last_ping st) (last_pong st)
         (kernel_to_daemon_qid st) (daemon_to_kernel_qid st) (daemon_pid st) (queues st).

(** ** Channel management *)

(** [mem1] and [mem2] are the outcomes of the two queue allocations; the mode
    is octal 0600. *)
Definition axiomd_channel_init (cur : option caller) (mem1 mem2 : bool) (st : axiomd) : axiomd :=
  let '(q1, m) := msgqueue_create cur mem1 0xA710D001 384 (queues st) in
  let '(q2, m) := msgqueue_create cur mem2 0xA710D002 384 m in
  Axiomd AXIOMD_STATE_DISCONNECTED [] 1 false 0 0 q1 q2 (daemon_pid st) m.

Definition axiomd_connect (st : axiomd) : Z * axiomd :=
  if bool_decide (ch_state st = AXIOMD_STATE_CONNECTED) then (0, st) else
  let st := with_conn AXIOMD_STATE_CONNECTING (daemon_alive st) st in
  if daemon_pid st >? 0 then (0, with_conn AXIOMD_STATE_CONNECTED true st)
  else (- EAXIOMD, st).

Definition axiomd_disconnect (st : axiomd) : axiomd :=
  with_pending [] (with_conn AXIOMD_STATE_DISCONNECTED false st).

Definition axiomd_is_connected (st : axiomd) : bool :=
  bool_decide (ch_state st = AXIOMD_STATE_CONNECTED) && daemon_alive st.

(** ** Queries *)

Definition axiomd_send_query (cur : option caller) (mem : bool) (now : Z)
    (query : list Z) (size : Z) (st : axiomd) : Z * axiomd :=
  if negb (axiomd_is_connected st) then (- EAXIOMD, st) else
  let '(r, m) := msgqueue_send cur mem now (kernel_to_daemon_qid st) query size
                   AXIOMD_MSG_QUERY MSG_NOWAIT (queues st) in
  (r, with_mq m st).

(** One test of the polling loop: the tick counter read there, and what the
    other processes have done to the queues since the previous one. *)
Definition poll : Type := Z * (mq -> mq).

(** The loop of [axiomd_recv_response]; [None] when the polls run out while it
    is still waiting. *)
Fixpoint recv_loop (polls : list poll) (start timeout size : Z) (st : axiomd)
    : option (Z * list Z * axiomd) :=
  match polls with
  | [] => None
  | (t, env) :: polls' =>
    let st := with_mq (env (queues st)) st in
    if u64 (t - start) <? timeout then
      let '(ret, out, m) := msgqueue_recv t (daemon_to_kernel_qid st) size
                              AXIOMD_MSG_RESPONSE MSG_NOWAIT (queues st) in
      let st := with_mq m st in
      if ret >? 0 then Some (ret, out, st)
      else if negb (ret =? - EAGAIN) then Some (ret, out, st)
      else recv_loop polls' start timeout size st
    else Some (- ETIMEDOUT, [], st)
  end.

Definition axiomd_recv_response (start : Z) (polls : list poll) (size timeout_ms : Z) (st : axiomd)
    : option (Z * list Z * axiomd) :=
  if negb (axiomd_is_connected st) then Some (- EAXIOMD, [], st)
  else recv_loop polls start timeout_ms size st.

Definition axiomd_query_sync (cur : option caller) (mem : bool) (now start : Z) (polls : list poll)
    (query : list Z) (query_size response_size timeout_ms : Z) (st : axiomd)
    : option (Z * list Z * axiomd) :=
  let '(ret, st) := axiomd_send_query cur mem now query query_size st in
  if ret <? 0 then Some (ret, [], st)
  else axiomd_recv_response start polls response_size timeout_ms st.

(** ** Daemon registration *)

Definition axiomd_daemon_register (now pid : Z) (st : axiomd) : Z * axiomd :=
  let st := with_pid pid st in
  let st := with_conn AXIOMD_STATE_CONNECTED true st in
  (0, with_times (last_ping st) now st).

Definition axiomd_daemon_unregister (st : axiomd) : Z * axiomd :=
  (0, axiomd_disconnect (with_pid 0 st)).

(** ** Health check *)

Definition axiomd_ping (cur : option caller) (mem : bool) (now start pong_time : Z)
    (polls : list poll) (st : axiomd) : option (Z * axiomd) :=
  if negb (axiomd_is_connected st) then Some (- EAXIOMD, st) else
  let '(ret, m) := msgqueue_send cur mem now (kernel_to_daemon_qid st) [AXIOMD_MSG_PING] 1
                     AXIOMD_MSG_PING MSG_NOWAIT (queues st) in
  let st := with_mq m st in
  if ret <? 0 then Some (ret, st) else
  let st := with_times now (last_pong st) st in
  match axiomd_recv_response start polls 1 100 st with
  | None => None
  | Some (ret, _, st) =>
    if ret <? 0 then Some (ret, with_conn (ch_state st) false st)
    else Some (0, with_times (last_ping st) pong_time st)
  end.

(** ** Lemmas *)

(** No message of type RESPONSE waits in queue [qid]. *)
Definition no_response (qid : Z) (m : mq) : Prop :=
  mq_ok m /\ forall l, view m qid = Some l -> Forall (fun x => x.1 <> AXIOMD_MSG_RESPONSE) l.

(** Other processes never send a RESPONSE to the queue. *)
Definition quiet_polls (qid : Z) (polls : list poll) : Prop :=
  Forall (fun p : poll => forall m, no_response qid m -> no_response qid (p.2 m)) polls.

Lemma recv_no_response now qid size m :
  no_response qid m -> 0 <= qid < MAX_QUEUES -> 0 <= size ->
  exists r, msgqueue_recv now qid size AXIOMD_MSG_RESPONSE MSG_NOWAIT m = (r, [], m) /\
    (r = - EAGAIN \/ r = - EINVAL).
Proof.
  intros [Hok Hno] Hq Hsz. unfold msgqueue_recv. rewrite (proj2 (qid_guard qid) Hq).
  unfold view in Hno. destruct (slot m qid) as [q|]; [|by eauto].
  rewrite (proj2 (take_first_None _ _)); [by eauto|].
  specialize (Hno _ eq_refl). rewrite Forall_fmap in Hno.
  eapply Forall_impl; [exact Hno|]. intros x Hx. simpl in Hx. unfold msg_matches.
  by rewrite (proj2 (Z.eqb_neq _ _) Hx).
Qed.

Lemma recv_loop_no_response polls start timeout size st r out st' :
  no_response (daemon_to_kernel_qid st) (queues st) ->
  0 <= daemon_to_kernel_qid st < MAX_QUEUES -> 0 <= size ->
  quiet_polls (daemon_to_kernel_qid st) polls ->
  recv_loop polls start timeout size st = Some (r, out, st') -> r = - ETIMEDOUT \/ r = - EINVAL.
Proof.
  intros Hno Hq Hsz. revert st Hno Hq.
  induction polls as [|[t env] polls IH]; intros st Hno Hq Hpolls Hr; [done|].
  apply Forall_cons in Hpolls as [Henv Hpolls]. simpl in Hr.
  destruct (u64 (t - start) <? timeout); [|simplify_eq; by left].
  destruct (recv_no_response t (daemon_to_kernel_qid st) size (env (queues st)) (Henv _ Hno) Hq Hsz)
    as (ret & Hrecv & Hret). rewrite Hrecv in Hr.
  destruct Hret as [-> | ->]; simpl in Hr; [|simplify_eq; by right].
  exact (IH (with_mq (env (queues st)) (with_mq (env (queues st)) st)) (Henv _ Hno) Hq Hpolls Hr).
Qed.

(** Sending a message of another type keeps the queue free of responses. *)
Lemma send_no_response cur mem now qid data type flags m :
  0 <= qid < MAX_QUEUES -> type <> AXIOMD_MSG_RESPONSE -> no_response qid m ->
  no_response qid (msgqueue_send cur mem now qid data (Z.of_nat (length data)) type flags m).2.
Proof.
  intros Hq Hty [Hok Hno].
  destruct mem; [|unfold msgqueue_send; repeat case_match; by split].
  pose proof (send_refines cur true now m qid data type flags Hok Hq) as H.
  destruct (msgqueue_send _ _ _ _ _ _ _ _ _) as [r m'] eqn:Hs. destruct H as (Hv & Hok' & _).
  split; [done|]. intros l Hl. simpl in Hl. rewrite Hl in Hv. unfold fifo_send in Hv.
  destruct (view m qid) as [k|]; [|done]. specialize (Hno k eq_refl).
  repeat case_match; simplify_eq; try done. apply Forall_app. split; [done|]. by repeat constructor.
Qed.

(** Sending to another queue does not touch the queue. *)
Lemma send_other_no_response cur now qid q data type flags m :
  0 <= q < MAX_QUEUES -> 0 <= qid -> q <> qid -> no_response qid m ->
  no_response qid (msgqueue_send cur true now q data (Z.of_nat (length data)) type flags m).2.
Proof.
  intros Hq Hqid Hne [Hok Hno]. pose proof (send_refines cur true now m q data type flags Hok Hq) as H.
  destruct (msgqueue_send _ _ _ _ _ _ _ _ _) as [r m']. destruct H as (_ & Hok' & Hv).
  split; [done|]. intros l. simpl. rewrite Hv by done. apply Hno.
Qed.

(** ** Properties *)

(** A ping never succeeds on a pong: [axiomd_ping] waits for a message of
    type RESPONSE, so as long as none is sent, whatever else the daemon sends
    and in particular PONG replies, a ping that ends returns an error, and when
    the ping was sent it declares the daemon dead. *)
Theorem axiomd_ping_ignores_pong cur mem now start pong_time polls st r st'
    (Hk2d : 0 <= kernel_to_daemon_qid st < MAX_QUEUES)
    (Hd2k : 0 <= daemon_to_kernel_qid st < MAX_QUEUES)
    (Hdiff : kernel_to_daemon_qid st <> daemon_to_kernel_qid st)
    (Hno : no_response (daemon_to_kernel_qid st) (queues st))
    (Hpolls : quiet_polls (daemon_to_kernel_qid st) polls)
    (Hping : axiomd_ping cur mem now start pong_time polls st = Some (r, st')) :
  r < 0 /\ (r = - ETIMEDOUT -> daemon_alive st' = false).
Proof.
  unfold axiomd_ping in Hping. destruct (axiomd_is_connected st) eqn:Hconn; cbn [negb] in Hping;
    [|by simplify_eq]. destruct mem.
  2: { unfold msgqueue_send in Hping. repeat case_match; by simplify_eq. }
  pose proof (send_other_no_response cur now (daemon_to_kernel_qid st) (kernel_to_daemon_qid st)
    [AXIOMD_MSG_PING] AXIOMD_MSG_PING MSG_NOWAIT (queues st) Hk2d (proj1 Hd2k) Hdiff Hno) as Hno1.
  pose proof (send_refines cur true now (queues st) (kernel_to_daemon_qid st) [AXIOMD_MSG_PING]
    AXIOMD_MSG_PING MSG_NOWAIT (proj1 Hno) Hk2d) as Hsend.
  cbn [length] in *. change (Z.of_nat 1) with 1 in *.
  destruct (msgqueue_send _ _ _ _ _ _ _ _ _) as [ret m]. cbn [snd] in Hno1.
  destruct (Z.ltb_spec ret 0).
  { simplify_eq. split; [done|]. intros Hret. destruct Hsend as [Hv _].
    unfold fifo_send in Hv. subst r. repeat case_match; simplify_eq. }
  unfold axiomd_recv_response in Hping.
  change (axiomd_is_connected (with_times now _ _)) with (axiomd_is_connected st) in Hping.
  rewrite Hconn in Hping. cbn [negb] in Hping.
  destruct (recv_loop _ _ _ _ _) as [[[ret' out] st2]|] eqn:Hloop; [|done].
  apply recv_loop_no_response in Hloop; [|done..]. 
  destruct Hloop as [-> | ->]; simplify_eq/=; done.
Qed.

(** The channel after the daemon registered, and a daemon that answers the ping
    with a pong at once. *)
Definition axiomd_example : axiomd :=
  (axiomd_daemon_register 5 42
     (axiomd_channel_init None true true
        (Axiomd AXIOMD_STATE_DISCONNECTED [] 0 false 0 0 (-1) (-1) 0 mq_boot))).2.

Definition pong_polls : list poll :=
  [(10, fun m => (msgqueue_send None true 10 1 [AXIOMD_MSG_PONG] 1 AXIOMD_MSG_PONG 0 m).2);
   (50, fun m => m); (110, fun m => m)].

Lemma channel_init_ok cur mem1 mem2 st :
  mq_ok (queues st) -> mq_ok (queues (axiomd_channel_init cur mem1 mem2 st)).
Proof.
  intros Hok. unfold axiomd_channel_init.
  pose proof (create_ok cur mem1 0xA710D001 384 (queues st) Hok) as H1.
  destruct (msgqueue_create cur mem1 _ _ _) as [q1 m1]. cbn [snd] in H1.
  pose proof (create_ok cur mem2 0xA710D002 384 m1 H1) as H2.
  by destruct (msgqueue_create cur mem2 _ _ _) as [q2 m2].
Qed.

Lemma axiomd_example_no_response : no_response 1 (queues axiomd_example).
Proof.
  split.
  - apply (channel_init_ok None true true), mq_boot_ok.
  - assert (Hv : view (queues axiomd_example) 1 = Some []) by (vm_compute; reflexivity).
    rewrite Hv. intros l [= <-]. constructor.
Qed.

Lemma axiomd_ping_ignores_pong_witness :
  exists st', axiomd_ping None true 10 10 120 pong_polls axiomd_example = Some (- ETIMEDOUT, st') /\
    - ETIMEDOUT < 0 /\ (- ETIMEDOUT = - ETIMEDOUT -> daemon_alive st' = false).
Proof.
  assert (Hq1 : kernel_to_daemon_qid axiomd_example = 0) by (vm_compute; reflexivity).
  assert (Hq2 : daemon_to_kernel_qid axiomd_example = 1) by (vm_compute; reflexivity).
  eexists. split; [vm_compute; reflexivity|].
  eapply (axiomd_ping_ignores_pong None true 10 10 120 pong_polls axiomd_example);
    rewrite ?Hq1, ?Hq2.
  - unfold MAX_QUEUES. lia.
  - unfold MAX_QUEUES. lia.
  - lia.
  - exact axiomd_example_no_response.
  - constructor; [|constructor; [|constructor; [|constructor]]]; intros m Hm; cbn [snd].
    + apply (send_no_response None true 10 1 [AXIOMD_MSG_PONG]); [unfold MAX_QUEUES; lia| |exact Hm].
      lia.
    + exact Hm.
    + exact Hm.
  - vm_compute. reflexivity.
Defined.
