(* ===== verification/Bytes.v ===== *)
(** * Little-endian fields of structures

    How the x86-64 code lays out integers in the bytes of a structure, and reads
    them back. *)

From S2P Require Import Prelude.

(** The [n] bytes of [x], least significant first. *)
Fixpoint le_bytes (n : nat) (x : Z) : list Z :=
  match n with
  | O => []
  | S n => x mod 256 :: le_bytes n (x / 256)
  end.

(** The integer the bytes hold. *)
Fixpoint le_value (l : list Z) : Z :=
  match l with
  | [] => 0
  | b :: l => b + 256 * le_value l
  end.

(** The field of [n] bytes at offset [off]. *)
Definition field (off n : nat) (l : list Z) : Z := le_value (take n (drop off l)).

(** What a buffer holds after [data] was copied to its start. *)
Definition overlay (data buf : list Z) : list Z := data ++ drop (length data) buf.

Definition bytes_ok (l : list Z) : Prop := Forall (fun b => 0 <= b < 256) l.

Lemma le_bytes_length n x : length (le_bytes n x) = n.
Proof. revert x. induction n as [|n IH]; intros x; cbn; [done|]. by rewrite IH. Qed.

Lemma le_bytes_ok n x : bytes_ok (le_bytes n x).
Proof. revert x. induction n as [|n IH]; intros x; cbn; [constructor|]. constructor; [by apply Z.mod_pos_bound|apply IH]. Qed.

Lemma le_value_bytes n x : le_value (le_bytes n x) = x mod 256 ^ Z.of_nat n.
Proof.
  revert x. induction n as [|n IH]; intros x; cbn [le_bytes le_value].
  - by rewrite Z.pow_0_r, Z.mod_1_r.
  - rewrite IH, Nat2Z.inj_succ, Z.pow_succ_r by lia. rewrite Z.rem_mul_r by lia. done.
Qed.

Lemma le_value_bounds l : bytes_ok l -> 0 <= le_value l < 256 ^ Z.of_nat (length l).
Proof.
  induction 1 as [|b l Hb _ IH]; cbn [le_value length]; [lia|].
  rewrite Nat2Z.inj_succ, Z.pow_succ_r by lia. lia.
Qed.

Lemma le_bytes_value l : bytes_ok l -> le_bytes (length l) (le_value l) = l.
Proof.
  induction 1 as [|b l Hb _ IH]; cbn; [done|]. f_equal.
  - rewrite Z.mul_comm, Z_mod_plus_full. by apply Z.mod_small.
  - rewrite Z.mul_comm, Z.div_add, Z.div_small by lia. by rewrite Z.add_0_l, IH.
Qed.

(** A field that was written with [le_bytes] after [off] other bytes. *)
Lemma field_le off n x l1 l2 : length l1 = off -> 0 <= x < 256 ^ Z.of_nat n -> field off n (l1 ++ le_bytes n x ++ l2) = x.
Proof.
  intros Hl Hx. unfold field. rewrite (drop_app_length' l1 _ off (eq_sym Hl)).
  rewrite take_app_length' by (symmetry; apply le_bytes_length). rewrite le_value_bytes. by apply Z.mod_small.
Qed.

Lemma field_bounds off n l : bytes_ok l -> (off + n <= length l)%nat -> 0 <= field off n l < 256 ^ Z.of_nat n.
Proof.
  intros Hl Hn. unfold field. pose proof (le_value_bounds (take n (drop off l)) ltac:(by apply Forall_take, Forall_drop)) as Hb.
  rewrite length_take, length_drop in Hb. by replace (n `min` (length l - off))%nat with n in Hb by lia.
Qed.
