(* ===== verification/PolicyIpc.v ===== *)
(** * Policy queries of AxiomFS: the rest of fs/axiomfs/policy_ipc.c

    An access is decided by a cached decision, by the policy daemon over the
    channel of Axiomd, or by the fallback.  What the rest of the system does
    during a query (time, allocations, the daemon's replies) and what was on the
    stack is in a record [env]; [None] is a fault, or a query that is still
    waiting when the record ends. *)

From S2P Require Import Prelude Bytes Errno ObjectHeap PolicyCache MsgQueue Axiomd.

Abbreviation POLICY_OP_READ := 1%Z (only parsing).
Abbreviation POLICY_OP_WRITE := 2%Z (only parsing).
Abbreviation POLICY_OP_EXECUTE := 3%Z (only parsing).
Abbreviation POLICY_OP_DELETE := 4%Z (only parsing).
Abbreviation POLICY_OP_CREATE := 5%Z (only parsing).
Abbreviation POLICY_OP_MODIFY_ATTR := 6%Z (only parsing).

Abbreviation POLICY_ALLOW := 0%Z (only parsing).
Abbreviation POLICY_DENY := 1%Z (only parsing).
Abbreviation POLICY_DEFAULT := 2%Z (only parsing).

Abbreviation POLICY_TIMEOUT_MS := 100%Z (only parsing).
Abbreviation AXIOMFS_POLICY_TIMEOUT_MS := 100%Z (only parsing).
Abbreviation AXIOMFS_CACHE_MAX_ENTRIES := 65536%Z (only parsing).
Abbreviation EPOLICYTIMEOUT := 202%Z (only parsing).
Abbreviation PATH_MAX := 4096%Z (only parsing).

(** [sizeof(struct policy_query)], with four bytes of padding, and
    [sizeof(struct policy_response)]. *)
Definition sizeof_query : Z := 4128.
Definition sizeof_response : Z := 268.

Record policy_query := mkQuery {
  q_query_id : Z;
  q_operation : Z;
  q_uid : Z;
  q_gid : Z;
  q_inode : Z;
  q_path : list Z;
  q_flags : Z
}.

(** The bytes of the structure; [pad] is what the stack held in its padding. *)
Definition query_bytes (q : policy_query) (pad : list Z) : list Z :=
  le_bytes 4 (q_query_id q) ++ le_bytes 4 (q_operation q) ++ le_bytes 4 (q_uid q) ++ le_bytes 4 (q_gid q) ++
  le_bytes 8 (q_inode q) ++ q_path q ++ le_bytes 4 (q_flags q) ++ pad.

(** [strncpy(query.path, path, sizeof(query.path) - 1)] for a string of the
    bytes [path], and the terminator. *)
Definition path_field (path : list Z) : list Z :=
  take 4095 (path ++ replicate 4095 0) ++ [0].

Definition response_id (r : list Z) : Z := field 0 4 r.
Definition response_result (r : list Z) : Z := s32 (field 4 4 r).

Definition policy_fallback_result (operation : Z) : Z :=
  if (operation =? POLICY_OP_READ) || (operation =? POLICY_OP_EXECUTE) then POLICY_DEFAULT
  else POLICY_DENY.

(** What happens around one query. *)
Record env := mkEnv {
  e_cur : option caller;    (** the current process *)
  e_lookup : Z;             (** the ticks when the cache is searched *)
  e_mem : bool;             (** the message can be allocated *)
  e_sent : Z;               (** the ticks when it is sent *)
  e_start : Z;              (** the ticks when the wait starts *)
  e_polls : list poll;      (** the tests of the wait *)
  e_stored : Z;             (** the ticks when the answer is cached *)
  e_pad : list Z;           (** the padding of the query on the stack *)
  e_stack : list Z          (** the response on the stack before it arrives *)
}.

Section PolicyIpc.
Context {H : Type} `{ObjectHeap H}.

(** [global_policy_cache], the cache or NULL (then the heap alone), the statics
    and the channel. *)
Record policy := mkPol {
  global_policy_cache : policy_cache H + H;
  daemon_available : bool;
  next_query_id : Z;
  channel : axiomd
}.

Definition with_cache (c : policy_cache H) (p : policy) : policy :=
  mkPol (inl c) (daemon_available p) (next_query_id p) (channel p).
Definition with_channel (ch : axiomd) (p : policy) : policy :=
  mkPol (global_policy_cache p) (daemon_available p) (next_query_id p) ch.

Definition policy_refresh_daemon_state (p : policy) : policy :=
  mkPol (global_policy_cache p) (axiomd_is_connected (channel p)) (next_query_id p) (channel p).

Definition policy_daemon_available (p : policy) : bool * policy :=
  let p := policy_refresh_daemon_state p in (daemon_available p, p).

(** The result, the response structure and the state. *)
Definition policy_daemon_query (e : env) (q : policy_query) (p : policy) : option (Z * list Z * policy) :=
  let p := policy_refresh_daemon_state p in
  if negb (daemon_available p) then Some (- EAXIOMD, e_stack e, p) else
  let '(ret, ch) := axiomd_send_query (e_cur e) (e_mem e) (e_sent e) (query_bytes q (e_pad e)) sizeof_query (channel p) in
  let p := with_channel ch p in
  if ret <? 0 then Some (ret, e_stack e, p) else
  match axiomd_recv_response (e_start e) (e_polls e) sizeof_response POLICY_TIMEOUT_MS (channel p) with
  | None => None
  | Some (ret, out, ch) =>
    let p := with_channel ch p in
    let response := overlay out (e_stack e) in
    if ret <? 0 then
      if ret =? - ETIMEDOUT then Some (- EPOLICYTIMEOUT, response, p) else Some (ret, response, p)
    else if negb (response_id response =? q_query_id q) then Some (- EINVAL, response, p)
    else Some (0, response, p)
  end.

(** [policy_cache_lookup] and [policy_cache_insert] on the global pointer. *)
Definition lookup_cache (now uid gid inode op : Z) (p : policy) : option (Z * policy) :=
  match global_policy_cache p with
  | inr _ => Some (-1, p)
  | inl c => match policy_cache_lookup now uid gid inode op c with
             | Some (r, c) => Some (r, with_cache c p)
             | None => None
             end
  end.

Definition insert_cache (now uid gid inode op result : Z) (p : policy) : option policy :=
  match global_policy_cache p with
  | inr _ => Some p
  | inl c => match policy_cache_insert now uid gid inode op result c with
             | Some c => Some (with_cache c p)
             | None => None
             end
  end.

Definition build_query (id uid gid inode : Z) (path : list Z) (operation : Z) : policy_query :=
  mkQuery id operation uid gid inode (path_field path) 0.

Definition policy_check_access (e : env) (uid gid inode : Z) (path : list Z) (operation : Z) (p : policy)
    : option (Z * policy) :=
  match lookup_cache (e_lookup e) uid gid inode operation p with
  | None => None
  | Some (cached, p) =>
    if cached >=? 0 then Some (cached, p) else
    if negb (daemon_available p) then Some (policy_fallback_result operation, p) else
    let query := build_query (next_query_id p) uid gid inode path operation in
    let p := mkPol (global_policy_cache p) (daemon_available p) (u32 (next_query_id p + 1)) (channel p) in
    match policy_daemon_query e query p with
    | None => None
    | Some (ret, response, p) =>
      if ret <? 0 then Some (policy_fallback_result operation, p) else
      match insert_cache (e_stored e) uid gid inode operation (response_result response) p with
      | None => None
      | Some p => Some (response_result response, p)
      end
    end
  end.

Definition policy_init (h : H) (p : policy) : policy :=
  let '(c, h) := policy_cache_create AXIOMFS_CACHE_MAX_ENTRIES AXIOMFS_POLICY_TIMEOUT_MS h in
  policy_refresh_daemon_state
    (mkPol (match c with Some c => inl c | None => inr h end) (daemon_available p) (next_query_id p) (channel p)).
End PolicyIpc.

#[global] Arguments policy H : clear implicits.

(** ** Allocation and inheritance *)

(** [preferred_block] tells whether the pointer is given; the block is what is
    stored there. *)
Definition policy_get_allocation (inode : Z) (path : option (list Z)) (preferred_block : bool) : Z * option Z :=
  let p := match path with Some p => p | None => [] end in
  if negb preferred_block then (- EINVAL, None) else
  (0, Some (fold_left (fun hash c => u64 (u64 (hash * 131) + u8 c)) p inode)).

Definition TMP : list Z := [47; 116; 109; 112].
Definition VAR_TMP : list Z := [47; 118; 97; 114; 47; 116; 109; 112].

(** The mode, the user and the group; the modes are octal 0600 and 0644. *)
Definition policy_get_inherited_mode (parent_path : option (list Z)) (mode uid gid : bool) : Z * option (Z * Z * Z) :=
  if negb mode || negb uid || negb gid then (- EINVAL, None) else
  match parent_path with
  | Some p =>
    if bool_decide (p = TMP) || bool_decide (p = VAR_TMP) then (0, Some (384, 0, 0)) else (0, Some (420, 0, 0))
  | None => (0, Some (420, 0, 0))
  end.
