(* ===== verification/PolicyIpcProps.v ===== *)
(** * Access decisions fail safe, and stay late

    What [policy_check_access] can answer and why: from the cache, from the
    daemon's reply to this very query, or by the fallback. *)

From S2P Require Import Prelude Bytes CString Errno LruTree ObjectHeap PolicyCache PolicyCacheProps MsgQueue Axiomd PolicyIpc.

(** ** The encoding of a query *)

Lemma path_field_length path : length (path_field path) = 4096%nat.
Proof. unfold path_field. rewrite length_app, length_take, length_app, length_replicate. cbn [length]. lia. Qed.

Lemma query_bytes_length id uid gid inode path op pad : length pad = 4%nat ->
  Z.of_nat (length (query_bytes (build_query id uid gid inode path op) pad)) = sizeof_query.
Proof.
  intros Hp. unfold query_bytes, build_query. cbn [q_query_id q_operation q_uid q_gid q_inode q_path q_flags].
  rewrite !length_app, !le_bytes_length, path_field_length, Hp. done.
Qed.

(** [path_field] is what [strncpy] and the terminator leave in the structure. *)
Lemma path_field_strncpy dest src m i : dest + 4096 <= src \/ src + 4095 <= dest -> 0 <= i < 4096 ->
  path_field (str src m) !! Z.to_nat i = Some (load8 (dest + i) (store8 (dest + 4095) 0 (strncpy dest src 4095 m))).
Proof.
  intros Hd Hi. destruct (strlen_spec src m) as (H0 & _ & _). unfold path_field.
  assert (Hlen : length (str src m) = Z.to_nat (strlen src m)) by (unfold str; rewrite length_fmap, length_seqZ; lia).
  assert (Hs : forall k, 0 <= k < strlen src m -> str src m !! Z.to_nat k = Some (load8 (src + k) m)).
  { intros k Hk. unfold str. rewrite list_lookup_fmap, (lookup_seqZ_lt 0 _ _) by lia. cbn. do 2 f_equal. lia. }
  destruct (decide (i = 4095)) as [->|Hne].
  { rewrite lookup_app_r, length_take, length_app, length_replicate by (rewrite length_take, length_app, length_replicate; lia).
    replace (_ - _)%nat with 0%nat by lia. cbn. by rewrite load8_store8, Z.eqb_refl. }
  rewrite lookup_app_l, lookup_take_lt by (rewrite ?length_take, ?length_app, ?length_replicate; lia).
  rewrite load8_store8, (proj2 (Z.eqb_neq _ _)), strncpy_spec by lia.
  destruct (Z.lt_ge_cases i (strlen src m)) as [Hlt|Hge].
  - rewrite lookup_app_l, Hs by lia. f_equal.
    destruct (strlen src m <? 4095); rewrite range_test_true by lia; f_equal; lia.
  - rewrite lookup_app_r, lookup_replicate_2 by lia. f_equal. rewrite (proj2 (Z.ltb_lt (strlen src m) 4095)) by lia.
    rewrite range_test_false, range_test_true by lia. done.
Qed.

(** ** The wait for a response *)

(** What the wait takes: at the tests before the timeout, in order, the queue is
    looked at; the first message of type RESPONSE that is found ends the wait, and
    is the result unless it is longer than [size].  [None] when the time is over
    first, the queue is gone or the message is too long. *)
Fixpoint first_response (polls : list poll) (start timeout size qid : Z) (m : mq) : option (list Z) :=
  match polls with
  | [] => None
  | (t, env) :: polls =>
    if negb (u64 (t - start) <? timeout) then None else
    match view (env m) qid with
    | None => None
    | Some l =>
      match List.find (fun x => x.1 =? AXIOMD_MSG_RESPONSE) l with
      | None => first_response polls start timeout size qid (env m)
      | Some (_, out) => if size <? Z.of_nat (length out) then None else Some out
      end
    end
  end.

Definition polls_ok (polls : list poll) : Prop := Forall (fun pl : poll => forall m, mq_ok m -> mq_ok (pl.2 m)) polls.

(** A receive that fails leaves the queues alone. *)
Lemma recv_error_keeps now qid size type flags m ret out m' : mq_ok m -> 0 <= size ->
  msgqueue_recv now qid size type flags m = (ret, out, m') -> ret < 0 -> m' = m.
Proof.
  intros Hok Hsize. unfold msgqueue_recv. destruct (_ || _) eqn:Hg; [by intros [= <- <- <-]|].
  apply qid_guard in Hg. destruct (slot m qid) as [q|] eqn:Hs; [|by intros [= <- <- <-]].
  destruct (take_first _ _) as [[msg rest]|] eqn:Ht; [|by intros [= <- <- <-]].
  destruct (_ && _); [by intros [= <- <- <-]|]. intros [= <- _ _] Hneg. exfalso.
  apply take_first_Some in Ht as (l1 & l2 & El & _).
  pose proof (qo_msgs _ (mo_queues _ Hok _ _ (proj1 Hg) Hs)) as Hf. rewrite El in Hf.
  apply Forall_app in Hf as [_ [[? _] _]%Forall_cons]. lia.
Qed.

Section Wait.
Context (start timeout size : Z) (Hsize : 0 <= size).

Lemma take_first_find {A} (f : A -> bool) l : fst <$> take_first f l = List.find f l.
Proof. induction l as [|x l IH]; [done|]. cbn. destruct (f x); [done|]. rewrite <- IH. by destruct (take_first f l) as [[]|]. Qed.

(** One test of the wait. *)
Lemma recv_response t qid m : mq_ok m -> 0 <= qid < MAX_QUEUES ->
  let '(ret, out, m') := msgqueue_recv t qid size AXIOMD_MSG_RESPONSE MSG_NOWAIT m in
  mq_ok m' /\ (ret < 0 -> m' = m) /\
  match view m qid with
  | None => ret = - EINVAL
  | Some l =>
    match List.find (fun x => x.1 =? AXIOMD_MSG_RESPONSE) l with
    | None => ret = - EAGAIN
    | Some (_, b) => if size <? Z.of_nat (length b) then ret = - E2BIG else ret = Z.of_nat (length b) /\ out = b
    end
  end.
Proof.
  intros Hok Hq. pose proof (recv_refines t m qid size AXIOMD_MSG_RESPONSE MSG_NOWAIT Hok Hq Hsize) as Hr.
  destruct (msgqueue_recv t qid size AXIOMD_MSG_RESPONSE MSG_NOWAIT m) as [[ret out] m'] eqn:Er. destruct Hr as (Hv & Hm & _).
  split; [done|]. split; [by apply (recv_error_keeps _ _ _ _ _ _ _ _ _ Hok Hsize Er)|].
  change (excepted _ _ _) with false in Hv. cbv iota in Hv. unfold fifo_recv in Hv. destruct (view m qid) as [l|]; [|by simplify_eq].
  change (fifo_wants AXIOMD_MSG_RESPONSE MSG_NOWAIT) with (fun x : Z * list Z => x.1 =? AXIOMD_MSG_RESPONSE) in Hv.
  rewrite <- take_first_find. destruct (take_first _ l) as [[[ty b] r]|]; cbn; [|by simplify_eq]. cbn [snd] in Hv.
  change (flagb MSG_NOWAIT MSG_NOERROR) with false in Hv. destruct (Z.ltb_spec size (Z.of_nat (length b))); cbn [andb negb] in Hv; simplify_eq; [done|].
  rewrite take_ge by lia. split; [lia|done].
Qed.

Lemma recv_loop_spec polls st : mq_ok (queues st) -> 0 <= daemon_to_kernel_qid st < MAX_QUEUES -> polls_ok polls ->
  match recv_loop polls start timeout size st with
  | None => Forall (fun pl : poll => u64 (pl.1 - start) < timeout) polls
  | Some (ret, out, st') =>
    (exists m, st' = with_mq m st /\ mq_ok m) /\
    match first_response polls start timeout size (daemon_to_kernel_qid st) (queues st) with
    | None => ret < 0
    | Some b => ret = Z.of_nat (length b) /\ out = b
    end
  end.
Proof.
  revert st. induction polls as [|[t env] polls IH]; intros st Hok Hq Hp; cbn [recv_loop first_response]; [constructor|].
  apply Forall_cons in Hp as [He Hp]. specialize (He _ Hok). cbn [snd] in He.
  destruct (Z.ltb_spec (u64 (t - start)) timeout) as [Ht|Ht]; cbn [negb]; [|split; [by eexists|done]].
  pose proof (recv_response t (daemon_to_kernel_qid st) (env (queues st)) He Hq) as Hr. cbn [daemon_to_kernel_qid with_mq queues] in *.
  destruct (msgqueue_recv t _ size AXIOMD_MSG_RESPONSE MSG_NOWAIT (env (queues st))) as [[ret out] m]. destruct Hr as (Hm & Hkeep & Hr).
  assert (Hend : ret <> - EAGAIN -> (if ret >? 0 then Some (ret, out, with_mq m (with_mq (env (queues st)) st))
    else if negb (ret =? - EAGAIN) then Some (ret, out, with_mq m (with_mq (env (queues st)) st))
    else recv_loop polls start timeout size (with_mq m (with_mq (env (queues st)) st))) = Some (ret, out, with_mq m st)).
  { intros Hne. rewrite (proj2 (Z.eqb_neq _ _) Hne). by destruct (ret >? 0). }
  destruct (view (env (queues st)) (daemon_to_kernel_qid st)) as [l|]; [|subst ret; rewrite Hend by done; split; [by eexists|done]].
  destruct (List.find _ l) as [[ty b]|].
  - destruct (size <? Z.of_nat (length b)); [subst ret; rewrite Hend by done; split; [by eexists|done]|].
    destruct Hr as [-> ->]. rewrite Hend by lia. split; [by eexists|done].
  - subst ret. specialize (Hkeep ltac:(done)). subst m. cbn [Z.gtb Z.compare Z.eqb negb]. change (- EAGAIN =? - EAGAIN) with true. cbn [negb].
    specialize (IH (with_mq (env (queues st)) (with_mq (env (queues st)) st)) He Hq Hp). cbn [daemon_to_kernel_qid with_mq queues] in IH.
    destruct (recv_loop polls start timeout size _) as [[[ret' out'] st']|]; [exact IH|by constructor].
Qed.
End Wait.

(** ** Queries *)

Section Props.
Context {H : Type} `{ObjectHeap H}.
Implicit Types (p : policy H) (L : gset Z) (e : env).

(** The cache, or the heap alone, and the two queues of the channel. *)
Record policy_ok L p : Prop := {
  po_cache : match global_policy_cache p with inl c => pcache_ok L c | inr h => oh_ok h L end;
  po_mq : mq_ok (queues (channel p));
  po_k2d : 0 <= kernel_to_daemon_qid (channel p) < MAX_QUEUES;
  po_d2k : 0 <= daemon_to_kernel_qid (channel p) < MAX_QUEUES;
  po_two : kernel_to_daemon_qid (channel p) <> daemon_to_kernel_qid (channel p);
  po_id : 0 <= next_query_id p < 2 ^ 32
}.

(** The other processes keep the queues consistent, and time passes. *)
Record env_ok e : Prop := {
  eo_pad : length (e_pad e) = 4%nat;
  eo_polls : polls_ok (e_polls e);
  eo_time : Exists (fun pl : poll => POLICY_TIMEOUT_MS <= u64 (pl.1 - e_start e)) (e_polls e)
}.

Lemma with_queues_ok L p m : policy_ok L p -> mq_ok m -> policy_ok L (with_channel (with_mq m (channel p)) p).
Proof. intros [] Hm. by split. Qed.

Lemma refresh_ok L p : policy_ok L p -> policy_ok L (policy_refresh_daemon_state p).
Proof. intros []. by split. Qed.

(** The query [q] is in the queue of the daemon, in the state [m]. *)
Definition query_sent e (q : policy_query) p (m : mq) : Prop :=
  (0, view m (kernel_to_daemon_qid (channel p))) =
    fifo_send (view (queues (channel p)) (kernel_to_daemon_qid (channel p))) (e_mem e) AXIOMD_MSG_QUERY (query_bytes q (e_pad e)) /\
  forall j, 0 <= j -> j <> kernel_to_daemon_qid (channel p) -> view m j = view (queues (channel p)) j.

(** It cannot be sent: the queue is gone or full, or there is no memory. *)
Definition query_unsent e (q : policy_query) p : Prop :=
  (fifo_send (view (queues (channel p)) (kernel_to_daemon_qid (channel p))) (e_mem e) AXIOMD_MSG_QUERY (query_bytes q (e_pad e))).1 < 0.

Lemma fifo_send_ret v mem type data : (fifo_send v mem type data).1 = 0 \/ (fifo_send v mem type data).1 < 0.
Proof. unfold fifo_send. repeat case_match; (by left) || (by right). Qed.

Lemma send_query_spec L e p q : policy_ok L p -> Z.of_nat (length (query_bytes q (e_pad e))) = sizeof_query ->
  axiomd_is_connected (channel p) = true ->
  exists ret m, axiomd_send_query (e_cur e) (e_mem e) (e_sent e) (query_bytes q (e_pad e)) sizeof_query (channel p) = (ret, with_mq m (channel p)) /\
    mq_ok m /\ (ret = 0 /\ query_sent e q p m \/ ret < 0 /\ query_unsent e q p).
Proof.
  intros [_ Hm Hk Hd Htwo _] Hlen Hc. unfold axiomd_send_query. rewrite Hc. cbn [negb]. rewrite <- Hlen.
  pose proof (send_refines (e_cur e) (e_mem e) (e_sent e) _ _ (query_bytes q (e_pad e)) AXIOMD_MSG_QUERY MSG_NOWAIT Hm Hk) as Hs.
  destruct (msgqueue_send _ _ _ _ _ _ _ _ _) as [ret m]. destruct Hs as (Hv & Hm' & Ho). exists ret, m. split; [done|]. split; [done|].
  pose proof (fifo_send_ret (view (queues (channel p)) (kernel_to_daemon_qid (channel p))) (e_mem e) AXIOMD_MSG_QUERY (query_bytes q (e_pad e))) as Hret.
  unfold query_unsent. rewrite <- Hv in Hret |- *. cbn [fst] in *. destruct Hret as [->|?]; [left|by right]. split; [done|]. by split.
Qed.

(** The response that the wait takes, over what was on the stack: a response of
    fewer bytes than the structure leaves the rest as it was. *)
Definition response_taken e p (m : mq) : option (list Z) :=
  (fun out => overlay out (e_stack e)) <$>
  first_response (e_polls e) (e_start e) POLICY_TIMEOUT_MS sizeof_response (daemon_to_kernel_qid (channel p)) m.

(** No response with the identifier [id] arrives in time as the first one. *)
Definition unanswered e p (m : mq) (id : Z) : Prop :=
  match response_taken e p m with None => True | Some response => response_id response <> id end.

Lemma daemon_query_spec L e q p : policy_ok L p -> env_ok e -> Z.of_nat (length (query_bytes q (e_pad e))) = sizeof_query ->
  exists ret response p', policy_daemon_query e q p = Some (ret, response, p') /\ policy_ok L p' /\
    global_policy_cache p' = global_policy_cache p /\ next_query_id p' = next_query_id p /\
    (ret < 0 /\ (axiomd_is_connected (channel p) = false \/ query_unsent e q p \/ exists m, query_sent e q p m /\ unanswered e p m (q_query_id q)) \/
     ret = 0 /\ axiomd_is_connected (channel p) = true /\
       exists m, query_sent e q p m /\ response_taken e p m = Some response /\ response_id response = q_query_id q).
Proof.
  intros Hok He Hlen. unfold policy_daemon_query. cbn [policy_refresh_daemon_state daemon_available channel].
  destruct (axiomd_is_connected (channel p)) eqn:Hc; cbn [negb].
  2: { eexists _, _, _. split; [done|]. split; [by apply refresh_ok|]. split_and!; [done|done|]. left. split; [done|by left]. }
  destruct (send_query_spec L e p _ Hok Hlen Hc) as (ret & m & -> & Hm & Hret).
  assert (Hok1 : policy_ok L (with_channel (with_mq m (channel p)) (policy_refresh_daemon_state p))).
  { apply (with_queues_ok L (policy_refresh_daemon_state p)); [by apply refresh_ok|done]. }
  destruct Hret as [[-> Hsent]|[Hret Huns]]; [change (0 <? 0) with false; cbv iota|].
  2: { rewrite (proj2 (Z.ltb_lt _ _) Hret). eexists _, _, _. split; [done|]. split; [done|]. split_and!; [done|done|]. left. split; [done|by right; left]. }
  unfold axiomd_recv_response. change (axiomd_is_connected _) with (axiomd_is_connected (channel p)). rewrite Hc. cbn [negb].
  pose proof (recv_loop_spec (e_start e) POLICY_TIMEOUT_MS sizeof_response ltac:(done) (e_polls e) (with_mq m (channel p))
    Hm (po_d2k _ _ Hok) (eo_polls _ He)) as Hr.
  change (channel (with_channel ?c _)) with c.
  destruct (recv_loop _ _ _ _ _) as [[[ret out] st']|].
  2: { destruct (proj1 (Exists_exists _ _) (eo_time _ He)) as (pl & Hin & Hpl). rewrite Forall_forall in Hr. specialize (Hr pl Hin). cbn in Hr. lia. }
  destruct Hr as [(m' & -> & Hm') Hr].
  assert (Hok2 : policy_ok L (with_channel (with_mq m' (with_mq m (channel p))) (with_channel (with_mq m (channel p)) (policy_refresh_daemon_state p))))
    by exact (with_queues_ok L _ m' Hok1 Hm').
  cbn [daemon_to_kernel_qid with_mq queues] in Hr. unfold unanswered, response_taken.
  set (fr := first_response _ _ _ _ _ _) in Hr. destruct fr as [b|] eqn:Efr; unfold fr in Efr.
  - destruct Hr as [-> ->]. rewrite (proj2 (Z.ltb_ge _ 0)) by lia.
    destruct (Z.eqb_spec (response_id (overlay b (e_stack e))) (q_query_id q)) as [Hid|Hid]; cbn [negb];
      eexists _, _, _; (split; [done|]); (split; [done|]); split_and!; try done.
    + right. split_and!; [done|done|]. exists m. rewrite Efr. by split_and!.
    + left. split; [done|]. right; right. exists m. split; [done|]. rewrite Efr. done.
  - rewrite (proj2 (Z.ltb_lt _ 0)) by lia.
    destruct (ret =? - ETIMEDOUT); eexists _, _, _; (split; [done|]); (split; [done|]); split_and!; try done; left;
      (split; [done|]); right; right; exists m; (split; [done|]); by rewrite Efr.
Qed.

(** ** Access checks *)

(** The decisions in the cache. *)
Definition held p : list policy_cache_entry := match global_policy_cache p with inl c => decisions c | inr _ => [] end.

Lemma valid_hash L c now uid gid inode op en : pcache_ok L c -> en ∈ decisions c -> valid now uid gid inode op en ->
  pe_hash en = policy_cache_hash uid gid inode op.
Proof.
  intros Hc Hin [Hv _]. apply (decisions_in L) in Hin as (x & _ & Hx); [|done]. rewrite (pco_hash _ _ Hc x en Hx).
  unfold entry_is in Hv. f_equal; lia.
Qed.

Lemma lookup_cache_spec L p now uid gid inode op : policy_ok L p ->
  exists r p', lookup_cache now uid gid inode op p = Some (r, p') /\ policy_ok L p' /\
    daemon_available p' = daemon_available p /\ next_query_id p' = next_query_id p /\ channel p' = channel p /\
    held p' ≡ₚ held p /\ (r = -1 /\ (forall en, en ∈ held p -> valid now uid gid inode op en -> exists en', en' ∈ held p /\ pe_hash en' = pe_hash en /\ ~ valid now uid gid inode op en') \/
      exists en, en ∈ held p /\ valid now uid gid inode op en /\ r = pe_result en).
Proof.
  intros Hok. unfold lookup_cache, held. pose proof Hok as [Hc ? ? ? ? ?]. destruct (global_policy_cache p) as [c|h] eqn:Eg.
  - destruct (lookup_spec L c now uid gid inode op Hc) as (r & c' & -> & Hok' & _ & _ & Hr).
    eexists _, _. split; [done|]. split; [by split|]. split_and!; try done; cbn.
    + destruct Hr as [(_ & -> & _)|(l1 & en & l2 & -> & _ & _ & -> & _)]; [done|by rewrite Permutation_middle].
    + destruct Hr as [(-> & _ & _ & Hmiss)|(l1 & en & l2 & -> & Hv & -> & _)]; [left|right; exists en; split; [set_solver|done]].
      split; [done|]. intros en Hin Hv. pose proof (valid_hash _ _ _ _ _ _ _ _ Hc Hin Hv) as Hh. rewrite Hh. by apply (Hmiss en).
  - eexists _, _. split; [done|]. split; [done|]. rewrite Eg. split_and!; try done. left. split; [done|]. by intros en ?%elem_of_nil.
Qed.

Lemma insert_cache_spec L p now uid gid inode op result : policy_ok L p ->
  exists p', insert_cache now uid gid inode op result p = Some p' /\ policy_ok L p'.
Proof.
  intros Hok. unfold insert_cache. pose proof Hok as [Hc ? ? ? ? ?]. destruct (global_policy_cache p) as [c|h].
  - destruct (policy_insert_spec L c now uid gid inode op result Hc) as (c' & -> & Hok' & _). eexists. split; [done|]. by split.
  - by exists p.
Qed.

(** No decision of the cache is used: a valid one is overlooked only for another
    entry with the same hash that is not valid, or has a negative result. *)
Definition no_decision now uid gid inode op p : Prop :=
  forall en, en ∈ held p -> valid now uid gid inode op en ->
  exists en', en' ∈ held p /\ pe_hash en' = pe_hash en /\ (~ valid now uid gid inode op en' \/ pe_result en' < 0).

Lemma overlay_result resp stack : (8 <= length resp)%nat ->
  response_id (overlay resp stack) = response_id resp /\ response_result (overlay resp stack) = response_result resp.
Proof.
  intros Hl. unfold response_id, response_result, field, overlay. rewrite !drop_0, !take_app_le by lia. split; [done|].
  rewrite !skipn_app, !(proj2 (Nat.sub_0_le _ _)) by (change (Z.to_nat 4) with 4%nat; lia). by rewrite take_app_le by (rewrite length_drop; change (Z.to_nat 4) with 4%nat; lia).
Qed.

(** C26. Access checks fail safe.  As long as the clock runs, [policy_check_access]
    returns, without a fault and with the state consistent, and its result has one
    of three causes.  It is an unexpired decision cached for this user, group,
    inode and operation.  Or, when no decision of the cache is used, the daemon is
    connected, the query was put into its queue, and the first message of type
    RESPONSE that the wait finds in time carries the identifier of this query: the
    result is the one of that message (of the bytes on the stack when the message
    is shorter than eight bytes).  Or the daemon is not available or not connected,
    the query could not be sent, or no such response was taken, and the result is
    the fallback: DEFAULT for a read or an execution, DENY for any other operation. *)
Theorem policy_check_fail_safe L e uid gid inode path op p (Hok : policy_ok L p) (He : env_ok e) :
  let q := build_query (next_query_id p) uid gid inode path op in
  exists r p', policy_check_access e uid gid inode path op p = Some (r, p') /\ policy_ok L p' /\
    ((exists en, en ∈ held p /\ valid (e_lookup e) uid gid inode op en /\ 0 <= pe_result en /\ r = pe_result en) \/
     no_decision (e_lookup e) uid gid inode op p /\ daemon_available p = true /\ axiomd_is_connected (channel p) = true /\
       (exists m out, query_sent e q p m /\
          first_response (e_polls e) (e_start e) POLICY_TIMEOUT_MS sizeof_response (daemon_to_kernel_qid (channel p)) m = Some out /\
          response_id (overlay out (e_stack e)) = next_query_id p /\ r = response_result (overlay out (e_stack e)) /\
          (8 <= Z.of_nat (length out) -> response_id out = next_query_id p /\ r = response_result out)) \/
     no_decision (e_lookup e) uid gid inode op p /\
       r = (if (op =? POLICY_OP_READ) || (op =? POLICY_OP_EXECUTE) then POLICY_DEFAULT else POLICY_DENY) /\
       (daemon_available p = false \/ axiomd_is_connected (channel p) = false \/ query_unsent e q p \/
        exists m, query_sent e q p m /\ unanswered e p m (next_query_id p))).
Proof.
  intros q. unfold policy_check_access. fold (policy_fallback_result op).
  destruct (lookup_cache_spec L p (e_lookup e) uid gid inode op Hok) as (c & p1 & -> & Hok1 & Ed & En & Ech & _ & Hc).
  destruct (Z.geb_spec c 0) as [Hc0|Hc0].
  { eexists _, _. split; [done|]. split; [done|]. left. destruct Hc as [[-> _]|(en & Hin & Hv & ->)]; [lia|]. exists en. split_and!; [done|done|lia|done]. }
  assert (Hno : no_decision (e_lookup e) uid gid inode op p).
  { intros en Hin Hv. destruct Hc as [[_ Hmiss]|(en' & Hin' & Hv' & ->)].
    - destruct (Hmiss en Hin Hv) as (en' & ? & ? & ?). exists en'. split_and!; [done|done|by left].
    - exists en'. split_and!; [done| |right; lia]. unfold held in Hin, Hin'. pose proof (po_cache _ _ Hok) as Hpc.
      destruct (global_policy_cache p) as [cc|]; [|by apply elem_of_nil in Hin]. rewrite (valid_hash _ _ _ _ _ _ _ _ Hpc Hin Hv). by apply (valid_hash _ _ _ _ _ _ _ _ Hpc Hin' Hv'). }
  rewrite Ed. destruct (daemon_available p) eqn:Eav; cbn [negb].
  2: { eexists _, _. split; [done|]. split; [done|]. right; right. split_and!; [done|done|by left]. }
  rewrite En. fold q. set (p2 := mkPol _ _ _ _). assert (Hok2 : policy_ok L p2).
  { destruct Hok1. split; try done. cbn. unfold u32. apply Z.mod_pos_bound. lia. }
  assert (Echp : channel p2 = channel p) by done.
  destruct (daemon_query_spec L e q p2 Hok2 He (query_bytes_length _ _ _ _ _ _ _ (eo_pad _ He)))
    as (ret & resp & p3 & -> & Hok3 & _ & _ & Hr). unfold query_unsent, query_sent, unanswered, response_taken in Hr. rewrite Echp in Hr.
  destruct Hr as [[Hr Hwhy]|(-> & Hconn & m & Hsent & Htk & Hid)].
  { rewrite (proj2 (Z.ltb_lt _ _) Hr). eexists _, _. split; [done|]. split; [done|]. right; right. split_and!; [done|done|by right]. }
  cbn [Z.ltb Z.compare]. destruct (insert_cache_spec L p3 (e_stored e) uid gid inode op (response_result resp) Hok3) as (p4 & -> & Hok4).
  eexists _, _. split; [done|]. split; [done|]. right. left. split_and!; [done|done|done|]. apply fmap_Some in Htk as (out & Hout & ->).
  exists m, out. do 4 (split; [done|]). intros Hl. destruct (overlay_result out (e_stack e) ltac:(lia)) as [E1 E2].
  split; [by rewrite <- E1|by rewrite <- E2].
Qed.

(** ** A late response *)

(** The daemon answers the query at once, with its identifier. *)
Record punctual e p : Prop := {
  pu_env : env_ok e;
  pu_conn : axiomd_is_connected (channel p) = true;
  pu_mem : e_mem e = true;
  pu_room : exists l, view (queues (channel p)) (kernel_to_daemon_qid (channel p)) = Some l /\ (length l < 256)%nat;
  pu_reply : exists t env rest resp, e_polls e = (t, env) :: rest /\ u64 (t - e_start e) < POLICY_TIMEOUT_MS /\
    length resp = 268%nat /\ response_id resp = next_query_id p /\
    forall m l, mq_ok m -> view m (daemon_to_kernel_qid (channel p)) = Some l -> (length l < 256)%nat ->
      view (env m) (daemon_to_kernel_qid (channel p)) = Some (l ++ [(AXIOMD_MSG_RESPONSE, resp)])
}.

(** One response of an earlier query is still in the queue. *)
Definition behind L p : Prop :=
  policy_ok L p /\ exists resp, view (queues (channel p)) (daemon_to_kernel_qid (channel p)) = Some [(AXIOMD_MSG_RESPONSE, resp)] /\
    length resp = 268%nat /\ response_id resp <> next_query_id p.

(** Access checks, each with the operation and the result. *)
Inductive accesses : policy H -> list (Z * Z) -> policy H -> Prop :=
  | acc_nil p : accesses p [] p
  | acc_cons e uid gid inode path op r p p' p'' l : punctual e p ->
      policy_check_access e uid gid inode path op p = Some (r, p') -> accesses p' l p'' -> accesses p ((op, r) :: l) p''.

Lemma overlay_id resp stack : (4 <= length resp)%nat -> response_id (overlay resp stack) = response_id resp.
Proof. intros Hl. unfold response_id, field, overlay. rewrite !drop_0, take_app_le by done. done. Qed.

Lemma next_id_ne id : 0 <= id < 2 ^ 32 -> id <> u32 (id + 1).
Proof.
  intros Hid. unfold u32. destruct (decide (id = 2 ^ 32 - 1)) as [->|]; [done|]. rewrite Z.mod_small; lia.
Qed.

Lemma take_late now qid m l resp resp' : mq_ok m -> 0 <= qid < MAX_QUEUES -> length resp = 268%nat ->
  view m qid = Some ((AXIOMD_MSG_RESPONSE, resp) :: l) -> resp' = resp ->
  exists m', msgqueue_recv now qid sizeof_response AXIOMD_MSG_RESPONSE MSG_NOWAIT m = (268, resp', m') /\
    mq_ok m' /\ view m' qid = Some l.
Proof.
  intros Hm Hq Hl Hv ->. pose proof (recv_refines now m qid sizeof_response AXIOMD_MSG_RESPONSE MSG_NOWAIT Hm Hq ltac:(done)) as Hr.
  destruct (msgqueue_recv _ _ _ _ _ _) as [[ret out] m']. destruct Hr as (E & Hm' & _). exists m'.
  rewrite Hv in E. cbn [fifo_recv take_first] in E.
  change (fifo_wants _ _ _) with true in E. cbn [fst snd] in E. rewrite Hl in E. change (_ && negb _) with false in E. rewrite take_ge in E by (rewrite Hl; done). by simplify_eq.
Qed.

Lemma behind_query L e q p : behind L p -> punctual e p -> Z.of_nat (length (query_bytes q (e_pad e))) = sizeof_query ->
  q_query_id q = next_query_id p ->
  let p2 := mkPol (global_policy_cache p) (daemon_available p) (u32 (next_query_id p + 1)) (channel p) in
  exists resp p', policy_daemon_query e q p2 = Some (- EINVAL, resp, p') /\ behind L p' /\ global_policy_cache p' = global_policy_cache p.
Proof.
  intros [Hok (stale & Hv & Hl & Hne)] [He Hc Hmem (lk & Hlk & Hroom) (t & env & rest & resp & Epolls & Ht & Hlr & Hid & Henv)] Hlen Eq p2.
  unfold policy_daemon_query. cbn [policy_refresh_daemon_state daemon_available channel p2]. rewrite Hc. cbn [negb].
  unfold axiomd_send_query. rewrite Hc, Hmem. cbn [negb]. rewrite <- Hlen.
  pose proof (send_refines (e_cur e) true (e_sent e) _ _ (query_bytes q (e_pad e)) AXIOMD_MSG_QUERY MSG_NOWAIT (po_mq _ _ Hok) (po_k2d _ _ Hok)) as Hs.
  destruct (msgqueue_send _ _ _ _ _ _ _ _ _) as [ret m]. destruct Hs as (Es & Hm & Ho). rewrite Hlk in Es. unfold fifo_send in Es.
  rewrite (proj2 (Z.ltb_ge 8192 _)), (proj2 (Z.leb_gt 256 _)) in Es by (rewrite ?Hlen; unfold sizeof_query; lia). cbn [negb] in Es. simplify_eq.
  rewrite <- (Ho _ (proj1 (po_d2k _ _ Hok)) (not_eq_sym (po_two _ _ Hok))) in Hv. cbn [Z.ltb Z.compare].
  unfold axiomd_recv_response. change (axiomd_is_connected _) with (axiomd_is_connected (channel p)). rewrite Hc, Epolls. cbn [negb recv_loop].
  cbn [queues with_mq daemon_to_kernel_qid with_channel channel policy_refresh_daemon_state].
  rewrite (proj2 (Z.ltb_lt _ _) Ht). pose proof (eo_polls _ He) as Hp. rewrite Epolls in Hp. apply Forall_cons in Hp as [Hp _].
  destruct (take_late t (daemon_to_kernel_qid (channel p)) (env m) _ stale stale (Hp m Hm) (po_d2k _ _ Hok) Hl (Henv m _ Hm Hv ltac:(cbn; lia)) eq_refl)
    as (m' & -> & Hm' & Hv').
  cbn [Z.gtb Z.ltb Z.compare]. rewrite overlay_id, Eq, (proj2 (Z.eqb_neq _ _) Hne) by lia. cbn [negb].
  eexists _, _. split; [done|]. split; [|done]. split.
  - destruct Hok. split; try done. cbn. unfold u32. apply Z.mod_pos_bound. lia.
  - exists resp. split; [exact Hv'|]. split; [done|]. cbn. rewrite Hid. apply next_id_ne, Hok.
Qed.

(** One late response disables the daemon for good.  When the response to a
    query that timed out is still in the queue, then however promptly the daemon
    answers from then on, each query takes the response to the one before, and
    every access check ends with the fallback, except for decisions that were
    cached before. *)
Theorem policy_late_response_persists L p l p' (Hb : behind L p) (Ha : accesses p l p') :
  behind L p' /\
  Forall (fun '(op, r) => r = policy_fallback_result op \/ exists en, en ∈ held p /\ pe_operation en = op /\ r = pe_result en) l.
Proof.
  induction Ha as [p|e uid gid inode path op r p p1 p2 l Hpu E _ IH]; [split; [done|constructor]|].
  assert (Hstep : behind L p1 /\ held p1 ≡ₚ held p /\
    (r = policy_fallback_result op \/ exists en, en ∈ held p /\ pe_operation en = op /\ r = pe_result en)).
  { clear IH. destruct Hb as [Hok Hst]. unfold policy_check_access in E.
    destruct (lookup_cache_spec L p (e_lookup e) uid gid inode op Hok) as (c & p3 & E3 & Hok3 & Ed & En & Ech & Hp3 & Hc). rewrite E3 in E.
    assert (Hb3 : behind L p3) by (split; [done|]; by rewrite Ech, En).
    destruct (Z.geb_spec c 0) as [Hc0|Hc0].
    { simplify_eq. split; [done|]. split; [done|right]. destruct Hc as [[-> _]|(en & Hin & [Hv _] & ->)]; [lia|]. exists en.
      unfold entry_is in Hv. split_and!; [done|lia|done]. }
    destruct (daemon_available p3) eqn:Eav; cbn [negb] in E; [|simplify_eq; split; [done|]; split; [done|by left]].
    assert (Hpu3 : punctual e p3) by (destruct Hpu; split; by rewrite ?Ech, ?En).
    pose proof (behind_query L e (build_query (next_query_id p3) uid gid inode path op) p3 Hb3 Hpu3
      (query_bytes_length _ _ _ _ _ _ _ (eo_pad _ (pu_env _ _ Hpu))) eq_refl) as (resp & p4 & E4 & Hb4 & Eg).
    rewrite Eav in E4. rewrite E4 in E. change (- EINVAL <? 0) with true in E. cbv iota in E. injection E as <- <-. split; [done|]. split; [|by left].
    unfold held at 1. rewrite Eg. exact Hp3. }
  destruct Hstep as (Hb1 & Hperm & Hr). destruct (IH Hb1) as [Hb2 Hl]. split; [done|]. constructor; [done|].
  eapply Forall_impl; [exact Hl|]. intros [op' r'] [?|(en & Hin & Hx)]; [by left|right]. exists en. by rewrite <- Hperm.
Qed.
End Props.

(** ** A channel with a late response *)

From S2P Require Import Pmm Kmalloc KmallocHeap KmallocProps.

(** A response with an identifier and a result. *)
Definition response_of (id result : Z) : list Z := le_bytes 4 id ++ le_bytes 4 result ++ replicate 260 0.

(** The daemon sends the response to the query [id] to its queue, number 1. *)
Definition answers (id result : Z) (m : mq) : mq :=
  (msgqueue_send None true 0 1 (response_of id result) (Z.of_nat (length (response_of id result))) AXIOMD_MSG_RESPONSE 0 m).2.

(** A query at the time 10; the daemon answers ALLOW with identifier [id] when
    [now] is 10, or too late. *)
Definition env_at (id now : Z) : env :=
  mkEnv None 10 true 10 10 [(now, answers id POLICY_ALLOW); (200, fun m => m)] 10 [0; 0; 0; 0] [].

(** No cache, and the daemon registered. *)
Definition policy_1 : policy (heap pmm) := mkPol (inr heap_512) true 1 axiomd_example.

(** After the first query timed out, its response arrived. *)
Definition policy_2 : policy (heap pmm) :=
  mkPol (inr heap_512) true 2 (with_mq (answers 1 POLICY_ALLOW (queues axiomd_example)) axiomd_example).

(** It is where the channel is when the response to query 1 arrives at tick 150. *)
Lemma policy_timeout_behind :
  match policy_check_access (env_at 1 150) 1000 1000 7 [97] POLICY_OP_WRITE policy_1 with
  | Some (r, p) => (r, next_query_id p, view (queues (channel p)) 1)
  | None => (0, 0, None)
  end = (POLICY_DENY, 2, view (queues (channel policy_2)) 1).
Proof. vm_compute. reflexivity. Qed.

Lemma answers_ok id result m : mq_ok m -> mq_ok (answers id result m).
Proof.
  intros Hm. pose proof (send_refines None true 0 m 1 (response_of id result) AXIOMD_MSG_RESPONSE 0 Hm ltac:(unfold MAX_QUEUES; lia)) as Hs.
  unfold answers. destruct (msgqueue_send _ _ _ _ _ _ _ _ _). by destruct Hs as (_ & ? & _).
Qed.

Lemma env_at_ok id now : env_ok (env_at id now).
Proof.
  split; [done| |apply Exists_cons; right; apply Exists_cons; left; vm_compute; discriminate].
  constructor; [intros m; apply answers_ok|]. constructor; [by intros m|constructor].
Qed.

Lemma policy_1_ok : policy_ok ∅ policy_1.
Proof.
  assert (Hq1 : kernel_to_daemon_qid axiomd_example = 0) by (vm_compute; reflexivity).
  assert (Hq2 : daemon_to_kernel_qid axiomd_example = 1) by (vm_compute; reflexivity).
  split; cbn [global_policy_cache channel policy_1 next_query_id]; rewrite ?Hq1, ?Hq2; unfold MAX_QUEUES; try lia.
  - apply heap_512_holds.
  - apply axiomd_example_no_response.
Qed.

Lemma policy_check_fail_safe_witness :
  exists r p', policy_check_access (env_at 1 10) 1000 1000 7 [97] POLICY_OP_WRITE policy_1 = Some (r, p') /\ policy_ok ∅ p'.
Proof.
  destruct (policy_check_fail_safe ∅ (env_at 1 10) 1000 1000 7 [97] POLICY_OP_WRITE policy_1 policy_1_ok (env_at_ok 1 10))
    as (r & p' & E & Hok & _). exists r, p'. exact (conj E Hok).
Defined.

Lemma answers_view id result m l : mq_ok m -> view m 1 = Some l -> (length l < 256)%nat ->
  view (answers id result m) 1 = Some (l ++ [(AXIOMD_MSG_RESPONSE, response_of id result)]).
Proof.
  intros Hm Hv Hl. pose proof (send_refines None true 0 m 1 (response_of id result) AXIOMD_MSG_RESPONSE 0 Hm ltac:(unfold MAX_QUEUES; lia)) as Hs.
  unfold answers. destruct (msgqueue_send _ _ _ _ _ _ _ _ _). destruct Hs as (E & _). rewrite Hv in E. unfold fifo_send in E.
  rewrite (proj2 (Z.leb_gt 256 _)) in E by lia. cbn [snd]. by injection E as _ ->.
Qed.

Lemma policy_2_behind : behind ∅ policy_2 /\ punctual (env_at 2 10) policy_2.
Proof.
  assert (Hq1 : kernel_to_daemon_qid (channel policy_2) = 0) by (vm_compute; reflexivity).
  assert (Hq2 : daemon_to_kernel_qid (channel policy_2) = 1) by (vm_compute; reflexivity).
  split.
  - split; [split; rewrite ?Hq1, ?Hq2; unfold MAX_QUEUES; try (cbn; lia)|].
    + apply heap_512_holds.
    + apply answers_ok, axiomd_example_no_response.
    + rewrite Hq2. exists (response_of 1 POLICY_ALLOW). split; [vm_compute; reflexivity|]. split; [reflexivity|vm_compute; discriminate].
  - split; [apply env_at_ok|vm_compute; reflexivity|reflexivity|exists []; rewrite Hq1; split; [vm_compute; reflexivity|cbn; lia]|].
    exists 10, (answers 2 POLICY_ALLOW), [(200, fun m => m)], (response_of 2 POLICY_ALLOW). rewrite Hq2.
    split_and!; [done|done|done|vm_compute; reflexivity|]. intros m l. apply answers_view.
Qed.

Lemma policy_late_response_persists_witness :
  exists p', policy_check_access (env_at 2 10) 1000 1000 7 [97] POLICY_OP_WRITE policy_2 = Some (POLICY_DENY, p') /\ behind ∅ p'.
Proof.
  destruct policy_2_behind as [Hb Hp].
  destruct (policy_check_access (env_at 2 10) 1000 1000 7 [97] POLICY_OP_WRITE policy_2) as [[r p']|] eqn:E.
  - exists p'. destruct (policy_late_response_persists ∅ policy_2 [(POLICY_OP_WRITE, r)] p' Hb) as [Hb' Hr].
    + exact (acc_cons (env_at 2 10) 1000 1000 7 [97] POLICY_OP_WRITE r policy_2 p' p' [] Hp E (acc_nil p')).
    + apply Forall_cons in Hr as [[->|(en & Hin & _)] _]; [split; [reflexivity|exact Hb']|].
      destruct (not_elem_of_nil en Hin).
  - exfalso. assert (Hn : match policy_check_access (env_at 2 10) 1000 1000 7 [97] POLICY_OP_WRITE policy_2 with Some _ => true | None => false end = true)
      by (vm_compute; reflexivity). rewrite E in Hn. discriminate Hn.
Defined.
