(* ===== verification/Support.v ===== *)
(** * Validation helpers in Zig: kernel/support

    The checks that C code makes on buffers it does not trust: path names,
    program arguments, ELF headers, ACPI tables, network and firmware sizes.  A
    buffer is the list of its bytes, and reading outside of it is a fault
    ([None]); a pointer is [None] when it is null. *)

From S2P Require Import Prelude Bytes.

(** ** Scanning *)

Definition byte (p : list Z) (i : Z) : option Z := if i <? 0 then None else p !! Z.to_nat i.

(** A loop over [n] indices from [i] that can return early: [body] faults
    ([None]), returns ([Some (Some r)]) or goes on ([Some None]). *)
Fixpoint scan {A} (n : nat) (i : Z) (body : Z -> option (option A)) : option (option A) :=
  match n with
  | O => Some None
  | S n =>
    match body i with
    | None => None
    | Some (Some r) => Some (Some r)
    | Some None => scan n (i + 1) body
    end
  end.

Definition or_else {A} (d : A) (r : option (option A)) : option A :=
  match r with
  | None => None
  | Some None => Some d
  | Some (Some x) => Some x
  end.

(** ** path_validate.zig and exec_string.zig *)

(** The loop of the two validators: a terminator ends it, with an error when the
    string is empty, and so does a byte for which one of the tests fails. *)
Definition line_body (bad : Z -> bool) (p : list Z) (i : Z) : option (option Z) :=
  match byte p i with
  | None => None
  | Some c => Some (if c =? 0 then Some (if i =? 0 then 1 else 0) else if bad c then Some 1 else None)
  end.

Definition zig_kernel_cstring_no_control (s : option (list Z)) (cap : Z) : option Z :=
  match s with
  | None => Some 1
  | Some p =>
    if cap =? 0 then Some 1 else
    if cap >? 16384 then Some 1 else
    or_else 1 (scan (Z.to_nat cap) 0 (line_body (fun c => (c <? 0x20) || (c =? 0x7f)) p))
  end.

Definition zig_kernel_exec_line_ok (s : option (list Z)) (cap : Z) : option Z :=
  match s with
  | None => Some 1
  | Some p =>
    if cap =? 0 then Some 1 else
    if cap >? 4096 then Some 1 else
    or_else 1 (scan (Z.to_nat cap) 0 (line_body (fun c => ((c <? 0x20) && negb (c =? 0x09)) || (c =? 0x7f)) p))
  end.

(** The body of the loops that look for a zero byte. *)
Definition zero_at (p : list Z) (i : Z) : option (option Z) :=
  match byte p i with
  | None => None
  | Some c => Some (if c =? 0 then Some i else None)
  end.

Definition zig_cstring_first_nul_index (buf : option (list Z)) (len : Z) : option Z :=
  match buf with
  | None => Some (-1)
  | Some p =>
    if len =? 0 then Some (-1) else
    if len >? 0x7ffff000 then Some (-1) else
    or_else (-1) (scan (Z.to_nat len) 0 (zero_at p))
  end.

(** ** byte_ops.zig *)

Definition zig_mem_all_zero (buf : option (list Z)) (len : Z) : option Z :=
  match buf with
  | None => Some 0
  | Some p =>
    or_else 1 (scan (Z.to_nat len) 0 (fun i =>
      match byte p i with
      | None => None
      | Some c => Some (if c =? 0 then None else Some 0)
      end))
  end.

Definition zig_first_zero_byte (buf : option (list Z)) (len : Z) : option Z :=
  match buf with
  | None => Some (-1)
  | Some p => or_else (-1) (scan (Z.to_nat len) 0 (zero_at p))
  end.

(** [p[i-2] == '.' and p[i-1] == '.'], the second read only after the first. *)
Definition dots_before (p : list Z) (i : Z) : option bool :=
  match byte p (i - 2) with
  | None => None
  | Some a => if a =? 46 then match byte p (i - 1) with None => None | Some b => Some (b =? 46) end
              else Some false
  end.

Definition dotdot_at (p : list Z) (i seg_len : Z) : option bool :=
  if seg_len =? 2 then dots_before p i else Some false.

Fixpoint dotdot_loop (n : nat) (i seg_len : Z) (p : list Z) (cap : Z) : option Z :=
  match n with
  | O => match (if cap >=? 2 then dotdot_at p cap seg_len else Some false) with
         | None => None
         | Some d => Some (if d then 1 else 0)
         end
  | S n =>
    match byte p i with
    | None => None
    | Some c =>
      if c =? 0 then
        match dotdot_at p i seg_len with None => None | Some d => Some (if d then 1 else 0) end
      else if c =? 47 then
        match dotdot_at p i seg_len with
        | None => None
        | Some true => Some 1
        | Some false => dotdot_loop n (i + 1) 0 p cap
        end
      else dotdot_loop n (i + 1) (seg_len + 1) p cap
    end
  end.

Definition zig_path_has_dotdot_component (s : option (list Z)) (cap : Z) : option Z :=
  match s with
  | None => Some 0
  | Some p => if cap =? 0 then Some 0 else dotdot_loop (Z.to_nat cap) 0 0 p cap
  end.

(** ** elf_validate.zig *)

Record Elf64Hdr := mkElf {
  e_ident : list Z;
  e_type : Z;
  e_machine : Z;
  e_version : Z;
  e_entry : Z;
  e_phoff : Z;
  e_shoff : Z;
  e_flags : Z;
  e_ehsize : Z;
  e_phentsize : Z;
  e_phnum : Z;
  e_shentsize : Z;
  e_shnum : Z;
  e_shstrndx : Z
}.

(** The structure in the first 64 bytes of a file. *)
Definition elf_header (f : list Z) : Elf64Hdr :=
  mkElf (take 16 f) (field 16 2 f) (field 18 2 f) (field 20 4 f) (field 24 8 f) (field 32 8 f) (field 40 8 f)
        (field 48 4 f) (field 52 2 f) (field 54 2 f) (field 56 2 f) (field 58 2 f) (field 60 2 f) (field 62 2 f).

(** [@mulWithOverflow] and [@addWithOverflow] with the overflow bit. *)
Definition mulU64 (a b : Z) : option Z := if a * b <? 2 ^ 64 then Some (a * b) else None.
Definition addU64 (a b : Z) : option Z := if a + b <? 2 ^ 64 then Some (a + b) else None.

Definition zig_elf64_header_sanity (hdr : option Elf64Hdr) (file_size : Z) : Z :=
  match hdr with
  | None => 1
  | Some h =>
    let id i := nth i (e_ident h) (-1) in
    if negb (id 0%nat =? 0x7f) || negb (id 1%nat =? 69) || negb (id 2%nat =? 76) || negb (id 3%nat =? 70) then 1 else
    if negb (id 4%nat =? 2) then 1 else
    if negb (id 5%nat =? 1) then 1 else
    if negb (id 6%nat =? 1) then 1 else
    if negb (e_type h =? 2) && negb (e_type h =? 3) then 1 else
    if negb (e_machine h =? 62) then 1 else
    if negb (e_version h =? 1) then 1 else
    if negb (e_ehsize h =? 64) then 1 else
    if file_size <? 64 then 1 else
    if e_phnum h =? 0 then 0 else
    if negb (e_phentsize h =? 56) then 1 else
    if e_phoff h <? 64 then 1 else
    match mulU64 (e_phentsize h) (e_phnum h) with
    | None => 1
    | Some ph_bytes =>
      match addU64 (e_phoff h) ph_bytes with
      | None => 1
      | Some ph_end => if ph_end >? file_size then 1 else 0
      end
    end
  end.

(** ** net_helpers.zig, wifi_helpers.zig, acpi_helpers.zig *)

Definition zig_net_mac_is_valid (mac : option (list Z)) (len : Z) : option Z :=
  match mac with
  | None => Some 0
  | Some p =>
    if negb (len =? 6) then Some 0 else
    match mapM (fun i => byte p (Z.of_nat i)) (seq 0 6) with
    | None => None
    | Some bs =>
      let all_zero := forallb (fun b => b =? 0) bs in
      let all_ff := forallb (fun b => b =? 0xff) bs in
      if all_zero || all_ff then Some 0 else
      match byte p 0 with
      | None => None
      | Some b => if negb (Z.land b 1 =? 0) then Some 0 else Some 1
      end
    end
  end.

Definition zig_net_frame_len_ok (len min_len max_len : Z) : Z :=
  if (min_len =? 0) || (max_len =? 0) || (min_len >? max_len) then 1 else
  if (len <? min_len) || (len >? max_len) then 1 else 0.

(** The result and what is stored through the pointer; the flag tells
    whether it is not null. *)
Definition zig_net_ring_bytes_ok (entries desc_size alignment max_bytes : Z) (out_bytes : bool) : Z * option Z :=
  if negb out_bytes then (1, None) else
  if (entries =? 0) || (desc_size =? 0) || (alignment =? 0) then (1, None) else
  if negb (Z.land alignment (alignment - 1) =? 0) then (1, None) else
  if max_bytes =? 0 then (1, None) else
  match mulU64 entries desc_size with
  | None => (1, None)
  | Some raw =>
    let mask := alignment - 1 in
    match addU64 raw mask with
    | None => (1, None)
    | Some sum =>
      let aligned := Z.ldiff sum mask in
      if (aligned =? 0) || (aligned >? max_bytes) then (1, None) else (0, Some aligned)
    end
  end.

Definition zig_wifi_fw_size_ok (size min_size max_size : Z) : Z :=
  if (min_size =? 0) || (max_size =? 0) || (min_size >? max_size) then 1 else
  if (size <? min_size) || (size >? max_size) then 1 else 0.

Definition zig_wifi_chunk_count_ok (total chunk : Z) (out_count : bool) : Z * option Z :=
  if negb out_count then (1, None) else
  if chunk =? 0 then (1, None) else
  if total =? 0 then (0, Some 0) else
  let rem := total mod chunk in
  let div := total / chunk in
  if rem =? 0 then (0, Some div) else
  if div =? 2 ^ 64 - 1 then (1, None) else (0, Some (div + 1)).

Definition MAX_ACPI_SCAN : Z := 16777216.

Fixpoint sum_loop (n : nat) (i sum : Z) (p : list Z) : option Z :=
  match n with
  | O => Some sum
  | S n => match byte p i with None => None | Some b => sum_loop n (i + 1) (u8 (sum + b)) p end
  end.

Definition zig_acpi_checksum_ok (buf : option (list Z)) (len : Z) : option Z :=
  match buf with
  | None => Some 0
  | Some p =>
    if len =? 0 then Some 0 else
    if len >? MAX_ACPI_SCAN then Some 0 else
    match sum_loop (Z.to_nat len) 0 0 p with
    | None => None
    | Some sum => Some (if sum =? 0 then 1 else 0)
    end
  end.

(** [p[i..]] starts with the bytes; each is read only when those before match. *)
Fixpoint starts (p : list Z) (i : Z) (needle : list Z) : option bool :=
  match needle with
  | [] => Some true
  | c :: needle =>
    match byte p i with
    | None => None
    | Some b => if b =? c then starts p (i + 1) needle else Some false
    end
  end.

Definition zig_find_s5_name_offset (buf : option (list Z)) (len : Z) : option Z :=
  match buf with
  | None => Some (-1)
  | Some p =>
    if len <? 4 then Some (-1) else
    if len >? MAX_ACPI_SCAN then Some (-1) else
    or_else (-1) (scan (Z.to_nat (len - 3)) 0 (fun i =>
      match starts p i [95; 83; 53; 95] with
      | None => None
      | Some b => Some (if b then Some i else None)
      end))
  end.

(** ** Lemmas *)

Lemma byte_lookup p i : 0 <= i -> byte p i = p !! Z.to_nat i.
Proof. intros Hi. unfold byte. by rewrite (proj2 (Z.ltb_ge _ _)). Qed.

Lemma byte_in p i : 0 <= i < Z.of_nat (length p) -> exists c, byte p i = Some c /\ p !! Z.to_nat i = Some c.
Proof.
  intros Hi. rewrite byte_lookup by lia. destruct (lookup_lt_is_Some_2 p (Z.to_nat i)) as [c ->]; [lia|]. by exists c.
Qed.

(** A loop that does not fault returns at its first hit, or runs to the end. *)
Lemma scan_cases {A} n i (body : Z -> option (option A)) :
  (forall j, i <= j < i + Z.of_nat n -> is_Some (body j)) ->
  (exists k r, i <= k < i + Z.of_nat n /\ body k = Some (Some r) /\ (forall j, i <= j < k -> body j = Some None) /\
    scan n i body = Some (Some r)) \/
  (forall j, i <= j < i + Z.of_nat n -> body j = Some None) /\ scan n i body = Some None.
Proof.
  revert i. induction n as [|n IH]; intros i Hb; [right; split; [lia|done]|]. cbn [scan].
  destruct (Hb i ltac:(lia)) as [[r|] Er]; rewrite Er.
  - left. exists i, r. split_and!; try done; try lia.
  - destruct (IH (i + 1)) as [(k & r & Hk & Ek & Hj & Es)|[Hj Es]]; [intros j Hj; apply Hb; lia|left|right].
    + exists k, r. split_and!; try done; try lia. intros j Hij. destruct (decide (j = i)) as [->|]; [done|apply Hj; lia].
    + split; [|done]. intros j Hij. destruct (decide (j = i)) as [->|]; [done|apply Hj; lia].
Qed.

(** The bytes of [p] up to its first zero, all of which satisfy [P], end within
    [cap] bytes, and are not none. *)
Definition line_of (P : Z -> Prop) (p : list Z) (cap : Z) : Prop :=
  exists s rest, p = s ++ 0 :: rest /\ s <> [] /\ Z.of_nat (length s) < cap /\ Forall P s.

Lemma take_first_zero p k : 0 <= k < Z.of_nat (length p) -> p !! Z.to_nat k = Some 0 ->
  exists rest, p = take (Z.to_nat k) p ++ 0 :: rest.
Proof. intros Hk Hz. exists (drop (S (Z.to_nat k)) p). symmetry. by apply take_drop_middle. Qed.

(** The loop shared by the two string validators. *)
Lemma line_scan (P : Z -> Prop) (bad : Z -> bool) p cap :
  (forall c, bad c = false <-> P c) -> 0 <= cap <= Z.of_nat (length p) -> ~ P 0 ->
  exists r, or_else 1 (scan (Z.to_nat cap) 0 (line_body bad p)) = Some r /\ (r = 0 \/ r = 1) /\ (r = 0 <-> line_of P p cap).
Proof.
  intros Hok Hcap HP0. set (body := line_body bad p).
  assert (Hbody : forall j c, p !! Z.to_nat j = Some c -> 0 <= j ->
    body j = Some (if c =? 0 then Some (if j =? 0 then 1 else 0) else if bad c then Some 1 else None)).
  { intros j c Hj H0. unfold body, line_body. by rewrite byte_lookup, Hj by lia. }
  assert (Hearly : forall j c, 0 <= j -> body j = Some None -> p !! Z.to_nat j = Some c -> P c).
  { intros j c H0 Hj Hc. rewrite (Hbody _ _ Hc H0) in Hj. apply Hok. by destruct (c =? 0), (j =? 0), (bad c). }
  destruct (scan_cases (Z.to_nat cap) 0 body) as [(k & r & Hk & Ek & Hj & ->)|[Hj ->]].
  - intros j Hj. destruct (byte_in p j) as (c & _ & Hc); [lia|]. rewrite (Hbody _ _ Hc) by lia. done.
  - destruct (byte_in p k) as (c & _ & Hc); [lia|]. rewrite (Hbody _ _ Hc) in Ek by lia. cbn.
    exists r. split; [done|]. destruct (Z.eqb_spec c 0) as [Ec|Hc0].
    + subst c. injection Ek as <-. split; [destruct (k =? 0); auto|]. split.
      * intros Hk0. destruct (Z.eqb_spec k 0) as [->|Hk0']; [done|]. destruct (take_first_zero p k) as [rest Ep]; [lia|done|].
        exists (take (Z.to_nat k) p), rest. split; [done|]. rewrite length_take. split_and!; [|lia|].
        -- intros Hn. apply (f_equal length) in Hn. rewrite length_take in Hn. cbn in Hn. lia.
        -- apply Forall_lookup_2. intros i x Hi. pose proof (lookup_lt_Some _ _ _ Hi) as Hlt. rewrite length_take in Hlt.
           rewrite lookup_take_lt in Hi by lia. apply (Hearly (Z.of_nat i)); [lia|apply Hj; lia|]. by rewrite Nat2Z.id.
      * intros (s & rest & Ep & Hs & Hl & HF). destruct (Z.eqb_spec k 0) as [->|]; [|done]. rewrite Ep in Hc.
        destruct s as [|x s]; [done|]. cbn in Hc. injection Hc as ->. by apply Forall_cons in HF as [? _].
    + destruct (bad c) eqn:Eok; [|done]. injection Ek as <-. split; [by right|]. split; [done|].
      intros (s & rest & Ep & Hs & Hl & HF). exfalso. assert (Hnk : ~ P c) by (rewrite <- Hok; congruence).
      destruct (Z.lt_ge_cases k (Z.of_nat (length s))) as [Hlt|Hge].
      * rewrite Ep, lookup_app_l in Hc by lia. by apply Hnk, (Forall_lookup_1 _ _ _ _ HF Hc).
      * destruct (decide (k = Z.of_nat (length s))) as [->|].
        -- rewrite Ep, lookup_app_r, Nat2Z.id, Nat.sub_diag in Hc by lia. cbn in Hc. congruence.
        -- apply HP0. apply (Hearly (Z.of_nat (length s))); [lia|apply Hj; lia|].
           rewrite Ep, lookup_app_r, Nat2Z.id, Nat.sub_diag by lia. done.
  - exists 1. split; [done|]. split; [by right|]. split; [done|]. intros (s & rest & Ep & Hs & Hl & HF). exfalso.
    apply HP0. apply (Hearly (Z.of_nat (length s))); [lia|apply Hj; lia|].
    rewrite Ep, lookup_app_r, Nat2Z.id, Nat.sub_diag by lia. done.
Qed.
