(* ===== verification/SupportProps.v ===== *)
(** * The validators accept exactly what they should

    For buffers at least as long as they are told, none of the helpers of
    Support reads outside, and each accepts exactly the inputs described here. *)

From S2P Require Import Prelude SafeArith Bytes Support.

(** ** Strings *)

Definition path_char (c : Z) : Prop := 0x20 <= c /\ c <> 0x7f.
Definition line_char (c : Z) : Prop := (0x20 <= c \/ c = 0x09) /\ c <> 0x7f.

(** The position of the first zero among the first [len] bytes, or -1. *)
Definition first_zero (p : list Z) (len r : Z) : Prop :=
  r = -1 /\ 0 ∉ take (Z.to_nat len) p \/
  0 <= r < len /\ p !! Z.to_nat r = Some 0 /\ 0 ∉ take (Z.to_nat r) p.

Lemma not_in_take p n : (forall j, 0 <= j < Z.of_nat n -> p !! Z.to_nat j <> Some 0) -> 0 ∉ take n p.
Proof.
  intros Hj [i Hi]%list_elem_of_lookup_1. pose proof (lookup_lt_Some _ _ _ Hi) as Hl. rewrite length_take in Hl.
  rewrite lookup_take_lt in Hi by lia. apply (Hj (Z.of_nat i)); [lia|by rewrite Nat2Z.id].
Qed.

Lemma zero_scan p len : 0 <= len <= Z.of_nat (length p) ->
  exists r, or_else (-1) (scan (Z.to_nat len) 0 (zero_at p)) = Some r /\ first_zero p len r.
Proof.
  intros Hlen.
  assert (Hb : forall j c, p !! Z.to_nat j = Some c -> 0 <= j -> zero_at p j = Some (if c =? 0 then Some j else None)).
  { intros j c Hj H0. unfold zero_at. by rewrite byte_lookup, Hj by lia. }
  assert (He : forall j, 0 <= j -> zero_at p j = Some None -> p !! Z.to_nat j <> Some 0).
  { intros j H0 Hj Hz. by rewrite (Hb _ _ Hz H0) in Hj. }
  destruct (scan_cases (Z.to_nat len) 0 (zero_at p)) as [(k & r & Hk & Ek & Hj & ->)|[Hj ->]].
  - intros j Hj. destruct (byte_in p j) as (c & _ & Hc); [lia|]. rewrite (Hb _ _ Hc) by lia. done.
  - destruct (byte_in p k) as (c & _ & Hc); [lia|]. rewrite (Hb _ _ Hc) in Ek by lia.
    destruct (Z.eqb_spec c 0) as [Ec|]; [|done]. subst c. injection Ek as <-. exists k. split; [done|]. right.
    split; [lia|]. split; [done|]. apply not_in_take. intros j Hjk. apply He; [lia|apply Hj; lia].
  - exists (-1). split; [done|]. left. split; [done|]. apply not_in_take. intros j Hjk. apply He; [lia|apply Hj; lia].
Qed.

Lemma all_zero_scan p len : 0 <= len <= Z.of_nat (length p) ->
  zig_mem_all_zero (Some p) len = Some (if bool_decide (Forall (fun c => c = 0) (take (Z.to_nat len) p)) then 1 else 0).
Proof.
  intros Hlen. unfold zig_mem_all_zero. set (body := fun i => match byte p i with None => None | Some c => Some (if c =? 0 then None else Some 0) end).
  assert (Hb : forall j c, p !! Z.to_nat j = Some c -> 0 <= j -> body j = Some (if c =? 0 then None else Some 0)).
  { intros j c Hj H0. unfold body. by rewrite byte_lookup, Hj by lia. }
  destruct (scan_cases (Z.to_nat len) 0 body) as [(k & r & Hk & Ek & Hj & ->)|[Hj ->]].
  - intros j Hj. destruct (byte_in p j) as (c & _ & Hc); [lia|]. rewrite (Hb _ _ Hc) by lia. done.
  - destruct (byte_in p k) as (c & _ & Hc); [lia|]. rewrite (Hb _ _ Hc) in Ek by lia.
    rewrite bool_decide_eq_false_2; [by destruct (c =? 0); simplify_eq|]. intros HF.
    destruct (Z.eqb_spec c 0) as [|Hne]; [done|]. apply Hne.
    apply (Forall_lookup_1 _ _ (Z.to_nat k) c HF). rewrite lookup_take_lt by lia. done.
  - rewrite bool_decide_eq_true_2; [done|]. apply Forall_lookup_2. intros i x Hi.
    pose proof (lookup_lt_Some _ _ _ Hi) as Hl. rewrite length_take in Hl. rewrite lookup_take_lt in Hi by lia.
    assert (Hx : body (Z.of_nat i) = Some None) by (apply Hj; lia). rewrite (Hb _ x) in Hx by (rewrite ?Nat2Z.id; done || lia).
    by destruct (Z.eqb_spec x 0).
Qed.

(** The string checks are exact and stay in the buffer.  For a capacity within
    the buffer, [zig_kernel_cstring_no_control] accepts exactly a non-empty string
    that ends within it and has neither control characters nor DEL,
    [zig_kernel_exec_line_ok] the same but with tabs, each up to its own limit,
    and the searches return the position of the first zero byte, or -1. *)
Theorem string_checks_exact p cap (Hcap : 0 <= cap <= Z.of_nat (length p)) :
  (exists r, zig_kernel_cstring_no_control (Some p) cap = Some r /\ (r = 0 \/ r = 1) /\
    (r = 0 <-> cap <= 16384 /\ line_of path_char p cap)) /\
  (exists r, zig_kernel_exec_line_ok (Some p) cap = Some r /\ (r = 0 \/ r = 1) /\
    (r = 0 <-> cap <= 4096 /\ line_of line_char p cap)) /\
  (exists r, zig_first_zero_byte (Some p) cap = Some r /\ first_zero p cap r) /\
  (cap <= 0x7ffff000 -> exists r, zig_cstring_first_nul_index (Some p) cap = Some r /\ first_zero p cap r).
Proof.
  assert (Hnone : forall P, ~ line_of P p 0) by (intros P (s & rest & _ & _ & ? & _); lia).
  assert (Hline : forall (P : Z -> Prop) bad max, 0 <= max -> (forall c, bad c = false <-> P c) -> ~ P 0 ->
    exists r, (if cap =? 0 then Some 1 else if cap >? max then Some 1 else or_else 1 (scan (Z.to_nat cap) 0 (line_body bad p)))
      = Some r /\ (r = 0 \/ r = 1) /\ (r = 0 <-> cap <= max /\ line_of P p cap)).
  { intros P bad max Hmax Hbad HP0. destruct (Z.eqb_spec cap 0) as [->|].
    { exists 1. split; [done|]. split; [by right|]. split; [done|]. by intros [_ ?%Hnone]. }
    destruct (Z.gtb_spec cap max).
    { exists 1. split; [done|]. split; [by right|]. split; [done|]. lia. }
    destruct (line_scan P bad p cap Hbad Hcap HP0) as (r & E & Hr & Hiff). exists r. split; [done|]. split; [done|].
    rewrite Hiff. split; [by split|by intros [_ ?]]. }
  split_and!.
  - apply Hline; [done| |unfold path_char; lia]. intros c. unfold path_char. rewrite orb_false_iff, Z.ltb_ge, Z.eqb_neq. done.
  - apply Hline; [done| |unfold line_char; lia]. intros c. unfold line_char.
    rewrite orb_false_iff, andb_false_iff, negb_false_iff, Z.ltb_ge, Z.eqb_eq, Z.eqb_neq. done.
  - by apply zero_scan.
  - intros Hmax. unfold zig_cstring_first_nul_index. destruct (Z.eqb_spec cap 0) as [->|].
    + exists (-1). split; [done|]. left. split; [done|]. apply not_elem_of_nil.
    + destruct (Z.gtb_spec cap 0x7ffff000); [lia|]. by apply zero_scan.
Qed.

Lemma string_checks_exact_witness :
  exists r, zig_kernel_cstring_no_control (Some [47; 97; 0; 7]) 4 = Some r /\ (r = 0 \/ r = 1) /\
    (r = 0 <-> 4 <= 16384 /\ line_of path_char [47; 97; 0; 7] 4).
Proof. apply (string_checks_exact [47; 97; 0; 7] 4). cbn. lia. Defined.

(** ** Components of a path *)

(** The components of the path [s], the first of which starts with [seg]. *)
Fixpoint split_at (seg s : list Z) : list (list Z) :=
  match s with
  | [] => [seg]
  | c :: s => if c =? 47 then seg :: split_at [] s else split_at (seg ++ [c]) s
  end.

Definition components (s : list Z) : list (list Z) := split_at [] s.

Definition dotdot : list Z := [46; 46].

Lemma dotdot_at_segment p pre seg rest : p = pre ++ seg ++ rest ->
  dotdot_at p (Z.of_nat (length (pre ++ seg))) (Z.of_nat (length seg)) = Some (bool_decide (seg = dotdot)).
Proof.
  intros ->. unfold dotdot_at. destruct (Z.eqb_spec (Z.of_nat (length seg)) 2) as [H2|H2].
  - destruct seg as [|a [|b [|? ?]]]; cbn in H2; try lia. unfold dots_before. rewrite length_app. cbn [length].
    rewrite !byte_lookup by lia.
    cbn [app]. rewrite !lookup_app_r by lia. replace (_ - _)%nat with 0%nat by lia. cbn.
    destruct (Z.eqb_spec a 46) as [->|]; [|rewrite bool_decide_eq_false_2; [done|unfold dotdot; congruence]].
    replace (Z.to_nat _ - length pre)%nat with 1%nat by lia. cbn.
    destruct (Z.eqb_spec b 46) as [->|]; [by rewrite bool_decide_eq_true_2|].
    rewrite bool_decide_eq_false_2; [done|unfold dotdot; congruence].
  - rewrite bool_decide_eq_false_2; [done|]. intros ->. done.
Qed.

Lemma byte_mid p l c r : p = l ++ c :: r -> byte p (Z.of_nat (length l)) = Some c.
Proof. intros ->. rewrite byte_lookup, Nat2Z.id, lookup_app_r, Nat.sub_diag by lia. done. Qed.

Lemma dotdot_loop_spec p s pre seg rest n cap : p = pre ++ seg ++ s ++ 0 :: rest -> 0 ∉ s -> (length s < n)%nat ->
  dotdot_loop n (Z.of_nat (length (pre ++ seg))) (Z.of_nat (length seg)) p cap
  = Some (if bool_decide (dotdot ∈ split_at seg s) then 1 else 0).
Proof.
  revert pre seg n. induction s as [|c s IH]; intros pre seg n Ep Hs Hn; (destruct n as [|n]; [cbn in Hn; lia|]); cbn [dotdot_loop].
  - rewrite (byte_mid p (pre ++ seg) 0 rest) by (by rewrite <- app_assoc). rewrite Z.eqb_refl.
    rewrite (dotdot_at_segment p pre seg (0 :: rest) Ep). cbn [split_at].
    f_equal. do 2 case_bool_decide; try done; exfalso; set_solver.
  - rewrite (byte_mid p (pre ++ seg) c (s ++ 0 :: rest)) by (by rewrite <- app_assoc).
    apply not_elem_of_cons in Hs as [Hc Hs]. rewrite (proj2 (Z.eqb_neq c 0)) by congruence. cbn [split_at].
    cbn in Hn. destruct (Z.eqb_spec c 47) as [Ec|Hc'].
    + rewrite (dotdot_at_segment p pre seg _ Ep). case_bool_decide as Hd.
      * rewrite bool_decide_eq_true_2; [done|]. subst seg. left.
      * replace (Z.of_nat (length (pre ++ seg)) + 1) with (Z.of_nat (length ((pre ++ seg ++ [c]) ++ []))) by (rewrite app_nil_r, !length_app; cbn; lia).
        rewrite (IH (pre ++ seg ++ [c]) [] n ltac:(by rewrite Ep, <- !app_assoc) Hs ltac:(lia) : dotdot_loop n _ 0 p cap = _).
        f_equal. do 2 case_bool_decide; try done; exfalso; set_solver.
    + replace (Z.of_nat (length (pre ++ seg)) + 1) with (Z.of_nat (length (pre ++ seg ++ [c]))) by (rewrite !length_app; cbn; lia).
      replace (Z.of_nat (length seg) + 1) with (Z.of_nat (length (seg ++ [c]))) by (rewrite length_app; cbn; lia).
      apply (IH pre (seg ++ [c]) n); [by rewrite Ep, <- !app_assoc|done|lia].
Qed.

(** [zig_path_has_dotdot_component] answers 1 exactly when one of the
    components of the path, cut at the slashes, is "..", for a string that ends
    within the capacity; it does not read outside of the buffer. *)
Theorem dotdot_component_exact p s rest cap (Hp : p = s ++ 0 :: rest) (Hs : 0 ∉ s)
    (Hcap : Z.of_nat (length s) < cap <= Z.of_nat (length p)) :
  zig_path_has_dotdot_component (Some p) cap = Some (if bool_decide (dotdot ∈ components s) then 1 else 0).
Proof.
  unfold zig_path_has_dotdot_component. rewrite (proj2 (Z.eqb_neq cap 0)) by lia.
  apply (dotdot_loop_spec p s [] [] rest); [done|done|lia].
Qed.

Lemma dotdot_component_exact_witness :
  zig_path_has_dotdot_component (Some [47; 46; 46; 47; 97; 0; 0]) 7 = Some 1.
Proof. apply (dotdot_component_exact _ [47; 46; 46; 47; 97] [0]); [reflexivity|rewrite !not_elem_of_cons; split_and!; (lia || apply not_elem_of_nil)|cbn; lia]. Defined.

(** ** Headers, sizes and tables *)

Lemma mulU64_Some a b x : mulU64 a b = Some x <-> a * b < 2 ^ 64 /\ x = a * b.
Proof. unfold mulU64. destruct (Z.ltb_spec (a * b) (2 ^ 64)); naive_solver lia. Qed.

Lemma addU64_Some a b x : addU64 a b = Some x <-> a + b < 2 ^ 64 /\ x = a + b.
Proof. unfold addU64. destruct (Z.ltb_spec (a + b) (2 ^ 64)); naive_solver lia. Qed.

(** The identification, type and machine of a header are those of a 64-bit
    x86 program. *)
Definition elf_x86_64 (h : Elf64Hdr) : Prop :=
  (exists rest, e_ident h = [0x7f; 69; 76; 70; 2; 1; 1] ++ rest) /\ (e_type h = 2 \/ e_type h = 3) /\
  e_machine h = 62 /\ e_version h = 1 /\ e_ehsize h = 64.

Lemma ident_spec l : length l = 16%nat ->
  (exists rest, l = [0x7f; 69; 76; 70; 2; 1; 1] ++ rest) <->
  nth 0 l (-1) = 0x7f /\ nth 1 l (-1) = 69 /\ nth 2 l (-1) = 76 /\ nth 3 l (-1) = 70 /\ nth 4 l (-1) = 2 /\ nth 5 l (-1) = 1 /\ nth 6 l (-1) = 1.
Proof.
  intros Hl. do 7 (destruct l as [|? l]; [done|]). cbn. split.
  - intros [rest E]. by simplify_eq.
  - intros (-> & -> & -> & -> & -> & -> & ->). by exists l.
Qed.

(** C35. An accepted ELF header describes a program header table inside of the
    file.  [zig_elf64_header_sanity] accepts the header of a file exactly when it
    is that of a 64-bit x86 program, and every program header it announces lies
    behind the ELF header and before the end of the file, with no sum exceeding
    64 bits. *)
Theorem elf_header_sanity_exact f (Hbytes : bytes_ok f) (Hlen : 64 <= Z.of_nat (length f) < 2 ^ 64) :
  let h := elf_header f in
  zig_elf64_header_sanity (Some h) (Z.of_nat (length f)) = 0 <->
  elf_x86_64 h /\
  (e_phnum h <> 0 -> e_phentsize h = 56 /\
     forall i, 0 <= i < e_phnum h -> 64 <= e_phoff h + 56 * i /\ e_phoff h + 56 * i + 56 <= Z.of_nat (length f)).
Proof.
  intros h. unfold elf_x86_64. rewrite ident_spec by (cbn; rewrite length_take; lia).
  assert (Hnum : 0 <= e_phnum h < 2 ^ 16) by (apply (field_bounds 56 2 f); [done|lia]).
  assert (Hoff : 0 <= e_phoff h < 2 ^ 64) by (apply (field_bounds 32 8 f); [done|lia]).
  unfold zig_elf64_header_sanity. generalize dependent h. intros h Hnum Hoff.
  repeat match goal with |- context [nth ?i (e_ident h) (-1) =? ?v] => destruct (Z.eqb_spec (nth i (e_ident h) (-1)) v); cbn [negb orb]; [|split; [done|naive_solver]] end.
  destruct (negb (e_type h =? 2) && negb (e_type h =? 3)) eqn:Et; [split; [done|]; zbool; naive_solver|].
  apply andb_false_iff in Et. rewrite !negb_false_iff, !Z.eqb_eq in Et.
  destruct (Z.eqb_spec (e_machine h) 62); cbn [negb]; [|split; [done|naive_solver]].
  destruct (Z.eqb_spec (e_version h) 1); cbn [negb]; [|split; [done|naive_solver]].
  destruct (Z.eqb_spec (e_ehsize h) 64); cbn [negb]; [|split; [done|naive_solver]].
  destruct (Z.ltb_spec (Z.of_nat (length f)) 64); [lia|].
  destruct (Z.eqb_spec (e_phnum h) 0); [split; [naive_solver|done]|].
  destruct (Z.eqb_spec (e_phentsize h) 56) as [E56|]; cbn [negb]; [|split; [done|naive_solver]].
  assert (Hlast : (forall i, 0 <= i < e_phnum h -> 64 <= e_phoff h + 56 * i /\ e_phoff h + 56 * i + 56 <= Z.of_nat (length f)) <->
    64 <= e_phoff h /\ e_phoff h + 56 * e_phnum h <= Z.of_nat (length f)).
  { split; [|lia]. intros Hi. pose proof (Hi 0 ltac:(lia)). pose proof (Hi (e_phnum h - 1) ltac:(lia)). lia. }
  rewrite Hlast. destruct (Z.ltb_spec (e_phoff h) 64); [split; [done|]; intros [_ Hx]; specialize (Hx ltac:(done)); lia|].
  unfold mulU64. rewrite E56, (proj2 (Z.ltb_lt _ _)) by lia. unfold addU64.
  destruct (Z.ltb_spec (e_phoff h + 56 * e_phnum h) (2 ^ 64)).
  - destruct (Z.gtb_spec (e_phoff h + 56 * e_phnum h) (Z.of_nat (length f))).
    + split; [done|]. intros [_ Hx]. specialize (Hx ltac:(done)). lia.
    + split; [|done]. intros _. split; [by split_and!|]. intros _. lia.
  - split; [done|]. intros [_ Hx]. specialize (Hx ltac:(done)). lia.
Qed.

(** The header of a program with one program header right behind it. *)
Definition elf_example : list Z :=
  [0x7f; 69; 76; 70; 2; 1; 1] ++ replicate 9 0 ++ le_bytes 2 2 ++ le_bytes 2 62 ++ le_bytes 4 1 ++ le_bytes 8 0x400078 ++
  le_bytes 8 64 ++ le_bytes 8 0 ++ le_bytes 4 0 ++ le_bytes 2 64 ++ le_bytes 2 56 ++ le_bytes 2 1 ++ replicate 62 0.

Lemma elf_header_sanity_exact_witness :
  elf_x86_64 (elf_header elf_example) /\
  (e_phnum (elf_header elf_example) <> 0 -> e_phentsize (elf_header elf_example) = 56 /\
     forall i, 0 <= i < e_phnum (elf_header elf_example) -> 64 <= e_phoff (elf_header elf_example) + 56 * i /\
       e_phoff (elf_header elf_example) + 56 * i + 56 <= Z.of_nat (length elf_example)).
Proof.
  apply (elf_header_sanity_exact elf_example).
  - apply (bool_decide_unpack _). vm_compute. exact I.
  - split; [vm_compute; discriminate|vm_compute; reflexivity].
  - vm_compute. reflexivity.
Defined.

Lemma sum_loop_spec n i sum p : 0 <= i -> i + Z.of_nat n <= Z.of_nat (length p) -> 0 <= sum < 256 ->
  sum_loop n i sum p = Some (u8 (sum + foldr Z.add 0 (take n (drop (Z.to_nat i) p)))).
Proof.
  revert i sum. induction n as [|n IH]; intros i sum Hi Hn Hs; cbn [sum_loop].
  - cbn. unfold u8. rewrite Z.add_0_r, Z.mod_small; [done|lia].
  - destruct (byte_in p i) as (c & -> & Hc); [lia|]. rewrite IH; [|lia|lia|unfold u8; apply Z.mod_pos_bound; lia].
    rewrite (drop_S p c (Z.to_nat i) Hc). cbn [take foldr]. replace (Z.to_nat (i + 1)) with (S (Z.to_nat i)) by lia.
    f_equal. unfold u8. rewrite Zplus_mod_idemp_l. f_equal. lia.
Qed.

Lemma starts_spec p i needle : 0 <= i -> i + Z.of_nat (length needle) <= Z.of_nat (length p) ->
  starts p i needle = Some (bool_decide (take (length needle) (drop (Z.to_nat i) p) = needle)).
Proof.
  revert i. induction needle as [|c needle IH]; intros i Hi Hl; cbn [starts length].
  - by rewrite take_0.
  - cbn [length] in Hl. destruct (byte_in p i) as (b & -> & Hb); [lia|]. rewrite (drop_S p b (Z.to_nat i) Hb). cbn [take].
    destruct (Z.eqb_spec b c) as [->|Hne].
    + rewrite IH by lia. replace (Z.to_nat (i + 1)) with (S (Z.to_nat i)) by lia. f_equal. apply bool_decide_ext. split; congruence.
    + rewrite bool_decide_eq_false_2; [done|]. congruence.
Qed.

Lemma multiple_unique m v x y : 0 < m -> x * m - m < v <= x * m -> y * m - m < v <= y * m -> x = y.
Proof. intros Hm Hx Hy. assert ((x - 1) * m < y * m) by lia. assert ((y - 1) * m < x * m) by lia. nia. Qed.

(** The bytes of the table at [i] are the name _S5_. *)
Definition s5_at (p : list Z) (i : Z) : Prop := take 4 (drop (Z.to_nat i) p) = [95; 83; 53; 95].

#[global] Instance s5_at_dec p i : Decision (s5_at p i) := _ : Decision (_ = _).

(** The checks of tables and sizes are exact.  An ACPI table within the limit
    is accepted exactly when its bytes sum to zero modulo 256;
    [zig_find_s5_name_offset] gives the first place of the name _S5_ in the
    table, or -1 when it has none; [zig_net_ring_bytes_ok] gives the least multiple
    of a power of two that holds the descriptors, exactly when it fits in 64 bits
    and in the maximum; [zig_wifi_chunk_count_ok] gives the number of chunks that
    cover the firmware.  No read leaves the buffer and nothing wraps around. *)
Theorem table_checks_exact :
  (forall p len, 0 < len <= Z.of_nat (length p) -> len <= MAX_ACPI_SCAN ->
    zig_acpi_checksum_ok (Some p) len = Some (if u8 (foldr Z.add 0 (take (Z.to_nat len) p)) =? 0 then 1 else 0)) /\
  (forall p len, 0 <= len <= Z.of_nat (length p) -> len <= MAX_ACPI_SCAN ->
    exists r, zig_find_s5_name_offset (Some p) len = Some r /\
      (r = -1 /\ (forall i, 0 <= i -> i + 4 <= len -> ~ s5_at p i) \/
       0 <= r /\ r + 4 <= len /\ s5_at p r /\ forall i, 0 <= i < r -> ~ s5_at p i)) /\
  (forall entries desc_size k max a, 0 < entries < 2 ^ 64 -> 0 < desc_size < 2 ^ 64 -> 0 <= k < 64 -> 0 <= max < 2 ^ 64 ->
    zig_net_ring_bytes_ok entries desc_size (2 ^ k) max true = (0, Some a) <->
    a mod 2 ^ k = 0 /\ a - 2 ^ k < entries * desc_size <= a /\ a <= max /\ entries * desc_size + 2 ^ k - 1 < 2 ^ 64) /\
  (forall total chunk n, 0 <= total < 2 ^ 64 -> 0 < chunk < 2 ^ 64 ->
    zig_wifi_chunk_count_ok total chunk true = (0, Some n) <-> (n - 1) * chunk < total <= n * chunk).
Proof.
  split_and!.
  - intros p len Hlen Hmax. unfold zig_acpi_checksum_ok. rewrite (proj2 (Z.eqb_neq len 0)) by lia.
    destruct (Z.gtb_spec len MAX_ACPI_SCAN); [lia|]. rewrite sum_loop_spec by lia. by rewrite Z.add_0_l.
  - intros p len Hlen Hmax. unfold zig_find_s5_name_offset.
    destruct (Z.ltb_spec len 4); [exists (-1); split; [done|]; left; split; [done|lia]|].
    destruct (Z.gtb_spec len MAX_ACPI_SCAN); [lia|]. set (body := fun i => match starts p i [95; 83; 53; 95] with None => None | Some b => Some (if b then Some i else None) end).
    assert (Hb : forall i, 0 <= i < len - 3 -> body i = Some (if bool_decide (s5_at p i) then Some i else None)).
    { intros i Hi. unfold body. by rewrite starts_spec by (cbn; lia). }
    assert (Hno : forall i, 0 <= i < len - 3 -> body i = Some None -> ~ s5_at p i).
    { intros i Hi. rewrite Hb by done. by case_bool_decide. }
    destruct (scan_cases (Z.to_nat (len - 3)) 0 body) as [(k & r & Hk & Ek & Hj & ->)|[Hj ->]].
    + intros j Hj. rewrite Hb by lia. done.
    + rewrite Hb in Ek by lia. case_bool_decide; [|done]. injection Ek as <-. exists k. split; [done|]. right.
      split_and!; [lia|lia|done|]. intros i Hi. apply Hno; [lia|apply Hj; lia].
    + exists (-1). split; [done|]. left. split; [done|]. intros i Hi Hi4. apply Hno; [lia|apply Hj; lia].
  - intros n d k max a Hn Hd Hk Hmax. assert (0 < 2 ^ k < 2 ^ 64) by (split; [lia|apply Z.pow_lt_mono_r; lia]).
    unfold zig_net_ring_bytes_ok. cbn [negb]. rewrite !(proj2 (Z.eqb_neq _ 0)) by lia. cbn [orb].
    rewrite mask_pow2_bits by lia. cbn [Z.eqb negb]. destruct (Z.eqb_spec max 0) as [->|].
    { split; [done|]. intros (Hm & Ha & Ha' & _). lia. }
    unfold mulU64. destruct (Z.ltb_spec (n * d) (2 ^ 64)) as [Hmul|Hmul]; [|split; [done|lia]].
    unfold addU64. destruct (Z.ltb_spec (n * d + (2 ^ k - 1)) (2 ^ 64)) as [Hadd|Hadd]; [|split; [done|lia]].
    assert (Eal : Z.ldiff (n * d + (2 ^ k - 1)) (2 ^ k - 1) = (n * d + (2 ^ k - 1)) / 2 ^ k * 2 ^ k).
    { replace (2 ^ k - 1) with (Z.ones k) by (rewrite Z.ones_equiv; lia). rewrite Z.ldiff_ones_r, Z.shiftl_mul_pow2, Z.shiftr_div_pow2; lia. }
    rewrite Eal. set (q := (n * d + (2 ^ k - 1)) / 2 ^ k).
    assert (Hq : q * 2 ^ k - 2 ^ k < n * d <= q * 2 ^ k).
    { unfold q. pose proof (Z.div_mod (n * d + (2 ^ k - 1)) (2 ^ k) ltac:(lia)).
      pose proof (Z.mod_pos_bound (n * d + (2 ^ k - 1)) (2 ^ k) ltac:(lia)). lia. }
    rewrite (proj2 (Z.eqb_neq _ 0)) by nia. cbn [orb]. destruct (Z.gtb_spec (q * 2 ^ k) max).
    + split; [done|]. intros (Hm & Ha & Hle & _). exfalso. apply Z.mod_divide in Hm as [z ->]; [|lia].
      pose proof (multiple_unique (2 ^ k) (n * d) z q ltac:(lia) Ha Hq). subst z. lia.
    + split.
      * intros [= <-]. split_and!; try lia. apply Z.mod_mul. lia.
      * intros (Hm & Ha & Hle & _). do 2 f_equal. apply Z.mod_divide in Hm as [z ->]; [|lia].
        by rewrite (multiple_unique (2 ^ k) (n * d) z q ltac:(lia) Ha Hq).
  - intros total chunk n Ht Hc. unfold zig_wifi_chunk_count_ok. cbn [negb]. rewrite (proj2 (Z.eqb_neq chunk 0)) by lia.
    pose proof (Z.div_mod total chunk ltac:(lia)) as Hdm. pose proof (Z.mod_pos_bound total chunk ltac:(lia)) as Hmod.
    destruct (Z.eqb_spec total 0) as [->|].
    { split; [intros [= <-]; lia|]. intros Hn. do 2 f_equal. nia. }
    destruct (Z.eqb_spec (total mod chunk) 0) as [E|E].
    { split; [intros [= <-]; nia|]. intros Hn. do 2 f_equal. nia. }
    destruct (Z.eqb_spec (total / chunk) (2 ^ 64 - 1)) as [Emax|Emax].
    { exfalso. nia. }
    split; [intros [= <-]; nia|]. intros Hn. do 2 f_equal. nia.
Qed.

Lemma table_checks_exact_witness :
  zig_wifi_chunk_count_ok 1000 256 true = (0, Some 4) <-> (4 - 1) * 256 < 1000 <= 4 * 256.
Proof. apply table_checks_exact; lia. Defined.
