(* ===== verification/Initramfs.v ===== *)
(** * The initial RAM file system: support/initramfs_scan.zig and kernel/initramfs.c

    The archive is checked by the Zig scanner and then unpacked by the C importer.
    The archive is the list of its bytes; reading outside of it, and an addition
    that wraps where Zig does not allow it, is a fault ([None]).  The importer keeps
    what it has done to the file system when it faults.  A string is the list of the
    bytes before its terminator. *)

From S2P Require Import Prelude Bytes Support Errno.

(** ** The scanner *)

Definition CPIO_MAGIC : list Z := [48; 55; 48; 55; 48; 49].
Definition TRAILER_NAME : list Z := [84; 82; 65; 73; 76; 69; 82; 33; 33; 33].

(** [x + 3] and [x + 511] must not exceed 64 bits. *)
Definition align4 (x : Z) : option Z := if x + 3 <? 2 ^ 64 then Some (Z.ldiff (x + 3) 3) else None.
Definition align512 (x : Z) : option Z := if x + 511 <? 2 ^ 64 then Some (Z.ldiff (x + 511) 511) else None.

Definition hex_digit (c : Z) : option Z :=
  if (48 <=? c) && (c <=? 57) then Some (c - 48)
  else if (97 <=? c) && (c <=? 102) then Some (10 + (c - 97))
  else if (65 <=? c) && (c <=? 70) then Some (10 + (c - 65))
  else None.

(** The outer option is the fault, the inner one the result. *)
Fixpoint hex_loop (n : nat) (i v : Z) (p : list Z) : option (option Z) :=
  match n with
  | O => Some (Some v)
  | S n =>
    c ← byte p i;
    match hex_digit c with
    | None => Some None
    | Some d => hex_loop n (i + 1) (Z.lor (u64 (Z.shiftl v 4)) d) p
    end
  end.

Definition parse_hex8 (p : list Z) (off : Z) : option (option Z) := hex_loop 8 off 0 p.

Definition memeq_prefix (p : list Z) (off : Z) (needle : list Z) : option bool := starts p off needle.

Definition scan_zero_block (p : list Z) (off : Z) : option bool :=
  or_else true (scan 512 off (fun i => c ← byte p i; Some (if c =? 0 then None else Some false))).

(** The first loop of [parse_octal_field]: the fields left, from the first that
    is neither a space nor a zero. *)
Fixpoint skip_blank (n : nat) (i : Z) (p : list Z) : option (nat * Z) :=
  match n with
  | O => Some (O, i)
  | S n' => c ← byte p i; if (c =? 32) || (c =? 0) then skip_blank n' (i + 1) p else Some (n, i)
  end.

Fixpoint octal_loop (n : nat) (i v : Z) (p : list Z) : option (option Z) :=
  match n with
  | O => Some (Some v)
  | S n =>
    c ← byte p i;
    if (c <? 48) || (c >? 55) then Some (Some v) else
    if v * 8 >=? 2 ^ 64 then Some None else
    if v * 8 + (c - 48) >=? 2 ^ 64 then Some None else octal_loop n (i + 1) (v * 8 + (c - 48)) p
  end.

Definition parse_octal_field (p : list Z) (off : Z) (n : nat) : option (option Z) :=
  '(n, i) ← skip_blank n off p; octal_loop n i 0 p.

Definition trailer_at (base : list Z) (name : Z) : option bool :=
  t ← memeq_prefix base name TRAILER_NAME;
  if (t : bool) then c ← byte base (name + 10); Some (c =? 0) else Some false.

(** One turn of the loop of [scan_cpio_newc]: the result, or the next offset. *)
Definition cpio_step (base : list Z) (total off : Z) : option (Z + Z) :=
  if total <? off then Some (inl 1) else
  let remain := total - off in
  if remain <? 110 then Some (inl 1) else
  m ← memeq_prefix base off CPIO_MAGIC;
  if negb m then Some (inl 1) else
  filesize ← parse_hex8 base (off + 54);
  match filesize with
  | None => Some (inl 1)
  | Some filesize =>
    namesize ← parse_hex8 base (off + 94);
    match namesize with
    | None => Some (inl 1)
    | Some namesize =>
      if namesize =? 0 then Some (inl 1) else
      match addU64 off 110 with
      | None => Some (inl 1)
      | Some name_end =>
        match addU64 name_end namesize with
        | None => Some (inl 1)
        | Some name_end =>
          if name_end >? total then Some (inl 1) else
          is_trailer ← (if namesize >=? 11 then trailer_at base (off + 110) else Some false);
          data_start ← align4 (off + 110 + namesize);
          if data_start >? total then Some (inl 1) else
          if (is_trailer : bool) then Some (inl (if negb (filesize =? 0) then 1 else 0)) else
          match addU64 data_start filesize with
          | None => Some (inl 1)
          | Some data_end =>
            if data_end >? total then Some (inl 1) else
            next ← align4 data_end; Some (inr next)
          end
        end
      end
    end
  end.

Definition tar_step (base : list Z) (total off : Z) : option (Z + Z) :=
  if total <? off then Some (inl 1) else
  let remain := total - off in
  if remain <? 512 then Some (inl (if remain =? 0 then 0 else 1)) else
  z ← scan_zero_block base off;
  if (z : bool) then
    bad ← (if remain >=? 1024 then z2 ← scan_zero_block base (off + 512); Some (negb z2) else Some false);
    Some (inl (if (bad : bool) then 1 else 0))
  else
  c ← byte base off;
  if c =? 0 then Some (inl 0) else
  fsize ← parse_octal_field base (off + 124) 12;
  match fsize with
  | None => Some (inl 1)
  | Some fsize =>
    al ← align512 fsize;
    match addU64 512 al with
    | None => Some (inl 1)
    | Some adv =>
      match addU64 off adv with
      | None => Some (inl 1)
      | Some next => if next >? total then Some (inl 1) else Some (inr next)
      end
    end
  end.

(** [while (true)]: from one offset to the next. *)
Fixpoint scan_loop (step : Z -> option (Z + Z)) (fuel : nat) (off : Z) : option Z :=
  match fuel with
  | O => None
  | S fuel =>
    r ← step off;
    match r with
    | inl r => Some r
    | inr off => scan_loop step fuel off
    end
  end.

(** Every turn advances by at least 110 or 512 bytes. *)
Definition scan_cpio_newc (base : list Z) (total : Z) : option Z := scan_loop (cpio_step base total) (S (length base)) 0.
Definition scan_tar_ustar (base : list Z) (total : Z) : option Z := scan_loop (tar_step base total) (S (length base)) 0.

Definition zig_initramfs_scan (base : option (list Z)) (size : Z) : option Z :=
  match base with
  | None => Some 1
  | Some b =>
    if size =? 0 then Some 1 else
    cpio ← (if size >=? 6 then memeq_prefix b 0 CPIO_MAGIC else Some false);
    if (cpio : bool) then scan_cpio_newc b size else
    if size >=? 512 then scan_tar_ustar b size else Some 1
  end.

(** ** Names in the archive *)

(** What a "%s" at [i] adds to a buffer of which [n] bytes are free. *)
Fixpoint emit_str (n : nat) (p : list Z) (i : Z) : option (list Z) :=
  c ← byte p i;
  if c =? 0 then Some [] else
  match n with
  | O => Some []
  | S n => s ← emit_str n p (i + 1); Some (c :: s)
  end.

(** The bytes that [strncpy] with the count [n] takes from [i]. *)
Fixpoint read_str (n : nat) (p : list Z) (i : Z) : option (list Z) :=
  match n with
  | O => Some []
  | S n => c ← byte p i; if c =? 0 then Some [] else s ← read_str n p (i + 1); Some (c :: s)
  end.

(** The byte at a position of a string, its terminator included. *)
Definition chr (s : list Z) (i : nat) : Z := nth i s 0.

(** The path of the entry whose header is at [off]: [prefix] is at 345. *)
Definition entry_path (b : list Z) (off : Z) : option (list Z) :=
  c ← byte b (off + 345);
  path ← (if negb (c =? 0) then
            pre ← emit_str 255 b (off + 345);
            if (length pre =? 255)%nat then Some pre else
            if (length pre =? 254)%nat then Some (pre ++ [47]) else
            name ← emit_str (254 - length pre) b off; Some (pre ++ 47 :: name)
          else read_str 255 b off);
  Some (if chr path 0 =? 47 then path else take 255 (47 :: path)).

Definition skip_slash (s : list Z) : list Z := if chr s 0 =? 47 then drop 1 s else s.

(** The loop of [normalize_tar_path] from where it reads: the bytes it writes,
    when it has written [w]. *)
Fixpoint norm_loop (fuel : nat) (s : list Z) (w : nat) : list Z :=
  match fuel, s with
  | S fuel, c :: s1 =>
    if negb (w <? 255)%nat then [] else
    if (c =? 47) && (chr s1 0 =? 47) then norm_loop fuel s1 w else
    if (c =? 46) && ((chr s1 0 =? 47) || (chr s1 0 =? 0)) then norm_loop fuel (skip_slash s1) w else
    if (c =? 47) && (chr s1 0 =? 46) && ((chr s1 1 =? 47) || (chr s1 1 =? 0)) then norm_loop fuel (skip_slash (drop 1 s1)) w else
    c :: norm_loop fuel s1 (S w)
  | _, _ => []
  end.

Fixpoint skip_slashes (s : list Z) : list Z :=
  match s with
  | c :: s' => if c =? 47 then skip_slashes s' else s
  | [] => []
  end.

(** [if (w > 1 && normalized[w - 1] == '/') w--]. *)
Definition strip_slash (s : list Z) : list Z :=
  if (1 <? length s)%nat && (chr s (length s - 1) =? 47) then take (length s - 1) s else s.

Definition normalize_tar_path (path : list Z) : list Z :=
  match path with
  | [] => []
  | _ => let s := skip_slashes path in strip_slash (47 :: norm_loop (length s) s 1)
  end.

(** ** The importer *)

Abbreviation ENAMETOOLONG := 36%Z (only parsing).
Abbreviation EIO := 5%Z (only parsing).
Abbreviation O_RDONLY := 0%Z (only parsing).
Abbreviation O_WRONLY := 1%Z (only parsing).
Abbreviation O_TRUNC := 512%Z (only parsing).

(** What the importer uses of the virtual file system.  A file that is open is a
    number; a failed open gives the error. *)
Class Vfs (V : Type) := {
  vfs_mkdir : list Z -> Z -> V -> Z * V;
  vfs_create : list Z -> Z -> V -> Z * V;
  vfs_open : list Z -> Z -> Z -> V -> (Z + Z) * V;
  vfs_read : Z -> Z -> Z -> V -> Z * list Z * Z * V;
  vfs_write : Z -> list Z -> Z -> V -> Z * Z * V;
  vfs_close : Z -> V -> Z * V;
  vfs_set_inode : list Z -> (Z -> Z) -> Z -> Z -> V -> V
}.

(** [parse_octal], without checks for overflow. *)
Fixpoint octal_c (n : nat) (i v : Z) (p : list Z) : option Z :=
  match n with
  | O => Some v
  | S n =>
    c ← byte p i;
    if (48 <=? c) && (c <=? 55) then octal_c n (i + 1) (u64 (u64 (Z.shiftl v 3) + (c - 48))) p else Some v
  end.

Definition parse_octal (p : list Z) (off : Z) (n : nat) : option Z :=
  '(n, i) ← skip_blank n off p; octal_c n i 0 p.

(** The directories [mkdir_p] makes, in order: [path] cut at each slash but the
    first character, and [path] itself. *)
Definition dir_prefixes (path : list Z) : list (list Z) :=
  ((fun i => take i path) <$> filter (fun i => path !! i = Some 47) (seq 1 (length path - 1))) ++ [path].

Definition HOME : list Z := [47; 104; 111; 109; 101; 47; 111; 98; 101; 108; 105; 115; 107].

Definition normalize_runtime_ids (path : list Z) : Z * Z :=
  if bool_decide (take 13 path = HOME) then (1000, 1000) else (0, 0).

(** Code that works on the file system: the result, [None] for a fault or for the
    end of the fuel, and the file system as it is then. *)
Definition io (V A : Type) : Type := V -> option A * V.

#[global] Instance io_ret V : MRet (io V) := fun A a v => (Some a, v).
#[global] Instance io_bind V : MBind (io V) := fun A B f m v =>
  match m v with
  | (Some a, v) => f a v
  | (None, v) => (None, v)
  end.

(** A read of the archive, and a call that does not fault. *)
Definition reads {V A : Type} (o : option A) : io V A := fun v => (o, v).
Definition calls {V A : Type} (f : V -> A * V) : io V A := fun v => let '(a, v) := f v in (Some a, v).

Section Importer.
Context {V : Type} `{Vfs V}.

Fixpoint mkdirs (dirs : list (list Z)) (v : V) : Z * V :=
  match dirs with
  | [] => (0, v)
  | d :: dirs =>
    let '(r, v) := vfs_mkdir d 493 v in
    if (r <? 0) && negb (r =? - EEXIST) then (r, v) else mkdirs dirs v
  end.

Definition mkdir_p (path : list Z) (v : V) : Z * V :=
  if (length path =? 0)%nat || (256 <=? length path)%nat then (- EINVAL, v) else mkdirs (dir_prefixes path) v.

(** The index of the last slash. *)
Definition last_slash (path : list Z) : option nat :=
  last (filter (fun i => path !! i = Some 47) (seq 0 (length path))).

Definition ensure_parent_dir (path : list Z) (v : V) : Z * V :=
  if (256 <=? length path)%nat then (- ENAMETOOLONG, v) else
  match last_slash path with
  | None | Some O => (0, v)
  | Some i => mkdir_p (take i path) v
  end.

(** Octal 07777 and S_IFMT 0170000. *)
Definition apply_inode_metadata (path : list Z) (mode uid gid : Z) (v : V) : V :=
  vfs_set_inode path (fun i_mode => Z.lor (Z.land i_mode 61440) (Z.land mode 4095)) uid gid v.

Definition import_regular_file (path data : list Z) (mode uid gid : Z) (v : V) : Z * V :=
  let '(r, v) := ensure_parent_dir path v in
  if r <? 0 then (r, v) else
  let mode := if Z.land mode 4095 =? 0 then 420 else mode in
  let '(r, v) := vfs_create path mode v in
  if (r <? 0) && negb (r =? - EEXIST) then (r, v) else
  let '(f, v) := vfs_open path (Z.lor O_WRONLY O_TRUNC) 0 v in
  match f with
  | inl err => (err, v)
  | inr f =>
    let '(written, v) :=
      if (0 <? Z.of_nat (length data)) then let '(w, _, v) := vfs_write f data 0 v in (w, v) else (0, v) in
    if (0 <? Z.of_nat (length data)) && ((written <? 0) || negb (written =? Z.of_nat (length data))) then
      let '(_, v) := vfs_close f v in (if written <? 0 then written else - EIO, v)
    else
    let '(r, v) := vfs_close f v in
    if r <? 0 then (r, v) else (0, apply_inode_metadata path mode uid gid v)
  end.

(** The copy of a link's target; the result tells whether the end was reached. *)
Fixpoint copy_file (fuel : nat) (src dst src_pos dst_pos : Z) : io V bool :=
  match fuel with
  | O => reads None
  | S fuel =>
    '(rd, data, src_pos) ← calls (vfs_read src 512 src_pos);
    if rd <? 0 then mret false else
    if rd =? 0 then mret true else
    '(w, dst_pos) ← calls (vfs_write dst (take (Z.to_nat rd) data) dst_pos);
    if negb (w =? rd) then mret false else copy_file fuel src dst src_pos dst_pos
  end.

Definition import_symlink (fuel : nat) (path linkname : list Z) (mode uid gid : Z) : io V bool :=
  src ← calls (vfs_open linkname O_RDONLY 0);
  match src with
  | inl _ => mret false
  | inr src =>
    create_ret ← calls (import_regular_file path [] mode uid gid);
    done ← (if create_ret =? 0 then
              dst ← calls (vfs_open path (Z.lor O_WRONLY O_TRUNC) 0);
              match dst with
              | inl _ => mret false
              | inr dst => done ← copy_file fuel src dst 0 0; _ ← calls (vfs_close dst); mret done
              end
            else mret false);
    _ ← calls (vfs_close src); mret done
  end.

(** The counters of the importer. *)
Record counts := mkCounts { imported : Z; failed : Z }.

(** One entry: its header is at [off].  The result is the error the importer
    returns, or the advance. *)
Definition import_entry (fuel : nat) (b : list Z) (size off : Z) (n : counts) : io V (Z * counts + Z * counts) :=
  path ← reads (entry_path b off);
  let path := normalize_tar_path path in
  dd ← reads (zig_path_has_dotdot_component (Some (path ++ replicate (256 - length path) 0)) 256);
  fsize ← reads (parse_octal b (off + 124) 12);
  let advance := u64 (512 + ALIGN_UP fsize 512) in
  if negb (dd =? 0) then
    let n := mkCounts (imported n) (failed n + 1) in
    if off + 512 + (advance - 512) >? size then mret (inl (- EINVAL, n)) else mret (inr (advance, n))
  else
  mode ← reads (parse_octal b (off + 100) 8);
  let fmode := Z.land mode 4095 in
  _uid ← reads (parse_octal b (off + 108) 8);
  _gid ← reads (parse_octal b (off + 116) 8);
  let '(fuid, fgid) := normalize_runtime_ids path in
  if off + advance >? size then mret (inl (- EINVAL, n)) else
  typeflag ← reads (byte b (off + 156));
  if typeflag =? 53 then
    ret ← calls (mkdir_p path);
    if ret <? 0 then mret (inr (advance, n)) else
    let fmode := if Z.land fmode 4095 =? 0 then 493 else fmode in
    _ ← calls (fun v => (tt, apply_inode_metadata path fmode fuid fgid v));
    mret (inr (advance, n))
  else if (typeflag =? 48) || (typeflag =? 0) then
    let data := take (Z.to_nat fsize) (drop (Z.to_nat (off + 512)) b) in
    ret ← calls (import_regular_file path data fmode fuid fgid);
    if ret <? 0 then mret (inr (advance, mkCounts (imported n) (failed n + 1)))
    else mret (inr (advance, mkCounts (imported n + 1) (failed n)))
  else if typeflag =? 50 then
    c ← reads (byte b (off + 157));
    if c =? 47 then
      link ← reads (emit_str (length b) b (off + 157));
      done ← import_symlink fuel path link fmode fuid fgid;
      mret (inr (advance, mkCounts (if done : bool then imported n + 1 else imported n) (failed n)))
    else mret (inr (advance, n))
  else mret (inr (advance, n)).

(** The loop over the headers; [fuel] also bounds the copies of links. *)
Fixpoint unpack_loop (fuel : nat) (b : list Z) (size off : Z) (n : counts) : io V (Z * counts) :=
  match fuel with
  | O => reads None
  | S fuel =>
    if off + 512 <=? size then
      zero ← reads (zig_mem_all_zero (Some (drop (Z.to_nat off) b)) 512);
      if negb (zero =? 0) then mret (0, n) else
      c ← reads (byte b off);
      if c =? 0 then mret (0, n) else
      r ← import_entry fuel b size off n;
      match r with
      | inl e => mret e
      | inr (advance, n) => unpack_loop fuel b size (off + advance) n
      end
    else mret (0, n)
  end.

Definition initramfs_unpack_tar (fuel : nat) (archive : list Z) : io V (Z * counts) :=
  let size := Z.of_nat (length archive) in
  ok ← reads (zig_initramfs_scan (Some archive) size);
  if negb (ok =? 0) then mret (- EINVAL, mkCounts 0 0) else
  unpack_loop fuel archive size 0 (mkCounts 0 0).
End Importer.
