(* ===== verification/InitramfsProps.v ===== *)
(** * The importer writes only below the root, and never overruns the archive

    The scanner is total and stays in the archive, an archive it accepts as tar is
    never found truncated by the importer, and every path that the importer
    changes is absolute and has no ".." component. *)

From S2P Require Import Prelude Bytes Support SupportProps Errno Initramfs.

(** ** Fields *)

Lemma skip_blank_spec n i p : 0 <= i -> i + Z.of_nat n <= Z.of_nat (length p) ->
  exists n' i', skip_blank n i p = Some (n', i') /\ i <= i' /\ i' + Z.of_nat n' = i + Z.of_nat n.
Proof.
  revert i. induction n as [|n IH]; intros i Hi Hn; cbn [skip_blank]; [exists O, i; split_and!; [done|lia..]|].
  destruct (byte_in p i) as (c & -> & _); [lia|]. cbn. destruct ((c =? 32) || (c =? 0)).
  - destruct (IH (i + 1)) as (n' & i' & E & H1 & H2); [lia|lia|]. exists n', i'. split_and!; [done|lia|lia].
  - exists (S n), i. split_and!; [done|lia|lia].
Qed.

(** With at most 21 octal digits both parsers agree, and nothing overflows. *)
Lemma octal_agree n i v p k : 0 <= i -> i + Z.of_nat n <= Z.of_nat (length p) -> 0 <= k -> 0 <= v < 8 ^ k -> k + Z.of_nat n <= 21 ->
  exists x, octal_loop n i v p = Some (Some x) /\ octal_c n i v p = Some x /\ 0 <= x < 8 ^ (k + Z.of_nat n).
Proof.
  revert i v k. induction n as [|n IH]; intros i v k Hi Hn Hk Hv Hkn; cbn [octal_loop octal_c].
  { exists v. rewrite Z.add_0_r. done. }
  destruct (byte_in p i) as (c & -> & _); [lia|]. cbn.
  assert (H64 : 8 ^ (k + 1) <= 2 ^ 63) by (change (2 ^ 63) with (8 ^ 21); apply Z.pow_le_mono_r; lia).
  assert (Hk1 : 8 ^ (k + 1) = 8 * 8 ^ k) by (rewrite Z.pow_add_r; lia).
  destruct ((c <? 48) || (c >? 55)) eqn:Ec.
  - exists v. split; [done|]. replace ((48 <=? c) && (c <=? 55)) with false by lia. split; [done|].
    split; [lia|]. apply Z.lt_le_trans with (8 ^ k); [lia|]. apply Z.pow_le_mono_r; lia.
  - replace ((48 <=? c) && (c <=? 55)) with true by lia. apply orb_false_iff in Ec as [Ec1 Ec2]. zbool.
    rewrite !Z.geb_leb, !(proj2 (Z.leb_gt _ _)) by lia.
    destruct (IH (i + 1) (v * 8 + (c - 48)) (k + 1)) as (x & E1 & E2 & Hx); [lia|lia|lia|lia|lia|].
    exists x. split; [exact E1|]. rewrite Z.shiftl_mul_pow2 by lia. change (2 ^ 3) with 8.
    rewrite (u64_small (v * 8)), u64_small by lia. split; [exact E2|]. by replace (k + Z.of_nat (S n)) with (k + 1 + Z.of_nat n) by lia.
Qed.

Lemma size_field p off : 0 <= off -> off + 12 <= Z.of_nat (length p) ->
  exists x, parse_octal_field p off 12 = Some (Some x) /\ parse_octal p off 12 = Some x /\ 0 <= x < 2 ^ 36.
Proof.
  intros Ho Hl. unfold parse_octal_field, parse_octal.
  destruct (skip_blank_spec 12 off p Ho) as (n & i & -> & Hi & Hn); [lia|]. cbn [mbind option_bind].
  destruct (octal_agree n i 0 p 0) as (x & E1 & E2 & Hx); [lia|lia|lia|lia|lia|]. exists x. split; [done|]. split; [done|].
  split; [lia|]. apply Z.lt_le_trans with (8 ^ (0 + Z.of_nat n)); [lia|]. change (2 ^ 36) with (8 ^ 12). apply Z.pow_le_mono_r; lia.
Qed.

Lemma octal_total p off n : 0 <= off -> off + Z.of_nat n <= Z.of_nat (length p) -> (n <= 21)%nat -> exists x, parse_octal p off n = Some x.
Proof.
  intros Ho Hl Hn. unfold parse_octal. destruct (skip_blank_spec n off p Ho) as (n' & i & -> & Hi & Hn'); [lia|].
  destruct (octal_agree n' i 0 p 0) as (x & _ & E & _); [lia|lia|lia|lia|lia|]. by exists x.
Qed.

(** ** Zero blocks *)

Lemma zero_block_agree p off : 0 <= off -> off + 512 <= Z.of_nat (length p) ->
  exists z : bool, scan_zero_block p off = Some z /\
    zig_mem_all_zero (Some (drop (Z.to_nat off) p)) 512 = Some (if z then 1 else 0).
Proof.
  intros Ho Hl. exists (bool_decide (Forall (fun c => c = 0) (take 512 (drop (Z.to_nat off) p)))).
  rewrite all_zero_scan by (rewrite length_drop; lia). change (Z.to_nat 512) with 512%nat. split; [|done].
  unfold scan_zero_block. set (body := fun i => byte p i ≫= fun c => Some (if c =? 0 then None else Some false)).
  assert (Hb : forall j c, p !! Z.to_nat j = Some c -> 0 <= j -> body j = Some (if c =? 0 then None else Some false)).
  { intros j c Hj H0. unfold body. by rewrite byte_lookup, Hj by lia. }
  destruct (scan_cases 512 off body) as [(k & r & Hk & Ek & Hj & ->)|[Hj ->]].
  - intros j Hj. destruct (byte_in p j) as (c & _ & Hc); [lia|]. rewrite (Hb _ _ Hc) by lia. done.
  - destruct (byte_in p k) as (c & _ & Hc); [lia|]. rewrite (Hb _ _ Hc) in Ek by lia.
    rewrite bool_decide_eq_false_2; [by destruct (c =? 0); simplify_eq|]. intros HF.
    destruct (Z.eqb_spec c 0) as [|Hne]; [done|]. apply Hne. apply (Forall_lookup_1 _ _ (Z.to_nat (k - off)) c HF).
    rewrite lookup_take_lt, lookup_drop by lia. by replace (Z.to_nat off + Z.to_nat (k - off))%nat with (Z.to_nat k) by lia.
  - rewrite bool_decide_eq_true_2; [done|]. apply Forall_lookup_2. intros i x Hi.
    pose proof (lookup_lt_Some _ _ _ Hi) as Hlt. rewrite length_take in Hlt. rewrite lookup_take_lt, lookup_drop in Hi by lia.
    assert (Hx : body (off + Z.of_nat i) = Some None) by (apply Hj; lia).
    rewrite (Hb _ x) in Hx; [by destruct (Z.eqb_spec x 0)|by replace (Z.to_nat (off + Z.of_nat i)) with (Z.to_nat off + i)%nat by lia|lia].
Qed.

(** ** The scanner *)

Lemma ldiff_mask x k : 0 <= k -> Z.ldiff (x + Z.ones k) (Z.ones k) = (x + (2 ^ k - 1)) / 2 ^ k * 2 ^ k.
Proof.
  intros Hk. rewrite Z.ldiff_ones_r, Z.shiftl_mul_pow2, Z.shiftr_div_pow2 by lia. by rewrite Z.ones_equiv.
Qed.

Lemma align4_spec x : 0 <= x -> x + 3 < 2 ^ 64 -> exists y, align4 x = Some y /\ x <= y <= x + 3.
Proof.
  intros Hx H. unfold align4. rewrite (proj2 (Z.ltb_lt _ _)) by lia. eexists. split; [done|].
  pose proof (ldiff_mask x 2 ltac:(lia)) as E. change (Z.ones 2) with 3 in E. change (2 ^ 2) with 4 in E. rewrite E. Z.to_euclidean_division_equations. lia.
Qed.

Lemma align512_spec x : 0 <= x < 2 ^ 36 -> align512 x = Some (ALIGN_UP x 512) /\ 0 <= ALIGN_UP x 512 <= x + 511.
Proof.
  intros Hx. unfold align512. rewrite (proj2 (Z.ltb_lt _ _)) by lia.
  pose proof (ldiff_mask x 9 ltac:(lia)) as E. pose proof (ALIGN_UP_pow2 x 9 ltac:(lia) ltac:(lia) ltac:(lia)) as E'.
  change (Z.ones 9) with 511 in E. change (2 ^ 9) with 512 in E, E'. rewrite E, E'. split; [done|]. Z.to_euclidean_division_equations. lia.
Qed.

Lemma addU64_small x y : x + y < 2 ^ 64 -> addU64 x y = Some (x + y).
Proof. intros Hx. by apply addU64_Some. Qed.

Section Scan.
Context (b : list Z) (size : Z) (Hsize : size = Z.of_nat (length b)) (Hmax : size < 2 ^ 63).

Lemma tar_step_spec off : 0 <= off <= size ->
  exists r, tar_step b size off = Some r /\
    match r with
    | inl x => x = 0 \/ x = 1
    | inr next => off + 512 <= next <= size /\
        exists x, parse_octal b (off + 124) 12 = Some x /\ next = off + u64 (512 + ALIGN_UP x 512) /\ 0 <= x <= ALIGN_UP x 512
    end.
Proof.
  intros Hoff. unfold tar_step. rewrite (proj2 (Z.ltb_ge _ _)) by lia.
  destruct (Z.ltb_spec (size - off) 512); [eexists; split; [done|]; destruct (_ =? 0); auto|].
  destruct (zero_block_agree b off) as (zb & -> & _); [lia|lia|]. cbn [mbind option_bind]. destruct zb.
  { rewrite Z.geb_leb. destruct (Z.leb_spec 1024 (size - off)); [|eexists; split; [done|]; by left].
    destruct (zero_block_agree b (off + 512)) as (z2 & -> & _); [lia|lia|]. cbn. eexists. split; [done|]. destruct z2; auto. }
  destruct (byte_in b off) as (c & -> & _); [lia|]. cbn [mbind option_bind]. destruct (c =? 0); [eexists; split; [done|]; by left|].
  destruct (size_field b (off + 124)) as (x & -> & Hx & Hb); [lia|lia|]. cbn [mbind option_bind].
  destruct (align512_spec x Hb) as [-> Hal]. cbn [mbind option_bind]. rewrite addU64_small by lia. rewrite addU64_small by lia.
  destruct (Z.gtb_spec (off + (512 + ALIGN_UP x 512)) size); [eexists; split; [done|]; by right|].
  eexists. split; [done|]. split; [lia|]. exists x. rewrite u64_small by lia. split_and!; try done; [lia|].
  pose proof (ALIGN_UP_pow2 x 9 ltac:(lia) ltac:(lia) ltac:(lia)) as E'. change (2 ^ 9) with 512 in E'. rewrite E'. Z.to_euclidean_division_equations. lia.
Qed.

Lemma hex_loop_spec n i v k : 0 <= i -> i + Z.of_nat n <= size -> 0 <= k -> 0 <= v < 16 ^ k -> k + Z.of_nat n <= 8 ->
  exists r, hex_loop n i v b = Some r /\ forall x, r = Some x -> 0 <= x < 2 ^ 32.
Proof.
  revert i v k. induction n as [|n IH]; intros i v k Hi Hn Hk Hv Hkn; cbn [hex_loop].
  { eexists. split; [done|]. intros x [= <-]. split; [lia|]. apply Z.lt_le_trans with (16 ^ k); [lia|].
    change (2 ^ 32) with (16 ^ 8). apply Z.pow_le_mono_r; lia. }
  destruct (byte_in b i) as (c & -> & _); [lia|]. cbn. destruct (hex_digit c) as [d|] eqn:Ed; [|by eexists].
  assert (Hd : 0 <= d < 2 ^ 4).
  { unfold hex_digit in Ed. repeat case_match; simplify_eq; zbool; lia. }
  assert (Hb : 16 ^ (k + 1) <= 16 ^ 8) by (apply Z.pow_le_mono_r; lia).
  assert (Hk1 : 16 ^ (k + 1) = 16 * 16 ^ k) by (rewrite Z.pow_add_r; lia).
  rewrite Z.shiftl_mul_pow2 by lia. rewrite u64_small by lia.
  assert (El : Z.lor (v * 2 ^ 4) d = v * 2 ^ 4 + d).
  { rewrite <- Z.lxor_lor, <- Z.add_nocarry_lxor; [done|..]; (apply Z.bits_inj'; intros j Hj; rewrite Z.land_spec, Z.bits_0;
      destruct (Z.lt_ge_cases j 4); [rewrite Z.mul_pow2_bits_low by lia; done|];
      rewrite (Z.bits_above_log2 d j), andb_false_r; [done|lia|]; destruct (decide (d = 0)) as [->|]; [cbn; lia|];
      apply Z.log2_lt_pow2; [lia|]; apply Z.lt_le_trans with (2 ^ 4); [lia|apply Z.pow_le_mono_r; lia]). }
  rewrite El. apply (IH (i + 1) _ (k + 1)); lia.
Qed.

Lemma cpio_step_spec off : 0 <= off <= size + 3 ->
  exists r, cpio_step b size off = Some r /\
    match r with inl x => x = 0 \/ x = 1 | inr next => off + 110 <= next <= size + 3 end.
Proof.
  intros Hoff. unfold cpio_step. destruct (Z.ltb_spec size off); [eexists; split; [done|]; by right|].
  destruct (Z.ltb_spec (size - off) 110); [eexists; split; [done|]; by right|].
  unfold memeq_prefix. rewrite starts_spec by (cbn; lia). cbn [mbind option_bind].
  destruct (negb _); [eexists; split; [done|]; by right|].
  destruct (hex_loop_spec 8 (off + 54) 0 0) as (fs & Efs & Hfs); [lia|lia|lia|cbn; lia|lia|]. unfold parse_hex8. rewrite Efs. cbn [mbind option_bind].
  destruct fs as [fs|]; [|eexists; split; [done|]; by right]. specialize (Hfs fs eq_refl).
  destruct (hex_loop_spec 8 (off + 94) 0 0) as (ns & Ens & Hns); [lia|lia|lia|cbn; lia|lia|]. rewrite Ens. cbn [mbind option_bind].
  destruct ns as [ns|]; [|eexists; split; [done|]; by right]. specialize (Hns ns eq_refl).
  destruct (Z.eqb_spec ns 0); [eexists; split; [done|]; by right|]. rewrite addU64_small by lia. rewrite addU64_small by lia.
  destruct (Z.gtb_spec (off + 110 + ns) size); [eexists; split; [done|]; by right|].
  assert (Ht : exists t : bool, (if ns >=? 11 then trailer_at b (off + 110) else Some false) = Some t).
  { rewrite Z.geb_leb. destruct (Z.leb_spec 11 ns); [|by eexists]. unfold trailer_at, memeq_prefix.
    rewrite starts_spec by (cbn; lia). cbn [mbind option_bind]. case_match; [|by eexists].
    destruct (byte_in b (off + 110 + 10)) as (c & -> & _); [lia|]. cbn. by eexists. }
  destruct Ht as [t ->]. cbn [mbind option_bind].
  destruct (align4_spec (off + 110 + ns)) as (ds & -> & Hds); [lia|lia|]. cbn [mbind option_bind].
  destruct (Z.gtb_spec ds size); [eexists; split; [done|]; by right|].
  destruct t; [eexists; split; [done|]; destruct (_ =? 0); auto|]. rewrite addU64_small by lia.
  destruct (Z.gtb_spec (ds + fs) size); [eexists; split; [done|]; by right|].
  destruct (align4_spec (ds + fs)) as (nx & -> & Hnx); [lia|lia|]. cbn [mbind option_bind]. eexists. split; [done|]. cbv iota beta. lia.
Qed.

Lemma scan_loop_total step (M : Z) fuel off : 0 <= off <= M -> M - off < 110 * Z.of_nat fuel ->
  (forall off, 0 <= off <= M -> exists r, step off = Some r /\ match r with inl x => x = 0 \/ x = 1 | inr next => off + 110 <= next <= M end) ->
  exists r, scan_loop step fuel off = Some r /\ (r = 0 \/ r = 1).
Proof.
  intros Hoff Hf Hstep. revert off Hoff Hf. induction fuel as [|fuel IH]; intros off Hoff Hf; [lia|]. cbn [scan_loop].
  destruct (Hstep off Hoff) as ([x|next] & -> & Hr); cbn; [by exists x|]. apply IH; lia.
Qed.

Lemma scan_total : exists r, zig_initramfs_scan (Some b) size = Some r /\ (r = 0 \/ r = 1).
Proof.
  unfold zig_initramfs_scan. destruct (Z.eqb_spec size 0); [exists 1; auto|].
  assert (Hc : exists c : bool, (if size >=? 6 then memeq_prefix b 0 CPIO_MAGIC else Some false) = Some c).
  { rewrite Z.geb_leb. destruct (Z.leb_spec 6 size); [|by eexists]. unfold memeq_prefix. rewrite starts_spec by (cbn; lia). by eexists. }
  destruct Hc as [c ->]. cbn [mbind option_bind]. destruct c.
  - apply (scan_loop_total _ (size + 3)); [lia|lia|]. apply cpio_step_spec.
  - rewrite Z.geb_leb. destruct (Z.leb_spec 512 size); [|exists 1; auto].
    apply (scan_loop_total _ size); [lia|lia|]. intros off Hoff. destruct (tar_step_spec off Hoff) as (r & E & Hr).
    exists r. split; [done|]. destruct r as [x|next]; [done|]. destruct Hr as [Hr _]. lia.
Qed.
End Scan.

(** ** Code on the file system *)

Section Io.
Context {V A B : Type}.

(** [P] holds of the result, if there is one. *)
Definition yields {C} (m : io V C) (P : C -> Prop) : Prop := forall v a v', m v = (Some a, v') -> P a.

Lemma yields_ret (a : A) P : P a -> yields (mret a) P.
Proof. intros Ha v a' v' [= <- <-]. done. Qed.

Lemma yields_bind (m : io V A) (f : A -> io V B) P : (forall a, yields (f a) P) -> yields (m ≫= f) P.
Proof. intros Hf v b v' E. unfold mbind, io_bind in E. destruct (m v) as [[a|] v1]; [by apply (Hf a v1 b v')|done]. Qed.

Lemma yields_reads (a : A) (f : A -> io V B) P : yields (f a) P -> yields (reads (Some a) ≫= f) P.
Proof. done. Qed.

Lemma yields_then (m : io V A) (f : A -> io V B) Q P : yields m Q -> (forall a, Q a -> yields (f a) P) -> yields (m ≫= f) P.
Proof.
  intros Hm Hf v b v' E. unfold mbind, io_bind in E. destruct (m v) as [[a|] v1] eqn:Em; [|done].
  by apply (Hf a (Hm _ _ _ Em) v1 b v').
Qed.

(** There is always a result. *)
Definition total {C} (m : io V C) : Prop := forall v, exists a v', m v = (Some a, v').

Lemma total_ret (a : A) : total (mret a : io V A).
Proof. intros v. by eexists _, _. Qed.

Lemma total_reads o (a : A) (f : A -> io V B) : o = Some a -> total (f a) -> total (reads o ≫= f).
Proof. intros -> Hf v. apply Hf. Qed.

Lemma total_calls (g : V -> A * V) (f : A -> io V B) : (forall a, total (f a)) -> total (calls g ≫= f).
Proof. intros Hf v. unfold mbind, io_bind, calls. destruct (g v) as [a v1]. apply Hf. Qed.
End Io.

(** ** The importer follows the scanner *)

Section Agree.
Context {V : Type} `{Vfs V}.
Context (b : list Z) (size : Z) (Hsize : size = Z.of_nat (length b)) (Hmax : size < 2 ^ 63).

(** What an entry can do to the position: only the size field decides. *)
Lemma import_entry_advance fuel off n x : parse_octal b (off + 124) 12 = Some x ->
  let advance := u64 (512 + ALIGN_UP x 512) in
  yields (import_entry fuel b size off n) (fun r =>
    match r with
    | inl (e, _) => e = - EINVAL /\ off + advance > size
    | inr (a, _) => a = advance /\ off + advance <= size
    end).
Proof.
  intros Ex advance. unfold import_entry. rewrite Ex. fold advance.
  do 2 (apply yields_bind; intros ?). apply yields_reads. fold advance.
  case_match; [rewrite Z.gtb_ltb; destruct (Z.ltb_spec size (off + 512 + (advance - 512))); apply yields_ret; (split; [done|lia])|].
  do 3 (apply yields_bind; intros ?). destruct (normalize_runtime_ids _) as [fuid fgid].
  rewrite Z.gtb_ltb. destruct (Z.ltb_spec size (off + advance)); [apply yields_ret; split; [done|lia]|].
  apply yields_bind; intros ty.
  repeat first [by apply yields_ret | apply yields_bind; intros ? | case_match].
Qed.

Lemma unpack_follows_scan fuel : forall fuel' off n, 0 <= off <= size ->
  scan_loop (tar_step b size) fuel' off = Some 0 -> yields (unpack_loop fuel b size off n) (fun r => r.1 = 0).
Proof.
  induction fuel as [|fuel IH]; intros fuel' off n Hoff Hscan; [done|]. cbn [unpack_loop].
  destruct (Z.leb_spec (off + 512) size) as [Hin|]; [|by apply yields_ret].
  destruct fuel' as [|fuel']; [done|]. cbn [scan_loop] in Hscan.
  destruct (tar_step_spec b size Hsize Hmax off Hoff) as (r & Er & Hr). rewrite Er in Hscan. cbn [mbind option_bind] in Hscan.
  destruct (zero_block_agree b off) as (zb & Ez & Ez'); [lia|lia|]. rewrite Ez'. apply yields_reads.
  unfold tar_step in Er. rewrite (proj2 (Z.ltb_ge _ _)), (proj2 (Z.ltb_ge _ _)), Ez in Er by lia. cbn [mbind option_bind] in Er.
  destruct zb; cbn [negb Z.eqb]; [by apply yields_ret|].
  destruct (byte b off) as [c|]; [|done]. apply yields_reads. cbn [mbind option_bind] in Er. destruct (c =? 0); [by apply yields_ret|].
  destruct (size_field b (off + 124)) as (x & Ef & Ex & Hx); [lia|lia|]. rewrite Ef in Er. cbn [mbind option_bind] in Er.
  destruct (align512_spec x Hx) as [Eal Hal]. rewrite Eal in Er. cbn [mbind option_bind] in Er.
  rewrite addU64_small in Er by lia. rewrite addU64_small in Er by lia.
  eapply yields_then; [by apply (import_entry_advance fuel off n x)|]. intros e Ha. cbv zeta in Ha. rewrite u64_small in Ha by lia. rewrite Z.gtb_ltb in Er.
  destruct (Z.ltb_spec size (off + (512 + ALIGN_UP x 512))); [simplify_eq; cbn in Hscan; done|]. simplify_eq.
  destruct e as [[e n1]|[a n1]]; destruct Ha as [-> Ha]; [lia|].
  eapply (IH fuel'); [|exact Hscan]. lia.
Qed.
End Agree.

(** The importer and the scanner agree on where the entries are: an archive
    that the scanner accepts as tar is never found truncated, so the importer, when
    it ends, returns success. *)
Theorem initramfs_accepted_unpacks {V : Type} `{Vfs V} fuel b (v v' : V) ret n
    (Hmax : Z.of_nat (length b) < 2 ^ 63)
    (Hscan : zig_initramfs_scan (Some b) (Z.of_nat (length b)) = Some 0) (Htar : take 6 b <> CPIO_MAGIC)
    (Hun : initramfs_unpack_tar fuel b v = (Some (ret, n), v')) : ret = 0.
Proof.
  unfold initramfs_unpack_tar in Hun. rewrite Hscan in Hun.
  unfold zig_initramfs_scan in Hscan. destruct (_ =? 0); [done|].
  assert (Hc : (if Z.of_nat (length b) >=? 6 then memeq_prefix b 0 CPIO_MAGIC else Some false) = Some false).
  { rewrite Z.geb_leb. destruct (Z.leb_spec 6 (Z.of_nat (length b))); [|done]. unfold memeq_prefix.
    rewrite starts_spec by (cbn; lia). by rewrite bool_decide_eq_false_2. }
  rewrite Hc in Hscan. cbn [mbind option_bind] in Hscan. destruct (_ >=? 512); [|done].
  apply (unpack_follows_scan b _ eq_refl Hmax fuel _ 0 (mkCounts 0 0) ltac:(lia) Hscan v (ret, n) v' Hun).
Qed.

(** ** The paths of the importer *)

(** An absolute path of at most 255 bytes with no ".." component. *)
Definition safe (p : list Z) : Prop :=
  (exists q, p = 47 :: q) /\ (length p <= 255)%nat /\ (0 ∉ p) /\ (dotdot ∉ components p).

Lemma split_at_app seg s1 s2 : split_at seg (s1 ++ 47 :: s2) = split_at seg s1 ++ split_at [] s2.
Proof. revert seg. induction s1 as [|c s1 IH]; intros seg; cbn; [done|]. destruct (c =? 47); by rewrite IH. Qed.

Lemma safe_prefix p i : safe p -> (1 <= i)%nat -> p !! i = Some 47 -> safe (take i p).
Proof.
  intros ([q ->] & Hl & H0 & Hd) Hi Hp. rewrite <- (take_drop_middle _ _ _ Hp) in H0, Hd. unfold components in Hd.
  rewrite split_at_app in Hd. destruct i as [|i]; [lia|]. split_and!.
  - by exists (take i q).
  - rewrite length_take. lia.
  - set_solver.
  - unfold components. set_solver.
Qed.

Lemma safe_dirs p : safe p -> Forall safe (dir_prefixes p).
Proof.
  intros Hp. unfold dir_prefixes. apply Forall_app. split; [|by constructor]. apply Forall_fmap, Forall_forall.
  intros i [Hi Hin]%list_elem_of_filter. apply elem_of_seq in Hin. cbn. apply safe_prefix; [done|lia|done].
Qed.

Lemma skip_slash_sub s x : x ∈ skip_slash s -> x ∈ s.
Proof. unfold skip_slash. destruct (_ =? 47); [|done]. destruct s; [done|]. cbn. by right. Qed.

Lemma skip_slashes_sub s x : x ∈ skip_slashes s -> x ∈ s.
Proof. induction s as [|c s IH]; cbn; [done|]. destruct (c =? 47); [|done]. intros Hx. right. by apply IH. Qed.

Lemma norm_loop_sub fuel s w x : x ∈ norm_loop fuel s w -> x ∈ s.
Proof.
  revert s w. induction fuel as [|fuel IH]; intros [|c s] w; cbn [norm_loop]; try by intros ?%elem_of_nil.
  repeat case_match; try (by intros ?%elem_of_nil).
  - intros Hx%IH. by right.
  - intros Hx%IH%skip_slash_sub. by right.
  - intros Hx%IH%skip_slash_sub. right. destruct s; [done|]. by right.
  - intros [->|Hx]%elem_of_cons; [left|right]. by apply (IH _ (S w)).
Qed.

Lemma norm_loop_length fuel s w : (w <= 255)%nat -> (w + length (norm_loop fuel s w) <= 255)%nat.
Proof.
  revert s w. induction fuel as [|fuel IH]; intros [|c s] w Hw; cbn [norm_loop length]; try lia.
  destruct (Nat.ltb_spec w 255); cbn [negb]; [|cbn; lia]. repeat case_match; try (by apply IH).
  cbn [length]. specialize (IH s (S w)). lia.
Qed.

Lemma strip_slash_spec c s : exists n, strip_slash (c :: s) = c :: take n s.
Proof.
  unfold strip_slash. destruct (_ && _) eqn:E; [|exists (length s); by rewrite take_ge].
  apply andb_true_iff in E as [E%Nat.ltb_lt _]. cbn [length] in *. exists (length s - 1)%nat.
  destruct s as [|d s]; [cbn in E; lia|]. cbn. by rewrite Nat.sub_0_r.
Qed.

(** What [normalize_tar_path] returns starts with a slash and fits its buffer. *)
Lemma normalize_spec path : path <> [] -> 0 ∉ path ->
  let p := normalize_tar_path path in (exists q, p = 47 :: q) /\ (length p <= 255)%nat /\ (0 ∉ p).
Proof.
  intros Hne H0 p. subst p. unfold normalize_tar_path. destruct path as [|c path]; [done|].
  set (s := skip_slashes (c :: path)). destruct (strip_slash_spec 47 (norm_loop (length s) s 1)) as [n ->].
  pose proof (norm_loop_length (length s) s 1 ltac:(lia)). split_and!; [by eexists|cbn [length]; rewrite length_take; lia|].
  intros [?|Hin]%elem_of_cons; [done|]. apply elem_of_take in Hin as (i & Hi & _). apply list_elem_of_lookup_2, norm_loop_sub, skip_slashes_sub in Hi. done.
Qed.

Lemma emit_str_nz n p i s : emit_str n p i = Some s -> (0 ∉ s) /\ (length s <= n)%nat.
Proof.
  revert i s. induction n as [|n IH]; intros i s; cbn [emit_str]; intros E; apply bind_Some in E as (c & _ & E).
  - assert (s = []) as -> by (destruct (c =? 0); by simplify_eq). split; [apply not_elem_of_nil|cbn; lia].
  - destruct (Z.eqb_spec c 0); [simplify_eq; split; [apply not_elem_of_nil|cbn; lia]|].
    apply bind_Some in E as (t & Et & E). injection E as <-. destruct (IH _ _ Et). cbn. split; [|lia].
    by apply not_elem_of_cons.
Qed.

Lemma read_str_nz n p i s : read_str n p i = Some s -> (0 ∉ s) /\ (length s <= n)%nat.
Proof.
  revert i s. induction n as [|n IH]; intros i s; cbn [read_str]; intros E.
  - injection E as <-. split; [apply not_elem_of_nil|cbn; lia].
  - apply bind_Some in E as (c & _ & E). destruct (Z.eqb_spec c 0); [simplify_eq; split; [apply not_elem_of_nil|cbn; lia]|].
    apply bind_Some in E as (t & Et & E). injection E as <-. destruct (IH _ _ Et). cbn. split; [|lia].
    by apply not_elem_of_cons.
Qed.

Lemma entry_path_spec b off path : entry_path b off = Some path -> path <> [] /\ (0 ∉ path).
Proof.
  unfold entry_path. intros E. apply bind_Some in E as (c & _ & E). apply bind_Some in E as (q & Eq & E).
  assert (Hq : 0 ∉ q).
  { destruct (negb (c =? 0)); [|by apply read_str_nz in Eq as [? _]].
    apply bind_Some in Eq as (pre & Ep & Eq). apply emit_str_nz in Ep as [Hpre _].
    destruct (_ =? 255)%nat; [by simplify_eq|].
    assert (H47 : forall l, 0 ∉ l -> 0 ∉ pre ++ 47 :: l).
    { intros l Hl. rewrite not_elem_of_app, not_elem_of_cons. done. }
    destruct (_ =? 254)%nat; [simplify_eq; apply H47, not_elem_of_nil|].
    apply bind_Some in Eq as (name & En & Eq). apply emit_str_nz in En as [Hn _]. simplify_eq. by apply H47. }
  injection E as <-. destruct (Z.eqb_spec (chr q 0) 47) as [E|E].
  - split; [intros ->; done|done].
  - split; [done|]. cbn. rewrite not_elem_of_cons. split; [done|]. intros Hin. apply Hq.
    apply elem_of_take in Hin as (i & Hi & _). by eapply list_elem_of_lookup_2.
Qed.

(** ** What the importer changes *)

Section Safe.
Context {V : Type} `{Vfs V} (Inv : V -> Prop).
Context (Hmkdir : forall p m v, safe p -> Inv v -> Inv (vfs_mkdir p m v).2)
        (Hcreate : forall p m v, safe p -> Inv v -> Inv (vfs_create p m v).2)
        (Hopen : forall p flags m v, safe p \/ flags = O_RDONLY -> Inv v -> Inv (vfs_open p flags m v).2)
        (Hread : forall f n pos v, Inv v -> Inv (vfs_read f n pos v).2)
        (Hwrite : forall f data pos v, Inv v -> Inv (vfs_write f data pos v).2)
        (Hclose : forall f v, Inv v -> Inv (vfs_close f v).2)
        (Hset : forall p f uid gid v, safe p -> Inv v -> Inv (vfs_set_inode p f uid gid v)).

Lemma mkdirs_safe dirs v : Forall safe dirs -> Inv v -> Inv (mkdirs dirs v).2.
Proof.
  intros Hd. revert v. induction Hd as [|d dirs Hd _ IH]; intros v Hv; cbn [mkdirs]; [done|].
  pose proof (Hmkdir d 493 v Hd Hv) as Hm. destruct (vfs_mkdir d 493 v) as [r v1]. destruct (_ && _); [done|by apply IH].
Qed.

Lemma mkdir_p_safe p v : safe p -> Inv v -> Inv (mkdir_p p v).2.
Proof. intros Hp Hv. unfold mkdir_p. destruct (_ || _); [done|]. apply mkdirs_safe; [by apply safe_dirs|done]. Qed.

Lemma ensure_parent_safe p v : safe p -> Inv v -> Inv (ensure_parent_dir p v).2.
Proof.
  intros Hp Hv. unfold ensure_parent_dir. destruct (_ <=? _)%nat; [done|].
  destruct (last_slash p) as [[|i]|] eqn:El; try done. apply mkdir_p_safe; [|done].
  unfold last_slash in El. apply last_Some_elem_of, list_elem_of_filter in El as [Hi _]. apply safe_prefix; [done|lia|done].
Qed.

Lemma import_file_safe p data mode uid gid v : safe p -> Inv v -> Inv (import_regular_file p data mode uid gid v).2.
Proof.
  intros Hp Hv. unfold import_regular_file.
  pose proof (ensure_parent_safe p v Hp Hv) as H1. destruct (ensure_parent_dir p v) as [r v1]. destruct (r <? 0); [done|].
  set (m := if Z.land mode 4095 =? 0 then _ else _).
  pose proof (Hcreate p m v1 Hp H1) as H2. destruct (vfs_create p m v1) as [r2 v2]. destruct (_ && _); [done|].
  pose proof (Hopen p (Z.lor O_WRONLY O_TRUNC) 0 v2 (or_introl Hp) H2) as H3. destruct (vfs_open p _ 0 v2) as [[e|f] v3]; [done|].
  destruct (if 0 <? Z.of_nat (length data) then _ else _) as [w v4] eqn:Ew.
  assert (H4 : Inv v4).
  { destruct (0 <? Z.of_nat (length data)); [|by simplify_eq]. pose proof (Hwrite f data 0 v3 H3) as Hw.
    destruct (vfs_write f data 0 v3) as [[w' pos'] v']. by simplify_eq. }
  pose proof (Hclose f v4 H4) as H5. destruct (vfs_close f v4) as [r5 v5]. destruct (_ && _); [done|].
  destruct (r5 <? 0); [done|]. by apply Hset.
Qed.

(** Whatever happens, a fault included, [Inv] still holds. *)
Definition keeps {A} (m : io V A) : Prop := forall v, Inv v -> Inv (m v).2.

Lemma keeps_ret {A} (a : A) : keeps (mret a).
Proof. by intros v. Qed.

Lemma keeps_reads {A} (o : option A) : keeps (reads o).
Proof. by intros v. Qed.

Lemma keeps_calls {A} (f : V -> A * V) : (forall v, Inv v -> Inv (f v).2) -> keeps (calls f).
Proof. intros Hf v Hv. unfold calls. specialize (Hf v Hv). by destruct (f v). Qed.

Lemma keeps_bind {A B} (m : io V A) (f : A -> io V B) : keeps m -> (forall a, keeps (f a)) -> keeps (m ≫= f).
Proof.
  intros Hm Hf v Hv. specialize (Hm v Hv). unfold mbind, io_bind. destruct (m v) as [[a|] v1]; [by apply Hf|done].
Qed.

Lemma keeps_bind_reads {A B} (o : option A) (f : A -> io V B) : (forall a, o = Some a -> keeps (f a)) -> keeps (reads o ≫= f).
Proof. intros Hf v Hv. unfold mbind, io_bind, reads. destruct o as [a|]; [by apply (Hf a)|done]. Qed.

Lemma copy_file_safe fuel src dst p1 p2 : keeps (copy_file fuel src dst p1 p2).
Proof.
  revert p1 p2. induction fuel as [|fuel IH]; intros p1 p2; cbn [copy_file]; [apply keeps_reads|].
  apply keeps_bind; [apply keeps_calls; by apply Hread|]. intros [[rd data] p1']. repeat case_match; try apply keeps_ret.
  apply keeps_bind; [apply keeps_calls; by apply Hwrite|]. intros [w p2']. case_match; [apply keeps_ret|apply IH].
Qed.

Lemma import_symlink_safe fuel p link mode uid gid : safe p -> keeps (import_symlink fuel p link mode uid gid).
Proof.
  intros Hp. unfold import_symlink. apply keeps_bind; [apply keeps_calls; intros v; apply Hopen; by right|].
  intros [e|src]; [apply keeps_ret|]. apply keeps_bind; [apply keeps_calls; intros v; by apply import_file_safe|]. intros cr.
  apply keeps_bind.
  - case_match; [|apply keeps_ret]. apply keeps_bind; [apply keeps_calls; intros v; apply Hopen; by left|].
    intros [e|dst]; [apply keeps_ret|]. apply keeps_bind; [apply copy_file_safe|]. intros dn.
    apply keeps_bind; [apply keeps_calls, Hclose|]. intros _. apply keeps_ret.
  - intros dn. apply keeps_bind; [apply keeps_calls, Hclose|]. intros _. apply keeps_ret.
Qed.

Lemma import_entry_safe fuel b size off n : keeps (import_entry fuel b size off n).
Proof.
  unfold import_entry. apply keeps_bind_reads. intros path [Hne H0]%entry_path_spec. destruct (normalize_spec path Hne H0) as (Hs & Hl & H00).
  set (p := normalize_tar_path path) in *. apply keeps_bind_reads. intros dd Edd.
  rewrite (dotdot_component_exact _ p (replicate (255 - length p) 0)) in Edd; [| |done|rewrite length_app, length_replicate; lia].
  2: { f_equal. replace (256 - length p)%nat with (S (255 - length p)) by lia. done. }
  injection Edd as Edd. apply keeps_bind_reads. intros x _. set (adv := u64 _).
  case_bool_decide as Hd; subst dd; cbn [Z.eqb negb]; [case_match; apply keeps_ret|].
  assert (Hp : safe p) by (split_and!; done).
  do 3 (apply keeps_bind_reads; intros ? _). destruct (normalize_runtime_ids _) as [fuid fgid]. case_match; [apply keeps_ret|].
  apply keeps_bind_reads. intros ty _. destruct (ty =? 53).
  { apply keeps_bind; [apply keeps_calls; intros v; by apply mkdir_p_safe|]. intros ret. case_match; [apply keeps_ret|].
    apply keeps_bind; [apply keeps_calls; intros v; by apply Hset|]. intros _. apply keeps_ret. }
  destruct ((ty =? 48) || (ty =? 0)).
  { apply keeps_bind; [apply keeps_calls; intros v; by apply import_file_safe|]. intros ret. case_match; apply keeps_ret. }
  case_match; [|apply keeps_ret]. apply keeps_bind_reads. intros c _. case_match; [|apply keeps_ret].
  apply keeps_bind_reads. intros link _. apply keeps_bind; [by apply import_symlink_safe|]. intros dn. apply keeps_ret.
Qed.

(** C28. The importer changes nothing outside of the tree it unpacks into.  Every
    directory, file and inode it creates, writes or modifies is named by an
    absolute path of at most 255 bytes without a ".." component, whatever the
    archive contains; other paths are only opened for reading.  So a property of
    the file system that such changes keep holds after an import, and also where
    an import stops because it would read outside of the archive, and after any
    number of entries ([fuel]) of one that does not end. *)
Theorem initramfs_paths_safe fuel b v (Hv : Inv v) : Inv (initramfs_unpack_tar fuel b v).2.
Proof.
  revert v Hv. apply keeps_bind_reads. intros ok _. case_match; [apply keeps_ret|].
  generalize (Z.of_nat (length b)) as size. generalize (mkCounts 0 0) as n. generalize 0 as off. intros off n size.
  revert off n. induction fuel as [|fuel IH]; intros off n; cbn [unpack_loop]; [apply keeps_reads|].
  case_match; [|apply keeps_ret]. apply keeps_bind_reads. intros z _. case_match; [apply keeps_ret|].
  apply keeps_bind_reads. intros c _. case_match; [apply keeps_ret|]. apply keeps_bind; [apply import_entry_safe|].
  intros [e|[a n1]]; [apply keeps_ret|apply IH].
Qed.
End Safe.

(** ** Termination *)

(** Where the importer looks for a header: at the start, and behind each entry. *)
Inductive header_at (b : list Z) : Z -> Prop :=
  | header_first : header_at b 0
  | header_next off x : header_at b off -> byte b off <> Some 0 -> parse_octal b (off + 124) 12 = Some x ->
      header_at b (off + (512 + ALIGN_UP x 512)).

(** Each header of an entry ends its prefix, or is followed by 89 more bytes; and no
    entry is a link. *)
Definition headers_ok (b : list Z) : Prop :=
  forall off, header_at b off -> off + 512 <= Z.of_nat (length b) -> byte b off <> Some 0 ->
    ((exists k, off + 345 <= k < off + 512 /\ b !! Z.to_nat k = Some 0) \/ off + 600 < Z.of_nat (length b)) /\
    b !! Z.to_nat (off + 156) <> Some 50.

Lemma emit_str_total n p i k : 0 <= i <= k -> k < Z.of_nat (length p) -> p !! Z.to_nat k = Some 0 -> exists s, emit_str n p i = Some s.
Proof.
  revert i. induction n as [|n IH]; intros i Hi Hk Hz; cbn [emit_str]; destruct (byte_in p i) as (c & -> & Hc); [lia| |lia|];
    cbn [mbind option_bind]; destruct (Z.eqb_spec c 0) as [|Hc0]; try by eexists.
  destruct (decide (i = k)) as [->|]; [by rewrite Hz in Hc; simplify_eq|].
  destruct (IH (i + 1)) as [s ->]; [lia|done|done|]. by eexists.
Qed.

Lemma emit_str_short n p i : 0 <= i -> i + Z.of_nat n < Z.of_nat (length p) -> exists s, emit_str n p i = Some s.
Proof.
  revert i. induction n as [|n IH]; intros i Hi Hk; cbn [emit_str]; destruct (byte_in p i) as (c & -> & Hc); [lia| |lia|];
    cbn [mbind option_bind]; destruct (Z.eqb_spec c 0) as [|Hc0]; try by eexists.
  destruct (IH (i + 1)) as [s ->]; [lia|lia|]. by eexists.
Qed.

Lemma read_str_total n p i : 0 <= i -> i + Z.of_nat n <= Z.of_nat (length p) -> exists s, read_str n p i = Some s.
Proof.
  revert i. induction n as [|n IH]; intros i Hi Hn; cbn [read_str]; [by eexists|].
  destruct (byte_in p i) as (c & -> & _); [lia|]. cbn [mbind option_bind]. destruct (c =? 0); [by eexists|].
  destruct (IH (i + 1)) as [s ->]; [lia|lia|]. by eexists.
Qed.

Lemma entry_path_total b off : 0 <= off -> off + 512 <= Z.of_nat (length b) ->
  (exists k, off + 345 <= k < off + 512 /\ b !! Z.to_nat k = Some 0) \/ off + 600 < Z.of_nat (length b) ->
  exists p, entry_path b off = Some p.
Proof.
  intros Ho Hl Hpre. unfold entry_path. destruct (byte_in b (off + 345)) as (c & -> & _); [lia|]. cbn [mbind option_bind].
  destruct (negb (c =? 0)).
  - assert (He : exists pre, emit_str 255 b (off + 345) = Some pre).
    { destruct Hpre as [(k & Hk & Hz)|Hlong]; [apply (emit_str_total 255 b (off + 345) k); [lia|lia|done]|apply emit_str_short; lia]. }
    destruct He as [pre ->]. cbn [mbind option_bind].
    destruct (_ =? 255)%nat; [by eexists|]. destruct (_ =? 254)%nat; [by eexists|].
    destruct (emit_str_short (254 - length pre) b off) as [name ->]; [lia|lia|]. by eexists.
  - destruct (read_str_total 255 b off) as [s ->]; [lia|lia|]. by eexists.
Qed.

Section Total.
Context {V : Type} `{Vfs V}.

Lemma import_entry_total fuel b off n : headers_ok b -> header_at b off -> byte b off <> Some 0 -> 0 <= off -> off + 512 <= Z.of_nat (length b) ->
  total (import_entry fuel b (Z.of_nat (length b)) off n).
Proof.
  intros Hb Hat Hnz Ho Hl. destruct (Hb off Hat Hl Hnz) as [Hpre Hty]. unfold import_entry.
  destruct (entry_path_total b off Ho Hl Hpre) as [path Epath]. apply (total_reads _ path _ Epath).
  apply entry_path_spec in Epath as [Hne H0]. destruct (normalize_spec path Hne H0) as (Hs & Hlen & H00).
  set (p := normalize_tar_path path) in *.
  assert (Hdd : exists dd, zig_path_has_dotdot_component (Some (p ++ replicate (256 - length p) 0)) 256 = Some dd).
  { eexists. apply (dotdot_component_exact _ p (replicate (255 - length p) 0)); [|done|rewrite length_app, length_replicate; lia].
    f_equal. replace (256 - length p)%nat with (S (255 - length p)) by lia. done. }
  destruct Hdd as [dd Edd]. apply (total_reads _ dd _ Edd).
  destruct (octal_total b (off + 124) 12) as [x Ex]; [lia|lia|lia|]. apply (total_reads _ x _ Ex).
  destruct (negb _); [destruct (_ >? _); apply total_ret|].
  destruct (octal_total b (off + 100) 8) as [m Em]; [lia|lia|lia|]. apply (total_reads _ m _ Em).
  destruct (octal_total b (off + 108) 8) as [u Eu]; [lia|lia|lia|]. apply (total_reads _ u _ Eu).
  destruct (octal_total b (off + 116) 8) as [g Eg]; [lia|lia|lia|]. apply (total_reads _ g _ Eg).
  destruct (normalize_runtime_ids p) as [fuid fgid]. destruct (_ >? _); [apply total_ret|].
  destruct (byte_in b (off + 156)) as (ty & Eb & Ety); [lia|]. apply (total_reads _ ty _ Eb).
  destruct (ty =? 53); [apply total_calls; intros ret; case_match; [apply total_ret|apply total_calls; intros _; apply total_ret]|].
  destruct ((ty =? 48) || (ty =? 0)); [apply total_calls; intros ret; case_match; apply total_ret|].
  destruct (Z.eqb_spec ty 50) as [->|]; [done|apply total_ret].
Qed.

Lemma unpack_loop_total fuel b off n : headers_ok b -> header_at b off -> Z.of_nat (length b) < 2 ^ 63 -> 0 <= off <= Z.of_nat (length b) ->
  Z.of_nat (length b) - off < 512 * Z.of_nat fuel -> total (unpack_loop fuel b (Z.of_nat (length b)) off n).
Proof.
  intros Hb Hat Hmax. revert off n Hat. induction fuel as [|fuel IH]; intros off n Hat Ho Hf; [lia|]. cbn [unpack_loop].
  destruct (Z.leb_spec (off + 512) (Z.of_nat (length b))) as [Hin|]; [|apply total_ret].
  destruct (zero_block_agree b off) as (zb & _ & Ez); [lia|lia|]. apply (total_reads _ _ _ Ez). destruct (negb _); [apply total_ret|].
  destruct (byte_in b off) as (c & Ec & _); [lia|]. apply (total_reads _ _ _ Ec). destruct (Z.eqb_spec c 0) as [|Hc]; [apply total_ret|].
  assert (Hnz : byte b off <> Some 0) by (rewrite Ec; congruence).
  destruct (size_field b (off + 124)) as (x & _ & Ex & Hx); [lia|lia|]. destruct (align512_spec x Hx) as [_ Hal]. intros v.
  destruct (import_entry_total fuel b off n Hb Hat Hnz ltac:(lia) Hin v) as (r & v1 & Er).
  pose proof (import_entry_advance b _ fuel off n x Ex v r v1 Er) as Ha. cbv zeta in Ha. rewrite u64_small in Ha by lia.
  unfold mbind, io_bind. rewrite Er. destruct r as [[e n1]|[a n1]]; [by eexists _, _|]. destruct Ha as [-> Ha].
  apply IH; [by apply header_next|lia|lia].
Qed.

End Total.

(** ** Normalisation *)

(** A component that the normalisation copies as it is. *)
Definition plain (c : list Z) : Prop := c <> [] /\ (47 ∉ c) /\ (0 ∉ c) /\ last c <> Some 46.

(** The path of the components. *)
Fixpoint join (cs : list (list Z)) : list Z :=
  match cs with
  | [] => []
  | c :: cs => 47 :: c ++ join cs
  end.

Lemma norm_copies c s fuel w : plain c -> (w + length c <= 255)%nat -> (length c <= fuel)%nat -> s = [] \/ chr s 0 = 47 ->
  norm_loop fuel (c ++ s) w = c ++ norm_loop (fuel - length c) s (w + length c).
Proof.
  intros (_ & Hs & H0 & Hl). revert fuel w. induction c as [|x c IH]; intros fuel w Hw Hf Hn.
  { cbn. by rewrite Nat.sub_0_r, Nat.add_0_r. }
  apply not_elem_of_cons in Hs as [Hx Hs]. apply not_elem_of_cons in H0 as [Hx0 H0]. cbn [length] in *.
  destruct fuel as [|fuel]; [lia|]. cbn [app norm_loop].
  destruct (Nat.ltb_spec w 255); [|lia]. cbn [negb]. rewrite !(proj2 (Z.eqb_neq x 47)) by congruence. cbn [andb].
  destruct ((x =? 46) && _) eqn:E.
  { exfalso. apply andb_true_iff in E as [->%Z.eqb_eq E]. destruct c as [|y c]; [by apply Hl|]. cbn in E.
    apply not_elem_of_cons in Hs as [Hy _]. apply not_elem_of_cons in H0 as [Hy0 _]. lia. }
  f_equal. rewrite IH; [f_equal; f_equal; lia|done|done| |lia|lia|done].
  intros Hc. apply Hl. by destruct c.
Qed.

Lemma norm_join cs fuel w : Forall plain cs -> (w + length (join cs) <= 255)%nat -> (length (join cs) <= fuel)%nat ->
  norm_loop fuel (join cs) w = join cs.
Proof.
  intros Hcs. revert fuel w. induction Hcs as [|c cs Hc Hcs IH]; intros fuel w Hw Hf; [by destruct fuel|].
  cbn [join] in *. cbn [length] in *. rewrite length_app in *. destruct fuel as [|fuel]; [lia|]. cbn [norm_loop].
  pose proof Hc as (Hne & Hs & H0 & Hl). destruct c as [|x c]; [done|]. unfold chr. cbn [app nth] in *.
  apply not_elem_of_cons in Hs as [Hx Hs]. apply not_elem_of_cons in H0 as [Hx0 H0].
  destruct (Nat.ltb_spec w 255); [|cbn in Hw; lia]. cbn [negb].
  rewrite (proj2 (Z.eqb_neq x 47)), (proj2 (Z.eqb_eq 47 47)), (proj2 (Z.eqb_neq 47 46)) by congruence. cbn [andb].
  destruct ((x =? 46) && _) eqn:E.
  { exfalso. apply andb_true_iff in E as [->%Z.eqb_eq E]. destruct c as [|y c]; [by apply Hl|]. cbn in E.
    apply not_elem_of_cons in Hs as [Hy _]. apply not_elem_of_cons in H0 as [Hy0 _]. lia. }
  f_equal. rewrite (norm_copies (x :: c) (join cs)); [|done|cbn in *; lia|cbn in *; lia|destruct cs; [by left|by right]].
  change (x :: c ++ join cs) with ((x :: c) ++ join cs). f_equal. apply IH; cbn in *; lia.
Qed.

Lemma join_last cs : cs <> [] -> Forall plain cs -> exists l x, join cs = l ++ [x] /\ x <> 47.
Proof.
  intros Hne Hcs. induction Hcs as [|c cs (Hc0 & Hs & _) Hcs IH]; [done|]. cbn [join]. destruct cs as [|c' cs].
  - destruct (exists_last Hc0) as (l & x & ->). exists (47 :: l), x. cbn. rewrite app_nil_r. split; [done|]. intros ->. apply Hs. set_solver.
  - destruct IH as (l & x & -> & Hx); [done|]. exists (47 :: c ++ l), x. cbn. by rewrite <- app_assoc.
Qed.

(** Normalisation keeps clean paths: a path of at most 255 bytes made of
    non-empty components, none of which ends in a dot, is what the importer uses,
    with or without slashes added in front. *)
Theorem normalize_clean_path cs k (Hcs : Forall plain cs) (Hne : cs <> []) (Hlen : (length (join cs) <= 255)%nat) :
  normalize_tar_path (replicate k 47 ++ join cs) = join cs.
Proof.
  destruct Hcs as [|c cs Hc Hcs]; [done|]. cbn [join] in *. pose proof Hc as (Hc0 & Hs & H0 & Hl).
  assert (Esk : skip_slashes (replicate k 47 ++ 47 :: c ++ join cs) = c ++ join cs).
  { induction k as [|k IH]; [|exact IH]. cbn. destruct c as [|x c]; [done|]. apply not_elem_of_cons in Hs as [Hx _].
    cbn. by rewrite (proj2 (Z.eqb_neq x 47)) by congruence. }
  unfold normalize_tar_path. destruct (replicate k 47 ++ _) as [|y l] eqn:Ey; [by destruct k|]. rewrite Esk.
  cbn [length] in Hlen. rewrite length_app in Hlen.
  rewrite norm_copies; [|done|lia|rewrite length_app; lia|destruct cs; [by left|by right]].
  rewrite norm_join; [|done|lia|rewrite length_app; lia].
  destruct (join_last (c :: cs)) as (l' & x & El & Hx); [done|by constructor|]. cbn [join] in El. rewrite El.
  unfold strip_slash, chr. rewrite length_app. cbn [length]. rewrite Nat.add_sub, app_nth2, Nat.sub_diag by lia. cbn [nth].
  by rewrite (proj2 (Z.eqb_neq x 47)), andb_false_r.
Qed.

(** "usr/bin" in an archive. *)
Lemma normalize_clean_path_witness :
  normalize_tar_path ([47; 47] ++ join [[117; 115; 114]; [98; 105; 110]]) = join [[117; 115; 114]; [98; 105; 110]].
Proof.
  apply (normalize_clean_path [[117; 115; 114]; [98; 105; 110]] 2); [|discriminate|cbn; lia].
  repeat constructor; try discriminate; rewrite !not_elem_of_cons; split_and!; (lia || apply not_elem_of_nil).
Defined.

(** Other paths are changed: "a/./b" and "a./b" become "/ab", "../x" becomes
    "/.x", and "..." becomes "/..". *)
Lemma normalize_mangles :
  normalize_tar_path [47; 97; 47; 46; 47; 98] = [47; 97; 98] /\ normalize_tar_path [97; 46; 47; 98] = [47; 97; 98] /\
  normalize_tar_path [46; 46; 47; 120] = [47; 46; 120] /\ normalize_tar_path [46; 46; 46] = [47; 46; 46].
Proof. vm_compute. done. Qed.

(** ** A file system that records what is changed *)

Definition log : Type := list (list Z).

#[local] Instance log_vfs : Vfs log := {
  vfs_mkdir p _ v := (0, p :: v);
  vfs_create p _ v := (0, p :: v);
  vfs_open p flags _ v := (inr 0, if flags =? O_RDONLY then v else p :: v);
  vfs_read _ _ pos v := (0, [], pos, v);
  vfs_write _ data pos v := (Z.of_nat (length data), pos + Z.of_nat (length data), v);
  vfs_close _ v := (0, v);
  vfs_set_inode p _ _ _ v := p :: v
}.

(** A header for a name and a prefix, of a type and a size in octal digits. *)
Definition header (name prefix size : list Z) (type : Z) : list Z :=
  name ++ replicate (124 - length name) 0 ++ size ++ replicate (32 - length size) 0 ++ [type] ++ replicate 188 0 ++ prefix ++
  replicate (167 - length prefix) 0.

(** "etc/motd" with three bytes, and the end of the archive. *)
Definition archive_1 : list Z :=
  header [101; 116; 99; 47; 109; 111; 116; 100] [] [51] 48 ++ [104; 105; 10] ++ replicate 509 0 ++ replicate 1024 0.

Lemma archive_1_unpacked :
  initramfs_unpack_tar 10 archive_1 ([] : log)
  = (Some (0, mkCounts 1 0), [[47; 101; 116; 99; 47; 109; 111; 116; 100]; [47; 101; 116; 99; 47; 109; 111; 116; 100];
                              [47; 101; 116; 99; 47; 109; 111; 116; 100]; [47; 101; 116; 99]]).
Proof. vm_compute. reflexivity. Qed.

Lemma initramfs_accepted_unpacks_witness :
  exists ret n v', initramfs_unpack_tar 10 archive_1 ([] : log) = (Some (ret, n), v') /\ ret = 0.
Proof.
  eexists _, _, _. split; [exact archive_1_unpacked|].
  apply (initramfs_accepted_unpacks 10 archive_1 ([] : log) _ _ (mkCounts 1 0)) with (4 := archive_1_unpacked).
  - vm_compute. reflexivity.
  - vm_compute. reflexivity.
  - vm_compute. discriminate.
Defined.

(** Also for an archive that makes the importer read past its end, behind the
    first file. *)
Definition archive_2 : list Z := take 1024 archive_1 ++ header [97] (replicate 167 98) [48] 48.

Lemma initramfs_paths_safe_witness :
  let r := initramfs_unpack_tar 10 archive_2 ([] : log) in r.1 = None /\ length r.2 = 4%nat /\ Forall safe r.2.
Proof.
  split; [vm_compute; reflexivity|]. split; [vm_compute; reflexivity|].
  apply (initramfs_paths_safe (Forall safe)); try (intros; cbn; by constructor); try (intros; done).
  intros p flags m v [Hp| ->] Hv; [|done]. cbn. destruct (flags =? O_RDONLY); [done|by constructor].
Defined.

(** "notes" with 600 bytes of text, and the end of the archive. *)
Definition archive_3 : list Z :=
  header [110; 111; 116; 101; 115] [] [49; 49; 51; 48] 48 ++ replicate 600 50 ++ replicate 424 0 ++ replicate 1024 0.

Lemma archive_3_header off : header_at archive_3 off -> off = 0 \/ off = 1536.
Proof.
  induction 1 as [|off x _ [-> | ->] Hnz Ex]; [by left| |destruct Hnz; vm_compute; reflexivity].
  assert (E : parse_octal archive_3 (0 + 124) 12 = Some 600) by (vm_compute; reflexivity). rewrite E in Ex. injection Ex as <-. by right.
Qed.

Lemma archive_3_headers : headers_ok archive_3.
Proof.
  intros off [-> | ->]%archive_3_header Hl Hnz; [|destruct Hnz; vm_compute; reflexivity].
  split; [left; exists 345; split; [lia|vm_compute; reflexivity]|vm_compute; discriminate].
Qed.


(** A prefix that fills its field and the padding makes the importer read past the
    end of an archive that the scanner accepts. *)
Lemma prefix_overruns_archive :
  let b := header [97] (replicate 167 98) [48] 48 in
  zig_initramfs_scan (Some b) 512 = Some 0 /\ initramfs_unpack_tar 10 b ([] : log) = (None, []).
Proof. vm_compute. done. Qed.

(** A name of exactly 100 bytes runs into the mode that follows it. *)
Lemma long_name_takes_mode :
  let b := header (replicate 100 97 ++ [48; 54; 52; 52]) [] [48] 48 in
  head (initramfs_unpack_tar 10 b ([] : log)).2 = Some (47 :: replicate 100 97 ++ [48; 54; 52; 52]).
Proof. vm_compute. done. Qed.

(** An archive in the cpio format passes the scanner, and the importer, which only
    reads tar, takes it for an empty archive. *)
Lemma cpio_accepted_not_imported :
  let b := CPIO_MAGIC ++ replicate 88 48 ++ replicate 6 48 ++ [48; 66] ++ replicate 8 48 ++ TRAILER_NAME ++ replicate 4 0 in
  zig_initramfs_scan (Some b) (Z.of_nat (length b)) = Some 0 /\ initramfs_unpack_tar 10 b ([] : log) = (Some (0, mkCounts 0 0), []).
Proof. vm_compute. done. Qed.
