(* ===== verification/Printf.v ===== *)
(** * Formatted printing: lib/printf.c and vsnprintf of kernel/printk.c

    A format is the list of its bytes before the terminator, and the variable
    arguments are a list.  The output functions return the characters they give to
    the output callback, in order; the callback of the buffer stores them in
    memory.  Reading an argument that is missing or of the wrong kind, and reading
    past the end of the format, is a fault ([None]).  Lengths and the differences
    of widths and lengths are exact: strings are shorter than 2^31 bytes. *)

From S2P Require Import Prelude CString.

(** An argument: an integer in its 64-bit slot, a string or NULL, or the address
    of an [int]. *)
Inductive arg :=
  | AInt (x : Z)
  | AStr (s : option (list Z))
  | APtr (p : Z).

Definition va_int (f : Z -> Z) (args : list arg) : option (Z * list arg) :=
  match args with AInt x :: args => Some (f x, args) | _ => None end.

Definition chars_null : list Z := [40; 110; 117; 108; 108; 41].

(** ** Output *)

Definition output_padding (count pad : Z) : list Z := replicate (Z.to_nat count) pad.

(** [digits[d]] of the two tables. *)
Definition digit_char (uppercase : bool) (d : Z) : Z :=
  if d <? 10 then 48 + d else (if uppercase then 65 else 97) + (d - 10).

(** The digits in [buf], least significant first. *)
Fixpoint rev_digits (fuel : nat) (value base : Z) (uppercase : bool) : list Z :=
  match fuel with
  | O => []
  | S fuel => if value >? 0 then digit_char uppercase (value mod base) :: rev_digits fuel (value / base) base uppercase else []
  end.

Definition digits (value base : Z) (uppercase : bool) : list Z :=
  rev (if value =? 0 then [48] else rev_digits 64 value base uppercase).

Definition output_unsigned (value base width pad : Z) (uppercase : bool) : list Z :=
  let ds := digits value base uppercase in
  output_padding (width - Z.of_nat (length ds)) pad ++ ds.

(** The negation wraps for the least integer, as the processor does it. *)
Definition output_signed (value width pad : Z) : list Z :=
  let negative := value <? 0 in
  let value := if negative then s64 (- value) else value in
  let temp := u64 value in
  let len := (if negative && negb (temp =? 0) then 1 else 0) + Z.of_nat (length (digits temp 10 false)) in
  let first := (pad =? 48) && negative in
  (if first then [45] else []) ++ output_padding (width - len) pad ++ (if negative && negb first then [45] else []) ++
  output_unsigned temp 10 0 32 false.

(** ** Conversion specifications *)

Record flags := mkFlags { zero_pad : bool; left_justify : bool; show_sign : bool; space_sign : bool; alt_form : bool }.

Fixpoint parse_flags (fmt : list Z) (f : flags) : flags * list Z :=
  match fmt with
  | c :: fmt' =>
    if c =? 48 then parse_flags fmt' (mkFlags true (left_justify f) (show_sign f) (space_sign f) (alt_form f))
    else if c =? 45 then parse_flags fmt' (mkFlags (zero_pad f) true (show_sign f) (space_sign f) (alt_form f))
    else if c =? 43 then parse_flags fmt' (mkFlags (zero_pad f) (left_justify f) true (space_sign f) (alt_form f))
    else if c =? 32 then parse_flags fmt' (mkFlags (zero_pad f) (left_justify f) (show_sign f) true (alt_form f))
    else if c =? 35 then parse_flags fmt' (mkFlags (zero_pad f) (left_justify f) (show_sign f) (space_sign f) true)
    else (f, fmt)
  | [] => (f, [])
  end.

Fixpoint parse_number (fmt : list Z) (n : Z) : Z * list Z :=
  match fmt with
  | c :: fmt' => if (48 <=? c) && (c <=? 57) then parse_number fmt' (s32 (n * 10 + (c - 48))) else (n, fmt)
  | [] => (n, [])
  end.

(** A star takes the next argument. *)
Definition parse_star (fmt : list Z) (args : list arg) : option (Z * list Z * list arg) :=
  match fmt with
  | 42 :: fmt => match va_int s32 args with Some (n, args) => Some (n, fmt, args) | None => None end
  | _ => let '(n, fmt) := parse_number fmt 0 in Some (n, fmt, args)
  end.

Definition parse_precision (fmt : list Z) (args : list arg) : option (Z * list Z * list arg) :=
  match fmt with
  | 46 :: fmt => parse_star fmt args
  | _ => Some (-1, fmt, args)
  end.

Inductive length_mod := LNone | LShort | LChar | LLong | LLongLong.

Definition parse_length (fmt : list Z) : length_mod * list Z :=
  match fmt with
  | 104 :: 104 :: fmt => (LChar, fmt)
  | 104 :: fmt => (LShort, fmt)
  | 108 :: 108 :: fmt => (LLongLong, fmt)
  | 108 :: fmt => (LLong, fmt)
  | 122 :: fmt | 116 :: fmt => (LLongLong, fmt)
  | _ => (LNone, fmt)
  end.

Definition s16 (x : Z) : Z := (x + 2 ^ 15) mod 2 ^ 16 - 2 ^ 15.
Definition s8 (x : Z) : Z := (x + 2 ^ 7) mod 2 ^ 8 - 2 ^ 7.

Definition signed_arg (l : length_mod) (args : list arg) : option (Z * list arg) :=
  va_int (match l with LLongLong | LLong => s64 | LShort => fun x => s16 (s32 x) | LChar => fun x => s8 (s32 x) | LNone => s32 end) args.

Definition unsigned_arg (l : length_mod) (args : list arg) : option (Z * list arg) :=
  va_int (match l with LLongLong | LLong => u64 | LShort => fun x => u32 x mod 2 ^ 16 | LChar => fun x => u8 (u32 x) | LNone => u32 end) args.

(** ** Conversions *)

Definition print_signed (f : flags) (width pad val : Z) : list Z :=
  let sign := (val >=? 0) && (show_sign f || space_sign f) in
  let width := if sign && (width >? 0) then width - 1 else width in
  (if sign then [if show_sign f then 43 else 32] else []) ++ output_signed val width pad.

Definition print_hex (f : flags) (width pad val : Z) (upper : bool) : list Z :=
  let alt := alt_form f && negb (val =? 0) in
  (if alt then [48; if upper then 88 else 120] else []) ++
  output_unsigned val 16 (if alt then s32 (width - 2) else width) pad upper.

Definition print_octal (f : flags) (width pad val : Z) : list Z :=
  let alt := alt_form f && negb (val =? 0) in
  (if alt then [48] else []) ++ output_unsigned val 8 (if alt then s32 (width - 1) else width) pad false.

Definition print_string (f : flags) (width precision : Z) (s : list Z) : list Z :=
  let len := Z.of_nat (length s) in
  let len := if (precision >=? 0) && (precision <? len) then precision else len in
  (if left_justify f then [] else output_padding (width - len) 32) ++ take (Z.to_nat len) s ++
  (if left_justify f then output_padding (width - len) 32 else []).

Definition print_char (f : flags) (width c : Z) : list Z :=
  (if left_justify f then [] else output_padding (width - 1) 32) ++ [c] ++
  (if left_justify f then output_padding (width - 1) 32 else []).

(** The conversion [c], after [n] characters: the characters, the arguments left
    and what is stored through a pointer. *)
Definition convert (c : Z) (f : flags) (width precision : Z) (l : length_mod) (args : list arg) (n : Z)
    : option (list Z * list arg * list (Z * Z)) :=
  let pad := if zero_pad f && negb (left_justify f) then 48 else 32 in
  if (c =? 100) || (c =? 105) then
    match signed_arg l args with Some (v, args) => Some (print_signed f width pad v, args, []) | None => None end
  else if c =? 117 then
    match unsigned_arg l args with Some (v, args) => Some (output_unsigned v 10 width pad false, args, []) | None => None end
  else if (c =? 120) || (c =? 88) then
    match unsigned_arg l args with Some (v, args) => Some (print_hex f width pad v (c =? 88), args, []) | None => None end
  else if c =? 111 then
    match unsigned_arg l args with Some (v, args) => Some (print_octal f width pad v, args, []) | None => None end
  else if c =? 112 then
    match va_int u64 args with Some (v, args) => Some ([48; 120] ++ output_unsigned v 16 16 48 false, args, []) | None => None end
  else if c =? 115 then
    match args with AStr s :: args => Some (print_string f width precision (default chars_null s), args, []) | _ => None end
  else if c =? 99 then
    match va_int u8 args with Some (v, args) => Some (print_char f width v, args, []) | None => None end
  else if c =? 110 then
    match args with APtr p :: args => Some ([], args, [(p, n)]) | _ => None end
  else Some ([37; c], args, []).

(** ** The formatter *)

(** The characters printed from [fmt] on, after [n] characters, and the stores.
    Every turn consumes part of the format. *)
Fixpoint do_vprintf (fuel : nat) (fmt : list Z) (args : list arg) (n : Z) : option (list Z * list (Z * Z)) :=
  match fuel with
  | O => None
  | S fuel =>
    match fmt with
    | [] => Some ([], [])
    | c :: fmt =>
      if negb (c =? 37) then
        '(out, st) ← do_vprintf fuel fmt args (s32 (n + 1)); Some (c :: out, st)
      else
      match fmt with
      | 37 :: fmt => '(out, st) ← do_vprintf fuel fmt args (s32 (n + 1)); Some (37 :: out, st)
      | _ =>
        let '(f, fmt) := parse_flags fmt (mkFlags false false false false false) in
        '(width, fmt, args) ← parse_star fmt args;
        '(precision, fmt, args) ← parse_precision fmt args;
        let '(l, fmt) := parse_length fmt in
        match fmt with
        | [] => None
        | c :: fmt =>
          '(now, args, st) ← convert c f width precision l args n;
          '(out, st') ← do_vprintf fuel fmt args (s32 (n + Z.of_nat (length now)));
          Some (now ++ out, st ++ st')
        end
      end
    end
  end.

(** ** Buffers *)

(** [buffer_output]: the position, and the memory. *)
Definition buffer_output (buf size : Z) (bs : Z * memory) (c : Z) : Z * memory :=
  let '(pos, m) := bs in
  (u64 (pos + 1), if pos <? u64 (size - 1) then store8 (buf + pos) c m else m).

Definition vformat (fmt : list Z) (args : list arg) : option (list Z * list (Z * Z)) := do_vprintf (S (length fmt)) fmt args 0.

(** The count that is returned, the stores through pointers, and the memory. *)
Definition vsprintf (buf : Z) (fmt : list Z) (args : list arg) (m : memory) : option (Z * list (Z * Z) * memory) :=
  '(out, st) ← vformat fmt args;
  let '(pos, m) := fold_left (buffer_output buf (2 ^ 64 - 1)) out (0, m) in
  Some (s32 (Z.of_nat (length out)), st, store8 (buf + pos) 0 m).

Definition vsnprintf_full (buf size : Z) (fmt : list Z) (args : list arg) (m : memory) : option (Z * list (Z * Z) * memory) :=
  if size =? 0 then Some (0, [], m) else
  '(out, st) ← vformat fmt args;
  let '(pos, m) := fold_left (buffer_output buf size) out (0, m) in
  Some (s32 (Z.of_nat (length out)), st, store8 (if pos <? size then buf + pos else buf + (size - 1)) 0 m).

(** ** vsnprintf of printk.c *)

(** [vsnprintf_num]: [acc] is what the buffer holds; at most 24 digits. *)
Fixpoint emit (size : Z) (acc l : list Z) : list Z :=
  match l with
  | [] => acc
  | c :: l => if Z.of_nat (length acc) + 1 <? size then emit size (acc ++ [c]) l else acc
  end.

Definition vsnprintf_num (acc : list Z) (size num base : Z) (upper : bool) : list Z :=
  emit size acc (rev (if num =? 0 then [48] else rev_digits 24 num base upper)).

Inductive printk_len := KNone | KLong | KLongLong.

Definition printk_length (fmt : list Z) : printk_len * list Z :=
  match fmt with
  | 108 :: 108 :: fmt => (KLongLong, fmt)
  | 108 :: fmt => (KLong, fmt)
  | 122 :: fmt => (KLongLong, fmt)
  | _ => (KNone, fmt)
  end.

Definition printk_signed (l : printk_len) : Z -> Z := match l with KNone => s32 | _ => s64 end.
Definition printk_unsigned (l : printk_len) : Z -> Z := match l with KNone => u32 | _ => u64 end.

(** One conversion. *)
Definition printk_convert (c : Z) (l : printk_len) (args : list arg) (size : Z) (acc : list Z) : option (list Z * list arg) :=
  let room := Z.of_nat (length acc) + 1 <? size in
  if c =? 115 then
    match args with AStr s :: args => Some (emit size acc (default chars_null s), args) | _ => None end
  else if (c =? 100) || (c =? 105) then
    match va_int (printk_signed l) args with
    | Some (v, args) =>
      let neg := (v <? 0) && room in
      let acc := if neg then acc ++ [45] else acc in
      Some (vsnprintf_num acc size (u64 (if neg then s64 (- v) else v)) 10 false, args)
    | None => None
    end
  else if c =? 117 then
    match va_int (printk_unsigned l) args with Some (v, args) => Some (vsnprintf_num acc size v 10 false, args) | None => None end
  else if c =? 120 then
    match va_int (printk_unsigned l) args with Some (v, args) => Some (vsnprintf_num acc size v 16 false, args) | None => None end
  else if c =? 88 then
    match va_int (printk_unsigned l) args with Some (v, args) => Some (vsnprintf_num acc size v 16 true, args) | None => None end
  else if c =? 112 then
    match va_int u64 args with
    | Some (v, args) =>
      let acc := if Z.of_nat (length acc) + 2 <? size then acc ++ [48; 120] else acc in
      Some (vsnprintf_num acc size v 16 false, args)
    | None => None
    end
  else if c =? 99 then
    match va_int u8 args with Some (v, args) => Some (acc ++ [v], args) | None => None end
  else
    let acc := acc ++ [37] in
    Some (if negb (c =? 0) && (Z.of_nat (length acc) + 1 <? size) then acc ++ [c] else acc, args).

(** The characters in the buffer before the terminator; a format that ends in a
    conversion is read as the conversion 0. *)
Fixpoint printk_loop (fuel : nat) (fmt : list Z) (args : list arg) (size : Z) (acc : list Z) : option (list Z) :=
  match fuel with
  | O => None
  | S fuel =>
    match fmt with
    | [] => Some acc
    | c :: fmt =>
      if negb (Z.of_nat (length acc) + 1 <? size) then Some acc else
      if negb (c =? 37) then printk_loop fuel fmt args size (acc ++ [c]) else
      match fmt with
      | 37 :: fmt => printk_loop fuel fmt args size (acc ++ [37])
      | _ =>
        let '(l, fmt) := printk_length fmt in
        '(acc, args) ← printk_convert (hd 0 fmt) l args size acc;
        printk_loop fuel (tl fmt) args size acc
      end
    end
  end.

Definition vsnprintf (size : Z) (fmt : list Z) (args : list arg) : option (list Z) :=
  if size =? 0 then Some [] else printk_loop (S (length fmt)) fmt args size [].
