(* ===== verification/PrintfProps.v ===== *)
(** * Printing stays in the buffer and can be read back

    What vsnprintf_full leaves in memory, that the numbers it prints are read back
    by the functions of string.c, and that the two formatters of the kernel
    agree. *)

From S2P Require Import Prelude CString Printf.

(** ** Digits *)

(** The number that a list of digits denotes, most significant first. *)
Definition value_of (base : Z) (l : list Z) : Z := fold_left (fun n c => n * base + default 0 (digit_of c)) l 0.

Lemma value_of_snoc base l c : value_of base (l ++ [c]) = value_of base l * base + default 0 (digit_of c).
Proof. unfold value_of. by rewrite fold_left_app. Qed.

Lemma digit_char_of upper d : 0 <= d < 16 -> digit_of (digit_char upper d) = Some d.
Proof.
  intros Hd. unfold digit_char, digit_of. destruct (Z.ltb_spec d 10).
  - replace ((48 + d >=? 48) && (48 + d <=? 57)) with true by lia. f_equal. lia.
  - destruct upper; [replace ((65 + (d - 10) >=? 48) && (65 + (d - 10) <=? 57)) with false by lia;
      replace ((65 + (d - 10) >=? 97) && (65 + (d - 10) <=? 102)) with false by lia;
      replace ((65 + (d - 10) >=? 65) && (65 + (d - 10) <=? 70)) with true by lia; f_equal; lia|].
    replace ((97 + (d - 10) >=? 48) && (97 + (d - 10) <=? 57)) with false by lia.
    replace ((97 + (d - 10) >=? 97) && (97 + (d - 10) <=? 102)) with true by lia. f_equal. lia.
Qed.

(** Digits of a base: those of value less than it. *)
Definition is_digit_of (base c : Z) : Prop := exists d, digit_of c = Some d /\ 0 <= d < base.

Section Digits.
Context (base : Z) (upper : bool) (Hbase : 2 <= base <= 16).

Lemma rev_digits_spec fuel v : 0 <= v < base ^ Z.of_nat fuel ->
  value_of base (rev (rev_digits fuel v base upper)) = v /\ Forall (is_digit_of base) (rev_digits fuel v base upper).
Proof.
  revert v. induction fuel as [|fuel IH]; intros v Hv; cbn [rev_digits].
  - rewrite Z.pow_0_r in Hv. split; [cbn; lia|constructor].
  - destruct (Z.gtb_spec v 0); [|split; [cbn; lia|constructor]].
    rewrite Nat2Z.inj_succ, Z.pow_succ_r in Hv by lia. pose proof (Z.mod_pos_bound v base ltac:(lia)) as Hm.
    destruct (IH (v / base)) as [Ev Hd]. { split; [apply Z.div_pos; lia|]. apply Z.div_lt_upper_bound; lia. }
    split.
    + cbn [rev]. rewrite value_of_snoc, Ev, digit_char_of by lia. cbn. pose proof (Z.div_mod v base ltac:(lia)). lia.
    + constructor; [|done]. exists (v mod base). split; [apply digit_char_of; lia|done].
Qed.

(** More fuel than needed does not matter. *)
Lemma rev_digits_fuel fuel fuel' v : 0 <= v < base ^ Z.of_nat fuel -> (fuel <= fuel')%nat ->
  rev_digits fuel' v base upper = rev_digits fuel v base upper.
Proof.
  revert fuel' v. induction fuel as [|fuel IH]; intros fuel' v Hv Hf.
  - rewrite Z.pow_0_r in Hv. destruct fuel'; [done|]. cbn. by destruct (Z.gtb_spec v 0); [lia|].
  - destruct fuel' as [|fuel']; [lia|]. cbn [rev_digits]. destruct (Z.gtb_spec v 0); [|done]. f_equal. apply IH; [|lia].
    rewrite Nat2Z.inj_succ, Z.pow_succ_r in Hv by lia. split; [apply Z.div_pos; lia|]. apply Z.div_lt_upper_bound; lia.
Qed.

Lemma digits_spec v : 0 <= v < base ^ 64 ->
  value_of base (digits v base upper) = v /\ Forall (is_digit_of base) (digits v base upper) /\ digits v base upper <> [].
Proof.
  intros Hv. unfold digits. destruct (Z.eqb_spec v 0) as [->|].
  { split; [done|]. split; [|done]. repeat constructor. exists 0. split; [done|lia]. }
  destruct (rev_digits_spec 64 v Hv) as [Ev Hd]. split; [done|]. split; [by apply Forall_rev|].
  intros E. rewrite E in Ev. cbn in Ev. lia.
Qed.
End Digits.

Lemma digits_length v base upper : (length (digits v base upper) <= 64)%nat.
Proof.
  assert (Hr : forall fuel v, (length (rev_digits fuel v base upper) <= fuel)%nat).
  { intros fuel. induction fuel as [|fuel IH]; intros w; cbn [rev_digits]; [done|]. destruct (w >? 0); cbn [length]; [|lia]. specialize (IH (w / base)). lia. }
  unfold digits. rewrite length_rev. destruct (v =? 0); [cbn; lia|apply Hr].
Qed.

Lemma u64_digits base v : 10 <= base -> 0 <= v < 2 ^ 64 -> 0 <= v < base ^ 20.
Proof. intros Hb Hv. split; [lia|]. apply Z.lt_le_trans with (10 ^ 20); [lia|]. apply Z.pow_le_mono_l. lia. Qed.

Lemma is_digit_nz base c : is_digit_of base c -> c <> 0 /\ 0 <= c < 256.
Proof. intros (d & E & _). unfold digit_of in E. repeat case_match; simplify_eq; zbool; lia. Qed.

(** ** Buffers *)

(** The memory after [out] was given to the callback from position [pos] on. *)
Lemma buffer_fold buf size out pos m : 0 < size < 2 ^ 64 -> 0 <= pos -> pos + Z.of_nat (length out) < 2 ^ 64 ->
  exists m', fold_left (buffer_output buf size) out (pos, m) = (pos + Z.of_nat (length out), m') /\
    forall b, load8 b m' =
      if (buf + pos <=? b) && (b <? buf + Z.min (pos + Z.of_nat (length out)) (size - 1)) then u8 (nth (Z.to_nat (b - buf - pos)) out 0)
      else load8 b m.
Proof.
  intros Hs. revert pos m. induction out as [|c out IH]; intros pos m Hp Hl; cbn [fold_left length].
  - exists m. split; [f_equal; cbn; lia|]. intros b. range_false. done.
  - cbn [length] in Hl. unfold buffer_output at 2. rewrite !u64_small by lia.
    set (m1 := if pos <? size - 1 then _ else _). destruct (IH (pos + 1) m1) as (m' & E & Hm'); [lia|lia|].
    exists m'. split; [rewrite E; f_equal; lia|]. intros b. rewrite Hm'. unfold m1.
    replace (pos + 1 + Z.of_nat (length out)) with (pos + Z.of_nat (S (length out))) by lia.
    destruct (Z.ltb_spec pos (size - 1)) as [Hlt|Hge].
    + rewrite load8_store8. destruct (Z.eqb_spec b (buf + pos)) as [->|Hne].
      * range_false. range_true. by replace (buf + pos - buf - pos) with 0 by lia.
      * destruct ((buf + (pos + 1) <=? b) && _) eqn:E1; zbool.
        -- range_true. replace (Z.to_nat (b - buf - pos)) with (S (Z.to_nat (b - buf - (pos + 1)))) by lia. done.
        -- apply andb_false_iff in E1. rewrite Z.leb_gt, Z.ltb_ge in E1. by range_false.
    + range_false. by range_false.
Qed.

(** The string at [buf], from its bytes. *)
Lemma str_of_bytes buf m l : (forall i, 0 <= i < Z.of_nat (length l) -> load8 (buf + i) m = nth (Z.to_nat i) l 0) ->
  load8 (buf + Z.of_nat (length l)) m = 0 -> 0 ∉ l -> str buf m = l.
Proof.
  intros Hb Hz H0. assert (Hn : forall i, 0 <= i < Z.of_nat (length l) -> load8 (buf + i) m <> 0).
  { intros i Hi E. rewrite Hb in E by done. apply H0. rewrite <- E. apply list_elem_of_In, nth_In. lia. }
  rewrite (str_app buf m (Z.of_nat (length l))), str_nil, app_nil_r by (done || lia).
  apply list_eq. intros i. rewrite list_lookup_fmap. destruct (decide (i < length l)%nat) as [Hi|Hi].
  - rewrite lookup_seqZ_lt by lia. cbn. rewrite Hb by lia. replace (Z.to_nat (0 + Z.of_nat i)) with i by lia.
    destruct (lookup_lt_is_Some_2 l i Hi) as [x Hx]. by rewrite Hx, (nth_lookup_Some _ _ _ _ Hx).
  - rewrite lookup_seqZ_ge by lia. cbn. symmetry. apply lookup_ge_None. lia.
Qed.

Definition plain_chars (l : list Z) : Prop := Forall (fun c => 0 < c < 256) l.

Lemma nth_take_lt (l : list Z) n i : (i < n)%nat -> nth i (take n l) 0 = nth i l 0.
Proof. intros Hi. rewrite !nth_lookup, lookup_take_lt by done. done. Qed.

Lemma plain_nth l i : plain_chars l -> (i < length l)%nat -> u8 (nth i l 0) = nth i l 0.
Proof.
  intros Hl Hi. destruct (lookup_lt_is_Some_2 l i Hi) as [x Hx]. rewrite (nth_lookup_Some _ _ _ _ Hx).
  pose proof (Forall_lookup_1 _ _ _ _ Hl Hx) as Hr. cbn in Hr. unfold u8. apply Z.mod_small. lia.
Qed.

(** What the buffer holds in the end: the output as far as it fits, and its
    terminator; nothing else is touched. *)
Lemma buffer_result buf size out m : 0 < size < 2 ^ 64 -> Z.of_nat (length out) < 2 ^ 64 - 1 -> plain_chars out ->
  exists pos m', fold_left (buffer_output buf size) out (0, m) = (pos, m') /\ pos = Z.of_nat (length out) /\
    let m2 := store8 (if pos <? size then buf + pos else buf + (size - 1)) 0 m' in
    str buf m2 = take (Z.to_nat (size - 1)) out /\
    (forall b, b < buf \/ buf + size <= b -> load8 b m2 = load8 b m).
Proof.
  intros Hs Hl Hc. destruct (buffer_fold buf size out 0 m Hs) as (m' & E & Hm'); [lia|lia|].
  exists (Z.of_nat (length out)), m'. split; [exact E|]. split; [done|]. set (e := if Z.of_nat (length out) <? size then buf + Z.of_nat (length out) else buf + (size - 1)). intros m2.
  assert (He : e = buf + Z.min (Z.of_nat (length out)) (size - 1)) by (unfold e; destruct (Z.ltb_spec (Z.of_nat (length out)) size); lia).
  assert (Hload : forall b, load8 b m2 = if b =? e then 0 else load8 b m').
  { intros b. unfold m2. by rewrite load8_store8. }
  split.
  - apply str_of_bytes.
    + intros i Hi. rewrite length_take in Hi. rewrite Hload, (proj2 (Z.eqb_neq _ _)), Hm' by lia. range_true.
      replace (buf + i - buf - 0) with i by lia. rewrite plain_nth by (done || lia). by rewrite nth_take_lt by lia.
    + rewrite length_take, Hload. replace (buf + Z.of_nat _) with e by lia. by rewrite Z.eqb_refl.
    + intros [x Hx]%list_elem_of_lookup_1. apply lookup_take_Some in Hx as [Hx _]. pose proof (Forall_lookup_1 _ _ _ _ Hc Hx) as Hr. cbn in Hr. lia.
  - intros b Hb. rewrite Hload, (proj2 (Z.eqb_neq _ _)), Hm' by lia. by range_false.
Qed.

(** Formatted output stays in its buffer.  For a format that can be printed,
    [vsnprintf_full] returns the length of the whole output, leaves in the buffer
    the terminated string of as much of it as fits, and stores nowhere outside of
    the [size] bytes it was given. *)
Theorem vsnprintf_full_bounded buf size fmt args m out st
    (Hsize : 0 < size < 2 ^ 64) (Hfmt : vformat fmt args = Some (out, st))
    (Hout : plain_chars out) (Hlen : Z.of_nat (length out) < 2 ^ 31) :
  exists m', vsnprintf_full buf size fmt args m = Some (Z.of_nat (length out), st, m') /\
    str buf m' = take (Z.to_nat (size - 1)) out /\
    forall b, b < buf \/ buf + size <= b -> load8 b m' = load8 b m.
Proof.
  destruct (buffer_result buf size out m Hsize ltac:(lia) Hout) as (pos & m' & E & -> & Hs & Hf).
  unfold vsnprintf_full. rewrite (proj2 (Z.eqb_neq size 0)), Hfmt by lia. cbn [mbind option_bind]. rewrite E.
  eexists. split; [|by split]. rewrite s32_small by lia. done.
Qed.

Lemma vsprintf_spec buf fmt args m out st : vformat fmt args = Some (out, st) -> plain_chars out -> Z.of_nat (length out) < 2 ^ 31 ->
  exists m', vsprintf buf fmt args m = Some (Z.of_nat (length out), st, m') /\ str buf m' = out.
Proof.
  intros Hfmt Hout Hlen. destruct (buffer_result buf (2 ^ 64 - 1) out m ltac:(lia) ltac:(lia) Hout) as (pos & m' & E & -> & Hs & _).
  unfold vsprintf. rewrite Hfmt. cbn [mbind option_bind]. rewrite E. eexists. rewrite s32_small by lia. split; [done|].
  rewrite (proj2 (Z.ltb_lt _ _)) in Hs by lia. rewrite Hs, take_ge by lia. done.
Qed.

(** ** Reading numbers back *)

Lemma str_first s m c l : str s m = c :: l -> load8 s m = c /\ str (s + 1) m = l.
Proof.
  intros E. destruct (decide (load8 s m = 0)) as [Hz|Hz]; [by rewrite (str_nil _ _ Hz) in E|].
  rewrite (str_cons _ _ Hz) in E. by injection E.
Qed.

Lemma str_empty s m : str s m = [] -> load8 s m = 0.
Proof. intros E. destruct (decide (load8 s m = 0)) as [|Hz]; [done|]. by rewrite (str_cons _ _ Hz) in E. Qed.

(** The terminator is reached before the loops over strings give up. *)
Lemma str_span s m : Z.of_nat (length (str s m)) < span m.
Proof.
  destruct (span_enough s m) as (i & Hi & Hz). unfold str. rewrite length_fmap, length_seqZ.
  destruct (strlen_spec s m) as (H0 & _ & Hn). rewrite Z2Nat.id by lia.
  destruct (Z.lt_ge_cases i (strlen s m)); [|lia]. destruct (Hn i); [lia|done].
Qed.

Lemma skip_blanks_none s m : is_blank (load8 s m) = false -> skip_blanks s m = s.
Proof.
  intros Hb. unfold skip_blanks. rewrite find_range_step by (unfold span; lia). rewrite Z.add_0_r, Hb. cbn. lia.
Qed.

Lemma digit_10 c : is_digit_of 10 c -> is_digit c = true /\ default 0 (digit_of c) = c - 48.
Proof.
  intros (d & E & Hd). unfold digit_of, is_digit in *. destruct ((c >=? 48) && (c <=? 57)) eqn:E1; [split; [done|done]|].
  repeat case_match; simplify_eq; zbool; lia.
Qed.

Section Wrap.
Context (wrap : Z -> Z) (M : Z) (Hwrap : forall x, wrap x mod M = x mod M).

Lemma digits_loop_value fuel s r m l : str s m = l -> Forall (is_digit_of 10) l -> (length l < fuel)%nat ->
  digits_loop fuel wrap s r m mod M = fold_left (fun n c => n * 10 + default 0 (digit_of c)) l r mod M.
Proof.
  revert s r l. induction fuel as [|fuel IH]; intros s r l El Hl Hf; [lia|]. cbn [digits_loop]. destruct l as [|c l].
  - by rewrite (str_empty _ _ El).
  - apply str_first in El as [-> El]. apply Forall_cons in Hl as [Hc Hl]. destruct (digit_10 c Hc) as [-> Ec].
    rewrite (IH _ _ l El Hl) by (cbn in Hf; lia). cbn [fold_left].
    assert (Hcong : forall l a b, a mod M = b mod M -> fold_left (fun n c => n * 10 + default 0 (digit_of c)) l a mod M
      = fold_left (fun n c => n * 10 + default 0 (digit_of c)) l b mod M).
    { clear. intros l. induction l as [|c l IH]; intros a b Hab; [done|]. cbn [fold_left]. apply IH.
      by rewrite (Zplus_mod (a * 10)), (Zmult_mod a 10), Hab, <- Zmult_mod, <- Zplus_mod. }
    apply Hcong. by rewrite Hwrap, (Zplus_mod (wrap _)), Hwrap, <- Zplus_mod, Ec.
Qed.
End Wrap.

Lemma s64_mod x : s64 x mod 2 ^ 64 = x mod 2 ^ 64.
Proof. unfold s64. rewrite Zminus_mod_idemp_l. f_equal. lia. Qed.

Lemma s32_mod x : s32 x mod 2 ^ 32 = x mod 2 ^ 32.
Proof. unfold s32. rewrite Zminus_mod_idemp_l. f_equal. lia. Qed.

Lemma s64_cong x y : x mod 2 ^ 64 = y mod 2 ^ 64 -> s64 x = s64 y.
Proof. intros E. unfold s64. by rewrite Zplus_mod, E, <- Zplus_mod. Qed.

Lemma s32_cong x y : x mod 2 ^ 32 = y mod 2 ^ 32 -> s32 x = s32 y.
Proof. intros E. unfold s32. by rewrite Zplus_mod, E, <- Zplus_mod. Qed.

Lemma s64_id x : - 2 ^ 63 <= x < 2 ^ 63 -> s64 x = x.
Proof. intros Hx. unfold s64. rewrite Z.mod_small; lia. Qed.

(** The decimal digits of the absolute value, after a minus sign. *)
Definition decimal (v : Z) : list Z := (if v <? 0 then [45] else []) ++ digits (Z.abs v) 10 false.

(** [ato] reads a decimal back, up to the width of the result. *)
Lemma ato_decimal wrap M s m v : (forall x, wrap x mod M = x mod M) -> Z.abs v < 2 ^ 64 -> str s m = decimal v ->
  exists x, ato wrap s m = wrap x /\ x mod M = v mod M.
Proof.
  intros Hwrap Hv Es. unfold decimal in Es.
  destruct (digits_spec 10 false ltac:(lia) (Z.abs v)) as (Ev & Hd & Hne); [lia|].
  unfold ato. pose proof (str_span s m) as Hspan. rewrite Es, length_app in Hspan.
  assert (Hval : forall s', str s' m = digits (Z.abs v) 10 false -> digits_loop (Z.to_nat (span m)) wrap s' 0 m mod M = Z.abs v mod M).
  { intros s' Es'. rewrite (digits_loop_value wrap M Hwrap _ _ _ _ _ Es' Hd) by lia. fold (value_of 10 (digits (Z.abs v) 10 false)). by rewrite Ev. }
  destruct (Z.ltb_spec v 0) as [Hneg|Hpos].
  - apply str_first in Es as [E0 Es]. rewrite skip_blanks_none by (by rewrite E0). rewrite E0. cbn [Z.eqb].
    eexists. split; [done|]. rewrite Zmult_mod, (Hval _ Es), <- Zmult_mod. f_equal. lia.
  - cbn [app] in Es. destruct (digits (Z.abs v) 10 false) as [|d ds] eqn:Eds; [done|]. apply Forall_cons in Hd as [Hd _].
    destruct (digit_10 d Hd) as [Hdd _]. unfold is_digit in Hdd. pose proof Es as [E0 _]%str_first.
    rewrite skip_blanks_none by (rewrite E0; unfold is_blank; lia). rewrite E0.
    rewrite (proj2 (Z.eqb_neq d 45)), (proj2 (Z.eqb_neq d 43)) by lia.
    eexists. split; [done|]. rewrite Zmult_mod, (Hval _ Es), <- Zmult_mod. f_equal. lia.
Qed.

Lemma strtoul_loop_value fuel base s r m l : str s m = l -> Forall (is_digit_of base) l -> (length l < fuel)%nat -> 0 <= r < 2 ^ 64 ->
  strtoul_loop fuel base s r m = (u64 (fold_left (fun n c => n * base + default 0 (digit_of c)) l r), s + Z.of_nat (length l)).
Proof.
  revert s r l. induction fuel as [|fuel IH]; intros s r l El Hl Hf Hr; [lia|]. cbn [strtoul_loop]. destruct l as [|c l].
  - rewrite (str_empty _ _ El). cbn. rewrite u64_small by lia. f_equal. lia.
  - apply str_first in El as [-> El]. apply Forall_cons in Hl as [(d & Ed & Hd) Hl]. rewrite Ed, Z.geb_leb, (proj2 (Z.leb_gt _ _)) by lia.
    rewrite (IH _ _ l El Hl) by (cbn in Hf; lia || apply u64_range). cbn [fold_left length]. rewrite Ed. cbn [default].
    f_equal; [|lia]. unfold u64. set (F := fun n c => _).
    assert (Hcong : forall l a b, a mod 2 ^ 64 = b mod 2 ^ 64 -> fold_left F l a mod 2 ^ 64 = fold_left F l b mod 2 ^ 64).
    { clear. intros l. induction l as [|c l IH]; intros a b Hab; [done|]. cbn [fold_left]. apply IH. unfold F.
      by rewrite (Zplus_mod (a * base)), (Zmult_mod a base), Hab, <- Zmult_mod, <- Zplus_mod. }
    apply Hcong. by rewrite Zmod_mod.
Qed.

Lemma strtoul_digits base upper s m v : base = 10 \/ base = 16 -> 0 <= v < 2 ^ 64 -> str s m = digits v base upper ->
  strtoul s base m = (v, s + Z.of_nat (length (digits v base upper))).
Proof.
  intros Hb Hv Es. destruct (digits_spec base upper ltac:(lia) v) as (Ev & Hd & Hne).
  { split; [lia|]. apply Z.lt_le_trans with (base ^ 20); [apply u64_digits; lia|]. apply Z.pow_le_mono_r; lia. }
  pose proof (str_span s m) as Hspan. rewrite Es in Hspan.
  assert (Hloop : strtoul_loop (Z.to_nat (span m)) base s 0 m = (v, s + Z.of_nat (length (digits v base upper)))).
  { rewrite (strtoul_loop_value _ _ _ _ _ _ Es Hd) by lia. fold (value_of base (digits v base upper)). by rewrite Ev, u64_small by lia. }
  destruct (digits v base upper) as [|d ds] eqn:Eds; [done|]. apply str_first in Es as [E0 Es1].
  apply Forall_cons in Hd as [Hd Hds]. pose proof (is_digit_nz _ _ Hd) as Hd0.
  assert (Hdc : is_blank d = false /\ d <> 43).
  { destruct Hd as (x & Ex & _). unfold digit_of, is_blank in *. repeat case_match; simplify_eq; zbool; lia. }
  unfold strtoul. rewrite skip_blanks_none by (rewrite E0; apply Hdc). rewrite E0, (proj2 (Z.eqb_neq d 43)) by apply Hdc.
  rewrite (proj2 (Z.eqb_neq base 0)) by lia. rewrite E0.
  assert (Hx : (load8 (s + 1) m =? 120) || (load8 (s + 1) m =? 88) = false).
  { destruct ds as [|d2 ds]; [by rewrite (str_empty _ _ Es1)|]. apply str_first in Es1 as [-> _].
    apply Forall_cons in Hds as [(x & Ex & _) _]. unfold digit_of in Ex. repeat case_match; simplify_eq; zbool; lia. }
  rewrite Hx, andb_false_r. exact Hloop.
Qed.

(** ** Simple conversions *)

Definition no_flags : flags := mkFlags false false false false false.

Lemma output_signed_plain v : - 2 ^ 63 <= v < 2 ^ 63 -> output_signed v 0 32 = decimal v.
Proof.
  intros Hv. unfold output_signed, decimal. cbn [Z.eqb andb negb].
  assert (Ht : u64 (if v <? 0 then s64 (- v) else v) = Z.abs v).
  { destruct (Z.ltb_spec v 0); [|rewrite u64_small; lia]. unfold u64. rewrite s64_mod, Z.mod_small; lia. }
  rewrite Ht, andb_true_r. assert (Hif : forall b : bool, 0 <= if b then 1 else 0) by (intros []; lia).
  generalize (Hif ((v <? 0) && negb (Z.abs v =? 0))). generalize (if (v <? 0) && negb (Z.abs v =? 0) then 1 else 0) as k.
  intros k Hk. unfold output_unsigned, output_padding.
  replace (Z.to_nat (0 - (_ + _))) with O by lia. replace (Z.to_nat (0 - _)) with O by lia. done.
Qed.

Lemma output_unsigned_plain v base upper : output_unsigned v base 0 32 upper = digits v base upper.
Proof. unfold output_unsigned, output_padding. by replace (Z.to_nat (0 - _)) with O by lia. Qed.

Lemma decimal_plain v : Z.abs v < 2 ^ 64 -> plain_chars (decimal v) /\ Z.of_nat (length (decimal v)) < 2 ^ 31.
Proof.
  intros Hv. destruct (digits_spec 10 false ltac:(lia) (Z.abs v)) as (_ & Hd & _); [lia|]. unfold decimal. split.
  - apply Forall_app. split; [destruct (v <? 0); repeat constructor; lia|]. eapply Forall_impl; [exact Hd|].
    intros c Hc. pose proof (is_digit_nz _ _ Hc). lia.
  - rewrite length_app. assert (length (digits (Z.abs v) 10 false) <= 64)%nat; [|destruct (v <? 0); cbn [length]; lia].
    apply digits_length.
Qed.

#[local] Strategy 1000 [print_signed output_unsigned print_hex s64 s32 u64].

(** What "%ld", "%d", "%lu" and "%lx" print. *)
Lemma print_plain_signed v : print_signed no_flags 0 32 v = output_signed v 0 32.
Proof. unfold print_signed. cbn [show_sign space_sign no_flags orb]. by rewrite andb_false_r. Qed.

Lemma print_plain_hex v upper : print_hex no_flags 0 32 v upper = digits v 16 upper.
Proof. unfold print_hex. cbn [alt_form no_flags andb app]. apply output_unsigned_plain. Qed.

Lemma vformat_ld v : vformat [37; 108; 100] [AInt v] = Some (output_signed (s64 v) 0 32, []).
Proof. change (vformat [37; 108; 100] [AInt v]) with (Some (print_signed no_flags 0 32 (s64 v) ++ [], @nil (Z * Z))). by rewrite app_nil_r, print_plain_signed. Qed.

Lemma vformat_d v : vformat [37; 100] [AInt v] = Some (output_signed (s32 v) 0 32, []).
Proof. change (vformat [37; 100] [AInt v]) with (Some (print_signed no_flags 0 32 (s32 v) ++ [], @nil (Z * Z))). by rewrite app_nil_r, print_plain_signed. Qed.

Lemma vformat_lu v : vformat [37; 108; 117] [AInt v] = Some (digits (u64 v) 10 false, []).
Proof. change (vformat [37; 108; 117] [AInt v]) with (Some (output_unsigned (u64 v) 10 0 32 false ++ [], @nil (Z * Z))). by rewrite app_nil_r, output_unsigned_plain. Qed.

Lemma vformat_lx v : vformat [37; 108; 120] [AInt v] = Some (digits (u64 v) 16 false, []).
Proof. change (vformat [37; 108; 120] [AInt v]) with (Some (print_hex no_flags 0 32 (u64 v) false ++ [], @nil (Z * Z))). by rewrite app_nil_r, print_plain_hex. Qed.

Lemma digits_plain v base : base = 10 \/ base = 16 -> 0 <= v < 2 ^ 64 ->
  plain_chars (digits v base false) /\ Z.of_nat (length (digits v base false)) < 2 ^ 31.
Proof.
  intros Hb Hv. destruct (digits_spec base false ltac:(lia) v) as (_ & Hd & _).
  { split; [lia|]. apply Z.lt_le_trans with (base ^ 20); [apply u64_digits; lia|]. apply Z.pow_le_mono_r; lia. }
  split; [|pose proof (digits_length v base false); lia]. eapply Forall_impl; [exact Hd|]. intros c Hc. pose proof (is_digit_nz _ _ Hc). lia.
Qed.

(** Numbers are read back as they were printed: for every 64-bit integer,
    [atol] of what "%ld" printed, and [strtoul] of what "%lu" and "%lx" printed,
    and for every 32-bit integer, [atoi] of what "%d" printed, is the integer again,
    the least negative one included. *)
Theorem printed_numbers_roundtrip buf m v (Hv : - 2 ^ 63 <= v < 2 ^ 63) :
  (exists r m', vsprintf buf [37; 108; 100] [AInt v] m = Some (r, [], m') /\ atol buf m' = v) /\
  (- 2 ^ 31 <= v < 2 ^ 31 -> exists r m', vsprintf buf [37; 100] [AInt v] m = Some (r, [], m') /\ atoi buf m' = v) /\
  (0 <= v -> exists r m', vsprintf buf [37; 108; 117] [AInt v] m = Some (r, [], m') /\ strtoul buf 10 m' = (v, buf + r)) /\
  (0 <= v -> exists r m', vsprintf buf [37; 108; 120] [AInt v] m = Some (r, [], m') /\ strtoul buf 16 m' = (v, buf + r)).
Proof.
  destruct (decimal_plain v ltac:(lia)) as [Hp Hl]. split_and!.
  - pose proof (vformat_ld v) as E. rewrite s64_id, output_signed_plain in E by lia.
    destruct (vsprintf_spec buf _ _ m _ _ E Hp Hl) as (m' & E' & Hs). exists (Z.of_nat (length (decimal v))), m'. split; [exact E'|].
    destruct (ato_decimal s64 (2 ^ 64) buf m' v s64_mod ltac:(lia) Hs) as (x & Ex & Hx). unfold atol. rewrite Ex, (s64_cong _ _ Hx). by apply s64_id.
  - intros H32. pose proof (vformat_d v) as E. rewrite s32_small, output_signed_plain in E by lia.
    destruct (vsprintf_spec buf _ _ m _ _ E Hp Hl) as (m' & E' & Hs). exists (Z.of_nat (length (decimal v))), m'. split; [exact E'|].
    destruct (ato_decimal s32 (2 ^ 32) buf m' v s32_mod ltac:(lia) Hs) as (x & Ex & Hx). unfold atoi. rewrite Ex, (s32_cong _ _ Hx). by apply s32_small.
  - intros H0. pose proof (vformat_lu v) as E. rewrite u64_small in E by lia. destruct (digits_plain v 10 ltac:(lia) ltac:(lia)) as [Hp' Hl'].
    destruct (vsprintf_spec buf _ _ m _ _ E Hp' Hl') as (m' & E' & Hs). exists (Z.of_nat (length (digits v 10 false))), m'.
    split; [exact E'|]. apply (strtoul_digits 10 false); [lia|lia|done].
  - intros H0. pose proof (vformat_lx v) as E. rewrite u64_small in E by lia. destruct (digits_plain v 16 ltac:(lia) ltac:(lia)) as [Hp' Hl'].
    destruct (vsprintf_spec buf _ _ m _ _ E Hp' Hl') as (m' & E' & Hs). exists (Z.of_nat (length (digits v 16 false))), m'.
    split; [exact E'|]. apply (strtoul_digits 16 false); [lia|lia|done].
Qed.

Lemma printed_numbers_roundtrip_witness :
  exists r m', vsprintf 4096 [37; 108; 100] [AInt (- 2 ^ 63)] ∅ = Some (r, [], m') /\ atol 4096 m' = - 2 ^ 63.
Proof. destruct (printed_numbers_roundtrip 4096 ∅ (- 2 ^ 63)) as [Hl _]; [lia|]. exact Hl. Defined.

Lemma vsnprintf_full_bounded_witness :
  exists m', vsnprintf_full 4096 4 [97; 37; 100] [AInt 12345] ∅ = Some (6, [], m') /\
    str 4096 m' = take (Z.to_nat (4 - 1)) [97; 49; 50; 51; 52; 53] /\
    forall b, b < 4096 \/ 4096 + 4 <= b -> load8 b m' = load8 b ∅.
Proof.
  apply (vsnprintf_full_bounded 4096 4 [97; 37; 100] [AInt 12345] ∅ [97; 49; 50; 51; 52; 53] []);
    [lia|vm_compute; reflexivity|repeat constructor; lia|cbn; lia].
Defined.

(** ** The two formatters *)

Lemma emit_spec size acc l : Z.of_nat (length acc) < size ->
  Z.of_nat (length (emit size acc l)) < size /\
  (Z.of_nat (length acc) + Z.of_nat (length l) < size -> emit size acc l = acc ++ l).
Proof.
  revert acc. induction l as [|c l IH]; intros acc Ha; cbn [emit].
  - split; [done|]. by rewrite app_nil_r.
  - destruct (Z.ltb_spec (Z.of_nat (length acc) + 1) size) as [Hlt|Hge].
    + destruct (IH (acc ++ [c])) as [H1 H2]; [rewrite length_app; cbn; lia|]. split; [done|]. intros Hl.
      rewrite H2 by (rewrite length_app; cbn in *; lia). by rewrite <- app_assoc.
    + split; [done|]. intros Hl. cbn in Hl. lia.
Qed.

Lemma emit_all size acc l : Z.of_nat (length acc) + Z.of_nat (length l) < size -> emit size acc l = acc ++ l.
Proof. intros H. apply emit_spec; lia. Qed.

Lemma printk_convert_bounded c l args size acc acc' args' : Z.of_nat (length acc) + 1 < size ->
  printk_convert c l args size acc = Some (acc', args') -> Z.of_nat (length acc') < size.
Proof.
  intros Ha E. unfold printk_convert in E.
  assert (Hone : forall x, Z.of_nat (length (acc ++ [x])) < size) by (intros x; rewrite length_app; cbn; lia).
  assert (Hnum : forall a n b u, Z.of_nat (length a) < size -> Z.of_nat (length (vsnprintf_num a size n b u)) < size)
    by (intros; by apply emit_spec).
  repeat (case_match; simplify_eq; try done); try (by apply Hnum || lia); try (apply Hnum; lia); try by apply Hone.
  all: try (apply emit_spec; lia). all: try (apply Hnum; rewrite length_app; cbn; lia).
  all: zbool; rewrite !length_app in *; cbn in *; lia.
Qed.

Lemma vsnprintf_lt size fmt args out : 0 < size -> vsnprintf size fmt args = Some out -> Z.of_nat (length out) < size.
Proof.
  intros Hsize Hout. unfold vsnprintf in Hout. rewrite (proj2 (Z.eqb_neq size 0)) in Hout by lia. revert Hout.
  assert (H0 : Z.of_nat (length (@nil Z)) < size) by done. revert H0. generalize (@nil Z) as acc. generalize (S (length fmt)) as fuel. intros fuel.
  revert fmt args. induction fuel as [|fuel IH]; intros fmt args acc Ha E; [done|]. cbn [printk_loop] in E.
  destruct fmt as [|c fmt]; [by simplify_eq|]. destruct (Z.ltb_spec (Z.of_nat (length acc) + 1) size) as [Hlt|]; cbn [negb] in E; [|by simplify_eq].
  assert (Hone : forall x, Z.of_nat (length (acc ++ [x])) < size) by (intros x; rewrite length_app; cbn; lia).
  destruct (negb (c =? 37)); [by apply (IH _ _ _ (Hone c) E)|].
  assert (Hconv : forall fmt', (let '(l, fmt) := printk_length fmt' in
      '(acc, args) ← printk_convert (hd 0 fmt) l args size acc; printk_loop fuel (tl fmt) args size acc) = Some out -> Z.of_nat (length out) < size).
  { intros fmt' E'. destruct (printk_length fmt') as [l fmt2]. apply bind_Some in E' as ([acc' args'] & Ec & E').
    by apply (IH _ _ _ (printk_convert_bounded _ _ _ _ _ _ _ Hlt Ec) E'). }
  destruct fmt as [|d fmt]; [by apply (Hconv [])|]. destruct (decide (d = 37)) as [->|Hd]; [by apply (IH _ _ _ (Hone 37) E)|].
  apply (Hconv (d :: fmt)). rewrite <- E. repeat case_match; done.
Qed.

(** [vsnprintf] of the kernel log writes less than [size] characters, so that
    the terminator it appends is still inside of the buffer, whatever the format
    and the arguments. *)
Theorem vsnprintf_bounded size fmt args out (Hsize : 0 < size) (Hout : vsnprintf size fmt args = Some out) :
  Z.of_nat (length out) < size.
Proof. by apply (vsnprintf_lt size fmt args). Qed.

(** The formats both understand: characters, [%%], and conversions without flags,
    width and precision. *)
Inductive item := ILit (c : Z) | IPercent | IConv (l c : Z).

Definition length_chars (l : Z) : list Z := nth (Z.to_nat l) [[]; [108]; [108; 108]; [122]] [].

Definition item_ok (i : item) : Prop :=
  match i with ILit c => c <> 37 | IPercent => True | IConv l c => l ∈ [0; 1; 2; 3] /\ c ∈ [100; 105; 117; 120; 88; 115; 99] end.

Definition item_fmt (i : item) : list Z :=
  match i with ILit c => [c] | IPercent => [37; 37] | IConv l c => 37 :: length_chars l ++ [c] end.

Definition format_of (items : list item) : list Z := concat (item_fmt <$> items).

(** What a conversion stands for: without a length modifier the argument is an
    [int], with one it has 64 bits. *)
Definition conv_text (l c : Z) (args : list arg) : option (list Z * list arg) :=
  match args with
  | AInt x :: args =>
    let s := if l =? 0 then s32 x else s64 x in let u := if l =? 0 then u32 x else u64 x in
    if (c =? 100) || (c =? 105) then Some (decimal s, args)
    else if c =? 117 then Some (digits u 10 false, args)
    else if (c =? 120) || (c =? 88) then Some (digits u 16 (c =? 88), args)
    else if c =? 99 then Some ([u8 x], args) else None
  | AStr s :: args => if c =? 115 then Some (default chars_null s, args) else None
  | _ => None
  end.

Fixpoint text_of (items : list item) (args : list arg) : option (list Z) :=
  match items with
  | [] => Some []
  | ILit c :: items => out ← text_of items args; Some (c :: out)
  | IPercent :: items => out ← text_of items args; Some (37 :: out)
  | IConv l c :: items => '(now, args) ← conv_text l c args; out ← text_of items args; Some (now ++ out)
  end.

Lemma s64_range x : - 2 ^ 63 <= s64 x < 2 ^ 63.
Proof. unfold s64. pose proof (Z.mod_pos_bound (x + 2 ^ 63) (2 ^ 64) eq_refl). lia. Qed.

Lemma s32_range64 x : - 2 ^ 63 <= s32 x < 2 ^ 63.
Proof. unfold s32. pose proof (Z.mod_pos_bound (x + 2 ^ 31) (2 ^ 32) eq_refl). lia. Qed.

Ltac list_cases H :=
  repeat (apply elem_of_cons in H as [->|H]); [..|by apply elem_of_nil in H].

Definition length_mod_of (l : Z) : length_mod := if l =? 0 then LNone else if l =? 1 then LLong else LLongLong.
Definition printk_len_of (l : Z) : printk_len := if l =? 0 then KNone else if l =? 1 then KLong else KLongLong.

Lemma convert_text l c args now args' n : item_ok (IConv l c) -> conv_text l c args = Some (now, args') ->
  convert c no_flags 0 (-1) (length_mod_of l) args n = Some (now, args', []).
Proof.
  intros [Hl Hc] E. unfold conv_text in E. destruct args as [|[x|s|p] args]; [done| | |done].
  - list_cases Hc; list_cases Hl; cbn in E; simplify_eq; unfold convert; cbn [Z.eqb Pos.eqb orb signed_arg unsigned_arg va_int length_mod_of];
      rewrite ?print_plain_signed, ?print_plain_hex, ?output_unsigned_plain, ?output_signed_plain by (apply s64_range || apply s32_range64);
      cbn [zero_pad no_flags andb]; try done.
    all: rewrite ?print_plain_signed, ?print_plain_hex, ?output_unsigned_plain, ?output_signed_plain by (apply s64_range || apply s32_range64); done.
  - list_cases Hc; list_cases Hl; cbn in E; simplify_eq; unfold convert; cbn [Z.eqb Pos.eqb orb print_string left_justify no_flags];
      unfold print_string, output_padding; cbn [left_justify no_flags Z.geb Z.compare andb]; rewrite Nat2Z.id, firstn_all, app_nil_r.
    all: replace (Z.to_nat (0 - _)) with 0%nat by lia; done.
Qed.

Lemma num_digits size acc v base upper : 10 <= base <= 16 -> 0 <= v < 2 ^ 64 ->
  vsnprintf_num acc size v base upper = emit size acc (digits v base upper).
Proof.
  intros Hb Hv. pose proof (u64_digits base v ltac:(lia) Hv) as Hd. unfold vsnprintf_num, digits.
  destruct (v =? 0); [done|]. rewrite (rev_digits_fuel base upper ltac:(lia) 20 24 v), (rev_digits_fuel base upper ltac:(lia) 20 64 v).
  all: done || lia.
Qed.

Lemma u32_range64 x : 0 <= u32 x < 2 ^ 64.
Proof. unfold u32. pose proof (Z.mod_pos_bound x (2 ^ 32) eq_refl). lia. Qed.

(** The digits of a negative number are those of its magnitude, also for the
    least one, whose negation wraps. *)
Lemma printk_decimal size acc v : - 2 ^ 63 <= v < 2 ^ 63 -> Z.of_nat (length acc) + Z.of_nat (length (decimal v)) < size ->
  let neg := (v <? 0) && (Z.of_nat (length acc) + 1 <? size) in
  vsnprintf_num (if neg then acc ++ [45] else acc) size (u64 (if neg then s64 (- v) else v)) 10 false = acc ++ decimal v.
Proof.
  intros Hv Hl neg. unfold decimal in *. rewrite length_app in Hl. destruct (Z.ltb_spec v 0) as [Hneg|Hpos]; subst neg; cbn [andb] in *.
  - cbn [length] in Hl. rewrite (proj2 (Z.ltb_lt _ _)) by lia.
    replace (u64 (s64 (- v))) with (Z.abs v) by (unfold u64; rewrite s64_mod, Z.mod_small; lia).
    rewrite num_digits by lia. rewrite emit_all by (rewrite length_app; cbn [length]; lia).
    by rewrite <- app_assoc.
  - replace (u64 v) with (Z.abs v) by (unfold u64; rewrite Z.mod_small; lia). rewrite num_digits by lia.
    cbn [app length] in *. apply emit_all. lia.
Qed.

Lemma printk_convert_text l c args now args' size acc : item_ok (IConv l c) -> conv_text l c args = Some (now, args') ->
  Z.of_nat (length acc) + Z.of_nat (length now) < size ->
  printk_convert c (printk_len_of l) args size acc = Some (acc ++ now, args').
Proof.
  intros [Hl Hc] E Hs. unfold conv_text in E. destruct args as [|[x|s|p] args]; [done| | |done].
  - assert (Hu : 0 <= (if l =? 0 then u32 x else u64 x) < 2 ^ 64) by (destruct (l =? 0); [apply u32_range64|apply u64_range]).
    assert (Hsg : - 2 ^ 63 <= (if l =? 0 then s32 x else s64 x) < 2 ^ 63) by (destruct (l =? 0); [apply s32_range64|apply s64_range]).
    assert (Eu : printk_unsigned (printk_len_of l) x = if l =? 0 then u32 x else u64 x) by (list_cases Hl; done).
    assert (Es : printk_signed (printk_len_of l) x = if l =? 0 then s32 x else s64 x) by (list_cases Hl; done).
    unfold printk_convert, va_int. rewrite Eu, Es. clear Eu Es Hl.
    list_cases Hc; cbn [Z.eqb Pos.eqb orb] in *; simplify_eq; rewrite ?printk_decimal, ?num_digits by lia; try done.
    all: rewrite emit_all by lia; done.
  - list_cases Hc; cbn [Z.eqb Pos.eqb] in E; simplify_eq. unfold printk_convert. cbn [Z.eqb Pos.eqb].
    by rewrite emit_all by lia.
Qed.

Lemma do_vprintf_conv fuel l c rest args n : item_ok (IConv l c) ->
  do_vprintf (S fuel) (item_fmt (IConv l c) ++ rest) args n =
  ('(now, args, st) ← convert c no_flags 0 (-1) (length_mod_of l) args n;
   '(out, st') ← do_vprintf fuel rest args (s32 (n + Z.of_nat (length now))); Some (now ++ out, st ++ st')).
Proof. intros [Hl Hc]. list_cases Hc; list_cases Hl; reflexivity. Qed.

Lemma printk_loop_conv fuel l c rest args size acc : item_ok (IConv l c) -> Z.of_nat (length acc) + 1 < size ->
  printk_loop (S fuel) (item_fmt (IConv l c) ++ rest) args size acc =
  ('(acc, args) ← printk_convert c (printk_len_of l) args size acc; printk_loop fuel rest args size acc).
Proof.
  intros [Hl Hc] Hs. list_cases Hc; list_cases Hl; cbn [item_fmt length_chars app printk_loop]; rewrite (proj2 (Z.ltb_lt _ _) Hs); reflexivity.
Qed.

Lemma do_vprintf_text items : forall fuel args n out, Forall item_ok items -> text_of items args = Some out -> (length items < fuel)%nat ->
  do_vprintf fuel (format_of items) args n = Some (out, []).
Proof.
  induction items as [|i items IH]; intros fuel args n out Hok E Hf; (destruct fuel as [|fuel]; [lia|]); [cbn in E; by simplify_eq|].
  apply Forall_cons in Hok as [Hi Hok]. change (format_of (i :: items)) with (item_fmt i ++ format_of items). cbn [length] in Hf.
  destruct i as [c| |l c]; cbn [text_of] in E.
  - apply bind_Some in E as (o & Eo & E). simplify_eq. cbn [item_fmt app do_vprintf]. rewrite (proj2 (Z.eqb_neq c 37)) by done.
    cbn [negb]. by rewrite (IH fuel args _ _ Hok Eo) by lia.
  - apply bind_Some in E as (o & Eo & E). simplify_eq. cbn [item_fmt app do_vprintf Z.eqb Pos.eqb negb].
    by rewrite (IH fuel args _ _ Hok Eo) by lia.
  - apply bind_Some in E as ([now args'] & Ec & E). apply bind_Some in E as (o & Eo & E). simplify_eq.
    rewrite do_vprintf_conv by done. rewrite (convert_text _ _ _ _ _ _ Hi Ec). cbn [mbind option_bind].
    by rewrite (IH fuel args' _ _ Hok Eo) by lia.
Qed.

Lemma printk_full fuel fmt args size acc : fmt <> [] -> ~ (Z.of_nat (length acc) + 1 < size) -> printk_loop (S fuel) fmt args size acc = Some acc.
Proof. intros Hf Hs. destruct fmt as [|c fmt]; [done|]. cbn [printk_loop]. by rewrite (proj2 (Z.ltb_nlt _ _) Hs). Qed.

Lemma printk_loop_text items : forall fuel args size acc out, Forall item_ok items -> text_of items args = Some out -> (length items < fuel)%nat ->
  Z.of_nat (length acc) + Z.of_nat (length out) < size -> printk_loop fuel (format_of items) args size acc = Some (acc ++ out).
Proof.
  induction items as [|i items IH]; intros fuel args size acc out Hok E Hf Hs; (destruct fuel as [|fuel]; [lia|]).
  { cbn in E. simplify_eq. by rewrite app_nil_r. }
  apply Forall_cons in Hok as [Hi Hok]. change (format_of (i :: items)) with (item_fmt i ++ format_of items). cbn [length] in Hf.
  destruct (decide (Z.of_nat (length acc) + 1 < size)) as [Hroom|Hfull]; [|destruct out; [|cbn in Hs; lia]; rewrite app_nil_r; by apply printk_full; [destruct i|]].
  pose proof (proj2 (Z.ltb_lt _ _) Hroom) as Hroomb.
  destruct i as [c| |l c]; cbn [text_of] in E.
  - apply bind_Some in E as (o & Eo & E). simplify_eq. cbn [item_fmt app printk_loop length] in *. rewrite Hroomb, (proj2 (Z.eqb_neq c 37)) by done.
    cbn [negb]. rewrite (IH fuel args size _ _ Hok Eo) by (rewrite ?length_app; cbn [length]; lia). by rewrite <- app_assoc.
  - apply bind_Some in E as (o & Eo & E). simplify_eq. cbn [item_fmt app printk_loop Z.eqb Pos.eqb negb length] in *. rewrite Hroomb. cbn [negb].
    rewrite (IH fuel args size _ _ Hok Eo) by (rewrite ?length_app; cbn [length]; lia). by rewrite <- app_assoc.
  - apply bind_Some in E as ([now args'] & Ec & E). apply bind_Some in E as (o & Eo & E). simplify_eq. rewrite length_app in Hs.
    rewrite printk_loop_conv by done. rewrite (printk_convert_text _ _ _ _ _ _ _ Hi Ec) by lia. cbn [mbind option_bind].
    rewrite (IH fuel args' size _ _ Hok Eo) by (rewrite ?length_app; lia). by rewrite <- app_assoc.
Qed.

Lemma format_length items : (length items <= length (format_of items))%nat.
Proof.
  induction items as [|i items IH]; [done|]. change (format_of (i :: items)) with (item_fmt i ++ format_of items).
  rewrite length_app. destruct i; cbn [length item_fmt]; lia.
Qed.

(** The two formatters of the kernel agree: on a format made of characters,
    [%%] and the conversions d, i, u, x, X, s and c with the length modifiers none,
    l, ll and z, whose arguments are there, both [do_vprintf] and the [vsnprintf]
    of the kernel log produce the text that the format stands for, when it fits in
    the buffer with its terminator; [do_vprintf] stores through no pointer. *)
Theorem formatters_agree items args out size (Hok : Forall item_ok items) (Hout : text_of items args = Some out)
    (Hsize : Z.of_nat (length out) < size) :
  vformat (format_of items) args = Some (out, []) /\ vsnprintf size (format_of items) args = Some out.
Proof.
  pose proof (format_length items). split.
  - unfold vformat. apply do_vprintf_text; [done..|lia].
  - unfold vsnprintf. rewrite (proj2 (Z.eqb_neq size 0)) by lia. by apply (printk_loop_text items _ args size [] out); [..|lia|].
Qed.

Lemma vsnprintf_bounded_witness : Z.of_nat (length [45; 50; 49]) < 4.
Proof. apply (vsnprintf_bounded 4 [37; 108; 100; 37; 115] [AInt (-2147483648); AStr (Some [33])] [45; 50; 49]); [lia|vm_compute; reflexivity]. Defined.

Lemma formatters_agree_witness :
  let fmt := [47; 37; 115; 45; 37; 122; 117; 37; 37; 37; 100] in let args := [AStr (Some [97]); AInt (2 ^ 40); AInt (- 2 ^ 31)] in
  let out := [47; 97; 45; 49; 48; 57; 57; 53; 49; 49; 54; 50; 55; 55; 55; 54; 37; 45; 50; 49; 52; 55; 52; 56; 51; 54; 52; 56] in
  vformat fmt args = Some (out, []) /\ vsnprintf 29 fmt args = Some out.
Proof.
  apply (formatters_agree [ILit 47; IConv 0 115; ILit 45; IConv 3 117; IPercent; IConv 0 100]);
    [repeat constructor; cbn; try done; set_solver|vm_compute; reflexivity|cbn; lia].
Defined.

(** ** What the flags do not do *)

(** A format that ends in the middle of a conversion is read past its end. *)
Lemma format_end_fault : vformat [37] [] = None /\ vformat [97; 37; 48; 56] [] = None /\ vsnprintf 8 [37] [] = Some [37].
Proof. vm_compute. done. Qed.

(** [%-4d|] does not pad on the right, [%+4d] and [%#4x] pad between the sign or
    prefix and the digits, and [%.4d] takes no notice of the precision. *)
Lemma number_flags_ignored :
  vformat [37; 45; 52; 100; 124] [AInt 7] = Some ([32; 32; 32; 55; 124], []) /\
  vformat [37; 43; 52; 100] [AInt 7] = Some ([43; 32; 32; 55], []) /\
  vformat [37; 35; 52; 120] [AInt 7] = Some ([48; 120; 32; 55], []) /\
  vformat [37; 46; 52; 100] [AInt 7] = Some ([55], []).
Proof. vm_compute. done. Qed.

(** The [vsnprintf] of the kernel log has no widths: [%04x] prints itself. *)
Lemma printk_no_width : vsnprintf 8 [37; 48; 52; 120] [AInt 7] = Some [37; 48; 52; 120].
Proof. vm_compute. done. Qed.
