(* ===== verification/Dentry.v ===== *)
(** * Directory entries and inodes: fs/dentry.c and fs/inode.c

    The name space of the kernel is a tree of directory entries, each with an
    inode, both counted by the references to them.  The entries on the list of
    subdirectories of an entry are the list of their addresses.  The list of the
    entries of an inode, the hash table of inodes, flags and times are never read
    on the modelled paths and are left out.  Counters are exact.

    An allocation takes the next outcome of [allocs]; where it succeeds, it
    returns an address that is not in use.  [None] is a fault: memory that is not
    (or no longer) a dentry or inode is used as one. *)

From S2P Require Import Prelude Errno.

Abbreviation NAME_MAX := 255%Z (only parsing).
Abbreviation S_IFMT := 61440%Z (only parsing).
Abbreviation S_IFREG := 32768%Z (only parsing).
Abbreviation S_IFBLK := 24576%Z (only parsing).
Abbreviation S_IFDIR := 16384%Z (only parsing).
Abbreviation S_IFCHR := 8192%Z (only parsing).
Abbreviation S_ISGID := 1024%Z (only parsing).
Abbreviation MAY_EXEC := 1%Z (only parsing).
Abbreviation MAY_WRITE := 2%Z (only parsing).
Abbreviation MAY_READ := 4%Z (only parsing).

(** The tables of inode operations of the two file systems. *)
Inductive inode_operations := no_inode_ops | axiomfs_dir_inode_ops | axiomfs_file_inode_ops | devfs_dir_inode_ops.

#[export] Instance inode_operations_eq : EqDecision inode_operations.
Proof. solve_decision. Defined.

Inductive fs_type := axiomfs_fs_type | devfs_fs_type.

Record inode := mkInode {
  i_ino : Z; i_mode : Z; i_nlink : Z; i_uid : Z; i_gid : Z; i_size : Z; i_op : inode_operations; i_sb : Z; i_count : Z
}.

Record dentry := mkDentry {
  d_name : list Z; d_inode : Z; d_parent : Z; d_sb : Z; d_count : Z; d_subdirs : list Z
}.

(** What AxiomFS keeps of a file while it exists: [struct axiomfs_inode]. *)
Record axiomfs_inode := mkAxiomfsInode { ai_mode : Z; ai_uid : Z; ai_gid : Z; ai_links : Z }.

Record vfsmount := mkMount { mnt_mountpoint : Z; mnt_root : Z; mnt_sb : Z }.

(** A device: its name, its mode and whether it is a character device. *)
Record devfs_entry := mkDevice { dev_name : list Z; dev_mode : Z; dev_char : bool }.

(** [inode_table] is that of AxiomFS, [supers] the kind of every superblock. *)
Record vfs := mkVfs {
  allocs : list bool; inodes : gmap Z inode; dentries : gmap Z dentry; supers : gmap Z fs_type;
  inode_table : gmap Z axiomfs_inode; mount_table : list vfsmount; root_dentry : Z; device_list : list devfs_entry
}.

Definition with_allocs (l : list bool) (s : vfs) : vfs :=
  mkVfs l (inodes s) (dentries s) (supers s) (inode_table s) (mount_table s) (root_dentry s) (device_list s).
Definition with_inodes (m : gmap Z inode) (s : vfs) : vfs :=
  mkVfs (allocs s) m (dentries s) (supers s) (inode_table s) (mount_table s) (root_dentry s) (device_list s).
Definition with_dentries (m : gmap Z dentry) (s : vfs) : vfs :=
  mkVfs (allocs s) (inodes s) m (supers s) (inode_table s) (mount_table s) (root_dentry s) (device_list s).
Definition with_table (m : gmap Z axiomfs_inode) (s : vfs) : vfs :=
  mkVfs (allocs s) (inodes s) (dentries s) (supers s) m (mount_table s) (root_dentry s) (device_list s).

Definition with_supers (m : gmap Z fs_type) (s : vfs) : vfs :=
  mkVfs (allocs s) (inodes s) (dentries s) m (inode_table s) (mount_table s) (root_dentry s) (device_list s).
Definition with_mounts (l : list vfsmount) (root : Z) (s : vfs) : vfs :=
  mkVfs (allocs s) (inodes s) (dentries s) (supers s) (inode_table s) l root (device_list s).

Definition set_i_count (c : Z) (i : inode) : inode :=
  mkInode (i_ino i) (i_mode i) (i_nlink i) (i_uid i) (i_gid i) (i_size i) (i_op i) (i_sb i) c.
Definition set_i_nlink (n : Z) (i : inode) : inode :=
  mkInode (i_ino i) (i_mode i) n (i_uid i) (i_gid i) (i_size i) (i_op i) (i_sb i) (i_count i).
Definition set_d_name (n : list Z) (d : dentry) : dentry := mkDentry n (d_inode d) (d_parent d) (d_sb d) (d_count d) (d_subdirs d).
Definition set_d_inode (i : Z) (d : dentry) : dentry := mkDentry (d_name d) i (d_parent d) (d_sb d) (d_count d) (d_subdirs d).
Definition set_d_count (c : Z) (d : dentry) : dentry := mkDentry (d_name d) (d_inode d) (d_parent d) (d_sb d) c (d_subdirs d).
Definition set_d_subdirs (l : list Z) (d : dentry) : dentry := mkDentry (d_name d) (d_inode d) (d_parent d) (d_sb d) (d_count d) l.

Definition S_ISDIR (m : Z) : bool := Z.land m S_IFMT =? S_IFDIR.
Definition S_ISREG (m : Z) : bool := Z.land m S_IFMT =? S_IFREG.

(** ** Allocation *)

Definition addr_above (l : list Z) : Z := 1 + foldr Z.max 0 l.

Definition new_addr (s : vfs) : Z := addr_above ((map_to_list (inodes s)).*1 ++ (map_to_list (dentries s)).*1 ++ (map_to_list (supers s)).*1).

(** The outcome of the next [kmalloc] whose block is released before the next one. *)
Definition take_alloc (s : vfs) : bool * vfs :=
  match allocs s with b :: l => (b, with_allocs l s) | [] => (false, s) end.

Definition zalloc (s : vfs) : Z * vfs :=
  let '(ok, s) := take_alloc s in (if ok then new_addr s else 0, s).

(** ** Inodes *)

(** The calling process has the file system user and group [cur]. *)
Definition generic_permission (cur : option (Z * Z)) (i : inode) (mask : Z) : Z :=
  let '(uid, gid) := default (0, 0) cur in
  if uid =? 0 then 0 else
  let bits := if uid =? i_uid i then Z.land (Z.shiftr (i_mode i) 6) 7
              else if gid =? i_gid i then Z.land (Z.shiftr (i_mode i) 3) 7
              else Z.land (i_mode i) 7 in
  if negb (Z.land mask MAY_READ =? 0) && (Z.land bits 4 =? 0) then - EACCES else
  if negb (Z.land mask MAY_WRITE =? 0) && (Z.land bits 2 =? 0) then - EACCES else
  if negb (Z.land mask MAY_EXEC =? 0) && (Z.land bits 1 =? 0) then - EACCES else 0.

(** No inode of the two file systems has a [permission] operation. *)
Definition vfs_check_permission (cur : option (Z * Z)) (i : inode) (mask : Z) : Z :=
  if mask =? 0 then 0 else generic_permission cur i mask.

(** [new_inode] on the superblock [sb]; the rest of the structure is cleared. *)
Definition new_inode (sb : Z) (s : vfs) : Z * vfs :=
  let '(i, s) := zalloc s in
  if i =? 0 then (0, s) else (i, with_inodes (<[i := mkInode 0 0 0 0 0 0 no_inode_ops sb 1]> (inodes s)) s).

Definition inode_init_owner (cur : option (Z * Z)) (dir : inode) (mode : Z) (i : inode) : inode :=
  let '(uid, gid) := default (0, 0) cur in
  let setgid := negb (Z.land (i_mode dir) S_ISGID =? 0) in
  mkInode (i_ino i) (if setgid && S_ISDIR mode then Z.lor mode S_ISGID else mode) (i_nlink i) uid
    (if setgid then i_gid dir else gid) (i_size i) (i_op i) (i_sb i) (i_count i).

Definition ihold (i : Z) (s : vfs) : option vfs :=
  if i =? 0 then Some s else
  ino ← inodes s !! i; Some (with_inodes (<[i := set_i_count (i_count ino + 1) ino]> (inodes s)) s).

(** [axiomfs_delete_inode]: the number is free again when the file has no links. *)
Definition axiomfs_delete_inode (ino : inode) (s : vfs) : vfs :=
  if i_nlink ino =? 0 then with_table (delete (i_ino ino) (inode_table s)) s else s.

Definition delete_inode (ino : inode) (s : vfs) : vfs :=
  match supers s !! i_sb ino with Some axiomfs_fs_type => axiomfs_delete_inode ino s | _ => s end.

Definition iput (i : Z) (s : vfs) : option vfs :=
  if i =? 0 then Some s else
  ino ← inodes s !! i;
  let c := i_count ino - 1 in
  if negb (c =? 0) then Some (with_inodes (<[i := set_i_count c ino]> (inodes s)) s) else
  let s := delete_inode ino s in
  Some (with_inodes (delete i (inodes s)) s).

(** ** Directory entries *)

Definition dget (d : Z) (s : vfs) : option vfs :=
  if d =? 0 then Some s else
  de ← dentries s !! d; Some (with_dentries (<[d := set_d_count (d_count de + 1) de]> (dentries s)) s).

(** [list_del] of the entry from the list of its parent. *)
Definition unlink_child (d p : Z) (s : vfs) : vfs :=
  with_dentries (alter (fun pe => set_d_subdirs (filter (fun c => c <> d) (d_subdirs pe)) pe) p (dentries s)) s.

(** [dput] with [dentry_free]; [fuel] bounds the depth of the tree. *)
Fixpoint dput_loop (fuel : nat) (d : Z) (s : vfs) : option vfs :=
  if d =? 0 then Some s else
  match fuel with
  | O => None
  | S fuel =>
    de ← dentries s !! d;
    let c := d_count de - 1 in
    let s := with_dentries (<[d := set_d_count c de]> (dentries s)) s in
    if negb (c =? 0) then Some s else
    let s := unlink_child d (d_parent de) s in
    s ← (if negb (d_parent de =? 0) && negb (d_parent de =? d) then dput_loop fuel (d_parent de) s else Some s);
    s ← (if negb (d_inode de =? 0) then iput (d_inode de) s else Some s);
    Some (with_dentries (delete d (dentries s)) s)
  end.

Definition dput (d : Z) (s : vfs) : option vfs := dput_loop (S (size (dentries s))) d s.

(** The name is cut at [NAME_MAX] bytes. *)
Definition dentry_alloc (parent : Z) (name : list Z) (s : vfs) : option (Z * vfs) :=
  let '(d, s) := zalloc s in
  if d =? 0 then Some (0, s) else
  let name := take (Z.to_nat NAME_MAX) name in
  if parent =? 0 then Some (d, with_dentries (<[d := mkDentry name 0 d 0 1 []]> (dentries s)) s) else
  s ← dget parent s;
  pe ← dentries s !! parent;
  Some (d, with_dentries (<[d := mkDentry name 0 parent (d_sb pe) 1 []]>
             (<[parent := set_d_subdirs (d :: d_subdirs pe) pe]> (dentries s))) s).

Definition d_instantiate (d i : Z) (s : vfs) : option vfs :=
  de ← dentries s !! d; Some (with_dentries (<[d := set_d_inode i de]> (dentries s)) s).

Definition d_make_root (i : Z) (s : vfs) : option (Z * vfs) :=
  if i =? 0 then Some (0, s) else
  '(d, s) ← dentry_alloc 0 [47] s;
  if d =? 0 then s ← iput i s; Some (0, s) else
  ino ← inodes s !! i;
  de ← dentries s !! d;
  s ← d_instantiate d i (with_dentries (<[d := mkDentry (d_name de) (d_inode de) (d_parent de) (i_sb ino) (d_count de) (d_subdirs de)]> (dentries s)) s);
  Some (d, s).

(** The first entry of [l] with the given name that has an inode. *)
Fixpoint find_child (s : vfs) (name : list Z) (l : list Z) : option (option Z) :=
  match l with
  | [] => Some None
  | c :: l => ce ← dentries s !! c;
              if bool_decide (d_name ce = name) && negb (d_inode ce =? 0) then Some (Some c) else find_child s name l
  end.
