(* ===== verification/DentryProps.v ===== *)
(** * Reference counts of directory entries and inodes

    Every entry is counted by the references outside of the tree and by its
    children, every inode by the references outside and by its entries.  Releasing
    a reference keeps this, and frees exactly what is no longer referenced. *)

From S2P Require Import Prelude Errno Dentry.

(** ** Counting references *)

(** How many values of [m] refer to [x]. *)
Definition refs {A} (f : Z -> A -> Z) (m : gmap Z A) (x : Z) : Z :=
  Z.of_nat (size (filter (fun kv => f kv.1 kv.2 = x) m)).

Definition one (P : Prop) `{Decision P} : Z := if decide P then 1 else 0.

(** One reference more or less; there are none to NULL. *)
Definition bump (R : Z -> Z) (x n : Z) : Z -> Z := fun y => R y + (if (y =? x) && negb (y =? 0) then n else 0).

Lemma alter_id' {A} (g : A -> A) (m : gmap Z A) k : m !! k = None -> alter g k m = m.
Proof. intros Hk. apply map_eq. intros x. destruct (decide (x = k)) as [->|]; [by rewrite lookup_alter_eq, Hk|by rewrite lookup_alter_ne]. Qed.

Lemma size_alter {A} (g : A -> A) (m : gmap Z A) k : size (alter g k m) = size m.
Proof. rewrite <- !(size_dom (D := gset Z)). by rewrite dom_alter_L. Qed.

Section Refs.
Context {A : Type} (f : Z -> A -> Z).
Implicit Types (m : gmap Z A).

Lemma refs_nonneg m x : 0 <= refs f m x.
Proof. unfold refs. lia. Qed.

Lemma refs_new m k v x : m !! k = None -> refs f (<[k := v]> m) x = refs f m x + one (f k v = x).
Proof.
  intros Hk. unfold refs, one. destruct (decide (f k v = x)) as [E|E].
  - rewrite map_filter_insert_True by done. rewrite map_size_insert_None by (apply map_lookup_filter_None; by left). lia.
  - rewrite map_filter_insert_False by done. rewrite delete_id by done. lia.
Qed.

Lemma refs_delete m k v x : m !! k = Some v -> refs f (delete k m) x = refs f m x - one (f k v = x).
Proof.
  intros Hk. rewrite <- (insert_delete_id m k v Hk) at 2. rewrite (refs_new (delete k m) k v x) by apply lookup_delete_eq. lia.
Qed.

Lemma refs_update m k v w x : m !! k = Some v -> refs f (<[k := w]> m) x = refs f m x - one (f k v = x) + one (f k w = x).
Proof.
  intros Hk. rewrite <- insert_delete_eq. rewrite refs_new by apply lookup_delete_eq. by rewrite (refs_delete m k v x Hk).
Qed.

Lemma refs_same m k v w : m !! k = Some v -> f k w = f k v -> forall x, refs f (<[k := w]> m) x = refs f m x.
Proof. intros Hk E x. rewrite (refs_update m k v w x Hk), E. lia. Qed.

Lemma refs_pos m k v : m !! k = Some v -> 1 <= refs f m (f k v).
Proof.
  intros Hk. rewrite <- (insert_delete_id m k v Hk). rewrite refs_new by apply lookup_delete_eq.
  pose proof (refs_nonneg (delete k m) (f k v)). unfold one. rewrite decide_True by done. lia.
Qed.

Lemma refs_zero m x k v : refs f m x = 0 -> m !! k = Some v -> f k v <> x.
Proof. intros H0 Hk <-. pose proof (refs_pos m k v Hk). lia. Qed.

Lemma refs_none m x : (forall k v, m !! k = Some v -> f k v <> x) -> refs f m x = 0.
Proof.
  intros Hn. unfold refs. replace (filter _ m) with (∅ : gmap Z A); [by rewrite map_size_empty|].
  symmetry. apply map_empty. intros k. apply map_lookup_filter_None. right. intros v Hk E. by apply (Hn k v).
Qed.

Lemma refs_alter m k g : (forall v, f k (g v) = f k v) -> forall x, refs f (alter g k m) x = refs f m x.
Proof.
  intros Hg x. destruct (m !! k) as [v|] eqn:Hk; [|by rewrite alter_id' by done].
  rewrite <- (insert_delete_id m k v Hk) at 1. rewrite alter_insert_eq. rewrite insert_delete_eq. by apply (refs_same m k v).
Qed.
End Refs.

Lemma one_False P `{Decision P} : ~ P -> one P = 0.
Proof. intros. unfold one. by rewrite decide_False. Qed.

Lemma one_True P `{Decision P} : P -> one P = 1.
Proof. intros. unfold one. by rewrite decide_True. Qed.

Lemma bump_ne R x n y : y <> x -> bump R x n y = R y.
Proof. intros. unfold bump. rewrite (proj2 (Z.eqb_neq y x)) by done. cbn. lia. Qed.

Lemma bump_eq R x n : x <> 0 -> bump R x n x = R x + n.
Proof. intros. unfold bump. rewrite Z.eqb_refl, (proj2 (Z.eqb_neq x 0)) by done. done. Qed.

Lemma bump_0 R n y : bump R 0 n y = R y.
Proof. unfold bump. destruct (Z.eqb_spec y 0); cbn; lia. Qed.

(** ** The invariant *)

(** The entry that [d] holds a reference to. *)
Definition parent_of (d : Z) (de : dentry) : Z := if d_parent de =? d then 0 else d_parent de.
Definition inode_of (d : Z) (de : dentry) : Z := d_inode de.

(** [R] and [Q] count the references from outside of the tree. *)
Record entry_ok (R : Z -> Z) (s : vfs) (d : Z) (de : dentry) : Prop := {
  eo_pos : 0 < d;
  eo_count : d_count de = R d + refs parent_of (dentries s) d;
  eo_live : 0 < d_count de;
  eo_parent : is_Some (dentries s !! d_parent de);
  eo_inode : d_inode de <> 0 -> is_Some (inodes s !! d_inode de);
  eo_nodup : NoDup (d_subdirs de);
  eo_sub c : c ∈ d_subdirs de -> c <> d /\ exists ce, dentries s !! c = Some ce /\ d_parent ce = d
}.

Record inode_ok (Q : Z -> Z) (s : vfs) (i : Z) (ino : inode) : Prop := {
  io_pos : 0 < i;
  io_count : i_count ino = Q i + refs inode_of (dentries s) i;
  io_live : 0 < i_count ino
}.

Record vfs_ok (R Q : Z -> Z) (s : vfs) : Prop := {
  ok_entry d de : dentries s !! d = Some de -> entry_ok R s d de;
  ok_R d : 0 <= R d /\ (R d <> 0 -> is_Some (dentries s !! d));
  ok_inode i ino : inodes s !! i = Some ino -> inode_ok Q s i ino;
  ok_Q i : 0 <= Q i /\ (Q i <> 0 -> is_Some (inodes s !! i))
}.

Lemma vfs_ok_ext R R' Q Q' s : (forall x, R x = R' x) -> (forall x, Q x = Q' x) -> vfs_ok R Q s -> vfs_ok R' Q' s.
Proof.
  intros HR HQ [He Hr Hi Hq]. split.
  - intros d de Hd. destruct (He d de Hd). split; rewrite <- ?HR; done.
  - intros d. rewrite <- HR. apply Hr.
  - intros i ino Hi'. destruct (Hi i ino Hi'). split; rewrite <- ?HQ; done.
  - intros i. rewrite <- HQ. apply Hq.
Qed.

#[export] Instance vfs_ok_proper : Proper (pointwise_relation Z eq ==> pointwise_relation Z eq ==> eq ==> iff) vfs_ok.
Proof. intros R R' HR Q Q' HQ s ? <-. split; apply vfs_ok_ext; intros x; by rewrite ?HR, ?HQ. Qed.

(** Only the entries and the inodes matter. *)
Lemma vfs_ok_state R Q s s' : dentries s' = dentries s -> inodes s' = inodes s -> vfs_ok R Q s -> vfs_ok R Q s'.
Proof.
  intros Ed Ei [He Hr Hi Hq]. split; rewrite ?Ed, ?Ei; try done.
  - intros d de Hd. destruct (He d de Hd). split; rewrite ?Ed, ?Ei; done.
  - intros i ino Hi'. destruct (Hi i ino Hi'). split; rewrite ?Ed; done.
Qed.

(** What releasing references leaves alone: entries that are still there keep
    everything but their count and the children that are gone. *)
Record kept (s s' : vfs) : Prop := {
  k_allocs : allocs s' = allocs s;
  k_supers : supers s' = supers s;
  k_mounts : mount_table s' = mount_table s;
  k_root : root_dentry s' = root_dentry s;
  k_devices : device_list s' = device_list s;
  k_entry d de' : dentries s' !! d = Some de' -> exists de, dentries s !! d = Some de /\
    de' = set_d_count (d_count de') (set_d_subdirs (filter (fun c => is_Some (dentries s' !! c)) (d_subdirs de)) de);
  k_inode i ino' : inodes s' !! i = Some ino' -> exists ino, inodes s !! i = Some ino /\ ino' = set_i_count (i_count ino') ino
}.

Lemma kept_trans s1 s2 s3 : kept s1 s2 -> kept s2 s3 -> kept s1 s3.
Proof.
  intros [] []. split; try congruence.
  - intros d de3 H3. destruct (k_entry1 d de3 H3) as (de2 & H2 & E3). destruct (k_entry0 d de2 H2) as (de1 & H1 & E2).
    exists de1. split; [done|]. rewrite E3, E2. cbn. unfold set_d_count, set_d_subdirs. cbn. f_equal.
    rewrite list_filter_filter. apply list_filter_iff. intros c. split; [tauto|]. intros Hc. split; [done|].
    destruct Hc as [ce Hc]. destruct (k_entry1 c ce Hc) as (ce2 & -> & _). by eexists.
  - intros i ino3 H3. destruct (k_inode1 i ino3 H3) as (i2 & H2 & E3). destruct (k_inode0 i i2 H2) as (i1 & H1 & E2).
    exists i1. split; [done|]. by rewrite E3, E2.
Qed.

Lemma set_d_count_id de : set_d_count (d_count de) de = de.
Proof. by destruct de. Qed.

Lemma set_d_subdirs_id de l : l = d_subdirs de -> set_d_subdirs l de = de.
Proof. intros ->. by destruct de. Qed.

Lemma set_i_count_id i : set_i_count (i_count i) i = i.
Proof. by destruct i. Qed.

Lemma filter_all {A} (P : A -> Prop) `{forall x, Decision (P x)} (l : list A) : (forall x, x ∈ l -> P x) -> filter P l = l.
Proof.
  induction l as [|x l IH]; intros Hl; [done|]. rewrite filter_cons_True by (apply Hl; left). f_equal. apply IH. intros y Hy. apply Hl. by right.
Qed.

Lemma list_filter_iff' {A} (P P' : A -> Prop) `{forall x, Decision (P x), forall x, Decision (P' x)} (l : list A) :
  (forall x, x ∈ l -> P x <-> P' x) -> filter P l = filter P' l.
Proof.
  induction l as [|x l IH]; intros Hl; [done|]. rewrite !filter_cons. rewrite IH by (intros y Hy; apply Hl; by right).
  pose proof (Hl x ltac:(left)). repeat case_decide; tauto.
Qed.

(** In a consistent tree all children are there. *)
Lemma subdirs_all R Q s d de : vfs_ok R Q s -> dentries s !! d = Some de ->
  filter (fun c => is_Some (dentries s !! c)) (d_subdirs de) = d_subdirs de.
Proof.
  intros Hok Hd. apply filter_all. intros c Hc. destruct (eo_sub _ _ _ _ (ok_entry _ _ _ Hok d de Hd) c Hc) as (_ & ce & -> & _). by eexists.
Qed.

Lemma kept_refl R Q s : vfs_ok R Q s -> kept s s.
Proof.
  intros Hok. split; try done.
  - intros d de Hd. exists de. split; [done|]. rewrite (subdirs_all R Q s d de Hok Hd), set_d_subdirs_id by done. by rewrite set_d_count_id.
  - intros i ino Hi. exists ino. by rewrite set_i_count_id.
Qed.

(** ** Inodes *)

Section Inodes.
Context (R Q : Z -> Z) (s : vfs).
Hypothesis Hok : vfs_ok R Q s.

Lemma set_inode_ok i ino ino' n : inodes s !! i = Some ino -> i_count ino' = i_count ino + n -> 0 < i_count ino' -> 0 <= Q i + n ->
  vfs_ok R (bump Q i n) (with_inodes (<[i := ino']> (inodes s)) s).
Proof.
  intros Hi Hc Hl Hq. destruct Hok as [He Hr Hin HQ]. pose proof (io_pos _ _ _ _ (Hin i ino Hi)). split; cbn.
  - intros d de Hd. destruct (He d de Hd). split; cbn; try done. intros Hz. rewrite lookup_insert_is_Some. destruct (decide (i = d_inode de)); [by left|right; auto].
  - done.
  - intros j jno Hj. destruct (decide (j = i)) as [->|Hne].
    + rewrite lookup_insert_eq in Hj. simplify_eq. split; cbn; [done| |done]. rewrite Hc, (io_count _ _ _ _ (Hin i ino Hi)), bump_eq by lia. lia.
    + rewrite lookup_insert_ne in Hj by done. destruct (Hin j jno Hj). split; cbn; [done|rewrite bump_ne by done; done|done].
  - intros j. destruct (decide (j = i)) as [->|Hne].
    + rewrite bump_eq by lia. split; [lia|]. intros _. rewrite lookup_insert_eq. by eexists.
    + rewrite bump_ne by done. rewrite lookup_insert_ne by done. apply HQ.
Qed.

Lemma set_inode_kept i ino c : inodes s !! i = Some ino -> kept s (with_inodes (<[i := set_i_count c ino]> (inodes s)) s).
Proof.
  intros Hi. destruct (kept_refl R Q s Hok). split; cbn; try done. intros j jno Hj. destruct (decide (j = i)) as [->|Hne].
  - rewrite lookup_insert_eq in Hj. simplify_eq. by exists ino.
  - rewrite lookup_insert_ne in Hj by done. by apply k_inode0.
Qed.

Lemma iput_ok i : i = 0 \/ 0 < Q i ->
  exists s', iput i s = Some s' /\ vfs_ok R (bump Q i (-1)) s' /\ kept s s' /\ dentries s' = dentries s.
Proof.
  intros [->|Hq].
  { exists s. split_and!; [done| |by apply (kept_refl R Q)|done]. apply (vfs_ok_ext R R Q); [done| |done]. intros x. by rewrite bump_0. }
  destruct (proj2 (ok_Q _ _ _ Hok i) ltac:(lia)) as [ino Hi]. pose proof (ok_inode _ _ _ Hok i ino Hi) as [Hp Hc Hl].
  unfold iput. rewrite (proj2 (Z.eqb_neq i 0)) by lia. rewrite Hi. cbn [mbind option_bind].
  destruct (Z.eqb_spec (i_count ino - 1) 0) as [E|E]; cbn [negb].
  2: { eexists. split; [done|]. split_and!; [|by apply set_inode_kept|done]. apply (set_inode_ok i ino); cbn; [done|lia..]. }
  assert (Hd : dentries (delete_inode ino s) = dentries s /\ inodes (delete_inode ino s) = inodes s) by (unfold delete_inode, axiomfs_delete_inode; repeat case_match; done).
  destruct Hd as [Hd Hd']. eexists. split; [done|]. pose proof (refs_nonneg inode_of (dentries s) i).
  split_and!; [|destruct (kept_refl R Q s Hok); split; unfold delete_inode, axiomfs_delete_inode; repeat case_match; cbn; try done; intros j jno [_ Hj]%lookup_delete_Some; by apply k_inode0|done].
  destruct Hok as [He Hr Hin HQ]. split; cbn; rewrite ?Hd, ?Hd'.
  - intros d de Hde. destruct (He d de Hde). split; cbn; rewrite ?Hd, ?Hd'; try done. intros Hz. destruct (decide (d_inode de = i)) as [<-|].
    + exfalso. pose proof (refs_pos inode_of _ _ _ Hde) as Hpos. unfold inode_of at 2 in Hpos. lia.
    + rewrite lookup_delete_ne by done. auto.
  - done.
  - intros j jno [Hne Hj]%lookup_delete_Some. destruct (Hin j jno Hj). split; cbn; rewrite ?Hd; [done|rewrite bump_ne by done; done|done].
  - intros j. destruct (decide (j = i)) as [->|Hne].
    + rewrite bump_eq by lia. split; [lia|]. intros Hz. lia.
    + rewrite bump_ne by done. rewrite lookup_delete_ne by done. apply HQ.
Qed.
End Inodes.

(** ** Entries *)

Section Entries.
Context (R Q : Z -> Z) (s : vfs).
Hypothesis Hok : vfs_ok R Q s.

(** Changing an entry without its references. *)
Lemma set_entry_ok d de de' n : dentries s !! d = Some de -> d_parent de' = d_parent de -> d_inode de' = d_inode de ->
  NoDup (d_subdirs de') -> (forall c, c ∈ d_subdirs de' -> c ∈ d_subdirs de) ->
  d_count de' = d_count de + n -> 0 < d_count de' -> 0 <= R d + n ->
  vfs_ok (bump R d n) Q (with_dentries (<[d := de']> (dentries s)) s).
Proof.
  intros Hd Hp Hi Hnd Hsub Hc Hl Hr. destruct Hok as [He HR Hin HQ]. pose proof (He d de Hd) as Hde. pose proof (eo_pos _ _ _ _ Hde).
  assert (Hpar : forall x, refs parent_of (<[d := de']> (dentries s)) x = refs parent_of (dentries s) x)
    by (apply (refs_same _ _ _ de); [done|unfold parent_of; by rewrite Hp]).
  assert (Hino : forall x, refs inode_of (<[d := de']> (dentries s)) x = refs inode_of (dentries s) x)
    by (apply (refs_same _ _ _ de); [done|done]).
  assert (Hchild : forall e c, (exists ce, dentries s !! c = Some ce /\ d_parent ce = e) -> exists ce, <[d := de']> (dentries s) !! c = Some ce /\ d_parent ce = e).
  { intros e c (ce & Hce & Ep). destruct (decide (c = d)) as [->|]; [|by exists ce; rewrite lookup_insert_ne by done].
    exists de'. rewrite lookup_insert_eq. split; [done|]. rewrite Hp. congruence. }
  assert (Hdom : forall x, is_Some (dentries s !! x) -> is_Some (<[d := de']> (dentries s) !! x)) by (intros x Hx; rewrite lookup_insert_is_Some'; by right).
  split; cbn.
  - intros x xe Hx. destruct (decide (x = d)) as [->|Hne].
    + rewrite lookup_insert_eq in Hx. simplify_eq. destruct Hde. split; cbn; [done| |done|..].
      * rewrite Hpar, bump_eq by lia. lia.
      * rewrite Hp. auto.
      * rewrite Hi. done.
      * done.
      * intros c Hc'. destruct (eo_sub0 c (Hsub c Hc')). split; [done|]. by apply Hchild.
    + rewrite lookup_insert_ne in Hx by done. destruct (He x xe Hx). split; cbn; rewrite ?Hpar, ?bump_ne by done; auto.
      intros c Hc'. destruct (eo_sub0 c Hc'). split; [done|]. by apply Hchild.
  - intros x. destruct (decide (x = d)) as [->|Hne].
    + rewrite bump_eq by lia. split; [lia|]. intros _. rewrite lookup_insert_eq. by eexists.
    + rewrite bump_ne by done. destruct (HR x). split; [done|]. auto.
  - intros i ino Hino'. destruct (Hin i ino Hino'). split; cbn; rewrite ?Hino; done.
  - done.
Qed.

Lemma set_count_ok d de n : dentries s !! d = Some de -> 0 < d_count de + n -> 0 <= R d + n ->
  vfs_ok (bump R d n) Q (with_dentries (<[d := set_d_count (d_count de + n) de]> (dentries s)) s).
Proof. intros Hd Hl Hr. by apply (set_entry_ok d de); [..|apply (eo_nodup _ _ _ _ (ok_entry _ _ _ Hok d de Hd))| | | |]. Qed.

Lemma set_count_kept d de c : dentries s !! d = Some de -> kept s (with_dentries (<[d := set_d_count c de]> (dentries s)) s).
Proof.
  intros Hd. split; cbn; try done; [|by destruct (kept_refl R Q s Hok)].
  assert (Hall : forall x xe, dentries s !! x = Some xe ->
      filter (fun c0 => is_Some (<[d := set_d_count c de]> (dentries s) !! c0)) (d_subdirs xe) = d_subdirs xe).
  { intros x xe Hx. rewrite <- (subdirs_all R Q s x xe Hok Hx) at 2. apply list_filter_iff. intros y. rewrite lookup_insert_is_Some'.
    split; [intros [->|]; [by eexists|done]|by right]. }
  intros x xe Hx. destruct (decide (x = d)) as [->|Hne].
  - rewrite lookup_insert_eq in Hx. simplify_eq. exists de. split; [done|]. by rewrite (Hall d de Hd), set_d_subdirs_id.
  - rewrite lookup_insert_ne in Hx by done. exists xe. split; [done|]. rewrite (Hall x xe Hx), set_d_subdirs_id by done. by rewrite set_d_count_id.
Qed.

Lemma dget_ok d : d = 0 \/ is_Some (dentries s !! d) -> exists s', dget d s = Some s' /\ vfs_ok (bump R d 1) Q s' /\ kept s s'.
Proof.
  intros [->|[de Hd]].
  { exists s. split; [done|]. split; [|by apply (kept_refl R Q)]. apply (vfs_ok_ext R _ Q Q); [|done|done]. intros x. by rewrite bump_0. }
  destruct (ok_entry _ _ _ Hok d de Hd). unfold dget. rewrite (proj2 (Z.eqb_neq d 0)) by lia. rewrite Hd. eexists. split; [done|].
  split; [|by apply set_count_kept]. apply set_count_ok; [done|lia|]. pose proof (proj1 (ok_R _ _ _ Hok d)). lia.
Qed.

(** ** Taking an entry without references out of the tree *)

(** The tree without the entry [d]; its references become references from
    outside. *)
Definition detached (d : Z) (de : dentry) : vfs := unlink_child d (d_parent de) (with_dentries (delete d (dentries s)) s).

Lemma detached_lookup d de x xe' : dentries (detached d de) !! x = Some xe' ->
  x <> d /\ exists xe, dentries s !! x = Some xe /\
    xe' = set_d_subdirs (if decide (x = d_parent de) then filter (fun c => c <> d) (d_subdirs xe) else d_subdirs xe) xe.
Proof.
  cbn. intros Hx. destruct (decide (x = d_parent de)) as [->|Hne].
  - rewrite lookup_alter_eq in Hx. apply fmap_Some in Hx as (xe & [Hd Hx]%lookup_delete_Some & ->). split; [done|]. by exists xe.
  - rewrite lookup_alter_ne in Hx by done. apply lookup_delete_Some in Hx as [Hd Hx]. split; [done|]. exists xe'. by rewrite set_d_subdirs_id.
Qed.

Lemma detached_dom d de x : x <> d -> is_Some (dentries s !! x) -> is_Some (dentries (detached d de) !! x).
Proof. intros Hx [xe Hxe]. cbn. rewrite lookup_alter_is_Some, lookup_delete_ne by done. by eexists. Qed.

Lemma detached_refs d de : dentries s !! d = Some de ->
  (forall x, refs parent_of (dentries (detached d de)) x = refs parent_of (dentries s) x - one (parent_of d de = x)) /\
  (forall x, refs inode_of (dentries (detached d de)) x = refs inode_of (dentries s) x - one (inode_of d de = x)).
Proof. intros Hd. split; intros x; cbn; rewrite refs_alter by done; by rewrite (refs_delete _ _ d de). Qed.

Lemma detached_ok d de : dentries s !! d = Some de -> R d = 1 -> d_count de = 1 ->
  vfs_ok (bump (bump R d (-1)) (parent_of d de) 1) (bump Q (d_inode de) 1) (detached d de).
Proof.
  intros Hd Hr Hc. pose proof Hok as [He HR Hin HQ]. pose proof (He d de Hd) as Hde. pose proof (eo_pos _ _ _ _ Hde) as Hp.
  destruct (detached_refs d de Hd) as [Hpar Hino]. pose proof (eo_count _ _ _ _ Hde) as Hcnt.
  assert (H0 : refs parent_of (dentries s) d = 0) by lia.
  assert (Hnp : forall x xe, dentries s !! x = Some xe -> d_parent xe = d -> x = d).
  { intros x xe Hx Ex. pose proof (refs_zero parent_of _ _ _ _ H0 Hx) as Hz. unfold parent_of in Hz. rewrite Ex in Hz.
    destruct (Z.eqb_spec d x); [done|]. done. }
  assert (Hpd : parent_of d de <> d) by (unfold parent_of; destruct (Z.eqb_spec (d_parent de) d); lia).
  split.
  - intros x xe' Hx. destruct (detached_lookup d de x xe' Hx) as (Hne & xe & Hxe & ->). destruct (He x xe Hxe).
    assert (Hpx : is_Some (dentries (detached d de) !! d_parent xe)).
    { apply detached_dom; [|done]. intros E. by apply Hne, (Hnp x xe). }
    assert (Hsub : forall c, c ∈ d_subdirs xe -> c <> d -> c <> x /\ exists ce, dentries (detached d de) !! c = Some ce /\ d_parent ce = x).
    { intros c Hcx Hcd. destruct (eo_sub0 c Hcx) as (Hcx' & ce & Hce & Ep). split; [done|].
      destruct (detached_dom d de c Hcd ltac:(by eexists)) as [ce' Hce']. exists ce'. split; [done|].
      destruct (detached_lookup d de c ce' Hce') as (_ & ce2 & Hce2 & ->). cbn. congruence. }
    split; cbn [d_parent d_inode d_count d_subdirs set_d_subdirs]; try done.
    + rewrite Hpar, eo_count0. unfold bump, one. destruct (decide (parent_of d de = x)) as [<-|Hpx'].
      * rewrite Z.eqb_refl, (proj2 (Z.eqb_neq (parent_of d de) d)), (proj2 (Z.eqb_neq (parent_of d de) 0)) by (done || lia). cbn. lia.
      * rewrite (proj2 (Z.eqb_neq x d)), (proj2 (Z.eqb_neq x (parent_of d de))) by congruence. cbn. lia.
    + case_match; [by apply NoDup_filter|done].
    + intros c Hcx. destruct (decide (x = d_parent de)) as [->|Hpne].
      * apply list_elem_of_filter in Hcx as [Hcd Hcx]. by apply Hsub.
      * apply Hsub; [done|]. intros ->. destruct (eo_sub0 d Hcx) as (_ & ce & Hce & Ep). congruence.
  - intros x. destruct (HR x) as [Hx0 Hx1]. unfold bump. split.
    + destruct (Z.eqb_spec x d) as [->|]; cbn; [|repeat case_match; lia]. rewrite (proj2 (Z.eqb_neq d 0)) by lia. rewrite (proj2 (Z.eqb_neq d (parent_of d de))) by congruence. cbn. lia.
    + destruct (Z.eqb_spec x d) as [->|Hxd]; cbn.
      { rewrite (proj2 (Z.eqb_neq d 0)) by lia. rewrite (proj2 (Z.eqb_neq d (parent_of d de))) by congruence. cbn. lia. }
      intros Hz. apply detached_dom; [done|]. destruct (Z.eqb_spec x (parent_of d de)) as [->|]; cbn in Hz; [|apply Hx1; lia].
      unfold parent_of in *. destruct (Z.eqb_spec (d_parent de) d); [cbn in Hz; apply Hx1; lia|]. apply (eo_parent _ _ _ _ Hde).
  - intros i ino Hi. destruct (Hin i ino Hi). split; [done| |done]. rewrite Hino, io_count0. change (inode_of d de) with (d_inode de). unfold bump, one.
    destruct (decide (d_inode de = i)) as [<-|]; [rewrite Z.eqb_refl, (proj2 (Z.eqb_neq (d_inode de) 0)) by lia; cbn; lia|].
    rewrite (proj2 (Z.eqb_neq i (d_inode de))) by congruence. cbn. lia.
  - intros i. destruct (HQ i) as [Hi0 Hi1]. unfold bump. destruct (Z.eqb_spec i (d_inode de)) as [->|]; cbn; [|rewrite Z.add_0_r; done].
    destruct (Z.eqb_spec (d_inode de) 0); cbn; [rewrite Z.add_0_r; done|]. split; [lia|]. intros _. by apply (eo_inode _ _ _ _ Hde).
Qed.

Lemma detached_kept d de : dentries s !! d = Some de -> refs parent_of (dentries s) d = 0 -> kept s (detached d de).
Proof.
  intros Hd H0. split; try done; [|by destruct (kept_refl R Q s Hok)].
  intros x xe' Hx. destruct (detached_lookup d de x xe' Hx) as (Hne & xe & Hxe & ->). exists xe. split; [done|].
  assert (E : (if decide (x = d_parent de) then filter (fun c => c <> d) (d_subdirs xe) else d_subdirs xe)
              = filter (fun c => is_Some (dentries (detached d de) !! c)) (d_subdirs xe)).
  { pose proof (eo_sub _ _ _ _ (ok_entry _ _ _ Hok x xe Hxe)) as Hsub. destruct (decide (x = d_parent de)) as [->|Hp].
    - apply list_filter_iff'. intros c Hc. destruct (Hsub c Hc) as (_ & ce & Hce & _). split.
      + intros Hcd. apply detached_dom; [done|by eexists].
      + intros [ce' Hce'] ->. by destruct (detached_lookup d de d ce' Hce').
    - symmetry. apply filter_all. intros c Hc. destruct (Hsub c Hc) as (_ & ce & Hce & Ep). apply detached_dom; [|by eexists]. intros ->. congruence. }
  rewrite E. by destruct xe.
Qed.
End Entries.

(** ** Releasing an entry *)

Lemma with_dentries_id s : with_dentries (dentries s) s = s.
Proof. by destruct s. Qed.

Lemma iput_dentries i s s' m : iput i s = Some s' -> dentries s' = dentries s /\ iput i (with_dentries m s) = Some (with_dentries m s').
Proof.
  unfold iput. destruct (i =? 0); [by intros [= <-]|]. cbn. destruct (inodes s !! i) as [ino|]; [|done]. cbn.
  destruct (negb _); [by intros [= <-]|]. unfold delete_inode, axiomfs_delete_inode. cbn.
  repeat case_match; intros [= <-]; done.
Qed.

(** An entry that is being freed while its ancestors are released is not looked
    at: the release goes as it does in the tree without it. *)
Lemma dput_zombie d z : d <> 0 -> forall fuel p s s', dentries s !! d = None -> dput_loop fuel p s = Some s' ->
  dentries s' !! d = None /\
  dput_loop fuel p (with_dentries (<[d := z]> (dentries s)) s) = Some (with_dentries (<[d := z]> (dentries s')) s').
Proof.
  intros Hd0. induction fuel as [|fuel IH]; intros p s s' Hd E; cbn [dput_loop] in *.
  { destruct (p =? 0); [|done]. by simplify_eq. }
  destruct (p =? 0); [by simplify_eq|]. apply bind_Some in E as (pe & Hp & E).
  assert (Hpd : p <> d) by congruence. cbn [dentries with_dentries]. rewrite lookup_insert_ne by done. rewrite Hp. cbn [mbind option_bind].
  destruct (negb (d_count pe - 1 =? 0)).
  { simplify_eq. cbn. rewrite lookup_insert_ne by done. split; [done|]. by rewrite insert_insert_ne by done. }
  set (s1 := unlink_child p (d_parent pe) (with_dentries (<[p := set_d_count (d_count pe - 1) pe]> (dentries s)) s)) in E.
  assert (H1d : dentries s1 !! d = None).
  { subst s1. cbn. apply eq_None_not_Some. rewrite lookup_alter_is_Some, lookup_insert_ne by done. rewrite Hd. by intros []. }
  assert (Hq : d_parent pe <> d).
  { intros Ep. rewrite Ep in E. rewrite (proj2 (Z.eqb_neq d 0)), (proj2 (Z.eqb_neq d p)) in E by done. cbn [negb andb] in E.
    apply bind_Some in E as (s2 & E & _). destruct fuel; cbn [dput_loop] in E; rewrite (proj2 (Z.eqb_neq d 0)) in E by done; [done|].
    by rewrite H1d in E. }
  assert (Es1 : unlink_child p (d_parent pe) (with_dentries (<[p := set_d_count (d_count pe - 1) pe]> (<[d := z]> (dentries s)))
                  (with_dentries (<[d := z]> (dentries s)) s)) = with_dentries (<[d := z]> (dentries s1)) s1).
  { subst s1. unfold unlink_child. cbn. rewrite insert_insert_ne by done. by rewrite alter_insert_ne by done. }
  rewrite Es1. apply bind_Some in E as (s2 & E2 & E). apply bind_Some in E as (s3 & E3 & E).
  assert (H2 : dentries s2 !! d = None /\
      (if negb (d_parent pe =? 0) && negb (d_parent pe =? p) then dput_loop fuel (d_parent pe) (with_dentries (<[d := z]> (dentries s1)) s1)
       else Some (with_dentries (<[d := z]> (dentries s1)) s1)) = Some (with_dentries (<[d := z]> (dentries s2)) s2)).
  { destruct (negb (d_parent pe =? 0) && negb (d_parent pe =? p)); [by apply IH|]. by simplify_eq. }
  destruct H2 as [H2d H2]. rewrite H2. cbn [mbind option_bind].
  assert (H3 : dentries s3 = dentries s2 /\
      (if negb (d_inode pe =? 0) then iput (d_inode pe) (with_dentries (<[d := z]> (dentries s2)) s2) else Some (with_dentries (<[d := z]> (dentries s2)) s2))
      = Some (with_dentries (<[d := z]> (dentries s2)) s3)).
  { destruct (negb (d_inode pe =? 0)); [by apply iput_dentries|]. by simplify_eq. }
  destruct H3 as [H3d H3]. rewrite H3. cbn [mbind option_bind]. simplify_eq. cbn. rewrite H3d. split.
  - apply lookup_delete_None. by right.
  - by rewrite delete_insert_ne by done.
Qed.

(** The last reference to an entry: it is taken out of the tree, and then its
    references are released. *)
Lemma dput_last fuel d de s s1 s2 : 0 < d -> dentries s !! d = Some de -> d_count de = 1 ->
  dput_loop fuel (parent_of d de) (detached s d de) = Some s1 -> iput (d_inode de) s1 = Some s2 -> dput_loop (S fuel) d s = Some s2.
Proof.
  intros Hd0 Hd Hc E1 E2. cbn [dput_loop]. rewrite (proj2 (Z.eqb_neq d 0)) by lia. rewrite Hd. cbn [mbind option_bind].
  rewrite Hc. change (1 - 1) with 0. cbn [Z.eqb negb]. set (z := set_d_count 0 de).
  set (z' := if decide (d_parent de = d) then set_d_subdirs (filter (fun c => c <> d) (d_subdirs z)) z else z).
  assert (Hnone : dentries (detached s d de) !! d = None).
  { apply eq_None_not_Some. intros [x Hx]. by destruct (detached_lookup s d de d x Hx). }
  assert (Es : unlink_child d (d_parent de) (with_dentries (<[d := z]> (dentries s)) s) = with_dentries (<[d := z']> (dentries (detached s d de))) (detached s d de)).
  { unfold detached, unlink_child. cbn [with_dentries dentries]. unfold with_dentries. f_equal. subst z'. apply map_eq. intros x. destruct (decide (x = d)) as [->|Hx].
    - rewrite lookup_insert_eq. destruct (decide (d_parent de = d)) as [->|].
      + by rewrite lookup_alter_eq, lookup_insert_eq.
      + by rewrite lookup_alter_ne, lookup_insert_eq by done.
    - rewrite lookup_insert_ne by done. destruct (decide (x = d_parent de)) as [->|].
      + by rewrite !lookup_alter_eq, lookup_insert_ne, lookup_delete_ne by done.
      + by rewrite !lookup_alter_ne, lookup_insert_ne, lookup_delete_ne by done. }
  rewrite Es. destruct (dput_zombie d z' ltac:(lia) fuel _ _ _ Hnone E1) as [Hn1 Ez].
  assert (Ep : (if negb (d_parent de =? 0) && negb (d_parent de =? d) then dput_loop fuel (d_parent de) (with_dentries (<[d := z']> (dentries (detached s d de))) (detached s d de))
       else Some (with_dentries (<[d := z']> (dentries (detached s d de))) (detached s d de))) = Some (with_dentries (<[d := z']> (dentries s1)) s1)).
  { unfold parent_of in *. destruct (Z.eqb_spec (d_parent de) d); cbn [negb andb].
    - rewrite andb_false_r. rewrite <- Ez. by destruct fuel.
    - destruct (Z.eqb_spec (d_parent de) 0) as [E|]; cbn [negb andb]; [|done]. rewrite <- Ez. rewrite E. by destruct fuel. }
  rewrite Ep. cbn [mbind option_bind]. destruct (iput_dentries _ _ _ (<[d := z']> (dentries s1)) E2) as [Ed2 Ei].
  assert (Ei' : (if negb (d_inode de =? 0) then iput (d_inode de) (with_dentries (<[d := z']> (dentries s1)) s1) else Some (with_dentries (<[d := z']> (dentries s1)) s1))
      = Some (with_dentries (<[d := z']> (dentries s1)) s2)).
  { destruct (Z.eqb_spec (d_inode de) 0) as [E|]; cbn [negb]; [|done]. rewrite E in Ei. done. }
  rewrite Ei'. change (Some (with_dentries (delete d (<[d := z']> (dentries s1))) s2) = Some s2).
  rewrite delete_insert_id by done. by rewrite <- Ed2, with_dentries_id.
Qed.

Lemma dput_loop_ok fuel d : forall R Q s, vfs_ok R Q s -> d = 0 \/ 0 < R d -> (size (dentries s) < fuel)%nat ->
  exists s', dput_loop fuel d s = Some s' /\ vfs_ok (bump R d (-1)) Q s' /\ kept s s'.
Proof.
  revert d. induction fuel as [|fuel IH]; intros d R Q s Hok Hd Hf; [lia|]. destruct Hd as [->|Hr].
  { exists s. split; [done|]. split; [|by apply (kept_refl R Q)]. apply (vfs_ok_ext R _ Q Q); [|done|done]. intros x. by rewrite bump_0. }
  destruct (proj2 (ok_R _ _ _ Hok d) ltac:(lia)) as [de Hde]. pose proof (ok_entry _ _ _ Hok d de Hde) as He. destruct He.
  pose proof (refs_nonneg parent_of (dentries s) d).
  destruct (decide (d_count de = 1)) as [Hc|Hc].
  - pose proof (detached_ok R Q s Hok d de Hde ltac:(lia) Hc) as Hok1.
    destruct (IH (parent_of d de) _ _ _ Hok1) as (s1 & E1 & Hok2 & Hk1).
    { destruct (decide (parent_of d de = 0)) as [|Hp]; [by left|right]. rewrite bump_eq by done. unfold bump. repeat case_match; zbool; try lia.
      all: pose proof (proj1 (ok_R _ _ _ Hok (parent_of d de))); try lia. exfalso. unfold parent_of in *. case_match; zbool; lia. }
    { cbn. rewrite size_alter, map_size_delete, Hde. cbn. pose proof (map_size_ne_0_lookup_2 (dentries s) d ltac:(by eexists)). lia. }
    destruct (iput_ok _ _ _ Hok2 (d_inode de)) as (s2 & E2 & Hok3 & Hk2 & _).
    { destruct (decide (d_inode de = 0)) as [|Hi]; [by left|right]. rewrite bump_eq by done. pose proof (proj1 (ok_Q _ _ _ Hok (d_inode de))). lia. }
    exists s2. split; [by apply (dput_last fuel d de s s1 s2)|]. split.
    + eapply vfs_ok_ext; [..|exact Hok3]; intros x; unfold bump; repeat case_match; lia.
    + eapply kept_trans; [apply (detached_kept R Q); [done|done|lia]|]. by eapply kept_trans.
  - cbn [dput_loop]. rewrite (proj2 (Z.eqb_neq d 0)) by lia. rewrite Hde. cbn [mbind option_bind].
    destruct (Z.eqb_spec (d_count de - 1) 0); [lia|]. cbn [negb]. eexists. split; [done|].
    split; [|by apply (set_count_kept R Q)]. apply (set_count_ok R Q s Hok d de (-1)); [done|lia..].
Qed.

(** ** Making entries and inodes *)

Lemma addr_above_spec l x : x ∈ l -> x < addr_above l.
Proof.
  unfold addr_above. induction l as [|y l IH]; intros Hx; [by apply elem_of_nil in Hx|]. cbn.
  apply elem_of_cons in Hx as [->|Hx]; [lia|]. specialize (IH Hx). lia.
Qed.

Lemma addr_above_pos l : 0 < addr_above l.
Proof. unfold addr_above. induction l; cbn; lia. Qed.

Lemma new_addr_fresh s : 0 < new_addr s /\ dentries s !! new_addr s = None /\ inodes s !! new_addr s = None.
Proof.
  split; [apply addr_above_pos|].
  assert (Hfresh : forall x, is_Some (inodes s !! x) \/ is_Some (dentries s !! x) -> x < new_addr s).
  { intros x Hx. apply addr_above_spec. rewrite !elem_of_app, !list_elem_of_fmap. destruct Hx as [[v Hv]|[v Hv]]; [left|right; left]; exists (x, v);
      (split; [done|by apply elem_of_map_to_list]). }
  split; apply eq_None_not_Some; intros Hs; [pose proof (Hfresh (new_addr s) (or_intror Hs))|pose proof (Hfresh (new_addr s) (or_introl Hs))]; lia.
Qed.

Lemma zalloc_spec s p s' : zalloc s = (p, s') -> (exists l, s' = with_allocs l s) /\ (p = 0 \/ 0 < p /\ dentries s !! p = None /\ inodes s !! p = None).
Proof.
  unfold zalloc, take_alloc. destruct (allocs s) as [|b l] eqn:Ea; intros E; simplify_eq.
  - split; [|by left]. exists (allocs s'). by destruct s'.
  - split; [by exists l|]. destruct b; [|by left]. right. apply (new_addr_fresh (with_allocs l s)).
Qed.

Lemma take_alloc_spec s b s' : take_alloc s = (b, s') -> exists l, s' = with_allocs l s.
Proof. unfold take_alloc. destruct (allocs s) eqn:Ea; intros E; simplify_eq; [exists (allocs s'); by destruct s'|by eexists]. Qed.

Lemma allocs_ok R Q s l : vfs_ok R Q s -> vfs_ok R Q (with_allocs l s).
Proof. by apply vfs_ok_state. Qed.

Section Make.
Context (R Q : Z -> Z) (s : vfs).
Hypothesis Hok : vfs_ok R Q s.

(** A new entry below [parent], without inode. *)
Lemma add_child_ok parent pe d name : dentries s !! parent = Some pe -> 0 < d -> dentries s !! d = None ->
  vfs_ok (bump R d 1) Q (with_dentries (<[d := mkDentry name 0 parent (d_sb pe) 1 []]>
    (<[parent := set_d_subdirs (d :: d_subdirs pe) (set_d_count (d_count pe + 1) pe)]> (dentries s))) s).
Proof.
  intros Hp Hd0 Hd. pose proof Hok as [He HR Hin HQ]. assert (Hdp : d <> parent) by congruence. pose proof (He parent pe Hp) as Hpe.
  set (pe' := set_d_subdirs _ _). set (de := mkDentry _ _ _ _ _ _). set (m' := <[parent := pe']> (dentries s)).
  assert (Hm'd : m' !! d = None) by (subst m'; by rewrite lookup_insert_ne).
  assert (Hpar : forall x, refs parent_of (<[d := de]> m') x = refs parent_of (dentries s) x + one (parent = x)).
  { intros x. rewrite (refs_new parent_of m' d de x Hm'd). f_equal; [by apply (refs_same parent_of _ _ pe)|].
    unfold parent_of. cbn. by rewrite (proj2 (Z.eqb_neq parent d)) by done. }
  assert (Hino : forall x, x <> 0 -> refs inode_of (<[d := de]> m') x = refs inode_of (dentries s) x).
  { intros x Hx. rewrite (refs_new inode_of m' d de x Hm'd), one_False by (unfold inode_of; cbn; congruence).
    rewrite Z.add_0_r. by apply (refs_same inode_of _ _ pe). }
  assert (Hchild : forall e c, (exists ce, dentries s !! c = Some ce /\ d_parent ce = e) -> exists ce, <[d := de]> m' !! c = Some ce /\ d_parent ce = e).
  { intros e c (ce & Hce & Ep). rewrite lookup_insert_ne by congruence. destruct (decide (c = parent)) as [->|].
    - subst m'. rewrite lookup_insert_eq. eexists. split; [done|]. cbn. congruence.
    - subst m'. rewrite lookup_insert_ne by done. by exists ce. }
  assert (Hdom : forall x, is_Some (dentries s !! x) -> is_Some (<[d := de]> m' !! x))
    by (intros x Hx; subst m'; rewrite !lookup_insert_is_Some'; by right; right).
  assert (H0 : R d = 0) by (destruct (decide (R d = 0)) as [|Hn]; [done|]; destruct (proj2 (HR d) Hn); congruence).
  split; cbn.
  - intros x xe Hx. destruct (decide (x = d)) as [->|Hxd].
    + rewrite lookup_insert_eq in Hx. injection Hx as <-. split; cbn; try done.
      * rewrite Hpar, one_False, bump_eq, H0 by congruence || lia. rewrite refs_none; [done|]. intros k v Hk Ek.
        unfold parent_of in Ek. destruct (Z.eqb_spec (d_parent v) k); [lia|]. destruct (eo_parent _ _ _ _ (He k v Hk)). congruence.
      * apply Hdom. by eexists.
      * by apply NoDup_nil.
      * by intros c ?%elem_of_nil.
    + rewrite lookup_insert_ne in Hx by done. subst m'. destruct (decide (x = parent)) as [->|Hxp].
      * rewrite lookup_insert_eq in Hx. injection Hx as <-. destruct Hpe. split; cbn; try done.
        -- rewrite Hpar, one_True, bump_ne by done. lia.
        -- lia.
        -- by apply Hdom.
        -- apply NoDup_cons. split; [|done]. intros Hc. destruct (eo_sub0 d Hc) as (_ & ce & Hce & _). congruence.
        -- intros c [->|Hc]%elem_of_cons; [split; [done|]; eexists; rewrite lookup_insert_eq; done|].
           destruct (eo_sub0 c Hc). split; [done|]. by apply Hchild.
      * rewrite lookup_insert_ne in Hx by done. destruct (He x xe Hx). split; try done.
        -- cbn. rewrite Hpar, one_False, bump_ne by done. lia.
        -- by apply Hdom.
        -- intros c Hc. destruct (eo_sub0 c Hc). split; [done|]. by apply Hchild.
  - intros x. destruct (HR x) as [Hx Hx']. destruct (decide (x = d)) as [->|Hxd].
    + rewrite bump_eq by lia. split; [lia|]. intros _. rewrite lookup_insert_eq. by eexists.
    + rewrite bump_ne by done. split; [done|]. auto.
  - intros i ino Hi. destruct (Hin i ino Hi). split; cbn; rewrite ?Hino by lia; done.
  - done.
Qed.

(** The root of a new tree. *)
Lemma add_root_ok d de : 0 < d -> dentries s !! d = None -> d_parent de = d -> d_inode de = 0 -> d_count de = 1 -> d_subdirs de = [] ->
  vfs_ok (bump R d 1) Q (with_dentries (<[d := de]> (dentries s)) s).
Proof.
  intros Hd0 Hd Ep Ei Ec Es. pose proof Hok as [He HR Hin HQ].
  assert (Hpar : forall x, x <> 0 -> refs parent_of (<[d := de]> (dentries s)) x = refs parent_of (dentries s) x).
  { intros x Hx. rewrite (refs_new parent_of _ d de x Hd), one_False; [lia|]. unfold parent_of. rewrite Ep, Z.eqb_refl. congruence. }
  assert (Hino : forall x, x <> 0 -> refs inode_of (<[d := de]> (dentries s)) x = refs inode_of (dentries s) x).
  { intros x Hx. rewrite (refs_new inode_of _ d de x Hd), one_False; [lia|]. unfold inode_of. congruence. }
  assert (H0 : R d = 0) by (destruct (decide (R d = 0)) as [|Hn]; [done|]; destruct (proj2 (HR d) Hn); congruence).
  assert (Hdom : forall x, is_Some (dentries s !! x) -> is_Some (<[d := de]> (dentries s) !! x)) by (intros x Hx; rewrite lookup_insert_is_Some'; by right).
  split; cbn.
  - intros x xe Hx. destruct (decide (x = d)) as [->|Hxd].
    + rewrite lookup_insert_eq in Hx. injection Hx as <-. split; cbn; rewrite ?Ec, ?Es, ?Ei; try done.
      * rewrite Hpar, bump_eq, H0 by lia. rewrite refs_none; [done|]. intros k v Hk Ek. unfold parent_of in Ek.
        destruct (Z.eqb_spec (d_parent v) k); [lia|]. destruct (eo_parent _ _ _ _ (He k v Hk)). congruence.
      * rewrite Ep, lookup_insert_eq. by eexists.
      * by apply NoDup_nil.
      * by intros c ?%elem_of_nil.
    + rewrite lookup_insert_ne in Hx by done. destruct (He x xe Hx). split; try done.
      * cbn. rewrite Hpar, bump_ne by lia. lia.
      * by apply Hdom.
      * intros c Hc. destruct (eo_sub0 c Hc) as (Hcx & ce & Hce & Epc). split; [done|]. exists ce. cbn. by rewrite lookup_insert_ne by congruence.
  - intros x. destruct (HR x) as [Hx Hx']. destruct (decide (x = d)) as [->|Hxd].
    + rewrite bump_eq by lia. split; [lia|]. intros _. rewrite lookup_insert_eq. by eexists.
    + rewrite bump_ne by done. split; [done|]. auto.
  - intros i ino Hi. destruct (Hin i ino Hi). split; cbn; rewrite ?Hino by lia; done.
  - done.
Qed.

Lemma dentry_alloc_ok parent name : 0 < parent -> is_Some (dentries s !! parent) ->
  exists d l, (d = 0 /\ dentry_alloc parent name s = Some (0, with_allocs l s)) \/
    exists pe, 0 < d /\ dentries s !! d = None /\ dentries s !! parent = Some pe /\
    dentry_alloc parent name s = Some (d, with_dentries (<[d := mkDentry (take (Z.to_nat NAME_MAX) name) 0 parent (d_sb pe) 1 []]>
      (<[parent := set_d_subdirs (d :: d_subdirs pe) (set_d_count (d_count pe + 1) pe)]> (dentries s))) (with_allocs l s)).
Proof.
  intros Hp0 [pe Hp]. destruct (zalloc s) as [d s1] eqn:Ez. destruct (zalloc_spec s d s1 Ez) as [[l ->] Hd].
  exists d, l. unfold dentry_alloc. rewrite Ez. destruct Hd as [->|(Hd0 & Hd & _)]; [by left|]. right. exists pe. split_and!; [done..|].
  rewrite (proj2 (Z.eqb_neq d 0)), (proj2 (Z.eqb_neq parent 0)) by lia. unfold dget. rewrite (proj2 (Z.eqb_neq parent 0)) by lia.
  cbn [dentries with_allocs]. rewrite Hp. cbn [mbind option_bind dentries with_dentries]. rewrite lookup_insert_eq. cbn [mbind option_bind].
  by rewrite insert_insert_eq.
Qed.

Lemma d_instantiate_ok d de i : dentries s !! d = Some de -> d_inode de = 0 -> 0 < Q i ->
  vfs_ok R (bump Q i (-1)) (with_dentries (<[d := set_d_inode i de]> (dentries s)) s).
Proof.
  intros Hd Hde Hqi. pose proof Hok as [He HR Hin HQ]. destruct (proj2 (HQ i) ltac:(lia)) as [ino Hi]. pose proof (io_pos _ _ _ _ (Hin i ino Hi)).
  assert (Hpar : forall x, refs parent_of (<[d := set_d_inode i de]> (dentries s)) x = refs parent_of (dentries s) x)
    by (by apply (refs_same _ _ _ de)).
  assert (Hino : forall x, x <> 0 -> refs inode_of (<[d := set_d_inode i de]> (dentries s)) x = refs inode_of (dentries s) x + one (i = x)).
  { intros x Hx. rewrite (refs_update inode_of _ d de _ x Hd). unfold inode_of at 2 4. cbn. rewrite (one_False (d_inode de = x)) by congruence. lia. }
  assert (Hchild : forall e c, (exists ce, dentries s !! c = Some ce /\ d_parent ce = e) -> exists ce, <[d := set_d_inode i de]> (dentries s) !! c = Some ce /\ d_parent ce = e).
  { intros e c (ce & Hce & Ep). destruct (decide (c = d)) as [->|]; [|by exists ce; rewrite lookup_insert_ne by done].
    eexists. rewrite lookup_insert_eq. split; [done|]. cbn. congruence. }
  assert (Hdom : forall x, is_Some (dentries s !! x) -> is_Some (<[d := set_d_inode i de]> (dentries s) !! x)) by (intros x Hx; rewrite lookup_insert_is_Some'; by right).
  split; cbn.
  - intros x xe Hx. assert (Hx' : exists xe0, dentries s !! x = Some xe0 /\ (xe = xe0 /\ x <> d \/ x = d /\ xe = set_d_inode i xe0)).
    { destruct (decide (x = d)) as [->|]; [rewrite lookup_insert_eq in Hx|rewrite lookup_insert_ne in Hx by done]; simplify_eq; eexists; split; eauto. }
    destruct Hx' as (xe0 & Hx0 & Hxe). destruct (He x xe0 Hx0).
    assert (Esub : d_subdirs xe = d_subdirs xe0 /\ d_parent xe = d_parent xe0 /\ d_count xe = d_count xe0) by (destruct Hxe as [[-> _]|[_ ->]]; done).
    destruct Esub as (Es & Ep & Ec). split; cbn; rewrite ?Hpar, ?Es, ?Ep, ?Ec; auto.
    + intros Hz. destruct Hxe as [[-> _]|[_ ->]]; [auto|]. cbn. by eexists.
    + intros c Hc. destruct (eo_sub0 c Hc). split; [done|]. by apply Hchild.
  - intros x. destruct (HR x). split; [done|]. auto.
  - intros j jno Hj. destruct (Hin j jno Hj). split; cbn; [done| |done]. rewrite Hino, io_count0 by lia. unfold bump, one.
    destruct (decide (i = j)) as [->|]; [rewrite Z.eqb_refl, (proj2 (Z.eqb_neq j 0)) by lia; cbn; lia|].
    rewrite (proj2 (Z.eqb_neq j i)) by congruence. cbn. lia.
  - intros j. destruct (HQ j) as [Hj Hj']. unfold bump. destruct (Z.eqb_spec j i) as [->|]; cbn; [|rewrite Z.add_0_r; done].
    rewrite (proj2 (Z.eqb_neq i 0)) by lia. cbn. split; [lia|]. intros _. by eexists.
Qed.

Lemma new_inode_ok i ino : 0 < i -> inodes s !! i = None -> i_count ino = 1 ->
  vfs_ok R (bump Q i 1) (with_inodes (<[i := ino]> (inodes s)) s).
Proof.
  intros Hi0 Hi Hc. pose proof Hok as [He HR Hin HQ].
  assert (Hr : refs inode_of (dentries s) i = 0).
  { apply refs_none. intros k v Hk E. unfold inode_of in E. destruct (eo_inode _ _ _ _ (He k v Hk) ltac:(lia)). congruence. }
  assert (H0 : Q i = 0) by (destruct (decide (Q i = 0)) as [|Hn]; [done|]; destruct (proj2 (HQ i) Hn); congruence).
  split; cbn.
  - intros d de Hd. destruct (He d de Hd). split; cbn; try done. intros Hz. rewrite lookup_insert_is_Some'. right. auto.
  - done.
  - intros j jno Hj. destruct (decide (j = i)) as [->|].
    + rewrite lookup_insert_eq in Hj. simplify_eq. split; cbn; [done| |lia]. rewrite bump_eq by lia. lia.
    + rewrite lookup_insert_ne in Hj by done. destruct (Hin j jno Hj). split; cbn; [done|rewrite bump_ne by done; done|done].
  - intros j. destruct (decide (j = i)) as [->|].
    + rewrite bump_eq by lia. split; [lia|]. intros _. rewrite lookup_insert_eq. by eexists.
    + rewrite bump_ne by done. rewrite lookup_insert_ne by done. apply HQ.
Qed.
End Make.
