(* ===== verification/Namei.v ===== *)
(** * Path names: lookup, creation and removal (fs/vfs.c, fs/axiomfs/inode.c)

    The path functions of the virtual file system over the entries of Dentry,
    with the directory operations of AxiomFS and of the device file system they
    call through the inode.  An AxiomFS directory is nothing but its entries in
    memory; the entries of the device file system are made on demand.

    The calling process is [cur], its user and group; [deny ino name op] says
    that a policy daemon is there and denies the operation (PolicyIpc). *)

From S2P Require Import Prelude Errno Dentry.

Abbreviation ENODEV := 19%Z (only parsing).
Abbreviation ENOTDIR := 20%Z (only parsing).
Abbreviation EISDIR := 21%Z (only parsing).
Abbreviation EROFS := 30%Z (only parsing).
Abbreviation ENOTEMPTY := 39%Z (only parsing).
Abbreviation MAX_INODES := 65536%Z (only parsing).
Abbreviation MAX_MOUNTS := 256%Z (only parsing).
Abbreviation POLICY_OP_READ := 1%Z (only parsing).
Abbreviation POLICY_OP_DELETE := 4%Z (only parsing).
Abbreviation POLICY_OP_CREATE := 5%Z (only parsing).

Section Namei.
Context (cur : option (Z * Z)) (deny : Z -> list Z -> Z -> bool).

(** ** The lookup operations of the file systems *)

(** An error, NULL or an entry. *)
Inductive lookup_result := LErr | LNull | LDentry (d : Z).

Definition axiomfs_lookup (dir : inode) (d : Z) (s : vfs) : option (lookup_result * vfs) :=
  de ← dentries s !! d;
  if deny (i_ino dir) (d_name de) POLICY_OP_READ then Some (LErr, s) else
  if d_parent de =? 0 then Some (LNull, s) else
  pe ← dentries s !! d_parent de;
  r ← find_child s (d_name de) (d_subdirs pe);
  match r with
  | Some c => s ← dget c s; Some (LDentry c, s)
  | None => Some (LNull, s)
  end.

Definition devfs_find (s : vfs) (name : list Z) : option devfs_entry :=
  list_find (fun e => dev_name e = name) (device_list s) ≫= fun x => Some x.2.

(** The inode number is an address that nothing depends on. *)
Definition devfs_lookup (d : Z) (s : vfs) : option (lookup_result * vfs) :=
  de ← dentries s !! d;
  match devfs_find s (d_name de) with
  | None => s ← d_instantiate d 0 s; Some (LNull, s)
  | Some e =>
    let '(i, s) := new_inode (d_sb de) s in
    if i =? 0 then Some (LErr, s) else
    let mode := Z.lor (dev_mode e) (if dev_char e then S_IFCHR else S_IFBLK) in
    let s := with_inodes (<[i := mkInode 0 mode 0 0 0 0 no_inode_ops (d_sb de) 1]> (inodes s)) s in
    s ← d_instantiate d i s; Some (LNull, s)
  end.

(** [i_op->lookup], where there is one. *)
Definition has_lookup (dir : inode) : bool :=
  match i_op dir with axiomfs_dir_inode_ops | devfs_dir_inode_ops => true | _ => false end.

Definition do_lookup (dir : inode) (d : Z) (s : vfs) : option (lookup_result * vfs) :=
  match i_op dir with devfs_dir_inode_ops => devfs_lookup d s | _ => axiomfs_lookup dir d s end.

(** ** Path lookup *)

(** The lookup through the file system: a new entry is offered to it.  A name
    longer than [NAME_MAX] is written over what follows it. *)
Definition lookup_new (parent : Z) (dir : inode) (name : list Z) (s : vfs) : option (Z * vfs) :=
  '(d, s) ← dentry_alloc parent [] s;
  if d =? 0 then Some (0, s) else
  if NAME_MAX <? Z.of_nat (length name) then None else
  de ← dentries s !! d;
  let s := with_dentries (<[d := set_d_name name de]> (dentries s)) s in
  '(r, s) ← do_lookup dir d s;
  match r with
  | LErr => s ← dput d s; Some (0, s)
  | _ =>
    '(d, s) ← (match r with LDentry c => s ← dput d s; Some (c, s) | _ => Some (d, s) end);
    de ← dentries s !! d;
    if d_inode de =? 0 then s ← dput d s; Some (0, s) else Some (d, s)
  end.

Definition lookup_one (parent : Z) (name : list Z) (s : vfs) : option (Z * vfs) :=
  if parent =? 0 then Some (0, s) else
  pe ← dentries s !! parent;
  if d_inode pe =? 0 then Some (0, s) else
  dir ← inodes s !! d_inode pe;
  if bool_decide (name = [46]) then s ← dget parent s; Some (parent, s) else
  if bool_decide (name = [46; 46]) then
    let p := if negb (d_parent pe =? 0) then d_parent pe else parent in
    s ← dget p s; Some (p, s) else
  r ← find_child s name (d_subdirs pe);
  match r with
  | Some c => s ← dget c s; Some (c, s)
  | None => if has_lookup dir then lookup_new parent dir name s else Some (0, s)
  end.

Definition mounted_on (s : vfs) (d : Z) : option Z :=
  list_find (fun m => mnt_mountpoint m = d /\ mnt_mountpoint m <> 0 /\ mnt_root m <> 0) (mount_table s) ≫= fun x => Some (mnt_root x.2).

Fixpoint follow_loop (fuel : nat) (d : Z) (s : vfs) : option (Z * vfs) :=
  match fuel with
  | O => None
  | S fuel =>
    match mounted_on s d with
    | None => Some (d, s)
    | Some r => s ← dget r s; s ← dput d s; follow_loop fuel r s
    end
  end.

Definition vfs_follow_mounts (d : Z) (s : vfs) : option (Z * vfs) :=
  if d =? 0 then Some (0, s) else follow_loop (S (length (mount_table s))) d s.

(** The non-empty components of a path. *)
Fixpoint components (path acc : list Z) : list (list Z) :=
  match path with
  | [] => if decide (acc = []) then [] else [acc]
  | c :: path => if c =? 47 then (if decide (acc = []) then components path [] else acc :: components path [])
                 else components path (acc ++ [c])
  end.

Fixpoint walk (comps : list (list Z)) (follow : bool) (d : Z) (s : vfs) : option (Z * vfs) :=
  de ← dentries s !! d;
  match comps with
  | [] => if d_inode de =? 0 then s ← dput d s; Some (0, s) else Some (d, s)
  | name :: comps =>
    if d_inode de =? 0 then s ← dput d s; Some (0, s) else
    dir ← inodes s !! d_inode de;
    if negb (S_ISDIR (i_mode dir)) || (vfs_check_permission cur dir MAY_EXEC <? 0) then s ← dput d s; Some (0, s) else
    '(next, s) ← lookup_one d name s;
    s ← dput d s;
    if next =? 0 then Some (0, s) else
    ne ← dentries s !! next;
    if d_inode ne =? 0 then s ← dput next s; Some (0, s) else
    '(d, s) ← (if follow then vfs_follow_mounts next s else Some (next, s));
    if d =? 0 then Some (0, s) else walk comps follow d s
  end.

(** 0 is NULL. *)
Definition vfs_lookup_at (path : list Z) (follow : bool) (s : vfs) : option (Z * vfs) :=
  if decide (path = []) then Some (0, s) else
  s ← dget (root_dentry s) s;
  if root_dentry s =? 0 then Some (0, s) else walk (components path []) follow (root_dentry s) s.

Definition vfs_lookup (path : list Z) (s : vfs) : option (Z * vfs) := vfs_lookup_at path true s.

(** ** Creating *)

Definition axiomfs_alloc_inode_num (s : vfs) : option Z :=
  find_range (fun i => bool_decide (inode_table s !! i = None)) 2 MAX_INODES.

(** The address of the new inode, or an error.  The policy of inheritance, which
    is asked when a daemon is there, allows everything (fs/axiomfs/file.c). *)
Definition axiomfs_new_inode (dir : inode) (mode : Z) (s : vfs) : option (Z * vfs) :=
  match axiomfs_alloc_inode_num s with
  | None => Some (- ENOSPC, s)
  | Some ino =>
    let '(i, s) := new_inode (i_sb dir) s in
    if i =? 0 then Some (- ENOMEM, s) else
    let '(ok, s) := take_alloc s in
    if negb ok then s ← iput i s; Some (- ENOMEM, s) else
    let '(ok, s) := take_alloc s in
    if negb ok then s ← iput i s; Some (- ENOMEM, s) else
    let nlink := if S_ISDIR mode then 2 else 1 in
    let op := if S_ISDIR mode then axiomfs_dir_inode_ops else if S_ISREG mode then axiomfs_file_inode_ops else no_inode_ops in
    let inode := inode_init_owner cur dir mode (mkInode ino 0 nlink 0 0 0 op (i_sb dir) 1) in
    let s := with_inodes (<[i := inode]> (inodes s)) s in
    Some (i, with_table (<[ino := mkAxiomfsInode (i_mode inode) (i_uid inode) (i_gid inode) nlink]> (inode_table s)) s)
  end.

Definition axiomfs_create (dir : Z) (d : Z) (mode : Z) (s : vfs) : option (Z * vfs) :=
  di ← inodes s !! dir;
  de ← dentries s !! d;
  if deny (i_ino di) (d_name de) POLICY_OP_CREATE then Some (- EACCES, s) else
  '(i, s) ← axiomfs_new_inode di (Z.lor mode S_IFREG) s;
  if i <? 0 then Some (i, s) else
  s ← d_instantiate d i s; Some (0, s).

Definition axiomfs_mkdir (dir : Z) (d : Z) (mode : Z) (s : vfs) : option (Z * vfs) :=
  di ← inodes s !! dir;
  de ← dentries s !! d;
  if deny (i_ino di) (d_name de) POLICY_OP_CREATE then Some (- EACCES, s) else
  '(i, s) ← axiomfs_new_inode di (Z.lor mode S_IFDIR) s;
  if i <? 0 then Some (i, s) else
  di ← inodes s !! dir;
  s ← d_instantiate d i (with_inodes (<[dir := set_i_nlink (i_nlink di + 1) di]> (inodes s)) s); Some (0, s).

(** The path up to its last slash, and what follows it. *)
Fixpoint rsplit (path : list Z) : option (list Z * list Z) :=
  match path with
  | [] => None
  | c :: path =>
    match rsplit path with
    | Some (pre, name) => Some (c :: pre, name)
    | None => if c =? 47 then Some ([], path) else None
    end
  end.

(** The directory of [path], with a reference, and the last name. *)
Definition lookup_parent (path : list Z) (s : vfs) : option (sum Z (Z * list Z) * vfs) :=
  match rsplit path with
  | Some (pre, name) =>
    let '(ok, s) := take_alloc s in
    if negb ok then Some (inl (- ENOMEM), s) else
    '(p, s) ← vfs_lookup (if decide (pre = []) then [47] else pre) s; Some (inr (p, name), s)
  | None => s ← dget (root_dentry s) s; Some (inr (root_dentry s, path), s)
  end.

(** [vfs_create] and [vfs_mkdir] differ in the operation they call, which only
    AxiomFS directories have.  First the part after the directory is found. *)
Definition make_in (op : Z -> Z -> Z -> vfs -> option (Z * vfs)) (parent : Z) (name : list Z) (mode : Z) (s : vfs) : option (Z * vfs) :=
  pe ← dentries s !! parent;
  if d_inode pe =? 0 then s ← dput parent s; Some (- ENOTDIR, s) else
  dir ← inodes s !! d_inode pe;
  if negb (S_ISDIR (i_mode dir)) then s ← dput parent s; Some (- ENOTDIR, s) else
  let ret := vfs_check_permission cur dir (Z.lor MAY_WRITE MAY_EXEC) in
  if ret <? 0 then s ← dput parent s; Some (ret, s) else
  if negb (bool_decide (i_op dir = axiomfs_dir_inode_ops)) then s ← dput parent s; Some (- EROFS, s) else
  '(d, s) ← dentry_alloc parent name s;
  if d =? 0 then s ← dput parent s; Some (- ENOMEM, s) else
  '(ret, s) ← op (d_inode pe) d mode s;
  s ← (if ret <? 0 then dput d s else Some s);
  s ← dput parent s; Some (ret, s).

Definition vfs_make (op : Z -> Z -> Z -> vfs -> option (Z * vfs)) (path : list Z) (mode : Z) (s : vfs) : option (Z * vfs) :=
  '(e, s) ← vfs_lookup path s;
  if negb (e =? 0) then s ← dput e s; Some (- EEXIST, s) else
  '(r, s) ← lookup_parent path s;
  match r with
  | inl err => Some (err, s)
  | inr (parent, name) => if parent =? 0 then Some (- ENOENT, s) else make_in op parent name mode s
  end.

Definition vfs_create : list Z -> Z -> vfs -> option (Z * vfs) := vfs_make axiomfs_create.
Definition vfs_mkdir : list Z -> Z -> vfs -> option (Z * vfs) := vfs_make axiomfs_mkdir.

(** ** Removing *)

Definition axiomfs_rmdir (dir d : Z) (s : vfs) : option (Z * vfs) :=
  de ← dentries s !! d;
  if d_inode de =? 0 then Some (- ENOENT, s) else
  ino ← inodes s !! d_inode de;
  if negb (bool_decide (d_subdirs de = [])) then Some (- ENOTEMPTY, s) else
  if deny (i_ino ino) (d_name de) POLICY_OP_DELETE then Some (- EACCES, s) else
  let s := with_inodes (<[d_inode de := set_i_nlink 0 ino]> (inodes s)) s in
  di ← inodes s !! dir;
  let s := with_inodes (<[dir := set_i_nlink (i_nlink di - 1) di]> (inodes s)) s in
  Some (0, unlink_child d (d_parent de) s).

Definition axiomfs_unlink (d : Z) (s : vfs) : option (Z * vfs) :=
  de ← dentries s !! d;
  if d_inode de =? 0 then Some (- ENOENT, s) else
  ino ← inodes s !! d_inode de;
  if deny (i_ino ino) (d_name de) POLICY_OP_DELETE then Some (- EACCES, s) else
  let s := with_inodes (<[d_inode de := set_i_nlink (i_nlink ino - 1) ino]> (inodes s)) s in
  Some (0, unlink_child d (d_parent de) s).

Definition vfs_is_mountpoint (s : vfs) (d : Z) : bool :=
  (d =? root_dentry s) || existsb (fun m => mnt_mountpoint m =? d) (mount_table s).

(** What [vfs_rmdir] and [vfs_unlink] do after their own checks: the check on
    the directory and the call of the operation. *)
Definition remove_from (op : Z -> Z -> vfs -> option (Z * vfs)) (d : Z) (s : vfs) : option (Z * vfs) :=
  de ← dentries s !! d;
  if d_parent de =? 0 then s ← dput d s; Some (- EINVAL, s) else
  pe ← dentries s !! d_parent de;
  if d_inode pe =? 0 then s ← dput d s; Some (- ENOENT, s) else
  dir ← inodes s !! d_inode pe;
  let ret := vfs_check_permission cur dir (Z.lor MAY_WRITE MAY_EXEC) in
  if ret <? 0 then s ← dput d s; Some (ret, s) else
  if negb (bool_decide (i_op dir = axiomfs_dir_inode_ops)) then s ← dput d s; Some (- EROFS, s) else
  '(ret, s) ← op (d_inode pe) d s;
  s ← dput d s; Some (ret, s).

Definition vfs_rmdir (path : list Z) (s : vfs) : option (Z * vfs) :=
  '(d, s) ← vfs_lookup path s;
  if d =? 0 then Some (- ENOENT, s) else
  if vfs_is_mountpoint s d then s ← dput d s; Some (- EBUSY, s) else
  de ← dentries s !! d;
  if d_inode de =? 0 then s ← dput d s; Some (- ENOTDIR, s) else
  ino ← inodes s !! d_inode de;
  if negb (S_ISDIR (i_mode ino)) then s ← dput d s; Some (- ENOTDIR, s) else
  remove_from axiomfs_rmdir d s.

Definition vfs_unlink (path : list Z) (s : vfs) : option (Z * vfs) :=
  '(d, s) ← vfs_lookup path s;
  if d =? 0 then Some (- ENOENT, s) else
  de ← dentries s !! d;
  if d_inode de =? 0 then s ← dput d s; Some (- ENOENT, s) else
  ino ← inodes s !! d_inode de;
  if S_ISDIR (i_mode ino) then s ← dput d s; Some (- EISDIR, s) else
  remove_from (fun _ => axiomfs_unlink) d s.

(** ** Mounting *)

(** The root inode and entry of a new file system with the superblock [sb], or
    NULL; the caller releases the inode once more. *)
Definition make_root (sb : Z) (op : inode_operations) (s : vfs) : option (Z * vfs) :=
  let '(i, s) := new_inode sb s in
  if i =? 0 then Some (0, s) else
  let s := with_inodes (<[i := mkInode 1 (Z.lor S_IFDIR 493) 2 0 0 0 op sb 1]> (inodes s)) s in
  '(d, s) ← d_make_root i s;
  if d =? 0 then s ← iput i s; Some (0, s) else Some (d, s).

(** [axiomfs_mount] and [devfs_mount]: the superblock and its root, or NULL for
    [-ENOMEM].  AxiomFS has two structures besides the superblock, the device file
    system one. *)
Definition fs_mount (fs : fs_type) (s : vfs) : option (Z * Z * vfs) :=
  let '(sb, s) := zalloc s in
  if sb =? 0 then Some (0, 0, s) else
  let '(ok, s) := take_alloc s in
  if negb ok then Some (0, 0, s) else
  let '(ok, s) := (match fs with axiomfs_fs_type => take_alloc s | devfs_fs_type => (true, s) end) in
  if negb ok then Some (0, 0, s) else
  let s := with_supers (<[sb := fs]> (supers s)) s in
  '(root, s) ← make_root sb (match fs with axiomfs_fs_type => axiomfs_dir_inode_ops | devfs_fs_type => devfs_dir_inode_ops end) s;
  if root =? 0 then Some (0, 0, with_supers (delete sb (supers s)) s) else Some (sb, root, s).

(** [kill_sb] of both file systems. *)
Definition kill_sb (sb root : Z) (s : vfs) : option vfs :=
  s ← dput root s; Some (with_supers (delete sb (supers s)) s).

(** [fs] is the file system type that was found; [source] says that there is one. *)
Definition vfs_mount (source : bool) (target : list Z) (fs : option fs_type) (s : vfs) : option (Z * vfs) :=
  match fs with
  | None => Some (- ENODEV, s)
  | Some fs =>
    '(mountpoint, s) ← (if negb (root_dentry s =? 0) then vfs_lookup target s else Some (0, s));
    if negb (root_dentry s =? 0) && (mountpoint =? 0) then Some (- ENOENT, s) else
    '(sb, root, s) ← fs_mount fs s;
    if sb =? 0 then Some (- ENOMEM, s) else
    let '(ok, s) := take_alloc s in
    if negb ok then s ← kill_sb sb root s; Some (- ENOMEM, s) else
    let '(_, s) := (if source then take_alloc s else (true, s)) in
    let mounts := if Z.of_nat (length (mount_table s)) <? MAX_MOUNTS then mount_table s ++ [mkMount mountpoint root sb] else mount_table s in
    Some (0, with_mounts mounts (if root_dentry s =? 0 then root else root_dentry s) s)
  end.

(** The mount at index [i] is replaced by the last one. *)
Definition remove_mount (i : nat) (l : list vfsmount) : list vfsmount :=
  match last l with Some m => take (length l - 1) (<[i := m]> l) | None => l end.

(** [s_type] is set by AxiomFS only. *)
Definition has_type (s : vfs) (sb : Z) : bool := match supers s !! sb with Some axiomfs_fs_type => true | _ => false end.

Definition vfs_umount (target : list Z) (s : vfs) : option (Z * vfs) :=
  if decide (target = []) then Some (- EINVAL, s) else
  if root_dentry s =? 0 then Some (- ENOENT, s) else
  '(d, s) ← vfs_lookup_at target false s;
  if d =? 0 then Some (- ENOENT, s) else
  match list_find (fun m => mnt_mountpoint m = d) (mount_table s) with
  | None => s ← dput d s; Some (- EINVAL, s)
  | Some (i, m) =>
    if mnt_root m =? root_dentry s then s ← dput d s; Some (- EINVAL, s) else
    if negb (has_type s (mnt_sb m)) then s ← dput d s; Some (- EINVAL, s) else
    s ← kill_sb (mnt_sb m) (mnt_root m) s;
    let s := with_mounts (remove_mount i (mount_table s)) (root_dentry s) s in
    s ← dput (mnt_mountpoint m) s;
    s ← dput d s; Some (0, s)
  end.
End Namei.
