(* ===== verification/NameiProps.v ===== *)
(** * Path lookup is balanced, and AxiomFS is a tree of names

    Whatever happens on the way, looking up a path changes no reference but the
    one it returns; creating and removing names does what it says to the tree. *)

From S2P Require Import Prelude Errno Dentry DentryProps Namei.

Definition same_env (s s' : vfs) : Prop :=
  supers s' = supers s /\ mount_table s' = mount_table s /\ root_dentry s' = root_dentry s /\ device_list s' = device_list s.

Lemma same_env_trans s1 s2 s3 : same_env s1 s2 -> same_env s2 s3 -> same_env s1 s3.
Proof. unfold same_env. intros (->&->&->&->) (->&->&->&->). done. Qed.

Lemma kept_env s s' : kept s s' -> same_env s s'.
Proof. intros []. done. Qed.

#[export] Hint Resolve kept_env : obelisk.

(** The operation returns an entry with a new reference, or NULL, and no other
    reference has changed. *)
Definition yields (R Q : Z -> Z) (s : vfs) (m : option (Z * vfs)) : Prop :=
  exists r s', m = Some (r, s') /\ vfs_ok (bump R r 1) Q s' /\ same_env s s'.

Ltac bump_ext := intros ?; unfold bump; repeat case_match; zbool; try lia.

Lemma ok_bump_0 R Q s n : vfs_ok R Q s <-> vfs_ok (bump R 0 n) Q s.
Proof. split; apply vfs_ok_ext; try done; intros x; by rewrite bump_0. Qed.

Lemma ok_back R Q s d : vfs_ok (bump (bump R d 1) d (-1)) Q s -> vfs_ok R Q s.
Proof. apply vfs_ok_ext; [bump_ext|done]. Qed.

Lemma ok_swap R Q s d r : vfs_ok (bump (bump (bump R d 1) r 1) d (-1)) Q s -> vfs_ok (bump R r 1) Q s.
Proof. apply vfs_ok_ext; [bump_ext|done]. Qed.

Lemma held_pos R Q s d : vfs_ok (bump R d 1) Q s -> 0 < d -> (0 <= R d) -> 0 < bump R d 1 d.
Proof. intros _ Hd Hr. rewrite bump_eq by lia. lia. Qed.

(** Releasing what was taken. *)
Lemma put_ok R Q s d : (forall x, 0 <= R x) -> vfs_ok (bump R d 1) Q s -> exists s', dput d s = Some s' /\ vfs_ok R Q s' /\ kept s s'.
Proof.
  intros HR Hok. destruct (decide (d = 0)) as [->|Hd].
  - exists s. split; [done|]. apply ok_bump_0 in Hok. split; [done|by apply (kept_refl R Q)].
  - destruct (dput_loop_ok (S (size (dentries s))) d _ Q s Hok) as (s' & E & Hok' & Hk); [right; rewrite bump_eq by done; specialize (HR d); lia|lia|].
    exists s'. split; [done|]. split; [by eapply ok_back|done].
Qed.

Lemma put_null R Q s0 s d : (forall x, 0 <= R x) -> same_env s0 s -> vfs_ok (bump R d 1) Q s -> yields R Q s0 (s ← dput d s; Some (0, s)).
Proof.
  intros HR He Hok. destruct (put_ok R Q s d HR Hok) as (s' & -> & Hok' & Hk). exists 0, s'. split; [done|].
  split; [by apply ok_bump_0|]. eapply same_env_trans; eauto with obelisk.
Qed.

Lemma get_yields R Q s0 s d : same_env s0 s -> vfs_ok R Q s -> is_Some (dentries s !! d) -> yields R Q s0 (s ← dget d s; Some (d, s)).
Proof.
  intros He Hok Hd. destruct (dget_ok R Q s Hok d (or_intror Hd)) as (s' & -> & Hok' & Hk). exists d, s'. split; [done|]. split; [done|].
  eapply same_env_trans; eauto with obelisk.
Qed.

Section Balance.
Context (cur : option (Z * Z)) (deny : Z -> list Z -> Z -> bool) (R Q : Z -> Z).
Hypothesis HR : forall x, 0 <= R x.

Lemma find_child_ok s name l : (forall c, c ∈ l -> is_Some (dentries s !! c)) ->
  exists r, find_child s name l = Some r /\ forall c, r = Some c -> c ∈ l.
Proof.
  induction l as [|c l IH]; intros Hl; [by exists None|]. cbn. destruct (Hl c ltac:(left)) as [ce ->]. cbn.
  destruct (_ && _); [exists (Some c); split; [done|]; intros ? [= <-]; left|].
  destruct IH as (r & -> & Hr); [intros x Hx; apply Hl; by right|]. exists r. split; [done|]. intros x Hx. right. auto.
Qed.

Lemma children_exist R' s d de : vfs_ok R' Q s -> dentries s !! d = Some de -> forall c, c ∈ d_subdirs de -> is_Some (dentries s !! c).
Proof. intros Hok Hd c Hc. destruct (eo_sub _ _ _ _ (ok_entry _ _ _ Hok d de Hd) c Hc) as (_ & ce & -> & _). by eexists. Qed.

(** The file systems either answer with another entry, or leave theirs alone or
    give it an inode. *)
Lemma do_lookup_ok R' dir s d de : vfs_ok R' Q s -> dentries s !! d = Some de -> d_inode de = 0 -> 0 < d ->
  exists r s', do_lookup deny dir d s = Some (r, s') /\ same_env s s' /\
    match r with LDentry c => 0 < c /\ vfs_ok (bump R' c 1) Q s' | _ => vfs_ok R' Q s' end.
Proof.
  intros Hok Hd Hi Hd0. unfold do_lookup. assert (Hax : exists r s', axiomfs_lookup deny dir d s = Some (r, s') /\ same_env s s' /\
    match r with LDentry c => 0 < c /\ vfs_ok (bump R' c 1) Q s' | _ => vfs_ok R' Q s' end).
  { unfold axiomfs_lookup. rewrite Hd. cbn [mbind option_bind]. destruct (deny _ _ _); [by exists LErr, s|].
    destruct (d_parent de =? 0); [by exists LNull, s|]. destruct (eo_parent _ _ _ _ (ok_entry _ _ _ Hok d de Hd)) as [pe Hp]. rewrite Hp. cbn [mbind option_bind].
    destruct (find_child_ok s (d_name de) (d_subdirs pe)) as (r & -> & Hr); [by apply (children_exist R' s (d_parent de))|]. cbn [mbind option_bind].
    destruct r as [c|]; [|by exists LNull, s]. pose proof (children_exist R' s (d_parent de) pe Hok Hp c (Hr c eq_refl)) as Hc.
    destruct (dget_ok R' Q s Hok c (or_intror Hc)) as (s' & -> & Hok' & Hk). exists (LDentry c), s'. split; [done|]. split; [by apply kept_env|].
    destruct Hc as [ce Hce]. split; [|done]. by apply (eo_pos _ _ _ _ (ok_entry _ _ _ Hok c ce Hce)). }
  destruct (i_op dir); try exact Hax. unfold devfs_lookup. rewrite Hd. cbn [mbind option_bind]. destruct (devfs_find s (d_name de)) as [e|].
  - unfold new_inode. destruct (zalloc s) as [i s1] eqn:Ez. destruct (zalloc_spec s i s1 Ez) as [[l ->] Hz].
    destruct Hz as [->|(Hi0 & _ & Hni)]; [exists LErr, (with_allocs l s); split; [done|]; split; [done|by apply allocs_ok]|].
    rewrite !(proj2 (Z.eqb_neq i 0)) by lia. unfold d_instantiate. cbn [dentries with_inodes with_allocs]. rewrite Hd. cbn [mbind option_bind].
    eexists LNull, _. split; [done|]. split; [done|]. cbn [inodes with_inodes with_allocs]. rewrite insert_insert_eq.
    set (ino := mkInode _ _ _ _ _ _ _ _ _). pose proof (new_inode_ok R' Q (with_allocs l s) (allocs_ok _ _ _ l Hok) i ino Hi0 Hni eq_refl) as Hok1.
    pose proof (d_instantiate_ok _ _ _ Hok1 d de i Hd Hi) as Hok2. apply (vfs_ok_ext R' R' (bump (bump Q i 1) i (-1))); [done|bump_ext|].
    apply Hok2. rewrite bump_eq by lia. pose proof (proj1 (ok_Q _ _ _ Hok i)). lia.
  - unfold d_instantiate. rewrite Hd. cbn [mbind option_bind]. eexists LNull, _. split; [done|]. split; [done|].
    replace (set_d_inode 0 de) with de by (destruct de; cbn in Hi; by subst). rewrite insert_id by done. by rewrite with_dentries_id.
Qed.

Lemma lookup_new_ok s parent dir name : vfs_ok R Q s -> 0 < parent -> is_Some (dentries s !! parent) -> Z.of_nat (length name) <= NAME_MAX ->
  yields R Q s (lookup_new deny parent dir name s).
Proof.
  intros Hok Hp0 Hp Hn. unfold lookup_new.
  destruct (dentry_alloc_ok s parent [] Hp0 Hp) as (d & l & [[-> ->]|(pe & Hd0 & Hd & Hpe & ->)]); cbn [mbind option_bind].
  { exists 0, (with_allocs l s). split; [done|]. split; [|done]. by apply ok_bump_0, allocs_ok. }
  rewrite (proj2 (Z.eqb_neq d 0)) by lia. destruct (Z.ltb_spec 255 (Z.of_nat (length name))); [lia|].
  pose proof (add_child_ok R Q (with_allocs l s) (allocs_ok _ _ _ l Hok) parent pe d (take (Z.to_nat NAME_MAX) []) Hpe Hd0 Hd) as Hok1.
  set (s1 := with_dentries _ (with_allocs l s)) in *. set (de := mkDentry _ _ _ _ _ _) in *.
  assert (H1 : dentries s1 !! d = Some de) by apply lookup_insert_eq. rewrite H1. cbn [mbind option_bind].
  assert (Hok2 : vfs_ok (bump R d 1) Q (with_dentries (<[d := set_d_name name de]> (dentries s1)) s1)).
  { eapply vfs_ok_ext; [| |apply (set_entry_ok _ _ _ Hok1 d de (set_d_name name de) 0 H1)]; try done; [bump_ext|by apply NoDup_nil|].
    rewrite bump_eq by lia. specialize (HR d). lia. }
  set (s2 := with_dentries _ s1) in *. assert (He2 : same_env s s2) by done.
  destruct (do_lookup_ok _ dir s2 d (set_d_name name de) Hok2 (lookup_insert_eq _ _ _) eq_refl Hd0) as (r & s3 & -> & He3 & Hr). cbn [mbind option_bind].
  pose proof (same_env_trans _ _ _ He2 He3) as He.
  assert (Hlast : forall d' s', same_env s s' -> 0 < d' -> vfs_ok (bump R d' 1) Q s' ->
     yields R Q s (de ← dentries s' !! d'; if d_inode de =? 0 then s ← dput d' s'; Some (0, s) else Some (d', s'))).
  { intros d' s' He' Hd' Hok'. destruct (proj2 (ok_R _ _ _ Hok' d')) as [de' Hde']; [rewrite bump_eq by lia; specialize (HR d'); lia|].
    rewrite Hde'. cbn [mbind option_bind]. destruct (d_inode de' =? 0); [by apply put_null|]. by exists d', s'. }
  destruct r as [| |c].
  - by apply put_null.
  - cbn [mbind option_bind]. by apply Hlast.
  - destruct Hr as [Hc0 Hr]. assert (Hc : vfs_ok (bump (bump R c 1) d 1) Q s3) by (eapply vfs_ok_ext; [| |exact Hr]; [bump_ext|done]).
    destruct (put_ok (bump R c 1) Q s3 d ltac:(intros x; specialize (HR x); unfold bump; case_match; lia) Hc) as (s4 & -> & Hok4 & Hk4). cbn [mbind option_bind].
    apply Hlast; [eapply same_env_trans; eauto with obelisk|done..].
Qed.

Lemma lookup_one_ok s parent pe name : vfs_ok R Q s -> dentries s !! parent = Some pe -> Z.of_nat (length name) <= NAME_MAX ->
  yields R Q s (lookup_one deny parent name s).
Proof.
  intros Hok Hp Hn. pose proof (ok_entry _ _ _ Hok parent pe Hp) as Hpe. pose proof (eo_pos _ _ _ _ Hpe) as Hp0.
  assert (Hnull : yields R Q s (Some (0, s))) by (exists 0, s; split; [done|]; split; [by apply ok_bump_0|done]).
  unfold lookup_one. rewrite (proj2 (Z.eqb_neq parent 0)) by lia. rewrite Hp. cbn [mbind option_bind].
  destruct (Z.eqb_spec (d_inode pe) 0) as [|Hi]; [done|]. destruct (eo_inode _ _ _ _ Hpe Hi) as [dir ->]. cbn [mbind option_bind].
  case_bool_decide; [by apply get_yields; [..|eexists]|].
  case_bool_decide. { apply get_yields; [done|done|]. case_match; [apply (eo_parent _ _ _ _ Hpe)|by eexists]. }
  destruct (find_child_ok s name (d_subdirs pe)) as (r & -> & Hr); [by apply (children_exist R s parent)|]. cbn [mbind option_bind].
  destruct r as [c|]; [apply get_yields; [done|done|]; by apply (children_exist R s parent pe Hok Hp), Hr|].
  destruct (has_lookup dir); [|done]. apply lookup_new_ok; [done..|by eexists|done].
Qed.
End Balance.

Lemma bump_nonneg R d n : (forall x, 0 <= R x) -> 0 <= n -> forall x, 0 <= bump R d n x.
Proof. intros HR Hn x. specialize (HR x). unfold bump. case_match; lia. Qed.

#[export] Hint Resolve bump_nonneg : obelisk.

(** ** Mounts *)

(** Every mount holds its root and the entry it covers, and no chain of mounts is
    closed. *)
Record mounts_ok (R : Z -> Z) (s : vfs) : Prop := {
  mo_point m : m ∈ mount_table s -> mnt_mountpoint m <> 0 -> 0 < R (mnt_mountpoint m);
  mo_root m : m ∈ mount_table s -> mnt_root m <> 0 -> 0 < R (mnt_root m);
  mo_rank : exists rank : Z -> nat, forall m, m ∈ mount_table s -> mnt_root m <> 0 -> (rank (mnt_mountpoint m) < rank (mnt_root m))%nat
}.

Lemma mounts_env R s s' : same_env s s' -> mounts_ok R s -> mounts_ok R s'.
Proof. intros (_ & Em & _) [Hp Hr Hk]. split; rewrite Em; done. Qed.

Lemma mounted_on_spec s d r : mounted_on s d = Some r -> exists m, m ∈ mount_table s /\ mnt_mountpoint m = d /\ mnt_root m = r /\ r <> 0.
Proof.
  unfold mounted_on. intros E. apply bind_Some in E as ([i m] & (Hi & (H1 & H2 & H3) & _)%list_find_Some & [= <-]). exists m.
  split; [by eapply list_elem_of_lookup_2|]. done.
Qed.

(** How many mounts can still be crossed from rank [n] on. *)
Definition mounts_above (rank : Z -> nat) (l : list vfsmount) (n : nat) : nat := length (filter (fun m => n <= rank (mnt_mountpoint m))%nat l).

Lemma mounts_above_lt rank l m n : m ∈ l -> (rank (mnt_mountpoint m) < n)%nat -> (mounts_above rank l n < mounts_above rank l (rank (mnt_mountpoint m)))%nat.
Proof.
  unfold mounts_above. intros Hm Hn. induction l as [|x l IH]; [by apply elem_of_nil in Hm|]. rewrite !filter_cons.
  assert (Hle : (length (filter (fun m => n <= rank (mnt_mountpoint m)) l) <= length (filter (fun m0 => rank (mnt_mountpoint m) <= rank (mnt_mountpoint m0)) l))%nat).
  { clear -Hn. induction l as [|y l IH]; [done|]. rewrite !filter_cons. repeat case_decide; cbn; lia. }
  apply elem_of_cons in Hm as [->|Hm]; [rewrite decide_False by lia; rewrite decide_True by lia; cbn; lia|]. specialize (IH Hm).
  repeat case_decide; cbn; lia.
Qed.

Section Walk.
Context (cur : option (Z * Z)) (deny : Z -> list Z -> Z -> bool) (R Q : Z -> Z).
Hypothesis HR : forall x, 0 <= R x.

Lemma follow_ok rank s0 : forall fuel d s, (forall m, m ∈ mount_table s -> mnt_root m <> 0 -> (rank (mnt_mountpoint m) < rank (mnt_root m))%nat) ->
  mounts_ok R s -> same_env s0 s -> vfs_ok (bump R d 1) Q s -> (mounts_above rank (mount_table s) (rank d) < fuel)%nat ->
  yields R Q s0 (follow_loop fuel d s).
Proof.
  induction fuel as [|fuel IH]; intros d s Hrank Hm He Hok Hf; [lia|]. cbn [follow_loop].
  destruct (mounted_on s d) as [r|] eqn:Em; [|by exists d, s]. destruct (mounted_on_spec s d r Em) as (m & Hin & Ed & <- & Hr0).
  pose proof (mo_root _ _ Hm m Hin Hr0) as Hr.
  assert (Hex : is_Some (dentries s !! mnt_root m)) by (apply (ok_R _ _ _ Hok); unfold bump; specialize (HR (mnt_root m)); case_match; lia).
  destruct (dget_ok _ Q s Hok (mnt_root m) (or_intror Hex)) as (s1 & -> & Hok1 & Hk1). cbn [mbind option_bind].
  destruct (put_ok (bump R (mnt_root m) 1) Q s1 d) as (s2 & -> & Hok2 & Hk2); [by apply bump_nonneg| |].
  { eapply vfs_ok_ext; [| |exact Hok1]; [bump_ext|done]. }
  cbn [mbind option_bind]. pose proof (same_env_trans _ _ _ (kept_env _ _ Hk1) (kept_env _ _ Hk2)) as He12. destruct (He12) as (_ & Emt & _).
  apply IH; try done; [by rewrite Emt|by apply (mounts_env R s)|by eapply same_env_trans|]. rewrite Emt.
  pose proof (mounts_above_lt rank _ m (rank (mnt_root m)) Hin (Hrank m Hin Hr0)). rewrite Ed in *. lia.
Qed.

Lemma follow_mounts_ok s0 s d : mounts_ok R s -> same_env s0 s -> vfs_ok (bump R d 1) Q s -> yields R Q s0 (vfs_follow_mounts d s).
Proof.
  intros Hm He Hok. unfold vfs_follow_mounts. destruct (Z.eqb_spec d 0) as [->|]; [by exists 0, s|].
  destruct (mo_rank _ _ Hm) as [rank Hrank]. apply (follow_ok rank); try done.
  unfold mounts_above. pose proof (length_filter (fun m => rank d <= rank (mnt_mountpoint m))%nat (mount_table s)). lia.
Qed.

Lemma walk_ok follow s0 comps : Forall (fun c : list Z => Z.of_nat (length c) <= NAME_MAX) comps -> forall d s, 0 < d -> mounts_ok R s -> same_env s0 s ->
  vfs_ok (bump R d 1) Q s -> yields R Q s0 (walk cur deny comps follow d s).
Proof.
  induction 1 as [|name comps Hn _ IH]; intros d s Hd Hm He Hok; cbn [walk];
    (destruct (proj2 (ok_R _ _ _ Hok d)) as [de Hde]; [rewrite bump_eq by lia; specialize (HR d); lia|]); rewrite Hde; cbn [mbind option_bind].
  - destruct (d_inode de =? 0); [by apply put_null|]. by exists d, s.
  - destruct (Z.eqb_spec (d_inode de) 0) as [|Hi]; [by apply put_null|].
    destruct (eo_inode _ _ _ _ (ok_entry _ _ _ Hok d de Hde) Hi) as [dir ->]. cbn [mbind option_bind].
    destruct (negb _ || _); [by apply put_null|].
    destruct (lookup_one_ok deny (bump R d 1) Q (bump_nonneg R d 1 HR ltac:(lia)) s d de name Hok Hde Hn) as (next & s1 & -> & Hok1 & He1). cbn [mbind option_bind].
    destruct (put_ok (bump R next 1) Q s1 d) as (s2 & -> & Hok2 & Hk2); [by apply bump_nonneg| |].
    { eapply vfs_ok_ext; [| |exact Hok1]; [bump_ext|done]. }
    cbn [mbind option_bind]. pose proof (same_env_trans _ _ _ He1 (kept_env _ _ Hk2)) as He12. pose proof (same_env_trans _ _ _ He He12) as He2.
    destruct (Z.eqb_spec next 0) as [->|Hnext]; [by exists 0, s2|].
    destruct (proj2 (ok_R _ _ _ Hok2 next)) as [ne Hne]; [rewrite bump_eq by lia; specialize (HR next); lia|]. rewrite Hne. cbn [mbind option_bind].
    destruct (d_inode ne =? 0); [by apply put_null|].
    assert (Hf : yields R Q s0 (if follow then vfs_follow_mounts next s2 else Some (next, s2))).
    { destruct follow; [|by exists next, s2]. apply follow_mounts_ok; [by apply (mounts_env R s)|done..]. }
    destruct Hf as (d' & s3 & -> & Hok3 & He3). cbn [mbind option_bind]. destruct (Z.eqb_spec d' 0) as [->|Hd']; [by exists 0, s3|].
    assert (Hpos : 0 < d'). { destruct (proj2 (ok_R _ _ _ Hok3 d')) as [de' Hde']; [rewrite bump_eq by lia; specialize (HR d'); lia|].
      apply (eo_pos _ _ _ _ (ok_entry _ _ _ Hok3 d' de' Hde')). }
    apply IH; try done. destruct He3 as (_ & E3 & _), He as (_ & E0 & _). destruct Hm as [Hm0 Hm1 Hm2]. split; rewrite E3, <- E0; done.
Qed.
End Walk.

(** Every component of the path fits in a directory entry. *)
Definition names_fit (path : list Z) : Prop := Forall (fun c : list Z => Z.of_nat (length c) <= NAME_MAX) (components path []).

Lemma lookup_at_ok cur deny R Q s path follow : vfs_ok R Q s -> mounts_ok R s -> root_dentry s = 0 \/ 0 < R (root_dentry s) -> names_fit path ->
  yields R Q s (vfs_lookup_at cur deny path follow s).
Proof.
  intros Hok Hm Hroot Hn. assert (HR : forall x, 0 <= R x) by (intros x; apply (ok_R _ _ _ Hok)). unfold vfs_lookup_at.
  assert (Hnull : yields R Q s (Some (0, s))) by (exists 0, s; split; [done|]; split; [by apply ok_bump_0|done]).
  destruct (decide (path = [])); [done|].
  destruct (dget_ok R Q s Hok (root_dentry s)) as (s1 & E & Hok1 & Hk1).
  { destruct Hroot as [|Hr]; [by left|right]. apply (ok_R _ _ _ Hok). lia. }
  rewrite E. cbn [mbind option_bind]. pose proof (kept_env _ _ Hk1) as He1. destruct (He1) as (_ & _ & Er & _). rewrite Er.
  destruct (Z.eqb_spec (root_dentry s) 0) as [E0|]; [exists 0, s1; rewrite E0 in Hok1; done|].
  assert (Hpos : 0 < root_dentry s). { destruct (proj2 (ok_R _ _ _ Hok1 (root_dentry s))) as [de Hde]; [rewrite bump_eq by lia; specialize (HR (root_dentry s)); lia|].
    apply (eo_pos _ _ _ _ (ok_entry _ _ _ Hok1 _ de Hde)). }
  apply walk_ok; try done. by apply (mounts_env R s).
Qed.

(** Looking up a path is balanced: with consistent counts, an acyclic mount
    table and components that fit in an entry, the lookup never faults, whatever
    the permissions, the policy, the devices and the outcomes of the allocations
    are; the only reference that is new afterwards is the one to the entry it
    returns, and nothing that is referenced has been freed. *)
Theorem lookup_balanced cur deny R Q s path follow (Hok : vfs_ok R Q s) (Hm : mounts_ok R s) (Hroot : 0 < R (root_dentry s)) (Hn : names_fit path) :
  exists d s', vfs_lookup_at cur deny path follow s = Some (d, s') /\ vfs_ok (bump R d 1) Q s' /\ same_env s s'.
Proof. apply lookup_at_ok; [done|done|by right|done]. Qed.

(** ** Creating and removing names *)

Lemma with_env l s : same_env s (with_allocs l s).
Proof. done. Qed.

Lemma delete_inode_env ino s : same_env s (delete_inode ino s).
Proof. unfold delete_inode, axiomfs_delete_inode. repeat case_match; done. Qed.

Section Make.
Context (cur : option (Z * Z)) (deny : Z -> list Z -> Z -> bool) (R Q : Z -> Z).

(** The caller, or root when there is none. *)
Definition caller_uid : Z := match cur with Some (uid, _) => uid | None => 0 end.
Definition caller_gid : Z := match cur with Some (_, gid) => gid | None => 0 end.

(** The directory has the set-group-id bit. *)
Definition inherits_group (dir : inode) : bool := Z.testbit (i_mode dir) 10.

(** The inode of a new file: it is empty and belongs to the caller; in a directory
    with the set-group-id bit it has the group of the directory, and a directory
    has the bit too. *)
Definition new_node (dir : inode) (mode ino : Z) : inode :=
  mkInode ino (if inherits_group dir && S_ISDIR mode then Z.setbit mode 10 else mode) (if S_ISDIR mode then 2 else 1)
    caller_uid (if inherits_group dir then i_gid dir else caller_gid) 0
    (if S_ISDIR mode then axiomfs_dir_inode_ops else if S_ISREG mode then axiomfs_file_inode_ops else no_inode_ops) (i_sb dir) 1.

Lemma init_owner_eq dir mode ino nlink op :
  inode_init_owner cur dir mode (mkInode ino 0 nlink 0 0 0 op (i_sb dir) 1) =
  mkInode ino (if inherits_group dir && S_ISDIR mode then Z.setbit mode 10 else mode) nlink caller_uid
    (if inherits_group dir then i_gid dir else caller_gid) 0 op (i_sb dir) 1.
Proof.
  assert (E : negb (Z.land (i_mode dir) S_ISGID =? 0) = inherits_group dir).
  { unfold inherits_group. change S_ISGID with (2 ^ 10). apply flagb_pow2. lia. }
  unfold inode_init_owner, caller_uid, caller_gid. rewrite E. destruct cur as [[uid gid]|]; done.
Qed.

Lemma axiomfs_new_inode_ok dir mode s : vfs_ok R Q s ->
  exists r s', axiomfs_new_inode cur dir mode s = Some (r, s') /\ same_env s s' /\ dentries s' = dentries s /\
    (forall x, is_Some (inodes s !! x) -> inodes s' !! x = inodes s !! x) /\
    (r < 0 /\ vfs_ok R Q s' \/ 0 < r /\ vfs_ok R (bump Q r 1) s' /\ inodes s !! r = None /\ exists ino, inode_table s !! ino = None /\ inodes s' !! r = Some (new_node dir mode ino)).
Proof.
  intros Hok. unfold axiomfs_new_inode. destruct (axiomfs_alloc_inode_num s) as [ino|] eqn:Eino; [|exists (- ENOSPC), s; split_and!; try done; by left].
  apply find_range_Some in Eino as (_ & Eino%bool_decide_eq_true & _).
  unfold new_inode. destruct (zalloc s) as [i s1] eqn:Ez. destruct (zalloc_spec s i s1 Ez) as [[l ->] Hz].
  destruct Hz as [->|(Hi0 & _ & Hni)]; [exists (- ENOMEM), (with_allocs l s); split_and!; try done; left; split; [done|by apply allocs_ok]|].
  rewrite !(proj2 (Z.eqb_neq i 0)) by lia. set (new := mkInode _ _ _ _ _ _ _ _ _). set (s1 := with_inodes _ _).
  assert (Hok1 : vfs_ok R (bump Q i 1) s1) by (apply new_inode_ok; [by apply allocs_ok|done..]).
  assert (Hfail : forall l', exists s', iput i (with_allocs l' s1) = Some s' /\ same_env s s' /\ dentries s' = dentries s /\
     (forall x, is_Some (inodes s !! x) -> inodes s' !! x = inodes s !! x) /\ vfs_ok R Q s').
  { intros l'. destruct (iput_ok R (bump Q i 1) (with_allocs l' s1) (allocs_ok _ _ _ l' Hok1) i) as (s' & E & Hok' & Hk & Ed).
    { right. rewrite bump_eq by lia. pose proof (proj1 (ok_Q _ _ _ Hok i)). lia. }
    exists s'. split; [done|]. split; [by apply kept_env in Hk|]. split; [done|]. split; [|eapply vfs_ok_ext; [| |exact Hok']; [done|bump_ext]].
    intros x Hx. unfold iput in E. rewrite (proj2 (Z.eqb_neq i 0)) in E by lia.
    cbn [inodes with_allocs with_inodes s1] in E. rewrite lookup_insert_eq in E. cbn [mbind option_bind] in E. change (i_count new - 1 =? 0) with true in E.
    cbn [negb] in E. injection E as <-. cbn [inodes with_inodes].
    assert (x <> i) by (intros ->; destruct Hx; congruence). rewrite lookup_delete_ne by done. unfold delete_inode, axiomfs_delete_inode.
    repeat case_match; cbn; by rewrite lookup_insert_ne. }
  assert (Ht : forall s0, exists l', (take_alloc s0).2 = with_allocs l' s0).
  { intros s0. destruct (take_alloc s0) as [b s0'] eqn:E. by apply (take_alloc_spec s0 b). }
  assert (Hret : forall l', exists r s', (s ← iput i (with_allocs l' s1); Some (- ENOMEM, s)) = Some (r, s') /\ same_env s s' /\ dentries s' = dentries s /\
     (forall x, is_Some (inodes s !! x) -> inodes s' !! x = inodes s !! x) /\ (r < 0 /\ vfs_ok R Q s' \/
       0 < r /\ vfs_ok R (bump Q r 1) s' /\ inodes s !! r = None /\ exists ino, inode_table s !! ino = None /\ inodes s' !! r = Some (new_node dir mode ino))).
  { intros l'. destruct (Hfail l') as (s' & -> & He & Ed & Hx & Hok'). exists (- ENOMEM), s'. split_and!; try done. by left. }
  destruct (take_alloc s1) as [ok2 s2] eqn:E2. destruct (take_alloc_spec _ _ _ E2) as [l2 ->]. destruct ok2; cbn [negb]; [|apply Hret].
  destruct (take_alloc (with_allocs l2 s1)) as [ok3 s3] eqn:E3. destruct (take_alloc_spec _ _ _ E3) as [l3 ->]. destruct ok3; cbn [negb]; [|apply (Hret l3)].
  set (node := inode_init_owner _ _ _ _). eexists i, _. split; [done|]. split; [done|]. split; [done|]. split.
  - intros x Hx. cbn. assert (x <> i) by (intros ->; destruct Hx; congruence). by rewrite !lookup_insert_ne by done.
  - right. split; [done|]. split; [|split; [done|exists ino; cbn; rewrite lookup_insert_eq; split; [done|]; unfold node; by rewrite init_owner_eq]]. apply (vfs_ok_state _ _ (with_inodes (<[i := node]> (inodes s)) s)); [done|cbn; by rewrite insert_insert_eq|].
    apply new_inode_ok; [done..|]. subst node. unfold inode_init_owner. by destruct (default _ _).
Qed.

(** What does not change about a file. *)
Definition same_file (a b : inode) : Prop := i_mode b = i_mode a /\ i_uid b = i_uid a /\ i_gid b = i_gid a /\ i_op b = i_op a.
End Make.

(** The operations that give a new entry an inode of a file of type [kind]. *)
Definition makes (cur : option (Z * Z)) (kind : Z) (op : Z -> Z -> Z -> vfs -> option (Z * vfs)) : Prop :=
  forall R Q dir di d de mode s, vfs_ok R Q s -> inodes s !! dir = Some di -> dentries s !! d = Some de -> d_inode de = 0 ->
  exists ret s', op dir d mode s = Some (ret, s') /\ ret <= 0 /\ same_env s s' /\ vfs_ok R Q s' /\
    (forall x xe, x <> d -> dentries s !! x = Some xe -> dentries s' !! x = Some xe) /\
    (forall j ino, inodes s !! j = Some ino -> exists ino', inodes s' !! j = Some ino' /\ same_file ino ino') /\
    (ret = 0 -> exists i n, 0 < i /\ inode_table s !! n = None /\ dentries s' !! d = Some (set_d_inode i de) /\ inodes s' !! i = Some (new_node cur di (Z.lor mode kind) n)).

Lemma axiomfs_create_makes cur deny : makes cur S_IFREG (axiomfs_create cur deny).
Proof.
  intros R Q dir di d de mode s Hok Hdi Hd Hde. unfold axiomfs_create. rewrite Hdi, Hd. cbn [mbind option_bind].
  assert (Hid : forall j ino, inodes s !! j = Some ino -> exists ino', inodes s !! j = Some ino' /\ same_file ino ino') by (intros j ino Hj; by exists ino).
  destruct (deny _ _ _); [exists (- EACCES), s; split_and!; done|].
  destruct (axiomfs_new_inode_ok cur R Q di (Z.lor mode S_IFREG) s Hok) as (r & s1 & -> & He & Ed & Hin & Hr). cbn [mbind option_bind].
  assert (Hold : forall j ino, inodes s !! j = Some ino -> exists ino', inodes s1 !! j = Some ino' /\ same_file ino ino')
    by (intros j ino Hj; exists ino; rewrite Hin by (by eexists); done).
  destruct Hr as [[Hr Hok1]|(Hr & Hok1 & Hfr & n & Hno & Hnew)].
  - rewrite (proj2 (Z.ltb_lt r 0)) by done. exists r, s1. split_and!; try done; [lia|by rewrite Ed|lia].
  - destruct (Z.ltb_spec r 0); [lia|]. unfold d_instantiate. rewrite Ed, Hd. cbn [mbind option_bind]. eexists 0, _. split; [done|]. split; [lia|]. split; [done|].
    rewrite <- Ed in Hd. pose proof (d_instantiate_ok _ _ _ Hok1 d de r Hd Hde) as Hok2. rewrite Ed in *. split; [|split; [|split]; cbn].
    + eapply vfs_ok_ext; [| |apply Hok2; rewrite bump_eq by lia; pose proof (proj1 (ok_Q _ _ _ Hok r)); lia]; [done|bump_ext].
    + intros x xe Hx Hxe. by rewrite lookup_insert_ne by done.
    + done.
    + intros _. exists r, n. by rewrite lookup_insert_eq.
Qed.

Lemma axiomfs_mkdir_makes cur deny : makes cur S_IFDIR (axiomfs_mkdir cur deny).
Proof.
  intros R Q dir di d de mode s Hok Hdi Hd Hde. unfold axiomfs_mkdir. rewrite Hdi, Hd. cbn [mbind option_bind].
  assert (Hid : forall j ino, inodes s !! j = Some ino -> exists ino', inodes s !! j = Some ino' /\ same_file ino ino') by (intros j ino Hj; by exists ino).
  destruct (deny _ _ _); [exists (- EACCES), s; split_and!; done|].
  destruct (axiomfs_new_inode_ok cur R Q di (Z.lor mode S_IFDIR) s Hok) as (r & s1 & -> & He & Ed & Hin & Hr). cbn [mbind option_bind].
  assert (Hold : forall j ino, inodes s !! j = Some ino -> exists ino', inodes s1 !! j = Some ino' /\ same_file ino ino')
    by (intros j ino Hj; exists ino; rewrite Hin by (by eexists); done).
  destruct Hr as [[Hr Hok1]|(Hr & Hok1 & Hfr & n & Hno & Hnew)].
  - rewrite (proj2 (Z.ltb_lt r 0)) by done. exists r, s1. split_and!; try done; [lia|by rewrite Ed|lia].
  - destruct (Z.ltb_spec r 0); [lia|]. rewrite (Hin dir) by (by eexists). rewrite Hdi. cbn [mbind option_bind]. pose proof Hdi as Hdi0. rewrite <- (Hin dir) in Hdi by (by eexists).
    pose proof (set_inode_ok _ _ _ Hok1 dir di (set_i_nlink (i_nlink di + 1) di) 0 Hdi ltac:(cbn; lia) ltac:(apply (io_live _ _ _ _ (ok_inode _ _ _ Hok1 dir di Hdi))) ltac:(pose proof (proj1 (ok_Q _ _ _ Hok1 dir)); lia)) as Hok2.
    unfold d_instantiate. cbn [dentries with_inodes]. rewrite Ed, Hd. cbn [mbind option_bind]. eexists 0, _. split; [done|]. split; [lia|]. split; [done|].
    rewrite <- Ed in Hd. pose proof (d_instantiate_ok _ _ _ Hok2 d de r Hd Hde) as Hok3. cbn [dentries with_inodes] in Hok3. rewrite Ed in *. split; [|split; [|split]; cbn].
    + eapply vfs_ok_ext; [| |apply Hok3; unfold bump; pose proof (proj1 (ok_Q _ _ _ Hok r)); repeat case_match; zbool; lia]; [done|bump_ext].
    + intros x xe Hx Hxe. by rewrite lookup_insert_ne by done.
    + intros j ino Hj. destruct (decide (j = dir)) as [->|]; [rewrite lookup_insert_eq|rewrite lookup_insert_ne by done; by apply Hold].
      assert (ino = di) as -> by congruence. by exists (set_i_nlink (i_nlink di + 1) di).
    + intros _. exists r, n. rewrite lookup_insert_eq. split; [done|]. split; [done|]. split; [done|]. by rewrite lookup_insert_ne by congruence.
Qed.

Lemma components_app pre rest : forall acc, components (pre ++ 47 :: rest) acc = components pre acc ++ components rest [].
Proof.
  induction pre as [|c pre IH]; intros acc; cbn; [by destruct (decide (acc = []))|].
  destruct (c =? 47); [|apply IH]. destruct (decide (acc = [])); [apply IH|]. cbn. by rewrite IH.
Qed.

Lemma rsplit_spec path pre name : rsplit path = Some (pre, name) -> path = pre ++ 47 :: name.
Proof.
  revert pre name. induction path as [|c path IH]; intros pre name E; [done|]. cbn in E.
  destruct (rsplit path) as [[pre' name']|]; [simplify_eq; cbn; f_equal; by apply IH|].
  destruct (Z.eqb_spec c 47); [|done]. by simplify_eq.
Qed.

Lemma names_fit_parent path pre name : names_fit path -> rsplit path = Some (pre, name) -> names_fit (if decide (pre = []) then [47] else pre).
Proof.
  unfold names_fit. intros Hf E%rsplit_spec. rewrite E, components_app in Hf. apply Forall_app in Hf as [Hf _].
  destruct (decide (pre = [])); [by constructor|done].
Qed.

(** Releasing an entry, with a result that is no entry. *)
Lemma put_ret {A} R Q s0 s d (r : A) : (forall x, 0 <= R x) -> same_env s0 s -> vfs_ok (bump R d 1) Q s ->
  exists s', (s ← dput d s; Some (r, s)) = Some (r, s') /\ same_env s0 s' /\ vfs_ok R Q s'.
Proof.
  intros HR He Hok. destruct (put_ok R Q s d HR Hok) as (s' & -> & Hok' & Hk). exists s'. split; [done|].
  split; [|done]. eapply same_env_trans; eauto with obelisk.
Qed.

Section Names.
Context (cur : option (Z * Z)) (deny : Z -> list Z -> Z -> bool) (R Q : Z -> Z) (s : vfs) (path : list Z).
Hypothesis (Hok : vfs_ok R Q s) (Hm : mounts_ok R s) (Hroot : 0 < R (root_dentry s)) (Hn : names_fit path).

Let HR x : 0 <= R x := proj1 (ok_R _ _ _ Hok x).

(** What follows the last slash. *)
Definition last_name : list Z := match rsplit path with Some (_, name) => name | None => path end.

Lemma lookup_parent_ok s1 : same_env s s1 -> vfs_ok R Q s1 ->
  exists r s', lookup_parent cur deny path s1 = Some (r, s') /\ same_env s s' /\
    match r with inl e => e < 0 /\ vfs_ok R Q s' | inr (p, name) => vfs_ok (bump R p 1) Q s' /\ name = last_name end.
Proof.
  intros He Hok1. pose proof He as (_ & _ & Er & _). unfold lookup_parent, last_name. destruct (rsplit path) as [[pre name]|] eqn:Es.
  - destruct (take_alloc s1) as [ok s2] eqn:Et. destruct (take_alloc_spec _ _ _ Et) as [l ->]. destruct ok; cbn [negb].
    2: { eexists _, _. split; [done|]. split; [done|]. split; [lia|by apply allocs_ok]. }
    destruct (lookup_at_ok cur deny R Q (with_allocs l s1) (if decide (pre = []) then [47] else pre) true) as (p & s3 & E & Hok3 & He3).
    { by apply allocs_ok. } { by apply (mounts_env R s). } { right. cbn. by rewrite Er. } { by eapply names_fit_parent. }
    unfold vfs_lookup. rewrite E. cbn [mbind option_bind]. eexists _, _. split; [done|]. split; [|done]. by eapply same_env_trans.
  - destruct (dget_ok R Q s1 Hok1 (root_dentry s1)) as (s2 & E & Hok2 & Hk2). { right. apply (ok_R _ _ _ Hok1). rewrite Er. lia. }
    rewrite E. cbn [mbind option_bind]. pose proof (kept_env _ _ Hk2) as He2. pose proof He2 as (_ & _ & Er2 & _).
    eexists _, _. split; [done|]. split; [by eapply same_env_trans|]. by rewrite Er2.
Qed.

(** The entry [d] is a new name with a file. *)
Definition named (d : Z) (s' : vfs) : Prop :=
  exists de, dentries s' !! d = Some de /\ d_name de = take (Z.to_nat NAME_MAX) last_name /\ 0 < d_inode de.

Lemma vfs_make_ok op kind mode : makes cur kind op ->
  exists ret s', vfs_make cur deny op path mode s = Some (ret, s') /\ same_env s s' /\
    (ret < 0 /\ vfs_ok R Q s' \/ ret = 0 /\ exists d, 0 < d /\ R d = 0 /\ vfs_ok (bump R d 1) Q s' /\ named d s').
Proof.
  intros Hop. unfold vfs_make.
  destruct (lookup_at_ok cur deny R Q s path true Hok Hm (or_intror Hroot) Hn) as (e & s1 & E & Hok1 & He1). unfold vfs_lookup. rewrite E. cbn [mbind option_bind].
  assert (Hput : forall s0 d err, err < 0 -> same_env s s0 -> vfs_ok (bump R d 1) Q s0 ->
    exists ret s', (s ← dput d s0; Some (err, s)) = Some (ret, s') /\ same_env s s' /\
    (ret < 0 /\ vfs_ok R Q s' \/ ret = 0 /\ exists d, 0 < d /\ R d = 0 /\ vfs_ok (bump R d 1) Q s' /\ named d s')).
  { intros s0 d err Herr He Hok0. destruct (put_ret R Q s s0 d err HR He Hok0) as (s' & Ep & He' & Hok'). exists err, s'. split; [done|]. split; [done|]. by left. }
  destruct (Z.eqb_spec e 0) as [->|]; cbn [negb]; [|by apply Hput]. apply ok_bump_0 in Hok1.
  destruct (lookup_parent_ok s1 He1 Hok1) as (r & s2 & -> & He2 & Hr). cbn [mbind option_bind].
  destruct r as [err|[parent name]]; [exists err, s2; split; [done|]; split; [done|]; by left|].
  destruct Hr as [Hr ->]. destruct (Z.eqb_spec parent 0) as [->|Hp]; [exists (- ENOENT), s2; split; [done|]; split; [done|]; left; split; [done|by apply ok_bump_0 in Hr]|]. unfold make_in.
  destruct (proj2 (ok_R _ _ _ Hr parent)) as [pe Hpe]; [rewrite bump_eq by lia; specialize (HR parent); lia|]. rewrite Hpe. cbn [mbind option_bind].
  pose proof (ok_entry _ _ _ Hr parent pe Hpe) as Hpo. destruct (Z.eqb_spec (d_inode pe) 0) as [|Hi]; [by apply Hput|].
  destruct (eo_inode _ _ _ _ Hpo Hi) as [dir Hdir]. rewrite Hdir. cbn [mbind option_bind]. destruct (negb (S_ISDIR _)); [by apply Hput|].
  destruct (Z.ltb_spec (vfs_check_permission cur dir (Z.lor MAY_WRITE MAY_EXEC)) 0); [by apply Hput|]. case_bool_decide; cbn [negb]; [|by apply Hput].
  destruct (dentry_alloc_ok s2 parent last_name (eo_pos _ _ _ _ Hpo) ltac:(by eexists)) as (d & l & [[-> ->]|(pe' & Hd0 & Hd & Hpe' & ->)]); cbn [mbind option_bind].
  { apply Hput; [done|done|by apply allocs_ok]. }
  rewrite (proj2 (Z.eqb_neq d 0)) by lia. assert (pe' = pe) as -> by congruence.
  pose proof (add_child_ok _ _ (with_allocs l s2) (allocs_ok _ _ _ l Hr) parent pe d (take (Z.to_nat NAME_MAX) last_name) Hpe Hd0 Hd) as Hok3.
  set (s3 := with_dentries _ (with_allocs l s2)) in *. set (de := mkDentry _ _ _ _ _ _) in *.
  destruct (Hop _ _ (d_inode pe) dir d de mode s3 Hok3 Hdir (lookup_insert_eq _ _ _) eq_refl) as (ret & s4 & -> & Hret & He4 & Hok4 & _ & _ & Hnew). cbn [mbind option_bind].
  assert (He34 : same_env s s4) by (eapply same_env_trans; [exact He2|done]).
  destruct (Z.ltb_spec ret 0) as [Hlt|Hge].
  - destruct (put_ok (bump R parent 1) Q s4 d (bump_nonneg R parent 1 HR ltac:(lia)) Hok4) as (s5 & -> & Hok5 & Hk5). cbn [mbind option_bind].
    apply Hput; [done|eapply same_env_trans; eauto with obelisk|done].
  - cbn [mbind option_bind]. destruct (put_ok (bump R d 1) Q s4 parent (bump_nonneg R d 1 HR ltac:(lia))) as (s' & -> & Hok' & Hk').
    { eapply vfs_ok_ext; [| |exact Hok4]; [bump_ext|done]. }
    exists ret, s'. split; [done|]. split; [eapply same_env_trans; eauto with obelisk|]. right. split; [lia|]. exists d. split_and!; [done| |done|].
    { destruct (decide (R d = 0)) as [|Hne]; [done|]. destruct (proj2 (ok_R _ _ _ Hr d)) as [? Hx]; [pose proof (HR d); unfold bump; destruct (_ && _); lia|congruence]. }
    destruct (Hnew ltac:(lia)) as (i & n & Hi0 & _ & Hde & _). destruct (proj2 (ok_R _ _ _ Hok' d)) as [de' Hde']; [rewrite bump_eq by lia; specialize (HR d); lia|].
    exists de'. split; [done|]. destruct (k_entry _ _ Hk' d de' Hde') as (x & Hx & ->). rewrite Hde in Hx. by injection Hx as <-.
Qed.
End Names.

(** The operations that take a name away. *)
Definition removes (op : Z -> Z -> vfs -> option (Z * vfs)) : Prop := forall R Q dir d s, vfs_ok R Q s -> is_Some (inodes s !! dir) ->
  is_Some (dentries s !! d) -> exists ret s', op dir d s = Some (ret, s') /\ ret <= 0 /\ same_env s s' /\ vfs_ok R Q s' /\
    (ret = 0 -> exists de, dentries s !! d = Some de /\ dentries s' = dentries (unlink_child d (d_parent de) s)).

Lemma unlink_child_ok R Q s d p : vfs_ok R Q s -> vfs_ok R Q (unlink_child d p s).
Proof.
  intros Hok. unfold unlink_child. destruct (dentries s !! p) as [pe|] eqn:Hp.
  - rewrite <- (insert_id (dentries s) p pe Hp) at 1. rewrite alter_insert_eq. pose proof (ok_entry _ _ _ Hok p pe Hp) as [].
    eapply vfs_ok_ext; [| |apply (set_entry_ok _ _ _ Hok p pe _ 0 Hp)]; try done; [bump_ext|by apply NoDup_filter|by intros c [_ Hc]%list_elem_of_filter|cbn; lia|].
    pose proof (proj1 (ok_R _ _ _ Hok p)). lia.
  - rewrite alter_id' by done. by rewrite with_dentries_id.
Qed.

Lemma set_nlink_ok R Q s i ino n : vfs_ok R Q s -> inodes s !! i = Some ino -> vfs_ok R Q (with_inodes (<[i := set_i_nlink n ino]> (inodes s)) s).
Proof.
  intros Hok Hi. pose proof (ok_inode _ _ _ Hok i ino Hi) as [].
  eapply vfs_ok_ext; [| |apply (set_inode_ok _ _ _ Hok i ino _ 0 Hi)]; cbn; try done; [bump_ext|lia|]. pose proof (proj1 (ok_Q _ _ _ Hok i)). lia.
Qed.

Lemma axiomfs_rmdir_removes deny : removes (axiomfs_rmdir deny).
Proof.
  intros R Q dir d s Hok Hdir [de Hd]. unfold axiomfs_rmdir. rewrite Hd. cbn [mbind option_bind].
  destruct (Z.eqb_spec (d_inode de) 0) as [|Hi]; [by exists (- ENOENT), s|].
  destruct (eo_inode _ _ _ _ (ok_entry _ _ _ Hok d de Hd) Hi) as [ino Hino]. rewrite Hino. cbn [mbind option_bind].
  case_bool_decide; cbn [negb]; [|by exists (- ENOTEMPTY), s]. destruct (deny _ _ _); [by exists (- EACCES), s|].
  pose proof (set_nlink_ok R Q s _ ino 0 Hok Hino) as Hok1. set (s1 := with_inodes _ s) in *.
  assert (Hdir1 : is_Some (inodes s1 !! dir)) by (subst s1; cbn; rewrite lookup_insert_is_Some'; by right). destruct Hdir1 as [di Hdi]. rewrite Hdi. cbn [mbind option_bind].
  pose proof (set_nlink_ok R Q s1 _ di (i_nlink di - 1) Hok1 Hdi) as Hok2. eexists 0, _. split; [done|]. split; [lia|]. split; [done|]. split; [by apply unlink_child_ok|]. intros _. by exists de.
Qed.

Lemma axiomfs_unlink_removes deny : removes (fun _ => axiomfs_unlink deny).
Proof.
  intros R Q dir d s Hok _ [de Hd]. unfold axiomfs_unlink. rewrite Hd. cbn [mbind option_bind].
  destruct (Z.eqb_spec (d_inode de) 0) as [|Hi]; [by exists (- ENOENT), s|].
  destruct (eo_inode _ _ _ _ (ok_entry _ _ _ Hok d de Hd) Hi) as [ino Hino]. rewrite Hino. cbn [mbind option_bind]. destruct (deny _ _ _); [by exists (- EACCES), s|].
  eexists 0, _. split; [done|]. split; [lia|]. split; [done|]. split; [apply unlink_child_ok; by apply set_nlink_ok|]. intros _. by exists de.
Qed.

Section Remove.
Context (cur : option (Z * Z)) (deny : Z -> list Z -> Z -> bool) (R Q : Z -> Z) (s : vfs) (path : list Z).
Hypothesis (Hok : vfs_ok R Q s) (Hm : mounts_ok R s) (Hroot : 0 < R (root_dentry s)) (Hn : names_fit path).

Let HR x : 0 <= R x := proj1 (ok_R _ _ _ Hok x).

(** A result without a reference, with [D] when it is success. *)
Definition settles (D : vfs -> Prop) (m : option (Z * vfs)) : Prop :=
  exists ret s', m = Some (ret, s') /\ ret <= 0 /\ same_env s s' /\ vfs_ok R Q s' /\ (ret = 0 -> D s').

Lemma put_settles D s1 d ret : ret < 0 -> same_env s s1 -> vfs_ok (bump R d 1) Q s1 -> settles D (s ← dput d s1; Some (ret, s)).
Proof. intros Hr He Hok1. destruct (put_ret R Q s s1 d ret HR He Hok1) as (s' & E & He' & Hok'). exists ret, s'. split_and!; [done|lia|done|done|lia]. Qed.

(** The entry [d], with [de], is not in its directory any more; where it has a
    reference from outside, it is still there, and so is its inode. *)
Definition taken_out (d : Z) (de : dentry) (s' : vfs) : Prop :=
  (forall pe, dentries s' !! d_parent de = Some pe -> d ∉ d_subdirs pe) /\
  (0 < R d -> exists de', dentries s' !! d = Some de' /\ d_name de' = d_name de /\ d_inode de' = d_inode de /\
     (d_inode de <> 0 -> is_Some (inodes s' !! d_inode de))).

Lemma taken_out_kept d de s2 s' : vfs_ok R Q s' -> kept s2 s' ->
  (exists s1, dentries s1 !! d = Some de /\ dentries s2 = dentries (unlink_child d (d_parent de) s1)) -> taken_out d de s'.
Proof.
  intros Hok' Hk (s1 & Hde & E2). split.
  - intros pe Hpe. destruct (k_entry _ _ Hk _ _ Hpe) as (pe2 & Hpe2 & ->). cbn [d_subdirs set_d_count set_d_subdirs].
    intros [_ Hin]%list_elem_of_filter. rewrite E2 in Hpe2. cbn [dentries unlink_child with_dentries] in Hpe2. rewrite lookup_alter_eq in Hpe2.
    apply fmap_Some in Hpe2 as (pe1 & _ & ->). cbn in Hin. apply list_elem_of_filter in Hin as [Hne _]. done.
  - intros HRd. destruct (proj2 (ok_R _ _ _ Hok' d) ltac:(lia)) as [de' Hde']. exists de'. split; [done|].
    destruct (k_entry _ _ Hk _ _ Hde') as (de2 & Hde2 & Ede). rewrite E2 in Hde2. cbn [dentries unlink_child with_dentries] in Hde2.
    assert (Hsame : d_name de2 = d_name de /\ d_inode de2 = d_inode de).
    { destruct (decide (d_parent de = d)) as [Ep|]; [rewrite Ep, lookup_alter_eq, Hde in Hde2; by injection Hde2 as <-|].
      rewrite lookup_alter_ne, Hde in Hde2 by done. by injection Hde2 as <-. }
    assert (Ei : d_inode de' = d_inode de2) by (by rewrite Ede). destruct Hsame as [<- <-]. rewrite <- Ei.
    split_and!; [by rewrite Ede|done|]. intros Hi. by apply (eo_inode _ _ _ _ (ok_entry _ _ _ Hok' d _ Hde')).
Qed.

Lemma remove_from_ok op s1 d de : removes op -> same_env s s1 -> 0 < d -> vfs_ok (bump R d 1) Q s1 -> dentries s1 !! d = Some de ->
  settles (taken_out d de) (remove_from cur op d s1).
Proof.
  intros Hop He Hd Hok1 Hde. unfold remove_from.
  rewrite Hde. cbn [mbind option_bind]. pose proof (ok_entry _ _ _ Hok1 d de Hde) as Ho. destruct (d_parent de =? 0); [by apply put_settles|].
  destruct (eo_parent _ _ _ _ Ho) as [pe Hpe]. rewrite Hpe. cbn [mbind option_bind]. destruct (Z.eqb_spec (d_inode pe) 0) as [|Hi]; [by apply put_settles|].
  destruct (eo_inode _ _ _ _ (ok_entry _ _ _ Hok1 _ pe Hpe) Hi) as [dir Hdir]. rewrite Hdir. cbn [mbind option_bind].
  destruct (Z.ltb_spec (vfs_check_permission cur dir (Z.lor MAY_WRITE MAY_EXEC)) 0); [by apply put_settles|]. destruct (negb _); [by apply put_settles|].
  destruct (Hop _ _ (d_inode pe) d s1 Hok1 ltac:(by eexists) ltac:(by eexists)) as (ret & s2 & -> & Hret & He2 & Hok2 & Hout). cbn [mbind option_bind].
  destruct (put_ok R Q s2 d HR Hok2) as (s' & -> & Hok' & Hk). exists ret, s'. split_and!; [done|done| |done|].
  - eapply same_env_trans; [|by apply kept_env]. by eapply same_env_trans.
  - intros E0. destruct (Hout E0) as (de0 & Hde0 & E2). assert (de0 = de) as -> by congruence. apply (taken_out_kept d de s2 s'); [done|done|by exists s1].
Qed.

(** The name that the path leads to is taken out. *)
Definition taken_path (s' : vfs) : Prop :=
  exists d s1 de, vfs_lookup cur deny path s = Some (d, s1) /\ dentries s1 !! d = Some de /\ taken_out d de s'.

Lemma settles_impl (D D' : vfs -> Prop) m : (forall s', D s' -> D' s') -> settles D m -> settles D' m.
Proof. intros HD (ret & s' & H1 & H2 & H3 & H4 & H5). exists ret, s'. split_and!; auto. Qed.

Lemma vfs_rmdir_ok : settles taken_path (vfs_rmdir cur deny path s).
Proof.
  unfold vfs_rmdir. destruct (lookup_at_ok cur deny R Q s path true Hok Hm (or_intror Hroot) Hn) as (d & s1 & E & Hok1 & He1). unfold vfs_lookup. rewrite E. cbn [mbind option_bind].
  destruct (Z.eqb_spec d 0) as [->|Hd]; [exists (- ENOENT), s1; apply ok_bump_0 in Hok1; by split_and!|].
  destruct (vfs_is_mountpoint s1 d); [by apply put_settles|].
  destruct (proj2 (ok_R _ _ _ Hok1 d)) as [de Hde]; [rewrite bump_eq by lia; specialize (HR d); lia|]. rewrite Hde. cbn [mbind option_bind].
  pose proof (ok_entry _ _ _ Hok1 d de Hde) as Ho. destruct (Z.eqb_spec (d_inode de) 0) as [|Hi]; [by apply put_settles|].
  destruct (eo_inode _ _ _ _ Ho Hi) as [ino ->]. cbn [mbind option_bind]. destruct (negb _); [by apply put_settles|].
  eapply settles_impl; [|apply remove_from_ok; [apply axiomfs_rmdir_removes|done|apply (eo_pos _ _ _ _ Ho)|done|exact Hde]].
  intros s' Ht. by exists d, s1, de.
Qed.

Lemma vfs_unlink_ok : settles taken_path (vfs_unlink cur deny path s).
Proof.
  unfold vfs_unlink. destruct (lookup_at_ok cur deny R Q s path true Hok Hm (or_intror Hroot) Hn) as (d & s1 & E & Hok1 & He1). unfold vfs_lookup. rewrite E. cbn [mbind option_bind].
  destruct (Z.eqb_spec d 0) as [->|Hd]; [exists (- ENOENT), s1; apply ok_bump_0 in Hok1; by split_and!|].
  destruct (proj2 (ok_R _ _ _ Hok1 d)) as [de Hde]; [rewrite bump_eq by lia; specialize (HR d); lia|]. rewrite Hde. cbn [mbind option_bind].
  pose proof (ok_entry _ _ _ Hok1 d de Hde) as Ho. destruct (Z.eqb_spec (d_inode de) 0) as [|Hi]; [by apply put_settles|].
  destruct (eo_inode _ _ _ _ Ho Hi) as [ino ->]. cbn [mbind option_bind]. destruct (S_ISDIR _); [by apply put_settles|].
  eapply settles_impl; [|apply remove_from_ok; [apply axiomfs_unlink_removes|done|apply (eo_pos _ _ _ _ Ho)|done|exact Hde]].
  intros s' Ht. by exists d, s1, de.
Qed.
End Remove.

(** C30. Creating and removing names, for paths whose names have at most 255 bytes:
    none of [vfs_create], [vfs_mkdir], [vfs_rmdir] and [vfs_unlink] faults, on a
    failure all references are as before, and every count stays right.  A success
    of [vfs_create] or [vfs_mkdir] leaves one reference more, to a new entry with
    the last name of the path and an inode.  A success of [vfs_rmdir] or
    [vfs_unlink] takes the entry that the path leads to out of its directory and
    leaves all references as before: the one from the creation is not released, so
    that an entry which has it stays in memory with its inode although no name
    leads to it. *)
Theorem names_balanced cur deny R Q s path mode (Hok : vfs_ok R Q s) (Hm : mounts_ok R s) (Hroot : 0 < R (root_dentry s)) (Hn : names_fit path) :
  (forall op, op = axiomfs_create cur deny \/ op = axiomfs_mkdir cur deny ->
     exists ret s', vfs_make cur deny op path mode s = Some (ret, s') /\ same_env s s' /\
       (ret < 0 /\ vfs_ok R Q s' \/ ret = 0 /\ exists d, 0 < d /\ R d = 0 /\ vfs_ok (bump R d 1) Q s' /\ named path d s')) /\
  (forall f, f = vfs_rmdir cur deny \/ f = vfs_unlink cur deny ->
     exists ret s', f path s = Some (ret, s') /\ ret <= 0 /\ same_env s s' /\ vfs_ok R Q s' /\
       (ret = 0 -> exists d s1 de, vfs_lookup cur deny path s = Some (d, s1) /\ dentries s1 !! d = Some de /\
          (forall pe, dentries s' !! d_parent de = Some pe -> d ∉ d_subdirs pe) /\
          (0 < R d -> exists de', dentries s' !! d = Some de' /\ d_name de' = d_name de /\ d_inode de' = d_inode de /\
             (d_inode de <> 0 -> is_Some (inodes s' !! d_inode de))))).
Proof.
  split.
  - intros op [-> | ->]; eapply vfs_make_ok; try done; [apply axiomfs_create_makes|apply axiomfs_mkdir_makes].
  - intros f [-> | ->]; [by apply vfs_rmdir_ok|by apply vfs_unlink_ok].
Qed.

(** ** Mounting *)

Lemma fs_mount_ok R Q fs s sb root s' : vfs_ok R Q s -> fs_mount fs s = Some (sb, root, s') -> sb <> 0 ->
  0 < root /\ dentries s !! root = None /\ vfs_ok (bump R root 1) Q s' /\
  mount_table s' = mount_table s /\ root_dentry s' = root_dentry s /\ device_list s' = device_list s.
Proof.
  intros Hok E Hsb. unfold fs_mount in E. destruct (zalloc s) as [sb0 s0] eqn:Ez. destruct (zalloc_spec _ _ _ Ez) as [[l ->] _].
  destruct (sb0 =? 0); [by simplify_eq|]. destruct (take_alloc (with_allocs l s)) as [ok s1] eqn:E1. destruct (take_alloc_spec _ _ _ E1) as [l1 ->].
  destruct ok; cbn [negb] in E; [|by simplify_eq].
  assert (Ht : exists ok l2, (match fs with axiomfs_fs_type => take_alloc (with_allocs l1 (with_allocs l s)) | devfs_fs_type => (true, with_allocs l1 (with_allocs l s)) end) = (ok, with_allocs l2 s)).
  { destruct fs; [|by exists true, l1]. destruct (take_alloc (with_allocs l1 (with_allocs l s))) as [ok s2] eqn:E2. destruct (take_alloc_spec _ _ _ E2) as [l2 ->]. by exists ok, l2. }
  destruct Ht as (ok & l2 & Ht). rewrite Ht in E. destruct ok; cbn [negb] in E; [|by simplify_eq].
  apply bind_Some in E as ([d s3] & Em & E). destruct (Z.eqb_spec d 0) as [|Hd]; [by simplify_eq|]. injection E as <- <- <-.
  set (s2 := with_supers _ _) in Em. assert (Hok2 : vfs_ok R Q s2) by (by apply (vfs_ok_state R Q s)). unfold make_root, new_inode in Em.
  destruct (zalloc s2) as [i s4] eqn:Ez4. destruct (zalloc_spec _ _ _ Ez4) as [[l4 ->] Hi]. destruct Hi as [->|(Hi0 & _ & Hni)]; [cbn in Em; by simplify_eq|].
  rewrite !(proj2 (Z.eqb_neq i 0)) in Em by lia. cbn [inodes with_inodes] in Em. rewrite insert_insert_eq in Em. set (ino := mkInode _ _ _ _ _ _ _ _ _) in Em.
  pose proof (new_inode_ok R Q (with_allocs l4 s2) (allocs_ok _ _ _ l4 Hok2) i ino Hi0 Hni eq_refl) as Hok4.
  apply bind_Some in Em as ([d' s5] & Er & Em). unfold d_make_root in Er. rewrite (proj2 (Z.eqb_neq i 0)) in Er by lia.
  unfold dentry_alloc in Er. set (s6 := with_inodes _ (with_inodes _ (with_allocs l4 s2))) in Er. change s6 with (with_inodes (<[i := ino]> (inodes s2)) (with_allocs l4 s2)) in *. clear s6.
  set (s6 := with_inodes _ _) in *. destruct (zalloc s6) as [r s7] eqn:Ez7. destruct (zalloc_spec _ _ _ Ez7) as [[l7 ->] Hr].
  destruct Hr as [->|(Hr0 & Hrd & _)].
  { cbn [Z.eqb mbind option_bind] in Er. apply bind_Some in Er as (s8 & _ & Er). injection Er as <- <-. cbn [Z.eqb] in Em. apply bind_Some in Em as (s9 & _ & Em). by simplify_eq. }
  rewrite !(proj2 (Z.eqb_neq r 0)) in Er by lia. cbn [Z.eqb mbind option_bind] in Er. rewrite (proj2 (Z.eqb_neq r 0)) in Er by lia.
  assert (Hri : inodes s6 !! i = Some ino) by apply lookup_insert_eq. change (inodes (with_dentries _ (with_allocs l7 s6))) with (inodes s6) in Er. rewrite Hri in Er. cbn [mbind option_bind] in Er.
  cbn [dentries with_dentries] in Er. rewrite lookup_insert_eq in Er. cbn [mbind option_bind] in Er. unfold d_instantiate in Er. cbn [dentries with_dentries] in Er.
  rewrite insert_insert_eq, lookup_insert_eq in Er. cbn [mbind option_bind] in Er. injection Er as <- <-. rewrite (proj2 (Z.eqb_neq r 0)) in Em by lia. injection Em as <- <-.
  set (de := mkDentry _ _ _ _ _ _) in *. pose proof (add_root_ok R (bump Q i 1) (with_allocs l7 s6) (allocs_ok _ _ _ l7 Hok4) r de Hr0 Hrd eq_refl eq_refl eq_refl eq_refl) as Hok7.
  pose proof (d_instantiate_ok _ _ _ Hok7 r de i (lookup_insert_eq _ _ _) eq_refl) as Hok8. split; [done|]. split; [done|]. split; [|done].
  eapply vfs_ok_ext; [| |apply Hok8]; [done|bump_ext|]. rewrite bump_eq by lia. pose proof (proj1 (ok_Q _ _ _ Hok i)). lia.
Qed.

Lemma mount_ok cur deny R Q source target fs s s' (Hok : vfs_ok R Q s) (Hm : mounts_ok R s) (Hroot : root_dentry s = 0 \/ 0 < R (root_dentry s))
    (Hn : names_fit target) (Hlen : Z.of_nat (length (mount_table s)) < MAX_MOUNTS) (E : vfs_mount cur deny source target fs s = Some (0, s')) :
  exists mp root sb, let R' := bump (bump R mp 1) root 1 in 0 < root /\
    mount_table s' = mount_table s ++ [mkMount mp root sb] /\ root_dentry s' = (if root_dentry s =? 0 then root else root_dentry s) /\
    vfs_ok R' Q s' /\ mounts_ok R' s' /\ 0 < R' (root_dentry s').
Proof.
  unfold vfs_mount in E. destruct fs as [fs|]; [|by simplify_eq].
  assert (Hmp : yields R Q s (if negb (root_dentry s =? 0) then vfs_lookup cur deny target s else Some (0, s))).
  { destruct (negb _); [by apply lookup_at_ok|]. exists 0, s. split; [done|]. split; [by apply ok_bump_0|done]. }
  destruct Hmp as (mp & s1 & Emp & Hok1 & He1). rewrite Emp in E. cbn [mbind option_bind] in E. destruct (negb _ && _); [by simplify_eq|].
  apply bind_Some in E as ([[sb root] s2] & Ef & E). destruct (Z.eqb_spec sb 0); [by simplify_eq|].
  destruct (fs_mount_ok _ _ _ _ _ _ _ Hok1 Ef ltac:(done)) as (Hr0 & Hrn & Hok2 & Em2 & Er2 & _).
  destruct (take_alloc s2) as [ok s3] eqn:Et. destruct (take_alloc_spec _ _ _ Et) as [l3 ->].
  destruct ok; cbn [negb] in E; [|apply bind_Some in E as (? & _ & E); by simplify_eq].
  assert (Hs : exists b l4, (if source then take_alloc (with_allocs l3 s2) else (true, with_allocs l3 s2)) = (b, with_allocs l4 s2)).
  { destruct source; [|by exists true, l3]. destruct (take_alloc (with_allocs l3 s2)) as [b s4] eqn:E4. destruct (take_alloc_spec _ _ _ E4) as [l4 ->]. by exists b, l4. }
  destruct Hs as (b & l4 & Hs). rewrite Hs in E. injection E as <-. destruct He1 as (_ & Em1 & Er1 & _). cbn [mount_table root_dentry with_allocs with_mounts].
  rewrite Em2, Er2, Em1, Er1. rewrite (proj2 (Z.ltb_lt _ _) Hlen).
  assert (Hmr : forall x, 0 <= R x) by (intros x; apply (ok_R _ _ _ Hok)).
  assert (Hz : R root = 0).
  { destruct (decide (R root = 0)) as [|Hz]; [done|]. exfalso. destruct (proj2 (ok_R _ _ _ Hok1 root)) as [? ?]; [|congruence]. unfold bump. specialize (Hmr root). destruct (_ && _); lia. }
  assert (Hge : forall x, R x <= bump (bump R mp 1) root 1 x) by (intros x; unfold bump; destruct (_ && _), (_ && _); lia).
  assert (Hroot' : 0 < bump (bump R mp 1) root 1 root) by (rewrite bump_eq by lia; unfold bump; specialize (Hmr root); destruct (_ && _); lia).
  assert (Hmpr : mp <> root) by (intros ->; destruct (proj2 (ok_R _ _ _ Hok1 root)) as [? ?]; [rewrite bump_eq by lia; lia|congruence]).
  exists mp, root, sb. cbn zeta. split; [done|]. split; [done|]. split; [done|]. split; [by apply (vfs_ok_state _ _ s2)|]. split.
  - split; cbn [mount_table with_mounts with_allocs].
    + intros m [Hin| ->%list_elem_of_singleton]%elem_of_app Hp; cbn in *; [pose proof (mo_point _ _ Hm m Hin Hp); specialize (Hge (mnt_mountpoint m)); lia|].
      rewrite bump_ne, bump_eq by done. specialize (Hmr mp). lia.
    + intros m [Hin| ->%list_elem_of_singleton]%elem_of_app Hp; cbn in *; [pose proof (mo_root _ _ Hm m Hin Hp); specialize (Hge (mnt_root m)); lia|done].
    + destruct (mo_rank _ _ Hm) as [rank Hrank]. exists (fun x => if decide (x = root) then S (rank mp) else rank x).
      intros m [Hin| ->%list_elem_of_singleton]%elem_of_app Hp; cbn in *; [|rewrite decide_False, decide_True by done; lia].
      rewrite (decide_False (P := mnt_root m = root)) by (intros Er; pose proof (mo_root _ _ Hm m Hin Hp); rewrite Er in *; lia).
      destruct (decide (mnt_mountpoint m = root)) as [Er|]; [|by apply Hrank].
      destruct (decide (mnt_mountpoint m = 0)); [lia|]. pose proof (mo_point _ _ Hm m Hin ltac:(done)). rewrite Er in *. lia.
  - cbn. destruct (Z.eqb_spec (root_dentry s) 0); [done|]. destruct Hroot as [|Hr]; [done|]. specialize (Hge (root_dentry s)). lia.
Qed.

(** Mounting a file system: when [vfs_mount] succeeds and the mount table is
    not full, the new mount is recorded with the entry it covers and its root, both
    held by one reference more, all other references are as before, and following
    mounts still ends. *)
Theorem mount_correct cur deny R Q source target fs s s' (Hok : vfs_ok R Q s) (Hm : mounts_ok R s) (Hroot : root_dentry s = 0 \/ 0 < R (root_dentry s))
    (Hn : names_fit target) (Hlen : Z.of_nat (length (mount_table s)) < MAX_MOUNTS) (E : vfs_mount cur deny source target fs s = Some (0, s')) :
  exists mp root sb, let R' := bump (bump R mp 1) root 1 in 0 < root /\
    mount_table s' = mount_table s ++ [mkMount mp root sb] /\ root_dentry s' = (if root_dentry s =? 0 then root else root_dentry s) /\
    vfs_ok R' Q s' /\ mounts_ok R' s' /\ 0 < R' (root_dentry s').
Proof. by apply (mount_ok cur deny R Q source target fs s s'). Qed.

(** Releasing a reference to an entry: where every entry is counted by the
    references from outside ([R]) and by its children, and every inode by the
    references from outside ([Q]) and by its entries, [dput] on an entry with a
    reference does not fault, takes exactly this reference away, and frees an entry
    or inode only when nothing refers to it any more (whatever is still referenced
    is still there); all other entries keep their name, inode and parent, and lose
    only the children that were freed. *)
Theorem dput_correct R Q s d (Hok : vfs_ok R Q s) (Hd : 0 < R d) :
  exists s', dput d s = Some s' /\ vfs_ok (bump R d (-1)) Q s' /\ kept s s'.
Proof. apply dput_loop_ok; [done|by right|lia]. Qed.

(** ** Examples *)

Lemma no_mounts R s : mount_table s = [] -> mounts_ok R s.
Proof. intros E. split; rewrite E; [by intros m ?%elem_of_nil..|]. exists (fun _ => 0%nat). by intros m ?%elem_of_nil. Qed.

(** The kernel before anything is mounted, with memory. *)
Definition vfs_empty : vfs := mkVfs (replicate 40 true) ∅ ∅ ∅ ∅ [] 0 [mkDevice [110; 117; 108; 108] 438 true].

Lemma vfs_empty_ok : vfs_ok (fun _ => 0) (fun _ => 0) vfs_empty.
Proof. split; try done; intros x y Hx; by rewrite lookup_empty in Hx. Qed.

(** AxiomFS at "/", with its root at 3. *)
Definition vfs_root : vfs := (default (0, vfs_empty) (vfs_mount None (fun _ _ _ => false) false [47] (Some axiomfs_fs_type) vfs_empty)).2.

Lemma vfs_root_mounted : vfs_mount None (fun _ _ _ => false) false [47] (Some axiomfs_fs_type) vfs_empty = Some (0, vfs_root).
Proof. vm_compute. reflexivity. Qed.

Lemma vfs_root_state : root_dentry vfs_root = 3 /\ mount_table vfs_root = [mkMount 0 3 1].
Proof. vm_compute. done. Qed.

Lemma vfs_root_ok : let R := bump (fun _ => 0) 3 1 in vfs_ok R (fun _ => 0) vfs_root /\ mounts_ok R vfs_root /\ 0 < R (root_dentry vfs_root).
Proof.
  destruct (mount_ok None (fun _ _ _ => false) (fun _ => 0) (fun _ => 0) false [47] (Some axiomfs_fs_type) vfs_empty vfs_root) as (mp & root & sb & H).
  - apply vfs_empty_ok. - by apply no_mounts. - by left. - by constructor. - done. - apply vfs_root_mounted.
  - cbn zeta in H. destruct H as (_ & Em & _ & Hok & Hm & Hr). destruct vfs_root_state as [_ Em']. rewrite Em' in Em. injection Em as <- <- <-.
    assert (E : forall x, bump (bump (fun _ => 0) 0 1) 3 1 x = bump (fun _ => 0) 3 1 x) by bump_ext. cbn zeta. split; [by eapply vfs_ok_ext; [exact E|done|]|].
    split; [|by rewrite <- E]. destruct Hm as [H1 H2 H3]. split; [intros m Hm; rewrite <- E; by apply H1|intros m Hm; rewrite <- E; by apply H2|done].
Qed.

Lemma dput_correct_witness : exists s', dput 3 vfs_root = Some s' /\ vfs_ok (bump (bump (fun _ => 0) 3 1) 3 (-1)) (fun _ => 0) s' /\ kept vfs_root s'.
Proof. apply dput_correct; [apply vfs_root_ok|done]. Defined.

(** "/a/.." *)
Lemma lookup_balanced_witness : exists d s', vfs_lookup_at (Some (1000, 1000)) (fun _ _ _ => true) [47; 97; 47; 46; 46] true vfs_root = Some (d, s') /\
  vfs_ok (bump (bump (fun _ => 0) 3 1) d 1) (fun _ => 0) s' /\ same_env vfs_root s'.
Proof. apply lookup_balanced; [apply vfs_root_ok|apply vfs_root_ok|apply vfs_root_ok|repeat constructor; cbn; lia]. Defined.

Lemma names_balanced_witness :
  exists ret s', vfs_unlink None (fun _ _ _ => false) [47; 97] vfs_root = Some (ret, s') /\ same_env vfs_root s' /\ vfs_ok (bump (fun _ => 0) 3 1) (fun _ => 0) s'.
Proof.
  destruct (names_balanced None (fun _ _ _ => false) (bump (fun _ => 0) 3 1) (fun _ => 0) vfs_root [47; 97] 420) as [_ H];
    [apply vfs_root_ok|apply vfs_root_ok|apply vfs_root_ok|repeat constructor; cbn; lia|].
  destruct (H _ (or_intror eq_refl)) as (ret & s' & H1 & _ & H2 & H3 & _). exists ret, s'. split; [exact H1|]. split; [exact H2|exact H3].
Defined.

Lemma mount_correct_witness : exists mp root sb, let R' := bump (bump (fun _ => 0) mp 1) root 1 in 0 < root /\
    mount_table vfs_root = [] ++ [mkMount mp root sb] /\ root_dentry vfs_root = root /\ vfs_ok R' (fun _ => 0) vfs_root /\ mounts_ok R' vfs_root /\ 0 < R' (root_dentry vfs_root).
Proof.
  apply (mount_correct None (fun _ _ _ => false) (fun _ => 0) (fun _ => 0) false [47] (Some axiomfs_fs_type) vfs_empty vfs_root);
    [apply vfs_empty_ok|by apply no_mounts|by left|by constructor|done|apply vfs_root_mounted].
Defined.
