(* ===== verification/NameiTree.v ===== *)
(** * AxiomFS is a tree of names

    In a name space that is only AxiomFS, a path means the same to the lookup as it
    does in the tree of entries, and looking it up leaves the tree alone; creating
    a name adds it to its directory and to nothing else. *)

From S2P Require Import Prelude Errno Dentry DentryProps Namei NameiProps.

(** ** Counting without freeing *)

Definition inc (d n : Z) (s : vfs) : vfs := with_dentries (alter (fun de => set_d_count (d_count de + n) de) d (dentries s)) s.

Lemma inc_lookup d n s x : dentries (inc d n s) !! x = (fun de => set_d_count (d_count de + (if decide (x = d) then n else 0)) de) <$> dentries s !! x.
Proof.
  cbn. destruct (decide (x = d)) as [->|].
  - by rewrite lookup_alter_eq.
  - rewrite lookup_alter_ne by done. destruct (dentries s !! x) as [de|]; cbn; [|done]. by rewrite Z.add_0_r, set_d_count_id.
Qed.

Lemma with_dentries_eq s m m' : m = m' -> with_dentries m s = with_dentries m' s.
Proof. by intros ->. Qed.

Lemma inc_zero d s : inc d 0 s = s.
Proof.
  rewrite <- (with_dentries_id s) at 2. apply with_dentries_eq. apply map_eq. intros x. pose proof (inc_lookup d 0 s x) as E. cbn in E. rewrite E.
  destruct (dentries s !! x) as [de|]; [|done]. cbn. case_decide; by rewrite Z.add_0_r, set_d_count_id.
Qed.

Lemma inc_add d a b s : inc d a (inc d b s) = inc d (a + b) s.
Proof.
  change (with_dentries (alter (fun de => set_d_count (d_count de + a) de) d (alter (fun de => set_d_count (d_count de + b) de) d (dentries s))) s
    = with_dentries (alter (fun de => set_d_count (d_count de + (a + b)) de) d (dentries s)) s).
  apply with_dentries_eq, map_eq. intros x. destruct (decide (x = d)) as [->|]; [|by rewrite !lookup_alter_ne by done].
  rewrite !lookup_alter_eq. destruct (dentries s !! d) as [de|]; [|done]. cbn. unfold set_d_count. cbn. do 2 f_equal. lia.
Qed.

Lemma inc_comm d e a b s : inc d a (inc e b s) = inc e b (inc d a s).
Proof.
  destruct (decide (d = e)) as [->|]; [rewrite !inc_add; by rewrite Z.add_comm|]. 
  change (with_dentries (alter (fun de => set_d_count (d_count de + a) de) d (alter (fun de => set_d_count (d_count de + b) de) e (dentries s))) s
    = with_dentries (alter (fun de => set_d_count (d_count de + b) de) e (alter (fun de => set_d_count (d_count de + a) de) d (dentries s))) s).
  apply with_dentries_eq. by rewrite alter_alter_ne by done.
Qed.

Lemma dget_inc d s : d <> 0 -> is_Some (dentries s !! d) -> dget d s = Some (inc d 1 s).
Proof.
  intros Hd [de Hde]. unfold dget. rewrite (proj2 (Z.eqb_neq d 0)) by done. rewrite Hde. cbn [mbind option_bind]. f_equal. unfold inc. apply with_dentries_eq.
  rewrite <- (insert_id _ _ _ Hde) at 2. by rewrite alter_insert_eq.
Qed.

Lemma dput_inc d s de : d <> 0 -> dentries s !! d = Some de -> 1 < d_count de -> dput d s = Some (inc d (-1) s).
Proof.
  intros Hd Hde Hc. unfold dput. cbn [dput_loop]. rewrite (proj2 (Z.eqb_neq d 0)) by done. rewrite Hde. cbn [mbind option_bind].
  rewrite (proj2 (Z.eqb_neq (d_count de - 1) 0)) by lia. cbn [negb]. f_equal. unfold inc. apply with_dentries_eq.
  rewrite <- (insert_id _ _ _ Hde) at 2. by rewrite alter_insert_eq.
Qed.

Lemma find_child_inc d n s name l : find_child (inc d n s) name l = find_child s name l.
Proof.
  induction l as [|c l IH]; [done|]. cbn [find_child]. rewrite inc_lookup. destruct (dentries s !! c) as [ce|]; cbn; [|done].
  destruct (_ && _); [done|apply IH].
Qed.

Lemma find_child_ext s s' name l : (forall c, c ∈ l -> (fun de => (d_name de, d_inode de)) <$> dentries s' !! c = (fun de => (d_name de, d_inode de)) <$> dentries s !! c) ->
  find_child s' name l = find_child s name l.
Proof.
  induction l as [|c l IH]; intros Hl; [done|]. cbn [find_child]. pose proof (Hl c ltac:(left)) as Hc.
  destruct (dentries s !! c) as [ce|], (dentries s' !! c) as [ce'|]; cbn in Hc; try done.
  injection Hc as En Ei. cbn. rewrite En, Ei. destruct (_ && _); [done|]. apply IH. intros x Hx. apply Hl. by right.
Qed.

Lemma find_child_allocs l' s name l : find_child (with_allocs l' s) name l = find_child s name l.
Proof. by apply find_child_ext. Qed.

(** ** What a path means *)

(** The entry with a name in a directory. *)
Definition child (s : vfs) (p : Z) (name : list Z) : option Z :=
  pe ← dentries s !! p; r ← find_child s name (d_subdirs pe); r.

Fixpoint resolve (cur : option (Z * Z)) (s : vfs) (comps : list (list Z)) (d : Z) : option Z :=
  de ← dentries s !! d;
  if d_inode de =? 0 then None else
  match comps with
  | [] => Some d
  | name :: comps =>
    dir ← inodes s !! d_inode de;
    if negb (S_ISDIR (i_mode dir)) || (vfs_check_permission cur dir MAY_EXEC <? 0) then None else
    next ← (if decide (name = [46]) then Some d else if decide (name = [46; 46]) then Some (d_parent de) else child s d name);
    resolve cur s comps next
  end.

(** Only AxiomFS, and nothing mounted over it. *)
Record plain (s : vfs) : Prop := {
  pl_mounts m : m ∈ mount_table s -> mnt_mountpoint m = 0;
  pl_ops i ino : inodes s !! i = Some ino -> i_op ino <> devfs_dir_inode_ops
}.

Section Exact.
Context (cur : option (Z * Z)) (deny : Z -> list Z -> Z -> bool) (R Q : Z -> Z).

Lemma inc_ok s d : vfs_ok R Q s -> is_Some (dentries s !! d) -> vfs_ok (bump R d 1) Q (inc d 1 s).
Proof.
  intros Hok Hd. destruct Hd as [de Hde]. pose proof (eo_pos _ _ _ _ (ok_entry _ _ _ Hok d de Hde)).
  destruct (dget_ok R Q s Hok d (or_intror (ex_intro _ de Hde))) as (s' & E & Hok' & _). rewrite (dget_inc d s ltac:(lia) (ex_intro _ de Hde)) in E. by simplify_eq.
Qed.

(** A name that is not there: the entry made for the file system is gone again. *)
Lemma lookup_new_none R' t parent pe dir name : vfs_ok R' Q t -> dentries t !! parent = Some pe -> i_op dir <> devfs_dir_inode_ops ->
  find_child t name (d_subdirs pe) = Some None -> Z.of_nat (length name) <= NAME_MAX ->
  exists l, lookup_new deny parent dir name t = Some (0, with_allocs l t).
Proof.
  intros Hok Hp Hop Hf Hn. pose proof (ok_entry _ _ _ Hok parent pe Hp) as Hpe. pose proof (eo_pos _ _ _ _ Hpe) as Hp0. unfold lookup_new.
  destruct (dentry_alloc_ok t parent [] Hp0 ltac:(by eexists)) as (d & l & [[-> ->]|(pe' & Hd0 & Hd & Hpe' & ->)]); cbn [mbind option_bind]; [by exists l|].
  assert (pe' = pe) as -> by congruence. rewrite (proj2 (Z.eqb_neq d 0)) by lia. destruct (Z.ltb_spec 255 (Z.of_nat (length name))); [lia|].
  assert (Hdp : d <> parent) by congruence. cbn [dentries with_dentries]. rewrite lookup_insert_eq. cbn [mbind option_bind]. rewrite insert_insert_eq.
  set (pe1 := set_d_subdirs _ _). set (de := set_d_name name _). set (t1 := with_dentries _ _).
  assert (H1d : dentries t1 !! d = Some de) by apply lookup_insert_eq.
  assert (H1p : dentries t1 !! parent = Some pe1) by (cbn; rewrite lookup_insert_ne by done; apply lookup_insert_eq).
  assert (Hsub : forall c, c ∈ d_subdirs pe -> c <> d) by (intros c Hc ->; destruct (eo_sub _ _ _ _ Hpe d Hc) as (_ & ce & Hce & _); congruence).
  assert (Hfree : dput d t1 = Some (with_allocs l t)).
  { unfold dput. cbn [dentries t1 with_dentries]. rewrite map_size_insert_None by (rewrite lookup_insert_ne by done; done).
    cbn [dput_loop]. rewrite (proj2 (Z.eqb_neq d 0)) by lia. rewrite H1d. cbn [mbind option_bind]. change (d_count de - 1) with 0. cbn [Z.eqb negb].
    change (d_parent de) with parent. change (d_inode de) with 0. rewrite !(proj2 (Z.eqb_neq parent 0)), (proj2 (Z.eqb_neq parent d)) by (lia || done). cbn [negb andb].
    unfold unlink_child. cbn [dentries t1 with_dentries]. rewrite insert_insert_eq, alter_insert_ne by done. rewrite alter_insert_eq.
    rewrite lookup_insert_ne, lookup_insert_eq by done. cbn [mbind option_bind d_count set_d_subdirs set_d_count pe1].
    pose proof (eo_live _ _ _ _ Hpe). rewrite (proj2 (Z.eqb_neq (d_count pe + 1 - 1) 0)) by lia. cbn [negb mbind option_bind Z.eqb].
    change (Some (with_dentries (delete d (<[parent := set_d_count (d_count pe + 1 - 1) (set_d_subdirs (filter (fun c => c <> d) (d :: d_subdirs pe)) (set_d_count (d_count pe + 1) pe))]>
       (<[d := set_d_count 0 de]> (<[parent := set_d_subdirs (filter (fun c => c <> d) (d :: d_subdirs pe)) (set_d_count (d_count pe + 1) pe)]> (dentries t))))) (with_allocs l t)) = Some (with_allocs l t)).
    f_equal. rewrite <- (with_dentries_id (with_allocs l t)) at 2. apply with_dentries_eq. cbn [dentries with_allocs].
    rewrite filter_cons_False by (intros Hx; by apply Hx). rewrite filter_all by exact Hsub.
    replace (set_d_count (d_count pe + 1 - 1) (set_d_subdirs (d_subdirs pe) (set_d_count (d_count pe + 1) pe))) with pe
      by (destruct pe; unfold set_d_count, set_d_subdirs; cbn; f_equal; lia).
    apply map_eq. intros x. destruct (decide (x = d)) as [->|]; [by rewrite lookup_delete_eq, Hd|]. rewrite lookup_delete_ne by done.
    destruct (decide (x = parent)) as [->|]; [by rewrite lookup_insert_eq|]. by rewrite !lookup_insert_ne by done. }
  assert (Hlk : do_lookup deny dir d t1 = Some (LErr, t1) \/ do_lookup deny dir d t1 = Some (LNull, t1)).
  { assert (Hax : axiomfs_lookup deny dir d t1 = Some (LErr, t1) \/ axiomfs_lookup deny dir d t1 = Some (LNull, t1)).
    { unfold axiomfs_lookup. rewrite H1d. cbn [mbind option_bind]. destruct (deny _ _ _); [by left|]. right.
      change (d_parent de) with parent. rewrite (proj2 (Z.eqb_neq parent 0)) by lia. rewrite H1p. cbn [mbind option_bind].
      replace (find_child t1 (d_name de) (d_subdirs pe1)) with (Some (@None Z)); [done|]. symmetry. cbn [d_subdirs pe1 set_d_subdirs find_child]. rewrite H1d. cbn [mbind option_bind].
      change (d_inode de =? 0) with true. rewrite andb_false_r. cbn [d_name de set_d_name]. rewrite <- Hf. apply find_child_ext. intros c Hc.
      cbn. rewrite lookup_insert_ne by (intros <-; by apply (Hsub d)). destruct (decide (c = parent)) as [->|]; [rewrite lookup_insert_eq, Hp|rewrite lookup_insert_ne by done]; done. }
    unfold do_lookup. by destruct (i_op dir). }
  exists l. destruct Hlk as [-> | ->]; cbn [mbind option_bind]; [by rewrite Hfree|]. rewrite H1d. cbn [mbind option_bind]. change (d_inode de =? 0) with true. by rewrite Hfree.
Qed.

Section Plain.
Context (s : vfs).
Hypothesis (Hok : vfs_ok R Q s) (Hpl : plain s).

Definition next_of (d : Z) (de : dentry) (name : list Z) : option Z :=
  if decide (name = [46]) then Some d else if decide (name = [46; 46]) then Some (d_parent de) else child s d name.

Lemma child_spec d de name c : dentries s !! d = Some de -> child s d name = Some c ->
  c ∈ d_subdirs de /\ exists ce, dentries s !! c = Some ce /\ d_name ce = name /\ d_inode ce <> 0.
Proof.
  unfold child. intros ->. cbn. induction (d_subdirs de) as [|x l IH]; [done|]. cbn. destruct (dentries s !! x) as [xe|] eqn:Hx; [|done]. cbn.
  case_bool_decide as En; cbn; [destruct (Z.eqb_spec (d_inode xe) 0); cbn|].
  - intros E. destruct (IH E) as [Hc Hx']. split; [by right|done].
  - intros [= <-]. split; [left|]. by exists xe.
  - intros E. destruct (IH E) as [Hc Hx']. split; [by right|done].
Qed.

Lemma next_exists d de name c : dentries s !! d = Some de -> next_of d de name = Some c -> is_Some (dentries s !! c).
Proof.
  intros Hd. pose proof (ok_entry _ _ _ Hok d de Hd) as He. unfold next_of. repeat case_decide; [by intros [= <-]; eexists|intros [= <-]; apply (eo_parent _ _ _ _ He)|].
  intros Hc. destruct (child_spec d de name c Hd Hc) as (_ & ce & -> & _). by eexists.
Qed.

Lemma entry_pos d : is_Some (dentries s !! d) -> 0 < d.
Proof. intros [de Hd]. apply (eo_pos _ _ _ _ (ok_entry _ _ _ Hok d de Hd)). Qed.

Lemma lookup_one_exact d de dir name l : dentries s !! d = Some de -> d_inode de <> 0 -> inodes s !! d_inode de = Some dir -> Z.of_nat (length name) <= NAME_MAX ->
  exists l', lookup_one deny d name (with_allocs l (inc d 1 s)) =
    Some (match next_of d de name with Some c => (c, with_allocs l' (inc c 1 (inc d 1 s))) | None => (0, with_allocs l' (inc d 1 s)) end).
Proof.
  intros Hd Hi Hdir Hn. pose proof (entry_pos d ltac:(by eexists)) as Hd0. set (t := with_allocs l (inc d 1 s)).
  assert (Hokt : vfs_ok (bump R d 1) Q t) by (apply allocs_ok, inc_ok; [done|by eexists]).
  assert (Htd : dentries t !! d = Some (set_d_count (d_count de + 1) de)) by (change (dentries t) with (dentries (inc d 1 s)); rewrite inc_lookup, Hd; cbn; by rewrite decide_True).
  assert (Hget : forall c, is_Some (dentries s !! c) -> dget c t = Some (with_allocs l (inc c 1 (inc d 1 s)))).
  { intros c Hc. pose proof (entry_pos c Hc). apply (dget_inc c t); [lia|]. change (dentries t) with (dentries (inc d 1 s)). rewrite inc_lookup. by apply fmap_is_Some. }
  unfold lookup_one. rewrite (proj2 (Z.eqb_neq d 0)) by lia. rewrite Htd. cbn [mbind option_bind d_inode d_parent d_subdirs set_d_count].
  rewrite (proj2 (Z.eqb_neq (d_inode de) 0)) by done. change (inodes t) with (inodes s). rewrite Hdir. cbn [mbind option_bind].
  pose proof (next_exists d de name) as Hnext. unfold next_of in *. rewrite (bool_decide_decide (name = [46])), (bool_decide_decide (name = [46; 46])).
  destruct (decide (name = [46])). { exists l. by rewrite (Hget d ltac:(by eexists)). }
  destruct (decide (name = [46; 46])).
  { exists l. pose proof (Hnext (d_parent de) Hd eq_refl) as Hp. pose proof (entry_pos _ Hp). rewrite (proj2 (Z.eqb_neq (d_parent de) 0)) by lia. cbn [negb].
    by rewrite (Hget _ Hp). }
  unfold child in *. rewrite Hd in *. cbn [mbind option_bind] in *. 
  replace (find_child t name (d_subdirs de)) with (find_child s name (d_subdirs de)) by (unfold t; by rewrite find_child_allocs, find_child_inc).
  destruct (find_child_ok s name (d_subdirs de)) as (r & Ef & _); [by apply (children_exist Q R s d)|]. rewrite Ef in *. cbn [mbind option_bind].
  destruct r as [c|]; [exists l; by rewrite (Hget c (Hnext c eq_refl eq_refl))|].
  destruct (has_lookup dir); [|by exists l].
  destruct (lookup_new_none (bump R d 1) t d (set_d_count (d_count de + 1) de) dir name Hokt Htd) as (l' & ->); [by apply (pl_ops _ Hpl (d_inode de))| |done|by exists l'].
  unfold t. by rewrite find_child_allocs, find_child_inc.
Qed.

Lemma put_exact d l : is_Some (dentries s !! d) -> forall t, t = s \/ (exists c, t = inc c 1 s) -> dput d (with_allocs l (inc d 1 t)) = Some (with_allocs l t).
Proof.
  intros [de Hd] t Ht. pose proof (entry_pos d ltac:(by eexists)). pose proof (eo_live _ _ _ _ (ok_entry _ _ _ Hok d de Hd)).
  assert (Hc : exists te, dentries t !! d = Some te /\ 0 < d_count te).
  { destruct Ht as [->|[c ->]]; [by exists de|]. rewrite inc_lookup, Hd. eexists. split; [done|]. cbn. case_decide; lia. }
  destruct Hc as (te & Hte & Hc). rewrite (dput_inc d _ (set_d_count (d_count te + 1) te)).
  - change (Some (with_allocs l (inc d (-1) (inc d 1 t))) = Some (with_allocs l t)). by rewrite inc_add, inc_zero.
  - lia.
  - change (dentries (inc d 1 t) !! d = Some (set_d_count (d_count te + 1) te)). rewrite inc_lookup, Hte. cbn. by rewrite decide_True.
  - cbn. lia.
Qed.

Lemma walk_exact follow comps : Forall (fun c : list Z => Z.of_nat (length c) <= NAME_MAX) comps -> forall d l, is_Some (dentries s !! d) ->
  exists l', walk cur deny comps follow d (with_allocs l (inc d 1 s)) =
    Some (match resolve cur s comps d with Some r => (r, with_allocs l' (inc r 1 s)) | None => (0, with_allocs l' s) end).
Proof.
  induction 1 as [|name comps Hn _ IH]; intros d l [de Hd]; cbn [walk resolve]; change (dentries (with_allocs l (inc d 1 s))) with (dentries (inc d 1 s));
    rewrite inc_lookup, Hd; cbn [mbind option_bind fmap option_fmap option_map d_inode set_d_count]; pose proof (put_exact d) as Hput.
  - destruct (d_inode de =? 0); [exists l; by rewrite (Hput l ltac:(by eexists) s (or_introl eq_refl))|by exists l].
  - destruct (Z.eqb_spec (d_inode de) 0) as [|Hi]; [exists l; by rewrite (Hput l ltac:(by eexists) s (or_introl eq_refl))|].
    destruct (eo_inode _ _ _ _ (ok_entry _ _ _ Hok d de Hd) Hi) as [dir Hdir]. change (inodes (with_allocs l (inc d 1 s))) with (inodes s). rewrite Hdir. cbn [mbind option_bind].
    destruct (negb _ || _); [exists l; by rewrite (Hput l ltac:(by eexists) s (or_introl eq_refl))|].
    destruct (lookup_one_exact d de dir name l Hd Hi Hdir Hn) as (l1 & ->). cbn [mbind option_bind].
    fold (next_of d de name). pose proof (next_exists d de name) as Hnext. destruct (next_of d de name) as [c|]; cbn [mbind option_bind].
    2: { exists l1. by rewrite (Hput l1 ltac:(by eexists) s (or_introl eq_refl)). }
    pose proof (Hnext c Hd eq_refl) as Hc. pose proof (entry_pos c Hc). rewrite inc_comm.
    rewrite (Hput l1 ltac:(by eexists) (inc c 1 s)) by (right; by eexists). cbn [mbind option_bind]. rewrite (proj2 (Z.eqb_neq c 0)) by lia.
    destruct Hc as [ce Hce]. change (dentries (with_allocs l1 (inc c 1 s))) with (dentries (inc c 1 s)). rewrite inc_lookup, Hce.
    cbn [mbind option_bind fmap option_fmap option_map d_inode set_d_count]. destruct (Z.eqb_spec (d_inode ce) 0) as [Hz|Hz].
    + rewrite (put_exact c l1 ltac:(by eexists) s (or_introl eq_refl)). exists l1. cbn [mbind option_bind].
      destruct comps; cbn [resolve]; rewrite Hce; cbn [mbind option_bind]; rewrite (proj2 (Z.eqb_eq _ _) Hz); done.
    + assert (Hf : (if follow then vfs_follow_mounts c (with_allocs l1 (inc c 1 s)) else Some (c, with_allocs l1 (inc c 1 s))) = Some (c, with_allocs l1 (inc c 1 s))).
      { destruct follow; [|done]. unfold vfs_follow_mounts. rewrite (proj2 (Z.eqb_neq c 0)) by lia. cbn [follow_loop]. 
        replace (mounted_on (with_allocs l1 (inc c 1 s)) c) with (@None Z); [done|]. symmetry. apply eq_None_not_Some. intros [r Er].
        destruct (mounted_on_spec _ _ _ Er) as (m & Hm & Em & _). pose proof (pl_mounts _ Hpl m Hm). lia. }
      rewrite Hf. cbn [mbind option_bind]. rewrite (proj2 (Z.eqb_neq c 0)) by lia. apply IH. by eexists.
Qed.

Lemma lookup_exact path follow : path <> [] -> names_fit path -> is_Some (dentries s !! root_dentry s) ->
  exists l, vfs_lookup_at cur deny path follow s =
    Some (match resolve cur s (components path []) (root_dentry s) with Some r => (r, with_allocs l (inc r 1 s)) | None => (0, with_allocs l s) end).
Proof.
  intros Hp Hn Hroot. pose proof (entry_pos _ Hroot). unfold vfs_lookup_at. rewrite decide_False by done. rewrite dget_inc by (lia || done). cbn [mbind option_bind].
  change (root_dentry (inc (root_dentry s) 1 s)) with (root_dentry s). rewrite (proj2 (Z.eqb_neq (root_dentry s) 0)) by lia.
  destruct (walk_exact follow (components path []) Hn (root_dentry s) (allocs s) Hroot) as (l & E). exists l. rewrite <- E. by destruct s.
Qed.
End Plain.
End Exact.

(** C11. In AxiomFS a path means what it says: where nothing is mounted and all
    counts are right, looking up a path whose names have at most 255 bytes returns
    the entry that the names of the path lead to in the tree (with "." and ".." and
    the search permissions of the caller), or NULL when there is none, and the tree
    is left exactly as it was, apart from the reference returned.  The policy has no
    say in it. *)
Theorem lookup_resolves cur deny R Q s path follow (Hok : vfs_ok R Q s) (Hpl : plain s) (Hp : path <> []) (Hn : names_fit path)
    (Hroot : is_Some (dentries s !! root_dentry s)) :
  exists l, vfs_lookup_at cur deny path follow s =
    Some (match resolve cur s (components path []) (root_dentry s) with Some r => (r, with_allocs l (inc r 1 s)) | None => (0, with_allocs l s) end).
Proof. by apply (lookup_exact cur deny R Q s Hok Hpl). Qed.

(** ** Creating a file *)

Lemma resolve_app cur s c1 c2 d : resolve cur s (c1 ++ c2) d = x ← resolve cur s c1 d; resolve cur s c2 x.
Proof.
  revert d. induction c1 as [|name c1 IH]; intros d; cbn [app resolve].
  - destruct (dentries s !! d) as [de|] eqn:Hd; cbn [mbind option_bind].
    + destruct (d_inode de =? 0) eqn:Hi; [|done]. destruct c2; cbn [resolve]; rewrite Hd; cbn [mbind option_bind]; by rewrite Hi.
    + destruct c2; cbn [resolve]; by rewrite Hd.
  - destruct (dentries s !! d) as [de|]; cbn [mbind option_bind]; [|done]. destruct (d_inode de =? 0); [done|].
    destruct (inodes s !! d_inode de) as [dir|]; cbn [mbind option_bind]; [|done]. destruct (negb _ || _); [done|].
    destruct (if decide (name = [46]) then Some d else _) as [x|]; cbn [mbind option_bind]; [|done]. apply IH.
Qed.

Lemma check_exec cur dir : 0 <= vfs_check_permission cur dir (Z.lor MAY_WRITE MAY_EXEC) -> (vfs_check_permission cur dir MAY_EXEC <? 0) = false.
Proof.
  change (Z.lor MAY_WRITE MAY_EXEC) with 3. unfold vfs_check_permission, generic_permission. cbn [Z.eqb]. destruct (default (0, 0) cur) as [uid gid]. intros H. apply Z.ltb_ge. revert H.
  destruct (uid =? 0); [done|]. set (b := if uid =? i_uid dir then _ else _). change (Z.land 3 4) with 0. change (Z.land 3 2) with 2. change (Z.land 3 1) with 1.
  change (Z.land 1 4) with 0. change (Z.land 1 2) with 0. change (Z.land 1 1) with 1. cbn [Z.eqb negb andb].
  destruct (Z.land b 2 =? 0); [intros H; exfalso; lia|]. done.
Qed.

(** A tree with one entry more in the directory [p]. *)
Record extends (s s' : vfs) (p d : Z) (name : list Z) (i : Z) : Prop := {
  ex_new : dentries s !! d = None;
  ex_entry : exists de, dentries s' !! d = Some de /\ d_name de = name /\ d_inode de = i /\ d_parent de = p /\ d_subdirs de = [];
  ex_dir : exists pe pe', dentries s !! p = Some pe /\ dentries s' !! p = Some pe' /\ d_subdirs pe' = d :: d_subdirs pe /\ d_inode pe' = d_inode pe /\ d_parent pe' = d_parent pe /\ d_name pe' = d_name pe;
  ex_old x xe : x <> p -> dentries s !! x = Some xe -> dentries s' !! x = Some xe;
  ex_inodes j ino : inodes s !! j = Some ino -> exists ino', inodes s' !! j = Some ino' /\ same_file ino ino'
}.

Section Extends.
Context (R Q : Z -> Z) (s s' : vfs) (p d : Z) (name : list Z) (i : Z).
Hypothesis (Hok : vfs_ok R Q s) (Hex : extends s s' p d name i) (Hi : i <> 0).

(** Entries of the old tree are found as before. *)
Lemma ext_entry x xe : dentries s !! x = Some xe -> exists xe', dentries s' !! x = Some xe' /\ d_name xe' = d_name xe /\ d_inode xe' = d_inode xe /\ d_parent xe' = d_parent xe.
Proof.
  intros Hx. destruct (decide (x = p)) as [->|]; [|exists xe; split; [by apply (ex_old _ _ _ _ _ _ Hex)|done]].
  destruct (ex_dir _ _ _ _ _ _ Hex) as (pe & pe' & Hp & Hp' & _ & Ei & Ep & En). assert (pe = xe) as <- by congruence. by exists pe'.
Qed.

Lemma ext_find x xe n : dentries s !! x = Some xe -> find_child s' n (d_subdirs xe) = find_child s n (d_subdirs xe).
Proof.
  intros Hx. apply find_child_ext. intros c Hc. destruct (eo_sub _ _ _ _ (ok_entry _ _ _ Hok x xe Hx) c Hc) as (_ & ce & Hce & _).
  destruct (ext_entry c ce Hce) as (ce' & -> & En & Ei & _). rewrite Hce. cbn. by rewrite En, Ei.
Qed.

Lemma ext_child x n : is_Some (dentries s !! x) -> child s' x n = if decide (x = p /\ n = name) then Some d else child s x n.
Proof.
  intros [xe Hx]. unfold child. rewrite Hx. cbn [mbind option_bind]. destruct (decide (x = p)) as [->|Hne].
  - destruct (ex_dir _ _ _ _ _ _ Hex) as (pe & pe' & Hp & Hp' & Es & _). assert (pe = xe) as -> by congruence. rewrite Hp'. cbn [mbind option_bind]. rewrite Es.
    destruct (ex_entry _ _ _ _ _ _ Hex) as (de & Hd & En & Ei & _). cbn [find_child]. rewrite Hd. cbn [mbind option_bind]. rewrite En, Ei, (proj2 (Z.eqb_neq i 0)) by done.
    rewrite (ext_find p xe n Hp). destruct (decide (n = name)) as [->|Hnn].
    + rewrite bool_decide_true, decide_True by done. done.
    + rewrite bool_decide_false, decide_False by naive_solver. done.
  - rewrite (ex_old _ _ _ _ _ _ Hex x xe Hne Hx). cbn [mbind option_bind]. rewrite (ext_find x xe n Hx). by rewrite decide_False by naive_solver.
Qed.

Lemma ext_resolve cur comps x y : child s p name = None -> resolve cur s comps x = Some y -> resolve cur s' comps x = Some y.
Proof.
  intros Hnone. revert x. induction comps as [|n comps IH]; intros x E; cbn [resolve] in *; apply bind_Some in E as (xe & Hx & E);
    destruct (ext_entry x xe Hx) as (xe' & Hx' & En & Ei & Ep); rewrite Hx'; cbn [mbind option_bind]; rewrite Ei; (destruct (d_inode xe =? 0); [done|]); [done|].
  apply bind_Some in E as (dir & Hdir & E). destruct (ex_inodes _ _ _ _ _ _ Hex _ dir Hdir) as (dir' & -> & Em & Eu & Eg & _). cbn [mbind option_bind].
  assert (Ec : vfs_check_permission cur dir' MAY_EXEC = vfs_check_permission cur dir MAY_EXEC) by (unfold vfs_check_permission, generic_permission; by rewrite Em, Eu, Eg).
  rewrite Em, Ec. destruct (negb _ || _); [done|]. apply bind_Some in E as (z & Hz & E). rewrite Ep.
  assert (Hz' : (if decide (n = [46]) then Some x else if decide (n = [46; 46]) then Some (d_parent xe) else child s' x n) = Some z).
  { repeat case_decide; try done. rewrite ext_child by (by eexists). rewrite decide_False; [done|]. intros [-> ->]. congruence. }
  rewrite Hz'. cbn [mbind option_bind]. by apply IH.
Qed.
End Extends.

Lemma rsplit_last path pre name : rsplit path = Some (pre, name) -> (47 ∉ name) /\ path <> [].
Proof.
  revert pre name. induction path as [|c path IH]; intros pre name E; [done|]. split; [|done]. cbn in E.
  destruct (rsplit path) as [[pre' name']|] eqn:Er; [simplify_eq; by apply (IH pre' name)|]. destruct (c =? 47); [|done]. simplify_eq.
  clear IH. induction name as [|x name IH]; [by intros ?%elem_of_nil|]. cbn in Er. destruct (rsplit name) as [[? ?]|]; [done|].
  destruct (Z.eqb_spec x 47); [done|]. intros [Hx|Hx]%elem_of_cons; [by apply n|by apply IH].
Qed.

Lemma components_name name acc : (47 ∉ name) -> acc ++ name <> [] -> components name acc = [acc ++ name].
Proof.
  revert acc. induction name as [|c name IH]; intros acc Hn Ha; cbn.
  - rewrite app_nil_r in *. by rewrite decide_False.
  - apply not_elem_of_cons in Hn as [Hc Hn]. rewrite (proj2 (Z.eqb_neq c 47)) by done. rewrite IH; [by rewrite <- app_assoc|done|]. by destruct acc.
Qed.

Lemma components_split path pre name : rsplit path = Some (pre, name) -> name <> [] ->
  components path [] = components pre [] ++ [name] /\ components (if decide (pre = []) then [47] else pre) [] = components pre [].
Proof.
  intros E Hn. destruct (rsplit_last _ _ _ E) as [Hs _]. rewrite (rsplit_spec _ _ _ E), components_app. split.
  - f_equal. by rewrite components_name.
  - by destruct (decide (pre = [])) as [->|].
Qed.

(** Only the entries and the inodes matter. *)
Lemma resolve_same cur s s' comps d : dentries s' = dentries s -> inodes s' = inodes s -> resolve cur s' comps d = resolve cur s comps d.
Proof.
  intros Ed Ei. revert d. induction comps as [|n comps IH]; intros d; cbn [resolve]; rewrite Ed; [done|]. destruct (dentries s !! d) as [de|]; cbn [mbind option_bind]; [|done].
  destruct (d_inode de =? 0); [done|]. rewrite Ei. destruct (inodes s !! d_inode de) as [dir|]; cbn [mbind option_bind]; [|done]. destruct (negb _ || _); [done|].
  assert (Ec : child s' d n = child s d n) by (unfold child; rewrite Ed; destruct (dentries s !! d); cbn [mbind option_bind]; [by rewrite (find_child_ext s s') by (intros; by rewrite Ed)|done]).
  rewrite Ec. destruct (if decide (n = [46]) then _ else _); cbn [mbind option_bind]; [apply IH|done].
Qed.

Section Create.
Context (cur : option (Z * Z)) (deny : Z -> list Z -> Z -> bool) (R Q : Z -> Z) (s : vfs).
Hypothesis (Hok : vfs_ok R Q s) (Hpl : plain s) (Hroot : is_Some (dentries s !! root_dentry s)).

Lemma resolve_entry comps d r : resolve cur s comps d = Some r -> exists re, dentries s !! r = Some re /\ d_inode re <> 0.
Proof using s.
  clear. revert d. induction comps as [|c comps IH]; intros d; cbn [resolve]; intros E;
    apply bind_Some in E as (de & Hd & E); destruct (Z.eqb_spec (d_inode de) 0); try done; [simplify_eq; by exists de|].
  apply bind_Some in E as (dir & _ & E). destruct (negb _ || _); [done|]. apply bind_Some in E as (x & _ & E). by apply (IH x).
Qed.

(** A successful call found the directory, and no entry of that name. *)
Lemma make_front op path pre name mode s' : names_fit path -> rsplit path = Some (pre, name) -> name <> [] ->
  vfs_make cur deny op path mode s = Some (0, s') ->
  exists p l, resolve cur s (components path []) (root_dentry s) = None /\ resolve cur s (components pre []) (root_dentry s) = Some p /\
    make_in cur op p name mode (with_allocs l (inc p 1 s)) = Some (0, s').
Proof.
  intros Hfit Es Hn E. destruct (components_split _ _ _ Es Hn) as [Ecomp Epre]. destruct (rsplit_last _ _ _ Es) as [Hs Hp].
  unfold vfs_make, vfs_lookup in E. destruct (lookup_exact cur deny R Q s Hok Hpl path true Hp Hfit Hroot) as (l & El). rewrite El in E. clear El.
  destruct (resolve cur s (components path []) (root_dentry s)) as [r|] eqn:Er; cbn [mbind option_bind] in E.
  { destruct (resolve_entry _ _ _ Er) as (re & Hre & _). pose proof (entry_pos R Q s Hok r ltac:(by eexists)). rewrite (proj2 (Z.eqb_neq r 0)) in E by lia.
    cbn [negb] in E. apply bind_Some in E as (? & _ & E). by simplify_eq. }
  cbn [Z.eqb negb] in E. unfold lookup_parent in E. rewrite Es in E. destruct (take_alloc (with_allocs l s)) as [ok s1] eqn:Et. destruct (take_alloc_spec _ _ _ Et) as [l1 ->].
  destruct ok; cbn [negb mbind option_bind] in E; [|by simplify_eq].
  destruct (lookup_exact cur deny R Q (with_allocs l1 s) (allocs_ok _ _ _ l1 Hok) ltac:(by destruct Hpl) (if decide (pre = []) then [47] else pre) true) as (l2 & El);
    [by destruct (decide (pre = []))|by eapply names_fit_parent|done|].
  change (with_allocs l1 (with_allocs l s)) with (with_allocs l1 s) in E. unfold vfs_lookup in E. rewrite El, Epre in E. clear El.
  rewrite (resolve_same cur s (with_allocs l1 s)) in E by done. change (root_dentry (with_allocs l1 s)) with (root_dentry s) in E.
  destruct (resolve cur s (components pre []) (root_dentry s)) as [p|] eqn:Erp; cbn [mbind option_bind Z.eqb] in E; [|by simplify_eq].
  destruct (resolve_entry _ _ _ Erp) as (pe & Hpe & _). pose proof (entry_pos R Q s Hok p ltac:(by eexists)) as Hp0. rewrite (proj2 (Z.eqb_neq p 0)) in E by lia.
  exists p, l2. done.
Qed.

(** A proper name for a new file. *)
Definition file_name (name : list Z) : Prop := name <> [] /\ name <> [46] /\ name <> [46; 46].

(** The directory can be searched, so the name is not in it. *)
Lemma no_such_child pre name p pe dir : file_name name -> resolve cur s (components pre [] ++ [name]) (root_dentry s) = None ->
  resolve cur s (components pre []) (root_dentry s) = Some p -> dentries s !! p = Some pe -> d_inode pe <> 0 -> inodes s !! d_inode pe = Some dir ->
  S_ISDIR (i_mode dir) = true -> (vfs_check_permission cur dir MAY_EXEC <? 0) = false -> child s p name = None.
Proof.
  intros (_ & Hn1 & Hn2) Hnone Hp Hpe Hi Hdir Hd Hperm. rewrite resolve_app, Hp in Hnone. cbn [mbind option_bind resolve] in Hnone. rewrite Hpe in Hnone. cbn [mbind option_bind] in Hnone.
  rewrite (proj2 (Z.eqb_neq _ _) Hi), Hdir in Hnone. cbn [mbind option_bind] in Hnone. rewrite Hd, Hperm in Hnone. cbn [negb orb] in Hnone.
  rewrite !decide_False in Hnone by done. destruct (child s p name) as [c|] eqn:Hc; [|done]. exfalso. cbn [mbind option_bind] in Hnone.
  destruct (child_spec s p pe name c Hpe Hc) as (_ & ce & Hce & _ & Hci). rewrite Hce in Hnone. cbn [mbind option_bind] in Hnone. by rewrite (proj2 (Z.eqb_neq _ _) Hci) in Hnone.
Qed.

(** What is left of a successful call: the new entry. *)
Lemma make_back op kind p l name mode s' pe : makes cur kind op -> dentries s !! p = Some pe -> Z.of_nat (length name) <= NAME_MAX ->
  make_in cur op p name mode (with_allocs l (inc p 1 s)) = Some (0, s') ->
  exists d i n dir, extends s s' p d name i /\ 0 < i /\ inode_table s !! n = None /\ inodes s' !! i = Some (new_node cur dir (Z.lor mode kind) n) /\ d_inode pe <> 0 /\
    inodes s !! d_inode pe = Some dir /\ S_ISDIR (i_mode dir) = true /\ (vfs_check_permission cur dir MAY_EXEC <? 0) = false /\ vfs_ok (bump R d 1) Q s' /\ same_env s s'.
Proof.
  intros Hop Hpe Hlen E. pose proof (entry_pos R Q s Hok p ltac:(by eexists)) as Hp0. set (t := with_allocs l (inc p 1 s)) in E.
  assert (Hokt : vfs_ok (bump R p 1) Q t) by (apply allocs_ok, inc_ok; [done|by eexists]).
  assert (Htp : dentries t !! p = Some (set_d_count (d_count pe + 1) pe)) by (change (dentries t) with (dentries (inc p 1 s)); rewrite inc_lookup, Hpe; cbn; by rewrite decide_True).
  assert (Hput : forall d0 t0 err, err <> 0 -> (s ← dput d0 t0; Some (err, s)) = Some (0, s') -> False) by (intros d0 t0 err He Ep; apply bind_Some in Ep as (? & _ & Ep); simplify_eq).
  unfold make_in in E. rewrite Htp in E. cbn [mbind option_bind d_inode set_d_count] in E. destruct (Z.eqb_spec (d_inode pe) 0) as [|Hi]; [by apply Hput in E|].
  change (inodes t) with (inodes s) in E. destruct (eo_inode _ _ _ _ (ok_entry _ _ _ Hok p pe Hpe) Hi) as [dir Hdir]. rewrite Hdir in E. cbn [mbind option_bind] in E.
  destruct (S_ISDIR (i_mode dir)) eqn:Hd; cbn [negb] in E; [|by apply Hput in E].
  destruct (Z.ltb_spec (vfs_check_permission cur dir (Z.lor MAY_WRITE MAY_EXEC)) 0) as [Hlt|Hperm]; [apply Hput in E; [done|lia]|].
  case_bool_decide; cbn [negb] in E; [|by apply Hput in E].
  destruct (dentry_alloc_ok t p name Hp0 ltac:(by eexists)) as (d & l' & [[-> Ea]|(pe' & Hd0 & Hdn & Hpe' & Ea)]); rewrite Ea in E; cbn [mbind option_bind] in E; [by apply Hput in E|].
  rewrite (proj2 (Z.eqb_neq d 0)) in E by lia. rewrite Htp in Hpe'. injection Hpe' as <-.
  pose proof (add_child_ok _ _ (with_allocs l' t) (allocs_ok _ _ _ l' Hokt) p _ d (take (Z.to_nat NAME_MAX) name) Htp Hd0 Hdn) as Hok3.
  set (s3 := with_dentries _ (with_allocs l' t)) in *. set (de := mkDentry _ _ _ _ _ _) in *.
  destruct (Hop _ _ (d_inode pe) dir d de mode s3 Hok3 Hdir (lookup_insert_eq _ _ _) eq_refl) as (ret & s4 & Eop & Hret & He4 & Hok4 & Hsame & Hinod & Hnew).
  rewrite Eop in E. cbn [mbind option_bind] in E. destruct (Z.ltb_spec ret 0).
  { apply bind_Some in E as (? & _ & E). apply Hput in E; [done|lia]. }
  assert (ret = 0) as -> by lia. destruct (Hnew eq_refl) as (i & n & Hi0 & Hno & Hd4 & Hi4). cbn [mbind option_bind] in E.
  assert (Hdp : d <> p) by (intros ->; congruence).
  set (pe3 := set_d_subdirs (d :: d_subdirs pe) (set_d_count (d_count pe + 1 + 1) pe)).
  assert (Hp4 : dentries s4 !! p = Some pe3) by (apply Hsame; [done|]; subst s3; cbn; rewrite lookup_insert_ne by done; by rewrite lookup_insert_eq).
  pose proof (eo_live _ _ _ _ (ok_entry _ _ _ Hok p pe Hpe)). destruct (put_ok (bump R d 1) Q s4 p) as (s5 & E5 & Hok5 & _);
    [apply bump_nonneg; [intros x; apply (ok_R _ _ _ Hok)|lia]|eapply vfs_ok_ext; [| |exact Hok4]; [bump_ext|done]|].
  rewrite E5 in E. rewrite (dput_inc p s4 pe3 ltac:(lia) Hp4 ltac:(cbn; lia)) in E5. cbn [mbind option_bind] in E. injection E5 as <-. injection E as <-.
  exists d, i, n, dir. split_and!; [|done|done|done|done|done|done|by apply check_exec|done|exact He4].
  - split.
    + change (dentries t) with (dentries (inc p 1 s)) in Hdn. rewrite inc_lookup in Hdn. by apply fmap_None in Hdn.
    + eexists. rewrite inc_lookup, Hd4. cbn. rewrite decide_False by done. split; [done|]. split; [|done]. apply firstn_all2. cbn in Hlen. lia.
    + exists pe. eexists. split; [done|]. rewrite inc_lookup, Hp4. cbn. split; [done|]. done.
    + intros x xe Hx Hxe. rewrite inc_lookup, (Hsame x xe); [cbn; rewrite decide_False, Z.add_0_r, set_d_count_id by done; done| |].
      * intros ->. change (dentries t) with (dentries (inc p 1 s)) in Hdn. rewrite inc_lookup, Hxe in Hdn. done.
      * subst s3. cbn. rewrite !lookup_insert_ne by (done || (intros <-; change (dentries t) with (dentries (inc p 1 s)) in Hdn; rewrite inc_lookup, Hxe in Hdn; done)).
        by rewrite lookup_alter_ne by done.
    + done.
Qed.
End Create.

(** The type of a new file. *)
Lemma new_node_type cur dir mode kind n :
  Z.land mode S_IFMT = 0 -> kind = S_IFREG \/ kind = S_IFDIR -> Z.land (i_mode (new_node cur dir (Z.lor mode kind) n)) S_IFMT = kind.
Proof.
  intros Hm Hk. assert (E : Z.land (Z.lor mode kind) S_IFMT = kind) by (rewrite Z.land_lor_distr_l, Hm; by destruct Hk as [-> | ->]).
  unfold new_node. cbn [i_mode]. destruct (_ && _); [|done]. by rewrite Z.setbit_spec', Z.land_lor_distr_l, E, Z.lor_0_r.
Qed.


(** ** Examples *)

Lemma vfs_root_plain : plain vfs_root.
Proof.
  split.
  - destruct vfs_root_state as [_ ->]. by intros m ->%list_elem_of_singleton.
  - assert (H : map_Forall (fun _ ino => i_op ino <> devfs_dir_inode_ops) (inodes vfs_root)) by (apply (bool_decide_unpack _); vm_compute; exact I).
    intros i ino Hi. exact (H i ino Hi).
Qed.

Lemma lookup_resolves_witness : exists l, vfs_lookup_at None (fun _ _ _ => true) [47; 46; 47; 46; 46] true vfs_root = Some (3, with_allocs l (inc 3 1 vfs_root)).
Proof.
  destruct (lookup_resolves None (fun _ _ _ => true) (bump (fun _ => 0) 3 1) (fun _ => 0) vfs_root [47; 46; 47; 46; 46] true) as [l H];
    [apply vfs_root_ok|apply vfs_root_plain|done|repeat constructor; cbn; lia|by eexists; vm_compute|].
  exists l. rewrite H. replace (resolve None vfs_root (components [47; 46; 47; 46; 46] []) (root_dentry vfs_root)) with (Some 3) by (vm_compute; reflexivity). reflexivity.
Defined.

(** "/a" *)
Definition vfs_a : vfs := (default (0, vfs_root) (vfs_create None (fun _ _ _ => false) [47; 97] 420 vfs_root)).2.

Lemma vfs_a_created : vfs_create None (fun _ _ _ => false) [47; 97] 420 vfs_root = Some (0, vfs_a).
Proof. vm_compute. reflexivity. Qed.


(** ** What goes wrong *)

Definition run (m : option (Z * vfs)) (f : vfs -> option (Z * vfs)) : option (Z * vfs) := '(_, s) ← m; f s.

(** A component of 256 bytes is written over what follows the name of the entry. *)
Lemma long_name_overflows : vfs_lookup None (fun _ _ _ => false) (replicate 256 97) vfs_root = None.
Proof. vm_compute. reflexivity. Qed.

(** A file that is created and unlinked keeps its entry, its inode and its inode
    number. *)
Lemma unlink_leaks : exists s, vfs_unlink None (fun _ _ _ => false) [47; 97] vfs_a = Some (0, s) /\
  (vfs_lookup None (fun _ _ _ => false) [47; 97] s ≫= fun r => Some r.1) = Some 0 /\
  size (dentries s) = 2%nat /\ size (inodes s) = 2%nat /\ inode_table s !! 2 = inode_table vfs_a !! 2 /\ is_Some (inode_table s !! 2).
Proof. eexists. split; [vm_compute; reflexivity|]. vm_compute. by split_and!; try eexists. Qed.

(** When the root entry of a new file system cannot be allocated, its inode is
    released twice. *)
Lemma mount_double_put : vfs_mount None (fun _ _ _ => false) false [47] (Some axiomfs_fs_type) (with_allocs [true; true; true; true; false] vfs_empty) = None.
Proof. vm_compute. reflexivity. Qed.

(** A mount that fails keeps the entry it would have covered. *)
Lemma mount_failure_leaks : exists s, vfs_mount None (fun _ _ _ => false) false [47] (Some axiomfs_fs_type) (with_allocs [] vfs_root) = Some (- ENOMEM, s) /\
  d_count <$> dentries s !! 3 = Some 2 /\ d_count <$> dentries vfs_root !! 3 = Some 1.
Proof. eexists. split; vm_compute; [reflexivity|done]. Qed.

(** The device file system cannot be unmounted ... *)
Lemma devfs_not_unmounted : (run (run (vfs_mkdir None (fun _ _ _ => false) [47; 100] 493 vfs_root) (vfs_mount None (fun _ _ _ => false) false [47; 100] (Some devfs_fs_type)))
  (vfs_umount None (fun _ _ _ => false) [47; 100]) ≫= fun r => Some r.1) = Some (- EINVAL).
Proof. vm_compute. reflexivity. Qed.

(** ... and the root of a mounted AxiomFS can be removed as a directory, although
    mounted directories are meant to be busy: it has -1 links then. *)
Lemma mounted_directory_removed :
  exists s, run (run (vfs_mkdir None (fun _ _ _ => false) [47; 100] 493 vfs_root) (vfs_mount None (fun _ _ _ => false) false [47; 100] (Some axiomfs_fs_type)))
    (vfs_rmdir None (fun _ _ _ => false) [47; 100]) = Some (0, s) /\ exists i ino, inodes s !! i = Some ino /\ i_nlink ino = -1.
Proof. eexists. split; [vm_compute; reflexivity|]. exists 7. eexists. split; vm_compute; reflexivity. Qed.

(** A process that forks in "/d" shares its reference to the entry with the child:
    when both have left the directory, the entry is gone. *)
Lemma shared_cwd_frees_directory :
  exists s, (run (vfs_mkdir None (fun _ _ _ => false) [47; 100] 493 vfs_root) (vfs_lookup None (fun _ _ _ => false) [47; 100]) ≫= fun '(cwd, s) =>
    s ← dput cwd s; dput cwd s) = Some s /\ (vfs_lookup None (fun _ _ _ => false) [47; 100] s ≫= fun r => Some r.1) = Some 0.
Proof. eexists. split; [vm_compute; reflexivity|]. vm_compute. reflexivity. Qed.
