(* ===== verification/Files.v ===== *)
(** * Open files and descriptor tables (fs/file.c, fs/vfs.c, proc/process.c)

    A descriptor table is an array of pointers to open files, which are counted by
    the descriptors that refer to them, in all tables; a table is counted by the
    processes that share it.  The system calls that open, duplicate and close
    descriptors work on the table of the calling process.

    Tables and files are kept in maps from their address, each with its own
    addresses; [None] is a fault.  The operations of a device driver behind a file
    are a parameter. *)

From S2P Require Import Prelude Errno Dentry Namei.

Abbreviation EMFILE := 24%Z (only parsing).
Abbreviation PROC_MAX_FDS := 1024%Z (only parsing).
Abbreviation O_ACCMODE := 3%Z (only parsing).
Abbreviation O_RDONLY := 0%Z (only parsing).
Abbreviation O_WRONLY := 1%Z (only parsing).
Abbreviation O_RDWR := 2%Z (only parsing).
Abbreviation O_CREAT := 64%Z (only parsing).
Abbreviation O_EXCL := 128%Z (only parsing).
Abbreviation O_TRUNC := 512%Z (only parsing).
Abbreviation O_APPEND := 1024%Z (only parsing).
Abbreviation O_DIRECTORY := 65536%Z (only parsing).
Abbreviation O_CLOEXEC := 524288%Z (only parsing).
Abbreviation FMODE_READ := 1%Z (only parsing).
Abbreviation FMODE_WRITE := 2%Z (only parsing).

Record file := mkFile { f_dentry : Z; f_flags : Z; f_mode : Z; f_pos : Z; f_count : Z }.

Record fd_entry := mkFd { fd_file : Z; fd_flags : Z }.

(** [max_fds] is the length of [fds]. *)
Record fd_table := mkTable { fds : list fd_entry; next_fd : Z; tb_refcount : Z }.

Record fstate := mkFstate { vfs_of : vfs; files : gmap Z file; tables : gmap Z fd_table }.

Definition with_vfs (v : vfs) (s : fstate) : fstate := mkFstate v (files s) (tables s).
Definition with_files (m : gmap Z file) (s : fstate) : fstate := mkFstate (vfs_of s) m (tables s).
Definition with_tables (m : gmap Z fd_table) (s : fstate) : fstate := mkFstate (vfs_of s) (files s) m.

Definition set_f_count (c : Z) (f : file) : file := mkFile (f_dentry f) (f_flags f) (f_mode f) (f_pos f) c.

Definition has (x bit : Z) : bool := negb (Z.land x bit =? 0).

(** ** Files *)

Definition get_file (f : Z) (s : fstate) : option fstate :=
  if f =? 0 then Some s else
  fe ← files s !! f; Some (with_files (<[f := set_f_count (f_count fe + 1) fe]> (files s)) s).

Definition free_file (f : Z) (s : fstate) : option fstate :=
  if f =? 0 then Some s else
  fe ← files s !! f;
  v ← dput (f_dentry fe) (vfs_of s);
  Some (with_vfs v (with_files (delete f (files s)) s)).

Definition put_file (f : Z) (s : fstate) : option fstate :=
  if f =? 0 then Some s else
  fe ← files s !! f;
  let s := with_files (<[f := set_f_count (f_count fe - 1) fe]> (files s)) s in
  if f_count fe - 1 =? 0 then free_file f s else Some s.

(** [vfs_close]; the release handlers do nothing. *)
Definition vfs_close (f : Z) (s : fstate) : option fstate :=
  if f =? 0 then Some s else
  fe ← files s !! f;
  v ← dput (f_dentry fe) (vfs_of s);
  Some (with_vfs v (with_files (delete f (files s)) s)).

Section Open.
Context (cur : option (Z * Z)) (deny : Z -> list Z -> Z -> bool) (dev_open : inode -> Z).

(** What [open] asks of the permissions. *)
Definition access_mask (flags : Z) : Z :=
  let accmode := Z.land flags O_ACCMODE in
  Z.lor (if accmode =? O_RDONLY then MAY_READ else if accmode =? O_WRONLY then MAY_WRITE else Z.lor MAY_READ MAY_WRITE)
        (if has flags O_TRUNC then MAY_WRITE else 0).

Definition file_mode (flags : Z) : Z :=
  let accmode := Z.land flags O_ACCMODE in
  Z.lor (if (accmode =? O_RDONLY) || (accmode =? O_RDWR) then FMODE_READ else 0)
        (if (accmode =? O_WRONLY) || (accmode =? O_RDWR) then FMODE_WRITE else 0).

(** The entry to open, with a reference, or an error. *)
Definition open_entry (path : list Z) (flags mode : Z) (v : vfs) : option (sum Z Z * vfs) :=
  '(d, v) ← vfs_lookup cur deny path v;
  if d =? 0 then
    if negb (has flags O_CREAT) then Some (inl (- ENOENT), v) else
    '(ret, v) ← vfs_create cur deny path mode v;
    if ret <? 0 then Some (inl ret, v) else
    '(d, v) ← vfs_lookup cur deny path v;
    Some (if d =? 0 then inl (- ENOENT) else inr d, v)
  else if has flags O_EXCL then v ← dput d v; Some (inl (- EEXIST), v)
  else Some (inr d, v).

(** Devices have inodes without operations. *)
Definition open_handler (ino : inode) : Z :=
  match i_op ino with no_inode_ops => dev_open ino | _ => 0 end.

(** The new file, or an error. *)
Definition vfs_open (path : list Z) (flags mode : Z) (s : fstate) : option (Z * fstate) :=
  '(r, v) ← open_entry path flags mode (vfs_of s);
  match r with
  | inl err => Some (err, with_vfs v s)
  | inr d =>
    de ← dentries v !! d;
    let fail ret v := (v ← dput d v; Some (ret, with_vfs v s)) in
    if d_inode de =? 0 then fail (- ENOENT) v else
    ino ← inodes v !! d_inode de;
    if has flags O_DIRECTORY && negb (S_ISDIR (i_mode ino)) then fail (- ENOTDIR) v else
    let ret := vfs_check_permission cur ino (access_mask flags) in
    if ret <? 0 then fail ret v else
    let '(ok, v) := take_alloc v in
    if negb ok then fail (- ENOMEM) v else
    let ret := open_handler ino in
    if ret <? 0 then fail ret v else
    let f := addr_above (map_to_list (files s)).*1 in
    Some (f, with_vfs v (with_files (<[f := mkFile d flags (file_mode flags) (if has flags O_APPEND then i_size ino else 0) 1]> (files s)) s))
  end.
End Open.

(** ** Descriptor tables *)

Definition fd_at (tb : fd_table) (fd : Z) : fd_entry := nth (Z.to_nat fd) (fds tb) (mkFd 0 0).

Definition set_fd (fd : Z) (e : fd_entry) (tb : fd_table) : fd_table := mkTable (<[Z.to_nat fd := e]> (fds tb)) (next_fd tb) (tb_refcount tb).
Definition set_next (n : Z) (tb : fd_table) : fd_table := mkTable (fds tb) n (tb_refcount tb).

Definition max_fds (tb : fd_table) : Z := Z.of_nat (length (fds tb)).

(** NULL when the descriptor is out of range or closed. *)
Definition fd_get (tb : fd_table) (fd : Z) : Z :=
  if (fd >=? 0) && (fd <? max_fds tb) then fd_file (fd_at tb fd) else 0.

(** The descriptor, or an error, and the table. *)
Definition fd_alloc (tb : fd_table) (f flags : Z) : Z * fd_table :=
  if f =? 0 then (- EINVAL, tb) else
  let tb := if next_fd tb <? 3 then set_next 3 tb else tb in
  let free i := fd_file (fd_at tb i) =? 0 in
  let use i := (i, set_next (i + 1) (set_fd i (mkFd f flags) tb)) in
  match find_range free (next_fd tb) (max_fds tb) with
  | Some i => use i
  | None => match find_range free 3 (next_fd tb) with Some i => use i | None => (- EMFILE, tb) end
  end.

Definition fd_free (fd : Z) (tb : fd_table) : fd_table :=
  if (fd >=? 3) && (fd <? max_fds tb) then
    let tb := set_fd fd (mkFd 0 0) tb in
    if fd <? next_fd tb then set_next fd tb else tb
  else tb.

(** An address of its own, or NULL: two allocations. *)
Definition fd_table_create (s : fstate) : Z * fstate :=
  let '(ok, v) := take_alloc (vfs_of s) in
  if negb ok then (0, with_vfs v s) else
  let '(ok, v) := take_alloc v in
  if negb ok then (0, with_vfs v s) else
  let t := addr_above (map_to_list (tables s)).*1 in
  (t, with_vfs v (with_tables (<[t := mkTable (replicate (Z.to_nat PROC_MAX_FDS) (mkFd 0 0)) 3 1]> (tables s)) s)).

Fixpoint get_all (l : list fd_entry) (s : fstate) : option fstate :=
  match l with
  | [] => Some s
  | e :: l => s ← get_file (fd_file e) s; get_all l s
  end.

(** The entries without a file stay empty in the new table. *)
Definition fd_table_clone (old : Z) (s : fstate) : option (Z * fstate) :=
  let '(t, s) := fd_table_create s in
  if t =? 0 then Some (0, s) else
  ot ← tables s !! old;
  s ← get_all (fds ot) s;
  let entries := (fun e => if fd_file e =? 0 then mkFd 0 0 else e) <$> fds ot in
  Some (t, with_tables (<[t := mkTable entries (next_fd ot) 1]> (tables s)) s).

Fixpoint put_all (l : list fd_entry) (s : fstate) : option fstate :=
  match l with
  | [] => Some s
  | e :: l => s ← put_file (fd_file e) s; put_all l s
  end.

Definition fd_table_free (t : Z) (s : fstate) : option fstate :=
  if t =? 0 then Some s else
  tb ← tables s !! t;
  let c := tb_refcount tb - 1 in
  if negb (c =? 0) then Some (with_tables (<[t := mkTable (fds tb) (next_fd tb) c]> (tables s)) s) else
  s ← put_all (fds tb) s;
  Some (with_tables (delete t (tables s)) s).

(** ** System calls, on the table [t] of the calling process *)

(** What [sys_open] and [sys_openat] do with the path once it is absolute. *)
Definition open_resolved (cur : option (Z * Z)) (deny : Z -> list Z -> Z -> bool) (dev_open : inode -> Z) (t : Z) (path : list Z) (flags mode : Z) (s : fstate) : option (Z * fstate) :=
  '(f, s) ← vfs_open cur deny dev_open path flags mode s;
  if f <? 0 then Some (f, s) else
  tb ← tables s !! t;
  let '(fd, tb) := fd_alloc tb f (if has flags O_CLOEXEC then O_CLOEXEC else 0) in
  let s := with_tables (<[t := tb]> (tables s)) s in
  if fd <? 0 then s ← vfs_close f s; Some (fd, s) else Some (fd, s).

(** For a descriptor that is no socket. *)
Definition sys_close (t fd : Z) (s : fstate) : option (Z * fstate) :=
  tb ← tables s !! t;
  if (fd <? 0) || (fd >=? max_fds tb) then Some (- EBADF, s) else
  let f := fd_get tb fd in
  if f =? 0 then Some (- EBADF, s) else
  let tb := set_fd fd (mkFd 0 0) tb in
  let tb := if (fd >=? 3) && (fd <? next_fd tb) then set_next fd tb else tb in
  s ← put_file f (with_tables (<[t := tb]> (tables s)) s);
  Some (0, s).

Definition sys_dup (t oldfd : Z) (s : fstate) : option (Z * fstate) :=
  tb ← tables s !! t;
  if (oldfd <? 0) || (oldfd >=? max_fds tb) then Some (- EBADF, s) else
  let f := fd_get tb oldfd in
  if f =? 0 then Some (- EBADF, s) else
  let '(newfd, tb) := fd_alloc tb f (fd_flags (fd_at tb oldfd)) in
  let s := with_tables (<[t := tb]> (tables s)) s in
  if newfd <? 0 then Some (newfd, s) else
  s ← get_file f s; Some (newfd, s).

Definition sys_dup2 (t oldfd newfd : Z) (s : fstate) : option (Z * fstate) :=
  tb ← tables s !! t;
  if (oldfd <? 0) || (oldfd >=? max_fds tb) then Some (- EBADF, s) else
  if (newfd <? 0) || (newfd >=? max_fds tb) then Some (- EBADF, s) else
  let f := fd_get tb oldfd in
  if f =? 0 then Some (- EBADF, s) else
  if oldfd =? newfd then Some (newfd, s) else
  let old := fd_get tb newfd in
  s ← (if negb (old =? 0) then put_file old (with_tables (<[t := set_fd newfd (mkFd 0 0) tb]> (tables s)) s) else Some s);
  s ← get_file f s;
  tb ← tables s !! t;
  Some (newfd, with_tables (<[t := set_fd newfd (mkFd f (fd_flags (fd_at tb oldfd))) tb]> (tables s)) s).

(** [copy_files] of fork: the table of the child, or NULL for [-ENOMEM]. *)
Definition copy_files (t : Z) (share : bool) (s : fstate) : option (Z * fstate) :=
  if share then
    tb ← tables s !! t;
    Some (t, with_tables (<[t := mkTable (fds tb) (next_fd tb) (tb_refcount tb + 1)]> (tables s)) s)
  else fd_table_clone t s.

(** The loop of [do_execve] over the descriptors marked close-on-exec. *)
Definition close_on_exec (t : Z) (s : fstate) : option fstate :=
  tb ← tables s !! t;
  let tb := for_range 0 (max_fds tb) (fun i tb => if has (fd_flags (fd_at tb i)) O_CLOEXEC then fd_free i tb else tb) tb in
  Some (with_tables (<[t := tb]> (tables s)) s).

(** [sys_ioctl] up to the requests to the terminal: the result, if the file answers
    the request; [file_op] is what the operation of the file returns, if it has one. *)
Definition sys_ioctl (t fd : Z) (file_op : option Z) (s : fstate) : option (option Z * fstate) :=
  if (fd >=? 0) && negb ((fd =? 0) || (fd =? 1) || (fd =? 2)) then
    tb ← tables s !! t;
    let f := fd_get tb fd in
    if f =? 0 then Some (Some (- EBADF), s) else
    s ← put_file f s; Some (file_op, s)
  else Some (None, s).
