(* ===== verification/FilesProps.v ===== *)
(** * Files are counted by their descriptors

    Opening, duplicating, closing, forking and exiting keep the count of every open
    file equal to the number of descriptors that refer to it, so that a file is
    released exactly with its last descriptor; a new descriptor is the lowest. *)

From S2P Require Import Prelude Errno Dentry DentryProps Namei NameiProps Files.

(** ** Counting descriptors *)

Definition slots (tb : fd_table) (f : Z) : Z := Z.of_nat (length (filter (fun e => fd_file e = f) (fds tb))).

(** The descriptors that refer to [f], in all tables. *)
Definition file_refs (m : gmap Z fd_table) (f : Z) : Z := map_fold (fun _ tb acc => slots tb f + acc) 0 m.

Lemma slots_nonneg tb f : 0 <= slots tb f.
Proof. unfold slots. lia. Qed.

Lemma file_refs_new m t tb f : m !! t = None -> file_refs (<[t := tb]> m) f = slots tb f + file_refs m f.
Proof. intros Ht. unfold file_refs. rewrite map_fold_insert_L; [done|intros; lia|done]. Qed.

Lemma file_refs_delete m t tb f : m !! t = Some tb -> file_refs m f = slots tb f + file_refs (delete t m) f.
Proof. intros Ht. unfold file_refs. rewrite (map_fold_delete_L _ _ t tb m); [done|intros; lia|done]. Qed.

Lemma file_refs_update m t tb tb' f : m !! t = Some tb -> file_refs (<[t := tb']> m) f = file_refs m f - slots tb f + slots tb' f.
Proof.
  intros Ht. rewrite <- insert_delete_eq, file_refs_new by apply lookup_delete_eq. rewrite (file_refs_delete m t tb f Ht). lia.
Qed.

Lemma file_refs_nonneg m f : 0 <= file_refs m f.
Proof.
  induction m as [|t tb m Ht IH] using map_ind; [done|]. rewrite file_refs_new by done. pose proof (slots_nonneg tb f). lia.
Qed.

Lemma slots_pos tb e : e ∈ fds tb -> 1 <= slots tb (fd_file e).
Proof.
  intros He. unfold slots. assert (H : e ∈ filter (fun e' => fd_file e' = fd_file e) (fds tb)) by (by apply list_elem_of_filter).
  destruct (filter _ _); [by apply elem_of_nil in H|cbn; lia].
Qed.

Lemma file_refs_pos m t tb e : m !! t = Some tb -> e ∈ fds tb -> 1 <= file_refs m (fd_file e).
Proof.
  intros Ht He. rewrite (file_refs_delete m t tb) by done. pose proof (slots_pos tb e He). pose proof (file_refs_nonneg (delete t m) (fd_file e)). lia.
Qed.

Lemma slots_zero tb f : (forall e, e ∈ fds tb -> fd_file e <> f) -> slots tb f = 0.
Proof.
  intros H. unfold slots. destruct (filter _ _) as [|e l] eqn:Ef; [done|]. assert (He : e ∈ filter (fun e => fd_file e = f) (fds tb)) by (rewrite Ef; left).
  apply list_elem_of_filter in He as [He1 He2]. by destruct (H e He2).
Qed.

Lemma file_refs_zero m f : (forall t tb e, m !! t = Some tb -> e ∈ fds tb -> fd_file e <> f) -> file_refs m f = 0.
Proof.
  induction m as [|t tb m Ht IH] using map_ind; intros H; [done|]. rewrite file_refs_new by done. rewrite IH, slots_zero; [done|..].
  - intros e He. apply (H t tb); [by rewrite lookup_insert_eq|done].
  - intros t' tb' e Ht'. apply H with t'. rewrite lookup_insert_ne; congruence.
Qed.

Lemma filter_insert_length (f : Z) (l : list fd_entry) i e e' : l !! i = Some e ->
  Z.of_nat (length (filter (fun x => fd_file x = f) (<[i := e']> l))) = Z.of_nat (length (filter (fun x => fd_file x = f) l)) - one (fd_file e = f) + one (fd_file e' = f).
Proof.
  revert i. induction l as [|x l IH]; intros [|i] Hi; try done; cbn in Hi.
  - simplify_eq. cbn [insert list_insert]. rewrite !filter_cons. unfold one. repeat case_decide; cbn [length]; lia.
  - specialize (IH i Hi). change (<[S i := e']> (x :: l)) with (x :: <[i := e']> l). rewrite !filter_cons. destruct (decide (fd_file x = f)); cbn [length]; lia.
Qed.

Lemma fd_at_lookup tb fd : 0 <= fd < max_fds tb -> fds tb !! Z.to_nat fd = Some (fd_at tb fd).
Proof. unfold max_fds, fd_at. intros H. rewrite nth_lookup. destruct (lookup_lt_is_Some_2 (fds tb) (Z.to_nat fd)) as [e ->]; [lia|done]. Qed.

Lemma slots_set tb fd e f : 0 <= fd < max_fds tb -> slots (set_fd fd e tb) f = slots tb f - one (fd_file (fd_at tb fd) = f) + one (fd_file e = f).
Proof. intros H. unfold slots. cbn. apply filter_insert_length. by apply fd_at_lookup. Qed.

Lemma fd_at_set tb fd e i : 0 <= fd < max_fds tb -> 0 <= i -> fd_at (set_fd fd e tb) i = if decide (i = fd) then e else fd_at tb i.
Proof.
  unfold max_fds, fd_at. intros H Hi. cbn. rewrite !nth_lookup. destruct (decide (i = fd)) as [->|].
  - by rewrite list_lookup_insert_eq by lia.
  - by rewrite list_lookup_insert_ne by lia.
Qed.

(** ** The invariant *)

(** All descriptors from 3 to [next_fd] are in use. *)
Record table_ok (tb : fd_table) : Prop := {
  tk_len : length (fds tb) = Z.to_nat PROC_MAX_FDS;
  tk_next : 3 <= next_fd tb <= PROC_MAX_FDS;
  tk_used i : 3 <= i < next_fd tb -> fd_file (fd_at tb i) <> 0
}.

Definition file_dentry (f : Z) (fe : file) : Z := f_dentry fe.

(** [E] counts the references to files, [T] those to tables and [R], [Q] those to
    entries and inodes that come from elsewhere. *)
Record files_ok (E T R Q : Z -> Z) (s : fstate) : Prop := {
  fo_file f fe : files s !! f = Some fe -> 0 < f /\ 0 < f_dentry fe /\ f_count fe = E f + file_refs (tables s) f /\ 0 < f_count fe;
  fo_E f : 0 <= E f /\ (E f <> 0 -> is_Some (files s !! f));
  fo_table t tb : tables s !! t = Some tb -> 0 < t /\ length (fds tb) = Z.to_nat PROC_MAX_FDS /\ tb_refcount tb = T t /\ 0 < T t;
  fo_live t tb e : tables s !! t = Some tb -> e ∈ fds tb -> fd_file e <> 0 -> is_Some (files s !! fd_file e);
  fo_T t : 0 <= T t /\ (T t <> 0 -> is_Some (tables s !! t));
  fo_R d : 0 <= R d;
  fo_vfs : vfs_ok (fun d => R d + refs file_dentry (files s) d) Q (vfs_of s)
}.

Lemma files_ok_ext E E' T T' R R' Q s : (forall x, E x = E' x) -> (forall x, T x = T' x) -> (forall x, R x = R' x) -> files_ok E T R Q s -> files_ok E' T' R' Q s.
Proof.
  intros HE HT HR [H1 H2 H3 H4 H5 H6 H7]. split.
  - intros f fe Hf. rewrite <- HE. by apply H1.
  - intros f. rewrite <- HE. apply H2.
  - intros t tb Ht. rewrite <- HT. by apply H3.
  - done.
  - intros t. rewrite <- HT. apply H5.
  - intros d. rewrite <- HR. apply H6.
  - eapply vfs_ok_ext; [| |exact H7]; [intros x; cbn; by rewrite HR|done].
Qed.

(** ** Taking and releasing a file *)

Section Count.
Context (E T R Q : Z -> Z) (s : fstate).
Hypothesis Hok : files_ok E T R Q s.

Lemma set_count_files f fe n : files s !! f = Some fe -> 0 < f_count fe + n -> 0 <= E f + n ->
  files_ok (bump E f n) T R Q (with_files (<[f := set_f_count (f_count fe + n) fe]> (files s)) s).
Proof.
  intros Hf Hc He. destruct Hok as [H1 H2 H3 H4 H5 H6 H7]. destruct (H1 f fe Hf) as (Hf0 & Hd0 & Hfc & _).
  assert (Hdom : forall x, is_Some (files s !! x) -> is_Some (<[f := set_f_count (f_count fe + n) fe]> (files s) !! x)) by (intros x Hx; rewrite lookup_insert_is_Some'; by right).
  split; cbn.
  - intros g ge Hg. destruct (decide (g = f)) as [->|Hne].
    + rewrite lookup_insert_eq in Hg. injection Hg as <-. cbn. rewrite bump_eq by lia. split_and!; [done|done|lia|lia].
    + rewrite lookup_insert_ne in Hg by done. rewrite bump_ne by done. by apply H1.
  - intros g. destruct (decide (g = f)) as [->|Hne].
    + rewrite bump_eq by lia. split; [lia|]. intros _. rewrite lookup_insert_eq. by eexists.
    + rewrite bump_ne by done. destruct (H2 g). split; [done|]. auto.
  - done.
  - intros t tb e Ht He' Hz. apply Hdom. by apply (H4 t tb e).
  - done.
  - done.
  - eapply vfs_ok_ext; [| |exact H7]; [|done]. intros x. cbn. f_equal. symmetry. by apply (refs_same file_dentry _ _ fe).
Qed.

Lemma get_file_ok f : f = 0 \/ is_Some (files s !! f) -> exists s', get_file f s = Some s' /\ files_ok (bump E f 1) T R Q s' /\ tables s' = tables s /\ vfs_of s' = vfs_of s.
Proof.
  intros [->|[fe Hf]].
  { exists s. split; [done|]. split; [|done]. apply (files_ok_ext E _ T T R R); try done. intros x. by rewrite bump_0. }
  destruct (fo_file _ _ _ _ _ Hok f fe Hf) as (Hf0 & _ & _ & Hc). unfold get_file. rewrite (proj2 (Z.eqb_neq f 0)) by lia. rewrite Hf. cbn [mbind option_bind].
  eexists. split; [done|]. split; [|done]. apply set_count_files; [done|lia|]. pose proof (proj1 (fo_E _ _ _ _ _ Hok f)). lia.
Qed.

(** The last reference to a file: the file goes, and its entry is released. *)
Lemma delete_file_ok f fe : files s !! f = Some fe -> E f = 1 -> f_count fe = 1 ->
  exists v, dput (f_dentry fe) (vfs_of s) = Some v /\ files_ok (bump E f (-1)) T R Q (with_vfs v (with_files (delete f (files s)) s)) /\ kept (vfs_of s) v.
Proof.
  intros Hf He Hc. pose proof Hok as [H1 H2 H3 H4 H5 H6 H7]. destruct (H1 f fe Hf) as (Hf0 & Hd0 & Hfc & _).
  pose proof (refs_pos file_dentry _ _ _ Hf) as Hpos. change (file_dentry f fe) with (f_dentry fe) in Hpos.
  destruct (dput_loop_ok (S (size (dentries (vfs_of s)))) (f_dentry fe) _ _ _ H7) as (v & Ev & Hv & Hk); [right; specialize (H6 (f_dentry fe)); cbv beta; lia|lia|].
  exists v. split; [done|]. split; [|done]. assert (H0 : file_refs (tables s) f = 0) by lia. split; cbn.
  - intros g ge [Hne Hg]%lookup_delete_Some. rewrite bump_ne by done. by apply H1.
  - intros g. destruct (decide (g = f)) as [->|Hne]; [rewrite bump_eq by lia; split; lia|]. rewrite bump_ne, lookup_delete_ne by done. apply H2.
  - done.
  - intros t tb e Ht He' Hz. assert (fd_file e <> f) by (intros <-; pose proof (file_refs_pos _ _ _ _ Ht He'); lia). rewrite lookup_delete_ne by done. by apply (H4 t tb e).
  - done.
  - done.
  - eapply vfs_ok_ext; [| |exact Hv]; [|done]. intros x. cbn. rewrite (refs_delete file_dentry _ f fe x Hf). unfold bump, one. change (file_dentry f fe) with (f_dentry fe).
    destruct (decide (f_dentry fe = x)) as [<-|]; [rewrite Z.eqb_refl, (proj2 (Z.eqb_neq (f_dentry fe) 0)) by lia; cbn; lia|].
    rewrite (proj2 (Z.eqb_neq x (f_dentry fe))) by congruence. cbn. lia.
Qed.

Lemma put_file_ok f : f = 0 \/ 0 < E f -> exists s', put_file f s = Some s' /\ files_ok (bump E f (-1)) T R Q s' /\ tables s' = tables s /\ same_env (vfs_of s) (vfs_of s').
Proof.
  intros [->|He].
  { exists s. split; [done|]. split; [|done]. apply (files_ok_ext E _ T T R R); try done. intros x. by rewrite bump_0. }
  destruct (proj2 (fo_E _ _ _ _ _ Hok f) ltac:(lia)) as [fe Hf]. destruct (fo_file _ _ _ _ _ Hok f fe Hf) as (Hf0 & _ & Hfc & Hc).
  pose proof (file_refs_nonneg (tables s) f). unfold put_file. rewrite (proj2 (Z.eqb_neq f 0)) by lia. rewrite Hf. cbn [mbind option_bind].
  destruct (Z.eqb_spec (f_count fe - 1) 0) as [E1|E1].
  - destruct (delete_file_ok f fe Hf ltac:(lia) ltac:(lia)) as (v & Ev & Hv & Hk). unfold free_file. rewrite (proj2 (Z.eqb_neq f 0)) by lia. cbn [files with_files].
    rewrite lookup_insert_eq. cbn [mbind option_bind vfs_of with_files f_dentry set_f_count]. rewrite Ev. cbn [mbind option_bind]. eexists. split; [done|].
    rewrite delete_insert_eq. split; [done|]. split; [done|]. by apply kept_env.
  - eexists. split; [done|]. split; [|done]. by apply (set_count_files f fe (-1)); [|lia..].
Qed.
End Count.

(** The files do not depend on the tables. *)
Lemma put_file_tables f m s : put_file f (with_tables m s) = with_tables m <$> put_file f s.
Proof.
  unfold put_file. destruct (f =? 0); [done|]. cbn [files with_tables]. destruct (files s !! f) as [fe|]; [|done]. cbn [mbind option_bind].
  destruct (f_count fe - 1 =? 0); [|done]. unfold free_file. destruct (f =? 0); [done|]. cbn [files with_tables with_files vfs_of].
  rewrite lookup_insert_eq. cbn [mbind option_bind]. by destruct (dput _ _).
Qed.

Lemma get_file_tables f m s : get_file f (with_tables m s) = with_tables m <$> get_file f s.
Proof. unfold get_file. destruct (f =? 0); [done|]. cbn [files with_tables]. by destruct (files s !! f). Qed.

Lemma put_all_tables l m s : put_all l (with_tables m s) = with_tables m <$> put_all l s.
Proof.
  revert s. induction l as [|e l IH]; intros s; [done|]. cbn [put_all]. rewrite put_file_tables. destruct (put_file _ s) as [s1|]; [|done]. apply IH.
Qed.

(** ** Changing a table *)

Section Tables.
Context (E T R Q : Z -> Z) (s : fstate).
Hypothesis Hok : files_ok E T R Q s.

Lemma null_uncounted : E 0 = 0.
Proof.
  destruct (decide (E 0 = 0)) as [|Hne]; [done|]. destruct (proj2 (fo_E _ _ _ _ _ Hok 0) Hne) as [fe Hf]. destruct (fo_file _ _ _ _ _ Hok 0 fe Hf). lia.
Qed.

(** Any change of the tables that keeps their count of processes moves references
    between the descriptors and the outside. *)
Lemma tables_change E' T' m : E' 0 = 0 ->
  (forall f, f <> 0 -> 0 <= E' f /\ E' f + file_refs m f = E f + file_refs (tables s) f) ->
  (forall t tb, m !! t = Some tb -> 0 < t /\ length (fds tb) = Z.to_nat PROC_MAX_FDS /\ tb_refcount tb = T' t /\ 0 < T' t) ->
  (forall t, 0 <= T' t /\ (T' t <> 0 -> is_Some (m !! t))) ->
  files_ok E' T' R Q (with_tables m s).
Proof.
  intros H0 HE HT HT'. destruct Hok as [H1 H2 H3 H4 H5 H6 H7].
  assert (Hz : forall f, f <> 0 -> E' f <> 0 \/ 1 <= file_refs m f -> is_Some (files s !! f)).
  { intros f Hf0 Hf. destruct (HE f Hf0) as [Hn He]. pose proof (file_refs_nonneg m f). destruct (files s !! f) as [fe|] eqn:Ef; [by eexists|]. exfalso.
    assert (E f = 0) by (destruct (decide (E f = 0)); [done|]; destruct (proj2 (H2 f)) as [? Hx]; congruence).
    assert (file_refs (tables s) f = 0); [|lia]. apply file_refs_zero. intros t tb e Ht He' <-. destruct (H4 t tb e Ht He' Hf0). congruence. }
  split; cbn.
  - intros f fe Hf. destruct (H1 f fe Hf) as (Hf0 & Hd & Hc & Hp). destruct (HE f ltac:(lia)). split_and!; [done|done|lia|done].
  - intros f. destruct (decide (f = 0)) as [->|Hf0]; [rewrite H0; split; [lia|done]|]. destruct (HE f Hf0). split; [done|]. intros Hne. apply Hz; [done|by left].
  - done.
  - intros t tb e Ht He Hne. apply Hz; [done|right]. by apply (file_refs_pos m t tb).
  - done.
  - done.
  - done.
Qed.

(** One table of the same processes. *)
Lemma table_change E' t tb tb' : tables s !! t = Some tb -> length (fds tb') = length (fds tb) -> tb_refcount tb' = tb_refcount tb -> E' 0 = 0 ->
  (forall f, f <> 0 -> 0 <= E' f /\ E' f + slots tb' f = E f + slots tb f) ->
  files_ok E' T R Q (with_tables (<[t := tb']> (tables s)) s).
Proof.
  intros Ht Hl Hc H0 HE. apply tables_change; [done|..].
  - intros f Hf. rewrite (file_refs_update _ t tb) by done. destruct (HE f Hf). lia.
  - intros t' tb1. destruct (decide (t' = t)) as [->|]; [rewrite lookup_insert_eq; intros [= <-]; destruct (fo_table _ _ _ _ _ Hok t tb Ht) as (?&?&?&?); split_and!; congruence|].
    rewrite lookup_insert_ne by done. apply (fo_table _ _ _ _ _ Hok).
  - intros t'. destruct (fo_T _ _ _ _ _ Hok t') as [H1 H2]. split; [done|]. intros H3. rewrite lookup_insert_is_Some'. right. by apply H2.
Qed.
End Tables.

(** ** Allocating a descriptor *)

Lemma table_max tb : table_ok tb -> max_fds tb = PROC_MAX_FDS.
Proof. intros [H _ _]. unfold max_fds. rewrite H. done. Qed.

(** The search from [next_fd] finds the lowest descriptor. *)
Lemma fd_alloc_eq tb f flags : table_ok tb -> f <> 0 ->
  fd_alloc tb f flags = match find_range (fun i => fd_file (fd_at tb i) =? 0) 3 PROC_MAX_FDS with
                        | Some i => (i, set_next (i + 1) (set_fd i (mkFd f flags) tb))
                        | None => (- EMFILE, tb)
                        end.
Proof.
  intros Ht Hf. pose proof (tk_next _ Ht) as Hn. unfold fd_alloc. rewrite (proj2 (Z.eqb_neq f 0)) by done. rewrite (proj2 (Z.ltb_ge (next_fd tb) 3)) by lia. rewrite (table_max tb Ht).
  set (free := fun i => fd_file (fd_at tb i) =? 0).
  assert (Hlow : forall i, 3 <= i < next_fd tb -> free i = false) by (intros i Hi; apply Z.eqb_neq, (tk_used _ Ht i Hi)).
  destruct (find_range free (next_fd tb) PROC_MAX_FDS) as [i|] eqn:Ei.
  - apply find_range_Some in Ei as (Hi & Hfi & Hmin). assert (find_range free 3 PROC_MAX_FDS = Some i) as ->; [|done]. apply find_range_Some. split_and!; [lia|lia|done|].
    intros j Hj. destruct (decide (j < next_fd tb)); [apply Hlow; lia|apply Hmin; lia].
  - rewrite (proj2 (find_range_None free 3 (next_fd tb)) Hlow). rewrite find_range_None in Ei.
    assert (find_range free 3 PROC_MAX_FDS = None) as ->; [|done]. apply find_range_None. intros j Hj. destruct (decide (j < next_fd tb)); [apply Hlow; lia|apply Ei; lia].
Qed.

Lemma set_fd_len fd e tb : length (fds (set_fd fd e tb)) = length (fds tb).
Proof. cbn. apply length_insert. Qed.

Lemma set_used_ok fd e tb n : table_ok tb -> 3 <= n <= PROC_MAX_FDS -> 0 <= fd < PROC_MAX_FDS -> (forall i, 3 <= i < n -> i <> fd -> fd_file (fd_at tb i) <> 0) ->
  fd_file e <> 0 \/ n <= fd \/ fd < 3 -> table_ok (set_next n (set_fd fd e tb)).
Proof.
  intros Ht Hn Hfd Hu He. split.
  - cbn. rewrite length_insert. apply Ht.
  - done.
  - intros i Hi. cbn [next_fd set_next] in Hi. change (fd_at (set_next n (set_fd fd e tb)) i) with (fd_at (set_fd fd e tb) i). rewrite fd_at_set by (rewrite ?(table_max tb Ht); lia). case_decide; [|by apply Hu]. destruct He; [done|lia].
Qed.

Lemma set_next_id tb : set_next (next_fd tb) tb = tb.
Proof. by destruct tb. Qed.

(** A new descriptor for [f]: one more slot. *)
Lemma fd_alloc_ok tb f flags fd tb' : table_ok tb -> f <> 0 -> fd_alloc tb f flags = (fd, tb') ->
  table_ok tb' /\ length (fds tb') = length (fds tb) /\ tb_refcount tb' = tb_refcount tb /\
  (fd = - EMFILE /\ tb' = tb \/ 3 <= fd < PROC_MAX_FDS /\ forall g, g <> 0 -> slots tb' g = slots tb g + one (f = g)).
Proof.
  intros Ht Hf. rewrite fd_alloc_eq by done. destruct (find_range _ _ _) as [i|] eqn:Ei; intros [= <- <-]; [|by split_and!; [..|left]].
  apply find_range_Some in Ei as (Hi & Hfi & Hmin). apply Z.eqb_eq in Hfi. split_and!.
  - apply set_used_ok; [done|lia|lia| |by left]. intros j Hj Hne. apply Z.eqb_neq, Hmin. lia.
  - apply length_insert.
  - done.
  - right. split; [lia|]. intros g Hg. change (slots (set_next (i + 1) (set_fd i (mkFd f flags) tb)) g) with (slots (set_fd i (mkFd f flags) tb) g).
    rewrite slots_set by (rewrite (table_max tb Ht); lia). rewrite Hfi, (one_False (0 = g)) by congruence. cbn [fd_file]. lia.
Qed.

(** ** The operations *)

Record desc_ok (E T R Q : Z -> Z) (s : fstate) : Prop := {
  do_files : files_ok E T R Q s;
  do_tables : map_Forall (fun _ => table_ok) (tables s);
  do_mounts : mounts_ok R (vfs_of s);
  do_root : 0 < R (root_dentry (vfs_of s))
}.

Lemma desc_ok_env E E' T T' R Q s s' : desc_ok E T R Q s -> files_ok E' T' R Q s' -> map_Forall (fun _ => table_ok) (tables s') -> same_env (vfs_of s) (vfs_of s') -> desc_ok E' T' R Q s'.
Proof. intros [_ _ H3 H4] H1 H2 He. split; [done|done|by eapply mounts_env|]. destruct He as (_ & _ & -> & _). done. Qed.

Section Calls.
Context (E T R Q : Z -> Z) (s : fstate) (t : Z) (tb : fd_table).
Hypothesis (Hok : desc_ok E T R Q s) (Ht : tables s !! t = Some tb).

Let Hf : files_ok E T R Q s := do_files _ _ _ _ _ Hok.
Let Htb : table_ok tb := do_tables _ _ _ _ _ Hok t tb Ht.

Lemma fd_get_slot fd : 0 <= fd < PROC_MAX_FDS -> fd_get tb fd = fd_file (fd_at tb fd) /\ fd_at tb fd ∈ fds tb.
Proof.
  intros Hfd. unfold fd_get. rewrite (table_max tb Htb). rewrite (proj2 (Z.ltb_lt fd _)), Z.geb_leb, (proj2 (Z.leb_le 0 fd)) by lia. split; [done|].
  apply (list_elem_of_lookup_2 _ (Z.to_nat fd)), fd_at_lookup. rewrite (table_max tb Htb). lia.
Qed.

Lemma bad_fd fd : (fd <? 0) || (fd >=? max_fds tb) = false -> 0 <= fd < PROC_MAX_FDS.
Proof. rewrite (table_max tb Htb). intros H. apply orb_false_iff in H as [H1 H2]. lia. Qed.

Lemma slot_file fd : 0 <= fd < PROC_MAX_FDS -> fd_get tb fd <> 0 -> is_Some (files s !! fd_get tb fd).
Proof. intros H Hne. destruct (fd_get_slot fd H) as [Eg He]. rewrite Eg in *. by apply (fo_live _ _ _ _ _ Hf t tb). Qed.

(** Emptying a slot hands its reference to the outside. *)
Lemma clear_slot fd n : 0 <= fd < PROC_MAX_FDS -> fd_get tb fd <> 0 ->
  files_ok (bump E (fd_get tb fd) 1) T R Q (with_tables (<[t := set_next n (set_fd fd (mkFd 0 0) tb)]> (tables s)) s).
Proof.
  intros Hfd Hne. destruct (fd_get_slot fd Hfd) as [Eg _]. apply (table_change _ _ _ _ _ Hf _ t tb); [done|apply set_fd_len|done|..].
  - rewrite bump_ne by done. by apply (null_uncounted E T R Q s).
  - intros g Hg. change (slots (set_next n ?x) g) with (slots x g). rewrite slots_set by (rewrite (table_max tb Htb); lia). rewrite <- Eg. cbn [fd_file]. rewrite (one_False (0 = g)) by congruence. pose proof (proj1 (fo_E _ _ _ _ _ Hf g)).
    unfold one. destruct (decide (fd_get tb fd = g)) as [->|]; [rewrite bump_eq by done|rewrite bump_ne by congruence]; lia.
Qed.

(** The references that only the call holds in between. *)
Lemma bump_back f x : bump (bump E f 1) f (-1) x = E x.
Proof. unfold bump. destruct ((x =? f) && negb (x =? 0)); lia. Qed.

Lemma tables_insert tb' : table_ok tb' -> map_Forall (fun _ => table_ok) (<[t := tb']> (tables s)).
Proof. intros H. apply map_Forall_insert_2; [done|]. apply (do_tables _ _ _ _ _ Hok). Qed.

Lemma close_ok fd : exists r s', sys_close t fd s = Some (r, s') /\ desc_ok E T R Q s'.
Proof.
  unfold sys_close. rewrite Ht. cbn [mbind option_bind]. destruct (_ || _) eqn:Eb; [by eexists _, s|]. apply bad_fd in Eb.
  destruct (Z.eqb_spec (fd_get tb fd) 0) as [|Hne]; [by eexists _, s|].
  set (n := if (fd >=? 3) && (fd <? next_fd tb) then fd else next_fd tb).
  assert ((if (fd >=? 3) && (fd <? next_fd (set_fd fd (mkFd 0 0) tb)) then set_next fd (set_fd fd (mkFd 0 0) tb) else set_fd fd (mkFd 0 0) tb) = set_next n (set_fd fd (mkFd 0 0) tb)) as ->.
  { unfold n. cbn [next_fd set_fd]. by destruct (_ && _). }
  destruct (put_file_ok _ _ _ _ _ (clear_slot fd n Eb Hne) (fd_get tb fd)) as (s' & -> & Hs' & Et & He).
  { right. rewrite bump_eq by done. pose proof (proj1 (fo_E _ _ _ _ _ Hf (fd_get tb fd))). lia. }
  eexists _, s'. split; [done|]. eapply desc_ok_env; [exact Hok|apply (files_ok_ext _ E T T R R Q s' (bump_back (fd_get tb fd))); done| |done].
  rewrite Et. apply tables_insert. pose proof (tk_next _ Htb). apply set_used_ok; [done| |done| |]; unfold n; destruct (Z.geb_spec fd 3), (Z.ltb_spec fd (next_fd tb)); cbn [andb]; try lia.
  all: intros i Hi Hn; apply (tk_used _ Htb); lia.
Qed.

Lemma dup_ok fd : exists r s', sys_dup t fd s = Some (r, s') /\ desc_ok E T R Q s'.
Proof.
  unfold sys_dup. rewrite Ht. cbn [mbind option_bind]. destruct (_ || _) eqn:Eb; [by eexists _, s|]. apply bad_fd in Eb.
  destruct (Z.eqb_spec (fd_get tb fd) 0) as [|Hne]; [by eexists _, s|].
  destruct (fd_alloc tb (fd_get tb fd) _) as [fd' tb'] eqn:Ea. destruct (fd_alloc_ok _ _ _ _ _ Htb Hne Ea) as (Htb' & Hl & Hc & [[-> ->]|[Hr Hs]]).
  { eexists _, _. split; [done|]. rewrite insert_id by done. by destruct s. }
  rewrite (proj2 (Z.ltb_ge fd' 0)) by lia. rewrite get_file_tables.
  destruct (get_file_ok _ _ _ _ _ Hf (fd_get tb fd)) as (s1 & -> & Hs1 & Et & Ev); [right; by apply slot_file|]. cbn [fmap option_fmap option_map mbind option_bind].
  eexists _, _. split; [done|]. rewrite <- Et. eapply desc_ok_env; [exact Hok| |cbn; rewrite Et; by apply tables_insert|cbn; by rewrite Ev].
  apply (table_change _ _ _ _ _ Hs1 E t tb); [by rewrite Et|done|done|by apply (null_uncounted E T R Q s)|].
  intros g Hg. rewrite (Hs g Hg). pose proof (proj1 (fo_E _ _ _ _ _ Hf g)). unfold one.
  destruct (decide (fd_get tb fd = g)) as [->|]; [rewrite bump_eq by done|rewrite bump_ne by congruence]; lia.
Qed.

Lemma set_fd_ok fd e : 0 <= fd < PROC_MAX_FDS -> fd_file e <> 0 -> table_ok (set_fd fd e tb).
Proof.
  intros Hfd He. rewrite <- (set_next_id (set_fd fd e tb)). pose proof (tk_next _ Htb). apply set_used_ok; [done|done|done| |by left].
  intros i Hi _. by apply (tk_used _ Htb).
Qed.

(** What [dup2] does before the new slot is set: the old file of the slot is released. *)
Lemma release_slot fd : 0 <= fd < PROC_MAX_FDS ->
  exists s1 tb1, (if negb (fd_get tb fd =? 0) then put_file (fd_get tb fd) (with_tables (<[t := set_fd fd (mkFd 0 0) tb]> (tables s)) s) else Some s) = Some s1 /\
    files_ok E T R Q s1 /\ same_env (vfs_of s) (vfs_of s1) /\ tables s1 = <[t := tb1]> (tables s) /\ length (fds tb1) = length (fds tb) /\
    fd_file (fd_at tb1 fd) = 0 /\ (forall e, set_fd fd e tb1 = set_fd fd e tb) /\ (forall i, 0 <= i -> i <> fd -> fd_at tb1 i = fd_at tb i).
Proof.
  intros Hfd. destruct (fd_get_slot fd Hfd) as [Eg _]. destruct (Z.eqb_spec (fd_get tb fd) 0) as [E0|Hne]; cbn [negb].
  { exists s, tb. split_and!; try done; [by rewrite insert_id|congruence]. }
  pose proof (clear_slot fd (next_fd tb) Hfd Hne) as Hc. change (set_next (next_fd tb) (set_fd fd (mkFd 0 0) tb)) with (set_fd fd (mkFd 0 0) tb) in Hc.
  destruct (put_file_ok _ _ _ _ _ Hc (fd_get tb fd)) as (s1 & -> & Hs1 & Et & He).
  { right. rewrite bump_eq by done. pose proof (proj1 (fo_E _ _ _ _ _ Hf (fd_get tb fd))). lia. }
  exists s1, (set_fd fd (mkFd 0 0) tb). split_and!; [done|exact (files_ok_ext _ E T T R R Q s1 (bump_back (fd_get tb fd)) (fun _ => eq_refl) (fun _ => eq_refl) Hs1)|done|done|apply set_fd_len|..].
  - rewrite fd_at_set by (rewrite ?(table_max tb Htb); lia). by rewrite decide_True.
  - intros e. unfold set_fd. cbn. by rewrite list_insert_insert_eq.
  - intros i Hi Hn. rewrite fd_at_set by (rewrite ?(table_max tb Htb); lia). by rewrite decide_False.
Qed.

Lemma dup2_ok oldfd newfd : exists r s', sys_dup2 t oldfd newfd s = Some (r, s') /\ desc_ok E T R Q s'.
Proof.
  unfold sys_dup2. rewrite Ht. cbn [mbind option_bind]. destruct (_ || _) eqn:Eb; [by eexists _, s|]. apply bad_fd in Eb.
  destruct (_ || _) eqn:Eb2 at 1; [by eexists _, s|]. apply bad_fd in Eb2.
  destruct (Z.eqb_spec (fd_get tb oldfd) 0) as [|Hne]; [by eexists _, s|]. destruct (Z.eqb_spec oldfd newfd) as [|Hd]; [by eexists _, s|].
  destruct (release_slot newfd Eb2) as (s1 & tb1 & -> & Hs1 & He1 & Et1 & Hl1 & H0 & Hset & Hat). cbn [mbind option_bind].
  assert (Ht1 : tables s1 !! t = Some tb1) by (rewrite Et1; apply lookup_insert_eq).
  destruct (fd_get_slot oldfd Eb) as [Eg _]. assert (Hm1 : max_fds tb1 = PROC_MAX_FDS) by (unfold max_fds; rewrite Hl1; apply (table_max tb Htb)).
  destruct (get_file_ok _ _ _ _ _ Hs1 (fd_get tb oldfd)) as (s2 & -> & Hs2 & Et2 & Ev2).
  { right. rewrite Eg, <- (Hat oldfd) by lia. apply (fo_live _ _ _ _ _ Hs1 t tb1 _ Ht1); [|rewrite Hat by lia; congruence].
    apply (list_elem_of_lookup_2 _ (Z.to_nat oldfd)), fd_at_lookup. lia. }
  cbn [mbind option_bind]. rewrite Et2, Ht1. cbn [mbind option_bind]. eexists _, _. split; [done|].
  set (e := mkFd _ _). eapply desc_ok_env; [exact Hok| | |cbn; by rewrite Ev2].
  - rewrite <- Et2. apply (table_change _ _ _ _ _ Hs2 E t tb1); [by rewrite Et2|apply set_fd_len|done|by apply (null_uncounted E T R Q s)|].
    intros g Hg. rewrite slots_set by lia. rewrite H0, (one_False (0 = g)) by congruence. cbn [fd_file e]. pose proof (proj1 (fo_E _ _ _ _ _ Hf g)). unfold one.
    destruct (decide (fd_get tb oldfd = g)) as [->|]; [rewrite bump_eq by done|rewrite bump_ne by congruence]; lia.
  - cbn. rewrite Et1, insert_insert_eq, Hset. apply tables_insert. by apply set_fd_ok.
Qed.
End Calls.

(** ** Copying and releasing a table *)

Definition held (E : Z -> Z) (l : list fd_entry) (n : Z) : Z -> Z := fold_left (fun E e => bump E (fd_file e) n) l E.

Lemma held_count n l : forall E f, held E l n f = if f =? 0 then E f else E f + n * Z.of_nat (length (filter (fun e => fd_file e = f) l)).
Proof.
  induction l as [|e l IH]; intros E f; [cbn; destruct (f =? 0); lia|]. change (held E (e :: l) n f) with (held (bump E (fd_file e) n) l n f). rewrite IH, filter_cons. unfold bump.
  destruct (Z.eqb_spec f 0) as [->|]; cbn [negb]; [rewrite andb_false_r; lia|]. rewrite andb_true_r. destruct (Z.eqb_spec f (fd_file e)), (decide (fd_file e = f)); cbn [length]; try congruence; lia.
Qed.

Lemma get_all_ok T R Q t tb l : forall E s, files_ok E T R Q s -> tables s !! t = Some tb -> (forall e, e ∈ l -> e ∈ fds tb) ->
  exists s', get_all l s = Some s' /\ files_ok (held E l 1) T R Q s' /\ tables s' = tables s /\ vfs_of s' = vfs_of s.
Proof.
  induction l as [|e l IH]; intros E s Hok Ht Hl; [by exists s|]. cbn [get_all].
  destruct (get_file_ok _ _ _ _ _ Hok (fd_file e)) as (s1 & -> & Hs1 & Et & Ev).
  { destruct (decide (fd_file e = 0)); [by left|right]. apply (fo_live _ _ _ _ _ Hok t tb e Ht); [|done]. apply Hl. left. }
  cbn [mbind option_bind]. destruct (IH _ s1 Hs1) as (s' & -> & Hs' & Et' & Ev'); [by rewrite Et|intros x Hx; apply Hl; by right|].
  exists s'. split_and!; [done|done|congruence|congruence].
Qed.

Lemma put_all_ok T R Q l : forall E s, files_ok E T R Q s -> (forall f, f <> 0 -> Z.of_nat (length (filter (fun e => fd_file e = f) l)) <= E f) ->
  exists s', put_all l s = Some s' /\ files_ok (held E l (-1)) T R Q s' /\ tables s' = tables s /\ same_env (vfs_of s) (vfs_of s').
Proof.
  induction l as [|e l IH]; intros E s Hok Hl; [by exists s|]. cbn [put_all].
  destruct (put_file_ok _ _ _ _ _ Hok (fd_file e)) as (s1 & -> & Hs1 & Et & Ev).
  { destruct (decide (fd_file e = 0)) as [|Hne]; [by left|right]. specialize (Hl _ Hne). rewrite filter_cons, decide_True in Hl by done. cbn [length] in Hl. lia. }
  cbn [mbind option_bind]. destruct (IH _ s1 Hs1) as (s' & -> & Hs' & Et' & Ev').
  { intros f Hf. specialize (Hl f Hf). rewrite filter_cons in Hl. destruct (decide (fd_file e = f)) as [->|]; [rewrite bump_eq by done; cbn [length] in Hl|rewrite bump_ne by congruence]; lia. }
  exists s'. split_and!; [done|done|congruence|by eapply same_env_trans].
Qed.

Lemma allocs_files E T R Q s l : files_ok E T R Q s -> files_ok E T R Q (with_vfs (with_allocs l (vfs_of s)) s).
Proof. intros [H1 H2 H3 H4 H5 H6 H7]. split; try done. by apply allocs_ok. Qed.

Lemma allocs_desc E T R Q s l : desc_ok E T R Q s -> desc_ok E T R Q (with_vfs (with_allocs l (vfs_of s)) s).
Proof. intros Hok. eapply desc_ok_env; [exact Hok|apply allocs_files, (do_files _ _ _ _ _ Hok)|apply (do_tables _ _ _ _ _ Hok)|done]. Qed.

(** Only the files of the slots matter. *)
Lemma slots_eq tb tb' f : fd_file <$> fds tb' = fd_file <$> fds tb -> slots tb' f = slots tb f.
Proof.
  unfold slots. intros H. assert (Hc : forall l l' : list fd_entry, fd_file <$> l' = fd_file <$> l -> length (filter (fun e => fd_file e = f) l') = length (filter (fun e => fd_file e = f) l)).
  { induction l as [|e l IH]; intros [|e' l'] Hl; try done. injection Hl as He Hl. rewrite !filter_cons, He. specialize (IH l' Hl). destruct (decide (fd_file e = f)); cbn [length]; lia. }
  by rewrite (Hc _ _ H).
Qed.

Lemma table_ok_eq tb tb' : fd_file <$> fds tb' = fd_file <$> fds tb -> next_fd tb' = next_fd tb -> table_ok tb -> table_ok tb'.
Proof.
  intros H En [H1 H2 H3]. split.
  - rewrite <- H1. apply (f_equal length) in H. by rewrite !length_fmap in H.
  - by rewrite En.
  - rewrite En. intros i Hi. specialize (H3 i Hi). apply (f_equal (.!! Z.to_nat i)) in H. rewrite !list_lookup_fmap in H. unfold fd_at in *. rewrite nth_lookup in *.
    destruct (fds tb' !! _), (fds tb !! _); cbn in *; congruence.
Qed.

(** [T] with one process more for a table. *)
Lemma table_rc E T R Q s t tb n : desc_ok E T R Q s -> tables s !! t = Some tb -> 0 < T t + n ->
  desc_ok E (bump T t n) R Q (with_tables (<[t := mkTable (fds tb) (next_fd tb) (tb_refcount tb + n)]> (tables s)) s).
Proof.
  intros Hok Ht Hn. pose proof (do_files _ _ _ _ _ Hok) as Hf. destruct (fo_table _ _ _ _ _ Hf t tb Ht) as (Ht0 & Hl & Hc & Hp).
  eapply desc_ok_env; [exact Hok| |apply (tables_insert _ _ _ _ _ _ Hok), (table_ok_eq tb); try done; by apply (do_tables _ _ _ _ _ Hok t)|done].
  apply (tables_change E T R Q s Hf); [by apply (null_uncounted E T R Q s)|..].
  - intros f _. rewrite (file_refs_update _ t tb) by done. pose proof (proj1 (fo_E _ _ _ _ _ Hf f)). change (slots (mkTable _ _ _) f) with (slots tb f). lia.
  - intros t' tb'. destruct (decide (t' = t)) as [->|]; [rewrite lookup_insert_eq, bump_eq by lia; intros [= <-]; cbn; split_and!; lia|].
    rewrite lookup_insert_ne, bump_ne by done. apply (fo_table _ _ _ _ _ Hf).
  - intros t'. destruct (decide (t' = t)) as [->|]; [rewrite lookup_insert_eq, bump_eq by lia; split; [lia|by eexists]|].
    rewrite lookup_insert_ne, bump_ne by done. apply (fo_T _ _ _ _ _ Hf).
Qed.

Lemma addr_fresh {A} (m : gmap Z A) : 0 < addr_above (map_to_list m).*1 /\ m !! addr_above (map_to_list m).*1 = None.
Proof.
  split; [apply addr_above_pos|]. destruct (m !! _) as [v|] eqn:Em; [|done]. apply elem_of_map_to_list in Em.
  assert (H : addr_above (map_to_list m).*1 ∈ (map_to_list m).*1) by (apply list_elem_of_fmap; by exists (addr_above (map_to_list m).*1, v)).
  apply addr_above_spec in H. lia.
Qed.

Definition empty_table : fd_table := mkTable (replicate (Z.to_nat PROC_MAX_FDS) (mkFd 0 0)) 3 1.

Lemma empty_slots f : f <> 0 -> slots empty_table f = 0.
Proof. intros Hf. apply slots_zero. intros e He. apply elem_of_replicate in He as [-> _]. cbn. congruence. Qed.

Lemma empty_table_ok : table_ok empty_table.
Proof. split; [apply length_replicate|done|cbn; lia]. Qed.

(** A table of a new process, for the time being empty. *)
Lemma table_create_ok E T R Q s : desc_ok E T R Q s ->
  exists t s', fd_table_create s = (t, s') /\
    (t = 0 /\ desc_ok E T R Q s' \/
     0 < t /\ tables s !! t = None /\ tables s' = <[t := empty_table]> (tables s) /\ desc_ok E (bump T t 1) R Q s').
Proof.
  intros Hok. unfold fd_table_create. destruct (take_alloc (vfs_of s)) as [ok v] eqn:Ev. apply take_alloc_spec in Ev as [l ->].
  destruct ok; cbn [negb]; [|eexists _, _; split; [done|]; left; split; [done|by apply allocs_desc]].
  destruct (take_alloc _) as [ok v'] eqn:Ev. apply take_alloc_spec in Ev as [l' ->]. change (with_allocs l' (with_allocs l (vfs_of s))) with (with_allocs l' (vfs_of s)).
  destruct ok; cbn [negb]; [|eexists _, _; split; [done|]; left; split; [done|by apply allocs_desc]].
  destruct (addr_fresh (tables s)) as [Ht0 Ht]. set (t := addr_above _) in *. fold empty_table. eexists _, _. split; [done|]. right. split_and!; [done|done|done|].
  assert (HT : T t = 0) by (destruct (decide (T t = 0)) as [|Hne]; [done|]; destruct (proj2 (fo_T _ _ _ _ _ (do_files _ _ _ _ _ Hok) t) Hne); congruence).
  pose proof (allocs_files _ _ _ _ _ l' (do_files _ _ _ _ _ Hok)) as Hf.
  eapply desc_ok_env; [exact Hok| |apply (tables_insert _ _ _ _ _ _ Hok), empty_table_ok|done].
  change (with_vfs ?v (with_tables ?m s)) with (with_tables m (with_vfs v s)). apply (tables_change _ _ _ _ _ Hf); [by apply (null_uncounted E T R Q s), (do_files _ _ _ _ _ Hok)|..].
  - intros f Hf0. rewrite file_refs_new by done. rewrite empty_slots by done. pose proof (proj1 (fo_E _ _ _ _ _ Hf f)). cbn [tables with_vfs]. lia.
  - intros t' tb'. destruct (decide (t' = t)) as [->|]; [rewrite lookup_insert_eq, bump_eq by lia; intros [= <-]; rewrite HT; done|].
    rewrite lookup_insert_ne, bump_ne by done. apply (fo_table _ _ _ _ _ Hf).
  - intros t'. destruct (decide (t' = t)) as [->|]; [rewrite lookup_insert_eq, bump_eq, HT by lia; split; [done|by eexists]|].
    rewrite lookup_insert_ne, bump_ne by done. apply (fo_T _ _ _ _ _ Hf).
Qed.

(** The child of a fork has a table with the same files, or shares the table. *)
Lemma copy_files_ok E T R Q s t tb share : desc_ok E T R Q s -> tables s !! t = Some tb ->
  exists c s', copy_files t share s = Some (c, s') /\
    (c = 0 /\ desc_ok E T R Q s' \/
     0 < c /\ desc_ok E (bump T c 1) R Q s' /\ exists tb', tables s' !! c = Some tb' /\ fd_file <$> fds tb' = fd_file <$> fds tb).
Proof.
  intros Hok Ht. unfold copy_files. destruct share.
  { rewrite Ht. cbn [mbind option_bind]. destruct (fo_table _ _ _ _ _ (do_files _ _ _ _ _ Hok) t tb Ht) as (Ht0 & _ & _ & Hp). eexists _, _. split; [done|]. right. split; [done|].
    split; [by apply table_rc; [..|lia]|]. eexists. split; [apply lookup_insert_eq|done]. }
  unfold fd_table_clone. destruct (table_create_ok _ _ _ _ _ Hok) as (c & s1 & -> & [[-> H1]|(Hc0 & Hc & Et1 & H1)]); [eexists _, _; split; [done|by left]|].
  rewrite (proj2 (Z.eqb_neq c 0)) by lia. assert (Hct : c <> t) by congruence. assert (Ht1 : tables s1 !! t = Some tb) by (rewrite Et1, lookup_insert_ne; done).
  rewrite Ht1. cbn [mbind option_bind]. pose proof (do_files _ _ _ _ _ H1) as Hf1.
  destruct (get_all_ok _ _ _ t tb (fds tb) _ _ Hf1 Ht1 ltac:(done)) as (s2 & -> & Hf2 & Et2 & Ev2). cbn [mbind option_bind].
  set (entries := _ <$> fds tb). assert (He : fd_file <$> entries = fd_file <$> fds tb).
  { unfold entries. rewrite <- list_fmap_compose. apply list_fmap_ext. intros i e _. cbn. by destruct (Z.eqb_spec (fd_file e) 0) as [->|]. }
  eexists _, _. split; [done|]. right. split; [done|]. split; [|eexists; split; [apply lookup_insert_eq|done]].
  eapply desc_ok_env; [exact H1| |cbn; rewrite Et2; apply (tables_insert _ _ _ _ _ _ H1), (table_ok_eq tb); try done; by apply (do_tables _ _ _ _ _ Hok t)|cbn; by rewrite Ev2].
  apply (table_change _ _ _ _ _ Hf2 E c empty_table); [by rewrite Et2, Et1, lookup_insert_eq| |done|by apply (null_uncounted _ _ _ _ _ Hf1)|].
  - cbn [fds]. apply (f_equal length) in He. rewrite !length_fmap in He. rewrite He, (tk_len _ (do_tables _ _ _ _ _ Hok t tb Ht)). symmetry. apply length_replicate.
  - intros f Hf. rewrite held_count, (proj2 (Z.eqb_neq f 0)), empty_slots, (slots_eq tb) by done. unfold slots. pose proof (proj1 (fo_E _ _ _ _ _ Hf1 f)). lia.
Qed.

Lemma delete_table_ok E T R Q s t tb : desc_ok E T R Q s -> tables s !! t = Some tb -> T t = 1 ->
  desc_ok (held E (fds tb) 1) (bump T t (-1)) R Q (with_tables (delete t (tables s)) s).
Proof.
  intros Hok Ht HT. pose proof (do_files _ _ _ _ _ Hok) as Hf. destruct (fo_table _ _ _ _ _ Hf t tb Ht) as (Ht0 & _).
  eapply desc_ok_env; [exact Hok| |apply map_Forall_delete, (do_tables _ _ _ _ _ Hok)|done].
  apply (tables_change E T R Q s Hf).
  - rewrite held_count. cbn. by apply (null_uncounted E T R Q s).
  - intros f Hf0. rewrite held_count, (proj2 (Z.eqb_neq f 0)), (file_refs_delete (tables s) t tb) by done. unfold slots. pose proof (proj1 (fo_E _ _ _ _ _ Hf f)). lia.
  - intros t' tb' [Hne Ht']%lookup_delete_Some. rewrite bump_ne by done. by apply (fo_table _ _ _ _ _ Hf).
  - intros t'. destruct (decide (t' = t)) as [->|]; [rewrite bump_eq by lia; split; lia|]. rewrite lookup_delete_ne, bump_ne by done. apply (fo_T _ _ _ _ _ Hf).
Qed.

(** The last process releases all files of the table. *)
Lemma table_free_ok E T R Q s t tb : desc_ok E T R Q s -> tables s !! t = Some tb ->
  exists s', fd_table_free t s = Some s' /\ desc_ok E (bump T t (-1)) R Q s'.
Proof.
  intros Hok Ht. pose proof (do_files _ _ _ _ _ Hok) as Hf. destruct (fo_table _ _ _ _ _ Hf t tb Ht) as (Ht0 & _ & Hc & Hp). unfold fd_table_free.
  rewrite (proj2 (Z.eqb_neq t 0)), Ht by lia. cbn [mbind option_bind]. destruct (Z.eqb_spec (tb_refcount tb - 1) 0) as [E1|]; cbn [negb].
  2: { eexists. split; [done|]. apply table_rc; [done|done|lia]. }
  pose proof (delete_table_ok _ _ _ _ _ t tb Hok Ht ltac:(lia)) as Hd.
  destruct (put_all_ok _ _ _ (fds tb) _ _ (do_files _ _ _ _ _ Hd)) as (s' & Ep & Hs' & Et & Ev).
  { intros f Hf0. rewrite held_count, (proj2 (Z.eqb_neq f 0)) by done. pose proof (proj1 (fo_E _ _ _ _ _ Hf f)). lia. }
  rewrite put_all_tables in Ep. destruct (put_all (fds tb) s) as [s1|] eqn:Es1; [|done]. cbn in Ep. injection Ep as <-. cbn [mbind option_bind].
  assert (Et1 : tables s1 = tables s).
  { pose proof (put_all_tables (fds tb) (tables s) s) as Hx. rewrite Es1 in Hx. replace (with_tables (tables s) s) with s in Hx by (by destruct s). rewrite Es1 in Hx. cbn in Hx. injection Hx as ->. done. }
  rewrite Et1. eexists. split; [done|]. eapply desc_ok_env; [exact Hd| |apply (do_tables _ _ _ _ _ Hd)|done].
  eapply files_ok_ext; [| | |exact Hs']; [|done|done]. intros x. rewrite !held_count. destruct (x =? 0); lia.
Qed.

(** ** Opening a file *)

Lemma mounts_mono R R' s : (forall x, R x <= R' x) -> mounts_ok R s -> mounts_ok R' s.
Proof.
  intros HR [Hp Hr Hk]. split; [| |done].
  - intros m Hm Hn. specialize (Hp m Hm Hn). specialize (HR (mnt_mountpoint m)). lia.
  - intros m Hm Hn. specialize (Hr m Hm Hn). specialize (HR (mnt_root m)). lia.
Qed.

Lemma bump_le R c x : R x <= bump R c 1 x.
Proof. unfold bump. destruct (_ && _); lia. Qed.

Section Open.
Context (cur : option (Z * Z)) (deny : Z -> list Z -> Z -> bool) (dev_open : inode -> Z) (path : list Z) (flags mode : Z).
Hypothesis (Hn : names_fit path).

(** [c] is the entry of the file that the call created: the path led nowhere, and
    [vfs_create] made this entry, to which nothing referred before. *)
Definition created (R : Z -> Z) (v : vfs) (c : Z) : Prop :=
  has flags O_CREAT = true /\ 0 < c /\ R c = 0 /\
  exists v1 v2, vfs_lookup cur deny path v = Some (0, v1) /\ vfs_create cur deny path mode v1 = Some (0, v2) /\ named path c v2.

Lemma open_entry_ok R Q v : vfs_ok R Q v -> mounts_ok R v -> 0 < R (root_dentry v) ->
  exists r v' c, open_entry cur deny path flags mode v = Some (r, v') /\ same_env v v' /\ (c = 0 \/ created R v c) /\
    match r with inl err => err < 0 /\ vfs_ok (bump R c 1) Q v' | inr d => 0 < d /\ vfs_ok (bump (bump R c 1) d 1) Q v' end.
Proof.
  intros Hok Hm Hr. assert (HR : forall x, 0 <= R x) by (intros x; apply (ok_R _ _ _ Hok)). unfold open_entry.
  destruct (lookup_at_ok cur deny R Q v path true Hok Hm (or_intror Hr) Hn) as (d & v1 & E1 & Hok1 & He1). unfold vfs_lookup. rewrite E1. cbn [mbind option_bind].
  assert (Hpos : forall R' w x, (forall y, 0 <= R' y) -> vfs_ok (bump R' x 1) Q w -> x <> 0 -> 0 < x).
  { intros R' w x HR' Hw Hx. destruct (proj2 (ok_R _ _ _ Hw x)) as [de Hde]; [rewrite bump_eq by done; specialize (HR' x); lia|]. apply (eo_pos _ _ _ _ (ok_entry _ _ _ Hw _ de Hde)). }
  destruct (Z.eqb_spec d 0) as [->|Hd].
  - apply ok_bump_0 in Hok1. destruct (has flags O_CREAT) eqn:Ecr; cbn [negb]; [|exists (inl (- ENOENT)), v1, 0; split_and!; try done; [by left|by apply ok_bump_0]].
    assert (Er1 : root_dentry v1 = root_dentry v) by (by destruct He1 as (_ & _ & -> & _)).
    unfold vfs_create. destruct (vfs_make_ok cur deny R Q v1 path Hok1 (mounts_env _ _ _ He1 Hm) ltac:(by rewrite Er1) Hn _ _ mode (axiomfs_create_makes cur deny)) as (ret & v2 & Emk & He2 & Hret). rewrite Emk.
    cbn [mbind option_bind]. assert (He12 : same_env v v2) by (by eapply same_env_trans).
    destruct Hret as [[Hlt Hok2]|[-> (c & Hc & HRc & Hok2 & Hnm)]].
    { rewrite (proj2 (Z.ltb_lt ret 0)) by lia. exists (inl ret), v2, 0. split_and!; try done; [by left|by apply ok_bump_0]. }
    assert (Hcr : c = 0 \/ created R v c) by (right; split_and!; [done|done|done|]; by exists v1, v2).
    cbn [Z.ltb Z.compare]. assert (Er2 : root_dentry v2 = root_dentry v) by (by destruct He12 as (_ & _ & -> & _)).
    destruct (lookup_at_ok cur deny _ Q v2 path true Hok2) as (d & v3 & -> & Hok3 & He3); [eapply mounts_mono; [apply (bump_le R)|exact (mounts_env R v v2 He12 Hm)]|right; rewrite Er2; pose proof (bump_le R c (root_dentry v)); lia|done|].
    cbn [mbind option_bind]. destruct (Z.eqb_spec d 0) as [->|Hd].
    + exists (inl (- ENOENT)), v3, c. split_and!; [done|by eapply same_env_trans|done|done|]. by apply ok_bump_0 in Hok3.
    + exists (inr d), v3, c. split_and!; [done|by eapply same_env_trans|done| |done]. apply (Hpos (bump R c 1) v3 d); [apply bump_nonneg; [done|lia]|done|done].
  - destruct (has flags O_EXCL).
    + destruct (put_ok R Q v1 d HR Hok1) as (v2 & -> & Hok2 & Hk2). cbn [mbind option_bind]. exists (inl (- EEXIST)), v2, 0. split_and!; [done|eapply same_env_trans; eauto with obelisk|by left|done|]. by apply ok_bump_0.
    + exists (inr d), v1, 0. split_and!; [done|done|by left|by eapply (Hpos R)|]. eapply vfs_ok_ext; [| |exact Hok1]; [bump_ext|done].
Qed.

Lemma files_vfs E T R R' Q s v : files_ok E T R Q s -> (forall d, 0 <= R' d) -> vfs_ok (fun d => R' d + refs file_dentry (files s) d) Q v -> files_ok E T R' Q (with_vfs v s).
Proof. intros [H1 H2 H3 H4 H5 H6 H7] HR Hv. by split. Qed.

Lemma add_file_ok E T R R' Q s v f fe : files_ok E T R Q s -> (forall d, 0 <= R' d) -> 0 < f -> files s !! f = None -> f_count fe = 1 -> 0 < f_dentry fe ->
  vfs_ok (bump (fun d => R' d + refs file_dentry (files s) d) (f_dentry fe) 1) Q v -> files_ok (bump E f 1) T R' Q (with_vfs v (with_files (<[f := fe]> (files s)) s)) /\ E f = 0 /\ file_refs (tables s) f = 0.
Proof.
  intros [H1 H2 H3 H4 H5 _ _] HR Hf0 Hf Hc Hd Hv.
  assert (HE : E f = 0) by (destruct (decide (E f = 0)) as [|Hne]; [done|]; destruct (proj2 (H2 f) Hne); congruence).
  assert (Hr : file_refs (tables s) f = 0) by (apply file_refs_zero; intros t tb e Ht He <-; destruct (H4 t tb e Ht He ltac:(lia)); congruence).
  split; [|done]. split; cbn.
  - intros g ge. destruct (decide (g = f)) as [->|]; [rewrite lookup_insert_eq, bump_eq by lia; intros [= <-]; lia|]. rewrite lookup_insert_ne, bump_ne by done. apply H1.
  - intros g. destruct (decide (g = f)) as [->|]; [rewrite lookup_insert_eq, bump_eq by lia; split; [lia|by eexists]|]. rewrite lookup_insert_ne, bump_ne by done. apply H2.
  - done.
  - intros t tb e Ht He Hne. rewrite lookup_insert_is_Some'. right. by apply (H4 t tb e).
  - done.
  - done.
  - eapply vfs_ok_ext; [| |exact Hv]; [|done]. intros x. rewrite refs_new by done. unfold bump, one. change (file_dentry f fe) with (f_dentry fe).
    destruct (Z.eqb_spec x (f_dentry fe)), (Z.eqb_spec x 0), (decide (f_dentry fe = x)); cbn; try congruence; lia.
Qed.

Lemma bump_plus R (g : Z -> Z) c n x : bump (fun d => R d + g d) c n x = bump R c n x + g x.
Proof. unfold bump. lia. Qed.

Section At.
Context (E T R Q : Z -> Z) (s : fstate).
Hypothesis Hok : desc_ok E T R Q s.

Let Hf : files_ok E T R Q s := do_files _ _ _ _ _ Hok.
Let rf (d : Z) : Z := refs file_dentry (files s) d.

(** The entry created, if any, where the references are those from outside and
    those of the open files. *)
Definition makes_entry (c : Z) : Prop := c = 0 \/ created (fun x => R x + refs file_dentry (files s) x) (vfs_of s) c.

(** Giving up after the entry was found. *)
Lemma open_fail c d v ret : makes_entry c -> ret < 0 -> same_env (vfs_of s) v -> vfs_ok (bump (bump (fun x => R x + rf x) c 1) d 1) Q v ->
  exists r s' c, (v ← dput d v; Some (ret, with_vfs v s)) = Some (r, s') /\ tables s' = tables s /\ same_env (vfs_of s) (vfs_of s') /\ makes_entry c /\
    (r < 0 /\ files_ok E T (bump R c 1) Q s' \/
     0 < r /\ files_ok (bump E r 1) T (bump R c 1) Q s' /\ E r = 0 /\ file_refs (tables s) r = 0 /\ exists fe, files s' !! r = Some fe /\ f_count fe = 1).
Proof.
  intros Hcr Hret He Hv. assert (HR : forall x, 0 <= R x + rf x) by (intros x; pose proof (fo_R _ _ _ _ _ Hf x); pose proof (refs_nonneg file_dentry (files s) x); unfold rf; lia).
  destruct (put_ok _ Q v d (bump_nonneg _ c 1 HR ltac:(lia)) Hv) as (v' & -> & Hv' & Hk). cbn [mbind option_bind]. exists ret, (with_vfs v' s), c.
  split_and!; [done|done|eapply same_env_trans; [done|by apply kept_env]|done|]. left. split; [done|]. apply (files_vfs E T R _ Q s v' Hf); [apply bump_nonneg; [apply (fo_R _ _ _ _ _ Hf)|lia]|].
  eapply vfs_ok_ext; [| |exact Hv']; [|done]. intros x. apply bump_plus.
Qed.

Lemma vfs_open_ok : exists r s' c, vfs_open cur deny dev_open path flags mode s = Some (r, s') /\ tables s' = tables s /\ same_env (vfs_of s) (vfs_of s') /\ makes_entry c /\
    (r < 0 /\ files_ok E T (bump R c 1) Q s' \/
     0 < r /\ files_ok (bump E r 1) T (bump R c 1) Q s' /\ E r = 0 /\ file_refs (tables s) r = 0 /\ exists fe, files s' !! r = Some fe /\ f_count fe = 1).
Proof.
  unfold vfs_open. pose proof (fo_R _ _ _ _ _ Hf) as HR0.
  assert (HR : forall x, R x <= R x + rf x) by (intros x; pose proof (refs_nonneg file_dentry (files s) x); unfold rf; lia).
  destruct (open_entry_ok _ Q (vfs_of s) (fo_vfs _ _ _ _ _ Hf)) as (r & v & c & -> & He & Hcr & Hr); [by eapply mounts_mono, (do_mounts _ _ _ _ _ Hok)|pose proof (do_root _ _ _ _ _ Hok); specialize (HR (root_dentry (vfs_of s))); unfold rf in *; lia|].
  cbn [mbind option_bind]. destruct r as [err|d].
  { destruct Hr as [Herr Hv]. exists err, (with_vfs v s), c. split_and!; [done|done|done|done|]. left. split; [done|]. apply (files_vfs E T R _ Q s v Hf); [by apply bump_nonneg|].
    eapply vfs_ok_ext; [| |exact Hv]; [|done]. intros x. apply bump_plus. }
  destruct Hr as [Hd Hv]. assert (HR1 : forall x, 0 <= bump (fun x => R x + rf x) c 1 x) by (apply bump_nonneg; [|lia]; intros x; specialize (HR x); specialize (HR0 x); lia).
  destruct (proj2 (ok_R _ _ _ Hv d)) as [de Hde]; [rewrite bump_eq by lia; specialize (HR1 d); unfold rf in HR1; lia|]. rewrite Hde. cbn [mbind option_bind].
  destruct (Z.eqb_spec (d_inode de) 0) as [|Hi]; [by apply (open_fail c)|].
  destruct (eo_inode _ _ _ _ (ok_entry _ _ _ Hv d de Hde) Hi) as [ino Hino]. rewrite Hino. cbn [mbind option_bind].
  destruct (has flags O_DIRECTORY && _); [by apply (open_fail c)|]. destruct (Z.ltb_spec (vfs_check_permission cur ino (access_mask flags)) 0); [by apply (open_fail c)|].
  destruct (take_alloc v) as [ok v1] eqn:Ev. apply take_alloc_spec in Ev as [l ->]. assert (Hv1 := allocs_ok _ _ _ l Hv).
  destruct ok; cbn [negb]; [|by apply (open_fail c)]. destruct (Z.ltb_spec (open_handler dev_open ino) 0); [by apply (open_fail c)|].
  destruct (addr_fresh (files s)) as [Hf0 Hfn]. set (f := addr_above _) in *. set (fe := mkFile _ _ _ _ _). eexists f, _, c. split_and!; [done|done|done|done|]. right. split; [done|].
  destruct (add_file_ok E T R (bump R c 1) Q s (with_allocs l v) f fe Hf) as (Hs & HE & Hr); try done; [by apply bump_nonneg| |].
  - eapply vfs_ok_ext; [| |exact Hv1]; [|done]. intros x. unfold bump, rf. cbn [f_dentry fe]. lia.
  - split_and!; [done|done|done|]. exists fe. split; [apply lookup_insert_eq|done].
Qed.

(** A created name is kept by its directory. *)
Lemma open_ok t tb : tables s !! t = Some tb ->
  exists r s' c, open_resolved cur deny dev_open t path flags mode s = Some (r, s') /\ makes_entry c /\ desc_ok E T (bump R c 1) Q s' /\ same_env (vfs_of s) (vfs_of s').
Proof.
  intros Ht. unfold open_resolved. destruct vfs_open_ok as (f & s1 & c & -> & Et & He & Hcr & Hr). cbn [mbind option_bind].
  assert (Hgo : forall s', files_ok E T (bump R c 1) Q s' -> map_Forall (fun _ => table_ok) (tables s') -> same_env (vfs_of s1) (vfs_of s') -> desc_ok E T (bump R c 1) Q s' /\ same_env (vfs_of s) (vfs_of s')).
  { intros s' H1 H2 H3. assert (H4 : same_env (vfs_of s) (vfs_of s')) by (by eapply same_env_trans). split; [|done]. split; [done|done|eapply mounts_mono, (mounts_env _ _ _ H4), (do_mounts _ _ _ _ _ Hok); apply bump_le|].
    destruct H4 as (_ & _ & -> & _). pose proof (bump_le R c (root_dentry (vfs_of s))). pose proof (do_root _ _ _ _ _ Hok). lia. }
  destruct Hr as [[Hlt Hs1]|(Hpos & Hs1 & HE & Hrefs & fe & Hfe & Hcnt)].
  { rewrite (proj2 (Z.ltb_lt f 0)) by lia. exists f, s1, c. split; [done|]. split; [done|]. apply Hgo; [done|rewrite Et; apply (do_tables _ _ _ _ _ Hok)|done]. }
  rewrite (proj2 (Z.ltb_ge f 0)) by lia. rewrite Et, Ht. cbn [mbind option_bind]. assert (Htb := do_tables _ _ _ _ _ Hok t tb Ht).
  destruct (fd_alloc tb f _) as [fd tb'] eqn:Ea. destruct (fd_alloc_ok _ _ _ _ _ Htb (not_eq_sym (Z.lt_neq _ _ Hpos)) Ea) as (Htb' & Hl & Hc & [[-> ->]|[Hfd Hs]]).
  - rewrite insert_id by done. rewrite <- Et. replace (with_tables (tables s1) s1) with s1 by (by destruct s1). change (- EMFILE <? 0) with true. unfold vfs_close.
    rewrite (proj2 (Z.eqb_neq f 0)), Hfe by lia. cbn [mbind option_bind]. destruct (delete_file_ok _ _ _ _ _ Hs1 f fe Hfe) as (v & -> & Hv & Hk); [rewrite bump_eq by lia; lia|done|].
    cbn [mbind option_bind]. eexists _, _, c. split; [done|]. split; [done|]. apply Hgo; [|cbn; rewrite Et; apply (do_tables _ _ _ _ _ Hok)|by apply kept_env].
    eapply files_ok_ext; [| | |exact Hv]; [|done|done]. intros x. unfold bump. destruct (_ && _); lia.
  - rewrite (proj2 (Z.ltb_ge fd 0)) by lia. eexists _, _, c. split; [done|]. split; [done|]. apply Hgo; [|apply (tables_insert _ _ _ _ _ t Hok _ Htb')|done].
    rewrite <- Et. apply (table_change _ _ _ _ _ Hs1 E t tb); [by rewrite Et|done|done|by apply (null_uncounted E T R Q s)|].
    intros g Hg. rewrite (Hs g Hg). pose proof (proj1 (fo_E _ _ _ _ _ Hf g)). unfold one.
    destruct (decide (f = g)) as [->|]; [rewrite bump_eq by done|rewrite bump_ne by congruence]; lia.
Qed.
End At.
End Open.

(** ** Runs of system calls *)

Inductive call : Type :=
| Open (path : list Z) (flags mode : Z)
| Close (fd : Z)
| Dup (fd : Z)
| Dup2 (oldfd newfd : Z)
| Fork (share : bool)
| Exit.

Section Runs.
Context (cur : option (Z * Z)) (deny : Z -> list Z -> Z -> bool) (dev_open : inode -> Z).

Definition do_call (t : Z) (c : call) (s : fstate) : option fstate :=
  match c with
  | Open path flags mode => snd <$> open_resolved cur deny dev_open t path flags mode s
  | Close fd => snd <$> sys_close t fd s
  | Dup fd => snd <$> sys_dup t fd s
  | Dup2 oldfd newfd => snd <$> sys_dup2 t oldfd newfd s
  | Fork share => snd <$> copy_files t share s
  | Exit => fd_table_free t s
  end.

(** The calls of processes, each with the table of its process; a table without
    processes makes no calls. *)
Fixpoint run_calls (l : list (Z * call)) (s : fstate) : option fstate :=
  match l with
  | [] => Some s
  | (t, c) :: l => s ← (match tables s !! t with Some _ => do_call t c s | None => Some s end); run_calls l s
  end.

Definition call_fits (c : call) : Prop := match c with Open path _ _ => names_fit path | _ => True end.

Lemma do_call_ok E Q t c s T R : call_fits c -> desc_ok E T R Q s -> is_Some (tables s !! t) ->
  exists s' T' R', do_call t c s = Some s' /\ (forall x, R x <= R' x) /\ desc_ok E T' R' Q s'.
Proof.
  intros Hc Hok [tb Ht]. destruct c as [path flags mode|fd|fd|oldfd newfd|share|]; cbn [do_call].
  - destruct (open_ok cur deny dev_open path flags mode Hc _ _ _ _ _ Hok t tb Ht) as (r & s' & c & -> & _ & H & _). exists s', T, (bump R c 1). split; [done|]. split; [apply bump_le|done].
  - destruct (close_ok _ _ _ _ _ _ _ Hok Ht fd) as (r & s' & -> & H). by exists s', T, R.
  - destruct (dup_ok _ _ _ _ _ _ _ Hok Ht fd) as (r & s' & -> & H). by exists s', T, R.
  - destruct (dup2_ok _ _ _ _ _ _ _ Hok Ht oldfd newfd) as (r & s' & -> & H). by exists s', T, R.
  - destruct (copy_files_ok _ _ _ _ _ _ _ share Hok Ht) as (k & s' & -> & [[_ H]|(_ & H & _)]); [by exists s', T, R|by exists s', (bump T k 1), R].
  - destruct (table_free_ok _ _ _ _ _ _ _ Hok Ht) as (s' & -> & H). by exists s', (bump T t (-1)), R.
Qed.

Lemma run_calls_ok E Q l : forall s T R, Forall (fun p => call_fits p.2) l -> desc_ok E T R Q s ->
  exists s' T' R', run_calls l s = Some s' /\ (forall x, R x <= R' x) /\ desc_ok E T' R' Q s'.
Proof.
  induction l as [|[t c] l IH]; intros s T R Hl Hok; [by exists s, T, R|]. apply Forall_cons in Hl as [Hc Hl]. cbn [run_calls].
  destruct (tables s !! t) as [tb|] eqn:Ht; [|by apply (IH s T R)].
  destruct (do_call_ok E Q t c s T R Hc Hok ltac:(by eexists)) as (s1 & T1 & R1 & -> & HR1 & H1). cbn [mbind option_bind].
  destruct (IH s1 T1 R1 Hl H1) as (s' & T' & R' & -> & HR' & H'). exists s', T', R'. split; [done|]. split; [|done]. intros x. specialize (HR1 x). specialize (HR' x). lia.
Qed.
End Runs.

(** C9. Descriptors count files: however the processes open, close, duplicate, fork
    and exit, and whatever fails, no call faults, and afterwards the count of every
    open file is the number of descriptors that refer to it, in all tables; a file
    is there exactly as long as there is such a descriptor; the entry of every file
    is referenced by it, so that it cannot be freed.  The names in the paths that
    are opened have at most 255 bytes. *)
Theorem descriptors_counted cur deny dev_open T R Q s l (Hok : desc_ok (fun _ => 0) T R Q s) (Hl : Forall (fun p => call_fits p.2) l) :
  exists s', run_calls cur deny dev_open l s = Some s' /\
    (forall f fe, files s' !! f = Some fe -> f_count fe = file_refs (tables s') f /\ 0 < f_count fe) /\
    (forall t tb fd, tables s' !! t = Some tb -> fd_get tb fd <> 0 -> is_Some (files s' !! fd_get tb fd)) /\
    (forall f fe, files s' !! f = Some fe -> exists de, dentries (vfs_of s') !! f_dentry fe = Some de /\ refs file_dentry (files s') (f_dentry fe) <= d_count de).
Proof.
  destruct (run_calls_ok cur deny dev_open _ Q l s T R Hl Hok) as (s' & T' & R' & -> & _ & Hok'). pose proof (do_files _ _ _ _ _ Hok') as Hf. exists s'. split_and!; [done|..].
  - intros f fe Hfe. destruct (fo_file _ _ _ _ _ Hf f fe Hfe) as (_ & _ & H & ?). split; [lia|done].
  - intros t tb fd Ht Hg. unfold fd_get in *. destruct (_ && _) eqn:Eb; [|done]. apply andb_true_iff in Eb as [E1 E2].
    apply (fo_live _ _ _ _ _ Hf t tb _ Ht); [|done]. apply (list_elem_of_lookup_2 _ (Z.to_nat fd)), fd_at_lookup. lia.
  - intros f fe Hfe. pose proof (fo_vfs _ _ _ _ _ Hf) as Hv. pose proof (refs_pos file_dentry _ _ _ Hfe) as Hp. change (file_dentry f fe) with (f_dentry fe) in Hp.
    pose proof (fo_R _ _ _ _ _ Hf (f_dentry fe)). destruct (proj2 (ok_R _ _ _ Hv (f_dentry fe))) as [de Hde]; [cbv beta; lia|]. exists de. split; [done|].
    rewrite (eo_count _ _ _ _ (ok_entry _ _ _ Hv _ _ Hde)). pose proof (refs_nonneg parent_of (dentries (vfs_of s')) (f_dentry fe)). lia.
Qed.

(** A new descriptor is the lowest one that is free, above the standard ones;
    [-EMFILE] says that none is. *)
Theorem fd_alloc_lowest tb f flags (Hok : table_ok tb) (Hf : f <> 0) :
  let '(fd, tb') := fd_alloc tb f flags in table_ok tb' /\
  (fd = - EMFILE /\ tb' = tb /\ (forall i, 3 <= i < PROC_MAX_FDS -> fd_get tb i <> 0) \/
   3 <= fd < PROC_MAX_FDS /\ fd_get tb fd = 0 /\ (forall i, 3 <= i < fd -> fd_get tb i <> 0) /\
   fd_at tb' fd = mkFd f flags /\ (forall i, 0 <= i -> i <> fd -> fd_at tb' i = fd_at tb i)).
Proof.
  destruct (fd_alloc tb f flags) as [fd tb'] eqn:Ea. split; [by eapply fd_alloc_ok|]. pose proof (table_max tb Hok) as Hm. rewrite fd_alloc_eq in Ea by done.
  assert (Hg : forall i, 0 <= i < PROC_MAX_FDS -> fd_get tb i = fd_file (fd_at tb i)).
  { intros i Hi. unfold fd_get. rewrite Hm, (proj2 (Z.ltb_lt i _)), Z.geb_leb, (proj2 (Z.leb_le 0 i)) by lia. done. }
  destruct (find_range _ _ _) as [i|] eqn:Ei; injection Ea as <- <-.
  - right. apply find_range_Some in Ei as (Hi & Hfi & Hmin). split_and!; [lia|lia|rewrite Hg by lia; lia|intros j Hj; rewrite Hg by lia; specialize (Hmin j Hj); lia|..].
    + change (fd_at (set_next (i + 1) ?x)) with (fd_at x). rewrite fd_at_set by lia. by rewrite decide_True.
    + intros j Hj Hne. change (fd_at (set_next (i + 1) ?x)) with (fd_at x). rewrite fd_at_set by lia. by rewrite decide_False.
  - left. rewrite find_range_None in Ei. split_and!; [done|done|]. intros i Hi. specialize (Ei i Hi). rewrite Hg by lia. lia.
Qed.

(** ** A first process *)

Definition files_root : fstate := mkFstate vfs_root ∅ {[1 := empty_table]}.

Lemma files_root_ok : desc_ok (fun _ => 0) (bump (fun _ => 0) 1 1) (bump (fun _ => 0) 3 1) (fun _ => 0) files_root.
Proof.
  destruct vfs_root_ok as (Hv & Hm & Hr). split; [|apply map_Forall_singleton, empty_table_ok|done|done].
  split; cbn [files files_root tables vfs_of].
  - intros f fe. by rewrite lookup_empty.
  - done.
  - intros t tb [<- <-]%lookup_singleton_Some. by split_and!.
  - intros t tb e [<- <-]%lookup_singleton_Some He Hne. apply elem_of_replicate in He as [-> _]. done.
  - intros t. unfold bump. destruct (Z.eqb_spec t 1) as [->|]; cbn; [split; [done|]; intros _; rewrite lookup_singleton_eq; by eexists|done].
  - intros d. unfold bump. destruct (_ && _); lia.
  - eapply vfs_ok_ext; [| |exact Hv]; [|done]. intros x. rewrite refs_none; [lia|]. intros k w. by rewrite lookup_empty.
Qed.

(** "/a" is created; the child shares the file and closes it, and both exit. *)
Definition calls_a : list (Z * call) := [(1, Open [47; 97] O_CREAT 420); (1, Dup 3); (1, Fork false); (2, Dup2 3 1); (2, Close 3); (1, Exit); (2, Exit)].

Lemma descriptors_counted_witness : exists s', run_calls None (fun _ _ _ => false) (fun _ => 0) calls_a files_root = Some s' /\
  (forall f fe, files s' !! f = Some fe -> f_count fe = file_refs (tables s') f /\ 0 < f_count fe).
Proof.
  assert (Hl : Forall (fun p => call_fits p.2) calls_a) by (repeat constructor; cbn; lia).
  destruct (descriptors_counted None (fun _ _ _ => false) (fun _ => 0) _ _ _ files_root calls_a files_root_ok Hl) as (s' & E & H & _).
  exists s'. split; [exact E|exact H].
Defined.

Lemma fd_alloc_lowest_witness : let '(fd, tb') := fd_alloc empty_table 7 0 in table_ok tb' /\ fd = 3.
Proof.
  pose proof (fd_alloc_lowest empty_table 7 0 empty_table_ok ltac:(done)) as H. destruct (fd_alloc empty_table 7 0) as [fd tb'] eqn:E. destruct H as [H _]. split; [exact H|].
  vm_compute in E. by injection E.
Defined.

(** ** References that are lost or dropped twice *)

(** A request to a file drops the reference of the descriptor: the file is freed
    while the descriptor still refers to it, and closing it faults. *)
Lemma ioctl_frees_file : exists s1 s2, open_resolved None (fun _ _ _ => false) (fun _ => 0) 1 [47; 97] O_CREAT 420 files_root = Some (3, s1) /\
  sys_ioctl 1 3 None s1 = Some (None, s2) /\ size (files s1) = 1%nat /\ files s2 = ∅ /\ sys_close 1 3 s2 = None.
Proof. eexists _, _. split; [vm_compute; reflexivity|]. split; [vm_compute; reflexivity|]. vm_compute. done. Qed.

(** A descriptor closed by [execve] leaves its file open, without any descriptor. *)
Lemma close_on_exec_leaks : exists s1 s2, open_resolved None (fun _ _ _ => false) (fun _ => 0) 1 [47; 97] (Z.lor O_CREAT O_CLOEXEC) 420 files_root = Some (3, s1) /\
  close_on_exec 1 s1 = Some s2 /\ size (files s2) = 1%nat /\ file_refs (tables s2) 1 = 0.
Proof. eexists _, _. split; [vm_compute; reflexivity|]. split; [vm_compute; reflexivity|]. vm_compute. done. Qed.
