(* ===== verification/Paths.v ===== *)
(** * Paths of user programs (arch/x86_64/process/syscall.c)

    A system call that takes a path copies it from user memory, checks it, makes it
    absolute with the directory of the process, and hands it to the file system.

    A kernel buffer is the list of the bytes stored in it so far, a C string in it
    the bytes before the first zero byte, and a path the list of its bytes.
    [user] is the memory of the process: the byte at an address, or [None] where
    the process may not read; a copy of several bytes fails as a whole. *)

From S2P Require Import Prelude Errno Support Printf Dentry Namei Files.

Abbreviation ERANGE := 34%Z (only parsing).
Abbreviation ENAMETOOLONG := 36%Z (only parsing).
Abbreviation ENOSYS := 38%Z (only parsing).
Abbreviation PATH_MAX := 4096%Z (only parsing).
Abbreviation AT_FDCWD := (-100)%Z (only parsing).

(** The bytes before the first zero byte; without one, the string does not end. *)
Fixpoint c_string (buf : list Z) : option (list Z) :=
  match buf with
  | [] => None
  | c :: buf => if c =? 0 then Some [] else s ← c_string buf; Some (c :: s)
  end.

(** What a process has of the file system. *)
Record process := mkProc { p_cwd : Z; p_root : Z; p_files : Z }.

(** ** Strings of the user *)

Section User.
Context (user : Z -> option Z).

Definition copy_from_user (src n : Z) : option (list Z) := mapM user (seqZ src n).

(** The loop over the chunks, from [buf] on: an error or the buffer. *)
Fixpoint copy_chunks (fuel : nat) (ptr cap : Z) (buf : list Z) : option (sum Z (list Z)) :=
  match fuel with
  | O => None
  | S fuel =>
    let off := Z.of_nat (length buf) in
    if negb (off <? cap) then Some (inl (- ENAMETOOLONG)) else
    let chunk := if cap - off >? 64 then 64 else cap - off in
    match copy_from_user (ptr + off) chunk with
    | None => Some (inl (- EFAULT))
    | Some bytes =>
      nul_at ← zig_first_zero_byte (Some bytes) chunk;
      if nul_at >=? 0 then Some (inr (buf ++ bytes)) else copy_chunks fuel ptr cap (buf ++ bytes)
    end
  end.

Definition copy_user_cstring (ptr cap : Z) : option (sum Z (list Z)) :=
  if (ptr =? 0) || (cap =? 0) then Some (inl (- EFAULT)) else copy_chunks (S (Z.to_nat cap)) ptr cap [].

Definition kernel_user_cstring_ok (kstr : list Z) (cap : Z) : option Z :=
  if cap =? 0 then Some (- EINVAL) else
  r ← zig_kernel_cstring_no_control (Some kstr) cap; Some (if negb (r =? 0) then - EINVAL else 0).

(** ** The path of a directory *)

(** The names from [d] up to the root, in front of [acc]; the buffer has [PATH_MAX]
    bytes and is filled from its end. *)
Fixpoint path_up (fuel : nat) (root d : Z) (acc : list Z) (s : vfs) : option (sum Z (list Z)) :=
  match fuel with
  | O => None
  | S fuel =>
    if (d =? 0) || (d =? root) then Some (inr acc) else
    de ← dentries s !! d;
    let n := Z.of_nat (length (d_name de)) in
    if n =? 0 then Some (inr acc) else
    if PATH_MAX - 1 - Z.of_nat (length acc) <=? n then Some (inl (- ENAMETOOLONG)) else
    path_up fuel root (d_parent de) (47 :: d_name de ++ acc) s
  end.

(** Every round stores at least two bytes. *)
Definition dentry_path (root d : Z) (s : vfs) : option (sum Z (list Z)) :=
  r ← path_up (Z.to_nat PATH_MAX) root d [] s;
  Some (match r with inr [] => inr [47] | r => r end).

Definition process_getcwd_path (p : process) (size : Z) (s : vfs) : option (sum Z (list Z)) :=
  if size =? 0 then Some (inl (- EINVAL)) else
  if (p_cwd p =? 0) || (p_root p =? 0) || (p_cwd p =? p_root p) then Some (if size <? 2 then inl (- ERANGE) else inr [47]) else
  r ← dentry_path (p_root p) (p_cwd p) s;
  Some (match r with inr path => if Z.of_nat (length path) + 1 >? size then inl (- ERANGE) else inr path | inl err => inl err end).

(** ** Absolute paths *)

(** [snprintf(out, out_size, fmt, ...)] and the test of its result. *)
Definition print_path (out_size : Z) (fmt : list Z) (args : list arg) : option (sum Z (list Z)) :=
  out ← vsnprintf out_size fmt args;
  Some (if Z.of_nat (length out) >=? out_size then inl (- ENAMETOOLONG) else inr out).

Definition resolve_user_path (p : process) (path : list Z) (out_size : Z) (s : vfs) : option (sum Z (list Z)) :=
  if out_size =? 0 then Some (inl (- EFAULT)) else
  if decide (head path = Some 47) then
    Some (if Z.of_nat (length path) + 1 >? out_size then inl (- ENAMETOOLONG) else inr path)
  else
    r ← process_getcwd_path p PATH_MAX s;
    match r with
    | inl err => Some (inl err)
    | inr cwd =>
      if decide (cwd = [47]) then print_path out_size [47; 37; 115] [AStr (Some path)]
      else print_path out_size [37; 115; 47; 37; 115] [AStr (Some cwd); AStr (Some path)]
    end.

Definition resolve_user_at_path (p : process) (dirfd : Z) (path : list Z) (out_size : Z) (s : fstate) : option (sum Z (list Z)) :=
  if (dirfd =? AT_FDCWD) || bool_decide (head path = Some 47) then resolve_user_path p path out_size (vfs_of s) else
  if p_files p =? 0 then Some (inl (- EBADF)) else
  if dirfd <? 0 then Some (inl (- ENOSYS)) else
  tb ← tables s !! p_files p;
  let df := fd_get tb dirfd in
  if df =? 0 then Some (inl (- EBADF)) else
  fe ← files s !! df;
  if f_dentry fe =? 0 then Some (inl (- EBADF)) else
  de ← dentries (vfs_of s) !! f_dentry fe;
  if d_inode de =? 0 then Some (inl (- EBADF)) else
  r ← (if (f_dentry fe =? p_root p) || (d_parent de =? 0) then Some (inr [47]) else dentry_path (p_root p) (f_dentry fe) (vfs_of s));
  match r with
  | inl err => Some (inl err)
  | inr base =>
    if decide (path = []) then print_path out_size [37; 115] [AStr (Some base)] else
    if decide (base = [47]) then resolve_user_path p (if decide (head path = Some 47) then path else [47]) out_size (vfs_of s) else
    print_path out_size [37; 115; 47; 37; 115] [AStr (Some base); AStr (Some path)]
  end.

(** A path of the user, copied and checked. *)
Definition user_path (ptr : Z) : option (sum Z (list Z)) :=
  r ← copy_user_cstring ptr PATH_MAX;
  match r with
  | inl err => Some (inl err)
  | inr kpath => ret ← kernel_user_cstring_ok kpath PATH_MAX;
                 if ret <? 0 then Some (inl ret) else str ← c_string kpath; Some (inr str)
  end.

Definition resolve_user_path_checked (p : process) (ptr out_size : Z) (s : vfs) : option (sum Z (list Z)) :=
  r ← user_path ptr;
  match r with inl err => Some (inl err) | inr str => resolve_user_path p str out_size s end.

Definition resolve_user_at_path_checked (p : process) (dirfd ptr out_size : Z) (s : fstate) : option (sum Z (list Z)) :=
  r ← user_path ptr;
  match r with inl err => Some (inl err) | inr str => resolve_user_at_path p dirfd str out_size s end.

Definition chars_dev : list Z := [47; 100; 101; 118; 47].
Definition chars_input : list Z := chars_dev ++ [105; 110; 112; 117; 116; 47].

(** "/dev/input/mice" and the like; the replacements are shorter than any buffer. *)
Definition apply_input_path_alias (path : list Z) : list Z :=
  let mice := [109; 105; 99; 101] in
  let event := [101; 118; 101; 110; 116] in
  if decide (path = chars_input ++ mice) then chars_dev ++ mice else
  if decide (path = chars_input ++ event ++ [48]) then chars_dev ++ event ++ [48] else
  if decide (path = chars_input ++ event ++ [49]) then chars_dev ++ event ++ [49] else
  if decide (path = chars_input ++ [109; 111; 117; 115; 101; 48]) then chars_dev ++ mice else path.

(** ** System calls *)

Section Calls.
Context (cur : option (Z * Z)) (deny : Z -> list Z -> Z -> bool) (dev_open : inode -> Z) (p : process).

Definition sys_open (ptr flags mode : Z) (s : fstate) : option (Z * fstate) :=
  if p_files p =? 0 then Some (- EBADF, s) else
  r ← resolve_user_path_checked p ptr PATH_MAX (vfs_of s);
  match r with
  | inl err => Some (err, s)
  | inr path => open_resolved cur deny dev_open (p_files p) (apply_input_path_alias path) flags mode s
  end.

Definition sys_openat (dirfd ptr flags mode : Z) (s : fstate) : option (Z * fstate) :=
  if p_files p =? 0 then Some (- EBADF, s) else
  r ← resolve_user_at_path_checked p dirfd ptr PATH_MAX s;
  match r with
  | inl err => Some (err, s)
  | inr path => open_resolved cur deny dev_open (p_files p) (apply_input_path_alias path) flags mode s
  end.

(** The process with its new directory. *)
Definition sys_chdir (ptr : Z) (s : fstate) : option (Z * process * fstate) :=
  r ← resolve_user_path_checked p ptr PATH_MAX (vfs_of s);
  match r with
  | inl err => Some (err, p, s)
  | inr path =>
    '(d, v) ← vfs_lookup cur deny path (vfs_of s);
    if d =? 0 then Some (- ENOENT, p, with_vfs v s) else
    de ← dentries v !! d;
    let fail ret := (v ← dput d v; Some (ret, p, with_vfs v s)) in
    if d_inode de =? 0 then fail (- ENOTDIR) else
    ino ← inodes v !! d_inode de;
    if negb (S_ISDIR (i_mode ino)) then fail (- ENOTDIR) else
    let ret := generic_permission cur ino MAY_EXEC in
    if ret <? 0 then fail ret else
    v ← (if negb (p_cwd p =? 0) then dput (p_cwd p) v else Some v);
    Some (0, mkProc d (p_root p) (p_files p), with_vfs v s)
  end.

(** The result and what is written at [buf]; [writable] is whether the process may
    write there. *)
Definition sys_getcwd (buf size : Z) (writable : bool) (s : fstate) : option (Z * list Z) :=
  if (buf =? 0) || (size =? 0) then Some (- EINVAL, []) else
  r ← process_getcwd_path p PATH_MAX (vfs_of s);
  match r with
  | inl err => Some (err, [])
  | inr cwd =>
    let n := Z.of_nat (length cwd) in
    if n + 1 >? size then Some (- ERANGE, []) else
    if negb writable then Some (- EFAULT, []) else Some (n + 1, cwd ++ [0])
  end.

Definition sys_name (op : list Z -> vfs -> option (Z * vfs)) (ptr : Z) (s : fstate) : option (Z * fstate) :=
  r ← resolve_user_path_checked p ptr PATH_MAX (vfs_of s);
  match r with
  | inl err => Some (err, s)
  | inr path => '(ret, v) ← op path (vfs_of s); Some (ret, with_vfs v s)
  end.

Definition sys_mkdir (ptr mode : Z) : fstate -> option (Z * fstate) := sys_name (fun path => vfs_mkdir cur deny path mode) ptr.
Definition sys_rmdir (ptr : Z) : fstate -> option (Z * fstate) := sys_name (vfs_rmdir cur deny) ptr.
Definition sys_unlink (ptr : Z) : fstate -> option (Z * fstate) := sys_name (vfs_unlink cur deny) ptr.
End Calls.
End User.
