(* ===== verification/PathsProps.v ===== *)
(** * Paths of user programs reach the file they name

    The string that a program passes is copied whole or refused; the directory of
    a process has the path that leads to it; a relative path is looked up from
    that directory; and the system calls on paths keep all references right. *)

From S2P Require Import Prelude Errno Bytes Support Printf PrintfProps Dentry DentryProps Namei NameiProps NameiTree Files FilesProps Paths.
From S2P Require SupportProps.

(** ** Strings of the user *)

Section User.
Context (user : Z -> option Z) (ptr : Z).

Definition readable (n : Z) : Prop := forall i, 0 <= i < n -> is_Some (user (ptr + i)).

Definition bytes (n : Z) : list Z := (fun i => default 0 (user (ptr + i))) <$> seqZ 0 n.

Lemma bytes_length n : 0 <= n -> Z.of_nat (length (bytes n)) = n.
Proof. intros Hn. unfold bytes. rewrite length_fmap, length_seqZ. lia. Qed.

Lemma bytes_lookup n i : 0 <= i < n -> bytes n !! Z.to_nat i = Some (default 0 (user (ptr + i))).
Proof. intros Hi. unfold bytes. rewrite list_lookup_fmap, lookup_seqZ_lt by lia. cbn. by rewrite Z.add_0_l, Z2Nat.id by lia. Qed.

Lemma copy_user_bytes off n : 0 <= off -> 0 <= n -> readable (off + n) ->
  exists l, copy_from_user user (ptr + off) n = Some l /\ Z.of_nat (length l) = n /\ bytes off ++ l = bytes (off + n).
Proof.
  intros Hoff Hn Hr. exists ((fun i => default 0 (user (ptr + i))) <$> seqZ off n). split_and!.
  - unfold copy_from_user. apply mapM_Some_2. apply Forall2_same_length_lookup_2; [by rewrite length_fmap, !length_seqZ|]. intros i x y Hx Hy.
    rewrite list_lookup_fmap in Hy. apply lookup_seqZ in Hx as [-> Hi]. rewrite lookup_seqZ_lt in Hy by lia. cbn in Hy. injection Hy as <-.
    destruct (Hr (off + Z.of_nat i)) as [c Hc]; [lia|]. rewrite Hc. cbn. by rewrite Z.add_assoc in Hc.
  - rewrite length_fmap, length_seqZ. lia.
  - unfold bytes. rewrite seqZ_app by lia. by rewrite fmap_app, Z.add_0_l.
Qed.

(** A zero byte is found in the chunk where it is. *)
Lemma chunk_zero l n : Z.of_nat (length l) = n -> exists r, zig_first_zero_byte (Some l) n = Some r /\ (r = -1 /\ 0 ∉ l \/ 0 <= r /\ 0 ∈ l).
Proof.
  intros Hl. unfold zig_first_zero_byte. destruct (SupportProps.zero_scan l n) as (r & -> & [[-> H]|(Hr & H & _)]); [lia|..]; eexists; (split; [done|]).
  - left. split; [done|]. by rewrite take_ge in H by lia.
  - right. split; [lia|]. by eapply list_elem_of_lookup_2.
Qed.

Lemma copy_chunks_total fuel cap : forall buf, Z.max 0 (cap - Z.of_nat (length buf)) < Z.of_nat fuel ->
  exists r, copy_chunks user fuel ptr cap buf = Some r /\ match r with inl err => err < 0 | inr b => 0 ∈ b /\ Z.of_nat (length b) <= cap end.
Proof.
  induction fuel as [|fuel IH]; intros buf Hf; [lia|]. cbn [copy_chunks].
  destruct (Z.ltb_spec (Z.of_nat (length buf)) cap); cbn [negb]; [|by eexists]. set (chunk := if _ >? _ then _ else _).
  assert (Hc : 0 < chunk <= cap - Z.of_nat (length buf)) by (unfold chunk; destruct (Z.gtb_spec (cap - Z.of_nat (length buf)) 64); lia).
  destruct (copy_from_user user _ chunk) as [l|] eqn:El; [|by eexists].
  assert (Hl : Z.of_nat (length l) = chunk) by (apply mapM_Some_1, Forall2_length in El; rewrite length_seqZ in El; lia).
  destruct (chunk_zero l chunk Hl) as (r & -> & [[-> _]|[Hr Hz]]); cbn [mbind option_bind].
  - apply IH. rewrite length_app. lia.
  - rewrite Z.geb_leb, (proj2 (Z.leb_le 0 r)) by lia. eexists. split; [done|]. split; [apply elem_of_app; by right|]. rewrite length_app. lia.
Qed.

(** The string [str] at [ptr]. *)
Definition user_str (str : list Z) : Prop :=
  (forall i c, str !! i = Some c -> user (ptr + Z.of_nat i) = Some c /\ c <> 0) /\ user (ptr + Z.of_nat (length str)) = Some 0.

(** How much of the memory is read: whole chunks. *)
Definition chunks_of (k cap : Z) : Z := Z.min cap (64 * (k / 64 + 1)).

Section Str.
Context (str : list Z).
Hypothesis (Hs : user_str str).

Let k : Z := Z.of_nat (length str).

Lemma bytes_str n : k < n -> exists rest, bytes n = str ++ 0 :: rest.
Proof.
  intros Hk. exists (drop (S (length str)) (bytes n)). pose proof (bytes_length n) as Hn. rewrite <- (take_drop (S (length str)) (bytes n)) at 1.
  replace (str ++ 0 :: drop (S (length str)) (bytes n)) with ((str ++ [0]) ++ drop (S (length str)) (bytes n)) by (by rewrite <- app_assoc). f_equal.
  apply list_eq. intros i. destruct (decide (i < S (length str))%nat) as [Hi|Hi].
  - rewrite lookup_take_lt by done. pose proof (bytes_lookup n (Z.of_nat i)) as Hb. rewrite Nat2Z.id in Hb. rewrite Hb by lia. destruct Hs as [H1 H2].
    destruct (decide (i = length str)) as [->|]; [rewrite H2, lookup_app_r by done; by rewrite Nat.sub_diag|].
    rewrite lookup_app_l by lia. destruct (lookup_lt_is_Some_2 str i) as [c Hc]; [lia|]. rewrite Hc. by destruct (H1 i c Hc) as [-> _].
  - rewrite lookup_take_ge by lia. rewrite lookup_ge_None_2; [done|]. rewrite length_app. cbn. lia.
Qed.

Lemma str_nonzero : 0 ∉ str.
Proof. intros [i Hi]%list_elem_of_lookup_1. by destruct (proj1 Hs i 0 Hi). Qed.

Lemma copy_chunks_str cap fuel : forall j, 0 <= j -> 64 * j <= k < cap -> readable (chunks_of k cap) -> cap - 64 * j < Z.of_nat fuel ->
  copy_chunks user fuel ptr cap (bytes (64 * j)) = Some (inr (bytes (chunks_of k cap))).
Proof.
  induction fuel as [|fuel IH]; intros j Hj Hk Hr Hf; [lia|]. cbn [copy_chunks]. rewrite bytes_length by lia. rewrite (proj2 (Z.ltb_lt _ _)) by lia. cbn [negb].
  set (chunk := if _ >? _ then _ else _). assert (Ec : chunk = Z.min 64 (cap - 64 * j)) by (unfold chunk; destruct (Z.gtb_spec (cap - 64 * j) 64); lia).
  assert (Hmono : 64 * j + chunk <= chunks_of k cap). { unfold chunks_of. pose proof (Z.div_le_mono (64 * j) k 64 ltac:(lia) ltac:(lia)) as H. rewrite Z.mul_comm, Z.div_mul in H by lia. lia. }
  destruct (copy_user_bytes (64 * j) chunk) as (l & -> & Hl & El); [lia|lia|intros i Hi; apply Hr; lia|].
  destruct (chunk_zero l chunk Hl) as (r & -> & Hz); cbn [mbind option_bind]. rewrite El.
  destruct (decide (k < 64 * j + chunk)) as [Hin|Hin].
  - destruct Hz as [[-> Hz]|[H0 _]].
    { exfalso. apply Hz. destruct (bytes_str _ Hin) as [rest E]. rewrite <- El in E. assert (Hlen := bytes_length (64 * j) ltac:(lia)).
      apply (list_elem_of_lookup_2 _ (length str - length (bytes (64 * j)))%nat). rewrite <- lookup_app_r by (unfold k in *; lia). rewrite E, lookup_app_r by done. by rewrite Nat.sub_diag. }
    rewrite Z.geb_leb, (proj2 (Z.leb_le 0 r)) by lia. do 3 f_equal. unfold chunks_of. pose proof (Z.div_mod k 64 ltac:(lia)). pose proof (Z.mod_pos_bound k 64 ltac:(lia)).
    assert (k / 64 = j) by (symmetry; apply (Z.div_unique_pos _ _ _ (k - 64 * j)); lia). lia.
  - destruct Hz as [[-> _]|[_ Hz]].
    + change (-1 >=? 0) with false. cbn iota. replace (64 * j + chunk) with (64 * (j + 1)) in * by lia. apply IH; [lia|lia|done|lia].
    + exfalso. assert (Hb : 0 ∈ bytes (64 * j + chunk)) by (rewrite <- El; apply elem_of_app; by right). apply list_elem_of_lookup_1 in Hb as [i Hi].
      pose proof (lookup_lt_Some _ _ _ Hi) as Hlt. pose proof (bytes_length (64 * j + chunk) ltac:(lia)) as Hbl. destruct (bytes_str (k + 1) ltac:(lia)) as [rest E].
      apply str_nonzero. assert (Hi' : (i < length str)%nat) by (unfold k in *; lia). apply (list_elem_of_lookup_2 _ i). destruct (lookup_lt_is_Some_2 str i Hi') as [c Hc]. rewrite Hc. f_equal.
      pose proof (bytes_lookup (64 * j + chunk) (Z.of_nat i) ltac:(lia)) as Hx. rewrite Nat2Z.id, Hi in Hx. destruct (proj1 Hs i c Hc) as [Hu _]. rewrite Hu in Hx. by injection Hx as <-.
Qed.
End Str.
End User.

Lemma c_string_app str rest : 0 ∉ str -> c_string (str ++ 0 :: rest) = Some str.
Proof.
  induction str as [|c str IH]; intros Hn; [done|]. apply not_elem_of_cons in Hn as [Hc Hn]. cbn. rewrite (proj2 (Z.eqb_neq c 0)) by done. by rewrite IH.
Qed.

(** Every buffer with a zero byte holds a string. *)
Lemma first_string buf : 0 ∈ buf -> exists str rest, buf = str ++ 0 :: rest /\ 0 ∉ str.
Proof.
  induction buf as [|c buf IH]; intros H; [by apply elem_of_nil in H|]. destruct (decide (c = 0)) as [->|Hc]; [exists [], buf; split; [done|apply not_elem_of_nil]|].
  apply elem_of_cons in H as [H|H]; [done|]. destruct (IH H) as (str & rest & -> & Hn). exists (c :: str), rest. split; [done|]. apply not_elem_of_cons. split; [congruence|done].
Qed.

(** The check of a string that is in the buffer with its terminator. *)
Lemma cstring_ok_exact str rest cap : 0 ∉ str -> Z.of_nat (length str) < cap <= 16384 ->
  kernel_user_cstring_ok (str ++ 0 :: rest) cap = Some (if bool_decide (str <> [] /\ Forall SupportProps.path_char str) then 0 else - EINVAL).
Proof.
  intros Hn Hc. unfold kernel_user_cstring_ok, zig_kernel_cstring_no_control. rewrite (proj2 (Z.eqb_neq cap 0)) by lia. destruct (Z.gtb_spec cap 16384); [lia|].
  set (bad := fun c => (c <? 32) || (c =? 127)). set (p := str ++ 0 :: rest).
  assert (Hgo : forall post pre n, str = pre ++ post -> Forall SupportProps.path_char pre -> (length post < n)%nat ->
    or_else 1 (scan n (Z.of_nat (length pre)) (line_body bad p)) = Some (if bool_decide (str <> [] /\ Forall SupportProps.path_char post) then 0 else 1)).
  { induction post as [|c post IH]; intros pre [|n] Es Hp Hl; cbn [length] in Hl; try lia; cbn [scan]; unfold line_body at 1, byte; rewrite (proj2 (Z.ltb_ge _ 0)), Nat2Z.id by lia.
    - assert (p !! length pre = Some 0) as ->. { unfold p. rewrite Es, app_nil_r, lookup_app_r by done. by rewrite Nat.sub_diag. }
      rewrite Z.eqb_refl. rewrite app_nil_r in Es. subst pre. destruct (decide (str = [])) as [E0|E0].
      + rewrite (bool_decide_eq_false_2 (str <> [] /\ _)) by naive_solver. rewrite E0. done.
      + rewrite bool_decide_eq_true_2 by (by split). destruct (Z.eqb_spec (Z.of_nat (length str)) 0); [destruct str; [done|cbn in *; lia]|done].
    - assert (p !! length pre = Some c) as ->. { unfold p. rewrite Es, <- app_assoc, lookup_app_r by done. by rewrite Nat.sub_diag. }
      assert (Hc0 : c <> 0) by (intros ->; apply Hn; rewrite Es; apply elem_of_app; right; left). rewrite (proj2 (Z.eqb_neq c 0)) by done.
      assert (Hb : bad c = false <-> SupportProps.path_char c) by (unfold bad, SupportProps.path_char; rewrite orb_false_iff, Z.ltb_ge, Z.eqb_neq; done).
      destruct (bad c) eqn:Eb.
      + rewrite bool_decide_eq_false_2; [done|]. intros [_ HF]. apply Forall_cons in HF as [HF _]. by apply Hb in HF.
      + replace (Z.of_nat (length pre) + 1) with (Z.of_nat (length (pre ++ [c]))) by (rewrite length_app; cbn; lia). rewrite IH; [|by rewrite <- app_assoc|apply Forall_app; split; [done|by repeat constructor; apply Hb]|lia].
        f_equal. apply (f_equal (fun b : bool => if b then 0 else 1)). apply bool_decide_ext. rewrite Forall_cons. pose proof (proj1 Hb eq_refl). tauto. }
  specialize (Hgo str [] (Z.to_nat cap) eq_refl ltac:(constructor) ltac:(lia)). cbn [length] in Hgo. change (Z.of_nat 0) with 0 in Hgo. rewrite Hgo. cbn [mbind option_bind].
  by case_bool_decide.
Qed.

Lemma cstring_copied user ptr str cap : ptr <> 0 -> user_str user ptr str -> Z.of_nat (length str) < cap -> readable user ptr (chunks_of (Z.of_nat (length str)) cap) ->
  exists rest, copy_user_cstring user ptr cap = Some (inr (str ++ 0 :: rest)).
Proof.
  intros Hp Hs Hl Hr. destruct (bytes_str user ptr str Hs (chunks_of (Z.of_nat (length str)) cap)) as [rest E].
  { unfold chunks_of. pose proof (Z.div_mod (Z.of_nat (length str)) 64 ltac:(lia)). pose proof (Z.mod_pos_bound (Z.of_nat (length str)) 64 ltac:(lia)). lia. }
  exists rest. unfold copy_user_cstring. rewrite (proj2 (Z.eqb_neq ptr 0)), (proj2 (Z.eqb_neq cap 0)) by lia. cbn [orb]. rewrite <- E. change (@nil Z) with (bytes user ptr (64 * 0)).
  apply (copy_chunks_str user ptr str Hs cap); [lia|lia|done|lia].
Qed.

Lemma cstring_total user ptr cap : exists r, copy_user_cstring user ptr cap = Some r /\
  match r with inl err => err < 0 | inr b => exists str rest, b = str ++ 0 :: rest /\ (0 ∉ str) /\ Z.of_nat (length str) < cap end.
Proof.
  unfold copy_user_cstring. destruct (_ || _); [by eexists|]. destruct (copy_chunks_total user ptr (S (Z.to_nat cap)) cap []) as (r & -> & Hr); [cbn [length]; lia|].
  exists r. split; [done|]. destruct r as [err|b]; [done|]. destruct Hr as [Hz Hl]. destruct (first_string b Hz) as (str & rest & -> & Hn). exists str, rest. split_and!; [done|done|].
  rewrite length_app in Hl. cbn [length] in Hl. lia.
Qed.

(** What [user_path] makes of the buffer. *)
Lemma user_path_buffer user ptr str rest : copy_user_cstring user ptr PATH_MAX = Some (inr (str ++ 0 :: rest)) -> 0 ∉ str -> Z.of_nat (length str) < PATH_MAX ->
  user_path user ptr = Some (if bool_decide (str <> [] /\ Forall SupportProps.path_char str) then inr str else inl (- EINVAL)).
Proof.
  intros E Hn Hl. unfold user_path. rewrite E, bind_ret. assert (Hc : Z.of_nat (length str) < PATH_MAX <= 16384) by lia.
  rewrite (cstring_ok_exact str rest PATH_MAX Hn Hc), bind_ret, (c_string_app str rest Hn), bind_ret. by case_bool_decide.
Qed.

Lemma user_path_total user ptr : exists r, user_path user ptr = Some r /\
  match r with inl err => err < 0 | inr str => (0 ∉ str) /\ str <> [] /\ Forall SupportProps.path_char str /\ Z.of_nat (length str) < PATH_MAX end.
Proof.
  destruct (cstring_total user ptr PATH_MAX) as (r & E & Hr). destruct r as [err|buf].
  - exists (inl err). split; [|exact Hr]. unfold user_path. rewrite E. reflexivity.
  - destruct Hr as (str & rest & -> & Hn & Hl). rewrite (user_path_buffer user ptr str rest E Hn Hl). eexists. split; [reflexivity|]. case_bool_decide as Hb; [by destruct Hb|done].
Qed.

(** C31. The path of a program arrives as it was passed: a string of the program that
    ends within [PATH_MAX] bytes, in memory that is readable to the end of the
    64-byte chunk it ends in, is copied exactly and accepted when it is neither
    empty nor has control characters; whatever the pointer, the result is a string
    without zero bytes that fits, or an error. *)
Theorem user_path_exact user ptr :
  (forall str, ptr <> 0 -> user_str user ptr str -> Z.of_nat (length str) < PATH_MAX -> readable user ptr (chunks_of (Z.of_nat (length str)) PATH_MAX) ->
     user_path user ptr = Some (if bool_decide (str <> [] /\ Forall SupportProps.path_char str) then inr str else inl (- EINVAL))) /\
  exists r, user_path user ptr = Some r /\
    match r with inl err => err < 0 | inr str => (0 ∉ str) /\ str <> [] /\ Forall SupportProps.path_char str /\ Z.of_nat (length str) < PATH_MAX end.
Proof.
  split.
  - intros str Hp Hs Hl Hr. destruct (cstring_copied user ptr str PATH_MAX Hp Hs Hl Hr) as [rest E]. exact (user_path_buffer user ptr str rest E (str_nonzero user ptr str Hs) Hl).
  - apply user_path_total.
Qed.

(** ** The path of a directory *)

Definition abs_path (comps : list (list Z)) : list Z := concat ((fun c => 47 :: c) <$> comps).

(** A name as it stands in a path. *)
Definition plain_name (name : list Z) : Prop := name <> [] /\ (47 ∉ name) /\ name <> [46] /\ name <> [46; 46].

Lemma abs_path_snoc comps name : abs_path (comps ++ [name]) = abs_path comps ++ 47 :: name.
Proof. unfold abs_path. rewrite fmap_app, concat_app. cbn. by rewrite app_nil_r. Qed.

Lemma components_abs comps : Forall plain_name comps -> components (abs_path comps) [] = comps.
Proof.
  induction comps as [|name comps IH] using rev_ind; intros H; [done|]. apply Forall_app in H as [Hc Hn]. apply Forall_singleton in Hn as (H1 & H2 & _).
  rewrite abs_path_snoc, components_app, IH by done. f_equal. by rewrite components_name.
Qed.

(** Climbing always ends, within the buffer. *)
Lemma path_up_total R Q s root fuel : vfs_ok R Q s -> forall d acc, d = 0 \/ is_Some (dentries s !! d) -> Z.of_nat (length acc) <= PATH_MAX - 1 ->
  PATH_MAX - 1 - Z.of_nat (length acc) < Z.of_nat fuel ->
  exists r, path_up fuel root d acc s = Some r /\ match r with inl err => err < 0 | inr path => Z.of_nat (length path) <= PATH_MAX - 1 end.
Proof.
  intros Hok. induction fuel as [|fuel IH]; intros d acc Hd Ha Hf; [lia|]. cbn [path_up]. destruct (Z.eqb_spec d 0) as [->|Hd0]; [by eexists|].
  cbn [orb]. destruct (d =? root); [by eexists|]. destruct Hd as [Hd|[de Hde]]; [done|]. rewrite Hde, bind_ret. destruct (_ =? 0); [by eexists|].
  destruct (Z.leb_spec (PATH_MAX - 1 - Z.of_nat (length acc)) (Z.of_nat (length (d_name de)))); [by eexists|]. apply IH.
  - right. apply (eo_parent _ _ _ _ (ok_entry _ _ _ Hok d de Hde)).
  - cbn [length]. rewrite length_app. lia.
  - cbn [length]. rewrite length_app. lia.
Qed.

Section Tree.
Context (cur : option (Z * Z)) (R Q : Z -> Z) (s : vfs) (root : Z).
Hypothesis (Hok : vfs_ok R Q s) (Hroot : exists re, dentries s !! root = Some re /\ d_parent re = root).

(** One step down a path is one step up. *)
Lemma resolve_snoc comps name d : plain_name name -> resolve cur s (comps ++ [name]) root = Some d ->
  exists p de, resolve cur s comps root = Some p /\ dentries s !! d = Some de /\ d_name de = name /\ d_parent de = p /\ d <> root /\ 0 < d.
Proof.
  intros (Hn & _ & H1 & H2) E. rewrite resolve_app in E. apply bind_Some in E as (p & Ep & E). destruct (resolve_entry cur s comps root p Ep) as (pe & Hpe & Hi).
  cbn [resolve] in E. rewrite Hpe, bind_ret, (proj2 (Z.eqb_neq (d_inode pe) 0)) in E by done. apply bind_Some in E as (dir & Hdir & E). destruct (negb _ || _); [done|].
  rewrite (decide_False (P := name = [46])), (decide_False (P := name = [46; 46])) in E by done. apply bind_Some in E as (c & Hc & E).
  destruct (child_spec s p pe name c Hpe Hc) as (Hin & ce & Hce & En & Hci). rewrite Hce, bind_ret, (proj2 (Z.eqb_neq (d_inode ce) 0)) in E by done. injection E as <-.
  destruct (eo_sub _ _ _ _ (ok_entry _ _ _ Hok p pe Hpe) c Hin) as (Hne & ce' & Hce' & Hpar). assert (ce' = ce) as -> by congruence.
  exists p, ce. split_and!; [done|done|done|done| |apply (eo_pos _ _ _ _ (ok_entry _ _ _ Hok c ce Hce))].
  intros ->. destruct Hroot as (re & Hre & Hp). congruence.
Qed.

Lemma path_up_resolve comps : Forall plain_name comps -> forall d acc fuel, resolve cur s comps root = Some d ->
  Z.of_nat (length (abs_path comps ++ acc)) <= PATH_MAX - 1 -> (length comps < fuel)%nat -> path_up fuel root d acc s = Some (inr (abs_path comps ++ acc)).
Proof.
  induction comps as [|name comps IH] using rev_ind; intros Hc d acc fuel E Hl Hf.
  - assert (d = root) as ->. { cbn [resolve] in E. apply bind_Some in E as (re & _ & E). destruct (d_inode re =? 0); [done|by injection E]. }
    destruct fuel as [|fuel]; [cbn in Hf; lia|]. cbn [path_up]. rewrite Z.eqb_refl, orb_true_r. done.
  - apply Forall_app in Hc as [Hc Hn]. apply Forall_cons in Hn as [Hn _]. destruct (resolve_snoc comps name d Hn E) as (p & de & Ep & Hde & En & Hpar & Hdr & Hd0).
    rewrite length_app in Hf. cbn [length] in Hf. destruct fuel as [|fuel]; [lia|]. cbn [path_up]. rewrite (proj2 (Z.eqb_neq d 0)), (proj2 (Z.eqb_neq d root)) by lia. cbn [orb].
    rewrite Hde, bind_ret, En. assert (Hnl : Z.of_nat (length name) <> 0) by (destruct Hn as [Hn _]; destruct name; [done|cbn; lia]). rewrite (proj2 (Z.eqb_neq _ 0)) by done.
    rewrite abs_path_snoc, !length_app in Hl. cbn [length] in Hl. destruct (Z.leb_spec (PATH_MAX - 1 - Z.of_nat (length acc)) (Z.of_nat (length name))); [lia|].
    rewrite Hpar, abs_path_snoc, <- app_assoc. cbn [app]. apply IH; [done|done| |lia]. rewrite !length_app. cbn [length]. rewrite length_app. lia.
Qed.

Lemma abs_path_length comps : Forall plain_name comps -> (2 * length comps <= length (abs_path comps))%nat.
Proof.
  induction comps as [|name comps IH]; intros H; [done|]. apply Forall_cons in H as [[Hn _] H]. specialize (IH H). unfold abs_path in *. cbn. rewrite length_app.
  destruct name; [done|cbn]. lia.
Qed.

Lemma dentry_path_resolve comps d : Forall plain_name comps -> comps <> [] -> resolve cur s comps root = Some d -> Z.of_nat (length (abs_path comps)) <= PATH_MAX - 1 ->
  dentry_path root d s = Some (inr (abs_path comps)).
Proof.
  intros Hc Hne E Hl. unfold dentry_path. pose proof (abs_path_length comps Hc). rewrite (path_up_resolve comps Hc d [] (Z.to_nat PATH_MAX) E) by (rewrite ?app_nil_r; lia).
  rewrite bind_ret, app_nil_r. destruct comps as [|name comps]; [done|]. done.
Qed.
End Tree.

(** ** Relative paths *)

Lemma print_path_text items args out size : Forall item_ok items -> text_of items args = Some out -> Z.of_nat (length out) < size -> print_path size (format_of items) args = Some (inr out).
Proof.
  intros Hi Ht Hs. unfold print_path, vsnprintf. rewrite (proj2 (Z.eqb_neq size 0)) by lia. pose proof (format_length items).
  rewrite (printk_loop_text items _ args size [] out) by (done || cbn [length]; lia). rewrite bind_ret. cbn [app]. by rewrite Z.geb_leb, (proj2 (Z.leb_gt size _)) by lia.
Qed.

Lemma print_under_root path size : Z.of_nat (length path) + 1 < size -> print_path size [47; 37; 115] [AStr (Some path)] = Some (inr (47 :: path)).
Proof.
  intros Hs. apply (print_path_text [ILit 47; IConv 0 115]); [repeat constructor; cbn; try done; set_solver|cbn; by rewrite app_nil_r|cbn [length]; lia].
Qed.

Lemma print_joined cwd path size : Z.of_nat (length cwd) + Z.of_nat (length path) + 1 < size ->
  print_path size [37; 115; 47; 37; 115] [AStr (Some cwd); AStr (Some path)] = Some (inr (cwd ++ 47 :: path)).
Proof.
  intros Hs. apply (print_path_text [IConv 0 115; ILit 47; IConv 0 115]); [repeat constructor; cbn; try done; set_solver|cbn; by rewrite app_nil_r|rewrite length_app; cbn [length]; lia].
Qed.

(** A process in the directory that [comps] leads to. *)
Record in_dir (cur : option (Z * Z)) (s : vfs) (p : process) (comps : list (list Z)) : Prop := {
  id_root : p_root p <> 0 /\ exists re, dentries s !! p_root p = Some re /\ d_parent re = p_root p;
  id_names : Forall plain_name comps;
  id_cwd : resolve cur s comps (p_root p) = Some (p_cwd p);
  id_fits : Z.of_nat (length (abs_path comps)) < PATH_MAX
}.

Section InDir.
Context (cur : option (Z * Z)) (R Q : Z -> Z) (s : vfs) (p : process) (comps : list (list Z)).
Hypothesis (Hok : vfs_ok R Q s) (Hp : in_dir cur s p comps).

Lemma getcwd_in_dir : process_getcwd_path p PATH_MAX s = Some (inr (if decide (comps = []) then [47] else abs_path comps)).
Proof.
  destruct Hp as [[Hr0 Hr] Hn Hc Hf]. unfold process_getcwd_path. rewrite (proj2 (Z.eqb_neq PATH_MAX 0)) by done.
  destruct (decide (comps = [])) as [->|Hne].
  { assert (p_cwd p = p_root p) as -> by (cbn [resolve] in Hc; apply bind_Some in Hc as (re & _ & Hc); destruct (d_inode re =? 0); [done|by injection Hc]). rewrite Z.eqb_refl, orb_true_r. done. }
  assert (Hd : p_cwd p <> p_root p /\ 0 < p_cwd p).
  { destruct (exists_last Hne) as (l & x & El). rewrite El in Hn, Hc. apply Forall_app in Hn as [_ Hx]. apply Forall_cons in Hx as [Hx _].
    destruct (resolve_snoc cur R Q s (p_root p) Hok Hr l x (p_cwd p) Hx Hc) as (q & de & _ & _ & _ & _ & H1 & H2). done. }
  rewrite (proj2 (Z.eqb_neq (p_cwd p) 0)), (proj2 (Z.eqb_neq (p_root p) 0)), (proj2 (Z.eqb_neq (p_cwd p) (p_root p))) by lia. cbn [orb].
  rewrite (dentry_path_resolve cur R Q s (p_root p) Hok Hr comps (p_cwd p)) by (done || lia). rewrite bind_ret. destruct (Z.gtb_spec (Z.of_nat (length (abs_path comps)) + 1) PATH_MAX); [lia|done].
Qed.
End InDir.

(** C17. A process finds its way back: if a path of plain names leads from its root to
    its directory, then [getcwd] returns that path, which resolves to the same
    directory again; and the length it returns is that of the path with its
    terminator. *)
Theorem getcwd_roundtrip cur R Q s p comps buf size (Hok : vfs_ok R Q (vfs_of s)) (Hp : in_dir cur (vfs_of s) p comps) (Hb : buf <> 0)
    (Hs : Z.of_nat (length (abs_path comps)) + 2 <= size) :
  exists path, sys_getcwd p buf size true s = Some (Z.of_nat (length path) + 1, path ++ [0]) /\
    resolve cur (vfs_of s) (components path []) (p_root p) = Some (p_cwd p) /\ components path [] = comps.
Proof.
  exists (if decide (comps = []) then [47] else abs_path comps). unfold sys_getcwd. rewrite (proj2 (Z.eqb_neq buf 0)), (proj2 (Z.eqb_neq size 0)) by lia. cbn [orb].
  rewrite (getcwd_in_dir cur R Q _ p comps Hok Hp), bind_ret. assert (Ec : components (if decide (comps = []) then [47] else abs_path comps) [] = comps).
  { destruct (decide (comps = [])) as [->|]; [done|]. by apply components_abs, (id_names _ _ _ _ Hp). }
  rewrite Ec. split_and!; [|apply (id_cwd _ _ _ _ Hp)|done]. cbv zeta.
  assert (Hl : Z.of_nat (length (if decide (comps = []) then [47] else abs_path comps)) + 1 <= size) by (destruct (decide (comps = [])); cbn [length] in *; lia).
  destruct (Z.gtb_spec (Z.of_nat (length (if decide (comps = []) then [47] else abs_path comps)) + 1) size); [lia|done].
Qed.

(** C32. A relative path is taken from the directory of the process: the absolute path
    that is handed to the file system leads to whatever the relative path leads to
    from that directory, when both together fit in [PATH_MAX]; an absolute path is
    left as it is. *)
Theorem relative_path_resolves cur R Q s p comps path (Hok : vfs_ok R Q s) (Hp : in_dir cur s p comps) :
  (head path = Some 47 -> resolve_user_path p path PATH_MAX s = Some (if Z.of_nat (length path) <? PATH_MAX then inr path else inl (- ENAMETOOLONG))) /\
  (head path <> Some 47 -> Z.of_nat (length (abs_path comps)) + Z.of_nat (length path) + 1 < PATH_MAX ->
   exists out, resolve_user_path p path PATH_MAX s = Some (inr out) /\
     resolve cur s (components out []) (p_root p) = resolve cur s (components path []) (p_cwd p)).
Proof.
  split.
  - intros Hh. unfold resolve_user_path. rewrite (proj2 (Z.eqb_neq PATH_MAX 0)), decide_True by done. destruct (Z.gtb_spec (Z.of_nat (length path) + 1) PATH_MAX), (Z.ltb_spec (Z.of_nat (length path)) PATH_MAX); (lia || done).
  - intros Hh Hl. exists (abs_path comps ++ 47 :: path). split.
    + unfold resolve_user_path. rewrite (proj2 (Z.eqb_neq PATH_MAX 0)), decide_False by done. rewrite (getcwd_in_dir cur R Q s p comps Hok Hp), bind_ret.
      destruct (decide (comps = [])) as [->|Hne]; [rewrite decide_True by done; apply print_under_root; cbn in *; lia|].
      rewrite decide_False; [apply print_joined; lia|]. pose proof (abs_path_length comps (id_names _ _ _ _ Hp)) as Hlen. intros E. rewrite E in Hlen. destruct comps; [done|cbn in Hlen; lia].
    + rewrite components_app, components_abs, resolve_app by apply (id_names _ _ _ _ Hp). rewrite (id_cwd _ _ _ _ Hp). apply bind_ret.
Qed.

(** ** The calls *)

(** Formats of characters and strings. *)
Inductive text_item : item -> Prop :=
| text_lit c : c <> 37 -> text_item (ILit c)
| text_str : text_item (IConv 0 115).

Lemma printk_loop_some items : forall fuel args size acc, Forall text_item items -> is_Some (text_of items args) -> (length items < fuel)%nat ->
  is_Some (printk_loop fuel (format_of items) args size acc).
Proof.
  induction items as [|i items IH]; intros fuel args size acc Hi [out E] Hf; (destruct fuel as [|fuel]; [cbn in Hf; lia|]); [by eexists|].
  apply Forall_cons in Hi as [Hi Hr]. change (format_of (i :: items)) with (item_fmt i ++ format_of items). cbn [length] in Hf.
  destruct (decide (Z.of_nat (length acc) + 1 < size)) as [Hroom|Hfull]; [|rewrite printk_full; [by eexists|by destruct i|done]].
  destruct Hi as [c Hc|]; cbn [text_of] in E.
  - apply bind_Some in E as (o & Eo & E). cbn [item_fmt app printk_loop]. rewrite (proj2 (Z.ltb_lt _ _) Hroom), (proj2 (Z.eqb_neq c 37)) by done. cbn [negb]. apply IH; [done|by eexists|lia].
  - apply bind_Some in E as ([now args'] & Ec & E). apply bind_Some in E as (o & Eo & E). rewrite printk_loop_conv by (done || (split; set_solver)).
    destruct args as [|[x|st|q] args]; cbn in Ec; try done. injection Ec as <- <-. cbn [printk_len_of Z.eqb]. unfold printk_convert. cbn [Z.eqb Pos.eqb]. rewrite bind_ret. apply IH; [done|by eexists|lia].
Qed.

(** The length is never the reason to refuse a path. *)
Lemma print_path_total items args size : Forall text_item items -> is_Some (text_of items args) -> 0 < size -> exists out, print_path size (format_of items) args = Some (inr out).
Proof.
  intros Hi Ht Hs. unfold print_path. destruct (vsnprintf size (format_of items) args) as [out|] eqn:E.
  - apply vsnprintf_lt in E as Hl; [|done]. exists out. rewrite bind_ret. by rewrite Z.geb_leb, (proj2 (Z.leb_gt size _)) by lia.
  - exfalso. unfold vsnprintf in E. rewrite (proj2 (Z.eqb_neq size 0)) in E by lia. pose proof (format_length items).
    destruct (printk_loop_some items (S (length (format_of items))) args size [] Hi Ht ltac:(lia)) as [? Hx]. congruence.
Qed.

Definition path_or_error (r : option (sum Z (list Z))) : Prop := exists x, r = Some x /\ match x with inl err => err < 0 | inr _ => True end.

Lemma dentry_path_total R Q s root d : vfs_ok R Q s -> d = 0 \/ is_Some (dentries s !! d) -> path_or_error (dentry_path root d s).
Proof.
  intros Hok Hd. unfold dentry_path. destruct (path_up_total R Q s root (Z.to_nat PATH_MAX) Hok d [] Hd) as (r & -> & Hr); [cbn [length]; lia|cbn [length]; lia|].
  rewrite bind_ret. eexists. split; [done|]. destruct r as [err|[|c l]]; done.
Qed.

Lemma resolve_path_total R Q s p path size : vfs_ok R Q s -> p_cwd p = 0 \/ is_Some (dentries s !! p_cwd p) -> 0 < size -> path_or_error (resolve_user_path p path size s).
Proof.
  intros Hok Hc Hs. unfold resolve_user_path. rewrite (proj2 (Z.eqb_neq size 0)) by lia. destruct (decide _); [eexists; split; [done|]; by destruct (_ >? _)|].
  assert (Hg : path_or_error (process_getcwd_path p PATH_MAX s)).
  { unfold process_getcwd_path. rewrite (proj2 (Z.eqb_neq PATH_MAX 0)) by done. destruct (_ || _); [by eexists|]. destruct (dentry_path_total R Q s (p_root p) (p_cwd p) Hok Hc) as (r & -> & Hr).
    rewrite bind_ret. eexists. split; [done|]. destruct r as [err|l]; [done|]. by destruct (_ >? _). }
  destruct Hg as (r & -> & Hr). rewrite bind_ret. destruct r as [err|cwd]; [by eexists|].
  destruct (decide (cwd = [47])).
  - destruct (print_path_total [ILit 47; IConv 0 115] [AStr (Some path)] size) as [out E]; [repeat constructor; done|by eexists|done|]. exists (inr out). by split.
  - destruct (print_path_total [IConv 0 115; ILit 47; IConv 0 115] [AStr (Some cwd); AStr (Some path)] size) as [out E]; [repeat constructor; done|by eexists|done|]. exists (inr out). by split.
Qed.

(** A process, with a reference of its own to its directory. *)
Record proc_ok (E T R Q : Z -> Z) (p : process) (s : fstate) : Prop := {
  po_R x : 0 <= R x;
  po_desc : desc_ok E T (bump R (p_cwd p) 1) Q s;
  po_mounts : mounts_ok R (vfs_of s);
  po_root : 0 < R (root_dentry (vfs_of s));
  po_files : is_Some (tables s !! p_files p)
}.

Lemma desc_ok_ext E T R R' Q s : (forall x, R x = R' x) -> desc_ok E T R Q s -> desc_ok E T R' Q s.
Proof.
  intros HR [H1 H2 H3 H4]. split; [by apply (files_ok_ext E E T T R R')|done|eapply mounts_mono, H3; intros x; rewrite HR; lia|by rewrite <- HR].
Qed.

Lemma proc_ok_ext E T R R' Q p s : (forall x, R x = R' x) -> proc_ok E T R Q p s -> proc_ok E T R' Q p s.
Proof.
  intros HR [H1 H2 H3 H4 H5]. split; [intros x; rewrite <- HR; apply H1| | |by rewrite <- HR|done].
  - eapply desc_ok_ext; [|exact H2]. intros x. unfold bump. by rewrite HR.
  - eapply mounts_mono; [|exact H3]. intros x. by rewrite HR.
Qed.

Lemma names_fit_alias path : names_fit path -> names_fit (apply_input_path_alias path).
Proof. intros H. unfold apply_input_path_alias. repeat (destruct (decide _); [repeat constructor; cbn; lia|]). done. Qed.

Section Process.
Context (user : Z -> option Z) (cur : option (Z * Z)) (deny : Z -> list Z -> Z -> bool) (dev_open : inode -> Z) (E T R Q : Z -> Z) (p : process) (s : fstate).
Hypothesis (Hok : proc_ok E T R Q p s).

Let Hd : desc_ok E T (bump R (p_cwd p) 1) Q s := po_desc _ _ _ _ _ _ Hok.
Let Hf : files_ok E T (bump R (p_cwd p) 1) Q s := do_files _ _ _ _ _ Hd.
Let rf (x : Z) : Z := refs file_dentry (files s) x.

Lemma cwd_there : p_cwd p = 0 \/ is_Some (dentries (vfs_of s) !! p_cwd p).
Proof.
  destruct (decide (p_cwd p = 0)) as [|Hc]; [by left|right]. apply (ok_R _ _ _ (fo_vfs _ _ _ _ _ Hf)). rewrite bump_eq by done.
  pose proof (po_R _ _ _ _ _ _ Hok (p_cwd p)). pose proof (refs_nonneg file_dentry (files s) (p_cwd p)). lia.
Qed.

Lemma checked_total ptr : path_or_error (resolve_user_path_checked user p ptr PATH_MAX (vfs_of s)).
Proof.
  unfold resolve_user_path_checked. destruct (user_path_total user ptr) as (r & -> & Hr). rewrite bind_ret. destruct r as [err|str]; [by eexists|].
  by apply (resolve_path_total _ _ _ _ _ _ (fo_vfs _ _ _ _ _ Hf) cwd_there).
Qed.

Lemma at_checked_total dirfd ptr : path_or_error (resolve_user_at_path_checked user p dirfd ptr PATH_MAX s).
Proof.
  unfold resolve_user_at_path_checked. destruct (user_path_total user ptr) as (r & -> & Hr). rewrite bind_ret. destruct r as [err|str]; [by eexists|].
  pose proof (fo_vfs _ _ _ _ _ Hf) as Hv. assert (Hgo : forall path, path_or_error (resolve_user_path p path PATH_MAX (vfs_of s))) by (intros path; by apply (resolve_path_total _ _ _ _ _ _ Hv cwd_there)).
  unfold resolve_user_at_path. destruct (_ || _); [done|]. destruct (p_files p =? 0); [by eexists|]. destruct (dirfd <? 0); [by eexists|].
  destruct (po_files _ _ _ _ _ _ Hok) as [tb Ht]. rewrite Ht, bind_ret. destruct (Z.eqb_spec (fd_get tb dirfd) 0) as [|Hne]; [by eexists|].
  assert (Hlive : is_Some (files s !! fd_get tb dirfd)).
  { unfold fd_get in *. destruct (_ && _) eqn:Eb; [|done]. apply andb_true_iff in Eb as [E1 E2]. apply (fo_live _ _ _ _ _ Hf (p_files p) tb _ Ht); [|done].
    apply (list_elem_of_lookup_2 _ (Z.to_nat dirfd)), fd_at_lookup. lia. }
  destruct Hlive as [fe Hfe]. rewrite Hfe, bind_ret. destruct (f_dentry fe =? 0); [by eexists|].
  assert (Hde : is_Some (dentries (vfs_of s) !! f_dentry fe)).
  { apply (ok_R _ _ _ Hv). pose proof (refs_pos file_dentry _ _ _ Hfe) as H. change (file_dentry (fd_get tb dirfd) fe) with (f_dentry fe) in H. pose proof (fo_R _ _ _ _ _ Hf (f_dentry fe)). lia. }
  pose proof Hde as [de Hde']. rewrite Hde', bind_ret. destruct (d_inode de =? 0); [by eexists|].
  assert (Hb : path_or_error (if (f_dentry fe =? p_root p) || (d_parent de =? 0) then Some (inr [47]) else dentry_path (p_root p) (f_dentry fe) (vfs_of s))).
  { destruct (_ || _); [by eexists|]. by apply (dentry_path_total _ _ _ _ _ Hv); right. }
  destruct Hb as (r & -> & Hb). rewrite bind_ret. destruct r as [err|base]; [by eexists|].
  destruct (decide (str = [])); [|destruct (decide (base = [47])); [done|]].
  - destruct (print_path_total [IConv 0 115] [AStr (Some base)] PATH_MAX) as [out Eo]; [repeat constructor; done|by eexists|done|]. exists (inr out). by split.
  - destruct (print_path_total [IConv 0 115; ILit 47; IConv 0 115] [AStr (Some base); AStr (Some str)] PATH_MAX) as [out Eo]; [repeat constructor; done|by eexists|done|]. exists (inr out). by split.
Qed.

(** The process after a change of the name space. *)
Lemma proc_vfs R' p' v : (forall x, R x <= R' x) -> p_files p' = p_files p -> same_env (vfs_of s) v -> vfs_ok (bump (fun x => R' x + rf x) (p_cwd p') 1) Q v ->
  proc_ok E T R' Q p' (with_vfs v s).
Proof.
  intros HR Ep He Hv. pose proof (po_R _ _ _ _ _ _ Hok) as HR0. assert (HR' : forall x, 0 <= R' x) by (intros x; specialize (HR x); specialize (HR0 x); lia).
  assert (Hm : mounts_ok R' v) by (eapply mounts_mono, (mounts_env R (vfs_of s)), (po_mounts _ _ _ _ _ _ Hok); done).
  assert (Hr : 0 < R' (root_dentry v)) by (destruct He as (_ & _ & -> & _); pose proof (po_root _ _ _ _ _ _ Hok); specialize (HR (root_dentry (vfs_of s))); lia).
  split; [done| |done|done|rewrite Ep; apply (po_files _ _ _ _ _ _ Hok)]. split; [|apply (do_tables _ _ _ _ _ Hd)|eapply mounts_mono, Hm; apply bump_le|cbn; pose proof (bump_le R' (p_cwd p') (root_dentry v)); lia].
  apply (files_vfs E T (bump R (p_cwd p) 1)); [done|apply bump_nonneg; [done|lia]|]. eapply vfs_ok_ext; [| |exact Hv]; [|done]. intros x. apply bump_plus.
Qed.

(** All references to entries from outside: those in [R], that of the process to
    its directory and those of the open files. *)
Definition outside (x : Z) : Z := bump R (p_cwd p) 1 x + refs file_dentry (files s) x.

(** A call that opens a file. *)
Lemma proc_open r flags mode : path_or_error r -> (forall path, r = Some (inr path) -> names_fit path) ->
  exists ret s' c, (if p_files p =? 0 then Some (- EBADF, s) else
      x ← r; match x with inl err => Some (err, s) | inr path => open_resolved cur deny dev_open (p_files p) (apply_input_path_alias path) flags mode s end) = Some (ret, s') /\
    proc_ok E T (bump R c 1) Q p s' /\
    (c = 0 \/ exists path, r = Some (inr path) /\ created cur deny (apply_input_path_alias path) flags mode outside (vfs_of s) c).
Proof.
  intros (x & -> & Hx) Hn. destruct (po_files _ _ _ _ _ _ Hok) as [tb Ht]. destruct (fo_table _ _ _ _ _ Hf _ _ Ht) as (Ht0 & _ & _ & HT). rewrite (proj2 (Z.eqb_neq (p_files p) 0)) by lia. rewrite bind_ret.
  destruct x as [err|path]; [exists err, s, 0; split_and!; [done| |by left]; by apply (proc_ok_ext E T R); [intros y; by rewrite bump_0|]|]. specialize (Hn path eq_refl).
  destruct (open_ok cur deny dev_open _ flags mode (names_fit_alias _ Hn) _ _ _ _ _ Hd (p_files p) tb Ht) as (ret & s' & c & -> & Hcr & H1 & He).
  exists ret, s', c. split_and!; [done| |destruct Hcr as [?|?]; [by left|right; by exists path]]. pose proof (po_R _ _ _ _ _ _ Hok) as HR0. split.
  - apply bump_nonneg; [done|lia].
  - eapply desc_ok_ext; [|exact H1]. intros x0. unfold bump. lia.
  - eapply mounts_mono, (mounts_env R (vfs_of s)), (po_mounts _ _ _ _ _ _ Hok); [apply bump_le|done].
  - destruct He as (_ & _ & -> & _). pose proof (po_root _ _ _ _ _ _ Hok). pose proof (bump_le R c (root_dentry (vfs_of s))). lia.
  - apply (fo_T _ _ _ _ _ (do_files _ _ _ _ _ H1)). lia.
Qed.

(** A call on the name space: [c] is the name that was created, if there was one. *)
Lemma proc_name (C : Z -> list Z -> Z -> vfs -> Prop) op ptr : (forall path, resolve_user_path_checked user p ptr PATH_MAX (vfs_of s) = Some (inr path) ->
    exists ret v c, op path (vfs_of s) = Some (ret, v) /\ same_env (vfs_of s) v /\ vfs_ok (bump outside c 1) Q v /\ C ret path c v) ->
  exists ret s' c, sys_name user p op ptr s = Some (ret, s') /\ proc_ok E T (bump R c 1) Q p s' /\
    (ret < 0 /\ c = 0 \/ exists path, resolve_user_path_checked user p ptr PATH_MAX (vfs_of s) = Some (inr path) /\ C ret path c (vfs_of s')).
Proof.
  intros Hop. unfold sys_name. destruct (checked_total ptr) as (x & Ex & Hx). rewrite Ex, bind_ret.
  destruct x as [err|path]; [exists err, s, 0; split_and!; [done| |by left]; by apply (proc_ok_ext E T R); [intros y; by rewrite bump_0|]|].
  destruct (Hop path Ex) as (ret & v & c & -> & He & Hv & HC). rewrite bind_ret. exists ret, (with_vfs v s), c. split_and!; [done| |right; by exists path].
  apply proc_vfs; [apply bump_le|done|done|]. eapply vfs_ok_ext; [| |exact Hv]; [|done]. intros y. unfold outside, bump, rf. lia.
Qed.

Lemma proc_vfs_R : mounts_ok (fun x => bump R (p_cwd p) 1 x + rf x) (vfs_of s) /\ 0 < bump R (p_cwd p) 1 (root_dentry (vfs_of s)) + rf (root_dentry (vfs_of s)).
Proof.
  assert (H : forall x, R x <= bump R (p_cwd p) 1 x + rf x) by (intros x; pose proof (bump_le R (p_cwd p) x); pose proof (refs_nonneg file_dentry (files s) x); unfold rf; lia).
  split; [by eapply mounts_mono, (po_mounts _ _ _ _ _ _ Hok)|]. pose proof (po_root _ _ _ _ _ _ Hok). specialize (H (root_dentry (vfs_of s))). lia.
Qed.

(** The reference to the old directory is given up for one to the new directory. *)
Lemma proc_chdir ptr : (forall path, resolve_user_path_checked user p ptr PATH_MAX (vfs_of s) = Some (inr path) -> names_fit path) ->
  exists ret p' s', sys_chdir user cur deny p ptr s = Some (ret, p', s') /\ proc_ok E T R Q p' s' /\
    (ret < 0 /\ p' = p \/ ret = 0 /\ p_root p' = p_root p /\ p_files p' = p_files p).
Proof.
  intros Hn. unfold sys_chdir. destruct (checked_total ptr) as (x & Ex & Hx). rewrite Ex, bind_ret. destruct x as [err|path]; [exists err, p, s; split_and!; [done|done|by left]|]. specialize (Hn path Ex).
  destruct proc_vfs_R as [Hm Hr]. pose proof (fo_vfs _ _ _ _ _ Hf) as Hv. set (Rf := fun x => bump R (p_cwd p) 1 x + rf x) in *.
  assert (HRf : forall x, 0 <= Rf x) by (intros x; apply (ok_R _ _ _ Hv)).
  destruct (lookup_at_ok cur deny Rf Q (vfs_of s) path true Hv Hm (or_intror Hr) Hn) as (d & v & El & Hv1 & He). unfold vfs_lookup. rewrite El, bind_ret.
  assert (Hsame : forall v', same_env (vfs_of s) v' -> vfs_ok Rf Q v' -> proc_ok E T R Q p (with_vfs v' s)).
  { intros v' He' Hv'. apply proc_vfs; [done|done|done|]. eapply vfs_ok_ext; [| |exact Hv']; [|done]. intros x. unfold Rf, bump. lia. }
  destruct (Z.eqb_spec d 0) as [->|Hd0]; [eexists _, _, _; split; [done|]; split; [apply Hsame; [done|by apply ok_bump_0 in Hv1]|by left]|].
  destruct (proj2 (ok_R _ _ _ Hv1 d)) as [de Hde]; [rewrite bump_eq by done; specialize (HRf d); lia|]. rewrite Hde, bind_ret. cbv zeta.
  assert (Hfail : forall ret : Z, ret < 0 -> exists ret' p' s', (v0 ← dput d v; Some (ret, p, with_vfs v0 s)) = Some (ret', p', s') /\ proc_ok E T R Q p' s' /\
    (ret' < 0 /\ p' = p \/ ret' = 0 /\ p_root p' = p_root p /\ p_files p' = p_files p)).
  { intros ret Hret. destruct (put_ok Rf Q v d HRf Hv1) as (v' & -> & Hv' & Hk). eexists _, _, _. split; [done|]. split; [|by left]. apply Hsame; [eapply same_env_trans; eauto with obelisk|done]. }
  destruct (Z.eqb_spec (d_inode de) 0) as [|Hi]; [by apply Hfail|]. destruct (eo_inode _ _ _ _ (ok_entry _ _ _ Hv1 d de Hde) Hi) as [ino Hino]. rewrite Hino, bind_ret.
  destruct (negb _); [by apply Hfail|]. destruct (Z.ltb_spec (generic_permission cur ino MAY_EXEC) 0); [by apply Hfail|].
  assert (Hput : exists v', (if negb (p_cwd p =? 0) then dput (p_cwd p) v else Some v) = Some v' /\ vfs_ok (bump (fun x => R x + rf x) d 1) Q v' /\ same_env (vfs_of s) v').
  { destruct (Z.eqb_spec (p_cwd p) 0) as [E0|Hc]; cbn [negb].
    - exists v. split; [done|]. split; [|done]. eapply vfs_ok_ext; [| |exact Hv1]; [|done]. intros x. unfold Rf, bump. rewrite E0. by destruct (Z.eqb_spec x 0); cbn; lia.
    - assert (Hswap : forall x, bump Rf d 1 x = bump (bump (fun x => R x + rf x) d 1) (p_cwd p) 1 x) by (intros x; unfold Rf, bump; lia).
      destruct (put_ok (bump (fun x => R x + rf x) d 1) Q v (p_cwd p)) as (v' & Ev & Hv' & Hk).
      { intros x. apply bump_nonneg; [|lia]. intros y. pose proof (po_R _ _ _ _ _ _ Hok y). pose proof (refs_nonneg file_dentry (files s) y). unfold rf. lia. }
      { by eapply vfs_ok_ext; [exact Hswap|done|]. }
      exists v'. split; [done|]. split; [done|]. eapply same_env_trans; eauto with obelisk. }
  destruct Hput as (v' & -> & Hv' & He'). rewrite bind_ret. eexists _, _, _. split; [done|]. split; [by apply proc_vfs|by right].
Qed.
End Process.

(** C16. The system calls on paths are safe: whatever pointer, descriptor and flags a
    process passes, [open], [openat], [mkdir], [rmdir], [unlink] and [chdir] return,
    all counts of entries, inodes, files and tables are right afterwards, and no
    reference is lost or leaked, on no path through the calls.  [rmdir] and
    [unlink] leave the references from outside as they were, and so does [chdir],
    but that the process holds its new directory in place of the old one when it
    succeeds.  [mkdir] adds one reference when it succeeds, to the new entry with
    the last name of the path, and none when it fails.  [open] and [openat] add
    none, or one to the entry that [O_CREAT] made for a path that led nowhere.  The
    names in the path have at most 255 bytes. *)
Theorem path_calls_safe user cur deny dev_open E T R Q p s ptr dirfd flags mode (Hok : proc_ok E T R Q p s)
    (Hn : forall path, resolve_user_path_checked user p ptr PATH_MAX (vfs_of s) = Some (inr path) \/
                       resolve_user_at_path_checked user p dirfd ptr PATH_MAX s = Some (inr path) -> names_fit path) :
  (exists ret p' s', sys_chdir user cur deny p ptr s = Some (ret, p', s') /\ proc_ok E T R Q p' s' /\
     (ret < 0 /\ p' = p \/ ret = 0 /\ p_root p' = p_root p /\ p_files p' = p_files p)) /\
  (forall call, call = sys_rmdir user cur deny p ptr \/ call = sys_unlink user cur deny p ptr ->
     exists ret s', call s = Some (ret, s') /\ proc_ok E T R Q p s') /\
  (exists ret s' c, sys_mkdir user cur deny p ptr mode s = Some (ret, s') /\ proc_ok E T (bump R c 1) Q p s' /\
     (ret < 0 /\ c = 0 \/ ret = 0 /\ 0 < c /\ outside R p s c = 0 /\
        exists path, resolve_user_path_checked user p ptr PATH_MAX (vfs_of s) = Some (inr path) /\ named path c (vfs_of s'))) /\
  forall call r, (call = sys_open user cur deny dev_open p ptr flags mode /\ r = resolve_user_path_checked user p ptr PATH_MAX (vfs_of s) \/
                  call = sys_openat user cur deny dev_open p dirfd ptr flags mode /\ r = resolve_user_at_path_checked user p dirfd ptr PATH_MAX s) ->
  exists ret s' c, call s = Some (ret, s') /\ proc_ok E T (bump R c 1) Q p s' /\
    (c = 0 \/ exists path, r = Some (inr path) /\ created cur deny (apply_input_path_alias path) flags mode (outside R p s) (vfs_of s) c).
Proof.
  pose proof (fo_vfs _ _ _ _ _ (do_files _ _ _ _ _ (po_desc _ _ _ _ _ _ Hok))) as Hv. destruct (proc_vfs_R E T R Q p s Hok) as [Hm Hr].
  split_and!; [apply proc_chdir; auto| | |].
  - intros call Hc. assert (Hrm : exists op, call = sys_name user p op ptr /\ forall path, names_fit path -> exists ret v, op path (vfs_of s) = Some (ret, v) /\ same_env (vfs_of s) v /\ vfs_ok (outside R p s) Q v).
    { destruct Hc as [-> | ->]; (eexists; split; [done|]); intros path Hp.
      - destruct (vfs_rmdir_ok cur deny _ Q (vfs_of s) path Hv Hm Hr Hp) as (ret & v & E1 & _ & E2 & E3 & _). by exists ret, v.
      - destruct (vfs_unlink_ok cur deny _ Q (vfs_of s) path Hv Hm Hr Hp) as (ret & v & E1 & _ & E2 & E3 & _). by exists ret, v. }
    destruct Hrm as (op & -> & Hop). destruct (proc_name user E T R Q p s Hok (fun _ _ c _ => c = 0) op ptr) as (ret & s' & c & E1 & E2 & E3).
    { intros path Hp. destruct (Hop path (Hn path (or_introl Hp))) as (ret & v & -> & He & Hv'). exists ret, v, 0. split_and!; [done|done|by apply ok_bump_0|done]. }
    exists ret, s'. split; [done|]. assert (c = 0) as -> by (destruct E3 as [[_ ?]|(? & _ & ?)]; done). by apply (proc_ok_ext E T (bump R 0 1)); [intros y; by rewrite bump_0|].
  - destruct (proc_name user E T R Q p s Hok (fun ret path c v => ret < 0 /\ c = 0 \/ ret = 0 /\ 0 < c /\ outside R p s c = 0 /\ named path c v)
      (fun path => vfs_mkdir cur deny path mode) ptr) as (ret & s' & c & E1 & E2 & E3).
    { intros path Hp. destruct (vfs_make_ok cur deny _ Q (vfs_of s) path Hv Hm Hr (Hn path (or_introl Hp)) _ _ mode (axiomfs_mkdir_makes cur deny))
        as (ret & v & Em & He & [[Hlt Hv']|[-> (c & Hc & HRc & Hv' & Hnm)]]).
      - exists ret, v, 0. split_and!; [done|done|by apply ok_bump_0|by left].
      - exists 0, v, c. split_and!; [done|done|done|by right]. }
    exists ret, s', c. split_and!; [done|done|]. destruct E3 as [?|(path & Ep & [?|(? & ? & ? & ?)])]; [by left|by left|right]. split_and!; [done..|by exists path].
  - intros call r [[-> ->]|[-> ->]]; apply (proc_open cur deny dev_open E T R Q p s Hok); auto; [by apply (checked_total user E T R Q)|by apply (at_checked_total user E T R Q)].
Qed.

(** ** Examples *)

(** A page of user memory from 4096 on, with the string [str] at [at]. *)
Definition user_page (at_ : Z) (str : list Z) (x : Z) : option Z :=
  if (4096 <=? x) && (x <? 8192) then Some (if x <? at_ then 0 else nth (Z.to_nat (x - at_)) str 0) else None.

Lemma user_path_exact_witness : user_path (user_page 4096 [47; 97]) 4096 = Some (inr [47; 97]).
Proof.
  destruct (user_path_exact (user_page 4096 [47; 97]) 4096) as [H _]. rewrite (H [47; 97]).
  - vm_compute. reflexivity.
  - done.
  - split; [|done]. intros [|[|i]] c Hc; cbn in Hc; simplify_eq; done.
  - done.
  - intros i Hi. unfold user_page. change (chunks_of (Z.of_nat (length [47; 97])) PATH_MAX) with 64 in Hi. rewrite (proj2 (Z.leb_le 4096 (4096 + i))), (proj2 (Z.ltb_lt (4096 + i) 8192)) by lia. by eexists.
Defined.

(** The directory "/d". *)
Definition vfs_d : vfs := (default (0, vfs_root) (vfs_mkdir None (fun _ _ _ => false) [47; 100] 493 vfs_root)).2.

Lemma vfs_d_ok : exists R, vfs_ok R (fun _ => 0) vfs_d.
Proof.
  destruct vfs_root_ok as (Hok & Hm & Hr). assert (Hn : names_fit [47; 100]) by (repeat constructor; cbn; lia).
  destruct (vfs_make_ok None (fun _ _ _ => false) _ _ vfs_root [47; 100] Hok Hm Hr Hn _ _ 493 (axiomfs_mkdir_makes None (fun _ _ _ => false))) as (ret & s' & E & _ & H).
  assert (E' : vfs_make None (fun _ _ _ => false) (axiomfs_mkdir None (fun _ _ _ => false)) [47; 100] 493 vfs_root = Some (0, vfs_d)) by (vm_compute; reflexivity).
  rewrite E' in E. apply (inj Some), pair_eq in E as [<- <-]. destruct H as [[H _]|[_ (d & _ & _ & H & _)]]; [destruct (Z.lt_irrefl 0 H)|exists (bump (bump (fun _ => 0) 3 1) d 1); exact H].
Qed.

(** The entry of "/d". *)
Definition dir_d : Z := default 0 (child vfs_d 3 [100]).

Definition proc_d : process := mkProc dir_d 3 1.

Lemma proc_d_in_dir : in_dir None vfs_d proc_d [[100]].
Proof.
  split.
  - split; [done|]. eexists. split; [vm_compute; reflexivity|done].
  - repeat constructor; try done. intros H%list_elem_of_singleton. discriminate H.
  - vm_compute. reflexivity.
  - cbn. lia.
Qed.

Lemma getcwd_roundtrip_witness : exists path, sys_getcwd proc_d 4096 64 true (mkFstate vfs_d ∅ ∅) = Some (Z.of_nat (length path) + 1, path ++ [0]) /\
  resolve None vfs_d (components path []) 3 = Some dir_d /\ components path [] = [[100]].
Proof. destruct vfs_d_ok as [R HR]. apply (getcwd_roundtrip None R (fun _ => 0) (mkFstate vfs_d ∅ ∅) proc_d [[100]] 4096 64 HR proc_d_in_dir); [done|cbn; lia]. Defined.

(** "x" *)
Lemma relative_path_resolves_witness : exists out, resolve_user_path proc_d [120] PATH_MAX vfs_d = Some (inr out) /\
  resolve None vfs_d (components out []) 3 = resolve None vfs_d (components [120] []) dir_d.
Proof. destruct vfs_d_ok as [R HR]. apply (relative_path_resolves None R (fun _ => 0) vfs_d proc_d [[100]] [120] HR proc_d_in_dir); [done|cbn; lia]. Defined.

Definition proc_root : process := mkProc 0 3 1.

Lemma proc_root_ok : proc_ok (fun _ => 0) (bump (fun _ => 0) 1 1) (bump (fun _ => 0) 3 1) (fun _ => 0) proc_root files_root.
Proof.
  destruct vfs_root_ok as (_ & Hm & Hr). split.
  - intros x. apply bump_nonneg; [done|lia].
  - eapply desc_ok_ext; [|exact files_root_ok]. intros x. by rewrite bump_0.
  - exact Hm.
  - exact Hr.
  - eexists. apply lookup_singleton_eq.
Qed.

Lemma path_calls_safe_witness : exists ret s' c, sys_open (user_page 4096 [47; 97]) None (fun _ _ _ => false) (fun _ => 0) proc_root 4096 O_CREAT 420 files_root = Some (ret, s') /\
  proc_ok (fun _ => 0) (bump (fun _ => 0) 1 1) (bump (bump (fun _ => 0) 3 1) c 1) (fun _ => 0) proc_root s'.
Proof.
  destruct (path_calls_safe (user_page 4096 [47; 97]) None (fun _ _ _ => false) (fun _ => 0) _ _ _ _ proc_root files_root 4096 (-100) O_CREAT 420 proc_root_ok) as (_ & _ & _ & H).
  - assert (E1 : resolve_user_path_checked (user_page 4096 [47; 97]) proc_root 4096 PATH_MAX (vfs_of files_root) = Some (inr [47; 97])) by (vm_compute; reflexivity).
    assert (E2 : resolve_user_at_path_checked (user_page 4096 [47; 97]) proc_root (-100) 4096 PATH_MAX files_root = Some (inr [47; 97])) by (vm_compute; reflexivity).
    intros path [E|E]; [rewrite E1 in E|rewrite E2 in E]; apply (inj Some), (inj inr) in E as <-; repeat constructor; cbn; lia.
  - destruct (H _ _ (or_introl (conj eq_refl eq_refl))) as (ret & s' & c & H1 & H2 & _). exists ret, s', c. split; [exact H1|exact H2].
Defined.

(** ** What goes wrong *)

(** A string that ends near the end of the memory of the process is refused: the
    bytes after its terminator are read as well. *)
Lemma string_before_guard_refused : user_page 8189 [47; 97] 8191 = Some 0 /\ copy_user_cstring (user_page 8189 [47; 97]) 8189 PATH_MAX = Some (inl (- EFAULT)).
Proof. vm_compute. done. Qed.

(** "/d" with the devices mounted on it. *)
Definition vfs_dev : vfs := (default (0, vfs_d) (vfs_mount None (fun _ _ _ => false) false [47; 100] (Some devfs_fs_type) vfs_d)).2.

(** In the directory of the devices [getcwd] runs out of space, since the root of a
    mounted file system is its own parent, and with it every relative path fails. *)
Lemma no_cwd_in_mount : exists p s, sys_chdir (user_page 4096 [47; 100]) None (fun _ _ _ => false) proc_root 4096 (mkFstate vfs_dev ∅ ∅) = Some (0, p, s) /\
  sys_getcwd p 4096 64 true s = Some (- ENAMETOOLONG, []) /\ resolve_user_path p [110; 117; 108; 108] PATH_MAX (vfs_of s) = Some (inl (- ENAMETOOLONG)).
Proof. eexists _, _. split; [vm_compute; reflexivity|]. vm_compute. done. Qed.

(** With a descriptor of the root directory, [openat] opens the root whatever the path is. *)
Lemma openat_root_ignores_path : exists s, open_resolved None (fun _ _ _ => false) (fun _ => 0) 1 [47] 0 0 files_root = Some (3, s) /\
  resolve_user_at_path proc_root 3 [97] PATH_MAX s = Some (inr [47]).
Proof. eexists. split; [vm_compute; reflexivity|]. vm_compute. reflexivity. Qed.

(** A relative path that is too long is cut. *)
Lemma long_path_cut : resolve_user_path proc_root (replicate 10 97) 8 vfs_root = Some (inr (47 :: replicate 6 97)).
Proof. vm_compute. reflexivity. Qed.
