(* ===== verification/FileData.v ===== *)
(** * The contents of files: fs/axiomfs/file.c and the calls that read and write

    AxiomFS keeps the contents of a file in one block of memory that is replaced
    by a larger one when the file outgrows it.  The block is the list of its bytes;
    reading or writing outside of it is a fault ([None]).

    Parameters: [kmalloc n] is the block of [n] bytes that an allocation returns,
    with whatever was in it, or NULL; [kz] is the outcome of the allocation of the
    small record; [denied] is the answer of the policy to an operation. *)

From S2P Require Import Prelude SafeArith Errno Dentry Namei Files.

Abbreviation EOVERFLOW := 75%Z (only parsing).
Abbreviation POLICY_OP_WRITE := 2%Z (only parsing).
Abbreviation SEEK_SET := 0%Z (only parsing).
Abbreviation SEEK_CUR := 1%Z (only parsing).
Abbreviation SEEK_END := 2%Z (only parsing).

(** [data] is [None] when it is NULL. *)
Record axiomfs_file_data := mkData { data : option (list Z); size : Z; capacity : Z }.

(** What an inode has of its contents; [fdata] is [i_direct[0]]. *)
Record contents := mkContents { fdata : option axiomfs_file_data; c_size : Z }.

Definition load_bytes (l : list Z) (off n : Z) : option (list Z) :=
  if (0 <=? off) && (0 <=? n) && (off + n <=? Z.of_nat (length l)) then Some (take (Z.to_nat n) (drop (Z.to_nat off) l)) else None.

Definition store_bytes (l : list Z) (off : Z) (bs : list Z) : option (list Z) :=
  if (0 <=? off) && (off + Z.of_nat (length bs) <=? Z.of_nat (length l))
  then Some (take (Z.to_nat off) l ++ bs ++ drop (Z.to_nat off + length bs) l) else None.

Section Data.
Context (kmalloc : Z -> option (list Z)) (kz : bool) (denied : Z -> bool).

Definition get_file_data (i : contents) : option axiomfs_file_data * contents :=
  match fdata i with
  | Some d => (Some d, i)
  | None => if kz then let d := mkData None 0 0 in (Some d, mkContents (Some d) (c_size i)) else (None, i)
  end.

(** The result, the bytes, the position and the inode afterwards. *)
Definition axiomfs_read (count pos : Z) (i : contents) : option (Z * list Z * Z * contents) :=
  if denied POLICY_OP_READ then Some (- EACCES, [], pos, i) else
  let '(d, i) := get_file_data i in
  match d with
  | Some (mkData (Some block) size _) =>
    if pos >=? s64 size then Some (0, [], pos, i) else
    let count := if u64 (pos + count) >? size then u64 (size - pos) else count in
    bs ← load_bytes block pos count;
    Some (s64 count, bs, s64 (pos + count), i)
  | _ => Some (0, [], pos, i)
  end.

(** The block for a file of [new_size] bytes, if it has to be replaced. *)
Definition expand (new_size : Z) (d : axiomfs_file_data) : option (option axiomfs_file_data) :=
  if new_size >? capacity d then
    let new_cap := Z.max (Z.max new_size (u64 (capacity d * 2))) 4096 in
    match kmalloc new_cap with
    | None => Some None
    | Some block =>
      block ← (match data d with
               | Some old => bs ← load_bytes old 0 (size d); store_bytes block 0 bs
               | None => Some block
               end);
      Some (Some (mkData (Some block) (size d) new_cap))
    end
  else Some (Some d).

Definition axiomfs_write (append : bool) (buf : list Z) (pos : Z) (i : contents) : option (Z * Z * contents) :=
  if denied POLICY_OP_WRITE then Some (- EACCES, pos, i) else
  let '(d, i) := get_file_data i in
  match d with
  | None => Some (- ENOMEM, pos, i)
  | Some d =>
    let count := Z.of_nat (length buf) in
    let pos := if append then s64 (size d) else pos in
    r ← expand (u64 (pos + count)) d;
    match r with
    | None => Some (- ENOMEM, pos, i)
    | Some d =>
      let block := default [] (data d) in
      block ← (if pos >? s64 (size d) then store_bytes block (size d) (replicate (Z.to_nat (u64 (pos - size d))) 0) else Some block);
      block ← store_bytes block pos buf;
      let pos := s64 (pos + count) in
      let d := mkData (data d ≫= fun _ => Some block) (size d) (capacity d) in
      Some (count, pos, if pos >? s64 (size d) then mkContents (Some (mkData (data d) (u64 pos) (capacity d))) (u64 pos)
                        else mkContents (Some d) (c_size i))
    end
  end.

(** ** Through an open file *)

Definition set_f_pos (p : Z) (f : file) : file := mkFile (f_dentry f) (f_flags f) (f_mode f) p (f_count f).

(** With [pos] given, the position of the file is left alone. *)
Definition vfs_read (f : file) (count : Z) (pos : option Z) (i : contents) : option (Z * list Z * option Z * file * contents) :=
  if negb (has (f_mode f) FMODE_READ) then Some (- EBADF, [], pos, f, i) else
  '(ret, bs, ppos, i) ← axiomfs_read count (default (f_pos f) pos) i;
  Some (if ret >? 0 then match pos with
                         | Some _ => (ret, bs, Some ppos, f, i)
                         | None => (ret, bs, None, set_f_pos ppos f, i)
                         end
        else (ret, bs, pos, f, i)).

(** Nothing writes at a position of its own. *)
Definition vfs_write (f : file) (buf : list Z) (i : contents) : option (Z * file * contents) :=
  if negb (has (f_mode f) FMODE_WRITE) then Some (- EBADF, f, i) else
  '(ret, ppos, i) ← axiomfs_write (has (f_flags f) O_APPEND) buf (f_pos f) i;
  Some (if ret >? 0 then (ret, set_f_pos ppos f, i) else (ret, f, i)).

Definition generic_file_llseek (f : file) (offset whence : Z) (i : contents) : Z * file :=
  let go new_pos := if new_pos <? 0 then (- EINVAL, f) else (new_pos, set_f_pos new_pos f) in
  if whence =? SEEK_SET then go offset
  else if whence =? SEEK_CUR then go (s64 (f_pos f + offset))
  else if whence =? SEEK_END then go (s64 (c_size i + offset))
  else (- EINVAL, f).

(** ** The loops of the system calls, in chunks of 256 bytes *)

(** [copy_out n] is whether the chunk could be written to the process when [n] is
    left of the fuel; [ctrlc k] is the result of the check for an interrupt before
    chunk [k], which is made at every eighth. *)
Fixpoint read_loop (fuel : nat) (copy_out : nat -> bool) (ctrlc : Z -> Z) (k : Z) (f : file) (count : Z) (pos : option Z) (out : list Z) (i : contents) : option (Z * list Z * file * contents) :=
  let done := Z.of_nat (length out) in
  if negb (done <? count) then Some (done, out, f, i) else
  match fuel with
  | O => None
  | S fuel =>
    let chunk := Z.min (count - done) 256 in
    if (Z.land k 7 =? 0) && negb (ctrlc k =? 0) then Some (ctrlc k, out, f, i) else
    '(n, bs, pos, f, i) ← vfs_read f chunk pos i;
    if n <? 0 then Some (if done >? 0 then done else n, out, f, i) else
    if n =? 0 then Some (done, out, f, i) else
    if negb (copy_out fuel) then Some (if done >? 0 then done else - EFAULT, out, f, i) else
    let out := out ++ bs in
    if n <? chunk then Some (Z.of_nat (length out), out, f, i) else read_loop fuel copy_out ctrlc (k + 1) f count pos out i
  end.

(** [sys_read] of a file: what it returns, the bytes written at [buf], and the file. *)
Definition sys_read (copy_out : nat -> bool) (ctrlc : Z -> Z) (buf : Z) (f : file) (count : Z) (i : contents) : option (Z * list Z * file * contents) :=
  if buf =? 0 then Some (- EFAULT, [], f, i) else read_loop (Z.to_nat count) copy_out ctrlc 0 f count None [] i.

(** The same loop, without the check for an interrupt. *)
Definition sys_pread64 (copy_out : nat -> bool) (buf : Z) (f : file) (count offset : Z) (i : contents) : option (Z * list Z * file * contents) :=
  if offset <? 0 then Some (- EINVAL, [], f, i) else
  if (buf =? 0) && negb (count =? 0) then Some (- EFAULT, [], f, i) else
  if negb (count =? 0) && negb ((zig_u64_add_ok offset count).1 =? 0) then Some (- EOVERFLOW, [], f, i) else
  read_loop (Z.to_nat count) copy_out (fun _ => 0) 0 f count (Some offset) [] i.

(** [copy_in done n] are the [n] bytes that the process has [done] bytes after the
    start of its buffer, or an error. *)
Fixpoint write_loop (fuel : nat) (copy_in : Z -> Z -> option (list Z)) (f : file) (count done : Z) (i : contents) : option (Z * file * contents) :=
  if negb (done <? count) then Some (done, f, i) else
  match fuel with
  | O => None
  | S fuel =>
    let chunk := Z.min (count - done) 256 in
    match copy_in done chunk with
    | None => Some (if done >? 0 then done else - EFAULT, f, i)
    | Some bs =>
      '(n, f, i) ← vfs_write f bs i;
      if n <? 0 then Some (if done >? 0 then done else n, f, i) else
      let done := done + n in
      if n <? chunk then Some (done, f, i) else write_loop fuel copy_in f count done i
    end
  end.

Definition sys_write (copy_in : Z -> Z -> option (list Z)) (buf : Z) (f : file) (count : Z) (i : contents) : option (Z * file * contents) :=
  if (buf =? 0) && negb (count =? 0) then Some (- EFAULT, f, i) else write_loop (Z.to_nat count) copy_in f count 0 i.
End Data.
