(* ===== verification/FileDataProps.v ===== *)
(** * A file is a sequence of bytes

    Whatever block of memory holds it, a file behaves as a list of bytes: writing
    replaces the bytes at the position, after filling a gap with zeros, and reading
    returns them. *)

From S2P Require Import Prelude SafeArith Errno Dentry Namei Files FileData.

(** ** Words *)

Lemma s64_small x : - 2 ^ 63 <= x < 2 ^ 63 -> s64 x = x.
Proof. intros H. unfold s64. rewrite Z.mod_small by lia. lia. Qed.

(** ** The abstract file *)

Definition text (i : contents) : list Z :=
  match fdata i with Some (mkData (Some block) size _) => take (Z.to_nat size) block | _ => [] end.

(** [bs] at [pos], after zeros up to there. *)
Definition splice (l : list Z) (pos : Z) (bs : list Z) : list Z :=
  let l := l ++ replicate (Z.to_nat pos - length l) 0 in take (Z.to_nat pos) l ++ bs ++ drop (Z.to_nat pos + length bs) l.

Definition sub (l : list Z) (pos n : Z) : list Z := take (Z.to_nat n) (drop (Z.to_nat pos) l).

Record block_ok (d : axiomfs_file_data) : Prop := {
  bo_size : 0 <= size d <= capacity d;
  bo_cap : capacity d < 2 ^ 62;
  bo_block : match data d with Some block => Z.of_nat (length block) = capacity d | None => capacity d = 0 end
}.

Record data_ok (i : contents) : Prop := {
  ok_size : c_size i = Z.of_nat (length (text i));
  ok_block d : fdata i = Some d -> block_ok d
}.

Lemma text_length d cs : block_ok d -> Z.of_nat (length (text (mkContents (Some d) cs))) = size d.
Proof.
  intros [H1 H2 H3]. destruct d as [[block|] sz cap]; cbn in *; [rewrite length_take; lia|]. lia.
Qed.

Lemma splice_length l pos bs : 0 <= pos -> Z.of_nat (length (splice l pos bs)) = Z.max (Z.of_nat (length l)) (pos + Z.of_nat (length bs)).
Proof. intros Hp. unfold splice. rewrite !length_app, length_take, length_drop, !length_app, length_replicate. lia. Qed.

(** Two writes in a row are one. *)
Lemma splice_app l pos a b : 0 <= pos -> splice (splice l pos a) (pos + Z.of_nat (length a)) b = splice l pos (a ++ b).
Proof.
  intros Hp. pose proof (splice_length l pos a Hp) as Hl. unfold splice at 1. rewrite (proj2 (Nat.sub_0_le _ _)) by lia. cbn [replicate]. rewrite app_nil_r.
  unfold splice. set (l' := l ++ replicate _ 0). assert (Hl' : (Z.to_nat pos <= length l')%nat) by (unfold l'; rewrite length_app, length_replicate; lia).
  assert (Ht : length (take (Z.to_nat pos) l') = Z.to_nat pos) by (rewrite length_take; lia). replace (Z.to_nat (pos + Z.of_nat (length a))) with (Z.to_nat pos + length a)%nat by lia.
  rewrite (app_assoc (take (Z.to_nat pos) l') a). assert (Hla : length (take (Z.to_nat pos) l' ++ a) = (Z.to_nat pos + length a)%nat) by (rewrite length_app; lia).
  rewrite take_app_length' by done. rewrite drop_app_ge by lia. rewrite drop_drop, Hla, <- !app_assoc. do 4 f_equal. rewrite length_app. lia.
Qed.

Lemma splice_nil l pos : 0 <= pos <= Z.of_nat (length l) -> splice l pos [] = l.
Proof.
  intros Hp. unfold splice. rewrite (proj2 (Nat.sub_0_le _ _)) by lia. cbn [replicate app length]. by rewrite app_nil_r, Nat.add_0_r, take_drop.
Qed.

(** What was written is read. *)
Lemma sub_splice l pos bs : 0 <= pos -> sub (splice l pos bs) pos (Z.of_nat (length bs)) = bs.
Proof.
  intros Hp. unfold sub, splice. set (l' := l ++ replicate _ 0). assert (Hl' : (Z.to_nat pos <= length l')%nat) by (unfold l'; rewrite length_app, length_replicate; lia).
  rewrite drop_app_length' by (rewrite length_take; lia). rewrite Nat2Z.id. by rewrite take_app_length.
Qed.

Lemma sub_length (l : list Z) a n : 0 <= a -> 0 <= n -> a + n <= Z.of_nat (length l) -> Z.of_nat (length (sub l a n)) = n.
Proof. intros. unfold sub. rewrite length_take, length_drop. lia. Qed.

Lemma sub_split (l : list Z) a n m : 0 <= a -> 0 <= n -> 0 <= m -> sub l a n ++ sub l (a + n) m = sub l a (n + m).
Proof.
  intros. unfold sub. replace (Z.to_nat (a + n)) with (Z.to_nat a + Z.to_nat n)%nat by lia. rewrite <- drop_drop. replace (Z.to_nat (n + m)) with (Z.to_nat n + Z.to_nat m)%nat by lia.
  apply take_take_drop.
Qed.

Lemma sub_short (l : list Z) a n m : 0 <= a -> 0 <= n -> 0 <= m -> Z.of_nat (length (sub l a n)) < n -> sub l a (n + m) = sub l a n.
Proof. intros Ha Hn Hm Hs. unfold sub in *. rewrite length_take in Hs. rewrite !take_ge by lia. done. Qed.

Lemma sub_bound (l : list Z) a n : (length (sub l a n) <= Z.to_nat n)%nat.
Proof. unfold sub. rewrite length_take. lia. Qed.

(** ** Blocks *)

Lemma store_eq block off bs : 0 <= off -> off + Z.of_nat (length bs) <= Z.of_nat (length block) ->
  store_bytes block off bs = Some (take (Z.to_nat off) block ++ bs ++ drop (Z.to_nat off + length bs) block).
Proof. intros H1 H2. unfold store_bytes. rewrite (proj2 (Z.leb_le 0 off)), (proj2 (Z.leb_le (off + _) _)) by lia. done. Qed.

Lemma load_eq block off n : 0 <= off -> 0 <= n -> off + n <= Z.of_nat (length block) -> load_bytes block off n = Some (sub block off n).
Proof. intros H1 H2 H3. unfold load_bytes. rewrite (proj2 (Z.leb_le 0 off)), (proj2 (Z.leb_le 0 n)), (proj2 (Z.leb_le (off + n) _)) by lia. done. Qed.

Lemma stored_length (block : list Z) off (bs : list Z) : 0 <= off -> off + Z.of_nat (length bs) <= Z.of_nat (length block) ->
  length (take (Z.to_nat off) block ++ bs ++ drop (Z.to_nat off + length bs) block) = length block.
Proof. intros H1 H2. rewrite !length_app, length_take, length_drop. lia. Qed.

(** A store in a block, seen in the first [size] bytes of it. *)
Lemma store_text (block : list Z) size pos (bs : list Z) : (pos <= size <= length block)%nat ->
  take (Nat.max size (pos + length bs)) (take pos block ++ bs ++ drop (pos + length bs) block) =
  take pos (take size block) ++ bs ++ drop (pos + length bs) (take size block).
Proof.
  intros H. rewrite take_take, (Nat.min_l pos size) by lia. assert (Ht : length (take pos block) = pos) by (rewrite length_take; lia).
  rewrite (app_assoc _ bs), (app_assoc _ bs). assert (Hn : length (take pos block ++ bs) = (pos + length bs)%nat) by (rewrite length_app; lia).
  rewrite take_app_ge by lia. f_equal. rewrite Hn. rewrite skipn_firstn_comm. f_equal. lia.
Qed.

Section Data.
Context (kmalloc : Z -> option (list Z)) (kz : bool) (denied : Z -> bool).

(** An allocation returns a block of the size asked for, within memory. *)
Hypothesis (Hk : forall n block, kmalloc n = Some block -> Z.of_nat (length block) = n /\ n < 2 ^ 62).

(** The record of a file, empty while it has none. *)
Definition record_of (i : contents) : axiomfs_file_data := default (mkData None 0 0) (fdata i).

Lemma get_file_data_ok i : data_ok i ->
  exists d i', get_file_data kz i = (d, i') /\ data_ok i' /\ text i' = text i /\
    match d with
    | None => text i = [] /\ kz = false /\ i' = i /\ fdata i = None
    | Some d => fdata i' = Some d /\ block_ok d /\ c_size i' = size d /\ d = record_of i /\ (fdata i = None -> kz = true)
    end.
Proof.
  intros [H1 H2]. unfold get_file_data, record_of. destruct (fdata i) as [d|] eqn:Ed.
  - exists (Some d), i. split_and!; [done|split; [done|intros d' E; apply H2; congruence]|done|done|by apply H2| |done|done]. destruct i as [o cs]. cbn in *. subst o. rewrite H1. by apply text_length, H2.
  - assert (Ht : text i = []) by (unfold text; by rewrite Ed). destruct kz; [|by eexists None, i; split_and!; [done|split; [done|congruence]|..]].
    rewrite Ht in H1. exists (Some (mkData None 0 0)), (mkContents (Some (mkData None 0 0)) (c_size i)). split_and!; [done| |done|done|split; cbn; lia|done|done|done].
    split; [done|]. intros d [= <-]. split; cbn; lia.
Qed.

(** A file of [new_size] bytes needs a larger block and there is none: the block
    is the next one that fits, at least twice the old one and at least 4096 bytes. *)
Definition grow_refused (new_size : Z) (d : axiomfs_file_data) : bool :=
  (capacity d <? new_size) &&
  match kmalloc (Z.max (Z.max new_size (2 * capacity d)) 4096) with None => true | Some _ => false end.

(** The larger block has the same bytes. *)
Lemma expand_ok new_size d : block_ok d -> 0 <= new_size ->
  exists r, expand kmalloc new_size d = Some r /\
    match r with
    | None => grow_refused new_size d = true
    | Some d' => grow_refused new_size d = false /\ block_ok d' /\ size d' = size d /\ new_size <= capacity d' /\ text (mkContents (Some d') 0) = text (mkContents (Some d) 0)
    end.
Proof.
  intros [H1 H2 H3] Hn. unfold expand, grow_refused. rewrite Z.gtb_ltb. destruct (Z.ltb_spec (capacity d) new_size) as [Hgt|]; [|by eexists; split; [done|]; split_and!; [done|by split|done|lia|done]].
  rewrite u64_small, (Z.mul_comm _ 2) by lia. cbv zeta. cbn [andb].
  set (cap := Z.max (Z.max new_size _) 4096). destruct (kmalloc cap) as [block|] eqn:Ek; [|by eexists]. destruct (Hk _ _ Ek) as [Hl Hc].
  destruct d as [[old|] sz c]; cbn [data size capacity] in *.
  - rewrite load_eq by lia. cbn [mbind option_bind]. assert (Hs : Z.of_nat (length (sub old 0 sz)) = sz) by (unfold sub; rewrite length_take, length_drop; lia).
    rewrite store_eq by lia. cbn [mbind option_bind]. eexists. split; [done|]. split_and!; [done| |done|cbn [capacity]; lia|].
    + split; cbn [size capacity data]; [lia|lia|]. rewrite stored_length by lia. done.
    + unfold text. cbn [fdata]. rewrite Z2Nat.inj_0, take_0, app_nil_l, take_app_length' by lia. unfold sub. by rewrite drop_0.
  - cbn [mbind option_bind]. eexists. split; [done|]. split_and!; cbn; [done|split; cbn; lia|done|lia|]. assert (sz = 0) as -> by lia. done.
Qed.

(** Zeros up to [pos]. *)
Lemma fill_ok (block : list Z) size pos : 0 <= size < 2 ^ 62 -> 0 <= pos <= Z.of_nat (length block) -> size <= Z.of_nat (length block) < 2 ^ 62 ->
  exists block', (if pos >? s64 size then store_bytes block size (replicate (Z.to_nat (u64 (pos - size))) 0) else Some block) = Some block' /\ length block' = length block /\
    take (Z.to_nat (Z.max size pos)) block' = take (Z.to_nat size) block ++ replicate (Z.to_nat pos - Z.to_nat size) 0.
Proof.
  intros Hs Hp Hb. rewrite s64_small by lia. destruct (Z.gtb_spec pos size) as [Hgt|].
  - rewrite u64_small by lia. assert (Hl : Z.of_nat (length (replicate (Z.to_nat (pos - size)) 0)) = pos - size) by (rewrite length_replicate; lia).
    rewrite store_eq by lia. eexists. split; [done|]. split; [apply stored_length; lia|]. replace (Z.to_nat (Z.max size pos)) with (Z.to_nat size + Z.to_nat (pos - size))%nat by lia.
    rewrite app_assoc, take_app_length' by (rewrite length_app, length_take, length_replicate; lia). do 2 f_equal. lia.
  - exists block. split_and!; [done|done|]. rewrite Z.max_l by lia. rewrite (proj2 (Nat.sub_0_le _ _)) by lia. by rewrite app_nil_r.
Qed.

(** The error of a write of [n] bytes at [pos]: the policy denies it, there is no
    memory for the record of a file that has none, or none for a larger block. *)
Definition store_error (i : contents) (pos n : Z) : option Z :=
  if denied POLICY_OP_WRITE then Some (- EACCES)
  else if negb kz && match fdata i with None => true | Some _ => false end then Some (- ENOMEM)
  else if grow_refused (pos + n) (record_of i) then Some (- ENOMEM) else None.

Lemma axiomfs_write_ok (append : bool) (buf : list Z) pos i : data_ok i -> 0 <= pos < 2 ^ 63 -> Z.of_nat (length buf) < 2 ^ 62 ->
  let p0 := if append then Z.of_nat (length (text i)) else pos in
  let n := Z.of_nat (length buf) in
  exists ret pos' i', axiomfs_write kmalloc kz denied append buf pos i = Some (ret, pos', i') /\ data_ok i' /\
    match store_error i p0 n with
    | Some e => ret = e /\ text i' = text i /\ store_error i' p0 n = Some e
    | None => ret = n /\ pos' = p0 + n /\ pos' < 2 ^ 62 /\ text i' = splice (text i) p0 buf
    end.
Proof.
  intros Hok Hpos Hbuf p0 n. unfold axiomfs_write, store_error. destruct (denied POLICY_OP_WRITE) eqn:Edn; [by exists (- EACCES), pos, i|].
  destruct (get_file_data_ok i Hok) as (d & i1 & -> & Hok1 & Ht1 & Hd).
  destruct d as [d|]; [|destruct Hd as (_ & Ekz & -> & Ed); exists (- ENOMEM), pos, i; rewrite Ekz, Ed; by split_and!].
  destruct Hd as (Ed & Hb & Hcs & Er & Hkz). pose proof Hb as [Hs Hc Hbl]. rewrite <- Er.
  assert (Er1 : record_of i1 = d) by (unfold record_of; by rewrite Ed).
  replace (negb kz && match fdata i with None => true | Some _ => false end) with false by (destruct (fdata i); [by rewrite andb_false_r|by rewrite Hkz]).
  assert (Hlen : Z.of_nat (length (text i)) = size d) by (rewrite <- Ht1; destruct i1 as [o cs]; cbn in Ed; subst o; by apply text_length).
  assert (Ep : (if append then s64 (size d) else pos) = p0) by (unfold p0; destruct append; [rewrite s64_small by lia; lia|done]). rewrite Ep. cbv zeta.
  assert (Hp0 : 0 <= p0 < 2 ^ 63) by (unfold p0; destruct append; lia). fold n. rewrite (u64_small (p0 + n)) by lia.
  destruct (expand_ok (p0 + n) d Hb) as (r & -> & Hr); [lia|]. cbn [mbind option_bind].
  destruct r as [d'|]; [|rewrite Hr; exists (- ENOMEM), p0, i1; rewrite Ed, Er1, Hr, andb_false_r; by split_and!].
  destruct Hr as (Hgr & Hr). rewrite Hgr. unfold n.
  destruct Hr as ([Hs' Hc' Hb'] & Esz & Hcap & Et). rewrite Esz in *.
  assert (Hdd : exists block, default [] (data d') = block /\ Z.of_nat (length block) = capacity d' /\ take (Z.to_nat (size d)) block = text i).
  { eexists. split; [done|]. rewrite <- Ht1. assert (Et1 : text i1 = text (mkContents (Some d') 0)) by (rewrite Et; unfold text; rewrite Ed; done). rewrite Et1. destruct d' as [[block|] sz cap]; cbn in *; [by subst sz|].
    split; [done|]. by destruct (Z.to_nat (size d)). }
  destruct Hdd as (block & -> & Hbl1 & Htx).
  destruct (fill_ok block (size d) p0) as (block1 & -> & Hl1 & Hf1); [lia|lia|lia|]. cbn [mbind option_bind]. rewrite store_eq by lia. rewrite bind_ret. set (block2 := take _ block1 ++ _). set (dd := data d' ≫= _). cbn [data size capacity].
  assert (Hl2 : length block2 = length block1) by (apply stored_length; lia). rewrite !s64_small by lia. rewrite (u64_small (p0 + _)) by lia.
  assert (Hfin : take (Z.to_nat (Z.max (size d) (p0 + Z.of_nat (length buf)))) block2 = splice (text i) p0 buf).
  { pose proof (store_text block1 (Z.to_nat (Z.max (size d) p0)) (Z.to_nat p0) buf ltac:(lia)) as Hst. rewrite Hf1, Htx in Hst. unfold splice.
    replace (length (text i)) with (Z.to_nat (size d)) by lia. rewrite <- Hst. unfold block2. f_equal. lia. }
  set (sz := Z.max (size d) (p0 + Z.of_nat (length buf))) in *.
  assert (Hcase : (if p0 + Z.of_nat (length buf) >? size d then mkContents (Some (mkData dd (p0 + Z.of_nat (length buf)) (capacity d'))) (p0 + Z.of_nat (length buf))
                   else mkContents (Some (mkData dd (size d) (capacity d'))) (c_size i1)) = mkContents (Some (mkData dd sz (capacity d'))) sz).
  { unfold sz. rewrite Hcs. destruct (Z.gtb_spec (p0 + Z.of_nat (length buf)) (size d)); [by rewrite Z.max_r by lia|by rewrite Z.max_l by lia]. }
  rewrite Hcase. assert (Htext : text (mkContents (Some (mkData dd sz (capacity d'))) sz) = splice (text i) p0 buf).
  { rewrite <- Hfin. unfold text, dd. cbn. destruct (data d') as [b|]; cbn; [done|]. symmetry. apply length_zero_iff_nil. rewrite length_take. lia. }
  assert (Hblk : block_ok (mkData dd sz (capacity d'))).
  { split; cbn; [lia|lia|]. unfold dd. destruct (data d') as [b|]; cbn; [lia|done]. }
  eexists _, _, _. split; [done|]. split; [split; [by rewrite text_length by done|by intros ? [= <-]]|]. split_and!; [done|done|lia|done].
Qed.

Lemma axiomfs_read_ok count pos i : data_ok i -> 0 <= pos < 2 ^ 63 -> 0 <= count < 2 ^ 63 ->
  exists ret bs i', axiomfs_read kz denied count pos i = Some (ret, bs, pos + Z.of_nat (length bs), i') /\ data_ok i' /\ text i' = text i /\ (denied POLICY_OP_READ = true /\ ret = - EACCES /\ bs = [] \/ denied POLICY_OP_READ = false /\ ret = Z.of_nat (length bs) /\ bs = sub (text i) pos count).
Proof.
  intros Hok Hpos Hc. unfold axiomfs_read. destruct (denied POLICY_OP_READ); [exists (- EACCES), [], i; rewrite Z.add_0_r; split_and!; [done|done|done|by left]|].
  destruct (get_file_data_ok i Hok) as (d & i1 & -> & Hok1 & Ht1 & Hd).
  assert (Hnone : text i = [] -> exists ret bs i', Some (0, [], pos, i1) = Some (ret, bs, pos + Z.of_nat (length bs), i') /\ data_ok i' /\ text i' = text i /\ (false = true /\ ret = - EACCES /\ bs = [] \/ false = false /\ ret = Z.of_nat (length bs) /\ bs = sub (text i) pos count)).
  { intros E. exists 0, [], i1. rewrite Z.add_0_r. split_and!; [done|done|done|]. right. split_and!; [done|done|]. rewrite E. unfold sub. by rewrite drop_nil, take_nil. }
  destruct d as [[[block|] sz cap]|]; [|apply Hnone; destruct Hd as (Ed & _); rewrite <- Ht1; unfold text; by rewrite Ed|by apply Hnone, Hd].
  destruct Hd as (Ed & [Hs Hcp Hb] & _). cbn [size capacity data] in *. assert (Htx : text i = take (Z.to_nat sz) block) by (rewrite <- Ht1; unfold text; by rewrite Ed).
  rewrite s64_small by lia. rewrite Z.geb_leb. destruct (Z.leb_spec sz pos) as [Hge|Hlt].
  { exists 0, [], i1. rewrite Z.add_0_r. split_and!; [done|done|done|]. right. split_and!; [done|done|]. rewrite Htx. unfold sub. by rewrite drop_ge, take_nil by (rewrite length_take; lia). }
  cbv zeta. rewrite (u64_small (pos + count)), (u64_small (sz - pos)) by lia. set (n := if pos + count >? sz then sz - pos else count).
  assert (Hn : n = Z.min count (sz - pos)) by (unfold n; destruct (Z.gtb_spec (pos + count) sz); lia). rewrite load_eq by lia. cbn [mbind option_bind].
  assert (Hl : Z.of_nat (length (sub block pos n)) = n) by (unfold sub; rewrite length_take, length_drop; lia). rewrite !s64_small by lia.
  exists n, (sub block pos n), i1. rewrite Hl. split_and!; [done|done|done|]. right. split_and!; [done|done|]. rewrite Htx. unfold sub. rewrite skipn_firstn_comm, take_take. f_equal. lia.
Qed.

(** ** Writing *)

Section Write.
Context (copy_in : Z -> Z -> option (list Z)) (ubuf : list Z) (count : Z).
Hypothesis (Hin : forall done n bs, copy_in done n = Some bs -> bs = sub ubuf done n) (Hlen : 0 <= count <= Z.of_nat (length ubuf)).

(** Where the next write goes. *)
Definition write_pos (f : file) (i : contents) : Z := if has (f_flags f) O_APPEND then Z.of_nat (length (text i)) else f_pos f.

(** The error of a write to an open file, and of the chunk that a call copies from
    the process when [done] bytes are written. *)
Definition write_error (f : file) (i : contents) (n : Z) : option Z :=
  if negb (has (f_mode f) FMODE_WRITE) then Some (- EBADF) else store_error i (write_pos f i) n.

Definition chunk_error (f : file) (i : contents) (done : Z) : option Z :=
  let chunk := Z.min (count - done) 256 in
  match copy_in done chunk with None => Some (- EFAULT) | Some _ => write_error f i chunk end.

Lemma store_error_neg i pos n e : store_error i pos n = Some e -> e < 0.
Proof. clear Hk Hin Hlen. unfold store_error. repeat case_match; congruence || (intros [= <-]; lia). Qed.

Lemma chunk_error_neg f i done e : chunk_error f i done = Some e -> e < 0.
Proof. clear Hk Hin Hlen. unfold chunk_error, write_error. repeat case_match; intros E; simplify_eq; try lia. by eapply store_error_neg. Qed.

Lemma vfs_write_ok f bs i : data_ok i -> 0 <= f_pos f < 2 ^ 63 -> 0 < Z.of_nat (length bs) < 2 ^ 62 ->
  let n := Z.of_nat (length bs) in
  exists ret f' i', vfs_write kmalloc kz denied f bs i = Some (ret, f', i') /\ data_ok i' /\
    match write_error f i n with
    | Some e => ret = e /\ e < 0 /\ f' = f /\ text i' = text i /\ write_error f i' n = Some e
    | None => ret = n /\ f' = set_f_pos (write_pos f i + n) f /\ 0 <= f_pos f' < 2 ^ 63 /\ text i' = splice (text i) (write_pos f i) bs
    end.
Proof.
  intros Hok Hp Hb n. unfold vfs_write, write_error. destruct (has (f_mode f) FMODE_WRITE) eqn:Em; cbn [negb]; [|by exists (- EBADF), f, i].
  destruct (axiomfs_write_ok (has (f_flags f) O_APPEND) bs (f_pos f) i Hok Hp ltac:(lia)) as (ret & p' & i' & -> & Hok' & Hr). cbn [mbind option_bind].
  fold (write_pos f i) n in Hr. assert (Hw : 0 <= write_pos f i) by (clear - Hp; unfold write_pos; destruct (has (f_flags f) _); lia).
  destruct (store_error i (write_pos f i) n) as [e|] eqn:Ee.
  - destruct Hr as (-> & Ht & Ee'). pose proof (store_error_neg _ _ _ _ Ee). rewrite Z.gtb_ltb, (proj2 (Z.ltb_ge 0 e)) by lia.
    exists e, f, i'. split_and!; try done. by unfold write_pos in *; rewrite Ht.
  - destruct Hr as (-> & -> & Hp' & Ht). rewrite Z.gtb_ltb, (proj2 (Z.ltb_lt 0 _)) by lia.
    eexists _, _, _. split_and!; [done|done|done|done|cbn; lia|cbn; lia|done].
Qed.

(** What a call leaves behind when [m] more bytes are stored from [done] on. *)
Definition stored (f : file) (i : contents) (done m : Z) (f' : file) (i' : contents) : Prop :=
  if m =? 0 then f' = f /\ text i' = text i
  else f' = set_f_pos (write_pos f i + m) f /\ text i' = splice (text i) (write_pos f i) (sub ubuf done m).

Lemma stored_trans f i done a b f1 i1 f' i' :
  0 <= write_pos f i -> 0 < a -> 0 <= done -> done + a <= count -> 0 <= b -> done + a + b <= count ->
  stored f i done a f1 i1 -> stored f1 i1 (done + a) b f' i' -> stored f i done (a + b) f' i'.
Proof.
  intros Hw Ha Hd Hda Hb Hc. unfold stored. rewrite (proj2 (Z.eqb_neq a 0)), (proj2 (Z.eqb_neq (a + b) 0)) by lia. intros [Ef Ht].
  assert (Hs : Z.of_nat (length (sub ubuf done a)) = a) by (apply sub_length; lia).
  assert (Ew : write_pos f1 i1 = write_pos f i + a).
  { subst f1. unfold write_pos in *. cbn. destruct (has (f_flags f) O_APPEND) eqn:Ea; [|done]. rewrite Ht, splice_length by done. lia. }
  destruct (Z.eqb_spec b 0) as [->|].
  - intros [-> ->]. rewrite Z.add_0_r. done.
  - intros [-> ->]. split; [rewrite Ew; subst f1; unfold set_f_pos; cbn; by rewrite Z.add_assoc|].
    rewrite Ht, Ew. rewrite <- Hs at 2. rewrite splice_app, sub_split by lia. done.
Qed.

(** [m] more bytes are stored; the call stops before the end only where the next
    chunk has an error, which it returns when nothing is stored. *)
Lemma write_loop_ok fuel : forall f done i, data_ok i -> 0 <= f_pos f < 2 ^ 63 -> 0 <= done <= count -> count - done <= Z.of_nat fuel ->
  exists n f' i' m, write_loop kmalloc kz denied fuel copy_in f count done i = Some (n, f', i') /\ data_ok i' /\ 0 <= m <= count - done /\
    stored f i done m f' i' /\
    if done + m =? count then n = count else exists e, chunk_error f' i' (done + m) = Some e /\ n = if done + m =? 0 then e else done + m.
Proof.
  induction fuel as [|fuel IH]; intros f done i Hok Hp Hd Hf; cbn [write_loop].
  { rewrite (proj2 (Z.ltb_ge done count)) by lia. exists done, f, i, 0. split_and!; [done|done|lia|lia|done|]. rewrite (proj2 (Z.eqb_eq _ _)) by lia. lia. }
  destruct (Z.ltb_spec done count) as [Hlt|]; cbn [negb].
  2: { exists done, f, i, 0. split_and!; [done|done|lia|lia|done|]. rewrite (proj2 (Z.eqb_eq _ _)) by lia. lia. }
  set (chunk := Z.min (count - done) 256).
  assert (Hstop : forall e i1, data_ok i1 -> text i1 = text i -> chunk_error f i1 done = Some e ->
    exists n f' i' m, Some (if done >? 0 then done else e, f, i1) = Some (n, f', i') /\ data_ok i' /\ 0 <= m <= count - done /\ stored f i done m f' i' /\
      if done + m =? count then n = count else exists e, chunk_error f' i' (done + m) = Some e /\ n = if done + m =? 0 then e else done + m).
  { intros e i1 Hok1 Ht1 Ee. eexists _, f, i1, 0. split_and!; [done|done|lia|lia|done|]. rewrite Z.add_0_r, (proj2 (Z.eqb_neq done count)) by lia.
    exists e. split; [done|]. destruct (Z.gtb_spec done 0), (Z.eqb_spec done 0); done || lia. }
  destruct (copy_in done chunk) as [bs|] eqn:Ec; [|apply Hstop; [done|done|unfold chunk_error; fold chunk; by rewrite Ec]].
  assert (Hbs : Z.of_nat (length bs) = chunk) by (rewrite (Hin _ _ _ Ec); apply sub_length; lia).
  destruct (vfs_write_ok f bs i Hok Hp) as (ret & f1 & i1 & -> & Hok1 & Hr); [lia|]. cbn [mbind option_bind]. rewrite Hbs in Hr.
  destruct (write_error f i chunk) as [e|].
  { destruct Hr as (-> & He & -> & Ht & Ee). rewrite (proj2 (Z.ltb_lt e 0)) by lia. apply Hstop; [done|done|]. unfold chunk_error. fold chunk. by rewrite Ec. }
  destruct Hr as (-> & Ef & Hp1 & Ht). rewrite (proj2 (Z.ltb_ge chunk 0)), Z.ltb_irrefl by lia.
  destruct (IH f1 (done + chunk) i1 Hok1 Hp1) as (n & f' & i' & m & -> & Hok' & Hm & Hst & Hwhy); [lia|lia|].
  exists n, f', i', (chunk + m). split_and!; [done|done|lia|lia| |by rewrite Z.add_assoc].
  apply (stored_trans f i done chunk m f1 i1); [clear - Hp; unfold write_pos; destruct (has (f_flags f) _); lia|lia..| |done].
  unfold stored. rewrite (proj2 (Z.eqb_neq chunk 0)) by lia. split; [done|]. by rewrite Ht, (Hin _ _ _ Ec).
Qed.
End Write.

(** ** Reading *)

Section Read.
Context (copy_out : nat -> bool) (count : Z).
Hypothesis (Hout : forall k, copy_out k = true) (Hread : denied POLICY_OP_READ = false).

Lemma vfs_read_ok f n pos i : has (f_mode f) FMODE_READ = true -> data_ok i -> 0 <= default (f_pos f) pos < 2 ^ 63 -> 0 <= n < 2 ^ 63 ->
  exists i', let bs := sub (text i) (default (f_pos f) pos) n in let p' := default (f_pos f) pos + Z.of_nat (length bs) in
    vfs_read kz denied f n pos i = Some (Z.of_nat (length bs), bs, match pos with Some _ => Some p' | None => None end, match pos with Some _ => f | None => set_f_pos p' f end, i') /\
    data_ok i' /\ text i' = text i.
Proof.
  intros Hm Hok Hp Hn. unfold vfs_read. rewrite Hm. cbn [negb]. destruct (axiomfs_read_ok n (default (f_pos f) pos) i Hok Hp Hn) as (ret & bs & i' & -> & Hok' & Ht & [(? & _)|(_ & -> & ->)]); [congruence|].
  cbn [mbind option_bind]. exists i'. cbv zeta. split; [|done]. rewrite Z.gtb_ltb. destruct (Z.ltb_spec 0 (Z.of_nat (length (sub (text i) (default (f_pos f) pos) n)))) as [Hpos|Hz].
  - by destruct pos.
  - replace (Z.of_nat (length (sub (text i) (default (f_pos f) pos) n))) with 0 by lia. rewrite Z.add_0_r. destruct pos; [done|]. by destruct f.
Qed.

Lemma read_done f pos out i p0 : data_ok i -> Z.of_nat (length out) = count -> default (f_pos f) pos = p0 + Z.of_nat (length out) -> out = sub (text i) p0 (Z.of_nat (length out)) ->
  exists i', let res := sub (text i) p0 count in
    Some (Z.of_nat (length out), out, f, i) = Some (Z.of_nat (length res), res, match pos with Some _ => f | None => set_f_pos (p0 + Z.of_nat (length res)) f end, i') /\
    data_ok i' /\ text i' = text i.
Proof.
  intros Hok Hc Hp Ho. exists i. cbv zeta. assert (E : sub (text i) p0 count = out) by (rewrite <- Hc; by symmetry). rewrite E. split; [|done]. do 2 f_equal.
  destruct pos; [done|]. cbn in Hp. rewrite <- Hp. by destruct f.
Qed.

Lemma read_loop_ok ctrlc (Hint : forall k, ctrlc k = 0) fuel : forall k f pos out i p0, has (f_mode f) FMODE_READ = true -> data_ok i -> 0 <= p0 -> p0 + count < 2 ^ 63 ->
  Z.of_nat (length out) <= count -> count - Z.of_nat (length out) <= Z.of_nat fuel -> default (f_pos f) pos = p0 + Z.of_nat (length out) -> out = sub (text i) p0 (Z.of_nat (length out)) ->
  exists i', let res := sub (text i) p0 count in
    read_loop kz denied fuel copy_out ctrlc k f count pos out i = Some (Z.of_nat (length res), res, match pos with Some _ => f | None => set_f_pos (p0 + Z.of_nat (length res)) f end, i') /\
    data_ok i' /\ text i' = text i.
Proof.
  induction fuel as [|fuel IH]; intros k f pos out i p0 Hm Hok H0 Hc Hl Hfu Hp Ho; cbn [read_loop]; cbv zeta.
  { rewrite (proj2 (Z.ltb_ge _ count)) by lia. cbn [negb]. apply read_done; (done || lia). }
  destruct (Z.ltb_spec (Z.of_nat (length out)) count) as [Hlt|Hge]; cbn [negb]; [|apply read_done; (done || lia)]. rewrite Hint, andb_false_r.
  set (chunk := Z.min (count - Z.of_nat (length out)) 256). destruct (vfs_read_ok f chunk pos i Hm Hok) as (i1 & Ev & Hok1 & Ht1); [lia|lia|]. cbv zeta in Ev. rewrite Ev, bind_ret. clear Ev. rewrite Hp.
  set (bs := sub (text i) (p0 + Z.of_nat (length out)) chunk). pose proof (sub_bound (text i) (p0 + Z.of_nat (length out)) chunk) as Hbl. fold bs in Hbl.
  assert (Happ : out ++ bs = sub (text i) p0 (Z.of_nat (length out) + chunk)) by (rewrite Ho at 1; apply sub_split; lia).
  rewrite (proj2 (Z.ltb_ge _ 0)) by lia. destruct (Z.eqb_spec (Z.of_nat (length bs)) 0) as [E0|Hn0].
  { assert (bs = []) as Eb by (apply length_zero_iff_nil; lia). rewrite Eb, app_nil_r in Happ.
    assert (Hres : sub (text i) p0 count = out). { rewrite Ho. symmetry. replace count with (Z.of_nat (length out) + (count - Z.of_nat (length out))) by lia. rewrite <- sub_split by lia.
      assert (Hz : sub (text i) (p0 + Z.of_nat (length out)) (count - Z.of_nat (length out)) = []). { replace (count - Z.of_nat (length out)) with (chunk + (count - Z.of_nat (length out) - chunk)) by lia. rewrite sub_short; [exact Eb|lia|lia|lia|fold bs; lia]. }
      by rewrite Hz, app_nil_r. }
    exists i1. rewrite Hres. split; [|done]. do 2 f_equal. destruct pos; [done|]. cbn in *. rewrite E0, Z.add_0_r. reflexivity. }
  rewrite Hout. cbn [negb].
  destruct (Z.ltb_spec (Z.of_nat (length bs)) chunk) as [Hshort|Hfull].
  - assert (Hres : sub (text i) p0 count = out ++ bs). { rewrite Ho at 1. replace count with (Z.of_nat (length out) + (count - Z.of_nat (length out))) at 1 by lia. rewrite <- sub_split by lia. f_equal.
      replace (count - Z.of_nat (length out)) with (chunk + (count - Z.of_nat (length out) - chunk)) by lia. apply sub_short; [lia|lia|lia|fold bs; lia]. }
    exists i1. rewrite Hres. split; [|done]. destruct pos; [done|]. by rewrite length_app, Nat2Z.inj_add, Z.add_assoc.
  - assert (Hc' : Z.of_nat (length (out ++ bs)) = Z.of_nat (length out) + chunk) by (rewrite length_app; lia).
    edestruct (IH (k + 1) (match pos with Some _ => f | None => set_f_pos (p0 + Z.of_nat (length out) + Z.of_nat (length bs)) f end) (match pos with Some _ => Some (p0 + Z.of_nat (length out) + Z.of_nat (length bs)) | None => None end) (out ++ bs) i1 p0) as (i2 & E2 & Hok2 & Ht2).
    + by destruct pos.
    + done.
    + done.
    + done.
    + lia.
    + lia.
    + rewrite Hc'. destruct pos; cbn; lia.
    + rewrite Ht1, Hc'. exact Happ.
    + exists i2. cbv zeta in E2. rewrite E2, Ht1. split; [|split; [done|congruence]]. by destruct pos.
Qed.
End Read.
End Data.

(** C10. Writing to a file replaces bytes: [write] stores the first [m] bytes of the
    buffer at the position of the file (at its end with [O_APPEND]), with zeros
    before them if the file was shorter, changes nothing else in it and advances
    the position.  It stores all of them and returns their number, unless the chunk
    of up to 256 bytes that comes next cannot be written, in the state that the
    call leaves: it cannot be copied from the process, the file is not open for
    writing, the policy denies it, or the record or the larger block that this
    chunk needs cannot be allocated.  Then it returns [m], or the error when [m]
    is 0. *)
Theorem write_splices kmalloc kz denied copy_in ubuf buf f count i
    (Hk : forall n block, kmalloc n = Some block -> Z.of_nat (length block) = n /\ n < 2 ^ 62)
    (Hin : forall done n bs, copy_in done n = Some bs -> bs = sub ubuf done n) (Hc : 0 < count <= Z.of_nat (length ubuf)) (Hb : buf <> 0)
    (Hok : data_ok i) (Hp : 0 <= f_pos f < 2 ^ 63) :
  exists n f' i' m, sys_write kmalloc kz denied copy_in buf f count i = Some (n, f', i') /\ data_ok i' /\ 0 <= m <= count /\
    (if m =? 0 then f' = f /\ text i' = text i
     else f' = set_f_pos (write_pos f i + m) f /\ text i' = splice (text i) (write_pos f i) (take (Z.to_nat m) ubuf)) /\
    if m =? count then n = count
    else exists e, chunk_error kmalloc kz denied copy_in count f' i' m = Some e /\ n = if m =? 0 then e else m.
Proof.
  unfold sys_write. rewrite (proj2 (Z.eqb_neq buf 0)) by done. cbn [andb].
  destruct (write_loop_ok kmalloc kz denied Hk copy_in ubuf count Hin ltac:(lia) (Z.to_nat count) f 0 i Hok Hp) as (n & f' & i' & m & -> & Hok' & Hm & Hst & Hwhy); [lia|lia|].
  exists n, f', i', m. rewrite Z.sub_0_r in Hm. split_and!; [done|done|lia|lia|exact Hst|exact Hwhy].
Qed.

(** C29. What was written is read back: when [write] stored [n] bytes, reading [n]
    bytes at the place where it began returns exactly these bytes, with [pread],
    which leaves the file and its position as they were, and with [read] from that
    position, which it advances, unless an interrupt is typed meanwhile. *)
Theorem write_read_roundtrip kmalloc kz denied copy_in copy_out ctrlc ubuf buf f count i n f' i'
    (Hk : forall n block, kmalloc n = Some block -> Z.of_nat (length block) = n /\ n < 2 ^ 62)
    (Hin : forall done n bs, copy_in done n = Some bs -> bs = sub ubuf done n) (Hc : 0 < count <= Z.of_nat (length ubuf)) (Hb : buf <> 0)
    (Hok : data_ok i) (Hp : 0 <= f_pos f < 2 ^ 63) (Hlim : write_pos f i + count < 2 ^ 63) (Hout : forall k, copy_out k = true) (Hint : forall k, ctrlc k = 0) (Hread : denied POLICY_OP_READ = false)
    (Hm : has (f_mode f') FMODE_READ = true)
    (Hw : sys_write kmalloc kz denied copy_in buf f count i = Some (n, f', i')) (Hn : 0 < n) :
  exists i2, sys_pread64 kz denied copy_out buf f' n (write_pos f i) i' = Some (n, take (Z.to_nat n) ubuf, f', i2) /\ text i2 = text i' /\
  exists i3, sys_read kz denied copy_out ctrlc buf (set_f_pos (write_pos f i) f') n i' = Some (n, take (Z.to_nat n) ubuf, set_f_pos (write_pos f i + n) f', i3).
Proof.
  assert (Hw0 : 0 <= write_pos f i) by (clear - Hp; unfold write_pos; destruct (has (f_flags f) _); lia).
  unfold sys_write in Hw. rewrite (proj2 (Z.eqb_neq buf 0)) in Hw by done. cbn [andb] in Hw.
  destruct (write_loop_ok kmalloc kz denied Hk copy_in ubuf count Hin ltac:(lia) (Z.to_nat count) f 0 i Hok Hp) as (n1 & f1 & i1 & m & E & Hok' & Hmc & Hst & Hwhy); [lia|lia|].
  rewrite Hw in E. injection E as <- <- <-. assert (m = n) as ->.
  { destruct (Z.eqb_spec (0 + m) count); [lia|]. destruct Hwhy as (e & Ee & ->). destruct (Z.eqb_spec (0 + m) 0); [|lia].
    apply chunk_error_neg in Ee. lia. }
  unfold stored in Hst. rewrite (proj2 (Z.eqb_neq n 0)) in Hst by lia. destruct Hst as [_ Ht].
  assert (Es : sub (text i') (write_pos f i) n = take (Z.to_nat n) ubuf).
  { rewrite Ht. rewrite <- (sub_length ubuf 0 n) at 2 by lia. rewrite sub_splice by done. unfold sub. by rewrite drop_0. }
  assert (Hl : Z.of_nat (length (take (Z.to_nat n) ubuf)) = n) by (rewrite length_take; lia).
  destruct (read_loop_ok kz denied copy_out n Hout Hread (fun _ => 0) (fun _ => eq_refl) (Z.to_nat n) 0 f' (Some (write_pos f i)) [] i' (write_pos f i) Hm Hok') as (i2 & E2 & _ & Ht2); [lia|lia|cbn; lia|cbn; lia|cbn; lia|done|].
  destruct (read_loop_ok kz denied copy_out n Hout Hread ctrlc Hint (Z.to_nat n) 0 (set_f_pos (write_pos f i) f') None [] i' (write_pos f i) Hm Hok') as (i3 & E3 & _ & _); [lia|lia|cbn; lia|cbn; lia|cbn; lia|done|].
  cbv zeta in E2, E3. rewrite Es, Hl in E2, E3. exists i2. split_and!; [|done|exists i3].
  - unfold sys_pread64. rewrite (proj2 (Z.ltb_ge _ 0)), (proj2 (Z.eqb_neq buf 0)) by lia. cbn [andb]. unfold zig_u64_add_ok. cbn [fst]. rewrite Z.geb_leb, (proj2 (Z.leb_gt (2 ^ 64) _)) by lia. by rewrite andb_false_r.
  - unfold sys_read. rewrite (proj2 (Z.eqb_neq buf 0)) by done. exact E3.
Qed.

(** ** Examples *)

Definition blocks (n : Z) : option (list Z) := if (0 <=? n) && (n <=? 8192) then Some (replicate (Z.to_nat n) 7) else None.

Lemma blocks_size n block : blocks n = Some block -> Z.of_nat (length block) = n /\ n < 2 ^ 62.
Proof. unfold blocks. destruct (Z.leb_spec 0 n), (Z.leb_spec n 8192); try done. intros [= <-]. rewrite length_replicate. lia. Qed.

(** "abc", written at 5 in an empty file. *)
Definition file_rw : file := mkFile 1 0 3 5 1.

Definition copy_abc (done n : Z) : option (list Z) := Some (sub [97; 98; 99] done n).

Lemma no_data_ok : data_ok (mkContents None 0).
Proof. split; [done|]. done. Qed.

Lemma write_splices_witness : exists f' i', sys_write blocks true (fun _ => false) copy_abc 4096 file_rw 3 (mkContents None 0) = Some (3, f', i') /\ data_ok i' /\
  f_pos f' = 8 /\ text i' = [0; 0; 0; 0; 0; 97; 98; 99].
Proof.
  destruct (write_splices blocks true (fun _ => false) copy_abc [97; 98; 99] 4096 file_rw 3 (mkContents None 0) blocks_size) as (n & f' & i' & m & H1 & H2 & H3 & H4 & H5);
    [unfold copy_abc; congruence|cbn; lia|lia|apply no_data_ok|cbn; lia|].
  assert (E : option_map (fun x => x.1.1) (sys_write blocks true (fun _ => false) copy_abc 4096 file_rw 3 (mkContents None 0)) = Some 3) by (vm_compute; reflexivity).
  rewrite H1 in E. injection E as ->. destruct (Z.eqb_spec m 3) as [->|].
  - destruct H4 as [-> H4]. exists (set_f_pos 8 file_rw), i'. split; [exact H1|]. split; [exact H2|]. split; [reflexivity|]. rewrite H4. vm_compute. reflexivity.
  - destruct H5 as (e & H5%chunk_error_neg & H6). destruct (Z.eqb_spec m 0); lia.
Defined.

Lemma write_read_roundtrip_witness : exists f' i' i2, sys_write blocks true (fun _ => false) copy_abc 4096 file_rw 3 (mkContents None 0) = Some (3, f', i') /\
  sys_pread64 true (fun _ => false) (fun _ => true) 4096 f' 3 5 i' = Some (3, [97; 98; 99], f', i2) /\ text i2 = text i'.
Proof.
  destruct (sys_write blocks true (fun _ => false) copy_abc 4096 file_rw 3 (mkContents None 0)) as [[[n f'] i']|] eqn:E; [|vm_compute in E; discriminate E].
  assert (En : n = 3 /\ f' = mkFile 1 0 3 8 1) by (vm_compute in E; injection E as <- <- _; split; reflexivity). destruct En as [-> ->].
  destruct (write_read_roundtrip blocks true (fun _ => false) copy_abc (fun _ => true) (fun _ => 0) [97; 98; 99] 4096 file_rw 3 (mkContents None 0) 3 (mkFile 1 0 3 8 1) i' blocks_size) as (i2 & H1 & H2 & _);
    [unfold copy_abc; congruence|cbn; lia|lia|apply no_data_ok|cbn; lia|vm_compute; reflexivity|reflexivity|reflexivity|reflexivity|reflexivity|exact E|lia|].
  exists (mkFile 1 0 3 8 1), i', i2. split; [reflexivity|]. split; [exact H1|exact H2].
Defined.

(** An interrupt that is typed while a file is read makes [read] report that nothing
    was read, although 2048 bytes were: they are skipped when the call is repeated. *)
Lemma interrupted_read_skips : exists i,
  sys_read true (fun _ => false) (fun _ => true) (fun k => if k =? 8 then -4 else 0) 4096 (mkFile 1 0 1 0 1) 4096
    (mkContents (Some (mkData (Some (replicate 4096 97)) 4096 4096)) 4096) = Some (-4, replicate 2048 97, mkFile 1 0 1 2048 1, i).
Proof. eexists. vm_compute. reflexivity. Qed.
