(* ===== verification/Net.v ===== *)
(** * The network core: net/core.c

    One network device, an ARP cache of one entry, a DHCP client, UDP and ICMP
    messages kept in rings for the processes, and eight TCP connections.

    A frame is the list of its bytes; structures are laid out in them as on the
    little-endian machine (Bytes), so that [htons] and [ntohs] swap.  A received
    frame is the memory [buf] that can be read from its start on, and its length;
    reading outside of [buf], or outside of any other array, is a fault ([None]).
    [tx n frame] is what the driver answers to the [n]-th frame handed to it; the
    frames handed to it so far are [sent].  The frames a driver delivers when it is
    polled are an argument of [net_tick].  Counters that nothing reads, the name of
    the device and log output are left out, and so are the checks for NULL: callers
    pass the addresses of their own variables. *)

From S2P Require Import Prelude Errno Bytes.

Abbreviation ENODEV := 19%Z (only parsing).
Abbreviation EMFILE := 24%Z (only parsing).
Abbreviation ENETDOWN := 100%Z (only parsing).
Abbreviation ECONNRESET := 104%Z (only parsing).
Abbreviation ENOTCONN := 107%Z (only parsing).
Abbreviation EHOSTUNREACH := 113%Z (only parsing).
Abbreviation ETH_TYPE_ARP := 2054%Z (only parsing).
Abbreviation ETH_TYPE_IPV4 := 2048%Z (only parsing).
Abbreviation ARP_HTYPE_ETHERNET := 1%Z (only parsing).
Abbreviation ARP_PTYPE_IPV4 := 2048%Z (only parsing).
Abbreviation ARP_OP_REQUEST := 1%Z (only parsing).
Abbreviation ARP_OP_REPLY := 2%Z (only parsing).
Abbreviation IPV4_PROTO_ICMP := 1%Z (only parsing).
Abbreviation IPV4_PROTO_TCP := 6%Z (only parsing).
Abbreviation IPV4_PROTO_UDP := 17%Z (only parsing).
Abbreviation ICMP_ECHO_REPLY := 0%Z (only parsing).
Abbreviation ICMP_ECHO_REQUEST := 8%Z (only parsing).
Abbreviation UDP_PORT_DHCP_SERVER := 67%Z (only parsing).
Abbreviation UDP_PORT_DHCP_CLIENT := 68%Z (only parsing).
Abbreviation DHCP_OP_BOOTREQUEST := 1%Z (only parsing).
Abbreviation DHCP_OP_BOOTREPLY := 2%Z (only parsing).
Abbreviation DHCP_MAGIC_COOKIE := 1669485411%Z (only parsing).
Abbreviation DHCP_OPT_MSG_TYPE := 53%Z (only parsing).
Abbreviation DHCP_OPT_SUBNET_MASK := 1%Z (only parsing).
Abbreviation DHCP_OPT_ROUTER := 3%Z (only parsing).
Abbreviation DHCP_OPT_REQ_IP := 50%Z (only parsing).
Abbreviation DHCP_OPT_SERVER_ID := 54%Z (only parsing).
Abbreviation DHCP_OPT_PARAM_REQ := 55%Z (only parsing).
Abbreviation DHCP_OPT_END := 255%Z (only parsing).
Abbreviation DHCP_MSG_DISCOVER := 1%Z (only parsing).
Abbreviation DHCP_MSG_OFFER := 2%Z (only parsing).
Abbreviation DHCP_MSG_REQUEST := 3%Z (only parsing).
Abbreviation DHCP_MSG_ACK := 5%Z (only parsing).
Abbreviation DHCP_MIN_PKT_LEN := 240%Z (only parsing).
Abbreviation DHCP_RETRY_TICKS := 200%Z (only parsing).
Abbreviation DHCP_MAX_RETRIES := 5%Z (only parsing).
Abbreviation NET_EVENT_RING := 32%Z (only parsing).
Abbreviation NET_TCP_CONN_MAX := 8%Z (only parsing).
Abbreviation NET_TCP_RX_BUF := 4096%Z (only parsing).
Abbreviation NET_TCP_TX_BUF := 1200%Z (only parsing).
Abbreviation NET_TCP_TX_RETRY_TICKS := 200%Z (only parsing).
Abbreviation NET_TCP_TX_MAX_RETRIES := 8%Z (only parsing).
Abbreviation FRAME_MAX := 1514%Z (only parsing).
Abbreviation TCP_FLAG_FIN := 1%Z (only parsing).
Abbreviation TCP_FLAG_SYN := 2%Z (only parsing).
Abbreviation TCP_FLAG_RST := 4%Z (only parsing).
Abbreviation TCP_FLAG_PSH := 8%Z (only parsing).
Abbreviation TCP_FLAG_ACK := 16%Z (only parsing).

(** ** State *)

Record net_dev := mkDev { present : bool; mac : list Z; ip : list Z; mask : list Z; gw : list Z; has_poll : bool }.

Record arp_cache_entry := mkArp { arp_valid : bool; arp_ip : list Z; arp_mac : list Z }.

Record net_icmp_event := mkIcmp { ic_src_ip : list Z; ic_packet_len : Z; ic_packet : list Z }.

Record net_udp_event := mkUdp { ud_src_ip : list Z; ud_src_port : Z; ud_dst_port : Z; ud_payload_len : Z; ud_payload : list Z }.

(** The events of one kind, with the indices of the next slot to fill and of the
    oldest event. *)
Record ring (A : Type) := mkRing { ring_slots : list A; ring_head : Z; ring_tail : Z }.
Arguments mkRing {A}.
Arguments ring_slots {A}.
Arguments ring_head {A}.
Arguments ring_tail {A}.

Inductive tcp_conn_state := TCP_CONN_FREE | TCP_CONN_SYN_SENT | TCP_CONN_ESTABLISHED | TCP_CONN_CLOSED.

(** The segment that is sent again until it is acknowledged. *)
Record tcp_tx := mkTx { tx_pending : bool; tx_seq : Z; tx_ack : Z; tx_flags : Z; tx_len : Z; tx_buf : list Z }.

Record tcp_conn := mkConn {
  used : bool; c_state : tcp_conn_state; remote_ip : list Z; local_port : Z; remote_port : Z;
  snd_una : Z; snd_nxt : Z; rcv_nxt : Z; last_tx_tick : Z; c_retries : Z; peer_closed : bool;
  rx_buf : list Z; rx_len : Z; c_tx : tcp_tx }.

Inductive dhcp_state := DHCP_DISABLED | DHCP_DISCOVER_SENT | DHCP_REQUEST_SENT | DHCP_BOUND | DHCP_FAILED.

Record dhcp_client_state := mkDhcp {
  dh_state : dhcp_state; dh_xid : Z; dh_last_event_tick : Z; dh_retries : Z;
  offered_ip : list Z; offered_mask : list Z; offered_router : list Z; server_id : list Z }.

Record net := mkNet {
  g_dev : net_dev; g_arp : arp_cache_entry; g_tick_count : Z; g_icmp : ring net_icmp_event; g_udp : ring net_udp_event;
  g_tcp_conns : list tcp_conn; g_dhcp : dhcp_client_state; sent : list (list Z) }.

#[export] Instance tcp_conn_state_eq_dec : EqDecision tcp_conn_state.
Proof. solve_decision. Defined.
#[export] Instance dhcp_state_eq_dec : EqDecision dhcp_state.
Proof. solve_decision. Defined.

Definition with_dev (d : net_dev) (s : net) : net := mkNet d (g_arp s) (g_tick_count s) (g_icmp s) (g_udp s) (g_tcp_conns s) (g_dhcp s) (sent s).
Definition with_arp (a : arp_cache_entry) (s : net) : net := mkNet (g_dev s) a (g_tick_count s) (g_icmp s) (g_udp s) (g_tcp_conns s) (g_dhcp s) (sent s).
Definition with_ticks (t : Z) (s : net) : net := mkNet (g_dev s) (g_arp s) t (g_icmp s) (g_udp s) (g_tcp_conns s) (g_dhcp s) (sent s).
Definition with_icmp (r : ring net_icmp_event) (s : net) : net := mkNet (g_dev s) (g_arp s) (g_tick_count s) r (g_udp s) (g_tcp_conns s) (g_dhcp s) (sent s).
Definition with_udp (r : ring net_udp_event) (s : net) : net := mkNet (g_dev s) (g_arp s) (g_tick_count s) (g_icmp s) r (g_tcp_conns s) (g_dhcp s) (sent s).
Definition with_conns (l : list tcp_conn) (s : net) : net := mkNet (g_dev s) (g_arp s) (g_tick_count s) (g_icmp s) (g_udp s) l (g_dhcp s) (sent s).
Definition with_dhcp (d : dhcp_client_state) (s : net) : net := mkNet (g_dev s) (g_arp s) (g_tick_count s) (g_icmp s) (g_udp s) (g_tcp_conns s) d (sent s).
Definition with_sent (l : list (list Z)) (s : net) : net := mkNet (g_dev s) (g_arp s) (g_tick_count s) (g_icmp s) (g_udp s) (g_tcp_conns s) (g_dhcp s) l.

Definition set_conn (i : nat) (c : tcp_conn) (s : net) : net := with_conns (<[i := c]> (g_tcp_conns s)) s.

Definition set_tx (t : tcp_tx) (c : tcp_conn) : tcp_conn :=
  mkConn (used c) (c_state c) (remote_ip c) (local_port c) (remote_port c) (snd_una c) (snd_nxt c) (rcv_nxt c) (last_tx_tick c) (c_retries c) (peer_closed c) (rx_buf c) (rx_len c) t.
Definition set_sent_at (tick retries : Z) (c : tcp_conn) : tcp_conn :=
  mkConn (used c) (c_state c) (remote_ip c) (local_port c) (remote_port c) (snd_una c) (snd_nxt c) (rcv_nxt c) tick retries (peer_closed c) (rx_buf c) (rx_len c) (c_tx c).
Definition set_snd (una nxt : Z) (c : tcp_conn) : tcp_conn :=
  mkConn (used c) (c_state c) (remote_ip c) (local_port c) (remote_port c) una nxt (rcv_nxt c) (last_tx_tick c) (c_retries c) (peer_closed c) (rx_buf c) (rx_len c) (c_tx c).
Definition set_rcv (nxt : Z) (buf : list Z) (len : Z) (c : tcp_conn) : tcp_conn :=
  mkConn (used c) (c_state c) (remote_ip c) (local_port c) (remote_port c) (snd_una c) (snd_nxt c) nxt (last_tx_tick c) (c_retries c) (peer_closed c) buf len (c_tx c).
Definition set_state (u : bool) (st : tcp_conn_state) (closed : bool) (c : tcp_conn) : tcp_conn :=
  mkConn u st (remote_ip c) (local_port c) (remote_port c) (snd_una c) (snd_nxt c) (rcv_nxt c) (last_tx_tick c) (c_retries c) closed (rx_buf c) (rx_len c) (c_tx c).
Definition set_pending (p : bool) (len : Z) (t : tcp_tx) : tcp_tx := mkTx p (tx_seq t) (tx_ack t) (tx_flags t) len (tx_buf t).

(** ** Bytes *)

Definition bswap16 (v : Z) : Z := u16 (Z.lor (Z.shiftl v 8) (Z.shiftr v 8)).

Definition bswap32 (v : Z) : Z :=
  Z.lor (Z.lor (Z.lor (Z.shiftl (Z.land v 255) 24) (Z.shiftl (Z.land v 65280) 8)) (Z.shiftr (Z.land v 16711680) 8)) (Z.shiftr (Z.land v 4278190080) 24).

Definition htons (v : Z) : Z := bswap16 v.
Definition ntohs (v : Z) : Z := bswap16 v.
Definition htonl (v : Z) : Z := bswap32 v.
Definition ntohl (v : Z) : Z := bswap32 v.

(** The [n] bytes of [buf] from [off] on. *)
Definition rd (buf : list Z) (off n : Z) : option (list Z) :=
  if (0 <=? off) && (0 <=? n) && (off + n <=? Z.of_nat (length buf)) then Some (take (Z.to_nat n) (drop (Z.to_nat off) buf)) else None.

Definition rd_int (buf : list Z) (off n : Z) : option Z := l ← rd buf off n; Some (le_value l).

Definition ip_in_same_subnet (a b m : list Z) : bool :=
  (Z.land (aget a 0) (aget m 0) =? Z.land (aget b 0) (aget m 0)) && (Z.land (aget a 1) (aget m 1) =? Z.land (aget b 1) (aget m 1)) &&
  (Z.land (aget a 2) (aget m 2) =? Z.land (aget b 2) (aget m 2)) && (Z.land (aget a 3) (aget m 3) =? Z.land (aget b 3) (aget m 3)).

Definition ip_equal (a b : list Z) : bool :=
  (aget a 0 =? aget b 0) && (aget a 1 =? aget b 1) && (aget a 2 =? aget b 2) && (aget a 3 =? aget b 3).

Definition ip_zero (a : list Z) : bool := (aget a 0 =? 0) && (aget a 1 =? 0) && (aget a 2 =? 0) && (aget a 3 =? 0).

(** ** Checksums *)

(** The sum of the 16-bit words, the first byte being the high one. *)
Fixpoint sum_words (sum : Z) (p : list Z) : Z :=
  match p with
  | a :: b :: p => sum_words (u32 (sum + Z.lor (Z.shiftl a 8) b)) p
  | [a] => u32 (sum + Z.shiftl a 8)
  | [] => sum
  end.

Fixpoint fold_carry (fuel : nat) (sum : Z) : option Z :=
  if Z.shiftr sum 16 =? 0 then Some sum else
  match fuel with
  | O => None
  | S fuel => fold_carry fuel (u32 (Z.land sum 65535 + Z.shiftr sum 16))
  end.

Definition ip_checksum (buf : list Z) : option Z :=
  sum ← fold_carry 3 (sum_words 0 buf); Some (Z.land (Z.lnot sum) 65535).

Definition tcp_checksum (src_ip dst_ip segment : list Z) : option Z :=
  let pair a i := Z.lor (Z.shiftl (aget a i) 8) (aget a (i + 1)) in
  let add sum x := u32 (sum + x) in
  let sum := add (add (add (add 0 (pair src_ip 0)) (pair dst_ip 0)) (pair src_ip 2)) (pair dst_ip 2) in
  let sum := add (add sum IPV4_PROTO_TCP) (u32 (Z.of_nat (length segment))) in
  sum ← fold_carry 3 (sum_words sum segment); Some (Z.land (Z.lnot sum) 65535).

(** ** Event rings *)

Definition ring_next (i : Z) : Z := u32 (i + 1) mod NET_EVENT_RING.

(** The common part of [udp_event_push] and [icmp_event_push]: the oldest event is
    dropped when the ring is full. *)
Definition ring_push {A} (e : A) (r : ring A) : option (ring A) :=
  let next := ring_next (ring_head r) in
  let tail := if next =? ring_tail r then ring_next (ring_tail r) else ring_tail r in
  _ ← ring_slots r !! Z.to_nat (ring_head r);
  Some (mkRing (<[Z.to_nat (ring_head r) := e]> (ring_slots r)) next tail).

(** [payload] is what can be read from the address that is passed on. *)
Definition udp_event_push (src_ip : list Z) (src_port dst_port : Z) (payload : list Z) (payload_len : Z) (s : net) : option net :=
  let payload_len := if payload_len >? 512 then 512 else payload_len in
  bytes ← rd payload 0 payload_len;
  r ← ring_push (mkUdp src_ip src_port dst_port payload_len (overlay bytes (replicate 512 0))) (g_udp s);
  Some (with_udp r s).

Definition icmp_event_push (src_ip packet : list Z) (packet_len : Z) (s : net) : option net :=
  let packet_len := if packet_len >? 256 then 256 else packet_len in
  bytes ← rd packet 0 packet_len;
  r ← ring_push (mkIcmp src_ip packet_len (overlay bytes (replicate 256 0))) (g_icmp s);
  Some (with_icmp r s).

Definition net_recv_icmp_echo_event (s : net) : option (sum Z net_icmp_event * net) :=
  let r := g_icmp s in
  if ring_head r =? ring_tail r then Some (inl (- EAGAIN), s) else
  e ← ring_slots r !! Z.to_nat (ring_tail r);
  Some (inr e, with_icmp (mkRing (ring_slots r) (ring_head r) (ring_next (ring_tail r))) s).

(** The loop that moves the events after [cur] forward by one. *)
Fixpoint ring_shift {A} (fuel : nat) (cur next : Z) (r : ring A) : option (ring A) :=
  if next =? ring_head r then Some r else
  match fuel with
  | O => None
  | S fuel =>
    e ← ring_slots r !! Z.to_nat next;
    ring_shift fuel next (ring_next next) (mkRing (<[Z.to_nat cur := e]> (ring_slots r)) (ring_head r) (ring_tail r))
  end.

(** The search from [idx] on, and the removal of what it finds. *)
Fixpoint udp_take (fuel : nat) (port idx : Z) (r : ring net_udp_event) : option (option net_udp_event * ring net_udp_event) :=
  if idx =? ring_head r then Some (None, r) else
  match fuel with
  | O => None
  | S fuel =>
    e ← ring_slots r !! Z.to_nat idx;
    if (port =? 0) || (ud_dst_port e =? port) then
      r ← ring_shift (Z.to_nat NET_EVENT_RING) idx (ring_next idx) r;
      Some (Some e, mkRing (ring_slots r) (u32 (ring_head r + NET_EVENT_RING - 1) mod NET_EVENT_RING) (ring_tail r))
    else udp_take fuel port (ring_next idx) r
  end.

Definition net_recv_udp_event (port : Z) (s : net) : option (sum Z net_udp_event * net) :=
  if ring_head (g_udp s) =? ring_tail (g_udp s) then Some (inl (- EAGAIN), s) else
  '(e, r) ← udp_take (Z.to_nat NET_EVENT_RING) port (ring_tail (g_udp s)) (g_udp s);
  Some (match e with Some e => inr e | None => inl (- EAGAIN) end, with_udp r s).

(** ** Sending *)

Section Send.
Context (tx : nat -> list Z -> Z).

(** A device that is present has been registered with a transmit function. *)
Definition net_tx_raw (frame : list Z) (s : net) : Z * net :=
  if negb (present (g_dev s)) then (- ENODEV, s) else (tx (length (sent s)) frame, with_sent (sent s ++ [frame]) s).

(** The layout of the headers. *)
Definition eth_hdr (dst src : list Z) (ethertype : Z) : list Z := dst ++ src ++ le_bytes 2 ethertype.

Definition arp_hdr (oper : Z) (sha spa tha tpa : list Z) : list Z :=
  le_bytes 2 (htons ARP_HTYPE_ETHERNET) ++ le_bytes 2 (htons ARP_PTYPE_IPV4) ++ [6; 4] ++ le_bytes 2 oper ++ sha ++ spa ++ tha ++ tpa.

Definition ipv4_hdr (total_len protocol checksum : Z) (saddr daddr : list Z) : list Z :=
  [69; 0] ++ le_bytes 2 total_len ++ le_bytes 2 0 ++ le_bytes 2 0 ++ [64; protocol] ++ le_bytes 2 checksum ++ saddr ++ daddr.

Definition udp_hdr (src_port dst_port len : Z) : list Z := le_bytes 2 src_port ++ le_bytes 2 dst_port ++ le_bytes 2 len ++ le_bytes 2 0.

Definition tcp_hdr (src_port dst_port seq ack doff_flags window checksum : Z) : list Z :=
  le_bytes 2 src_port ++ le_bytes 2 dst_port ++ le_bytes 4 seq ++ le_bytes 4 ack ++ le_bytes 2 doff_flags ++ le_bytes 2 window ++ le_bytes 2 checksum ++ le_bytes 2 0.

(** The IPv4 header that all senders fill in alike, with its checksum. *)
Definition ipv4_header (ip_len protocol : Z) (saddr daddr : list Z) : option (list Z) :=
  c ← ip_checksum (ipv4_hdr (htons (u16 ip_len)) protocol 0 saddr daddr);
  Some (ipv4_hdr (htons (u16 ip_len)) protocol (htons c) saddr daddr).

Definition send_ipv4_udp (dst_mac src_ip dst_ip : list Z) (src_port dst_port : Z) (payload : list Z) (s : net) : option (Z * net) :=
  let payload_len := Z.of_nat (length payload) in
  let ip_len := 20 + 8 + payload_len in
  if (payload_len =? 0) || (14 + ip_len >? FRAME_MAX) then Some (- EINVAL, s) else
  hdr ← ipv4_header ip_len IPV4_PROTO_UDP src_ip dst_ip;
  Some (net_tx_raw (eth_hdr dst_mac (mac (g_dev s)) (htons ETH_TYPE_IPV4) ++ hdr ++
                    udp_hdr (htons src_port) (htons dst_port) (htons (u16 (8 + payload_len))) ++ payload) s).

Definition send_ipv4_tcp (dst_mac src_ip dst_ip : list Z) (src_port dst_port seq ack flags : Z) (payload : list Z) (s : net) : option (Z * net) :=
  let payload_len := Z.of_nat (length payload) in
  let tcp_len := 20 + payload_len in
  let ip_len := 20 + tcp_len in
  if (14 + ip_len >? FRAME_MAX) || (payload_len >? FRAME_MAX - (14 + 20 + 20)) then Some (- EMSGSIZE, s) else
  hdr ← ipv4_header ip_len IPV4_PROTO_TCP src_ip dst_ip;
  let tcp c := tcp_hdr (htons src_port) (htons dst_port) (htonl seq) (htonl ack) (htons (u16 (Z.lor (Z.shiftl 5 12) (Z.land flags 511)))) (htons 4096) c in
  c ← tcp_checksum src_ip dst_ip (tcp 0 ++ payload);
  Some (net_tx_raw (eth_hdr dst_mac (mac (g_dev s)) (htons ETH_TYPE_IPV4) ++ hdr ++ tcp (htons c) ++ payload) s).

Definition send_ipv4_icmp (dst_mac src_ip dst_ip icmp : list Z) (s : net) : option (Z * net) :=
  let icmp_len := Z.of_nat (length icmp) in
  let ip_len := 20 + icmp_len in
  if (icmp_len =? 0) || (14 + ip_len >? FRAME_MAX) then Some (- EINVAL, s) else
  hdr ← ipv4_header ip_len IPV4_PROTO_ICMP src_ip dst_ip;
  Some (net_tx_raw (eth_hdr dst_mac (mac (g_dev s)) (htons ETH_TYPE_IPV4) ++ hdr ++ icmp) s).

Definition broadcast_mac : list Z := replicate 6 255.

Definition send_arp_reply (sha spa dst_mac : list Z) (s : net) : Z * net :=
  net_tx_raw (eth_hdr dst_mac (mac (g_dev s)) (htons ETH_TYPE_ARP) ++ arp_hdr (htons ARP_OP_REPLY) (mac (g_dev s)) (ip (g_dev s)) sha spa) s.

Definition send_arp_request (target_ip : list Z) (s : net) : Z * net :=
  net_tx_raw (eth_hdr broadcast_mac (mac (g_dev s)) (htons ETH_TYPE_ARP) ++ arp_hdr (htons ARP_OP_REQUEST) (mac (g_dev s)) (ip (g_dev s)) (replicate 6 0) target_ip) s.

(** The address of the next hop, or an error. *)
Definition resolve_l2_next_hop (dst_ip : list Z) (s : net) : sum Z (list Z) * net :=
  let d := g_dev s in
  if negb (ip_in_same_subnet (ip d) dst_ip (mask d)) && ip_zero (gw d) then (inl (- EHOSTUNREACH), s) else
  let nh_ip := if ip_in_same_subnet (ip d) dst_ip (mask d) then dst_ip else gw d in
  if arp_valid (g_arp s) && ip_equal (arp_ip (g_arp s)) nh_ip then (inr (arp_mac (g_arp s)), s) else
  (inl (- EAGAIN), (send_arp_request nh_ip s).2).

Definition net_down (s : net) : bool := negb (bool_decide (dh_state (g_dhcp s) = DHCP_BOUND)) && ip_zero (ip (g_dev s)).

Definition net_send_icmp_echo (dst_ip icmp : list Z) (s : net) : option (Z * net) :=
  if negb (present (g_dev s)) || (Z.of_nat (length icmp) =? 0) then Some (- EINVAL, s) else
  if net_down s then Some (- ENETDOWN, s) else
  match resolve_l2_next_hop dst_ip s with
  | (inl ret, s) => Some (ret, s)
  | (inr dst_mac, s) => send_ipv4_icmp dst_mac (ip (g_dev s)) dst_ip icmp s
  end.

Definition net_send_udp (dst_ip : list Z) (src_port dst_port : Z) (payload : list Z) (s : net) : option (Z * net) :=
  if negb (present (g_dev s)) || (Z.of_nat (length payload) =? 0) then Some (- EINVAL, s) else
  if (src_port =? 0) || (dst_port =? 0) then Some (- EINVAL, s) else
  if net_down s then Some (- ENETDOWN, s) else
  match resolve_l2_next_hop dst_ip s with
  | (inl ret, s) => Some (ret, s)
  | (inr dst_mac, s) => send_ipv4_udp dst_mac (ip (g_dev s)) dst_ip src_port dst_port payload s
  end.

(** ** TCP connections *)

Definition zero_tx : tcp_tx := mkTx false 0 0 0 0 (replicate (Z.to_nat NET_TCP_TX_BUF) 0).

Definition zero_conn : tcp_conn :=
  mkConn false TCP_CONN_FREE [0; 0; 0; 0] 0 0 0 0 0 0 0 false (replicate (Z.to_nat NET_TCP_RX_BUF) 0) 0 zero_tx.

Definition tcp_conn_by_id (id : Z) (s : net) : option tcp_conn :=
  if (id <? 0) || (id >=? NET_TCP_CONN_MAX) then None else
  c ← g_tcp_conns s !! Z.to_nat id;
  if negb (used c) then None else Some c.

(** The index of the connection. *)
Definition tcp_find_conn (rip : list Z) (rport lport : Z) (s : net) : option nat :=
  x ← list_find (fun c => used c = true /\ c_state c <> TCP_CONN_CLOSED /\ local_port c = lport /\ remote_port c = rport /\ ip_equal (remote_ip c) rip = true)
       (g_tcp_conns s);
  Some x.1.

Definition tcp_send_on_conn (i : nat) (seq ack flags : Z) (payload : list Z) (track_retry : bool) (s : net) : option (Z * net) :=
  c ← g_tcp_conns s !! i;
  match resolve_l2_next_hop (remote_ip c) s with
  | (inl ret, s) => Some (ret, s)
  | (inr dst_mac, s) =>
    '(ret, s) ← send_ipv4_tcp dst_mac (ip (g_dev s)) (remote_ip c) (local_port c) (remote_port c) seq ack flags payload s;
    if ret <? 0 then Some (ret, s) else
    let c := set_sent_at (u32 (g_tick_count s)) (if track_retry then 0 else c_retries c) c in
    let n := if Z.of_nat (length payload) >? NET_TCP_TX_BUF then NET_TCP_TX_BUF else Z.of_nat (length payload) in
    let c := if track_retry then set_tx (mkTx true seq ack flags n (overlay (take (Z.to_nat n) payload) (tx_buf (c_tx c)))) c else c in
    Some (0, set_conn i c s)
  end.

Definition syn_conn (dst_ip : list Z) (lport dport tick : Z) : tcp_conn :=
  let una := Z.lxor (Z.lxor (Z.lxor 268435456 (u32 tick)) (u32 (Z.shiftl lport 8))) dport in
  mkConn true TCP_CONN_SYN_SENT dst_ip lport dport una (u32 (una + 1)) 0 0 0 false (replicate (Z.to_nat NET_TCP_RX_BUF) 0) 0 zero_tx.

(** The result and the identifier of the connection. *)
Definition net_tcp_connect (dst_ip : list Z) (dst_port lport : Z) (s : net) : option (Z * Z * net) :=
  if (dst_port =? 0) || (lport =? 0) then Some (- EINVAL, 0, s) else
  if negb (present (g_dev s)) then Some (- ENETDOWN, 0, s) else
  match find_range (fun i => match g_tcp_conns s !! Z.to_nat i with Some c => negb (used c) | None => false end) 0 NET_TCP_CONN_MAX with
  | None => Some (- EMFILE, 0, s)
  | Some slot =>
    let c := syn_conn dst_ip lport dst_port (g_tick_count s) in
    '(_, s) ← tcp_send_on_conn (Z.to_nat slot) (snd_una c) 0 TCP_FLAG_SYN [] true (set_conn (Z.to_nat slot) c s);
    Some (0, slot, s)
  end.

Definition net_tcp_is_connected (id : Z) (s : net) : Z :=
  match tcp_conn_by_id id s with
  | None => - ENOTCONN
  | Some c => match c_state c with TCP_CONN_ESTABLISHED => 1 | TCP_CONN_CLOSED => - ECONNRESET | _ => 0 end
  end.

Definition net_tcp_send (id : Z) (data : list Z) (s : net) : option (Z * net) :=
  let len := Z.of_nat (length data) in
  match tcp_conn_by_id id s with
  | None => Some (- EINVAL, s)
  | Some c =>
    if len =? 0 then Some (- EINVAL, s) else
    if negb (bool_decide (c_state c = TCP_CONN_ESTABLISHED)) || peer_closed c then Some (- ENOTCONN, s) else
    if len >? NET_TCP_TX_BUF then Some (- EMSGSIZE, s) else
    if tx_pending (c_tx c) then Some (- EAGAIN, s) else
    '(ret, s) ← tcp_send_on_conn (Z.to_nat id) (snd_nxt c) (rcv_nxt c) (Z.lor TCP_FLAG_ACK TCP_FLAG_PSH) data true s;
    if ret <? 0 then Some (- EAGAIN, s) else
    c ← g_tcp_conns s !! Z.to_nat id;
    Some (len, set_conn (Z.to_nat id) (set_snd (snd_una c) (u32 (snd_nxt c + u32 len)) c) s)
  end.

(** The result, the bytes copied out, and whether the peer has closed. *)
Definition net_tcp_recv (id len : Z) (s : net) : option (Z * list Z * bool * net) :=
  match tcp_conn_by_id id s with
  | None => Some (- EINVAL, [], false, s)
  | Some c =>
    if len =? 0 then Some (- EINVAL, [], false, s) else
    if rx_len c =? 0 then Some (if peer_closed c then 0 else - EAGAIN, [], peer_closed c, s) else
    let n := if len <? rx_len c then len else rx_len c in
    out ← rd (rx_buf c) 0 n;
    let buf := for_range n (rx_len c) (fun i buf => aset buf (i - n) (aget buf i)) (rx_buf c) in
    Some (n, out, peer_closed c, set_conn (Z.to_nat id) (set_rcv (rcv_nxt c) buf (rx_len c - n) c) s)
  end.

Definition net_tcp_close (id : Z) (s : net) : option (Z * net) :=
  match tcp_conn_by_id id s with
  | None => Some (- ENOTCONN, s)
  | Some c =>
    s ← (if bool_decide (c_state c = TCP_CONN_ESTABLISHED)
         then '(_, s) ← tcp_send_on_conn (Z.to_nat id) (snd_nxt c) (rcv_nxt c) (Z.lor TCP_FLAG_FIN TCP_FLAG_ACK) [] false s; Some s
         else Some s);
    Some (0, set_conn (Z.to_nat id) zero_conn s)
  end.

(** ** The DHCP client *)

Definition dhcp_packet (op xid flags : Z) (yiaddr chaddr : list Z) (magic : Z) (options : list Z) : list Z :=
  [op; 1; 6; 0] ++ le_bytes 4 xid ++ le_bytes 2 0 ++ le_bytes 2 flags ++ le_bytes 4 0 ++ yiaddr ++ le_bytes 4 0 ++ le_bytes 4 0 ++
  overlay chaddr (replicate 16 0) ++ replicate 64 0 ++ replicate 128 0 ++ le_bytes 4 magic ++ overlay options (replicate 312 0).

Definition set_dhcp (st : dhcp_state) (tick retries : Z) (d : dhcp_client_state) : dhcp_client_state :=
  mkDhcp st (dh_xid d) tick retries (offered_ip d) (offered_mask d) (offered_router d) (server_id d).

(** Both requests are broadcast, from the address 0. *)
Definition dhcp_send (st : dhcp_state) (options : list Z) (s : net) : option (Z * net) :=
  let pkt := dhcp_packet DHCP_OP_BOOTREQUEST (htonl (dh_xid (g_dhcp s))) (htons 32768) (replicate 4 0) (mac (g_dev s)) (htonl DHCP_MAGIC_COOKIE) options in
  let s := with_dhcp (set_dhcp st (u32 (g_tick_count s)) (u32 (dh_retries (g_dhcp s) + 1)) (g_dhcp s)) s in
  send_ipv4_udp broadcast_mac (replicate 4 0) (replicate 4 255) UDP_PORT_DHCP_CLIENT UDP_PORT_DHCP_SERVER pkt s.

Definition dhcp_send_discover (s : net) : option (Z * net) :=
  dhcp_send DHCP_DISCOVER_SENT
    [DHCP_OPT_MSG_TYPE; 1; DHCP_MSG_DISCOVER; DHCP_OPT_PARAM_REQ; 3; DHCP_OPT_SUBNET_MASK; DHCP_OPT_ROUTER; DHCP_OPT_SERVER_ID; DHCP_OPT_END] s.

Definition dhcp_send_request (s : net) : option (Z * net) :=
  dhcp_send DHCP_REQUEST_SENT
    ([DHCP_OPT_MSG_TYPE; 1; DHCP_MSG_REQUEST; DHCP_OPT_REQ_IP; 4] ++ offered_ip (g_dhcp s) ++ [DHCP_OPT_SERVER_ID; 4] ++ server_id (g_dhcp s) ++ [DHCP_OPT_END]) s.

Definition set_addresses (a m g : list Z) (d : net_dev) : net_dev := mkDev (present d) (mac d) a m g (has_poll d).

Definition dhcp_apply_fallback_static (s : net) : net :=
  let s := with_dev (set_addresses [10; 0; 2; 15] [255; 255; 255; 0] [10; 0; 2; 2] (g_dev s)) s in
  (send_arp_request (gw (g_dev s)) s).2.

(** What the options said. *)
Record dhcp_options := mkOpts { have_type : bool; msg_type : Z; o_mask : list Z; o_router : list Z; o_server : list Z }.

(** [opts] is what can be read from the options on. *)
Fixpoint dhcp_parse_loop (fuel : nat) (opts : list Z) (opts_len i : Z) (o : dhcp_options) : option dhcp_options :=
  if negb (i <? opts_len) then Some o else
  match fuel with
  | O => None
  | S fuel =>
    code ← rd_int opts i 1;
    let i := i + 1 in
    if code =? DHCP_OPT_END then Some o else
    if code =? 0 then dhcp_parse_loop fuel opts opts_len i o else
    if i >=? opts_len then Some o else
    len ← rd_int opts i 1;
    let i := i + 1 in
    if i + len >? opts_len then Some o else
    o ← (if (code =? DHCP_OPT_MSG_TYPE) && (len =? 1) then t ← rd_int opts i 1; Some (mkOpts true t (o_mask o) (o_router o) (o_server o))
         else if (code =? DHCP_OPT_SUBNET_MASK) && (len =? 4) then m ← rd opts i 4; Some (mkOpts (have_type o) (msg_type o) m (o_router o) (o_server o))
         else if (code =? DHCP_OPT_ROUTER) && (len >=? 4) then r ← rd opts i 4; Some (mkOpts (have_type o) (msg_type o) (o_mask o) r (o_server o))
         else if (code =? DHCP_OPT_SERVER_ID) && (len =? 4) then v ← rd opts i 4; Some (mkOpts (have_type o) (msg_type o) (o_mask o) (o_router o) v)
         else Some o);
    dhcp_parse_loop fuel opts opts_len (i + len) o
  end.

Definition dhcp_parse_options (opts : list Z) (opts_len : Z) (o : dhcp_options) : option dhcp_options :=
  dhcp_parse_loop (Z.to_nat opts_len) opts opts_len 0 o.

(** [pkt] is what can be read from the packet on. *)
Definition dhcp_on_offer (pkt : list Z) (opts_len : Z) (s : net) : option net :=
  o ← dhcp_parse_options (drop 240 pkt) opts_len (mkOpts false 0 [0; 0; 0; 0] [0; 0; 0; 0] [0; 0; 0; 0]);
  if negb (have_type o) then Some s else
  if negb (msg_type o =? DHCP_MSG_OFFER) || negb (bool_decide (dh_state (g_dhcp s) = DHCP_DISCOVER_SENT)) then Some s else
  yiaddr ← rd pkt 16 4;
  let d := g_dhcp s in
  '(_, s) ← dhcp_send_request (with_dhcp (mkDhcp (dh_state d) (dh_xid d) (dh_last_event_tick d) (dh_retries d) yiaddr (o_mask o) (o_router o) (o_server o)) s);
  Some s.

Definition dhcp_on_ack (pkt : list Z) (opts_len : Z) (s : net) : option net :=
  o ← dhcp_parse_options (drop 240 pkt) opts_len (mkOpts false 0 [255; 255; 255; 0] [0; 0; 0; 0] [0; 0; 0; 0]);
  if negb (have_type o) then Some s else
  if negb (msg_type o =? DHCP_MSG_ACK) || negb (bool_decide (dh_state (g_dhcp s) = DHCP_REQUEST_SENT)) then Some s else
  yiaddr ← rd pkt 16 4;
  let d := g_dhcp s in
  let s := with_dhcp (set_dhcp DHCP_BOUND (dh_last_event_tick d) (dh_retries d) d) (with_dev (set_addresses yiaddr (o_mask o) (o_router o) (g_dev s)) s) in
  Some (if negb (ip_zero (gw (g_dev s))) then (send_arp_request (gw (g_dev s)) s).2 else s).

Definition dhcp_tick (s : net) : option net :=
  let d := g_dhcp s in
  match dh_state d with
  | DHCP_BOUND | DHCP_FAILED => Some s
  | st =>
    if negb (present (g_dev s)) then Some s else
    match st with
    | DHCP_DISABLED => '(_, s) ← dhcp_send_discover s; Some s
    | _ =>
      if u32 (u32 (g_tick_count s) - dh_last_event_tick d) <? DHCP_RETRY_TICKS then Some s else
      if dh_retries d >=? DHCP_MAX_RETRIES then
        Some (dhcp_apply_fallback_static (with_dhcp (set_dhcp DHCP_FAILED (dh_last_event_tick d) (dh_retries d) d) s)) else
      match st with
      | DHCP_DISCOVER_SENT => '(_, s) ← dhcp_send_discover s; Some s
      | _ => '(_, s) ← dhcp_send_request s; Some s
      end
    end
  end.

(** ** Initialisation *)

Definition zero_ring {A} (e : A) : ring A := mkRing (replicate (Z.to_nat NET_EVENT_RING) e) 0 0.

(** The frames sent are no state of the network core. *)
Definition net_init (s : net) : net :=
  mkNet (mkDev false (replicate 6 0) (replicate 4 0) (replicate 4 0) (replicate 4 0) false) (mkArp false (replicate 4 0) (replicate 6 0)) 0
    (zero_ring (mkIcmp (replicate 4 0) 0 (replicate 256 0))) (zero_ring (mkUdp (replicate 4 0) 0 0 0 (replicate 512 0)))
    (replicate (Z.to_nat NET_TCP_CONN_MAX) zero_conn)
    (mkDhcp DHCP_DISABLED 0 0 0 (replicate 4 0) (replicate 4 0) (replicate 4 0) (replicate 4 0)) (sent s).

(** For a driver with a transmit function; [poll] is whether it can be polled. *)
Definition net_register_device (dev_mac : list Z) (poll : bool) (s : net) : Z * net :=
  if present (g_dev s) then (- EBUSY, s) else
  let s := with_dev (mkDev true dev_mac [10; 0; 2; 15] [255; 255; 255; 0] [10; 0; 2; 2] poll) s in
  let d := g_dhcp s in
  let xid := Z.lxor (Z.lxor 186515456 (Z.shiftl (aget dev_mac 2) 8)) (aget dev_mac 5) in
  let s := with_dhcp (mkDhcp DHCP_DISABLED xid 0 0 (offered_ip d) (offered_mask d) (offered_router d) (server_id d)) s in
  (0, (send_arp_request (gw (g_dev s)) s).2).

Definition net_is_ready (s : net) : bool := present (g_dev s).

(** ** Receiving *)

Definition arp_cache_update (a m : list Z) (s : net) : net := with_arp (mkArp true a m) s.

Definition arp_input (buf : list Z) (len : Z) (s : net) : option net :=
  if len <? 14 + 28 then Some s else
  htype ← rd_int buf 14 2; ptype ← rd_int buf 16 2; hlen ← rd_int buf 18 1; plen ← rd_int buf 19 1;
  if negb (ntohs htype =? ARP_HTYPE_ETHERNET) || negb (ntohs ptype =? ARP_PTYPE_IPV4) || negb (hlen =? 6) || negb (plen =? 4) then Some s else
  oper ← rd_int buf 20 2; sha ← rd buf 22 6; spa ← rd buf 28 4; tpa ← rd buf 38 4; src ← rd buf 6 6;
  let s := arp_cache_update spa sha s in
  Some (if (ntohs oper =? ARP_OP_REQUEST) && ip_equal tpa (ip (g_dev s)) then (send_arp_reply sha spa src s).2 else s).

(** From here on [payload] is what can be read from the payload of the IPv4 packet
    on, which says it has [payload_len] bytes. *)
Definition udp_input (saddr daddr payload : list Z) (payload_len : Z) (s : net) : option net :=
  if payload_len <? 8 then Some s else
  sport ← rd_int payload 0 2; dport ← rd_int payload 2 2; l ← rd_int payload 4 2;
  let src_port := ntohs sport in let dst_port := ntohs dport in let ulen := ntohs l in
  if (ulen >=? 8) && (ulen <=? payload_len) && (dst_port =? UDP_PORT_DHCP_CLIENT) && (src_port =? UDP_PORT_DHCP_SERVER) &&
     bool_decide (dh_state (g_dhcp s) = DHCP_DISCOVER_SENT \/ dh_state (g_dhcp s) = DHCP_REQUEST_SENT) then
    let pkt := drop 8 payload in
    let dlen := ulen - 8 in
    if dlen <? DHCP_MIN_PKT_LEN then Some s else
    op ← rd_int pkt 0 1; xid ← rd_int pkt 4 4; magic ← rd_int pkt 236 4;
    if (op =? DHCP_OP_BOOTREPLY) && (ntohl xid =? dh_xid (g_dhcp s)) && (magic =? htonl DHCP_MAGIC_COOKIE) then
      let opts_len := if dlen - DHCP_MIN_PKT_LEN >? 312 then 312 else dlen - DHCP_MIN_PKT_LEN in
      s ← dhcp_on_offer pkt opts_len s; dhcp_on_ack pkt opts_len s
    else Some s
  else if ip_equal daddr (ip (g_dev s)) && (ulen >? 8) then udp_event_push saddr src_port dst_port (drop 8 payload) (ulen - 8) s
  else Some s.

(** The acknowledgement of a segment. *)
Definition tcp_ack_input (flags ack : Z) (c : tcp_conn) : tcp_conn :=
  if flagb flags TCP_FLAG_ACK && (ack >? snd_una c) then
    let c := set_snd ack (snd_nxt c) c in
    if tx_pending (c_tx c) && (ack >=? tx_seq (c_tx c) + tx_len (c_tx c)) then set_tx (set_pending false 0 (c_tx c)) c else c
  else c.

(** Acknowledges what has been received. *)
Definition tcp_send_ack (i : nat) (s : net) : option net :=
  c ← g_tcp_conns s !! i;
  '(_, s) ← tcp_send_on_conn i (snd_nxt c) (rcv_nxt c) TCP_FLAG_ACK [] false s;
  Some s.

(** The data of a segment; [data] is what can be read from it on. *)
Definition tcp_data_input (i : nat) (seq : Z) (data : list Z) (len : Z) (s : net) : option net :=
  if len >? 0 then
    c ← g_tcp_conns s !! i;
    if seq =? rcv_nxt c then
      let room := u64 (NET_TCP_RX_BUF - rx_len c) in
      let n := if len <? room then len else room in
      s ← (if n >? 0 then
             bytes ← rd data 0 n;
             if rx_len c + n >? Z.of_nat (length (rx_buf c)) then None else
             Some (set_conn i (set_rcv (u32 (rcv_nxt c + u32 n)) (take (Z.to_nat (rx_len c)) (rx_buf c) ++ bytes ++ drop (Z.to_nat (rx_len c + n)) (rx_buf c)) (rx_len c + n) c) s)
           else Some s);
      tcp_send_ack i s
    else tcp_send_ack i s
  else Some s.

Definition tcp_fin_input (i : nat) (flags seq len : Z) (s : net) : option net :=
  if flagb flags TCP_FLAG_FIN then
    c ← g_tcp_conns s !! i;
    let c := if u32 (seq + u32 len) =? rcv_nxt c then set_rcv (u32 (rcv_nxt c + 1)) (rx_buf c) (rx_len c) c else c in
    tcp_send_ack i (set_conn i (set_state (used c) (c_state c) true c) s)
  else Some s.

(** A segment for connection [i]. *)
Definition tcp_segment (i : nat) (flags seq ack : Z) (data : list Z) (len : Z) (s : net) : option net :=
  c ← g_tcp_conns s !! i;
  if flagb flags TCP_FLAG_RST then Some (set_conn i (set_state false TCP_CONN_CLOSED (peer_closed c) c) s) else
  match c_state c with
  | TCP_CONN_SYN_SENT =>
    if (Z.land flags (Z.lor TCP_FLAG_SYN TCP_FLAG_ACK) =? Z.lor TCP_FLAG_SYN TCP_FLAG_ACK) && (ack =? snd_nxt c) then
      let c := set_snd ack (snd_nxt c) (set_rcv (u32 (seq + 1)) (rx_buf c) (rx_len c) c) in
      let c := set_tx (set_pending false (tx_len (c_tx c)) (c_tx c)) (set_state (used c) TCP_CONN_ESTABLISHED (peer_closed c) c) in
      tcp_send_ack i (set_conn i c s)
    else Some s
  | TCP_CONN_ESTABLISHED =>
    s ← tcp_data_input i seq data len (set_conn i (tcp_ack_input flags ack c) s);
    tcp_fin_input i flags seq len s
  | _ => Some s
  end.

Definition tcp_input (saddr daddr payload : list Z) (payload_len : Z) (s : net) : option net :=
  if (payload_len <? 20) || negb (ip_equal daddr (ip (g_dev s))) then Some s else
  df ← rd_int payload 12 2;
  let doff_flags := ntohs df in
  let thl := Z.land (Z.shiftr doff_flags 12) 15 * 4 in
  if (thl <? 20) || (thl >? payload_len) then Some s else
  let flags := Z.land doff_flags 511 in
  sport ← rd_int payload 0 2; dport ← rd_int payload 2 2; seq ← rd_int payload 4 4; ack ← rd_int payload 8 4;
  match tcp_find_conn saddr (ntohs sport) (ntohs dport) s with
  | None => Some s
  | Some i => tcp_segment i flags (ntohl seq) (ntohl ack) (drop (Z.to_nat thl) payload) (payload_len - thl) s
  end.

(** [rx_src] is the sender of the frame. *)
Definition send_icmp_echo_reply (rx_src saddr icmp : list Z) (s : net) : option (Z * net) :=
  let icmp_len := Z.of_nat (length icmp) in
  if icmp_len <? 8 then Some (- EINVAL, s) else
  if 14 + 20 + icmp_len >? FRAME_MAX then Some (- EMSGSIZE, s) else
  hdr ← ipv4_header (20 + icmp_len) IPV4_PROTO_ICMP (ip (g_dev s)) saddr;
  let reply c := [ICMP_ECHO_REPLY; 0] ++ le_bytes 2 c ++ drop 4 icmp in
  c ← ip_checksum (reply 0);
  Some (net_tx_raw (eth_hdr rx_src (mac (g_dev s)) (htons ETH_TYPE_IPV4) ++ hdr ++ reply (htons c)) s).

Definition icmp_input (rx_src saddr daddr payload : list Z) (payload_len : Z) (s : net) : option net :=
  if negb (ip_equal daddr (ip (g_dev s))) then Some s else
  if payload_len <? 8 then Some s else
  type ← rd_int payload 0 1;
  if type =? ICMP_ECHO_REQUEST then
    icmp ← rd payload 0 payload_len;
    '(_, s) ← send_icmp_echo_reply rx_src saddr icmp s; Some s
  else if type =? ICMP_ECHO_REPLY then icmp_event_push saddr payload payload_len s
  else Some s.

Definition ipv4_input (buf : list Z) (len : Z) (s : net) : option net :=
  if len <? 14 + 20 then Some s else
  version_ihl ← rd_int buf 14 1;
  if negb (Z.shiftr version_ihl 4 =? 4) then Some s else
  let ihl := Z.land version_ihl 15 * 4 in
  if (ihl <? 20) || (len <? 14 + ihl) then Some s else
  tl ← rd_int buf 16 2;
  let total_len := ntohs tl in
  if (total_len <? ihl) || (len <? 14 + total_len) then Some s else
  let payload := drop (Z.to_nat (14 + ihl)) buf in
  let payload_len := total_len - ihl in
  protocol ← rd_int buf 23 1; saddr ← rd buf 26 4; daddr ← rd buf 30 4; src ← rd buf 6 6;
  if protocol =? IPV4_PROTO_UDP then udp_input saddr daddr payload payload_len s
  else if protocol =? IPV4_PROTO_TCP then tcp_input saddr daddr payload payload_len s
  else if protocol =? IPV4_PROTO_ICMP then icmp_input src saddr daddr payload payload_len s
  else Some s.

Definition net_rx_frame (buf : list Z) (len : Z) (s : net) : option net :=
  if negb (present (g_dev s)) || (len <? 14) then Some s else
  ethertype ← rd_int buf 12 2;
  if ntohs ethertype =? ETH_TYPE_ARP then arp_input buf len s
  else if ntohs ethertype =? ETH_TYPE_IPV4 then ipv4_input buf len s
  else Some s.

(** ** The timer *)

(** Connection [i]: sends again what has not been acknowledged. *)
Definition tcp_tick (i : nat) (s : net) : option net :=
  c ← g_tcp_conns s !! i;
  if negb (used c) || bool_decide (c_state c = TCP_CONN_CLOSED) then Some s else
  if u32 (u32 (g_tick_count s) - last_tx_tick c) <? NET_TCP_TX_RETRY_TICKS then Some s else
  if c_retries c >=? NET_TCP_TX_MAX_RETRIES then Some (set_conn i (set_state false TCP_CONN_CLOSED (peer_closed c) c) s) else
  let c := set_sent_at (last_tx_tick c) (u8 (c_retries c + 1)) c in
  let s := set_conn i c s in
  match c_state c with
  | TCP_CONN_SYN_SENT => '(_, s) ← tcp_send_on_conn i (snd_una c) 0 TCP_FLAG_SYN [] false s; Some s
  | TCP_CONN_ESTABLISHED =>
    if tx_pending (c_tx c) then
      data ← rd (tx_buf (c_tx c)) 0 (tx_len (c_tx c));
      '(_, s) ← tcp_send_on_conn i (tx_seq (c_tx c)) (tx_ack (c_tx c)) (tx_flags (c_tx c)) data false s; Some s
    else Some s
  | _ => Some s
  end.

Fixpoint tcp_ticks (n i : nat) (s : net) : option net :=
  match n with
  | O => Some s
  | S n => s ← tcp_tick i s; tcp_ticks n (S i) s
  end.

(** The frames the driver delivers when it is polled. *)
Fixpoint rx_frames (l : list (list Z * Z)) (s : net) : option net :=
  match l with
  | [] => Some s
  | (buf, len) :: l => s ← net_rx_frame buf len s; rx_frames l s
  end.

Definition net_tick (polled : list (list Z * Z)) (s : net) : option net :=
  s ← dhcp_tick (with_ticks (u64 (g_tick_count s + 1)) s);
  s ← tcp_ticks (Z.to_nat NET_TCP_CONN_MAX) 0 s;
  if negb (present (g_dev s)) || negb (has_poll (g_dev s)) then Some s else rx_frames polled s.
End Send.
