(* ===== verification/NetFrames.v ===== *)
(** * The frames the network core sends

    Byte order, the ones' complement checksum, and the frames of the senders: each
    is a valid Ethernet frame, with an ARP packet or with an IPv4 packet whose
    header, and TCP segment, has the right length and checksum. *)

From S2P Require Import Prelude Errno Bytes Net.

(** ** Byte order *)

Lemma lor_shift a b k : 0 <= k -> 0 <= b < 2 ^ k -> Z.lor (Z.shiftl a k) b = a * 2 ^ k + b.
Proof.
  intros Hk Hb. rewrite <- Z.shiftl_mul_pow2 by done.
  assert (H0 : Z.land (Z.shiftl a k) b = 0).
  { apply Z.bits_inj'. intros i Hi. rewrite Z.land_spec, Z.bits_0, Z.shiftl_spec by done.
    destruct (Z.lt_ge_cases i k) as [Hlt|Hge]; [by rewrite Z.testbit_neg_r by lia|].
    rewrite (testbit_ge b k i) by done. apply andb_false_r. }
  by rewrite <- Z.lxor_lor, <- Z.add_nocarry_lxor.
Qed.

Lemma bswap16_value v : 0 <= v < 65536 -> bswap16 v = v mod 256 * 256 + v / 256.
Proof.
  intros Hv. unfold bswap16, u16. rewrite Z.shiftr_div_pow2, lor_shift by (try (split; [apply Z.div_pos|apply Z.div_lt_upper_bound]); lia).
  change (2 ^ 8) with 256. change (2 ^ 16) with 65536. pose proof (Z_div_mod_eq_full v 256) as E. pose proof (Z.mod_pos_bound v 256). pose proof (Z.div_pos v 256).
  assert (v / 256 < 256) by (apply Z.div_lt_upper_bound; lia).
  replace (v * 256 + v / 256) with (v mod 256 * 256 + v / 256 + v / 256 * 65536) by lia. rewrite Z.mod_add by lia. apply Z.mod_small. lia.
Qed.

Lemma land_byte v k : 0 <= k -> Z.land v (Z.shiftl 255 k) = v / 2 ^ k mod 256 * 2 ^ k.
Proof.
  intros Hk. rewrite <- Z.shiftl_mul_pow2 by done. change 256 with (2 ^ 8). rewrite <- Z.land_ones, <- Z.shiftr_div_pow2 by lia. change (Z.ones 8) with 255.
  apply Z.bits_inj'. intros i Hi. rewrite Z.land_spec, !Z.shiftl_spec by done.
  destruct (Z.lt_ge_cases i k) as [Hlt|Hge]; [rewrite !(Z.testbit_neg_r _ (i - k)) by lia; apply andb_false_r|].
  rewrite Z.land_spec, Z.shiftr_spec by lia. by rewrite Z.sub_add.
Qed.

Definition byte_of (v k : Z) : Z := v / 2 ^ k mod 256.

Lemma byte_of_range v k : 0 <= byte_of v k < 256.
Proof. by apply Z.mod_pos_bound. Qed.

Lemma bswap32_value v : bswap32 v = byte_of v 0 * 2 ^ 24 + byte_of v 8 * 2 ^ 16 + byte_of v 16 * 2 ^ 8 + byte_of v 24.
Proof.
  unfold bswap32. change 255 with (Z.shiftl 255 0) at 1. change 65280 with (Z.shiftl 255 8). change 16711680 with (Z.shiftl 255 16). change 4278190080 with (Z.shiftl 255 24).
  rewrite !land_byte by lia. fold (byte_of v 0) (byte_of v 8) (byte_of v 16) (byte_of v 24).
  pose proof (byte_of_range v 0) as H0. pose proof (byte_of_range v 8) as H1. pose proof (byte_of_range v 16) as H2. pose proof (byte_of_range v 24) as H3.
  rewrite !Z.shiftl_mul_pow2, !Z.shiftr_div_pow2 by lia.
  replace (byte_of v 16 * 2 ^ 16 / 2 ^ 8) with (byte_of v 16 * 2 ^ 8) by (change (2 ^ 16) with (2 ^ 8 * 2 ^ 8); rewrite Z.mul_assoc, Z.div_mul; lia).
  rewrite Z.div_mul by lia. set (b0 := byte_of v 0) in *. set (b1 := byte_of v 8) in *. set (b2 := byte_of v 16) in *. set (b3 := byte_of v 24) in *.
  replace (Z.lor (b0 * 2 ^ 0 * 2 ^ 24) (b1 * 2 ^ 8 * 2 ^ 8)) with (Z.shiftl (b0 * 2 ^ 8 + b1) 16)
    by (rewrite <- (Z.shiftl_mul_pow2 _ 24), lor_shift by lia; rewrite Z.shiftl_mul_pow2; lia).
  replace (Z.lor (Z.shiftl (b0 * 2 ^ 8 + b1) 16) (b2 * 2 ^ 8)) with (Z.shiftl (b0 * 2 ^ 16 + b1 * 2 ^ 8 + b2) 8)
    by (rewrite lor_shift by lia; rewrite Z.shiftl_mul_pow2; lia).
  rewrite lor_shift by lia. lia.
Qed.

(** Integers in network byte order. *)
Definition be16 (v : Z) : list Z := [v / 256; v mod 256].
Definition be32 (v : Z) : list Z := [v / 2 ^ 24; v / 2 ^ 16 mod 256; v / 2 ^ 8 mod 256; v mod 256].

Lemma be16_ok v : 0 <= v < 65536 -> bytes_ok (be16 v).
Proof. intros Hv. repeat constructor; try (by apply Z.mod_pos_bound); [apply Z.div_pos|apply Z.div_lt_upper_bound]; lia. Qed.

Lemma le_bytes_htons v : 0 <= v < 65536 -> le_bytes 2 (htons v) = be16 v.
Proof.
  intros Hv. unfold htons. rewrite bswap16_value by done. cbn [le_bytes]. unfold be16.
  pose proof (Z.mod_pos_bound v 256). assert (0 <= v / 256 < 256) by (split; [apply Z.div_pos|apply Z.div_lt_upper_bound]; lia).
  rewrite Z.add_comm, Z_mod_plus_full, (Z.mod_small (v / 256)) by lia. rewrite Z.div_add, (Z.div_small (v / 256)), Z.add_0_l by lia. by rewrite Zmod_mod.
Qed.

Lemma le_bytes_htonl v : 0 <= v < 2 ^ 32 -> le_bytes 4 (htonl v) = be32 v.
Proof.
  intros Hv. assert (H24 : byte_of v 24 = v / 2 ^ 24) by (apply Z.mod_small; split; [apply Z.div_pos|apply Z.div_lt_upper_bound]; lia).
  assert (H0 : byte_of v 0 = v mod 256) by (unfold byte_of; by rewrite Z.pow_0_r, Z.div_1_r).
  unfold htonl, be32. rewrite bswap32_value. rewrite <- H0, <- H24. fold (byte_of v 8) (byte_of v 16).
  pose proof (byte_of_range v 0). pose proof (byte_of_range v 8). pose proof (byte_of_range v 16). pose proof (byte_of_range v 24).
  rewrite <- (le_bytes_value [byte_of v 24; byte_of v 16; byte_of v 8; byte_of v 0]) by (repeat constructor; lia). cbn [length le_value]. f_equal. lia.
Qed.

Lemma be32_ok v : 0 <= v < 2 ^ 32 -> bytes_ok (be32 v).
Proof. intros Hv. rewrite <- le_bytes_htonl by done. apply le_bytes_ok. Qed.

(** What is read back. *)
Lemma ntohs_be16 v : 0 <= v < 65536 -> ntohs (le_value (be16 v)) = v.
Proof.
  intros Hv. cbn [be16 le_value]. pose proof (Z.mod_pos_bound v 256). assert (0 <= v / 256 < 256) by (split; [apply Z.div_pos|apply Z.div_lt_upper_bound]; lia).
  unfold ntohs. rewrite bswap16_value by lia. replace (v / 256 + 256 * (v mod 256 + 256 * 0)) with (v / 256 + v mod 256 * 256) by lia.
  rewrite Z_mod_plus_full, (Z.mod_small (v / 256)), Z.div_add, (Z.div_small (v / 256)) by lia. pose proof (Z_div_mod_eq_full v 256). lia.
Qed.

Lemma byte_at a b c d : 0 <= a < 256 -> 0 <= b < 256 -> 0 <= c < 256 -> 0 <= d < 256 ->
  let v := a + 256 * (b + 256 * (c + 256 * d)) in byte_of v 0 = a /\ byte_of v 8 = b /\ byte_of v 16 = c /\ byte_of v 24 = d.
Proof.
  intros Ha Hb Hc Hd v. unfold byte_of. change (2 ^ 0) with 1. change (2 ^ 8) with 256. change (2 ^ 16) with 65536. change (2 ^ 24) with 16777216. rewrite Z.div_1_r.
  split_and!; [symmetry; apply (Z.mod_unique_pos _ _ (b + 256 * (c + 256 * d)))| | |]; try (unfold v; lia).
  - assert (E : v / 256 = b + 256 * (c + 256 * d)) by (symmetry; apply (Z.div_unique_pos _ _ _ a); unfold v; lia). rewrite E. symmetry. apply (Z.mod_unique_pos _ _ (c + 256 * d)); lia.
  - assert (E : v / 65536 = c + 256 * d) by (symmetry; apply (Z.div_unique_pos _ _ _ (a + 256 * b)); unfold v; lia). rewrite E. symmetry. apply (Z.mod_unique_pos _ _ d); lia.
  - assert (E : v / 16777216 = d) by (symmetry; apply (Z.div_unique_pos _ _ _ (a + 256 * (b + 256 * c))); unfold v; lia). rewrite E. by apply Z.mod_small.
Qed.

Lemma ntohl_be32 v : 0 <= v < 2 ^ 32 -> ntohl (le_value (be32 v)) = v.
Proof.
  intros Hv. pose proof (be32_ok v Hv) as Hok. unfold be32 in *. apply Forall_cons in Hok as [H3 Hok]. apply Forall_cons in Hok as [H2 Hok]. apply Forall_cons in Hok as [H1 Hok]. apply Forall_cons in Hok as [H0 _].
  cbn [le_value]. rewrite Z.mul_0_r, Z.add_0_r. unfold ntohl. rewrite bswap32_value. destruct (byte_at _ _ _ _ H3 H2 H1 H0) as (-> & -> & -> & ->).
  assert (E1 : v = 256 * (v / 2 ^ 8) + v mod 256) by apply Z_div_mod_eq_full.
  assert (E2 : v / 2 ^ 8 = 256 * (v / 2 ^ 16) + v / 2 ^ 8 mod 256) by (change (2 ^ 16) with (2 ^ 8 * 256); rewrite <- Z.div_div by lia; apply Z_div_mod_eq_full).
  assert (E3 : v / 2 ^ 16 = 256 * (v / 2 ^ 24) + v / 2 ^ 16 mod 256) by (change (2 ^ 24) with (2 ^ 16 * 256); rewrite <- Z.div_div by lia; apply Z_div_mod_eq_full).
  lia.
Qed.

(** ** The checksum *)

(** The sum of the words of a list, an odd byte counting as the high half. *)
Fixpoint wsum (p : list Z) : Z :=
  match p with
  | a :: b :: p => a * 256 + b + wsum p
  | [a] => a * 256
  | [] => 0
  end.

Lemma pairs_ind (P : list Z -> Prop) : P [] -> (forall a, P [a]) -> (forall a b l, P l -> P (a :: b :: l)) -> forall l, P l.
Proof. intros H0 H1 H2. fix IH 1. intros [|a [|b l]]; [done|done|]. apply H2, IH. Qed.

Lemma wsum_bound p : bytes_ok p -> 0 <= wsum p <= 65535 * Z.of_nat (length p).
Proof.
  induction p as [|a|a b p IH] using pairs_ind; intros Hp; cbn [wsum length]; [lia| |]; apply Forall_cons in Hp as [Ha Hp]; [lia|].
  apply Forall_cons in Hp as [Hb Hp]. specialize (IH Hp). lia.
Qed.

Lemma wsum_app l l' : Nat.Even (length l) -> wsum (l ++ l') = wsum l + wsum l'.
Proof.
  induction l as [|a|a b l IH] using pairs_ind; intros He; cbn [wsum app length] in *; [done|by destruct He as [k ?]; lia|].
  rewrite IH; [lia|]. by apply Nat.Even_succ_succ.
Qed.

Lemma sum_words_spec p : forall sum, bytes_ok p -> 0 <= sum -> sum + 65535 * Z.of_nat (length p) < 2 ^ 32 -> sum_words sum p = sum + wsum p.
Proof.
  induction p as [|a|a b p IH] using pairs_ind; intros sum Hp Hs Hb; cbn [sum_words wsum length] in *; [lia| |]; apply Forall_cons in Hp as [Ha Hp].
  - rewrite Z.shiftl_mul_pow2 by lia. apply u32_small. lia.
  - apply Forall_cons in Hp as [Hb' Hp]. rewrite lor_shift, u32_small by lia. rewrite IH by (done || lia). lia.
Qed.

Lemma fold_carry_small fuel s : 0 <= s < 65536 -> fold_carry fuel s = Some s.
Proof. intros Hs. destruct fuel; cbn [fold_carry]; rewrite Z.shiftr_div_pow2, Z.div_small by lia; done. Qed.

Lemma fold_carry_step fuel s : 65536 <= s < 2 ^ 32 -> fold_carry (S fuel) s = fold_carry fuel (s mod 65536 + s / 65536).
Proof.
  intros Hs. cbn [fold_carry]. rewrite Z.shiftr_div_pow2 by lia. change 65535 with (Z.ones 16). rewrite Z.land_ones by lia. change (2 ^ 16) with 65536.
  assert (0 < s / 65536 < 65536) by (split; [apply Z.div_str_pos|apply Z.div_lt_upper_bound]; lia). pose proof (Z.mod_pos_bound s 65536).
  rewrite (proj2 (Z.eqb_neq _ 0)) by lia. rewrite u32_small by lia. done.
Qed.

(** Folding ends, with the sum modulo 65535. *)
Lemma fold_carry_spec s : 0 <= s < 2 ^ 32 -> exists r k, fold_carry 3 s = Some r /\ 0 <= r < 65536 /\ s = r + 65535 * k /\ 0 <= k /\ (r = 0 -> s = 0).
Proof.
  assert (Hstep : forall s, s = s mod 65536 + s / 65536 + 65535 * (s / 65536)) by (intros x; pose proof (Z_div_mod_eq_full x 65536); lia).
  intros Hs. destruct (Z.lt_ge_cases s 65536) as [Hlt|Hge]. { exists s, 0. rewrite fold_carry_small by lia. split_and!; done || lia. }
  rewrite fold_carry_step by lia. set (s1 := s mod 65536 + s / 65536). pose proof (Z.mod_pos_bound s 65536). assert (1 <= s / 65536 < 65536) by (split; [apply Z.div_le_lower_bound|apply Z.div_lt_upper_bound]; lia).
  specialize (Hstep s) as H1. fold s1 in H1. assert (Hs1 : 1 <= s1 < 131071) by lia.
  destruct (Z.lt_ge_cases s1 65536) as [Hlt1|Hge1]. { exists s1, (s / 65536). rewrite fold_carry_small by lia. split_and!; done || lia. }
  rewrite fold_carry_step by lia. assert (E : s1 / 65536 = 1) by (symmetry; apply (Z.div_unique_pos _ _ _ (s1 - 65536)); lia).
  assert (Em : s1 mod 65536 = s1 - 65536) by (symmetry; apply (Z.mod_unique_pos _ _ 1); lia). rewrite E, Em.
  exists (s1 - 65536 + 1), (s / 65536 + 1). rewrite fold_carry_small by lia. split_and!; done || lia.
Qed.

Lemma not_word r : 0 <= r < 65536 -> Z.land (Z.lnot r) 65535 = 65535 - r.
Proof.
  intros Hr. change 65535 with (Z.ones 16) at 1. rewrite Z.land_ones by lia. unfold Z.lnot. change (2 ^ 16) with 65536. symmetry. apply (Z.mod_unique_pos _ _ (-1)); lia.
Qed.

(** The complement of the folded sum makes the sum fold to all ones. *)
Lemma fold_complement s r : 0 <= s -> s + 65535 < 2 ^ 32 -> fold_carry 3 s = Some r -> fold_carry 3 (s + (65535 - r)) = Some 65535 /\ 0 <= r < 65536.
Proof.
  intros Hs Hb E. destruct (fold_carry_spec s) as (r' & k & E' & Hr & Ek & Hk & H0); [lia|]. rewrite E' in E. injection E as ->.
  destruct (fold_carry_spec (s + (65535 - r))) as (r2 & k2 & -> & Hr2 & Ek2 & Hk2 & H02); [lia|]. split; [|done]. f_equal. lia.
Qed.

(** Both checksums, over words that are added to [base]. *)
Definition csum (base : Z) (p : list Z) : option Z := sum ← fold_carry 3 (base + wsum p); Some (65535 - sum).

Lemma csum_total base p : bytes_ok p -> 0 <= base <= 500000 -> Z.of_nat (length p) <= 2000 -> exists c, csum base p = Some c /\ 0 <= c < 65536.
Proof.
  intros Hp Hb Hl. pose proof (wsum_bound p Hp). destruct (fold_carry_spec (base + wsum p)) as (r & k & E & Hr & _); [lia|].
  unfold csum. rewrite E. exists (65535 - r). split; [done|lia].
Qed.

(** A checksum in an aligned field that was 0 makes the checksum of the whole 0. *)
Lemma csum_verifies base l1 l2 c : bytes_ok l1 -> bytes_ok l2 -> Nat.Even (length l1) -> 0 <= base <= 500000 -> Z.of_nat (length l1 + length l2) <= 1998 ->
  csum base (l1 ++ [0; 0] ++ l2) = Some c -> csum base (l1 ++ be16 c ++ l2) = Some 0.
Proof.
  intros H1 H2 He Hb Hl. unfold csum. intros E. apply bind_Some in E as (r & E & [= <-]). rewrite wsum_app in E |- * by done. cbn [app be16 wsum] in *.
  pose proof (wsum_bound l1 H1). pose proof (wsum_bound l2 H2).
  edestruct fold_complement as [E' Hr]; [| |exact E|]; [lia|lia|]. pose proof (Z_div_mod_eq_full (65535 - r) 256).
  replace (base + (wsum l1 + ((65535 - r) / 256 * 256 + (65535 - r) mod 256 + wsum l2))) with (base + (wsum l1 + (0 * 256 + 0 + wsum l2)) + (65535 - r)) by lia.
  by rewrite E'.
Qed.

Lemma ip_checksum_eq p : bytes_ok p -> Z.of_nat (length p) <= 2000 -> ip_checksum p = csum 0 p.
Proof.
  intros Hp Hl. unfold ip_checksum, csum. rewrite sum_words_spec by (done || lia). pose proof (wsum_bound p Hp).
  destruct (fold_carry_spec (0 + wsum p)) as (r & k & -> & Hr & _); [lia|]. rewrite !bind_ret. by rewrite not_word.
Qed.

Definition addr_ok (n : nat) (a : list Z) : Prop := length a = n /\ bytes_ok a.

Definition pseudo (src dst : list Z) (len : Z) : Z := wsum src + wsum dst + IPV4_PROTO_TCP + len.

Lemma aget_pair a : addr_ok 4 a -> exists b0 b1 b2 b3, a = [b0; b1; b2; b3] /\ 0 <= b0 < 256 /\ 0 <= b1 < 256 /\ 0 <= b2 < 256 /\ 0 <= b3 < 256.
Proof.
  intros [Hl Hb]. destruct a as [|b0 [|b1 [|b2 [|b3 [|? ?]]]]]; try discriminate Hl. exists b0, b1, b2, b3. split; [done|].
  apply Forall_cons in Hb as [? Hb]. apply Forall_cons in Hb as [? Hb]. apply Forall_cons in Hb as [? Hb]. by apply Forall_cons in Hb as [? _].
Qed.

Lemma tcp_checksum_eq src dst p : addr_ok 4 src -> addr_ok 4 dst -> bytes_ok p -> Z.of_nat (length p) <= 2000 ->
  tcp_checksum src dst p = csum (pseudo src dst (Z.of_nat (length p))) p /\ 0 <= pseudo src dst (Z.of_nat (length p)) <= 500000.
Proof.
  intros (a0 & a1 & a2 & a3 & -> & ? & ? & ? & ?)%aget_pair (b0 & b1 & b2 & b3 & -> & ? & ? & ? & ?)%aget_pair Hp Hl.
  pose proof (wsum_bound p Hp). unfold pseudo. cbn [wsum]. split; [|lia]. unfold tcp_checksum, csum. cbv zeta.
  change (aget [a0; a1; a2; a3] 0) with a0. change (aget [a0; a1; a2; a3] (0 + 1)) with a1. change (aget [a0; a1; a2; a3] 2) with a2. change (aget [a0; a1; a2; a3] (2 + 1)) with a3.
  change (aget [b0; b1; b2; b3] 0) with b0. change (aget [b0; b1; b2; b3] (0 + 1)) with b1. change (aget [b0; b1; b2; b3] 2) with b2. change (aget [b0; b1; b2; b3] (2 + 1)) with b3.
  rewrite !lor_shift by lia. change (2 ^ 8) with 256. rewrite (u32_small (Z.of_nat (length p))) by lia.
  repeat match goal with |- context [u32 ?x] => lazymatch x with context [u32 _] => fail | _ => rewrite (u32_small x) by lia end end. rewrite sum_words_spec by (done || lia).
  match goal with |- (fold_carry 3 ?x ≫= _) = (fold_carry 3 ?y ≫= _) => replace x with y by lia; destruct (fold_carry_spec y) as (r & k & -> & Hr & _); [lia|] end.
  rewrite !bind_ret. by rewrite not_word.
Qed.

(** ** Frames *)

(** An Ethernet frame with an ARP packet, or with an IPv4 packet that has no options,
    the length of the rest of the frame and a right checksum; a TCP segment in it
    has a right checksum too. *)
Record ipv4_ok (p : list Z) : Prop := {
  ipv4_version : take 1 p = [69];
  ipv4_length : take 2 (drop 2 p) = be16 (Z.of_nat (length p));
  ipv4_checksum : ip_checksum (take 20 p) = Some 0;
  ipv4_tcp : take 1 (drop 9 p) = [IPV4_PROTO_TCP] -> tcp_checksum (take 4 (drop 12 p)) (take 4 (drop 16 p)) (drop 20 p) = Some 0;
}.

Definition frame_ok (f : list Z) : Prop :=
  bytes_ok f /\ Z.of_nat (length f) <= FRAME_MAX /\
  (take 2 (drop 12 f) = be16 ETH_TYPE_ARP /\ length f = 42%nat \/ take 2 (drop 12 f) = be16 ETH_TYPE_IPV4 /\ ipv4_ok (drop 14 f)).

Lemma ipv4_hdr_eq len proto c src dst : 0 <= len < 65536 -> 0 <= c < 65536 ->
  ipv4_hdr (htons len) proto (htons c) src dst = ([69; 0] ++ be16 len ++ [0; 0; 0; 0; 64; proto]) ++ be16 c ++ src ++ dst.
Proof. intros Hl Hc. unfold ipv4_hdr. rewrite !le_bytes_htons by done. by rewrite <- !app_assoc. Qed.

Lemma ipv4_hdr_0 len proto src dst : 0 <= len < 65536 -> ipv4_hdr (htons len) proto 0 src dst = ([69; 0] ++ be16 len ++ [0; 0; 0; 0; 64; proto]) ++ [0; 0] ++ src ++ dst.
Proof. intros Hl. rewrite <- (ipv4_hdr_eq len proto 0) by done. reflexivity. Qed.

Lemma ipv4_header_ok len proto src dst : 20 <= len < 65536 -> 0 <= proto < 256 -> addr_ok 4 src -> addr_ok 4 dst ->
  exists c h, ipv4_header len proto src dst = Some h /\ h = ([69; 0] ++ be16 len ++ [0; 0; 0; 0; 64; proto]) ++ be16 c ++ src ++ dst /\
    bytes_ok h /\ length h = 20%nat /\ ip_checksum h = Some 0.
Proof.
  intros Hl Hp [Hs Hsb] [Hd Hdb]. unfold ipv4_header. unfold u16. rewrite (Z.mod_small len) by lia. rewrite ipv4_hdr_0 by lia.
  set (pre := [69; 0] ++ be16 len ++ [0; 0; 0; 0; 64; proto]).
  assert (Hpre : bytes_ok pre) by (apply Forall_app; split; [repeat constructor; lia|]; apply Forall_app; split; [apply be16_ok; lia|repeat constructor; lia]).
  assert (Hlen : length pre = 10%nat) by done.
  assert (Hrest : bytes_ok (src ++ dst)) by (by apply Forall_app).
  assert (H0 : bytes_ok (pre ++ [0; 0] ++ src ++ dst)) by (apply Forall_app; split; [done|]; apply Forall_app; split; [repeat constructor; lia|done]).
  assert (Hl0 : length (pre ++ [0; 0] ++ src ++ dst) = 20%nat) by (rewrite !length_app, Hlen, Hs, Hd; done).
  rewrite ip_checksum_eq by (done || lia). destruct (csum_total 0 _ H0) as (c & E & Hc); [lia|lia|]. rewrite E, bind_ret, ipv4_hdr_eq by lia. fold pre.
  assert (H1 : bytes_ok (pre ++ be16 c ++ src ++ dst)) by (apply Forall_app; split; [done|]; apply Forall_app; split; [by apply be16_ok|done]).
  assert (Hl1 : length (pre ++ be16 c ++ src ++ dst) = 20%nat) by (rewrite !length_app, Hlen, Hs, Hd; done).
  eexists c, _. split; [reflexivity|]. split_and!; [done|done|done|]. rewrite ip_checksum_eq by (done || lia).
  apply csum_verifies; [done|done|rewrite Hlen; by exists 5%nat|lia|rewrite Hlen, length_app, Hs, Hd; lia|done].
Qed.

Lemma eth_split dst src t rest : addr_ok 6 dst -> addr_ok 6 src -> 0 <= t < 65536 -> let f := eth_hdr dst src (htons t) ++ rest in
  take 2 (drop 12 f) = be16 t /\ drop 14 f = rest /\ length f = (14 + length rest)%nat /\ (bytes_ok rest -> bytes_ok f).
Proof.
  intros [Hd Hdb] [Hs Hsb] Ht f. assert (E : f = (dst ++ src) ++ be16 t ++ rest) by (unfold f, eth_hdr; rewrite le_bytes_htons by done; by rewrite <- !app_assoc).
  assert (Hl : length (dst ++ src) = 12%nat) by (rewrite length_app; lia). split_and!.
  - rewrite E, (drop_app_length' (dst ++ src)) by done. reflexivity.
  - rewrite E. change 14%nat with (12 + 2)%nat. rewrite <- drop_drop, (drop_app_length' (dst ++ src)) by done. reflexivity.
  - rewrite E, length_app, Hl. reflexivity.
  - intros Hr. rewrite E. repeat (apply Forall_app; split); [done|done|by apply be16_ok|done].
Qed.

(** A frame with an IPv4 packet around [body]. *)
Lemma ipv4_frame_ok dst_mac src_mac proto src dst body h : addr_ok 6 dst_mac -> addr_ok 6 src_mac -> addr_ok 4 src -> addr_ok 4 dst -> 0 <= proto < 256 ->
  bytes_ok body -> 34 + Z.of_nat (length body) <= FRAME_MAX -> ipv4_header (20 + Z.of_nat (length body)) proto src dst = Some h ->
  (proto = IPV4_PROTO_TCP -> tcp_checksum src dst body = Some 0) -> frame_ok (eth_hdr dst_mac src_mac (htons ETH_TYPE_IPV4) ++ h ++ body).
Proof.
  intros Hdm Hsm Hs Hd Hp Hb Hl E Htcp. destruct (ipv4_header_ok (20 + Z.of_nat (length body)) proto src dst) as (c & h' & E' & Eh & Hhb & Hhl & Hsum); [lia|done..|].
  rewrite E' in E. injection E as ->. destruct (eth_split dst_mac src_mac ETH_TYPE_IPV4 (h ++ body)) as (H1 & H2 & H3 & H4); [done|done|lia|]. cbv zeta in *.
  split; [apply H4, Forall_app; done|]. split; [rewrite H3, length_app, Hhl; lia|]. right. split; [exact H1|]. rewrite H2.
  pose proof Hs as (a0 & a1 & a2 & a3 & -> & _)%aget_pair. pose proof Hd as (b0 & b1 & b2 & b3 & -> & _)%aget_pair. split.
  - rewrite Eh. reflexivity.
  - rewrite length_app, Hhl, Nat2Z.inj_add, Eh. reflexivity.
  - rewrite <- Hhl, take_app_length. exact Hsum.
  - rewrite <- Hhl, drop_app_length, Eh. cbn -[tcp_checksum]. intros [= Ep]. by apply Htcp.
Qed.

Lemma tcp_hdr_eq sp dp seq ack flags c : 0 <= sp < 65536 -> 0 <= dp < 65536 -> 0 <= seq < 2 ^ 32 -> 0 <= ack < 2 ^ 32 -> 0 <= flags < 65536 -> 0 <= c < 65536 ->
  tcp_hdr (htons sp) (htons dp) (htonl seq) (htonl ack) (htons flags) (htons 4096) (htons c) =
  (be16 sp ++ be16 dp ++ be32 seq ++ be32 ack ++ be16 flags ++ be16 4096) ++ be16 c ++ [0; 0].
Proof. intros. unfold tcp_hdr. rewrite !le_bytes_htons, !le_bytes_htonl by (done || lia). by rewrite <- !app_assoc. Qed.

(** The flags as they are sent, with the length of the header. *)
Definition doff (flags : Z) : Z := 20480 + flags mod 512.

Lemma doff_eq flags : u16 (Z.lor (Z.shiftl 5 12) (Z.land flags 511)) = doff flags.
Proof.
  change 511 with (Z.ones 9). rewrite Z.land_ones by lia. change (2 ^ 9) with 512. pose proof (Z.mod_pos_bound flags 512). rewrite lor_shift by (change (2 ^ 12) with 4096; lia).
  unfold u16, doff. change (5 * 2 ^ 12) with 20480. change (2 ^ 16) with 65536. apply Z.mod_small. lia.
Qed.

Lemma tcp_checksum_ok src dst pre post : addr_ok 4 src -> addr_ok 4 dst -> bytes_ok pre -> bytes_ok post -> Nat.Even (length pre) -> Z.of_nat (length pre + length post) <= 1998 ->
  exists c, tcp_checksum src dst (pre ++ [0; 0] ++ post) = Some c /\ 0 <= c < 65536 /\ tcp_checksum src dst (pre ++ be16 c ++ post) = Some 0.
Proof.
  intros Hs Hd Hpre Hpost He Hl. assert (H0 : bytes_ok (pre ++ [0; 0] ++ post)) by (apply Forall_app; split; [done|]; repeat constructor; [lia|lia|done]).
  assert (Hl0 : forall x y, length (pre ++ [x; y] ++ post) = (2 + (length pre + length post))%nat) by (intros x y; rewrite length_app; cbn; lia).
  destruct (tcp_checksum_eq src dst _ Hs Hd H0) as [E Hps]; [rewrite Hl0; lia|]. rewrite E. destruct (csum_total _ _ H0 Hps) as (c & Ec & Hc); [rewrite Hl0; lia|].
  exists c. split; [done|]. split; [done|]. assert (H1 : bytes_ok (pre ++ be16 c ++ post)) by (apply Forall_app; split; [done|]; apply Forall_app; split; [by apply be16_ok|done]).
  destruct (tcp_checksum_eq src dst _ Hs Hd H1) as [E1 _]; [unfold be16; rewrite Hl0; lia|]. rewrite E1. unfold be16 at 1. rewrite Hl0. rewrite Hl0 in Ec, Hps. by apply csum_verifies.
Qed.

(** ** The senders *)

Record dev_ok (d : net_dev) : Prop := { dev_mac : addr_ok 6 (mac d); dev_ip : addr_ok 4 (ip d); dev_mask : addr_ok 4 (mask d); dev_gw : addr_ok 4 (gw d) }.

Record cache_ok (a : arp_cache_entry) : Prop := { cache_ip : addr_ok 4 (arp_ip a); cache_mac : addr_ok 6 (arp_mac a) }.

(** Only good frames are handed to the driver, and nothing else changes. *)
Definition sends (s s' : net) : Prop := exists l, Forall frame_ok l /\ s' = with_sent (sent s ++ l) s.

#[export] Instance sends_preorder : PreOrder sends.
Proof.
  split.
  - intros s. exists []. split; [constructor|]. rewrite app_nil_r. by destruct s.
  - intros s1 s2 s3 (l & Hl & ->) (l' & Hl' & ->). exists (l ++ l'). split; [by apply Forall_app|]. unfold with_sent. cbn. by rewrite app_assoc.
Qed.

Lemma ports_ok sp dp len payload : bytes_ok payload -> bytes_ok (udp_hdr sp dp len ++ payload).
Proof. intros Hp. unfold udp_hdr. repeat (apply Forall_app; split); apply le_bytes_ok || done. Qed.

Section Send.
Context (tx : nat -> list Z -> Z).

Lemma tx_sends f s : frame_ok f -> sends s (net_tx_raw tx f s).2.
Proof. intros Hf. unfold net_tx_raw. case_match; [reflexivity|]. exists [f]. split; [by constructor|done]. Qed.

Lemma send_udp_eq dst_mac src dst sp dp payload s : addr_ok 6 dst_mac -> dev_ok (g_dev s) -> addr_ok 4 src -> addr_ok 4 dst -> bytes_ok payload ->
  payload <> [] -> 42 + Z.of_nat (length payload) <= FRAME_MAX ->
  exists h, ipv4_header (28 + Z.of_nat (length payload)) IPV4_PROTO_UDP src dst = Some h /\
    let f := eth_hdr dst_mac (mac (g_dev s)) (htons ETH_TYPE_IPV4) ++ h ++ udp_hdr (htons sp) (htons dp) (htons (8 + Z.of_nat (length payload))) ++ payload in
    frame_ok f /\ send_ipv4_udp tx dst_mac src dst sp dp payload s = Some (net_tx_raw tx f s).
Proof.
  intros Hm [Hdm _ _ _] Hs Hd Hp Hne Hl. assert (0 < Z.of_nat (length payload)) by (destruct payload; [done|cbn; lia]).
  destruct (ipv4_header_ok (28 + Z.of_nat (length payload)) IPV4_PROTO_UDP src dst) as (c & h & E & _); [lia|lia|done|done|]. exists h. split; [done|]. cbv zeta. split.
  - apply (ipv4_frame_ok _ _ IPV4_PROTO_UDP src dst); [done|done|done|done|lia|by apply ports_ok|rewrite length_app; cbn [length udp_hdr]; change (length (udp_hdr _ _ _)) with 8%nat; lia| |lia].
    rewrite length_app. change (length (udp_hdr _ _ _)) with 8%nat. rewrite <- E. f_equal. lia.
  - unfold send_ipv4_udp. rewrite (proj2 (Z.eqb_neq _ 0)), Z.gtb_ltb, (proj2 (Z.ltb_ge _ _)) by lia. cbn [orb]. change (20 + 8 + Z.of_nat (length payload)) with (28 + Z.of_nat (length payload)).
    rewrite E, bind_ret. unfold u16. rewrite Z.mod_small by lia. done.
Qed.

Lemma send_udp_sends dst_mac src dst sp dp payload s : addr_ok 6 dst_mac -> dev_ok (g_dev s) -> addr_ok 4 src -> addr_ok 4 dst -> bytes_ok payload ->
  exists ret s', send_ipv4_udp tx dst_mac src dst sp dp payload s = Some (ret, s') /\ sends s s'.
Proof.
  intros Hm Hdev Hs Hd Hp. destruct (decide (payload = [] \/ FRAME_MAX < 42 + Z.of_nat (length payload))) as [Hbad|Hgood].
  - exists (- EINVAL), s. split; [|reflexivity]. unfold send_ipv4_udp. destruct Hbad as [->|Hl]; [done|]. rewrite Z.gtb_ltb, (proj2 (Z.ltb_lt FRAME_MAX _)) by lia. by rewrite orb_true_r.
  - destruct (send_udp_eq dst_mac src dst sp dp payload s) as (h & _ & Hf & ->); [done|done|done|done|done|tauto|lia|]. cbv zeta in Hf.
    eexists _, _. split; [f_equal; apply surjective_pairing|]. by apply tx_sends.
Qed.

Lemma send_tcp_eq dst_mac src dst sp dp seq ack flags payload s : addr_ok 6 dst_mac -> dev_ok (g_dev s) -> addr_ok 4 src -> addr_ok 4 dst -> bytes_ok payload ->
  0 <= sp < 65536 -> 0 <= dp < 65536 -> 0 <= seq < 2 ^ 32 -> 0 <= ack < 2 ^ 32 -> 54 + Z.of_nat (length payload) <= FRAME_MAX ->
  exists f h c, send_ipv4_tcp tx dst_mac src dst sp dp seq ack flags payload s = Some (net_tx_raw tx f s) /\ frame_ok f /\
    ipv4_header (40 + Z.of_nat (length payload)) IPV4_PROTO_TCP src dst = Some h /\
    f = eth_hdr dst_mac (mac (g_dev s)) (htons ETH_TYPE_IPV4) ++ h ++ (be16 sp ++ be16 dp ++ be32 seq ++ be32 ack ++ be16 (doff flags) ++ be16 4096) ++ be16 c ++ [0; 0] ++ payload.
Proof.
  intros Hm [Hdm _ _ _] Hs Hd Hp Hsp Hdp Hsq Hak Hl. assert (Hdo : 0 <= doff flags < 65536) by (unfold doff; pose proof (Z.mod_pos_bound flags 512); lia).
  destruct (ipv4_header_ok (40 + Z.of_nat (length payload)) IPV4_PROTO_TCP src dst) as (c0 & h & E & _); [lia|lia|done|done|].
  set (pre := be16 sp ++ be16 dp ++ be32 seq ++ be32 ack ++ be16 (doff flags) ++ be16 4096).
  assert (Hpre : bytes_ok pre) by (unfold pre; repeat (apply Forall_app; split); (apply be16_ok || apply be32_ok); (done || lia)).
  assert (Hpost : bytes_ok ([0; 0] ++ payload)) by (repeat constructor; [lia|lia|done]).
  destruct (tcp_checksum_ok src dst pre ([0; 0] ++ payload)) as (c & Ec & Hc & Hok); [done|done|done|done|by exists 8%nat|cbn [length app]; change (length pre) with 16%nat; lia|].
  exists (eth_hdr dst_mac (mac (g_dev s)) (htons ETH_TYPE_IPV4) ++ h ++ pre ++ be16 c ++ [0; 0] ++ payload), h, c. split_and!; [|..|exact E|reflexivity].
  - unfold send_ipv4_tcp. rewrite !Z.gtb_ltb, !(proj2 (Z.ltb_ge _ _)) by lia. cbn [orb]. cbv zeta. replace (20 + (20 + Z.of_nat (length payload))) with (40 + Z.of_nat (length payload)) by lia.
    rewrite E, bind_ret, doff_eq. change 0 with (htons 0) at 1. rewrite (tcp_hdr_eq _ _ _ _ _ 0) by (done || lia). fold pre. rewrite <- !app_assoc. change (be16 0) with [0; 0]. rewrite Ec, bind_ret.
    rewrite tcp_hdr_eq by (done || lia). fold pre. by rewrite <- !app_assoc.
  - apply (ipv4_frame_ok _ _ IPV4_PROTO_TCP src dst); [done|done|done|done|lia|..|by intros _].
    + apply Forall_app. split; [done|]. apply Forall_app. split; [by apply be16_ok|done].
    + rewrite length_app. cbn [length app be16]. change (length pre) with 16%nat. lia.
    + rewrite <- E. f_equal. rewrite length_app. cbn [length app be16]. change (length pre) with 16%nat. lia.
Qed.

Lemma send_tcp_sends dst_mac src dst sp dp seq ack flags payload s : addr_ok 6 dst_mac -> dev_ok (g_dev s) -> addr_ok 4 src -> addr_ok 4 dst -> bytes_ok payload ->
  0 <= sp < 65536 -> 0 <= dp < 65536 -> 0 <= seq < 2 ^ 32 -> 0 <= ack < 2 ^ 32 ->
  exists ret s', send_ipv4_tcp tx dst_mac src dst sp dp seq ack flags payload s = Some (ret, s') /\ sends s s'.
Proof.
  intros Hm Hdev Hs Hd Hp Hsp Hdp Hsq Hak. destruct (Z.lt_ge_cases FRAME_MAX (54 + Z.of_nat (length payload))) as [Hbad|Hgood].
  - exists (- EMSGSIZE), s. split; [|reflexivity]. unfold send_ipv4_tcp. by rewrite Z.gtb_ltb, (proj2 (Z.ltb_lt FRAME_MAX _)) by lia.
  - destruct (send_tcp_eq dst_mac src dst sp dp seq ack flags payload s) as (f & h & c & -> & Hf & _); [done..|]. eexists _, _. split; [f_equal; apply surjective_pairing|]. by apply tx_sends.
Qed.

Lemma send_icmp_sends dst_mac src dst icmp s : addr_ok 6 dst_mac -> dev_ok (g_dev s) -> addr_ok 4 src -> addr_ok 4 dst -> bytes_ok icmp ->
  exists ret s', send_ipv4_icmp tx dst_mac src dst icmp s = Some (ret, s') /\ sends s s'.
Proof.
  intros Hm [Hdm _ _ _] Hs Hd Hp. unfold send_ipv4_icmp. case_match; [by exists (- EINVAL), s|].
  destruct (Z.ltb_spec FRAME_MAX (14 + (20 + Z.of_nat (length icmp)))) as [Hbad|Hgood]; [rewrite Z.gtb_ltb in *; zbool; lia|].
  destruct (ipv4_header_ok (20 + Z.of_nat (length icmp)) IPV4_PROTO_ICMP src dst) as (c0 & h & E & _); [lia|lia|done|done|]. rewrite E, bind_ret.
  eexists _, _. split; [f_equal; apply surjective_pairing|]. apply tx_sends, (ipv4_frame_ok _ _ IPV4_PROTO_ICMP src dst); (done || lia).
Qed.

Lemma echo_reply_sends rx_src saddr icmp s : addr_ok 6 rx_src -> dev_ok (g_dev s) -> addr_ok 4 saddr -> bytes_ok icmp ->
  exists ret s', send_icmp_echo_reply tx rx_src saddr icmp s = Some (ret, s') /\ sends s s'.
Proof.
  intros Hm [Hdm Hip _ _] Hs Hp. unfold send_icmp_echo_reply. destruct (Z.ltb_spec (Z.of_nat (length icmp)) 8) as [|Hge]; [by exists (- EINVAL), s|].
  rewrite Z.gtb_ltb. destruct (Z.ltb_spec FRAME_MAX (14 + 20 + Z.of_nat (length icmp))) as [Hbad|Hgood]; [by exists (- EMSGSIZE), s|].
  destruct (ipv4_header_ok (20 + Z.of_nat (length icmp)) IPV4_PROTO_ICMP (ip (g_dev s)) saddr) as (c0 & h & E & _); [lia|lia|done|done|]. rewrite E, bind_ret.
  assert (Hr : forall c, bytes_ok ([0; 0] ++ le_bytes 2 c ++ drop 4 icmp)) by (intros c; apply Forall_app; split; [repeat constructor; lia|]; apply Forall_app; split; [apply le_bytes_ok|by apply Forall_drop]).
  assert (Hlen : forall c, length ([0; 0] ++ le_bytes 2 c ++ drop 4 icmp) = length icmp) by (intros c; rewrite !length_app, le_bytes_length, length_drop; cbn [length]; lia).
  cbv zeta. rewrite ip_checksum_eq by (apply Hr || (rewrite Hlen; lia)). destruct (csum_total 0 _ (Hr 0)) as (c & Ec & Hc); [lia|rewrite Hlen; lia|]. rewrite Ec, bind_ret.
  eexists _, _. split; [f_equal; apply surjective_pairing|]. apply tx_sends, (ipv4_frame_ok _ _ IPV4_PROTO_ICMP (ip (g_dev s)) saddr); try done; try lia; rewrite Hlen; (done || lia).
Qed.

Lemma arp_frame_ok dst src oper sha spa tha tpa : addr_ok 6 dst -> addr_ok 6 src -> addr_ok 6 sha -> addr_ok 4 spa -> addr_ok 6 tha -> addr_ok 4 tpa ->
  frame_ok (eth_hdr dst src (htons ETH_TYPE_ARP) ++ arp_hdr oper sha spa tha tpa).
Proof.
  intros Hd Hs [H1 H1b] [H2 H2b] [H3 H3b] [H4 H4b]. destruct (eth_split dst src ETH_TYPE_ARP (arp_hdr oper sha spa tha tpa)) as (E1 & _ & E3 & E4); [done|done|lia|]. cbv zeta in *.
  assert (Hl : length (arp_hdr oper sha spa tha tpa) = 28%nat) by (unfold arp_hdr; rewrite !length_app, !le_bytes_length, H1, H2, H3, H4; done).
  split; [apply E4; unfold arp_hdr; repeat (apply Forall_app; split); try apply le_bytes_ok; try done; repeat constructor; lia|]. rewrite E3, Hl. split; [cbn; lia|]. by left.
Qed.

Lemma broadcast_ok : addr_ok 6 broadcast_mac.
Proof. split; [done|]. repeat constructor; lia. Qed.

Lemma zeros_ok n : addr_ok n (replicate n 0).
Proof. split; [apply length_replicate|]. apply Forall_replicate. lia. Qed.

Lemma arp_request_sends target s : dev_ok (g_dev s) -> addr_ok 4 target -> sends s (send_arp_request tx target s).2.
Proof. intros [? ? _ _] Ht. apply tx_sends, arp_frame_ok; try done; apply broadcast_ok || apply zeros_ok. Qed.

Lemma arp_reply_sends sha spa dst s : dev_ok (g_dev s) -> addr_ok 6 sha -> addr_ok 4 spa -> addr_ok 6 dst -> sends s (send_arp_reply tx sha spa dst s).2.
Proof. intros [? ? _ _] ? ? ?. by apply tx_sends, arp_frame_ok. Qed.

Lemma resolve_sends dst s : dev_ok (g_dev s) -> cache_ok (g_arp s) -> addr_ok 4 dst ->
  sends s (resolve_l2_next_hop tx dst s).2 /\ match (resolve_l2_next_hop tx dst s).1 with inl ret => ret < 0 | inr m => addr_ok 6 m /\ (resolve_l2_next_hop tx dst s).2 = s end.
Proof.
  intros Hdev [Hc1 Hc2] Hd. unfold resolve_l2_next_hop. case_match; [split; [reflexivity|cbn; lia]|]. case_match; [by split; [|split]|]. cbn [fst snd]. split; [|lia].
  apply arp_request_sends; [done|]. case_match; [done|apply Hdev].
Qed.
End Send.
