(* ===== verification/NetQueue.v ===== *)
(** * The event rings are bounded queues

    A ring of 32 slots holds up to 31 events.  Adding one to a full ring drops the
    oldest; a process takes the oldest event of its port, wherever it is, and the
    others keep their order. *)

From S2P Require Import Prelude Errno Bytes Net.

(** The slot of the [k]-th event. *)
Definition slot_no (tail k : Z) : Z := (tail + k) mod 32.

(** The ring holds the events [l], the oldest first. *)
Record holds {A} (r : ring A) (l : list A) : Prop := {
  h_slots : length (ring_slots r) = 32%nat; h_tail : 0 <= ring_tail r < 32; h_len : Z.of_nat (length l) < 32;
  h_head : ring_head r = slot_no (ring_tail r) (Z.of_nat (length l));
  h_at : forall k, (k < length l)%nat -> ring_slots r !! Z.to_nat (slot_no (ring_tail r) (Z.of_nat k)) = l !! k }.

Lemma slot_no_range t k : 0 <= slot_no t k < 32.
Proof. by apply Z.mod_pos_bound. Qed.

Lemma slot_no_inj t a b : 0 <= a < 32 -> 0 <= b < 32 -> slot_no t a = slot_no t b -> a = b.
Proof. intros Ha Hb E. unfold slot_no in E. pose proof (Z_div_mod_eq_full (t + a) 32). pose proof (Z_div_mod_eq_full (t + b) 32). lia. Qed.

Lemma ring_next_slot t k : ring_next (slot_no t k) = slot_no t (k + 1).
Proof.
  pose proof (slot_no_range t k). unfold ring_next. rewrite u32_small by lia. unfold slot_no. rewrite Zplus_mod_idemp_l. f_equal. lia.
Qed.

Lemma ring_next_small t : 0 <= t < 32 -> ring_next t = slot_no t 1.
Proof. intros Ht. unfold ring_next, slot_no. by rewrite u32_small by lia. Qed.

Lemma slot_no_0 t : 0 <= t < 32 -> slot_no t 0 = t.
Proof. intros Ht. unfold slot_no. rewrite Z.add_0_r. by apply Z.mod_small. Qed.

Lemma slot_no_add t a b : slot_no (slot_no t a) b = slot_no t (a + b).
Proof. unfold slot_no. rewrite Zplus_mod_idemp_l. f_equal. lia. Qed.

Lemma insert_slot {A} (l : list A) t a b e : length l = 32%nat -> 0 <= a < 32 -> 0 <= b < 32 ->
  <[Z.to_nat (slot_no t a) := e]> l !! Z.to_nat (slot_no t b) = if decide (a = b) then Some e else l !! Z.to_nat (slot_no t b).
Proof.
  intros Hl Ha Hb. pose proof (slot_no_range t a). pose proof (slot_no_range t b). case_decide as E; [subst; apply list_lookup_insert_eq; lia|].
  apply list_lookup_insert_ne. intros E'. apply E. apply (slot_no_inj t); [done|done|lia].
Qed.

(** Adding an event. *)
Definition bounded_push {A} (l : list A) (e : A) : list A := (if decide (length l = 31%nat) then tail l else l) ++ [e].

Lemma push_holds {A} (r : ring A) l e : holds r l -> exists r', ring_push e r = Some r' /\ holds r' (bounded_push l e).
Proof.
  intros [Hs Ht Hl Hh Ha]. set (n := Z.of_nat (length l)) in *. pose proof (slot_no_range (ring_tail r) n) as Hr. unfold ring_push. cbv zeta.
  destruct (lookup_lt_is_Some_2 (ring_slots r) (Z.to_nat (ring_head r))) as [x ->]; [lia|]. rewrite bind_ret. eexists. split; [reflexivity|].
  assert (Hat : forall k, (k <= length l)%nat -> <[Z.to_nat (ring_head r) := e]> (ring_slots r) !! Z.to_nat (slot_no (ring_tail r) (Z.of_nat k)) = (l ++ [e]) !! k).
  { intros k Hk. rewrite Hh, insert_slot by lia. case_decide as E.
    - rewrite lookup_app_r by lia. by replace (k - length l)%nat with 0%nat by lia.
    - rewrite lookup_app_l by lia. apply Ha. lia. }
  rewrite Hh, ring_next_slot. unfold bounded_push. destruct (decide (length l = 31%nat)) as [E31|Hne].
  - rewrite (proj2 (Z.eqb_eq _ _)) by (rewrite <- (slot_no_0 (ring_tail r)) at 2 by done; unfold n; rewrite E31; unfold slot_no; change (Z.of_nat 31 + 1) with (1 * 32); by rewrite Z.mod_add, Z.add_0_r by done).
    destruct l as [|x0 l]; [done|]. cbn [tail]. rewrite ring_next_small by done. split; cbn [ring_slots ring_head ring_tail].
    + by rewrite length_insert.
    + apply slot_no_range.
    + rewrite length_app. cbn in *. lia.
    + rewrite slot_no_add. f_equal. unfold n. rewrite length_app. cbn [length]. lia.
    + intros k Hk. rewrite slot_no_add. replace (1 + Z.of_nat k) with (Z.of_nat (S k)) by lia. rewrite length_app in Hk. cbn in Hk. rewrite <- Hh, Hat by (cbn; lia). done.
  - rewrite (proj2 (Z.eqb_neq _ _)) by (rewrite <- (slot_no_0 (ring_tail r)) at 2 by done; intros E; apply slot_no_inj in E; lia).
    split; cbn [ring_slots ring_head ring_tail]; [by rewrite length_insert|done|rewrite length_app; cbn; lia|f_equal; unfold n; rewrite length_app; cbn; lia|].
    intros k Hk. rewrite <- Hh. apply Hat. rewrite length_app in Hk. cbn in Hk. lia.
Qed.

(** Moving the events after the [j]-th forward. *)
Lemma shift_holds {A} fuel : forall (r : ring A) t n j, length (ring_slots r) = 32%nat -> 0 <= j < n -> n < 32 -> ring_head r = slot_no t n -> n - 1 - j <= Z.of_nat fuel ->
  exists sl, ring_shift fuel (slot_no t j) (slot_no t (j + 1)) r = Some (mkRing sl (ring_head r) (ring_tail r)) /\ length sl = 32%nat /\
    (forall k, 0 <= k < j -> sl !! Z.to_nat (slot_no t k) = ring_slots r !! Z.to_nat (slot_no t k)) /\
    (forall k, j <= k < n - 1 -> sl !! Z.to_nat (slot_no t k) = ring_slots r !! Z.to_nat (slot_no t (k + 1))).
Proof.
  induction fuel as [|fuel IH]; intros r t n j Hs Hj Hn Hh Hf; cbn [ring_shift]; rewrite Hh.
  - replace (j + 1) with n by lia. rewrite Z.eqb_refl. exists (ring_slots r). rewrite <- Hh. split_and!; [by destruct r|done|done|intros; lia].
  - destruct (Z.eqb_spec (slot_no t (j + 1)) (slot_no t n)) as [E|Hne].
    { apply slot_no_inj in E; [|lia|lia]. exists (ring_slots r). rewrite <- Hh. split_and!; [by destruct r|done|done|intros; lia]. }
    assert (j + 1 <> n) by (intros E; apply Hne; by rewrite E). pose proof (slot_no_range t (j + 1)).
    destruct (lookup_lt_is_Some_2 (ring_slots r) (Z.to_nat (slot_no t (j + 1)))) as [e He]; [lia|]. rewrite He, bind_ret, ring_next_slot.
    edestruct (IH (mkRing (<[Z.to_nat (slot_no t j) := e]> (ring_slots r)) (slot_no t n) (ring_tail r)) t n (j + 1)) as (sl & -> & Hl & Hlo & Hhi); [cbn; by rewrite length_insert|lia|lia|done|lia|].
    cbn [ring_slots ring_head ring_tail] in *. exists sl. split_and!; [done|done|..].
    + intros k Hk. rewrite Hlo by lia. rewrite insert_slot by lia. case_decide; [lia|done].
    + intros k Hk. destruct (decide (k = j)) as [->|Hkj].
      * rewrite Hlo, insert_slot by lia. case_decide; [done|lia].
      * rewrite Hhi, insert_slot by lia. case_decide; [lia|done].
Qed.

(** Taking out the first event that satisfies [p]. *)
Fixpoint take_first {A} (p : A -> bool) (l : list A) : option (A * list A) :=
  match l with
  | [] => None
  | e :: l => if p e then Some (e, l) else '(e', l') ← take_first p l; Some (e', e :: l')
  end.

Definition for_port (port : Z) (e : net_udp_event) : bool := (port =? 0) || (ud_dst_port e =? port).

Lemma take_first_app {A} (p : A -> bool) l1 l2 : Forall (fun e => p e = false) l1 -> take_first p (l1 ++ l2) = ('(e, l) ← take_first p l2; Some (e, l1 ++ l)).
Proof.
  induction 1 as [|e l1 He _ IH]; cbn [app take_first]; [destruct (take_first p l2) as [[? ?]|]; done|]. rewrite He, IH. destruct (take_first p l2) as [[? ?]|]; done.
Qed.

Lemma remove_holds {A} (r : ring A) l1 e l2 sl : holds r (l1 ++ e :: l2) -> length sl = 32%nat ->
  (forall k, 0 <= k < Z.of_nat (length l1) -> sl !! Z.to_nat (slot_no (ring_tail r) k) = ring_slots r !! Z.to_nat (slot_no (ring_tail r) k)) ->
  (forall k, Z.of_nat (length l1) <= k < Z.of_nat (length (l1 ++ e :: l2)) - 1 -> sl !! Z.to_nat (slot_no (ring_tail r) k) = ring_slots r !! Z.to_nat (slot_no (ring_tail r) (k + 1))) ->
  holds (mkRing sl (u32 (ring_head r + NET_EVENT_RING - 1) mod NET_EVENT_RING) (ring_tail r)) (l1 ++ l2).
Proof.
  intros [Hs Ht Hl Hh Ha] Hsl Hlo Hhi. rewrite length_app in Hl, Hh, Hhi. cbn [length] in *. split; cbn [ring_slots ring_head ring_tail]; [done|done|rewrite length_app; lia|..].
  - pose proof (slot_no_range (ring_tail r) (Z.of_nat (length l1 + S (length l2)))). rewrite u32_small by lia. rewrite Hh. replace (slot_no (ring_tail r) (Z.of_nat (length l1 + S (length l2))) + 32 - 1) with (slot_no (ring_tail r) (Z.of_nat (length l1 + S (length l2))) + 31) by lia.
    fold (slot_no (slot_no (ring_tail r) (Z.of_nat (length l1 + S (length l2)))) 31). rewrite slot_no_add, length_app. unfold slot_no.
    replace (ring_tail r + (Z.of_nat (length l1 + S (length l2)) + 31)) with (ring_tail r + Z.of_nat (length l1 + length l2) + 1 * 32) by lia. by rewrite Z.mod_add.
  - intros k Hk. rewrite length_app in Hk. destruct (decide (k < length l1)%nat) as [Hk1|Hk1].
    + rewrite Hlo by lia. rewrite Ha by (rewrite length_app; lia). by rewrite !lookup_app_l by lia.
    + rewrite Hhi by lia. replace (Z.of_nat k + 1) with (Z.of_nat (S k)) by lia. rewrite Ha by (rewrite length_app; cbn; lia). rewrite !lookup_app_r by lia. by replace (S k - length l1)%nat with (S (k - length l1)) by lia.
Qed.

Lemma udp_take_spec fuel port r : forall l2 l1, holds r (l1 ++ l2) -> Forall (fun e => for_port port e = false) l1 -> (length l2 <= fuel)%nat ->
  exists res r', udp_take fuel port (slot_no (ring_tail r) (Z.of_nat (length l1))) r = Some (res, r') /\
    match take_first (for_port port) l2 with Some (e, l) => res = Some e /\ holds r' (l1 ++ l) | None => res = None /\ r' = r end.
Proof.
  induction fuel as [|fuel IH]; intros l2 l1 Hr Hf Hl; pose proof Hr as [Hs Ht Hn Hh Ha].
  - destruct l2; [|cbn in Hl; lia]. rewrite app_nil_r in *. cbn [udp_take]. rewrite Hh, Z.eqb_refl. by exists None, r.
  - destruct l2 as [|e l2]; cbn [udp_take]. { rewrite app_nil_r in *. rewrite Hh, Z.eqb_refl. by exists None, r. }
    rewrite length_app in Hn. cbn in Hn. rewrite (proj2 (Z.eqb_neq _ _)) by (rewrite Hh, length_app; cbn [length]; intros E; apply slot_no_inj in E; lia).
    rewrite Ha by (rewrite length_app; cbn; lia). rewrite lookup_app_r, Nat.sub_diag by lia. cbn [lookup list_lookup]. rewrite bind_ret. cbn [take_first]. fold (for_port port e). destruct (for_port port e) eqn:Ep.
    + rewrite ring_next_slot. destruct (shift_holds (Z.to_nat NET_EVENT_RING) r (ring_tail r) (Z.of_nat (length (l1 ++ e :: l2))) (Z.of_nat (length l1))) as (sl & -> & Hsl & Hlo & Hhi); [done|rewrite length_app; cbn; lia|rewrite length_app; cbn; lia|done|rewrite length_app; cbn; lia|].
      rewrite bind_ret. cbn [ring_slots ring_head ring_tail]. eexists (Some e), _. split; [reflexivity|]. split; [done|]. by eapply remove_holds.
    + rewrite ring_next_slot. replace (Z.of_nat (length l1) + 1) with (Z.of_nat (length (l1 ++ [e]))) by (rewrite length_app; cbn; lia).
      destruct (IH l2 (l1 ++ [e])) as (res & r' & -> & H); [by rewrite <- app_assoc|apply Forall_app; split; [done|by constructor]|cbn in Hl; lia|]. exists res, r'. split; [done|].
      destruct (take_first (for_port port) l2) as [[e' l']|]; cbn; [by rewrite <- app_assoc in H|done].
Qed.

Lemma recv_udp_spec port s l : holds (g_udp s) l ->
  exists r, net_recv_udp_event port s = Some (match take_first (for_port port) l with Some (e, _) => inr e | None => inl (- EAGAIN) end, with_udp r s) /\
    holds r (match take_first (for_port port) l with Some (_, l') => l' | None => l end).
Proof.
  intros Hr. pose proof Hr as [Hs Ht Hn Hh Ha]. unfold net_recv_udp_event. destruct (Z.eqb_spec (ring_head (g_udp s)) (ring_tail (g_udp s))) as [E|Hne].
  - rewrite Hh in E. rewrite <- (slot_no_0 (ring_tail (g_udp s))) in E at 2 by done. apply slot_no_inj in E; [|lia|lia]. destruct l; [|cbn in E; lia]. exists (g_udp s). split; [by destruct s|done].
  - destruct (udp_take_spec (Z.to_nat NET_EVENT_RING) port (g_udp s) l []) as (res & r' & E & H); [done|constructor|lia|]. cbn [length] in E. change (Z.of_nat 0) with 0 in E. rewrite slot_no_0 in E by done.
    rewrite E, bind_ret. exists r'. destruct (take_first (for_port port) l) as [[e l']|]; destruct H as [-> H]; [done|]. by subst r'.
Qed.

Lemma recv_icmp_spec s l : holds (g_icmp s) l ->
  exists r, net_recv_icmp_echo_event s = Some (match l with e :: _ => inr e | [] => inl (- EAGAIN) end, with_icmp r s) /\ holds r (tail l).
Proof.
  intros Hr. pose proof Hr as [Hs Ht Hn Hh Ha]. unfold net_recv_icmp_echo_event. cbv zeta. destruct l as [|e l].
  - cbn [length] in Hh. change (Z.of_nat 0) with 0 in Hh. rewrite slot_no_0 in Hh by done. rewrite Hh, Z.eqb_refl. exists (g_icmp s). split; [by destruct s|done].
  - rewrite (proj2 (Z.eqb_neq _ _)) by (rewrite Hh; rewrite <- (slot_no_0 (ring_tail (g_icmp s))) at 2 by done; intros E; apply slot_no_inj in E; cbn [length] in *; lia).
    specialize (Ha 0%nat ltac:(cbn; lia)) as H0. change (Z.of_nat 0) with 0 in H0. rewrite slot_no_0 in H0 by done. rewrite H0. cbn [lookup list_lookup]. rewrite bind_ret. eexists. split; [reflexivity|].
    rewrite ring_next_small by done. split; cbn [ring_slots ring_head ring_tail tail]; [done|apply slot_no_range|cbn in Hn; lia|rewrite Hh, slot_no_add; f_equal; cbn; lia|].
    intros k Hk. rewrite slot_no_add. replace (1 + Z.of_nat k) with (Z.of_nat (S k)) by lia. by rewrite Ha by (cbn; lia).
Qed.

(** ** The rings implement queues *)

(** The operations on the two rings, and what they return. *)
Inductive queue_op := PushUdp (src : list Z) (sp dp : Z) (payload : list Z) (len : Z) | PushIcmp (src packet : list Z) (len : Z) | RecvUdp (port : Z) | RecvIcmp.

Inductive queue_result := Pushed | GotUdp (r : sum Z net_udp_event) | GotIcmp (r : sum Z net_icmp_event).

(** A push reads as many bytes as the event keeps. *)
Definition queue_op_fits (o : queue_op) : Prop :=
  match o with
  | PushUdp _ _ _ payload len => 0 <= len /\ Z.min len 512 <= Z.of_nat (length payload)
  | PushIcmp _ packet len => 0 <= len /\ Z.min len 256 <= Z.of_nat (length packet)
  | _ => True
  end.

Definition queue_step (o : queue_op) (s : net) : option (queue_result * net) :=
  match o with
  | PushUdp src sp dp payload len => s ← udp_event_push src sp dp payload len s; Some (Pushed, s)
  | PushIcmp src packet len => s ← icmp_event_push src packet len s; Some (Pushed, s)
  | RecvUdp port => '(r, s) ← net_recv_udp_event port s; Some (GotUdp r, s)
  | RecvIcmp => '(r, s) ← net_recv_icmp_echo_event s; Some (GotIcmp r, s)
  end.

Fixpoint queue_steps (l : list queue_op) (s : net) : option (list queue_result * net) :=
  match l with
  | [] => Some ([], s)
  | o :: l => '(r, s) ← queue_step o s; '(rs, s) ← queue_steps l s; Some (r :: rs, s)
  end.

(** The same operations on the two lists of events: the oldest of 31 events makes room. *)
Definition list_step (o : queue_op) (q : list net_udp_event * list net_icmp_event) : queue_result * (list net_udp_event * list net_icmp_event) :=
  let '(u, i) := q in
  match o with
  | PushUdp src sp dp payload len => (Pushed, (bounded_push u (mkUdp src sp dp (Z.min len 512) (overlay (take (Z.to_nat (Z.min len 512)) payload) (replicate 512 0))), i))
  | PushIcmp src packet len => (Pushed, (u, bounded_push i (mkIcmp src (Z.min len 256) (overlay (take (Z.to_nat (Z.min len 256)) packet) (replicate 256 0)))))
  | RecvUdp port => match take_first (for_port port) u with Some (e, u') => (GotUdp (inr e), (u', i)) | None => (GotUdp (inl (- EAGAIN)), (u, i)) end
  | RecvIcmp => match i with e :: i' => (GotIcmp (inr e), (u, i')) | [] => (GotIcmp (inl (- EAGAIN)), (u, i)) end
  end.

Fixpoint list_steps (l : list queue_op) (q : list net_udp_event * list net_icmp_event) : list queue_result * (list net_udp_event * list net_icmp_event) :=
  match l with
  | [] => ([], q)
  | o :: l => let '(r, q) := list_step o q in let '(rs, q) := list_steps l q in (r :: rs, q)
  end.

Lemma rd_start l n : 0 <= n <= Z.of_nat (length l) -> rd l 0 n = Some (take (Z.to_nat n) l).
Proof. intros Hn. unfold rd. rewrite !(proj2 (Z.leb_le _ _)) by lia. done. Qed.

Lemma cap_min n m : (if n >? m then m else n) = Z.min n m.
Proof. rewrite Z.gtb_ltb. destruct (Z.ltb_spec m n); lia. Qed.

Lemma queue_step_spec o s u i : queue_op_fits o -> holds (g_udp s) u -> holds (g_icmp s) i ->
  exists s', queue_step o s = Some ((list_step o (u, i)).1, s') /\ holds (g_udp s') (list_step o (u, i)).2.1 /\ holds (g_icmp s') (list_step o (u, i)).2.2.
Proof.
  intros Ho Hu Hi. destruct o as [src sp dp payload len|src packet len|port|]; cbn [queue_step list_step queue_op_fits] in *.
  - unfold udp_event_push. cbv zeta. rewrite cap_min, rd_start by lia. rewrite bind_ret. edestruct (push_holds (g_udp s) u) as (r & -> & Hr); [done|]. by exists (with_udp r s).
  - unfold icmp_event_push. cbv zeta. rewrite cap_min, rd_start by lia. rewrite bind_ret. edestruct (push_holds (g_icmp s) i) as (r & -> & Hr); [done|]. by exists (with_icmp r s).
  - destruct (recv_udp_spec port s u Hu) as (r & -> & Hr). rewrite bind_ret. exists (with_udp r s). by destruct (take_first (for_port port) u) as [[e u']|].
  - destruct (recv_icmp_spec s i Hi) as (r & -> & Hr). rewrite bind_ret. exists (with_icmp r s). by destruct i.
Qed.

(** C20. The rings of received UDP and ICMP events are queues of at most 31 events: from
    rings that hold two lists of events, any sequence of arrivals and of receiving
    calls returns what the same sequence returns on the lists, where an arrival at a
    full list drops the oldest event, a call for a port takes out the oldest event
    of that port, and a call that finds nothing returns -EAGAIN and changes nothing;
    the rings then hold the resulting lists. *)
Theorem rings_are_queues l s u i (Hl : Forall queue_op_fits l) (Hu : holds (g_udp s) u) (Hi : holds (g_icmp s) i) :
  exists s', queue_steps l s = Some ((list_steps l (u, i)).1, s') /\ holds (g_udp s') (list_steps l (u, i)).2.1 /\ holds (g_icmp s') (list_steps l (u, i)).2.2.
Proof.
  revert s u i Hu Hi. induction Hl as [|o l Ho _ IH]; intros s u i Hu Hi; [by exists s|]. cbn [queue_steps list_steps].
  destruct (queue_step_spec o s u i Ho Hu Hi) as (s1 & -> & Hu1 & Hi1). rewrite bind_ret. destruct (list_step o (u, i)) as [r [u1 i1]]. cbn [fst snd] in *.
  destruct (IH s1 u1 i1 Hu1 Hi1) as (s2 & -> & Hu2 & Hi2). rewrite bind_ret. destruct (list_steps l (u1, i1)) as [rs q]. by exists s2.
Qed.

Lemma empty_holds {A} (e : A) : holds (zero_ring e) [].
Proof. split; [done|cbn; lia|cbn; lia|done|]. cbn. lia. Qed.

Lemma rings_are_queues_witness : exists s', queue_steps [PushUdp [10; 0; 2; 2] 1 53 [7] 1; PushUdp [10; 0; 2; 2] 1 80 [8] 1; RecvUdp 80; RecvUdp 80; RecvIcmp]
    (net_init (mkNet (mkDev false [] [] [] [] false) (mkArp false [] []) 0 (mkRing [] 0 0) (mkRing [] 0 0) [] (mkDhcp DHCP_DISABLED 0 0 0 [] [] [] []) [])) =
  Some ([Pushed; Pushed; GotUdp (inr (mkUdp [10; 0; 2; 2] 1 80 1 (8 :: replicate 511 0))); GotUdp (inl (- EAGAIN)); GotIcmp (inl (- EAGAIN))], s').
Proof.
  edestruct (rings_are_queues [PushUdp [10; 0; 2; 2] 1 53 [7] 1; PushUdp [10; 0; 2; 2] 1 80 [8] 1; RecvUdp 80; RecvUdp 80; RecvIcmp]
    (net_init (mkNet (mkDev false [] [] [] [] false) (mkArp false [] []) 0 (mkRing [] 0 0) (mkRing [] 0 0) [] (mkDhcp DHCP_DISABLED 0 0 0 [] [] [] []) [])) [] []) as (s' & E & _); [|apply empty_holds..|exists s'; exact E].
  repeat constructor; cbn; lia.
Defined.
