(* ===== verification/NetProps.v ===== *)
(** * The network core is safe

    The invariant of its state, that every operation keeps it, and that no frame,
    however malformed, makes it read or write outside of its buffers, provided the
    receive buffer of the driver has at least 594 bytes. *)

From S2P Require Import Prelude Errno Bytes Net NetFrames NetQueue.

(** ** The invariant *)

Record icmp_event_ok (e : net_icmp_event) : Prop := { ie_src : addr_ok 4 (ic_src_ip e); ie_len : 0 <= ic_packet_len e <= 256; ie_packet : addr_ok 256 (ic_packet e) }.

Record udp_event_ok (e : net_udp_event) : Prop := {
  ue_src : addr_ok 4 (ud_src_ip e); ue_sport : 0 <= ud_src_port e < 65536; ue_dport : 0 <= ud_dst_port e < 65536;
  ue_len : 0 <= ud_payload_len e <= 512; ue_payload : addr_ok 512 (ud_payload e) }.

Definition ring_ok {A} (P : A -> Prop) (r : ring A) : Prop := exists l, holds r l /\ Forall P l.

Record tx_ok (t : tcp_tx) : Prop := {
  to_seq : 0 <= tx_seq t < 2 ^ 32; to_ack : 0 <= tx_ack t < 2 ^ 32; to_len : 0 <= tx_len t <= NET_TCP_TX_BUF; to_buf : addr_ok 1200 (tx_buf t) }.

Record conn_ok (c : tcp_conn) : Prop := {
  co_state : used c = true -> c_state c = TCP_CONN_SYN_SENT \/ c_state c = TCP_CONN_ESTABLISHED;
  co_ip : addr_ok 4 (remote_ip c); co_local : 0 <= local_port c < 65536; co_remote : 0 <= remote_port c < 65536;
  co_una : 0 <= snd_una c < 2 ^ 32; co_snd : 0 <= snd_nxt c < 2 ^ 32; co_rcv : 0 <= rcv_nxt c < 2 ^ 32;
  co_tick : 0 <= last_tx_tick c < 2 ^ 32; co_retries : 0 <= c_retries c <= NET_TCP_TX_MAX_RETRIES;
  co_rx : 0 <= rx_len c <= NET_TCP_RX_BUF; co_buf : addr_ok 4096 (rx_buf c); co_tx : tx_ok (c_tx c) }.

Record dhcp_ok (d : dhcp_client_state) : Prop := {
  do_xid : 0 <= dh_xid d < 2 ^ 32; do_tick : 0 <= dh_last_event_tick d < 2 ^ 32; do_retries : 0 <= dh_retries d < 2 ^ 32;
  do_ip : addr_ok 4 (offered_ip d); do_mask : addr_ok 4 (offered_mask d); do_router : addr_ok 4 (offered_router d); do_server : addr_ok 4 (server_id d) }.

Record net_ok (s : net) : Prop := {
  no_dev : dev_ok (g_dev s); no_arp : cache_ok (g_arp s); no_tick : 0 <= g_tick_count s < 2 ^ 64;
  no_icmp : ring_ok icmp_event_ok (g_icmp s); no_udp : ring_ok udp_event_ok (g_udp s);
  no_count : length (g_tcp_conns s) = 8%nat; no_conns : Forall conn_ok (g_tcp_conns s);
  no_dhcp : dhcp_ok (g_dhcp s); no_sent : Forall frame_ok (sent s) }.

(** What sending on a connection leaves alone. *)
Record keeps (s s' : net) : Prop := {
  k_dev : g_dev s' = g_dev s; k_arp : g_arp s' = g_arp s; k_tick : g_tick_count s' = g_tick_count s;
  k_icmp : g_icmp s' = g_icmp s; k_udp : g_udp s' = g_udp s; k_dhcp : g_dhcp s' = g_dhcp s }.

#[export] Instance keeps_preorder : PreOrder keeps.
Proof. split; [by intros s; split|]. intros s1 s2 s3 [] []. split; congruence. Qed.

Lemma sends_ok s s' : net_ok s -> sends s s' -> net_ok s'.
Proof. intros [] (l & Hl & ->). split; try done. by apply Forall_app. Qed.

Lemma sends_keeps s s' : sends s s' -> keeps s s' /\ g_tcp_conns s' = g_tcp_conns s.
Proof. by intros (l & _ & ->). Qed.

Lemma set_conn_ok i c s : net_ok s -> conn_ok c -> net_ok (set_conn i c s).
Proof. intros [] Hc. split; try done; cbn; [by rewrite length_insert|by apply Forall_insert]. Qed.

Lemma set_conn_keeps i c s : keeps s (set_conn i c s).
Proof. by split. Qed.

Lemma conn_at s i c : net_ok s -> g_tcp_conns s !! i = Some c -> conn_ok c /\ (i < 8)%nat.
Proof. intros Hs Hi. split; [by eapply Forall_lookup_1; [apply Hs|]|]. apply lookup_lt_Some in Hi. by rewrite no_count in Hi. Qed.

#[export] Hint Resolve no_dev no_arp no_icmp no_udp no_dhcp set_conn_ok set_conn_keeps : obelisk.

(** ** Sending on a connection *)

(** The connection as its peer and its process see it. *)
Record same_peer (c c' : tcp_conn) : Prop := {
  sp_used : used c' = used c; sp_state : c_state c' = c_state c; sp_ip : remote_ip c' = remote_ip c; sp_local : local_port c' = local_port c; sp_remote : remote_port c' = remote_port c;
  sp_una : snd_una c' = snd_una c; sp_snd : snd_nxt c' = snd_nxt c; sp_rcv : rcv_nxt c' = rcv_nxt c; sp_closed : peer_closed c' = peer_closed c;
  sp_buf : rx_buf c' = rx_buf c; sp_len : rx_len c' = rx_len c }.

Lemma overlay_ok n data buf : (length data <= n)%nat -> bytes_ok data -> addr_ok n buf -> addr_ok n (overlay data buf).
Proof. intros Hl Hd [Hb Hbb]. unfold overlay. split; [rewrite length_app, length_drop; lia|]. apply Forall_app. split; [done|by apply Forall_drop]. Qed.

Lemma u32_ok x : 0 <= u32 x < 2 ^ 32.
Proof. apply u32_range. Qed.

Lemma tracked_ok c seq ack flags payload : conn_ok c -> bytes_ok payload -> 0 <= seq < 2 ^ 32 -> 0 <= ack < 2 ^ 32 ->
  let n := if Z.of_nat (length payload) >? NET_TCP_TX_BUF then NET_TCP_TX_BUF else Z.of_nat (length payload) in
  tx_ok (mkTx true seq ack flags n (overlay (take (Z.to_nat n) payload) (tx_buf (c_tx c)))).
Proof.
  intros [] Hp Hs Ha n. assert (Hn : 0 <= n <= NET_TCP_TX_BUF) by (unfold n; rewrite Z.gtb_ltb; destruct (Z.ltb_spec NET_TCP_TX_BUF (Z.of_nat (length payload))); lia).
  split; cbn; [done|done|done|]. apply overlay_ok; [rewrite length_take; lia|by apply Forall_take|by destruct co_tx0].
Qed.

Section Ops.
Context (tx : nat -> list Z -> Z).

Lemma tcp_send_spec i c seq ack flags payload track s : net_ok s -> g_tcp_conns s !! i = Some c -> bytes_ok payload -> 0 <= seq < 2 ^ 32 -> 0 <= ack < 2 ^ 32 ->
  exists ret s' c', tcp_send_on_conn tx i seq ack flags payload track s = Some (ret, s') /\ net_ok s' /\ keeps s s' /\ g_tcp_conns s' = <[i := c']> (g_tcp_conns s) /\
    same_peer c c' /\ (track = false -> c_tx c' = c_tx c /\ c_retries c' = c_retries c).
Proof.
  intros Hok Hi Hp Hs Ha. destruct (conn_at s i c Hok Hi) as [Hc _]. unfold tcp_send_on_conn. rewrite Hi, bind_ret.
  destruct (resolve_sends tx (remote_ip c) s) as [Hsend Hr]; [by apply no_dev|by apply no_arp|apply Hc|].
  destruct (resolve_l2_next_hop tx (remote_ip c) s) as [[ret|m] s1]; cbn [fst snd] in *.
  { destruct (sends_keeps _ _ Hsend) as [Hk Et]. exists ret, s1, c. split_and!; [done|by eapply sends_ok|done|by rewrite Et, list_insert_id|by split|done]. }
  destruct Hr as [Hm ->]. pose proof Hc as [].
  destruct (send_tcp_sends tx m (ip (g_dev s)) (remote_ip c) (local_port c) (remote_port c) seq ack flags payload s) as (ret & s1 & -> & Hs1); [done|by apply no_dev|apply Hok|done|done|done|done|done|done|].
  rewrite bind_ret. destruct (sends_keeps _ _ Hs1) as [Hk Et]. pose proof (sends_ok _ _ Hok Hs1) as Hok1.
  destruct (ret <? 0). { exists ret, s1, c. split_and!; [done|done|done|by rewrite Et, list_insert_id|by split|done]. }
  pose proof (tracked_ok c seq ack flags payload Hc Hp Hs Ha) as Htx. cbv zeta in *. pose proof (u32_ok (g_tick_count s1)).
  eexists 0, _, _. split; [reflexivity|]. split_and!; [|by etrans; [|apply set_conn_keeps]|unfold set_conn; cbn [g_tcp_conns with_conns]; by rewrite Et| |by intros ->].
  - apply set_conn_ok; [done|]. destruct track; split; done || (cbn; lia).
  - destruct track; by split.
Qed.

(** ** Events *)

Lemma ring_push_ok {A} (P : A -> Prop) e r : ring_ok P r -> P e -> exists r', ring_push e r = Some r' /\ ring_ok P r'.
Proof.
  intros (l & Hr & Hl) He. destruct (push_holds r l e Hr) as (r' & -> & Hr'). exists r'. split; [done|]. eexists. split; [exact Hr'|].
  unfold bounded_push. apply Forall_app. split; [|by constructor]. case_decide; [by apply Forall_tail|done].
Qed.

Lemma rd_ok buf off n : bytes_ok buf -> 0 <= off -> 0 <= n -> off + n <= Z.of_nat (length buf) -> exists l, rd buf off n = Some l /\ addr_ok (Z.to_nat n) l.
Proof.
  intros Hb Ho Hn Hl. unfold rd. rewrite !(proj2 (Z.leb_le _ _)) by lia. cbn [andb]. eexists. split; [done|]. split; [rewrite length_take, length_drop; lia|by apply Forall_take, Forall_drop].
Qed.

Lemma rd_int_ok buf off n : bytes_ok buf -> 0 <= off -> 0 <= n -> off + n <= Z.of_nat (length buf) -> exists v, rd_int buf off n = Some v /\ 0 <= v < 256 ^ n.
Proof.
  intros Hb Ho Hn Hl. unfold rd_int. destruct (rd_ok buf off n Hb Ho Hn Hl) as (l & -> & Hlen & Hlb). rewrite bind_ret. eexists. split; [done|].
  pose proof (le_value_bounds l Hlb) as H. rewrite Hlen, Z2Nat.id in H by done. done.
Qed.

Lemma ntohs_range v : 0 <= ntohs v < 65536.
Proof. by apply Z.mod_pos_bound. Qed.

Lemma ntohl_range v : 0 <= ntohl v < 2 ^ 32.
Proof. unfold ntohl. rewrite bswap32_value. pose proof (byte_of_range v 0). pose proof (byte_of_range v 8). pose proof (byte_of_range v 16). pose proof (byte_of_range v 24). lia. Qed.

Lemma udp_push_ok src sp dp payload len s : net_ok s -> addr_ok 4 src -> 0 <= sp < 65536 -> 0 <= dp < 65536 -> bytes_ok payload -> 0 <= len -> Z.min len 512 <= Z.of_nat (length payload) ->
  exists s', udp_event_push src sp dp payload len s = Some s' /\ net_ok s'.
Proof.
  intros Hok Hsrc Hsp Hdp Hp Hl Hlen. unfold udp_event_push. cbv zeta. set (n := if len >? 512 then 512 else len).
  assert (Hn : 0 <= n <= 512 /\ n = Z.min len 512) by (unfold n; rewrite Z.gtb_ltb; destruct (Z.ltb_spec 512 len); lia).
  destruct (rd_ok payload 0 n) as (l & -> & Hll & Hlb); [done|lia|lia|lia|]. rewrite bind_ret.
  destruct (ring_push_ok udp_event_ok (mkUdp src sp dp n (overlay l (replicate 512 0))) (g_udp s)) as (r & -> & Hr); [by apply no_udp|split; cbn; try done; try lia; apply overlay_ok; [lia|done|apply zeros_ok]|].
  rewrite bind_ret. eexists. split; [done|]. by destruct Hok.
Qed.

Lemma icmp_push_ok src packet len s : net_ok s -> addr_ok 4 src -> bytes_ok packet -> 0 <= len -> Z.min len 256 <= Z.of_nat (length packet) ->
  exists s', icmp_event_push src packet len s = Some s' /\ net_ok s'.
Proof.
  intros Hok Hsrc Hp Hl Hlen. unfold icmp_event_push. cbv zeta. set (n := if len >? 256 then 256 else len).
  assert (Hn : 0 <= n <= 256 /\ n = Z.min len 256) by (unfold n; rewrite Z.gtb_ltb; destruct (Z.ltb_spec 256 len); lia).
  destruct (rd_ok packet 0 n) as (l & -> & Hll & Hlb); [done|lia|lia|lia|]. rewrite bind_ret.
  destruct (ring_push_ok icmp_event_ok (mkIcmp src n (overlay l (replicate 256 0))) (g_icmp s)) as (r & -> & Hr); [by apply no_icmp|split; cbn; try done; try lia; apply overlay_ok; [lia|done|apply zeros_ok]|].
  rewrite bind_ret. eexists. split; [done|]. by destruct Hok.
Qed.

(** ** The DHCP client *)

Lemma dhcp_packet_ok op xid flags yi ch magic options : 0 <= op < 256 -> addr_ok 4 yi -> bytes_ok ch -> (length ch <= 16)%nat -> bytes_ok options -> (length options <= 312)%nat ->
  bytes_ok (dhcp_packet op xid flags yi ch magic options) /\ length (dhcp_packet op xid flags yi ch magic options) = 552%nat.
Proof.
  intros Hop [Hy Hyb] Hc Hcl Ho Hol. destruct (overlay_ok 16 ch (replicate 16 0) Hcl Hc (zeros_ok 16)) as [H1 H1b]. destruct (overlay_ok 312 options (replicate 312 0) Hol Ho (zeros_ok 312)) as [H2 H2b].
  unfold dhcp_packet. split.
  - unfold bytes_ok. rewrite !Forall_app. split_and!; try apply le_bytes_ok; try done; try (apply Forall_replicate; lia). repeat constructor; lia.
  - rewrite !length_app, !le_bytes_length, !length_replicate, Hy, H1, H2. reflexivity.
Qed.

Lemma with_dhcp_ok d s : net_ok s -> dhcp_ok d -> net_ok (with_dhcp d s).
Proof. by intros []. Qed.

Lemma with_dev_ok d s : net_ok s -> dev_ok d -> net_ok (with_dev d s).
Proof. by intros []. Qed.

Lemma set_dhcp_ok st tick retries d : dhcp_ok d -> dhcp_ok (set_dhcp st (u32 tick) (u32 retries) d).
Proof. intros []. pose proof (u32_ok tick). pose proof (u32_ok retries). by split. Qed.

Lemma dhcp_send_ok st options s : net_ok s -> bytes_ok options -> (length options <= 312)%nat ->
  exists ret s', dhcp_send tx st options s = Some (ret, s') /\ net_ok s' /\
    sends (with_dhcp (set_dhcp st (u32 (g_tick_count s)) (u32 (dh_retries (g_dhcp s) + 1)) (g_dhcp s)) s) s'.
Proof.
  intros Hok Ho Hl. unfold dhcp_send. cbv zeta. set (s1 := with_dhcp _ s). pose proof (no_dev s Hok) as [[Hm Hmb] _ _ _].
  assert (Hok1 : net_ok s1) by (apply with_dhcp_ok; [done|]; by apply set_dhcp_ok, no_dhcp).
  destruct (dhcp_packet_ok DHCP_OP_BOOTREQUEST (htonl (dh_xid (g_dhcp s))) (htons 32768) (replicate 4 0) (mac (g_dev s)) (htonl DHCP_MAGIC_COOKIE) options) as [Hb _]; [lia|apply zeros_ok|done|lia|done|done|].
  edestruct (send_udp_sends tx broadcast_mac (replicate 4 0) (replicate 4 255)) as (ret & s' & E & Hs); [apply broadcast_ok|by apply (no_dev s1)|apply zeros_ok|split; [done|repeat constructor; lia]|exact Hb|].
  exists ret, s'. split; [exact E|]. split; [by eapply sends_ok|done].
Qed.

Record opts_ok (o : dhcp_options) : Prop := { oo_type : 0 <= msg_type o < 256; oo_mask : addr_ok 4 (o_mask o); oo_router : addr_ok 4 (o_router o); oo_server : addr_ok 4 (o_server o) }.

(** Parsing ends and stays inside of the options. *)
Lemma parse_loop_ok fuel : forall opts opts_len i o, bytes_ok opts -> opts_len <= Z.of_nat (length opts) -> 0 <= i -> opts_len - i <= Z.of_nat fuel -> opts_ok o ->
  exists o', dhcp_parse_loop fuel opts opts_len i o = Some o' /\ opts_ok o'.
Proof.
  induction fuel as [|fuel IH]; intros opts n i o Hb Hn Hi Hf Ho; cbn [dhcp_parse_loop]; (destruct (Z.ltb_spec i n) as [Hlt|Hge]; cbn [negb]; [|by exists o]); [lia|].
  destruct (rd_int_ok opts i 1) as (code & -> & Hcode); [done|lia..|]. rewrite bind_ret. case_match; [by exists o|]. case_match; [apply IH; done || lia|].
  rewrite Z.geb_leb. destruct (Z.leb_spec n (i + 1)); [by exists o|].
  destruct (rd_int_ok opts (i + 1) 1) as (len & -> & Hlen); [done|lia..|]. rewrite bind_ret. rewrite Z.gtb_ltb. destruct (Z.ltb_spec n (i + 1 + 1 + len)); [by exists o|].
  destruct Ho as [Ht Hm Hr Hs].
  assert (Hrd : forall k, 0 <= k <= len -> exists l, rd opts (i + 1 + 1) k = Some l /\ addr_ok (Z.to_nat k) l) by (intros k Hk; apply rd_ok; [done|lia..]).
  destruct ((code =? _) && (len =? 1)) eqn:E1; zbool.
  { destruct (rd_int_ok opts (i + 1 + 1) 1) as (t & -> & Ht'); [done|lia..|]. rewrite !bind_ret. apply IH; try done; lia. }
  destruct ((code =? _) && (len =? 4)) eqn:E2; [destruct (Hrd 4) as (l & -> & Hl); [zbool; lia|]; rewrite !bind_ret; apply IH; try done; lia|].
  destruct ((code =? _) && (len >=? 4)) eqn:E3; [destruct (Hrd 4) as (l & -> & Hl); [zbool; lia|]; rewrite !bind_ret; apply IH; try done; lia|].
  destruct ((code =? DHCP_OPT_SERVER_ID) && (len =? 4)) eqn:E4; [destruct (Hrd 4) as (l & -> & Hl); [zbool; lia|]; rewrite !bind_ret; apply IH; try done; lia|].
  rewrite bind_ret. apply IH; try done; lia.
Qed.

Lemma parse_ok pkt n o : bytes_ok pkt -> 0 <= n -> 240 + n <= Z.of_nat (length pkt) -> opts_ok o -> exists o', dhcp_parse_options (drop 240 pkt) n o = Some o' /\ opts_ok o'.
Proof. intros Hb Hn Hl Ho. apply parse_loop_ok; [by apply Forall_drop|rewrite length_drop; lia|lia|lia|done]. Qed.

Lemma on_offer_ok pkt n s : net_ok s -> bytes_ok pkt -> 0 <= n -> 240 + n <= Z.of_nat (length pkt) -> exists s', dhcp_on_offer tx pkt n s = Some s' /\ net_ok s'.
Proof.
  intros Hok Hb Hn Hl. unfold dhcp_on_offer. destruct (parse_ok pkt n (mkOpts false 0 [0; 0; 0; 0] [0; 0; 0; 0] [0; 0; 0; 0])) as (o & -> & [Ht Hm Hr Hs]); [done..|split; cbn; [lia|apply (zeros_ok 4)..]|].
  rewrite bind_ret. case_match; [by exists s|]. case_match; [by exists s|]. destruct (rd_ok pkt 16 4) as (yi & -> & Hyi); [done|lia..|]. rewrite bind_ret. cbv zeta.
  pose proof (no_dhcp s Hok) as []. set (s1 := with_dhcp _ s). assert (Hok1 : net_ok s1) by (by apply with_dhcp_ok).
  unfold dhcp_send_request. edestruct (dhcp_send_ok DHCP_REQUEST_SENT) as (ret & s2 & E & Hok2 & _); [exact Hok1|..|setoid_rewrite E; rewrite bind_ret; by exists s2].
  - destruct (no_dhcp s1 Hok1) as [_ _ _ [H1 H1b] _ _ [H2 H2b]]. unfold bytes_ok. rewrite !Forall_app. split_and!; try done; repeat constructor; lia.
  - destruct (no_dhcp s1 Hok1) as [_ _ _ [H1 _] _ _ [H2 _]]. rewrite !length_app, H1, H2. cbn. lia.
Qed.

Lemma on_ack_ok pkt n s : net_ok s -> bytes_ok pkt -> 0 <= n -> 240 + n <= Z.of_nat (length pkt) -> exists s', dhcp_on_ack tx pkt n s = Some s' /\ net_ok s'.
Proof.
  intros Hok Hb Hn Hl. unfold dhcp_on_ack. destruct (parse_ok pkt n (mkOpts false 0 [255; 255; 255; 0] [0; 0; 0; 0] [0; 0; 0; 0])) as (o & -> & [Ht Hm Hr Hs]);
    [done..|split; cbn; [lia|split; [done|repeat constructor; lia]|apply (zeros_ok 4)..]|].
  rewrite bind_ret. case_match; [by exists s|]. case_match; [by exists s|]. destruct (rd_ok pkt 16 4) as (yi & -> & Hyi); [done|lia..|]. rewrite bind_ret. cbv zeta.
  pose proof (no_dhcp s Hok) as []. pose proof (no_dev s Hok) as []. set (s1 := with_dhcp _ _).
  assert (Hok1 : net_ok s1) by (apply with_dhcp_ok; [by apply with_dev_ok|done]).
  eexists. split; [reflexivity|]. case_match; [|done]. eapply sends_ok; [exact Hok1|]. by apply arp_request_sends.
Qed.

(** ** Receiving *)

(** The rest of a buffer. *)
Lemma bytes_drop_ok n buf : bytes_ok buf -> bytes_ok (drop n buf).
Proof. apply Forall_drop. Qed.

Lemma udp_input_ok saddr daddr payload n s : net_ok s -> addr_ok 4 saddr -> bytes_ok payload -> n <= Z.of_nat (length payload) -> 520 <= Z.of_nat (length payload) ->
  exists s', udp_input tx saddr daddr payload n s = Some s' /\ net_ok s'.
Proof.
  intros Hok Hsa Hb Hn Hroom. unfold udp_input. case_match; [by exists s|]. zbool.
  destruct (rd_int_ok payload 0 2) as (sp & -> & Hsp); [done|lia..|]. rewrite bind_ret. destruct (rd_int_ok payload 2 2) as (dp & -> & Hdp); [done|lia..|]. rewrite bind_ret.
  destruct (rd_int_ok payload 4 2) as (l & -> & Hl); [done|lia..|]. rewrite bind_ret. cbv zeta. pose proof (ntohs_range sp). pose proof (ntohs_range dp). pose proof (ntohs_range l).
  set (ulen := ntohs l) in *. destruct (_ && _ && _ && _ && _) eqn:E.
  - zbool. case_match; zbool; [by exists s|]. assert (Hpb := bytes_drop_ok 8 payload Hb). assert (Hpl : Z.of_nat (length (drop 8 payload)) = Z.of_nat (length payload) - 8) by (rewrite length_drop; lia).
    destruct (rd_int_ok (drop 8 payload) 0 1) as (op & -> & _); [done|lia..|]. rewrite bind_ret. destruct (rd_int_ok (drop 8 payload) 4 4) as (xid & -> & _); [done|lia..|]. rewrite bind_ret.
    destruct (rd_int_ok (drop 8 payload) 236 4) as (magic & -> & _); [done|lia..|]. rewrite bind_ret. case_match; [|by exists s].
    set (n' := if ulen - 8 - 240 >? 312 then 312 else ulen - 8 - 240). assert (Hn' : 0 <= n' <= ulen - 248) by (unfold n'; rewrite Z.gtb_ltb; destruct (Z.ltb_spec 312 (ulen - 8 - 240)); lia).
    destruct (on_offer_ok (drop 8 payload) n' s) as (s1 & -> & Hok1); [done|done|lia|lia|]. rewrite bind_ret. apply on_ack_ok; done || lia.
  - case_match; [|by exists s]. zbool. apply udp_push_ok; try done; [by apply bytes_drop_ok|lia|rewrite length_drop; lia].
Qed.

Lemma icmp_input_ok src saddr daddr payload n s : net_ok s -> addr_ok 6 src -> addr_ok 4 saddr -> bytes_ok payload -> n <= Z.of_nat (length payload) ->
  exists s', icmp_input tx src saddr daddr payload n s = Some s' /\ net_ok s'.
Proof.
  intros Hok Hsrc Hsa Hb Hn. unfold icmp_input. case_match; [by exists s|]. case_match; [by exists s|]. zbool.
  destruct (rd_int_ok payload 0 1) as (ty & -> & _); [done|lia..|]. rewrite bind_ret. case_match.
  - destruct (rd_ok payload 0 n) as (icmp & -> & _ & Hib); [done|lia..|]. rewrite bind_ret. destruct (echo_reply_sends tx src saddr icmp s) as (ret & s' & -> & Hs); [done|by apply no_dev|done|done|].
    rewrite bind_ret. exists s'. split; [done|]. by eapply sends_ok.
  - case_match; [|by exists s]. apply icmp_push_ok; done || lia.
Qed.

Lemma arp_input_ok buf len s : net_ok s -> bytes_ok buf -> len <= Z.of_nat (length buf) -> exists s', arp_input tx buf len s = Some s' /\ net_ok s'.
Proof.
  intros Hok Hb Hl. unfold arp_input. case_match; [by exists s|]. zbool.
  destruct (rd_int_ok buf 14 2) as (ht & -> & _); [done|lia..|]. rewrite bind_ret. destruct (rd_int_ok buf 16 2) as (pt & -> & _); [done|lia..|]. rewrite bind_ret.
  destruct (rd_int_ok buf 18 1) as (hl & -> & _); [done|lia..|]. rewrite bind_ret. destruct (rd_int_ok buf 19 1) as (pl & -> & _); [done|lia..|]. rewrite bind_ret.
  case_match; [by exists s|]. destruct (rd_int_ok buf 20 2) as (oper & -> & _); [done|lia..|]. rewrite bind_ret.
  destruct (rd_ok buf 22 6) as (sha & -> & Hsha); [done|lia..|]. rewrite bind_ret. destruct (rd_ok buf 28 4) as (spa & -> & Hspa); [done|lia..|]. rewrite bind_ret.
  destruct (rd_ok buf 38 4) as (tpa & -> & _); [done|lia..|]. rewrite bind_ret. destruct (rd_ok buf 6 6) as (src & -> & Hsrc); [done|lia..|]. rewrite bind_ret. cbv zeta.
  assert (Hok1 : net_ok (arp_cache_update spa sha s)) by (destruct Hok; by split). eexists. split; [reflexivity|]. case_match; [|done].
  eapply sends_ok; [exact Hok1|]. apply arp_reply_sends; try done. by apply no_dev.
Qed.

(** ** TCP segments *)

(** The bytes received and not yet taken by the process. *)
Definition content (c : tcp_conn) : list Z := take (Z.to_nat (rx_len c)) (rx_buf c).

(** How many bytes of a segment are taken: only the next ones expected, as far as
    there is room. *)
Definition accepted (seq len : Z) (c : tcp_conn) : Z := if seq =? rcv_nxt c then Z.min len (NET_TCP_RX_BUF - rx_len c) else 0.

(** The connection after [n] bytes of [data] were taken. *)
Record fed (n : Z) (data : list Z) (c c' : tcp_conn) : Prop := {
  fd_used : used c' = used c; fd_state : c_state c' = c_state c; fd_ip : remote_ip c' = remote_ip c; fd_local : local_port c' = local_port c; fd_remote : remote_port c' = remote_port c;
  fd_una : snd_una c' = snd_una c; fd_snd : snd_nxt c' = snd_nxt c; fd_closed : peer_closed c' = peer_closed c; fd_tx : c_tx c' = c_tx c; fd_retries : c_retries c' = c_retries c;
  fd_rcv : rcv_nxt c' = u32 (rcv_nxt c + n); fd_len : rx_len c' = rx_len c + n; fd_content : content c' = content c ++ take (Z.to_nat n) data }.

Lemma same_peer_content c c' : same_peer c c' -> content c' = content c.
Proof. intros []. unfold content. congruence. Qed.

Lemma send_ack_spec i c s : net_ok s -> g_tcp_conns s !! i = Some c ->
  exists s' c', tcp_send_ack tx i s = Some s' /\ net_ok s' /\ keeps s s' /\ g_tcp_conns s' = <[i := c']> (g_tcp_conns s) /\ same_peer c c' /\ c_tx c' = c_tx c /\ c_retries c' = c_retries c.
Proof.
  intros Hok Hi. destruct (conn_at s i c Hok Hi) as [Hc _]. unfold tcp_send_ack. rewrite Hi, bind_ret.
  destruct (tcp_send_spec i c (snd_nxt c) (rcv_nxt c) TCP_FLAG_ACK [] false s) as (ret & s' & c' & -> & Hok' & Hk & Et & Hp & Ht); [done|done|constructor|apply Hc|apply Hc|].
  rewrite bind_ret. exists s', c'. destruct (Ht eq_refl). by split_and!.
Qed.

(** Appending to the received bytes. *)
Lemma feed_ok c n data bytes : conn_ok c -> 0 < n <= NET_TCP_RX_BUF - rx_len c -> n <= Z.of_nat (length data) -> bytes_ok data -> bytes = take (Z.to_nat n) data ->
  let c' := set_rcv (u32 (rcv_nxt c + u32 n)) (take (Z.to_nat (rx_len c)) (rx_buf c) ++ bytes ++ drop (Z.to_nat (rx_len c + n)) (rx_buf c)) (rx_len c + n) c in
  conn_ok c' /\ fed n data c c'.
Proof.
  intros Hc Hn Hd Hb -> c'. pose proof Hc as []. destruct co_buf0 as [Hl Hbb]. pose proof (u32_ok (rcv_nxt c + u32 n)).
  assert (Hlen : length (take (Z.to_nat (rx_len c)) (rx_buf c) ++ take (Z.to_nat n) data) = Z.to_nat (rx_len c + n)) by (rewrite length_app, !length_take; lia).
  split; split; try done; cbn.
  - lia.
  - split; [rewrite app_assoc, length_app, Hlen, length_drop; lia|]. unfold bytes_ok. rewrite !Forall_app. split_and!; [by apply Forall_take|by apply Forall_take|by apply Forall_drop].
  - by rewrite (u32_small n) by lia.
  - unfold content. cbn. rewrite app_assoc. apply take_app_length'. by rewrite Hlen.
Qed.

Lemma fed_0 data c : conn_ok c -> fed 0 data c c.
Proof. intros []. split; try done; [rewrite Z.add_0_r; by rewrite u32_small|lia|cbn; by rewrite take_0, app_nil_r]. Qed.

Lemma fed_same n data c c1 c2 : fed n data c c1 -> same_peer c1 c2 -> c_tx c2 = c_tx c1 -> c_retries c2 = c_retries c1 -> fed n data c c2.
Proof. intros [] Hp Ht Hr. pose proof (same_peer_content _ _ Hp) as Hco. destruct Hp. split; congruence. Qed.

Lemma data_input_spec i c seq data len s : net_ok s -> g_tcp_conns s !! i = Some c -> bytes_ok data -> 0 <= len <= Z.of_nat (length data) ->
  exists s' c', tcp_data_input tx i seq data len s = Some s' /\ net_ok s' /\ keeps s s' /\ g_tcp_conns s' = <[i := c']> (g_tcp_conns s) /\ fed (accepted seq len c) data c c'.
Proof.
  intros Hok Hi Hb Hl. destruct (conn_at s i c Hok Hi) as [Hc Hi8]. pose proof Hc as []. destruct co_buf0 as [Hbl Hbb]. unfold tcp_data_input, accepted. rewrite Z.gtb_ltb. destruct (Z.ltb_spec 0 len) as [Hpos|Hz].
  2:{ exists s, c. split_and!; [done|done|reflexivity|by rewrite list_insert_id|]. replace (if seq =? rcv_nxt c then Z.min len (NET_TCP_RX_BUF - rx_len c) else 0) with 0 by (case_match; lia). by apply fed_0. }
  rewrite Hi, bind_ret. case_match; zbool.
  2:{ destruct (send_ack_spec i c s Hok Hi) as (s' & c' & -> & Hok' & Hk & Et & Hp & Ht & Hr). exists s', c'. split_and!; try done. eapply fed_same; [by apply fed_0|done..]. }
  cbv zeta. rewrite u64_small by lia. set (room := NET_TCP_RX_BUF - rx_len c). replace (if len <? room then len else room) with (Z.min len room) by (destruct (Z.ltb_spec len room); lia).
  rewrite Z.gtb_ltb. destruct (Z.ltb_spec 0 (Z.min len room)) as [Hn|Hn].
  - unfold rd. rewrite !(proj2 (Z.leb_le _ _)) by lia. cbn [andb]. change (Z.to_nat 0) with 0%nat. rewrite drop_0, bind_ret, Z.gtb_ltb, (proj2 (Z.ltb_ge _ _)) by lia. rewrite bind_ret.
    edestruct (feed_ok c (Z.min len room) data) as [Hc1 Hfed]; [done|lia|lia|done|reflexivity|]. cbv zeta in *.
    edestruct (send_ack_spec i) as (s' & c' & -> & Hok' & Hk & Et & Hp & Ht & Hr); [by apply set_conn_ok|unfold set_conn; cbn; apply list_lookup_insert_eq; rewrite no_count by done; done|].
    exists s', c'. split_and!; [done|done|etrans; [apply set_conn_keeps|exact Hk]|rewrite Et; unfold set_conn; cbn; by rewrite list_insert_insert_eq|]. by eapply fed_same.
  - rewrite bind_ret. destruct (send_ack_spec i c s Hok Hi) as (s' & c' & -> & Hok' & Hk & Et & Hp & Ht & Hr). exists s', c'. split_and!; try done.
    replace (Z.min len room) with 0 by lia. eapply fed_same; [by apply fed_0|done..].
Qed.

(** What a segment for an established connection does, unless it resets it. *)
Record received (flags seq ack : Z) (data : list Z) (len : Z) (c c' : tcp_conn) : Prop := {
  rc_used : used c' = used c; rc_state : c_state c' = c_state c; rc_ip : remote_ip c' = remote_ip c; rc_local : local_port c' = local_port c; rc_remote : remote_port c' = remote_port c;
  rc_snd : snd_nxt c' = snd_nxt c; rc_retries : c_retries c' = c_retries c; rc_una : snd_una c' = snd_una (tcp_ack_input flags ack c); rc_tx : c_tx c' = c_tx (tcp_ack_input flags ack c);
  rc_closed : peer_closed c' = peer_closed c || flagb flags TCP_FLAG_FIN;
  rc_rcv : let r := u32 (rcv_nxt c + accepted seq len c) in rcv_nxt c' = if flagb flags TCP_FLAG_FIN && (u32 (seq + u32 len) =? r) then u32 (r + 1) else r;
  rc_len : rx_len c' = rx_len c + accepted seq len c; rc_content : content c' = content c ++ take (Z.to_nat (accepted seq len c)) data }.

Lemma ack_input_ok flags ack c : conn_ok c -> 0 <= ack < 2 ^ 32 -> let c' := tcp_ack_input flags ack c in
  conn_ok c' /\ used c' = used c /\ c_state c' = c_state c /\ remote_ip c' = remote_ip c /\ local_port c' = local_port c /\ remote_port c' = remote_port c /\ snd_nxt c' = snd_nxt c /\
  c_retries c' = c_retries c /\ peer_closed c' = peer_closed c /\ rcv_nxt c' = rcv_nxt c /\ rx_len c' = rx_len c /\ rx_buf c' = rx_buf c.
Proof.
  intros Hc Ha. cbv zeta. unfold tcp_ack_input. cbv zeta. pose proof Hc as []. destruct co_tx0. case_match; [|done]. case_match; (split; [|done]); by split.
Qed.

Lemma fin_input_spec i c flags seq len s : net_ok s -> g_tcp_conns s !! i = Some c ->
  exists s' c', tcp_fin_input tx i flags seq len s = Some s' /\ net_ok s' /\ keeps s s' /\ g_tcp_conns s' = <[i := c']> (g_tcp_conns s) /\
    same_peer (let c := if flagb flags TCP_FLAG_FIN && (u32 (seq + u32 len) =? rcv_nxt c) then set_rcv (u32 (rcv_nxt c + 1)) (rx_buf c) (rx_len c) c else c in
               set_state (used c) (c_state c) (peer_closed c || flagb flags TCP_FLAG_FIN) c) c' /\ c_tx c' = c_tx c /\ c_retries c' = c_retries c.
Proof.
  intros Hok Hi. destruct (conn_at s i c Hok Hi) as [Hc Hi8]. unfold tcp_fin_input. destruct (flagb flags TCP_FLAG_FIN); cbn [andb].
  2:{ exists s, c. split_and!; try done; [by rewrite list_insert_id|]. cbv zeta. rewrite orb_false_r. by split. }
  rewrite Hi, bind_ret. cbv zeta. rewrite orb_true_r. set (c1 := if u32 (seq + u32 len) =? rcv_nxt c then _ else c).
  assert (Hc1 : conn_ok (set_state (used c1) (c_state c1) true c1)) by (pose proof Hc as []; pose proof (u32_ok (rcv_nxt c + 1)); unfold c1; case_match; by split).
  edestruct (send_ack_spec i) as (s' & c' & -> & Hok' & Hk & Et & Hp & Ht & Hr); [apply set_conn_ok; [done|exact Hc1]|unfold set_conn; cbn; apply list_lookup_insert_eq; rewrite no_count by done; done|].
  exists s', c'. split_and!; [done|done|etrans; [apply set_conn_keeps|exact Hk]|rewrite Et; unfold set_conn; cbn; by rewrite list_insert_insert_eq|done| |]; [rewrite Ht|rewrite Hr]; unfold c1; by case_match.
Qed.

Lemma segment_established i c flags seq ack data len s : net_ok s -> g_tcp_conns s !! i = Some c -> bytes_ok data -> 0 <= len <= Z.of_nat (length data) -> 0 <= ack < 2 ^ 32 ->
  flagb flags TCP_FLAG_RST = false -> c_state c = TCP_CONN_ESTABLISHED ->
  exists s' c', tcp_segment tx i flags seq ack data len s = Some s' /\ net_ok s' /\ keeps s s' /\ g_tcp_conns s' = <[i := c']> (g_tcp_conns s) /\ received flags seq ack data len c c'.
Proof.
  intros Hok Hi Hb Hl Ha Hr Hst. destruct (conn_at s i c Hok Hi) as [Hc Hi8]. unfold tcp_segment. rewrite Hi, bind_ret, Hr, Hst.
  destruct (ack_input_ok flags ack c Hc Ha) as (Hc1 & A1 & A2 & A3 & A4 & A5 & A6 & A7 & A8 & A9 & A10 & A11). cbv zeta in *. set (c1 := tcp_ack_input flags ack c) in *.
  edestruct (data_input_spec i c1 seq data len) as (s2 & c2 & -> & Hok2 & Hk2 & Et2 & Hfed); [apply set_conn_ok; [exact Hok|exact Hc1]|unfold set_conn; cbn; apply list_lookup_insert_eq; rewrite no_count by done; done|done|done|].
  rewrite bind_ret. assert (Et : g_tcp_conns s2 = <[i := c2]> (g_tcp_conns s)) by (rewrite Et2; unfold set_conn; cbn; by rewrite list_insert_insert_eq).
  destruct (fin_input_spec i c2 flags seq len s2) as (s3 & c3 & -> & Hok3 & Hk3 & Et3 & Hp & Ht3 & Hr3); [done|rewrite Et; apply list_lookup_insert_eq; rewrite no_count by done; done|].
  exists s3, c3. split_and!; [done|done|etrans; [apply set_conn_keeps|]; by etrans|by rewrite Et3, Et, list_insert_insert_eq|].
  assert (Ea : accepted seq len c1 = accepted seq len c) by (unfold accepted; by rewrite A9, A10). rewrite Ea in Hfed. destruct Hfed as [].
  cbv zeta in Hp. set (b := flagb flags TCP_FLAG_FIN && (u32 (seq + u32 len) =? rcv_nxt c2)) in Hp.
  assert (Hb' : rcv_nxt c3 = if b then u32 (rcv_nxt c2 + 1) else rcv_nxt c2) by (destruct Hp as [_ _ _ _ _ _ _ E _ _ _]; rewrite E; by destruct b).
  assert (Eco : content c2 = content c ++ take (Z.to_nat (accepted seq len c)) data) by (rewrite fd_content0; unfold content; by rewrite A10, A11).
  assert (Hco : content c3 = content c2) by (rewrite (same_peer_content _ _ Hp); by destruct b).
  destruct Hp as [P1 P2 P3 P4 P5 P6 P7 P8 P9 P10 P11]. split; fold c1; try congruence; try (destruct b; cbn in *; congruence).
  - cbv zeta. rewrite <- A9, <- fd_rcv0. exact Hb'.
Qed.

Lemma closed_ok c : conn_ok c -> conn_ok (set_state false TCP_CONN_CLOSED (peer_closed c) c).
Proof. intros []. by split. Qed.

Lemma segment_ok i flags seq ack data len s : net_ok s -> (i < 8)%nat -> bytes_ok data -> 0 <= len <= Z.of_nat (length data) -> 0 <= seq < 2 ^ 32 -> 0 <= ack < 2 ^ 32 ->
  exists s', tcp_segment tx i flags seq ack data len s = Some s' /\ net_ok s'.
Proof.
  intros Hok Hi8 Hb Hl Hs Ha. destruct (lookup_lt_is_Some_2 (g_tcp_conns s) i) as [c Hi]; [by rewrite no_count|]. destruct (conn_at s i c Hok Hi) as [Hc _].
  destruct (flagb flags TCP_FLAG_RST) eqn:Hr; [|destruct (c_state c) eqn:Hst].
  - unfold tcp_segment. rewrite Hi, bind_ret, Hr. eexists. split; [done|]. apply set_conn_ok; [done|]. by apply closed_ok.
  - unfold tcp_segment. rewrite Hi, bind_ret, Hr, Hst. by exists s.
  - unfold tcp_segment. rewrite Hi, bind_ret, Hr, Hst. case_match; [|by exists s]. cbv zeta.
    edestruct (send_ack_spec i) as (s' & c' & -> & Hok' & _); [apply set_conn_ok; [exact Hok|]|unfold set_conn; cbn; apply list_lookup_insert_eq; rewrite no_count by done; done|by exists s'].
    pose proof Hc as []. pose proof (u32_ok (seq + 1)). destruct co_tx0. split; try done. by right.
  - destruct (segment_established i c flags seq ack data len s) as (s' & c' & -> & Hok' & _); [done..|by exists s'].
  - unfold tcp_segment. rewrite Hi, bind_ret, Hr, Hst. by exists s.
Qed.

Lemma find_conn_lt rip rp lp s i : net_ok s -> tcp_find_conn rip rp lp s = Some i -> (i < 8)%nat.
Proof.
  intros Hok E. unfold tcp_find_conn in E. apply bind_Some in E as ([j c] & E & [= <-]). apply list_find_Some in E as (Hj & _). by apply (conn_at s) in Hj as [_ ?].
Qed.

Lemma tcp_input_ok saddr daddr payload n s : net_ok s -> bytes_ok payload -> n <= Z.of_nat (length payload) -> exists s', tcp_input tx saddr daddr payload n s = Some s' /\ net_ok s'.
Proof.
  intros Hok Hb Hn. unfold tcp_input. case_match; [by exists s|]. zbool. destruct (rd_int_ok payload 12 2) as (df & -> & _); [done|lia..|]. rewrite bind_ret. cbv zeta.
  set (thl := Z.land (Z.shiftr (ntohs df) 12) 15 * 4). case_match; [by exists s|]. zbool.
  destruct (rd_int_ok payload 0 2) as (sp & -> & _); [done|lia..|]. rewrite bind_ret. destruct (rd_int_ok payload 2 2) as (dp & -> & _); [done|lia..|]. rewrite bind_ret.
  destruct (rd_int_ok payload 4 4) as (sq & -> & _); [done|lia..|]. rewrite bind_ret. destruct (rd_int_ok payload 8 4) as (ak & -> & _); [done|lia..|]. rewrite bind_ret.
  case_match; [|by exists s]. apply segment_ok; [done|by eapply find_conn_lt|by apply bytes_drop_ok|rewrite length_drop; lia|apply ntohl_range|apply ntohl_range].
Qed.

Lemma ipv4_input_ok buf len s : net_ok s -> bytes_ok buf -> len <= Z.of_nat (length buf) -> 594 <= Z.of_nat (length buf) -> exists s', ipv4_input tx buf len s = Some s' /\ net_ok s'.
Proof.
  intros Hok Hb Hl Hroom. unfold ipv4_input. case_match; [by exists s|]. zbool. destruct (rd_int_ok buf 14 1) as (vi & -> & _); [done|lia..|]. rewrite bind_ret. case_match; [by exists s|]. cbv zeta.
  assert (Hihl : 0 <= Z.land vi 15 * 4 <= 60) by (change 15 with (Z.ones 4); rewrite Z.land_ones by lia; change (2 ^ 4) with 16; pose proof (Z.mod_pos_bound vi 16); lia).
  set (ihl := Z.land vi 15 * 4) in *. case_match; [by exists s|]. zbool. destruct (rd_int_ok buf 16 2) as (tl & -> & _); [done|lia..|]. rewrite bind_ret. case_match; [by exists s|]. zbool.
  destruct (rd_int_ok buf 23 1) as (pr & -> & _); [done|lia..|]. rewrite bind_ret. destruct (rd_ok buf 26 4) as (sa & -> & Hsa); [done|lia..|]. rewrite bind_ret.
  destruct (rd_ok buf 30 4) as (da & -> & _); [done|lia..|]. rewrite bind_ret. destruct (rd_ok buf 6 6) as (src & -> & Hsrc); [done|lia..|]. rewrite bind_ret.
  assert (Hpl : Z.of_nat (length (drop (Z.to_nat (14 + ihl)) buf)) = Z.of_nat (length buf) - 14 - ihl) by (rewrite length_drop; lia). pose proof (bytes_drop_ok (Z.to_nat (14 + ihl)) buf Hb).
  case_match; [apply udp_input_ok; try done; lia|]. case_match; [apply tcp_input_ok; try done; lia|]. case_match; [apply icmp_input_ok; try done; lia|]. by exists s.
Qed.

Lemma rx_frame_ok buf len s : net_ok s -> bytes_ok buf -> len <= Z.of_nat (length buf) -> 594 <= Z.of_nat (length buf) -> exists s', net_rx_frame tx buf len s = Some s' /\ net_ok s'.
Proof.
  intros Hok Hb Hl Hroom. unfold net_rx_frame. case_match; [by exists s|]. zbool. destruct (rd_int_ok buf 12 2) as (et & -> & _); [done|lia..|]. rewrite bind_ret.
  case_match; [by apply arp_input_ok|]. case_match; [by apply ipv4_input_ok|]. by exists s.
Qed.

(** ** The timer *)

Lemma fallback_ok s : net_ok s -> net_ok (dhcp_apply_fallback_static tx s).
Proof.
  intros Hok. unfold dhcp_apply_fallback_static. cbv zeta. set (d := set_addresses _ _ _ (g_dev s)).
  assert (Hd : dev_ok d) by (pose proof (no_dev s Hok) as []; split; cbn; [done|..]; (split; [done|repeat constructor; lia])).
  apply (sends_ok (with_dev d s)); [by apply with_dev_ok|]. apply arp_request_sends; [done|]. apply Hd.
Qed.

Lemma dhcp_tick_ok s : net_ok s -> exists s', dhcp_tick tx s = Some s' /\ net_ok s'.
Proof.
  intros Hok. pose proof (no_dhcp s Hok) as []. pose proof (no_dev s Hok) as []. destruct do_ip0 as [H1 H1b], do_server0 as [H2 H2b].
  assert (Hd : exists s', ('(_, s) ← dhcp_send_discover tx s; Some s) = Some s' /\ net_ok s').
  { unfold dhcp_send_discover. edestruct (dhcp_send_ok DHCP_DISCOVER_SENT) as (r & s' & E & Hok' & _); [exact Hok|..|setoid_rewrite E; rewrite bind_ret; by exists s']; [repeat constructor; lia|cbn; lia]. }
  assert (Hq : exists s', ('(_, s) ← dhcp_send_request tx s; Some s) = Some s' /\ net_ok s').
  { unfold dhcp_send_request. edestruct (dhcp_send_ok DHCP_REQUEST_SENT) as (r & s' & E & Hok' & _); [exact Hok|..|setoid_rewrite E; rewrite bind_ret; by exists s'].
    - unfold bytes_ok. rewrite !Forall_app. split_and!; try done; repeat constructor; lia.
    - rewrite !length_app, H1, H2. cbn. lia. }
  unfold dhcp_tick. cbv zeta. destruct (dh_state (g_dhcp s)); try (by exists s); (case_match; [by exists s|]); try exact Hd; (case_match; [by exists s|]);
    (case_match; [|exact Hd || exact Hq]); (eexists; split; [reflexivity|]); by apply fallback_ok, with_dhcp_ok.
Qed.

Lemma tcp_tick_ok i s : net_ok s -> (i < 8)%nat -> exists s', tcp_tick tx i s = Some s' /\ net_ok s' /\ keeps s s'.
Proof.
  intros Hok Hi8. destruct (lookup_lt_is_Some_2 (g_tcp_conns s) i) as [c Hi]; [by rewrite no_count|]. destruct (conn_at s i c Hok Hi) as [Hc _].
  unfold tcp_tick. rewrite Hi, bind_ret. case_match; [by exists s|]. case_match; [by exists s|]. case_match; [eexists; split; [done|]; split; [apply set_conn_ok; [done|by apply closed_ok]|apply set_conn_keeps]|].
  zbool. cbv zeta. set (c1 := set_sent_at (last_tx_tick c) (u8 (c_retries c + 1)) c). pose proof Hc as [].
  assert (Hc1 : conn_ok c1) by (split; try done; cbn; unfold u8; rewrite Z.mod_small; lia). assert (Hok1 := set_conn_ok i c1 s Hok Hc1). assert (Hk1 := set_conn_keeps i c1 s).
  assert (Hi1 : g_tcp_conns (set_conn i c1 s) !! i = Some c1) by (unfold set_conn; cbn; apply list_lookup_insert_eq; rewrite no_count by done; done).
  destruct (c_state c1); try (eexists; split; [done|done]).
  - destruct (tcp_send_spec i c1 (snd_una c1) 0 TCP_FLAG_SYN [] false (set_conn i c1 s)) as (ret & s' & c' & -> & Hok' & Hk & _); [done|done|constructor|done|lia|]. rewrite bind_ret. exists s'. split_and!; [done|done|by etrans].
  - case_match; [|eexists; split; [done|done]]. pose proof (co_tx c1 Hc1) as [Hq Hk Hln [Hbl Hbb]].
    destruct (rd_ok (tx_buf (c_tx c1)) 0 (tx_len (c_tx c1))) as (data & -> & _ & Hdb); [done|lia..|]. rewrite bind_ret.
    destruct (tcp_send_spec i c1 (tx_seq (c_tx c1)) (tx_ack (c_tx c1)) (tx_flags (c_tx c1)) data false (set_conn i c1 s)) as (ret & s' & c' & -> & Hok' & Hk' & _); [done..|]. rewrite bind_ret. exists s'. split_and!; [done|done|by etrans].
Qed.

Lemma tcp_ticks_ok n : forall i s, net_ok s -> (i + n <= 8)%nat -> exists s', tcp_ticks tx n i s = Some s' /\ net_ok s' /\ keeps s s'.
Proof.
  induction n as [|n IH]; intros i s Hok Hi; cbn [tcp_ticks]; [by exists s|]. destruct (tcp_tick_ok i s Hok) as (s1 & -> & Hok1 & Hk1); [lia|]. rewrite bind_ret.
  destruct (IH (S i) s1 Hok1) as (s' & -> & Hok' & Hk'); [lia|]. exists s'. split_and!; [done|done|by etrans].
Qed.

(** A frame in a receive buffer. *)
Definition frame_fits (f : list Z * Z) : Prop := bytes_ok f.1 /\ f.2 <= Z.of_nat (length f.1) /\ 594 <= Z.of_nat (length f.1).

Lemma rx_frames_ok l : forall s, net_ok s -> Forall frame_fits l -> exists s', rx_frames tx l s = Some s' /\ net_ok s'.
Proof.
  induction l as [|[buf len] l IH]; intros s Hok Hl; cbn [rx_frames]; [by exists s|]. apply Forall_cons in Hl as [(Hb & Hf & Hr) Hl].
  destruct (rx_frame_ok buf len s) as (s1 & -> & Hok1); [done..|]. rewrite bind_ret. by apply IH.
Qed.

Lemma net_tick_ok polled s : net_ok s -> Forall frame_fits polled -> exists s', net_tick tx polled s = Some s' /\ net_ok s'.
Proof.
  intros Hok Hl. unfold net_tick. destruct (dhcp_tick_ok (with_ticks (u64 (g_tick_count s + 1)) s)) as (s1 & -> & Hok1); [destruct Hok; split; try done; apply u64_range|].
  rewrite bind_ret. destruct (tcp_ticks_ok (Z.to_nat NET_TCP_CONN_MAX) 0 s1 Hok1) as (s2 & -> & Hok2 & _); [done|]. rewrite bind_ret. case_match; [by exists s2|]. by apply rx_frames_ok.
Qed.

(** ** The calls of the processes *)

Lemma take_first_Forall {A} (P : A -> Prop) p l e l' : Forall P l -> take_first p l = Some (e, l') -> Forall P l'.
Proof.
  intros H. revert e l'. induction H as [|x l Hx Hl IH]; intros e l' E; cbn in E; [done|]. destruct (p x); [by injection E as <- <-|].
  apply bind_Some in E as ([e' l1] & E & [= <- <-]). constructor; [done|by eapply IH].
Qed.

Lemma recv_udp_ok port s : net_ok s -> exists e s', net_recv_udp_event port s = Some (e, s') /\ net_ok s'.
Proof.
  intros Hok. destruct (no_udp s Hok) as (l & Hr & Hl). destruct (recv_udp_spec port s l Hr) as (r & -> & Hr'). eexists _, _. split; [done|]. destruct Hok. split; try done. eexists. split; [exact Hr'|].
  destruct (take_first (for_port port) l) as [[e l']|] eqn:E; [|done]. by eapply take_first_Forall.
Qed.

Lemma recv_icmp_ok s : net_ok s -> exists e s', net_recv_icmp_echo_event s = Some (e, s') /\ net_ok s'.
Proof.
  intros Hok. destruct (no_icmp s Hok) as (l & Hr & Hl). destruct (recv_icmp_spec s l Hr) as (r & -> & Hr'). eexists _, _. split; [done|]. destruct Hok. split; try done. eexists. split; [exact Hr'|]. by apply Forall_tail.
Qed.

Lemma send_icmp_echo_ok dst icmp s : net_ok s -> addr_ok 4 dst -> bytes_ok icmp -> exists ret s', net_send_icmp_echo tx dst icmp s = Some (ret, s') /\ net_ok s'.
Proof.
  intros Hok Hd Hi. unfold net_send_icmp_echo. case_match; [by eexists _, _|]. case_match; [by eexists _, _|].
  destruct (resolve_sends tx dst s) as [Hsend Hr]; [by apply no_dev|by apply no_arp|done|]. destruct (resolve_l2_next_hop tx dst s) as [[ret|m] s1]; cbn [fst snd] in *; [eexists _, _; split; [done|]; by eapply sends_ok|].
  destruct Hr as [Hm ->]. destruct (send_icmp_sends tx m (ip (g_dev s)) dst icmp s) as (ret & s' & -> & Hs); [done|by apply no_dev|apply Hok|done|done|]. eexists _, _. split; [done|]. by eapply sends_ok.
Qed.

Lemma send_udp_ok dst sp dp payload s : net_ok s -> addr_ok 4 dst -> bytes_ok payload -> exists ret s', net_send_udp tx dst sp dp payload s = Some (ret, s') /\ net_ok s'.
Proof.
  intros Hok Hd Hi. unfold net_send_udp. case_match; [by eexists _, _|]. case_match; [by eexists _, _|]. case_match; [by eexists _, _|].
  destruct (resolve_sends tx dst s) as [Hsend Hr]; [by apply no_dev|by apply no_arp|done|]. destruct (resolve_l2_next_hop tx dst s) as [[ret|m] s1]; cbn [fst snd] in *; [eexists _, _; split; [done|]; by eapply sends_ok|].
  destruct Hr as [Hm ->]. destruct (send_udp_sends tx m (ip (g_dev s)) dst sp dp payload s) as (ret & s' & -> & Hs); [done|by apply no_dev|apply Hok|done|done|]. eexists _, _. split; [done|]. by eapply sends_ok.
Qed.

Lemma zero_tx_ok : tx_ok zero_tx.
Proof. split; cbn; try lia. apply (zeros_ok 1200). Qed.

Lemma zero_conn_ok : conn_ok zero_conn.
Proof. split; try (cbn; lia); [apply (zeros_ok 4)|apply (zeros_ok 4096)|apply zero_tx_ok]. Qed.

Lemma xor_word w a b : 0 <= w -> 0 <= a < 2 ^ w -> 0 <= b < 2 ^ w -> 0 <= Z.lxor a b < 2 ^ w.
Proof.
  intros Hw Ha Hb. split; [apply Z.lxor_nonneg; lia|]. apply word_bounds_of_bits; [done|apply Z.lxor_nonneg; lia|]. intros i Hi. rewrite Z.lxor_spec. by rewrite !(testbit_ge _ w) by (done || lia).
Qed.

Lemma syn_conn_ok dst lp dp tick : addr_ok 4 dst -> 0 <= lp < 65536 -> 0 <= dp < 65536 -> conn_ok (syn_conn dst lp dp tick).
Proof.
  intros Hd Hl Hp. pose proof (u32_ok tick). pose proof (u32_ok (Z.shiftl lp 8)).
  assert (Hu : 0 <= snd_una (syn_conn dst lp dp tick) < 2 ^ 32) by (cbn; repeat apply xor_word; lia).
  split; try done; try (cbn; lia); [by left|apply u32_ok|apply (zeros_ok 4096)|apply zero_tx_ok].
Qed.

Lemma by_id_conn id s c : net_ok s -> tcp_conn_by_id id s = Some c -> g_tcp_conns s !! Z.to_nat id = Some c /\ used c = true.
Proof.
  intros Hok E. unfold tcp_conn_by_id in E. case_match; [done|]. apply bind_Some in E as (c' & Hc & E). destruct (used c') eqn:Hu; [|done]. injection E as <-. done.
Qed.

Lemma connect_ok dst dp lp s : net_ok s -> addr_ok 4 dst -> 0 <= dp < 65536 -> 0 <= lp < 65536 -> exists ret id s', net_tcp_connect tx dst dp lp s = Some (ret, id, s') /\ net_ok s'.
Proof.
  intros Hok Hd Hdp Hlp. unfold net_tcp_connect. case_match; [by eexists _, _, _|]. case_match; [by eexists _, _, _|]. case_match eqn:Hf; [|by eexists _, _, _].
  apply find_range_Some in Hf as (Hi & _). assert (Hc := syn_conn_ok dst lp dp (g_tick_count s) Hd Hlp Hdp). cbv zeta. set (c := syn_conn dst lp dp (g_tick_count s)) in *.
  edestruct (tcp_send_spec (Z.to_nat z) c (snd_una c) 0 TCP_FLAG_SYN [] true) as (ret & s' & c' & -> & Hok' & _);
    [by apply (set_conn_ok (Z.to_nat z) c s)|unfold set_conn; cbn; apply list_lookup_insert_eq; rewrite no_count by done; lia|constructor|apply Hc|lia|].
  rewrite bind_ret. eexists _, _, _. by split.
Qed.

Lemma tcp_send_ok id data s : net_ok s -> bytes_ok data -> exists ret s', net_tcp_send tx id data s = Some (ret, s') /\ net_ok s'.
Proof.
  intros Hok Hb. unfold net_tcp_send. cbv zeta. case_match eqn:Ec; [|by eexists _, _]. apply by_id_conn in Ec as [Hi _]; [|done]. destruct (conn_at s _ _ Hok Hi) as [Hc _].
  case_match; [by eexists _, _|]. case_match; [by eexists _, _|]. case_match; [by eexists _, _|]. case_match; [by eexists _, _|].
  edestruct (tcp_send_spec (Z.to_nat id) t (snd_nxt t) (rcv_nxt t)) as (ret & s' & c' & E & Hok' & _ & Et & _); [done|done|exact Hb|apply Hc|apply Hc|]. rewrite E, bind_ret. clear E.
  case_match; [by eexists _, _|]. assert (Hi' : g_tcp_conns s' !! Z.to_nat id = Some c') by (rewrite Et; apply list_lookup_insert_eq; by eapply lookup_lt_Some). rewrite Hi', bind_ret.
  eexists _, _. split; [done|]. apply set_conn_ok; [done|]. destruct (conn_at s' _ _ Hok' Hi') as [[] _]. pose proof (u32_ok (snd_nxt c' + u32 (Z.of_nat (length data)))). by split.
Qed.

Lemma tcp_close_ok id s : net_ok s -> exists ret s', net_tcp_close tx id s = Some (ret, s') /\ net_ok s'.
Proof.
  intros Hok. unfold net_tcp_close. case_match eqn:Ec; [|by eexists _, _]. apply by_id_conn in Ec as [Hi _]; [|done]. destruct (conn_at s _ _ Hok Hi) as [Hc _]. pose proof zero_conn_ok. case_match.
  - edestruct (tcp_send_spec (Z.to_nat id) t (snd_nxt t) (rcv_nxt t)) as (ret & s' & c' & E & Hok' & _); [done|done|constructor|apply Hc|apply Hc|]. rewrite E, !bind_ret. eexists _, _. split; [done|]. by apply set_conn_ok.
  - rewrite bind_ret. eexists _, _. split; [done|]. by apply set_conn_ok.
Qed.

(** Moving the rest of the received bytes to the front. *)
Lemma shift_bytes n len buf : 0 <= n <= len -> len <= Z.of_nat (length buf) -> bytes_ok buf ->
  let b := for_range n len (fun i buf => aset buf (i - n) (aget buf i)) buf in
  addr_ok (length buf) b /\ take (Z.to_nat (len - n)) b = drop (Z.to_nat n) (take (Z.to_nat len) buf).
Proof.
  intros Hn Hl Hb b.
  assert (H : length b = length buf /\ words 8 b /\ (forall k, 0 <= k < len - n -> aget b k = aget buf (k + n)) /\ (forall k, len - n <= k -> aget b k = aget buf k)).
  { apply (for_range_inv (fun i b => length b = length buf /\ words 8 b /\ (forall k, 0 <= k < i - n -> aget b k = aget buf (k + n)) /\ (forall k, i - n <= k -> aget b k = aget buf k))).
    - lia.
    - split_and!; [done|done|intros; lia|done].
    - intros i x Hi (Hx & Hw & H1 & H2). split_and!; [by rewrite length_aset|apply aset_words; [done|by apply aget_words]|..]; intros k Hk.
      + destruct (decide (k = i - n)) as [->|Hne]; [rewrite aget_aset_eq, H2 by lia; f_equal; lia|]. rewrite aget_aset_ne by lia. apply H1. lia.
      + rewrite aget_aset_ne by lia. apply H2. lia. }
  destruct H as (H1 & H2 & H3 & _). split; [by split|]. apply (nth_ext _ _ 0 0); [rewrite length_drop, !length_take; lia|]. intros k Hk. rewrite length_take in Hk.
  specialize (H3 (Z.of_nat k) ltac:(lia)). unfold aget in H3. rewrite !nth_lookup. rewrite lookup_take, lookup_drop, lookup_take. rewrite !decide_True by lia.
  rewrite Nat2Z.id in H3. replace (Z.to_nat (Z.of_nat k + n)) with (Z.to_nat n + k)%nat in H3 by lia. exact H3.
Qed.

(** Receiving takes bytes off the front of what was received. *)
Lemma tcp_recv_spec id len c s : net_ok s -> tcp_conn_by_id id s = Some c -> 0 < len -> 0 < rx_len c ->
  exists c', net_tcp_recv id len s = Some (Z.min len (rx_len c), take (Z.to_nat len) (content c), peer_closed c, set_conn (Z.to_nat id) c' s) /\ conn_ok c' /\
    content c' = drop (Z.to_nat len) (content c) /\ rx_len c' = rx_len c - Z.min len (rx_len c) /\ used c' = used c /\ c_state c' = c_state c /\ remote_ip c' = remote_ip c /\
    local_port c' = local_port c /\ remote_port c' = remote_port c /\ rcv_nxt c' = rcv_nxt c /\ snd_nxt c' = snd_nxt c /\ snd_una c' = snd_una c.
Proof.
  intros Hok Ec Hl Hrx. pose proof (by_id_conn id s c Hok Ec) as [Hi _]. destruct (conn_at s _ c Hok Hi) as [Hc _]. pose proof Hc as []. destruct co_buf0 as [Hbl Hbb].
  unfold net_tcp_recv. rewrite Ec, !(proj2 (Z.eqb_neq _ 0)) by lia. cbv zeta. replace (if len <? rx_len c then len else rx_len c) with (Z.min len (rx_len c)) by (destruct (Z.ltb_spec len (rx_len c)); lia).
  set (n := Z.min len (rx_len c)). unfold rd. rewrite !(proj2 (Z.leb_le _ _)) by lia. cbn [andb]. change (Z.to_nat 0) with 0%nat. rewrite drop_0, bind_ret.
  destruct (shift_bytes n (rx_len c) (rx_buf c)) as [[Hb1 Hb2] Ht]; [lia|lia|done|]. cbv zeta in *. set (b := for_range n (rx_len c) _ (rx_buf c)) in *.
  assert (Hcl : length (content c) = Z.to_nat (rx_len c)) by (unfold content; rewrite length_take; lia).
  assert (E1 : take (Z.to_nat len) (content c) = take (Z.to_nat n) (rx_buf c)) by (unfold content; rewrite take_take; f_equal; lia).
  assert (E2 : drop (Z.to_nat len) (content c) = take (Z.to_nat (rx_len c - n)) b).
  { rewrite Ht. fold (content c). destruct (Z.le_gt_cases len (rx_len c)); [f_equal; lia|]. rewrite !drop_ge by lia. done. }
  eexists. rewrite E1. split; [reflexivity|]. split_and!; try done; [split; try done; cbn; [lia|by rewrite <- Hbl]].
Qed.

Lemma tcp_recv_ok id len s : net_ok s -> 0 <= len -> exists ret out closed s', net_tcp_recv id len s = Some (ret, out, closed, s') /\ net_ok s'.
Proof.
  intros Hok Hl. destruct (tcp_conn_by_id id s) as [c|] eqn:Ec.
  - destruct (by_id_conn id s c Hok Ec) as [Hi _]. destruct (conn_at s _ c Hok Hi) as [Hc _]. destruct (decide (len = 0 \/ rx_len c = 0)) as [H0|H0].
    + unfold net_tcp_recv. rewrite Ec. case_match; [by eexists _, _, _, _|]. destruct H0 as [-> | ->]; [done|]. by eexists _, _, _, _.
    + pose proof (co_rx c Hc). destruct (tcp_recv_spec id len c s Hok Ec) as (c' & -> & Hc' & _); [lia|lia|]. eexists _, _, _, _. split; [done|]. by apply set_conn_ok.
  - unfold net_tcp_recv. rewrite Ec. by eexists _, _, _, _.
Qed.

Lemma register_ok m poll s : net_ok s -> addr_ok 6 m -> net_ok (net_register_device tx m poll s).2.
Proof.
  intros Hok Hm. unfold net_register_device. case_match; [done|]. cbv zeta. cbn [snd]. pose proof (no_dhcp s Hok) as [].
  set (d := mkDev true m _ _ _ poll). assert (Hd : dev_ok d) by (split; cbn; [done|..]; (split; [done|repeat constructor; lia])).
  eapply sends_ok; [|apply arp_request_sends; [exact Hd|apply Hd]]. apply with_dhcp_ok; [by apply with_dev_ok|]. split; try done; cbn; [|lia..].
  destruct Hm as [Hl Hb]. assert (Hg : forall i, 0 <= aget m i < 2 ^ 8) by (intros i; by apply aget_words).
  pose proof (Hg 2). pose proof (Hg 5). repeat apply xor_word; rewrite ?Z.shiftl_mul_pow2; lia.
Qed.

Lemma init_ok s : Forall frame_ok (sent s) -> net_ok (net_init s).
Proof.
  intros Hs. split; try done; cbn -[replicate].
  - split; apply (zeros_ok 4) || apply (zeros_ok 6).
  - split; apply (zeros_ok 4) || apply (zeros_ok 6).
  - exists []. split; [|constructor]. split; cbn; done || lia.
  - exists []. split; [|constructor]. split; cbn; done || lia.
  - apply Forall_replicate, zero_conn_ok.
  - split; cbn -[replicate]; try lia; apply (zeros_ok 4).
Qed.
End Ops.

(** ** Sequences of operations *)

Inductive net_op : Type :=
| Register (m : list Z) (poll : bool)
| Frame (buf : list Z) (len : Z)
| Tick (polled : list (list Z * Z))
| SendIcmp (dst icmp : list Z)
| SendUdp (dst : list Z) (sport dport : Z) (payload : list Z)
| RecvIcmp
| RecvUdp (port : Z)
| Connect (dst : list Z) (dport lport : Z)
| TcpSend (id : Z) (data : list Z)
| TcpRecv (id len : Z)
| TcpClose (id : Z).

Definition do_op (tx : nat -> list Z -> Z) (op : net_op) (s : net) : option net :=
  match op with
  | Register m poll => Some (net_register_device tx m poll s).2
  | Frame buf len => net_rx_frame tx buf len s
  | Tick polled => net_tick tx polled s
  | SendIcmp dst icmp => snd <$> net_send_icmp_echo tx dst icmp s
  | SendUdp dst sp dp payload => snd <$> net_send_udp tx dst sp dp payload s
  | RecvIcmp => snd <$> net_recv_icmp_echo_event s
  | RecvUdp port => snd <$> net_recv_udp_event port s
  | Connect dst dp lp => snd <$> net_tcp_connect tx dst dp lp s
  | TcpSend id data => snd <$> net_tcp_send tx id data s
  | TcpRecv id len => snd <$> net_tcp_recv id len s
  | TcpClose id => snd <$> net_tcp_close tx id s
  end.

Fixpoint run_ops (tx : nat -> list Z -> Z) (l : list net_op) (s : net) : option net :=
  match l with
  | [] => Some s
  | op :: l => s ← do_op tx op s; run_ops tx l s
  end.

(** Arguments of the types of the C functions; frames are in receive buffers. *)
Definition op_fits (op : net_op) : Prop :=
  match op with
  | Register m _ => addr_ok 6 m
  | Frame buf len => frame_fits (buf, len)
  | Tick polled => Forall frame_fits polled
  | SendIcmp dst icmp => addr_ok 4 dst /\ bytes_ok icmp
  | SendUdp dst sp dp payload => addr_ok 4 dst /\ bytes_ok payload
  | Connect dst dp lp => addr_ok 4 dst /\ 0 <= dp < 65536 /\ 0 <= lp < 65536
  | TcpSend _ data => bytes_ok data
  | TcpRecv _ len => 0 <= len
  | RecvIcmp | RecvUdp _ | TcpClose _ => True
  end.

Lemma do_op_ok tx op s : net_ok s -> op_fits op -> exists s', do_op tx op s = Some s' /\ net_ok s'.
Proof.
  intros Hok Hf. destruct op; cbn [do_op op_fits] in *.
  - eexists. split; [done|]. by apply register_ok.
  - destruct Hf as (? & ? & ?). by apply rx_frame_ok.
  - by apply net_tick_ok.
  - destruct Hf. destruct (send_icmp_echo_ok tx dst icmp s) as (r & s' & -> & ?); [done..|]. by exists s'.
  - destruct Hf. destruct (send_udp_ok tx dst sport dport payload s) as (r & s' & -> & ?); [done..|]. by exists s'.
  - destruct (recv_icmp_ok s) as (e & s' & -> & ?); [done|]. by exists s'.
  - destruct (recv_udp_ok port s) as (e & s' & -> & ?); [done|]. by exists s'.
  - destruct Hf as (? & ? & ?). destruct (connect_ok tx dst dport lport s) as (r & i & s' & -> & ?); [done..|]. by exists s'.
  - destruct (tcp_send_ok tx id data s) as (r & s' & -> & ?); [done..|]. by exists s'.
  - destruct (tcp_recv_ok id len s) as (r & o & c & s' & -> & ?); [done..|]. by exists s'.
  - destruct (tcp_close_ok tx id s) as (r & s' & -> & ?); [done|]. by exists s'.
Qed.

Lemma run_ops_ok tx l : forall s, net_ok s -> Forall op_fits l -> exists s', run_ops tx l s = Some s' /\ net_ok s'.
Proof.
  induction l as [|op l IH]; intros s Hok Hl; cbn [run_ops]; [by exists s|]. apply Forall_cons in Hl as [Hop Hl]. destruct (do_op_ok tx op s Hok Hop) as (s1 & -> & Hok1). rewrite bind_ret. by apply IH.
Qed.

(** C12. The network core is memory safe and its state well-typed: starting from
    [net_init], after any frames, ticks and calls, in any order, with any results of
    the driver, no operation reads or writes outside of a frame, buffer or array or
    fails to end, all addresses, ports, sequence numbers, lengths and indices are in
    range, and a connection in use is being opened or established.  (A received
    frame lies in a buffer of at least 594 bytes: see [udp_reads_beyond_frame].) *)
Theorem net_well_typed tx ops s (Hs : sent s = []) (Hl : Forall op_fits ops) : exists s', run_ops tx ops (net_init s) = Some s' /\ net_ok s'.
Proof. apply run_ops_ok; [|done]. apply init_ok. rewrite Hs. constructor. Qed.

(** C14. Every frame that is sent is valid: it has the right type and length, its IPv4
    header has a checksum that verifies, and so has its TCP segment. *)
Theorem sent_frames_valid tx ops s s' (Hs : sent s = []) (Hl : Forall op_fits ops) (Hr : run_ops tx ops (net_init s) = Some s') : Forall frame_ok (sent s').
Proof.
  destruct (run_ops_ok tx ops (net_init s)) as (s1 & E & Hok); [apply init_ok; rewrite Hs; constructor|done|]. rewrite Hr in E. injection E as ->. by apply no_sent.
Qed.

(** ** Examples *)

Definition net_zero : net := net_init (mkNet (mkDev false [] [] [] [] false) (mkArp false [] []) 0 (mkRing [] 0 0) (mkRing [] 0 0) [] (mkDhcp DHCP_DISABLED 0 0 0 [] [] [] []) []).

Definition padded (f : list Z) : list Z * Z := (f ++ replicate 600 238, Z.of_nat (length f)).

(** The gateway at 10.0.2.2. *)
Definition host_mac : list Z := [2; 0; 0; 0; 0; 1].
Definition gw_mac : list Z := [2; 0; 0; 0; 0; 2].
Definition host_ip : list Z := [10; 0; 2; 15].
Definition gw_ip : list Z := [10; 0; 2; 2].

Definition arp_from_gw : list Z := eth_hdr host_mac gw_mac (htons ETH_TYPE_ARP) ++ arp_hdr (htons ARP_OP_REPLY) gw_mac gw_ip host_mac host_ip.

Definition from_gw (proto : Z) (body : list Z) : list Z :=
  eth_hdr host_mac gw_mac (htons ETH_TYPE_IPV4) ++ ipv4_hdr (htons (20 + Z.of_nat (length body))) proto 0 gw_ip host_ip ++ body.

Definition frame_op (f : list Z) : net_op := Frame (padded f).1 (padded f).2.

Lemma frame_op_fits f : bytes_ok f -> op_fits (frame_op f).
Proof. intros Hf. unfold frame_op, padded. cbn [op_fits fst snd]. unfold frame_fits. cbn [fst snd]. split_and!; [apply Forall_app; split; [done|apply Forall_replicate; lia]|rewrite length_app; lia|rewrite length_app, length_replicate; lia]. Qed.

Definition ops_a : list net_op := [Register host_mac true; frame_op arp_from_gw; Connect gw_ip 80 5000; Tick []].

Lemma ops_a_fit : Forall op_fits ops_a.
Proof.
  assert (Ha : bytes_ok arp_from_gw) by (apply (bool_decide_unpack _); vm_compute; exact I).
  apply Forall_cons. split; [split; [done|repeat constructor; lia]|]. apply Forall_cons. split; [by apply frame_op_fits|].
  apply Forall_cons. split; [split_and!; [split; [done|repeat constructor; lia]|lia..]|]. repeat constructor.
Qed.

Lemma net_well_typed_witness : exists s', run_ops (fun _ _ => 0) ops_a (net_init net_zero) = Some s' /\ net_ok s'.
Proof. apply net_well_typed; [reflexivity|exact ops_a_fit]. Defined.

Lemma sent_frames_valid_witness : exists s', run_ops (fun _ _ => 0) ops_a (net_init net_zero) = Some s' /\ Forall frame_ok (sent s').
Proof.
  destruct (run_ops_ok (fun _ _ => 0) ops_a (net_init net_zero)) as (s' & E & _); [by apply init_ok; constructor|exact ops_a_fit|].
  exists s'. split; [exact E|]. exact (sent_frames_valid (fun _ _ => 0) ops_a net_zero s' eq_refl ops_a_fit E).
Defined.

(** ** What goes wrong *)

(** A UDP datagram that claims to be longer than its packet: the bytes that follow it
    in the receive buffer are delivered, and where there are none, memory behind the
    buffer is read. *)
Definition short_datagram : list Z := from_gw IPV4_PROTO_UDP (udp_hdr (htons 1000) (htons 2000) (htons 12)).

Lemma udp_reads_beyond_frame : length short_datagram = 42%nat /\
  (exists e s', (s ← run_ops (fun _ _ => 0) [Register host_mac true; frame_op short_datagram] net_zero; net_recv_udp_event 2000 s) = Some (inr e, s') /\
    ud_payload_len e = 4 /\ take 4 (ud_payload e) = [238; 238; 238; 238]) /\
  run_ops (fun _ _ => 0) [Register host_mac true; Frame short_datagram 42] net_zero = None.
Proof. split; [vm_compute; reflexivity|]. split; [eexists _, _; split; [vm_compute; reflexivity|vm_compute; split; reflexivity]|vm_compute; reflexivity]. Qed.

(** A segment from port 80 of the gateway to port 5000. *)
Definition segment_from_gw (seq ack flags : Z) (data : list Z) : list Z :=
  from_gw IPV4_PROTO_TCP (tcp_hdr (htons 80) (htons 5000) (htonl seq) (htonl ack) (htons (20480 + flags)) (htons 4096) 0 ++ data).

Definition connected : list net_op :=
  [Register host_mac true; frame_op arp_from_gw; Connect gw_ip 80 5000; frame_op (segment_from_gw 999 (snd_nxt (syn_conn gw_ip 5000 80 0)) (Z.lor TCP_FLAG_SYN TCP_FLAG_ACK) [])].

(** A connection on which nothing is sent for 200 ticks counts as unanswered from then
    on: it is dropped within eight more ticks, although nothing was lost. *)
Lemma idle_connection_dropped :
  (net_tcp_is_connected 0 <$> run_ops (fun _ _ => 0) (connected ++ replicate 207 (Tick [])) net_zero) = Some 1 /\
  (net_tcp_is_connected 0 <$> run_ops (fun _ _ => 0) (connected ++ replicate 208 (Tick [])) net_zero) = Some (- ENOTCONN).
Proof. split; vm_compute; reflexivity. Qed.

(** A segment that ends the stream is believed whatever its sequence number is: the
    process reads the end of the stream before the 100 bytes that are still to come. *)
Lemma early_end_of_stream : exists s', (s ← run_ops (fun _ _ => 0) (connected ++ [frame_op (segment_from_gw 1100 0 TCP_FLAG_FIN [])]) net_zero; net_tcp_recv 0 10 s) = Some (0, [], true, s').
Proof. eexists. vm_compute. reflexivity. Qed.

(** An acknowledgement after the sequence numbers have wrapped around is taken for an
    old one: the segment stays pending and nothing more can be sent. *)
Lemma wrapped_ack_ignored : let c := set_tx (mkTx true (2 ^ 32 - 2) 0 24 4 (replicate 1200 0)) (set_snd (2 ^ 32 - 2) 2 (syn_conn gw_ip 5000 80 0)) in
  tx_pending (c_tx (tcp_ack_input TCP_FLAG_ACK 2 c)) = true.
Proof. vm_compute. reflexivity. Qed.

(** After a connection was dropped its number is given to the next one: the socket
    that had the first reads what was sent to the second. *)
Lemma dropped_number_reused : exists s', (s ← run_ops (fun _ _ => 0) (connected ++ replicate 208 (Tick [])) net_zero; net_tcp_connect (fun _ _ => 0) gw_ip 81 5001 s) = Some (0, 0, s').
Proof. eexists. vm_compute. reflexivity. Qed.
