(* ===== verification/NetFlow.v ===== *)
(** * From one host to another

    What the senders of the network core send, its receiving side understands: a UDP
    datagram arrives as it was sent, and the bytes of a TCP stream arrive in order,
    each once, however its segments are lost, repeated and reordered. *)

From S2P Require Import Prelude Errno Bytes Net NetFrames NetQueue NetProps.

(** ** Reading what was written *)

Lemma rd_app_l pre rest off n : 0 <= off -> 0 <= n -> off + n <= Z.of_nat (length pre) -> rd (pre ++ rest) off n = Some (take (Z.to_nat n) (drop (Z.to_nat off) pre)).
Proof.
  intros Ho Hn Hl. unfold rd. rewrite !(proj2 (Z.leb_le _ _)) by (try rewrite length_app; lia). cbn [andb]. f_equal. rewrite drop_app_le by lia. rewrite take_app_le; [done|rewrite length_drop; lia].
Qed.

Lemma rd_int_app_l pre rest off n : 0 <= off -> 0 <= n -> off + n <= Z.of_nat (length pre) -> rd_int (pre ++ rest) off n = Some (le_value (take (Z.to_nat n) (drop (Z.to_nat off) pre))).
Proof. intros Ho Hn Hl. unfold rd_int. by rewrite rd_app_l. Qed.

Lemma addr6 a : addr_ok 6 a -> exists b0 b1 b2 b3 b4 b5, a = [b0; b1; b2; b3; b4; b5].
Proof. intros [Hl _]. destruct a as [|b0 [|b1 [|b2 [|b3 [|b4 [|b5 [|? ?]]]]]]]; try discriminate Hl. by eexists _, _, _, _, _, _. Qed.

Lemma ip_equal_refl a : ip_equal a a = true.
Proof. unfold ip_equal. by rewrite !Z.eqb_refl. Qed.

Section Receive.
Context (tx : nat -> list Z -> Z).

(** An IPv4 packet that was built by [ipv4_header], for us. *)
Lemma rx_ipv4 dm sm src dst proto h body slack s : addr_ok 6 dm -> addr_ok 6 sm -> addr_ok 4 src -> addr_ok 4 dst -> 0 <= proto < 256 -> 20 + Z.of_nat (length body) < 65536 ->
  present (g_dev s) = true -> ipv4_header (20 + Z.of_nat (length body)) proto src dst = Some h ->
  let f := eth_hdr dm sm (htons ETH_TYPE_IPV4) ++ h ++ body in
  net_rx_frame tx (f ++ slack) (Z.of_nat (length f)) s =
    if proto =? IPV4_PROTO_UDP then udp_input tx src dst (body ++ slack) (Z.of_nat (length body)) s
    else if proto =? IPV4_PROTO_TCP then tcp_input tx src dst (body ++ slack) (Z.of_nat (length body)) s
    else if proto =? IPV4_PROTO_ICMP then icmp_input tx sm src dst (body ++ slack) (Z.of_nat (length body)) s
    else Some s.
Proof.
  intros Hdm Hsm Hs Hd Hp Hl Hpr E f. destruct (ipv4_header_ok (20 + Z.of_nat (length body)) proto src dst) as (c & h' & E' & Eh & _ & Hhl & _); [lia|done..|]. rewrite E' in E. injection E as ->.
  apply addr6 in Hdm as (d0 & d1 & d2 & d3 & d4 & d5 & ->). apply addr6 in Hsm as (e0 & e1 & e2 & e3 & e4 & e5 & ->).
  apply aget_pair in Hs as (a0 & a1 & a2 & a3 & -> & _). apply aget_pair in Hd as (b0 & b1 & b2 & b3 & -> & _).
  assert (Hlen : length f = (34 + length body)%nat) by (unfold f; rewrite !length_app, Hhl; done).
  set (pre := eth_hdr [d0; d1; d2; d3; d4; d5] [e0; e1; e2; e3; e4; e5] (htons ETH_TYPE_IPV4) ++ h). assert (Hpl : length pre = 34%nat) by (unfold pre; rewrite length_app, Hhl; done).
  assert (Ef : f ++ slack = pre ++ body ++ slack) by (unfold f, pre; by rewrite <- !app_assoc). rewrite Ef.
  assert (Epre : pre = [d0; d1; d2; d3; d4; d5; e0; e1; e2; e3; e4; e5] ++ be16 ETH_TYPE_IPV4 ++ h) by (unfold pre, eth_hdr; rewrite le_bytes_htons by lia; by rewrite <- !app_assoc).
  unfold net_rx_frame. rewrite Hpr. cbn [negb orb]. rewrite (proj2 (Z.ltb_ge _ 14)) by lia. rewrite (rd_int_app_l _ _ 12 2) by lia. rewrite bind_ret.
  replace (le_value (take (Z.to_nat 2) (drop (Z.to_nat 12) pre))) with (le_value (be16 ETH_TYPE_IPV4)) by (rewrite Epre; reflexivity). rewrite ntohs_be16 by lia. cbn [Z.eqb Pos.eqb].
  unfold ipv4_input. rewrite (proj2 (Z.ltb_ge _ (14 + 20))) by lia. rewrite (rd_int_app_l _ _ 14 1) by lia. rewrite bind_ret.
  replace (le_value (take (Z.to_nat 1) (drop (Z.to_nat 14) pre))) with 69 by (rewrite Epre, Eh; reflexivity).
  change (negb (Z.shiftr 69 4 =? 4)) with false. change (Z.land 69 15 * 4) with 20. cbv zeta. rewrite (proj2 (Z.ltb_ge _ (14 + 20))) by lia. change (20 <? 20) with false. cbn [orb].
  rewrite (rd_int_app_l _ _ 16 2) by lia. rewrite bind_ret. replace (le_value (take (Z.to_nat 2) (drop (Z.to_nat 16) pre))) with (le_value (be16 (20 + Z.of_nat (length body)))) by (rewrite Epre, Eh; reflexivity).
  rewrite ntohs_be16 by lia. rewrite !(proj2 (Z.ltb_ge _ _)) by lia. cbn [orb]. rewrite (rd_int_app_l _ _ 23 1), (rd_app_l _ _ 26 4), (rd_app_l _ _ 30 4), (rd_app_l _ _ 6 6) by lia. rewrite !bind_ret.
  replace (le_value (take (Z.to_nat 1) (drop (Z.to_nat 23) pre))) with proto by (rewrite Epre, Eh; symmetry; apply (Z.add_0_r proto)).
  replace (take (Z.to_nat 4) (drop (Z.to_nat 26) pre)) with [a0; a1; a2; a3] by (rewrite Epre, Eh; reflexivity). replace (take (Z.to_nat 4) (drop (Z.to_nat 30) pre)) with [b0; b1; b2; b3] by (rewrite Epre, Eh; reflexivity).
  replace (take (Z.to_nat 6) (drop (Z.to_nat 6) pre)) with [e0; e1; e2; e3; e4; e5] by (rewrite Epre, Eh; reflexivity).
  change (Z.to_nat (14 + 20)) with 34%nat. rewrite (drop_app_length' pre) by done. replace (20 + Z.of_nat (length body) - 20) with (Z.of_nat (length body)) by lia. done.
Qed.

(** A UDP datagram for us that is not a DHCP message we wait for. *)
Lemma rx_udp dm sm src dst sp dp payload h slack s : addr_ok 6 dm -> addr_ok 6 sm -> addr_ok 4 src -> addr_ok 4 dst -> 0 <= sp < 65536 -> 0 <= dp < 65536 -> payload <> [] ->
  42 + Z.of_nat (length payload) <= FRAME_MAX -> present (g_dev s) = true -> ip (g_dev s) = dst -> ~ (sp = UDP_PORT_DHCP_SERVER /\ dp = UDP_PORT_DHCP_CLIENT) ->
  ipv4_header (28 + Z.of_nat (length payload)) IPV4_PROTO_UDP src dst = Some h ->
  let f := eth_hdr dm sm (htons ETH_TYPE_IPV4) ++ h ++ udp_hdr (htons sp) (htons dp) (htons (8 + Z.of_nat (length payload))) ++ payload in
  net_rx_frame tx (f ++ slack) (Z.of_nat (length f)) s = udp_event_push src sp dp (payload ++ slack) (Z.of_nat (length payload)) s.
Proof.
  intros Hdm Hsm Hs Hd Hsp Hdp Hne Hl Hpr Hip Hnd E f. assert (0 < Z.of_nat (length payload)) by (destruct payload; [done|cbn; lia]).
  set (hdr := udp_hdr (htons sp) (htons dp) (htons (8 + Z.of_nat (length payload)))). assert (Eh : hdr = be16 sp ++ be16 dp ++ be16 (8 + Z.of_nat (length payload)) ++ [0; 0]) by (unfold hdr, udp_hdr; by rewrite !le_bytes_htons by lia).
  assert (Hbl : Z.of_nat (length (hdr ++ payload)) = 8 + Z.of_nat (length payload)) by (rewrite length_app; change (length hdr) with 8%nat; lia).
  unfold f. fold hdr. rewrite (rx_ipv4 dm sm src dst IPV4_PROTO_UDP h (hdr ++ payload)); [|done|done|done|done|lia|lia|done|rewrite Hbl; rewrite <- E; f_equal; lia]. cbn [Z.eqb Pos.eqb].
  rewrite <- app_assoc, Hbl. unfold udp_input. rewrite (proj2 (Z.ltb_ge _ 8)) by lia. rewrite (rd_int_app_l hdr _ 0 2), (rd_int_app_l hdr _ 2 2), (rd_int_app_l hdr _ 4 2) by (change (length hdr) with 8%nat; lia). rewrite !bind_ret.
  replace (le_value (take (Z.to_nat 2) (drop (Z.to_nat 0) hdr))) with (le_value (be16 sp)) by (by rewrite Eh). replace (le_value (take (Z.to_nat 2) (drop (Z.to_nat 2) hdr))) with (le_value (be16 dp)) by (by rewrite Eh).
  replace (le_value (take (Z.to_nat 2) (drop (Z.to_nat 4) hdr))) with (le_value (be16 (8 + Z.of_nat (length payload)))) by (by rewrite Eh). cbv zeta. rewrite !ntohs_be16 by lia.
  destruct (_ && bool_decide _) eqn:Ed; [exfalso; zbool; apply Hnd; done|]. rewrite Hip, ip_equal_refl, Z.gtb_ltb, (proj2 (Z.ltb_lt 8 _)) by lia. cbn [andb].
  rewrite (drop_app_length' hdr) by done. f_equal. lia.
Qed.
End Receive.

(** C13. A UDP datagram arrives as it was sent: when [net_send_udp] has handed it to the
    driver, the frame it sent, received by the host it was sent to, whatever follows
    it in the receive buffer, makes [net_recv_udp_event] on its port return the
    sender, the ports and the payload, of which at most 512 bytes are kept. *)
Theorem udp_delivered txa txb a b a' sp dp payload slack l (Ha : net_ok a) (Hb : net_ok b) (Hbytes : bytes_ok payload) (Hsp : 0 <= sp < 65536) (Hdp : 0 <= dp < 65536)
    (Hnd : ~ (sp = UDP_PORT_DHCP_SERVER /\ dp = UDP_PORT_DHCP_CLIENT)) (Hpr : present (g_dev b) = true) (Hq : holds (g_udp b) l) (Hl : Forall (fun e => for_port dp e = false) l)
    (Hsend : net_send_udp txa (ip (g_dev b)) sp dp payload a = Some (0, a')) :
  exists f b' b'', sent a' = sent a ++ [f] /\ net_rx_frame txb (f ++ slack) (Z.of_nat (length f)) b = Some b' /\
    net_recv_udp_event dp b' = Some (inr (mkUdp (ip (g_dev a)) sp dp (Z.min (Z.of_nat (length payload)) 512) (overlay (take 512 payload) (replicate 512 0))), b'').
Proof.
  pose proof (no_dev a Ha) as [Ham Haip _ _]. pose proof (no_dev b Hb) as [_ Hbip _ _]. unfold net_send_udp in Hsend. do 3 (case_match; [done|]). zbool.
  destruct (resolve_sends txa (ip (g_dev b)) a) as [_ Hr]; [by apply no_dev|by apply no_arp|done|]. destruct (resolve_l2_next_hop txa (ip (g_dev b)) a) as [[ret|m] a1]; cbn [fst snd] in *; [injection Hsend as -> _; lia|]. destruct Hr as [Hm ->].
  assert (Hne : payload <> []) by (intros ->; done).
  destruct (Z.lt_ge_cases FRAME_MAX (42 + Z.of_nat (length payload))) as [Hbad|Hgood].
  { unfold send_ipv4_udp in Hsend. rewrite Z.gtb_ltb, (proj2 (Z.ltb_lt FRAME_MAX _)) in Hsend by lia. rewrite orb_true_r in Hsend. done. }
  destruct (send_udp_eq txa m (ip (g_dev a)) (ip (g_dev b)) sp dp payload a) as (h & Eh & _ & E); [done|by apply no_dev|done|done|done|done|lia|]. cbv zeta in E. rewrite E in Hsend. clear E.
  set (f := eth_hdr m _ _ ++ h ++ _) in Hsend. unfold net_tx_raw in Hsend. destruct (present (g_dev a)); [|done]. cbn [negb] in Hsend. injection Hsend as _ <-.
  set (n := Z.min (Z.of_nat (length payload)) 512). set (e := mkUdp (ip (g_dev a)) sp dp n (overlay (take 512 payload) (replicate 512 0))). destruct (push_holds (g_udp b) l e Hq) as (r & Er & Hr).
  assert (Hrx : net_rx_frame txb (f ++ slack) (Z.of_nat (length f)) b = Some (with_udp r b)).
  { unfold f. rewrite (rx_udp txb m (mac (g_dev a)) (ip (g_dev a)) (ip (g_dev b)) sp dp payload h slack b); [|done..]. unfold udp_event_push. cbv zeta. rewrite Z.gtb_ltb.
    replace (if 512 <? Z.of_nat (length payload) then 512 else Z.of_nat (length payload)) with n by (unfold n; destruct (Z.ltb_spec 512 (Z.of_nat (length payload))); lia).
    rewrite rd_app_l by lia. rewrite bind_ret. change (drop (Z.to_nat 0) payload) with payload.
    assert (Et : take (Z.to_nat n) payload = take 512 payload) by (unfold n; destruct (Z.le_gt_cases (Z.of_nat (length payload)) 512); [rewrite !take_ge by lia; done|f_equal; lia]).
    rewrite Et. fold e. by rewrite Er. }
  destruct (recv_udp_spec dp (with_udp r b) _ Hr) as (r2 & E2 & _). exists f, (with_udp r b), (with_udp r2 (with_udp r b)). split; [done|]. split; [exact Hrx|]. rewrite E2. do 3 f_equal.
  unfold bounded_push. rewrite take_first_app by (case_decide; [by apply Forall_tail|done]). cbn [take_first]. unfold for_port. cbn [ud_dst_port e]. by rewrite Z.eqb_refl, orb_true_r.
Qed.

(** ** TCP *)

Lemma doff_parts flags : Z.land (Z.shiftr (doff flags) 12) 15 * 4 = 20 /\ Z.land (doff flags) 511 = flags mod 512 /\ 0 <= doff flags < 65536.
Proof.
  unfold doff. pose proof (Z.mod_pos_bound flags 512). set (x := flags mod 512) in *. split_and!; [|change 511 with (Z.ones 9); rewrite Z.land_ones by lia; change (2 ^ 9) with 512; symmetry; apply (Z.mod_unique_pos _ _ 40); lia|lia|lia].
  rewrite Z.shiftr_div_pow2 by lia. replace ((20480 + x) / 2 ^ 12) with 5 by (apply (Z.div_unique_pos _ _ _ x); lia). reflexivity.
Qed.

(** A TCP segment for us goes to the connection it belongs to. *)
Lemma rx_tcp tx dm sm src dst sp dp seq ack flags c payload h slack s : addr_ok 6 dm -> addr_ok 6 sm -> addr_ok 4 src -> addr_ok 4 dst -> 0 <= sp < 65536 -> 0 <= dp < 65536 ->
  0 <= seq < 2 ^ 32 -> 0 <= ack < 2 ^ 32 -> 54 + Z.of_nat (length payload) <= FRAME_MAX -> present (g_dev s) = true -> ip (g_dev s) = dst ->
  ipv4_header (40 + Z.of_nat (length payload)) IPV4_PROTO_TCP src dst = Some h ->
  let f := eth_hdr dm sm (htons ETH_TYPE_IPV4) ++ h ++ (be16 sp ++ be16 dp ++ be32 seq ++ be32 ack ++ be16 (doff flags) ++ be16 4096) ++ be16 c ++ [0; 0] ++ payload in
  net_rx_frame tx (f ++ slack) (Z.of_nat (length f)) s =
    match tcp_find_conn src sp dp s with
    | None => Some s
    | Some i => tcp_segment tx i (flags mod 512) seq ack (payload ++ slack) (Z.of_nat (length payload)) s
    end.
Proof.
  intros Hdm Hsm Hs Hd Hsp Hdp Hsq Hak Hl Hpr Hip E f. set (hdr := (be16 sp ++ be16 dp ++ be32 seq ++ be32 ack ++ be16 (doff flags) ++ be16 4096) ++ be16 c ++ [0; 0]).
  assert (Hhl : length hdr = 20%nat) by done. assert (Hbl : Z.of_nat (length (hdr ++ payload)) = 20 + Z.of_nat (length payload)) by (rewrite length_app, Hhl; lia).
  assert (Ef : f = eth_hdr dm sm (htons ETH_TYPE_IPV4) ++ h ++ hdr ++ payload) by (unfold f, hdr; by rewrite <- !app_assoc). rewrite Ef.
  rewrite (rx_ipv4 tx dm sm src dst IPV4_PROTO_TCP h (hdr ++ payload)); [|done|done|done|done|lia|lia|done|rewrite Hbl; rewrite <- E; f_equal; lia]. cbn [Z.eqb Pos.eqb].
  rewrite <- app_assoc, Hbl. unfold tcp_input. rewrite (proj2 (Z.ltb_ge _ 20)) by lia. rewrite Hip, ip_equal_refl. cbn [negb orb]. destruct (doff_parts flags) as (D1 & D2 & D3).
  rewrite (rd_int_app_l hdr _ 12 2), (rd_int_app_l hdr _ 0 2), (rd_int_app_l hdr _ 2 2), (rd_int_app_l hdr _ 4 4), (rd_int_app_l hdr _ 8 4) by (try rewrite Hhl; lia). rewrite !bind_ret.
  change (take (Z.to_nat 2) (drop (Z.to_nat 12) hdr)) with (be16 (doff flags)). change (take (Z.to_nat 2) (drop (Z.to_nat 0) hdr)) with (be16 sp). change (take (Z.to_nat 2) (drop (Z.to_nat 2) hdr)) with (be16 dp).
  change (take (Z.to_nat 4) (drop (Z.to_nat 4) hdr)) with (be32 seq). change (take (Z.to_nat 4) (drop (Z.to_nat 8) hdr)) with (be32 ack).
  cbv zeta. rewrite !ntohs_be16, !ntohl_be32, D1, D2 by done. rewrite Z.gtb_ltb, (proj2 (Z.ltb_ge (20 + _) 20)) by lia. cbn [Z.ltb Z.compare Pos.compare Pos.compare_cont orb].
  change (Z.to_nat 20) with 20%nat. rewrite (drop_app_length' hdr) by done. replace (20 + Z.of_nat (length payload) - 20) with (Z.of_nat (length payload)) by lia. done.
Qed.

(** Where a connection is found does not depend on anything but its addresses. *)
Lemma find_conn_insert rip rp lp s s' i c c' : g_tcp_conns s !! i = Some c -> g_tcp_conns s' = <[i := c']> (g_tcp_conns s) -> tcp_find_conn rip rp lp s = Some i ->
  used c' = used c -> c_state c' = c_state c -> remote_ip c' = remote_ip c -> local_port c' = local_port c -> remote_port c' = remote_port c -> tcp_find_conn rip rp lp s' = Some i.
Proof.
  intros Hi Et Hf H1 H2 H3 H4 H5. unfold tcp_find_conn in *. apply bind_Some in Hf as ([j x] & Hf & [= ->]). cbn in *. apply list_find_Some in Hf as (Hx & HP & Hfirst). rewrite Hi in Hx. injection Hx as <-.
  assert (E : list_find (fun c => used c = true /\ c_state c <> TCP_CONN_CLOSED /\ local_port c = lp /\ remote_port c = rp /\ ip_equal (remote_ip c) rip = true) (g_tcp_conns s') = Some (i, c')).
  { apply list_find_Some. rewrite Et. split; [apply list_lookup_insert_eq; by eapply lookup_lt_Some|]. split; [by rewrite H1, H2, H3, H4, H5|]. intros k y Hk Hlt. rewrite list_lookup_insert_ne in Hk by lia. by apply (Hfirst k). }
  by rewrite E.
Qed.

(** A peer at [rip], port [rport], sends the bytes of [S] to our port [lport]; its
    first sequence number is [isn]. *)
Section Stream.
Context (S : list Z) (isn : Z) (my_ip rip : list Z) (rport lport : Z).

(** A segment with the bytes from [off] on; only the last one may end the stream. *)
Record segment_of (off seq flags : Z) (data : list Z) : Prop := {
  so_off : 0 <= off; so_end : off + Z.of_nat (length data) <= Z.of_nat (length S); so_data : data = take (length data) (drop (Z.to_nat off) S); so_seq : seq = u32 (isn + 1 + off);
  so_rst : flagb (flags mod 512) TCP_FLAG_RST = false; so_fin : flagb (flags mod 512) TCP_FLAG_FIN = true -> off + Z.of_nat (length data) = Z.of_nat (length S) }.

(** A frame that some host sent with such a segment. *)
Definition peer_frame (off len : Z) (f : list Z) : Prop := exists txp m p p' ret seq ack flags data,
  addr_ok 6 m /\ dev_ok (g_dev p) /\ 0 <= ack < 2 ^ 32 /\ Z.of_nat (length data) = len /\ segment_of off seq flags data /\
  send_ipv4_tcp txp m rip my_ip rport lport seq ack flags data p = Some (ret, p') /\ sent p' = sent p ++ [f].

(** What happens to the connection [id]. *)
Inductive flow : Type :=
| Arrives (f slack : list Z)
| Reads (len : Z)
| Writes (data : list Z).

Definition flow_step (tx : nat -> list Z -> Z) (id : Z) (e : flow) (s : net) : option (net * list Z) :=
  match e with
  | Arrives f slack => s ← net_rx_frame tx (f ++ slack) (Z.of_nat (length f)) s; Some (s, [])
  | Reads len => '(_, out, _, s) ← net_tcp_recv id len s; Some (s, out)
  | Writes data => '(_, s) ← net_tcp_send tx id data s; Some (s, [])
  end.

(** The bytes the process has read. *)
Fixpoint run_flow (tx : nat -> list Z -> Z) (id : Z) (l : list flow) (s : net) : option (net * list Z) :=
  match l with
  | [] => Some (s, [])
  | e :: l => '(s, out) ← flow_step tx id e s; '(s, rest) ← run_flow tx id l s; Some (s, out ++ rest)
  end.

Definition flow_ok (e : flow) : Prop :=
  match e with
  | Arrives f slack => bytes_ok slack /\ exists off len, peer_frame off len f
  | Reads len => 0 <= len
  | Writes data => bytes_ok data
  end.

(** The connection, after [n] bytes of the stream. *)
Record flowing (id : Z) (s : net) (c : tcp_conn) (n : Z) : Prop := {
  fl_ok : net_ok s; fl_present : present (g_dev s) = true; fl_ip : ip (g_dev s) = my_ip; fl_id : 0 <= id < 8; fl_at : g_tcp_conns s !! Z.to_nat id = Some c;
  fl_find : tcp_find_conn rip rport lport s = Some (Z.to_nat id); fl_used : used c = true; fl_state : c_state c = TCP_CONN_ESTABLISHED;
  fl_n : 0 <= n <= Z.of_nat (length S);
  fl_rcv : rcv_nxt c = u32 (isn + 1 + n) \/ n = Z.of_nat (length S) /\ rcv_nxt c = u32 (isn + 1 + n + 1) }.

Context (HS : bytes_ok S) (Hlen : Z.of_nat (length S) < 2 ^ 32 - 1) (Hmy : addr_ok 4 my_ip) (Hrip : addr_ok 4 rip) (Hrp : 0 <= rport < 65536) (Hlp : 0 <= lport < 65536).

Lemma u32_inj a b x : 0 <= a < 2 ^ 32 -> 0 <= b < 2 ^ 32 -> u32 (x + a) = u32 (x + b) -> a = b.
Proof. intros Ha Hb E. unfold u32 in E. pose proof (Z_div_mod_eq_full (x + a) (2 ^ 32)). pose proof (Z_div_mod_eq_full (x + b) (2 ^ 32)). nia. Qed.

Lemma peer_frame_inv off len f : peer_frame off len f -> exists m sm seq ack flags c data h, addr_ok 6 m /\ addr_ok 6 sm /\ 0 <= ack < 2 ^ 32 /\ Z.of_nat (length data) = len /\ segment_of off seq flags data /\
  54 + Z.of_nat (length data) <= FRAME_MAX /\ ipv4_header (40 + Z.of_nat (length data)) IPV4_PROTO_TCP rip my_ip = Some h /\
  f = eth_hdr m sm (htons ETH_TYPE_IPV4) ++ h ++ (be16 rport ++ be16 lport ++ be32 seq ++ be32 ack ++ be16 (doff flags) ++ be16 4096) ++ be16 c ++ [0; 0] ++ data.
Proof.
  intros (txp & m & p & p' & ret & seq & ack & flags & data & Hm & Hp & Ha & Hl & Hso & Hsend & Hsent).
  assert (Hno : sent p <> sent p ++ [f]) by (intros E; apply (f_equal length) in E; rewrite length_app in E; cbn in E; lia).
  destruct (Z.lt_ge_cases FRAME_MAX (54 + Z.of_nat (length data))) as [Hbad|Hgood].
  { exfalso. unfold send_ipv4_tcp in Hsend. rewrite Z.gtb_ltb, (proj2 (Z.ltb_lt FRAME_MAX _)) in Hsend by lia. cbn [orb] in Hsend. injection Hsend as _ <-. done. }
  assert (Hd : bytes_ok data) by (rewrite (so_data _ _ _ _ Hso); by apply Forall_take, Forall_drop). pose proof (u32_range (isn + 1 + off)) as Hu. rewrite <- (so_seq _ _ _ _ Hso) in Hu.
  destruct (send_tcp_eq txp m rip my_ip rport lport seq ack flags data p) as (f' & h & c & E & _ & Eh & Ef); [done..|]. rewrite E in Hsend. injection Hsend as Hsend. unfold net_tx_raw in Hsend.
  destruct (present (g_dev p)); cbn [negb] in Hsend; injection Hsend as _ <-; [|done]. cbn in Hsent. apply app_inj_tail in Hsent as [_ <-].
  exists m, (mac (g_dev p)), seq, ack, flags, c, data, h. split_and!; try done; try lia; apply Hp.
Qed.

(** Extending a prefix. *)
Lemma prefix_take (l : list Z) n a data slack : 0 <= n -> 0 <= a <= Z.of_nat (length data) -> data = take (length data) (drop (Z.to_nat n) l) ->
  take (Z.to_nat n) l ++ take (Z.to_nat a) (data ++ slack) = take (Z.to_nat (n + a)) l.
Proof.
  intros Hn Ha Hd. rewrite take_app_le by lia. rewrite Hd, take_take. replace (Z.to_nat a `min` length data)%nat with (Z.to_nat a) by lia.
  rewrite Z2Nat.inj_add by lia. symmetry. rewrite <- (take_drop (Z.to_nat n) (take (Z.to_nat n + Z.to_nat a) l)). rewrite take_take, Nat.min_l by lia. f_equal. by rewrite take_drop_commute.
Qed.

(** The arithmetic of a segment: which bytes it adds, and what is expected next. *)
Lemma segment_bytes off seq flags data c n : segment_of off seq flags data -> 0 <= n <= Z.of_nat (length S) -> 0 <= rx_len c <= NET_TCP_RX_BUF ->
  (rcv_nxt c = u32 (isn + 1 + n) \/ n = Z.of_nat (length S) /\ rcv_nxt c = u32 (isn + 1 + n + 1)) ->
  let a := accepted seq (Z.of_nat (length data)) c in let r := u32 (rcv_nxt c + a) in
  let r' := if flagb (flags mod 512) TCP_FLAG_FIN && (u32 (seq + u32 (Z.of_nat (length data))) =? r) then u32 (r + 1) else r in
  (a = 0 \/ off = n /\ 0 <= a <= Z.of_nat (length data)) /\ n + a <= Z.of_nat (length S) /\ (off = n -> 0 < Z.of_nat (length data) -> a = Z.min (Z.of_nat (length data)) (NET_TCP_RX_BUF - rx_len c)) /\
  (r' = u32 (isn + 1 + (n + a)) \/ n + a = Z.of_nat (length S) /\ r' = u32 (isn + 1 + (n + a) + 1)).
Proof.
  intros [H0 He Hd Hs _ Hf] Hn Hx Hr a r r'. set (len := Z.of_nat (length data)) in *. assert (Hlen0 : 0 <= len) by (unfold len; lia).
  assert (Hplus : forall x y, u32 (u32 x + y) = u32 (x + y)) by (intros; apply Zplus_mod_idemp_l). assert (Hplus' : forall x y, u32 (x + u32 y) = u32 (x + y)) by (intros; apply Zplus_mod_idemp_r).
  assert (Ha : (a = 0 \/ off = n /\ 0 <= a <= len) /\ (off = n -> 0 < len -> a = Z.min len (NET_TCP_RX_BUF - rx_len c)) /\ (rcv_nxt c = u32 (isn + 1 + n) \/ a = 0)).
  { unfold a, accepted. destruct (Z.eqb_spec seq (rcv_nxt c)) as [E|Hne].
    - rewrite Hs in E. destruct Hr as [Hr|[-> Hr]]; rewrite Hr in E; [apply u32_inj in E; [|lia|lia]; split_and!; [right; lia|lia|by left]|].
      replace (isn + 1 + Z.of_nat (length S) + 1) with (isn + 1 + (Z.of_nat (length S) + 1)) in E by lia. apply u32_inj in E; [|lia|lia]. lia.
    - split_and!; [by left|intros -> ?; exfalso|by right]. destruct Hr as [Hr|[-> _]]; [congruence|lia]. }
  destruct Ha as (Ha1 & Ha2 & Ha3). split_and!; [exact Ha1|lia|exact Ha2|].
  assert (Er : r = u32 (isn + 1 + (n + a)) \/ n + a = Z.of_nat (length S) /\ r = u32 (isn + 1 + (n + a) + 1)).
  { unfold r. destruct Hr as [Hr|[En Hr]]; [left; rewrite Hr, Hplus; f_equal; lia|]. destruct Ha3 as [Hr'|Ha0]; [left; rewrite Hr', Hplus; f_equal; lia|]. right. rewrite Ha0, Z.add_0_r. split; [done|]. rewrite Hr, Z.add_0_r. rewrite <- Hr. apply u32_small. rewrite Hr. apply u32_range. }
  unfold r'. destruct (flagb (flags mod 512) TCP_FLAG_FIN && _) eqn:Efin; [|done]. apply andb_true_iff in Efin as [Ef Eq]. apply Z.eqb_eq in Eq. specialize (Hf Ef). rewrite Hplus', Hs, Hplus in Eq.
  destruct Er as [Er|[En Er]]; rewrite Er in Eq |- *.
  - replace (isn + 1 + off + len) with (isn + 1 + (off + len)) in Eq by lia. apply u32_inj in Eq; [|lia|lia]. right. split; [lia|]. by rewrite Hplus.
  - exfalso. replace (isn + 1 + off + len) with (isn + 1 + (off + len)) in Eq by lia. replace (isn + 1 + (n + a) + 1) with (isn + 1 + (n + a + 1)) in Eq by lia. apply u32_inj in Eq; lia.
Qed.

Lemma arrives_step tx id s c n off len f slack : flowing id s c n -> bytes_ok slack -> peer_frame off len f ->
  exists s' c' a, net_rx_frame tx (f ++ slack) (Z.of_nat (length f)) s = Some s' /\ flowing id s' c' (n + a) /\ 0 <= a /\ rx_len c' = rx_len c + a /\
    (off = n -> 0 < len -> a = Z.min len (NET_TCP_RX_BUF - rx_len c)) /\ (forall d, d ++ content c = take (Z.to_nat n) S -> d ++ content c' = take (Z.to_nat (n + a)) S).
Proof.
  intros Hfl Hsl (m & sm & seq & ack & flags & cs & data & h & Hm & Hsm & Ha & Hld & Hso & Hmax & Eh & ->)%peer_frame_inv. pose proof Hfl as [Hok Hpr Hip Hid Hat Hfi Hu Hst Hn Hr].
  pose proof (u32_range (isn + 1 + off)) as Hsq. rewrite <- (so_seq _ _ _ _ Hso) in Hsq. destruct (conn_at s _ c Hok Hat) as [Hc _].
  assert (Hd : bytes_ok data) by (rewrite (so_data _ _ _ _ Hso); by apply Forall_take, Forall_drop).
  rewrite (rx_tcp tx m sm rip my_ip rport lport seq ack flags cs data h slack s) by done. rewrite Hfi.
  destruct (segment_established tx (Z.to_nat id) c (flags mod 512) seq ack (data ++ slack) (Z.of_nat (length data)) s) as (s' & c' & E & Hok' & Hk & Et & Hrc); [done|done|by apply Forall_app|rewrite length_app; lia|done|apply Hso|done|].
  destruct (segment_bytes off seq flags data c n Hso Hn (co_rx c Hc) Hr) as (B1 & B2 & B3 & B4). cbv zeta in *. set (a := accepted seq (Z.of_nat (length data)) c) in *.
  exists s', c', a. destruct Hrc as [R1 R2 R3 R4 R5 _ _ _ _ _ R11 R12 R13]. cbv zeta in R11. fold a in R11, R12, R13. destruct Hk as [K1 _ _ _ _ _]. split; [done|]. split_and!.
  - split; try done; [by rewrite K1|by rewrite K1|rewrite Et; apply list_lookup_insert_eq; by eapply lookup_lt_Some| |congruence|congruence|lia|by rewrite R11].
    by apply (find_conn_insert rip rport lport s s' (Z.to_nat id) c c').
  - lia.
  - exact R12.
  - rewrite <- Hld. exact B3.
  - intros d Ed. rewrite R13, app_assoc, Ed. destruct B1 as [Ea|[Eo Hb]]; [rewrite Ea, Z.add_0_r; change (take (Z.to_nat 0) _) with (@nil Z); by rewrite app_nil_r|]. apply prefix_take; [lia|done|]. rewrite <- Eo. apply Hso.
Qed.

Lemma reads_step id s c n len : flowing id s c n -> 0 <= len ->
  exists ret out closed s' c', net_tcp_recv id len s = Some (ret, out, closed, s') /\ flowing id s' c' n /\ content c = out ++ content c' /\ (NET_TCP_RX_BUF <= len -> content c' = [] /\ rx_len c' = 0).
Proof.
  intros Hfl Hl. pose proof Hfl as [Hok Hpr Hip Hid Hat Hfi Hu Hst Hn Hr]. destruct (conn_at s _ c Hok Hat) as [Hc _]. pose proof (co_rx c Hc) as Hx.
  assert (Eid : tcp_conn_by_id id s = Some c) by (unfold tcp_conn_by_id; rewrite (proj2 (Z.ltb_ge id 0)), Z.geb_leb, (proj2 (Z.leb_gt _ id)) by lia; cbn [orb]; rewrite Hat, bind_ret, Hu; done).
  assert (Hcl : Z.of_nat (length (content c)) = rx_len c) by (pose proof (co_buf c Hc) as [Hbl _]; unfold content; rewrite length_take; lia).
  destruct (decide (len = 0 \/ rx_len c = 0)) as [H0|H0].
  - unfold net_tcp_recv. rewrite Eid. destruct (Z.eqb_spec len 0) as [->|Hne]; [eexists _, _, _, s, c; split_and!; [done|done|done|lia]|]. destruct H0 as [?|H0]; [done|]. rewrite H0. cbn [Z.eqb].
    eexists _, _, _, s, c. split_and!; [done|done|done|intros _]. split; [apply length_zero_iff_nil; lia|done].
  - destruct (tcp_recv_spec id len c s Hok Eid) as (c' & E & Hc' & Eco & El & U1 & U2 & U3 & U4 & U5 & U6 & _); [lia|lia|]. eexists _, _, _, _, c'. split; [exact E|]. split_and!.
    + assert (Hlt := lookup_lt_Some _ _ _ Hat). split; try done; [by apply set_conn_ok|unfold set_conn; cbn; by apply list_lookup_insert_eq| |congruence|congruence|by rewrite U6].
      by apply (find_conn_insert rip rport lport s _ (Z.to_nat id) c c').
    + by rewrite Eco, take_drop.
    + intros Hbig. rewrite Eco. split; [apply drop_ge; lia|lia].
Qed.

Lemma writes_step tx id s c n data : flowing id s c n -> bytes_ok data ->
  exists ret s' c', net_tcp_send tx id data s = Some (ret, s') /\ flowing id s' c' n /\ content c' = content c /\ rx_len c' = rx_len c.
Proof.
  intros Hfl Hb. pose proof Hfl as [Hok Hpr Hip Hid Hat Hfi Hu Hst Hn Hr]. destruct (conn_at s _ c Hok Hat) as [Hc _].
  assert (Eid : tcp_conn_by_id id s = Some c) by (unfold tcp_conn_by_id; rewrite (proj2 (Z.ltb_ge id 0)), Z.geb_leb, (proj2 (Z.leb_gt _ id)) by lia; cbn [orb]; rewrite Hat, bind_ret, Hu; done).
  unfold net_tcp_send. rewrite Eid. cbv zeta. do 4 (case_match; [by eexists _, s, c|]).
  edestruct (tcp_send_spec tx (Z.to_nat id) c (snd_nxt c) (rcv_nxt c)) as (ret & s' & c' & E & Hok' & Hk & Et & Hp & _); [done|done|exact Hb|apply Hc|apply Hc|]. rewrite E, bind_ret. clear E.
  assert (Hlt := lookup_lt_Some _ _ _ Hat). assert (Hi' : g_tcp_conns s' !! Z.to_nat id = Some c') by (rewrite Et; by apply list_lookup_insert_eq).
  assert (Hfl' : flowing id s' c' n). { pose proof Hp as [P1 P2 P3 P4 P5 _ _ P8 _ _ _]. destruct Hk as [K1 _ _ _ _ _]. split; try done; [congruence|congruence|by apply (find_conn_insert rip rport lport s s' (Z.to_nat id) c c')|congruence|congruence|by rewrite P8]. }
  case_match; [eexists _, s', c'; split_and!; [done|done|by apply same_peer_content|apply Hp]|]. rewrite Hi', bind_ret. set (c2 := set_snd _ _ c'). eexists _, _, c2. split; [done|].
  assert (Hc2 : conn_ok c2) by (destruct (conn_at s' _ c' Hok' Hi') as [[] _]; pose proof (u32_ok (snd_nxt c' + u32 (Z.of_nat (length data)))); by split).
  split_and!; [|by apply same_peer_content in Hp|apply Hp]. pose proof Hfl' as []. split; try done; [by apply set_conn_ok|unfold set_conn; cbn; apply list_lookup_insert_eq; by eapply lookup_lt_Some|].
  by apply (find_conn_insert rip rport lport s' _ (Z.to_nat id) c' c2).
Qed.

Lemma run_flow_ok tx id l : forall s c n d, flowing id s c n -> Forall flow_ok l -> d ++ content c = take (Z.to_nat n) S ->
  exists s' out c' n', run_flow tx id l s = Some (s', out) /\ flowing id s' c' n' /\ n <= n' /\ (d ++ out) ++ content c' = take (Z.to_nat n') S.
Proof.
  induction l as [|e l IH]; intros s c n d Hfl Hl Hd; cbn [run_flow]. { exists s, [], c, n. split_and!; [done|done|lia|by rewrite app_nil_r]. }
  apply Forall_cons in Hl as [He Hl].
  assert (Hstep : exists s1 c1 n1 out, flow_step tx id e s = Some (s1, out) /\ flowing id s1 c1 n1 /\ n <= n1 /\ (d ++ out) ++ content c1 = take (Z.to_nat n1) S).
  { destruct e as [f slack|len|data]; cbn [flow_step flow_ok] in *.
    - destruct He as (Hsl & off & len & Hf). destruct (arrives_step tx id s c n off len f slack Hfl Hsl Hf) as (s1 & c1 & a & -> & Hfl1 & Ha & _ & _ & Hx). rewrite bind_ret.
      exists s1, c1, (n + a), []. split_and!; [done|done|lia|]. rewrite app_nil_r. by apply Hx.
    - destruct (reads_step id s c n len Hfl He) as (ret & out & cl & s1 & c1 & -> & Hfl1 & Ec & _). rewrite bind_ret. exists s1, c1, n, out. split_and!; [done|done|lia|]. by rewrite <- app_assoc, <- Ec.
    - destruct (writes_step tx id s c n data Hfl He) as (ret & s1 & c1 & -> & Hfl1 & Ec & _). rewrite bind_ret. exists s1, c1, n, []. split_and!; [done|done|lia|]. by rewrite app_nil_r, Ec. }
  destruct Hstep as (s1 & c1 & n1 & out & -> & Hfl1 & Hn1 & Hd1). rewrite bind_ret. destruct (IH s1 c1 n1 (d ++ out) Hfl1 Hl Hd1) as (s2 & rest & c2 & n2 & -> & Hfl2 & Hn2 & Hd2). rewrite bind_ret.
  exists s2, (out ++ rest), c2, n2. split_and!; [done|done|lia|]. by rewrite app_assoc.
Qed.

(** Frames with the rest of the stream from [off] on, one after the other. *)
Fixpoint in_sequence (off : Z) (l : list (list Z)) : Prop :=
  match l with
  | [] => off = Z.of_nat (length S)
  | f :: l => exists len, 0 < len /\ peer_frame off len f /\ in_sequence (off + len) l
  end.

Lemma run_in_sequence tx id slack l : forall s c n, bytes_ok slack -> flowing id s c n -> content c = [] -> rx_len c = 0 -> in_sequence n l ->
  exists s' out, run_flow tx id (flat_map (fun f => [Arrives f slack; Reads NET_TCP_RX_BUF]) l) s = Some (s', out) /\ take (Z.to_nat n) S ++ out = S.
Proof.
  induction l as [|f l IH]; intros s c n Hsl Hfl Hc Hx Hseq; cbn [in_sequence flat_map app run_flow] in *. { exists s, []. split; [done|]. rewrite app_nil_r. apply take_ge. lia. }
  destruct Hseq as (len & Hl & Hf & Hseq). cbn [flow_step]. destruct (arrives_step tx id s c n n len f slack Hfl Hsl Hf) as (s1 & c1 & a & -> & Hfl1 & Ha & Hx1 & Hall & Hd). rewrite !bind_ret.
  assert (Hlen1 : len <= 1460) by (apply peer_frame_inv in Hf as (? & ? & ? & ? & ? & ? & data & ? & _ & _ & _ & <- & _ & Hmax & _); lia). assert (Ea : a = len) by (rewrite Hall by done; lia). subst a.
  destruct (reads_step id s1 c1 (n + len) NET_TCP_RX_BUF Hfl1) as (ret & out & cl & s2 & c2 & -> & Hfl2 & Ec & Hempty); [lia|]. rewrite !bind_ret. destruct Hempty as [Hc2 Hx2]; [lia|].
  destruct (IH s2 c2 (n + len) Hsl Hfl2 Hc2 Hx2 Hseq) as (s3 & rest & -> & Hrest). rewrite !bind_ret. exists s3, (out ++ rest). split; [done|].
  rewrite Hc2, app_nil_r in Ec. specialize (Hd (take (Z.to_nat n) S)). rewrite Hc, app_nil_r in Hd. specialize (Hd eq_refl). rewrite Ec in Hd. by rewrite app_assoc, Hd.
Qed.
End Stream.

(** C8. A TCP stream arrives in order: however the frames that a peer sends with parts of
    its stream are lost, repeated, reordered and cut differently, and whenever the
    process reads and writes, no call fails, and what the process has read, followed
    by what is waiting in the connection, is always a prefix of the stream. *)
Theorem tcp_stream_prefix S isn my_ip rip rport lport tx id l s c (HS : bytes_ok S) (Hlen : Z.of_nat (length S) < 2 ^ 32 - 1) (Hmy : addr_ok 4 my_ip) (Hrip : addr_ok 4 rip) (Hrp : 0 <= rport < 65536) (Hlp : 0 <= lport < 65536)
    (Hfl : flowing S isn my_ip rip rport lport id s c 0) (Hc : rx_len c = 0) (Hl : Forall (flow_ok S isn my_ip rip rport lport) l) :
  exists s' out c', run_flow tx id l s = Some (s', out) /\ g_tcp_conns s' !! Z.to_nat id = Some c' /\ out ++ content c' `prefix_of` S.
Proof.
  assert (Hc0 : content c = []) by (unfold content; by rewrite Hc).
  destruct (run_flow_ok S isn my_ip rip rport lport HS Hlen Hmy Hrip Hrp Hlp tx id l s c 0 [] Hfl Hl) as (s' & out & c' & n' & E & Hfl' & _ & Hd); [by rewrite Hc0|].
  exists s', out, c'. split; [done|]. split; [apply Hfl'|]. cbn [app] in Hd. rewrite Hd. exists (drop (Z.to_nat n') S). by rewrite take_drop.
Qed.

(** C18. A TCP stream arrives completely: when the frames with the whole stream arrive one
    after the other, and the process reads after each of them, it reads exactly the
    stream. *)
Theorem tcp_stream_complete S isn my_ip rip rport lport tx id frames slack s c (HS : bytes_ok S) (Hlen : Z.of_nat (length S) < 2 ^ 32 - 1) (Hmy : addr_ok 4 my_ip) (Hrip : addr_ok 4 rip) (Hrp : 0 <= rport < 65536) (Hlp : 0 <= lport < 65536)
    (Hfl : flowing S isn my_ip rip rport lport id s c 0) (Hc : rx_len c = 0) (Hslack : bytes_ok slack) (Hseq : in_sequence S isn my_ip rip rport lport 0 frames) :
  exists s', run_flow tx id (flat_map (fun f => [Arrives f slack; Reads NET_TCP_RX_BUF]) frames) s = Some (s', S).
Proof.
  assert (Hc0 : content c = []) by (unfold content; by rewrite Hc).
  destruct (run_in_sequence S isn my_ip rip rport lport HS Hlen Hmy Hrip Hrp Hlp tx id slack frames s c 0 Hslack Hfl Hc0 Hc Hseq) as (s' & out & E & Hout). exists s'. change (out = S) in Hout. by rewrite E, Hout.
Qed.

(** ** Examples *)

Lemma zero_ok : net_ok net_zero.
Proof. apply init_ok. constructor. Qed.

Lemma bytes_by_compute l : forallb (fun b => (0 <=? b) && (b <? 256)) l = true -> bytes_ok l.
Proof. intros H. apply Forall_forall. intros b Hb. apply list_elem_of_In in Hb. rewrite forallb_forall in H. specialize (H b Hb). zbool. lia. Qed.

Lemma connected_fits : Forall op_fits connected.
Proof.
  apply Forall_cons. split; [split; [done|by apply bytes_by_compute]|]. apply Forall_cons. split; [by apply frame_op_fits, bytes_by_compute|].
  apply Forall_cons. split; [split_and!; [split; [done|by apply bytes_by_compute]|lia..]|]. apply Forall_cons. split; [by apply frame_op_fits, bytes_by_compute|done].
Qed.

(** The host with a connection to the gateway, and the gateway. *)
Definition net_conn : net := default net_zero (run_ops (fun _ _ => 0) connected net_zero).

Definition conn_0 : tcp_conn := default zero_conn (g_tcp_conns net_conn !! 0%nat).

Definition gateway : net :=
  let s := (net_register_device (fun _ _ => 0) gw_mac true net_zero).2 in with_dev (set_addresses gw_ip [255; 255; 255; 0] [0; 0; 0; 0] (g_dev s)) s.

Lemma net_conn_ok : net_ok net_conn.
Proof.
  destruct (run_ops_ok (fun _ _ => 0) connected net_zero zero_ok connected_fits) as (s & E & Hok). unfold net_conn. by rewrite E.
Qed.

Lemma gateway_ok : net_ok gateway.
Proof.
  assert (Hg : net_ok (net_register_device (fun _ _ => 0) gw_mac true net_zero).2) by (apply register_ok; [apply zero_ok|split; [done|by apply bytes_by_compute]]).
  apply with_dev_ok; [done|]. pose proof (no_dev _ Hg) as [Hm _ _ _]. split; [exact Hm|..]; (split; [done|by apply bytes_by_compute]).
Qed.

(** "hi", sent by the gateway in one segment. *)
Definition frame_hi : list Z :=
  match send_ipv4_tcp (fun _ _ => 0) host_mac gw_ip host_ip 80 5000 1000 0 (Z.lor TCP_FLAG_ACK TCP_FLAG_PSH) [104; 105] gateway with
  | Some (_, p) => default [] (last (sent p))
  | None => []
  end.

Lemma frame_hi_ok : peer_frame [104; 105] 999 host_ip gw_ip 80 5000 0 2 frame_hi.
Proof.
  eexists (fun _ _ => 0), host_mac, gateway, _, _, 1000, 0, (Z.lor TCP_FLAG_ACK TCP_FLAG_PSH), [104; 105]. split_and!; [split; [done|by apply bytes_by_compute]|apply no_dev, gateway_ok|lia|lia|done| |vm_compute; reflexivity|vm_compute; reflexivity].
  split; try done; cbn; lia.
Qed.

Lemma net_conn_flowing : flowing [104; 105] 999 host_ip gw_ip 80 5000 0 net_conn conn_0 0.
Proof. split; [apply net_conn_ok|vm_compute; reflexivity|vm_compute; reflexivity|lia|vm_compute; reflexivity|vm_compute; reflexivity|vm_compute; reflexivity|vm_compute; reflexivity|cbn; lia|left; vm_compute; reflexivity]. Qed.

Lemma host_ips_ok : addr_ok 4 host_ip /\ addr_ok 4 gw_ip.
Proof. split; (split; [done|by apply bytes_by_compute]). Qed.

Lemma tcp_stream_prefix_witness : exists s' out c', run_flow (fun _ _ => 0) 0 [Arrives frame_hi []; Arrives frame_hi []; Reads 1; Writes [120]] net_conn = Some (s', out) /\
  g_tcp_conns s' !! Z.to_nat 0 = Some c' /\ out ++ content c' `prefix_of` [104; 105].
Proof.
  destruct host_ips_ok as [H1 H2]. assert (Hf : flow_ok [104; 105] 999 host_ip gw_ip 80 5000 (Arrives frame_hi [])) by (split; [constructor|]; exists 0, 2; exact frame_hi_ok).
  apply (tcp_stream_prefix [104; 105] 999 host_ip gw_ip 80 5000 (fun _ _ => 0) 0 _ net_conn conn_0); [by apply bytes_by_compute|cbn; lia|done|done|lia|lia|exact net_conn_flowing|vm_compute; reflexivity|].
  apply Forall_cons. split; [exact Hf|]. apply Forall_cons. split; [exact Hf|]. apply Forall_cons. split; [cbn; lia|]. apply Forall_cons. split; [by apply bytes_by_compute|constructor].
Defined.

Lemma tcp_stream_complete_witness : exists s', run_flow (fun _ _ => 0) 0 [Arrives frame_hi [7]; Reads 4096] net_conn = Some (s', [104; 105]).
Proof.
  destruct host_ips_ok as [H1 H2].
  apply (tcp_stream_complete [104; 105] 999 host_ip gw_ip 80 5000 (fun _ _ => 0) 0 [frame_hi] [7] net_conn conn_0); [by apply bytes_by_compute|cbn; lia|done|done|lia|lia|exact net_conn_flowing|vm_compute; reflexivity|by apply bytes_by_compute|].
  exists 2. split; [lia|]. split; [exact frame_hi_ok|reflexivity].
Defined.

Lemma gateway_udp : holds (g_udp gateway) [].
Proof.
  assert (E : g_udp gateway = g_udp net_zero) by (vm_compute; reflexivity). rewrite E. split; try (vm_compute; done || (split; [discriminate|reflexivity])). intros k Hk. cbn in Hk. lia.
Qed.

Lemma udp_delivered_witness : exists a' f b' b'', net_send_udp (fun _ _ => 0) (ip (g_dev gateway)) 1000 53 [1; 2; 3] net_conn = Some (0, a') /\ sent a' = sent net_conn ++ [f] /\
  net_rx_frame (fun _ _ => 0) (f ++ [9]) (Z.of_nat (length f)) gateway = Some b' /\
  net_recv_udp_event 53 b' = Some (inr (mkUdp (ip (g_dev net_conn)) 1000 53 (Z.min 3 512) (overlay (take 512 [1; 2; 3]) (replicate 512 0))), b'').
Proof.
  destruct (net_send_udp (fun _ _ => 0) (ip (g_dev gateway)) 1000 53 [1; 2; 3] net_conn) as [[ret a']|] eqn:E; [|vm_compute in E; discriminate E].
  assert (Er : ret = 0) by (vm_compute in E; congruence). subst ret.
  destruct (udp_delivered (fun _ _ => 0) (fun _ _ => 0) net_conn gateway a' 1000 53 [1; 2; 3] [9] [] net_conn_ok gateway_ok) as (f & b' & b'' & H1 & H2 & H3);
    [by apply bytes_by_compute|lia|lia|lia|vm_compute; reflexivity|exact gateway_udp|constructor|exact E|].
  exists a', f, b', b''. split; [reflexivity|]. split; [exact H1|]. split; [exact H2|exact H3].
Defined.
