(* ===== verification/NetDhcp.v ===== *)
(** * The DHCP client

    The options of a message are read as they were written; an offer and its
    acknowledgement configure the device; without an answer the client gives up
    after a fixed time and keeps the static address. *)

From S2P Require Import Prelude Errno Bytes Net NetFrames NetQueue NetProps NetFlow.

(** ** Options *)

(** An option and its encoding. *)
Definition dhcp_option : Type := Z * list Z.

Definition enc_option (o : dhcp_option) : list Z := o.1 :: Z.of_nat (length o.2) :: o.2.

Definition enc_options (l : list dhcp_option) : list Z := concat (enc_option <$> l).

Definition option_fits (o : dhcp_option) : Prop := 0 < o.1 < 255 /\ Z.of_nat (length o.2) < 256 /\ bytes_ok o.2.

(** What an option means to the client; others are ignored. *)
Definition apply_option (r : dhcp_options) (o : dhcp_option) : dhcp_options :=
  let '(code, data) := o in
  if decide (code = DHCP_OPT_MSG_TYPE /\ length data = 1%nat) then mkOpts true (hd 0 data) (o_mask r) (o_router r) (o_server r)
  else if decide (code = DHCP_OPT_SUBNET_MASK /\ length data = 4%nat) then mkOpts (have_type r) (msg_type r) data (o_router r) (o_server r)
  else if decide (code = DHCP_OPT_ROUTER /\ (4 <= length data)%nat) then mkOpts (have_type r) (msg_type r) (o_mask r) (take 4 data) (o_server r)
  else if decide (code = DHCP_OPT_SERVER_ID /\ length data = 4%nat) then mkOpts (have_type r) (msg_type r) (o_mask r) (o_router r) data
  else r.

Lemma enc_options_cons o l : enc_options (o :: l) = enc_option o ++ enc_options l.
Proof. done. Qed.

Lemma enc_length o : Z.of_nat (length (enc_option o)) = 2 + Z.of_nat (length o.2).
Proof. unfold enc_option. cbn. lia. Qed.

(** Reading in the middle of a list. *)
Lemma rd_mid pre l rest off n : Z.of_nat (length pre) = off -> Z.of_nat (length l) = n -> rd (pre ++ l ++ rest) off n = Some l.
Proof.
  intros Hp Hl. unfold rd. rewrite !(proj2 (Z.leb_le _ _)) by (try rewrite !length_app; lia). cbn [andb]. f_equal. rewrite drop_app_length' by lia. by rewrite take_app_length' by lia.
Qed.

Lemma rd_int_mid pre b rest off : Z.of_nat (length pre) = off -> rd_int (pre ++ [b] ++ rest) off 1 = Some b.
Proof. intros Hp. unfold rd_int. rewrite (rd_mid pre [b]) by done. cbn. f_equal. lia. Qed.

Lemma parse_enc l : forall fuel pre rest opts_len i r, Forall option_fits l -> Z.of_nat (length pre) = i ->
  i + Z.of_nat (length (enc_options l)) + 1 <= opts_len -> opts_len - i <= Z.of_nat fuel ->
  dhcp_parse_loop fuel (pre ++ enc_options l ++ [DHCP_OPT_END] ++ rest) opts_len i r = Some (fold_left apply_option l r).
Proof.
  induction l as [|[code data] l IH]; intros fuel pre rest n i r Hl Hp Hn Hf.
  - cbn [enc_options fmap list_fmap concat app length] in *. destruct fuel as [|fuel]; [lia|]. cbn [dhcp_parse_loop]. rewrite (proj2 (Z.ltb_lt i n)) by lia. cbn [negb].
    change (DHCP_OPT_END :: rest) with ([DHCP_OPT_END] ++ rest). rewrite (rd_int_mid pre DHCP_OPT_END rest i) by done. rewrite bind_ret. reflexivity.
  - apply Forall_cons in Hl as [(Hc & Hd & Hb) Hl]. cbn [fst snd] in *. rewrite enc_options_cons, length_app in Hn. pose proof (enc_length (code, data)) as El. cbn [snd] in El.
    set (tail := enc_options l ++ [DHCP_OPT_END] ++ rest). assert (E : pre ++ enc_options ((code, data) :: l) ++ [DHCP_OPT_END] ++ rest = pre ++ [code] ++ [Z.of_nat (length data)] ++ data ++ tail)
      by (rewrite enc_options_cons; unfold enc_option, tail; cbn [fst snd]; by rewrite <- !app_assoc). etrans; [exact (f_equal (fun x => dhcp_parse_loop fuel x n i r) E)|].
    destruct fuel as [|fuel]; [lia|]. cbn [dhcp_parse_loop]. rewrite (proj2 (Z.ltb_lt i n)) by lia. cbn [negb]. rewrite (rd_int_mid pre code _ i) by done. rewrite bind_ret.
    rewrite (proj2 (Z.eqb_neq code DHCP_OPT_END)), (proj2 (Z.eqb_neq code 0)) by lia. rewrite (Z.geb_leb (i + 1)), (proj2 (Z.leb_gt n (i + 1))) by lia. rewrite (app_assoc pre [code]). rewrite (rd_int_mid (pre ++ [code]) _ (data ++ tail) (i + 1)) by (rewrite length_app; cbn; lia). rewrite bind_ret.
    rewrite Z.gtb_ltb, (proj2 (Z.ltb_ge n _)) by lia. set (pre' := (pre ++ [code]) ++ [Z.of_nat (length data)]). assert (Hp' : Z.of_nat (length pre') = i + 1 + 1) by (unfold pre'; rewrite !length_app; cbn; lia).
    assert (E' : (pre ++ [code]) ++ [Z.of_nat (length data)] ++ data ++ tail = pre' ++ data ++ tail) by (unfold pre'; by rewrite <- !app_assoc). rewrite E'.
    assert (Hnext : dhcp_parse_loop fuel (pre' ++ data ++ tail) n (i + 1 + 1 + Z.of_nat (length data)) (apply_option r (code, data)) = Some (fold_left apply_option l (apply_option r (code, data)))).
    { rewrite app_assoc. unfold tail. apply IH; [done|rewrite length_app; lia|lia|lia]. }
    cbn [fold_left]. rewrite <- Hnext. clear Hnext IH E E'. unfold apply_option. rewrite Z.geb_leb.
    destruct (decide (code = _ /\ length data = 1%nat)) as [[-> H1]|N1]; [destruct data as [|b [|]]; try done; cbn [length]; change (pre' ++ [b] ++ tail) with (pre' ++ [b] ++ tail); by rewrite (rd_int_mid pre' b tail) by done|].
    replace ((code =? DHCP_OPT_MSG_TYPE) && (Z.of_nat (length data) =? 1)) with false by (symmetry; apply andb_false_iff; destruct (Z.eqb_spec code DHCP_OPT_MSG_TYPE), (Z.eqb_spec (Z.of_nat (length data)) 1); auto; lia).
    destruct (decide (code = DHCP_OPT_SUBNET_MASK /\ length data = 4%nat)) as [[-> H1]|N2]; [rewrite H1; by rewrite (rd_mid pre' data tail) by lia|].
    replace ((code =? DHCP_OPT_SUBNET_MASK) && (Z.of_nat (length data) =? 4)) with false by (symmetry; apply andb_false_iff; destruct (Z.eqb_spec code DHCP_OPT_SUBNET_MASK), (Z.eqb_spec (Z.of_nat (length data)) 4); auto; lia).
    destruct (decide (code = DHCP_OPT_ROUTER /\ (4 <= length data)%nat)) as [[-> H1]|N3].
    { rewrite (proj2 (Z.leb_le 4 _)) by lia. cbn [Z.eqb Pos.eqb andb]. replace (data ++ tail) with (take 4 data ++ drop 4 data ++ tail) by (by rewrite app_assoc, take_drop). by rewrite (rd_mid pre' (take 4 data)) by (try rewrite length_take; lia). }
    replace ((code =? DHCP_OPT_ROUTER) && (4 <=? Z.of_nat (length data))) with false by (symmetry; apply andb_false_iff; destruct (Z.eqb_spec code DHCP_OPT_ROUTER), (Z.leb_spec 4 (Z.of_nat (length data))); auto; lia).
    destruct (decide (code = DHCP_OPT_SERVER_ID /\ length data = 4%nat)) as [[-> H1]|N4]; [rewrite H1; by rewrite (rd_mid pre' data tail) by lia|].
    by replace ((code =? DHCP_OPT_SERVER_ID) && (Z.of_nat (length data) =? 4)) with false by (symmetry; apply andb_false_iff; destruct (Z.eqb_spec code DHCP_OPT_SERVER_ID), (Z.eqb_spec (Z.of_nat (length data)) 4); auto; lia).
Qed.

(** ** Messages of a server *)

(** A reply with the address [yi] and the options [opts]. *)
Definition reply (xid flags : Z) (yi ch : list Z) (opts : list dhcp_option) : list Z :=
  dhcp_packet DHCP_OP_BOOTREPLY (htonl xid) flags yi ch (htonl DHCP_MAGIC_COOKIE) (enc_options opts ++ [DHCP_OPT_END]).

Record reply_fits (xid : Z) (yi ch : list Z) (opts : list dhcp_option) : Prop := {
  rf_xid : 0 <= xid < 2 ^ 32; rf_yi : addr_ok 4 yi; rf_ch : addr_ok 6 ch; rf_opts : Forall option_fits opts; rf_len : (length (enc_options opts) < 312)%nat }.

(** A frame that some host sent with such a reply. *)
Definition server_frame (xid : Z) (yi : list Z) (opts : list dhcp_option) (f : list Z) : Prop := exists txp m src dst p p' ret flags ch,
  addr_ok 6 m /\ addr_ok 4 src /\ addr_ok 4 dst /\ dev_ok (g_dev p) /\ reply_fits xid yi ch opts /\
  send_ipv4_udp txp m src dst UDP_PORT_DHCP_SERVER UDP_PORT_DHCP_CLIENT (reply xid flags yi ch opts) p = Some (ret, p') /\ sent p' = sent p ++ [f].

Lemma enc_ok opts : Forall option_fits opts -> bytes_ok (enc_options opts).
Proof.
  induction 1 as [|[code data] l (Hc & Hd & Hb) _ IH]; [constructor|]. cbn [fst snd] in *. rewrite enc_options_cons. apply Forall_app. split; [|done]. unfold enc_option. cbn [fst snd]. repeat constructor; [lia|lia|lia|lia|done].
Qed.

Lemma reply_ok xid flags yi ch opts : reply_fits xid yi ch opts -> bytes_ok (reply xid flags yi ch opts) /\ length (reply xid flags yi ch opts) = 552%nat.
Proof.
  intros [Hx Hy [Hc Hcb] Ho Hl]. apply dhcp_packet_ok; [lia|done|done|lia|apply Forall_app; split; [by apply enc_ok|repeat constructor; lia]|rewrite length_app; cbn; lia].
Qed.

(** The fields of a reply. *)
Lemma reply_fields xid flags yi ch opts slack : reply_fits xid yi ch opts -> let pkt := reply xid flags yi ch opts ++ slack in
  rd_int pkt 0 1 = Some DHCP_OP_BOOTREPLY /\ rd_int pkt 4 4 = Some (htonl xid) /\ rd_int pkt 236 4 = Some (htonl DHCP_MAGIC_COOKIE) /\ rd pkt 16 4 = Some yi /\
  exists rest, drop 240 pkt = enc_options opts ++ [DHCP_OPT_END] ++ rest.
Proof.
  intros [Hx [Hy Hyb] [Hc Hcb] Ho Hl] pkt. assert (Hv : forall v, 0 <= v < 2 ^ 32 -> le_value (le_bytes 4 v) = v) by (intros v Hv; rewrite le_value_bytes; by apply Z.mod_small).
  assert (Hch : length (overlay ch (replicate 16 0)) = 16%nat) by (unfold overlay; rewrite length_app, length_drop, length_replicate; lia).
  set (opt := overlay (enc_options opts ++ [DHCP_OPT_END]) (replicate 312 0)).
  set (mid := le_bytes 4 0 ++ le_bytes 4 0 ++ overlay ch (replicate 16 0) ++ replicate 64 0 ++ replicate 128 0). set (head := [DHCP_OP_BOOTREPLY; 1; 6; 0]). set (h2 := le_bytes 2 0 ++ le_bytes 2 flags ++ le_bytes 4 0).
  assert (Ep : pkt = head ++ le_bytes 4 (htonl xid) ++ h2 ++ yi ++ mid ++ le_bytes 4 (htonl DHCP_MAGIC_COOKIE) ++ opt ++ slack) by (unfold pkt, reply, dhcp_packet, mid, h2, head, opt; by rewrite <- !app_assoc).
  assert (Hmid : length mid = 216%nat) by (unfold mid; rewrite !length_app, Hch; done). assert (Hh2 : length h2 = 8%nat) by done.
  split_and!.
  - rewrite Ep. by apply (rd_int_mid [] DHCP_OP_BOOTREPLY ([1; 6; 0] ++ _) 0).
  - rewrite Ep. unfold rd_int. rewrite (rd_mid head (le_bytes 4 (htonl xid))) by done. rewrite bind_ret, Hv by apply ntohl_range. done.
  - rewrite Ep. unfold rd_int. replace (head ++ le_bytes 4 (htonl xid) ++ h2 ++ yi ++ mid ++ le_bytes 4 (htonl DHCP_MAGIC_COOKIE) ++ opt ++ slack) with ((head ++ le_bytes 4 (htonl xid) ++ h2 ++ yi ++ mid) ++ le_bytes 4 (htonl DHCP_MAGIC_COOKIE) ++ opt ++ slack) by (by rewrite <- !app_assoc).
    rewrite rd_mid; [|rewrite !length_app, Hmid, Hh2, Hy; done|done]. rewrite bind_ret, Hv by apply ntohl_range. done.
  - rewrite Ep. replace (head ++ le_bytes 4 (htonl xid) ++ h2 ++ yi ++ mid ++ le_bytes 4 (htonl DHCP_MAGIC_COOKIE) ++ opt ++ slack) with ((head ++ le_bytes 4 (htonl xid) ++ h2) ++ yi ++ mid ++ le_bytes 4 (htonl DHCP_MAGIC_COOKIE) ++ opt ++ slack) by (by rewrite <- !app_assoc).
    apply rd_mid; [done|by rewrite Hy].
  - exists (drop (length (enc_options opts ++ [DHCP_OPT_END])) (replicate 312 0) ++ slack). rewrite Ep.
    replace (head ++ le_bytes 4 (htonl xid) ++ h2 ++ yi ++ mid ++ le_bytes 4 (htonl DHCP_MAGIC_COOKIE) ++ opt ++ slack) with ((head ++ le_bytes 4 (htonl xid) ++ h2 ++ yi ++ mid ++ le_bytes 4 (htonl DHCP_MAGIC_COOKIE)) ++ opt ++ slack) by (by rewrite <- !app_assoc).
    rewrite drop_app_length' by (rewrite !length_app, Hmid, Hh2, Hy; done). unfold opt, overlay. by rewrite <- !app_assoc.
Qed.

Lemma reply_parsed xid flags yi ch opts slack r : reply_fits xid yi ch opts -> dhcp_parse_options (drop 240 (reply xid flags yi ch opts ++ slack)) 312 r = Some (fold_left apply_option opts r).
Proof.
  intros Hf. destruct (reply_fields xid flags yi ch opts slack Hf) as (_ & _ & _ & _ & rest & ->). destruct Hf as [_ _ _ Ho Hl]. unfold dhcp_parse_options. apply (parse_enc opts (Z.to_nat 312) [] rest 312 0 r Ho); [done|lia|lia].
Qed.

Section Client.
Context (tx : nat -> list Z -> Z).

(** A reply we wait for goes to the client. *)
Lemma rx_dhcp yi opts f slack s : server_frame (dh_xid (g_dhcp s)) yi opts f -> present (g_dev s) = true -> dh_state (g_dhcp s) = DHCP_DISCOVER_SENT \/ dh_state (g_dhcp s) = DHCP_REQUEST_SENT ->
  exists flags ch, reply_fits (dh_xid (g_dhcp s)) yi ch opts /\
    let pkt := reply (dh_xid (g_dhcp s)) flags yi ch opts ++ slack in
    net_rx_frame tx (f ++ slack) (Z.of_nat (length f)) s = (s ← dhcp_on_offer tx pkt 312 s; dhcp_on_ack tx pkt 312 s).
Proof.
  intros (txp & m & src & dst & p & p' & ret & flags & ch & Hm & Hs & Hd & Hp & Hf & Hsend & Hsent) Hpr Hst. exists flags, ch. split; [done|]. cbv zeta. set (xid := dh_xid (g_dhcp s)) in *.
  destruct (reply_ok xid flags yi ch opts Hf) as [Hrb Hrl]. remember (reply xid flags yi ch opts) as pay eqn:Epay.
  destruct (send_udp_eq txp m src dst UDP_PORT_DHCP_SERVER UDP_PORT_DHCP_CLIENT pay p) as (h & Eh & _ & E); [done|done|done|done|done|intros E; by rewrite E in Hrl|rewrite Hrl; lia|].
  cbv zeta in E. rewrite Hrl in Eh, E. change (8 + Z.of_nat 552) with 560 in E. change (28 + Z.of_nat 552) with 580 in Eh. rewrite E in Hsend. clear E. injection Hsend as Hsend. unfold net_tx_raw in Hsend.
  assert (Hno : sent p <> sent p ++ [f]) by (intros E; apply (f_equal length) in E; rewrite length_app in E; cbn in E; lia).
  destruct (present (g_dev p)); cbn [negb] in Hsend; injection Hsend as _ <-; [|done]. cbn [sent with_sent] in Hsent. apply app_inj_tail in Hsent as [_ <-].
  set (hdr := udp_hdr (htons UDP_PORT_DHCP_SERVER) (htons UDP_PORT_DHCP_CLIENT) (htons 560)).
  assert (Hbl : length (hdr ++ pay) = 560%nat) by (rewrite length_app, Hrl; done).
  rewrite (rx_ipv4 tx m (mac (g_dev p)) src dst IPV4_PROTO_UDP h (hdr ++ pay)); [|done|apply Hp|done|done|lia|rewrite Hbl; lia|done|rewrite Hbl; exact Eh]. cbn [Z.eqb Pos.eqb].
  rewrite <- app_assoc, Hbl. change (Z.of_nat 560) with 560. unfold udp_input. change (560 <? 8) with false. rewrite (rd_int_app_l hdr _ 0 2), (rd_int_app_l hdr _ 2 2), (rd_int_app_l hdr _ 4 2) by (change (length hdr) with 8%nat; lia). rewrite !bind_ret.
  change (ntohs (le_value (take (Z.to_nat 2) (drop (Z.to_nat 0) hdr)))) with 67. change (ntohs (le_value (take (Z.to_nat 2) (drop (Z.to_nat 2) hdr)))) with 68. change (ntohs (le_value (take (Z.to_nat 2) (drop (Z.to_nat 4) hdr)))) with 560.
  cbv zeta. rewrite (bool_decide_eq_true_2 (_ \/ _)) by exact Hst. change ((560 >=? 8) && (560 <=? 560) && (68 =? 68) && (67 =? 67) && true) with true. cbv iota. change (560 - 8 <? 240) with false. cbv iota.
  rewrite (drop_app_length' hdr) by done. destruct (reply_fields xid flags yi ch opts slack Hf) as (F1 & F2 & F3 & _). cbv zeta in F1, F2, F3. rewrite <- Epay in F1, F2, F3. rewrite F1, F2, F3, !bind_ret. destruct Hf as [Hx _ _ _ _].
  assert (Ex : ntohl (htonl xid) = xid). { rewrite <- (ntohl_be32 xid Hx) at 2. f_equal. rewrite <- (le_bytes_htonl xid Hx), le_value_bytes. symmetry. apply Z.mod_small, ntohl_range. }
  rewrite Ex. fold xid. by rewrite !Z.eqb_refl.
Qed.

(** The options of an offer and of an acknowledgement, as the client reads them. *)
Definition offer_options (opts : list dhcp_option) : dhcp_options := fold_left apply_option opts (mkOpts false 0 [0; 0; 0; 0] [0; 0; 0; 0] [0; 0; 0; 0]).
Definition ack_options (opts : list dhcp_option) : dhcp_options := fold_left apply_option opts (mkOpts false 0 [255; 255; 255; 0] [0; 0; 0; 0] [0; 0; 0; 0]).

Lemma rx_offer yi opts f slack s : net_ok s -> bytes_ok slack -> server_frame (dh_xid (g_dhcp s)) yi opts f -> present (g_dev s) = true -> dh_state (g_dhcp s) = DHCP_DISCOVER_SENT ->
  have_type (offer_options opts) = true -> msg_type (offer_options opts) = DHCP_MSG_OFFER -> have_type (ack_options opts) = true -> msg_type (ack_options opts) = DHCP_MSG_OFFER ->
  exists s', net_rx_frame tx (f ++ slack) (Z.of_nat (length f)) s = Some s' /\ net_ok s' /\ g_dev s' = g_dev s /\ dh_state (g_dhcp s') = DHCP_REQUEST_SENT /\ dh_xid (g_dhcp s') = dh_xid (g_dhcp s) /\
    offered_ip (g_dhcp s') = yi /\ server_id (g_dhcp s') = o_server (offer_options opts).
Proof.
  intros Hok Hsl Hf Hpr Hst H1 H2 H3 H4. destruct (rx_dhcp yi opts f slack s Hf Hpr (or_introl Hst)) as (flags & ch & Hfit & E). cbv zeta in E. rewrite E. clear E.
  set (pkt := reply _ flags yi ch opts ++ slack). destruct (reply_ok _ flags yi ch opts Hfit) as [Hrb Hrl]. assert (Hpb : bytes_ok pkt) by (by apply Forall_app).
  assert (Hpl : 552 <= Z.of_nat (length pkt)) by (unfold pkt; rewrite length_app, Hrl; lia). destruct (reply_fields _ flags yi ch opts slack Hfit) as (_ & _ & _ & Hyi & _). cbv zeta in Hyi.
  destruct (on_offer_ok tx pkt 312 s Hok Hpb) as (s1 & E1 & Hok1); [lia|lia|]. rewrite E1, bind_ret.
  unfold dhcp_on_offer, pkt in E1. rewrite (reply_parsed _ flags yi ch opts slack _ Hfit), bind_ret in E1. fold (offer_options opts) in E1. rewrite H1, H2, Hst, Hyi, bind_ret in E1. cbn [negb orb Z.eqb Pos.eqb] in E1.
  rewrite bool_decide_eq_true_2 in E1 by done. cbn [negb orb] in E1. apply bind_Some in E1 as ([ret s2] & E1 & [= ->]).
  assert (Hs1 : g_dev s1 = g_dev s /\ dh_state (g_dhcp s1) = DHCP_REQUEST_SENT /\ dh_xid (g_dhcp s1) = dh_xid (g_dhcp s) /\ offered_ip (g_dhcp s1) = yi /\ server_id (g_dhcp s1) = o_server (offer_options opts)).
  { pose proof (rd_ok pkt 16 4 Hpb ltac:(lia) ltac:(lia) ltac:(lia)) as (l & El & Hl4). unfold pkt in El. rewrite Hyi in El. injection El as <-. destruct (parse_ok pkt 312 (mkOpts false 0 [0; 0; 0; 0] [0; 0; 0; 0] [0; 0; 0; 0]) Hpb) as (o & Eo & [_ Om Or Os]); [lia|lia|split; cbn; [lia|apply (zeros_ok 4)..]|].
    unfold pkt in Eo. rewrite (reply_parsed _ flags yi ch opts slack _ Hfit) in Eo. fold (offer_options opts) in Eo. injection Eo as <-. unfold dhcp_send_request in E1. pose proof (no_dhcp s Hok) as [].
    edestruct (dhcp_send_ok tx DHCP_REQUEST_SENT) as (r' & s' & E' & _ & Hsd); [| | |rewrite E' in E1; injection E1 as _ ->; destruct (sends_keeps _ _ Hsd) as [[Kd _ _ _ _ Kh] _]; rewrite Kd, Kh; done].
    - apply with_dhcp_ok; [done|by split].
    - cbn [g_dhcp with_dhcp offered_ip server_id]. destruct Hl4 as [_ Hyb], Os as [_ Osb]. unfold bytes_ok. rewrite !Forall_app. split_and!; try done; repeat constructor; lia.
    - cbn [g_dhcp with_dhcp offered_ip server_id]. destruct Hl4 as [Hyl _], Os as [Osl _]. rewrite !length_app, Hyl, Osl. cbn. lia. }
  unfold dhcp_on_ack, pkt. rewrite (reply_parsed _ flags yi ch opts slack _ Hfit), bind_ret. fold (ack_options opts). rewrite H3, H4. cbn [negb orb Z.eqb Pos.eqb]. destruct Hs1 as (? & ? & ? & ? & ?). exists s1. by split_and!.
Qed.

Lemma rx_ack yi opts f slack s : net_ok s -> bytes_ok slack -> server_frame (dh_xid (g_dhcp s)) yi opts f -> present (g_dev s) = true -> dh_state (g_dhcp s) = DHCP_REQUEST_SENT ->
  have_type (offer_options opts) = true -> msg_type (offer_options opts) = DHCP_MSG_ACK -> have_type (ack_options opts) = true -> msg_type (ack_options opts) = DHCP_MSG_ACK ->
  exists s', net_rx_frame tx (f ++ slack) (Z.of_nat (length f)) s = Some s' /\ net_ok s' /\ dh_state (g_dhcp s') = DHCP_BOUND /\
    ip (g_dev s') = yi /\ mask (g_dev s') = o_mask (ack_options opts) /\ gw (g_dev s') = o_router (ack_options opts).
Proof.
  intros Hok Hsl Hf Hpr Hst H1 H2 H3 H4. destruct (rx_dhcp yi opts f slack s Hf Hpr (or_intror Hst)) as (flags & ch & Hfit & E). cbv zeta in E. rewrite E. clear E.
  set (pkt := reply _ flags yi ch opts ++ slack). destruct (reply_ok _ flags yi ch opts Hfit) as [Hrb Hrl]. assert (Hpb : bytes_ok pkt) by (by apply Forall_app).
  assert (Hpl : 552 <= Z.of_nat (length pkt)) by (unfold pkt; rewrite length_app, Hrl; lia). destruct (reply_fields _ flags yi ch opts slack Hfit) as (_ & _ & _ & Hyi & _). cbv zeta in Hyi.
  destruct (on_offer_ok tx pkt 312 s Hok Hpb) as (s1 & E1 & Hok1); [lia|lia|].
  assert (s1 = s) as -> by (unfold dhcp_on_offer, pkt in E1; rewrite (reply_parsed _ flags yi ch opts slack _ Hfit), bind_ret in E1; fold (offer_options opts) in E1; rewrite H1, H2 in E1; cbn [negb orb Z.eqb Pos.eqb] in E1; congruence).
  rewrite E1, bind_ret. destruct (on_ack_ok tx pkt 312 s Hok Hpb) as (s2 & E2 & Hok2); [lia|lia|]. exists s2. split; [done|]. split; [done|].
  unfold dhcp_on_ack, pkt in E2. rewrite (reply_parsed _ flags yi ch opts slack _ Hfit), bind_ret in E2. fold (ack_options opts) in E2. rewrite H3, H4, Hst, Hyi, bind_ret in E2. cbn [negb orb Z.eqb Pos.eqb] in E2.
  rewrite bool_decide_eq_true_2 in E2 by done. cbn [negb orb] in E2. injection E2 as <-. case_match; [|done]. unfold send_arp_request, net_tx_raw. by case_match.
Qed.

(** The type of a message does not depend on the defaults of the other fields. *)
Lemma same_type opts : forall r r', have_type r = have_type r' -> msg_type r = msg_type r' ->
  have_type (fold_left apply_option opts r) = have_type (fold_left apply_option opts r') /\ msg_type (fold_left apply_option opts r) = msg_type (fold_left apply_option opts r').
Proof.
  induction opts as [|[code data] opts IH]; intros r r' H1 H2; [done|]. cbn [fold_left]. apply IH; unfold apply_option; repeat case_decide; cbn; done.
Qed.

(** ** Without an answer *)

Lemma u32_u64 x : u32 (u64 x) = u32 x.
Proof. unfold u32, u64. apply Z.mod_mod_divide. by exists (2 ^ 32). Qed.

Lemma elapsed_sub a b : 0 <= a - b < 2 ^ 32 -> u32 (u32 (u64 a) - u32 b) = a - b.
Proof. intros H. rewrite u32_u64. unfold u32. rewrite <- Zminus_mod. by apply Z.mod_small. Qed.

(** Ticks of the timer while the device has received nothing. *)
Fixpoint quiet_ticks (n : nat) (s : net) : option net :=
  match n with
  | O => Some s
  | S n => s ← quiet_ticks n s; net_tick tx [] s
  end.

(** The client after [n] ticks, [t0] the tick it started at. *)
Record waiting (t0 n : Z) (s : net) : Prop := {
  wt_ok : net_ok s; wt_present : present (g_dev s) = true; wt_tick : g_tick_count s = u64 (t0 + n);
  wt_state : dh_state (g_dhcp s) = if n =? 0 then DHCP_DISABLED else if n <=? 1000 then DHCP_DISCOVER_SENT else DHCP_FAILED;
  wt_retries : dh_retries (g_dhcp s) = Z.min 5 ((n + 199) / 200);
  wt_last : 0 < n -> dh_last_event_tick (g_dhcp s) = u32 (t0 + 1 + 200 * (Z.min 5 ((n + 199) / 200) - 1));
  wt_ip : ip (g_dev s) = [10; 0; 2; 15]; wt_mask : mask (g_dev s) = [255; 255; 255; 0]; wt_gw : gw (g_dev s) = [10; 0; 2; 2] }.

Lemma waiting_keeps t0 n s s' : waiting t0 n s -> net_ok s' -> keeps s s' -> waiting t0 n s'.
Proof. intros [] Hok []. split; congruence || (intros; rewrite k_dhcp; auto). Qed.

(** A discover message starts the wait again. *)
Lemma discover_waiting t0 n s : 0 <= n <= 800 -> n mod 200 = 0 -> net_ok s -> present (g_dev s) = true -> g_tick_count s = u64 (t0 + (n + 1)) -> dh_retries (g_dhcp s) = n / 200 ->
  ip (g_dev s) = [10; 0; 2; 15] -> mask (g_dev s) = [255; 255; 255; 0] -> gw (g_dev s) = [10; 0; 2; 2] ->
  exists s', ('(_, s) ← dhcp_send_discover tx s; Some s) = Some s' /\ waiting t0 (n + 1) s'.
Proof.
  intros Hn Hm Hok Hp Ht Hr H1 H2 H3. unfold dhcp_send_discover. edestruct (dhcp_send_ok tx DHCP_DISCOVER_SENT) as (r & s' & E & Hok' & Hs); [exact Hok|..|setoid_rewrite E]; [repeat constructor; lia|cbn; lia|].
  rewrite bind_ret. exists s'. split; [done|]. destruct (sends_keeps _ _ Hs) as [[Kd _ Kt _ _ Kh] _]. cbn [g_dev g_tick_count g_dhcp with_dhcp] in Kd, Kt, Kh.
  assert (Eq : (n + 1 + 199) / 200 = n / 200 + 1) by (rewrite <- (Z.div_add n 1 200) by lia; f_equal; lia). assert (n = 200 * (n / 200)) by (rewrite (Z.div_mod n 200) at 1; lia).
  split; rewrite ?Kd, ?Kt, ?Kh; try done; cbn [dh_state dh_retries dh_last_event_tick set_dhcp].
  - destruct (Z.eqb_spec (n + 1) 0); [lia|]. by rewrite (proj2 (Z.leb_le _ _)) by lia.
  - rewrite Hr, Eq, Z.min_r by lia. apply u32_small. lia.
  - intros _. rewrite Ht, Eq, Z.min_r by lia. replace (t0 + 1 + 200 * (n / 200 + 1 - 1)) with (t0 + (n + 1)) by lia. apply u32_u64.
Qed.

Lemma dhcp_tick_waiting t0 n s : 0 <= n -> waiting t0 n s -> exists s', dhcp_tick tx (with_ticks (u64 (g_tick_count s + 1)) s) = Some s' /\ waiting t0 (n + 1) s'.
Proof.
  intros Hn []. set (s1 := with_ticks _ s). assert (Ht : u64 (g_tick_count s + 1) = u64 (t0 + (n + 1))) by (rewrite wt_tick0; unfold u64; rewrite Zplus_mod_idemp_l; f_equal; lia).
  assert (Hok1 : net_ok s1) by (destruct wt_ok0; split; try done; apply u64_range). pose proof (Z.div_mod (n + 199) 200 ltac:(lia)). pose proof (Z.mod_pos_bound (n + 199) 200 ltac:(lia)).
  pose proof (Z.div_mod (n + 1 + 199) 200 ltac:(lia)). pose proof (Z.mod_pos_bound (n + 1 + 199) 200 ltac:(lia)).
  assert (Hsame : 0 < n -> Z.min 5 ((n + 1 + 199) / 200) = Z.min 5 ((n + 199) / 200) -> (n = 1000 -> False) -> waiting t0 (n + 1) s1).
  { intros Hpos E Hne. split; rewrite ?E; try done; [|by auto]. cbn. rewrite wt_state0. destruct (Z.eqb_spec n 0), (Z.eqb_spec (n + 1) 0), (Z.leb_spec n 1000), (Z.leb_spec (n + 1) 1000); done || lia. }
  unfold dhcp_tick. cbn [g_dhcp s1 with_ticks g_dev]. cbv zeta. rewrite wt_state0, wt_present0. cbn [negb]. destruct (Z.eqb_spec n 0) as [-> | Hn0].
  - apply (discover_waiting t0 0 s1); try done; lia.
  - destruct (Z.leb_spec n 1000); [|exists s1; split; [done|apply Hsame; lia]]. rewrite wt_last0 by lia. change (g_tick_count s1) with (u64 (g_tick_count s + 1)). rewrite Ht, elapsed_sub by lia.
    destruct (Z.ltb_spec (t0 + (n + 1) - (t0 + 1 + 200 * (Z.min 5 ((n + 199) / 200) - 1))) DHCP_RETRY_TICKS); [exists s1; split; [done|apply Hsame; lia]|].
    assert (Hm : n mod 200 = 0 /\ n = 200 * (n / 200)) by (pose proof (Z.div_mod n 200 ltac:(lia)); pose proof (Z.mod_pos_bound n 200 ltac:(lia)); lia). destruct Hm as [Hm Hd].
    rewrite wt_retries0, Z.geb_leb. destruct (Z.leb_spec DHCP_MAX_RETRIES (Z.min 5 ((n + 199) / 200))).
    + eexists. split; [reflexivity|]. assert (n = 1000) as -> by lia.
      split; [apply fallback_ok, with_dhcp_ok; [done|]; pose proof (no_dhcp s wt_ok0) as []; split; cbn; try done; apply u32_range || lia|..]; unfold dhcp_apply_fallback_static, send_arp_request, net_tx_raw; cbn [g_dev with_dev with_dhcp s1 with_ticks present set_addresses]; rewrite wt_present0; done.
    + apply (discover_waiting t0 n s1); try done; try lia. cbn. lia.
Qed.

Lemma tick_waiting t0 n s : 0 <= n -> waiting t0 n s -> exists s', net_tick tx [] s = Some s' /\ waiting t0 (n + 1) s'.
Proof.
  intros Hn Hw. unfold net_tick. destruct (dhcp_tick_waiting t0 n s Hn Hw) as (s1 & -> & Hw1). rewrite bind_ret.
  destruct (tcp_ticks_ok tx (Z.to_nat NET_TCP_CONN_MAX) 0 s1 (wt_ok _ _ _ Hw1)) as (s2 & -> & Hok2 & Hk); [done|]. rewrite bind_ret. exists s2. split; [by case_match|by eapply waiting_keeps].
Qed.

Lemma quiet_waiting t0 n s : waiting t0 0 s -> exists s', quiet_ticks n s = Some s' /\ waiting t0 (Z.of_nat n) s'.
Proof.
  intros Hw. induction n as [|n (s1 & E & Hw1)]; [by exists s|]. cbn [quiet_ticks]. rewrite E, bind_ret. destruct (tick_waiting t0 (Z.of_nat n) s1) as (s' & E' & Hw'); [lia|done|].
  exists s'. split; [done|]. by replace (Z.of_nat (S n)) with (Z.of_nat n + 1) by lia.
Qed.
End Client.

(** C19. The client configures the device from a server: while it looks for a server, a
    frame any host has sent with an offer for its transaction and then one with an
    acknowledgement, whatever options they carry, in whatever order, and whatever
    follows them in the receive buffers, leave it bound, with the address of the
    acknowledgement, its router, and its mask (or 255.255.255.0); in between it has
    sent its request, with the address and the server of the offer, and the device
    is as before. *)
Theorem dhcp_binds tx s f1 f2 slack1 slack2 yi1 yi2 opts1 opts2 (Hok : net_ok s) (Hpr : present (g_dev s) = true) (Hst : dh_state (g_dhcp s) = DHCP_DISCOVER_SENT)
    (Hf1 : server_frame (dh_xid (g_dhcp s)) yi1 opts1 f1) (Hf2 : server_frame (dh_xid (g_dhcp s)) yi2 opts2 f2) (Hb1 : bytes_ok slack1) (Hb2 : bytes_ok slack2)
    (Ht1 : have_type (ack_options opts1) = true /\ msg_type (ack_options opts1) = DHCP_MSG_OFFER) (Ht2 : have_type (ack_options opts2) = true /\ msg_type (ack_options opts2) = DHCP_MSG_ACK) :
  exists s1 s2, net_rx_frame tx (f1 ++ slack1) (Z.of_nat (length f1)) s = Some s1 /\ net_rx_frame tx (f2 ++ slack2) (Z.of_nat (length f2)) s1 = Some s2 /\ net_ok s2 /\
    dh_state (g_dhcp s1) = DHCP_REQUEST_SENT /\ g_dev s1 = g_dev s /\ offered_ip (g_dhcp s1) = yi1 /\ server_id (g_dhcp s1) = o_server (offer_options opts1) /\
    dh_state (g_dhcp s2) = DHCP_BOUND /\ ip (g_dev s2) = yi2 /\ mask (g_dev s2) = o_mask (ack_options opts2) /\ gw (g_dev s2) = o_router (ack_options opts2).
Proof.
  destruct Ht1 as [T1 T2], Ht2 as [T3 T4].
  destruct (same_type opts1 (mkOpts false 0 [0; 0; 0; 0] [0; 0; 0; 0] [0; 0; 0; 0]) (mkOpts false 0 [255; 255; 255; 0] [0; 0; 0; 0] [0; 0; 0; 0])) as [A1 A2]; [done..|].
  destruct (same_type opts2 (mkOpts false 0 [0; 0; 0; 0] [0; 0; 0; 0] [0; 0; 0; 0]) (mkOpts false 0 [255; 255; 255; 0] [0; 0; 0; 0] [0; 0; 0; 0])) as [A3 A4]; [done..|].
  fold (offer_options opts1) (ack_options opts1) in A1, A2. fold (offer_options opts2) (ack_options opts2) in A3, A4.
  destruct (rx_offer tx yi1 opts1 f1 slack1 s) as (s1 & E1 & Hok1 & Hd & Hs1 & Hx & Ho & Hsv); try done; [congruence..|].
  destruct (rx_ack tx yi2 opts2 f2 slack2 s1) as (s2 & E2 & Hok2 & Hs2 & Hip & Hmk & Hgw); try done; [congruence..|]. exists s1, s2. by split_and!.
Qed.

(** C21. Without an answer the client gives up: from the registration of the device, [n]
    ticks in which nothing is received count one attempt in the first tick and one in
    every 200th after it, five in all; until the tick 1000 the client looks for a
    server, from the tick 1001 on it has given up, and the static address of the
    registration is kept all the time. *)
Theorem dhcp_gives_up tx s m poll n (Hok : net_ok s) (Hm : addr_ok 6 m) (Hno : present (g_dev s) = false) :
  exists s', quiet_ticks tx n (net_register_device tx m poll s).2 = Some s' /\ net_ok s' /\
    dh_state (g_dhcp s') = (if decide (n = 0%nat) then DHCP_DISABLED else if decide (n <= 1000)%nat then DHCP_DISCOVER_SENT else DHCP_FAILED) /\
    dh_retries (g_dhcp s') = Z.min 5 ((Z.of_nat n + 199) / 200) /\ ip (g_dev s') = [10; 0; 2; 15] /\ mask (g_dev s') = [255; 255; 255; 0] /\ gw (g_dev s') = [10; 0; 2; 2].
Proof.
  pose proof (register_ok tx m poll s Hok Hm) as Hok1. destruct (quiet_waiting tx (g_tick_count s) n (net_register_device tx m poll s).2) as (s' & E & []).
  - split; [done|..]; unfold net_register_device; rewrite Hno; cbn [snd]; unfold send_arp_request, net_tx_raw; cbn [g_dev with_dev with_dhcp present negb]; try done.
    cbn. rewrite Z.add_0_r. symmetry. apply u64_small, Hok.
  - exists s'. split_and!; try done. rewrite wt_state0. destruct (Z.eqb_spec (Z.of_nat n) 0), (Z.leb_spec (Z.of_nat n) 1000); repeat case_decide; done || lia.
Qed.

(** ** Examples *)

(** The host after its first discover message. *)
Definition searching : net := default net_zero (quiet_ticks (fun _ _ => 0) 1 (net_register_device (fun _ _ => 0) host_mac true net_zero).2).

Lemma searching_ok : net_ok searching.
Proof.
  assert (Hr : net_ok (net_register_device (fun _ _ => 0) host_mac true net_zero).2) by (apply register_ok; [apply zero_ok|split; [done|by apply bytes_by_compute]]).
  destruct (net_tick_ok (fun _ _ => 0) [] _ Hr) as (s & E & Hok); [constructor|]. unfold searching. cbn [quiet_ticks]. rewrite bind_ret. by rewrite E.
Qed.

(** The answers of the gateway. *)
Definition lease (t : Z) : list dhcp_option := [(DHCP_OPT_MSG_TYPE, [t]); (DHCP_OPT_SERVER_ID, gw_ip); (51, [0; 0; 14; 16]); (DHCP_OPT_ROUTER, gw_ip ++ [8; 8; 8; 8])].

Definition leased (t : Z) : list Z :=
  match send_ipv4_udp (fun _ _ => 0) broadcast_mac gw_ip (replicate 4 255) UDP_PORT_DHCP_SERVER UDP_PORT_DHCP_CLIENT (reply (dh_xid (g_dhcp searching)) 0 [10; 0; 2; 77] host_mac (lease t)) gateway with
  | Some (_, p) => default [] (last (sent p))
  | None => []
  end.

Lemma lease_fits t : 0 <= t < 256 -> reply_fits (dh_xid (g_dhcp searching)) [10; 0; 2; 77] host_mac (lease t).
Proof.
  intros Ht. split; [apply (no_dhcp _ searching_ok)|split; [done|by apply bytes_by_compute]|split; [done|by apply bytes_by_compute]| |cbn; lia].
  unfold lease. repeat constructor; cbn; lia.
Qed.

Lemma leased_sent t : t = 2 \/ t = 5 -> server_frame (dh_xid (g_dhcp searching)) [10; 0; 2; 77] (lease t) (leased t).
Proof.
  intros Ht. eexists (fun _ _ => 0), broadcast_mac, gw_ip, (replicate 4 255), gateway, _, _, 0, host_mac.
  split_and!; [split; [done|by apply bytes_by_compute]|split; [done|by apply bytes_by_compute]|split; [done|by apply bytes_by_compute]|apply no_dev, gateway_ok|apply lease_fits; lia|..]; destruct Ht as [-> | ->]; vm_compute; reflexivity.
Qed.

Lemma dhcp_binds_witness : exists s1 s2, net_rx_frame (fun _ _ => 0) (leased 2 ++ [1; 2]) (Z.of_nat (length (leased 2))) searching = Some s1 /\
  net_rx_frame (fun _ _ => 0) (leased 5 ++ []) (Z.of_nat (length (leased 5))) s1 = Some s2 /\ dh_state (g_dhcp s2) = DHCP_BOUND /\ ip (g_dev s2) = [10; 0; 2; 77] /\ gw (g_dev s2) = gw_ip.
Proof.
  destruct (dhcp_binds (fun _ _ => 0) searching (leased 2) (leased 5) [1; 2] [] [10; 0; 2; 77] [10; 0; 2; 77] (lease 2) (lease 5)) as (s1 & s2 & E1 & E2 & _ & _ & _ & _ & _ & H1 & H2 & _ & H3);
    [exact searching_ok|vm_compute; reflexivity|vm_compute; reflexivity|apply leased_sent; by left|apply leased_sent; by right|by apply bytes_by_compute|constructor|done|done|].
  exists s1, s2. split_and!; done.
Defined.

Lemma dhcp_gives_up_witness : exists s', quiet_ticks (fun _ _ => - 5) 1001 (net_register_device (fun _ _ => - 5) host_mac true net_zero).2 = Some s' /\ dh_state (g_dhcp s') = DHCP_FAILED /\ dh_retries (g_dhcp s') = 5.
Proof.
  destruct (dhcp_gives_up (fun _ _ => - 5) net_zero host_mac true 1001) as (s' & E & _ & H1 & H2 & _); [apply zero_ok|split; [done|by apply bytes_by_compute]|reflexivity|]. exists s'. split; [exact E|]. split; [rewrite H1; reflexivity|rewrite H2; reflexivity].
Defined.
